(* ===== verification/_CoqProject ===== *)
-Q . S2P
Prelude.v
TcpSeq.v
Callout.v
CalloutWheel.v
SockBuf.v
TcpReass.v
TcpOptions.v
TcpSack.v
TcpCC.v
TcpTimer.v
TcpOutput.v
TcpOutputStream.v
TcpOutputTimers.v
TcpInput.v
TcpInputFrame.v
TcpInputRecv.v
HostCache.v
SockLife.v
SockLifeInv.v
SockLifeOps.v
SockLifeNew.v
SockLifeConn.v
SockLifeSafe.v
SockLifeTime.v
InPromisc.v
Syncache.v
SyncacheTable.v
SyncacheSafe.v
SyncacheCookie.v
InPcb.v
InPcbTables.v
Nv.v
