(* ===== verification/Prelude.v ===== *)
(** * A verification of libuinet, the user-space FreeBSD TCP/IP stack

    libuinet is the FreeBSD 9 network stack (sys/) linked, unchanged where
    possible, against a port layer (lib/libuinet) that supplies the kernel
    services on top of a POSIX host, with a name/value list library
    (lib/libuinetnv) for messages between processes.  It adds passive sockets
    (PASSIVE_INET: the stack reconstructs both directions of a connection it
    only listens to) and promiscuous sockets (PROMISCUOUS_INET) to FreeBSD.  The
    model follows the default build: PASSIVE_INET, PROMISCUOUS_INET, SMP and
    VIMAGE defined (the [V_] variables are those of one network stack instance);
    INET6 and TCP_SIGNATURE not; INVARIANTS not, except in [SockLife], where it is part of the
    world; [hz] = 100.

    ** Parts of the program and how they interact

    A segment enters sys/netinet/tcp_input.c.  Its option bytes are parsed
    ([tcp_dooptions]), its acknowledgement updates the SACK scoreboard
    (tcp_sack.c), the congestion window (the cc hooks, which call the algorithm
    of the connection through [struct cc_algo]) and the round-trip estimate
    ([tcp_xmit_timer]); out-of-order data goes to tcp_reass.c and from there to
    the socket buffer.  tcp_output.c decides what to send from the windows, the
    send buffer and the scoreboard, copies the bytes out of the buffer
    (uipc_sockbuf.c, uipc_mbuf.c) and lays the options out ([tcp_addoptions]).
    The timers of
    tcp_timer.c drive retransmission, persist, keepalive and 2MSL; they, and
    everything else that waits, run on the callout wheel of
    lib/libuinet/uinet_kern_timeout.c, which the port layer's clock thread
    turns.

    A connection is a socket (uipc_socket.c), a protocol control block
    (in_pcb.c) and a TCP control block (tcp_subr.c) that point to each other;
    tcp_usrreq.c makes and closes them for the application, tcp_syncache.c for
    peers, and in TIME_WAIT a small entry on a queue takes the place of the TCP
    control block (tcp_timewait.c).  A passive listener makes connections in
    pairs, one socket for each direction (in_passive.c); writing to one turns it
    into an ordinary connection.

    ** Files

    - [Prelude] (this file): record update ([r <| f := v |>] for the assignment
      [r->f = v]), machine integers ([u32], [s32] and so on write the
      wrap-around out), the tactics [wrap], [zbool] and [zbool_cases], slices of
      an unbounded stream, network byte order.
    - [TcpSeq]: sys/netinet/tcp_seq.h, tcp_fsm.h and the header flags.  The
      comparison macros subtract modulo [2^32]; [SEQ_*] lemmas relate them to
      the order of integer offsets less than [2^31] apart.
    - [Callout]: struct callout and its flag macros (sys/sys/callout.h), the
      part of the callout interface its users see: arming, stopping and the
      pending and active tests.
    - [CalloutWheel], module [Wheel]: uinet_kern_timeout.c and the tick of
      uinet_kern_clock.c.  The state ([world]) is a store of callouts, a wheel
      per CPU, the tick counter, and the trace of the functions called; the
      operations are [callout_reset_on], [callout_stop_safe],
      [callout_schedule_on], [timeout], [untimeout], [callout_tick],
      [softclock] and [uinet_hardclock].
    - [SockBuf], module [Sockbuf]: stream socket buffers (uipc_sockbuf.c,
      sys/sockbuf.h) and the copies out of an mbuf chain (uipc_mbuf.c).  An mbuf
      has an address, since the buffer keeps pointers into its chain.
    - [TcpReass], module [Reass]: tcp_reass.c.  The control block keeps the
      queue [t_segq], the age queue [t_segageq] (addresses, so that a dangling
      one can be seen), the zone, the socket buffer and the deadline callout.
      [tcp_reass] is composed of its phases (limits, overlap with the preceding
      and the following segments, insertion, presentation).
    - [TcpOptions], module [Options]: [tcp_dooptions] and [tcp_addoptions].
    - [TcpSack], module [Sack]: tcp_sack.c.  Holes have addresses, as the hint
      [sackhint.nexthole] points to one; the sweep of [tcp_sack_doack] moves two
      cursors from the tail to the head.
    - [TcpCC], module [CC]: the congestion control hooks of tcp_input.c and
      tcp_output.c, the interface of an algorithm as a record of optional
      functions ([cc_algo]) with the class [CongestionControl] of what TCP
      relies on, and cc/cc_newreno.c, an instance of the class.
    - [TcpTimer], module [Timer]: [tcp_xmit_timer], [tcp_setpersist] and the
      timer functions of tcp_timer.c, with the stale-callout tests and the lock
      windows they start with.
    - [TcpOutput], module [Output]: tcp_output.c, a definition per stage of
      [tcp_output], and the segment size ([tcp_mss] and its kin of tcp_input.c,
      [tcp_mtudisc] of tcp_subr.c).  The state adds to the control block of
      [TcpCC] what output uses and keeps the segments handed to [ip_output].
      [TcpOutputStream] and [TcpOutputTimers] hold the proofs.
    - [TcpInput], module [Input]: [tcp_do_segment] of tcp_input.c, a definition
      per stage, composed by a small control-flow type ([flow]: fall through,
      jump to a label, start TIME_WAIT, panic), with what it calls: the labels,
      [tcp_dropwithreset], [tcp_pulloutofband], [tcp_respond], [tcp_drop],
      [tcp_close], [soisconnected] and [soisdisconnected].  The state adds the
      fields of input, the reassembly queue of [TcpReass] and the socket to the
      control block of [TcpOutput].  [TcpInputFrame] holds what each stage
      leaves alone and the theorems on the state machine, [TcpInputRecv] those
      on the receiver.
    - [HostCache], module [Hostcache]: tcp_hostcache.c, a list of rows with their
      counters, and the part of [tcp_discardcb] that saves the metrics of a
      connection.
    - [SockLife], module [Life]: the life of sockets, PCBs, TCP control blocks
      and TIME_WAIT entries.  Each kind has a store of its own ([socks], [inps],
      [tcbs], [tws] of [world]), a pointer is an address, and an operation is a
      computation in a state and error monad ([M]) that faults on a pointer that
      is NULL, was freed or is of the other kind, and on an assertion when
      INVARIANTS is set.  The definitions have the names of the C functions.
      [SockLifeInv] states the invariant [wf] over the [shape] of a world and the
      logic [run] in which it is proved; [SockLifeOps], [SockLifeNew] and
      [SockLifeConn] prove it kept, operation by operation; [SockLifeSafe] makes
      the critical sections the events of a machine ([event], [perform], [play])
      and [SockLifeTime] shows what is given back and when.
    - [InPromisc], module [Promisc]: the layer 2 tag stacks that are part of the
      identity of a promiscuous connection, their comparison and hash
      (in_promisc.c), and the hash functions of the SYN cache and the PCB tables.
    - [Syncache], module [Cache]: tcp_syncache.c, a list of rows, each the list of
      its entries with its timer and its cookie secrets.  [SyncacheTable] holds
      the invariant of the table and what the timers do, [SyncacheSafe] the
      machine of its events ([event], [perform], [play]) and the theorems on
      entries, [SyncacheCookie] those on cookies.
    - [InPcb], module [Pcb]: the hash and port tables of in_pcb.c, binding,
      connecting and the choice of ephemeral ports; [InPcbTables] holds the proofs
      and the machine of its events.
    - [Nv], module [Nv]: nvpair.c, nvlist.c and dnvlist.c, the packed form and
      the exchange of lists and descriptors over a socket.

    ** What the theorems show

    - Reassembly: the socket buffer receives the peer's stream, in order and
      once ([tcp_reass_in_order]); no byte accepted is lost
      ([tcp_reass_no_loss]); on passive connections the holes delivered keep the
      stream aligned ([tcp_reass_passive], [tcp_reass_deliver_holes_correct]);
      the KASSERTs hold.  Two theorems exhibit defects: the age queue keeps the
      address of a freed entry, and an active connection can be handed a hole.
    - Callouts: an armed callout is called exactly once and at its tick,
      a stopped one never, whatever other threads do in the windows in which the
      wheel's lock is free; the clock thread finishes each tick.  Two theorems
      exhibit defects: callouts of other CPUs are never run, and a thread in
      callout_drain is never woken.
    - Socket buffers: a stream buffer is a queue of bytes, whatever was merged,
      cached or dropped ([sockbuf_refines_queue]).  One theorem exhibits a
      defect: data after a hole disappears into it.
    - Output: [tcp_output] returns, and what it sends is the send buffer: the
      right bytes for each sequence number, within the windows, the FIN last
      ([tcp_output_stream]); it does not leave data without a timer
      ([tcp_output_timed]); it does not take the receive window back
      ([advertised_window_kept]).  Two theorems exhibit defects: with a closed
      window and an ACK to send no timer runs, and SACK retransmission is not
      limited by a congestion window that is used up.
    - Segments: whatever arrives, a connection moves along the arcs of the state
      diagram ([tcp_do_segment_arcs]), takes only the next bytes of the peer's
      stream and moves rcv_nxt by their number ([tcp_do_segment_in_order]);
      text the receiver waits for is taken, without a panic
      ([tcp_do_segment_accepts]); a reset is obeyed exactly when its sequence
      number is right ([tcp_do_segment_rst]); a passive connection sends nothing
      ([tcp_do_segment_passive_silent]).
    - Options: the parser ends and stays within the segment, the writer stays
      within forty bytes, and each reads what the other writes.
    - SACK: the sweep ends and removes exactly the bytes acknowledged from the
      scoreboard; the hinted search of [tcp_sack_output] agrees with a search of
      the whole list; the receiver's report meets RFC 2018.
    - Congestion control: for every algorithm that meets the interface the
      window stays at one segment or more; NewReno grows and shrinks as RFC 5681
      and RFC 3465 say, and reduces at most once per window of data.
    - Timers: the fixed-point estimator is Jacobson's without overflow; a
      connection that hears nothing backs off and is dropped by the thirteenth
      timeout; a spurious timeout is undone; the persist timer stays within its
      bounds.
    - Host cache: the table stays within its limits and its counters right,
      whatever is called and however threads interleave ([hostcache_table_kept]);
      an update is what the next lookup answers ([tcp_hc_update_remembered]), and
      what a connection measured is where the next one starts
      ([metrics_inherited]); unused entries go at their time
      ([tcp_hc_purge_ages]).
    - Sockets and control blocks: whatever events come in whatever order, nothing
      is used after it is freed, no assertion fails, and ownership stays
      consistent ([interleavings_safe]); what the application has closed is freed
      once its connections are over, to the last object
      ([closed_sockets_freed]).  [permitted] says what callers see to: system
      calls are made on open sockets, [soclose] takes its steps in order, and a
      PCB was found or is held.  The slow timeout frees the entries of the 2MSL
      queue whose time has come and no others ([tcp_tw_2msl_scan_exact]); only
      the SYN of a new connection ends TIME_WAIT early
      ([time_wait_not_assassinated]).  One theorem exhibits a defect: writing to a
      passive connection whose other end is gone follows a NULL pointer
      ([passive_write_after_time_wait_faults]); [permitted] excludes it.
    - SYN cache: whatever arrives, in whatever order, the table stays one and no
      entry is overdue ([syncache_stays_a_table]); a handshake completes when its
      ACK comes before the retransmissions are over ([handshake_completes]), which
      by default is 45 seconds ([syncache_entry_lifetime]), and for 16 seconds
      without an entry, by its cookie ([cookie_completes]).  Tag stacks that
      compare equal hash equally, unless one of them has no tags
      ([tagcmp_agrees_with_hash]).  Examples exhibit defects: a forged ACK removes
      the entry it was taken for, a SYN can be entered twice, and two settings
      make the cache fault.
    - PCB tables: every PCB stays where its endpoints hash to, whatever is bound,
      connected and removed ([pcb_tables_kept]); a packet on a promiscuous
      interface gets the PCB that comes first in the order of preference
      ([promisc_lookup_prefers]); a free ephemeral port is found if there is one
      ([in_pcb_lport_complete]).  Examples exhibit defects: two connections with
      the same endpoints, a PCB inserted twice, and ordinary and promiscuous PCBs
      that find each other or do not by the chance of their hashes.
    - Name/value lists: a list survives packing and unpacking with its
      descriptors; unpacking arbitrary bytes neither aborts nor reads outside
      them; a list is a dictionary.  Two theorems exhibit defects of nvlist_recv.

    ** Bounds and fuel

    Loops that are structural on a list are structural here.  The others take
    fuel, and a theorem says it is enough: the option parser gets the number of
    bytes ([tcp_dooptions_safe]); a bucket of the wheel gets the length of the
    bucket plus the number of commands the other threads still issue, since
    only those can put a callout back on it ([callout_fires_on_time]);
    [callwheel_size] doubles at most thirty-one times, the width of an int;
    packing a list gets three levels, the nesting nvlist_size asserts before
    packing starts; unpacking gets the number of bytes, as a nested list and the
    pairs of a list are shorter than what holds them ([nvlist_xunpack_safe]);
    the comparison of tag stacks gets the number of tags plus one
    ([tagcmp_agrees_with_hash]), the search for an ephemeral port the number of
    ports in its range ([in_pcb_lport_complete]);
    the loops over the 2MSL queue and the listen queues get the length of the
    queue plus one, as each pass takes an element off it and the lock is held
    ([interleavings_safe]);
    [tcp_output] gets twice the length of the send buffer plus three passes,
    since each pass that is followed by another sends at least one byte, new or
    from a hole ([tcp_output_stream]); [run_output] in [TcpInput] gives it that
    ([tcp_do_segment_accepts]).
    Sequence numbers of one connection are taken to lie within [2^30] of each
    other (the largest window TCP can negotiate), windows and segment sizes
    within the widths of their fields, round-trip samples below [2^20] ticks and
    packed lists below [2^63] bytes, and the waits of the SYN cache below [2^31]
    ticks; each theorem states the bounds it uses.

    ** Parameters

    [tcp_output] in [TcpCC] and [TcpTimer] is an argument, its effect on the
    control block, constrained by what its callers rely on; the results of
    [ip_output] and of the mbuf allocator are arguments of [TcpOutput], as are
    the route and the host cache.  The mbufs received bytes come in, the rate
    limit of resets and the stack the options are parsed into are arguments of
    [TcpInput].  The digest of SYN cookies, the segment size for a peer and the
    decision of a SYN filter are arguments of [Syncache]; its world has the random
    numbers, the success of allocations and the results of [ip_output] to come.
    Jails, credentials and the local addresses are arguments of [InPcb].
    The validity test
    and the duplication of host descriptors are arguments of [Nv].  What other
    threads do while a lock is dropped is an argument: the script of the wheel,
    [race] in [TcpTimer], [window] in [HostCache]; in [SockLife] it is the other
    events.  There an iteration of the loops that empty a listen queue is one
    event, though the accept lock is dropped within it.  Whether an allocation
    succeeds, an address can be bound or connected, and a PCB entered in the hash
    tables is an argument or part of the world of [SockLife].  Elsewhere memory
    allocation from the host succeeds; zones with limits (segments, holes, cache
    entries) are modelled with exhaustion.

    ** Not modelled

    [tcp_input] in front of [tcp_do_segment] but for what it checks before it
    uses a connection; what a new connection takes from its SYN cache entry; the
    choice of a source address; socket options other than SO_PASSIVE; accept filters;
    the socket options and the registration of synfilters of promiscuous sockets; and the
    configuration of the port layer.  The models of a segment ([TcpInput],
    [TcpOutput]) and of ownership ([SockLife]) have states of their own: the
    events of the second are the changes of state, closes and drops of the
    first.  [SockLife] leaves out locks, so that an order of locks that can
    deadlock is shown by an example only ([pair_locked_in_both_orders]).  Left
    out for good: packet I/O and threads of the host (uinet_host_interface.c, netmap, pcap), which
    only call the operating system; the code the repository vendors (libev,
    the HTTP parser, sys/contrib) and the sample programs. *)

From Stdlib Require Export ZArith Lia Bool.
From stdpp Require Export base tactics list numbers option sets.

Open Scope Z_scope.

(** ** Record update *)

(** [Eta R] gives the constructor of [R] applied to its own projections;
    from it the setter of each field is computed by [build_setter], so that
    [r <| f := v |>] reads as the C assignment [r->f = v]. *)
Class Eta (R : Type) := eta : R -> R.
Class Setter {R E : Type} (get : R -> E) := update : E -> R -> R.

Ltac build_setter get :=
  lazymatch type of get with
  | ?R -> ?E =>
      let v := fresh "v" in
      let r := fresh "r" in
      intros v r;
      let e := eval hnf in (@eta R _ r) in
      lazymatch e with
      | context C [get r] => let b := context C [v] in exact b
      end
  end.

#[export] Hint Extern 0 (Setter ?get) => build_setter get : typeclass_instances.

Declare Scope record_scope.
Notation "r <| f := v |>" := (@update _ _ f _ v r)
  (at level 1, f at level 200, left associativity,
   format "r  <| f  :=  v |>") : record_scope.
Open Scope record_scope.

Arguments update {R E} get {Setter} v r : simpl nomatch.

(** ** Machine integers *)

Definition u8 (x : Z) : Z := x mod 2 ^ 8.
Definition u16 (x : Z) : Z := x mod 2 ^ 16.
Definition u32 (x : Z) : Z := x mod 2 ^ 32.
Definition u64 (x : Z) : Z := x mod 2 ^ 64.

(** Two's complement reinterpretation of the low [n] bits. *)
Definition sN (n x : Z) : Z :=
  let y := x mod 2 ^ n in if y <? 2 ^ (n - 1) then y else y - 2 ^ n.
Definition s32 (x : Z) : Z := sN 32 x.
Definition s64 (x : Z) : Z := sN 64 x.

(** [min], [max] of libkern.h: both arguments are converted to [u_int]. *)
Definition umin (a b : Z) : Z := if u32 a <? u32 b then u32 a else u32 b.
Definition umax (a b : Z) : Z := if u32 b <? u32 a then u32 a else u32 b.

Definition seq_mod : Z := 2 ^ 32.
Definition half_mod : Z := 2 ^ 31.

Create HintDb uinet.

(** Case analysis on every boolean integer comparison of the goal and of the
    hypotheses. *)
Ltac zbool_cases :=
  repeat match goal with
  | |- context [Z.ltb ?a ?b] => destruct (Z.ltb_spec a b)
  | |- context [Z.leb ?a ?b] => destruct (Z.leb_spec a b)
  | |- context [Z.eqb ?a ?b] => destruct (Z.eqb_spec a b)
  | H : context [Z.ltb ?a ?b] |- _ => destruct (Z.ltb_spec a b)
  | H : context [Z.leb ?a ?b] |- _ => destruct (Z.leb_spec a b)
  | H : context [Z.eqb ?a ?b] |- _ => destruct (Z.eqb_spec a b)
  end.

(** Turn boolean comparisons into propositions. *)
Ltac zbool :=
  repeat match goal with
  | H : Z.ltb _ _ = true |- _ => apply Z.ltb_lt in H
  | H : Z.ltb _ _ = false |- _ => apply Z.ltb_ge in H
  | H : Z.leb _ _ = true |- _ => apply Z.leb_le in H
  | H : Z.leb _ _ = false |- _ => apply Z.leb_gt in H
  | H : Z.eqb _ _ = true |- _ => apply Z.eqb_eq in H
  | H : Z.eqb _ _ = false |- _ => apply Z.eqb_neq in H
  | H : andb _ _ = true |- _ => apply andb_true_iff in H as [? ?]
  | H : orb _ _ = false |- _ => apply orb_false_iff in H as [? ?]
  | H : negb _ = true |- _ => apply negb_true_iff in H
  | H : negb _ = false |- _ => apply negb_false_iff in H
  end.

Lemma pow2_8 : 2 ^ 8 = 256. Proof. reflexivity. Qed.
Lemma pow2_16 : 2 ^ 16 = 65536. Proof. reflexivity. Qed.
Lemma pow2_31 : 2 ^ 31 = 2147483648. Proof. reflexivity. Qed.
Lemma pow2_32 : 2 ^ 32 = 4294967296. Proof. reflexivity. Qed.
Lemma pow2_63 : 2 ^ 63 = 9223372036854775808. Proof. reflexivity. Qed.
Lemma pow2_64 : 2 ^ 64 = 18446744073709551616. Proof. reflexivity. Qed.

(** Linear arithmetic with the wrap-around of machine integers written out. *)
Ltac wrap :=
  unfold s32, s64, sN, u8, u16, u32, u64, seq_mod, half_mod in *; cbv zeta in *;
  change (32 - 1) with 31 in *; change (64 - 1) with 63 in *;
  rewrite ?pow2_8, ?pow2_16, ?pow2_31, ?pow2_32, ?pow2_63, ?pow2_64 in *;
  zbool_cases; Z.div_mod_to_equations; lia.

Lemma u32_range x : 0 <= u32 x < 2 ^ 32.
Proof. wrap. Qed.
Lemma u32_small x : 0 <= x < 2 ^ 32 -> u32 x = x.
Proof. intros. wrap. Qed.
Lemma s32_range x : - 2 ^ 31 <= s32 x < 2 ^ 31.
Proof. wrap. Qed.
Lemma s32_small x : - 2 ^ 31 <= x < 2 ^ 31 -> s32 x = x.
Proof. intros. wrap. Qed.

Lemma s32_u32 x : s32 (u32 x) = s32 x.
Proof. unfold s32, sN, u32. rewrite Z.mod_mod by lia. reflexivity. Qed.

Lemma u32_u32 x : u32 (u32 x) = u32 x.
Proof. unfold u32. rewrite Z.mod_mod by lia. reflexivity. Qed.

Lemma u32_s32 x : u32 (s32 x) = u32 x.
Proof. wrap. Qed.

Lemma u32_sub_l a b : u32 (u32 a - b) = u32 (a - b).
Proof. unfold u32. apply Zminus_mod_idemp_l. Qed.
Lemma u32_sub_r a b : u32 (a - u32 b) = u32 (a - b).
Proof. unfold u32. apply Zminus_mod_idemp_r. Qed.
Lemma u32_add_l a b : u32 (u32 a + b) = u32 (a + b).
Proof. unfold u32. apply Zplus_mod_idemp_l. Qed.
Lemma u32_add_r a b : u32 (a + u32 b) = u32 (a + b).
Proof. unfold u32. apply Zplus_mod_idemp_r. Qed.

Lemma u32_sub_s32 a b : u32 (s32 a - s32 b) = u32 (a - b).
Proof.
  rewrite <- (u32_sub_l (s32 a)), <- (u32_sub_r _ (s32 b)), !u32_s32.
  rewrite u32_sub_l, u32_sub_r. reflexivity.
Qed.

Lemma u32_add_s32 a b : u32 (s32 a + b) = u32 (a + b).
Proof. rewrite <- (u32_add_l (s32 a)), u32_s32, u32_add_l. reflexivity. Qed.

(** [s32] only sees its argument modulo [2^32]. *)
Lemma s32_cong a b : u32 a = u32 b -> s32 a = s32 b.
Proof. intros H. rewrite <- (s32_u32 a), <- (s32_u32 b), H. reflexivity. Qed.

Lemma umin_small a b : 0 <= a < 2 ^ 32 -> 0 <= b < 2 ^ 32 -> umin a b = Z.min a b.
Proof. intros. unfold umin. rewrite !u32_small by assumption. zbool_cases; lia. Qed.
Lemma umax_small a b : 0 <= a < 2 ^ 32 -> 0 <= b < 2 ^ 32 -> umax a b = Z.max a b.
Proof. intros. unfold umax. rewrite !u32_small by assumption. zbool_cases; lia. Qed.

Create Rewrite HintDb wrap.
#[export] Hint Rewrite u32_u32 s32_u32 u32_s32 u32_sub_l u32_sub_r u32_add_l u32_add_r : wrap.
#[export] Hint Resolve u32_range s32_range : uinet.

(** ** Slices of an unbounded stream *)

(** The [n] elements of the stream [S] from position [a] on. *)
Definition slice {A} (S : Z -> A) (a n : Z) : list A := map S (seqZ a n).

Lemma length_slice {A} (S : Z -> A) a n : 0 <= n -> Z.of_nat (length (slice S a n)) = n.
Proof. intros. unfold slice. rewrite length_map, length_seqZ. lia. Qed.

Lemma slice_nil {A} (S : Z -> A) a n : n <= 0 -> slice S a n = [].
Proof. intros. unfold slice. rewrite seqZ_nil by lia. reflexivity. Qed.

Lemma slice_app {A} (S : Z -> A) a n m :
  0 <= n -> 0 <= m -> slice S a (n + m) = slice S a n ++ slice S (a + n) m.
Proof. intros. unfold slice. rewrite seqZ_app by lia. apply map_app. Qed.

Lemma slice_drop {A} (S : Z -> A) a n k :
  0 <= k <= n -> drop (Z.to_nat k) (slice S a n) = slice S (a + k) (n - k).
Proof.
  intros. replace n with (k + (n - k)) at 1 by lia.
  rewrite slice_app by lia. rewrite drop_app_length'; [reflexivity|].
  pose proof (length_slice S a k). lia.
Qed.

(** ** List lemmas *)

Lemma last_snoc_or_nil {A} (l : list A) : l = [] \/ exists l' x, l = l' ++ [x].
Proof.
  induction l as [|x l IH] using rev_ind; [left; reflexivity | right; eauto].
Qed.

Lemma List_last_cons {A} (x : A) l d : List.last (x :: l) d = List.last l x.
Proof.
  revert x d. induction l as [|y l IH]; intros x d; [reflexivity|].
  change (List.last (x :: y :: l) d) with (List.last (y :: l) d). rewrite !IH. reflexivity.
Qed.

(** ** Network byte order *)

Definition is_byte (x : Z) : Prop := 0 <= x < 256.

Definition be16 (x : Z) : list Z := [x / 256 mod 256; x mod 256].
Definition be32 (x : Z) : list Z :=
  [x / 16777216 mod 256; x / 65536 mod 256; x / 256 mod 256; x mod 256].

(** Big-endian value of a byte list ([ntohs]/[ntohl] of the bytes copied from
    the packet). *)
Definition be_decode (l : list Z) : Z := fold_left (fun acc b => acc * 256 + b) l 0.

Lemma be16_decode x : 0 <= x < 2 ^ 16 -> be_decode (be16 x) = x.
Proof. rewrite pow2_16. intros. cbn. Z.div_mod_to_equations. lia. Qed.

Lemma be32_decode x : 0 <= x < 2 ^ 32 -> be_decode (be32 x) = x.
Proof. rewrite pow2_32. intros. cbn. Z.div_mod_to_equations. lia. Qed.
