(* ===== verification/TcpSeq.v ===== *)
(** * TCP sequence numbers and connection states

    The macros of sys/netinet/tcp_seq.h, the states of sys/netinet/tcp_fsm.h
    and the header flags the components share.  A [tcp_seq] is a [Z] in
    [0, 2^32); the comparison macros subtract modulo [2^32] and look at the
    sign of the result as an [int].  The lemmas relate the comparisons to the
    order of integer offsets from a common base, which is how every later
    component reasons about the sequence space. *)

From S2P Require Import Prelude.

(** ** Comparison macros *)

Definition SEQ_LT (a b : Z) : bool := s32 (a - b) <? 0.
Definition SEQ_LEQ (a b : Z) : bool := s32 (a - b) <=? 0.
Definition SEQ_GT (a b : Z) : bool := 0 <? s32 (a - b).
Definition SEQ_GEQ (a b : Z) : bool := 0 <=? s32 (a - b).
Definition SEQ_MIN (a b : Z) : Z := if SEQ_LT a b then a else b.
Definition SEQ_MAX (a b : Z) : Z := if SEQ_GT a b then a else b.

Definition TSTMP_LT (a b : Z) : bool := s32 (a - b) <? 0.
Definition TSTMP_GT (a b : Z) : bool := 0 <? s32 (a - b).
Definition TSTMP_GEQ (a b : Z) : bool := 0 <=? s32 (a - b).

(** ** Connection states, tcp_fsm.h *)

Definition TCPS_CLOSED := 0.
Definition TCPS_LISTEN := 1.
Definition TCPS_SYN_SENT := 2.
Definition TCPS_SYN_RECEIVED := 3.
Definition TCPS_ESTABLISHED := 4.
Definition TCPS_CLOSE_WAIT := 5.
Definition TCPS_FIN_WAIT_1 := 6.
Definition TCPS_CLOSING := 7.
Definition TCPS_LAST_ACK := 8.
Definition TCPS_FIN_WAIT_2 := 9.
Definition TCPS_TIME_WAIT := 10.

Definition TCPS_HAVERCVDSYN (s : Z) : bool := TCPS_SYN_RECEIVED <=? s.
Definition TCPS_HAVEESTABLISHED (s : Z) : bool := TCPS_ESTABLISHED <=? s.
Definition TCPS_HAVERCVDFIN (s : Z) : bool := TCPS_TIME_WAIT <=? s.

(** ** Header flags, tcp.h *)

Definition TH_FIN := 1.
Definition TH_SYN := 2.
Definition TH_RST := 4.
Definition TH_PUSH := 8.
Definition TH_ACK := 16.
Definition TH_URG := 32.
Definition TH_ECE := 64.
Definition TH_CWR := 128.

(** [flags & m] as a C truth value. *)
Definition has_flag (flags m : Z) : bool := negb (Z.land flags m =? 0).

(** Setting and clearing flags. *)

Lemma flag_set f g : Z.land f g = g -> g <> 0 -> 0 <= g -> forall x, has_flag (Z.lor x f) g = true.
Proof.
  intros H Hn Hg x. unfold has_flag. rewrite Z.land_lor_distr_l, H.
  apply negb_true_iff, Z.eqb_neq. intros E. apply Z.lor_eq_0_iff in E. tauto.
Qed.

Lemma flag_set_other f g x : Z.land f g = 0 -> has_flag (Z.lor x f) g = has_flag x g.
Proof. intros H. unfold has_flag. rewrite Z.land_lor_distr_l, H, Z.lor_0_r. reflexivity. Qed.

Lemma flag_cleared f x : has_flag (Z.land x (Z.lnot f)) f = false.
Proof.
  unfold has_flag. rewrite <- Z.land_assoc, (Z.land_comm (Z.lnot f)), Z.land_lnot_diag, Z.land_0_r.
  reflexivity.
Qed.

Lemma flag_cleared_other f g x : Z.land f g = 0 -> has_flag (Z.land x (Z.lnot f)) g = has_flag x g.
Proof.
  intros H. unfold has_flag. replace (Z.land (Z.land x (Z.lnot f)) g) with (Z.land x g); [reflexivity|].
  apply Z.bits_inj'. intros n Hn. rewrite !Z.land_spec, Z.lnot_spec by lia.
  assert (Z.testbit (Z.land f g) n = false) as Hb by (rewrite H; apply Z.bits_0).
  rewrite Z.land_spec in Hb. destruct (Z.testbit x n), (Z.testbit f n), (Z.testbit g n); try reflexivity; discriminate.
Qed.

Lemma flag_cleared_sub f g x : Z.land f g = g -> has_flag (Z.land x (Z.lnot f)) g = false.
Proof.
  intros H. unfold has_flag. rewrite <- H, Z.land_assoc, <- (Z.land_assoc x), (Z.land_comm (Z.lnot f)), Z.land_lnot_diag.
  rewrite Z.land_0_r. reflexivity.
Qed.

(** ** Order of the sequence space *)

(** [off base s]: the signed distance from [base] to [s]. *)
Definition off (base s : Z) : Z := s32 (s - base).

Lemma off_range base s : - 2 ^ 31 <= off base s < 2 ^ 31.
Proof. apply s32_range. Qed.

Lemma off_refl base : off base base = 0.
Proof. unfold off. rewrite Z.sub_diag. reflexivity. Qed.

Lemma off_u32 base s : off base (u32 s) = off base s.
Proof. unfold off. apply s32_cong. apply u32_sub_l. Qed.

Lemma off_u32_base base s : off (u32 base) s = off base s.
Proof. unfold off. apply s32_cong. apply u32_sub_r. Qed.

(** Differences of sequence numbers are differences of offsets, as long as
    the offsets are less than half the space apart. *)
Lemma seq_sub_off base a b :
  - 2 ^ 31 <= off base a - off base b < 2 ^ 31 ->
  s32 (a - b) = off base a - off base b.
Proof.
  intros H. rewrite <- (s32_small _ H). apply s32_cong.
  unfold off. rewrite u32_sub_s32. f_equal. lia.
Qed.

Lemma off_add base a n :
  - 2 ^ 31 <= off base a + n < 2 ^ 31 -> off base (a + n) = off base a + n.
Proof.
  intros H. rewrite <- (s32_small _ H). unfold off at 1. apply s32_cong.
  unfold off. rewrite u32_add_s32. f_equal. lia.
Qed.

Lemma off_eq base a b : u32 a = u32 b <-> off base a = off base b.
Proof.
  split; intros H.
  - rewrite <- (off_u32 base a), <- (off_u32 base b), H. reflexivity.
  - unfold off in H. apply (f_equal (fun x => u32 (x + base))) in H.
    rewrite !u32_add_s32 in H.
    replace (a - base + base) with a in H by lia.
    replace (b - base + base) with b in H by lia. exact H.
Qed.

(** [near base a]: the offset of [a] fits in a window of [2^30], the largest a
    TCP receiver can advertise (65535 shifted by 14 is below it). *)
Definition near (base a : Z) : Prop := - 2 ^ 30 <= off base a < 2 ^ 30.

Lemma SEQ_LT_off base a b :
  near base a -> near base b -> SEQ_LT a b = (off base a <? off base b).
Proof. unfold near, SEQ_LT. intros. rewrite (seq_sub_off base); [zbool_cases; lia | lia]. Qed.

Lemma SEQ_LEQ_off base a b :
  near base a -> near base b -> SEQ_LEQ a b = (off base a <=? off base b).
Proof. unfold near, SEQ_LEQ. intros. rewrite (seq_sub_off base); [zbool_cases; lia | lia]. Qed.

Lemma SEQ_GT_off base a b :
  near base a -> near base b -> SEQ_GT a b = (off base b <? off base a).
Proof. unfold near, SEQ_GT. intros. rewrite (seq_sub_off base); [zbool_cases; lia | lia]. Qed.

Lemma SEQ_GEQ_off base a b :
  near base a -> near base b -> SEQ_GEQ a b = (off base b <=? off base a).
Proof. unfold near, SEQ_GEQ. intros. rewrite (seq_sub_off base); [zbool_cases; lia | lia]. Qed.

Lemma SEQ_MAX_off base a b :
  near base a -> near base b -> off base (SEQ_MAX a b) = Z.max (off base a) (off base b).
Proof.
  intros Ha Hb. unfold SEQ_MAX. rewrite (SEQ_GT_off base) by assumption.
  zbool_cases; lia.
Qed.

Lemma SEQ_MIN_off base a b :
  near base a -> near base b -> off base (SEQ_MIN a b) = Z.min (off base a) (off base b).
Proof.
  intros Ha Hb. unfold SEQ_MIN. rewrite (SEQ_LT_off base) by assumption.
  zbool_cases; lia.
Qed.

Lemma SEQ_LEQ_GT a b : SEQ_LEQ a b = negb (SEQ_GT a b).
Proof. unfold SEQ_LEQ, SEQ_GT. zbool_cases; simpl; lia. Qed.

Lemma SEQ_GEQ_LT a b : SEQ_GEQ a b = negb (SEQ_LT a b).
Proof. unfold SEQ_GEQ, SEQ_LT. zbool_cases; simpl; lia. Qed.

(** At distance exactly [2^31] the macros are not antisymmetric: each number
    is before the other. *)
Lemma SEQ_LT_antipodal a : SEQ_LT a (u32 (a + 2 ^ 31)) = true /\ SEQ_LT (u32 (a + 2 ^ 31)) a = true.
Proof. unfold SEQ_LT. split; wrap. Qed.
