(* ===== verification/Callout.v ===== *)
(** * Callouts: timers on a hashed timing wheel

    lib/libuinet/uinet_kern_timeout.c and the macros of sys/sys/callout.h. *)

From S2P Require Import Prelude TcpSeq.

Definition CALLOUT_LOCAL_ALLOC := 1.
Definition CALLOUT_ACTIVE := 2.
Definition CALLOUT_PENDING := 4.
Definition CALLOUT_MPSAFE := 8.
Definition CALLOUT_RETURNUNLOCKED := 16.
Definition CALLOUT_SHAREDLOCK := 32.

(** struct callout, less its list linkage: membership of a wheel bucket or of
    the free list is kept by those lists. *)
Record callout := mk_callout {
  c_time : Z;
  c_func : option Z;
  c_arg : Z;
  c_lock : option Z;
  c_flags : Z;
  c_cpu : Z }.

#[export] Instance eta_callout : Eta callout := fun r =>
  mk_callout (c_time r) (c_func r) (c_arg r) (c_lock r) (c_flags r) (c_cpu r).

Definition callout_active (c : callout) : bool := has_flag (c_flags c) CALLOUT_ACTIVE.
Definition callout_pending (c : callout) : bool := has_flag (c_flags c) CALLOUT_PENDING.
Definition callout_deactivate (c : callout) : callout :=
  c <| c_flags := Z.land (c_flags c) (Z.lnot CALLOUT_ACTIVE) |>.

(** What [callout_reset_on] and [callout_stop] leave in the callout itself. *)
Definition callout_arm (ticks to_ticks : Z) (ftn : option Z) (arg : Z) (c : callout) : callout :=
  let to_ticks := if to_ticks <=? 0 then 1 else to_ticks in
  c <| c_arg := arg |>
    <| c_flags := Z.lor (c_flags c) (Z.lor CALLOUT_ACTIVE CALLOUT_PENDING) |>
    <| c_func := ftn |>
    <| c_time := s32 (ticks + to_ticks) |>.
Definition callout_disarm (c : callout) : callout :=
  c <| c_flags := Z.land (c_flags c) (Z.lnot (Z.lor CALLOUT_ACTIVE CALLOUT_PENDING)) |>.
