(* ===== verification/CalloutWheel.v ===== *)
(** * The callout wheel

    lib/libuinet/uinet_kern_timeout.c: a hashed timing wheel per CPU, and the
    clock tick of lib/libuinet/uinet_kern_clock.c that drives it.

    Callouts are addresses (integers) into a store of callout structures; a
    bucket of a wheel is the list of the addresses linked on it.  The clock
    thread drops the wheel's lock while it waits for a callout's lock, while it
    runs a callout function and after a hundred steps along a bucket; what the
    function itself and the other threads do to callouts in the meantime is the
    next entry of [script], a list of calls of this module's operations.  As the
    script is arbitrary, the theorems hold for every finite interleaving.

    The average counters behind debug sysctls are left out. *)

From S2P Require Import Prelude TcpSeq Callout.

Module Wheel.

(** ** State *)

(** An array or a store as a function; [fset f i v] is [f[i] = v]. *)
Definition fset {A} (f : Z -> A) (i : Z) (v : A) : Z -> A := fun j => if j =? i then v else f j.

(** struct callout_cpu *)
Record callout_cpu := mk_callout_cpu {
  cc_callwheel : Z -> list Z;
  cc_callfree : list Z;
  cc_next : option Z;
  cc_curr : option Z;
  cc_softticks : Z;
  cc_cancel : bool;
  cc_waiting : bool }.

#[export] Instance eta_callout_cpu : Eta callout_cpu := fun r =>
  mk_callout_cpu (cc_callwheel r) (cc_callfree r) (cc_next r) (cc_curr r) (cc_softticks r)
    (cc_cancel r) (cc_waiting r).

(** Calls of this module made by callout functions and by other threads. *)
Inductive cmd :=
  | CReset (c to_ticks : Z) (ftn : option Z) (arg cpu : Z)
  | CStop (c : Z)
  | CDrain (c : Z).

(** A call of a callout function: the callout, its function and argument, the
    tick it is called for. *)
Record fcall := mk_fcall {
  f_callout : Z;
  f_func : option Z;
  f_arg : Z;
  f_tick : Z }.

Record world := mk_world {
  store : Z -> callout;
  cc_cpu : Z -> callout_cpu;
  ticks : Z;
  min_to_ticks : Z;
  script : list (list cmd);
  called : list fcall;
  broadcasts : Z }.

#[export] Instance eta_world : Eta world := fun r =>
  mk_world (store r) (cc_cpu r) (ticks r) (min_to_ticks r) (script r) (called r) (broadcasts r).

(** The wheel's size: the power of two [callwheelsize] for [ncallout]. *)
Fixpoint callwheel_size (fuel : nat) (ncallout callwheelsize : Z) : Z :=
  match fuel with
  | O => callwheelsize
  | S fuel => if callwheelsize <? ncallout then callwheel_size fuel ncallout (Z.shiftl callwheelsize 1)
              else callwheelsize
  end.

Definition kern_timeout_callwheel_mask (ncallout : Z) : Z := callwheel_size 31 ncallout 1 - 1.

Section wheel.
Context (callwheelmask : Z).

Definition set_callout (c : Z) (v : callout) (w : world) : world := w <| store := fset (store w) c v |>.
Definition set_cpu (cpu : Z) (v : callout_cpu) (w : world) : world := w <| cc_cpu := fset (cc_cpu w) cpu v |>.
Definition on_callout (c : Z) (f : callout -> callout) (w : world) : world := set_callout c (f (store w c)) w.
Definition on_cpu (cpu : Z) (f : callout_cpu -> callout_cpu) (w : world) : world :=
  set_cpu cpu (f (cc_cpu w cpu)) w.

(** [&cc->cc_callwheel[time & callwheelmask]] *)
Definition slot (time : Z) : Z := Z.land time callwheelmask.

(** TAILQ_NEXT and TAILQ_REMOVE *)
Fixpoint tailq_next (c : Z) (l : list Z) : option Z :=
  match l with
  | [] => None
  | x :: l => if x =? c then head l else tailq_next c l
  end.
Fixpoint tailq_remove (c : Z) (l : list Z) : list Z :=
  match l with
  | [] => []
  | x :: l => if x =? c then l else x :: tailq_remove c l
  end.

Definition is_curr (cc : callout_cpu) (c : Z) : bool := bool_decide (cc_curr cc = Some c).

(** ** Scheduling *)

(** Taking a pending callout off its bucket; [cc_next] moves on. *)
Definition unlink (c : Z) (cc : callout_cpu) (b : Z) : callout_cpu :=
  let cc := if bool_decide (cc_next cc = Some c)
            then cc <| cc_next := tailq_next c (cc_callwheel cc b) |> else cc in
  cc <| cc_callwheel := fset (cc_callwheel cc) b (tailq_remove c (cc_callwheel cc b)) |>.

(** The part of [callout_reset_on] from [retry] to the migration: [inl] is the
    early return. *)
Definition reset_pass (c : Z) (cancelled : bool) (w : world) : (world * bool) + (world * bool) :=
  let cpu := c_cpu (store w c) in
  let '(w, cancelled) :=
    if is_curr (cc_cpu w cpu) c && bool_decide (c_lock (store w c) <> None) && negb (cc_cancel (cc_cpu w cpu))
    then (on_cpu cpu (fun cc => cc <| cc_cancel := true |>) w, true) else (w, cancelled) in
  if is_curr (cc_cpu w cpu) c && cc_waiting (cc_cpu w cpu) then inl (w, cancelled)
  else if callout_pending (store w c) then
    let w := on_cpu cpu (fun cc => unlink c cc (slot (c_time (store w c)))) w in
    inr (on_callout c callout_disarm w, true)
  else inr (w, cancelled).

Definition link (c to_ticks : Z) (ftn : option Z) (arg : Z) (w : world) : world :=
  let to_ticks := if to_ticks <=? 0 then 1 else to_ticks in
  let w := if (1 <? to_ticks) && (to_ticks <? min_to_ticks w) then w <| min_to_ticks := to_ticks |> else w in
  let w := on_callout c (callout_arm (ticks w) to_ticks ftn arg) w in
  let b := slot (c_time (store w c)) in
  on_cpu (c_cpu (store w c))
    (fun cc => cc <| cc_callwheel := fset (cc_callwheel cc) b (cc_callwheel cc b ++ [c]) |>) w.

Definition callout_reset_on (c to_ticks : Z) (ftn : option Z) (arg cpu : Z) (w : world) : world * bool :=
  let cpu := if has_flag (c_flags (store w c)) CALLOUT_LOCAL_ALLOC then c_cpu (store w c) else cpu in
  match reset_pass c false w with
  | inl r => r
  | inr (w, cancelled) =>
      if c_cpu (store w c) =? cpu then (link c to_ticks ftn arg w, cancelled)
      else
        match reset_pass c cancelled (on_callout c (fun x => x <| c_cpu := cpu |>) w) with
        | inl r => r
        | inr (w, cancelled) => (link c to_ticks ftn arg w, cancelled)
        end
  end.

Definition callout_schedule_on (c to_ticks cpu : Z) (w : world) : world * bool :=
  callout_reset_on c to_ticks (c_func (store w c)) (c_arg (store w c)) cpu w.
Definition callout_schedule (c to_ticks : Z) (w : world) : world * bool :=
  callout_schedule_on c to_ticks (c_cpu (store w c)) w.

(** How [_callout_stop_safe] ends; [Waits] is a thread asleep on [callout_cv]. *)
Inductive stop_result := Returns (stopped : bool) | Waits.

Definition callout_stop_safe (c : Z) (safe : bool) (w : world) : world * stop_result :=
  let use_lock := negb safe && bool_decide (c_lock (store w c) <> None) in
  let cpu := c_cpu (store w c) in
  if negb (callout_pending (store w c)) then
    let w := on_callout c callout_deactivate w in
    if negb (is_curr (cc_cpu w cpu) c) then (w, Returns false)
    else if safe then (w, Waits)
    else if use_lock && negb (cc_cancel (cc_cpu w cpu))
    then (on_cpu cpu (fun cc => cc <| cc_cancel := true |>) w, Returns true)
    else (w, Returns false)
  else
    let w := on_callout c callout_disarm w in
    let w := on_cpu cpu (fun cc => unlink c cc (slot (c_time (store w c)))) w in
    let w :=
      if has_flag (c_flags (store w c)) CALLOUT_LOCAL_ALLOC then
        on_cpu cpu (fun cc => cc <| cc_callfree := c :: cc_callfree cc |>)
          (on_callout c (fun x => x <| c_func := None |>) w)
      else w in
    (w, Returns true).

Definition callout_stop (c : Z) (w : world) : world := fst (callout_stop_safe c false w).

(** [timeout] and [untimeout]; [None] is the panic "timeout table full". *)
Definition timeout (timeout_cpu : Z) (ftn : option Z) (arg to_ticks : Z) (w : world) : option (world * Z) :=
  match cc_callfree (cc_cpu w timeout_cpu) with
  | [] => None
  | new :: rest =>
      let w := on_cpu timeout_cpu (fun cc => cc <| cc_callfree := rest |>) w in
      Some (fst (callout_reset_on new to_ticks ftn arg (c_cpu (store w new)) w), new)
  end.

Definition untimeout (ftn : option Z) (arg : Z) (handle : option Z) (w : world) : world :=
  match handle with
  | None => w
  | Some c =>
      if bool_decide (c_func (store w c) = ftn) && (c_arg (store w c) =? arg)
      then callout_stop c w else w
  end.

(** ** Initialisation *)

Definition Giant : Z := 0.

Definition callout_init (timeout_cpu : Z) (mpsafe : bool) : callout :=
  if mpsafe then mk_callout 0 None 0 None CALLOUT_RETURNUNLOCKED timeout_cpu
  else mk_callout 0 None 0 (Some Giant) 0 timeout_cpu.

Definition callout_init_lock (timeout_cpu : Z) (lock : option Z) (flags : Z) : callout :=
  mk_callout 0 None 0 lock (Z.land flags (Z.lor CALLOUT_RETURNUNLOCKED CALLOUT_SHAREDLOCK)) timeout_cpu.

(** [locals]: the addresses of the preallocated callouts of [timeout], in
    order; empty for a CPU whose [cc_callout] is NULL. *)
Definition callout_cpu_init (timeout_cpu cpu : Z) (locals : list Z) (w : world) : world :=
  let w := on_cpu cpu (fun cc => cc <| cc_callfree := [] |> <| cc_callwheel := fun _ => [] |>) w in
  fold_left (fun w c =>
    let w := set_callout c ((callout_init timeout_cpu false) <| c_flags := CALLOUT_LOCAL_ALLOC |>) w in
    on_cpu cpu (fun cc => cc <| cc_callfree := c :: cc_callfree cc |>) w) locals w.

(** ** The clock *)

Definition run_cmd (w : world) (c : cmd) : world :=
  match c with
  | CReset c to_ticks ftn arg cpu => fst (callout_reset_on c to_ticks ftn arg cpu w)
  | CStop c => callout_stop c w
  | CDrain c => fst (callout_stop_safe c true w)
  end.

(** The wheel's lock is dropped: the next entry of the script runs. *)
Definition window (w : world) : world :=
  match script w with
  | [] => w
  | cmds :: rest => fold_left run_cmd cmds (w <| script := rest |>)
  end.

Definition MAX_SOFTCLOCK_STEPS := 100.

(** Running one due callout.  [None]: the function returned with no lock to
    release and [CALLOUT_RETURNUNLOCKED] not set, a call through a null
    pointer. *)
Definition run_callout (cpu c curticks : Z) (w : world) : option world :=
  let b := slot curticks in
  let w := on_cpu cpu (fun cc => cc <| cc_next := tailq_next c (cc_callwheel cc b) |>) w in
  let w := on_cpu cpu (fun cc => cc <| cc_callwheel := fset (cc_callwheel cc) b (tailq_remove c (cc_callwheel cc b)) |>) w in
  let lock := c_lock (store w c) in
  let func := c_func (store w c) in
  let arg := c_arg (store w c) in
  let flags := c_flags (store w c) in
  let w := on_callout c (fun x => x <| c_flags :=
             if has_flag (c_flags x) CALLOUT_LOCAL_ALLOC then CALLOUT_LOCAL_ALLOC
             else Z.land (c_flags x) (Z.lnot CALLOUT_PENDING) |>) w in
  let w := on_cpu cpu (fun cc => cc <| cc_curr := Some c |> <| cc_cancel := false |>) w in
  let ran (w : world) : world := window (w <| called := called w ++ [mk_fcall c func arg curticks] |>) in
  let w :=
    match lock with
    | Some _ =>
        let w := window w in
        if cc_cancel (cc_cpu w cpu) then Some w
        else
          let w := ran (on_cpu cpu (fun cc => cc <| cc_cancel := true |>) w) in
          Some w
    | None =>
        let w := ran w in
        if has_flag flags CALLOUT_RETURNUNLOCKED then Some w else None
    end in
  match w with
  | None => None
  | Some w =>
      let w := if has_flag flags CALLOUT_LOCAL_ALLOC then
                 on_cpu cpu (fun cc => cc <| cc_callfree := c :: cc_callfree cc |>)
                   (on_callout c (fun x => x <| c_func := None |>) w)
               else w in
      let w := on_cpu cpu (fun cc => cc <| cc_curr := None |>) w in
      Some (if cc_waiting (cc_cpu w cpu)
            then (on_cpu cpu (fun cc => cc <| cc_waiting := false |>) w) <| broadcasts := broadcasts w + 1 |>
            else w)
  end.

(** The walk along the bucket of [curticks]. *)
Fixpoint softclock_bucket (fuel : nat) (cpu curticks : Z) (c : option Z) (steps : Z) (w : world)
  : option (world * Z) :=
  match c, fuel with
  | None, _ => Some (w, steps)
  | Some _, O => None
  | Some c, S fuel =>
      if negb (c_time (store w c) =? curticks) then
        let c := tailq_next c (cc_callwheel (cc_cpu w cpu) (slot curticks)) in
        let steps := steps + 1 in
        if MAX_SOFTCLOCK_STEPS <=? steps then
          let w := window (on_cpu cpu (fun cc => cc <| cc_next := c |>) w) in
          softclock_bucket fuel cpu curticks (cc_next (cc_cpu w cpu)) 0 w
        else softclock_bucket fuel cpu curticks c steps w
      else
        match run_callout cpu c curticks w with
        | None => None
        | Some w => softclock_bucket fuel cpu curticks (cc_next (cc_cpu w cpu)) 0 w
        end
  end.

(** Enough for the callouts of the bucket and those that can be linked on it
    meanwhile. *)
Definition bucket_fuel (cpu curticks : Z) (w : world) : nat :=
  length (cc_callwheel (cc_cpu w cpu) (slot curticks)) + length (concat (script w)).

Fixpoint softclock_loop (n : nat) (cpu steps : Z) (w : world) : option world :=
  if cc_softticks (cc_cpu w cpu) =? ticks w
  then Some (on_cpu cpu (fun cc => cc <| cc_next := None |>) w)
  else
    match n with
    | O => None
    | S n =>
        let curticks := cc_softticks (cc_cpu w cpu) in
        let w := on_cpu cpu (fun cc => cc <| cc_softticks := s32 (curticks + 1) |>) w in
        match softclock_bucket (bucket_fuel cpu curticks w) cpu curticks
                (head (cc_callwheel (cc_cpu w cpu) (slot curticks))) steps w with
        | None => None
        | Some (w, steps) => softclock_loop n cpu steps w
        end
    end.

(** The number of ticks the wheel is behind. *)
Definition lag (cpu : Z) (w : world) : Z := u32 (ticks w - cc_softticks (cc_cpu w cpu)).

Definition softclock (cpu : Z) (w : world) : option world := softclock_loop (Z.to_nat (lag cpu w)) cpu 0 w.

(** The loop of [callout_tick]: skip the empty buckets. *)
Fixpoint tick_loop (n : nat) (cpu : Z) (w : world) : world * bool :=
  if s32 (cc_softticks (cc_cpu w cpu) - ticks w) <? 0 then
    match cc_callwheel (cc_cpu w cpu) (slot (cc_softticks (cc_cpu w cpu))) with
    | [] =>
        match n with
        | O => (w, false)
        | S n => tick_loop n cpu (on_cpu cpu (fun cc => cc <| cc_softticks := s32 (cc_softticks cc + 1) |>) w)
        end
    | _ => (w, true)
    end
  else (w, false).

Definition callout_tick (self : Z) (w : world) : option world :=
  let '(w, need_softclock) := tick_loop (Z.to_nat (lag self w)) self w in
  if need_softclock then softclock self w else Some w.

Definition uinet_hardclock (self : Z) (w : world) : option world :=
  callout_tick self (w <| ticks := s32 (ticks w + 1) |>).

(** ** Lists *)

Lemma elem_tailq_remove c x l : NoDup l -> x ∈ tailq_remove c l <-> x ∈ l /\ x <> c.
Proof.
  induction l as [|y l IH]; intros Hn; cbn [tailq_remove]; [set_solver|]. inversion Hn; subst.
  destruct (Z.eqb_spec y c); [subst; split; [intros; split; [set_solver|intros ->; auto]|set_solver]|].
  rewrite !elem_of_cons, IH by assumption. split; [intros [->|[? ?]]; auto|]. intros [[->|?] ?]; auto.
Qed.

Lemma NoDup_tailq_remove c l : NoDup l -> NoDup (tailq_remove c l).
Proof.
  induction l as [|y l IH]; intros Hn; cbn [tailq_remove]; [constructor|]. inversion Hn; subst.
  destruct (y =? c); [assumption|]. constructor; [rewrite elem_tailq_remove by assumption; tauto|auto].
Qed.

Lemma tailq_remove_not_in c l : c ∉ l -> tailq_remove c l = l.
Proof.
  induction l as [|y l IH]; intros H; [reflexivity|]. cbn [tailq_remove].
  destruct (Z.eqb_spec y c); [subst; set_solver|]. rewrite IH; [reflexivity|set_solver].
Qed.

Lemma tailq_remove_app c l1 l2 : c ∉ l1 -> tailq_remove c (l1 ++ l2) = l1 ++ tailq_remove c l2.
Proof.
  induction l1 as [|y l IH]; intros H; [reflexivity|]. cbn [tailq_remove app].
  destruct (Z.eqb_spec y c); [subst; set_solver|]. rewrite IH; [reflexivity|set_solver].
Qed.

Lemma tailq_remove_app_l c l1 l2 : c ∈ l1 -> tailq_remove c (l1 ++ l2) = tailq_remove c l1 ++ l2.
Proof.
  induction l1 as [|y l IH]; intros H; [set_solver|]. cbn [tailq_remove app].
  destruct (Z.eqb_spec y c); [reflexivity|]. rewrite IH; [reflexivity|set_solver].
Qed.

Lemma tailq_next_app c l1 l2 : c ∉ l1 -> tailq_next c (l1 ++ c :: l2) = head l2.
Proof.
  induction l1 as [|y l IH]; intros H; cbn [tailq_next app]; [rewrite Z.eqb_refl; reflexivity|].
  destruct (Z.eqb_spec y c); [subst; set_solver|]. apply IH. set_solver.
Qed.

(** Removing an element keeps a position in the list, when the position moves
    on with it. *)
Lemma tailq_remove_split c dn rest : NoDup (dn ++ rest) ->
  exists dn' rest', tailq_remove c (dn ++ rest) = dn' ++ rest' /\
    head rest' = (if bool_decide (head rest = Some c) then tailq_next c (dn ++ rest) else head rest) /\
    dn' ⊆ dn /\ (length rest' <= length rest)%nat.
Proof.
  intros Hn. destruct (decide (c ∈ dn)) as [Hd|Hd].
  - exists (tailq_remove c dn), rest. rewrite tailq_remove_app_l by exact Hd. apply NoDup_app in Hn as (H1 & H2 & H3).
    rewrite bool_decide_false; [|intros E; apply (H2 c Hd); destruct rest; inversion E; set_solver].
    split; [reflexivity|]. split; [reflexivity|]. split; [|lia]. intros x. rewrite elem_tailq_remove by exact H1. tauto.
  - rewrite tailq_remove_app by exact Hd. destruct rest as [|y r].
    + exists dn, []. cbn. split; [reflexivity|]. split; [reflexivity|]. split; [set_solver|lia].
    + cbn [tailq_remove head]. destruct (Z.eqb_spec y c) as [->|Hy].
      * exists dn, r. rewrite bool_decide_true by reflexivity. rewrite tailq_next_app by exact Hd.
        split; [reflexivity|]. split; [reflexivity|]. split; [set_solver|cbn; lia].
      * exists dn, (y :: tailq_remove c r). rewrite bool_decide_false by congruence.
        split; [reflexivity|]. split; [reflexivity|]. split; [set_solver|]. cbn. clear.
        induction r as [|z r IH]; cbn; [lia|]. destruct (z =? c); cbn in *; lia.
Qed.

(** ** The wheel's invariant *)

(** A callout without a lock returns unlocked and is not one of [timeout]'s. *)
Definition returns_unlocked (x : callout) : bool :=
  has_flag (c_flags x) CALLOUT_RETURNUNLOCKED && negb (has_flag (c_flags x) CALLOUT_LOCAL_ALLOC).

Lemma returns_unlocked_clear f x :
  Z.land f CALLOUT_RETURNUNLOCKED = 0 -> Z.land f CALLOUT_LOCAL_ALLOC = 0 ->
  returns_unlocked (x <| c_flags := Z.land (c_flags x) (Z.lnot f) |>) = returns_unlocked x.
Proof. intros H1 H2. unfold returns_unlocked. cbn [update c_flags]. rewrite !flag_cleared_other by assumption. reflexivity. Qed.

Definition bucket (w : world) (cpu b : Z) : list Z := cc_callwheel (cc_cpu w cpu) b.
Definition pending (w : world) (c : Z) : Prop := callout_pending (store w c) = true.

(** The ticks until the bucket of [c] is reached, modulo 2^32; a callout whose
    bucket was passed over would be 2^32 - 1 ticks away. *)
Definition due (k : Z) (w : world) (c : Z) : Z := u32 (c_time (store w c) - cc_softticks (cc_cpu w k)).

(** [k] is the CPU whose wheel turns.  [exc] is the tick being processed, whose
    callouts may be overdue: they are the part of the bucket from [cc_next] on,
    of at most [n] callouts. *)
Record wheel_inv (k : Z) (exc : option Z) (n : nat) (w : world) : Prop := {
  wi_link : forall cpu b c, c ∈ bucket w cpu b ->
    c_cpu (store w c) = cpu /\ pending w c /\ slot (c_time (store w c)) = b;
  wi_pend : forall c, pending w c -> c ∈ bucket w (c_cpu (store w c)) (slot (c_time (store w c)));
  wi_nodup : forall cpu b, NoDup (bucket w cpu b);
  wi_lock : forall c, c_lock (store w c) = None -> returns_unlocked (store w c) = true;
  wi_lag : lag k w < 2 ^ 30;
  wi_due : forall c, pending w c -> s32 (c_time (store w c)) = c_time (store w c) /\
    (c_cpu (store w c) = k -> exc <> Some (c_time (store w c)) -> due k w c < 2 ^ 31 + 2 ^ 30);
  wi_walk : forall cur, exc = Some cur ->
    u32 (cur - cc_softticks (cc_cpu w k)) = 2 ^ 32 - 1 /\
    exists dn rest, bucket w k (slot cur) = dn ++ rest /\ cc_next (cc_cpu w k) = head rest /\
      Forall (fun c => c_time (store w c) <> cur) dn /\ (length rest <= n)%nat }.

(** What calls of the module by other threads leave alone; [touched] are the
    callouts they were about. *)
Record frame (touched : list Z) (w w' : world) : Prop := {
  fr_ticks : ticks w' = ticks w;
  fr_called : called w' = called w;
  fr_script : script w' = script w;
  fr_broadcasts : broadcasts w' = broadcasts w;
  fr_cpu : forall cpu, cc_softticks (cc_cpu w' cpu) = cc_softticks (cc_cpu w cpu) /\
    cc_waiting (cc_cpu w' cpu) = cc_waiting (cc_cpu w cpu) /\ cc_curr (cc_cpu w' cpu) = cc_curr (cc_cpu w cpu);
  fr_store : forall c, c ∉ touched -> store w' c = store w c;
  fr_cancel : forall cpu, (forall c, cc_curr (cc_cpu w cpu) = Some c -> c ∉ touched) ->
    cc_cancel (cc_cpu w' cpu) = cc_cancel (cc_cpu w cpu) }.

Lemma wframe_refl l w : frame l w w.
Proof. split; auto. Qed.

Lemma wframe_trans l1 l2 w1 w2 w3 : frame l1 w1 w2 -> frame l2 w2 w3 -> frame (l1 ++ l2) w1 w3.
Proof.
  intros [A1 A2 A3 A4 A5 A6 A7] [B1 B2 B3 B4 B5 B6 B7]. split; try congruence.
  - intros cpu. destruct (A5 cpu) as (? & ? & ?), (B5 cpu) as (? & ? & ?). split; [congruence|]. split; congruence.
  - intros c Hc. rewrite B6, A6; set_solver.
  - intros cpu H. rewrite B7; [apply A7; set_solver|]. destruct (A5 cpu) as (? & ? & E). rewrite E. set_solver.
Qed.

Lemma frame_weaken l1 l2 w w' : l1 ⊆ l2 -> frame l1 w w' -> frame l2 w w'.
Proof. intros H [A1 A2 A3 A4 A5 A6 A7]. split; auto. intros cpu Hc. apply A7. set_solver. Qed.

Lemma frame_same l w1 w2 w3 : frame l w1 w2 -> frame l w2 w3 -> frame l w1 w3.
Proof. intros F1 F2. eapply frame_weaken; [|exact (wframe_trans _ _ _ _ _ F1 F2)]. set_solver. Qed.

Lemma fset_eq {A} (f : Z -> A) i v : fset f i v i = v.
Proof. unfold fset. rewrite Z.eqb_refl. reflexivity. Qed.
Lemma fset_ne {A} (f : Z -> A) i v j : j <> i -> fset f i v j = f j.
Proof. intros H. unfold fset. apply Z.eqb_neq in H. rewrite H. reflexivity. Qed.
Lemma fset_cases {A} (f : Z -> A) i v j : (j = i /\ fset f i v j = v) \/ (j <> i /\ fset f i v j = f j).
Proof. destruct (Z.eq_dec j i) as [->|H]; [left|right]; auto using fset_eq, fset_ne. Qed.

(** Steps that do not move a callout. *)
Lemma inv_same k exc n w w' :
  wheel_inv k exc n w ->
  (forall cpu b, bucket w' cpu b = bucket w cpu b) -> ticks w' = ticks w ->
  cc_softticks (cc_cpu w' k) = cc_softticks (cc_cpu w k) -> cc_next (cc_cpu w' k) = cc_next (cc_cpu w k) ->
  (forall c, c_time (store w' c) = c_time (store w c) /\ c_cpu (store w' c) = c_cpu (store w c) /\
     callout_pending (store w' c) = callout_pending (store w c) /\ c_lock (store w' c) = c_lock (store w c) /\
     (c_lock (store w c) = None -> returns_unlocked (store w' c)
       = returns_unlocked (store w c))) ->
  wheel_inv k exc n w'.
Proof.
  intros [I1 I2 I3 I4 I5 I6 I7] Hb Ht Hs Hn Hc. unfold pending, due, lag in *. split.
  - intros cpu b c. rewrite Hb. intros Hin. destruct (Hc c) as (E1 & E2 & E3 & _). unfold pending. rewrite E1, E2, E3. auto.
  - intros c Hp. unfold pending in Hp. destruct (Hc c) as (E1 & E2 & E3 & _). rewrite E3 in Hp. rewrite Hb, E1, E2. auto.
  - intros cpu b. rewrite Hb. auto.
  - intros c. destruct (Hc c) as (_ & _ & _ & E1 & E2). rewrite E1. intros H. rewrite E2 by exact H. auto.
  - unfold lag. rewrite Ht, Hs. exact I5.
  - intros c. destruct (Hc c) as (E1 & E2 & E3 & _). unfold pending, due. rewrite E1, E2, E3, Hs. auto.
  - intros cur Hcur. destruct (I7 cur Hcur) as (A & dn & rest & B & C & D & E). rewrite Hs, Hb, Hn. split; [exact A|].
    exists dn, rest. split; [exact B|]. split; [exact C|]. split; [|exact E].
    eapply Forall_impl; [exact D|]. intros c H. destruct (Hc c) as (E1 & _). rewrite E1. exact H.
Qed.

(** Changes to the wheel's own fields that do not matter to the invariant. *)
Lemma inv_on_cpu k exc n w cpu f :
  wheel_inv k exc n w ->
  (forall cc, cc_callwheel (f cc) = cc_callwheel cc /\ cc_softticks (f cc) = cc_softticks cc /\ cc_next (f cc) = cc_next cc) ->
  wheel_inv k exc n (on_cpu cpu f w).
Proof.
  intros I Hf. assert (forall j, cc_callwheel (cc_cpu (on_cpu cpu f w) j) = cc_callwheel (cc_cpu w j) /\
    cc_softticks (cc_cpu (on_cpu cpu f w) j) = cc_softticks (cc_cpu w j) /\
    cc_next (cc_cpu (on_cpu cpu f w) j) = cc_next (cc_cpu w j)) as H.
  { intros j. cbn. destruct (fset_cases (cc_cpu w) cpu (f (cc_cpu w cpu)) j) as [[-> ->]|[_ ->]]; auto. }
  eapply inv_same; [exact I| |reflexivity|apply H|apply H|tauto].
  intros j b. unfold bucket. destruct (H j) as (-> & _). reflexivity.
Qed.

Lemma inv_on_callout k exc n w c f :
  wheel_inv k exc n w ->
  (forall x, c_time (f x) = c_time x /\ c_cpu (f x) = c_cpu x /\ callout_pending (f x) = callout_pending x /\
     c_lock (f x) = c_lock x /\ returns_unlocked (f x) = returns_unlocked x) ->
  wheel_inv k exc n (on_callout c f w).
Proof.
  intros I Hf. eapply inv_same; [exact I|reflexivity|reflexivity|reflexivity|reflexivity|].
  intros x. cbn. destruct (fset_cases (store w) c (f (store w c)) x) as [[-> ->]|[_ ->]]; [|tauto].
  destruct (Hf (store w c)) as (-> & -> & -> & -> & ->). tauto.
Qed.

Lemma inv_more k exc n n' w : wheel_inv k exc n w -> (n <= n')%nat -> wheel_inv k exc n' w.
Proof.
  intros [I1 I2 I3 I4 I5 I6 I7] H. split; auto. intros cur Hc. destruct (I7 cur Hc) as (A & dn & rest & B & C & D & E).
  split; [exact A|]. exists dn, rest. split; [exact B|]. split; [exact C|]. split; [exact D|lia].
Qed.

(** *** Taking a callout off *)

Definition detach (c : Z) (w : world) : world :=
  on_callout c callout_disarm
    (on_cpu (c_cpu (store w c)) (fun cc => unlink c cc (slot (c_time (store w c)))) w).

Lemma disarm_fields x : c_time (callout_disarm x) = c_time x /\ c_cpu (callout_disarm x) = c_cpu x /\
  callout_pending (callout_disarm x) = false /\ c_lock (callout_disarm x) = c_lock x /\
  returns_unlocked (callout_disarm x) = returns_unlocked x.
Proof.
  split; [reflexivity|]. split; [reflexivity|]. split; [apply flag_cleared_sub; reflexivity|].
  split; [reflexivity|]. apply returns_unlocked_clear; reflexivity.
Qed.

Lemma detach_bucket k exc n w c cpu b :
  wheel_inv k exc n w -> pending w c ->
  bucket (detach c w) cpu b = tailq_remove c (bucket w cpu b).
Proof.
  intros I Hp. unfold bucket, detach. cbn [on_callout set_callout update cc_cpu on_cpu set_cpu].
  destruct (fset_cases (cc_cpu w) (c_cpu (store w c)) (unlink c (cc_cpu w (c_cpu (store w c))) (slot (c_time (store w c)))) cpu)
    as [[-> ->]|[Hne ->]].
  - unfold unlink. destruct (bool_decide _); cbn [update cc_callwheel];
      (destruct (fset_cases (cc_callwheel (cc_cpu w (c_cpu (store w c)))) (slot (c_time (store w c)))
         (tailq_remove c (cc_callwheel (cc_cpu w (c_cpu (store w c))) (slot (c_time (store w c))))) b) as [[-> ->]|[Hne ->]];
       [reflexivity|]);
      rewrite tailq_remove_not_in; [reflexivity| |reflexivity|]; intros H; apply Hne;
      destruct (wi_link _ _ _ _ I _ _ _ H) as (_ & _ & E); symmetry; exact E.
  - rewrite tailq_remove_not_in; [reflexivity|]. intros H. apply Hne.
    destruct (wi_link _ _ _ _ I _ _ _ H) as (E & _). symmetry; exact E.
Qed.

Lemma detach_store w c x : store (detach c w) x = if x =? c then callout_disarm (store w c) else store w x.
Proof. reflexivity. Qed.

Lemma detach_cpu w c cpu :
  cc_softticks (cc_cpu (detach c w) cpu) = cc_softticks (cc_cpu w cpu) /\
  cc_waiting (cc_cpu (detach c w) cpu) = cc_waiting (cc_cpu w cpu) /\
  cc_curr (cc_cpu (detach c w) cpu) = cc_curr (cc_cpu w cpu) /\
  cc_cancel (cc_cpu (detach c w) cpu) = cc_cancel (cc_cpu w cpu).
Proof.
  unfold detach. cbn [on_callout set_callout update cc_cpu on_cpu set_cpu].
  destruct (fset_cases (cc_cpu w) (c_cpu (store w c)) (unlink c (cc_cpu w (c_cpu (store w c))) (slot (c_time (store w c)))) cpu)
    as [[-> ->]|[Hne ->]]; [|tauto]. unfold unlink. destruct (bool_decide _); tauto.
Qed.

Lemma detach_next k exc n w c cur :
  wheel_inv k exc n w -> pending w c -> exc = Some cur ->
  cc_next (cc_cpu (detach c w) k) =
  if bool_decide (cc_next (cc_cpu w k) = Some c) then tailq_next c (bucket w k (slot cur)) else cc_next (cc_cpu w k).
Proof.
  intros I Hp Hc. destruct (wi_walk _ _ _ _ I _ Hc) as (_ & dn & rest & B & C & _).
  unfold detach. cbn [on_callout set_callout update cc_cpu on_cpu set_cpu].
  assert (cc_next (cc_cpu w k) = Some c -> c_cpu (store w c) = k /\ slot (c_time (store w c)) = slot cur) as Hin.
  { rewrite C. intros E. destruct rest as [|y r]; inversion E; subst.
    destruct (wi_link _ _ _ _ I k (slot cur) c) as (E1 & _ & E2); [rewrite B; set_solver|]. auto. }
  destruct (fset_cases (cc_cpu w) (c_cpu (store w c)) (unlink c (cc_cpu w (c_cpu (store w c))) (slot (c_time (store w c)))) k)
    as [[E ->]|[Hne ->]].
  - unfold unlink. rewrite <- E. destruct (bool_decide_reflect (cc_next (cc_cpu w k) = Some c)) as [En|En]; [|reflexivity].
    destruct (Hin En) as (_ & ->). reflexivity.
  - rewrite bool_decide_false; [reflexivity|]. intros En. apply Hin in En as (E & _). congruence.
Qed.

Lemma detach_inv k exc n w c : wheel_inv k exc n w -> pending w c -> wheel_inv k exc n (detach c w).
Proof.
  intros I Hp. destruct (disarm_fields (store w c)) as (D1 & D2 & D3 & D4 & D5).
  assert (forall x, pending (detach c w) x -> x <> c /\ pending w x /\ store (detach c w) x = store w x) as Hpd.
  { intros x. unfold pending. rewrite detach_store. destruct (Z.eqb_spec x c); [congruence|auto]. }
  assert (forall x, c_time (store (detach c w) x) = c_time (store w x)) as Htm.
  { intros x. rewrite detach_store. destruct (Z.eqb_spec x c); subst; auto. }
  destruct (detach_cpu w c k) as (F1 & _). split.
  - intros cpu b x. rewrite (detach_bucket k exc n) by assumption.
    rewrite elem_tailq_remove by apply (wi_nodup _ _ _ _ I). intros [H Hne]. unfold pending. rewrite detach_store.
    apply Z.eqb_neq in Hne. rewrite Hne. apply (wi_link _ _ _ _ I). exact H.
  - intros x Hx. destruct (Hpd x Hx) as (Hne & Hpx & ->). rewrite (detach_bucket k exc n) by assumption.
    rewrite elem_tailq_remove by apply (wi_nodup _ _ _ _ I). split; [apply (wi_pend _ _ _ _ I); exact Hpx|exact Hne].
  - intros cpu b. rewrite (detach_bucket k exc n) by assumption. apply NoDup_tailq_remove, (wi_nodup _ _ _ _ I).
  - intros x. rewrite detach_store. destruct (Z.eqb_spec x c); [subst; rewrite D4, D5|]; apply (wi_lock _ _ _ _ I).
  - unfold lag. rewrite F1. exact (wi_lag _ _ _ _ I).
  - intros x Hx. destruct (Hpd x Hx) as (Hne & Hpx & E). unfold due. rewrite E, F1. apply (wi_due _ _ _ _ I). exact Hpx.
  - intros cur Hcur. rewrite F1. rewrite (detach_next k exc n w c cur) by assumption.
    rewrite (detach_bucket k exc n) by assumption.
    destruct (wi_walk _ _ _ _ I _ Hcur) as (A & dn & rest & B & C & D & E). split; [exact A|].
    destruct (tailq_remove_split c dn rest) as (dn' & rest' & R1 & R2 & R3 & R4).
    { rewrite <- B. apply (wi_nodup _ _ _ _ I). }
    exists dn', rest'. rewrite B, C, R1, R2. split; [reflexivity|]. split; [reflexivity|]. split; [|lia].
    apply Forall_forall. intros x Hx. rewrite Htm. rewrite Forall_forall in D. auto.
Qed.

Lemma detach_frame w c : frame [c] w (detach c w).
Proof.
  split; try reflexivity.
  - intros cpu. destruct (detach_cpu w c cpu) as (? & ? & ? & ?). auto.
  - intros x Hx. rewrite detach_store. destruct (Z.eqb_spec x c); [set_solver|reflexivity].
  - intros cpu _. apply (detach_cpu w c cpu).
Qed.

(** *** Putting a callout on *)

Definition link_ticks (to_ticks : Z) : Z := if to_ticks <=? 0 then 1 else to_ticks.

(** The fields [link] leaves in the callout. *)
Lemma arm_fields w to_ticks ftn arg x :
  let x' := callout_arm (ticks w) (link_ticks to_ticks) ftn arg x in
  c_time x' = s32 (ticks w + link_ticks to_ticks) /\ c_cpu x' = c_cpu x /\ callout_pending x' = true /\
  callout_active x' = true /\ c_lock x' = c_lock x /\ c_func x' = ftn /\ c_arg x' = arg /\
  returns_unlocked x' = returns_unlocked x /\
  has_flag (c_flags x') CALLOUT_LOCAL_ALLOC = has_flag (c_flags x) CALLOUT_LOCAL_ALLOC.
Proof.
  assert (1 <= link_ticks to_ticks) by (unfold link_ticks; destruct (Z.leb_spec to_ticks 0); lia).
  cbn. destruct (Z.leb_spec (link_ticks to_ticks) 0); [lia|].
  split; [reflexivity|]. split; [reflexivity|]. split; [apply flag_set; vm_compute; congruence|].
  split; [apply flag_set; vm_compute; congruence|]. split; [reflexivity|]. split; [reflexivity|].
  split; [reflexivity|]. split; [|apply flag_set_other; reflexivity].
  unfold returns_unlocked, callout_arm. cbn [update c_flags]. rewrite !flag_set_other by reflexivity. reflexivity.
Qed.

Lemma link_store w c to_ticks ftn arg x :
  store (link c to_ticks ftn arg w) x =
  if x =? c then callout_arm (ticks w) (link_ticks to_ticks) ftn arg (store w c) else store w x.
Proof. unfold link. cbv zeta. fold (link_ticks to_ticks). destruct (_ && _); reflexivity. Qed.

Lemma link_cpu w c to_ticks ftn arg cpu :
  let cc := cc_cpu w cpu in let cc' := cc_cpu (link c to_ticks ftn arg w) cpu in
  cc_softticks cc' = cc_softticks cc /\ cc_waiting cc' = cc_waiting cc /\ cc_curr cc' = cc_curr cc /\
  cc_cancel cc' = cc_cancel cc /\ cc_next cc' = cc_next cc.
Proof.
  unfold link. cbv zeta. destruct (_ && _); cbn -[fset];
    (match goal with |- context [fset (cc_cpu w) ?i ?v cpu] => destruct (fset_cases (cc_cpu w) i v cpu) as [[-> ->]|[_ ->]] end);
    repeat split.
Qed.

Lemma link_bucket w c to_ticks ftn arg cpu b :
  bucket (link c to_ticks ftn arg w) cpu b =
  bucket w cpu b ++ (if (cpu =? c_cpu (store w c)) && (b =? slot (s32 (ticks w + link_ticks to_ticks))) then [c] else []).
Proof.
  destruct (arm_fields w to_ticks ftn arg (store w c)) as (A1 & A2 & _).
  unfold link, bucket. cbv zeta. fold (link_ticks to_ticks).
  destruct (_ && (link_ticks to_ticks <? _)); cbn -[fset callout_arm]; rewrite fset_eq, A1, A2;
    (match goal with |- context [fset (cc_cpu w) ?i ?v cpu] => destruct (fset_cases (cc_cpu w) i v cpu) as [[-> ->]|[Hne ->]] end);
    try (apply Z.eqb_neq in Hne; rewrite Hne; cbn [andb]; rewrite app_nil_r; reflexivity);
    rewrite Z.eqb_refl; cbn -[fset];
    (match goal with |- context [fset ?f ?i ?v b] => destruct (fset_cases f i v b) as [[-> ->]|[Hne ->]] end);
    try (rewrite Z.eqb_refl; reflexivity); apply Z.eqb_neq in Hne; rewrite Hne, app_nil_r; reflexivity.
Qed.

(** A callout linked now is due strictly after every tick the wheel has still to
    process. *)
Lemma link_due k exc n w to_ticks :
  wheel_inv k exc n w -> to_ticks < 2 ^ 31 ->
  u32 (s32 (ticks w + link_ticks to_ticks) - cc_softticks (cc_cpu w k)) = lag k w + link_ticks to_ticks /\
  1 <= link_ticks to_ticks < 2 ^ 31.
Proof.
  intros I Ht. pose proof (wi_lag _ _ _ _ I) as Hl. unfold lag in *.
  assert (1 <= link_ticks to_ticks < 2 ^ 31) as Hk by (unfold link_ticks; destruct (Z.leb_spec to_ticks 0); lia).
  split; [|exact Hk]. pose proof (u32_range (ticks w - cc_softticks (cc_cpu w k))).
  set (s := cc_softticks (cc_cpu w k)) in *. set (j := link_ticks to_ticks) in *.
  rewrite <- u32_sub_l, u32_s32, u32_sub_l. replace (ticks w + j - s) with ((ticks w - s) + j) by lia.
  rewrite <- u32_add_l. apply u32_small. lia.
Qed.

Lemma link_inv k exc n w c to_ticks ftn arg :
  wheel_inv k exc n w -> ~ pending w c -> to_ticks < 2 ^ 31 ->
  wheel_inv k exc (S n) (link c to_ticks ftn arg w).
Proof.
  intros I Hp Ht. destruct (link_due k exc n w to_ticks I Ht) as [Hd Hk]. pose proof (wi_lag _ _ _ _ I) as Hl.
  destruct (arm_fields w to_ticks ftn arg (store w c)) as (A1 & A2 & A3 & A4 & A5 & A6 & A7 & A8 & A9).
  destruct (link_cpu w c to_ticks ftn arg k) as (F1 & _ & _ & _ & F5).
  assert (forall cpu b, c ∉ bucket w cpu b) as Hno.
  { intros cpu b H. apply Hp, (wi_link _ _ _ _ I _ _ _ H). }
  assert (lag k (link c to_ticks ftn arg w) = lag k w) as Hlag.
  { unfold lag. rewrite F1. f_equal. f_equal. unfold link. cbv zeta. destruct (_ && _); reflexivity. }
  pose proof (u32_range (ticks w - cc_softticks (cc_cpu w k))) as Hlr. fold (lag k w) in Hlr.
  split.
  - intros cpu b x. rewrite link_bucket, elem_of_app. unfold pending. rewrite link_store. intros [H|H].
    + destruct (Z.eqb_spec x c); [subst; exfalso; exact (Hno _ _ H)|]. apply (wi_link _ _ _ _ I). exact H.
    + destruct (_ && _) eqn:E; [|set_solver]. apply list_elem_of_singleton in H. subst x. rewrite Z.eqb_refl, A1, A2. zbool.
      split; [congruence|]. split; [exact A3|congruence].
  - intros x. unfold pending. rewrite link_store, link_bucket. destruct (Z.eqb_spec x c).
    + subst. intros _. rewrite A1, A2, !Z.eqb_refl. set_solver.
    + intros H. apply elem_of_app. left. apply (wi_pend _ _ _ _ I). exact H.
  - intros cpu b. rewrite link_bucket. apply NoDup_app. split; [apply (wi_nodup _ _ _ _ I)|].
    split; [|destruct (_ && _); [apply NoDup_singleton|constructor]]. intros x Hx. destruct (_ && _); [|set_solver].
    rewrite list_elem_of_singleton. intros ->. exact (Hno _ _ Hx).
  - intros x. rewrite link_store. destruct (Z.eqb_spec x c); [subst; rewrite A5, A8|]; apply (wi_lock _ _ _ _ I).
  - rewrite Hlag. exact Hl.
  - intros x. unfold pending, due. rewrite link_store, F1. destruct (Z.eqb_spec x c).
    + intros _. rewrite A1. split; [apply s32_small, s32_range|]. intros _ _. rewrite Hd. lia.
    + apply (wi_due _ _ _ _ I).
  - intros cur Hcur. rewrite F1, F5, link_bucket. destruct (wi_walk _ _ _ _ I _ Hcur) as (A & dn & rest & B & C & D & E).
    split; [exact A|].
    assert (Forall (fun x => c_time (store (link c to_ticks ftn arg w) x) <> cur) dn) as D'.
    { apply Forall_forall. intros x Hx. rewrite link_store. destruct (Z.eqb_spec x c) as [->|_].
      - exfalso. apply (Hno k (slot cur)). rewrite B. set_solver.
      - rewrite Forall_forall in D. auto. }
    destruct (_ && _) eqn:Eb; [|exists dn, rest; rewrite app_nil_r; auto].
    destruct rest as [|y r].
    + exists (dn ++ [c]), []. rewrite B, !app_nil_r. split; [reflexivity|]. split; [exact C|]. split; [|cbn; lia].
      apply Forall_app. split; [exact D'|]. constructor; [|constructor]. rewrite link_store, Z.eqb_refl, A1.
      intros Ec. rewrite <- Ec, Hd in A. lia.
    + exists dn, ((y :: r) ++ [c]). rewrite B, app_assoc. split; [reflexivity|]. split; [exact C|]. split; [exact D'|].
      rewrite length_app. cbn in *. lia.
Qed.

Lemma link_frame w c to_ticks ftn arg : frame [c] w (link c to_ticks ftn arg w).
Proof.
  split.
  1-4: unfold link; cbv zeta; destruct (_ && _); reflexivity.
  - intros cpu. destruct (link_cpu w c to_ticks ftn arg cpu) as (? & ? & ? & ? & ?). auto.
  - intros x Hx. rewrite link_store. destruct (Z.eqb_spec x c); [set_solver|reflexivity].
  - intros cpu _. apply (link_cpu w c to_ticks ftn arg cpu).
Qed.

(** Moving an idle callout to another CPU. *)
Lemma migrate_inv k exc n w c cpu :
  wheel_inv k exc n w -> ~ pending w c -> wheel_inv k exc n (on_callout c (fun x => x <| c_cpu := cpu |>) w).
Proof.
  intros I Hp. set (w' := on_callout _ _ w).
  assert (forall x, x <> c -> store w' x = store w x) as Hs by (intros; apply fset_ne; assumption).
  assert (forall x, callout_pending (store w' x) = callout_pending (store w x) /\ c_time (store w' x) = c_time (store w x) /\
    c_lock (store w' x) = c_lock (store w x) /\ returns_unlocked (store w' x) = returns_unlocked (store w x)) as Hf.
  { intros x. cbn. destruct (fset_cases (store w) c ((store w c) <| c_cpu := cpu |>) x) as [[-> ->]|[_ ->]]; repeat split. }
  assert (forall x, pending w' x -> x <> c /\ store w' x = store w x /\ pending w x) as Hpd.
  { intros x. unfold pending. destruct (Hf x) as (-> & _). intros H. destruct (Z.eq_dec x c); [subst; contradiction|auto]. }
  split.
  - intros cp b x Hx. change (bucket w' cp b) with (bucket w cp b) in Hx.
    pose proof (wi_link _ _ _ _ I _ _ _ Hx) as Hl. destruct (Z.eq_dec x c) as [->|Hne]; [tauto|].
    unfold pending. rewrite (Hs x Hne). exact Hl.
  - intros x Hx. destruct (Hpd x Hx) as (_ & -> & H). exact (wi_pend _ _ _ _ I x H).
  - exact (wi_nodup _ _ _ _ I).
  - intros x. destruct (Hf x) as (_ & _ & -> & ->). apply (wi_lock _ _ _ _ I).
  - exact (wi_lag _ _ _ _ I).
  - intros x Hx. destruct (Hpd x Hx) as (_ & E & H). unfold due. rewrite E. exact (wi_due _ _ _ _ I x H).
  - intros cur Hcur. destruct (wi_walk _ _ _ _ I _ Hcur) as (A & dn & rest & B & C & D & E). split; [exact A|].
    exists dn, rest. split; [exact B|]. split; [exact C|]. split; [|exact E].
    eapply Forall_impl; [exact D|]. intros x. destruct (Hf x) as (_ & -> & _). auto.
Qed.

(** *** The operations *)

Lemma cancel_frame w c cpu :
  cc_curr (cc_cpu w cpu) = Some c -> frame [c] w (on_cpu cpu (fun cc => cc <| cc_cancel := true |>) w).
Proof.
  intros Hc. split; try reflexivity.
  - intros j. cbn -[fset]. destruct (fset_cases (cc_cpu w) cpu ((cc_cpu w cpu) <| cc_cancel := true |>) j) as [[-> ->]|[_ ->]]; repeat split.
  - intros j Hj. cbn -[fset].
    destruct (fset_cases (cc_cpu w) cpu ((cc_cpu w cpu) <| cc_cancel := true |>) j) as [[-> ->]|[_ ->]]; [|reflexivity].
    specialize (Hj c Hc). set_solver.
Qed.

Lemma store_frame w c f : frame [c] w (on_callout c f w).
Proof. split; try reflexivity; auto. intros x Hx. apply fset_ne. set_solver. Qed.

(** One pass of [callout_reset_on]: the callout is idle afterwards. *)
Lemma reset_pass_spec k exc n w c b :
  wheel_inv k exc n w ->
  match reset_pass c b w with
  | inl (w', _) => wheel_inv k exc n w' /\ frame [c] w w' /\ cc_waiting (cc_cpu w (c_cpu (store w c))) = true
  | inr (w', _) => wheel_inv k exc n w' /\ frame [c] w w' /\ ~ pending w' c /\
      store w' c = (if callout_pending (store w c) then callout_disarm (store w c) else store w c)
  end.
Proof.
  intros I. unfold reset_pass. set (cpu := c_cpu (store w c)).
  destruct (is_curr (cc_cpu w cpu) c && _ && _) eqn:Ec.
  - set (w1 := on_cpu cpu (fun cc => cc <| cc_cancel := true |>) w).
    assert (wheel_inv k exc n w1) as I1 by (apply inv_on_cpu; [exact I|intros; repeat split]).
    assert (frame [c] w w1) as F1.
    { apply cancel_frame. apply andb_true_iff in Ec as [Ec _]. apply andb_true_iff in Ec as [Ec _].
      apply bool_decide_eq_true in Ec. exact Ec. }
    assert (cc_waiting (cc_cpu w1 cpu) = cc_waiting (cc_cpu w cpu)) as Hw by apply (fr_cpu _ _ _ F1 cpu).
    destruct (_ && cc_waiting _) eqn:Ew; [split; [exact I1|]; split; [exact F1|]; rewrite <- Hw; zbool; assumption|].
    destruct (callout_pending (store w1 c)) eqn:Ep.
    + change (callout_pending (store w c) = true) in Ep. rewrite Ep.
      change (wheel_inv k exc n (detach c w1) /\ frame [c] w (detach c w1) /\ ~ pending (detach c w1) c /\
        store (detach c w1) c = callout_disarm (store w c)).
      split; [exact (detach_inv k exc n w1 c I1 Ep)|]. split; [exact (frame_same _ _ _ _ F1 (detach_frame w1 c))|].
      unfold pending. rewrite detach_store, Z.eqb_refl. split; [|reflexivity].
      destruct (disarm_fields (store w1 c)) as (_ & _ & -> & _). discriminate.
    + change (callout_pending (store w c) = false) in Ep. rewrite Ep. split; [exact I1|]. split; [exact F1|].
      split; [|reflexivity]. unfold pending. change (callout_pending (store w c) <> true). congruence.
  - destruct (_ && cc_waiting _) eqn:Ew; [split; [exact I|]; split; [apply wframe_refl|]; zbool; assumption|].
    destruct (callout_pending (store w c)) eqn:Ep.
    + change (wheel_inv k exc n (detach c w) /\ frame [c] w (detach c w) /\ ~ pending (detach c w) c /\
        store (detach c w) c = callout_disarm (store w c)).
      split; [exact (detach_inv k exc n w c I Ep)|]. split; [exact (detach_frame w c)|].
      unfold pending. rewrite detach_store, Z.eqb_refl. split; [|reflexivity].
      destruct (disarm_fields (store w c)) as (_ & _ & -> & _). discriminate.
    + split; [exact I|]. split; [apply wframe_refl|]. split; [unfold pending; congruence|reflexivity].
Qed.

(** [callout_reset_on] keeps the invariant and only touches its callout, which
    is armed afterwards unless a thread waits in [callout_drain]. *)
Lemma reset_spec k exc n w c to_ticks ftn arg cpu :
  wheel_inv k exc n w -> to_ticks < 2 ^ 31 ->
  let w' := fst (callout_reset_on c to_ticks ftn arg cpu w) in
  wheel_inv k exc (S n) w' /\ frame [c] w w' /\
  ((forall j, cc_waiting (cc_cpu w j) = false) ->
   exists x, store w' c = callout_arm (ticks w) (link_ticks to_ticks) ftn arg x /\
     c_cpu x = (if has_flag (c_flags (store w c)) CALLOUT_LOCAL_ALLOC then c_cpu (store w c) else cpu) /\
     c_lock x = c_lock (store w c) /\
     has_flag (c_flags x) CALLOUT_LOCAL_ALLOC = has_flag (c_flags (store w c)) CALLOUT_LOCAL_ALLOC).
Proof.
  intros I Ht. unfold callout_reset_on. set (cpu' := if has_flag _ _ then _ else _).
  pose proof (reset_pass_spec k exc n w c false I) as P.
  destruct (reset_pass c false w) as [[w1 b1]|[w1 b1]]; cbn [fst].
  { destruct P as (P1 & P2 & P3). split; [apply (inv_more k exc n); [exact P1|lia]|]. split; [exact P2|].
    intros Hw. rewrite Hw in P3. discriminate. }
  destruct P as (P1 & P2 & P3 & P4).
  assert (c_lock (store w1 c) = c_lock (store w c) /\ c_cpu (store w1 c) = c_cpu (store w c) /\
    has_flag (c_flags (store w1 c)) CALLOUT_LOCAL_ALLOC = has_flag (c_flags (store w c)) CALLOUT_LOCAL_ALLOC) as (L1 & L2 & L3).
  { rewrite P4. destruct (callout_pending _); [|tauto]. split; [reflexivity|]. split; [reflexivity|].
    apply flag_cleared_other. reflexivity. }
  destruct (Z.eqb_spec (c_cpu (store w1 c)) cpu') as [Ec|Ec]; cbn [fst].
  - split; [apply link_inv; assumption|]. split.
    + exact (frame_same _ _ _ _ P2 (link_frame w1 c to_ticks ftn arg)).
    + intros _. exists (store w1 c). rewrite link_store, Z.eqb_refl, (fr_ticks _ _ _ P2). auto.
  - set (w2 := on_callout c (fun x => x <| c_cpu := cpu' |>) w1).
    assert (wheel_inv k exc n w2) as I2 by (apply migrate_inv; assumption).
    assert (frame [c] w1 w2) as F2 by apply store_frame.
    assert (store w2 c = (store w1 c) <| c_cpu := cpu' |>) as S2 by apply fset_eq.
    pose proof (reset_pass_spec k exc n w2 c b1 I2) as P.
    assert (callout_pending (store w2 c) = false) as N2.
    { rewrite S2. change (callout_pending (store w1 c) = false). apply not_true_iff_false, P3. }
    destruct (reset_pass c b1 w2) as [[w3 b3]|[w3 b3]]; cbn [fst].
    + destruct P as (Q1 & Q2 & Q3). split; [apply (inv_more k exc n); [exact Q1|lia]|]. split.
      * exact (frame_same _ _ _ _ P2 (frame_same _ _ _ _ F2 Q2)).
      * intros Hw. destruct (fr_cpu _ _ _ (wframe_trans _ _ _ _ _ P2 F2) (c_cpu (store w2 c))) as (_ & E & _).
        rewrite Q3, Hw in E. discriminate.
    + destruct P as (Q1 & Q2 & Q3 & Q4). rewrite N2 in Q4. split; [apply link_inv; assumption|]. split.
      * exact (frame_same _ _ _ _ P2 (frame_same _ _ _ _ F2 (frame_same _ _ _ _ Q2 (link_frame w3 c to_ticks ftn arg)))).
      * intros _. exists (store w3 c). rewrite link_store, Z.eqb_refl.
        rewrite (fr_ticks _ _ _ Q2), (fr_ticks _ _ _ F2), (fr_ticks _ _ _ P2), Q4, S2. auto.
Qed.

(** [callout_stop] keeps the invariant and only touches its callout, which is
    idle afterwards. *)
Lemma stop_spec k exc n w c safe :
  wheel_inv k exc n w ->
  let w' := fst (callout_stop_safe c safe w) in
  wheel_inv k exc n w' /\ frame [c] w w' /\ ~ pending w' c.
Proof.
  intros I. unfold callout_stop_safe. set (cpu := c_cpu (store w c)). cbv zeta.
  destruct (callout_pending (store w c)) eqn:Ep; cbn [negb].
  - assert (on_cpu cpu (fun cc => unlink c cc (slot (c_time (store (on_callout c callout_disarm w) c))))
      (on_callout c callout_disarm w) = detach c w) as ->.
    { unfold detach, on_callout, set_callout. cbn -[fset unlink]. rewrite fset_eq. reflexivity. }
    pose proof (detach_inv k exc n w c I Ep) as I1. pose proof (detach_frame w c) as F1.
    assert (~ pending (detach c w) c) as N1.
    { unfold pending. rewrite detach_store, Z.eqb_refl. destruct (disarm_fields (store w c)) as (_ & _ & -> & _). discriminate. }
    destruct (has_flag _ _); cbn [fst]; [|auto].
    set (w2 := on_callout c (fun x => x <| c_func := None |>) (detach c w)).
    assert (wheel_inv k exc n w2) as I2 by (apply inv_on_callout; [exact I1|intros; repeat split]).
    split; [apply inv_on_cpu; [exact I2|intros; repeat split]|]. split.
    + eapply frame_same; [exact F1|]. split; try reflexivity.
      * intros j. cbn -[fset detach].
        match goal with |- context [fset ?f ?i ?v j] => destruct (fset_cases f i v j) as [[-> ->]|[_ ->]] end; repeat split.
      * intros x Hx. apply fset_ne. set_solver.
      * intros j _. cbn -[fset detach].
        match goal with |- context [fset ?f ?i ?v j] => destruct (fset_cases f i v j) as [[-> ->]|[_ ->]] end; reflexivity.
    + unfold pending. cbn -[fset detach]. rewrite fset_eq. exact N1.
  - set (w1 := on_callout c callout_deactivate w).
    assert (callout_pending (callout_deactivate (store w c)) = callout_pending (store w c)) as Hd
      by (apply flag_cleared_other; reflexivity).
    assert (wheel_inv k exc n w1) as I1.
    { apply inv_on_callout; [exact I|]. intros x. repeat (split; [reflexivity|]). split; [apply flag_cleared_other; reflexivity|].
      split; [reflexivity|apply returns_unlocked_clear; reflexivity]. }
    assert (frame [c] w w1) as F1 by apply store_frame.
    assert (~ pending w1 c) as N1 by (unfold pending, w1; cbn -[fset callout_deactivate]; rewrite fset_eq; congruence).
    destruct (is_curr (cc_cpu w1 cpu) c) eqn:Ec; cbn [negb fst]; [|auto].
    destruct safe; [cbn [fst]; auto|]. destruct (_ && _) eqn:El; cbn [fst]; [|auto].
    split; [apply inv_on_cpu; [exact I1|intros; repeat split]|]. split; [|exact N1].
    exact (frame_same _ _ _ _ F1 (cancel_frame w1 c cpu (proj1 (bool_decide_eq_true _) Ec))).
Qed.

Definition cmd_callout (m : cmd) : Z := match m with CReset c _ _ _ _ => c | CStop c | CDrain c => c end.
Definition cmd_ok (m : cmd) : Prop := match m with CReset _ n _ _ _ => n < 2 ^ 31 | _ => True end.

Lemma run_cmd_spec k exc n w m :
  wheel_inv k exc n w -> cmd_ok m -> wheel_inv k exc (S n) (run_cmd w m) /\ frame [cmd_callout m] w (run_cmd w m).
Proof.
  intros I Hm. destruct m as [c to_ticks ftn arg cpu|c|c]; cbn [run_cmd cmd_callout].
  - destruct (reset_spec k exc n w c to_ticks ftn arg cpu I Hm) as (P1 & P2 & _). auto.
  - destruct (stop_spec k exc n w c false I) as (P1 & P2 & _). split; [|exact P2]. apply (inv_more k exc n); [exact P1|lia].
  - destruct (stop_spec k exc n w c true I) as (P1 & P2 & _). split; [|exact P2]. apply (inv_more k exc n); [exact P1|lia].
Qed.

Lemma run_cmds_spec k exc ms : forall n w,
  wheel_inv k exc n w -> Forall cmd_ok ms ->
  wheel_inv k exc (length ms + n) (fold_left run_cmd ms w) /\ frame (map cmd_callout ms) w (fold_left run_cmd ms w).
Proof.
  induction ms as [|m ms IH]; intros n w I Hm; [split; [exact I|apply wframe_refl]|].
  apply Forall_cons in Hm as [Hm Hms]. destruct (run_cmd_spec k exc n w m I Hm) as [I1 F1].
  destruct (IH (S n) (run_cmd w m) I1 Hms) as [I2 F2]. cbn [fold_left length map].
  split; [apply (inv_more k exc (length ms + S n)); [exact I2|lia]|]. exact (wframe_trans [_] _ _ _ _ F1 F2).
Qed.

(** *** Windows *)

(** The script mentions only valid calls. *)
Definition script_ok (w : world) : Prop := Forall cmd_ok (concat (script w)).
(** Nobody but the clock deals with the callout [c]. *)
Definition avoid (c : Z) (w : world) : Prop := c ∉ map cmd_callout (concat (script w)).

(** The work a script can still cause. *)
Definition load (w : world) : nat := length (concat (script w)).

Definition calls_of (c : Z) (w : world) : list fcall := filter (fun f => f_callout f = c) (called w).

(** How the world changes while the clock thread works. *)
Record evolves (w w' : world) : Prop := {
  ev_ticks : ticks w' = ticks w;
  ev_soft : forall cpu, cc_softticks (cc_cpu w' cpu) = cc_softticks (cc_cpu w cpu);
  ev_script : exists pre, script w = pre ++ script w';
  ev_waiting : (forall cpu, cc_waiting (cc_cpu w cpu) = false) ->
    (forall cpu, cc_waiting (cc_cpu w' cpu) = false) /\ broadcasts w' = broadcasts w }.

Lemma evolves_refl w : evolves w w.
Proof. split; auto. exists []. reflexivity. Qed.

Lemma evolves_trans w1 w2 w3 : evolves w1 w2 -> evolves w2 w3 -> evolves w1 w3.
Proof.
  intros [A1 A2 [p A3] A4] [B1 B2 [q B3] B4]. split; [congruence|intros; rewrite B2; apply A2| |].
  - exists (p ++ q). rewrite A3, B3. apply app_assoc.
  - intros H. destruct (A4 H) as [C1 C2]. destruct (B4 C1) as [D1 D2]. split; [exact D1|congruence].
Qed.

Lemma evolves_script_ok w w' : evolves w w' -> script_ok w -> script_ok w'.
Proof. intros [_ _ [p E] _]. unfold script_ok. rewrite E, concat_app, Forall_app. tauto. Qed.
Lemma evolves_avoid c w w' : evolves w w' -> avoid c w -> avoid c w'.
Proof. intros [_ _ [p E] _]. unfold avoid. rewrite E, concat_app, map_app. set_solver. Qed.
Lemma evolves_load w w' : evolves w w' -> (load w' <= load w)%nat.
Proof. intros [_ _ [p E] _]. unfold load. rewrite E, concat_app, length_app. lia. Qed.

Lemma evolves_frame l w w' : frame l w w' -> evolves w w'.
Proof.
  intros [A1 A2 A3 A4 A5 A6 A7]. split; [exact A1|apply A5|exists []; symmetry; exact A3|].
  intros H. split; [|exact A4]. intros cpu. destruct (A5 cpu) as (_ & -> & _). apply H.
Qed.

Lemma window_spec k exc n w :
  wheel_inv k exc n w -> script_ok w ->
  let w' := window w in
  (exists n', wheel_inv k exc n' w' /\ (n' + load w' <= n + load w)%nat) /\ evolves w w' /\
  called w' = called w /\ (forall cpu, cc_curr (cc_cpu w' cpu) = cc_curr (cc_cpu w cpu)) /\
  (forall c, avoid c w -> store w' c = store w c) /\
  (forall cpu c, cc_curr (cc_cpu w cpu) = Some c -> avoid c w -> cc_cancel (cc_cpu w' cpu) = cc_cancel (cc_cpu w cpu)).
Proof.
  intros I Hs. unfold window. destruct (script w) as [|ms rest] eqn:Es.
  { split; [exists n; split; [exact I|lia]|]. split; [apply evolves_refl|]. auto. }
  set (w0 := w <| script := rest |>).
  assert (wheel_inv k exc n w0) as I0 by (eapply inv_same; [exact I|reflexivity|reflexivity|reflexivity|reflexivity|tauto]).
  unfold script_ok in Hs. rewrite Es in Hs. cbn [concat] in Hs. apply Forall_app in Hs as [Hm Hr].
  destruct (run_cmds_spec k exc ms n w0 I0 Hm) as [I1 F]. set (w' := fold_left run_cmd ms w0) in *. cbv zeta.
  assert (script w' = rest) as Hs' by exact (fr_script _ _ _ F).
  split.
  { exists (length ms + n)%nat. split; [exact I1|]. unfold load. rewrite Hs', Es. cbn [concat]. rewrite length_app. lia. }
  split.
  { apply (evolves_trans w w0); [|exact (evolves_frame _ _ _ F)]. split; auto. exists [ms]. exact Es. }
  split; [exact (fr_called _ _ _ F)|]. split; [intros cpu; apply (fr_cpu _ _ _ F cpu)|].
  assert (forall c, avoid c w -> c ∉ map cmd_callout ms) as Ha.
  { intros c. unfold avoid. rewrite Es. cbn [concat]. rewrite map_app. set_solver. }
  split; [intros c Hc; apply (fr_store _ _ _ F), Ha, Hc|].
  intros cpu c Hc Hav. apply (fr_cancel _ _ _ F). intros x Hx. change (cc_curr (cc_cpu w cpu) = Some x) in Hx.
  assert (x = c) as -> by congruence. apply Ha, Hav.
Qed.

Definition set_next (k : Z) (c : option Z) (w : world) : world := on_cpu k (fun cc => cc <| cc_next := c |>) w.

Lemma inv_set_next k exc n w c :
  wheel_inv k exc n w -> cc_next (cc_cpu w k) = c -> wheel_inv k exc n (set_next k c w).
Proof.
  intros I E. eapply inv_same; [exact I| |reflexivity| | |tauto].
  - intros j b. unfold bucket, set_next. cbn -[fset].
    destruct (fset_cases (cc_cpu w) k ((cc_cpu w k) <| cc_next := c |>) j) as [[-> ->]|[_ ->]]; reflexivity.
  - unfold set_next. cbn -[fset]. rewrite fset_eq. reflexivity.
  - unfold set_next. cbn -[fset]. rewrite fset_eq. symmetry. exact E.
Qed.

(** *** Running a callout *)

Definition fired (x : callout) : callout :=
  x <| c_flags := if has_flag (c_flags x) CALLOUT_LOCAL_ALLOC then CALLOUT_LOCAL_ALLOC
                  else Z.land (c_flags x) (Z.lnot CALLOUT_PENDING) |>.

(** The state in which the lock of the wheel is first dropped. *)
Definition taken (k c cur : Z) (w : world) : world :=
  let b := slot cur in
  let w := on_cpu k (fun cc => cc <| cc_next := tailq_next c (cc_callwheel cc b) |>) w in
  let w := on_cpu k (fun cc => cc <| cc_callwheel := fset (cc_callwheel cc) b (tailq_remove c (cc_callwheel cc b)) |>) w in
  let w := on_callout c fired w in
  on_cpu k (fun cc => cc <| cc_curr := Some c |> <| cc_cancel := false |>) w.

Lemma taken_cpu k c cur w j :
  cc_cpu (taken k c cur w) j =
  if j =? k then
    (cc_cpu w k) <| cc_next := tailq_next c (bucket w k (slot cur)) |>
      <| cc_callwheel := fset (cc_callwheel (cc_cpu w k)) (slot cur) (tailq_remove c (bucket w k (slot cur))) |>
      <| cc_curr := Some c |> <| cc_cancel := false |>
  else cc_cpu w j.
Proof.
  unfold taken. cbn -[fset fired]. destruct (Z.eqb_spec j k) as [->|H]; [rewrite !fset_eq; reflexivity|rewrite !fset_ne by exact H; reflexivity].
Qed.

Lemma taken_store k c cur w x : store (taken k c cur w) x = if x =? c then fired (store w c) else store w x.
Proof. reflexivity. Qed.

Lemma fired_fields x : c_time (fired x) = c_time x /\ c_cpu (fired x) = c_cpu x /\ callout_pending (fired x) = false /\
  c_lock (fired x) = c_lock x /\ (returns_unlocked x = true -> returns_unlocked (fired x) = true).
Proof.
  do 2 (split; [reflexivity|]). split; [|split; [reflexivity|]].
  - unfold callout_pending, fired. cbn [update c_flags]. destruct (has_flag (c_flags x) CALLOUT_LOCAL_ALLOC); [reflexivity|apply flag_cleared].
  - unfold returns_unlocked, fired. cbn [update c_flags]. destruct (has_flag (c_flags x) CALLOUT_LOCAL_ALLOC) eqn:E;
      [rewrite andb_false_r; discriminate|]. rewrite !flag_cleared_other by reflexivity. rewrite E. auto.
Qed.

(** At the head of the walk's loop the position is in the local variable [c]. *)
Definition at_callout (k cur : Z) (n : nat) (c : option Z) (w : world) : Prop :=
  wheel_inv k (Some cur) n (set_next k c w).

Lemma at_callout_spec k cur n c w : at_callout k cur n c w ->
  exists dn rest, bucket w k (slot cur) = dn ++ rest /\ c = head rest /\
    Forall (fun x => c_time (store w x) <> cur) dn /\ (length rest <= n)%nat /\ NoDup (dn ++ rest).
Proof.
  intros I. pose proof (wi_nodup _ _ _ _ I k (slot cur)) as Hn.
  destruct (wi_walk _ _ _ _ I cur eq_refl) as (_ & dn & rest & B & C & D & E).
  unfold bucket, set_next in *. cbn -[fset] in B, C, D, Hn. rewrite fset_eq in B, C, Hn. cbn in B, C, Hn.
  exists dn, rest. rewrite <- B. auto 10.
Qed.

Lemma set_next_bucket k c w cpu b : bucket (set_next k c w) cpu b = bucket w cpu b.
Proof.
  unfold bucket, set_next. cbn -[fset].
  destruct (fset_cases (cc_cpu w) k ((cc_cpu w k) <| cc_next := c |>) cpu) as [[-> ->]|[_ ->]]; reflexivity.
Qed.

Lemma set_next_cpu k c w : cc_cpu (set_next k c w) k = (cc_cpu w k) <| cc_next := c |>.
Proof. apply fset_eq. Qed.

(** The callout at the head of the walk, when it is due. *)
Lemma at_callout_due k cur n c w : at_callout k cur n (Some c) w ->
  pending w c /\ c_cpu (store w c) = k /\ slot (c_time (store w c)) = slot cur /\ (1 <= n)%nat.
Proof.
  intros I. destruct (at_callout_spec k cur n _ w I) as (dn & rest & B & C & D & E & N).
  destruct rest as [|y r]; [discriminate|]. injection C as <-.
  destruct (wi_link _ _ _ _ I k (slot cur) c) as (E1 & E2 & E3); [rewrite set_next_bucket, B; set_solver|].
  split; [exact E2|]. split; [exact E1|]. split; [exact E3|cbn in E; lia].
Qed.

Lemma taken_bucket k cur n c w cpu b : at_callout k cur n (Some c) w -> c_time (store w c) = cur ->
  bucket (taken k c cur w) cpu b = tailq_remove c (bucket w cpu b).
Proof.
  intros I Hc. unfold bucket. rewrite taken_cpu.
  assert (forall cp bb, c ∈ bucket w cp bb -> cp = k /\ bb = slot cur) as Hin.
  { intros cp bb. rewrite <- (set_next_bucket k (Some c)). intros H. destruct (wi_link _ _ _ _ I _ _ _ H) as (E1 & _ & E2).
    destruct (at_callout_due _ _ _ _ _ I) as (_ & F1 & F2 & _).
    change (c_cpu (store w c) = cp) in E1. change (slot (c_time (store w c)) = bb) in E2. split; congruence. }
  destruct (Z.eqb_spec cpu k) as [->|Hne].
  - cbn -[fset]. destruct (fset_cases (cc_callwheel (cc_cpu w k)) (slot cur) (tailq_remove c (bucket w k (slot cur))) b)
      as [[-> ->]|[Hne ->]]; [reflexivity|]. rewrite tailq_remove_not_in; [reflexivity|]. intros H. apply Hin in H. tauto.
  - rewrite tailq_remove_not_in; [reflexivity|]. intros H. apply Hin in H. tauto.
Qed.

Lemma taken_inv k cur n c w : at_callout k cur n (Some c) w -> c_time (store w c) = cur ->
  wheel_inv k (Some cur) (n - 1) (taken k c cur w).
Proof.
  intros I Hc. destruct (at_callout_due _ _ _ _ _ I) as (Hp & Hk & _ & Hn1).
  destruct (fired_fields (store w c)) as (D1 & D2 & D3 & D4 & D5).
  assert (cc_softticks (cc_cpu (taken k c cur w) k) = cc_softticks (cc_cpu (set_next k (Some c) w) k)) as F1.
  { rewrite taken_cpu, Z.eqb_refl, set_next_cpu. reflexivity. }
  assert (forall x, pending (taken k c cur w) x -> x <> c /\ pending w x /\ store (taken k c cur w) x = store w x) as Hpd.
  { intros x. unfold pending. rewrite taken_store. destruct (Z.eqb_spec x c); [congruence|auto]. }
  assert (forall cpu b, NoDup (bucket w cpu b)) as Hnd.
  { intros cpu b. rewrite <- (set_next_bucket k (Some c)). apply (wi_nodup _ _ _ _ I). }
  split.
  - intros cpu b x. rewrite (taken_bucket k cur n) by assumption. rewrite elem_tailq_remove by apply Hnd. intros [H Hne].
    unfold pending. rewrite taken_store. apply Z.eqb_neq in Hne. rewrite Hne. apply (wi_link _ _ _ _ I). rewrite set_next_bucket. exact H.
  - intros x Hx. destruct (Hpd x Hx) as (Hne & Hpx & ->). rewrite (taken_bucket k cur n) by assumption.
    rewrite elem_tailq_remove by apply Hnd. split; [|exact Hne]. rewrite <- (set_next_bucket k (Some c)). exact (wi_pend _ _ _ _ I x Hpx).
  - intros cpu b. rewrite (taken_bucket k cur n) by assumption. apply NoDup_tailq_remove, Hnd.
  - intros x. rewrite taken_store. destruct (Z.eqb_spec x c).
    + subst x. rewrite D4. intros H. apply D5. exact (wi_lock _ _ _ _ I c H).
    + exact (wi_lock _ _ _ _ I x).
  - unfold lag. rewrite F1. exact (wi_lag _ _ _ _ I).
  - intros x Hx. destruct (Hpd x Hx) as (Hne & Hpx & E). unfold due. rewrite E, F1. exact (wi_due _ _ _ _ I x Hpx).
  - intros cur' [= <-]. rewrite F1. split; [apply (wi_walk _ _ _ _ I cur eq_refl)|].
    destruct (at_callout_spec k cur n _ w I) as (dn & rest & B & C & D & E & N).
    destruct rest as [|y r]; [discriminate|]. injection C as <-.
    apply NoDup_app in N as (N1 & N2 & N3). apply NoDup_cons in N3 as [N4 N5].
    assert (c ∉ dn) as Hcd by (intros H; apply (N2 c H); set_solver).
    exists dn, r. rewrite (taken_bucket k cur n) by auto. rewrite taken_cpu, Z.eqb_refl. cbn [update cc_next]. rewrite B.
    rewrite tailq_remove_app, tailq_next_app by exact Hcd. cbn [tailq_remove]. rewrite Z.eqb_refl.
    split; [reflexivity|]. split; [reflexivity|]. split; [|cbn in E; lia].
    apply Forall_forall. intros x Hx. rewrite taken_store. destruct (Z.eqb_spec x c); [subst; contradiction|].
    rewrite Forall_forall in D. auto.
Qed.

(** The callout function has returned, or was cancelled. *)
Definition finish (k c flags : Z) (w : world) : world :=
  let w := if has_flag flags CALLOUT_LOCAL_ALLOC then
             on_cpu k (fun cc => cc <| cc_callfree := c :: cc_callfree cc |>)
               (on_callout c (fun x => x <| c_func := None |>) w)
           else w in
  let w := on_cpu k (fun cc => cc <| cc_curr := None |>) w in
  if cc_waiting (cc_cpu w k)
  then (on_cpu k (fun cc => cc <| cc_waiting := false |>) w) <| broadcasts := broadcasts w + 1 |>
  else w.

Lemma on_cpu_evolves w k f :
  (forall cc, cc_softticks (f cc) = cc_softticks cc /\ (cc_waiting cc = false -> cc_waiting (f cc) = false)) ->
  evolves w (on_cpu k f w).
Proof.
  intros H. split; [reflexivity| |exists []; reflexivity|].
  - intros j. cbn -[fset]. destruct (fset_cases (cc_cpu w) k (f (cc_cpu w k)) j) as [[-> ->]|[_ ->]]; [apply H|reflexivity].
  - intros Hw. split; [|reflexivity]. intros j. cbn -[fset].
    destruct (fset_cases (cc_cpu w) k (f (cc_cpu w k)) j) as [[-> ->]|[_ ->]]; [apply H|]; apply Hw.
Qed.

Lemma on_callout_evolves w c f : evolves w (on_callout c f w).
Proof. apply (evolves_frame [c]), store_frame. Qed.

Lemma finish_spec k exc n c flags w :
  wheel_inv k exc n w ->
  let w' := finish k c flags w in
  wheel_inv k exc n w' /\ evolves w w' /\ called w' = called w /\ script w' = script w /\
  (forall x, x <> c \/ has_flag flags CALLOUT_LOCAL_ALLOC = false -> store w' x = store w x).
Proof.
  intros I. unfold finish. set (w1 := if has_flag flags CALLOUT_LOCAL_ALLOC then _ else w).
  assert (wheel_inv k exc n w1 /\ evolves w w1 /\ called w1 = called w /\ script w1 = script w /\
    (forall x, x <> c \/ has_flag flags CALLOUT_LOCAL_ALLOC = false -> store w1 x = store w x)) as (A1 & A2 & A3 & A4 & A5).
  { subst w1. destruct (has_flag flags CALLOUT_LOCAL_ALLOC); [|split; [exact I|]; split; [apply evolves_refl|auto]].
    split; [apply inv_on_cpu; [apply inv_on_callout; [exact I|]|]; intros; repeat split|].
    split; [eapply evolves_trans; [apply on_callout_evolves|apply on_cpu_evolves; intros; split; auto]|].
    split; [reflexivity|]. split; [reflexivity|]. intros x [Hx|Hx]; [apply fset_ne; exact Hx|discriminate]. }
  set (w2 := on_cpu k (fun cc => cc <| cc_curr := None |>) w1). cbv zeta.
  assert (wheel_inv k exc n w2) as B1 by (apply inv_on_cpu; [exact A1|intros; repeat split]).
  assert (evolves w w2) as B2 by (eapply evolves_trans; [exact A2|apply on_cpu_evolves; intros; split; auto]).
  destruct (cc_waiting (cc_cpu w2 k)) eqn:Ew; [|split; [exact B1|]; split; [exact B2|auto]].
  split; [|split; [|auto]].
  - assert (wheel_inv k exc n (on_cpu k (fun cc => cc <| cc_waiting := false |>) w2)) as B3
      by (apply inv_on_cpu; [exact B1|intros; repeat split]).
    eapply inv_same; [exact B3|reflexivity|reflexivity|reflexivity|reflexivity|tauto].
  - assert (evolves w2 (on_cpu k (fun cc => cc <| cc_waiting := false |>) w2)) as [C1 C2 C3 C4]
      by (apply on_cpu_evolves; intros; split; auto).
    eapply evolves_trans; [exact B2|]. split; [exact C1|exact C2|exact C3|]. intros Hw. rewrite Hw in Ew. discriminate.
Qed.

(** What happens to a callout that only the clock deals with. *)
Definition fires (k cur : Z) (w : world) (x : Z) : bool :=
  callout_pending (store w x) && (c_cpu (store w x) =? k) && (c_time (store w x) =? cur).

Definition served (k cur : Z) (w w' : world) : Prop := forall x,
  avoid x w -> has_flag (c_flags (store w x)) CALLOUT_LOCAL_ALLOC = false ->
  if fires k cur w x
  then store w' x = fired (store w x) /\
       calls_of x w' = calls_of x w ++ [mk_fcall x (c_func (store w x)) (c_arg (store w x)) cur]
  else store w' x = store w x /\ calls_of x w' = calls_of x w.

Lemma calls_of_snoc x w f :
  calls_of x (w <| called := called w ++ [f] |>) = calls_of x w ++ (if f_callout f =? x then [f] else []).
Proof.
  unfold calls_of. cbn [update called]. rewrite filter_app. f_equal. cbn.
  destruct (Z.eqb_spec (f_callout f) x) as [E|E]; [rewrite decide_True by exact E|rewrite decide_False by exact E]; reflexivity.
Qed.

Lemma run_callout_eq k c cur w :
  let w1 := taken k c cur w in
  let f := mk_fcall c (c_func (store w c)) (c_arg (store w c)) cur in
  let flags := c_flags (store w c) in
  run_callout k c cur w =
  match c_lock (store w c) with
  | Some _ =>
      let w2 := window w1 in
      Some (finish k c flags
        (if cc_cancel (cc_cpu w2 k) then w2
         else window ((on_cpu k (fun cc => cc <| cc_cancel := true |>) w2) <| called := called w2 ++ [f] |>)))
  | None =>
      if has_flag flags CALLOUT_RETURNUNLOCKED
      then Some (finish k c flags (window (w1 <| called := called w1 ++ [f] |>))) else None
  end.
Proof.
  unfold run_callout, taken. cbv zeta.
  set (w1 := on_cpu k _ (on_callout c _ _)). change (on_cpu k _ (on_callout c fired _)) with w1.
  change (c_lock (store (on_cpu k _ (on_cpu k _ w)) c)) with (c_lock (store w c)).
  destruct (c_lock (store w c)); [destruct (cc_cancel (cc_cpu (window w1) k)); reflexivity|].
  change (c_flags (store (on_cpu k _ (on_cpu k _ w)) c)) with (c_flags (store w c)).
  destruct (has_flag (c_flags (store w c)) CALLOUT_RETURNUNLOCKED); reflexivity.
Qed.

Lemma run_callout_spec k cur n c w :
  at_callout k cur n (Some c) w -> c_time (store w c) = cur -> script_ok w ->
  exists w' n', run_callout k c cur w = Some w' /\ wheel_inv k (Some cur) n' w' /\
    (n' + load w' < n + load w)%nat /\ evolves w w' /\
    (forall x, avoid x w -> x <> c -> store w' x = store w x /\ calls_of x w' = calls_of x w) /\
    (avoid c w -> has_flag (c_flags (store w c)) CALLOUT_LOCAL_ALLOC = false ->
     store w' c = fired (store w c) /\
     calls_of c w' = calls_of c w ++ [mk_fcall c (c_func (store w c)) (c_arg (store w c)) cur]).
Proof.
  intros I Hc Hs. destruct (at_callout_due _ _ _ _ _ I) as (_ & _ & _ & Hn).
  pose proof (taken_inv k cur n c w I Hc) as I1. set (w1 := taken k c cur w) in *.
  assert (evolves w w1) as Ev1.
  { split; [reflexivity| |exists []; reflexivity|].
    - intros j. unfold w1. rewrite taken_cpu. destruct (Z.eqb_spec j k) as [->|]; reflexivity.
    - intros Hw. split; [|reflexivity]. intros j. unfold w1. rewrite taken_cpu. destruct (j =? k); [|apply Hw]. cbn. apply Hw. }
  assert (store w1 c = fired (store w c)) as S1 by (unfold w1; rewrite taken_store, Z.eqb_refl; reflexivity).
  assert (forall x, x <> c -> store w1 x = store w x) as S1'.
  { intros x Hx. unfold w1. rewrite taken_store. apply Z.eqb_neq in Hx. rewrite Hx. reflexivity. }
  assert (cc_curr (cc_cpu w1 k) = Some c /\ cc_cancel (cc_cpu w1 k) = false) as [C1 C2].
  { unfold w1. rewrite taken_cpu, Z.eqb_refl. split; reflexivity. }
  set (f := mk_fcall c (c_func (store w c)) (c_arg (store w c)) cur).
  set (flags := c_flags (store w c)).
  (* the call itself, from a state where the callout was not cancelled *)
  assert (forall w2 n2, wheel_inv k (Some cur) n2 w2 -> script_ok w2 ->
    let w3 := finish k c flags (window (w2 <| called := called w2 ++ [f] |>)) in
    exists n3, wheel_inv k (Some cur) n3 w3 /\ (n3 + load w3 <= n2 + load w2)%nat /\ evolves w2 w3 /\
      (forall x, avoid x w2 -> (x <> c \/ has_flag flags CALLOUT_LOCAL_ALLOC = false) ->
        store w3 x = store w2 x /\ calls_of x w3 = calls_of x w2 ++ (if c =? x then [f] else []))) as Hcall.
  { intros w2 n2 I2 Hs2. set (w2' := w2 <| called := called w2 ++ [f] |>).
    assert (wheel_inv k (Some cur) n2 w2') as I2' by (eapply inv_same; [exact I2|reflexivity|reflexivity|reflexivity|reflexivity|tauto]).
    destruct (window_spec k (Some cur) n2 w2' I2' Hs2) as ((n3 & W1 & W2) & W3 & W4 & _ & W5 & _).
    destruct (finish_spec k (Some cur) n3 c flags (window w2') W1) as (X1 & X2 & X3 & X4 & X5).
    exists n3. split; [exact X1|]. split; [unfold load in *; rewrite X4; exact W2|].
    split; [eapply evolves_trans; [|exact X2]; destruct W3; split; assumption|].
    intros x Hx Hx'. split; [rewrite X5 by exact Hx'; apply (W5 x Hx)|].
    unfold calls_of. rewrite X3, W4. exact (calls_of_snoc x w2 f). }
  rewrite run_callout_eq. fold w1 f flags. cbv zeta.
  assert (script_ok w1) as Hs1 by exact Hs.
  destruct (c_lock (store w c)) as [lk|] eqn:El.
  - destruct (window_spec k (Some cur) (n - 1) w1 I1 Hs1) as ((n2 & W1 & W2) & W3 & W4 & W5 & W6 & W7).
    set (w2 := window w1) in *.
    assert (load w1 = load w) as Hl by reflexivity.
    destruct (cc_cancel (cc_cpu w2 k)) eqn:Ec.
    + destruct (finish_spec k (Some cur) n2 c flags w2 W1) as (X1 & X2 & X3 & X4 & X5).
      eexists _, n2. split; [reflexivity|]. split; [exact X1|].
      split; [unfold load in *; rewrite X4; lia|]. split; [eapply evolves_trans; [exact Ev1|eapply evolves_trans; eassumption]|].
      split; [|intros Ha _; rewrite (W7 k c C1 Ha) in Ec; congruence].
      intros x Ha Hx. split; [rewrite X5, W6, S1' by auto; reflexivity|]. unfold calls_of. rewrite X3, W4. reflexivity.
    + set (w2' := on_cpu k (fun cc => cc <| cc_cancel := true |>) w2).
      assert (wheel_inv k (Some cur) n2 w2') as I2 by (apply inv_on_cpu; [exact W1|intros; repeat split]).
      assert (evolves w2 w2') as Ev2 by (apply on_cpu_evolves; intros; split; auto).
      assert (evolves w w2') as Ev3 by (eapply evolves_trans; [exact Ev1|eapply evolves_trans; eassumption]).
      destruct (Hcall w2' n2 I2 (evolves_script_ok _ _ Ev3 Hs)) as (n3 & Y1 & Y2 & Y3 & Y4).
      assert (load w2' = load w2) as Hl2 by reflexivity.
      eexists _, n3. split; [reflexivity|]. split; [exact Y1|]. split; [change (called w2) with (called w2'); lia|].
      split; [eapply evolves_trans; eassumption|]. split.
      * intros x Ha Hx. destruct (Y4 x (evolves_avoid x _ _ Ev3 Ha) (or_introl Hx)) as [Z1 Z2].
        split; [change (called w2) with (called w2'); rewrite Z1; change (store w2' x) with (store w2 x); rewrite W6, S1' by auto; reflexivity|].
        change (called w2) with (called w2'). rewrite Z2. apply not_eq_sym, Z.eqb_neq in Hx. rewrite Hx, app_nil_r.
        unfold calls_of. change (called w2') with (called w2). rewrite W4. reflexivity.
      * intros Ha Hx. destruct (Y4 c (evolves_avoid c _ _ Ev3 Ha) (or_intror Hx)) as [Z1 Z2]. rewrite Z.eqb_refl in Z2.
        split; [change (called w2) with (called w2'); rewrite Z1; change (store w2' c) with (store w2 c); rewrite W6 by exact Ha; exact S1|].
        change (called w2) with (called w2'). rewrite Z2.
        unfold calls_of. change (called w2') with (called w2). rewrite W4. reflexivity.
  - pose proof (wi_lock _ _ _ _ I c El) as Hu. unfold returns_unlocked in Hu. apply andb_true_iff in Hu as [Hu _].
    change (has_flag flags CALLOUT_RETURNUNLOCKED = true) in Hu. rewrite Hu.
    destruct (Hcall w1 (n - 1)%nat I1 Hs1) as (n3 & Y1 & Y2 & Y3 & Y4).
    assert (load w1 = load w) as Hl by reflexivity.
    eexists _, n3. split; [reflexivity|]. split; [exact Y1|]. split; [lia|]. split; [eapply evolves_trans; eassumption|]. split.
    + intros x Ha Hx. destruct (Y4 x Ha (or_introl Hx)) as [Z1 Z2]. rewrite Z1, Z2, S1' by exact Hx. split; [reflexivity|].
      apply not_eq_sym, Z.eqb_neq in Hx. rewrite Hx, app_nil_r. reflexivity.
    + intros Ha Hx. destruct (Y4 c Ha (or_intror Hx)) as [Z1 Z2]. rewrite Z1, Z2, Z.eqb_refl. split; [exact S1|reflexivity].
Qed.

(** *** Walking along a bucket *)

Lemma at_next k cur n c w : at_callout k cur n (Some c) w -> c_time (store w c) <> cur ->
  at_callout k cur (n - 1) (tailq_next c (bucket w k (slot cur))) w.
Proof.
  intros I Hc. destruct (at_callout_spec k cur n _ w I) as (dn & rest & B & C & D & E & N).
  destruct rest as [|y r]; [discriminate|]. injection C as <-. apply NoDup_app in N as (N1 & N2 & N3).
  rewrite B, tailq_next_app by (intros H; apply (N2 c H); set_solver).
  pose proof I as [I1 I2 I3 I4 I5 I6 I7]. unfold at_callout in *. split.
  - intros cpu b x. rewrite set_next_bucket. rewrite <- (set_next_bucket k (Some c)). apply I1.
  - intros x Hx. rewrite set_next_bucket, <- (set_next_bucket k (Some c)). exact (I2 x Hx).
  - intros cpu b. rewrite set_next_bucket, <- (set_next_bucket k (Some c)). apply I3.
  - exact I4.
  - unfold lag in *. rewrite set_next_cpu in *. exact I5.
  - intros x Hx. unfold due in *. rewrite set_next_cpu in *. exact (I6 x Hx).
  - intros cur' [= <-]. destruct (I7 cur eq_refl) as (J & _). rewrite set_next_cpu in *. split; [exact J|].
    exists (dn ++ [c]), r. rewrite set_next_bucket, B, <- app_assoc. split; [reflexivity|]. split; [reflexivity|].
    split; [apply Forall_app; split; [exact D|constructor; [exact Hc|constructor]]|cbn in E; lia].
Qed.

(** At the end of the bucket nothing that is due is left. *)
Lemma at_end k cur n w : at_callout k cur n None w ->
  wheel_inv k None 0 w /\ forall x, fires k cur w x = false.
Proof.
  intros I. destruct (at_callout_spec k cur n _ w I) as (dn & rest & B & C & D & E & N).
  destruct rest; [|discriminate]. rewrite app_nil_r in B. pose proof I as [I1 I2 I3 I4 I5 I6 I7].
  assert (forall x, pending w x -> c_cpu (store w x) = k -> c_time (store w x) <> cur) as Hno.
  { intros x Hp Hk Ht. specialize (I2 x Hp). rewrite set_next_bucket in I2. change (x ∈ bucket w (c_cpu (store w x)) (slot (c_time (store w x)))) in I2.
    rewrite Hk, Ht, B in I2. rewrite Forall_forall in D. exact (D x I2 Ht). }
  split.
  - split.
    + intros cpu b x. rewrite <- (set_next_bucket k None). apply I1.
    + intros x Hx. specialize (I2 x Hx). rewrite set_next_bucket in I2. exact I2.
    + intros cpu b. rewrite <- (set_next_bucket k None). apply I3.
    + exact I4.
    + unfold lag in *. rewrite set_next_cpu in I5. exact I5.
    + intros x Hx. unfold due in *. destruct (I6 x Hx) as [J1 J2]. rewrite set_next_cpu in J2. split; [exact J1|].
      intros Hk _. apply (J2 Hk). intros [= E1]. exact (Hno x Hx Hk (eq_sym E1)).
    + discriminate.
  - intros x. unfold fires. destruct (callout_pending (store w x)) eqn:Ep; [|reflexivity].
    destruct (Z.eqb_spec (c_cpu (store w x)) k) as [Hk|]; [|reflexivity].
    destruct (Z.eqb_spec (c_time (store w x)) cur) as [Ht|]; [|reflexivity]. exfalso. exact (Hno x Ep Hk Ht).
Qed.

Lemma served_idle k cur w w' w'' :
  evolves w w' -> (forall x, avoid x w -> store w' x = store w x /\ calls_of x w' = calls_of x w) ->
  served k cur w' w'' -> served k cur w w''.
Proof.
  intros Ev Hs S x Ha Hl. destruct (Hs x Ha) as [E1 E2]. specialize (S x (evolves_avoid _ _ _ Ev Ha)).
  unfold fires in *. rewrite E1, E2 in S. exact (S Hl).
Qed.

Lemma bucket_spec k cur : forall fuel n c steps w,
  at_callout k cur n c w -> script_ok w -> (n + load w <= fuel)%nat ->
  exists w' steps', softclock_bucket fuel k cur c steps w = Some (w', steps') /\
    wheel_inv k None 0 w' /\ evolves w w' /\ served k cur w w'.
Proof.
  induction fuel as [|fuel IH]; intros n c steps w I Hs Hf.
  - destruct c as [c|]; [apply at_callout_due in I; lia|]. destruct (at_end _ _ _ _ I) as [I' Hno]. exists w, steps.
    split; [reflexivity|]. split; [exact I'|]. split; [apply evolves_refl|]. intros x _ _. rewrite Hno. auto.
  - destruct c as [c|]; cbn [softclock_bucket]; cycle 1.
    { destruct (at_end _ _ _ _ I) as [I' Hno]. exists w, steps. split; [reflexivity|]. split; [exact I'|].
      split; [apply evolves_refl|]. intros x _ _. rewrite Hno. auto. }
    pose proof (at_callout_due _ _ _ _ _ I) as (Hp & Hk & _ & Hn).
    destruct (Z.eqb_spec (c_time (store w c)) cur) as [Hc|Hc]; cbn [negb].
    + destruct (run_callout_spec k cur n c w I Hc Hs) as (w1 & n1 & -> & R1 & R2 & R3 & R4 & R5).
      destruct (IH n1 (cc_next (cc_cpu w1 k)) 0 w1 (inv_set_next _ _ _ _ _ R1 eq_refl) (evolves_script_ok _ _ R3 Hs) ltac:(lia))
        as (w2 & st & E & J1 & J2 & J3).
      exists w2, st. split; [exact E|]. split; [exact J1|]. split; [eapply evolves_trans; eassumption|].
      intros x Ha Hl. specialize (J3 x (evolves_avoid _ _ _ R3 Ha)).
      destruct (Z.eq_dec x c) as [->|Hne].
      * destruct (R5 Ha Hl) as [E1 E2]. unfold fires in *. rewrite Hp, Hk, Hc, !Z.eqb_refl. cbn [andb].
        rewrite E1, E2 in J3. destruct (fired_fields (store w c)) as (_ & _ & D3 & _). rewrite D3 in J3. cbn [andb] in J3.
        apply J3. unfold fired. cbn [update c_flags]. rewrite Hl, flag_cleared_other by reflexivity. exact Hl.
      * destruct (R4 x Ha Hne) as [E1 E2]. unfold fires in *. rewrite E1, E2 in J3. exact (J3 Hl).
    + pose proof (at_next k cur n c w I Hc) as I1. fold (bucket w k (slot cur)).
      destruct (MAX_SOFTCLOCK_STEPS <=? steps + 1).
      * set (w1 := on_cpu k _ w). change w1 with (set_next k (tailq_next c (bucket w k (slot cur))) w).
        assert (evolves w (set_next k (tailq_next c (bucket w k (slot cur))) w)) as Ev1 by (apply on_cpu_evolves; intros; split; auto).
        destruct (window_spec k (Some cur) (n - 1) _ I1 Hs) as ((n2 & W1 & W2) & W3 & W4 & _ & W6 & _).
        assert (load (set_next k (tailq_next c (bucket w k (slot cur))) w) = load w) as Hl0 by reflexivity.
        destruct (IH n2 _ 0 _ (inv_set_next _ _ _ _ _ W1 eq_refl) (evolves_script_ok _ _ W3 Hs) ltac:(lia))
          as (w2 & st & E & J1 & J2 & J3).
        exists w2, st. split; [exact E|]. split; [exact J1|]. pose proof (evolves_trans _ _ _ Ev1 W3) as Ev2.
        split; [eapply evolves_trans; eassumption|]. eapply served_idle; [exact Ev2| |exact J3].
        intros x Ha. split; [rewrite W6 by exact Ha; reflexivity|unfold calls_of; rewrite W4; reflexivity].
      * apply (IH (n - 1)%nat); [exact I1|exact Hs|lia].
Qed.

(** *** The clock tick *)

(** The wheel between two ticks: nothing is due. *)
Record settled (k : Z) (w : world) : Prop := {
  se_inv : wheel_inv k None 0 w;
  se_soft : cc_softticks (cc_cpu w k) = ticks w;
  se_ticks : s32 (ticks w) = ticks w;
  se_script : script_ok w }.

(** The wheel turned by one tick. *)
Definition turned (k : Z) (w : world) : world :=
  on_cpu k (fun cc => cc <| cc_softticks := s32 (ticks w + 1) |>) (w <| ticks := s32 (ticks w + 1) |>).

Lemma turned_bucket k w cpu b : bucket (turned k w) cpu b = bucket w cpu b.
Proof.
  unfold bucket, turned. cbn -[fset].
  match goal with |- context [fset (cc_cpu w) k ?v cpu] => destruct (fset_cases (cc_cpu w) k v cpu) as [[-> ->]|[_ ->]] end; reflexivity.
Qed.

Lemma turned_soft k w : cc_softticks (cc_cpu (turned k w) k) = s32 (ticks w + 1).
Proof. unfold turned. cbn -[fset]. rewrite fset_eq. reflexivity. Qed.

Lemma turned_inv k w : settled k w ->
  at_callout k (ticks w) (length (bucket w k (slot (ticks w)))) (head (bucket w k (slot (ticks w)))) (turned k w).
Proof.
  intros [[I1 I2 I3 I4 I5 I6 I7] Hso Ht Hsc]. pose proof (s32_range (ticks w)) as Hr. rewrite Ht in Hr.
  set (hd := head _). split.
  - intros cpu b x. rewrite set_next_bucket, turned_bucket. apply I1.
  - intros x Hx. rewrite set_next_bucket, turned_bucket. exact (I2 x Hx).
  - intros cpu b. rewrite set_next_bucket, turned_bucket. apply I3.
  - exact I4.
  - unfold lag. rewrite set_next_cpu. cbn [update cc_softticks]. rewrite turned_soft.
    change (ticks (set_next k hd (turned k w))) with (s32 (ticks w + 1)). rewrite Z.sub_diag. reflexivity.
  - intros x Hx. destruct (I6 x Hx) as [J1 J2]. split; [exact J1|]. intros Hk Hne. unfold due in *.
    rewrite set_next_cpu. cbn [update cc_softticks]. rewrite turned_soft.
    change (store (set_next k hd (turned k w)) x) with (store w x). change (c_cpu (store w x) = k) in Hk.
    change (Some (ticks w) <> Some (c_time (store w x))) in Hne.
    specialize (J2 Hk ltac:(discriminate)). rewrite Hso in J2.
    assert (c_time (store w x) <> ticks w) as Hd by congruence. rewrite <- u32_sub_r, u32_s32, u32_sub_r.
    pose proof (s32_range (c_time (store w x))) as Hr2. rewrite J1 in Hr2. revert J2 Hd Hr Hr2. clear.
    generalize (c_time (store w x)) (ticks w). intros a t. intros. wrap.
  - intros cur [= <-]. rewrite set_next_cpu. cbn [update cc_softticks cc_next]. rewrite turned_soft.
    split; [clear; generalize (ticks w); intros t; rewrite <- u32_sub_r, u32_s32, u32_sub_r;
      replace (t - (t + 1)) with (-1) by lia; reflexivity|].
    exists [], (bucket w k (slot (ticks w))). rewrite set_next_bucket, turned_bucket. cbn [app].
    split; [reflexivity|]. split; [reflexivity|]. split; [constructor|lia].
Qed.

(** One tick: the clock thread finishes, every callout of the old tick has been
    called, nothing else. *)
Lemma hardclock_spec k w : settled k w ->
  exists w', uinet_hardclock k w = Some w' /\ settled k w' /\ ticks w' = s32 (ticks w + 1) /\
    served k (ticks w) w w' /\ (exists pre, script w = pre ++ script w') /\
    ((forall cpu, cc_waiting (cc_cpu w cpu) = false) ->
     (forall cpu, cc_waiting (cc_cpu w' cpu) = false) /\ broadcasts w' = broadcasts w).
Proof.
  intros Hw. pose proof (turned_inv k w Hw) as I. destruct Hw as [I0 Hso Ht Hsc].
  pose proof (s32_range (ticks w)) as Hr. rewrite Ht in Hr. set (t := ticks w) in *.
  set (w0 := w <| ticks := s32 (t + 1) |>). change (uinet_hardclock k w) with (callout_tick k w0).
  assert (cc_softticks (cc_cpu w0 k) = t) as Hs0 by exact Hso.
  assert (ticks w0 = s32 (t + 1)) as Ht0 by reflexivity.
  assert (lag k w0 = 1) as Hl.
  { unfold lag. rewrite Hs0, Ht0, <- u32_sub_l, u32_s32, u32_sub_l. replace (t + 1 - t) with 1 by lia. reflexivity. }
  assert (s32 (t - s32 (t + 1)) = -1) as Hd.
  { rewrite <- (s32_u32 (t - _)), <- u32_sub_r, u32_s32, u32_sub_r. replace (t - (t + 1)) with (-1) by lia. reflexivity. }
  assert (script_ok (turned k w)) as Hsc' by exact Hsc.
  assert (forall x, (forall cpu, cc_waiting (cc_cpu w cpu) = false) -> cc_waiting (cc_cpu (turned k w) x) = false) as Hwt.
  { intros x H. unfold turned. cbn -[fset].
    match goal with |- context [fset (cc_cpu w) k ?v x] => destruct (fset_cases (cc_cpu w) k v x) as [[-> ->]|[_ ->]] end; apply H. }
  assert (s32 (s32 (t + 1)) = s32 (t + 1)) as Hss by apply s32_small, s32_range.
  unfold callout_tick. rewrite Hl. change (Z.to_nat 1) with 1%nat. cbn [tick_loop].
  rewrite Hs0, Ht0, Hd. change (-1 <? 0) with true. cbv iota.
  change (cc_callwheel (cc_cpu w0 k) (slot t)) with (bucket w k (slot t)).
  assert (on_cpu k (fun cc => cc <| cc_softticks := s32 (cc_softticks cc + 1) |>) w0 = turned k w) as Eturn.
  { unfold turned, on_cpu. change (cc_cpu w0 k) with (cc_cpu w k) in *. rewrite Hs0. reflexivity. }
  destruct (bucket w k (slot t)) as [|c0 r0] eqn:Eb.
  - rewrite Eturn, turned_soft. change (ticks (turned k w)) with (s32 (t + 1)). fold t. rewrite Z.sub_diag. cbn [Z.ltb Z.compare s32 sN].
    change (s32 0 <? 0) with false. cbv iota.
    destruct (at_end _ _ _ _ I) as [I' Hno]. exists (turned k w). split; [reflexivity|].
    split; [split; [exact I'|rewrite turned_soft; reflexivity|exact Hss|exact Hsc']|]. split; [reflexivity|].
    split; [|split; [exists []; reflexivity|auto]]. intros x _ _. specialize (Hno x).
    change (fires k t (turned k w) x) with (fires k t w x) in Hno. rewrite Hno. split; reflexivity.
  - unfold softclock. rewrite Hl. change (Z.to_nat 1) with 1%nat. cbn [softclock_loop].
    rewrite Hs0, Ht0. assert ((t =? s32 (t + 1)) = false) as -> by (apply Z.eqb_neq; intros E; rewrite <- E in Hd; rewrite Z.sub_diag in Hd; discriminate).
    change (on_cpu k _ w0) with (turned k w).
    change (cc_callwheel (cc_cpu (turned k w) k) (slot t)) with (bucket (turned k w) k (slot t)). rewrite turned_bucket, Eb.
    assert (bucket_fuel k t (turned k w) = (length (c0 :: r0) + load (turned k w))%nat) as ->.
    { unfold bucket_fuel. fold (bucket (turned k w) k (slot t)). rewrite turned_bucket, Eb. reflexivity. }
    destruct (bucket_spec k t _ _ _ 0 (turned k w) I Hsc' (Nat.le_refl _)) as (w2 & st & -> & J1 & J2 & J3).
    rewrite (ev_soft _ _ J2), turned_soft, (ev_ticks _ _ J2). change (ticks (turned k w)) with (s32 (t + 1)). rewrite Z.eqb_refl.
    exists (set_next k None w2). split; [reflexivity|].
    assert (wheel_inv k None 0 (set_next k None w2)) as J1'.
    { destruct J1 as [K1 K2 K3 K4 K5 K6 K7]. split.
      - intros cpu b x. rewrite set_next_bucket. apply K1.
      - intros x Hx. rewrite set_next_bucket. exact (K2 x Hx).
      - intros cpu b. rewrite set_next_bucket. apply K3.
      - exact K4.
      - unfold lag. rewrite set_next_cpu. exact K5.
      - intros x Hx. unfold due. rewrite set_next_cpu. exact (K6 x Hx).
      - discriminate. }
    split; [split|].
    + exact J1'.
    + rewrite set_next_cpu. cbn [update cc_softticks]. rewrite (ev_soft _ _ J2), turned_soft. symmetry. exact (ev_ticks _ _ J2).
    + change (ticks (set_next k None w2)) with (ticks w2). rewrite (ev_ticks _ _ J2). exact Hss.
    + exact (evolves_script_ok _ _ J2 Hsc').
    + split; [exact (ev_ticks _ _ J2)|]. split; [exact J3|]. split; [exact (ev_script _ _ J2)|].
      intros H. destruct (ev_waiting _ _ J2 (fun x => Hwt x H)) as [M1 M2]. split; [|exact M2].
      intros cpu. unfold set_next. cbn -[fset].
      destruct (fset_cases (cc_cpu w2) k ((cc_cpu w2 k) <| cc_next := None |>) cpu) as [[-> ->]|[_ ->]]; apply M1.
Qed.

(** ** The contract of the wheel *)

Fixpoint run_ticks (k : Z) (n : nat) (w : world) : option world :=
  match n with
  | O => Some w
  | S n => match uinet_hardclock k w with Some w => run_ticks k n w | None => None end
  end.

(** [c] is a client's callout that only the clock deals with from now on. *)
Definition left_alone (c : Z) (w : world) : Prop :=
  avoid c w /\ has_flag (c_flags (store w c)) CALLOUT_LOCAL_ALLOC = false.

Lemma avoid_suffix c w w' : (exists pre, script w = pre ++ script w') -> avoid c w -> avoid c w'.
Proof. intros [p E]. unfold avoid. rewrite E, concat_app, map_app. set_solver. Qed.

(** A callout waits while it is not due. *)
Lemma waits_for_tick k c m : forall w,
  settled k w -> left_alone c w ->
  (pending w c -> c_cpu (store w c) = k -> Z.of_nat m <= due k w c) ->
  exists w', run_ticks k m w = Some w' /\ settled k w' /\ store w' c = store w c /\ calls_of c w' = calls_of c w /\
    left_alone c w' /\ ticks w' = s32 (ticks w + Z.of_nat m) /\
    ((forall cpu, cc_waiting (cc_cpu w cpu) = false) -> broadcasts w' = broadcasts w).
Proof.
  induction m as [|m IH]; intros w Hw [Ha Hl] Hd; cbn [run_ticks].
  { exists w. rewrite Z.add_0_r. repeat (split; [solve [auto|split; auto|symmetry; apply Hw]|]). auto. }
  destruct (hardclock_spec k w Hw) as (w1 & -> & S1 & S2 & S3 & S4 & S5). specialize (S3 c Ha Hl).
  pose proof (se_ticks _ _ Hw) as Ht. pose proof (s32_range (ticks w)) as Hr. rewrite Ht in Hr.
  assert (fires k (ticks w) w c = false) as Hf.
  { unfold fires. destruct (callout_pending (store w c)) eqn:Ep; [|reflexivity].
    destruct (Z.eqb_spec (c_cpu (store w c)) k) as [Ek|]; [|reflexivity].
    destruct (Z.eqb_spec (c_time (store w c)) (ticks w)) as [Et|]; [|reflexivity].
    specialize (Hd Ep Ek). unfold due in Hd. rewrite (se_soft _ _ Hw), Et, Z.sub_diag in Hd. change (u32 0) with 0 in Hd. lia. }
  rewrite Hf in S3. destruct S3 as [E1 E2].
  destruct (IH w1 S1) as (w2 & R1 & R2 & R3 & R4 & R5 & R6 & R7).
  - split; [exact (avoid_suffix _ _ _ S4 Ha)|rewrite E1; exact Hl].
  - unfold pending. rewrite E1. intros Hp Hk. specialize (Hd Hp Hk). unfold due in *. rewrite (se_soft _ _ S1), S2, E1.
    rewrite (se_soft _ _ Hw) in Hd. rewrite <- u32_sub_r, u32_s32, u32_sub_r.
    revert Hd. clear. generalize (c_time (store w c)) (ticks w). intros a t Hd.
    replace (a - (t + 1)) with ((a - t) - 1) by lia. rewrite <- u32_sub_l. pose proof (u32_range (a - t)).
    rewrite u32_small; lia.
  - exists w2. split; [exact R1|]. split; [exact R2|]. split; [congruence|]. split; [congruence|]. split; [exact R5|].
    split; [|intros H; destruct (S5 H) as [H1 H2]; rewrite R7 by exact H1; exact H2].
    rewrite R6, S2. apply s32_cong. rewrite u32_add_s32. f_equal. lia.
Qed.

Lemma settled_frame k n l w w' : settled k w -> wheel_inv k None n w' -> frame l w w' -> settled k w'.
Proof.
  intros [_ W2 W3 W4] [J1 J2 J3 J4 J5 J6 _] F. split; [split; try assumption; discriminate| | |].
  - destruct (fr_cpu _ _ _ F k) as (-> & _). rewrite (fr_ticks _ _ _ F). exact W2.
  - rewrite (fr_ticks _ _ _ F). exact W3.
  - unfold script_ok. rewrite (fr_script _ _ _ F). exact W4.
Qed.

Lemma reset_settled k w c n ftn arg cpu :
  settled k w -> n < 2 ^ 31 -> settled k (fst (callout_reset_on c n ftn arg cpu w)).
Proof.
  intros Hw Hn. destruct (reset_spec k None 0 w c n ftn arg cpu (se_inv _ _ Hw) Hn) as (I0 & F & _).
  exact (settled_frame k _ _ _ _ Hw I0 F).
Qed.


(** A callout that is stopped stays quiet.  callout_stop of a pending callout
    returns 1, and the callout is not called by any later tick as long as nobody
    arms it again. *)
Theorem callout_stop_quiet k w c m :
  settled k w -> left_alone c w ->
  let '(w0, r) := callout_stop_safe c false w in
  (pending w c -> r = Returns true) /\
  exists w1, run_ticks k m w0 = Some w1 /\ calls_of c w1 = calls_of c w.
Proof.
  intros Hw [Ha Hl]. destruct (stop_spec k None 0 w c false (se_inv _ _ Hw)) as (I0 & F & Hp).
  assert (has_flag (c_flags (store (fst (callout_stop_safe c false w)) c)) CALLOUT_LOCAL_ALLOC = false) as Hl0.
  { unfold callout_stop_safe. cbv zeta. destruct (negb (callout_pending (store w c))).
    - destruct (negb (is_curr _ c)); [|destruct (_ && _)]; cbn -[fset has_flag]; rewrite fset_eq;
        unfold callout_deactivate; cbn [update c_flags]; rewrite flag_cleared_other by reflexivity; exact Hl.
    - cbn -[fset has_flag unlink]. rewrite !fset_eq. cbn [callout_disarm update c_flags].
      rewrite flag_cleared_other by reflexivity. rewrite Hl. cbn -[fset has_flag]. rewrite fset_eq.
      cbn [callout_disarm update c_flags]. rewrite flag_cleared_other by reflexivity. exact Hl. }
  destruct (callout_stop_safe c false w) as [w0 r] eqn:E. cbn [fst] in *. split.
  - intros Hpw. unfold callout_stop_safe in E. unfold pending in Hpw. rewrite Hpw in E. cbn [negb] in E. injection E as _ <-. reflexivity.
  - pose proof (settled_frame k _ _ _ _ Hw I0 F) as Hw0.
    destruct (waits_for_tick k c m w0 Hw0) as (w1 & R1 & _ & _ & R4 & _).
    + split; [unfold avoid; rewrite (fr_script _ _ _ F); exact Ha|exact Hl0].
    + intros H. contradiction.
    + exists w1. split; [exact R1|]. rewrite R4. unfold calls_of. rewrite (fr_called _ _ _ F). reflexivity.
Qed.

(** Callouts of other CPUs never fire.  Only the wheel of the CPU the clock
    thread runs on turns: a pending callout that was armed for another CPU is
    still pending, uncalled, after any number of ticks. *)
Theorem callout_other_cpu_never_fires k w c m :
  settled k w -> left_alone c w -> c_cpu (store w c) <> k ->
  exists w', run_ticks k m w = Some w' /\ store w' c = store w c /\ calls_of c w' = calls_of c w.
Proof.
  intros Hw Ha Hk. destruct (waits_for_tick k c m w Hw Ha) as (w1 & R1 & _ & R3 & R4 & _); [contradiction|].
  exists w1. auto.
Qed.

(** Callout_drain is never woken.  callout_drain of a callout whose function
    is running waits on callout_cv, but it does not set cc_waiting and nothing
    else does, so no tick, whatever runs during it, ever broadcasts on that
    condition variable. *)
Theorem callout_drain_never_woken k w m :
  settled k w -> (forall cpu, cc_waiting (cc_cpu w cpu) = false) ->
  (forall c w, cc_curr (cc_cpu w (c_cpu (store w c))) = Some c -> callout_pending (store w c) = false ->
     snd (callout_stop_safe c true w) = Waits) /\
  exists w', run_ticks k m w = Some w' /\ broadcasts w' = broadcasts w.
Proof.
  intros Hw Hwait. split.
  - intros c w' Hc Hp. unfold callout_stop_safe. rewrite Hp. cbn [negb]. cbv zeta.
    change (cc_cpu (on_callout c callout_deactivate w') (c_cpu (store w' c))) with (cc_cpu w' (c_cpu (store w' c))).
    unfold is_curr. rewrite bool_decide_true by exact Hc. reflexivity.
  - revert w Hw Hwait. induction m as [|m IH]; intros w Hw Hwait; [exists w; auto|]. cbn [run_ticks].
    destruct (hardclock_spec k w Hw) as (w1 & -> & S1 & _ & _ & _ & S5). destruct (S5 Hwait) as [H1 H2].
    destruct (IH w1 S1 H1) as (w2 & R1 & R2). exists w2. split; [exact R1|congruence].
Qed.
End wheel.

(** ** Concrete inputs *)

(** A freshly booted world: every callout is initialised as MP-safe, no wheel
    holds anything; [sc] is what the callout functions and other threads do. *)
Definition boot_world (t : Z) (sc : list (list cmd)) : world :=
  mk_world (fun _ => callout_init 0 true)
    (fun _ => mk_callout_cpu (fun _ => []) [] None None t false false) t 1000000 sc [] 0.

Definition boot_mask : Z := kern_timeout_callwheel_mask 360000.

Lemma boot_settled t sc : s32 t = t -> Forall cmd_ok (concat sc) -> settled boot_mask 0 (boot_world t sc).
Proof.
  intros Ht Hs. split; [|reflexivity|exact Ht|exact Hs]. split; try (intros; discriminate).
  - intros cpu b c H. cbn in H. set_solver.
  - intros cpu b. constructor.
  - intros c _. reflexivity.
  - unfold lag. cbn [boot_world ticks cc_cpu cc_softticks]. rewrite Z.sub_diag. reflexivity.
Qed.

(** A script around callouts 8 and 9, two ticks before the tick counter wraps. *)
Definition sample_script : list (list cmd) := [[CReset 8 2 (Some 5) 0 0; CStop 9]; [CReset 9 1 (Some 6) 0 1]; [CDrain 8]].
Lemma sample_settled : settled boot_mask 0 (boot_world (2 ^ 31 - 2) sample_script).
Proof. apply boot_settled; [vm_compute; reflexivity|]. repeat constructor. Qed.


(** Callout 7 armed for three ticks on [cpu]. *)
Definition sample_armed (cpu : Z) : world :=
  fst (callout_reset_on boot_mask 7 3 (Some 4) 44 cpu (boot_world (2 ^ 31 - 2) sample_script)).

Lemma sample_armed_ok cpu : settled boot_mask 0 (sample_armed cpu).
Proof. apply reset_settled; [exact sample_settled|reflexivity]. Qed.

Lemma callout_stop_quiet_witness :
  pending (sample_armed 0) 7 /\
  let '(w0, r) := callout_stop_safe boot_mask 7 false (sample_armed 0) in
  r = Returns true /\ exists w1, run_ticks boot_mask 0 5 w0 = Some w1 /\ calls_of 7 w1 = [].
Proof.
  assert (pending (sample_armed 0) 7) as Hp by reflexivity. split; [exact Hp|].
  pose proof (callout_stop_quiet boot_mask 0 (sample_armed 0) 7 5 (sample_armed_ok 0)) as H.
  destruct (callout_stop_safe boot_mask 7 false (sample_armed 0)) as [w0 r].
  destruct H as [H1 H2]; [split; [apply (bool_decide_unpack _); vm_compute; exact I|reflexivity]|].
  split; [exact (H1 Hp)|exact H2].
Defined.

Lemma callout_other_cpu_witness :
  pending (sample_armed 1) 7 /\
  exists w', run_ticks boot_mask 0 1000 (sample_armed 1) = Some w' /\ calls_of 7 w' = [].
Proof.
  split; [reflexivity|].
  destruct (callout_other_cpu_never_fires boot_mask 0 (sample_armed 1) 7 1000 (sample_armed_ok 1)) as (w' & R1 & _ & R3).
  - split; [apply (bool_decide_unpack _); vm_compute; exact I|reflexivity].
  - discriminate.
  - exists w'. split; [exact R1|exact R3].
Defined.

Lemma callout_drain_never_woken_witness :
  exists w', run_ticks boot_mask 0 6 (boot_world (2 ^ 31 - 2) sample_script) = Some w' /\ broadcasts w' = 0.
Proof.
  destruct (callout_drain_never_woken boot_mask 0 (boot_world (2 ^ 31 - 2) sample_script) 6 sample_settled) as [_ H];
    [intros; reflexivity|exact H].
Defined.
End Wheel.
