(* ===== verification/SockBuf.v ===== *)
(** * Socket buffers

    sys/kern/uipc_sockbuf.c for stream sockets, the mbuf copies of
    sys/kern/uipc_mbuf.c that read them ([m_copydata], [m_copym2]) and the
    accounting of lib/libuinet/uinet_kern_resource.c ([chgsbsize]).

    An mbuf is named by its address; the chain of a buffer is the list of its
    mbufs in [m_next] order, and [sb_mbtail], [sb_lastrecord] and [sb_sndptr]
    are addresses.  TCP keeps one record per buffer, so [m_nextpkt] is always
    NULL and is left out.  The storage of an mbuf is [m_buf], the bytes from
    [m_data] to the end of the mbuf or cluster, of which [m_len] are in use; a
    hole (M_HOLE, a gap of a passive stream) has a length but no bytes. *)

From S2P Require Import Prelude TcpSeq.

Module Sockbuf.

Definition MSIZE := 256.
Definition MCLBYTES := 2048.
Definition INT_MAX := 2147483647.
Definition M_COPYALL := 1000000000.
Definition MT_DATA := 1.
Definition MT_OOBDATA := 15.
Definition SB_NOCOALESCE := 512.
Definition SB_AUTOSIZE := 2048.
Definition SBS_CANTSENDMORE := 16.
Definition SBS_CANTRCVMORE := 32.
Definition RLIM_INFINITY := 2 ^ 63 - 1.

(** ** Mbufs *)

(** struct mbuf; [m_ext] is the size of the cluster and the number of
    references to it. *)
Record mbuf := mk_mbuf {
  m_id : Z;
  m_buf : list Z;
  m_len : Z;
  m_type : Z;
  m_hole : bool;
  m_eor : bool;
  m_rdonly : bool;
  m_ext : option (Z * Z) }.

#[export] Instance eta_mbuf : Eta mbuf := fun r =>
  mk_mbuf (m_id r) (m_buf r) (m_len r) (m_type r) (m_hole r) (m_eor r) (m_rdonly r) (m_ext r).

Definition M_WRITABLE (m : mbuf) : bool :=
  negb (m_rdonly m) && match m_ext m with Some (_, refs) => refs =? 1 | None => true end.

Definition M_TRAILINGSPACE (m : mbuf) : Z :=
  match m_ext m with
  | Some _ => if M_WRITABLE m then Z.of_nat (length (m_buf m)) - m_len m else 0
  | None => if m_hole m then INT_MAX - m_len m else Z.of_nat (length (m_buf m)) - m_len m
  end.

(** [while (off > 0)]: the chain from the mbuf that holds byte [off], and the
    offset in it.  [None]: past the end of the chain. *)
Fixpoint copy_skip (off : Z) (ms : list mbuf) : option (Z * list mbuf) :=
  if off <=? 0 then Some (off, ms)
  else
    match ms with
    | [] => None
    | m :: rest => if off <? m_len m then Some (off, ms) else copy_skip (off - m_len m) rest
    end.

(** [count] bytes of [m] from [off] on; a hole reads as zeros. *)
Definition mbuf_read (m : mbuf) (off count : Z) : list Z :=
  if m_hole m then replicate (Z.to_nat count) 0
  else take (Z.to_nat count) (drop (Z.to_nat off) (m_buf m)).

Fixpoint copy_bytes (off len : Z) (ms : list mbuf) : option (list Z) :=
  if len <=? 0 then Some []
  else
    match ms with
    | [] => None
    | m :: rest =>
        let count := umin (m_len m - off) len in
        bs ← copy_bytes 0 (len - count) rest;
        Some (mbuf_read m off count ++ bs)
    end.

(** The bytes [m_copydata] writes at [cp]; [None]: it runs off the chain. *)
Definition m_copydata (ms : list mbuf) (off len : Z) : option (list Z) :=
  '(off, ms) ← copy_skip off ms; copy_bytes off len ms.

(** One mbuf of the copy, at address [id].  A cluster is shared: its count of
    references, which goes down again when the copy is freed, is not kept. *)
Definition copy_mbuf (id off len : Z) (m : mbuf) : mbuf :=
  let n_len := umin len (m_len m - off) in
  match m_ext m with
  | Some (size, refs) =>
      mk_mbuf id (drop (Z.to_nat off) (m_buf m)) n_len (m_type m) false false (m_rdonly m) (Some (size, refs + 1))
  | None =>
      if m_hole m then mk_mbuf id [] n_len (m_type m) true false false None
      else mk_mbuf id (mbuf_read m off n_len) n_len (m_type m) false false false None
  end.

(** The second loop of [m_copym2]; [allocs] are the results of the allocations
    to come, [None] a failure.  The result is [None] when one fails. *)
Fixpoint copy_chain (allocs : list (option Z)) (off len : Z) (hole_break last_hole : bool) (ms : list mbuf)
  {struct ms} : option (list mbuf) * list (option Z) :=
  if len <=? 0 then (Some [], allocs)
  else
    match ms with
    | [] => (Some [], allocs)
    | m :: rest =>
        if hole_break && xorb (m_hole m) last_hole then (Some [], allocs)
        else
          match allocs with
          | Some id :: allocs =>
              let n := copy_mbuf id off len m in
              let len := if len =? M_COPYALL then len else len - m_len n in
              let '(top, allocs) := copy_chain allocs 0 len hole_break (m_hole m) rest in
              (cons n <$> top, allocs)
          | _ :: allocs => (None, allocs)
          | [] => (None, [])
          end
    end.

(** [None]: past the end of the chain; [Some (None, _)]: NULL is returned,
    which an empty copy is too. *)
Definition m_copym2 (allocs : list (option Z)) (ms : list mbuf) (off len : Z) (hole_break : bool)
  : option (option (list mbuf) * list (option Z)) :=
  '(off, ms) ← copy_skip off ms;
  let last_hole := match ms with m :: _ => m_hole m | [] => false end in
  match copy_chain allocs off len hole_break last_hole ms with
  | (Some [], allocs) => Some (None, allocs)
  | r => Some r
  end.

Definition m_copym (allocs : list (option Z)) (ms : list mbuf) (off len : Z) :=
  m_copym2 allocs ms off len false.

(** ** The buffer *)

Record sockbuf := mk_sockbuf {
  sb_mb : list mbuf;
  sb_mbtail : option Z;
  sb_lastrecord : option Z;
  sb_sndptr : option Z;
  sb_sndptroff : Z;
  sb_cc : Z;
  sb_hiwat : Z;
  sb_mbcnt : Z;
  sb_mcnt : Z;
  sb_ccnt : Z;
  sb_mbmax : Z;
  sb_ctl : Z;
  sb_lowat : Z;
  sb_flags : Z;
  sb_state : Z }.

#[export] Instance eta_sockbuf : Eta sockbuf := fun r =>
  mk_sockbuf (sb_mb r) (sb_mbtail r) (sb_lastrecord r) (sb_sndptr r) (sb_sndptroff r) (sb_cc r)
    (sb_hiwat r) (sb_mbcnt r) (sb_mcnt r) (sb_ccnt r) (sb_mbmax r) (sb_ctl r) (sb_lowat r)
    (sb_flags r) (sb_state r).

Definition sbspace (sb : sockbuf) : Z :=
  Z.min (s32 (sb_hiwat sb - sb_cc sb)) (s32 (sb_mbmax sb - sb_mbcnt sb)).

Definition is_ctl (m : mbuf) : bool := negb (m_type m =? MT_DATA) && negb (m_type m =? MT_OOBDATA).

Definition sballoc (m : mbuf) (sb : sockbuf) : sockbuf :=
  let sb := sb <| sb_cc := u32 (sb_cc sb + m_len m) |> in
  let sb := if is_ctl m then sb <| sb_ctl := u32 (sb_ctl sb + m_len m) |> else sb in
  let sb := sb <| sb_mbcnt := u32 (sb_mbcnt sb + MSIZE) |> <| sb_mcnt := u32 (sb_mcnt sb + 1) |> in
  match m_ext m with
  | Some (size, _) => sb <| sb_mbcnt := u32 (sb_mbcnt sb + size) |> <| sb_ccnt := u32 (sb_ccnt sb + 1) |>
  | None => sb
  end.

Definition sbfree (m : mbuf) (sb : sockbuf) : sockbuf :=
  let sb := sb <| sb_cc := u32 (sb_cc sb - m_len m) |> in
  let sb := if is_ctl m then sb <| sb_ctl := u32 (sb_ctl sb - m_len m) |> else sb in
  let sb := sb <| sb_mbcnt := u32 (sb_mbcnt sb - MSIZE) |> <| sb_mcnt := u32 (sb_mcnt sb - 1) |> in
  let sb := match m_ext m with
            | Some (size, _) =>
                sb <| sb_mbcnt := u32 (sb_mbcnt sb - size) |> <| sb_ccnt := u32 (sb_ccnt sb - 1) |>
            | None => sb
            end in
  let sb := if bool_decide (sb_sndptr sb = Some (m_id m))
            then sb <| sb_sndptr := None |> <| sb_sndptroff := 0 |> else sb in
  if negb (sb_sndptroff sb =? 0) then sb <| sb_sndptroff := u32 (sb_sndptroff sb - m_len m) |> else sb.

(** ** Appending *)

(** The mbuf at address [id] of a chain; the chain from there on; the chain with
    the mbuf replaced; the chain cut after it and continued with [m]. *)
Fixpoint chain_from (id : Z) (ms : list mbuf) : list mbuf :=
  match ms with
  | [] => []
  | m :: rest => if m_id m =? id then ms else chain_from id rest
  end.
Definition find_mbuf (id : Z) (ms : list mbuf) : option mbuf := head (chain_from id ms).
Definition on_mbuf (id : Z) (f : mbuf -> mbuf) (ms : list mbuf) : list mbuf :=
  map (fun m => if m_id m =? id then f m else m) ms.
Fixpoint link_after (id : Z) (m : mbuf) (ms : list mbuf) : list mbuf :=
  match ms with
  | [] => []
  | x :: rest => if m_id x =? id then [x; m] else x :: link_after id m rest
  end.

(** [bcopy(mtod(m), mtod(n) + n->m_len, m->m_len)] *)
Definition buf_append (m n : mbuf) : mbuf :=
  let bs := take (Z.to_nat (m_len m)) (m_buf m) in
  n <| m_buf := take (Z.to_nat (m_len n)) (m_buf n) ++ bs ++ drop (Z.to_nat (m_len n + m_len m)) (m_buf n) |>
    <| m_len := m_len n + m_len m |>.

(** The mbuf may be merged into [n]. *)
Definition can_merge (sb : sockbuf) (m n : mbuf) : bool :=
  negb (m_eor n) && M_WRITABLE n && negb (has_flag (sb_flags sb) SB_NOCOALESCE)
  && (m_len m <=? M_TRAILINGSPACE n) && (m_type n =? m_type m).

Definition sb_link (m : mbuf) (n : option Z) (sb : sockbuf) : sockbuf :=
  let m' := m <| m_eor := false |> in
  let sb := match n with
            | Some id => sb <| sb_mb := link_after id m' (sb_mb sb) |>
            | None => sb <| sb_mb := [m'] |>
            end in
  sballoc m (sb <| sb_mbtail := Some (m_id m) |>).

(** [while (m)]; [n] is the mbuf the data goes after.  [None]: [n] is not in the
    chain, or the copy reads past the end of an mbuf's storage. *)
Fixpoint sbcompress_loop (ms : list mbuf) (n : option Z) (eor : bool) (sb : sockbuf)
  : option (sockbuf * option Z * bool) :=
  match ms with
  | [] => Some (sb, n, eor)
  | m :: rest =>
      let eor := eor || m_eor m in
      let nm := id ← n; find_mbuf id (sb_mb sb) in
      let o := match rest with o :: _ => Some o | [] => nm end in
      if (m_len m =? 0) && (negb eor || match o with Some o => m_type o =? m_type m | None => false end) then
        let sb := if bool_decide (sb_lastrecord sb = Some (m_id m))
                  then sb <| sb_lastrecord := m_id <$> head rest |> else sb in
        sbcompress_loop rest n eor sb
      else
        match n, nm with
        | Some id, None => None
        | Some id, Some nm =>
            if can_merge sb m nm && m_hole nm then
              let sb := sb <| sb_mb := on_mbuf id (fun x => x <| m_len := m_len x + m_len m |>) (sb_mb sb) |>
                           <| sb_cc := u32 (sb_cc sb + m_len m) |> in
              sbcompress_loop rest n eor sb
            else if can_merge sb m nm && (m_len m <=? MCLBYTES / 4) then
              if Z.of_nat (length (m_buf m)) <? m_len m then None
              else
                let sb := sb <| sb_mb := on_mbuf id (buf_append m) (sb_mb sb) |>
                             <| sb_cc := u32 (sb_cc sb + m_len m) |> in
                let sb := if is_ctl m then sb <| sb_ctl := u32 (sb_ctl sb + m_len m) |> else sb in
                sbcompress_loop rest n eor sb
            else sbcompress_loop rest (Some (m_id m)) eor (sb_link m n sb)
        | None, _ => sbcompress_loop rest (Some (m_id m)) eor (sb_link m n sb)
        end
  end.

Definition sbcompress (ms : list mbuf) (n : option Z) (sb : sockbuf) : option sockbuf :=
  '(sb, n, eor) ← sbcompress_loop ms n false sb;
  if (eor : bool) then
    id ← n; Some (sb <| sb_mb := on_mbuf id (fun x => x <| m_eor := true |>) (sb_mb sb) |>)
  else Some sb.

Definition sbappendstream_locked (ms : list mbuf) (sb : sockbuf) : option sockbuf :=
  sb ← sbcompress ms (sb_mbtail sb) sb;
  Some (sb <| sb_lastrecord := m_id <$> head (sb_mb sb) |>).

(** ** Dropping *)

(** [while (len > 0)]: the rest of the chain, or [None] for the panic. *)
Fixpoint sbdrop_loop (len : Z) (ms : list mbuf) (sb : sockbuf) : option (list mbuf * sockbuf) :=
  if len <=? 0 then Some (ms, sb)
  else
    match ms with
    | [] => None
    | m :: rest =>
        if len <? m_len m then
          let m' := m <| m_len := m_len m - len |> in
          let m' := if negb (m_hole m) then m' <| m_buf := drop (Z.to_nat len) (m_buf m) |> else m' in
          let sb := sb <| sb_cc := u32 (sb_cc sb - len) |> in
          let sb := if negb (sb_sndptroff sb =? 0)
                    then sb <| sb_sndptroff := u32 (sb_sndptroff sb - len) |> else sb in
          let sb := if is_ctl m then sb <| sb_ctl := u32 (sb_ctl sb - len) |> else sb in
          Some (m' :: rest, sb)
        else sbdrop_loop (len - m_len m) rest (sbfree m sb)
    end.

(** [while (m && m->m_len == 0)] *)
Fixpoint drop_empty (ms : list mbuf) (sb : sockbuf) : list mbuf * sockbuf :=
  match ms with
  | m :: rest => if m_len m =? 0 then drop_empty rest (sbfree m sb) else (ms, sb)
  | [] => ([], sb)
  end.

Definition sbdrop_internal (len : Z) (sb : sockbuf) : option sockbuf :=
  '(ms, sb) ← sbdrop_loop len (sb_mb sb) sb;
  let '(ms, sb) := drop_empty ms sb in
  let sb := sb <| sb_mb := ms |> in
  Some (match ms with
        | [] => sb <| sb_mbtail := None |> <| sb_lastrecord := None |>
        | m :: _ => sb <| sb_lastrecord := Some (m_id m) |>
        end).

(** [while (sb->sb_mbcnt)]; [None]: the panic, or the loop goes on. *)
Fixpoint sbflush_loop (fuel : nat) (sb : sockbuf) : option sockbuf :=
  if sb_mbcnt sb =? 0 then Some sb
  else if (sb_cc sb =? 0) && match sb_mb sb with [] => true | m :: _ => negb (m_len m =? 0) end then Some sb
  else
    match fuel with
    | O => None
    | S fuel => sb ← sbdrop_internal (s32 (sb_cc sb)) sb; sbflush_loop fuel sb
    end.

(** One round empties the buffer ([sbflush_empties]), a second one leaves the
    loop. *)
Definition sbflush_internal (sb : sockbuf) : option sockbuf :=
  sb ← sbflush_loop 2 sb;
  if negb (sb_cc sb =? 0) || bool_decide (sb_mb sb <> []) || negb (sb_mbcnt sb =? 0) then None else Some sb.

(** ** The send pointer *)

(** The [for] loop: the offset left, the new [sb_sndptroff] and the chain from
    the new send pointer on. *)
Fixpoint sndptr_advance (off sndptroff : Z) (ms : list mbuf) : Z * Z * list mbuf :=
  match ms with
  | [] => (off, sndptroff, [])
  | m :: rest =>
      if (0 <? off) && (u32 (m_len m) <=? off)
      then sndptr_advance (u32 (off - m_len m)) (u32 (sndptroff + m_len m)) rest
      else (off, sndptroff, ms)
  end.

(** The chain to copy from and the offset in it; [None]: the panic. *)
Definition sbsndptr (off len : Z) (sb : sockbuf) : option (sockbuf * list mbuf * Z) :=
  if off <? sb_sndptroff sb then Some (sb, sb_mb sb, off)
  else
    let moff := u32 (off - sb_sndptroff sb) in
    let ret := match sb_sndptr sb with Some id => chain_from id (sb_mb sb) | None => sb_mb sb end in
    let '(o, sndptroff, m) := sndptr_advance (u32 (moff + len - 1)) (sb_sndptroff sb) ret in
    if (0 <? o) && bool_decide (m = []) then None
    else Some (sb <| sb_sndptroff := sndptroff |> <| sb_sndptr := m_id <$> head m |>, ret, moff).

(** ** Reservations *)

(** The limits: [sb_max], [sb_max_adj], [sb_efficiency]. *)
Record sbenv := mk_sbenv {
  sb_max : Z;
  sb_max_adj : Z;
  sb_efficiency : Z }.

(** The user's total [ui_sbsize], the buffer's [sb_hiwat] and whether the
    change is granted. *)
Definition chgsbsize (ui_sbsize hiwat to max : Z) : Z * Z * bool :=
  let diff := s32 (to - hiwat) in
  if 0 <? diff then
    if max <? s64 (ui_sbsize + diff) then (ui_sbsize, hiwat, false)
    else (s64 (ui_sbsize + diff), u32 to, true)
  else (s64 (ui_sbsize + diff), u32 to, true).

(** [limit] is the caller's RLIMIT_SBSIZE, or [RLIM_INFINITY] without a
    thread. *)
Definition sbreserve_locked (e : sbenv) (ui_sbsize cc limit : Z) (sb : sockbuf) : Z * sockbuf * bool :=
  if sb_max_adj e <? cc then (ui_sbsize, sb, false)
  else
    let '(ui_sbsize, hiwat, ok) := chgsbsize ui_sbsize (sb_hiwat sb) (u32 cc) limit in
    let sb := sb <| sb_hiwat := hiwat |> in
    if (ok : bool) then
      let sb := sb <| sb_mbmax := umin (u64 (cc * sb_efficiency e)) (sb_max e) |> in
      (ui_sbsize, if sb_hiwat sb <? u32 (sb_lowat sb) then sb <| sb_lowat := s32 (sb_hiwat sb) |> else sb, true)
    else (ui_sbsize, sb, false).

Definition sbrelease_internal (ui_sbsize : Z) (sb : sockbuf) : option (Z * sockbuf) :=
  sb ← sbflush_internal sb;
  let '(ui_sbsize, hiwat, _) := chgsbsize ui_sbsize (sb_hiwat sb) 0 RLIM_INFINITY in
  Some (ui_sbsize, sb <| sb_hiwat := hiwat |> <| sb_mbmax := 0 |>).

Definition ENOBUFS := 55.

(** Both buffers of a socket; [None]: the panic of [sbflush_internal]. *)
Definition soreserve (e : sbenv) (ui_sbsize sndcc rcvcc limit : Z) (snd rcv : sockbuf)
  : option (Z * sockbuf * sockbuf * Z) :=
  match sbreserve_locked e ui_sbsize sndcc limit snd with
  | (ui_sbsize, snd, false) => Some (ui_sbsize, snd, rcv, ENOBUFS)
  | (ui_sbsize, snd, true) =>
      match sbreserve_locked e ui_sbsize rcvcc limit rcv with
      | (ui_sbsize, rcv, false) =>
          '(ui_sbsize, snd) ← sbrelease_internal ui_sbsize snd;
          Some (ui_sbsize, snd, rcv, ENOBUFS)
      | (ui_sbsize, rcv, true) =>
          let rcv := if sb_lowat rcv =? 0 then rcv <| sb_lowat := 1 |> else rcv in
          let snd := if sb_lowat snd =? 0 then snd <| sb_lowat := MCLBYTES |> else snd in
          let snd := if sb_hiwat snd <? u32 (sb_lowat snd) then snd <| sb_lowat := s32 (sb_hiwat snd) |> else snd in
          Some (ui_sbsize, snd, rcv, 0)
      end
  end.
(** ** What a buffer holds *)

(** The stream of a chain: a byte, or [None] for a position in a hole. *)
Definition cells (m : mbuf) : list (option Z) :=
  if m_hole m then replicate (Z.to_nat (m_len m)) None
  else Some <$> take (Z.to_nat (m_len m)) (m_buf m).
Definition contents (ms : list mbuf) : list (option Z) := concat (map cells ms).

Definition wf_mbuf (m : mbuf) : Prop :=
  0 <= m_len m < 2 ^ 31 /\ (if m_hole m then m_ext m = None /\ 0 < m_len m else m_len m <= Z.of_nat (length (m_buf m))) /\
  match m_ext m with Some (size, _) => 0 <= size | None => True end.

Fixpoint msum (f : mbuf -> Z) (ms : list mbuf) : Z :=
  match ms with [] => 0 | m :: ms => f m + msum f ms end.
Definition total : list mbuf -> Z := msum m_len.
Definition footprint (m : mbuf) : Z := MSIZE + match m_ext m with Some (size, _) => size | None => 0 end.
Definition clusters (m : mbuf) : Z := match m_ext m with Some _ => 1 | None => 0 end.
Definition ctl_len (m : mbuf) : Z := if is_ctl m then m_len m else 0.

(** The counters of [sb] are those of the chain [ms]. *)
Record counted (ms : list mbuf) (sb : sockbuf) : Prop := {
  cn_cc : sb_cc sb = u32 (total ms);
  cn_mbcnt : sb_mbcnt sb = u32 (msum footprint ms);
  cn_mcnt : sb_mcnt sb = u32 (msum (fun _ => 1) ms);
  cn_ccnt : sb_ccnt sb = u32 (msum clusters ms);
  cn_ctl : sb_ctl sb = u32 (msum ctl_len ms) }.

(** The send pointer is an mbuf of the chain, [sb_sndptroff] bytes in. *)
Definition ptr_ok (ms : list mbuf) (sb : sockbuf) : Prop :=
  match sb_sndptr sb with
  | None => sb_sndptroff sb = 0
  | Some id => exists A m B, ms = A ++ m :: B /\ m_id m = id /\ sb_sndptroff sb = total A
  end.

Definition ids (ms : list mbuf) : list Z := map m_id ms.

(** The invariant of a stream buffer. *)
Record sb_ok (sb : sockbuf) : Prop := {
  so_wf : Forall wf_mbuf (sb_mb sb);
  so_ids : NoDup (ids (sb_mb sb));
  so_counted : counted (sb_mb sb) sb;
  so_total : total (sb_mb sb) < 2 ^ 31;
  so_foot : msum footprint (sb_mb sb) < 2 ^ 32;
  so_ptr : ptr_ok (sb_mb sb) sb;
  so_tail : sb_mbtail sb = last (ids (sb_mb sb));
  so_record : sb_lastrecord sb = head (ids (sb_mb sb)) }.

(** ** Sums and contents *)

Lemma msum_app f ms ns : msum f (ms ++ ns) = msum f ms + msum f ns.
Proof. induction ms as [|m ms IH]; cbn [msum app]; lia. Qed.

Lemma msum_nonneg f ms : (forall m, m ∈ ms -> 0 <= f m) -> 0 <= msum f ms.
Proof.
  induction ms as [|m ms IH]; cbn [msum]; intros H; [lia|].
  specialize (IH ltac:(intros; apply H; set_solver)). specialize (H m ltac:(set_solver)). lia.
Qed.

Lemma total_cons m ms : total (m :: ms) = m_len m + total ms.
Proof. reflexivity. Qed.
Lemma total_app ms ns : total (ms ++ ns) = total ms + total ns.
Proof. apply msum_app. Qed.
Lemma total_nonneg ms : Forall wf_mbuf ms -> 0 <= total ms.
Proof. intros H. apply msum_nonneg. intros m Hm. rewrite Forall_forall in H. apply H in Hm. destruct Hm. lia. Qed.

Lemma footprint_pos m : wf_mbuf m -> MSIZE <= footprint m.
Proof. intros (_ & _ & H). unfold footprint. destruct (m_ext m) as [[size refs]|]; lia. Qed.
Lemma foot_nonneg ms : Forall wf_mbuf ms -> 0 <= msum footprint ms.
Proof.
  intros H. apply msum_nonneg. intros m Hm. rewrite Forall_forall in H. apply H, footprint_pos in Hm.
  unfold MSIZE in *. lia.
Qed.

Lemma length_cells m : wf_mbuf m -> Z.of_nat (length (cells m)) = m_len m.
Proof.
  intros (H1 & H2 & _). unfold cells. destruct (m_hole m).
  - rewrite length_replicate. lia.
  - rewrite length_fmap, length_take. lia.
Qed.

Lemma contents_app ms ns : contents (ms ++ ns) = contents ms ++ contents ns.
Proof. unfold contents. rewrite map_app. apply concat_app. Qed.
Lemma contents_cons m ms : contents (m :: ms) = cells m ++ contents ms.
Proof. reflexivity. Qed.

Lemma length_contents ms : Forall wf_mbuf ms -> Z.of_nat (length (contents ms)) = total ms.
Proof.
  induction 1 as [|m ms Hm _ IH]; [reflexivity|].
  rewrite contents_cons, length_app, total_cons, <- (length_cells m Hm). lia.
Qed.

Lemma cells_nil m : m_len m = 0 -> cells m = [].
Proof. intros H. unfold cells. rewrite H. destruct (m_hole m); reflexivity. Qed.

(** ** Counters *)

Lemma counted_alloc ms m sb : counted ms sb -> counted (ms ++ [m]) (sballoc m sb).
Proof.
  intros [H1 H2 H3 H4 H5]. unfold sballoc.
  destruct (is_ctl m) eqn:Ec, (m_ext m) as [[size refs]|] eqn:Ee; split;
    cbn [update sb_cc sb_mbcnt sb_mcnt sb_ccnt sb_ctl]; unfold total in *;
    rewrite ?H1, ?H2, ?H3, ?H4, ?H5, msum_app; cbn [msum];
    unfold footprint, clusters, ctl_len; rewrite ?Ec, ?Ee; wrap.
Qed.

(** [counted] and [ptr_ok] only look at the counters and the send pointer. *)
Lemma counted_free ms m sb : counted (m :: ms) sb -> counted ms (sbfree m sb).
Proof.
  intros [H1 H2 H3 H4 H5]. unfold total in H1. cbn [msum] in *.
  unfold sbfree.
  assert (forall sb, counted ms sb -> counted ms
    (if negb (sb_sndptroff sb =? 0) then sb <| sb_sndptroff := u32 (sb_sndptroff sb - m_len m) |> else sb)) as K1
    by (intros s []; destruct (negb _); split; assumption).
  assert (forall sb (b : bool), counted ms sb -> counted ms
    (if b then sb <| sb_sndptr := None |> <| sb_sndptroff := 0 |> else sb)) as K2
    by (intros s [] []; split; assumption).
  apply K1, K2. unfold footprint at 1 in H2. unfold clusters at 1 in H4. unfold ctl_len at 1 in H5.
  destruct (is_ctl m) eqn:Ec, (m_ext m) as [[size refs]|] eqn:Ee; split;
    cbn [update sb_cc sb_mbcnt sb_mcnt sb_ccnt sb_ctl]; rewrite ?H1, ?H2, ?H3, ?H4, ?H5; unfold total; wrap.
Qed.

(** ** Dropping data *)

(** What appending and dropping leave alone. *)
Definition sb_frame (sb sb' : sockbuf) : Prop :=
  sb_hiwat sb' = sb_hiwat sb /\ sb_mbmax sb' = sb_mbmax sb /\ sb_lowat sb' = sb_lowat sb /\
  sb_flags sb' = sb_flags sb /\ sb_state sb' = sb_state sb.

Lemma sb_frame_trans a b c : sb_frame a b -> sb_frame b c -> sb_frame a c.
Proof. unfold sb_frame. intuition congruence. Qed.

Lemma sbfree_frame m sb : sb_frame sb (sbfree m sb) /\ sb_mbtail (sbfree m sb) = sb_mbtail sb.
Proof.
  unfold sbfree, sb_frame.
  destruct (is_ctl m), (m_ext m) as [[]|], (bool_decide _); cbn [update sb_sndptroff];
    (destruct (negb _) || idtac); repeat split.
Qed.

(** The send pointer after the first mbuf is gone. *)
Lemma ptr_free m ms sb :
  0 <= m_len m -> Forall wf_mbuf ms -> NoDup (ids (m :: ms)) -> total (m :: ms) < 2 ^ 31 ->
  ptr_ok (m :: ms) sb -> ptr_ok ms (sbfree m sb).
Proof.
  intros Hm Hw Hn Ht H. unfold ptr_ok, sbfree in *.
  set (sb1 := match m_ext m with Some _ => _ | None => _ end).
  assert (sb_sndptr sb1 = sb_sndptr sb /\ sb_sndptroff sb1 = sb_sndptroff sb) as [E1 E2]
    by (subst sb1; destruct (m_ext m) as [[]|], (is_ctl m); split; reflexivity).
  clearbody sb1. rewrite E1. case_bool_decide as Hs; [reflexivity|].
  destruct (sb_sndptr sb) as [id|] eqn:Ep.
  - destruct H as (A & x & B & E & Hx & Ho). destruct A as [|a A]; cbn [app] in E; injection E as E0 E3.
    { subst x. congruence. }
    subst a ms. rewrite Ho in E2. rewrite total_cons in E2.
    apply Forall_app in Hw as [HA HB]. apply total_nonneg in HA. apply total_nonneg in HB.
    rewrite total_cons, total_app in Ht.
    destruct (Z.eqb_spec (sb_sndptroff sb1) 0); cbn [negb update sb_sndptr sb_sndptroff]; rewrite E1.
    + exists A, x, B. split; [reflexivity|]. split; [exact Hx|]. lia.
    + exists A, x, B. split; [reflexivity|]. split; [exact Hx|]. rewrite E2. rewrite u32_small; lia.
  - rewrite H in E2. rewrite E2. cbn [negb Z.eqb]. rewrite E1. exact E2.
Qed.

Lemma cells_drop m len :
  wf_mbuf m -> 0 < len < m_len m ->
  let m' := m <| m_len := m_len m - len |> in
  let m' := if negb (m_hole m) then m' <| m_buf := drop (Z.to_nat len) (m_buf m) |> else m' in
  cells m' = drop (Z.to_nat len) (cells m) /\ wf_mbuf m' /\ m_len m' = m_len m - len /\
  m_id m' = m_id m /\ footprint m' = footprint m /\ clusters m' = clusters m /\ is_ctl m' = is_ctl m.
Proof.
  intros (H1 & H2 & H3) Hl. unfold cells, wf_mbuf.
  destruct (m_hole m) eqn:E; cbn [negb update m_hole m_len m_buf m_ext]; rewrite ?E;
    (split; [|split; [|repeat split]]).
  - rewrite drop_replicate. f_equal. lia.
  - split; [lia|]. split; [split; [apply H2|lia]|exact H3].
  - rewrite <- fmap_drop, skipn_firstn_comm. do 2 f_equal. lia.
  - split; [lia|]. split; [rewrite length_drop; lia|exact H3].
Qed.

Lemma drop_contents_cons m ms n :
  wf_mbuf m -> m_len m <= n -> drop (Z.to_nat n) (contents (m :: ms)) = drop (Z.to_nat (n - m_len m)) (contents ms).
Proof.
  intros Hm Hn. rewrite contents_cons. apply length_cells in Hm as Hl. destruct Hm as [Hm _].
  rewrite drop_app_ge by lia. f_equal. lia.
Qed.

(** The send pointer after [len] bytes of the first mbuf are gone. *)
Lemma ptr_trim m m' ms sb len sb' :
  0 < len < m_len m -> m_len m' = m_len m - len -> m_id m' = m_id m -> Forall wf_mbuf ms ->
  m_len m + total ms < 2 ^ 31 -> ptr_ok (m :: ms) sb ->
  sb_sndptr sb' = sb_sndptr sb ->
  sb_sndptroff sb' = (if negb (sb_sndptroff sb =? 0) then u32 (sb_sndptroff sb - len) else sb_sndptroff sb) ->
  ptr_ok (m' :: ms) sb'.
Proof.
  intros Hl El Ei Hw Ht H Ep Eo. unfold ptr_ok in *. rewrite Ep.
  destruct (sb_sndptr sb) as [id|]; [|rewrite Eo, H; reflexivity].
  destruct H as (A & x & B & E & Hx & Ho). destruct A as [|a A]; cbn [app] in E; injection E as E0 E3; subst.
  - exists [], m', B. split; [reflexivity|]. split; [exact Ei|]. rewrite Eo, Ho. reflexivity.
  - exists (m' :: A), x, B. split; [reflexivity|]. split; [reflexivity|]. apply Forall_app in Hw as [HA HB].
    apply total_nonneg in HA. apply total_nonneg in HB. rewrite total_app in Ht. rewrite !total_cons in *.
    rewrite Eo, Ho, El. destruct (Z.eqb_spec (m_len a + total A) 0); cbn [negb]; [lia|]. rewrite u32_small; lia.
Qed.

(** What is known of the chain and the buffer between two steps of a drop. *)
Record dropping (ms : list mbuf) (sb : sockbuf) : Prop := {
  dr_wf : Forall wf_mbuf ms;
  dr_ids : NoDup (ids ms);
  dr_counted : counted ms sb;
  dr_total : total ms < 2 ^ 31;
  dr_foot : msum footprint ms < 2 ^ 32;
  dr_ptr : ptr_ok ms sb }.

Lemma dropping_free m ms sb : dropping (m :: ms) sb -> dropping ms (sbfree m sb).
Proof.
  intros [H1 H2 H3 H4 H5 H6]. inversion H1 as [|? ? Hm Hw]; subst. pose proof Hm as [Hl _].
  apply footprint_pos in Hm. unfold MSIZE in Hm. split.
  - exact Hw.
  - cbn in H2. apply NoDup_cons in H2 as [_ H2]. exact H2.
  - apply counted_free, H3.
  - rewrite total_cons in H4. lia.
  - cbn [msum] in H5. lia.
  - apply ptr_free; auto. lia.
Qed.

(** The chain that is left is a suffix of the old one, up to the first mbuf's
    data. *)
Definition dropped (ms : list mbuf) (sb : sockbuf) (n : Z) (ms' : list mbuf) (sb' : sockbuf) : Prop :=
  dropping ms' sb' /\ contents ms' = drop (Z.to_nat n) (contents ms) /\ sb_frame sb sb' /\
  sb_mbtail sb' = sb_mbtail sb /\ exists gone, ids ms = gone ++ ids ms'.

Lemma sbdrop_loop_spec ms : forall len sb,
  dropping ms sb -> 0 <= len <= total ms ->
  exists ms' sb', sbdrop_loop len ms sb = Some (ms', sb') /\ dropped ms sb len ms' sb'.
Proof.
  induction ms as [|m ms IH]; intros len sb D Hl.
  - exists [], sb. cbn in Hl. assert (len = 0) as -> by lia. split; [reflexivity|].
    split; [exact D|]. repeat split. exists []. reflexivity.
  - cbn [sbdrop_loop]. destruct (Z.leb_spec len 0).
    + exists (m :: ms), sb. assert (len = 0) as -> by lia. split; [reflexivity|].
      split; [exact D|]. repeat split. exists []. reflexivity.
    + pose proof (dr_wf _ _ D) as Hw. inversion Hw as [|? ? Hm Hw']; subst.
      destruct (Z.ltb_spec len (m_len m)).
      * destruct (cells_drop m len Hm ltac:(lia)) as (C1 & C2 & C3 & C4 & C5 & C6 & C7).
        set (m' := if negb (m_hole m) then _ else _) in *. clearbody m'.
        eexists _, _. split; [reflexivity|]. apply total_nonneg in Hw' as Ht. pose proof Hm as [Hm0 _].
        destruct D as [D1 D2 [N1 N2 N3 N4 N5] D4 D5 D6].
        unfold total in N1. cbn [msum] in N1, N2, N3, N4, N5. rewrite total_cons in D4, Hl. cbn [msum] in D5.
        split; [split|].
        -- constructor; assumption.
        -- unfold ids in *. cbn [map] in *. rewrite C4. exact D2.
        -- unfold ctl_len at 1 in N5.
           split; (destruct (negb _), (is_ctl m) eqn:Ei; cbn [update sb_cc sb_mbcnt sb_mcnt sb_ccnt sb_ctl]);
             unfold total; cbn [msum]; try (unfold ctl_len at 1); rewrite ?C3, ?C5, ?C6, ?C7, ?N1, ?N2, ?N3, ?N4, ?N5; clear - Hm0 H H0; wrap.
        -- rewrite total_cons. lia.
        -- cbn [msum]. rewrite C5. exact D5.
        -- apply (ptr_trim m m' ms sb len); try assumption; try lia; destruct (negb _), (is_ctl m); reflexivity.
        -- split; [|split; [|split]].
           ++ rewrite !contents_cons, C1, drop_app_le; [reflexivity|].
              pose proof (length_cells m Hm). lia.
           ++ unfold sb_frame. destruct (negb _), (is_ctl m); repeat split.
           ++ destruct (negb _), (is_ctl m); reflexivity.
           ++ exists []. unfold ids. cbn [map app]. rewrite C4. reflexivity.
      * pose proof Hm as [Hm0 _]. rewrite total_cons in Hl.
        destruct (IH (len - m_len m) (sbfree m sb) (dropping_free _ _ _ D) ltac:(lia)) as (ms' & sb' & E & K1 & K2 & K3 & K4 & gone & K5).
        exists ms', sb'. split; [exact E|]. split; [exact K1|].
        destruct (sbfree_frame m sb) as [F1 F2].
        split; [rewrite drop_contents_cons by (assumption || lia); exact K2|].
        split; [eapply sb_frame_trans; eassumption|]. split; [congruence|].
        exists (m_id m :: gone). unfold ids in *. cbn [map app]. rewrite K5. reflexivity.
Qed.

Lemma drop_empty_spec ms : forall sb, dropping ms sb ->
  let '(ms', sb') := drop_empty ms sb in dropped ms sb 0 ms' sb'.
Proof.
  induction ms as [|m ms IH]; intros sb D.
  - split; [exact D|]. repeat split. exists []. reflexivity.
  - cbn [drop_empty]. destruct (Z.eqb_spec (m_len m) 0) as [E|E].
    + specialize (IH (sbfree m sb) (dropping_free _ _ _ D)). destruct (drop_empty ms (sbfree m sb)) as [ms' sb'].
      destruct IH as (K1 & K2 & K3 & K4 & gone & K5). destruct (sbfree_frame m sb) as [F1 F2].
      split; [exact K1|]. split; [rewrite contents_cons, (cells_nil m E); exact K2|].
      split; [eapply sb_frame_trans; eassumption|]. split; [congruence|].
      exists (m_id m :: gone). unfold ids in *. cbn [map app]. rewrite K5. reflexivity.
    + split; [exact D|]. repeat split. exists []. reflexivity.
Qed.

Lemma last_suffix {A} (l k gone : list A) : l = gone ++ k -> k <> [] -> last k = last l.
Proof.
  intros -> Hk. destruct (last_snoc_or_nil k) as [->|(k' & x & ->)]; [congruence|].
  rewrite app_assoc, !last_snoc. reflexivity.
Qed.

Lemma sb_ok_dropping sb : sb_ok sb -> dropping (sb_mb sb) sb.
Proof. intros []. split; assumption. Qed.

Lemma sb_cc_total sb : sb_ok sb -> sb_cc sb = total (sb_mb sb).
Proof.
  intros [H1 _ [H2 _ _ _ _] H3 _ _ _ _]. apply total_nonneg in H1. rewrite H2. apply u32_small. lia.
Qed.

(** [sbdrop] takes the first [n] positions off the stream. *)
Lemma sbdrop_spec sb n :
  sb_ok sb -> 0 <= n <= sb_cc sb ->
  exists sb', sbdrop_internal n sb = Some sb' /\ sb_ok sb' /\
    contents (sb_mb sb') = drop (Z.to_nat n) (contents (sb_mb sb)) /\ sb_frame sb sb' /\
    (exists gone, ids (sb_mb sb) = gone ++ ids (sb_mb sb')) /\
    match sb_mb sb' with m :: _ => m_len m <> 0 | [] => True end.
Proof.
  intros Hok Hn. rewrite (sb_cc_total sb Hok) in Hn. unfold sbdrop_internal.
  destruct (sbdrop_loop_spec (sb_mb sb) n sb (sb_ok_dropping sb Hok) Hn) as (ms1 & sb1 & -> & D1 & C1 & F1 & T1 & gone1 & I1).
  cbn [mbind option_bind]. pose proof (drop_empty_spec ms1 sb1 D1) as H.
  assert (match fst (drop_empty ms1 sb1) with m :: _ => m_len m <> 0 | [] => True end) as Hne.
  { clear. revert sb1. induction ms1 as [|m ms IH]; intros sb; cbn; [exact I|].
    destruct (Z.eqb_spec (m_len m) 0); [apply IH|exact n]. }
  destruct (drop_empty ms1 sb1) as [ms sb2]. destruct H as (D2 & C2 & F2 & T2 & gone2 & I2). cbn [fst] in Hne.
  eexists. split; [reflexivity|].
  assert (ids (sb_mb sb) = (gone1 ++ gone2) ++ ids ms) as I3 by (rewrite I1, I2; apply app_assoc).
  assert (last (ids ms) = last (ids (sb_mb sb)) \/ ms = []) as L.
  { destruct ms as [|m ms]; [right; reflexivity|left]. eapply last_suffix; [exact I3|discriminate]. }
  destruct D2 as [W2 N2 [? ? ? ? ?] B2 P2 S2]. pose proof (so_tail sb Hok) as Tl.
  split; [|split; [|split; [|split]]].
  - destruct ms as [|m ms]; split; cbn [update sb_mb sb_mbtail sb_lastrecord]; try assumption; try split; try assumption;
      try reflexivity. destruct L as [L|L]; [|discriminate]. rewrite L. congruence.
  - replace (sb_mb (match ms with [] => _ | m :: _ => _ end)) with ms by (destruct ms; reflexivity).
    rewrite C2, C1. reflexivity.
  - eapply sb_frame_trans; [exact F1|]. eapply sb_frame_trans; [exact F2|]. unfold sb_frame. destruct ms; repeat split.
  - replace (sb_mb (match ms with [] => _ | m :: _ => _ end)) with ms by (destruct ms; reflexivity). eauto.
  - replace (sb_mb (match ms with [] => _ | m :: _ => _ end)) with ms by (destruct ms; reflexivity). exact Hne.
Qed.

(** [sbflush] empties the buffer and does not panic. *)
Lemma sbflush_empties sb :
  sb_ok sb -> exists sb', sbflush_internal sb = Some sb' /\ sb_ok sb' /\ sb_mb sb' = [] /\ sb_frame sb sb'.
Proof.
  intros Hok. unfold sbflush_internal.
  assert (forall s, sb_ok s -> sb_mb s = [] -> sb_cc s = 0 /\ sb_mbcnt s = 0) as Hempty.
  { intros s Hs E. destruct (so_counted s Hs) as [H1 H2 _ _ _]. rewrite E in *. split; assumption. }
  assert (sb_mb sb <> [] -> sb_mbcnt sb <> 0) as Hm.
  { intros E. destruct (so_counted sb Hok) as [_ -> _ _ _]. pose proof (so_foot sb Hok) as Hf.
    pose proof (so_wf sb Hok) as Hw. destruct (sb_mb sb) as [|m ms]; [congruence|].
    inversion Hw as [|? ? Hm Hw']; subst. apply footprint_pos in Hm. apply foot_nonneg in Hw'.
    cbn [msum] in *. unfold MSIZE in Hm. rewrite u32_small; lia. }
  destruct (sb_mb sb) as [|m ms] eqn:E.
  { destruct (Hempty sb Hok E) as [E1 E2]. cbn [sbflush_loop]. rewrite E2. cbn [Z.eqb mbind option_bind].
    rewrite E1, E2, E. exists sb. split; [reflexivity|]. split; [exact Hok|]. split; [exact E|]. repeat split. }
  pose proof (sb_cc_total sb Hok) as Hcc. pose proof (total_nonneg _ (so_wf sb Hok)) as Ht. pose proof (so_total sb Hok) as Hb.
  destruct (sbdrop_spec sb (sb_cc sb) Hok ltac:(lia)) as (sb' & Ed & Hok' & Hc & Hf & _ & Hne).
  assert (sb_mb sb' = []) as E'.
  { assert (contents (sb_mb sb') = []) as K
      by (rewrite Hc; apply drop_ge; pose proof (length_contents _ (so_wf sb Hok)); lia).
    destruct (sb_mb sb') as [|x xs] eqn:Ex; [reflexivity|]. exfalso. apply Hne.
    pose proof (so_wf sb' Hok') as Hw. rewrite Ex in Hw. inversion Hw as [|? ? Hx _]; subst.
    rewrite contents_cons in K. apply app_eq_nil in K as [K _]. apply length_cells in Hx. rewrite K in Hx. exact (eq_sym Hx). }
  destruct (Hempty sb' Hok' E') as [F1 F2].
  assert (sbflush_loop 2 sb = Some sb') as ->.
  { cbn [sbflush_loop]. destruct (Z.eqb_spec (sb_mbcnt sb) 0) as [Z0|_]; [exfalso; apply Hm; [discriminate|exact Z0]|].
    rewrite E. rewrite (s32_small (sb_cc sb)) by lia. rewrite Ed. cbn [mbind option_bind].
    rewrite F2. cbn [Z.eqb].
    destruct (Z.eqb_spec (sb_cc sb) 0) as [Z0|_]; [|reflexivity]. cbn [andb].
    destruct (Z.eqb_spec (m_len m) 0) as [_|Zm]; [reflexivity|]. exfalso.
    rewrite Z0, E in Hcc. rewrite total_cons in Hcc. pose proof (so_wf sb Hok) as Hw. rewrite E in Hw.
    inversion Hw as [|? ? [Hx _] Hw']; subst. apply total_nonneg in Hw'. lia. }
  cbn [mbind option_bind]. rewrite F1, F2, E'. exists sb'. split; [reflexivity|]. split; [exact Hok'|]. split; [exact E'|exact Hf].
Qed.

(** ** Reading *)

Lemma chain_from_split A m B : m_id m ∉ ids A -> chain_from (m_id m) (A ++ m :: B) = m :: B.
Proof.
  induction A as [|a A IH]; cbn [chain_from app ids map]; intros H.
  - rewrite Z.eqb_refl. reflexivity.
  - destruct (Z.eqb_spec (m_id a) (m_id m)); [set_solver|]. apply IH. set_solver.
Qed.

Lemma ids_split A m B : NoDup (ids (A ++ m :: B)) -> m_id m ∉ ids A.
Proof. unfold ids. rewrite map_app. cbn [map]. intros H%NoDup_app. set_solver. Qed.

(** The loop stops at an mbuf of the chain when the offset is in it. *)
Lemma sndptr_advance_spec ms : forall off sndptroff,
  Forall wf_mbuf ms -> 0 <= off < total ms -> 0 <= sndptroff -> sndptroff + total ms < 2 ^ 31 ->
  exists A m B o, ms = A ++ m :: B /\ sndptr_advance off sndptroff ms = (o, sndptroff + total A, m :: B).
Proof.
  induction ms as [|m ms IH]; intros off p Hw Ho Hp Hb; [cbn in Ho; lia|].
  inversion Hw as [|? ? Hm Hw']; subst. destruct Hm as [Hm _]. apply total_nonneg in Hw' as Ht.
  rewrite total_cons in *. cbn [sndptr_advance]. rewrite (u32_small (m_len m)) by lia.
  destruct (Z.ltb_spec 0 off); [destruct (Z.leb_spec (m_len m) off)|]; cbn [andb].
  - rewrite !u32_small by lia. destruct (IH (off - m_len m) (p + m_len m) Hw') as (A & x & B & o & -> & ->); try lia.
    exists (m :: A), x, B, o. split; [reflexivity|]. rewrite total_cons. do 2 f_equal. lia.
  - exists [], m, ms, off. split; [reflexivity|]. cbn. do 2 f_equal. lia.
  - exists [], m, ms, off. split; [reflexivity|]. cbn. do 2 f_equal. lia.
Qed.

(** [sbsndptr] returns a place in the chain that stands for [off], and keeps the
    invariant. *)
Lemma sbsndptr_spec sb off len :
  sb_ok sb -> 0 <= off -> 0 < len -> off + len <= sb_cc sb ->
  exists sb' ms moff, sbsndptr off len sb = Some (sb', ms, moff) /\ sb_ok sb' /\ sb_mb sb' = sb_mb sb /\
    sb_frame sb sb' /\ 0 <= moff /\ moff + len <= total ms /\ Forall wf_mbuf ms /\ total ms < 2 ^ 31 /\
    (forall n, drop (Z.to_nat moff + n) (contents ms) = drop (Z.to_nat off + n) (contents (sb_mb sb))).
Proof.
  intros Hok Ho Hl Hc. rewrite (sb_cc_total sb Hok) in Hc. unfold sbsndptr.
  pose proof (so_total sb Hok) as Hb. pose proof (so_wf sb Hok) as Hw.
  destruct (Z.ltb_spec off (sb_sndptroff sb)).
  { exists sb, (sb_mb sb), off. split; [reflexivity|]. split; [exact Hok|]. do 2 (split; [repeat split|]).
    repeat split; auto. }
  set (ret := match sb_sndptr sb with Some id => _ | None => _ end).
  assert (exists A, sb_mb sb = A ++ ret /\ sb_sndptroff sb = total A) as (A & EA & EO).
  { pose proof (so_ptr sb Hok) as P. unfold ptr_ok in P. subst ret. destruct (sb_sndptr sb) as [id|].
    - destruct P as (A & m & B & E & <- & Eo). exists A. split; [|exact Eo]. rewrite E at 1.
      f_equal. rewrite E. symmetry. apply chain_from_split. eapply ids_split. rewrite <- E. apply Hok.
    - exists []. split; [reflexivity|exact P]. }
  clearbody ret. rewrite EA in Hb, Hc, Hw. apply Forall_app in Hw as [WA WR]. rewrite total_app in Hb, Hc.
  apply total_nonneg in WA as TA. apply total_nonneg in WR as TR. rewrite EO.
  rewrite (u32_small (off - total A)), u32_small by lia.
  destruct (sndptr_advance_spec ret (off - total A + len - 1) (total A) WR) as (A' & m & B & o & E & ->); try lia.
  rewrite (bool_decide_eq_false_2 (m :: B = [])), andb_false_r by discriminate.
  eexists _, ret, (off - total A). split; [reflexivity|].
  split; [|split; [reflexivity|split; [repeat split|]]].
  - destruct Hok as [? ? [? ? ? ? ?] ? ? ? ? ?].
    split; try assumption; try (split; assumption). unfold ptr_ok.
    cbn [update sb_sndptr sb_sndptroff fmap option_map option_fmap head sb_mb].
    exists (A ++ A'), m, B. split; [rewrite EA, E, <- app_assoc; reflexivity|]. split; [reflexivity|].
    rewrite total_app. reflexivity.
  - split; [lia|]. split; [lia|]. split; [exact WR|]. split; [lia|]. intros n.
    rewrite EA, contents_app, (drop_app_ge (contents A)); pose proof (length_contents A WA); [f_equal|]; lia.
Qed.

(** ** The copies *)

Definition zeroed (c : option Z) : Z := default 0 c.

Lemma mbuf_read_cells m off count :
  wf_mbuf m -> 0 <= off -> 0 <= count -> off + count <= m_len m ->
  mbuf_read m off count = zeroed <$> (take (Z.to_nat count) (drop (Z.to_nat off) (cells m))).
Proof.
  intros (H1 & H2 & _) Ho Hc Hl. unfold mbuf_read, cells. destruct (m_hole m).
  - rewrite drop_replicate, take_replicate, fmap_replicate. cbn. f_equal. lia.
  - rewrite <- fmap_drop, <- fmap_take, <- list_fmap_compose.
    rewrite (list_fmap_ext (zeroed ∘ Some) id _ (fun _ _ _ => eq_refl)), list_fmap_id.
    rewrite skipn_firstn_comm, take_take. f_equal. lia.
Qed.

(** The chain from the mbuf that holds byte [off]. *)
Lemma copy_skip_spec ms : forall off,
  Forall wf_mbuf ms -> 0 <= off <= total ms ->
  exists off' ms', copy_skip off ms = Some (off', ms') /\ Forall wf_mbuf ms' /\ 0 <= off' <= off /\
    match ms' with m :: _ => off' <= m_len m | [] => off' = 0 end /\
    total ms' - off' = total ms - off /\
    drop (Z.to_nat off') (contents ms') = drop (Z.to_nat off) (contents ms).
Proof.
  induction ms as [|m ms IH]; intros off Hw Ho.
  - cbn in Ho. assert (off = 0) as -> by lia. exists 0, []. repeat split; auto; lia.
  - cbn [copy_skip]. inversion Hw as [|? ? Hm Hw']; subst. pose proof Hm as [Hl _].
    destruct (Z.leb_spec off 0); [exists off, (m :: ms); repeat split; auto; lia|].
    destruct (Z.ltb_spec off (m_len m)); [exists off, (m :: ms); repeat split; auto; lia|].
    rewrite total_cons in Ho. destruct (IH (off - m_len m) Hw' ltac:(lia)) as (off' & ms' & -> & K1 & K2 & K3 & K4 & K5).
    exists off', ms'. split; [reflexivity|]. split; [exact K1|]. split; [lia|]. split; [exact K3|].
    split; [rewrite total_cons; lia|]. rewrite K5. symmetry. apply drop_contents_cons; [assumption|lia].
Qed.

(** A read that ends in the first mbuf, or goes past it. *)
Lemma take_drop_cons m ms off len :
  wf_mbuf m -> 0 <= off <= m_len m -> 0 <= len ->
  take (Z.to_nat len) (drop (Z.to_nat off) (contents (m :: ms))) =
  take (Z.to_nat (Z.min (m_len m - off) len)) (drop (Z.to_nat off) (cells m)) ++
  take (Z.to_nat (len - Z.min (m_len m - off) len)) (contents ms).
Proof.
  intros Hm Ho Hl. apply length_cells in Hm as Hc.
  rewrite contents_cons, drop_app_le by lia. rewrite take_app. f_equal.
  - destruct (Z.min_spec (m_len m - off) len) as [[? ->]|[? ->]]; [|reflexivity].
    rewrite !take_ge; rewrite ?length_drop; (reflexivity || lia).
  - rewrite length_drop. f_equal. lia.
Qed.

Lemma copy_bytes_spec ms : forall off len,
  Forall wf_mbuf ms -> 0 <= off -> match ms with m :: _ => off <= m_len m | [] => off = 0 end ->
  0 <= len -> off + len <= total ms -> total ms < 2 ^ 31 ->
  copy_bytes off len ms = Some (zeroed <$> take (Z.to_nat len) (drop (Z.to_nat off) (contents ms))).
Proof.
  induction ms as [|m ms IH]; intros off len Hw Ho Hm Hl Ht Hb; cbn [copy_bytes];
    (destruct (Z.leb_spec len 0); [assert (len = 0) as -> by lia; reflexivity|]).
  - cbn in Ht. lia.
  - inversion Hw as [|? ? Wm Hw']; subst. pose proof Wm as [Hm' _]. rewrite total_cons in *.
    rewrite umin_small by lia. set (count := Z.min (m_len m - off) len).
    assert (0 <= count) by (subst count; lia). rewrite (IH 0 (len - count) Hw').
    + cbn [mbind option_bind]. rewrite (take_drop_cons m ms off len) by (assumption || lia). fold count.
      rewrite fmap_app, mbuf_read_cells by (assumption || lia). cbn. reflexivity.
    + lia.
    + destruct ms as [|x ms]; [reflexivity|]. inversion Hw' as [|? ? [Hx _] _]; subst. lia.
    + subst count. lia.
    + destruct (Z.min_spec (m_len m - off) len) as [[? Ec]|[? Ec]]; fold count in Ec; rewrite Ec;
        pose proof (total_nonneg ms Hw'); lia.
    + lia.
Qed.

(** [m_copydata] reads the stream, holes as zeros. *)
Lemma m_copydata_spec ms off len :
  Forall wf_mbuf ms -> 0 <= off -> 0 <= len -> off + len <= total ms -> total ms < 2 ^ 31 ->
  m_copydata ms off len = Some (zeroed <$> take (Z.to_nat len) (drop (Z.to_nat off) (contents ms))).
Proof.
  intros Hw Ho Hl Ht Hb. unfold m_copydata.
  destruct (copy_skip_spec ms off Hw ltac:(lia)) as (off' & ms' & -> & K1 & K2 & K3 & K4 & K5).
  cbn [mbind option_bind]. rewrite <- K5. apply copy_bytes_spec; (assumption || lia).
Qed.

Lemma copy_mbuf_cells id off len m :
  wf_mbuf m -> 0 <= off <= m_len m -> 0 <= len < 2 ^ 31 ->
  let n := copy_mbuf id off len m in
  m_len n = Z.min (m_len m - off) len /\
  cells n = take (Z.to_nat (Z.min (m_len m - off) len)) (drop (Z.to_nat off) (cells m)).
Proof.
  intros (H1 & H2 & _) Ho Hl. unfold copy_mbuf. rewrite umin_small, Z.min_comm by lia.
  set (c := Z.min (m_len m - off) len). assert (0 <= c) by (subst c; lia).
  destruct (m_ext m) as [[size refs]|]; [|destruct (m_hole m) eqn:E]; (split; [reflexivity|]);
    unfold cells, mbuf_read; cbn [m_hole m_len m_buf]; rewrite ?E.
  - destruct (m_hole m); [destruct H2; discriminate|]. rewrite <- fmap_drop, <- fmap_take, skipn_firstn_comm, take_take.
    do 2 f_equal. subst c. lia.
  - rewrite drop_replicate, take_replicate. f_equal. subst c. lia.
  - rewrite <- fmap_drop, <- fmap_take, skipn_firstn_comm, !take_take. do 2 f_equal. subst c. lia.
Qed.

Lemma copy_chain_spec ms : forall allocs off len last_hole,
  Forall wf_mbuf ms -> 0 <= off -> match ms with m :: _ => off <= m_len m | [] => off = 0 end ->
  0 <= len < M_COPYALL -> off + len <= total ms ->
  forall c allocs', copy_chain allocs off len false last_hole ms = (Some c, allocs') ->
  contents c = take (Z.to_nat len) (drop (Z.to_nat off) (contents ms)).
Proof.
  induction ms as [|m ms IH]; intros allocs off len lh Hw Ho Hm Hl Ht c allocs'; cbn [copy_chain];
    (destruct (Z.leb_spec len 0); [assert (len = 0) as -> by lia; intros Ec; simplify_eq; reflexivity|]).
  - cbn in Ht. lia.
  - cbn [andb]. inversion Hw as [|? ? Wm Hw']; subst. rewrite total_cons in Ht.
    destruct allocs as [|[id|] allocs]; try discriminate. unfold M_COPYALL in Hl.
    destruct (copy_mbuf_cells id off len m Wm ltac:(lia) ltac:(lia)) as [L C].
    set (n := copy_mbuf id off len m) in *. destruct (Z.eqb_spec len M_COPYALL); [unfold M_COPYALL in *; lia|].
    rewrite L. set (k := Z.min (m_len m - off) len) in *. pose proof (total_nonneg ms Hw').
    destruct (copy_chain allocs 0 (len - k) false (m_hole m) ms) as [[top|] rest] eqn:Ec; [|discriminate].
    cbn [fmap option_fmap option_map]. intros [= <- <-]. rewrite contents_cons, C.
    rewrite (take_drop_cons m ms off len) by (assumption || lia). fold k. f_equal.
    assert (match ms with x :: _ => 0 <= m_len x | [] => 0 = 0 end) as Hx
      by (destruct ms; [reflexivity|]; inversion Hw' as [|? ? [? _] _]; subst; lia).
    rewrite (IH allocs 0 (len - k) (m_hole m) Hw' ltac:(lia) Hx ltac:(unfold M_COPYALL; lia) ltac:(lia) _ _ Ec).
    reflexivity.
Qed.

(** [m_copym] returns a chain with the same stream, when it has the mbufs. *)
Lemma m_copym_spec allocs ms off len :
  Forall wf_mbuf ms -> 0 <= off -> 0 <= len < M_COPYALL -> off + len <= total ms ->
  exists r allocs', m_copym allocs ms off len = Some (r, allocs') /\
  match r with
  | Some c => contents c = take (Z.to_nat len) (drop (Z.to_nat off) (contents ms))
  | None => True
  end.
Proof.
  intros Hw Ho Hl Ht. unfold m_copym, m_copym2.
  destruct (copy_skip_spec ms off Hw ltac:(lia)) as (off' & ms' & -> & K1 & K2 & K3 & K4 & K5).
  cbn [mbind option_bind]. destruct (copy_chain _ _ _ _ _ _) as [r allocs'] eqn:Ec. rewrite <- K5.
  destruct r as [[|n c]|]; eexists _, _; (split; [reflexivity|]); cbn beta iota; auto.
  eapply copy_chain_spec; eauto; lia.
Qed.

(** ** Appending data *)

Lemma on_mbuf_last f C x : m_id x ∉ ids C -> on_mbuf (m_id x) f (C ++ [x]) = C ++ [f x].
Proof.
  intros H. unfold on_mbuf. rewrite map_app. cbn [map]. rewrite Z.eqb_refl. f_equal.
  induction C as [|c C IH]; [reflexivity|]. cbn [map ids] in *.
  destruct (Z.eqb_spec (m_id c) (m_id x)); [set_solver|]. f_equal. apply IH. set_solver.
Qed.

Lemma link_after_last C x m : m_id x ∉ ids C -> link_after (m_id x) m (C ++ [x]) = C ++ [x; m].
Proof.
  induction C as [|c C IH]; cbn [link_after app ids map]; intros H; [rewrite Z.eqb_refl; reflexivity|].
  destruct (Z.eqb_spec (m_id c) (m_id x)); [set_solver|]. f_equal. apply IH. set_solver.
Qed.

(** Between two steps of the loop: [n] is the last mbuf of the chain, [ms] the
    data still to come; there is no hole at the seam. *)
Record appending (ms : list mbuf) (n : option Z) (sb : sockbuf) : Prop := {
  ap_wf : Forall wf_mbuf (sb_mb sb);
  ap_in : Forall wf_mbuf ms;
  ap_ids : NoDup (ids (sb_mb sb) ++ ids ms);
  ap_counted : counted (sb_mb sb) sb;
  ap_total : total (sb_mb sb) + total ms < 2 ^ 31;
  ap_foot : msum footprint (sb_mb sb) + msum footprint ms < 2 ^ 32;
  ap_ptr : ptr_ok (sb_mb sb) sb;
  ap_last : n = last (ids (sb_mb sb));
  ap_tail : sb_mbtail sb = n;
  ap_seam : match last (sb_mb sb) with Some x => m_hole x = false | None => True end;
  ap_solid : Forall (fun m => m_hole m = false) ms }.

Lemma NoDup_skip {A} (l k : list A) x : NoDup (l ++ x :: k) -> NoDup (l ++ k) /\ NoDup ((l ++ [x]) ++ k).
Proof.
  intros H. split.
  - rewrite <- (Permutation_middle l k x) in H. apply NoDup_cons in H. apply H.
  - rewrite <- app_assoc. exact H.
Qed.

Lemma appending_skip m ms n sb sb' :
  appending (m :: ms) n sb -> sb_mb sb' = sb_mb sb -> sb_mbtail sb' = sb_mbtail sb ->
  counted (sb_mb sb) sb' -> sb_sndptr sb' = sb_sndptr sb -> sb_sndptroff sb' = sb_sndptroff sb ->
  appending ms n sb'.
Proof.
  intros [A1 A2 A3 A4 A5 A6 A7 A8 A9 A10 A11] E1 E2 E3 E4 E5.
  inversion A2 as [|? ? Hm A2']; inversion A11 as [|? ? _ A11']; subst. pose proof Hm as [Hl _].
  apply footprint_pos in Hm. unfold MSIZE in Hm. rewrite total_cons in A5. cbn [msum] in A6.
  split; rewrite ?E1; auto; try lia.
  - apply NoDup_skip in A3 as [A3 _]. exact A3.
  - unfold ptr_ok in *. rewrite E4, E5. exact A7.
  - congruence.
Qed.

(** The buffer with its last mbuf [x] replaced by [x'], which has taken over the
    data of [m]. *)
Lemma appending_merge m ms n C x x' sb sb' :
  appending (m :: ms) n sb -> sb_mb sb = C ++ [x] ->
  wf_mbuf x' -> m_id x' = m_id x -> m_len x' = m_len x + m_len m -> m_hole x' = false ->
  footprint x' = footprint x -> clusters x' = clusters x -> is_ctl x' = is_ctl x -> is_ctl m = is_ctl x ->
  sb_mb sb' = C ++ [x'] -> sb_mbtail sb' = sb_mbtail sb -> sb_cc sb' = u32 (sb_cc sb + m_len m) ->
  sb_mbcnt sb' = sb_mbcnt sb -> sb_mcnt sb' = sb_mcnt sb -> sb_ccnt sb' = sb_ccnt sb ->
  sb_ctl sb' = (if is_ctl m then u32 (sb_ctl sb + m_len m) else sb_ctl sb) ->
  sb_sndptr sb' = sb_sndptr sb -> sb_sndptroff sb' = sb_sndptroff sb ->
  appending ms n sb'.
Proof.
  intros [A1 A2 A3 A4 A5 A6 A7 A8 A9 A10 A11] EC Wx Eid El Eh Ef Ecl Ect Ecm E1 E2 E3 E4 E5 E6 E7 E8 E9.
  inversion A2 as [|? ? Hm A2']; inversion A11 as [|? ? _ A11']; subst. pose proof Hm as [Hl _].
  apply footprint_pos in Hm. unfold MSIZE in Hm. rewrite total_cons in A5. cbn [msum] in A6.
  rewrite EC in *. assert (ids (C ++ [x']) = ids (C ++ [x])) as Ei by (unfold ids; rewrite !map_app; cbn; rewrite Eid; reflexivity).
  split; rewrite ?E1; auto.
  - apply Forall_app in A1 as [A1 _]. apply Forall_app. auto.
  - rewrite Ei. apply NoDup_skip in A3 as [A3 _]. exact A3.
  - destruct A4 as [K1 K2 K3 K4 K5]. unfold total in K1. rewrite msum_app in K1, K2, K3, K4, K5. cbn [msum] in K1, K2, K3, K4, K5.
    change (ctl_len x) with (if is_ctl x then m_len x else 0) in K5.
    split; unfold total; rewrite msum_app; cbn [msum]; rewrite ?El, ?Ef, ?Ecl, ?E3, ?E4, ?E5, ?E6, ?E7, ?K1, ?K2, ?K3, ?K4, ?K5;
      try reflexivity; [wrap|]. change (ctl_len x') with (if is_ctl x' then m_len x' else 0). rewrite Ect, El, Ecm. destruct (is_ctl x); wrap.
  - rewrite total_app, total_cons in *. rewrite El. cbn [total msum] in *. lia.
  - rewrite !msum_app in *. cbn [msum] in *. lia.
  - unfold ptr_ok in *. rewrite E8, E9. destruct (sb_sndptr sb) as [id|]; [|exact A7].
    destruct A7 as (A & y & B & E & Hy & Ho). destruct (last_snoc_or_nil B) as [->|(B' & b & ->)].
    + apply app_inj_tail in E as [-> ->]. exists A, x', []. split; [reflexivity|]. split; [congruence|exact Ho].
    + assert (C ++ [x] = (A ++ y :: B') ++ [b]) as E' by (rewrite E, <- app_assoc; reflexivity).
      apply app_inj_tail in E' as [-> ->]. exists A, y, (B' ++ [x']). split; [rewrite <- app_assoc; reflexivity|auto].
  - rewrite Ei. reflexivity.
  - congruence.
  - rewrite last_snoc. exact Eh.
Qed.

Lemma appending_link m ms n sb :
  appending (m :: ms) n sb ->
  appending ms (Some (m_id m)) (sb_link m n sb) /\
  sb_mb (sb_link m n sb) = sb_mb sb ++ [m <| m_eor := false |>] /\ sb_frame sb (sb_link m n sb).
Proof.
  intros [A1 A2 A3 A4 A5 A6 A7 A8 A9 A10 A11]. set (m' := m <| m_eor := false |>).
  inversion A2 as [|? ? Hm A2']; inversion A11 as [|? ? Hs A11']; subst.
  pose proof A3 as N1. apply NoDup_app in N1 as (N1 & _ & _). apply NoDup_skip in A3 as [_ A3].
  assert (forall s, sb_mb (sballoc m s) = sb_mb s /\ sb_mbtail (sballoc m s) = sb_mbtail s /\
            sb_sndptr (sballoc m s) = sb_sndptr s /\ sb_sndptroff (sballoc m s) = sb_sndptroff s /\
            sb_frame s (sballoc m s)) as Ha.
  { intros s. unfold sballoc, sb_frame. destruct (is_ctl m), (m_ext m) as [[]|]; repeat split. }
  set (sb1 := (match last (ids (sb_mb sb)) with
               | Some id => sb <| sb_mb := link_after id m' (sb_mb sb) |>
               | None => sb <| sb_mb := [m'] |>
               end) <| sb_mbtail := Some (m_id m) |>).
  assert (sb_link m (last (ids (sb_mb sb))) sb = sballoc m sb1) as -> by reflexivity.
  assert (sb_mb sb1 = sb_mb sb ++ [m']) as E1.
  { subst sb1. destruct (last_snoc_or_nil (sb_mb sb)) as [E|(C & x & E)]; rewrite E; [reflexivity|].
    unfold ids. rewrite map_app; cbn [map]; rewrite last_snoc. cbn [update sb_mb]. rewrite link_after_last, <- app_assoc; [reflexivity|].
    eapply (ids_split C x []). rewrite <- E. exact N1. }
  assert (sb_sndptr sb1 = sb_sndptr sb /\ sb_sndptroff sb1 = sb_sndptroff sb /\ sb_mbtail sb1 = Some (m_id m) /\
          sb_frame sb sb1 /\ counted (sb_mb sb) sb1) as (E2 & E3 & E4 & E5 & E6).
  { clear E1. destruct A4. subst sb1. destruct (last _); repeat split; assumption. }
  clearbody sb1. destruct (Ha sb1) as (B1 & B2 & B3 & B4 & B5).
  apply (counted_alloc _ m) in E6. rewrite B1, E1. split; [|split; [reflexivity|eapply sb_frame_trans; eassumption]].
  rewrite total_cons in A5. cbn [msum] in A6.
  split; rewrite ?B1, ?E1; auto.
  - apply Forall_app. auto.
  - unfold ids in *. rewrite map_app. exact A3.
  - destruct E6 as [K1 K2 K3 K4 K5]. unfold total in K1. rewrite msum_app in K1, K2, K3, K4, K5.
    split; unfold total; rewrite msum_app; assumption.
  - rewrite total_app, total_cons. cbn [update m_len]. subst m'. cbn [update m_len total msum]. lia.
  - rewrite msum_app. cbn [msum]. change (footprint m') with (footprint m). lia.
  - unfold ptr_ok in *. rewrite B3, B4, E2, E3. destruct (sb_sndptr sb); [|exact A7].
    destruct A7 as (A & y & B & E & Hy & Ho). exists A, y, (B ++ [m']). rewrite E, <- app_assoc. auto.
  - unfold ids. rewrite map_app; cbn [map]; rewrite last_snoc. reflexivity.
  - congruence.
  - rewrite last_snoc. exact Hs.
Qed.

Lemma buf_append_spec m x :
  wf_mbuf m -> wf_mbuf x -> m_hole m = false -> m_hole x = false -> m_len m <= M_TRAILINGSPACE x ->
  m_len x + m_len m < 2 ^ 31 ->
  wf_mbuf (buf_append m x) /\ cells (buf_append m x) = cells x ++ cells m.
Proof.
  intros (Hm1 & Hm2 & _) (Hx1 & Hx2 & Hx3) Hm Hx Hl Ht. rewrite Hm in Hm2. rewrite Hx in Hx2.
  assert (m_len x + m_len m <= Z.of_nat (length (m_buf x))) as Hr
    by (unfold M_TRAILINGSPACE in Hl; rewrite Hx in Hl; destruct (m_ext x) as [[]|]; [destruct (M_WRITABLE x)|]; lia).
  unfold buf_append. split.
  - unfold wf_mbuf. cbn [update m_len m_hole m_ext m_buf]. rewrite Hx, !length_app, !length_take, length_drop.
    split; [lia|]. split; [lia|exact Hx3].
  - unfold cells. cbn [update m_len m_hole m_buf]. rewrite Hm, Hx, <- fmap_app. f_equal.
    rewrite app_assoc, take_app_length'; [reflexivity|]. rewrite length_app, !length_take. lia.
Qed.

Lemma is_ctl_type m x : m_type x = m_type m -> is_ctl m = is_ctl x.
Proof. unfold is_ctl. intros ->. reflexivity. Qed.

Lemma sbcompress_loop_spec ms : forall n eor sb,
  appending ms n sb -> (n = None -> eor = true -> ms <> []) ->
  exists sb' n' eor', sbcompress_loop ms n eor sb = Some (sb', n', eor') /\ appending [] n' sb' /\
    contents (sb_mb sb') = contents (sb_mb sb) ++ contents ms /\ sb_frame sb sb' /\ (n' = None -> eor' = false).
Proof.
  induction ms as [|m ms IH]; intros n eor sb A Hn.
  { exists sb, n, eor. split; [reflexivity|]. split; [exact A|]. split; [symmetry; apply app_nil_r|].
    split; [repeat split|]. intros ->. destruct eor; [|reflexivity]. exfalso. apply Hn; reflexivity. }
  cbn [sbcompress_loop]. set (nm := id ← n; find_mbuf id (sb_mb sb)). set (eor1 := eor || m_eor m).
  pose proof A as [A1 A2 A3 A4 A5 A6 A7 A8 A9 A10 A11].
  inversion A2 as [|? ? Wm A2']; inversion A11 as [|? ? Sm A11']; subst x l x0 l0.
  destruct (_ && _) eqn:Eskip.
  - apply andb_true_iff in Eskip as [E0 Eo]. apply Z.eqb_eq in E0.
    set (sb1 := if bool_decide _ then _ else _).
    destruct (IH n eor1 sb1) as (sb' & n' & eor' & E & K1 & K2 & K3 & K4).
    + destruct A4. apply (appending_skip m ms n sb); [exact A|..]; subst sb1; destruct (bool_decide _); try reflexivity; split; assumption.
    + intros En Et. rewrite Et in Eo. cbn [negb orb] in Eo. subst nm. rewrite En in Eo. destruct ms; discriminate.
    + exists sb', n', eor'. split; [exact E|]. split; [exact K1|].
      assert (sb_mb sb1 = sb_mb sb /\ sb_frame sb sb1) as [E1 E2] by (subst sb1; destruct (bool_decide _); repeat split).
      split; [rewrite K2, E1, contents_cons, (cells_nil m E0); reflexivity|]. split; [eapply sb_frame_trans; eassumption|exact K4].
  - clear Eskip. destruct (last_snoc_or_nil (sb_mb sb)) as [EC|(C & x & EC)].
    + (* an empty buffer *)
      assert (n = None) as -> by (rewrite A8, EC; reflexivity).
      destruct (appending_link m ms None sb A) as (L1 & L2 & L3).
      destruct (IH (Some (m_id m)) eor1 _ L1) as (sb' & n' & eor' & E & K1 & K2 & K3 & K4); [discriminate|].
      exists sb', n', eor'. split; [exact E|]. split; [exact K1|]. split; [|split; [eapply sb_frame_trans; eassumption|exact K4]].
      rewrite K2, L2, contents_app, contents_cons, contents_cons. rewrite <- !app_assoc. reflexivity.
    + assert (n = Some (m_id x)) as En by (rewrite A8, EC; unfold ids; rewrite map_app; cbn [map]; apply last_snoc).
      assert (m_id x ∉ ids C) as Nx by (apply (ids_split C x []); rewrite <- EC; apply NoDup_app in A3; apply A3).
      assert (find_mbuf (m_id x) (sb_mb sb) = Some x) as Ef
        by (unfold find_mbuf; rewrite EC, chain_from_split by exact Nx; reflexivity).
      rewrite EC, last_snoc in A10. rewrite En. cbn [mbind option_bind]. rewrite Ef, A10, andb_false_r.
      assert (wf_mbuf x) as Wx by (rewrite EC in A1; apply Forall_app in A1 as [_ A1]; inversion A1; assumption).
      destruct (can_merge sb m x && (m_len m <=? MCLBYTES / 4)) eqn:Emerge.
      * apply andb_true_iff in Emerge as [Em _]. unfold can_merge in Em. zbool.
        pose proof Wm as (Hl1 & Hl2 & _). rewrite Sm in Hl2.
        destruct (Z.ltb_spec (Z.of_nat (length (m_buf m))) (m_len m)); [lia|].
        rewrite EC, total_app, total_cons, total_cons in A5. apply total_nonneg in A2' as T1.
        assert (0 <= total C) as T2 by (apply total_nonneg; rewrite EC in A1; apply Forall_app in A1; apply A1).
        change (total []) with 0 in A5.
        destruct (buf_append_spec m x) as [W C1]; try assumption; try lia.
        set (sb1 := if is_ctl m then _ else _).
        assert (sb_mb sb1 = C ++ [buf_append m x]) as E1
          by (subst sb1; rewrite EC, on_mbuf_last by exact Nx; destruct (is_ctl m); reflexivity).
        destruct (IH (Some (m_id x)) eor1 sb1) as (sb' & n' & eor' & E & K1 & K2 & K3 & K4).
        -- rewrite <- En. apply (appending_merge m ms n C x (buf_append m x) sb); auto;
             try (subst sb1; destruct (is_ctl m); reflexivity). apply is_ctl_type. assumption.
        -- discriminate.
        -- exists sb', n', eor'. split; [exact E|]. split; [exact K1|]. split; [|split; [|exact K4]].
           ++ rewrite K2, E1, EC, !contents_app, !contents_cons, C1, <- !app_assoc. reflexivity.
           ++ eapply sb_frame_trans; [|exact K3]. subst sb1. destruct (is_ctl m); repeat split.
      * rewrite En in A. destruct (appending_link m ms (Some (m_id x)) sb A) as (L1 & L2 & L3).
        destruct (IH (Some (m_id m)) eor1 _ L1) as (sb' & n' & eor' & E & K1 & K2 & K3 & K4); [discriminate|].
        exists sb', n', eor'. split; [exact E|]. split; [exact K1|]. split; [|split; [eapply sb_frame_trans; eassumption|exact K4]].
        rewrite K2, L2, contents_app, contents_cons, contents_cons. rewrite <- !app_assoc. reflexivity.
Qed.

(** A chain of data mbufs that can be appended: new addresses, no holes, and
    room in the counters. *)
Definition can_append (ms : list mbuf) (sb : sockbuf) : Prop :=
  Forall wf_mbuf ms /\ Forall (fun m => m_hole m = false) ms /\ NoDup (ids (sb_mb sb) ++ ids ms) /\
  total (sb_mb sb) + total ms < 2 ^ 31 /\ msum footprint (sb_mb sb) + msum footprint ms < 2 ^ 32 /\
  match last (sb_mb sb) with Some x => m_hole x = false | None => True end.

(** Marking the last mbuf as the end of a record changes nothing else. *)
Lemma sb_ok_eor C x sb :
  sb_ok sb -> sb_mb sb = C ++ [x] -> sb_ok (sb <| sb_mb := C ++ [x <| m_eor := true |>] |>).
Proof.
  intros [O1 O2 [K1 K2 K3 K4 K5] O4 O5 O6 O7 O8] E. set (x' := x <| m_eor := true |>).
  assert (ids (C ++ [x']) = ids (C ++ [x])) as Ei by (unfold ids; rewrite !map_app; reflexivity).
  assert (forall f, f x' = f x -> msum f (C ++ [x']) = msum f (C ++ [x])) as Es
    by (intros f Ef; rewrite !msum_app; cbn [msum]; rewrite Ef; reflexivity).
  rewrite E in *. split; cbn [update sb_mb sb_mbtail sb_lastrecord]; rewrite ?Ei; auto.
  - apply Forall_app in O1 as [O1 O1']. apply Forall_app. split; [exact O1|]. inversion O1'; subst. constructor; [assumption|constructor].
  - split; unfold total in *; rewrite Es by reflexivity; assumption.
  - unfold total in *. rewrite Es by reflexivity. assumption.
  - rewrite Es by reflexivity. assumption.
  - unfold ptr_ok in *. cbn [update sb_sndptr sb_sndptroff]. destruct (sb_sndptr sb) as [id|]; [|exact O6].
    destruct O6 as (A & y & B & EB & Hy & Ho). destruct (last_snoc_or_nil B) as [->|(B' & b & ->)].
    + apply app_inj_tail in EB as [-> ->]. exists A, x', []. auto.
    + assert (C ++ [x] = (A ++ y :: B') ++ [b]) as E' by (rewrite EB, <- app_assoc; reflexivity).
      apply app_inj_tail in E' as [-> ->]. exists A, y, (B' ++ [x']). split; [rewrite <- app_assoc; reflexivity|auto].
Qed.

Lemma sbappendstream_spec ms sb :
  sb_ok sb -> can_append ms sb ->
  exists sb', sbappendstream_locked ms sb = Some sb' /\ sb_ok sb' /\
    contents (sb_mb sb') = contents (sb_mb sb) ++ contents ms /\ sb_frame sb sb' /\
    match last (sb_mb sb') with Some x => m_hole x = false | None => True end.
Proof.
  intros [O1 O2 O3 O4 O5 O6 O7 O8] (H1 & H2 & H3 & H4 & H5 & H6). unfold sbappendstream_locked, sbcompress.
  destruct (sbcompress_loop_spec ms (sb_mbtail sb) false sb) as (sb1 & n & eor & -> & [B1 B2 B3 B4 B5 B6 B7 B8 B9 B10 B11] & K2 & K3 & K4).
  { split; auto. }
  { discriminate. }
  cbn [mbind option_bind]. rewrite app_nil_r in B3. cbn [total msum] in B5, B6.
  assert (forall sb2, sb_mb sb2 = sb_mb sb1 -> counted (sb_mb sb1) sb2 -> sb_sndptr sb2 = sb_sndptr sb1 ->
    sb_sndptroff sb2 = sb_sndptroff sb1 -> sb_mbtail sb2 = sb_mbtail sb1 -> sb_lastrecord sb2 = m_id <$> head (sb_mb sb1) ->
    sb_ok sb2) as Hok.
  { intros sb2 E1 E2 E3 E4 E5 E6. split; rewrite ?E1; auto; try lia.
    - unfold ptr_ok in *. rewrite E3, E4. exact B7.
    - congruence.
    - rewrite E6. destruct (sb_mb sb1); reflexivity. }
  destruct eor.
  - destruct n as [id|]; [|discriminate (K4 eq_refl)]. cbn [mbind option_bind].
    destruct (last_snoc_or_nil (sb_mb sb1)) as [E|(C & x & E)]; [rewrite E in B8; discriminate|].
    assert (m_id x ∉ ids C) as Nx by (apply (ids_split C x []); rewrite <- E; exact B3).
    assert (id = m_id x) as -> by (rewrite E in B8; unfold ids in B8; rewrite map_app in B8; cbn [map] in B8; rewrite last_snoc in B8; congruence).
    eexists. split; [reflexivity|]. cbn [update sb_mb]. rewrite E, on_mbuf_last by exact Nx. split; [|split; [|split]].
    + replace (sb1 <| sb_mb := _ |> <| sb_lastrecord := _ |>)
        with ((sb1 <| sb_lastrecord := m_id <$> head (sb_mb sb1) |>) <| sb_mb := C ++ [x <| m_eor := true |>] |>)
        by (rewrite E; destruct C; reflexivity).
      apply sb_ok_eor; [|exact E]. apply Hok; try reflexivity. destruct B4. split; assumption.
    + rewrite contents_app, contents_cons. change (cells (x <| m_eor := true |>)) with (cells x).
      rewrite <- (contents_cons x), <- contents_app, <- E. exact K2.
    + destruct K3 as (?&?&?&?&?); repeat split; assumption.
    + rewrite last_snoc. rewrite E, last_snoc in B10. exact B10.
  - eexists. split; [reflexivity|]. cbn [update sb_mb]. split; [apply Hok; try reflexivity; destruct B4; split; assumption|].
    split; [exact K2|]. split; [destruct K3 as (?&?&?&?&?); repeat split; assumption|exact B10].
Qed.
(** Every mbuf of the buffer after an append was there before or is one of the
    chain, and the storage they take is at most the sum. *)
Definition grown (ms0 ms ms' : list mbuf) : Prop :=
  (forall i, i ∈ ids ms' -> i ∈ ids ms0 \/ i ∈ ids ms) /\
  msum footprint ms' <= msum footprint ms0 + msum footprint ms.

Lemma footprint_nonneg m : wf_mbuf m -> 0 <= footprint m.
Proof. intros H. apply footprint_pos in H. unfold MSIZE in H. lia. Qed.

Lemma grown_on_mbuf id f ms : (forall m, m_id (f m) = m_id m /\ footprint (f m) = footprint m) ->
  ids (on_mbuf id f ms) = ids ms /\ msum footprint (on_mbuf id f ms) = msum footprint ms.
Proof.
  intros Hf. induction ms as [|m ms [IH1 IH2]]; [split; reflexivity|]. cbn [on_mbuf map ids msum].
  destruct (Hf m) as [H1 H2]. unfold ids in *. destruct (_ =? _); rewrite ?H1, ?H2; split; unfold on_mbuf in *; congruence.
Qed.

Lemma grown_link id m ms : Forall (fun x => 0 <= footprint x) ms ->
  (forall i, i ∈ ids (link_after id m ms) -> i ∈ ids ms \/ i = m_id m) /\
  msum footprint (link_after id m ms) <= msum footprint ms + Z.max 0 (footprint m) /\
  (0 <= footprint m -> Forall (fun x => 0 <= footprint x) (link_after id m ms)).
Proof.
  induction 1 as [|x ms Hx H (IH1 & IH2 & IH3)]; [cbn; split; [set_solver|split; [lia|constructor]]|].
  cbn [link_after]. assert (0 <= msum footprint ms) as Hs by (apply msum_nonneg; rewrite Forall_forall in H; exact H).
  destruct (_ =? _); cbn [msum ids map]; (split; [|split]).
  - intros i. unfold ids. cbn [map]. rewrite !elem_of_cons, elem_of_nil. tauto.
  - lia.
  - intros Hm. repeat constructor; assumption.
  - intros i. unfold ids in *. cbn [map]. rewrite !elem_of_cons. intros [->|Hi]; [tauto|]. destruct (IH1 i Hi); tauto.
  - lia.
  - intros Hm. constructor; auto.
Qed.

Lemma sbcompress_grown ms : forall n eor sb sb' n' eor',
  Forall (fun x => 0 <= footprint x) ms -> Forall (fun x => 0 <= footprint x) (sb_mb sb) ->
  sbcompress_loop ms n eor sb = Some (sb', n', eor') ->
  grown (sb_mb sb) ms (sb_mb sb') /\ Forall (fun x => 0 <= footprint x) (sb_mb sb').
Proof.
  assert (forall ms0 ms1 m ms ms', grown ms1 ms ms' -> 0 <= footprint m -> (forall i, i ∈ ids ms1 -> i ∈ ids ms0 \/ i = m_id m) ->
    msum footprint ms1 <= msum footprint ms0 + footprint m -> grown ms0 (m :: ms) ms') as Hstep.
  { intros ms0 ms1 m ms2 ms' [G1 G2] Hm Hi Hf. split; [|cbn [msum]; lia]. intros i H%G1. unfold ids in *. cbn [map].
    rewrite elem_of_cons. destruct H as [H|H]; [apply Hi in H|]; tauto. }
  assert (forall id f ms, (forall m, m_id (f m) = m_id m /\ footprint (f m) = footprint m) ->
    Forall (fun x => 0 <= footprint x) ms -> Forall (fun x => 0 <= footprint x) (on_mbuf id f ms)) as Hon.
  { intros id f ms1 Hf H. unfold on_mbuf. apply Forall_map. eapply Forall_impl; [exact H|]. intros m Hm. cbn beta.
    destruct (_ =? _); [destruct (Hf m) as [_ ->]|]; exact Hm. }
  induction ms as [|m ms IH]; intros n eor sb sb' n' eor' Hms Hsb; cbn [sbcompress_loop].
  - intros [= <- _ _]. split; [|exact Hsb]. split; [tauto|cbn; lia].
  - inversion Hms as [|? ? Hm Hms']; subst.
    assert (forall n eor sb1, Forall (fun x => 0 <= footprint x) (sb_mb sb1) -> (forall i, i ∈ ids (sb_mb sb1) -> i ∈ ids (sb_mb sb) \/ i = m_id m) ->
      msum footprint (sb_mb sb1) <= msum footprint (sb_mb sb) + footprint m -> sbcompress_loop ms n eor sb1 = Some (sb', n', eor') ->
      grown (sb_mb sb) (m :: ms) (sb_mb sb') /\ Forall (fun x => 0 <= footprint x) (sb_mb sb')) as Hgo.
    { intros n1 eor1 sb1 F1 F2 F3 E. destruct (IH _ _ _ _ _ _ Hms' F1 E) as [G1 G2]. split; [|exact G2]. eapply Hstep; eauto. }
    destruct (_ && _); [destruct (bool_decide _); (apply Hgo; [exact Hsb|tauto|cbn [update sb_mb]; lia])|].
    assert (forall n eor, sbcompress_loop ms (Some (m_id m)) eor (sb_link m n sb) = Some (sb', n', eor') ->
      grown (sb_mb sb) (m :: ms) (sb_mb sb') /\ Forall (fun x => 0 <= footprint x) (sb_mb sb')) as Hlink.
    { intros n1 eor1. assert (sb_mb (sb_link m n1 sb) = match n1 with Some id => link_after id (m <| m_eor := false |>) (sb_mb sb) | None => [m <| m_eor := false |>] end) as Em
        by (unfold sb_link, sballoc; destruct n1, (is_ctl m), (m_ext m) as [[]|]; reflexivity).
      assert (footprint (m <| m_eor := false |>) = footprint m) as Ef by reflexivity.
      assert (0 <= msum footprint (sb_mb sb)) as Hs by (apply msum_nonneg; rewrite Forall_forall in Hsb; exact Hsb).
      apply Hgo; rewrite Em; destruct n1 as [id|].
      - destruct (grown_link id (m <| m_eor := false |>) (sb_mb sb) Hsb) as (_ & _ & K). apply K. rewrite Ef. exact Hm.
      - constructor; [rewrite Ef; exact Hm|constructor].
      - destruct (grown_link id (m <| m_eor := false |>) (sb_mb sb) Hsb) as (K & _). exact K.
      - intros i. unfold ids. cbn [map]. rewrite elem_of_cons, elem_of_nil. intros [H|H]; [right; exact H|destruct H].
      - destruct (grown_link id (m <| m_eor := false |>) (sb_mb sb) Hsb) as (_ & K & _). rewrite Ef in K. lia.
      - cbn [msum]. rewrite Ef. lia. }
    destruct n as [id|]; [|apply Hlink]. destruct (_ ← _; _) as [nm|]; [|discriminate]. destruct (_ && m_hole nm).
    { destruct (grown_on_mbuf id (fun x => x <| m_len := m_len x + m_len m |>) (sb_mb sb)) as [I1 I2]; [intros; split; reflexivity|].
      apply Hgo; cbn [update sb_mb]; [apply Hon; [intros; split; reflexivity|exact Hsb]|rewrite I1; tauto|rewrite I2; lia]. }
    destruct (_ && (_ <=? _)); [|apply Hlink]. destruct (_ <? _); [discriminate|].
    destruct (grown_on_mbuf id (buf_append m) (sb_mb sb)) as [I1 I2]; [intros; split; reflexivity|].
    destruct (is_ctl m); (apply Hgo; cbn [update sb_mb]; [apply Hon; [intros; split; reflexivity|exact Hsb]|rewrite I1; tauto|rewrite I2; lia]).
Qed.

Lemma sbappendstream_grown ms sb sb' :
  Forall wf_mbuf ms -> Forall wf_mbuf (sb_mb sb) -> sbappendstream_locked ms sb = Some sb' -> grown (sb_mb sb) ms (sb_mb sb').
Proof.
  intros H1 H2. unfold sbappendstream_locked, sbcompress. destruct (sbcompress_loop _ _ _ _) as [[[sb1 n] eor]|] eqn:E; [|discriminate].
  apply sbcompress_grown in E as [[G1 G2] _];
    [|eapply Forall_impl; [eassumption|]; intros; apply footprint_nonneg; assumption..].
  cbn [mbind option_bind]. destruct eor.
  - destruct n as [id|]; [|discriminate]. intros [= <-].
    destruct (grown_on_mbuf id (fun x => x <| m_eor := true |>) (sb_mb sb1)) as [I1 I2]; [intros; split; reflexivity|].
    split; cbn [update sb_mb]; [rewrite I1; exact G1|rewrite I2; exact G2].
  - intros [= <-]. split; assumption.
Qed.

(** ** The buffer as a byte stream *)

(** What TCP does with its send buffer: append a chain of mbufs, drop what was
    acknowledged, and read for transmission. *)
Inductive sbop :=
  | SbAppend (ms : list mbuf)
  | SbDrop (n : Z)
  | SbRead (off len : Z).

Definition sb_exec (o : sbop) (sb : sockbuf) : option (sockbuf * list Z) :=
  match o with
  | SbAppend ms => sb ← sbappendstream_locked ms sb; Some (sb, [])
  | SbDrop n => sb ← sbdrop_internal n sb; Some (sb, [])
  | SbRead off len =>
      '(sb, ms, moff) ← sbsndptr off len sb;
      bs ← m_copydata ms moff len; Some (sb, bs)
  end.

(** The specification: a queue of bytes. *)
Definition chain_bytes (ms : list mbuf) : list Z :=
  concat (map (fun m => take (Z.to_nat (m_len m)) (m_buf m)) ms).

Definition queue_exec (o : sbop) (q : list Z) : list Z * list Z :=
  match o with
  | SbAppend ms => (q ++ chain_bytes ms, [])
  | SbDrop n => (drop (Z.to_nat n) q, [])
  | SbRead off len => (q, take (Z.to_nat len) (drop (Z.to_nat off) q))
  end.

(** What the callers guarantee of an operation. *)
Definition allowed (o : sbop) (sb : sockbuf) : Prop :=
  match o with
  | SbAppend ms =>
      Forall wf_mbuf ms /\ Forall (fun m => m_hole m = false) ms /\ NoDup (ids (sb_mb sb) ++ ids ms) /\
      total (sb_mb sb) + total ms < 2 ^ 31 /\ msum footprint (sb_mb sb) + msum footprint ms < 2 ^ 32
  | SbDrop n => 0 <= n <= sb_cc sb
  | SbRead off len => 0 <= off /\ 0 < len /\ off + len <= sb_cc sb
  end.

Fixpoint sb_run (ops : list sbop) (sb : sockbuf) : option (sockbuf * list (list Z)) :=
  match ops with
  | [] => Some (sb, [])
  | o :: ops => '(sb, out) ← sb_exec o sb; '(sb, outs) ← sb_run ops sb; Some (sb, out :: outs)
  end.

Fixpoint queue_run (ops : list sbop) (q : list Z) : list Z * list (list Z) :=
  match ops with
  | [] => (q, [])
  | o :: ops => let '(q, out) := queue_exec o q in let '(q, outs) := queue_run ops q in (q, out :: outs)
  end.

Fixpoint admissible (ops : list sbop) (sb : sockbuf) : Prop :=
  match ops with
  | [] => True
  | o :: ops => allowed o sb /\ forall sb' out, sb_exec o sb = Some (sb', out) -> admissible ops sb'
  end.

(** The buffer [sb] holds the bytes [q]. *)
Definition holds (q : list Z) (sb : sockbuf) : Prop := sb_ok sb /\ contents (sb_mb sb) = Some <$> q.

Lemma contents_solid ms : Forall (fun m => m_hole m = false) ms -> contents ms = Some <$> chain_bytes ms.
Proof.
  induction 1 as [|m ms Hm _ IH]; [reflexivity|]. unfold chain_bytes in *. cbn [map concat].
  rewrite contents_cons, IH, fmap_app. unfold cells. rewrite Hm. reflexivity.
Qed.

Lemma holds_seam q sb : holds q sb -> match last (sb_mb sb) with Some x => m_hole x = false | None => True end.
Proof.
  intros [Hok Hc]. destruct (last_snoc_or_nil (sb_mb sb)) as [->|(C & x & E)]; [exact I|]. rewrite E, last_snoc.
  destruct (m_hole x) eqn:Eh; [exfalso|reflexivity]. pose proof (so_wf sb Hok) as Hw. rewrite E in Hw, Hc.
  apply Forall_app in Hw as [_ Hw]. inversion Hw as [|? ? (H1 & H2 & _) _]; subst. rewrite Eh in H2.
  assert (None ∈ Some <$> q) as Hn.
  { rewrite <- Hc, contents_app, contents_cons. unfold cells. rewrite Eh. apply elem_of_app. right. apply elem_of_app. left.
    apply elem_of_replicate. split; [reflexivity|lia]. }
  apply list_elem_of_fmap in Hn as (? & ? & _). discriminate.
Qed.

Lemma zeroed_some (q : list Z) : zeroed <$> (Some <$> q) = q.
Proof. rewrite <- list_fmap_compose, (list_fmap_ext (zeroed ∘ Some) id _ (fun _ _ _ => eq_refl)). apply list_fmap_id. Qed.

Lemma sb_exec_refines o sb q :
  holds q sb -> allowed o sb ->
  exists sb', sb_exec o sb = Some (sb', snd (queue_exec o q)) /\ holds (fst (queue_exec o q)) sb'.
Proof.
  intros H A. pose proof H as [Hok Hc]. destruct o as [ms|n|off len]; cbn [sb_exec queue_exec fst snd allowed] in *.
  - destruct A as (A1 & A2 & A3 & A4 & A5).
    destruct (sbappendstream_spec ms sb Hok) as (sb' & -> & K1 & K2 & _).
    { repeat split; auto. apply (holds_seam q), H. }
    exists sb'. split; [reflexivity|]. split; [exact K1|]. rewrite K2, Hc, contents_solid, fmap_app by exact A2. reflexivity.
  - destruct (sbdrop_spec sb n Hok A) as (sb' & -> & K1 & K2 & _). exists sb'. split; [reflexivity|]. split; [exact K1|].
    rewrite K2, Hc. symmetry. apply fmap_drop.
  - destruct A as (A1 & A2 & A3).
    destruct (sbsndptr_spec sb off len Hok A1 A2 A3) as (sb' & ms & moff & -> & K1 & K2 & _ & K3 & K4 & K5 & K6 & K7).
    cbn [mbind option_bind]. rewrite m_copydata_spec by (assumption || lia). cbn [mbind option_bind].
    specialize (K7 0%nat). rewrite !Nat.add_0_r in K7. rewrite K7, Hc, <- fmap_drop, <- fmap_take, zeroed_some.
    exists sb'. split; [reflexivity|]. split; [exact K1|]. rewrite K2. exact Hc.
Qed.

(** C22: the socket buffer implements a byte queue.  However appends, drops and reads
    follow each other, every operation succeeds, each read returns the bytes the
    queue has at that offset (although it starts from the cached send pointer),
    and afterwards the buffer holds what the queue holds: the coalescing of
    sbcompress, the cached pointer and the counters never show. *)
Theorem sockbuf_refines_queue ops sb q :
  holds q sb -> admissible ops sb ->
  exists sb', sb_run ops sb = Some (sb', snd (queue_run ops q)) /\
    holds (fst (queue_run ops q)) sb' /\ sb_cc sb' = Z.of_nat (length (fst (queue_run ops q))).
Proof.
  revert sb q. induction ops as [|o ops IH]; intros sb q H A.
  - exists sb. split; [reflexivity|]. split; [exact H|]. destruct H as [Hok Hc].
    rewrite (sb_cc_total sb Hok), <- length_contents, Hc, length_fmap by apply Hok. reflexivity.
  - destruct A as [A1 A2]. destruct (sb_exec_refines o sb q H A1) as (sb1 & E & H1).
    destruct (IH sb1 _ H1 (A2 _ _ E)) as (sb' & E' & H').
    cbn [sb_run queue_run]. rewrite E. cbn [mbind option_bind]. rewrite E'. cbn [mbind option_bind].
    destruct (queue_exec o q) as [q1 out]. cbn [fst snd] in *. destruct (queue_run ops q1) as [q' outs].
    exists sb'. split; [reflexivity|exact H'].
Qed.

(** Data appended behind a hole is lost: with a hole at the end of the buffer,
    sbcompress adds the length of the next mbuf to the hole and frees the mbuf
    without looking whether it is a hole too, so the reader is told the bytes
    were never seen. *)
Theorem sbappendstream_hole_swallows sb C h m :
  sb_ok sb -> sb_mb sb = C ++ [h] -> m_hole h = true -> m_eor h = false -> m_rdonly h = false ->
  has_flag (sb_flags sb) SB_NOCOALESCE = false ->
  m_type m = m_type h -> m_eor m = false -> 0 < m_len m <= INT_MAX - m_len h ->
  exists sb', sbappendstream_locked [m] sb = Some sb' /\
    contents (sb_mb sb') = contents (sb_mb sb) ++ replicate (Z.to_nat (m_len m)) None.
Proof.
  intros Hok E Hh He Hr Hf Ht Hm Hl. pose proof (so_ids sb Hok) as Hn. rewrite E in Hn. apply ids_split in Hn as Nx.
  assert (sb_mbtail sb = Some (m_id h)) as Et
    by (rewrite (so_tail sb Hok), E; unfold ids; rewrite map_app; cbn [map]; apply last_snoc).
  pose proof (so_wf sb Hok) as Hw. rewrite E in Hw. apply Forall_app in Hw as [_ Hw].
  inversion Hw as [|? ? (W1 & W2 & _) _]; subst. rewrite Hh in W2. destruct W2 as [W2 W3].
  unfold sbappendstream_locked, sbcompress. rewrite Et. cbn [sbcompress_loop]. rewrite Hm. cbn [orb mbind option_bind].
  assert (find_mbuf (m_id h) (sb_mb sb) = Some h) as -> by (unfold find_mbuf; rewrite E, chain_from_split by exact Nx; reflexivity).
  destruct (Z.eqb_spec (m_len m) 0); [lia|]. cbn [andb].
  assert (can_merge sb m h = true) as ->.
  { unfold can_merge, M_WRITABLE, M_TRAILINGSPACE. rewrite He, Hr, Hf, W2, Hh, Ht, Z.eqb_refl. cbn.
    rewrite andb_true_r. apply Z.leb_le. lia. }
  rewrite Hh. cbn [andb mbind option_bind]. eexists. split; [reflexivity|]. cbn [update sb_mb]. rewrite E, on_mbuf_last by exact Nx.
  rewrite !contents_app, !contents_cons, <- app_assoc. f_equal. unfold cells at 1 2. cbn [update m_hole m_len]. rewrite Hh.
  rewrite !app_nil_r, <- replicate_add. f_equal. lia.
Qed.

(** ** Concrete buffers *)

Definition empty_sb : sockbuf := mk_sockbuf [] None None None 0 0 65536 0 0 0 262144 0 2048 0 0.
Definition data_mbuf (id : Z) (bs : list Z) (room : nat) : mbuf :=
  mk_mbuf id (bs ++ replicate room 0) (Z.of_nat (length bs)) MT_DATA false false false None.
Definition hole_mbuf (id len : Z) : mbuf := mk_mbuf id [] len MT_DATA true false false None.

Lemma empty_sb_holds : holds [] empty_sb.
Proof.
  split; [|reflexivity]. split; try reflexivity; try constructor; reflexivity.
Qed.

Definition example_ops : list sbop :=
  [SbAppend [data_mbuf 1 [1; 2; 3] 4; data_mbuf 2 [4; 5] 0; data_mbuf 3 [6; 7; 8; 9] 0];
   SbRead 4 3; SbDrop 2; SbRead 3 4; SbRead 1 2].

Lemma sockbuf_refines_queue_witness :
  admissible example_ops empty_sb /\
  exists sb', sb_run example_ops empty_sb = Some (sb', [[]; [5; 6; 7]; []; [6; 7; 8; 9]; [4; 5]]) /\
    holds [3; 4; 5; 6; 7; 8; 9] sb'.
Proof.
  assert (admissible example_ops empty_sb) as A.
  { split; [|intros sb out E; vm_compute in E; injection E as <- <-].
    - split; [repeat (constructor; [vm_compute; repeat split; congruence|]); constructor|].
      split; [repeat constructor|]. split; [apply (bool_decide_unpack _); vm_compute; exact I|]. split; reflexivity.
    - do 4 (split; [vm_compute; repeat split; congruence|intros ? ? E; vm_compute in E; injection E as <- <-]). exact I. }
  split; [exact A|]. destruct (sockbuf_refines_queue example_ops empty_sb [] empty_sb_holds A) as (sb' & E & H & _).
  exists sb'. split; [exact E|exact H].
Defined.

(** A passive receive buffer: a hole of ten bytes, then the segment after it. *)
Lemma sbappendstream_hole_swallows_witness :
  exists sb sb', sbappendstream_locked [hole_mbuf 1 10] empty_sb = Some sb /\
    sbappendstream_locked [data_mbuf 2 [65; 66; 67] 0] sb = Some sb' /\
    contents (sb_mb sb') = replicate 13 None.
Proof.
  eexists. destruct (sbappendstream_hole_swallows
    (mk_sockbuf [hole_mbuf 1 10] (Some 1) (Some 1) None 0 10 65536 256 1 0 262144 0 2048 0 0) []
    (hole_mbuf 1 10) (data_mbuf 2 [65; 66; 67] 0)) as (sb' & E & C).
  1-9: try reflexivity; try (vm_compute; split; congruence).
  - split; try reflexivity; try (apply (bool_decide_unpack _); vm_compute; exact I).
    + constructor; [|constructor]. vm_compute. repeat split; congruence.
    + split; reflexivity.
  - exists sb'. split; [reflexivity|]. split; [exact E|exact C].
Defined.
End Sockbuf.
