(* ===== verification/TcpReass.v ===== *)
(** * TCP segment reassembly

    sys/netinet/tcp_reass.c: the per-connection queue of out-of-order
    segments, with the age queue and the hole delivery that passive sockets
    (PASSIVE_INET) add to it. *)

From S2P Require Import Prelude TcpSeq Callout.

Module Reass.

(** ** Data *)

(** What is appended to a socket buffer: data bytes, or a hole of a passive
    stream ([m_gethole]). *)
Inductive rmbuf :=
  | M_DATA (bs : list Z)
  | M_HOLE (len : Z).

(** struct sockbuf as tcp_reass.c uses it: the stream, [SBS_CANTRCVMORE],
    [sb_hiwat], and how often the reader was woken. *)
Record sockbuf := mk_sockbuf {
  sb_stream : list rmbuf;
  sb_cantrcvmore : bool;
  sb_hiwat : Z;
  sb_wakeups : Z }.

#[export] Instance eta_sockbuf : Eta sockbuf := fun r =>
  mk_sockbuf (sb_stream r) (sb_cantrcvmore r) (sb_hiwat r) (sb_wakeups r).

(** struct tseg_qent, with the header fields its [tqe_th] points to.
    [tqe_id] is the entry's address: the zone item it was allocated from, or
    [TQS], the temporary on tcp_reass's stack. *)
Record tseg_qent := mk_tqe {
  tqe_id : Z;
  th_seq : Z;
  th_flags : Z;
  tqe_len : Z;
  tqe_m : list Z;
  tqe_ticks : Z }.

#[export] Instance eta_tqe : Eta tseg_qent := fun r =>
  mk_tqe (tqe_id r) (th_seq r) (th_flags r) (tqe_len r) (tqe_m r) (tqe_ticks r).

Definition TQS : Z := 0.

(** The TCP statistics the file counts. *)
Record rstat := mk_rstat {
  tcp_reass_overflows : Z;
  tcps_rcvmemdrop : Z;
  tcps_rcvduppack : Z;
  tcps_rcvdupbyte : Z;
  tcps_rcvoopack : Z;
  tcps_rcvoobyte : Z }.

#[export] Instance eta_rstat : Eta rstat := fun r =>
  mk_rstat (tcp_reass_overflows r) (tcps_rcvmemdrop r) (tcps_rcvduppack r)
    (tcps_rcvdupbyte r) (tcps_rcvoopack r) (tcps_rcvoobyte r).

(** The fields of struct tcpcb, inpcb and socket that reassembly touches, and
    the reassembly zone: the addresses of its free items.  [t_segageq] holds
    addresses, as the TAILQ does; [t_segq] holds the entries themselves. *)
Record tcpcb := mk_tcpcb {
  t_segq : list tseg_qent;
  t_segageq : list Z;
  t_segqlen : Z;
  t_state : Z;
  rcv_nxt : Z;
  t_maxseg : Z;
  t_rcvoopack : Z;
  t_starttime : Z;
  t_reassdl : Z;
  tt_reassdl : callout;
  inp_passive : bool;
  so_rcv : sockbuf;
  tcp_reass_zone : list Z;
  stat : rstat }.

#[export] Instance eta_tcpcb : Eta tcpcb := fun r =>
  mk_tcpcb (t_segq r) (t_segageq r) (t_segqlen r) (t_state r) (rcv_nxt r) (t_maxseg r)
    (t_rcvoopack r) (t_starttime r) (t_reassdl r) (tt_reassdl r) (inp_passive r)
    (so_rcv r) (tcp_reass_zone r) (stat r).

(** The kernel variables [ticks] and [tcp_reassdl], the reassembly timer's
    function, and what a read of an entry already given back to the zone
    returns ([stale], indexed by address). *)
Record env := mk_env {
  ticks : Z;
  tcp_reassdl : Z;
  tcp_timer_reassdl_fn : Z;
  stale_ticks : Z -> Z }.

(** ** Zone, queues and socket buffer *)

Definition uma_zalloc (tp : tcpcb) : option Z * tcpcb :=
  match tcp_reass_zone tp with
  | [] => (None, tp)
  | i :: zone => (Some i, tp <| tcp_reass_zone := zone |>)
  end.
Definition uma_zfree (i : Z) (tp : tcpcb) : tcpcb :=
  tp <| tcp_reass_zone := i :: tcp_reass_zone tp |>.

Definition bump_segqlen (n : Z) (tp : tcpcb) : tcpcb := tp <| t_segqlen := t_segqlen tp + n |>.

Definition sbappendstream_locked (m : rmbuf) (sb : sockbuf) : sockbuf :=
  sb <| sb_stream := sb_stream sb ++ [m] |>.
Definition sorwakeup (sb : sockbuf) : sockbuf := sb <| sb_wakeups := sb_wakeups sb + 1 |>.
Definition socantrcvmore (sb : sockbuf) : sockbuf :=
  sorwakeup (sb <| sb_cantrcvmore := true |>).

(** [TAILQ_REMOVE] from the age queue. *)
Fixpoint ageq_remove (i : Z) (l : list Z) : list Z :=
  match l with
  | [] => []
  | j :: l => if j =? i then l else j :: ageq_remove i l
  end.

(** The entry at an address, while it is queued. *)
Fixpoint find_tqe (i : Z) (l : list tseg_qent) : option tseg_qent :=
  match l with
  | [] => None
  | q :: l => if tqe_id q =? i then Some q else find_tqe i l
  end.

Definition TP_REASSDL (e : env) (tp : tcpcb) : Z :=
  if t_reassdl tp =? 0 then u32 (tcp_reassdl e) else t_reassdl tp.

(** [tcp_timer_activate(tp, TT_REASSDL, delta)] and [tcp_timer_active]. *)
Definition tcp_timer_activate (e : env) (delta : Z) (tp : tcpcb) : tcpcb :=
  if delta =? 0 then tp <| tt_reassdl := callout_disarm (tt_reassdl tp) |>
  else tp <| tt_reassdl :=
         callout_arm (ticks e) delta (Some (tcp_timer_reassdl_fn e)) 0 (tt_reassdl tp) |>.
Definition tcp_timer_active (tp : tcpcb) : bool := callout_active (tt_reassdl tp).

(** ** Operations *)

Definition tcp_reass_zone_change (nmbclusters : Z) : Z := nmbclusters / 16.

(** [LIST_FIRST]/[LIST_REMOVE] until the queue is empty. *)
Fixpoint flush_loop (q : list tseg_qent) (tp : tcpcb) : tcpcb :=
  match q with
  | [] => tp
  | qe :: q => flush_loop q (bump_segqlen (-1) (uma_zfree (tqe_id qe) (tp <| t_segq := q |>)))
  end.
Definition tcp_reass_flush (tp : tcpcb) : tcpcb := flush_loop (t_segq tp) tp.

Definition tqe_read_ticks (e : env) (tp : tcpcb) (i : Z) : Z :=
  match find_tqe i (t_segq tp) with
  | Some q => tqe_ticks q
  | None => stale_ticks e i
  end.

(** [delta < TP_REASSDL(tp)] compares an [int] with a [u_int]. *)
Definition tcp_reass_next_hole_deadline (e : env) (tp : tcpcb) : Z :=
  match t_segageq tp with
  | q :: _ =>
      let delta := s32 (ticks e - tqe_read_ticks e tp q) in
      if u32 delta <? TP_REASSDL e tp then s32 (TP_REASSDL e tp - delta) else 1
  | [] => 0
  end.

(** *** tcp_reass_deliver_holes *)

(** The furthest entry whose deadline has expired ([p]), by address. *)
Definition expired (e : env) (tp : tcpcb) (q : tseg_qent) : bool :=
  let delta := s32 (ticks e - tqe_ticks q) in
  negb (u32 delta <? TP_REASSDL e tp).

Fixpoint furthest_expired (e : env) (tp : tcpcb) (l : list tseg_qent) (p : option Z) : option Z :=
  match l with
  | [] => p
  | q :: l => furthest_expired e tp l (if expired e tp q then Some (tqe_id q) else p)
  end.

(** The switch on [t_state] when a FIN is delivered. *)
Definition fin_state (e : env) (tp : tcpcb) : tcpcb :=
  if t_state tp =? TCPS_SYN_RECEIVED then
    tp <| t_starttime := u32 (ticks e) |> <| t_state := TCPS_CLOSE_WAIT |>
  else if t_state tp =? TCPS_ESTABLISHED then tp <| t_state := TCPS_CLOSE_WAIT |>
  else if t_state tp =? TCPS_FIN_WAIT_1 then tp <| t_state := TCPS_CLOSING |>
  else tp.

(** One iteration of the delivery loop, on the first entry [q] of the queue;
    [rest] is the queue after [LIST_REMOVE]. *)
Definition deliver_hole_step (e : env) (q : tseg_qent) (rest : list tseg_qent) (tp : tcpcb)
  : tcpcb :=
  let hole_size := s32 (th_seq q - rcv_nxt tp) in
  let tp :=
    if negb (sb_cantrcvmore (so_rcv tp)) && negb (hole_size =? 0)
    then tp <| so_rcv := sbappendstream_locked (M_HOLE hole_size) (so_rcv tp) |>
    else tp in
  let tp := tp <| rcv_nxt := u32 (th_seq q + tqe_len q) |>
               <| t_segq := rest |>
               <| t_segageq := ageq_remove (tqe_id q) (t_segageq tp) |> in
  let tp :=
    if sb_cantrcvmore (so_rcv tp) then tp
    else tp <| so_rcv := sbappendstream_locked (M_DATA (tqe_m q)) (so_rcv tp) |> in
  let tp :=
    if has_flag (th_flags q) TH_FIN then
      fin_state e (tp <| so_rcv := socantrcvmore (so_rcv tp) |>
                      <| rcv_nxt := u32 (rcv_nxt tp + 1) |>)
    else tp in
  uma_zfree (tqe_id q) (bump_segqlen (-1) tp).

Fixpoint deliver_holes_loop (e : env) (p : Z) (contiguous : bool) (l : list tseg_qent)
  (tp : tcpcb) : tcpcb :=
  match l with
  | [] => tp
  | q :: rest =>
      if contiguous && negb (th_seq q =? rcv_nxt tp) then tp
      else deliver_holes_loop e p (contiguous || (tqe_id q =? p)) rest
             (deliver_hole_step e q rest tp)
  end.

Definition tcp_reass_deliver_holes (e : env) (tp : tcpcb) : tcpcb :=
  match furthest_expired e tp (t_segq tp) None with
  | None => tp
  | Some p =>
      let tp := deliver_holes_loop e p false (t_segq tp) tp in
      let tp := tcp_timer_activate e (u32 (tcp_reass_next_hole_deadline e tp)) tp in
      tp <| so_rcv := sorwakeup (so_rcv tp) |>
  end.

(** *** tcp_reass *)

(** Queue limit and allocation of the queue entry.  [inl]: the segment is
    dropped.  [inr (te, hole, tp)]: the entry's address and
    [deliver_leading_hole]. *)
Definition reass_missing (seq : Z) (tp : tcpcb) : bool :=
  negb (seq =? rcv_nxt tp) || negb (TCPS_HAVEESTABLISHED (t_state tp)).

Definition reass_drop (tp : tcpcb) : tcpcb :=
  tp <| stat := (stat tp) <| tcps_rcvmemdrop := tcps_rcvmemdrop (stat tp) + 1 |> |>.

(** The queue limit: [t_segqlen >= so_rcv.sb_hiwat / t_maxseg + 1]. *)
Definition reass_over (seq : Z) (tp : tcpcb) : bool :=
  reass_missing seq tp &&
  negb (u32 (t_segqlen tp) <? u32 (sb_hiwat (so_rcv tp) / t_maxseg tp + 1)).

Definition count_overflow (over : bool) (tp : tcpcb) : tcpcb :=
  if over then
    tp <| stat := (stat tp) <| tcp_reass_overflows := tcp_reass_overflows (stat tp) + 1 |> |>
  else tp.

Definition reass_admit (seq : Z) (tp : tcpcb) : tcpcb + (Z * bool * tcpcb) :=
  let over := reass_over seq tp in
  let tp := count_overflow over tp in
  if over && negb (inp_passive tp) then inl (reass_drop tp)
  else
    match uma_zalloc tp with
    | (Some i, tp) => inr (i, over, bump_segqlen 1 tp)
    | (None, tp) =>
        if reass_missing seq tp && negb (inp_passive tp) then inl (reass_drop tp)
        else inr (TQS, over || reass_missing seq tp, bump_segqlen 1 tp)
    end.

(** [LIST_FOREACH ... if (SEQ_GT(q->tqe_th->th_seq, th->th_seq)) break; p = q]:
    the entries up to [p], and those from [q] on. *)
Fixpoint split_queue (seq : Z) (l : list tseg_qent) : list tseg_qent * list tseg_qent :=
  match l with
  | [] => ([], [])
  | q :: l' =>
      if SEQ_GT (th_seq q) seq then ([], l)
      else let '(pre, post) := split_queue seq l' in (q :: pre, post)
  end.

(** Trim or dequeue the entries [q ...] that the segment [seq, seq+tlen)
    overlaps.  The dequeued ones are given back to the zone. *)
Fixpoint trim_following (seq tlen : Z) (l : list tseg_qent) (tp : tcpcb)
  : list tseg_qent * tcpcb :=
  match l with
  | [] => ([], tp)
  | q :: l' =>
      let i := s32 (seq + tlen - th_seq q) in
      if i <=? 0 then (l, tp)
      else if i <? tqe_len q then
        (q <| th_seq := u32 (th_seq q + i) |>
           <| tqe_len := tqe_len q - i |>
           <| tqe_m := drop (Z.to_nat i) (tqe_m q) |> :: l', tp)
      else trim_following seq tlen l' (bump_segqlen (-1) (uma_zfree (tqe_id q) tp))
  end.

(** The incoming segment: header fields, [*tlenp] and data. *)
Record segment := mk_segment {
  s_seq : Z;
  s_flags : Z;
  s_len : Z;
  s_m : list Z }.

#[export] Instance eta_segment : Eta segment := fun r =>
  mk_segment (s_seq r) (s_flags r) (s_len r) (s_m r).

(** Place the segment in the queue under address [te].  The first component
    is [replace_tqs_in_list]; [kassert] is false when the KASSERT on the
    temporary entry fails. *)
Record placed := mk_placed {
  pl_tp : tcpcb;
  pl_seg : segment;
  pl_replace : bool;
  pl_kassert : bool }.

Definition reass_dup (te : Z) (seg : segment) (tp : tcpcb) : tcpcb :=
  let tp := tp <| stat := (stat tp)
      <| tcps_rcvduppack := tcps_rcvduppack (stat tp) + 1 |>
      <| tcps_rcvdupbyte := tcps_rcvdupbyte (stat tp) + s_len seg |> |> in
  let tp := if te =? TQS then tp else uma_zfree te tp in
  bump_segqlen (-1) tp.

Definition reass_link (e : env) (te : Z) (pre post : list tseg_qent) (seg : segment)
  (tp : tcpcb) : placed :=
  let tp := tp <| t_rcvoopack := t_rcvoopack tp + 1 |>
      <| stat := (stat tp)
           <| tcps_rcvoopack := tcps_rcvoopack (stat tp) + 1 |>
           <| tcps_rcvoobyte := tcps_rcvoobyte (stat tp) + s_len seg |> |> in
  let '(post, tp) := trim_following (s_seq seg) (s_len seg) post tp in
  let qe := mk_tqe te (s_seq seg) (s_flags seg) (s_len seg) (s_m seg) (ticks e) in
  let tp := tp <| t_segageq := t_segageq tp ++ [te] |>
               <| t_segq := pre ++ qe :: post |> in
  match pre with
  | [] => mk_placed tp seg false true
  | _ :: _ =>
      if inp_passive tp && (te =? TQS) then mk_placed tp seg true true
      else mk_placed tp seg false (negb (te =? TQS))
  end.

Definition reass_place (e : env) (te : Z) (seg : segment) (tp : tcpcb) : placed :=
  let '(pre, post) := split_queue (s_seq seg) (t_segq tp) in
  match list.last pre with
  | Some p =>
      let i := s32 (th_seq p + tqe_len p - s_seq seg) in
      if 0 <? i then
        if s_len seg <=? i then mk_placed (reass_dup te seg tp) seg false true
        else
          let seg := seg <| s_m := drop (Z.to_nat i) (s_m seg) |>
                         <| s_len := s_len seg - i |>
                         <| s_seq := u32 (s_seq seg + i) |> in
          reass_link e te pre post seg tp
      else reass_link e te pre post seg tp
  | None => reass_link e te pre post seg tp
  end.

(** The [do ... while] of the present phase.  [replace] and [reclaimed] are
    [replace_tqs_in_list] and [reclaimed_tqe]; the result carries them and the
    [TH_FIN] bit of the last entry delivered. *)
Definition present_step (q : tseg_qent) (rest : list tseg_qent) (replace : bool)
  (reclaimed : option Z) (tp : tcpcb) : bool * option Z * tcpcb :=
  let tp := tp <| rcv_nxt := u32 (rcv_nxt tp + tqe_len q) |>
               <| t_segq := rest |>
               <| t_segageq := ageq_remove (tqe_id q) (t_segageq tp) |> in
  let tp :=
    if sb_cantrcvmore (so_rcv tp) then tp
    else tp <| so_rcv := sbappendstream_locked (M_DATA (tqe_m q)) (so_rcv tp) |> in
  let '(replace, reclaimed, tp) :=
    if negb (tqe_id q =? TQS) then
      match replace, reclaimed with
      | true, None => (replace, Some (tqe_id q), tp)
      | _, _ => (replace, reclaimed, uma_zfree (tqe_id q) tp)
      end
    else (false, reclaimed, tp) in
  (replace, reclaimed, bump_segqlen (-1) tp).

Fixpoint present_loop (q : tseg_qent) (rest : list tseg_qent) (replace : bool)
  (reclaimed : option Z) (tp : tcpcb) : Z * bool * option Z * tcpcb :=
  let '(replace, reclaimed, tp) := present_step q rest replace reclaimed tp in
  match rest with
  | nq :: rest' =>
      if th_seq nq =? rcv_nxt tp then present_loop nq rest' replace reclaimed tp
      else (Z.land (th_flags q) TH_FIN, replace, reclaimed, tp)
  | [] => (Z.land (th_flags q) TH_FIN, replace, reclaimed, tp)
  end.

(** Put the reclaimed zone item in the place of the temporary entry, in both
    queues. *)
Definition replace_tqs (i : Z) (tp : tcpcb) : tcpcb :=
  tp <| t_segq := map (fun q => if tqe_id q =? TQS then q <| tqe_id := i |> else q) (t_segq tp) |>
     <| t_segageq := map (fun j => if j =? TQS then i else j) (t_segageq tp) |>.

Definition leading_hole (hole : bool) (q : tseg_qent) (tp : tcpcb) : tcpcb :=
  if hole then
    (if sb_cantrcvmore (so_rcv tp) then tp
     else tp <| so_rcv := sbappendstream_locked
                  (M_HOLE (s32 (th_seq q - rcv_nxt tp))) (so_rcv tp) |>)
      <| rcv_nxt := th_seq q |>
  else tp.

(** From the label [present] on: the returned flags and the state. *)
Definition reass_present (e : env) (hole replace : bool) (tp : tcpcb) : Z * tcpcb :=
  if negb (TCPS_HAVEESTABLISHED (t_state tp)) then (0, tp)
  else
    match t_segq tp with
    | [] => (0, tp)
    | q :: rest =>
        if negb (th_seq q =? rcv_nxt tp) && negb hole then
          (0, if inp_passive tp
              then tcp_timer_activate e (u32 (tcp_reass_next_hole_deadline e tp)) tp
              else tp)
        else
          let '(flags, replace, reclaimed, tp) :=
            present_loop q rest replace None (leading_hole hole q tp) in
          let tp := match replace, reclaimed with
                    | true, Some i => replace_tqs i tp
                    | _, _ => tp
                    end in
          let next_deadline := tcp_reass_next_hole_deadline e tp in
          let tp :=
            if negb (tcp_timer_active tp) || (next_deadline =? 0)
            then tcp_timer_activate e (u32 next_deadline) tp else tp in
          (flags, tp <| so_rcv := sorwakeup (so_rcv tp) |>)
    end.

(** The result of tcp_reass: the returned flags, [*tlenp], the header's
    sequence number as the caller sees it afterwards, and whether the
    KASSERT held. *)
Record result := mk_result {
  r_tp : tcpcb;
  r_flags : Z;
  r_tlen : Z;
  r_seq : Z;
  r_kassert : bool }.

(** [None] is the call with [th == NULL]. *)
Definition tcp_reass (e : env) (tp : tcpcb) (th : option segment) : result :=
  match th with
  | None =>
      let '(flags, tp) := reass_present e false false tp in mk_result tp flags 0 0 true
  | Some seg =>
      match reass_admit (s_seq seg) tp with
      | inl tp => mk_result tp 0 0 (s_seq seg) true
      | inr (te, hole, tp) =>
          let pl := reass_place e te seg tp in
          let '(flags, tp) := reass_present e hole (pl_replace pl) (pl_tp pl) in
          mk_result tp flags (s_len (pl_seg pl)) (s_seq (pl_seg pl)) (pl_kassert pl)
      end
  end.
(** ** Invariant and specification *)

Section Spec.
(** Sequence numbers are measured from [base], the receive edge when the
    operation starts; [S] is the byte stream the peer is sending, indexed by
    the distance from [base]. *)
Variables (base : Z) (S : Z -> Z).

Definition qstart (q : tseg_qent) : Z := off base (th_seq q).
Definition qend (q : tseg_qent) : Z := qstart q + tqe_len q.

Definition entry_ok (q : tseg_qent) : Prop :=
  0 <= th_seq q < 2 ^ 32 /\ 0 <= tqe_len q /\ qend q < 2 ^ 30 /\
  Z.of_nat (length (tqe_m q)) = tqe_len q.

(** [chain lo l]: the entries of [l] are in order, disjoint and not below
    [lo]. *)
Fixpoint chain (lo : Z) (l : list tseg_qent) : Prop :=
  match l with
  | [] => True
  | q :: l => lo <= qstart q /\ entry_ok q /\ chain (qend q) l
  end.

Fixpoint chain_end (lo : Z) (l : list tseg_qent) : Z :=
  match l with
  | [] => lo
  | q :: l => chain_end (qend q) l
  end.

(** The entry holds the bytes of the stream it claims to hold. *)
Definition agrees (q : tseg_qent) : Prop := tqe_m q = slice S (qstart q) (tqe_len q).

(** The stream positions an entry, or a queue, holds. *)
Definition covers (q : tseg_qent) (x : Z) : Prop := qstart q <= x < qend q.
Definition covered (l : list tseg_qent) (x : Z) : Prop := exists q, q ∈ l /\ covers q x.

Lemma covered_nil x : covered [] x <-> False.
Proof. split; [|tauto]. intros (q & Hq & _). apply not_elem_of_nil in Hq. exact Hq. Qed.
Lemma covered_cons q l x : covered (q :: l) x <-> covers q x \/ covered l x.
Proof.
  unfold covered. setoid_rewrite elem_of_cons. split.
  - intros (p & [->|Hp] & H); eauto.
  - intros [H|(p & Hp & H)]; eauto.
Qed.
Lemma covered_app l1 l2 x : covered (l1 ++ l2) x <-> covered l1 x \/ covered l2 x.
Proof.
  unfold covered. setoid_rewrite elem_of_app. split.
  - intros (p & [Hp|Hp] & H); eauto.
  - intros [(p & Hp & H)|(p & Hp & H)]; eauto.
Qed.

Lemma entry_ok_len q : entry_ok q -> 0 <= tqe_len q.
Proof. intros (_ & H & _). exact H. Qed.
Hint Resolve entry_ok_len : uinet.

Lemma chain_weaken lo lo' l : lo' <= lo -> chain lo l -> chain lo' l.
Proof. destruct l; simpl; [auto | intuition lia]. Qed.

Lemma chain_end_le lo l : chain lo l -> lo <= chain_end lo l.
Proof.
  revert lo. induction l as [|q l IH]; simpl; intros lo; [lia|].
  intros (H1 & H2 & H3). specialize (IH _ H3).
  pose proof (entry_ok_len _ H2). unfold qend in *. lia.
Qed.

Lemma chain_app lo l1 l2 :
  chain lo (l1 ++ l2) <-> chain lo l1 /\ chain (chain_end lo l1) l2.
Proof.
  revert lo. induction l1 as [|q l1 IH]; simpl; intros lo; [tauto|].
  rewrite IH. tauto.
Qed.

Lemma chain_end_snoc lo l q : chain_end lo (l ++ [q]) = qend q.
Proof. revert lo. induction l as [|p l IH]; simpl; intros lo; [reflexivity | apply IH]. Qed.

Lemma chain_covered_lo lo l x : chain lo l -> covered l x -> lo <= x.
Proof.
  revert lo. induction l as [|q l IH]; intros lo; rewrite ?covered_nil, ?covered_cons; [tauto|].
  simpl. intros (H1 & H2 & H3) [Hc|Hc].
  - unfold covers in Hc. lia.
  - specialize (IH _ H3 Hc). pose proof (entry_ok_len _ H2). unfold qend in IH. lia.
Qed.

Lemma chain_covered_hi lo l x : chain lo l -> covered l x -> x < chain_end lo l.
Proof.
  revert lo. induction l as [|q l IH]; intros lo; rewrite ?covered_nil, ?covered_cons; [tauto|].
  simpl. intros (H1 & H2 & H3) [Hc|Hc]; [|eauto].
  pose proof (chain_end_le _ _ H3). unfold covers in Hc. lia.
Qed.

Lemma chain_near lo l q : 0 <= lo -> chain lo l -> q ∈ l -> near base (th_seq q) /\ 0 <= qstart q.
Proof.
  revert lo. induction l as [|p l IH]; intros lo Hlo; simpl; [set_solver|].
  intros (H1 & H2 & H3) [->|Hin]%elem_of_cons.
  - pose proof (entry_ok_len _ H2). destruct H2 as (_ & _ & H2 & _).
    unfold near, qend, qstart in *. lia.
  - pose proof (entry_ok_len _ H2). apply (IH (qend p)); auto. unfold qend. lia.
Qed.

Lemma agrees_Forall_app l1 l2 :
  Forall agrees (l1 ++ l2) <-> Forall agrees l1 /\ Forall agrees l2.
Proof. apply Forall_app. Qed.

(** *** Finding the place of a segment *)

Lemma split_queue_spec lo seq l pre post :
  0 <= lo -> near base seq -> chain lo l ->
  split_queue seq l = (pre, post) ->
  l = pre ++ post /\ Forall (fun q => qstart q <= off base seq) pre /\
  match post with [] => True | q :: _ => off base seq < qstart q end.
Proof.
  revert lo pre post. induction l as [|q l IH]; intros lo pre post Hlo Hn Hc; simpl.
  - intros [= <- <-]. auto.
  - assert (Hq : near base (th_seq q)) by (eapply chain_near; eauto; set_solver).
    simpl in Hc. destruct Hc as (H1 & H2 & H3).
    rewrite (SEQ_GT_off base) by assumption. destruct (Z.ltb_spec (off base seq) (off base (th_seq q))).
    + intros [= <- <-]. simpl. auto.
    + destruct (split_queue seq l) as [pre' post'] eqn:E. intros [= <- <-].
      destruct (IH (qend q) pre' post') as (-> & Hpre & Hpost); auto.
      { pose proof (entry_ok_len _ H2). unfold qend. lia. }
Qed.

(** *** Trimming what follows the segment *)

Lemma s32_end seq tlen q :
  0 <= off base seq -> 0 <= tlen -> off base seq + tlen < 2 ^ 30 ->
  0 <= qstart q -> entry_ok q ->
  s32 (seq + tlen - th_seq q) = off base seq + tlen - qstart q.
Proof.
  intros H1 H2 H3 H4 H5. pose proof (entry_ok_len _ H5). destruct H5 as (_ & _ & H5 & _).
  assert (E : off base (seq + tlen) = off base seq + tlen) by (apply off_add; lia).
  rewrite (seq_sub_off base); unfold qend, qstart in *; lia.
Qed.

(** What trimming keeps of the control block. *)
Definition same_but_queue (tp tp' : tcpcb) : Prop :=
  rcv_nxt tp' = rcv_nxt tp /\ t_state tp' = t_state tp /\ so_rcv tp' = so_rcv tp /\
  inp_passive tp' = inp_passive tp /\ t_segageq tp' = t_segageq tp /\
  t_maxseg tp' = t_maxseg tp /\ tt_reassdl tp' = tt_reassdl tp /\ t_reassdl tp' = t_reassdl tp.

Lemma same_but_queue_trans a b c :
  same_but_queue a b -> same_but_queue b c -> same_but_queue a c.
Proof. unfold same_but_queue. intuition congruence. Qed.

Lemma trim_following_spec seq tlen lo l tp l' tp' :
  0 <= off base seq -> 0 <= tlen -> off base seq + tlen < 2 ^ 30 ->
  off base seq <= lo -> chain lo l -> Forall agrees l ->
  trim_following seq tlen l tp = (l', tp') ->
  chain (off base seq + tlen) l' /\ Forall agrees l' /\
  (forall x, covered l' x <-> covered l x /\ off base seq + tlen <= x) /\
  same_but_queue tp tp' /\
  t_segqlen tp' = t_segqlen tp + Z.of_nat (length l') - Z.of_nat (length l).
Proof.
  intros Hs Ht Hw. revert lo tp. induction l as [|q l IH]; intros lo tp Hlo Hc Ha; simpl.
  - intros [= <- <-]. repeat split; auto; try (rewrite covered_nil in *; tauto). simpl. lia.
  - simpl in Hc. destruct Hc as (H1 & H2 & H3). inversion_clear Ha as [|? ? A1 A2].
    pose proof (entry_ok_len _ H2) as Hl. set (hi := off base seq + tlen) in *.
    rewrite s32_end by (auto; lia). fold hi.
    destruct (Z.leb_spec (hi - qstart q) 0); [|destruct (Z.ltb_spec (hi - qstart q) (tqe_len q))].
    + intros [= <- <-].
      assert (Hch : chain hi (q :: l)) by (simpl; repeat split; auto; [lia | apply H2..]).
      split; [exact Hch|]. split; [constructor; assumption|].
      split; [|split; [repeat split | simpl; lia]].
      intros x. split; [|tauto]. intros Hx. split; [auto|]. eapply chain_covered_lo; eauto.
    + intros [= <- <-]. set (i := hi - qstart q) in *.
      assert (Hqs : qstart (q <| th_seq := u32 (th_seq q + i) |>
                   <| tqe_len := tqe_len q - i |>
                   <| tqe_m := drop (Z.to_nat i) (tqe_m q) |>) = hi).
      { unfold qstart. simpl. rewrite off_u32, off_add; unfold qend, qstart in *; [lia|].
        destruct H2 as (_ & _ & H2 & _). unfold qend, qstart in *. lia. }
      set (q' := q <| th_seq := _ |> <| tqe_len := _ |> <| tqe_m := _ |>) in *.
      assert (Hqe : qend q' = qend q) by (unfold qend at 1; rewrite Hqs; subst q' i; simpl; unfold qend; lia).
      assert (Hok : entry_ok q').
      { destruct H2 as (R1 & R2 & R3 & R4). unfold entry_ok. rewrite Hqe.
        subst q'; simpl. rewrite length_drop. pose proof (u32_range (th_seq q + i)). lia. }
      assert (Hch : chain hi (q' :: l)) by (simpl; rewrite Hqs, Hqe; auto with lia).
      assert (Hag : agrees q').
      { unfold agrees. rewrite Hqs. subst q'; simpl. rewrite A1, slice_drop by lia.
        f_equal. subst i. lia. }
      split; [exact Hch|]. split; [constructor; assumption|].
      split; [|split; [repeat split | simpl; lia]].
      intros x. rewrite !covered_cons. unfold covers. rewrite Hqs, Hqe.
      split; [|intuition lia].
      intros [Hx|Hx]; [intuition lia|]. split; [auto|].
      apply (chain_covered_lo _ _ _ H3) in Hx. unfold qend in Hx. lia.
    + intros E. apply (IH (qend q)) in E; auto; [|unfold qend; lia].
      destruct E as (E1 & E2 & E3 & E4 & E5). split; [auto|]. split; [auto|].
      split; [|split].
      * intros x. rewrite covered_cons, E3. unfold covers, qend in *. split; [tauto|].
        intros [[Hx|Hx] Hx']; [lia|tauto].
      * eapply same_but_queue_trans; [|exact E4]. repeat split.
      * simpl in *. lia.
Qed.

(** *** Placing the segment *)

Definition seg_ok (seg : segment) : Prop :=
  0 <= s_seq seg < 2 ^ 32 /\ 0 <= off base (s_seq seg) /\ 0 <= s_len seg /\
  off base (s_seq seg) + s_len seg < 2 ^ 30 /\
  s_m seg = slice S (off base (s_seq seg)) (s_len seg).

Definition in_seg (seg : segment) (x : Z) : Prop :=
  off base (s_seq seg) <= x < off base (s_seq seg) + s_len seg.

Definition queue_ok (tp : tcpcb) : Prop := chain 0 (t_segq tp) /\ Forall agrees (t_segq tp).

Definition same_socket (tp tp' : tcpcb) : Prop :=
  rcv_nxt tp' = rcv_nxt tp /\ t_state tp' = t_state tp /\ so_rcv tp' = so_rcv tp /\
  inp_passive tp' = inp_passive tp.

Lemma chain_hd lo lo' l :
  chain lo l -> match l with [] => True | q :: _ => lo' <= qstart q end -> chain lo' l.
Proof. destruct l; simpl; tauto. Qed.

Lemma seg_near seg : seg_ok seg -> near base (s_seq seg).
Proof. unfold seg_ok, near. lia. Qed.

Lemma reass_link_spec e te pre post seg tp pl :
  seg_ok seg -> chain 0 (pre ++ post) -> Forall agrees (pre ++ post) ->
  chain_end 0 pre <= off base (s_seq seg) ->
  match post with [] => True | q :: _ => off base (s_seq seg) <= qstart q end ->
  reass_link e te pre post seg tp = pl ->
  queue_ok (pl_tp pl) /\ same_socket tp (pl_tp pl) /\
  (forall x, covered (t_segq (pl_tp pl)) x <-> covered (pre ++ post) x \/ in_seg seg x) /\
  t_segqlen (pl_tp pl) =
    t_segqlen tp - 1 + Z.of_nat (length (t_segq (pl_tp pl))) - Z.of_nat (length (pre ++ post)) /\
  (pre = [] \/ inp_passive tp = true \/ te <> TQS -> pl_kassert pl = true).
Proof.
  intros Hseg Hc Ha Hpre Hpost <-. unfold reass_link. set (tp1 := tp <| t_rcvoopack := _ |> <| stat := _ |>).
  destruct (trim_following _ _ post tp1) as [post' tp2] eqn:E.
  apply chain_app in Hc as [Hc1 Hc2]. apply agrees_Forall_app in Ha as [Ha1 Ha2].
  pose proof Hseg as (R1 & R2 & R3 & R4 & R5).
  apply (trim_following_spec _ _ (off base (s_seq seg))) in E; auto; try lia;
    [|eapply chain_hd; eauto].
  destruct E as (T1 & T2 & T3 & T4 & T5).
  set (qe := mk_tqe te (s_seq seg) (s_flags seg) (s_len seg) (s_m seg) (ticks e)).
  set (tp3 := tp2 <| t_segageq := _ |> <| t_segq := _ |>).
  assert (Hqe : entry_ok qe).
  { unfold entry_ok, qend, qstart. simpl. rewrite R5, length_slice by lia. lia. }
  enough (G : queue_ok tp3 /\ same_socket tp tp3 /\
    (forall x, covered (t_segq tp3) x <-> covered (pre ++ post) x \/ in_seg seg x) /\
    t_segqlen tp3 = t_segqlen tp - 1 + Z.of_nat (length (t_segq tp3)) - Z.of_nat (length (pre ++ post))).
  { destruct T4 as (_ & _ & _ & Hp & _). change (inp_passive tp2 = inp_passive tp) in Hp.
    destruct pre as [|p0 pre0]; [simpl; tauto|]. cbn [inp_passive tp3 update].
    change (inp_passive tp3) with (inp_passive tp2). rewrite Hp.
    destruct (inp_passive tp) eqn:Ep; destruct (Z.eqb_spec te TQS); simpl; intuition (try congruence). }
  destruct T4 as (T41 & T42 & T43 & T44 & _).
  split; [|split; [repeat split; assumption|split]].
  - split; simpl; [|apply agrees_Forall_app; split; [|constructor]; auto; apply R5].
    apply chain_app. split; [exact Hc1|]. simpl.
    split; [exact Hpre|]. split; [exact Hqe|exact T1].
  - intros x. change (t_segq tp3) with (pre ++ qe :: post').
    rewrite !covered_app, covered_cons, T3. unfold covers, in_seg, qend, qstart. simpl.
    destruct (decide (off base (s_seq seg) + s_len seg <= x)); [intuition lia|].
    split; [intuition lia|]. intros [[Hx|Hx]|Hx]; [tauto| |tauto].
    pose proof (chain_covered_lo _ _ _ (chain_hd _ (off base (s_seq seg)) _ Hc2 Hpost) Hx).
    right. left. lia.
  - change (t_segq tp3) with (pre ++ qe :: post'). change (t_segqlen tp3) with (t_segqlen tp2).
    rewrite T5. change (t_segqlen tp1) with (t_segqlen tp). rewrite !length_app. simpl. lia.
Qed.

Lemma reass_place_spec e te seg tp pl :
  seg_ok seg -> queue_ok tp -> reass_place e te seg tp = pl ->
  queue_ok (pl_tp pl) /\ same_socket tp (pl_tp pl) /\
  (forall x, covered (t_segq (pl_tp pl)) x <-> covered (t_segq tp) x \/ in_seg seg x) /\
  t_segqlen (pl_tp pl) =
    t_segqlen tp - 1 + Z.of_nat (length (t_segq (pl_tp pl))) - Z.of_nat (length (t_segq tp)) /\
  (inp_passive tp = true \/ te <> TQS \/
   match t_segq tp with [] => True | q :: _ => off base (s_seq seg) < qstart q end ->
   pl_kassert pl = true).
Proof.
  intros Hseg [Hc Ha] <-. pose proof (seg_near _ Hseg) as Hn.
  unfold reass_place. destruct (split_queue (s_seq seg) (t_segq tp)) as [pre post] eqn:E.
  eapply split_queue_spec in E as (E & Hpre & Hpost); eauto; [|lia].
  rewrite E in Hc, Ha. rewrite E.
  assert (Hkpre : match pre ++ post with [] => True | q :: _ => off base (s_seq seg) < qstart q end
                  -> pre = []).
  { destruct pre as [|p0 pre0]; [auto|]. simpl. inversion_clear Hpre. lia. }
  assert (Hpost' : match post with [] => True | q :: _ => off base (s_seq seg) <= qstart q end).
  { destruct post; [auto|lia]. }
  destruct (last_snoc_or_nil pre) as [->|(pre' & p & ->)].
  - simpl list.last. cbv iota. pose proof Hseg as (_ & R2 & _).
    pose proof (reass_link_spec e te [] post seg tp _ Hseg Hc Ha R2 Hpost' eq_refl) as G.
    intuition.
  - rewrite last_snoc. apply Forall_app in Hpre as [Hpre Hp]. inversion_clear Hp.
    pose proof Hseg as (R1 & R2 & R3 & R4 & R5).
    assert (Hpin : p ∈ (pre' ++ [p]) ++ post) by set_solver.
    assert (Hok : entry_ok p).
    { rewrite <- app_assoc in Hc. apply chain_app in Hc as [_ Hc]. simpl in Hc. tauto. }
    pose proof (chain_near 0 _ _ ltac:(lia) Hc Hpin) as [Np Np'].
    pose proof (entry_ok_len _ Hok) as Lp.
    assert (Ei : s32 (th_seq p + tqe_len p - s_seq seg) = qend p - off base (s_seq seg)).
    { destruct Hok as (_ & _ & Hok & _). unfold qend, qstart in *.
      rewrite <- (off_add base (th_seq p) (tqe_len p)) by lia.
      apply seq_sub_off. rewrite off_add by lia. lia. }
    rewrite Ei. set (i := qend p - off base (s_seq seg)).
    destruct (Z.ltb_spec 0 i); [destruct (Z.leb_spec (s_len seg) i)|].
    + (* all of the data is already there *)
      assert (D : t_segq (reass_dup te seg tp) = t_segq tp /\ same_socket tp (reass_dup te seg tp) /\
                  t_segqlen (reass_dup te seg tp) = t_segqlen tp - 1).
      { unfold reass_dup. destruct (te =? TQS); repeat split. }
      destruct D as (D1 & D2 & D3). cbn [pl_tp pl_kassert]. unfold queue_ok. rewrite D1, D3, E.
      split; [auto|]. split; [auto|]. split; [|split; [lia|auto]].
      intros x. split; [auto|]. intros [Hx|Hx]; [auto|]. exists p. split; [set_solver|].
      unfold in_seg, covers, i in *. lia.
    + (* the front of the segment is trimmed *)
      set (seg' := seg <| s_m := _ |> <| s_len := _ |> <| s_seq := _ |>).
      assert (Eo : off base (s_seq seg') = qend p).
      { subst seg' i. simpl. rewrite off_u32, off_add; [lia|].
        destruct Hok as (_ & _ & Hok & _). unfold qend, qstart in *. lia. }
      assert (Hseg' : seg_ok seg').
      { unfold seg_ok. rewrite Eo. subst seg' i. simpl. rewrite R5, slice_drop by lia.
        pose proof (u32_range (s_seq seg + (qend p - off base (s_seq seg)))).
        repeat split; try lia. f_equal; lia. }
      assert (Hpost2 : match post with [] => True | q :: _ => off base (s_seq seg') <= qstart q end).
      { rewrite Eo. apply chain_app in Hc as [_ Hc]. rewrite chain_end_snoc in Hc.
        destruct post; [auto|]. simpl in Hc. tauto. }
      pose proof (reass_link_spec e te _ post seg' tp _ Hseg' Hc Ha
                    ltac:(rewrite chain_end_snoc, Eo; lia) Hpost2 eq_refl) as (G1 & G2 & G3 & G4 & G5).
      split; [auto|]. split; [auto|]. split; [|split; [exact G4|]].
      * intros x. rewrite G3. unfold in_seg. rewrite Eo. subst seg'. simpl. unfold i.
        split; [intros [?|?]; [auto|right; lia]|]. intros [Hx|Hx]; [auto|].
        destruct (decide (qend p <= x)); [right; lia|left].
        exists p. split; [set_solver|]. unfold covers. lia.
      * intros [?|[?|Hk]]; [tauto|tauto|]. apply G5. left. auto.
    + pose proof (reass_link_spec e te _ post seg tp _ Hseg Hc Ha
                    ltac:(rewrite chain_end_snoc; lia) Hpost' eq_refl) as (G1 & G2 & G3 & G4 & G5).
      split; [auto|]. split; [auto|]. split; [auto|]. split; [exact G4|].
      intros [?|[?|Hk]]; [tauto|tauto|]. apply G5. left. auto.
Qed.

(** *** Presenting data to the socket *)

(** [spans K a l b]: the chunks [l] are the stream from position [a] to
    position [b].  Data chunks hold the stream's bytes; a hole covers only
    positions outside [K], the bytes that have been received. *)
Fixpoint spans (K : Z -> Prop) (a : Z) (l : list rmbuf) (b : Z) : Prop :=
  match l with
  | [] => a = b
  | M_DATA bs :: l =>
      bs = slice S a (Z.of_nat (length bs)) /\ spans K (a + Z.of_nat (length bs)) l b
  | M_HOLE n :: l =>
      0 <= n /\ (forall x, a <= x < a + n -> ~ K x) /\ spans K (a + n) l b
  end.

Definition is_data (m : rmbuf) : Prop := match m with M_DATA _ => True | M_HOLE _ => False end.

Definition chunk_bytes (m : rmbuf) : list Z := match m with M_DATA bs => bs | M_HOLE _ => [] end.
Definition stream_bytes (l : list rmbuf) : list Z := concat (map chunk_bytes l).

Lemma spans_app K a l1 l2 b :
  spans K a (l1 ++ l2) b <-> exists c, spans K a l1 c /\ spans K c l2 b.
Proof.
  revert a. induction l1 as [|[bs|n] l1 IH]; intros a; simpl; [|rewrite IH..]; naive_solver.
Qed.

Lemma spans_le K a l b : spans K a l b -> a <= b.
Proof.
  revert a. induction l as [|[bs|n] l IH]; intros a; simpl; [lia|..].
  - intros [_ H%IH]. lia.
  - intros (H1 & _ & H2%IH). lia.
Qed.

Lemma spans_impl (K K' : Z -> Prop) a l b :
  (forall x, K' x -> K x) -> spans K a l b -> spans K' a l b.
Proof.
  intros HK. revert a. induction l as [|[bs|n] l IH]; intros a; simpl; [auto|naive_solver..].
Qed.

(** Without holes the chunks are the stream itself. *)
Lemma spans_data K a l b :
  Forall is_data l -> spans K a l b -> stream_bytes l = slice S a (b - a).
Proof.
  intros Hd. revert a. induction Hd as [|[bs|n] l Hx Hd IH]; intros a; simpl in *; try tauto.
  - intros ->. rewrite slice_nil by lia. reflexivity.
  - intros [H1 H2]. pose proof (spans_le _ _ _ _ H2). apply IH in H2.
    change (stream_bytes (M_DATA bs :: l)) with (bs ++ stream_bytes l).
    rewrite H2, H1 at 1. rewrite <- slice_app by lia. f_equal. lia.
Qed.

(** [delivered K data tp tp' a b]: from [tp] to [tp'] the socket buffer grew by
    the stream from [a] to [b], with [data] by data only. *)
Definition delivered (K : Z -> Prop) (data : Prop) (tp tp' : tcpcb) (a b : Z) : Prop :=
  exists chunks : list rmbuf, sb_stream (so_rcv tp') = sb_stream (so_rcv tp) ++ chunks /\
    (data -> Forall is_data chunks) /\ spans K a chunks b.

Lemma delivered_trans K (P : Prop) tp1 tp2 tp3 a b c :
  delivered K P tp1 tp2 a b -> delivered K P tp2 tp3 b c -> delivered K P tp1 tp3 a c.
Proof.
  intros (c1 & E1 & D1 & S1) (c2 & E2 & D2 & S2). exists (c1 ++ c2).
  rewrite E2, E1, <- app_assoc. split; [auto|]. split; [intros HP; apply Forall_app; auto|].
  apply spans_app. eauto.
Qed.

Lemma delivered_entry K P tp tp' q :
  entry_ok q -> agrees q ->
  so_rcv tp' = sbappendstream_locked (M_DATA (tqe_m q)) (so_rcv tp) ->
  delivered K P tp tp' (qstart q) (qend q).
Proof.
  intros (_ & _ & _ & Hl) Ha E. exists [M_DATA (tqe_m q)]. rewrite E. split; [reflexivity|].
  split; [repeat constructor|]. simpl. rewrite Hl. split; [exact Ha|reflexivity].
Qed.

Definition first_after (d : Z) (l : list tseg_qent) : Prop :=
  match l with [] => True | q :: _ => d < qstart q end.

Lemma present_step_spec q rest rep recl tp rep' recl' tp' :
  entry_ok q -> agrees q -> 0 <= qstart q -> qstart q = off base (rcv_nxt tp) ->
  sb_cantrcvmore (so_rcv tp) = false ->
  present_step q rest rep recl tp = (rep', recl', tp') ->
  off base (rcv_nxt tp') = qend q /\ 0 <= rcv_nxt tp' < 2 ^ 32 /\ t_segq tp' = rest /\
  so_rcv tp' = sbappendstream_locked (M_DATA (tqe_m q)) (so_rcv tp) /\
  t_state tp' = t_state tp /\ inp_passive tp' = inp_passive tp /\
  t_segqlen tp' = t_segqlen tp - 1.
Proof.
  intros Hok Ha Hq0 Hq Hcr. unfold present_step. cbn [so_rcv update]. rewrite Hcr.
  intros E.
  assert (G : rcv_nxt tp' = u32 (rcv_nxt tp + tqe_len q) /\ t_segq tp' = rest /\
    so_rcv tp' = sbappendstream_locked (M_DATA (tqe_m q)) (so_rcv tp) /\
    t_state tp' = t_state tp /\ inp_passive tp' = inp_passive tp /\ t_segqlen tp' = t_segqlen tp - 1).
  { destruct (negb _); [destruct rep, recl|]; injection E as <- <- <-; repeat split. }
  destruct G as (-> & -> & G). split; [|split; [apply u32_range|tauto]].
  rewrite off_u32, off_add, <- Hq; [reflexivity|].
  pose proof (entry_ok_len _ Hok). destruct Hok as (_ & _ & Hok & _). unfold qend in *. lia.
Qed.

Lemma present_loop_spec rest : forall q rep recl tp fl rep' recl' tp',
  chain (qstart q) (q :: rest) -> Forall agrees (q :: rest) -> 0 <= qstart q ->
  qstart q = off base (rcv_nxt tp) -> sb_cantrcvmore (so_rcv tp) = false ->
  present_loop q rest rep recl tp = (fl, rep', recl', tp') ->
  let d := off base (rcv_nxt tp') in
  (forall K P, delivered K P tp tp' (qstart q) d) /\ qstart q <= d < 2 ^ 30 /\ 0 <= rcv_nxt tp' < 2 ^ 32 /\
  chain d (t_segq tp') /\ Forall agrees (t_segq tp') /\ first_after d (t_segq tp') /\
  (forall x, covered (q :: rest) x <-> qstart q <= x < d \/ covered (t_segq tp') x) /\
  t_state tp' = t_state tp /\ inp_passive tp' = inp_passive tp /\
  sb_cantrcvmore (so_rcv tp') = false /\
  t_segqlen tp' = t_segqlen tp - 1 - Z.of_nat (length rest) + Z.of_nat (length (t_segq tp')).
Proof.
  induction rest as [|nq rest IH]; intros q rep recl tp fl rep' recl' tp' Hc Ha H0 Hq Hcr;
    cbn [present_loop];
    destruct (present_step q _ rep recl tp) as [[rep1 recl1] tp1] eqn:E1;
    pose proof Hc as (_ & Hok & Hc'); inversion_clear Ha as [|? ? A1 A2];
    pose proof (entry_ok_len _ Hok) as Hl;
    apply present_step_spec in E1 as (S1 & S2 & S3 & S4 & S5 & S6 & S7); auto;
    assert (Hqe : qend q < 2 ^ 30) by apply Hok.
  - intros [= <- <- <- <-]. rewrite S1, S3, S5, S6, S7.
    split; [|split; [unfold qend in *; lia|split; [exact S2|]]].
    + intros K P. apply delivered_entry; auto.
    + simpl. rewrite S4. repeat split; auto; try lia;
        rewrite ?covered_cons, ?covered_nil; unfold covers; tauto.
  - destruct (Z.eqb_spec (th_seq nq) (rcv_nxt tp1)) as [En|En].
    + intros E. assert (Hn : qstart nq = qend q) by (unfold qstart; rewrite En; exact S1).
      apply IH in E; auto; try (rewrite Hn; unfold qend; lia);
        [|rewrite Hn; exact Hc' | rewrite Hn, S1; reflexivity | rewrite S4; exact Hcr].
      destruct E as (D & E1 & E2 & E3 & E4 & E5 & E6 & E7 & E8 & E9 & E10).
      rewrite Hn in *. split; [|split; [unfold qend in *; lia|]].
      * intros K P. eapply delivered_trans; [|apply D]. apply delivered_entry; auto.
      * split; [auto|]. split; [auto|]. split; [auto|]. split; [auto|].
        split; [|split; [congruence|split; [congruence|split; [auto|rewrite E10, S7; simpl; lia]]]].
        intros x. rewrite covered_cons, E6. unfold covers, qend in *. intuition lia.
    + intros [= <- <- <- <-]. rewrite S1, S3, S5, S6, S7.
      split; [|split; [unfold qend in *; lia|split; [exact S2|]]].
      * intros K P. apply delivered_entry; auto.
      * split; [exact Hc'|]. split; [exact A2|].
        split; [|split; [intros x; rewrite covered_cons; unfold covers; tauto|]];
          [|rewrite S4; repeat split; auto; simpl; lia].
        simpl. destruct Hc' as (Hle & (Hr & _) & _). assert (qstart nq <> qend q); [|lia].
        rewrite <- S1. unfold qstart. intros Heq. apply off_eq in Heq.
        rewrite !u32_small in Heq by lia. contradiction.
Qed.

(** *** The present phase *)

Definition retag (i : Z) (q : tseg_qent) : tseg_qent :=
  if tqe_id q =? TQS then q <| tqe_id := i |> else q.

Lemma retag_same i q :
  qstart (retag i q) = qstart q /\ qend (retag i q) = qend q /\
  (entry_ok (retag i q) <-> entry_ok q) /\ (agrees (retag i q) <-> agrees q).
Proof.
  unfold retag. destruct (tqe_id q =? TQS); [|tauto].
  split; [reflexivity|]. split; [reflexivity|]. split; split; intros H; exact H.
Qed.

Lemma chain_retag i lo l : chain lo (map (retag i) l) <-> chain lo l.
Proof.
  revert lo. induction l as [|q l IH]; intros lo; simpl; [tauto|].
  destruct (retag_same i q) as (-> & -> & -> & _). rewrite IH. tauto.
Qed.

Lemma agrees_retag i l : Forall agrees (map (retag i) l) <-> Forall agrees l.
Proof.
  induction l as [|q l IH]; simpl; rewrite ?Forall_nil, ?Forall_cons; [tauto|].
  destruct (retag_same i q) as (_ & _ & _ & ->). rewrite IH. tauto.
Qed.

Lemma covered_retag i l x : covered (map (retag i) l) x <-> covered l x.
Proof.
  induction l as [|q l IH]; simpl; rewrite ?covered_nil, ?covered_cons; [tauto|].
  unfold covers. destruct (retag_same i q) as (-> & -> & _ & _). rewrite IH. tauto.
Qed.

Lemma first_after_retag i d l : first_after d (map (retag i) l) <-> first_after d l.
Proof. destruct l as [|q l]; simpl; [tauto|]. destruct (retag_same i q) as (-> & _). tauto. Qed.

(** What the present phase promises: everything up to the new receive edge
    [d] has been given to the socket, what was queued beyond it still is, and
    the next queued byte is not yet deliverable. *)
Definition presented (K : Z -> Prop) (data : Prop) (tp tp' : tcpcb) : Prop :=
  let d := off base (rcv_nxt tp') in
  delivered K data tp tp' 0 d /\ 0 <= d < 2 ^ 30 /\ 0 <= rcv_nxt tp' < 2 ^ 32 /\
  chain d (t_segq tp') /\ Forall agrees (t_segq tp') /\ first_after d (t_segq tp') /\
  (forall x, covered (t_segq tp) x <->
     (0 <= x < d /\ covered (t_segq tp) x) \/ covered (t_segq tp') x) /\
  (data -> forall x, 0 <= x < d -> covered (t_segq tp) x) /\
  t_state tp' = t_state tp /\ inp_passive tp' = inp_passive tp /\
  sb_cantrcvmore (so_rcv tp') = false /\
  t_segqlen tp' = t_segqlen tp - Z.of_nat (length (t_segq tp)) + Z.of_nat (length (t_segq tp')).

(** [presented] looks only at these fields of the final state. *)
Lemma presented_ext K P tp tp1 tp2 :
  presented K P tp tp1 ->
  rcv_nxt tp2 = rcv_nxt tp1 -> t_segq tp2 = t_segq tp1 -> t_state tp2 = t_state tp1 ->
  inp_passive tp2 = inp_passive tp1 -> t_segqlen tp2 = t_segqlen tp1 ->
  sb_stream (so_rcv tp2) = sb_stream (so_rcv tp1) ->
  sb_cantrcvmore (so_rcv tp2) = sb_cantrcvmore (so_rcv tp1) -> presented K P tp tp2.
Proof.
  unfold presented, delivered. intros H -> -> -> -> -> -> ->. exact H.
Qed.

Lemma presented_retag K P tp tp1 i :
  presented K P tp tp1 -> presented K P tp (replace_tqs i tp1).
Proof.
  unfold presented. intros (D & H1 & H2 & H3 & H4 & H5 & H6 & H7 & H).
  change (t_segq (replace_tqs i tp1)) with (map (retag i) (t_segq tp1)).
  rewrite chain_retag, agrees_retag, first_after_retag, length_map.
  repeat (split; [first [exact D | assumption]|]). split; [|split; assumption].
  intros x. rewrite covered_retag. apply H6.
Qed.

(** Nothing is delivered: the first entry is not at the receive edge. *)
Lemma presented_idle tp :
  base = rcv_nxt tp -> 0 <= base < 2 ^ 32 -> chain 0 (t_segq tp) -> Forall agrees (t_segq tp) ->
  sb_cantrcvmore (so_rcv tp) = false -> first_after 0 (t_segq tp) ->
  forall K P, presented K P tp tp.
Proof.
  intros Hb Hr Hc Ha Hcr Hf K P. unfold presented. rewrite <- Hb, off_refl.
  split; [exists []; rewrite app_nil_r; simpl; repeat split; auto|].
  repeat split; auto; try lia; intuition lia.
Qed.

Lemma presented_loop hole q rest rep tp fl rep' recl' tp' :
  base = rcv_nxt tp -> 0 <= base < 2 ^ 32 -> t_segq tp = q :: rest -> queue_ok tp ->
  sb_cantrcvmore (so_rcv tp) = false -> (hole = true \/ th_seq q = rcv_nxt tp) ->
  present_loop q rest rep None (leading_hole hole q tp) = (fl, rep', recl', tp') ->
  presented (covered (t_segq tp)) (hole = false) tp tp'.
Proof.
  intros Hb Hr Hq [Hc Ha] Hcr Hh E. rewrite Hq in Hc, Ha.
  assert (Hc' : chain (qstart q) (q :: rest)) by (simpl in *; intuition lia).
  pose proof Hc as (Hq0 & Hok & _). pose proof (entry_ok_len _ Hok) as Hl.
  assert (L : qstart q = off base (rcv_nxt (leading_hole hole q tp)) /\
    sb_cantrcvmore (so_rcv (leading_hole hole q tp)) = false /\
    delivered (covered (t_segq tp)) (hole = false) tp (leading_hole hole q tp) 0 (qstart q) /\
    t_state (leading_hole hole q tp) = t_state tp /\
    inp_passive (leading_hole hole q tp) = inp_passive tp /\
    t_segqlen (leading_hole hole q tp) = t_segqlen tp /\ (hole = false -> qstart q = 0)).
  { unfold leading_hole. rewrite Hcr. destruct hole.
    - repeat split; auto; [|discriminate]. exists [M_HOLE (qstart q)].
      split; [unfold qstart; rewrite Hb; reflexivity|]. split; [discriminate|].
      simpl. repeat split; auto. intros x Hx Hcv. rewrite Hq in Hcv.
      pose proof (chain_covered_lo _ _ _ Hc' Hcv). lia.
    - destruct Hh as [?|Hh]; [discriminate|]. unfold qstart. rewrite Hh, <- Hb, off_refl.
      repeat split; auto. exists []. rewrite app_nil_r. simpl. auto. }
  destruct L as (L1 & L2 & L3 & L4 & L5 & L6 & L7).
  apply present_loop_spec in E; auto.
  destruct E as (D & E1 & E2 & E3 & E4 & E5 & E6 & E7 & E8 & E9 & E10).
  unfold presented. rewrite Hq in *.
  split; [eapply delivered_trans; [exact L3|apply D]|]. split; [lia|].
  repeat (split; [assumption|]). split; [|split; [|repeat split; try congruence]].
  - intros x. pose proof (chain_covered_lo _ _ x Hc'). specialize (E6 x).
    rewrite E6 in *. intuition lia.
  - intros ->. rewrite L7 in * by reflexivity. intros x Hx. apply E6. auto.
  - rewrite E10, L6. simpl. lia.
Qed.

Lemma reass_present_spec e hole rep tp fl tp' :
  base = rcv_nxt tp -> 0 <= base < 2 ^ 32 -> queue_ok tp -> sb_cantrcvmore (so_rcv tp) = false ->
  TCPS_HAVEESTABLISHED (t_state tp) = true ->
  reass_present e hole rep tp = (fl, tp') ->
  presented (covered (t_segq tp)) (hole = false) tp tp'.
Proof.
  intros Hb Hr Hq Hcr Hst. unfold reass_present. rewrite Hst. cbn [negb].
  destruct (t_segq tp) as [|q rest] eqn:Eq.
  - intros [= <- <-]. apply presented_idle; rewrite ?Eq; simpl; auto.
  - destruct (_ && _) eqn:Ec.
    + apply andb_true_iff in Ec as [En _]. zbool.
      assert (Hi : forall K P, presented K P tp tp).
      { apply presented_idle; auto; try apply Hq. rewrite Eq. destruct Hq as [Hq _].
        rewrite Eq in Hq. simpl in *. destruct Hq as (Hge & (Hrq & _) & _).
        assert (qstart q <> 0); [|lia]. unfold qstart. rewrite <- (off_refl base).
        intros Heq. apply off_eq in Heq. rewrite !u32_small in Heq by lia. congruence. }
      intros [= <- <-]. destruct (inp_passive tp); [|apply Hi].
      unfold tcp_timer_activate. destruct (_ =? 0); (eapply presented_ext; [apply Hi|..]; reflexivity).
    + destruct (present_loop _ _ _ _ _) as [[[fl1 rep1] recl1] tp1] eqn:El.
      apply presented_loop in El; auto.
      2:{ destruct (Z.eqb_spec (th_seq q) (rcv_nxt tp)), hole; simpl in Ec; auto. }
      rewrite Eq in El. intros [= <- <-].
      set (tp2 := match rep1 with true => _ | false => _ end).
      assert (H2 : presented (covered (q :: rest)) (hole = false) tp tp2).
      { subst tp2. destruct rep1, recl1; auto. apply presented_retag, El. }
      destruct (_ || _); [unfold tcp_timer_activate; destruct (_ =? 0)|];
        (eapply presented_ext; [apply H2|..]; reflexivity).
Qed.
End Spec.

(** ** The connection invariant *)

(** [S] is the peer's byte stream and [R] the stream position of [rcv_nxt]:
    the queue is ordered, disjoint, above the receive edge and within a
    window of [2^30], holds bytes of [S], is counted by [t_segqlen], and on an
    established connection has nothing deliverable. *)
Definition reass_wf (S : Z -> Z) (R : Z) (tp : tcpcb) : Prop :=
  0 <= rcv_nxt tp < 2 ^ 32 /\
  queue_ok (rcv_nxt tp) (fun x => S (R + x)) tp /\
  t_segqlen tp = Z.of_nat (length (t_segq tp)) /\
  (TCPS_HAVEESTABLISHED (t_state tp) = true -> first_after (rcv_nxt tp) 0 (t_segq tp)).

(** The segment lies in the window and carries bytes of [S]. *)
Definition segment_ok (S : Z -> Z) (R : Z) (tp : tcpcb) (seg : segment) : Prop :=
  seg_ok (rcv_nxt tp) (fun x => S (R + x)) seg.

(** How far the receive edge moved. *)
Definition advance (tp tp' : tcpcb) : Z := off (rcv_nxt tp) (rcv_nxt tp').

Lemma qstart_rebase base base' d q :
  off base base' = d -> 0 <= d -> d <= qstart base q -> qend base q < 2 ^ 30 -> 0 <= tqe_len q ->
  qstart base' q = qstart base q - d.
Proof.
  unfold qend, qstart. intros H1 H2 H3 H4 H5. change (s32 (th_seq q - base') = off base (th_seq q) - d).
  rewrite (seq_sub_off base) by lia. lia.
Qed.

Lemma slice_shift (S : Z -> Z) R a n : slice (fun x => S (R + x)) a n = slice S (R + a) n.
Proof.
  unfold slice. rewrite <- (fmap_add_seqZ R a n).
  generalize (seqZ a n) as l. induction l as [|x l IH]; simpl; [reflexivity|]. f_equal. exact IH.
Qed.

Lemma chain_rebase (S : Z -> Z) R base base' d lo l :
  off base base' = d -> 0 <= d -> d <= lo -> chain base lo l ->
  Forall (agrees base (fun x => S (R + x))) l ->
  chain base' (lo - d) l /\ Forall (agrees base' (fun x => S (R + d + x))) l.
Proof.
  intros Hd H0. revert lo. induction l as [|q l IH]; intros lo Hlo; [simpl; auto|].
  cbn [chain]. intros (H1 & H2 & H3). rewrite !Forall_cons. intros [A1 A2].
  pose proof (entry_ok_len _ _ H2) as Hl. pose proof H2 as (E1 & E2 & E3 & E4).
  assert (Eq : qstart base' q = qstart base q - d) by (apply qstart_rebase; auto; lia).
  assert (Ee : qend base' q = qend base q - d) by (unfold qend; lia).
  destruct (IH (qend base q)) as [I1 I2]; auto; [unfold qend; lia|].
  rewrite Ee, Eq. split; [|split; [|exact I2]].
  - split; [lia|]. split; [|exact I1]. unfold entry_ok. rewrite Ee. repeat split; auto; lia.
  - unfold agrees in *. rewrite A1, !slice_shift, Eq. f_equal. lia.
Qed.

(** Admission: what it changes, and when it hands out the stack entry or asks
    for the leading hole. *)
Lemma reass_admit_inr seq tp te hole tp' :
  reass_admit seq tp = inr (te, hole, tp') ->
  t_segq tp' = t_segq tp /\ same_socket tp tp' /\ t_segqlen tp' = t_segqlen tp + 1 /\
  (hole = true -> inp_passive tp = true) /\
  (te = TQS -> In TQS (tcp_reass_zone tp) \/ inp_passive tp = true \/ reass_missing seq tp = false).
Proof.
  unfold reass_admit. set (over := reass_over seq tp). set (tp1 := count_overflow over tp).
  intros E. destruct (over && negb (inp_passive tp1)) eqn:E1; [discriminate|].
  assert (T : t_segq tp1 = t_segq tp /\ same_socket tp tp1 /\ t_segqlen tp1 = t_segqlen tp /\
    tcp_reass_zone tp1 = tcp_reass_zone tp /\ inp_passive tp1 = inp_passive tp /\
    reass_missing seq tp1 = reass_missing seq tp) by (subst tp1; destruct over; repeat split).
  destruct T as (T1 & T2 & T3 & T4 & E2 & T5). rewrite E2 in E1.
  unfold uma_zalloc in E. rewrite T4 in E. destruct (tcp_reass_zone tp) as [|i zone] eqn:Ez.
  - rewrite T5, E2 in E. destruct (reass_missing seq tp && negb (inp_passive tp)) eqn:E3; [discriminate|].
    injection E as <- <- <-. cbn [t_segq t_segqlen bump_segqlen update]. rewrite T1, T3.
    repeat split; try (apply T2); auto;
      destruct over, (inp_passive tp), (reass_missing seq tp); simpl in *; auto; discriminate.
  - injection E as <- <- <-. cbn [t_segq t_segqlen bump_segqlen update]. rewrite T1, T3.
    repeat split; try (apply T2); auto.
    + destruct over, (inp_passive tp); simpl in *; auto; discriminate.
    + intros ->. left. left. reflexivity.
Qed.

Lemma reass_admit_inl seq tp tp' :
  reass_admit seq tp = inl tp' ->
  inp_passive tp = false /\ reass_missing seq tp = true /\
  (exists st, tp' = tp <| stat := st |>) /\ tcps_rcvmemdrop (stat tp') = tcps_rcvmemdrop (stat tp) + 1.
Proof.
  unfold reass_admit. set (over := reass_over seq tp). intros E.
  destruct over eqn:Eo.
  - unfold uma_zalloc in E. cbn in E. destruct (inp_passive tp) eqn:Ep; cbn in E.
    + destruct (tcp_reass_zone tp); [|discriminate E]. cbn in E. rewrite Ep in E. cbn in E.
      rewrite andb_false_r in E. discriminate.
    + injection E as <-. unfold over, reass_over in Eo. apply andb_true_iff in Eo as [Eo _]. repeat split; auto.
      eexists. reflexivity.
  - cbn in E. unfold uma_zalloc in E. destruct (tcp_reass_zone tp); [|discriminate E].
    destruct (_ && _) eqn:E3; [|discriminate]. apply andb_true_iff in E3 as [E3 E4].
    injection E as <-. apply negb_true_iff in E4. repeat split; auto. eexists. reflexivity.
Qed.

(** A segment that is admitted is placed and then presented. *)
Lemma tcp_reass_admitted e S R tp seg te hole tp1 :
  reass_wf S R tp -> segment_ok S R tp seg ->
  TCPS_HAVEESTABLISHED (t_state tp) = true -> sb_cantrcvmore (so_rcv tp) = false ->
  reass_admit (s_seq seg) tp = inr (te, hole, tp1) ->
  let r := tcp_reass e tp (Some seg) in
  let tp2 := pl_tp (reass_place e te seg tp1) in
  presented (rcv_nxt tp) (fun x => S (R + x)) (covered (rcv_nxt tp) (t_segq tp2)) (hole = false)
    tp2 (r_tp r) /\
  (forall x, covered (rcv_nxt tp) (t_segq tp2) x <->
     covered (rcv_nxt tp) (t_segq tp) x \/ in_seg (rcv_nxt tp) seg x) /\
  so_rcv tp2 = so_rcv tp /\ t_state tp2 = t_state tp /\ inp_passive tp2 = inp_passive tp /\
  t_segqlen tp2 = Z.of_nat (length (t_segq tp2)) /\
  (inp_passive tp = true \/ te <> TQS \/
   match t_segq tp with [] => True
   | q :: _ => off (rcv_nxt tp) (s_seq seg) < qstart (rcv_nxt tp) q end -> r_kassert r = true).
Proof.
  intros (Hr & Hq & Hlen & _) Hseg Hst Hcr Ead r tp2.
  pose proof (reass_admit_inr _ _ _ _ _ Ead) as (A1 & (A2 & A3 & A4 & A5) & A6 & _).
  assert (Hq1 : queue_ok (rcv_nxt tp) (fun x => S (R + x)) tp1) by (unfold queue_ok; rewrite A1; exact Hq).
  pose proof (reass_place_spec _ _ e te seg tp1 _ Hseg Hq1 eq_refl)
    as (P1 & (P2 & P3 & P4 & P5) & P6 & P7 & P8).
  fold tp2 in P1, P2, P3, P4, P5, P6, P7. rewrite A1 in P6, P7, P8. rewrite A5 in P8.
  assert (Er : exists fl, reass_present e hole (pl_replace (reass_place e te seg tp1)) tp2 = (fl, r_tp r) /\
    r_kassert r = pl_kassert (reass_place e te seg tp1)).
  { subst r tp2. unfold tcp_reass. rewrite Ead. destruct (reass_present _ _ _ _) as [fl tp'].
    exists fl. split; reflexivity. }
  destruct Er as (fl & Er & Ek).
  split; [|split; [exact P6|]].
  - eapply reass_present_spec; eauto; congruence.
  - repeat split; try congruence; [rewrite P7, A6, Hlen; lia|]. rewrite Ek. exact P8.
Qed.

(** The invariant is re-established after the present phase. *)
Lemma presented_wf S R K P tp tp2 tp' :
  presented (rcv_nxt tp) (fun x => S (R + x)) K P tp2 tp' ->
  t_segqlen tp2 = Z.of_nat (length (t_segq tp2)) ->
  reass_wf S (R + advance tp tp') tp'.
Proof.
  unfold presented, reass_wf, advance. set (d := off (rcv_nxt tp) (rcv_nxt tp')).
  intros (D & H1 & H2 & H3 & H4 & H5 & _ & _ & _ & _ & _ & H6) Hl.
  destruct (chain_rebase S R (rcv_nxt tp) (rcv_nxt tp') d d (t_segq tp')) as [C1 C2]; auto; try lia.
  split; [exact H2|]. split; [split; [rewrite Z.sub_diag in C1; exact C1|exact C2]|].
  split; [lia|]. intros _. destruct (t_segq tp') as [|q l]; [exact I|].
  cbn [first_after chain] in *. destruct H3 as (H31 & H32 & _).
  pose proof (entry_ok_len _ _ H32). rewrite (qstart_rebase (rcv_nxt tp) _ d); auto; try lia.
  apply H32.
Qed.

(** Dropping a segment changes nothing but the statistics. *)
Lemma tcp_reass_dropped e tp seg tp1 :
  reass_admit (s_seq seg) tp = inl tp1 ->
  tcp_reass e tp (Some seg) = mk_result tp1 0 0 (s_seq seg) true.
Proof. intros E. unfold tcp_reass. rewrite E. reflexivity. Qed.

(** What an active, established connection delivers: the next bytes of the
    stream, all of them received before or in this segment. *)
Lemma tcp_reass_delivers e S R tp seg :
  reass_wf S R tp -> segment_ok S R tp seg ->
  TCPS_HAVEESTABLISHED (t_state tp) = true -> sb_cantrcvmore (so_rcv tp) = false -> inp_passive tp = false ->
  let tp' := r_tp (tcp_reass e tp (Some seg)) in
  let d := advance tp tp' in
  0 <= d < 2 ^ 30 /\ reass_wf S (R + d) tp' /\ t_state tp' = t_state tp /\ (s_seq seg = rcv_nxt tp -> s_len seg <= d) /\
  (forall x, 0 <= x < d -> covered (rcv_nxt tp) (t_segq tp) x \/ in_seg (rcv_nxt tp) seg x) /\
  exists chunks : list rmbuf,
    sb_stream (so_rcv tp') = sb_stream (so_rcv tp) ++ chunks /\
    Forall is_data chunks /\ stream_bytes chunks = slice S R d.
Proof.
  intros Hwf Hseg Hst Hcr Hp tp' d.
  destruct (reass_admit (s_seq seg) tp) as [tp1|[[te hole] tp1]] eqn:Ead.
  - subst d tp'. rewrite (tcp_reass_dropped _ _ _ _ Ead). cbn [r_tp].
    apply reass_admit_inl in Ead as (_ & Hm & (st & ->) & _).
    unfold advance. cbn [rcv_nxt so_rcv update]. rewrite off_refl, Z.add_0_r.
    split; [lia|]. split; [exact Hwf|]. split; [reflexivity|].
    split; [intros Hs; unfold reass_missing in Hm; rewrite Hs, Z.eqb_refl, Hst in Hm; discriminate|]. split; [lia|]. exists []. rewrite app_nil_r, slice_nil by lia. auto.
  - pose proof (tcp_reass_admitted e S R tp seg te hole tp1 Hwf Hseg Hst Hcr Ead)
      as (P & Hc & Es & Et & _ & El & _).
    apply reass_admit_inr in Ead as (_ & _ & _ & Hh & _).
    assert (hole = false) as -> by (destruct hole; [rewrite Hh in Hp; congruence|reflexivity]).
    pose proof (presented_wf _ _ _ _ _ _ _ P El) as Hwf'.
    destruct P as ((ch & E1 & E2 & E3) & H1 & _ & Q1 & _ & Q2 & Q3 & H2 & H3 & _).
    subst d tp'. split; [apply H1|]. split; [exact Hwf'|]. split; [congruence|]. split.
    { intros Hs. unfold advance. destruct (Z.le_gt_cases (s_len seg) (off (rcv_nxt tp) (rcv_nxt (r_tp (tcp_reass e tp (Some seg)))))) as [X|X]; [exact X|exfalso].
      set (d := off (rcv_nxt tp) _) in *. assert (in_seg (rcv_nxt tp) seg d) as Y by (unfold in_seg; rewrite Hs, off_refl; lia).
      assert (covered (rcv_nxt tp) (t_segq (r_tp (tcp_reass e tp (Some seg)))) d) as Z0.
      { destruct (proj1 (Q3 d)) as [[? _]|?]; [apply Hc; right; exact Y|lia|assumption]. }
      apply (chain_covered_lo (rcv_nxt tp) S (d + 1)) in Z0; [lia|]. eapply (chain_hd (rcv_nxt tp) S); [exact Q1|]. destruct (t_segq (r_tp _)); [exact I|]. cbn in Q2. lia. }
    split; [intros x Hx; apply Hc; exact (H2 eq_refl x Hx)|]. exists ch. rewrite E1, Es.
    split; [reflexivity|]. split; [auto|].
    apply spans_data in E3; auto. rewrite E3, slice_shift. f_equal; unfold advance; lia.
Qed.

(** C23: on an active, established connection tcp_reass delivers to the socket
    exactly the next bytes of the peer's stream, in order, without gap or
    repetition and never as a hole, and re-establishes the queue invariant,
    whatever the arrival order, overlap or duplication of segments, and across
    wrap-around of the sequence space. *)
Theorem tcp_reass_in_order e S R tp seg :
  reass_wf S R tp -> segment_ok S R tp seg ->
  TCPS_HAVEESTABLISHED (t_state tp) = true -> sb_cantrcvmore (so_rcv tp) = false ->
  inp_passive tp = false ->
  let tp' := r_tp (tcp_reass e tp (Some seg)) in
  let d := advance tp tp' in
  0 <= d /\ reass_wf S (R + d) tp' /\
  exists chunks : list rmbuf,
    sb_stream (so_rcv tp') = sb_stream (so_rcv tp) ++ chunks /\
    Forall is_data chunks /\ stream_bytes chunks = slice S R d.
Proof.
  intros Hwf Hseg Hst Hcr Hp. destruct (tcp_reass_delivers e S R tp seg Hwf Hseg Hst Hcr Hp) as ([H1 _] & H2 & _ & _ & _ & H3). auto.
Qed.

(** C24: no received byte is lost on an active connection.  Either the segment
    is dropped for lack of queue space, which is counted, leaves the
    connection as it was, reports zero bytes taken and never happens to the
    segment the receiver is waiting for; or every byte of the queue and of the
    segment is afterwards delivered or still queued, and nothing else is. *)
Theorem tcp_reass_no_loss e S R tp seg :
  reass_wf S R tp -> segment_ok S R tp seg ->
  TCPS_HAVEESTABLISHED (t_state tp) = true -> sb_cantrcvmore (so_rcv tp) = false ->
  inp_passive tp = false ->
  let r := tcp_reass e tp (Some seg) in
  let d := advance tp (r_tp r) in
  (r_tlen r = 0 /\ s_seq seg <> rcv_nxt tp /\ (exists st, r_tp r = tp <| stat := st |>) /\
   tcps_rcvmemdrop (stat (r_tp r)) = tcps_rcvmemdrop (stat tp) + 1) \/
  (forall x, covered (rcv_nxt tp) (t_segq tp) x \/ in_seg (rcv_nxt tp) seg x <->
     0 <= x < d \/ covered (rcv_nxt tp) (t_segq (r_tp r)) x).
Proof.
  intros Hwf Hseg Hst Hcr Hp r d.
  destruct (reass_admit (s_seq seg) tp) as [tp1|[[te hole] tp1]] eqn:Ead.
  - left. subst r. rewrite (tcp_reass_dropped _ _ _ _ Ead). cbn [r_tp r_tlen].
    apply reass_admit_inl in Ead as (_ & Hm & Hst' & Hd). unfold reass_missing in Hm.
    rewrite Hst, orb_false_r in Hm. zbool. auto.
  - right. pose proof (tcp_reass_admitted e S R tp seg te hole tp1 Hwf Hseg Hst Hcr Ead)
      as (P & Hc & _).
    apply reass_admit_inr in Ead as (_ & _ & _ & Hh & _).
    assert (hole = false) as -> by (destruct hole; [rewrite Hh in Hp; congruence|reflexivity]).
    destruct P as (_ & _ & _ & _ & _ & _ & H1 & H2 & _). specialize (H2 eq_refl).
    intros x. specialize (H1 x). specialize (H2 x). specialize (Hc x). rewrite Hc in *.
    unfold d, advance. fold r in H1, H2. tauto.
Qed.


(** The KASSERT that the temporary stack entry is only ever the first
    element of the queue of an active connection cannot fail. *)
Theorem tcp_reass_kassert e S R tp seg :
  reass_wf S R tp -> segment_ok S R tp seg ->
  TCPS_HAVEESTABLISHED (t_state tp) = true -> sb_cantrcvmore (so_rcv tp) = false ->
  ~ In TQS (tcp_reass_zone tp) ->
  r_kassert (tcp_reass e tp (Some seg)) = true.
Proof.
  intros Hwf Hseg Hst Hcr Hz.
  destruct (reass_admit (s_seq seg) tp) as [tp1|[[te hole] tp1]] eqn:Ead.
  - rewrite (tcp_reass_dropped _ _ _ _ Ead). reflexivity.
  - pose proof (tcp_reass_admitted e S R tp seg te hole tp1 Hwf Hseg Hst Hcr Ead)
      as (_ & _ & _ & _ & _ & _ & Hk).
    apply reass_admit_inr in Ead as (_ & _ & _ & _ & Ht). apply Hk.
    destruct (Z.eq_dec te TQS) as [->|?]; [|auto].
    destruct (Ht eq_refl) as [?|[?|Hm]]; [contradiction|auto|].
    right. right. unfold reass_missing in Hm. zbool.
    destruct Hwf as (_ & _ & _ & Hf). specialize (Hf Hst).
    destruct (t_segq tp); [exact I|]. replace (s_seq seg) with (rcv_nxt tp) by lia.
    rewrite off_refl. exact Hf.
Qed.

(** ** Delivery of holes when the deadline expires *)

Section Holes.
Variables (base : Z) (S : Z -> Z) (e : env).

Definition no_fin (q : tseg_qent) : Prop := has_flag (th_flags q) TH_FIN = false.

Lemma deliver_hole_step_spec q rest K tp :
  let lo := off base (rcv_nxt tp) in
  chain base lo (q :: rest) -> agrees base S q -> no_fin q -> 0 <= lo ->
  sb_cantrcvmore (so_rcv tp) = false ->
  (forall x, lo <= x -> K x -> covered base (q :: rest) x) ->
  let tp' := deliver_hole_step e q rest tp in
  off base (rcv_nxt tp') = qend base q /\ 0 <= rcv_nxt tp' < 2 ^ 32 /\ t_segq tp' = rest /\
  delivered S K False tp tp' lo (qend base q) /\
  t_state tp' = t_state tp /\ sb_cantrcvmore (so_rcv tp') = false /\
  t_segqlen tp' = t_segqlen tp - 1.
Proof.
  intros lo (Hlo & Hok & Hc) Ha Hf H0 Hcr HK. pose proof (entry_ok_len _ _ Hok) as Hl.
  pose proof Hok as (R1 & R2 & R3 & R4).
  assert (Eh : s32 (th_seq q - rcv_nxt tp) = qstart base q - lo).
  { apply seq_sub_off. unfold lo, qend, qstart in *. lia. }
  set (hole := if qstart base q - lo =? 0 then [] else [M_HOLE (qstart base q - lo)]).
  assert (Hs : spans S K lo (hole ++ [M_DATA (tqe_m q)]) (qend base q)).
  { apply spans_app. exists (qstart base q). split.
    - subst hole. destruct (Z.eqb_spec (qstart base q - lo) 0); simpl; [lia|].
      split; [lia|]. split; [|lia]. intros x Hx Kx.
      assert (Hcov : covered base (q :: rest) x) by (apply HK; [lia|exact Kx]).
      assert (Hcq : chain base (qstart base q) (q :: rest)) by (simpl; auto with lia).
      pose proof (chain_covered_lo base S _ _ _ Hcq Hcov). lia.
    - simpl. rewrite R4. split; [exact Ha|reflexivity]. }
  intros tp'.
  assert (G : rcv_nxt tp' = u32 (th_seq q + tqe_len q) /\ t_segq tp' = rest /\
    sb_stream (so_rcv tp') = sb_stream (so_rcv tp) ++ hole ++ [M_DATA (tqe_m q)] /\
    t_state tp' = t_state tp /\ sb_cantrcvmore (so_rcv tp') = false /\
    t_segqlen tp' = t_segqlen tp - 1).
  { subst tp' hole. unfold deliver_hole_step. rewrite Hf, Eh, Hcr.
    destruct (qstart base q - lo =? 0); cbn; rewrite Hcr; cbn; rewrite <- ?app_assoc;
      repeat split; auto. }
  destruct G as (G1 & G2 & G3 & G4 & G5 & G6). rewrite G1, G2.
  split; [rewrite off_u32; apply off_add; unfold qend, qstart in *; lia|].
  split; [apply u32_range|]. split; [reflexivity|]. split; [|auto].
  exists (hole ++ [M_DATA (tqe_m q)]). split; [exact G3|]. split; [tauto|exact Hs].
Qed.

Lemma deliver_holes_loop_spec p K l : forall contiguous tp,
  let lo := off base (rcv_nxt tp) in
  t_segq tp = l -> chain base lo l -> Forall (agrees base S) l -> Forall no_fin l -> 0 <= lo < 2 ^ 30 ->
  0 <= rcv_nxt tp < 2 ^ 32 -> sb_cantrcvmore (so_rcv tp) = false ->
  (forall x, lo <= x -> K x -> covered base l x) ->
  let tp' := deliver_holes_loop e p contiguous l tp in
  let d := off base (rcv_nxt tp') in
  delivered S K False tp tp' lo d /\ d < 2 ^ 30 /\ 0 <= rcv_nxt tp' < 2 ^ 32 /\
  chain base d (t_segq tp') /\ Forall (agrees base S) (t_segq tp') /\ first_after base d (t_segq tp') /\
  (exists pre, l = pre ++ t_segq tp' /\ (contiguous = true \/ In p (map tqe_id pre) \/ t_segq tp' = [])) /\
  t_state tp' = t_state tp /\ sb_cantrcvmore (so_rcv tp') = false /\
  t_segqlen tp' = t_segqlen tp - Z.of_nat (length l) + Z.of_nat (length (t_segq tp')).
Proof.
  induction l as [|q rest IH]; intros cont tp lo Hl Hc Ha Hf H0 Hr Hcr HK.
  - cbn. rewrite Hl. split; [exists []; rewrite app_nil_r; simpl; auto|]. fold lo.
    split; [lia|]. split; [exact Hr|]. split; [exact I|]. split; [constructor|].
    split; [exact I|]. split; [exists []; auto|]. simpl. repeat split; auto. lia.
  - cbn [deliver_holes_loop]. destruct (cont && negb (th_seq q =? rcv_nxt tp)) eqn:Eb.
    + apply andb_true_iff in Eb as [-> Eb]. zbool. rewrite Hl. fold lo.
      split; [exists []; rewrite app_nil_r; simpl; auto|]. split; [lia|]. split; [exact Hr|].
      split; [exact Hc|]. split; [exact Ha|]. split.
      { simpl in *. destruct Hc as (Hle & (Hrq & _) & _). assert (qstart base q <> lo); [|lia].
        unfold qstart, lo. intros Heq. apply off_eq in Heq. rewrite !u32_small in Heq by lia. congruence. }
      split; [exists []; auto|]. repeat split; auto. lia.
    + inversion_clear Ha as [|? ? A1 A2]. inversion_clear Hf as [|? ? F1 F2].
      pose proof (deliver_hole_step_spec q rest K tp Hc A1 F1 (proj1 H0) Hcr HK)
        as (S1 & S2 & S3 & S4 & S5 & S6 & S7).
      set (tp1 := deliver_hole_step e q rest tp) in *.
      destruct Hc as (Hlo & Hok & Hc). pose proof (entry_ok_len _ _ Hok) as Hlen.
      specialize (IH (cont || (tqe_id q =? p)) tp1 S3). rewrite S1 in IH.
      destruct IH as (I1 & I2 & I3 & I4 & I5 & I6 & (pre & I7 & I7') & I8 & I9 & I10); auto.
      { pose proof Hok as (_ & _ & Hb & _). unfold qend in *. lia. }
      { intros x Hx Kx. unfold qend in Hx.
        assert (Hcov : covered base (q :: rest) x) by (apply HK; [unfold lo; lia|exact Kx]).
        apply covered_cons in Hcov as [Hcov|?]; [|auto]. unfold covers, qend in Hcov. lia. }
      split; [eapply delivered_trans; eauto|]. repeat (split; [assumption|]).
      split; [|split; [congruence|split; [exact I9|rewrite I10, S7; simpl; lia]]].
      exists (q :: pre). split; [simpl; congruence|]. destruct cont; [auto|]. right. simpl in *.
      destruct (Z.eqb_spec (tqe_id q) p); [left; left; congruence|]. destruct I7' as [?|[?|?]]; auto.
      discriminate.
Qed.

Lemma furthest_expired_spec tp l p0 p :
  furthest_expired e tp l p0 = Some p ->
  (Forall (fun q => expired e tp q = false) l /\ p0 = Some p) \/
  exists l1 q l2, l = l1 ++ q :: l2 /\ tqe_id q = p /\ Forall (fun q => expired e tp q = false) l2.
Proof.
  revert p0. induction l as [|q l IH]; intros p0; simpl; [intros ->; left; auto|].
  intros H. apply IH in H as [(H1 & H2)|(l1 & q' & l2 & -> & H1 & H2)].
  - destruct (expired e tp q) eqn:Ex; [|left; auto].
    right. exists [], q, l. injection H2 as H2. auto.
  - right. exists (q :: l1), q', l2. auto.
Qed.

Lemma furthest_expired_None tp l p0 :
  furthest_expired e tp l p0 = None -> p0 = None /\ Forall (fun q => expired e tp q = false) l.
Proof.
  revert p0. induction l as [|q l IH]; intros p0; simpl; [auto|].
  intros H. apply IH in H as [H1 H2]. destruct (expired e tp q) eqn:Ex; [discriminate|auto].
Qed.
End Holes.

Lemma suffix_after_id p pre l1 q (l l2 : list tseg_qent) :
  NoDup (map tqe_id (pre ++ l)) -> pre ++ l = l1 ++ q :: l2 -> tqe_id q = p ->
  In p (map tqe_id pre) -> exists l2', l2 = l2' ++ l.
Proof.
  intros Hnd E Hq Hin. rewrite map_app, NoDup_app in Hnd. destruct Hnd as (_ & Hnd & _).
  assert (Hout : ~ In q l).
  { intros Hl. apply (Hnd p); rewrite list_elem_of_In; [exact Hin|]. rewrite <- Hq. apply in_map, Hl. }
  apply app_eq_inv in E as [(k & -> & E)|(k & -> & ->)].
  - destruct k as [|q' k]; simpl in E; [|injection E as _ ->; eauto].
    destruct Hout. rewrite <- E. left. reflexivity.
  - destruct Hout. apply in_app_iff. right. left. reflexivity.
Qed.


(** ** Flushing the queue *)

Lemma flush_loop_spec q tp :
  let tp' := flush_loop q tp in
  t_segqlen tp' = t_segqlen tp - Z.of_nat (length q) /\
  (q <> [] -> t_segq tp' = []) /\ (q = [] -> tp' = tp) /\
  tcp_reass_zone tp' = rev (map tqe_id q) ++ tcp_reass_zone tp /\
  t_segageq tp' = t_segageq tp.
Proof.
  revert tp. induction q as [|qe q IH]; intros tp; [cbn; repeat split; auto; [lia|tauto]|].
  cbn [flush_loop]. set (tp1 := bump_segqlen _ _). specialize (IH tp1).
  destruct IH as (I1 & I2 & I3 & I4 & I5). cbn [length]. rewrite I1, I4, I5.
  split; [subst tp1; cbn; lia|]. split; [|split; [discriminate|split; [|reflexivity]]].
  - intros _. destruct q; [reflexivity|]. apply I2. discriminate.
  - subst tp1. cbn. rewrite <- app_assoc. reflexivity.
Qed.

(** Tcp_reass_flush empties the queue, returns every entry to the zone and
    leaves the length counter at zero, as its KASSERT says. *)
Theorem tcp_reass_flush_empties tp :
  t_segqlen tp = Z.of_nat (length (t_segq tp)) ->
  let tp' := tcp_reass_flush tp in
  t_segq tp' = [] /\ t_segqlen tp' = 0 /\
  tcp_reass_zone tp' = rev (map tqe_id (t_segq tp)) ++ tcp_reass_zone tp.
Proof.
  intros Hlen tp'. destruct (flush_loop_spec (t_segq tp) tp) as (F1 & F2 & F3 & F4 & _).
  subst tp'. unfold tcp_reass_flush. split; [|split; [lia|exact F4]].
  destruct (t_segq tp) as [|q l] eqn:E; [rewrite F3 by reflexivity; exact E|]. apply F2. discriminate.
Qed.

(** ** Concrete runs *)

Definition ex_stream (x : Z) : Z := (x * 7 + 3) mod 256.
Definition ex_callout : callout := mk_callout 0 None 0 None CALLOUT_RETURNUNLOCKED 0.
Definition ex_stat : rstat := mk_rstat 0 0 0 0 0 0.
Definition ex_env (t : Z) : env := mk_env t 500 1 (fun _ => 0).

(** A connection about to wrap its sequence numbers: [rcv_nxt] is [2^32-6]. *)
Definition ex_tp (state : Z) (passive : bool) (zone : list Z) : tcpcb :=
  mk_tcpcb [] [] 0 state (2 ^ 32 - 6) 1000 0 0 0 ex_callout passive
    (mk_sockbuf [] false 65536 0) zone ex_stat.

(** The segment of [ex_stream] at distance [o] from the initial edge. *)
Definition ex_seg (o n : Z) : segment :=
  mk_segment (u32 (2 ^ 32 - 6 + o)) TH_ACK n (slice ex_stream o n).

Definition reass_run (t : Z) (tp : tcpcb) (segs : list segment) : tcpcb :=
  fold_left (fun tp s => r_tp (tcp_reass (ex_env t) tp (Some s))) segs tp.

(** One segment queued beyond a gap. *)
Definition ex_queued (passive : bool) : tcpcb :=
  reass_run 10 (ex_tp TCPS_ESTABLISHED passive [1; 2; 3]) [ex_seg 10 4].

(** Discharge a closed, computable proposition, leaf by leaf. *)
Ltac by_eval :=
  unfold reass_wf, queue_ok, segment_ok, seg_ok;
  repeat match goal with
  | |- _ /\ _ => split
  | |- Forall ?P ?l => let l' := eval vm_compute in l in change (Forall P l'); repeat constructor
  end;
  vm_compute;
  repeat match goal with
  | |- _ /\ _ => split
  | |- True => exact I
  | |- _ = _ => reflexivity
  | |- _ = _ -> False => discriminate
  | |- _ -> False => let H := fresh in intro H
  | |- _ -> _ => intro
  | |- _ = _ \/ _ => first [left; reflexivity | right]
  | H : _ = _ |- False => discriminate H
  | H : _ \/ _ |- False => destruct H
  | H : False |- False => exact H
  end.

Lemma ex_queued_wf passive : reass_wf ex_stream 0 (ex_queued passive).
Proof. destruct passive; by_eval. Qed.

Lemma ex_seg_ok passive : segment_ok ex_stream 0 (ex_queued passive) (ex_seg 0 12).
Proof. destruct passive; by_eval. Qed.

Lemma tcp_reass_in_order_witness :
  reass_wf ex_stream (0 + advance (ex_queued false)
      (r_tp (tcp_reass (ex_env 20) (ex_queued false) (Some (ex_seg 0 12)))))
    (r_tp (tcp_reass (ex_env 20) (ex_queued false) (Some (ex_seg 0 12)))).
Proof.
  exact (proj1 (proj2 (tcp_reass_in_order (ex_env 20) ex_stream 0 (ex_queued false) (ex_seg 0 12)
    (ex_queued_wf false) (ex_seg_ok false) eq_refl eq_refl eq_refl))).
Defined.

Lemma tcp_reass_no_loss_witness :
  let r := tcp_reass (ex_env 20) (ex_queued false) (Some (ex_seg 0 12)) in
  let d := advance (ex_queued false) (r_tp r) in
  (r_tlen r = 0 /\ s_seq (ex_seg 0 12) <> rcv_nxt (ex_queued false) /\
   (exists st, r_tp r = (ex_queued false) <| stat := st |>) /\
   tcps_rcvmemdrop (stat (r_tp r)) = tcps_rcvmemdrop (stat (ex_queued false)) + 1) \/
  (forall x, covered (rcv_nxt (ex_queued false)) (t_segq (ex_queued false)) x \/
             in_seg (rcv_nxt (ex_queued false)) (ex_seg 0 12) x <->
     0 <= x < d \/ covered (rcv_nxt (ex_queued false)) (t_segq (r_tp r)) x).
Proof.
  exact (tcp_reass_no_loss (ex_env 20) ex_stream 0 (ex_queued false) (ex_seg 0 12)
    (ex_queued_wf false) (ex_seg_ok false) eq_refl eq_refl eq_refl).
Defined.


Lemma tcp_reass_kassert_witness :
  r_kassert (tcp_reass (ex_env 20) (ex_queued false) (Some (ex_seg 0 12))) = true.
Proof.
  apply (tcp_reass_kassert (ex_env 20) ex_stream 0 (ex_queued false) (ex_seg 0 12)
    (ex_queued_wf false) (ex_seg_ok false) eq_refl eq_refl).
  by_eval.
Defined.


Lemma tcp_reass_flush_witness : t_segq (tcp_reass_flush (ex_queued false)) = [].
Proof. exact (proj1 (tcp_reass_flush_empties (ex_queued false) eq_refl)). Defined.

(** The dequeued entry of an overlap stays on the age queue.  A segment
    that covers a queued one takes it off [t_segq] and frees it, but not off
    [t_segageq]: after two segments the age queue of a fresh, well-formed
    connection starts with an item that is back in the zone, and flushing the
    queue leaves the age queue as it was. *)
Theorem tcp_reass_age_queue_dangles :
  exists tp segs, reass_wf ex_stream 0 tp /\ t_segq tp = [] /\ t_segageq tp = [] /\
    let tp' := reass_run 10 tp segs in
    (exists i, head (t_segageq tp') = Some i /\ In i (tcp_reass_zone tp') /\
       ~ In i (map tqe_id (t_segq tp'))) /\
    t_segageq (tcp_reass_flush tp') = t_segageq tp'.
Proof.
  exists (ex_tp TCPS_ESTABLISHED false [1; 2; 3]), [ex_seg 10 4; ex_seg 9 8].
  split; [by_eval|]. split; [reflexivity|]. split; [reflexivity|].
  split; [exists 1|]; by_eval.
Qed.

(** The reassembly deadline also runs on active connections.  With data
    queued beyond a gap, delivering a segment arms the deadline timer although
    the connection is not passive; if the gap outlives the deadline, the timer
    gives the application a hole and moves [rcv_nxt] past bytes that the peer
    never got acknowledged. *)
Theorem tcp_reass_active_gets_hole :
  exists tp segs, reass_wf ex_stream 0 tp /\ inp_passive tp = false /\
    let tp1 := reass_run 10 tp segs in
    callout_pending (tt_reassdl tp1) = true /\
    let tp2 := tcp_reass_deliver_holes (ex_env 600) tp1 in
    In (M_HOLE 6) (sb_stream (so_rcv tp2)) /\ rcv_nxt tp2 = u32 (rcv_nxt tp + 14).
Proof.
  exists (ex_tp TCPS_ESTABLISHED false [1; 2; 3]), [ex_seg 10 4; ex_seg 0 4].
  split; [by_eval|]. by_eval.
Qed.

(** A zone item leaks when a passive connection delivers its way through
    the temporary entry.  With the zone exhausted, the first delivered item is
    set aside to replace the stack entry; if the same pass also delivers the
    stack entry, the item is neither queued nor freed. *)
Theorem tcp_reass_reclaimed_item_leaks :
  exists tp seg, reass_wf ex_stream 0 tp /\ inp_passive tp = true /\
    (length (tcp_reass_zone tp) + length (t_segq tp) = 1)%nat /\
    let tp' := r_tp (tcp_reass (ex_env 10) tp (Some seg)) in
    tcp_reass_zone tp' = [] /\ t_segq tp' = [].
Proof.
  exists (reass_run 10 (ex_tp TCPS_ESTABLISHED true [1]) [ex_seg 10 4]), (ex_seg 14 4).
  split; [by_eval|]. by_eval.
Qed.

(** Before the connection is established, an exhausted zone leaves the
    entry on tcp_reass's own stack linked into the queue of a passive
    connection when the function returns. *)
Theorem tcp_reass_stack_entry_escapes :
  exists tp seg, reass_wf ex_stream 0 tp /\ inp_passive tp = true /\
    t_state tp = TCPS_SYN_RECEIVED /\
    In TQS (map tqe_id (t_segq (r_tp (tcp_reass (ex_env 10) tp (Some seg))))).
Proof.
  exists (ex_tp TCPS_SYN_RECEIVED true []), (ex_seg 0 4).
  split; [by_eval|]. by_eval.
Qed.
End Reass.
