(* ===== verification/TcpOptions.v ===== *)
(** * TCP options

    [tcp_dooptions] of sys/netinet/tcp_input.c parses the option bytes of a
    segment into a [tcpopt]; [tcp_addoptions] of sys/netinet/tcp_output.c lays
    a [tcpopt] out as option bytes.  [TCP_SIGNATURE] is not configured, so the
    parser has no signature case. *)

From S2P Require Import Prelude TcpSeq.

Module Options.

Definition TCPOPT_EOL := 0.
Definition TCPOPT_PAD := 0.
Definition TCPOPT_NOP := 1.
Definition TCPOPT_MAXSEG := 2.
Definition TCPOLEN_MAXSEG := 4.
Definition TCPOPT_WINDOW := 3.
Definition TCPOLEN_WINDOW := 3.
Definition TCPOPT_SACK_PERMITTED := 4.
Definition TCPOLEN_SACK_PERMITTED := 2.
Definition TCPOPT_SACK := 5.
Definition TCPOLEN_SACKHDR := 2.
Definition TCPOLEN_SACK := 8.
Definition TCPOPT_TIMESTAMP := 8.
Definition TCPOLEN_TIMESTAMP := 10.
Definition TCPOPT_SIGNATURE := 19.
Definition TCPOLEN_SIGNATURE := 18.
Definition TCP_MAXOLEN := 40.
Definition TCP_MAX_WINSHIFT := 14.

Definition TOF_MSS := 1.
Definition TOF_SCALE := 2.
Definition TOF_SACKPERM := 4.
Definition TOF_TS := 16.
Definition TOF_SIGNATURE := 64.
Definition TOF_SACK := 128.
Definition TOF_MAXOPT := 256.

Definition TO_SYN := 1.

(** struct sackblk *)
Record sackblk := mk_sackblk {
  sb_start : Z;
  sb_end : Z }.

#[export] Instance eta_sackblk : Eta sackblk := fun r => mk_sackblk (sb_start r) (sb_end r).

(** struct tcpopt.  [to_sacks] is a pointer into the option bytes on input
    (kept as the bytes from there on) and to an array of [sackblk] on output
    ([to_sackblks]). *)
Record tcpopt := mk_tcpopt {
  to_flags : Z;
  to_tsval : Z;
  to_tsecr : Z;
  to_sacks : list Z;
  to_sackblks : list sackblk;
  to_mss : Z;
  to_wscale : Z;
  to_nsacks : Z }.

#[export] Instance eta_tcpopt : Eta tcpopt := fun r =>
  mk_tcpopt (to_flags r) (to_tsval r) (to_tsecr r) (to_sacks r) (to_sackblks r)
    (to_mss r) (to_wscale r) (to_nsacks r).

(** ** tcp_dooptions *)

(** [n] bytes copied from offset [i]; [None] when that runs past the end. *)
Definition read_bytes (cp : list Z) (i n : nat) : option (list Z) :=
  if (i + n <=? length cp)%nat then Some (take n (drop i cp)) else None.

Definition add_flag (f : Z) (to : tcpopt) : tcpopt := to <| to_flags := Z.lor (to_flags to) f |>.

(** The switch on the option kind.  [None] is an out-of-bounds read. *)
Definition do_option (do_sack : bool) (flags opt optlen : Z) (cp : list Z) (to : tcpopt)
  : option tcpopt :=
  if opt =? TCPOPT_MAXSEG then
    if negb (optlen =? TCPOLEN_MAXSEG) then Some to
    else if negb (has_flag flags TO_SYN) then Some to
    else
      b ← read_bytes cp 2 2;
      Some ((add_flag TOF_MSS to) <| to_mss := be_decode b |>)
  else if opt =? TCPOPT_WINDOW then
    if negb (optlen =? TCPOLEN_WINDOW) then Some to
    else if negb (has_flag flags TO_SYN) then Some to
    else
      w ← cp !! 2%nat;
      Some ((add_flag TOF_SCALE to) <| to_wscale := Z.min w TCP_MAX_WINSHIFT |>)
  else if opt =? TCPOPT_TIMESTAMP then
    if negb (optlen =? TCPOLEN_TIMESTAMP) then Some to
    else
      v ← read_bytes cp 2 4;
      r ← read_bytes cp 6 4;
      Some ((add_flag TOF_TS to) <| to_tsval := be_decode v |> <| to_tsecr := be_decode r |>)
  else if opt =? TCPOPT_SACK_PERMITTED then
    if negb (optlen =? TCPOLEN_SACK_PERMITTED) then Some to
    else if negb (has_flag flags TO_SYN) then Some to
    else if negb do_sack then Some to
    else Some (add_flag TOF_SACKPERM to)
  else if opt =? TCPOPT_SACK then
    if (optlen <=? 2) || negb ((optlen - 2) mod TCPOLEN_SACK =? 0) then Some to
    else if has_flag flags TO_SYN then Some to
    else Some ((add_flag TOF_SACK to)
                 <| to_nsacks := (optlen - 2) / TCPOLEN_SACK |>
                 <| to_sacks := drop 2 cp |>)
  else Some to.

(** The loop; [cnt] is the length of [cp].  [None]: out of bounds, or [fuel]
    ran out. *)
Fixpoint dooptions_loop (fuel : nat) (do_sack : bool) (flags : Z) (cp : list Z) (to : tcpopt)
  : option tcpopt :=
  match fuel with
  | O => None
  | S fuel =>
      let cnt := Z.of_nat (length cp) in
      if cnt <=? 0 then Some to
      else
        opt ← cp !! 0%nat;
        if opt =? TCPOPT_EOL then Some to
        else if opt =? TCPOPT_NOP then
          to ← do_option do_sack flags opt 1 cp to;
          dooptions_loop fuel do_sack flags (drop 1 cp) to
        else if cnt <? 2 then Some to
        else
          optlen ← cp !! 1%nat;
          if (optlen <? 2) || (cnt <? optlen) then Some to
          else
            to ← do_option do_sack flags opt optlen cp to;
            dooptions_loop fuel do_sack flags (drop (Z.to_nat optlen) cp) to
  end.

Definition tcp_dooptions (do_sack : bool) (to : tcpopt) (cp : list Z) (flags : Z) : option tcpopt :=
  dooptions_loop (S (length cp)) do_sack flags cp (to <| to_flags := 0 |>).

(** ** tcp_addoptions *)

(** [while (cond) { optlen += TCPOLEN_NOP; *optp++ = TCPOPT_NOP; }]; four
    iterations suffice ([pad_to_stops]), the conditions being on [optlen]
    modulo 4 or 2. *)
Fixpoint nops (fuel : nat) (cond : Z -> bool) (out : list Z) : list Z :=
  match fuel with
  | O => out
  | S fuel =>
      if cond (Z.of_nat (length out)) then nops fuel cond (out ++ [TCPOPT_NOP]) else out
  end.

Definition pad_to (cond : Z -> bool) (out : list Z) : list Z := nops 4 cond out.

Definition until_aligned2 (optlen : Z) : bool := (optlen =? 0) || negb (optlen mod 4 =? 2).

Definition sack_bytes (b : sackblk) : list Z := be32 (sb_start b) ++ be32 (sb_end b).

(** One pass of the loop for the option [mask]; [out] holds the bytes written
    so far, so [optlen] is its length.  [None]: the panic of an unknown option
    type, or a SACK block read past the end of the array.  [TCP_MAXOLEN] is a
    [size_t], so the space left is computed modulo 2^64.  The byte swaps the
    code makes in [to] itself are not kept: no caller reads them back. *)
Definition add_option (to : tcpopt) (mask : Z) (out : list Z) : option (list Z) :=
  if negb (Z.land (to_flags to) mask =? mask) then Some out
  else if Z.of_nat (length out) =? TCP_MAXOLEN then Some out
  else if mask =? TOF_MSS then
    let out := pad_to (fun n => negb (n mod 4 =? 0)) out in
    if u64 (TCP_MAXOLEN - Z.of_nat (length out)) <? TCPOLEN_MAXSEG then Some out
    else Some (out ++ [TCPOPT_MAXSEG; TCPOLEN_MAXSEG] ++ be16 (to_mss to))
  else if mask =? TOF_SCALE then
    let out := pad_to (fun n => (n =? 0) || negb (n mod 2 =? 1)) out in
    if u64 (TCP_MAXOLEN - Z.of_nat (length out)) <? TCPOLEN_WINDOW then Some out
    else Some (out ++ [TCPOPT_WINDOW; TCPOLEN_WINDOW; to_wscale to])
  else if mask =? TOF_SACKPERM then
    let out := pad_to (fun n => negb (n mod 2 =? 0)) out in
    if u64 (TCP_MAXOLEN - Z.of_nat (length out)) <? TCPOLEN_SACK_PERMITTED then Some out
    else Some (out ++ [TCPOPT_SACK_PERMITTED; TCPOLEN_SACK_PERMITTED])
  else if mask =? TOF_TS then
    let out := pad_to until_aligned2 out in
    if u64 (TCP_MAXOLEN - Z.of_nat (length out)) <? TCPOLEN_TIMESTAMP then Some out
    else Some (out ++ [TCPOPT_TIMESTAMP; TCPOLEN_TIMESTAMP]
                 ++ be32 (to_tsval to) ++ be32 (to_tsecr to))
  else if mask =? TOF_SIGNATURE then
    let out := pad_to until_aligned2 out in
    if u64 (TCP_MAXOLEN - Z.of_nat (length out)) <? TCPOLEN_SIGNATURE then Some out
    else Some (out ++ [TCPOPT_SIGNATURE; TCPOLEN_SIGNATURE] ++ replicate 16 0)
  else if mask =? TOF_SACK then
    let out := pad_to until_aligned2 out in
    let optlen := Z.of_nat (length out) in
    if u64 (TCP_MAXOLEN - optlen) <? TCPOLEN_SACKHDR + TCPOLEN_SACK then Some out
    else
      let sackblks :=
        Z.min (to_nsacks to) (u64 (TCP_MAXOLEN - (optlen + TCPOLEN_SACKHDR)) / TCPOLEN_SACK) in
      if Z.of_nat (length (to_sackblks to)) <? sackblks then None
      else Some (out ++ [TCPOPT_SACK; TCPOLEN_SACKHDR + sackblks * TCPOLEN_SACK]
                   ++ concat (map sack_bytes (take (Z.to_nat sackblks) (to_sackblks to))))
  else None.

(** [for (mask = 1; mask < TOF_MAXOPT; mask <<= 1)]; the masks 8 and 32 name no
    option. *)
Definition option_masks : list Z := [1; 2; 4; 8; 16; 32; 64; 128].

Fixpoint add_options (to : tcpopt) (masks : list Z) (out : list Z) : option (list Z) :=
  match masks with
  | [] => Some out
  | mask :: masks => out ← add_option to mask out; add_options to masks out
  end.

(** Terminate and pad to a 4 byte boundary. *)
Definition terminate (out : list Z) : list Z :=
  let out := if negb (Z.of_nat (length out) mod 4 =? 0) then out ++ [TCPOPT_EOL] else out in
  let pad := Z.to_nat ((- Z.of_nat (length out)) mod 4) in
  out ++ replicate pad TCPOPT_PAD.

(** The bytes written at [optp]; [None] also when the closing KASSERT fails. *)
Definition tcp_addoptions (to : tcpopt) : option (list Z) :=
  out ← add_options to option_masks [];
  let out := terminate out in
  if Z.of_nat (length out) <=? TCP_MAXOLEN then Some out else None.

(** The [i]th block of a received SACK option, as [tcp_sack_doack] copies it:
    [bcopy(to->to_sacks + i * TCPOLEN_SACK, &sack, sizeof(sack))] and two
    [ntohl]. *)
Definition sack_at (sacks : list Z) (i : nat) : option sackblk :=
  s ← read_bytes sacks (i * 8) 4;
  e ← read_bytes sacks (i * 8 + 4) 4;
  Some (mk_sackblk (be_decode s) (be_decode e)).

(** ** Parsing is memory safe and terminates *)

Lemma read_bytes_ok cp i n : (i + n <= length cp)%nat -> is_Some (read_bytes cp i n).
Proof. intros H. unfold read_bytes. apply Nat.leb_le in H. rewrite H. eauto. Qed.

Lemma lookup_ok (cp : list Z) i : (i < length cp)%nat -> exists x, cp !! i = Some x.
Proof. intros H. apply lookup_lt_is_Some in H. exact H. Qed.

Lemma do_option_total do_sack flags opt optlen cp to :
  optlen <= Z.of_nat (length cp) -> is_Some (do_option do_sack flags opt optlen cp to).
Proof.
  intros H. unfold do_option.
  repeat (case_match; zbool; subst; eauto).
  - destruct (read_bytes_ok cp 2 2) as [b ->]; [unfold TCPOLEN_MAXSEG in *; lia|]. simpl. eauto.
  - destruct (lookup_ok cp 2) as [b ->]; [unfold TCPOLEN_WINDOW in *; lia|]. simpl. eauto.
  - destruct (read_bytes_ok cp 2 4) as [b ->]; [unfold TCPOLEN_TIMESTAMP in *; lia|].
    destruct (read_bytes_ok cp 6 4) as [c ->]; [unfold TCPOLEN_TIMESTAMP in *; lia|]. simpl. eauto.
Qed.

Lemma dooptions_loop_total do_sack flags fuel : forall cp to,
  (length cp < fuel)%nat -> is_Some (dooptions_loop fuel do_sack flags cp to).
Proof.
  induction fuel as [|fuel IH]; intros cp to Hf; [lia|]. cbn [dooptions_loop].
  destruct (Z.leb_spec (Z.of_nat (length cp)) 0); [eauto|].
  destruct (lookup_ok cp 0) as [opt Eo]; [lia|]. rewrite Eo. cbn.
  destruct (opt =? TCPOPT_EOL); [eauto|]. destruct (opt =? TCPOPT_NOP).
  - destruct (do_option_total do_sack flags opt 1 cp to) as [to' ->]; [lia|]. cbn.
    apply IH. rewrite length_drop. lia.
  - destruct (Z.ltb_spec (Z.of_nat (length cp)) 2); [eauto|].
    destruct (lookup_ok cp 1) as [optlen El]; [lia|]. rewrite El. cbn.
    destruct (Z.ltb_spec optlen 2); [eauto|].
    destruct (Z.ltb_spec (Z.of_nat (length cp)) optlen); [eauto|]. cbn.
    destruct (do_option_total do_sack flags opt optlen cp to) as [to' ->]; [lia|]. cbn.
    apply IH. rewrite length_drop. lia.
Qed.

(** C32: whatever bytes a segment carries as options, tcp_dooptions terminates
    and never reads outside them. *)
Theorem tcp_dooptions_safe do_sack to cp flags : is_Some (tcp_dooptions do_sack to cp flags).
Proof. apply dooptions_loop_total. lia. Qed.

(** ** The layout of written options *)

(** The number of NOPs only depends on the length written so far. *)
Fixpoint npad (fuel : nat) (cond : Z -> bool) (n : Z) : nat :=
  match fuel with
  | O => O
  | S fuel => if cond n then S (npad fuel cond (n + 1)) else O
  end.

Lemma nops_npad fuel cond out :
  nops fuel cond out = out ++ replicate (npad fuel cond (Z.of_nat (length out))) TCPOPT_NOP.
Proof.
  revert out. induction fuel as [|fuel IH]; intros out; cbn [nops npad].
  - rewrite app_nil_r. reflexivity.
  - destruct (cond _); cbn [replicate]; [|rewrite app_nil_r; reflexivity].
    rewrite IH, length_app, Nat2Z.inj_add, <- app_assoc. reflexivity.
Qed.

Lemma length_pad_to cond out :
  Z.of_nat (length (pad_to cond out))
  = Z.of_nat (length out) + Z.of_nat (npad 4 cond (Z.of_nat (length out))).
Proof. unfold pad_to. rewrite nops_npad, length_app, length_replicate. lia. Qed.

(** Four iterations are enough: the loop stops at a length its condition
    rejects, for each of the conditions of the code. *)
Lemma pad_to_stops cond out :
  (forall n, 0 <= n -> cond n = false \/ cond (n + 1) = false \/ cond (n + 2) = false
             \/ cond (n + 3) = false) ->
  cond (Z.of_nat (length (pad_to cond out))) = false.
Proof.
  intros H. rewrite length_pad_to. specialize (H (Z.of_nat (length out)) ltac:(lia)).
  generalize dependent (Z.of_nat (length out)). intros n H. cbn [npad].
  replace (n + 1 + 1) with (n + 2) by lia. replace (n + 2 + 1) with (n + 3) by lia.
  destruct (cond n) eqn:E0; [|rewrite Z.add_0_r; assumption].
  destruct (cond (n + 1)) eqn:E1; [|assumption].
  destruct (cond (n + 2)) eqn:E2; [|assumption].
  destruct (cond (n + 3)) eqn:E3; [|assumption].
  destruct H as [H|[H|[H|H]]]; discriminate.
Qed.

(** The length an option of fixed size [size], aligned by [cond], leads to. *)
Definition fixed_len (cond : Z -> bool) (size n : Z) : Z :=
  let p := n + Z.of_nat (npad 4 cond n) in
  if u64 (TCP_MAXOLEN - p) <? size then p else p + size.

Definition step_len (mask n : Z) : Z :=
  if mask =? TOF_MSS then fixed_len (fun n => negb (n mod 4 =? 0)) TCPOLEN_MAXSEG n
  else if mask =? TOF_SCALE then fixed_len (fun n => (n =? 0) || negb (n mod 2 =? 1)) TCPOLEN_WINDOW n
  else if mask =? TOF_SACKPERM then fixed_len (fun n => negb (n mod 2 =? 0)) TCPOLEN_SACK_PERMITTED n
  else if mask =? TOF_TS then fixed_len until_aligned2 TCPOLEN_TIMESTAMP n
  else if mask =? TOF_SIGNATURE then fixed_len until_aligned2 TCPOLEN_SIGNATURE n
  else n.

Lemma add_option_len to mask out :
  Z.land (to_flags to) 40 = 0 -> In mask [1; 2; 4; 8; 16; 32; 64] ->
  exists out', add_option to mask out = Some out' /\
    (Z.of_nat (length out') = Z.of_nat (length out)
     \/ Z.of_nat (length out') = step_len mask (Z.of_nat (length out))).
Proof.
  intros Hf Hm. unfold add_option.
  destruct (Z.eqb_spec (Z.land (to_flags to) mask) mask) as [Em|]; cbn [negb]; [|eauto].
  assert (mask <> 8 /\ mask <> 32) as [? ?].
  { assert (Z.land (Z.land (to_flags to) mask) 40 = 0) as E.
    { rewrite <- Z.land_assoc, (Z.land_comm mask), Z.land_assoc, Hf. apply Z.land_0_l. }
    rewrite Em in E. split; intros ->; discriminate. }
  destruct (Z.eqb_spec (Z.of_nat (length out)) TCP_MAXOLEN); [eauto|].
  rewrite !length_pad_to. unfold step_len, fixed_len.
  cbn [In] in Hm.
  destruct Hm as [<-|[<-|[<-|[<-|[<-|[<-|[<-|[]]]]]]]]; try contradiction;
    cbn [Z.eqb Pos.eqb TOF_MSS TOF_SCALE TOF_SACKPERM TOF_TS TOF_SIGNATURE];
    match goal with |- context [if Z.ltb ?a ?b then Some _ else _] => destruct (Z.ltb_spec a b) end;
    eexists; (split; [reflexivity|right]); rewrite ?length_app, ?Nat2Z.inj_add, ?length_pad_to;
    unfold TCPOLEN_MAXSEG, TCPOLEN_WINDOW, TCPOLEN_SACK_PERMITTED, TCPOLEN_TIMESTAMP,
      TCPOLEN_SIGNATURE; cbn [length app be16 be32 replicate]; lia.
Qed.

(** The lengths the options before SACK can leave, mask by mask. *)
Lemma add_options_len to masks : forall L out,
  Z.land (to_flags to) 40 = 0 -> incl masks [1; 2; 4; 8; 16; 32; 64] ->
  In (Z.of_nat (length out)) L ->
  exists out', add_options to masks out = Some out' /\
    In (Z.of_nat (length out'))
       (fold_left (fun L mask => L ++ map (step_len mask) L) masks L).
Proof.
  induction masks as [|mask masks IH]; intros L out Hf Hi HL; cbn [add_options fold_left]; [eauto|].
  destruct (add_option_len to mask out Hf) as (o & -> & Ho); [apply Hi; left; reflexivity|].
  cbn. apply IH; [assumption|intros x Hx; apply Hi; right; exact Hx|].
  apply in_app_iff. destruct Ho as [->| ->]; [left; exact HL|right; apply in_map; exact HL].
Qed.

Lemma add_options_app to m1 m2 out :
  add_options to (m1 ++ m2) out = o ← add_options to m1 out; add_options to m2 o.
Proof.
  revert out. induction m1 as [|m m1 IH]; intros out; cbn [add_options app]; [reflexivity|].
  destruct (add_option to m out); cbn; [apply IH|reflexivity].
Qed.

Lemma concat_sack_bytes l : Z.of_nat (length (concat (map sack_bytes l))) = 8 * Z.of_nat (length l).
Proof.
  induction l as [|b l IH]; cbn [map concat length]; [reflexivity|].
  rewrite length_app, Nat2Z.inj_add, IH. cbn [sack_bytes be32 app length]. lia.
Qed.

(** The SACK option, written last: the total stays within the header. *)
Lemma add_option_sack to out :
  Z.of_nat (length out) mod 2 = 0 -> 0 <= Z.of_nat (length out) <= 40 ->
  0 <= to_nsacks to <= Z.of_nat (length (to_sackblks to)) ->
  exists out', add_option to TOF_SACK out = Some out' /\ Z.of_nat (length out') <= 40.
Proof.
  intros He Hr Hn. unfold add_option. cbn [TOF_SACK TOF_MSS TOF_SCALE TOF_SACKPERM TOF_TS TOF_SIGNATURE Z.eqb Pos.eqb].
  destruct (negb _); [exists out; split; [reflexivity|lia]|].
  unfold TCP_MAXOLEN. destruct (Z.eqb_spec (Z.of_nat (length out)) 40); [exists out; split; [reflexivity|lia]|].
  pose proof (pad_to_stops until_aligned2 out) as Hs.
  pose proof (length_pad_to until_aligned2 out) as Hp.
  assert (Z.of_nat (length (pad_to until_aligned2 out)) <= 38
          /\ 0 <= Z.of_nat (length (pad_to until_aligned2 out))) as [Hu _].
  { rewrite Hp. clear Hs Hp Hn. generalize dependent (Z.of_nat (length out)). intros n He Hr Hn.
    assert (exists k, n = 2 * k /\ 0 <= k < 20) as (k & -> & Hk).
    { exists (n / 2). Z.div_mod_to_equations. lia. }
    assert (In (2 * k) [0;2;4;6;8;10;12;14;16;18;20;22;24;26;28;30;32;34;36;38]) as Hi by (cbn [In]; lia).
    cbn [In] in Hi. repeat destruct Hi as [<-|Hi]; try (split; vm_compute; discriminate). contradiction. }
  set (o := pad_to until_aligned2 out) in *.
  unfold TCPOLEN_SACKHDR, TCPOLEN_SACK.
  destruct (Z.ltb_spec (u64 (40 - Z.of_nat (length o))) (2 + 8)); [exists o; split; [reflexivity|lia]|].
  replace (u64 (40 - Z.of_nat (length o))) with (40 - Z.of_nat (length o)) in * by wrap.
  replace (u64 (40 - (Z.of_nat (length o) + 2))) with (38 - Z.of_nat (length o)) by wrap.
  set (k := Z.min _ _).
  assert (0 <= k <= to_nsacks to /\ 8 * k <= 38 - Z.of_nat (length o)) as [? ?].
  { subst k. Z.div_mod_to_equations. lia. }
  destruct (Z.ltb_spec (Z.of_nat (length (to_sackblks to))) k); [lia|].
  eexists. split; [reflexivity|].
  rewrite !length_app, !Nat2Z.inj_add, concat_sack_bytes, length_take. cbn [length]. lia.
Qed.

Lemma terminate_len out :
  Z.of_nat (length (terminate out)) = 4 * ((Z.of_nat (length out) + 3) / 4).
Proof.
  unfold terminate. rewrite length_app, Nat2Z.inj_add, length_replicate, Z2Nat.id by
    (apply Z.mod_pos_bound; lia).
  destruct (Z.eqb_spec (Z.of_nat (length out) mod 4) 0); cbn [negb];
    rewrite ?length_app, ?Nat2Z.inj_add; cbn [length]; Z.div_mod_to_equations; lia.
Qed.

Lemma addoptions_fits to :
  Z.land (to_flags to) 40 = 0 ->
  0 <= to_nsacks to <= Z.of_nat (length (to_sackblks to)) ->
  exists out, tcp_addoptions to = Some out /\
    Z.of_nat (length out) <= TCP_MAXOLEN /\ Z.of_nat (length out) mod 4 = 0.
Proof.
  intros Hf Hn. unfold tcp_addoptions.
  destruct (add_options_len to [1;2;4;8;16;32;64] [0] []) as (o & Eo & Ho);
    [exact Hf|intros x; exact id|left; reflexivity|].
  assert (Z.of_nat (length o) mod 2 = 0 /\ 0 <= Z.of_nat (length o) <= 40) as [Ho1 Ho2].
  { set (L := fold_left _ _ _) in Ho.
    assert (forallb (fun n => (n mod 2 =? 0) && (0 <=? n) && (n <=? 40)) L = true) as HL
      by (vm_compute; reflexivity).
    rewrite forallb_forall in HL. apply HL in Ho. zbool. lia. }
  destruct (add_option_sack to o Ho1 Ho2 Hn) as (o' & Eo' & Ho').
  change option_masks with ([1;2;4;8;16;32;64] ++ [TOF_SACK]).
  rewrite add_options_app, Eo. cbn [mbind option_bind add_options]. rewrite Eo'.
  cbn [mbind option_bind]. unfold TCP_MAXOLEN. pose proof (terminate_len o') as Ht.
  destruct (Z.leb_spec (Z.of_nat (length (terminate o'))) 40); [|Z.div_mod_to_equations; lia].
  eexists. split; [reflexivity|]. split; [assumption|]. rewrite Ht. Z.div_mod_to_equations. lia.
Qed.

(** For every combination of the options the stack knows, tcp_addoptions
    neither panics nor trips its KASSERT: it writes at most TCP_MAXOLEN bytes,
    a multiple of four, so they fit the header and its 4-bit word count.  (The
    number of SACK blocks is limited by the space left, not by [to_nsacks].) *)
Theorem tcp_addoptions_fits to :
  Z.land (to_flags to) 40 = 0 ->
  0 <= to_nsacks to <= Z.of_nat (length (to_sackblks to)) ->
  exists out, tcp_addoptions to = Some out /\
    Z.of_nat (length out) <= TCP_MAXOLEN /\ Z.of_nat (length out) mod 4 = 0.
Proof. apply addoptions_fits. Qed.
(** ** Round trips *)

Lemma be16_bytes x : 0 <= x < 2 ^ 16 -> exists a b, be16 x = [a; b] /\ x = be_decode [a; b].
Proof. intros H. do 2 eexists. split; [reflexivity|]. symmetry. exact (be16_decode x H). Qed.

Lemma be32_bytes x :
  0 <= x < 2 ^ 32 -> exists a b c d, be32 x = [a; b; c; d] /\ x = be_decode [a; b; c; d].
Proof. intros H. do 4 eexists. split; [reflexivity|]. symmetry. exact (be32_decode x H). Qed.

Definition flag_if (b : bool) (f : Z) : Z := if b then f else 0.

(** The flags as tcp_output and syncache_respond accumulate them. *)
Definition syn_flags (mss scale sackperm ts : bool) : Z :=
  Z.lor (Z.lor (Z.lor (flag_if mss TOF_MSS) (flag_if scale TOF_SCALE)) (flag_if sackperm TOF_SACKPERM))
    (flag_if ts TOF_TS).

(** Options written on a SYN are read back unchanged: for every
    combination of MSS, window scale, SACK-permitted and timestamps, parsing
    what tcp_addoptions wrote gives the same set of options and the same
    values. *)
Theorem tcp_options_syn_roundtrip to to0 mss scale sackperm ts :
  to_flags to = syn_flags mss scale sackperm ts ->
  0 <= to_mss to < 2 ^ 16 -> 0 <= to_wscale to <= TCP_MAX_WINSHIFT ->
  0 <= to_tsval to < 2 ^ 32 -> 0 <= to_tsecr to < 2 ^ 32 ->
  exists out to', tcp_addoptions to = Some out /\
    tcp_dooptions true to0 out TO_SYN = Some to' /\
    to_flags to' = to_flags to /\
    (mss = true -> to_mss to' = to_mss to) /\
    (scale = true -> to_wscale to' = to_wscale to) /\
    (ts = true -> to_tsval to' = to_tsval to /\ to_tsecr to' = to_tsecr to).
Proof.
  intros Hf Hm Hw Hv Hr.
  destruct (be16_bytes _ Hm) as (m1 & m2 & Em & Em').
  destruct (be32_bytes _ Hv) as (v1 & v2 & v3 & v4 & Ev & Ev').
  destruct (be32_bytes _ Hr) as (r1 & r2 & r3 & r4 & Er & Er').
  pose proof (Z.min_l _ _ (proj2 Hw)) as Ew.
  unfold tcp_addoptions, option_masks, add_options, add_option.
  rewrite Em, Ev, Er, Hf, Em', Ev', Er'.
  destruct mss, scale, sackperm, ts; do 2 eexists; (split; [vm_compute; reflexivity|]);
    (split; [lazy -[be_decode Z.min]; reflexivity|]);
    lazy -[be_decode Z.min to_wscale]; repeat split; try discriminate; intros _; exact Ew.
Qed.

(** A SACK block of the model with its eight bytes. *)
Definition sackblk_ok (b : sackblk) : Prop := 0 <= sb_start b < 2 ^ 32 /\ 0 <= sb_end b < 2 ^ 32.

Lemma sack_bytes_at b rest :
  sackblk_ok b -> exists s1 s2 s3 s4 e1 e2 e3 e4,
    sack_bytes b = [s1; s2; s3; s4; e1; e2; e3; e4]
    /\ b = mk_sackblk (be_decode [s1; s2; s3; s4]) (be_decode [e1; e2; e3; e4])
    /\ sack_at (sack_bytes b ++ rest) 0 = Some b.
Proof.
  intros [Hs He]. destruct b as [s e]. unfold sack_bytes. cbn [sb_start sb_end] in *.
  destruct (be32_bytes s Hs) as (s1 & s2 & s3 & s4 & Es & Es').
  destruct (be32_bytes e He) as (e1 & e2 & e3 & e4 & Ee & Ee').
  exists s1, s2, s3, s4, e1, e2, e3, e4. rewrite Es, Ee. split; [reflexivity|].
  split; [congruence|]. cbn [app]. rewrite Es', Ee'. reflexivity.
Qed.

Lemma sack_at_skip b l i : sack_at (sack_bytes b ++ l) (S i) = sack_at l i.
Proof.
  unfold sack_at, read_bytes. cbn [sack_bytes be32 app].
  replace (S i * 8)%nat with (8 + i * 8)%nat by lia. cbn [length drop Nat.add].
  repeat match goal with |- context [(S ?a <=? S ?b)%nat] => change (S a <=? S b)%nat with (a <=? b)%nat end.
  reflexivity.
Qed.

Lemma sack_at_concat l : Forall sackblk_ok l ->
  map (sack_at (concat (map sack_bytes l))) (seq 0 (length l)) = map Some l.
Proof.
  induction 1 as [|b l Hb Hl IH]; [reflexivity|].
  cbn [length seq map concat]. f_equal.
  - destruct (sack_bytes_at b (concat (map sack_bytes l)) Hb) as (?&?&?&?&?&?&?&?&_&_&E). exact E.
  - rewrite <- seq_shift, map_map, <- IH. apply map_ext. intros i. apply sack_at_skip.
Qed.

Lemma dooptions_nop fuel flags cp to :
  dooptions_loop (S fuel) true flags (TCPOPT_NOP :: cp) to = dooptions_loop fuel true flags cp to.
Proof. reflexivity. Qed.

(** A SACK option that ends the header: the parser points at its blocks. *)
Lemma dooptions_sack fuel flags len blks to :
  has_flag flags TO_SYN = false -> len = 2 + 8 * Z.of_nat (length blks) -> (0 < length blks <= 31)%nat ->
  dooptions_loop (S (S fuel)) true flags
    ([TCPOPT_SACK; len] ++ concat (map sack_bytes blks)) to
  = Some (add_flag TOF_SACK to <| to_nsacks := Z.of_nat (length blks) |>
            <| to_sacks := concat (map sack_bytes blks) |>).
Proof.
  intros Hf -> Hl. pose proof (concat_sack_bytes blks) as Hc.
  set (c := concat (map sack_bytes blks)) in *. set (n := Z.of_nat (length blks)) in *.
  cbn [dooptions_loop app length]. cbn [lookup list_lookup mbind option_bind].
  destruct (Z.leb_spec (Z.of_nat (S (S (length c)))) 0); [lia|].
  cbn [TCPOPT_SACK TCPOPT_EOL TCPOPT_NOP Z.eqb Pos.eqb].
  destruct (Z.ltb_spec (Z.of_nat (S (S (length c)))) 2); [lia|].
  destruct (Z.ltb_spec (2 + 8 * n) 2); [lia|].
  destruct (Z.ltb_spec (Z.of_nat (S (S (length c)))) (2 + 8 * n)); [lia|]. cbn [orb].
  unfold do_option. cbn [TCPOPT_MAXSEG TCPOPT_WINDOW TCPOPT_TIMESTAMP TCPOPT_SACK_PERMITTED TCPOPT_SACK Z.eqb Pos.eqb].
  rewrite Hf. unfold TCPOLEN_SACK. destruct (Z.leb_spec (2 + 8 * n) 2); [lia|].
  replace (2 + 8 * n - 2) with (n * 8) by lia. rewrite Z_mod_mult, Z_div_mult by lia.
  cbn [Z.eqb negb orb mbind option_bind].
  rewrite (drop_ge (_ :: _)) by (cbn [length]; lia). reflexivity.
Qed.

Definition ts_bytes (to : tcpopt) : list Z :=
  [TCPOPT_NOP; TCPOPT_NOP; TCPOPT_TIMESTAMP; TCPOLEN_TIMESTAMP] ++ be32 (to_tsval to) ++ be32 (to_tsecr to).

(** The bytes written for an acknowledgement with SACK blocks. *)
Lemma addoptions_sack to (ts : bool) k :
  to_flags to = Z.lor (flag_if ts TOF_TS) TOF_SACK ->
  to_nsacks to = Z.of_nat (length (to_sackblks to)) ->
  k = Nat.min (length (to_sackblks to)) (if ts then 3 else 4) ->
  tcp_addoptions to =
  Some ((if ts then ts_bytes to else []) ++ [TCPOPT_NOP; TCPOPT_NOP]
          ++ [TCPOPT_SACK; 2 + 8 * Z.of_nat k] ++ concat (map sack_bytes (take k (to_sackblks to)))).
Proof.
  intros Hf Hn Hk. unfold tcp_addoptions.
  change option_masks with ([1;2;4;8;16;32;64] ++ [TOF_SACK]). rewrite add_options_app.
  assert (add_options to [1;2;4;8;16;32;64] [] = Some (if ts then ts_bytes to else [])) as ->
    by (unfold add_options, add_option; rewrite Hf; destruct ts; reflexivity).
  cbn [mbind option_bind add_options].
  assert (add_option to TOF_SACK (if ts then ts_bytes to else []) =
    Some (((if ts then ts_bytes to else []) ++ [TCPOPT_NOP; TCPOPT_NOP])
          ++ [TCPOPT_SACK; 2 + 8 * Z.of_nat k] ++ concat (map sack_bytes (take k (to_sackblks to))))) as ->.
  { unfold add_option. rewrite Hf.
    replace (pad_to until_aligned2 (if ts then ts_bytes to else []))
      with ((if ts then ts_bytes to else []) ++ [TCPOPT_NOP; TCPOPT_NOP]) by (destruct ts; reflexivity).
    set (c := u64 (TCP_MAXOLEN - (_ + TCPOLEN_SACKHDR)) / TCPOLEN_SACK).
    assert (c = if ts then 3 else 4) as -> by (subst c; destruct ts; reflexivity).
    assert (Z.min (to_nsacks to) (if ts then 3 else 4) = Z.of_nat k) as -> by (destruct ts; lia).
    assert ((Z.of_nat (length (to_sackblks to)) <? Z.of_nat k) = false) as -> by (apply Z.ltb_ge; lia).
    rewrite Nat2Z.id.
    replace (TCPOLEN_SACKHDR + Z.of_nat k * TCPOLEN_SACK) with (2 + 8 * Z.of_nat k)
      by (unfold TCPOLEN_SACKHDR, TCPOLEN_SACK; lia).
    destruct ts; reflexivity. }
  cbn [mbind option_bind]. rewrite <- app_assoc.
  set (out := (if ts then ts_bytes to else []) ++ _).
  assert (Z.of_nat (length out) = (if ts then 16 else 4) + 8 * Z.of_nat k) as Hl.
  { subst out. rewrite !length_app, !Nat2Z.inj_add, concat_sack_bytes, length_take.
    replace (k `min` length (to_sackblks to))%nat with k by (destruct ts; lia).
    destruct ts; cbn [length ts_bytes be32 app]; lia. }
  assert (terminate out = out) as ->.
  { unfold terminate. replace (Z.of_nat (length out) mod 4) with 0 by (rewrite Hl; destruct ts; Z.div_mod_to_equations; lia).
    cbn [Z.eqb negb]. replace ((- Z.of_nat (length out)) mod 4) with 0 by (rewrite Hl; destruct ts; Z.div_mod_to_equations; lia).
    apply app_nil_r. }
  destruct (Z.leb_spec (Z.of_nat (length out)) TCP_MAXOLEN) as [|H]; [reflexivity|].
  unfold TCP_MAXOLEN in H. destruct ts; lia.
Qed.

Lemma dooptions_ts fuel flags to0 to cp :
  0 <= to_tsval to < 2 ^ 32 -> 0 <= to_tsecr to < 2 ^ 32 ->
  dooptions_loop (S (S (S fuel))) true flags (ts_bytes to ++ cp) to0
  = dooptions_loop fuel true flags cp
      (add_flag TOF_TS to0 <| to_tsval := to_tsval to |> <| to_tsecr := to_tsecr to |>).
Proof.
  intros Hv Hr. unfold ts_bytes.
  destruct (be32_bytes _ Hv) as (v1 & v2 & v3 & v4 & -> & ->).
  destruct (be32_bytes _ Hr) as (r1 & r2 & r3 & r4 & -> & ->).
  cbn [app]. rewrite !dooptions_nop. cbn [dooptions_loop]. set (n := Z.of_nat _).
  assert (12 <= n - Z.of_nat (length cp) + 2) by (subst n; cbn [length]; lia).
  assert (10 <= n) as Hn by (subst n; cbn [length]; lia). clearbody n.
  destruct (Z.leb_spec n 0); [lia|]. cbn [lookup list_lookup mbind option_bind].
  cbn [TCPOPT_TIMESTAMP TCPOPT_EOL TCPOPT_NOP Z.eqb Pos.eqb].
  destruct (Z.ltb_spec n 2); [lia|]. cbn [lookup list_lookup mbind option_bind].
  unfold TCPOLEN_TIMESTAMP. destruct (Z.ltb_spec n 10); [lia|]. cbn [Z.ltb Z.compare Pos.compare Pos.compare_cont orb].
  unfold do_option. cbn [TCPOPT_MAXSEG TCPOPT_WINDOW TCPOPT_TIMESTAMP TCPOLEN_TIMESTAMP Z.eqb Pos.eqb negb].
  unfold read_bytes. cbn [length Nat.add Nat.leb drop take mbind option_bind Z.to_nat Pos.to_nat Pos.iter_op].
  reflexivity.
Qed.

Lemma dooptions_ack to0 to (ts : bool) k blks :
  0 <= to_tsval to < 2 ^ 32 -> 0 <= to_tsecr to < 2 ^ 32 ->
  length blks = k -> (0 < length blks <= 31)%nat ->
  tcp_dooptions true to0
    ((if ts then ts_bytes to else []) ++ [TCPOPT_NOP; TCPOPT_NOP]
       ++ [TCPOPT_SACK; 2 + 8 * Z.of_nat k] ++ concat (map sack_bytes blks)) 0
  = let to1 := to0 <| to_flags := 0 |> in
    let to2 := if ts then add_flag TOF_TS to1 <| to_tsval := to_tsval to |> <| to_tsecr := to_tsecr to |>
               else to1 in
    Some (add_flag TOF_SACK to2 <| to_nsacks := Z.of_nat (length blks) |>
            <| to_sacks := concat (map sack_bytes blks) |>).
Proof.
  intros Hv Hr <- Hb. unfold tcp_dooptions.
  set (n := length _). assert (exists m, n = (6 + m)%nat) as [m ->].
  { exists (n - 6)%nat. subst n. pose proof (concat_sack_bytes blks).
    rewrite !length_app. cbn [length]. lia. }
  destruct ts; cbn [Nat.add].
  - rewrite dooptions_ts by assumption. cbn [app]. rewrite !dooptions_nop.
    apply dooptions_sack; [reflexivity|reflexivity|assumption].
  - cbn [app]. rewrite !dooptions_nop. apply dooptions_sack; [reflexivity|reflexivity|assumption].
Qed.

(** C31: SACK blocks (and the timestamp) written on an acknowledgement are read
    back in order: the receiver sees the first three blocks when timestamps are
    in use, the first four otherwise, and the same timestamp values. *)
Theorem tcp_options_sack_roundtrip to to0 (ts : bool) :
  to_flags to = Z.lor (flag_if ts TOF_TS) TOF_SACK ->
  to_nsacks to = Z.of_nat (length (to_sackblks to)) -> (0 < length (to_sackblks to))%nat ->
  Forall sackblk_ok (to_sackblks to) ->
  0 <= to_tsval to < 2 ^ 32 -> 0 <= to_tsecr to < 2 ^ 32 ->
  let k := Nat.min (length (to_sackblks to)) (if ts then 3 else 4) in
  exists out to', tcp_addoptions to = Some out /\
    tcp_dooptions true to0 out 0 = Some to' /\
    to_flags to' = to_flags to /\
    (ts = true -> to_tsval to' = to_tsval to /\ to_tsecr to' = to_tsecr to) /\
    to_nsacks to' = Z.of_nat k /\
    map (sack_at (to_sacks to')) (seq 0 k) = map Some (take k (to_sackblks to)).
Proof.
  intros Hf Hn Hpos Hb Hv Hr k.
  assert (length (take k (to_sackblks to)) = k) as Hk by (rewrite length_take; subst k; lia).
  assert (0 < k <= 4)%nat as Hk4 by (subst k; destruct ts; lia).
  pose proof (sack_at_concat _ (Forall_take _ k _ Hb)) as Hs. rewrite Hk in Hs.
  eexists. eexists. split; [apply (addoptions_sack to ts k Hf Hn eq_refl)|].
  split; [apply dooptions_ack; auto; rewrite Hk; lia|].
  rewrite Hf, Hk. destruct ts; (split; [reflexivity|]); (split; [|split; [reflexivity|exact Hs]]);
    [split; reflexivity|discriminate].
Qed.

Lemma tcp_addoptions_fits_witness :
  exists out, tcp_addoptions (mk_tcpopt 215 1 2 [] [mk_sackblk 1 2; mk_sackblk 5 9] 1460 7 2) = Some out
    /\ Z.of_nat (length out) <= TCP_MAXOLEN /\ Z.of_nat (length out) mod 4 = 0.
Proof. apply tcp_addoptions_fits; [reflexivity|cbn; lia]. Defined.

Lemma tcp_options_syn_roundtrip_witness :
  exists out to', tcp_addoptions (mk_tcpopt 23 77 0 [] [] 1460 7 0) = Some out /\
    tcp_dooptions true (mk_tcpopt 0 0 0 [] [] 0 0 0) out TO_SYN = Some to' /\
    to_flags to' = 23 /\ (true = true -> to_mss to' = 1460) /\ (true = true -> to_wscale to' = 7) /\
    (true = true -> to_tsval to' = 77 /\ to_tsecr to' = 0).
Proof.
  apply (tcp_options_syn_roundtrip (mk_tcpopt 23 77 0 [] [] 1460 7 0) _ true true true true);
    [reflexivity|cbn; unfold TCP_MAX_WINSHIFT; lia..].
Defined.

Lemma tcp_options_sack_roundtrip_witness :
  exists out to',
    tcp_addoptions (mk_tcpopt 144 77 99 [] [mk_sackblk 10 20; mk_sackblk 40 60] 0 0 2) = Some out /\
    tcp_dooptions true (mk_tcpopt 0 0 0 [] [] 0 0 0) out 0 = Some to' /\
    to_flags to' = 144 /\
    (true = true -> to_tsval to' = 77 /\ to_tsecr to' = 99) /\
    to_nsacks to' = 2 /\
    map (sack_at (to_sacks to')) (seq 0 2) = [Some (mk_sackblk 10 20); Some (mk_sackblk 40 60)].
Proof.
  apply (tcp_options_sack_roundtrip
           (mk_tcpopt 144 77 99 [] [mk_sackblk 10 20; mk_sackblk 40 60] 0 0 2) _ true);
    [reflexivity|reflexivity|cbn; lia|repeat constructor; cbn; lia|cbn; lia..].
Defined.

End Options.
