(* ===== verification/TcpSack.v ===== *)
(** * Selective acknowledgement

    sys/netinet/tcp_sack.c: the receiver's list of SACK blocks to report
    ([tcp_update_sack_list], [tcp_clean_sackreport]) and the sender's scoreboard
    of holes ([tcp_sack_doack], [tcp_sack_output], [tcp_sack_adjust],
    [tcp_free_sackholes] and the hole allocation under them).

    A hole is named by an address, so that the [sackhint.nexthole] pointer is an
    address too; the scoreboard is the list of holes in TAILQ order, and a hole
    pointer used as a cursor is the hole's position in it.  The zone the holes
    come from is a list of free addresses, empty when allocation fails.
    KASSERTs are compiled out of this build; [kassert] records whether every
    one of those executed so far held. *)

From S2P Require Import Prelude TcpSeq TcpOptions.
Export TcpOptions.Options.

Module Sack.

Definition MAX_SACK_BLKS : nat := 6.

(** struct sackhole *)
Record sackhole := mk_sackhole {
  h_id : Z;
  h_start : Z;
  h_end : Z;
  h_rxmit : Z }.

#[export] Instance eta_sackhole : Eta sackhole := fun r =>
  mk_sackhole (h_id r) (h_start r) (h_end r) (h_rxmit r).

(** The fields of struct tcpcb tcp_sack.c works on, with the sackhint inlined,
    and the VNET globals of the module. *)
Record sackcb := mk_sackcb {
  rcv_nxt : Z;
  rcv_numsacks : nat;
  sackblks : list sackblk;
  snd_una : Z;
  snd_nxt : Z;
  snd_max : Z;
  snd_fack : Z;
  snd_holes : list sackhole;
  snd_numholes : Z;
  nexthole : option Z;
  sack_bytes_rexmit : Z;
  last_sack_ack : Z;
  tcp_sack_maxholes : Z;
  tcp_sack_globalmaxholes : Z;
  tcp_sack_globalholes : Z;
  sack_hole_zone : list Z;
  tcps_sack_sboverflow : Z;
  kassert : bool }.

#[export] Instance eta_sackcb : Eta sackcb := fun r =>
  mk_sackcb (rcv_nxt r) (rcv_numsacks r) (sackblks r) (snd_una r) (snd_nxt r) (snd_max r)
    (snd_fack r) (snd_holes r) (snd_numholes r) (nexthole r) (sack_bytes_rexmit r)
    (last_sack_ack r) (tcp_sack_maxholes r) (tcp_sack_globalmaxholes r)
    (tcp_sack_globalholes r) (sack_hole_zone r) (tcps_sack_sboverflow r) (kassert r).

Definition KASSERT (b : bool) (s : sackcb) : sackcb := s <| kassert := kassert s && b |>.

(** ** The receiver's report *)

(** The loop over [sackblks[0..rcv_numsacks)]: the merged head block and the
    saved blocks. *)
Fixpoint merge_blks (rcv_nxt : Z) (head_blk : sackblk) (blks saved_blks : list sackblk)
  : sackblk * list sackblk :=
  match blks with
  | [] => (head_blk, saved_blks)
  | b :: blks =>
      let start := sb_start b in
      let en := sb_end b in
      if SEQ_GEQ start en || SEQ_LEQ start rcv_nxt then merge_blks rcv_nxt head_blk blks saved_blks
      else if SEQ_LEQ (sb_start head_blk) en && SEQ_GEQ (sb_end head_blk) start then
        let head_blk := if SEQ_GT (sb_start head_blk) start
                        then head_blk <| sb_start := start |> else head_blk in
        let head_blk := if SEQ_LT (sb_end head_blk) en
                        then head_blk <| sb_end := en |> else head_blk in
        merge_blks rcv_nxt head_blk blks saved_blks
      else merge_blks rcv_nxt head_blk blks (saved_blks ++ [b])
  end.

Definition tcp_update_sack_list (s : sackcb) (rcv_start rcv_end : Z) : sackcb :=
  let s := KASSERT (SEQ_LT rcv_start rcv_end) s in
  let '(head_blk, saved_blks) :=
    merge_blks (rcv_nxt s) (mk_sackblk rcv_start rcv_end)
      (take (rcv_numsacks s) (sackblks s)) [] in
  let '(hd, num_saved) :=
    if SEQ_GT (sb_start head_blk) (rcv_nxt s) then
      ([head_blk], if (MAX_SACK_BLKS <=? length saved_blks)%nat
                   then (length saved_blks - 1)%nat else length saved_blks)
    else ([], length saved_blks) in
  let new := hd ++ take num_saved saved_blks in
  s <| sackblks := new ++ drop (length new) (sackblks s) |>
    <| rcv_numsacks := length new |>.

Definition tcp_clean_sackreport (s : sackcb) : sackcb :=
  s <| rcv_numsacks := 0%nat |> <| sackblks := replicate MAX_SACK_BLKS (mk_sackblk 0 0) |>.

(** ** Holes *)

Definition tcp_sackhole_alloc (s : sackcb) (start en : Z) : sackcb * option sackhole :=
  if (tcp_sack_maxholes s <=? snd_numholes s)
     || (tcp_sack_globalmaxholes s <=? tcp_sack_globalholes s)
  then (s <| tcps_sack_sboverflow := tcps_sack_sboverflow s + 1 |>, None)
  else
    match sack_hole_zone s with
    | [] => (s, None)
    | id :: zone =>
        (s <| sack_hole_zone := zone |>
           <| snd_numholes := snd_numholes s + 1 |>
           <| tcp_sack_globalholes := tcp_sack_globalholes s + 1 |>,
         Some (mk_sackhole id start en start))
    end.

Definition tcp_sackhole_free (s : sackcb) (hole : sackhole) : sackcb :=
  let s := s <| sack_hole_zone := h_id hole :: sack_hole_zone s |>
             <| snd_numholes := snd_numholes s - 1 |>
             <| tcp_sack_globalholes := tcp_sack_globalholes s - 1 |> in
  KASSERT (0 <=? tcp_sack_globalholes s) (KASSERT (0 <=? snd_numholes s) s).

(** [after] is the position of the hole to insert after, [None] for the tail. *)
Definition tcp_sackhole_insert (s : sackcb) (start en : Z) (after : option nat)
  : sackcb * option sackhole :=
  match tcp_sackhole_alloc s start en with
  | (s, None) => (s, None)
  | (s, Some hole) =>
      let holes :=
        match after with
        | Some i => take (S i) (snd_holes s) ++ hole :: drop (S i) (snd_holes s)
        | None => snd_holes s ++ [hole]
        end in
      (s <| snd_holes := holes |>
         <| nexthole := match nexthole s with None => Some (h_id hole) | Some n => Some n end |>,
       Some hole)
  end.

Definition is_hole (hint : option Z) (h : sackhole) : bool :=
  match hint with Some n => n =? h_id h | None => false end.

(** Remove the hole at position [i]. *)
Definition tcp_sackhole_remove (s : sackcb) (i : nat) : sackcb :=
  match snd_holes s !! i with
  | None => s
  | Some hole =>
      let s := if is_hole (nexthole s) hole
               then s <| nexthole := h_id <$> (snd_holes s !! S i) |> else s in
      let s := s <| snd_holes := take i (snd_holes s) ++ drop (S i) (snd_holes s) |> in
      tcp_sackhole_free s hole
  end.

Definition set_hole (s : sackcb) (i : nat) (h : sackhole) : sackcb :=
  s <| snd_holes := <[i := h]> (snd_holes s) |>.

(** ** tcp_sack_doack *)

(** The blocks of the option, [None] when one lies outside the option bytes. *)
Definition received_blks (to : tcpopt) : option (list sackblk) :=
  mapM (sack_at (to_sacks to)) (seq 0 (Z.to_nat (to_nsacks to))).

Definition valid_blk (s : sackcb) (th_ack : Z) (sack : sackblk) : bool :=
  SEQ_GT (sb_end sack) (sb_start sack) &&
  SEQ_GT (sb_start sack) (snd_una s) &&
  SEQ_GT (sb_start sack) th_ack &&
  SEQ_LT (sb_start sack) (snd_max s) &&
  SEQ_GT (sb_end sack) (snd_una s) &&
  SEQ_LEQ (sb_end sack) (snd_max s).

Definition is_empty {A} (l : list A) : bool := match l with [] => true | _ => false end.

Definition doack_blks (s : sackcb) (to : tcpopt) (th_ack : Z) : option (list sackblk) :=
  let una := if SEQ_LT (snd_una s) th_ack && negb (is_empty (snd_holes s))
             then [mk_sackblk (snd_una s) th_ack] else [] in
  if has_flag (to_flags to) TOF_SACK then
    blks ← received_blks to;
    Some (una ++ List.filter (valid_blk s th_ack) blks)
  else Some una.

(** The inner loop of the exchange sort: entry [i] against the entries after
    it. *)
Fixpoint sort_pass (x : sackblk) (rest : list sackblk) : sackblk * list sackblk :=
  match rest with
  | [] => (x, [])
  | y :: rest =>
      if SEQ_GT (sb_end x) (sb_end y)
      then let '(z, r) := sort_pass y rest in (z, x :: r)
      else let '(z, r) := sort_pass x rest in (z, y :: r)
  end.

Fixpoint sort_blks (n : nat) (l : list sackblk) : list sackblk :=
  match n, l with
  | S n, x :: rest => let '(z, r) := sort_pass x rest in z :: sort_blks n r
  | _, _ => l
  end.

(** [while (sblkp >= sack_blocks && SEQ_LT(tp->snd_fack, sblkp->start)) sblkp--],
    on the blocks from the last one down. *)
Fixpoint skip_right (fack : Z) (blks : list sackblk) : list sackblk :=
  match blks with
  | b :: blks' => if SEQ_LT fack (sb_start b) then skip_right fack blks' else blks
  | [] => []
  end.

(** From [sblkp = &sack_blocks[num_sack_blks - 1]] to the sweep: [blks] are the
    blocks from the last one down, the result the ones left for the sweep. *)
Definition doack_fack (s : sackcb) (blks : list sackblk) : sackcb * list sackblk :=
  match blks with
  | [] => (s, [])
  | b :: blks' =>
      let s := s <| last_sack_ack := sb_end b |> in
      if SEQ_LT (snd_fack s) (sb_start b) then
        match tcp_sackhole_insert s (snd_fack s) (sb_start b) None with
        | (s, Some _) => (s <| snd_fack := sb_end b |>, blks')
        | (s, None) =>
            let blks := skip_right (snd_fack s) blks in
            match blks with
            | b :: _ =>
                if SEQ_LT (snd_fack s) (sb_end b)
                then (s <| snd_fack := sb_end b |>, blks) else (s, blks)
            | [] => (s, [])
            end
        end
      else if SEQ_LT (snd_fack s) (sb_end b)
      then (s <| snd_fack := sb_end b |>, blks) else (s, blks)
  end.

(** The end of an iteration: [cur]'s share of the hint is added back, and
    testing the block's start against the hole's tells whether the sweep is done
    with the block or with the hole. *)
Definition doack_advance (s : sackcb) (b : sackblk) (blks' : list sackblk) (i : nat) (cur : sackhole)
  : sackcb * list sackblk * nat :=
  let s := s <| sack_bytes_rexmit :=
                  s32 (sack_bytes_rexmit s + u32 (h_rxmit cur - h_start cur)) |> in
  if SEQ_LEQ (sb_start b) (h_start cur) then (s, b :: blks', i) else (s, blks', S i).

(** The block acks some data in the middle of the hole: split it. *)
Definition doack_split (s : sackcb) (b : sackblk) (blks' : list sackblk) (i : nat) (cur : sackhole)
  : sackcb * list sackblk * nat :=
  match tcp_sackhole_insert s (sb_end b) (h_end cur) (Some i) with
  | (s, Some temp) =>
      let s :=
        if SEQ_GT (h_rxmit cur) (h_rxmit temp) then
          let temp := temp <| h_rxmit := h_rxmit cur |> in
          (set_hole s (S i) temp)
            <| sack_bytes_rexmit := s32 (sack_bytes_rexmit s + u32 (h_rxmit temp - h_start temp)) |>
        else s in
      let cur := cur <| h_end := sb_start b |> in
      let cur := cur <| h_rxmit := SEQ_MIN (h_rxmit cur) (h_end cur) |> in
      doack_advance (set_hole s i cur) b blks' i cur
  | (s, None) => doack_advance s b blks' i cur
  end.

(** One iteration of the sweep, for the block [b] (with [blks'] below it) and
    the hole [cur] at position [i]: the state, the blocks left and the position
    after that of the next hole to look at (0 for NULL). *)
Definition doack_step (s : sackcb) (b : sackblk) (blks' : list sackblk) (i : nat) (cur : sackhole)
  : sackcb * list sackblk * nat :=
  if SEQ_GEQ (sb_start b) (h_end cur) then (s, blks', S i)
  else if SEQ_LEQ (sb_end b) (h_start cur) then (s, b :: blks', i)
  else
    let s := s <| sack_bytes_rexmit :=
                    s32 (sack_bytes_rexmit s - u32 (h_rxmit cur - h_start cur)) |> in
    let s := KASSERT (0 <=? sack_bytes_rexmit s) s in
    if SEQ_LEQ (sb_start b) (h_start cur) then
      if SEQ_GEQ (sb_end b) (h_end cur) then (tcp_sackhole_remove s i, b :: blks', i)
      else
        let cur := cur <| h_start := sb_end b |> in
        let cur := cur <| h_rxmit := SEQ_MAX (h_rxmit cur) (h_start cur) |> in
        doack_advance (set_hole s i cur) b blks' i cur
    else if SEQ_GEQ (sb_end b) (h_end cur) then
      let cur := cur <| h_end := sb_start b |> in
      let cur := cur <| h_rxmit := SEQ_MIN (h_rxmit cur) (h_end cur) |> in
      doack_advance (set_hole s i cur) b blks' i cur
    else doack_split s b blks' i cur.

(** The sweep.  Every iteration drops a block or moves to the previous hole, so
    [fuel] = blocks + holes iterations reach its end. *)
Fixpoint doack_sweep (fuel : nat) (s : sackcb) (blks : list sackblk) (cur : nat) : option sackcb :=
  match blks, cur with
  | b :: blks', S i =>
      match fuel with
      | O => None
      | S fuel =>
          h ← snd_holes s !! i;
          let '(s, blks, cur) := doack_step s b blks' i h in
          doack_sweep fuel s blks cur
      end
  | _, _ => Some s
  end.

Definition tcp_sack_doack (s : sackcb) (to : tcpopt) (th_ack : Z) : option sackcb :=
  blks ← doack_blks s to th_ack;
  if is_empty blks then Some s
  else
    let blks := sort_blks (length blks) blks in
    let s := if is_empty (snd_holes s)
             then s <| snd_fack := SEQ_MAX (snd_una s) th_ack |> else s in
    let '(s, blks) := doack_fack s (reverse blks) in
    let s := KASSERT (negb (is_empty (snd_holes s))) s in
    let cur := length (snd_holes s) in
    doack_sweep (length blks + cur) s blks cur.

(** ** Clearing, hint and adjustment *)

Fixpoint free_loop (n : nat) (s : sackcb) : sackcb :=
  match n with
  | O => s
  | S n => if is_empty (snd_holes s) then s else free_loop n (tcp_sackhole_remove s 0)
  end.

(** The loop removes the first hole until there is none: as many iterations as
    there are holes. *)
Definition tcp_free_sackholes (s : sackcb) : sackcb :=
  let s := free_loop (length (snd_holes s)) s in
  let s := s <| sack_bytes_rexmit := 0 |> in
  KASSERT (match nexthole s with None => true | _ => false end) (KASSERT (snd_numholes s =? 0) s).

(** The holes from the one at address [id] on. *)
Fixpoint holes_from (id : Z) (holes : list sackhole) : list sackhole :=
  match holes with
  | [] => []
  | h :: rest => if h_id h =? id then holes else holes_from id rest
  end.

(** The hole to retransmit from next and [*sack_bytes_rexmt]. *)
Definition tcp_sack_output (s : sackcb) : sackcb * option sackhole * Z :=
  let r := sack_bytes_rexmit s in
  match nexthole s with
  | None => (s, None, r)
  | Some id =>
      match holes_from id (snd_holes s) with
      | [] => (s, None, r)
      | hole :: after =>
          if SEQ_LT (h_rxmit hole) (h_end hole) then (s, Some hole, r)
          else
            match List.find (fun h => SEQ_LT (h_rxmit h) (h_end h)) after with
            | Some h => (s <| nexthole := Some (h_id h) |>, Some h, r)
            | None => (s, None, r)
            end
      end
  end.

(** The walk from [cur]; [None]: leave [snd_nxt] alone. *)
Fixpoint adjust_loop (snd_nxt snd_fack : Z) (cur : sackhole) (rest : list sackhole) : option Z :=
  match rest with
  | p :: rest =>
      if SEQ_LT snd_nxt (h_end cur) then None
      else if SEQ_GEQ snd_nxt (h_start p) then adjust_loop snd_nxt snd_fack p rest
      else Some (h_start p)
  | [] => if SEQ_LT snd_nxt (h_end cur) then None else Some snd_fack
  end.

Definition tcp_sack_adjust (s : sackcb) : sackcb :=
  match snd_holes s with
  | [] => s
  | cur :: rest =>
      if SEQ_GEQ (snd_nxt s) (snd_fack s) then s
      else
        match adjust_loop (snd_nxt s) (snd_fack s) cur rest with
        | Some n => s <| snd_nxt := n |>
        | None => s
        end
  end.
(** ** The receiver's report: lemmas *)

Lemma Forall_sublist_mono {A} (P : A -> Prop) (l k : list A) : sublist k l -> Forall P l -> Forall P k.
Proof. induction 1; inversion 1; subst; auto. Qed.

Section report.
Context (base : Z).

Definition bs (b : sackblk) : Z := off base (sb_start b).
Definition be (b : sackblk) : Z := off base (sb_end b).
Definition blk_near (b : sackblk) : Prop := near base (sb_start b) /\ near base (sb_end b).
Definition in_blk (x : Z) (b : sackblk) : Prop := bs b <= x < be b.
(** Neither overlapping nor adjacent. *)
Definition separated (a b : sackblk) : Prop := be a < bs b \/ be b < bs a.

Fixpoint pairwise (l : list sackblk) : Prop :=
  match l with [] => True | b :: l => Forall (separated b) l /\ pairwise l end.

Lemma separated_sym a b : separated a b -> separated b a.
Proof. unfold separated. tauto. Qed.

Lemma pairwise_app l1 l2 :
  pairwise (l1 ++ l2) <-> pairwise l1 /\ pairwise l2 /\ Forall (fun a => Forall (separated a) l2) l1.
Proof.
  induction l1 as [|a l1 IH]; cbn [app pairwise].
  - split; [intros H; repeat split; auto|tauto].
  - rewrite IH, Forall_app, Forall_cons. tauto.
Qed.

Lemma pairwise_sublist l k : sublist k l -> pairwise l -> pairwise k.
Proof.
  induction 1 as [|x l1 l2 H IH|x l1 l2 H IH]; cbn [pairwise]; [tauto| |tauto].
  intros [Hx Hl]. split; [|auto]. eapply Forall_sublist_mono; eauto.
Qed.

(** The hull of two blocks that overlap or touch is their union. *)
Definition hull (h b : sackblk) : sackblk :=
  let h1 := if SEQ_GT (sb_start h) (sb_start b) then h <| sb_start := sb_start b |> else h in
  if SEQ_LT (sb_end h1) (sb_end b) then h1 <| sb_end := sb_end b |> else h1.

Lemma hull_spec h b :
  blk_near h -> blk_near b ->
  blk_near (hull h b) /\ bs (hull h b) = Z.min (bs h) (bs b) /\ be (hull h b) = Z.max (be h) (be b).
Proof.
  intros [Hh1 Hh2] [Hb1 Hb2]. unfold hull.
  rewrite (SEQ_GT_off base) by assumption.
  destruct (Z.ltb_spec (off base (sb_start b)) (off base (sb_start h)));
    cbn [update sb_start sb_end];
    rewrite (SEQ_LT_off base) by assumption;
    destruct (Z.ltb_spec (off base (sb_end h)) (off base (sb_end b)));
    unfold blk_near, bs, be; cbn [update sb_start sb_end]; (split; [tauto|]); lia.
Qed.

Definition touches (h b : sackblk) : Prop := bs h <= be b /\ bs b <= be h.

Lemma hull_separated h b c :
  blk_near h -> blk_near b -> touches h b -> bs c < be c ->
  separated h c -> separated b c -> separated (hull h b) c.
Proof.
  intros Hh Hb Ht Hc H1 H2. destruct (hull_spec h b Hh Hb) as (_ & E1 & E2).
  unfold separated, touches in *. rewrite E1, E2. lia.
Qed.

Definition blk_ok (b : sackblk) : Prop := blk_near b /\ bs b < be b.

(** The merge loop, from head [h] and saved blocks [sv]. *)
Lemma merge_blks_spec blks : forall h sv h' sv',
  merge_blks base h blks sv = (h', sv') ->
  blk_ok h -> Forall blk_ok (sv ++ blks) -> pairwise (sv ++ blks) ->
  Forall (separated h) sv -> Forall (fun b => 0 < bs b) sv ->
  blk_ok h' /\ bs h' <= bs h /\ be h <= be h' /\ (0 < bs h -> 0 < bs h') /\
  (bs h <= 0 -> bs h' <= 0) /\
  sublist sv' (sv ++ blks) /\ pairwise sv' /\ Forall (separated h') sv' /\
  Forall (fun b => 0 < bs b) sv' /\
  forall x, in_blk x h' \/ Exists (in_blk x) sv' <->
    in_blk x h \/ Exists (in_blk x) sv \/ Exists (fun b => 0 < bs b /\ in_blk x b) blks.
Proof.
  induction blks as [|b blks IH]; intros h sv h' sv' E Hh Hok Hp Hs Hpos.
  { cbn in E. inversion E; subst. rewrite app_nil_r in *.
    repeat split; try tauto; try lia; try (apply Hh); auto.
    intros [H|[H|H]]; [left|right|inversion H]; assumption. }
  cbn [merge_blks] in E.
  pose proof Hok as Hok'. apply Forall_app in Hok' as [Hoksv Hokb]. inversion Hokb as [|? ? Hb Hokb']; subst.
  destruct Hb as [Hbn Hb]. destruct Hh as [Hhn Hh].
  assert (near base base) as Hnb by (unfold near; rewrite off_refl; lia).
  rewrite (SEQ_GEQ_off base) in E by apply Hbn.
  rewrite (SEQ_LEQ_off base _ base) in E by (try apply Hbn; assumption). rewrite off_refl in E.
  change (off base (sb_start b)) with (bs b) in E. change (off base (sb_end b)) with (be b) in E.
  apply pairwise_app in Hp as (Hp1 & Hp2 & Hp3). destruct Hp2 as [Hpb Hp2].
  assert (pairwise (sv ++ blks)) as Hp'.
  { apply pairwise_app. split; [assumption|]. split; [assumption|].
    eapply Forall_impl; [exact Hp3|]. intros a Ha. inversion Ha; assumption. }
  assert (Forall blk_ok (sv ++ blks)) as Hok' by (apply Forall_app; auto).
  destruct (Z.leb_spec (be b) (bs b)); [lia|]. cbn [orb] in E.
  destruct (Z.leb_spec (bs b) 0).
  { edestruct IH as (R1 & R2 & R3 & R4 & R5 & R6 & R7 & R8 & R9 & R10);
      [exact E|split; assumption|assumption..|].
    split; [assumption|]. do 4 (split; [assumption|]).
    split; [etrans; [exact R6|apply sublist_app; [reflexivity|constructor; reflexivity]]|].
    do 3 (split; [assumption|]). intros x. rewrite R10, Exists_cons. intuition lia. }
  rewrite (SEQ_LEQ_off base) in E by (apply Hbn || apply Hhn).
  rewrite (SEQ_GEQ_off base) in E by (apply Hbn || apply Hhn).
  change (off base (sb_start b)) with (bs b) in E. change (off base (sb_end b)) with (be b) in E.
  change (off base (sb_start h)) with (bs h) in E. change (off base (sb_end h)) with (be h) in E.
  destruct (andb _ _) eqn:Et.
  - zbool. fold (hull h b) in E.
    destruct (hull_spec h b Hhn Hbn) as (Hn & E1 & E2).
    edestruct IH as (R1 & R2 & R3 & R4 & R5 & R6 & R7 & R8 & R9 & R10);
      [exact E|split; [exact Hn|lia]|assumption|assumption| |assumption|].
    { apply Forall_forall. intros c Hc. rewrite Forall_forall in Hs, Hoksv, Hp3.
      apply hull_separated; [assumption|assumption|split; lia|apply Hoksv, Hc|apply Hs, Hc|].
      apply separated_sym. specialize (Hp3 c Hc). inversion Hp3; assumption. }
    split; [assumption|]. do 2 (split; [lia|]). do 2 (split; [intros; lia|]).
    split; [etrans; [exact R6|apply sublist_app; [reflexivity|constructor; reflexivity]]|].
    do 3 (split; [assumption|]). intros x. rewrite R10, Exists_cons.
    assert (in_blk x (hull h b) <-> in_blk x h \/ in_blk x b) as -> by (unfold in_blk; rewrite E1, E2; lia).
    intuition lia.
  - assert (separated h b) as Hsb by (unfold separated; apply andb_false_iff in Et as [Et|Et]; zbool; lia).
    replace (sv ++ b :: blks) with ((sv ++ [b]) ++ blks) by (rewrite <- app_assoc; reflexivity).
    edestruct IH as (R1 & R2 & R3 & R4 & R5 & R6 & R7 & R8 & R9 & R10);
      [exact E|split; assumption|rewrite <- app_assoc; assumption| | | |].
    { rewrite <- app_assoc. apply pairwise_app. split; [assumption|]. split; [split; assumption|assumption]. }
    { apply Forall_app; auto. }
    { apply Forall_app; auto. }
    split; [assumption|]. do 5 (split; [assumption|]). do 3 (split; [assumption|]).
    intros x. rewrite R10, Exists_app, !Exists_cons, Exists_nil. intuition lia.
Qed.

End report.
(** ** The receiver's report: properties *)

(** The blocks the next acknowledgements report. *)
Definition reported (s : sackcb) : list sackblk := take (rcv_numsacks s) (sackblks s).

Definition report_wf (s : sackcb) : Prop :=
  length (sackblks s) = MAX_SACK_BLKS /\ (rcv_numsacks s <= MAX_SACK_BLKS)%nat /\
  Forall (blk_ok (rcv_nxt s)) (reported s) /\ pairwise (rcv_nxt s) (reported s).

Lemma report_wf_intro s new :
  length (sackblks s) = MAX_SACK_BLKS -> (length new <= MAX_SACK_BLKS)%nat ->
  let s' := s <| sackblks := new ++ drop (length new) (sackblks s) |>
              <| rcv_numsacks := length new |> in
  reported s' = new /\ length (sackblks s') = MAX_SACK_BLKS.
Proof.
  intros H1 H2. cbn -[MAX_SACK_BLKS]. unfold reported. cbn [sackblks rcv_numsacks].
  rewrite take_app_length. split; [reflexivity|].
  rewrite length_app, length_drop, H1. lia.
Qed.

(** What the update leaves, in terms of the merge loop's result. *)
Lemma update_sack_list_reported s rcv_start rcv_end h' sv :
  length (sackblks s) = MAX_SACK_BLKS -> (length sv <= MAX_SACK_BLKS)%nat ->
  SEQ_LT rcv_start rcv_end = true ->
  merge_blks (rcv_nxt s) (mk_sackblk rcv_start rcv_end) (reported s) [] = (h', sv) ->
  let s' := tcp_update_sack_list s rcv_start rcv_end in
  reported s' = (if SEQ_GT (sb_start h') (rcv_nxt s) then h' :: take (MAX_SACK_BLKS - 1) sv else sv) /\
  length (sackblks s') = MAX_SACK_BLKS /\ (rcv_numsacks s' <= MAX_SACK_BLKS)%nat /\
  rcv_nxt s' = rcv_nxt s /\ kassert s' = kassert s.
Proof.
  intros W1 Hl Hk Em. unfold tcp_update_sack_list. cbn [KASSERT update rcv_nxt rcv_numsacks sackblks].
  change (take (rcv_numsacks s) (sackblks s)) with (reported s). rewrite Em, Hk.
  destruct (SEQ_GT (sb_start h') (rcv_nxt s)).
  - assert (take (if (MAX_SACK_BLKS <=? length sv)%nat then (length sv - 1)%nat else length sv) sv
            = take (MAX_SACK_BLKS - 1) sv) as ->.
    { destruct (Nat.leb_spec MAX_SACK_BLKS (length sv)).
      - f_equal. lia. - rewrite !take_ge by lia. reflexivity. }
    cbn [app]. assert (length (h' :: take (MAX_SACK_BLKS - 1) sv) <= MAX_SACK_BLKS)%nat as Hl'
      by (cbn [length]; rewrite length_take; unfold MAX_SACK_BLKS; lia).
    edestruct (report_wf_intro s _ W1 Hl') as [E1 E2].
    split; [exact E1|]. split; [exact E2|]. split; [exact Hl'|]. cbn. rewrite andb_true_r. auto.
  - rewrite take_ge by lia. cbn [app].
    edestruct (report_wf_intro s sv W1 Hl) as [E1 E2].
    split; [exact E1|]. split; [exact E2|]. split; [exact Hl|]. cbn. rewrite andb_true_r. auto.
Qed.

(** C30: the RFC 2018 rules of the SACK report.  When a segment
    [[rcv_start, rcv_end)] arrives: the report keeps at most MAX_SACK_BLKS
    blocks, non-empty, beyond rcv_nxt and pairwise neither overlapping nor
    adjacent; for an out-of-order segment the first block is the one that
    contains it; nothing is reported that was not received; and nothing that
    was reported and is still beyond rcv_nxt disappears unless the report was
    full. *)
Theorem tcp_update_sack_list_correct s rcv_start rcv_end :
  report_wf s -> near (rcv_nxt s) rcv_start -> near (rcv_nxt s) rcv_end ->
  off (rcv_nxt s) rcv_start < off (rcv_nxt s) rcv_end ->
  let s' := tcp_update_sack_list s rcv_start rcv_end in
  let seg x := off (rcv_nxt s) rcv_start <= x < off (rcv_nxt s) rcv_end in
  report_wf s' /\ kassert s' = kassert s /\
  Forall (fun b => 0 < bs (rcv_nxt s) b) (reported s') /\
  (0 < off (rcv_nxt s) rcv_start ->
   exists b rest, reported s' = b :: rest /\ forall x, seg x -> in_blk (rcv_nxt s) x b) /\
  (forall x, Exists (in_blk (rcv_nxt s) x) (reported s') ->
     seg x \/ Exists (in_blk (rcv_nxt s) x) (reported s)) /\
  (forall b x, (rcv_numsacks s < MAX_SACK_BLKS)%nat -> 0 < off (rcv_nxt s) rcv_start ->
     b ∈ reported s -> 0 < bs (rcv_nxt s) b -> in_blk (rcv_nxt s) x b ->
     Exists (in_blk (rcv_nxt s) x) (reported s')).
Proof.
  intros (W1 & W2 & W3 & W4) Hn1 Hn2 Hlt. cbv zeta.
  set (base := rcv_nxt s) in *. set (h := mk_sackblk rcv_start rcv_end).
  destruct (merge_blks base h (reported s) []) as [h' sv] eqn:Em.
  edestruct (merge_blks_spec base) as (R1 & R2 & R3 & R4 & R5 & R6 & R7 & R8 & R9 & R10);
    [exact Em|split; [split|]; assumption|exact W3|exact W4|constructor|constructor|].
  cbn [app] in R6. pose proof (sublist_length _ _ R6) as Hlen.
  assert (length (reported s) <= rcv_numsacks s)%nat as Hrl by (unfold reported; rewrite length_take; lia).
  assert (near base base) as Hnb by (unfold near; rewrite off_refl; lia).
  destruct (update_sack_list_reported s rcv_start rcv_end h' sv) as (Er & El & En & Enx & Ek);
    [exact W1|lia|rewrite (SEQ_LT_off base) by assumption; apply Z.ltb_lt; exact Hlt|exact Em|].
  set (s' := tcp_update_sack_list s rcv_start rcv_end) in *.
  rewrite (SEQ_GT_off base) in Er by (try apply R1; assumption).
  fold base in Er. rewrite off_refl in Er. change (off base (sb_start h')) with (bs base h') in Er.
  assert (forall x, in_blk base x h' \/ Exists (in_blk base x) sv ->
            in_blk base x h \/ Exists (in_blk base x) (reported s)) as Hin.
  { intros x Hx. apply R10 in Hx as [Hx|[Hx|Hx]]; [left; exact Hx|inversion Hx|right].
    eapply Exists_impl; [exact Hx|]. intros ? [_ ?]; assumption. }
  unfold report_wf. rewrite Er, El, Enx, Ek. fold base.
  assert (Forall (blk_ok base) sv) as Hsv by (eapply Forall_sublist_mono; eauto).
  assert (sublist (take (MAX_SACK_BLKS - 1) sv) sv) as Hts by apply sublist_take.
  destruct (Z.ltb_spec 0 (bs base h')) as [Hpos|Hneg].
  - split; [split; [reflexivity|split; [assumption|split]]|].
    { constructor; [assumption|eapply Forall_sublist_mono; eauto]. }
    { split; [eapply Forall_sublist_mono; eauto|eapply pairwise_sublist; eauto]. }
    split; [reflexivity|]. split; [constructor; [assumption|eapply Forall_sublist_mono; eauto]|].
    split; [|split].
    + intros _. eexists _, _. split; [reflexivity|]. unfold in_blk, bs, be in *. cbn [h sb_start sb_end] in *. lia.
    + intros x Hx. apply Hin. rewrite Exists_cons in Hx. destruct Hx as [Hx|Hx]; [auto|right].
      rewrite <- (take_drop (MAX_SACK_BLKS - 1) sv), Exists_app. auto.
    + intros b x Hnum _ Hb Hbp Hx. rewrite Exists_cons, take_ge by lia. apply R10. right; right.
      apply Exists_exists. exists b. auto.
  - split; [repeat split; assumption|]. split; [reflexivity|]. split; [assumption|].
    split; [intros H; specialize (R4 H); lia|]. split; [intros x Hx; apply Hin; auto|intros b x _ H; specialize (R4 H); lia].
Qed.

(** A report of two blocks and a segment that joins them. *)
Definition sample_report : sackcb :=
  mk_sackcb 1000 2 ([mk_sackblk 1500 1600; mk_sackblk 1700 1800] ++ replicate 4 (mk_sackblk 0 0))
    0 0 0 0 [] 0 None 0 0 128 65536 0 [] 0 true.

Lemma sample_report_wf : report_wf sample_report.
Proof.
  split; [reflexivity|]. split; [cbv; lia|]. cbn. unfold blk_ok, blk_near, near, separated, bs, be.
  split; [repeat constructor; vm_compute; congruence|]. split; [|split; [constructor|exact I]].
  constructor; [left; vm_compute; reflexivity|constructor].
Qed.

Lemma tcp_update_sack_list_witness :
  reported (tcp_update_sack_list sample_report 1600 1700) = [mk_sackblk 1500 1800] /\
  report_wf (tcp_update_sack_list sample_report 1600 1700).
Proof.
  split; [reflexivity|].
  apply (tcp_update_sack_list_correct sample_report 1600 1700);
    [exact sample_report_wf|split; vm_compute; congruence..|vm_compute; reflexivity].
Defined.
(** ** The scoreboard: invariant *)

Section board.
Context (base : Z).

Definition hs (h : sackhole) : Z := off base (h_start h).
Definition he (h : sackhole) : Z := off base (h_end h).
Definition hr (h : sackhole) : Z := off base (h_rxmit h).
Definition in_hole (x : Z) (h : sackhole) : Prop := hs h <= x < he h.
Definition lost (s : sackcb) (x : Z) : Prop := Exists (in_hole x) (snd_holes s).

(** Non-empty holes in order between [lo] and [hi], each with its
    retransmission point inside. *)
Fixpoint chain (lo hi : Z) (holes : list sackhole) : Prop :=
  match holes with
  | [] => lo <= hi
  | h :: rest => lo <= hs h < he h /\ hs h <= hr h <= he h /\ chain (he h) hi rest
  end.

Fixpoint retransmitted (holes : list sackhole) : Z :=
  match holes with [] => 0 | h :: rest => (hr h - hs h) + retransmitted rest end.

(** The hint points at a hole before which everything was retransmitted. *)
Definition hint_ok (holes : list sackhole) (hint : option Z) : Prop :=
  exists A B, holes = A ++ B /\ Forall (fun h => hr h = he h) A /\ hint = h_id <$> head B.

Definition board_wf (lo hi : Z) (s : sackcb) : Prop :=
  0 <= lo /\ hi < 2 ^ 30 /\ chain lo hi (snd_holes s) /\
  sack_bytes_rexmit s = retransmitted (snd_holes s) /\
  snd_numholes s = Z.of_nat (length (snd_holes s)) /\
  snd_numholes s <= tcp_sack_globalholes s /\
  NoDup (map h_id (snd_holes s) ++ sack_hole_zone s) /\
  hint_ok (snd_holes s) (nexthole s).

(** [n] more holes can be allocated. *)
Definition room (s : sackcb) (n : nat) : Prop :=
  snd_numholes s + Z.of_nat n <= tcp_sack_maxholes s /\
  tcp_sack_globalholes s + Z.of_nat n <= tcp_sack_globalmaxholes s /\
  (n <= length (sack_hole_zone s))%nat.

(** What the sweep does not touch. *)
Definition frame (s s' : sackcb) : Prop :=
  rcv_nxt s' = rcv_nxt s /\ rcv_numsacks s' = rcv_numsacks s /\ sackblks s' = sackblks s /\
  snd_una s' = snd_una s /\ snd_nxt s' = snd_nxt s /\ snd_max s' = snd_max s /\
  snd_fack s' = snd_fack s /\ last_sack_ack s' = last_sack_ack s /\
  tcp_sack_maxholes s' = tcp_sack_maxholes s /\
  tcp_sack_globalmaxholes s' = tcp_sack_globalmaxholes s /\ kassert s' = kassert s /\
  tcp_sack_globalholes s' - snd_numholes s' = tcp_sack_globalholes s - snd_numholes s.

Lemma frame_refl s : frame s s.
Proof. unfold frame. tauto. Qed.

Lemma frame_trans s1 s2 s3 : frame s1 s2 -> frame s2 s3 -> frame s1 s3.
Proof. unfold frame. intuition congruence. Qed.

Lemma holes_chain_app lo hi l1 l2 :
  chain lo hi (l1 ++ l2) <-> exists m, chain lo m l1 /\ chain m hi l2.
Proof.
  revert lo. induction l1 as [|h l1 IH]; intros lo; cbn [app chain].
  - split; [intros H; exists lo; split; [lia|exact H]|].
    intros (m & H1 & H2). destruct l2; cbn [chain] in *; [lia|]. intuition lia.
  - rewrite IH. split.
    + intros (H1 & H2 & m & H3 & H4). exists m. auto.
    + intros (m & (H1 & H2 & H3) & H4). eauto 6.
Qed.

Lemma chain_le lo hi l : chain lo hi l -> lo <= hi.
Proof. revert lo. induction l as [|h l IH]; intros lo; cbn [chain]; [tauto|]. intros (H1 & H2 & H3). apply IH in H3. lia. Qed.

Lemma holes_chain_weaken lo lo' hi hi' l : chain lo hi l -> lo' <= lo -> hi <= hi' -> chain lo' hi' l.
Proof.
  revert lo lo'. induction l as [|h l IH]; intros lo lo'; cbn [chain]; [lia|].
  intros (H1 & H2 & H3) ? ?. split; [lia|]. split; [lia|]. eapply IH; [exact H3|lia|lia].
Qed.

Lemma chain_bounds lo hi l h : chain lo hi l -> h ∈ l -> lo <= hs h /\ hs h < he h /\ hs h <= hr h <= he h /\ he h <= hi.
Proof.
  revert lo. induction l as [|a l IH]; intros lo; cbn [chain]; [intros _ H; inversion H|].
  intros (H1 & H2 & H3) Hi. apply elem_of_cons in Hi as [->|Hi].
  - pose proof (chain_le _ _ _ H3). lia.
  - apply (IH _ H3) in Hi. lia.
Qed.

Lemma retransmitted_app l1 l2 : retransmitted (l1 ++ l2) = retransmitted l1 + retransmitted l2.
Proof. induction l1 as [|h l1 IH]; cbn [app retransmitted]; [reflexivity|rewrite IH; lia]. Qed.

Lemma retransmitted_bounds lo hi l : chain lo hi l -> 0 <= retransmitted l <= hi - lo.
Proof.
  revert lo. induction l as [|h l IH]; intros lo; cbn [chain retransmitted]; [lia|].
  intros (H1 & H2 & H3). apply IH in H3. lia.
Qed.

(** A hint stays good when a hole changes but keeps its address, and its
    having been retransmitted. *)
Lemma hint_ok_update L cur cur' R n :
  h_id cur' = h_id cur -> (hr cur = he cur -> hr cur' = he cur') ->
  hint_ok (L ++ cur :: R) n -> hint_ok (L ++ cur' :: R) n.
Proof.
  intros Hid Hr (A & B & E & HA & Hn).
  apply app_eq_app in E as [k [[-> ->]|[-> Ek]]].
  - exists A, (k ++ cur' :: R). rewrite app_assoc. split; [reflexivity|]. split; [assumption|].
    rewrite Hn. destruct k; cbn; congruence.
  - destruct k as [|c k]; cbn [app] in Ek.
    + subst B. rewrite app_nil_r in HA. exists L, (cur' :: R). split; [reflexivity|].
      split; [assumption|]. cbn in *. congruence.
    + inversion Ek; subst. exists (L ++ cur' :: k), B. rewrite <- app_assoc. split; [reflexivity|].
      split; [|reflexivity]. apply Forall_app in HA as [H1 H2]. inversion H2; subst.
      apply Forall_app. split; [assumption|]. constructor; auto.
Qed.

Lemma hint_ok_remove L cur R n :
  NoDup (map h_id (L ++ cur :: R)) -> hint_ok (L ++ cur :: R) n ->
  hint_ok (L ++ R) (if is_hole n cur then h_id <$> head R else n).
Proof.
  intros Hnd (A & B & E & HA & Hn). rewrite map_app in Hnd. cbn [map] in Hnd.
  apply app_eq_app in E as [k [[-> ->]|[-> Ek]]].
  - destruct k as [|c k].
    + cbn in Hn. subst n. cbn [is_hole]. rewrite Z.eqb_refl.
      exists A, R. rewrite app_nil_r. auto.
    + cbn in Hn. subst n. cbn [is_hole]. destruct (Z.eqb_spec (h_id c) (h_id cur)) as [Ec|_].
      * exfalso. apply NoDup_app in Hnd as (_ & H & _). apply (H (h_id c)).
        { rewrite map_app, elem_of_app. right. left. }
        rewrite Ec. left.
      * exists A, (c :: k ++ R). rewrite <- app_assoc. auto.
  - destruct k as [|c k]; cbn [app] in Ek.
    + subst B. cbn in Hn. subst n. cbn [is_hole]. rewrite Z.eqb_refl. rewrite app_nil_r in HA.
      exists L, R. auto.
    + inversion Ek; subst. exists (L ++ k), B. rewrite app_assoc. split; [reflexivity|].
      split; [apply Forall_app in HA as [H1 H2]; inversion H2; apply Forall_app; auto|].
      destruct B as [|d B]; cbn; [reflexivity|]. cbn [is_hole].
      destruct (Z.eqb_spec (h_id d) (h_id c)) as [Ec|_]; [|reflexivity].
      exfalso. apply NoDup_app in Hnd as (_ & _ & Hnd). inversion Hnd as [|? ? Hni _]; subst.
      apply Hni. rewrite map_app, elem_of_app. right. rewrite <- Ec. left.
Qed.

Definition insert_hint (n : option Z) (h : sackhole) : option Z :=
  match n with None => Some (h_id h) | Some m => Some m end.

(** Inserting a hole after another: the new one has been retransmitted if the
    other was. *)
Lemma hint_ok_insert L cur t R n :
  (hr cur = he cur -> hr t = he t) -> hint_ok (L ++ cur :: R) n ->
  hint_ok (L ++ cur :: t :: R) (insert_hint n t).
Proof.
  intros Ht (A & B & E & HA & Hn).
  apply app_eq_app in E as [k [[-> ->]|[-> Ek]]].
  - exists A, (k ++ cur :: t :: R). rewrite app_assoc. split; [reflexivity|]. split; [assumption|].
    subst n. destruct k; reflexivity.
  - destruct k as [|c k]; cbn [app] in Ek.
    + subst B. rewrite app_nil_r in HA. exists L, (cur :: t :: R). subst n. auto.
    + inversion Ek; subst. apply Forall_app in HA as [H1 H2]. inversion H2; subst.
      destruct B as [|d B].
      * exists (L ++ [c]), (t :: k ++ []). rewrite <- app_assoc. split; [reflexivity|]. split; [|reflexivity].
        apply Forall_app. auto.
      * exists (L ++ c :: t :: k), (d :: B). rewrite <- app_assoc. split; [reflexivity|]. split; [|reflexivity].
        apply Forall_app. split; [assumption|]. constructor; [assumption|]. constructor; auto.
Qed.

Lemma hint_ok_snoc l t n : hint_ok l n -> hint_ok (l ++ [t]) (insert_hint n t).
Proof.
  intros (A & B & -> & HA & ->). destruct B as [|d B].
  - exists A, [t]. rewrite app_nil_r. auto.
  - exists A, (d :: B ++ [t]). rewrite <- app_assoc. auto.
Qed.

(** ** Allocation, insertion and removal *)

Inductive insert_result (s : sackcb) (start en : Z) (pre post : list sackhole)
  : sackcb * option sackhole -> Prop :=
| insert_failed s' :
    ~ room s 1 -> s' = s \/ s' = s <| tcps_sack_sboverflow := tcps_sack_sboverflow s + 1 |> ->
    insert_result s start en pre post (s', None)
| insert_done id zone :
    sack_hole_zone s = id :: zone ->
    let hole := mk_sackhole id start en start in
    insert_result s start en pre post
      (s <| sack_hole_zone := zone |> <| snd_numholes := snd_numholes s + 1 |>
         <| tcp_sack_globalholes := tcp_sack_globalholes s + 1 |>
         <| snd_holes := pre ++ hole :: post |> <| nexthole := insert_hint (nexthole s) hole |>,
       Some hole).

Lemma sackhole_insert_result s start en after pre post :
  match after with
  | None => pre = snd_holes s /\ post = []
  | Some i => snd_holes s = pre ++ post /\ length pre = S i
  end ->
  insert_result s start en pre post (tcp_sackhole_insert s start en after).
Proof.
  intros Ha. unfold tcp_sackhole_insert, tcp_sackhole_alloc.
  destruct (orb _ _) eqn:Eo.
  { apply insert_failed; [|auto]. unfold room. apply orb_true_iff in Eo as [Eo|Eo]; zbool; lia. }
  destruct (sack_hole_zone s) as [|id zone] eqn:Ez.
  { apply insert_failed; [|auto]. unfold room. rewrite Ez. cbn [length]. lia. }
  cbn [update snd_holes nexthole].
  assert ((match after with
           | Some i => take (S i) (snd_holes s) ++ mk_sackhole id start en start :: drop (S i) (snd_holes s)
           | None => snd_holes s ++ [mk_sackhole id start en start] end)
          = pre ++ mk_sackhole id start en start :: post) as ->.
  { destruct after as [i|]; [|destruct Ha as [-> ->]; reflexivity].
    destruct Ha as [-> Hl]. rewrite <- Hl, take_app_length, drop_app_length. reflexivity. }
  apply (insert_done s start en pre post id zone Ez).
Qed.

Lemma KASSERT_true s : KASSERT true s = s.
Proof. unfold KASSERT. rewrite andb_true_r. destruct s; reflexivity. Qed.

Lemma sackhole_remove_result s L cur R :
  snd_holes s = L ++ cur :: R ->
  0 <= snd_numholes s - 1 -> 0 <= tcp_sack_globalholes s - 1 ->
  tcp_sackhole_remove s (length L) =
    s <| nexthole := if is_hole (nexthole s) cur then h_id <$> head R else nexthole s |>
      <| snd_holes := L ++ R |>
      <| sack_hole_zone := h_id cur :: sack_hole_zone s |>
      <| snd_numholes := snd_numholes s - 1 |>
      <| tcp_sack_globalholes := tcp_sack_globalholes s - 1 |>.
Proof.
  intros E Hn Hg. unfold tcp_sackhole_remove, tcp_sackhole_free. rewrite E.
  rewrite list_lookup_middle by reflexivity.
  replace ((L ++ cur :: R) !! S (length L)) with (head R).
  2:{ rewrite lookup_app_r by lia. replace (S (length L) - length L)%nat with 1%nat by lia.
      destruct R; reflexivity. }
  assert (forall l, take (length L) (L ++ l) = L) as Ht by (intros; apply take_app_length).
  assert (drop (S (length L)) (L ++ cur :: R) = R) as Hd.
  { change (cur :: R) with ([cur] ++ R). rewrite app_assoc.
    apply drop_app_length'. rewrite length_app. cbn. lia. }
  assert ((0 <=? snd_numholes s - 1) = true) as E1 by (apply Z.leb_le; lia).
  assert ((0 <=? tcp_sack_globalholes s - 1) = true) as E2 by (apply Z.leb_le; lia).
  destruct (is_hole (nexthole s) cur);
    cbn [KASSERT update snd_holes sack_hole_zone snd_numholes tcp_sack_globalholes kassert nexthole];
    rewrite E, Ht, Hd, E1, E2, !KASSERT_true; destruct s; reflexivity.
Qed.

Lemma set_hole_middle s L cur cur' R :
  snd_holes s = L ++ cur :: R ->
  set_hole s (length L) cur' = s <| snd_holes := L ++ cur' :: R |>.
Proof.
  intros E. unfold set_hole. rewrite E.
  replace (length L) with (length L + 0)%nat by lia. rewrite insert_app_r. reflexivity.
Qed.

(** ** One iteration of the sweep *)

Lemma u32_sub_near a b d : off base a - off base b = d -> 0 <= d < 2 ^ 30 -> u32 (a - b) = d.
Proof.
  intros H Hd. rewrite <- (u32_s32 (a - b)), (seq_sub_off base) by lia. rewrite H. apply u32_small. lia.
Qed.

Lemma lost_middle L cur R x s :
  snd_holes s = L ++ cur :: R -> lost s x <-> Exists (in_hole x) L \/ in_hole x cur \/ Exists (in_hole x) R.
Proof. intros E. unfold lost. rewrite E, Exists_app, Exists_cons. tauto. Qed.

(** What an iteration has to establish about the block [b] it looked at. *)
Record step_post (lo hi : Z) (s s1 : sackcb) (b : sackblk) (L1 R1 : list sackhole) (dropped : bool) : Prop := {
  sp_holes : snd_holes s1 = L1 ++ R1;
  sp_wf : board_wf lo hi s1;
  sp_frame : frame s s1;
  sp_right : Forall (fun h => be base b <= hs h) R1;
  sp_sound : forall x, lost s1 x -> lost s x;
  sp_keeps : forall x, lost s x -> ~ in_blk base x b -> lost s1 x;
  sp_acked : dropped = true -> room s 1 \/ bs base b <= lo -> forall x, lost s1 x -> ~ in_blk base x b;
  sp_room : forall n, room s (S n) -> room s1 (if dropped then n else S n) }.

Lemma room_S s n : room s (S n) -> room s n.
Proof. unfold room. lia. Qed.

(** A hole that was moved or trimmed in place: the common part of the cases. *)
Lemma replace_hole_wf lo hi s L cur cur' R :
  board_wf lo hi s -> snd_holes s = L ++ cur :: R ->
  h_id cur' = h_id cur -> hs cur <= hs cur' -> hs cur' < he cur' -> he cur' <= he cur ->
  hs cur' <= hr cur' <= he cur' -> (hr cur = he cur -> hr cur' = he cur') ->
  board_wf lo hi (s <| sack_bytes_rexmit := sack_bytes_rexmit s - (hr cur - hs cur) + (hr cur' - hs cur') |>
                    <| snd_holes := L ++ cur' :: R |>).
Proof.
  intros (W1 & W2 & W3 & W4 & W5 & W6 & W7 & W8) E Hid H1 H2 H3 H4 H5.
  rewrite E in *. unfold board_wf.
  cbn [update snd_holes sack_bytes_rexmit snd_numholes tcp_sack_globalholes sack_hole_zone nexthole].
  split; [assumption|]. split; [assumption|]. split.
  { apply holes_chain_app in W3 as (m & C1 & C2). apply holes_chain_app. exists m. split; [assumption|].
    cbn [chain] in *. destruct C2 as (C2 & C3 & C4). split; [lia|]. split; [lia|].
    eapply holes_chain_weaken; [exact C4|lia|lia]. }
  split. { rewrite W4, !retransmitted_app. cbn [retransmitted]. lia. }
  split. { rewrite W5, !length_app. cbn [length]. lia. }
  split; [assumption|]. split.
  { rewrite map_app in *. cbn [map] in *. rewrite Hid. assumption. }
  eapply hint_ok_update; eassumption.
Qed.

Lemma chain_middle lo hi L cur R :
  chain lo hi (L ++ cur :: R) ->
  (lo <= hs cur /\ hs cur < he cur /\ hs cur <= hr cur <= he cur /\ he cur <= hi) /\
  (forall x, Exists (in_hole x) L -> x < hs cur) /\ (forall x, Exists (in_hole x) R -> he cur <= x).
Proof.
  intros C. split; [eapply chain_bounds; [exact C|apply elem_of_app; right; left]|].
  apply holes_chain_app in C as (m & C1 & C2 & C3 & C4).
  split; intros x Hx; apply Exists_exists in Hx as (h & Hh & Hx); unfold in_hole in Hx.
  - eapply chain_bounds in Hh; [|exact C1]. lia.
  - eapply chain_bounds in Hh; [|exact C4]. lia.
Qed.

Lemma right_not_in b x R :
  Forall (fun h => be base b <= hs h) R -> Exists (in_hole x) R -> ~ in_blk base x b.
Proof.
  intros HR Hx. apply Exists_exists in Hx as (h & Hh & Hx).
  rewrite Forall_forall in HR. specialize (HR h Hh). unfold in_hole, in_blk in *. lia.
Qed.

(** The hole was trimmed to [cur'], which lies on one side of [b]. *)
Lemma step_replace lo hi s L cur cur' R b L1 R1 (dropped : bool) :
  board_wf lo hi s -> snd_holes s = L ++ cur :: R ->
  Forall (fun h => be base b <= hs h) R ->
  h_id cur' = h_id cur -> hs cur <= hs cur' -> hs cur' < he cur' -> he cur' <= he cur ->
  hs cur' <= hr cur' <= he cur' -> (hr cur = he cur -> hr cur' = he cur') ->
  (forall x, in_hole x cur -> ~ in_blk base x b -> in_hole x cur') ->
  (if dropped then L1 = L ++ [cur'] /\ R1 = R /\ he cur' <= bs base b
   else L1 = L /\ R1 = cur' :: R /\ be base b <= hs cur') ->
  step_post lo hi s
    (s <| sack_bytes_rexmit := sack_bytes_rexmit s - (hr cur - hs cur) + (hr cur' - hs cur') |>
       <| snd_holes := L ++ cur' :: R |>) b L1 R1 dropped.
Proof.
  intros W E HR Hid H1 H2 H3 H4 H5 Hx Hd.
  pose proof (replace_hole_wf lo hi s L cur cur' R W E Hid H1 H2 H3 H4 H5) as W'.
  match goal with |- step_post _ _ _ ?x _ _ _ _ => set (s1 := x) in * end.
  assert (snd_holes s1 = L ++ cur' :: R) as E1 by reflexivity.
  destruct W as (_ & _ & C & _). rewrite E in C.
  destruct (chain_middle _ _ _ _ _ C) as (C0 & CL & CR).
  split.
  - rewrite E1. destruct dropped; destruct Hd as (-> & -> & _); [rewrite <- app_assoc|]; reflexivity.
  - exact W'.
  - unfold frame. cbn. tauto.
  - destruct dropped; destruct Hd as (-> & -> & Hd); [assumption|constructor; assumption].
  - intros x. rewrite (lost_middle _ _ _ x s1 E1), (lost_middle _ _ _ x s E). unfold in_hole. intuition lia.
  - intros x. rewrite (lost_middle _ _ _ x s1 E1), (lost_middle _ _ _ x s E). intuition.
  - intros -> _ x. destruct Hd as (_ & _ & Hd). rewrite (lost_middle _ _ _ x s1 E1).
    intros [Hl|[Hl|Hl]]; [apply CL in Hl| |eapply right_not_in; eassumption];
      unfold in_hole, in_blk in *; lia.
  - intros n. destruct dropped; [intros Hr; apply room_S in Hr|intros Hr]; exact Hr.
Qed.

Lemma step_remove lo hi s L cur R b :
  board_wf lo hi s -> snd_holes s = L ++ cur :: R ->
  Forall (fun h => be base b <= hs h) R -> bs base b <= hs cur -> he cur <= be base b ->
  step_post lo hi s
    (tcp_sackhole_remove (s <| sack_bytes_rexmit := sack_bytes_rexmit s - (hr cur - hs cur) |>) (length L))
    b L R false.
Proof.
  intros (W1 & W2 & C & W4 & W5 & W6 & W7 & W8) E HR Hb1 Hb2.
  assert (0 <= snd_numholes s - 1) as Hn by (rewrite W5, E, length_app; cbn [length]; lia).
  rewrite (sackhole_remove_result _ L cur R) by (cbn [update snd_holes snd_numholes tcp_sack_globalholes]; (exact E || lia)).
  cbn [update snd_holes snd_numholes tcp_sack_globalholes nexthole sack_hole_zone].
  match goal with |- step_post _ _ _ ?x _ _ _ _ => set (s1 := x) in * end.
  rewrite E in C, W4, W5, W7, W8. destruct (chain_middle _ _ _ _ _ C) as (C0 & CL & CR).
  assert (forall x, lost s1 x <-> Exists (in_hole x) L \/ Exists (in_hole x) R) as Hl
    by (intros x; apply Exists_app).
  rewrite map_app in W7. cbn [map] in W7.
  split; [reflexivity| |unfold frame; cbn; intuition lia|assumption| | |discriminate|].
  - unfold board_wf. subst s1.
    cbn [update snd_holes sack_bytes_rexmit snd_numholes tcp_sack_globalholes sack_hole_zone nexthole].
    split; [assumption|]. split; [assumption|]. split.
    { apply holes_chain_app in C as (m & C1 & C2 & C3 & C4). apply holes_chain_app. exists m. split; [assumption|].
      eapply holes_chain_weaken; [exact C4|lia|lia]. }
    split; [rewrite W4, !retransmitted_app; cbn [retransmitted]; lia|].
    split; [rewrite W5, !length_app; cbn [length]; lia|]. split; [lia|]. split.
    { rewrite map_app, <- app_assoc in *. cbn [app] in W7.
      eapply NoDup_Permutation_proper; [|exact W7]. apply Permutation_app_head.
      symmetry. apply Permutation_middle. }
    apply hint_ok_remove; [|assumption]. rewrite map_app. cbn [map].
    apply NoDup_app in W7 as (W7 & _ & _). exact W7.
  - intros x. rewrite Hl, (lost_middle _ _ _ x s E). tauto.
  - intros x. rewrite Hl, (lost_middle _ _ _ x s E). unfold in_hole, in_blk. intuition lia.
  - intros n. unfold room, s1. cbn. lia.
Qed.

Lemma step_split lo hi s L cur cur' temp R b zone s1 :
  board_wf lo hi s -> snd_holes s = L ++ cur :: R ->
  Forall (fun h => be base b <= hs h) R -> sack_hole_zone s = h_id temp :: zone ->
  bs base b < be base b ->
  h_id cur' = h_id cur -> hs cur' = hs cur -> hs cur < he cur' -> he cur' = bs base b ->
  hr cur' = Z.min (hr cur) (he cur') ->
  hs temp = be base b -> he temp = he cur -> hs temp < he temp -> hr temp = Z.max (hr cur) (hs temp) ->
  s1 = s <| sack_hole_zone := zone |> <| snd_numholes := snd_numholes s + 1 |>
         <| tcp_sack_globalholes := tcp_sack_globalholes s + 1 |>
         <| snd_holes := L ++ cur' :: temp :: R |> <| nexthole := insert_hint (nexthole s) temp |>
         <| sack_bytes_rexmit := sack_bytes_rexmit s - (hr cur - hs cur) + (hr temp - hs temp)
                                 + (hr cur' - hs cur') |> ->
  step_post lo hi s s1 b (L ++ [cur']) (temp :: R) true.
Proof.
  intros (W1 & W2 & C & W4 & W5 & W6 & W7 & W8) E HR Ez Hb Hid H1 H2 H3 H4 T1 T2 T3 T4 Es1.
  assert (snd_holes s1 = L ++ cur' :: temp :: R) as E1 by (subst s1; reflexivity).
  rewrite E in C, W4, W5, W7, W8. destruct (chain_middle _ _ _ _ _ C) as (C0 & CL & CR).
  split.
  - rewrite E1, <- app_assoc. reflexivity.
  - unfold board_wf. rewrite E1. subst s1.
    cbn [update snd_holes sack_bytes_rexmit snd_numholes tcp_sack_globalholes sack_hole_zone nexthole].
    split; [assumption|]. split; [assumption|]. split.
    { apply holes_chain_app in C as (m & C1 & C2 & C3 & C4). apply holes_chain_app. exists m. split; [assumption|].
      cbn [chain]. split; [lia|]. split; [lia|]. split; [lia|]. split; [lia|]. rewrite T2. assumption. }
    split; [rewrite W4, !retransmitted_app; cbn [retransmitted]; lia|].
    split; [rewrite W5, !length_app; cbn [length]; lia|]. split; [lia|]. split.
    { rewrite Ez in W7. rewrite map_app, <- app_assoc in *. cbn [map app] in *. rewrite Hid.
      eapply NoDup_Permutation_proper; [|exact W7]. apply Permutation_app_head.
      constructor. apply Permutation_middle. }
    eapply hint_ok_update; [exact Hid| |apply hint_ok_insert; [|exact W8]]; lia.
  - subst s1. unfold frame. cbn. intuition lia.
  - constructor; [lia|assumption].
  - intros x. rewrite (lost_middle _ _ _ x s1 E1), (lost_middle _ _ _ x s E), Exists_cons.
    unfold in_hole. intuition lia.
  - intros x. rewrite (lost_middle _ _ _ x s1 E1), (lost_middle _ _ _ x s E), Exists_cons.
    unfold in_hole, in_blk. intuition lia.
  - intros _ _ x. rewrite (lost_middle _ _ _ x s1 E1), Exists_cons.
    intros [Hl|[Hl|[Hl|Hl]]]; [apply CL in Hl| | |eapply right_not_in; eassumption];
      unfold in_hole, in_blk in *; lia.
  - intros n. subst s1. unfold room. cbn. rewrite Ez. cbn [length]. lia.
Qed.

(** The iteration leaves the hole alone; [s1] only differs from [s] in the
    overflow counter. *)
Lemma step_same lo hi s s1 L cur R b L1 R1 dropped :
  board_wf lo hi s -> snd_holes s = L ++ cur :: R ->
  s1 = s \/ s1 = s <| tcps_sack_sboverflow := tcps_sack_sboverflow s + 1 |> ->
  L1 ++ R1 = L ++ cur :: R -> Forall (fun h => be base b <= hs h) R1 ->
  (dropped = true -> room s 1 \/ bs base b <= lo -> forall x, lost s x -> ~ in_blk base x b) ->
  step_post lo hi s s1 b L1 R1 dropped.
Proof.
  intros W E Hs1 E1 HR Hd.
  assert (snd_holes s1 = snd_holes s) as Eh by (destruct Hs1; subst s1; reflexivity).
  assert (forall x, lost s1 x <-> lost s x) as Hl by (intros x; unfold lost; rewrite Eh; tauto).
  split.
  - rewrite Eh, E, E1. reflexivity.
  - destruct Hs1; subst s1; assumption.
  - destruct Hs1; subst s1; unfold frame; cbn; tauto.
  - assumption.
  - intros x. rewrite Hl. tauto.
  - intros x. rewrite Hl. tauto.
  - intros Hdr Hr x. rewrite Hl. auto.
  - intros n Hr. assert (room s1 (S n)) as Hr' by (destruct Hs1; subst s1; exact Hr).
    destruct dropped; [apply room_S|]; exact Hr'.
Qed.

Lemma hole_near lo hi s h :
  board_wf lo hi s -> h ∈ snd_holes s ->
  near base (h_start h) /\ near base (h_end h) /\ near base (h_rxmit h).
Proof.
  intros (W1 & W2 & C & _) Hh. eapply chain_bounds in Hh; [|exact C].
  unfold near, hs, he, hr in *. lia.
Qed.

(** The byte count of the hint around a hole: taking the hole's share out and
    putting a smaller one back stays in range. *)
Lemma rexmit_bytes lo hi s L cur R :
  board_wf lo hi s -> snd_holes s = L ++ cur :: R ->
  u32 (h_rxmit cur - h_start cur) = hr cur - hs cur /\ 0 <= hr cur - hs cur /\
  s32 (sack_bytes_rexmit s - u32 (h_rxmit cur - h_start cur)) = sack_bytes_rexmit s - (hr cur - hs cur) /\
  0 <= sack_bytes_rexmit s - (hr cur - hs cur) /\ sack_bytes_rexmit s < 2 ^ 30.
Proof.
  intros (W1 & W2 & C & W4 & _) E. pose proof (retransmitted_bounds _ _ _ C) as Hb. rewrite E in *.
  destruct (chain_middle _ _ _ _ _ C) as (C0 & _ & _).
  assert (u32 (h_rxmit cur - h_start cur) = hr cur - hs cur) as Eu
    by (apply u32_sub_near; unfold hr, hs in *; lia).
  apply holes_chain_app in C as (m & C1 & C2 & C3 & C4).
  apply retransmitted_bounds in C1, C4. rewrite retransmitted_app in W4, Hb. cbn [retransmitted] in W4, Hb.
  rewrite Eu. repeat split; try lia. apply s32_small. lia.
Qed.

(** Writing a changed hole back and putting its share of the bytes back. *)
Lemma write_back_eq s L cur cur' R d :
  snd_holes s = L ++ cur :: R -> hr cur' - hs cur' = d -> 0 <= d < 2 ^ 30 ->
  0 <= sack_bytes_rexmit s < 2 ^ 30 ->
  (set_hole s (length L) cur')
    <| sack_bytes_rexmit := s32 (sack_bytes_rexmit s + u32 (h_rxmit cur' - h_start cur')) |>
  = s <| sack_bytes_rexmit := sack_bytes_rexmit s + d |> <| snd_holes := L ++ cur' :: R |>.
Proof.
  intros E Hd Hb Ha. rewrite (set_hole_middle _ L cur cur' R) by exact E.
  rewrite (u32_sub_near _ _ d) by assumption. rewrite s32_small by lia. reflexivity.
Qed.

Lemma advance_write_back s L cur cur' R b blks' :
  snd_holes s = L ++ cur :: R -> 0 <= hr cur' - hs cur' < 2 ^ 30 -> 0 <= sack_bytes_rexmit s < 2 ^ 30 ->
  near base (sb_start b) -> near base (h_start cur') ->
  doack_advance (set_hole s (length L) cur') b blks' (length L) cur' =
  let s1 := s <| sack_bytes_rexmit := sack_bytes_rexmit s + (hr cur' - hs cur') |>
              <| snd_holes := L ++ cur' :: R |> in
  if bs base b <=? hs cur' then (s1, b :: blks', length L) else (s1, blks', S (length L)).
Proof.
  intros E Hd Hb N1 N2. unfold doack_advance. rewrite (SEQ_LEQ_off base) by assumption.
  change (sack_bytes_rexmit (set_hole s (length L) cur')) with (sack_bytes_rexmit s).
  rewrite (write_back_eq s L cur cur' R _ E eq_refl Hd Hb). reflexivity.
Qed.

Lemma app_cons_middle' {A} (l : list A) x r : l ++ x :: r = (l ++ [x]) ++ r.
Proof. rewrite <- app_assoc. reflexivity. Qed.

Ltac seq_off := rewrite ?(SEQ_GEQ_off base), ?(SEQ_LEQ_off base), ?(SEQ_GT_off base), ?(SEQ_LT_off base) by assumption.

Lemma step_split_case lo hi s L cur R b blks' :
  board_wf lo hi s -> snd_holes s = L ++ cur :: R ->
  Forall (fun h => be base b <= hs h) R -> blk_ok base b ->
  hs cur < bs base b -> be base b < he cur ->
  exists s1 L1 R1 (dropped : bool),
    doack_split (s <| sack_bytes_rexmit := sack_bytes_rexmit s - (hr cur - hs cur) |>) b blks' (length L) cur
      = (s1, if dropped then blks' else b :: blks', length L1) /\
    length L1 = (if dropped then S (length L) else length L) /\
    step_post lo hi s s1 b L1 R1 dropped.
Proof.
  intros W E HR [[Nb1 Nb2] Hb] H1 H2.
  destruct (hole_near lo hi s cur W) as (Nc1 & Nc2 & Nc3); [rewrite E, elem_of_app; right; left|].
  destruct (rexmit_bytes _ _ _ _ _ _ W E) as (Eu & Hu & Es & Hs0 & Hs1).
  pose proof W as (W1 & W2 & C & _). rewrite E in C.
  destruct (chain_middle _ _ _ _ _ C) as (C0 & _ & _). clear C.
  assert (forall x, length (L ++ [x]) = S (length L)) as Hlen by (intros; rewrite length_app; cbn; lia).
  unfold doack_split. set (s0 := s <| sack_bytes_rexmit := _ |>).
  destruct (sackhole_insert_result s0 (sb_end b) (h_end cur) (Some (length L)) (L ++ [cur]) R)
    as [s' Hnr Hs'|id zone Ez hole].
  { split; [rewrite <- app_assoc; exact E|apply Hlen]. }
  - exists (s' <| sack_bytes_rexmit := sack_bytes_rexmit s |>), (L ++ [cur]), R, true. rewrite Hlen.
    assert (sack_bytes_rexmit s' = sack_bytes_rexmit s - (hr cur - hs cur)) as Eb
      by (destruct Hs'; subst s'; reflexivity).
    unfold doack_advance. rewrite Eb, Eu. replace (_ - _ + _) with (sack_bytes_rexmit s) by lia.
    rewrite s32_small by lia. seq_off. change (off base (sb_start b)) with (bs base b).
    change (off base (h_start cur)) with (hs cur). destruct (Z.leb_spec (bs base b) (hs cur)); [lia|].
    split; [reflexivity|]. split; [reflexivity|].
    eapply step_same; [exact W|exact E| |rewrite <- app_assoc; reflexivity|assumption|].
    + destruct Hs'; subst s'; [left|right]; destruct s; reflexivity.
    + intros _ [Hr|Hr]; [destruct (Hnr Hr)|lia].
  - set (temp := mk_sackhole id (sb_end b) (h_end cur)
                   (if SEQ_GT (h_rxmit cur) (sb_end b) then h_rxmit cur else sb_end b)).
    assert (hr temp = Z.max (hr cur) (be base b)) as Er by (apply (SEQ_MAX_off base); assumption).
    set (cur' := mk_sackhole (h_id cur) (h_start cur) (sb_start b) (SEQ_MIN (h_rxmit cur) (sb_start b))).
    assert (hr cur' = Z.min (hr cur) (bs base b)) as Er' by (apply SEQ_MIN_off; assumption).
    assert (hs cur' = hs cur) as Es' by reflexivity. assert (hs temp = be base b) as Et by reflexivity.
    match goal with |- context [if SEQ_GT _ _ then (set_hole ?x _ _) <| sack_bytes_rexmit := _ |> else _] => set (sN := x) end.
    assert ((if SEQ_GT (h_rxmit cur) (h_rxmit hole)
             then (set_hole sN (S (length L)) (hole <| h_rxmit := h_rxmit cur |>))
                    <| sack_bytes_rexmit := s32 (sack_bytes_rexmit sN +
                         u32 (h_rxmit (hole <| h_rxmit := h_rxmit cur |>) - h_start (hole <| h_rxmit := h_rxmit cur |>))) |>
             else sN)
            = sN <| sack_bytes_rexmit := sack_bytes_rexmit s - (hr cur - hs cur) + (hr temp - hs temp) |>
                 <| snd_holes := L ++ cur :: temp :: R |>) as Ew.
    { rewrite <- (Hlen cur). unfold temp. cbn [hole h_rxmit].
      destruct (SEQ_GT (h_rxmit cur) (sb_end b)) eqn:Eg.
      - rewrite (app_cons_middle' L cur (_ :: R)). 
        apply (write_back_eq sN (L ++ [cur]) hole); [reflexivity|reflexivity|unfold temp in Er, Et; lia|cbn; lia].
      - unfold hr, hs. cbn [h_rxmit h_start]. rewrite Z.sub_diag, Z.add_0_r.
        rewrite (app_cons_middle' L cur (_ :: R)). reflexivity. }
    rewrite Ew. clear Ew.
    change (cur <| h_end := sb_start b |> <| h_rxmit := _ |>) with cur'.
    set (sM := _ <| snd_holes := L ++ cur :: temp :: R |>).
    rewrite (advance_write_back sM L cur cur' (temp :: R)) by (reflexivity || assumption || lia || (cbn; lia)).
    destruct (Z.leb_spec (bs base b) (hs cur')); [lia|].
    eexists _, (L ++ [cur']), (temp :: R), true. rewrite Hlen. split; [reflexivity|]. split; [reflexivity|].
    eapply (step_split lo hi s L cur cur' temp R b zone); try assumption; try reflexivity; try lia.
Qed.

Lemma doack_step_spec lo hi s L cur R b blks' :
  board_wf lo hi s -> snd_holes s = L ++ cur :: R ->
  Forall (fun h => be base b <= hs h) R -> blk_ok base b ->
  exists s1 L1 R1 (dropped : bool),
    doack_step s b blks' (length L) cur
      = (s1, if dropped then blks' else b :: blks', length L1) /\
    length L1 = (if dropped then S (length L) else length L) /\
    step_post lo hi s s1 b L1 R1 dropped.
Proof.
  intros W E HR [[Nb1 Nb2] Hb].
  destruct (hole_near lo hi s cur W) as (Nc1 & Nc2 & Nc3); [rewrite E, elem_of_app; right; left|].
  destruct (rexmit_bytes _ _ _ _ _ _ W E) as (Eu & Hu & Es & Hs0 & Hs1).
  pose proof W as (W1 & W2 & C & _). rewrite E in C.
  destruct (chain_middle _ _ _ _ _ C) as (C0 & CL & CR). clear C.
  assert (forall x, length (L ++ [x]) = S (length L)) as Hlen by (intros; rewrite length_app; cbn; lia).
  unfold doack_step. seq_off.
  change (off base (sb_start b)) with (bs base b). change (off base (sb_end b)) with (be base b).
  change (off base (h_start cur)) with (hs cur). change (off base (h_end cur)) with (he cur).
  destruct (Z.leb_spec (he cur) (bs base b)).
  { exists s, (L ++ [cur]), R, true. rewrite Hlen. split; [reflexivity|]. split; [reflexivity|].
    eapply step_same; [exact W|exact E|auto|rewrite <- app_assoc; reflexivity|assumption|].
    intros _ _ x Hx. apply (lost_middle _ _ _ _ _ E) in Hx as [Hx|[Hx|Hx]];
      [apply CL in Hx| |eapply right_not_in; eassumption]; unfold in_blk, in_hole in *; lia. }
  destruct (Z.leb_spec (be base b) (hs cur)).
  { exists s, L, (cur :: R), false. do 2 (split; [reflexivity|]).
    eapply step_same; [exact W|exact E|auto|reflexivity|constructor; assumption|discriminate]. }
  rewrite Es. cbn [update sack_bytes_rexmit]. rewrite (proj2 (Z.leb_le _ _) Hs0), KASSERT_true.
  destruct (Z.leb_spec (bs base b) (hs cur)); destruct (Z.leb_spec (he cur) (be base b)).
  - eexists _, L, R, false. split; [reflexivity|]. split; [reflexivity|]. apply step_remove; assumption.
  - set (cur' := mk_sackhole (h_id cur) (sb_end b) (h_end cur) (SEQ_MAX (h_rxmit cur) (sb_end b))).
    change (cur <| h_start := sb_end b |> <| h_rxmit := _ |>) with cur'.
    assert (hr cur' = Z.max (hr cur) (be base b)) as Er by (apply SEQ_MAX_off; assumption).
    assert (hs cur' = be base b) as Es' by reflexivity. assert (he cur' = he cur) as Ee' by reflexivity.
    rewrite (advance_write_back _ L cur cur' R) by (exact E || assumption || lia || (cbn; lia)).
    destruct (Z.leb_spec (bs base b) (hs cur')); [|lia].
    eexists _, L, (cur' :: R), false. split; [reflexivity|]. split; [reflexivity|].
    apply (step_replace lo hi s L cur cur' R b L (cur' :: R) false); try assumption; try lia; [reflexivity|unfold in_hole, in_blk; intros; lia|auto with lia].
  - set (cur' := mk_sackhole (h_id cur) (h_start cur) (sb_start b) (SEQ_MIN (h_rxmit cur) (sb_start b))).
    change (cur <| h_end := sb_start b |> <| h_rxmit := _ |>) with cur'.
    assert (hr cur' = Z.min (hr cur) (bs base b)) as Er by (apply SEQ_MIN_off; assumption).
    assert (hs cur' = hs cur) as Es' by reflexivity. assert (he cur' = bs base b) as Ee' by reflexivity.
    rewrite (advance_write_back _ L cur cur' R) by (exact E || assumption || lia || (cbn; lia)).
    destruct (Z.leb_spec (bs base b) (hs cur')); [lia|].
    eexists _, (L ++ [cur']), R, true. rewrite Hlen. split; [reflexivity|]. split; [reflexivity|].
    apply (step_replace lo hi s L cur cur' R b (L ++ [cur']) R true); try assumption; try lia; [reflexivity|unfold in_hole, in_blk; intros; lia|auto with lia].
  - apply (step_split_case lo hi s L cur R b blks' W E HR (conj (conj Nb1 Nb2) Hb)); assumption.
Qed.

(** ** The sweep *)

(** Blocks by decreasing end, as the sweep takes them. *)
Fixpoint descending (blks : list sackblk) : Prop :=
  match blks with
  | [] => True
  | b :: rest => Forall (fun c => be base c <= be base b) rest /\ descending rest
  end.

(** What is lost after some blocks were taken off the scoreboard: nothing new,
    everything outside the blocks, and nothing inside them if there was room
    for the holes to split (a block from the lower end never splits one). *)
Definition acked (lo : Z) (s s' : sackcb) (blks : list sackblk) : Prop :=
  (forall x, lost s' x -> lost s x) /\
  (forall x, lost s x -> Forall (fun b => ~ in_blk base x b) blks -> lost s' x) /\
  (forall x, lost s' x ->
     Forall (fun b => room s (length blks) \/ bs base b <= lo -> ~ in_blk base x b) blks).

Lemma acked_drop lo hi s s1 s' b blks L1 R1 :
  step_post lo hi s s1 b L1 R1 true -> acked lo s1 s' blks -> acked lo s s' (b :: blks).
Proof.
  intros [P1 P2 P3 P4 P5 P6 P7 P8] (A1 & A2 & A3). split; [auto|split].
  - intros x Hx Hn. inversion Hn; subst. auto.
  - intros x Hx. constructor.
    + intros Hr. apply P7; [reflexivity| |auto]. destruct Hr as [Hr|Hr]; [left|auto].
      revert Hr. unfold room. cbn [length]. lia.
    + eapply Forall_impl; [exact (A3 x Hx)|]. cbn. intros c Hc [Hr|Hr]; [|auto].
      apply Hc. left. apply P8. exact Hr.
Qed.

Lemma acked_keep lo hi s s1 s' b blks L1 R1 :
  step_post lo hi s s1 b L1 R1 false -> acked lo s1 s' (b :: blks) -> acked lo s s' (b :: blks).
Proof.
  intros [P1 P2 P3 P4 P5 P6 P7 P8] (A1 & A2 & A3). split; [auto|split].
  - intros x Hx Hn. apply A2; [|exact Hn]. inversion Hn; subst. auto.
  - intros x Hx. eapply Forall_impl; [exact (A3 x Hx)|]. cbn. intros c Hc [Hr|Hr]; [|auto].
    apply Hc. left. apply (P8 _ Hr).
Qed.

Lemma doack_sweep_spec lo hi fuel : forall s blks L R,
  snd_holes s = L ++ R -> (length blks + length L <= fuel)%nat -> board_wf lo hi s ->
  Forall (blk_ok base) blks -> descending blks ->
  Forall (fun b => Forall (fun h => be base b <= hs h) R) blks ->
  exists s', doack_sweep fuel s blks (length L) = Some s' /\ board_wf lo hi s' /\ frame s s' /\
    acked lo s s' blks.
Proof.
  induction fuel as [|fuel IH]; intros s blks L R E Hf W Hb Hd HR.
  { destruct blks, L; cbn [length] in Hf; try lia. exists s. split; [reflexivity|].
    split; [assumption|]. split; [apply frame_refl|]. split; [auto|]. split; [auto|constructor]. }
  destruct blks as [|b blks].
  { exists s. split; [destruct (length L); reflexivity|].
    split; [assumption|]. split; [apply frame_refl|]. split; [auto|]. split; [auto|constructor]. }
  destruct (last_snoc_or_nil L) as [->|(L' & cur & ->)].
  { exists s. split; [reflexivity|]. split; [assumption|]. split; [apply frame_refl|].
    split; [auto|]. split; [auto|]. intros x Hx. unfold lost in Hx. rewrite E in Hx. cbn [app] in Hx.
    eapply Forall_impl; [exact HR|]. intros c Hc _. cbn in Hc. exact (right_not_in c x R Hc Hx). }
  rewrite <- app_assoc in E. cbn [app] in E.
  assert (length (L' ++ [cur]) = S (length L')) as Hlen by (rewrite length_app; cbn; lia).
  rewrite Hlen in *. cbn [doack_sweep].
  assert (snd_holes s !! length L' = Some cur) as -> by (rewrite E; apply list_lookup_middle; reflexivity).
  cbn [mbind option_bind].
  inversion Hb as [|? ? Hb1 Hb2]; subst. inversion HR as [|? ? HR1 HR2]; subst. destruct Hd as [Hd1 Hd2].
  destruct (doack_step_spec lo hi s L' cur R b blks W E HR1 Hb1)
    as (s1 & L1 & R1 & dropped & -> & El & P).
  pose proof P as [P1 P2 P3 P4 _ _ _ _].
  assert (Forall (fun c => Forall (fun h => be base c <= hs h) R1) blks) as HR'.
  { eapply Forall_impl; [exact Hd1|]. intros c Hc. eapply Forall_impl; [exact P4|].
    intros h Hh. cbn in *. lia. }
  destruct dropped.
  - destruct (IH s1 blks L1 R1) as (s' & -> & W' & F' & A'); try assumption; [cbn [length] in *; lia|].
    exists s'. split; [reflexivity|]. split; [assumption|]. split; [eapply frame_trans; eassumption|].
    eapply acked_drop; eassumption.
  - destruct (IH s1 (b :: blks) L1 R1) as (s' & -> & W' & F' & A'); try assumption;
      [cbn [length] in *; lia|split; assumption|constructor; assumption|].
    exists s'. split; [reflexivity|]. split; [assumption|]. split; [eapply frame_trans; eassumption|].
    eapply acked_keep; eassumption.
Qed.

(** ** Sorting the blocks *)

Fixpoint ascending (blks : list sackblk) : Prop :=
  match blks with
  | [] => True
  | b :: rest => Forall (fun c => be base b <= be base c) rest /\ ascending rest
  end.

Lemma sort_pass_spec rest : forall x z r,
  sort_pass x rest = (z, r) -> Forall (blk_ok base) (x :: rest) ->
  z :: r ≡ₚ x :: rest /\ Forall (fun c => be base z <= be base c) r /\ be base z <= be base x.
Proof.
  induction rest as [|y rest IH]; intros x z r E Hok; cbn [sort_pass] in E.
  { inversion E; subst. split; [reflexivity|]. split; [constructor|lia]. }
  inversion Hok as [|? ? Hx Hok']; subst. inversion Hok' as [|? ? Hy Hok'']; subst.
  rewrite (SEQ_GT_off base) in E by (apply Hx || apply Hy).
  destruct (Z.ltb_spec (off base (sb_end y)) (off base (sb_end x))) as [Hlt|Hge].
  - destruct (sort_pass y rest) as [z' r'] eqn:Es. inversion E; subst.
    destruct (IH _ _ _ Es Hok') as (P1 & P2 & P3). unfold be in *.
    split; [rewrite (Permutation_swap x z r'), P1; reflexivity|]. split; [constructor; [lia|assumption]|lia].
  - destruct (sort_pass x rest) as [z' r'] eqn:Es. inversion E; subst.
    destruct (IH _ _ _ Es (Forall_cons_2 _ _ _ Hx Hok'')) as (P1 & P2 & P3). unfold be in *.
    split; [rewrite (Permutation_swap y z r'), P1, (Permutation_swap x y rest); reflexivity|].
    split; [constructor; [lia|assumption]|lia].
Qed.

Lemma sort_blks_spec n : forall l,
  (length l <= n)%nat -> Forall (blk_ok base) l -> sort_blks n l ≡ₚ l /\ ascending (sort_blks n l).
Proof.
  induction n as [|n IH]; intros l Hl Hok.
  { destruct l; [|cbn in Hl; lia]. split; [reflexivity|exact I]. }
  destruct l as [|x rest]; [split; [reflexivity|exact I]|]. cbn [sort_blks].
  destruct (sort_pass x rest) as [z r] eqn:E.
  destruct (sort_pass_spec rest x z r E Hok) as (P1 & P2 & P3).
  pose proof (Permutation_length P1) as Hlen. cbn [length] in Hl, Hlen.
  assert (Forall (blk_ok base) r) as Hr
    by (rewrite <- P1 in Hok; inversion Hok; assumption).
  destruct (IH r ltac:(lia) Hr) as (Q1 & Q2).
  split; [rewrite Q1; exact P1|]. split; [rewrite Q1; exact P2|exact Q2].
Qed.

Lemma descending_snoc l x : descending l -> Forall (fun c => be base x <= be base c) l -> descending (l ++ [x]).
Proof.
  induction l as [|y l IH]; intros Hd Hx; cbn [app descending].
  - split; [constructor|exact I].
  - destruct Hd as [H1 H2]. inversion Hx; subst. split; [apply Forall_app; auto|auto].
Qed.

Lemma descending_app l1 l2 : descending (l1 ++ l2) -> descending l2.
Proof. induction l1 as [|x l1 IH]; cbn [app descending]; [auto|]. intros [_ H]. auto. Qed.

Lemma descending_reverse l : ascending l -> descending (reverse l).
Proof.
  induction l as [|x l IH]; intros H; [exact I|]. destruct H as [H1 H2].
  rewrite reverse_cons. apply descending_snoc; [auto|]. rewrite reverse_Permutation. exact H1.
Qed.

(** The filter of [tcp_sack_doack] is sound for arbitrary 32-bit values. *)
Lemma valid_blk_ok s th_ack b :
  base = snd_una s -> 0 <= off base th_ack <= off base (snd_max s) -> off base (snd_max s) < 2 ^ 30 ->
  valid_blk s th_ack b = true ->
  blk_ok base b /\ off base th_ack < bs base b /\ be base b <= off base (snd_max s).
Proof.
  intros Hbase Hack Hmax H. unfold valid_blk in H. rewrite <- Hbase in H. zbool.
  unfold SEQ_GT, SEQ_LT, SEQ_LEQ in *. zbool.
  change (s32 (sb_start b - base)) with (bs base b) in *.
  change (s32 (sb_end b - base)) with (be base b) in *.
  pose proof (off_range base (sb_start b)) as R1. pose proof (off_range base (sb_end b)) as R2.
  assert (s32 (sb_start b - snd_max s) = bs base b - off base (snd_max s)) as E1
    by (apply seq_sub_off; unfold bs in *; lia).
  assert (s32 (sb_end b - snd_max s) = be base b - off base (snd_max s)) as E2
    by (apply seq_sub_off; unfold be in *; lia).
  assert (s32 (sb_start b - th_ack) = bs base b - off base th_ack) as E3
    by (apply seq_sub_off; unfold bs in *; lia).
  assert (s32 (sb_end b - sb_start b) = be base b - bs base b) as E4
    by (apply seq_sub_off; unfold bs, be in *; lia).
  unfold blk_ok, blk_near, near, bs, be in *. lia.
Qed.

(** ** Advancing snd_fack *)

Lemma skip_right_spec f blks :
  near base f -> Forall (blk_ok base) blks ->
  exists d, blks = d ++ skip_right f blks /\ Forall (fun b => off base f < bs base b) d /\
    match skip_right f blks with b :: _ => bs base b <= off base f | [] => True end.
Proof.
  intros Nf. induction blks as [|b blks IH]; intros Hok; [exists []; split; [reflexivity|]; split; constructor|].
  inversion Hok as [|? ? Hb Hok']; subst. cbn [skip_right].
  rewrite (SEQ_LT_off base) by (assumption || apply Hb).
  destruct (Z.ltb_spec (off base f) (off base (sb_start b))) as [Hlt|Hge].
  - destruct (IH Hok') as (d & E & H1 & H2). exists (b :: d). cbn [app]. rewrite <- E.
    split; [reflexivity|]. split; [constructor; assumption|exact H2].
  - exists []. split; [reflexivity|]. split; [constructor|exact Hge].
Qed.

(** What [doack_fack] establishes: [d] are the blocks it is done with. *)
Record fack_post (lo M : Z) (s s1 : sackcb) (d blks1 : list sackblk) : Prop := {
  fp_wf : board_wf lo (off base (snd_fack s1)) s1;
  fp_fack : off base (snd_fack s) <= off base (snd_fack s1) <= M;
  fp_sound : forall x, lost s1 x ->
    lost s x \/ off base (snd_fack s) <= x < off base (snd_fack s1);
  fp_keeps : forall x, lost s x \/ off base (snd_fack s) <= x < off base (snd_fack s1) ->
    Forall (fun b => ~ in_blk base x b) (d ++ blks1) -> lost s1 x;
  fp_acked : forall x, lost s1 x ->
    Forall (fun b => room s (length (d ++ blks1)) \/ bs base b <= lo -> ~ in_blk base x b) d;
  fp_room : room s (length (d ++ blks1)) -> room s1 (length blks1);
  fp_frame : frame (s <| last_sack_ack := last_sack_ack s1 |> <| snd_fack := snd_fack s1 |>) s1 }.

(** Nothing is inserted; snd_fack may advance over the block [b]. *)
Lemma fack_keep lo M s s1 d b rest :
  board_wf lo (off base (snd_fack s)) s -> near base (snd_fack s) -> off base (snd_fack s) <= M -> M < 2 ^ 30 ->
  blk_ok base b -> bs base b <= off base (snd_fack s) -> be base b <= M ->
  snd_holes s1 = snd_holes s -> sack_bytes_rexmit s1 = sack_bytes_rexmit s ->
  sack_hole_zone s1 = sack_hole_zone s -> nexthole s1 = nexthole s -> snd_numholes s1 = snd_numholes s ->
  tcp_sack_globalholes s1 = tcp_sack_globalholes s ->
  frame (s <| last_sack_ack := last_sack_ack s1 |> <| snd_fack := snd_fack s1 |>) s1 ->
  off base (snd_fack s1) = Z.max (off base (snd_fack s)) (be base b) ->
  (d = [] \/ ~ room s 1) -> Forall (fun c => off base (snd_fack s) < bs base c) d ->
  fack_post lo M s s1 d (b :: rest).
Proof.
  intros (W1 & W2 & C & W4 & W5 & W6 & W7 & W8) Nf Hf HM Hb Hbs HbM E1 E2 E3 E4 E5 E6 F Ef Hd Hd'.
  assert (forall x, lost s1 x <-> lost s x) as Hl by (intros x; unfold lost; rewrite E1; tauto).
  split.
  - unfold board_wf. rewrite E1, E2, E3, E4, E5, E6, Ef. split; [assumption|]. split; [lia|].
    split; [eapply holes_chain_weaken; [exact C|lia|lia]|]. tauto.
  - rewrite Ef. lia.
  - intros x. rewrite Hl. auto.
  - intros x [Hx|Hx] Hn; rewrite Hl; [assumption|]. exfalso.
    apply Forall_app in Hn as [_ Hn]. inversion Hn as [|? ? Hnb _]; subst. apply Hnb.
    unfold in_blk. lia.
  - intros x Hx. destruct Hd as [->|Hd]; [constructor|]. pose proof (chain_le _ _ _ C).
    eapply Forall_impl; [exact Hd'|]. cbn. intros c Hc [Hr|Hr]; [|lia]. exfalso. apply Hd.
    revert Hr. unfold room. rewrite length_app. cbn [length]. lia.
  - destruct F as (_ & _ & _ & _ & _ & _ & _ & _ & F1 & F2 & _).
    unfold room. rewrite E3, E5, E6, F1, F2, length_app. cbn. lia.
  - exact F.
Qed.

(** A hole [[fack, start of b)] is added and snd_fack moves to the end of [b]. *)
Lemma fack_insert lo M s s1 b rest zone id :
  board_wf lo (off base (snd_fack s)) s -> M < 2 ^ 30 -> blk_ok base b ->
  off base (snd_fack s) < bs base b -> be base b <= M ->
  sack_hole_zone s = id :: zone ->
  s1 = s <| last_sack_ack := sb_end b |>
         <| sack_hole_zone := zone |> <| snd_numholes := snd_numholes s + 1 |>
         <| tcp_sack_globalholes := tcp_sack_globalholes s + 1 |>
         <| snd_holes := snd_holes s ++ [mk_sackhole id (snd_fack s) (sb_start b) (snd_fack s)] |>
         <| nexthole := insert_hint (nexthole s) (mk_sackhole id (snd_fack s) (sb_start b) (snd_fack s)) |>
         <| snd_fack := sb_end b |> ->
  fack_post lo M s s1 [b] rest.
Proof.
  intros (W1 & W2 & C & W4 & W5 & W6 & W7 & W8) HM [Nb Hb] Hbs HbM Ez Es1.
  pose proof (chain_le _ _ _ C) as Hlo.
  set (h := mk_sackhole id (snd_fack s) (sb_start b) (snd_fack s)) in *.
  assert (hs h = off base (snd_fack s) /\ he h = bs base b /\ hr h = hs h) as (Hh1 & Hh2 & Hh3) by (repeat split).
  assert (forall x, lost s1 x <-> lost s x \/ in_hole x h) as Hl.
  { intros x. subst s1. unfold lost. cbn [update snd_holes].
    rewrite Exists_app, Exists_cons, Exists_nil. tauto. }
  assert (forall x, lost s x -> x < off base (snd_fack s)) as Hlt.
  { intros x Hx. apply Exists_exists in Hx as (g & Hg & Hx). eapply chain_bounds in Hg; [|exact C].
    unfold in_hole in Hx. lia. }
  assert (off base (snd_fack s1) = be base b) as Ef by (subst s1; reflexivity).
  split.
  - unfold board_wf. rewrite Ef. subst s1.
    cbn [update snd_holes sack_bytes_rexmit snd_numholes tcp_sack_globalholes sack_hole_zone nexthole].
    split; [assumption|]. split; [lia|].
    split; [apply holes_chain_app; eexists; split; [exact C|cbn [chain]; lia]|].
    split; [rewrite W4, retransmitted_app; cbn [retransmitted]; lia|].
    split; [rewrite W5, length_app; cbn [length]; lia|]. split; [lia|]. split.
    { rewrite Ez in W7. rewrite map_app, <- app_assoc. exact W7. }
    apply hint_ok_snoc. assumption.
  - rewrite Ef. lia.
  - intros x. rewrite Hl, Ef. unfold in_hole. intuition lia.
  - intros x. rewrite Hl, Ef. cbn [app]. intros Hx Hn. inversion Hn as [|? ? Hnb _]; subst.
    unfold in_blk, in_hole in *. intuition lia.
  - intros x. rewrite Hl. intros Hx. constructor; [|constructor]. intros _.
    destruct Hx as [Hx|Hx]; [apply Hlt in Hx|]; unfold in_blk, in_hole in *; lia.
  - subst s1. unfold room. cbn. rewrite Ez. cbn [length]. lia.
  - subst s1. unfold frame. cbn. intuition lia.
Qed.

Lemma doack_fack_spec lo M s b blks' s1 blks1 :
  let blks := b :: blks' in
  doack_fack s blks = (s1, blks1) ->
  board_wf lo (off base (snd_fack s)) s -> near base (snd_fack s) -> off base (snd_fack s) <= M -> M < 2 ^ 30 ->
  Forall (blk_ok base) blks -> Forall (fun b => be base b <= M) blks ->
  exists d, blks = d ++ blks1 /\ fack_post lo M s s1 d blks1.
Proof.
  intros blks E W Nf Hf HM Hok HbM. subst blks.
  pose proof Hok as Hok0. inversion Hok as [|? ? Hb Hok']; subst. inversion HbM as [|? ? HbM1 HbM']; subst.
  unfold doack_fack in E. set (s0 := s <| last_sack_ack := sb_end b |>) in E.
  change (snd_fack s0) with (snd_fack s) in E.
  rewrite !(SEQ_LT_off base) in E by (assumption || apply Hb).
  change (off base (sb_start b)) with (bs base b) in E. change (off base (sb_end b)) with (be base b) in E.
  destruct (Z.ltb_spec (off base (snd_fack s)) (bs base b)) as [Hlt|Hge].
  - destruct (sackhole_insert_result s0 (snd_fack s) (sb_start b) None (snd_holes s) [])
      as [s' Hnr Hs'|id zone Ez hole]; [split; reflexivity| |].
    + assert (snd_fack s' = snd_fack s) as Ef by (destruct Hs'; subst s'; reflexivity).
      rewrite Ef in E.
      destruct (skip_right_spec (snd_fack s) (b :: blks') Nf Hok0) as (d & Ed & Hd1 & Hd2).
      destruct (skip_right (snd_fack s) (b :: blks')) as [|c rest] eqn:Esk.
      { inversion E; subst s1 blks1. exists d. split; [exact Ed|]. rewrite app_nil_r in Ed. rewrite <- Ed in *.
        split; rewrite ?Ef, ?app_nil_r.
        - destruct Hs'; subst s'; exact W.
        - lia.
        - intros x Hx. left. destruct Hs'; subst s'; exact Hx.
        - intros x [Hx|Hx] _; [|lia]. destruct Hs'; subst s'; exact Hx.
        - intros x _. pose proof W as (_ & _ & C & _). apply chain_le in C.
          eapply Forall_impl; [exact Hd1|]. cbn. intros c Hc [Hr|Hr]; [|lia]. exfalso. apply Hnr.
          revert Hr. unfold room. cbn [length s0 update snd_numholes tcp_sack_maxholes]. cbn. lia.
        - intros Hr. apply (fun H => H) in Hr. destruct Hs'; subst s'; revert Hr; unfold room; cbn; lia.
        - destruct Hs'; subst s'; unfold frame; cbn; tauto. }
      assert (blk_ok base c /\ be base c <= M) as [Hc HcM].
      { rewrite Ed in Hok0, HbM. apply Forall_app in Hok0 as [_ Hk1]. apply Forall_app in HbM as [_ Hk2].
        inversion Hk1; inversion Hk2; auto. }
      rewrite (SEQ_LT_off base) in E by (assumption || apply Hc).
      change (off base (sb_end c)) with (be base c) in E.
      assert (blks1 = c :: rest) as -> by (destruct (_ <? _); inversion E; reflexivity).
      exists d. split; [exact Ed|].
      destruct (Z.ltb_spec (off base (snd_fack s)) (be base c)); inversion E; subst s1; clear E;
        (apply fack_keep; try assumption;
         try (destruct Hs'; subst s'; reflexivity);
         [destruct Hs'; subst s'; unfold frame; cbn; tauto| |right; exact Hnr]);
        rewrite ?Ef; cbn [update snd_fack]; unfold be in *; lia.
    + inversion E; subst s1 blks1. exists [b]. split; [reflexivity|].
      eapply fack_insert; try eassumption. reflexivity.
  - assert (blks1 = b :: blks') as -> by (destruct (_ <? _); inversion E; reflexivity).
    exists []. split; [reflexivity|].
    destruct (Z.ltb_spec (off base (snd_fack s)) (be base b)); inversion E; subst s1; clear E;
      apply fack_keep; try assumption; try reflexivity;
      first [solve [unfold frame; cbn; tauto] | solve [left; reflexivity] | solve [constructor]
            | cbn [update snd_fack s0]; unfold be in *; lia].
Qed.

Lemma board_wf_empty lo hi s : board_wf lo hi s -> snd_holes s = [] -> board_wf 0 0 s.
Proof.
  intros (W1 & W2 & C & W) E. split; [lia|]. split; [lia|]. split; [rewrite E; cbn; lia|exact W].
Qed.

(** The blocks collected for the sweep. *)
Lemma doack_blks_ok s to th_ack blks :
  base = snd_una s -> 0 <= off base th_ack <= off base (snd_max s) -> off base (snd_max s) < 2 ^ 30 ->
  doack_blks s to th_ack = Some blks ->
  Forall (blk_ok base) blks /\ Forall (fun b => be base b <= off base (snd_max s)) blks /\
  (snd_holes s = [] -> Forall (fun b => off base th_ack < bs base b) blks) /\
  (snd_holes s <> [] -> 0 < off base th_ack -> mk_sackblk (snd_una s) th_ack ∈ blks).
Proof.
  intros Hbase Hack HM E. unfold doack_blks in E. rewrite <- Hbase in E.
  assert (near base base) as Nb by (unfold near; rewrite off_refl; lia).
  rewrite (SEQ_LT_off base) in E by (assumption || (unfold near; lia)). rewrite off_refl in E.
  set (una := if (_ : bool) then _ : list sackblk else _) in E.
  assert (exists rb, blks = una ++ List.filter (valid_blk s th_ack) rb) as (rb & ->).
  { destruct (has_flag _ _); [|exists []; rewrite app_nil_r; congruence].
    destruct (received_blks to) as [rb|]; cbn in E; [exists rb; congruence|discriminate]. }
  clear E. assert (forall P : sackblk -> Prop,
    (forall b, blk_ok base b /\ off base th_ack < bs base b /\ be base b <= off base (snd_max s) -> P b) ->
    Forall P (List.filter (valid_blk s th_ack) rb)) as HF.
  { intros P HP. apply List.Forall_forall. intros b Hin. apply filter_In in Hin as [_ Hv].
    apply HP. eapply valid_blk_ok; eassumption. }
  assert (una = [] \/ (snd_holes s <> [] /\ 0 < off base th_ack /\ una = [mk_sackblk base th_ack])) as Hu.
  { subst una. destruct (Z.ltb_spec 0 (off base th_ack)); destruct (snd_holes s); cbn; auto.
    }
  assert (0 < off base th_ack -> blk_ok base (mk_sackblk base th_ack)) as Hok.
  { intros H. unfold blk_ok, blk_near, bs, be, near. cbn [sb_start sb_end]. rewrite off_refl. lia. }
  split; [|split; [|split]].
  - apply Forall_app. split; [|apply HF; tauto]. destruct Hu as [->|(_ & H & ->)]; auto.
  - apply Forall_app. split; [|apply HF; tauto]. destruct Hu as [->|(_ & H & ->)]; [constructor|].
    constructor; [cbn; unfold be; cbn; lia|constructor].
  - intros Hh. apply Forall_app. split; [|apply HF; tauto].
    destruct Hu as [->|(H & _)]; [constructor|contradiction].
  - intros Hh Ha. apply elem_of_app. left. rewrite <- Hbase. subst una.
    destruct (Z.ltb_spec 0 (off base th_ack)); [|lia]. destruct (snd_holes s); [contradiction|]. left.
Qed.

(** From the blocks to the final scoreboard. *)
Lemma doack_main lo M s0 sorted d blks1 s1 s' :
  sorted = d ++ blks1 -> fack_post lo M s0 s1 d blks1 -> frame s1 s' -> acked lo s1 s' blks1 ->
  (forall x, lost s' x -> lost s0 x \/ off base (snd_fack s0) <= x < off base (snd_fack s')) /\
  (forall x, lost s0 x \/ off base (snd_fack s0) <= x < off base (snd_fack s') ->
     ~ Exists (in_blk base x) sorted -> lost s' x) /\
  (forall x, lost s' x ->
     Forall (fun b => room s0 (length sorted) \/ bs base b <= lo -> ~ in_blk base x b) sorted).
Proof.
  intros -> [F1 F2 F3 F4 F5 F6 F7] Fr (A1 & A2 & A3).
  assert (snd_fack s' = snd_fack s1) as Ef by (apply Fr). rewrite Ef.
  split; [auto|]. split.
  - intros x Hx Hn. apply Forall_Exists_neg in Hn. apply A2; [auto|]. apply Forall_app in Hn. tauto.
  - intros x Hx. apply Forall_app. split; [auto|].
    eapply Forall_impl; [exact (A3 x Hx)|]. cbn. intros b Hb [Hr|Hr]; auto.
Qed.

End board.
(** ** tcp_sack_doack *)

(** The scoreboard of a connection: well formed relative to [snd_una], and
    nothing beyond [snd_max]. *)
Definition scoreboard (s : sackcb) : Prop :=
  let una := snd_una s in
  0 <= off una (snd_max s) < 2 ^ 30 /\
  match snd_holes s with
  | [] => board_wf una 0 0 s
  | _ => board_wf una 0 (off una (snd_fack s)) s /\ off una (snd_fack s) <= off una (snd_max s)
  end.

Lemma doack_start s th_ack :
  scoreboard s -> 0 <= off (snd_una s) th_ack <= off (snd_una s) (snd_max s) ->
  let base := snd_una s in
  let s0 := if is_empty (snd_holes s) then s <| snd_fack := SEQ_MAX (snd_una s) th_ack |> else s in
  board_wf base 0 (off base (snd_fack s0)) s0 /\ near base (snd_fack s0) /\
  off base (snd_fack s0) <= off base (snd_max s) /\ snd_holes s0 = snd_holes s /\ kassert s0 = kassert s /\
  snd_una s0 = snd_una s /\ snd_max s0 = snd_max s /\ (forall n, room s0 n <-> room s n) /\
  (snd_holes s = [] -> off base (snd_fack s0) = off base th_ack).
Proof.
  intros (HM & Hs) Hack base. unfold near.
  destruct (snd_holes s) as [|h t] eqn:E; cbn [is_empty]; cbv zeta.
  - assert (off base (SEQ_MAX (snd_una s) th_ack) = off base th_ack) as Em.
    { fold base. fold base in Hack, HM. pose proof (off_refl base).
      rewrite (SEQ_MAX_off base) by (unfold near; lia). lia. }
    cbn [update snd_fack snd_holes kassert snd_una snd_max]. rewrite Em. fold base in Hack, HM.
    split; [|split; [lia|split; [lia|split; [assumption|]]]].
    { destruct Hs as (W1 & W2 & C & W). split; [lia|]. split; [lia|].
      split; [cbn [update snd_holes]; rewrite E; cbn; lia|exact W]. }
    repeat (split; [reflexivity|]). intros _; reflexivity.
  - destruct Hs as [W Hf]. pose proof W as (_ & _ & C & _). apply chain_le in C. fold base in Hf, HM, C.
    split; [exact W|]. split; [lia|]. split; [lia|].
    split; [assumption|]. repeat (split; [reflexivity|]). discriminate.
Qed.

Lemma doack_fack_nonempty s b rest s1 blks1 :
  doack_fack s (b :: rest) = (s1, blks1) ->
  snd_holes s <> [] \/ (room s 1 /\ SEQ_LT (snd_fack s) (sb_start b) = true) -> snd_holes s1 <> [].
Proof.
  intros E H. unfold doack_fack in E. set (s0 := s <| last_sack_ack := sb_end b |>) in E.
  change (snd_fack s0) with (snd_fack s) in E.
  destruct (SEQ_LT (snd_fack s) (sb_start b)).
  - destruct (sackhole_insert_result s0 (snd_fack s) (sb_start b) None (snd_holes s) [])
      as [s' Hnr Hs'|id zone Ez hole]; [split; reflexivity| |].
    + assert (snd_holes s1 = snd_holes s) as ->.
      { destruct (skip_right (snd_fack s') (b :: rest)); [inversion E; subst|destruct (SEQ_LT _ _); inversion E; subst];
          destruct Hs'; subst; reflexivity. }
      destruct H as [H|[H _]]; [exact H|]. destruct (Hnr H).
    + inversion E; subst. cbn. destruct (snd_holes s); discriminate.
  - destruct H as [H|[_ H]]; [|discriminate]. destruct (SEQ_LT _ _); inversion E; subst; exact H.
Qed.

(** Nothing below the cumulative ACK stays lost. *)
Lemma doack_above base s s0 s' sorted blks th_ack x :
  lost base s' x -> chain base 0 (off base (snd_fack s')) (snd_holes s') -> sorted ≡ₚ blks ->
  snd_holes s0 = snd_holes s -> (snd_holes s = [] -> off base (snd_fack s0) = off base th_ack) ->
  (snd_holes s <> [] -> 0 < off base th_ack -> mk_sackblk (snd_una s) th_ack ∈ blks) -> base = snd_una s ->
  lost base s0 x \/ off base (snd_fack s0) <= x < off base (snd_fack s') ->
  Forall (fun b => room s0 (length sorted) \/ bs base b <= 0 -> ~ in_blk base x b) sorted ->
  off base th_ack <= x.
Proof.
  intros Hx C P Eh Ef Hin Hbase Hx0 HF.
  assert (0 <= x) as H0.
  { apply Exists_exists in Hx as (h & Hh & Hx). eapply chain_bounds in Hh; [|exact C].
    unfold in_hole in Hx. lia. }
  destruct (Z_lt_le_dec 0 (off base th_ack)) as [Ha|Ha]; [|lia].
  destruct (snd_holes s) as [|h t] eqn:E.
  - destruct Hx0 as [Hx0|Hx0]; [unfold lost in Hx0; rewrite Eh in Hx0; inversion Hx0|].
    rewrite Ef in Hx0 by reflexivity. lia.
  - specialize (Hin ltac:(discriminate) Ha). rewrite <- P in Hin. rewrite Forall_forall in HF.
    specialize (HF _ Hin). unfold in_blk, bs, be in HF. cbn [sb_start sb_end] in HF.
    rewrite <- Hbase, off_refl in HF. lia.
Qed.

(** The run of tcp_sack_doack, from the accepted blocks to the end of the
    sweep: the blocks in the order of the sweep, those [doack_fack] was done
    with, and the states before and after the sweep. *)
Lemma doack_run s to th_ack blks :
  scoreboard s -> 0 <= off (snd_una s) th_ack <= off (snd_una s) (snd_max s) ->
  doack_blks s to th_ack = Some blks -> blks <> [] ->
  let una := snd_una s in
  let s0 := if is_empty (snd_holes s) then s <| snd_fack := SEQ_MAX (snd_una s) th_ack |> else s in
  exists sorted d blks1 s1 s', tcp_sack_doack s to th_ack = Some s' /\
    sorted ≡ₚ blks /\ sorted = d ++ blks1 /\ fack_post una 0 (off una (snd_max s)) s0 s1 d blks1 /\
    board_wf una 0 (off una (snd_fack s1)) s' /\
    frame (KASSERT (negb (is_empty (snd_holes s1))) s1) s' /\ acked una 0 s1 s' blks1 /\
    (room s (length blks) \/ snd_holes s <> [] -> snd_holes s1 <> []).
Proof.
  intros Hs Hack Eb Hne una s0.
  destruct (doack_start s th_ack Hs Hack) as (W0 & Nf & HfM & Eh & Ek & Eu & EM & Er & Ef0).
  fold s0 in W0, Nf, HfM, Eh, Ek, Eu, EM, Er, Ef0.
  destruct (doack_blks_ok una s to th_ack blks eq_refl Hack (proj2 (proj1 Hs)) Eb) as (B1 & B2 & B3 & _).
  destruct (sort_blks_spec una (length blks) blks (Nat.le_refl _) B1) as [P A].
  pose proof (descending_reverse una _ A) as D.
  unfold tcp_sack_doack. rewrite Eb. cbn [mbind option_bind].
  assert (is_empty blks = false) as -> by (destruct blks; [contradiction|reflexivity]). fold s0.
  set (sorted := reverse (sort_blks (length blks) blks)) in *.
  assert (sorted ≡ₚ blks) as P' by (subst sorted; rewrite reverse_Permutation; exact P). clearbody sorted.
  destruct (doack_fack s0 sorted) as [s1 blks1] eqn:E1.
  assert (Forall (blk_ok una) sorted) as S1 by (rewrite P'; exact B1).
  assert (Forall (fun b => be una b <= off una (snd_max s)) sorted) as S2 by (rewrite P'; exact B2).
  destruct sorted as [|b0 rest]; [symmetry in P'; apply Permutation_nil_r in P'; contradiction|].
  destruct (doack_fack_spec una 0 _ s0 b0 rest s1 blks1 E1 W0 Nf HfM (proj2 (proj1 Hs)) S1 S2) as (d & Ed & F).
  assert (Forall (blk_ok una) blks1 /\ descending una blks1) as [Q1 Q2].
  { rewrite Ed in S1, D. apply Forall_app in S1. apply descending_app in D. tauto. }
  destruct (doack_sweep_spec una 0 (off una (snd_fack s1)) (length blks1 + length (snd_holes s1))
              (KASSERT (negb (is_empty (snd_holes s1))) s1) blks1 (snd_holes s1) []) as (s' & Esw & W' & Fr & Ac);
    [symmetry; apply app_nil_r|lia|exact (fp_wf _ _ _ _ _ _ _ F)|exact Q1|exact Q2|apply Forall_forall; constructor|].
  exists (b0 :: rest), d, blks1, s1, s'. do 7 (split; [assumption|]). intros Hr.
  apply (doack_fack_nonempty s0 b0 rest s1 blks1 E1).
  rewrite Eh. destruct (snd_holes s) eqn:Ehs; [right|left; discriminate].
  destruct Hr as [Hr|Hr]; [|contradiction]. rewrite <- (Permutation_length P') in Hr. apply Er in Hr. split.
  - revert Hr. unfold room. cbn [length]. lia.
  - specialize (B3 eq_refl). specialize (Ef0 eq_refl). rewrite <- P' in B3.
    apply Forall_cons in B3 as [B3 _]. apply Forall_cons in S1 as [Hb0 _].
    rewrite (SEQ_LT_off una) by (assumption || apply Hb0).
    apply Z.ltb_lt. fold una in Ef0. rewrite Ef0. exact B3.
Qed.

Lemma doack_fields base M s0 s1 s' d blks1 :
  fack_post base 0 M s0 s1 d blks1 -> frame (KASSERT (negb (is_empty (snd_holes s1))) s1) s' ->
  snd_una s' = snd_una s0 /\ snd_max s' = snd_max s0 /\ snd_fack s' = snd_fack s1 /\
  kassert s' = kassert s0 && negb (is_empty (snd_holes s1)).
Proof.
  intros [_ _ _ _ _ _ (_ & _ & _ & R5 & _ & R6 & _ & _ & _ & _ & R7 & _)]
    (_ & _ & _ & R1 & _ & R2 & R3 & _ & _ & _ & R4 & _).
  cbn [KASSERT update snd_una snd_max snd_fack kassert] in *. 
  rewrite R1, R2, R3, R4. unfold KASSERT. cbn [update snd_una snd_max snd_fack kassert].
  rewrite R5, R6, R7. auto.
Qed.

(** C28: what an acknowledgement does to the scoreboard.  [blks] are the blocks
    tcp_sack_doack accepts (the cumulative ACK when there are holes, and the
    valid blocks of the option).  The sweep terminates; the scoreboard stays
    well formed: ordered disjoint non-empty holes below snd_fack <= snd_max,
    with the hint's counters consistent; a byte is lost afterwards only if it
    was lost before or lies between the old and the new snd_fack; every such
    byte outside the blocks is lost, so unacknowledged data is never taken for
    received; when the holes to be added could be allocated, no acknowledged
    byte remains lost, and in any case none below the cumulative ACK does; and
    the KASSERTs hold unless an empty scoreboard could not get its first hole. *)
Theorem tcp_sack_doack_correct s to th_ack blks :
  scoreboard s -> 0 <= off (snd_una s) th_ack <= off (snd_una s) (snd_max s) ->
  doack_blks s to th_ack = Some blks -> blks <> [] ->
  let una := snd_una s in
  let fack := off una (if is_empty (snd_holes s) then SEQ_MAX una th_ack else snd_fack s) in
  exists s', tcp_sack_doack s to th_ack = Some s' /\ scoreboard s' /\ snd_una s' = una /\
    let fack' := off una (snd_fack s') in
    fack <= fack' /\
    (forall x, lost una s' x -> lost una s x \/ fack <= x < fack') /\
    (forall x, lost una s x \/ fack <= x < fack' -> ~ Exists (in_blk una x) blks -> lost una s' x) /\
    (room s (length blks) -> forall x, lost una s' x -> ~ Exists (in_blk una x) blks) /\
    (forall x, lost una s' x -> off una th_ack <= x) /\
    (room s (length blks) \/ snd_holes s <> [] -> kassert s' = kassert s).
Proof.
  intros Hs Hack Eb Hne una.
  destruct (doack_run s to th_ack blks Hs Hack Eb Hne)
    as (sorted & d & blks1 & s1 & s' & Esw & P & Ed & F & W' & Fr & Ac & Hnn).
  destruct (doack_start s th_ack Hs Hack) as (_ & _ & _ & Eh & Ek & Eu & EM & Er & Ef0).
  destruct (doack_blks_ok una s to th_ack blks eq_refl Hack (proj2 (proj1 Hs)) Eb) as (_ & _ & _ & B4).
  fold una in Ed, F, W', Ac, Eh, Ek, Eu, EM, Er, Ef0.
  set (s0 := if is_empty (snd_holes s) then _ else s) in *.
  assert (off una (if is_empty (snd_holes s) then SEQ_MAX una th_ack else snd_fack s) = off una (snd_fack s0))
    as -> by (subst s0; destruct (is_empty (snd_holes s)); reflexivity).
  destruct (doack_main una 0 _ s0 sorted d blks1 s1 (s' <| kassert := kassert s1 |>) Ed F) as (M1 & M2 & M3);
    [revert Fr; unfold frame; cbn; tauto|exact Ac|].
  change (snd_fack (s' <| kassert := kassert s1 |>)) with (snd_fack s') in M1, M2.
  assert (room s0 (length sorted) <-> room s (length blks)) as Er' by (rewrite (Permutation_length P); apply Er).
  destruct (doack_fields una _ s0 s1 s' _ _ F Fr) as (G1 & G2 & G3 & G4). rewrite Eu in G1. rewrite EM in G2.
  rewrite Ek in G4. destruct F as [_ F2 _ _ _ _ _]. rewrite <- G3 in F2.
  assert (forall x, lost una s x <-> lost una s0 x) as El by (intros x; unfold lost; rewrite Eh; tauto).
  exists s'. split; [exact Esw|]. split.
  { unfold scoreboard. rewrite G1, G2. split; [exact (proj1 Hs)|]. rewrite <- G3 in W'.
    destruct (snd_holes s') eqn:Eh'; [eapply board_wf_empty; eassumption|]. split; [exact W'|exact (proj2 F2)]. }
  split; [exact G1|]. cbv zeta. split; [exact (proj1 F2)|].
  split; [intros x Hx; rewrite El; auto|]. split.
  { intros x Hx Hn. rewrite El in Hx. apply (M2 x Hx). rewrite P. exact Hn. }
  split.
  { intros Hr x Hx Hn. rewrite <- P in Hn. revert Hn. apply Forall_Exists_neg.
    eapply Forall_impl; [exact (M3 x Hx)|]. cbn. intros c Hc. apply Hc. left. apply Er', Hr. }
  split.
  { intros x Hx. destruct W' as (_ & _ & C & _). rewrite <- G3 in C.
    exact (doack_above una s s0 s' sorted blks th_ack x Hx C P Eh Ef0 B4 eq_refl (M1 x Hx) (M3 x Hx)). }
  intros Hr. rewrite G4. specialize (Hnn Hr). destruct (snd_holes s1); [contradiction|]. apply andb_true_r.
Qed.
(** ** tcp_sack_output *)

Definition to_send (h : sackhole) : bool := SEQ_LT (h_rxmit h) (h_end h).

Lemma to_send_off base lo hi l h :
  chain base lo hi l -> 0 <= lo -> hi < 2 ^ 30 -> h ∈ l -> to_send h = (hr base h <? he base h).
Proof.
  intros C H1 H2 Hh. eapply chain_bounds in Hh; [|exact C]. unfold to_send.
  apply SEQ_LT_off; unfold near, hs, he, hr in *; lia.
Qed.

Lemma holes_from_app A h B :
  NoDup (map h_id (A ++ h :: B)) -> holes_from (h_id h) (A ++ h :: B) = h :: B.
Proof.
  induction A as [|a A IH]; cbn [app map holes_from]; intros Hn.
  - rewrite Z.eqb_refl. reflexivity.
  - inversion Hn as [|? ? Hni Hn']; subst. destruct (Z.eqb_spec (h_id a) (h_id h)) as [E|_]; [|auto].
    exfalso. apply Hni. rewrite E, map_app, elem_of_app. right. left.
Qed.

Lemma find_app_none {A} (f : A -> bool) l1 l2 :
  Forall (fun x => f x = false) l1 -> List.find f (l1 ++ l2) = List.find f l2.
Proof. induction 1 as [|x l1 Hx _ IH]; cbn [app List.find]; [reflexivity|rewrite Hx; exact IH]. Qed.

Lemma find_split {A} (f : A -> bool) l x :
  List.find f l = Some x -> exists l1 l2, l = l1 ++ x :: l2 /\ Forall (fun y => f y = false) l1 /\ f x = true.
Proof.
  induction l as [|y l IH]; cbn [List.find]; [discriminate|]. destruct (f y) eqn:E.
  - intros H. inversion H; subst. exists [], l. auto.
  - intros H. destruct (IH H) as (l1 & l2 & -> & H1 & H2). exists (y :: l1), l2. auto.
Qed.

Lemma hint_advance base lo hi s h B' A h' :
  board_wf base lo hi s -> snd_holes s = A ++ h :: B' -> Forall (fun g => hr base g = he base g) A ->
  to_send h = false -> List.find to_send B' = Some h' ->
  hint_ok base (snd_holes s) (Some (h_id h')).
Proof.
  intros (W1 & W2 & C & _) E HA Hh Hf.
  destruct (find_split _ _ _ Hf) as (l1 & l2 & -> & H1 & H2).
  exists (A ++ h :: l1), (h' :: l2). split; [rewrite <- app_assoc; exact E|]. split; [|reflexivity].
  assert (forall g, g ∈ snd_holes s -> to_send g = false -> hr base g = he base g) as Hg.
  { intros g Hin Hts. rewrite (to_send_off base lo hi _ g C W1 W2 Hin) in Hts. zbool.
    eapply chain_bounds in Hin; [|exact C]. lia. }
  rewrite E in Hg. apply Forall_app. split; [exact HA|]. constructor.
  - apply Hg; [rewrite elem_of_app; right; left|exact Hh].
  - apply Forall_forall. intros g Hin. rewrite Forall_forall in H1. apply Hg; [|apply H1, Hin].
    rewrite elem_of_app. right. right. rewrite elem_of_app. left. exact Hin.
Qed.

Lemma output_spec base lo hi s :
  board_wf base lo hi s ->
  let '(s', hole, bytes) := tcp_sack_output s in
  hole = List.find to_send (snd_holes s) /\ bytes = retransmitted base (snd_holes s) /\
  board_wf base lo hi s' /\ snd_holes s' = snd_holes s /\
  s' = s <| nexthole := nexthole s' |>.
Proof.
  intros W. pose proof W as (W1 & W2 & C & W4 & W5 & W6 & W7 & (A & B & E & HA & Hn)).
  assert (Forall (fun g => to_send g = false) A) as HA'.
  { rewrite Forall_forall in *. intros g Hg.
    rewrite (to_send_off base lo hi (snd_holes s) g C W1 W2) by (rewrite E, elem_of_app; auto).
    apply Z.ltb_ge. rewrite (HA g Hg). lia. }
  unfold tcp_sack_output. fold to_send. rewrite Hn.
  destruct B as [|h B']; cbn [head fmap option_fmap option_map].
  { rewrite E, (find_app_none _ _ _ HA'). cbn [List.find]. rewrite <- E.
    split; [reflexivity|]. split; [exact W4|]. split; [exact W|]. split; [reflexivity|destruct s; reflexivity]. }
  rewrite E in W7 |- *. rewrite holes_from_app by (apply NoDup_app in W7; tauto).
  rewrite (find_app_none _ _ _ HA'). cbn [List.find]. fold (to_send h). rewrite <- E.
  destruct (to_send h) eqn:Eh; [split; [reflexivity|]; split; [exact W4|]; split; [exact W|];
    split; [reflexivity|destruct s; reflexivity]|].
  destruct (List.find to_send B') as [h'|] eqn:Ef; [|split; [reflexivity|]; split; [exact W4|];
    split; [exact W|]; split; [reflexivity|destruct s; reflexivity]].
  split; [reflexivity|]. split; [exact W4|]. split; [|split; reflexivity].
  pose proof W as (_ & _ & _ & _ & _ & _ & W7' & _).
  split; [exact W1|]. split; [exact W2|]. split; [exact C|]. split; [exact W4|]. split; [exact W5|].
  split; [exact W6|]. split; [exact W7'|]. exact (hint_advance base lo hi s h B' A h' W E HA Eh Ef).
Qed.
(** C29: the hint is exact: on a well-formed scoreboard tcp_sack_output returns
    the first hole with data still to retransmit (what a walk over the whole
    scoreboard finds), and the number of retransmitted bytes of all holes; the
    scoreboard stays well formed and keeps its holes. *)
Theorem tcp_sack_output_first s :
  scoreboard s ->
  let '(s', hole, bytes) := tcp_sack_output s in
  hole = List.find (fun h => SEQ_LT (h_rxmit h) (h_end h)) (snd_holes s) /\
  bytes = retransmitted (snd_una s) (snd_holes s) /\
  scoreboard s' /\ snd_holes s' = snd_holes s.
Proof.
  intros [HM Hs].
  set (hi := match snd_holes s with [] => 0 | _ => off (snd_una s) (snd_fack s) end).
  assert (board_wf (snd_una s) 0 hi s) as W by (subst hi; destruct (snd_holes s); [exact Hs|apply Hs]).
  pose proof (output_spec _ _ _ _ W) as H. destruct (tcp_sack_output s) as [[s' hole] bytes].
  destruct H as (H1 & H2 & H3 & H4 & H5). split; [exact H1|]. split; [exact H2|]. split; [|exact H4].
  assert (snd_una s' = snd_una s /\ snd_max s' = snd_max s /\ snd_fack s' = snd_fack s) as (E1 & E2 & E3)
    by (rewrite H5; auto).
  unfold scoreboard. rewrite H4, E1, E2, E3. split; [exact HM|]. subst hi.
  destruct (snd_holes s); [exact H3|]. split; [exact H3|apply Hs].
Qed.

(** ** tcp_sack_adjust *)

Lemma adjust_loop_spec base nxt fack lo hi rest : forall cur,
  chain base lo hi (cur :: rest) -> 0 <= lo -> hi < 2 ^ 30 -> hi = off base fack ->
  near base nxt -> hs base cur <= off base nxt < hi ->
  match adjust_loop nxt fack cur rest with
  | None => Exists (in_hole base (off base nxt)) (cur :: rest)
  | Some n => near base n /\ off base nxt <= off base n <= hi /\
      (forall x, off base nxt <= x < off base n -> ~ Exists (in_hole base x) (cur :: rest)) /\
      (Exists (in_hole base (off base n)) (cur :: rest) \/ off base n = hi)
  end.
Proof.
  revert lo. induction rest as [|p rest IH]; intros lo cur C Hlo Hhi Ef Nn Hn.
  - destruct C as (C1 & C2 & C3). cbn [chain adjust_loop] in *.
    rewrite (SEQ_LT_off base) by (unfold near, hs, he in *; lia). fold (he base cur).
    destruct (Z.ltb_spec (off base nxt) (he base cur)).
    + left. unfold in_hole. lia.
    + rewrite <- Ef. split; [unfold near; lia|]. split; [lia|]. split; [|auto].
      intros x Hx He. inversion He as [? ? Hi|? ? Hi]; subst; [unfold in_hole in Hi; lia|inversion Hi].
  - pose proof C as (C1 & C2 & C3). pose proof C3 as (C4 & C5 & C6). pose proof (chain_le _ _ _ _ C6) as C7.
    cbn [adjust_loop]. rewrite (SEQ_LT_off base), (SEQ_GEQ_off base) by (unfold near, hs, he in *; lia).
    fold (he base cur). fold (hs base p).
    destruct (Z.ltb_spec (off base nxt) (he base cur)); [left; unfold in_hole; lia|].
    destruct (Z.leb_spec (hs base p) (off base nxt)).
    + specialize (IH _ p C3 ltac:(lia) Hhi Ef Nn ltac:(lia)).
      destruct (adjust_loop nxt fack p rest).
      * destruct IH as (I1 & I2 & I3 & I4). split; [exact I1|]. split; [exact I2|]. split.
        { intros x Hx He. inversion He as [? ? Hi|? ? Hi]; subst; [unfold in_hole in Hi; lia|].
          exact (I3 x Hx Hi). }
        destruct I4 as [I4|I4]; [left; right; exact I4|auto].
      * right. exact IH.
    + split; [unfold near, hs in *; lia|]. split; [unfold hs in *; lia|]. split.
      * intros x Hx He. apply Exists_exists in He as (g & Hg & Hi). unfold in_hole in Hi.
        apply elem_of_cons in Hg as [->|Hg]; [unfold hs in *; lia|].
        assert (hs base p <= hs base g) by (apply elem_of_cons in Hg as [->|Hg]; [lia|];
          eapply chain_bounds in Hg; [|exact C6]; lia). unfold hs in *. lia.
      * left. right. left. unfold in_hole, hs in *. lia.
Qed.

(** After a timeout, tcp_sack_adjust moves snd_nxt to the first byte from
    there on that is not known to have been received: nothing it skips is in a
    hole, and it stops in a hole or at snd_fack. *)
Theorem tcp_sack_adjust_correct s :
  scoreboard s -> snd_holes s <> [] ->
  let una := snd_una s in
  (match snd_holes s with h :: _ => hs una h | [] => 0 end) <= off una (snd_nxt s) <= off una (snd_fack s) ->
  let s' := tcp_sack_adjust s in
  let n := off una (snd_nxt s) in
  let n' := off una (snd_nxt s') in
  n <= n' <= off una (snd_fack s) /\
  (forall x, n <= x < n' -> ~ lost una s x) /\
  (lost una s n' \/ n' = off una (snd_fack s)) /\
  s' = s <| snd_nxt := snd_nxt s' |>.
Proof.
  intros [HM Hs] Hne una Hn. unfold tcp_sack_adjust, lost. fold una in Hs, HM.
  destruct (snd_holes s) as [|cur rest] eqn:E; [contradiction|].
  destruct Hs as [(W1 & W2 & C & _) Hf]. rewrite E in C.
  pose proof (chain_bounds _ _ _ _ cur C ltac:(left)) as Hc.
  assert (near una (snd_nxt s) /\ near una (snd_fack s)) as [Nn Nf] by (unfold near; lia).
  rewrite (SEQ_GEQ_off una) by assumption.
  destruct (Z.leb_spec (off una (snd_fack s)) (off una (snd_nxt s))).
  { cbv zeta. split; [lia|]. split; [lia|]. split; [right; lia|destruct s; reflexivity]. }
  pose proof (adjust_loop_spec una (snd_nxt s) (snd_fack s) 0 _ rest cur C W1 W2 eq_refl Nn ltac:(lia)) as H'.
  destruct (adjust_loop (snd_nxt s) (snd_fack s) cur rest) as [n|]; cbv zeta; cbn [update snd_nxt].
  - destruct H' as (I1 & I2 & I3 & I4). split; [lia|]. split; [exact I3|]. split; [exact I4|reflexivity].
  - split; [lia|]. split; [lia|]. split; [left; exact H'|destruct s; reflexivity].
Qed.
(** ** tcp_free_sackholes *)

(** Removal does not look at the hint's byte count. *)
Lemma free_loop_bytes n : forall s a,
  free_loop n (s <| sack_bytes_rexmit := a |>) = (free_loop n s) <| sack_bytes_rexmit := a |>.
Proof.
  induction n as [|n IH]; intros s a; cbn [free_loop]; [reflexivity|].
  change (snd_holes (s <| sack_bytes_rexmit := a |>)) with (snd_holes s).
  destruct (is_empty (snd_holes s)); [reflexivity|]. rewrite <- IH. f_equal.
  unfold tcp_sackhole_remove. change (snd_holes (s <| sack_bytes_rexmit := a |>)) with (snd_holes s).
  destruct (snd_holes s !! 0%nat); [|reflexivity].
  change (nexthole (s <| sack_bytes_rexmit := a |>)) with (nexthole s).
  destruct (is_hole (nexthole s) s0); reflexivity.
Qed.

Lemma free_loop_spec base n : forall lo hi s,
  length (snd_holes s) = n -> board_wf base lo hi s ->
  exists s', free_loop n s = s' /\ snd_holes s' = [] /\ board_wf base lo hi (s' <| sack_bytes_rexmit := 0 |>) /\
    kassert s' = kassert s /\ snd_una s' = snd_una s /\ snd_max s' = snd_max s /\
    tcp_sack_globalholes s' = tcp_sack_globalholes s - Z.of_nat n /\
    sack_hole_zone s' ≡ₚ map h_id (snd_holes s) ++ sack_hole_zone s.
Proof.
  induction n as [|n IH]; intros lo hi s Hl W.
  - destruct (snd_holes s) eqn:E; [|discriminate]. exists s. cbn [free_loop]. split; [reflexivity|].
    pose proof W as (W1 & W2 & C & W4 & W5 & W6 & W7 & W8). split; [assumption|]. split.
    { rewrite E in *. unfold board_wf. cbn [update snd_holes sack_bytes_rexmit snd_numholes tcp_sack_globalholes sack_hole_zone nexthole].
      rewrite E. tauto. }
    repeat (split; [reflexivity|]). split; [lia|reflexivity].
  - destruct (snd_holes s) as [|h t] eqn:E; [discriminate|]. injection Hl as Hl.
    cbn [free_loop]. rewrite E. cbn [is_empty].
    pose proof W as (W1 & W2 & C & W4 & W5 & W6 & W7 & W8). rewrite E in *. cbn [length] in W5.
    pose proof (sackhole_remove_result s [] h t E ltac:(lia) ltac:(lia)) as Erm. cbn [length] in Erm. rewrite Erm.
    match goal with |- context [free_loop n ?x] => set (s1 := x) end.
    destruct (IH lo hi (s1 <| sack_bytes_rexmit := retransmitted base t |>)) as
      (s' & Es' & I1 & I2 & I3 & I4 & I5 & I6 & I7).
    { exact Hl. }
    { pose proof (hint_ok_remove base [] h t (nexthole s)) as Hh. cbn [app] in Hh.
      destruct C as (C1 & C2 & C3). cbn [map app] in W7.
      unfold board_wf, s1. cbn [update snd_holes sack_bytes_rexmit snd_numholes tcp_sack_globalholes sack_hole_zone nexthole app].
      split; [assumption|]. split; [assumption|]. split; [eapply holes_chain_weaken; [exact C3|lia|lia]|].
      split; [reflexivity|]. split; [lia|]. split; [lia|]. split.
      { eapply NoDup_Permutation_proper; [|exact W7]. symmetry. apply Permutation_middle. }
      apply Hh; [|assumption]. cbn [map]. change (h_id h :: map h_id t) with (map h_id (h :: t)).
      apply (NoDup_app (map h_id (h :: t)) (sack_hole_zone s)) in W7. tauto. }
    exists (free_loop n s1). rewrite (free_loop_bytes n s1 (retransmitted base t)) in Es'. subst s'.
    split; [reflexivity|]. split; [exact I1|]. split; [exact I2|]. split; [exact I3|].
    split; [exact I4|]. split; [exact I5|]. cbn in I6, I7. split; [cbn; lia|].
    cbn [app] in *. rewrite I7. cbn [map app]. symmetry. apply Permutation_middle.
Qed.
(** Tcp_free_sackholes leaves an empty, well-formed scoreboard with a
    cleared hint, gives every hole back to the zone and to the global count,
    and both its KASSERTs hold. *)
Theorem tcp_free_sackholes_correct s :
  scoreboard s ->
  let s' := tcp_free_sackholes s in
  snd_holes s' = [] /\ snd_numholes s' = 0 /\ nexthole s' = None /\ sack_bytes_rexmit s' = 0 /\
  kassert s' = kassert s /\ scoreboard s' /\
  tcp_sack_globalholes s' = tcp_sack_globalholes s - Z.of_nat (length (snd_holes s)) /\
  sack_hole_zone s' ≡ₚ map h_id (snd_holes s) ++ sack_hole_zone s.
Proof.
  intros [HM Hs].
  set (hi := match snd_holes s with [] => 0 | _ => off (snd_una s) (snd_fack s) end).
  assert (board_wf (snd_una s) 0 hi s) as W by (subst hi; destruct (snd_holes s); [exact Hs|apply Hs]).
  destruct (free_loop_spec (snd_una s) _ 0 hi s eq_refl W) as (s1 & E & I1 & I2 & I3 & I4 & I5 & I6 & I7).
  unfold tcp_free_sackholes. rewrite E.
  pose proof I2 as (_ & _ & _ & _ & I8 & _ & _ & (A & B & I9 & _ & I10)).
  cbn [update snd_holes snd_numholes nexthole] in *. rewrite I1 in *. cbn [length] in I8.
  symmetry in I9. apply app_nil in I9 as [-> ->]. cbn in I10.
  rewrite I8, I10. change (Z.of_nat 0 =? 0) with true. cbv zeta. rewrite !KASSERT_true.
  cbn [update snd_holes snd_numholes nexthole sack_bytes_rexmit kassert tcp_sack_globalholes sack_hole_zone].
  do 5 (split; [first [assumption|reflexivity]|]). split; [|split; assumption].
  unfold scoreboard. cbn [update snd_una snd_max snd_holes]. rewrite I1, I4, I5.
  split; [exact HM|]. eapply board_wf_empty; [exact I2|exact I1].
Qed.

(** ** Examples *)

(** 2000 bytes in flight from 1000, nothing reported yet. *)
Definition sample_sender (globalmax : Z) : sackcb :=
  mk_sackcb 0 0 [] 1000 1000 3000 0 [] 0 None 0 0 128 globalmax 0 [1; 2; 3; 4; 5; 6] 0 true.

Definition sack_option (blks : list sackblk) : tcpopt :=
  mk_tcpopt TOF_SACK 0 0 (concat (map sack_bytes blks)) [] 0 0 (Z.of_nat (length blks)).

Lemma sample_sender_ok g : scoreboard (sample_sender g).
Proof.
  split; [split; vm_compute; congruence|]. cbn [sample_sender snd_holes].
  split; [lia|]. split; [lia|]. split; [cbn; lia|]. split; [reflexivity|]. split; [reflexivity|].
  split; [cbn; lia|]. split; [cbn; repeat constructor; set_solver|]. exists [], []. auto.
Qed.

Definition two_blocks : tcpopt := sack_option [mk_sackblk 1200 1300; mk_sackblk 1500 1600].

Lemma tcp_sack_doack_witness :
  (exists s', tcp_sack_doack (sample_sender 65536) two_blocks 1000 = Some s' /\
     map (fun h => (h_start h, h_end h)) (snd_holes s') = [(1000, 1200); (1300, 1500)] /\
     snd_fack s' = 1600) /\
  exists s', tcp_sack_doack (sample_sender 65536) two_blocks 1000 = Some s' /\ scoreboard s'.
Proof.
  split; [eexists; split; [vm_compute; reflexivity|split; reflexivity]|].
  destruct (tcp_sack_doack_correct (sample_sender 65536) two_blocks 1000
              [mk_sackblk 1200 1300; mk_sackblk 1500 1600]) as (s' & E & W & _);
    [apply sample_sender_ok|split; vm_compute; congruence|vm_compute; reflexivity|discriminate|].
  exists s'. split; [exact E|exact W].
Defined.

(** A scoreboard with one hole retransmitted in full, still the hint, and a
    second one not yet sent. *)
Definition sample_board : sackcb :=
  mk_sackcb 0 0 [] 1000 3000 3000 2700
    [mk_sackhole 1 1000 2000 2000; mk_sackhole 2 2500 2600 2500] 2 (Some 1) 1000 2700 128 65536 2
    [3; 4; 5; 6] 0 true.

Lemma sample_board_ok : scoreboard sample_board.
Proof.
  split; [split; vm_compute; congruence|]. cbn [sample_board snd_holes].
  split; [|vm_compute; congruence].
  split; [lia|]. split; [vm_compute; reflexivity|]. split.
  { cbn [chain sample_board snd_holes]. unfold hs, he, hr. cbn [h_start h_end h_rxmit snd_una].
    repeat split; vm_compute; congruence. }
  split; [vm_compute; reflexivity|]. split; [reflexivity|]. split; [cbn; lia|].
  split; [cbn; repeat constructor; set_solver|].
  exists [], (snd_holes sample_board). split; [reflexivity|]. split; [constructor|reflexivity].
Qed.

Lemma tcp_sack_output_witness :
  (let '(s', hole, bytes) := tcp_sack_output sample_board in
   (h_id <$> hole) = Some 2 /\ bytes = 1000 /\ nexthole s' = Some 2) /\
  (let '(s', hole, bytes) := tcp_sack_output sample_board in
   hole = List.find (fun h => SEQ_LT (h_rxmit h) (h_end h)) (snd_holes sample_board) /\
   bytes = retransmitted (snd_una sample_board) (snd_holes sample_board) /\
   scoreboard s' /\ snd_holes s' = snd_holes sample_board).
Proof.
  split; [vm_compute; auto|]. apply (tcp_sack_output_first sample_board sample_board_ok).
Defined.

(** [snd_nxt] pulled back to 2100, inside data that was SACKed: it moves to the
    start of the next hole. *)
Lemma tcp_sack_adjust_witness :
  snd_nxt (tcp_sack_adjust (sample_board <| snd_nxt := 2100 |>)) = 2500 /\
  (let s := sample_board <| snd_nxt := 2100 |> in
   let n' := off (snd_una s) (snd_nxt (tcp_sack_adjust s)) in
   off (snd_una s) (snd_nxt s) <= n' <= off (snd_una s) (snd_fack s)).
Proof.
  split; [vm_compute; reflexivity|].
  apply (tcp_sack_adjust_correct (sample_board <| snd_nxt := 2100 |>));
    [exact sample_board_ok|discriminate|split; vm_compute; congruence].
Defined.

Lemma tcp_free_sackholes_witness :
  snd_holes (tcp_free_sackholes sample_board) = [] /\ kassert (tcp_free_sackholes sample_board) = true.
Proof.
  destruct (tcp_free_sackholes_correct sample_board sample_board_ok) as (H1 & _ & _ & _ & H2 & _).
  split; [exact H1|exact H2].
Defined.

(** The KASSERT of tcp_sack_doack that the scoreboard is not empty is wrong:
    with the global limit of holes reached, the first SACK of a connection
    whose scoreboard is empty fails to allocate its hole, and the sweep is
    entered with an empty scoreboard. *)
Theorem tcp_sack_doack_kassert_fails :
  exists s', tcp_sack_doack (sample_sender 0) two_blocks 1000 = Some s' /\
    scoreboard (sample_sender 0) /\ snd_holes s' = [] /\ kassert s' = false.
Proof.
  eexists. split; [vm_compute; reflexivity|]. split; [apply sample_sender_ok|]. split; reflexivity.
Qed.

(** The loop of tcp_sack_output can traverse more than one link, contrary
    to the argument in the comment above it: splitting a hole that was already
    retransmitted leaves a second hole with rxmit equal to end right after the
    hint. *)
Theorem tcp_sack_output_two_links :
  exists s' h1 h2 h3,
    tcp_sack_doack sample_board (sack_option [mk_sackblk 1400 1500]) 1000 = Some s' /\
    scoreboard sample_board /\ snd_holes s' = [h1; h2; h3] /\ nexthole s' = Some (h_id h1) /\
    to_send h2 = false /\ snd (fst (tcp_sack_output s')) = Some h3.
Proof.
  do 4 eexists. split; [vm_compute; reflexivity|]. split; [apply sample_board_ok|].
  split; [reflexivity|]. split; [reflexivity|]. split; reflexivity.
Qed.

End Sack.
