(* ===== verification/TcpCC.v ===== *)
(** * Congestion control

    The congestion control hooks of sys/netinet/tcp_input.c and tcp_output.c
    ([cc_ack_received], [cc_conn_init], [cc_cong_signal], [cc_post_recovery],
    [cc_after_idle], [tcp_newreno_partial_ack] around its call of [tcp_output]), the interface they call
    ([struct cc_algo] of sys/netinet/cc.h) and its default implementation,
    sys/netinet/cc/cc_newreno.c.

    The hooks are stated and proved against the interface, a record of optional
    functions as in the code; [CongestionControl] is what TCP relies on from an
    algorithm, and [newreno_cc_algo] is shown to provide it. *)

From S2P Require Import Prelude TcpSeq Callout TcpOptions TcpSack.

Module CC.

Import TcpSack.Sack.

(** ** Constants *)

Definition TF_ACKNOW := 1.
Definition TF_DELACK := 2.
Definition TF_REQ_SCALE := 32.
Definition TF_REQ_TSTMP := 128.
Definition TF_PREVVALID := 8192.
Definition TF_FASTRECOVERY := 1048576.
Definition TF_WASFRECOVERY := 2097152.
Definition TF_FORCEDATA := 8388608.
Definition TF_ECN_PERMIT := 67108864.
Definition TF_ECN_SND_CWR := 134217728.
Definition TF_CONGRECOVERY := 536870912.
Definition TF_WASCRECOVERY := 1073741824.

Definition CCF_ABC_SENTAWND := 1.
Definition CCF_CWND_LIMITED := 2.

Definition CC_ACK := 1.
Definition CC_DUPACK := 2.

Definition CC_ECN := 1.
Definition CC_RTO := 2.
Definition CC_RTO_ERR := 4.
Definition CC_NDUPACK := 8.

Definition TCP_MAXWIN := 65535.
Definition TCP_RTT_SCALE := 32.
Definition TCP_RTT_SHIFT := 5.
Definition TCP_RTTVAR_SCALE := 16.
Definition TCP_RTTVAR_SHIFT := 4.
Definition TCP_DELTA_SHIFT := 2.

(** The timers of a connection, struct tcp_timer less the reassembly deadline
    (which is with the reassembly queue). *)
Record tcp_timer := mk_tcp_timer {
  tt_rexmt : callout;
  tt_persist : callout;
  tt_keep : callout;
  tt_2msl : callout;
  tt_delack : callout }.

#[export] Instance eta_tcp_timer : Eta tcp_timer := fun r =>
  mk_tcp_timer (tt_rexmt r) (tt_persist r) (tt_keep r) (tt_2msl r) (tt_delack r).

(** The fields of struct tcpcb the congestion control hooks and the timers
    work on, with [ccv] inlined ([bytes_this_ack], [curack], [ccv_flags]).
    [snd_una], [snd_nxt] and [snd_max] are those of the SACK scoreboard's part
    [t_sack]. *)
Record tcpcb := mk_tcpcb {
  t_sack : sackcb;
  t_state : Z;
  t_flags : Z;
  t_maxseg : Z;
  t_dupacks : Z;
  t_bytes_acked : Z;
  snd_wnd : Z;
  snd_cwnd : Z;
  snd_ssthresh : Z;
  snd_recover : Z;
  snd_scale : Z;
  snd_cwnd_prev : Z;
  snd_ssthresh_prev : Z;
  snd_recover_prev : Z;
  t_badrxtwin : Z;
  bytes_this_ack : Z;
  curack : Z;
  ccv_flags : Z;
  t_srtt : Z;
  t_rttvar : Z;
  t_rttbest : Z;
  t_rttmin : Z;
  t_rttupdated : Z;
  t_rtttime : Z;
  t_rxtcur : Z;
  t_rxtshift : Z;
  t_softerror : Z;
  t_rcvtime : Z;
  t_keepinit : Z;
  t_keepidle : Z;
  t_keepintvl : Z;
  t_keepcnt : Z;
  t_timers : tcp_timer;
  sack_newdata : Z;
  inp_dropped : bool }.

#[export] Instance eta_tcpcb : Eta tcpcb := fun r =>
  mk_tcpcb (t_sack r) (t_state r) (t_flags r) (t_maxseg r) (t_dupacks r) (t_bytes_acked r)
    (snd_wnd r) (snd_cwnd r) (snd_ssthresh r) (snd_recover r) (snd_scale r) (snd_cwnd_prev r)
    (snd_ssthresh_prev r) (snd_recover_prev r) (t_badrxtwin r) (bytes_this_ack r) (curack r)
    (ccv_flags r) (t_srtt r) (t_rttvar r) (t_rttbest r) (t_rttmin r) (t_rttupdated r)
    (t_rtttime r) (t_rxtcur r) (t_rxtshift r) (t_softerror r) (t_rcvtime r) (t_keepinit r)
    (t_keepidle r) (t_keepintvl r) (t_keepcnt r) (t_timers r) (sack_newdata r) (inp_dropped r).

Definition una (tp : tcpcb) : Z := snd_una (t_sack tp).
Definition nxt (tp : tcpcb) : Z := snd_nxt (t_sack tp).
Definition smax (tp : tcpcb) : Z := snd_max (t_sack tp).
Definition set_nxt (v : Z) (tp : tcpcb) : tcpcb := tp <| t_sack := (t_sack tp) <| snd_nxt := v |> |>.

Definition set_flag (f : Z) (tp : tcpcb) : tcpcb := tp <| t_flags := Z.lor (t_flags tp) f |>.
Definition clear_flag (f : Z) (tp : tcpcb) : tcpcb :=
  tp <| t_flags := Z.land (t_flags tp) (Z.lnot f) |>.

Definition IN_FASTRECOVERY (flags : Z) : bool := has_flag flags TF_FASTRECOVERY.
Definition IN_CONGRECOVERY (flags : Z) : bool := has_flag flags TF_CONGRECOVERY.
Definition TF_RECOVERY : Z := Z.lor TF_CONGRECOVERY TF_FASTRECOVERY.
Definition IN_RECOVERY (flags : Z) : bool := has_flag flags TF_RECOVERY.

Definition BYTES_THIS_ACK (tp : tcpcb) (th_ack : Z) : Z := u32 (th_ack - una tp).

(** The sysctl variables of the module and [hz], [tcp_rexmit_slop]. *)
Record ccenv := mk_ccenv {
  tcp_do_rfc3465 : bool;
  tcp_do_rfc3390 : bool;
  tcp_abc_l_var : Z;
  ss_fltsz : Z;
  ss_fltsz_local : Z;
  hz : Z;
  tcp_rexmit_slop : Z }.

Definition TCPTV_REXMTMAX (e : ccenv) : Z := 64 * hz e.

(** [TCPT_RANGESET]: the comparisons are made as [u_long]. *)
Definition TCPT_RANGESET (e : ccenv) (value tvmin tvmax : Z) : Z :=
  let tv := s32 (value + tcp_rexmit_slop e) in
  let tv := if u64 tv <? u64 tvmin then s32 tvmin else tv in
  if u64 tvmax <? u64 tv then s32 tvmax else tv.

(** ** The interface: struct cc_algo *)

Record cc_algo := mk_cc_algo {
  conn_init : option (tcpcb -> tcpcb);
  ack_received : option (tcpcb -> Z -> tcpcb);
  cong_signal : option (tcpcb -> Z -> tcpcb);
  post_recovery : option (tcpcb -> tcpcb);
  after_idle : option (tcpcb -> tcpcb) }.

(** [if (CC_ALGO(tp)->f != NULL) f(...)]. *)
Definition call_hook (f : option (tcpcb -> tcpcb)) (tp : tcpcb) : tcpcb :=
  match f with Some f => f tp | None => tp end.

(** ** NewReno, cc_newreno.c *)

Definition newreno_incr (e : ccenv) (tp : tcpcb) : Z * tcpcb :=
  let cw := u32 (snd_cwnd tp) in
  let incr := t_maxseg tp in
  if snd_ssthresh tp <? cw then
    if tcp_do_rfc3465 e then
      if has_flag (ccv_flags tp) CCF_ABC_SENTAWND
      then (incr, tp <| ccv_flags := Z.land (ccv_flags tp) (Z.lnot CCF_ABC_SENTAWND) |>)
      else (0, tp)
    else (umax (u32 (incr * incr) / cw) 1, tp)
  else if tcp_do_rfc3465 e then
    if nxt tp =? smax tp
    then (umin (bytes_this_ack tp) (u32 (tcp_abc_l_var e * t_maxseg tp)), tp)
    else (umin (bytes_this_ack tp) (t_maxseg tp), tp)
  else (incr, tp).

Definition newreno_ack_received (e : ccenv) (tp : tcpcb) (type : Z) : tcpcb :=
  if (type =? CC_ACK) && negb (IN_RECOVERY (t_flags tp)) && has_flag (ccv_flags tp) CCF_CWND_LIMITED
  then
    let cw := u32 (snd_cwnd tp) in
    let '(incr, tp) := newreno_incr e tp in
    if 0 <? incr
    then tp <| snd_cwnd := umin (u32 (cw + incr)) (u32 (Z.shiftl TCP_MAXWIN (snd_scale tp))) |>
    else tp
  else tp.

Definition restart_window (e : ccenv) (maxseg : Z) : Z :=
  if tcp_do_rfc3390 e then umin (u32 (4 * maxseg)) (umax (u32 (2 * maxseg)) 4380)
  else u32 (maxseg * 2).

Definition newreno_after_idle (e : ccenv) (tp : tcpcb) : tcpcb :=
  let rw := s32 (restart_window e (t_maxseg tp)) in
  tp <| snd_cwnd := umin rw (snd_cwnd tp) |>.

Definition newreno_win (tp : tcpcb) : Z :=
  u32 (umax (snd_cwnd tp / 2 / t_maxseg tp) 2 * t_maxseg tp).

Definition newreno_cong_signal (tp : tcpcb) (type : Z) : tcpcb :=
  let win := newreno_win tp in
  if type =? CC_NDUPACK then
    if negb (IN_FASTRECOVERY (t_flags tp)) then
      let tp := if negb (IN_CONGRECOVERY (t_flags tp)) then tp <| snd_ssthresh := win |> else tp in
      set_flag TF_RECOVERY tp
    else tp
  else if type =? CC_ECN then
    if negb (IN_CONGRECOVERY (t_flags tp)) then
      set_flag TF_CONGRECOVERY (tp <| snd_ssthresh := win |> <| snd_cwnd := win |>)
    else tp
  else tp.

Definition newreno_post_recovery (tp : tcpcb) : tcpcb :=
  if IN_FASTRECOVERY (t_flags tp) then
    if SEQ_GT (curack tp + snd_ssthresh tp) (smax tp)
    then tp <| snd_cwnd := u32 (smax tp - curack tp + t_maxseg tp) |>
    else tp <| snd_cwnd := snd_ssthresh tp |>
  else tp.

Definition newreno_cc_algo (e : ccenv) : cc_algo :=
  mk_cc_algo None (Some (newreno_ack_received e)) (Some newreno_cong_signal)
    (Some newreno_post_recovery) (Some (newreno_after_idle e)).

(** ** The hooks, tcp_input.c and tcp_output.c *)

Definition set_ccv (f : Z) (tp : tcpcb) : tcpcb := tp <| ccv_flags := Z.lor (ccv_flags tp) f |>.
Definition clear_ccv (f : Z) (tp : tcpcb) : tcpcb :=
  tp <| ccv_flags := Z.land (ccv_flags tp) (Z.lnot f) |>.

(** The byte counting in front of the algorithm's hook. *)
Definition cc_count_ack (e : ccenv) (tp : tcpcb) (th_ack type : Z) : tcpcb :=
  let tp := tp <| bytes_this_ack := s32 (BYTES_THIS_ACK tp th_ack) |> in
  let tp := if snd_cwnd tp =? umin (snd_cwnd tp) (snd_wnd tp)
            then set_ccv CCF_CWND_LIMITED tp else clear_ccv CCF_CWND_LIMITED tp in
  if type =? CC_ACK then
    if snd_ssthresh tp <? snd_cwnd tp then
      let tp := tp <| t_bytes_acked :=
                        s32 (t_bytes_acked tp
                             + umin (bytes_this_ack tp) (u32 (tcp_abc_l_var e * t_maxseg tp))) |> in
      if snd_cwnd tp <=? u64 (t_bytes_acked tp)
      then set_ccv CCF_ABC_SENTAWND (tp <| t_bytes_acked := s32 (t_bytes_acked tp - snd_cwnd tp) |>)
      else tp
    else (clear_ccv CCF_ABC_SENTAWND tp) <| t_bytes_acked := 0 |>
  else tp.

Definition cc_ack_received (e : ccenv) (a : cc_algo) (tp : tcpcb) (th_ack type : Z) : tcpcb :=
  let tp := cc_count_ack e tp th_ack type in
  match ack_received a with
  | Some f => f (tp <| curack := th_ack |>) type
  | None => tp
  end.

(** The part of [tcp_hc_get]'s result that is read. *)
Record hc_metrics_lite := mk_metrics {
  rmx_rtt : Z;
  rmx_rttvar : Z;
  rmx_ssthresh : Z }.

Definition conn_init_rtt (e : ccenv) (mx : hc_metrics_lite) (tp : tcpcb) : tcpcb :=
  let rtt := s32 (rmx_rtt mx) in
  if (t_srtt tp =? 0) && negb (rtt =? 0) then
    let tp := tp <| t_srtt := rtt |> in
    let tp := tp <| t_rttbest := u32 (t_srtt tp + TCP_RTT_SCALE) |> in
    let tp :=
      if negb (rmx_rttvar mx =? 0) then tp <| t_rttvar := s32 (rmx_rttvar mx) |>
      else tp <| t_rttvar := Z.quot (s32 (t_srtt tp * TCP_RTTVAR_SCALE)) TCP_RTT_SCALE |> in
    tp <| t_rxtcur := TCPT_RANGESET e (Z.shiftr (Z.shiftr (t_srtt tp) 2 + t_rttvar tp) 1)
                        (t_rttmin tp) (TCPTV_REXMTMAX e) |>
  else tp.

(** [localaddr] is [in_localaddr(inp->inp_faddr)]. *)
Definition cc_conn_init (e : ccenv) (a : cc_algo) (mx : hc_metrics_lite) (localaddr : bool)
  (tp : tcpcb) : tcpcb :=
  let tp := conn_init_rtt e mx tp in
  let tp := if negb (rmx_ssthresh mx =? 0)
            then tp <| snd_ssthresh := umax (u32 (2 * t_maxseg tp)) (rmx_ssthresh mx) |> else tp in
  let tp :=
    tp <| snd_cwnd :=
      if tcp_do_rfc3390 e then umin (u32 (4 * t_maxseg tp)) (umax (u32 (2 * t_maxseg tp)) 4380)
      else if localaddr then u32 (t_maxseg tp * ss_fltsz_local e)
      else u32 (t_maxseg tp * ss_fltsz e) |> in
  call_hook (conn_init a) tp.

Definition ecn_cwr (tp : tcpcb) : tcpcb :=
  if has_flag (t_flags tp) TF_ECN_PERMIT then set_flag TF_ECN_SND_CWR tp else tp.

(** [th_ack] is [None] when the hook is called with [th == NULL]. *)
Definition cc_cong_signal (a : cc_algo) (tp : tcpcb) (th_ack : option Z) (type : Z) : tcpcb :=
  let tp :=
    if type =? CC_NDUPACK then
      if negb (IN_FASTRECOVERY (t_flags tp)) then ecn_cwr (tp <| snd_recover := smax tp |>) else tp
    else if type =? CC_ECN then
      if negb (IN_CONGRECOVERY (t_flags tp)) then ecn_cwr (tp <| snd_recover := smax tp |>) else tp
    else if type =? CC_RTO then
      let tp := tp <| t_dupacks := 0 |> <| t_bytes_acked := 0 |> in
      let tp := clear_flag TF_RECOVERY tp in
      let tp := tp <| snd_ssthresh :=
        u32 (umax 2 (umin (snd_wnd tp) (snd_cwnd tp) / 2 / t_maxseg tp) * t_maxseg tp) |> in
      tp <| snd_cwnd := t_maxseg tp |>
    else if type =? CC_RTO_ERR then
      let tp := tp <| snd_cwnd := snd_cwnd_prev tp |>
                   <| snd_ssthresh := snd_ssthresh_prev tp |>
                   <| snd_recover := snd_recover_prev tp |> in
      let tp := if has_flag (t_flags tp) TF_WASFRECOVERY then set_flag TF_FASTRECOVERY tp else tp in
      let tp := if has_flag (t_flags tp) TF_WASCRECOVERY then set_flag TF_CONGRECOVERY tp else tp in
      let tp := set_nxt (smax tp) tp in
      (clear_flag TF_PREVVALID tp) <| t_badrxtwin := 0 |>
    else tp in
  match cong_signal a with
  | Some f =>
      let tp := match th_ack with Some ack => tp <| curack := ack |> | None => tp end in
      f tp type
  | None => tp
  end.

Definition cc_post_recovery (a : cc_algo) (tp : tcpcb) (th_ack : Z) : tcpcb :=
  let tp := match post_recovery a with
            | Some f => f (tp <| curack := th_ack |>)
            | None => tp
            end in
  tp <| t_bytes_acked := 0 |>.

Definition cc_after_idle (a : cc_algo) (tp : tcpcb) : tcpcb := call_hook (after_idle a) tp.

(** [tcp_timer_activate(tp, TT_REXMT, 0)] *)
Definition stop_rexmt (tp : tcpcb) : tcpcb :=
  tp <| t_timers := (t_timers tp) <| tt_rexmt := callout_disarm (tt_rexmt (t_timers tp)) |> |>.

(** [tcp_newreno_partial_ack] up to its call of [tcp_output], and after it, with
    the saved [snd_nxt] and [snd_cwnd]. *)
Definition newreno_partial_start (tp : tcpcb) (th_ack : Z) : tcpcb :=
  let tp := (stop_rexmt tp) <| t_rtttime := 0 |> in
  let tp := set_nxt th_ack tp in
  let tp := tp <| snd_cwnd := u32 (t_maxseg tp + BYTES_THIS_ACK tp th_ack) |> in
  set_flag TF_ACKNOW tp.

Definition newreno_partial_end (onxt ocwnd : Z) (tp : tcpcb) (th_ack : Z) : tcpcb :=
  let tp := tp <| snd_cwnd := ocwnd |> in
  let tp := if SEQ_GT onxt (nxt tp) then set_nxt onxt tp else tp in
  let tp :=
    if BYTES_THIS_ACK tp th_ack <? snd_cwnd tp
    then tp <| snd_cwnd := snd_cwnd tp - BYTES_THIS_ACK tp th_ack |>
    else tp <| snd_cwnd := 0 |> in
  tp <| snd_cwnd := u64 (snd_cwnd tp + t_maxseg tp) |>.

(** sys/netinet/tcp_sack.c: [tcp_sack_partialack] up to its call of
    [tcp_output], the last thing it does. *)
Definition sack_partial_start (tp : tcpcb) (th_ack : Z) : tcpcb :=
  let tp := (stop_rexmt tp) <| t_rtttime := 0 |> in
  let num_segs := if 2 <=? BYTES_THIS_ACK tp th_ack / t_maxseg tp then 2 else 1 in
  let tp := tp <| snd_cwnd := u32 (sack_bytes_rexmit (t_sack tp)
                                   + (nxt tp - sack_newdata tp) + num_segs * t_maxseg tp) |> in
  let tp := if snd_ssthresh tp <? snd_cwnd tp then tp <| snd_cwnd := snd_ssthresh tp |> else tp in
  set_flag TF_ACKNOW tp.

(** ** What TCP relies on *)

(** The send window is open and in range: at least one segment of congestion
    window, a threshold of at least two. *)
Record window_ok (tp : tcpcb) : Prop := {
  wo_maxseg : 0 < t_maxseg tp < 2 ^ 16;
  wo_cwnd : t_maxseg tp <= snd_cwnd tp < 2 ^ 31;
  wo_ssthresh : 2 * t_maxseg tp <= snd_ssthresh tp < 2 ^ 31;
  wo_scale : 0 <= snd_scale tp <= TCP_MAX_WINSHIFT }.

Definition env_ok (e : ccenv) : Prop := 0 <= tcp_abc_l_var e < 2 ^ 13.

(** A hook only touches the window, the threshold, the recovery flags and the
    private flags of the algorithm. *)
Definition hook_frame (tp tp' : tcpcb) : Prop :=
  tp' = tp <| snd_cwnd := snd_cwnd tp' |> <| snd_ssthresh := snd_ssthresh tp' |>
           <| t_flags := t_flags tp' |> <| ccv_flags := ccv_flags tp' |> /\
  Z.land (t_flags tp') (Z.lnot TF_RECOVERY) = Z.land (t_flags tp) (Z.lnot TF_RECOVERY).

Definition hook_ok (f : tcpcb -> tcpcb) : Prop :=
  forall tp, window_ok tp -> window_ok (f tp) /\ hook_frame tp (f tp).

(** What an algorithm promises to the hooks that call it. *)
Class CongestionControl (a : cc_algo) : Prop := {
  cc_conn_init_ok : forall f, conn_init a = Some f -> hook_ok f;
  cc_ack_received_ok : forall f type, ack_received a = Some f -> hook_ok (fun tp => f tp type);
  cc_cong_signal_ok : forall f type, cong_signal a = Some f -> hook_ok (fun tp => f tp type);
  cc_after_idle_ok : forall f, after_idle a = Some f -> hook_ok f;
  cc_after_idle_flags : forall f tp, after_idle a = Some f -> t_flags (f tp) = t_flags tp;
  cc_post_recovery_ok : forall f tp, post_recovery a = Some f -> window_ok tp ->
    u32 (smax tp - curack tp) < 2 ^ 30 -> window_ok (f tp) /\ hook_frame tp (f tp) }.

Lemma hook_frame_refl tp : hook_frame tp tp.
Proof. split; [destruct tp|]; reflexivity. Qed.

Lemma land_lor_recovery flags f :
  Z.land f (Z.lnot TF_RECOVERY) = 0 ->
  Z.land (Z.lor flags f) (Z.lnot TF_RECOVERY) = Z.land flags (Z.lnot TF_RECOVERY).
Proof. intros H. rewrite Z.land_lor_distr_l, H. apply Z.lor_0_r. Qed.

Lemma has_flag_lor flags f g : Z.land f g <> 0 -> 0 <= f -> has_flag (Z.lor flags f) g = true.
Proof.
  intros H Hf. unfold has_flag. rewrite Z.land_lor_distr_l. apply negb_true_iff, Z.eqb_neq.
  intros E. apply Z.lor_eq_0_iff in E. tauto.
Qed.

(** *** NewReno *)

Lemma maxwin_bounds scale : 0 <= scale <= TCP_MAX_WINSHIFT ->
  65535 <= Z.shiftl TCP_MAXWIN scale < 2 ^ 30.
Proof.
  unfold TCP_MAX_WINSHIFT, TCP_MAXWIN. intros H. rewrite Z.shiftl_mul_pow2 by lia.
  assert (1 <= 2 ^ scale) by (change 1 with (2 ^ 0); apply Z.pow_le_mono_r; lia).
  assert (2 ^ scale <= 2 ^ 14) by (apply Z.pow_le_mono_r; lia). lia.
Qed.

Lemma newreno_incr_spec e tp incr tp' :
  env_ok e -> window_ok tp -> newreno_incr e tp = (incr, tp') ->
  0 <= incr < 2 ^ 30 /\ tp' = tp <| ccv_flags := ccv_flags tp' |>.
Proof.
  intros He [W1 W2 W3 W4] E. unfold env_ok in He. unfold newreno_incr in E.
  rewrite (u32_small (snd_cwnd tp)) in E by lia.
  destruct (snd_ssthresh tp <? snd_cwnd tp) eqn:Ec; [destruct (tcp_do_rfc3465 e)|
    destruct (tcp_do_rfc3465 e); [destruct (nxt tp =? smax tp)|]].
  - destruct (has_flag _ _); injection E as <- <-; (split; [lia|destruct tp; reflexivity]).
  - injection E as <- <-. split; [|destruct tp; reflexivity].
    rewrite u32_small by nia.
    assert (0 <= t_maxseg tp * t_maxseg tp / snd_cwnd tp <= t_maxseg tp).
    { split; [apply Z.div_pos; nia|]. apply Z.div_le_upper_bound; nia. }
    rewrite umax_small by lia. lia.
  - injection E as <- <-. split; [|destruct tp; reflexivity].
    rewrite (u32_small (_ * _)) by nia. unfold umin. rewrite (u32_small (_ * _)) by nia.
    pose proof (u32_range (bytes_this_ack tp)). zbool_cases; nia.
  - injection E as <- <-. split; [|destruct tp; reflexivity].
    unfold umin. pose proof (u32_range (bytes_this_ack tp)). rewrite (u32_small (t_maxseg tp)) by lia. zbool_cases; lia.
  - injection E as <- <-. split; [lia|destruct tp; reflexivity].
Qed.

Lemma newreno_ack_received_ok e type : env_ok e -> hook_ok (fun tp => newreno_ack_received e tp type).
Proof.
  intros He tp W. unfold newreno_ack_received. destruct (andb _ _); [|split; [exact W|apply hook_frame_refl]].
  destruct (newreno_incr e tp) as [incr tp'] eqn:E.
  destruct (newreno_incr_spec e tp incr tp' He W E) as [Hi Et]. destruct W as [W1 W2 W3 W4].
  assert (window_ok tp') as W' by (rewrite Et; split; assumption).
  destruct (Z.ltb_spec 0 incr); [|split; [exact W'|rewrite Et; split; [destruct tp|]; reflexivity]].
  rewrite Et. cbn [update snd_scale]. pose proof (maxwin_bounds _ W4) as Hm.
  rewrite (u32_small (snd_cwnd tp)), !u32_small, umin_small by lia.
  split; [|split; [destruct tp|]; reflexivity].
  split; cbn [update t_maxseg snd_cwnd snd_ssthresh snd_scale]; lia.
Qed.

Lemma newreno_win_bounds tp : window_ok tp ->
  2 * t_maxseg tp <= newreno_win tp <= Z.max (snd_cwnd tp / 2) (2 * t_maxseg tp) /\ newreno_win tp < 2 ^ 31.
Proof.
  intros [W1 W2 W3 W4]. unfold newreno_win.
  set (q := snd_cwnd tp / 2 / t_maxseg tp).
  assert (0 <= q /\ q * t_maxseg tp <= snd_cwnd tp / 2) as [Hq1 Hq2].
  { subst q. assert (0 <= snd_cwnd tp / 2) by (apply Z.div_pos; lia).
    split; [apply Z.div_pos; lia|]. rewrite Z.mul_comm. apply Z.mul_div_le. lia. }
  assert (snd_cwnd tp / 2 < 2 ^ 30) by (apply Z.div_lt_upper_bound; lia).
  rewrite umax_small by nia.
  destruct (Z.max_spec q 2) as [[Hm E]|[Hm E]]; rewrite E; rewrite u32_small by nia; nia.
Qed.

Lemma newreno_cong_signal_ok type : hook_ok (fun tp => newreno_cong_signal tp type).
Proof.
  intros tp W. pose proof (newreno_win_bounds tp W) as Hw. destruct W as [W1 W2 W3 W4].
  unfold newreno_cong_signal.
  destruct (type =? CC_NDUPACK); [|destruct (type =? CC_ECN)];
    repeat match goal with |- context [if negb ?b then _ else _] => destruct b; cbn [negb] end;
    (split; [split; cbn [set_flag update t_maxseg snd_cwnd snd_ssthresh snd_scale]; lia|]);
    try apply hook_frame_refl;
    (split; [destruct tp; reflexivity|]); cbn [set_flag update t_flags]; apply land_lor_recovery; reflexivity.
Qed.

Lemma newreno_after_idle_ok e : hook_ok (newreno_after_idle e).
Proof.
  intros tp [W1 W2 W3 W4]. split; [|split; [destruct tp|]; reflexivity].
  unfold newreno_after_idle, restart_window.
  assert (exists r, 2 * t_maxseg tp <= r < 2 ^ 19 /\
    (if tcp_do_rfc3390 e then umin (u32 (4 * t_maxseg tp)) (umax (u32 (2 * t_maxseg tp)) 4380)
     else u32 (t_maxseg tp * 2)) = r) as (r & Hr & ->).
  { eexists. split; [|reflexivity]. destruct (tcp_do_rfc3390 e).
    - rewrite !u32_small, umax_small, umin_small by lia. lia.
    - rewrite u32_small by lia. lia. }
  rewrite s32_small, umin_small by lia. split; cbn [update t_maxseg snd_cwnd snd_ssthresh snd_scale]; lia.
Qed.

Lemma newreno_post_recovery_ok tp :
  window_ok tp -> u32 (smax tp - curack tp) < 2 ^ 30 ->
  window_ok (newreno_post_recovery tp) /\ hook_frame tp (newreno_post_recovery tp).
Proof.
  intros [W1 W2 W3 W4] Hf. unfold newreno_post_recovery.
  pose proof (u32_range (smax tp - curack tp)) as Hr.
  assert (u32 (smax tp - curack tp + t_maxseg tp) = u32 (smax tp - curack tp) + t_maxseg tp) as E.
  { rewrite <- u32_add_l. apply u32_small. lia. }
  destruct (IN_FASTRECOVERY _); [destruct (SEQ_GT _ _)|];
    try (split; [split; assumption|apply hook_frame_refl]);
    (split; [|split; [destruct tp|]; reflexivity]);
    split; cbn [update t_maxseg snd_cwnd snd_ssthresh snd_scale]; rewrite ?E; lia.
Qed.

(** NewReno provides the interface. *)
#[export] Instance newreno_congestion_control e (He : env_ok e) : CongestionControl (newreno_cc_algo e).
Proof.
  split; cbn; intros; simplify_eq; auto using newreno_ack_received_ok, newreno_cong_signal_ok,
    newreno_after_idle_ok, newreno_post_recovery_ok.
Qed.
(** ** The hooks, for any algorithm that keeps the promises *)

Section hooks.
Context (e : ccenv) (a : cc_algo) `{!CongestionControl a}.

Definition prev_ok (tp : tcpcb) : Prop :=
  t_maxseg tp <= snd_cwnd_prev tp < 2 ^ 31 /\ 2 * t_maxseg tp <= snd_ssthresh_prev tp < 2 ^ 31.

Lemma window_ok_same tp tp' :
  window_ok tp -> t_maxseg tp' = t_maxseg tp -> snd_cwnd tp' = snd_cwnd tp ->
  snd_ssthresh tp' = snd_ssthresh tp -> snd_scale tp' = snd_scale tp -> window_ok tp'.
Proof. intros [W1 W2 W3 W4] E1 E2 E3 E4. split; congruence. Qed.

Lemma ack_received_window tp th_ack type : window_ok tp -> window_ok (cc_ack_received e a tp th_ack type).
Proof.
  intros W. unfold cc_ack_received. set (tp1 := cc_count_ack e tp th_ack type).
  assert (window_ok tp1) as W1.
  { eapply window_ok_same; [exact W|..]; subst tp1; unfold cc_count_ack;
      repeat match goal with |- context [if ?b then _ else _] => destruct b end; reflexivity. }
  destruct (ack_received a) as [f|] eqn:E; [|exact W1].
  apply (cc_ack_received_ok f type E (tp1 <| curack := th_ack |>)).
  eapply window_ok_same; [exact W1|reflexivity..].
Qed.

(** The threshold of a timeout: half the window, at least two segments. *)
Lemma rto_ssthresh_bounds tp : window_ok tp ->
  let v := u32 (umax 2 (umin (snd_wnd tp) (snd_cwnd tp) / 2 / t_maxseg tp) * t_maxseg tp) in
  2 * t_maxseg tp <= v <= Z.max (snd_cwnd tp / 2) (2 * t_maxseg tp) /\ v < 2 ^ 31.
Proof.
  intros [W1 W2 W3 W4]. cbv zeta.
  assert (0 <= umin (snd_wnd tp) (snd_cwnd tp) <= snd_cwnd tp) as Hu.
  { unfold umin. pose proof (u32_range (snd_wnd tp)). rewrite (u32_small (snd_cwnd tp)) by lia. zbool_cases; lia. }
  set (m := umin (snd_wnd tp) (snd_cwnd tp)) in *. set (q := m / 2 / t_maxseg tp).
  assert (m / 2 <= snd_cwnd tp / 2) by (apply Z.div_le_mono; lia).
  assert (0 <= q /\ q * t_maxseg tp <= m / 2) as [Hq1 Hq2].
  { subst q. assert (0 <= m / 2) by (apply Z.div_pos; lia).
    split; [apply Z.div_pos; lia|]. rewrite Z.mul_comm. apply Z.mul_div_le. lia. }
  assert (snd_cwnd tp / 2 < 2 ^ 30) by (apply Z.div_lt_upper_bound; lia).
  rewrite umax_small by nia.
  destruct (Z.max_spec 2 q) as [[Hm Em]|[Hm Em]]; rewrite Em; rewrite u32_small by nia; nia.
Qed.

Lemma cong_signal_window tp th_ack type :
  window_ok tp -> (type = CC_RTO_ERR -> prev_ok tp) -> window_ok (cc_cong_signal a tp th_ack type).
Proof.
  intros W Hp. pose proof (rto_ssthresh_bounds tp W) as Hs. unfold cc_cong_signal.
  match goal with |- context [match th_ack with Some ack => ?x <| curack := ack |> | None => _ end] =>
    set (tp1 := x) end.
  assert (window_ok tp1) as W1.
  { subst tp1. destruct (type =? CC_NDUPACK); [destruct (negb _); [|exact W]; unfold ecn_cwr; destruct (has_flag _ _);
      (eapply window_ok_same; [exact W|reflexivity..])|].
    destruct (type =? CC_ECN); [destruct (negb _); [|exact W]; unfold ecn_cwr; destruct (has_flag _ _);
      (eapply window_ok_same; [exact W|reflexivity..])|].
    destruct (type =? CC_RTO).
    { destruct W as [V1 V2 V3 V4].
      split; cbn [clear_flag update t_maxseg snd_cwnd snd_ssthresh snd_scale snd_wnd]; [assumption|lia| |assumption].
      split; [apply Hs|apply Hs]. }
    destruct (Z.eqb_spec type CC_RTO_ERR) as [Et|]; [|exact W].
    destruct (Hp Et) as [P1 P2]. destruct W as [V1 V2 V3 V4].
    repeat match goal with |- context [if ?b then _ else _] => destruct b end;
      split; cbn; assumption. }
  destruct (cong_signal a) as [f|] eqn:E; [|exact W1].
  destruct th_ack; apply (cc_cong_signal_ok f type E); [|exact W1].
  eapply window_ok_same; [exact W1|reflexivity..].
Qed.

Lemma post_recovery_window tp th_ack :
  window_ok tp -> u32 (smax tp - th_ack) < 2 ^ 30 -> window_ok (cc_post_recovery a tp th_ack).
Proof.
  intros W Hf. unfold cc_post_recovery. destruct (post_recovery a) as [f|] eqn:E.
  - destruct (cc_post_recovery_ok f (tp <| curack := th_ack |>) E) as [W' _];
      [eapply window_ok_same; [exact W|reflexivity..]|exact Hf|].
    eapply window_ok_same; [exact W'|reflexivity..].
  - eapply window_ok_same; [exact W|reflexivity..].
Qed.

Lemma after_idle_window tp : window_ok tp -> window_ok (cc_after_idle a tp).
Proof.
  intros W. unfold cc_after_idle, call_hook. destruct (after_idle a) as [f|] eqn:E; [|exact W].
  apply (cc_after_idle_ok f E tp W).
Qed.

(** The events of a connection's life as the hooks see them. *)
Inductive cc_event :=
  | EvAck (th_ack type : Z)
  | EvSignal (th_ack : option Z) (type : Z)
  | EvPostRecovery (th_ack : Z)
  | EvIdle.

Definition cc_event_step (tp : tcpcb) (ev : cc_event) : tcpcb :=
  match ev with
  | EvAck ack type => cc_ack_received e a tp ack type
  | EvSignal ack type => cc_cong_signal a tp ack type
  | EvPostRecovery ack => cc_post_recovery a tp ack
  | EvIdle => cc_after_idle a tp
  end.

(** An undone timeout finds the values saved before it; the ACK that ends
    recovery acknowledges sent data. *)
Definition cc_event_ok (tp : tcpcb) (ev : cc_event) : Prop :=
  match ev with
  | EvSignal _ type => type = CC_RTO_ERR -> prev_ok tp
  | EvPostRecovery ack => u32 (smax tp - ack) < 2 ^ 30
  | _ => True
  end.

Fixpoint cc_run_ok (tp : tcpcb) (evs : list cc_event) : Prop :=
  match evs with
  | [] => True
  | ev :: evs => cc_event_ok tp ev /\ cc_run_ok (cc_event_step tp ev) evs
  end.

Lemma cc_event_window tp ev : window_ok tp -> cc_event_ok tp ev -> window_ok (cc_event_step tp ev).
Proof.
  destruct ev; cbn [cc_event_step cc_event_ok]; intros.
  - apply ack_received_window; assumption.
  - apply cong_signal_window; assumption.
  - apply post_recovery_window; assumption.
  - apply after_idle_window; assumption.
Qed.

End hooks.

(** ** NewReno: growth *)

Definition maxwin (tp : tcpcb) : Z := Z.shiftl TCP_MAXWIN (snd_scale tp).

(** The bytes an ACK counts for Appropriate Byte Counting. *)
Definition abc_bytes (e : ccenv) (tp : tcpcb) (th_ack : Z) : Z :=
  Z.min (u32 (th_ack - una tp)) (tcp_abc_l_var e * t_maxseg tp).

(** A connection that is growing its window: not in recovery, limited by the
    congestion window, with no credit pending. *)
Record growing (e : ccenv) (tp : tcpcb) : Prop := {
  gr_window : window_ok tp;
  gr_abc : tcp_do_rfc3465 e = true;
  gr_recovery : IN_RECOVERY (t_flags tp) = false;
  gr_limited : snd_cwnd tp <= snd_wnd tp < 2 ^ 32;
  gr_maxwin : snd_cwnd tp <= maxwin tp;
  gr_acked : 0 <= t_bytes_acked tp < 2 ^ 30;
  gr_credit : has_flag (ccv_flags tp) CCF_ABC_SENTAWND = false }.

Definition limited (tp : tcpcb) : Z := Z.lor (ccv_flags tp) CCF_CWND_LIMITED.

(** The accounting of an ACK of new data, in congestion avoidance and in slow
    start. *)
Lemma count_ack_growing e tp th_ack :
  env_ok e -> growing e tp -> u32 (th_ack - una tp) < 2 ^ 31 ->
  let tp1 := tp <| bytes_this_ack := u32 (th_ack - una tp) |> <| ccv_flags := limited tp |> in
  let credit := t_bytes_acked tp + abc_bytes e tp th_ack in
  cc_count_ack e tp th_ack CC_ACK =
    if snd_ssthresh tp <? snd_cwnd tp then
      if snd_cwnd tp <=? credit
      then set_ccv CCF_ABC_SENTAWND (tp1 <| t_bytes_acked := credit - snd_cwnd tp |>)
      else tp1 <| t_bytes_acked := credit |>
    else (clear_ccv CCF_ABC_SENTAWND tp1) <| t_bytes_acked := 0 |>.
Proof.
  intros He [W Habc Hrec Hlim Hmw Hack Hcr] Hb. unfold env_ok in He. destruct W as [W1 W2 W3 W4].
  pose proof (maxwin_bounds _ W4) as Hm. fold (maxwin tp) in Hm. pose proof (u32_range (th_ack - una tp)) as Hr.
  assert (abc_bytes e tp th_ack = umin (u32 (th_ack - una tp)) (u32 (tcp_abc_l_var e * t_maxseg tp))) as Ea.
  { rewrite (u32_small (_ * _)), umin_small by nia. reflexivity. }
  assert (0 <= abc_bytes e tp th_ack < 2 ^ 30) as Hc by (unfold abc_bytes; nia).
  unfold cc_count_ack, BYTES_THIS_ACK. rewrite (s32_small (u32 (th_ack - una tp))) by lia.
  cbv zeta. cbn [update snd_cwnd snd_wnd]. rewrite umin_small, Z.min_l by lia. rewrite !Z.eqb_refl.
  cbn [set_ccv update ccv_flags snd_ssthresh snd_cwnd t_bytes_acked bytes_this_ack t_maxseg].
  rewrite <- Ea. destruct (Z.ltb_spec (snd_ssthresh tp) (snd_cwnd tp)); [|reflexivity].
  rewrite (s32_small (t_bytes_acked tp + _)) by lia.
  replace (u64 (t_bytes_acked tp + abc_bytes e tp th_ack)) with (t_bytes_acked tp + abc_bytes e tp th_ack) by wrap.
  destruct (Z.leb_spec (snd_cwnd tp) (t_bytes_acked tp + abc_bytes e tp th_ack)); [|reflexivity].
  rewrite (s32_small (t_bytes_acked tp + _ - _)) by lia. reflexivity.
Qed.
Lemma limited_flags tp :
  has_flag (limited tp) CCF_CWND_LIMITED = true /\
  has_flag (limited tp) CCF_ABC_SENTAWND = has_flag (ccv_flags tp) CCF_ABC_SENTAWND.
Proof.
  split; [apply flag_set; [reflexivity|discriminate|unfold CCF_CWND_LIMITED; lia]|].
  apply flag_set_other. reflexivity.
Qed.

(** An ACK of new data in congestion avoidance that completes a window. *)
Lemma avoidance_grows e tp th_ack :
  env_ok e -> growing e tp -> u32 (th_ack - una tp) < 2 ^ 31 -> snd_ssthresh tp < snd_cwnd tp ->
  snd_cwnd tp <= t_bytes_acked tp + abc_bytes e tp th_ack ->
  exists fl, has_flag fl CCF_ABC_SENTAWND = false /\
  cc_ack_received e (newreno_cc_algo e) tp th_ack CC_ACK =
    tp <| bytes_this_ack := u32 (th_ack - una tp) |> <| curack := th_ack |> <| ccv_flags := fl |>
       <| t_bytes_acked := t_bytes_acked tp + abc_bytes e tp th_ack - snd_cwnd tp |>
       <| snd_cwnd := Z.min (snd_cwnd tp + t_maxseg tp) (maxwin tp) |>.
Proof.
  intros He G Hb Hss Hc. pose proof G as [[W1 W2 W3 W4] Habc Hrec Hlim Hmw Hack Hcr].
  pose proof (maxwin_bounds _ W4) as Hm. fold (maxwin tp) in Hm.
  unfold cc_ack_received. rewrite (count_ack_growing e tp th_ack He G Hb).
  rewrite (proj2 (Z.ltb_lt _ _) Hss), (proj2 (Z.leb_le _ _) Hc).
  cbn [newreno_cc_algo ack_received]. unfold newreno_ack_received, newreno_incr.
  cbn [set_ccv update t_flags ccv_flags snd_cwnd snd_ssthresh t_maxseg].
  destruct (limited_flags tp) as [L1 L2].
  assert (has_flag (Z.lor (limited tp) CCF_ABC_SENTAWND) CCF_CWND_LIMITED = true) as ->
    by (rewrite flag_set_other by reflexivity; exact L1).
  assert (has_flag (Z.lor (limited tp) CCF_ABC_SENTAWND) CCF_ABC_SENTAWND = true) as ->
    by (apply flag_set; [reflexivity|discriminate|unfold CCF_ABC_SENTAWND; lia]).
  rewrite Hrec, Habc, (u32_small (snd_cwnd tp)) by lia.
  rewrite (proj2 (Z.ltb_lt _ _) Hss). change (CC_ACK =? CC_ACK) with true. cbn [negb andb].
  cbn [update t_maxseg]. change (Z.shiftl TCP_MAXWIN (snd_scale _)) with (maxwin tp).
  rewrite (proj2 (Z.ltb_lt 0 (t_maxseg tp))) by lia. rewrite (u32_small (snd_cwnd tp + t_maxseg tp)), (u32_small (maxwin tp)), umin_small by lia.
  eexists. split; [apply flag_cleared|reflexivity].
Qed.

(** One that does not complete a window. *)
Lemma avoidance_waits e tp th_ack :
  env_ok e -> growing e tp -> u32 (th_ack - una tp) < 2 ^ 31 -> snd_ssthresh tp < snd_cwnd tp ->
  t_bytes_acked tp + abc_bytes e tp th_ack < snd_cwnd tp ->
  cc_ack_received e (newreno_cc_algo e) tp th_ack CC_ACK =
    tp <| bytes_this_ack := u32 (th_ack - una tp) |> <| curack := th_ack |> <| ccv_flags := limited tp |>
       <| t_bytes_acked := t_bytes_acked tp + abc_bytes e tp th_ack |>.
Proof.
  intros He G Hb Hss Hc. pose proof G as [[W1 W2 W3 W4] Habc Hrec Hlim Hmw Hack Hcr].
  unfold cc_ack_received. rewrite (count_ack_growing e tp th_ack He G Hb).
  rewrite (proj2 (Z.ltb_lt _ _) Hss), (proj2 (Z.leb_gt _ _) Hc).
  cbn [newreno_cc_algo ack_received]. unfold newreno_ack_received, newreno_incr.
  cbn [update t_flags ccv_flags snd_cwnd snd_ssthresh t_maxseg].
  destruct (limited_flags tp) as [L1 L2]. rewrite L1, L2, Hcr, Hrec, Habc, (u32_small (snd_cwnd tp)) by lia.
  rewrite (proj2 (Z.ltb_lt _ _) Hss). reflexivity.
Qed.

(** Slow start.  An ACK of new data opens the window by the bytes it
    acknowledges, at most abc_l_var segments (one after a timeout, when snd_nxt
    is behind snd_max), up to the largest window, and clears the credit of
    congestion avoidance. *)
Theorem newreno_slow_start e tp th_ack :
  env_ok e -> growing e tp -> 0 < u32 (th_ack - una tp) < 2 ^ 31 -> snd_cwnd tp <= snd_ssthresh tp ->
  0 < tcp_abc_l_var e ->
  let tp' := cc_ack_received e (newreno_cc_algo e) tp th_ack CC_ACK in
  let limit := if nxt tp =? smax tp then tcp_abc_l_var e * t_maxseg tp else t_maxseg tp in
  snd_cwnd tp' = Z.min (snd_cwnd tp + Z.min (u32 (th_ack - una tp)) limit) (maxwin tp) /\
  t_bytes_acked tp' = 0.
Proof.
  intros He G Hb Hss HL. pose proof G as [[W1 W2 W3 W4] Habc Hrec Hlim Hmw Hack Hcr]. unfold env_ok in He.
  pose proof (maxwin_bounds _ W4) as Hm. fold (maxwin tp) in Hm.
  unfold cc_ack_received. rewrite (count_ack_growing e tp th_ack He G (proj2 Hb)).
  rewrite (proj2 (Z.ltb_ge _ _) Hss).
  cbn [newreno_cc_algo ack_received]. unfold newreno_ack_received, newreno_incr.
  cbn [clear_ccv update t_flags ccv_flags snd_cwnd snd_ssthresh t_maxseg].
  assert (has_flag (Z.land (limited tp) (Z.lnot CCF_ABC_SENTAWND)) CCF_CWND_LIMITED = true) as ->.
  { unfold has_flag, limited. rewrite Z.land_lor_distr_l, Z.land_lor_distr_l.
    apply negb_true_iff, Z.eqb_neq. intros E. apply Z.lor_eq_0_iff in E. destruct E. discriminate. }
  rewrite Hrec, Habc, (u32_small (snd_cwnd tp)) by lia. rewrite (proj2 (Z.ltb_ge _ _) Hss).
  change (CC_ACK =? CC_ACK) with true. cbn [negb andb].
  match goal with |- context [if ?x =? ?y then (umin _ _, _) else _] => change x with (nxt tp); change y with (smax tp) end.
  cbn [clear_ccv update bytes_this_ack].
  destruct (nxt tp =? smax tp).
  - assert (umin (u32 (th_ack - una tp)) (u32 (tcp_abc_l_var e * t_maxseg tp))
            = Z.min (u32 (th_ack - una tp)) (tcp_abc_l_var e * t_maxseg tp)) as ->
      by (rewrite (u32_small (_ * _)) by nia; apply umin_small; nia).
    set (i := Z.min _ _). assert (0 < i < 2 ^ 30) as Hi by (subst i; nia).
    rewrite (proj2 (Z.ltb_lt 0 i)) by lia. change (Z.shiftl TCP_MAXWIN (snd_scale _)) with (maxwin tp). cbn [update snd_cwnd t_bytes_acked].
    rewrite (u32_small (snd_cwnd tp + i)), (u32_small (maxwin tp)), umin_small by lia. split; reflexivity.
  - rewrite umin_small by lia. set (i := Z.min _ _). assert (0 < i < 2 ^ 30) as Hi by (subst i; lia).
    rewrite (proj2 (Z.ltb_lt 0 i)) by lia. change (Z.shiftl TCP_MAXWIN (snd_scale _)) with (maxwin tp). cbn [update snd_cwnd t_bytes_acked].
    rewrite (u32_small (snd_cwnd tp + i)), (u32_small (maxwin tp)), umin_small by lia. split; reflexivity.
Qed.
(** The connection after an ACK was taken in: the hook, then [snd_una = th_ack]. *)
Definition ack_step (e : ccenv) (tp : tcpcb) (th_ack : Z) : tcpcb :=
  let tp := cc_ack_received e (newreno_cc_algo e) tp th_ack CC_ACK in
  tp <| t_sack := (t_sack tp) <| snd_una := th_ack |> |>.

Definition with_una (tp : tcpcb) (th_ack : Z) : tcpcb :=
  tp <| t_sack := (t_sack tp) <| snd_una := th_ack |> |>.

(** The bytes a run of ACKs credits. *)
Fixpoint credits (e : ccenv) (tp : tcpcb) (acks : list Z) : Z :=
  match acks with
  | [] => 0
  | ack :: acks => abc_bytes e tp ack + credits e (with_una tp ack) acks
  end.

(** Each ACK acknowledges less than half the sequence space. *)
Fixpoint acks_ok (una : Z) (acks : list Z) : Prop :=
  match acks with
  | [] => True
  | ack :: acks => u32 (ack - una) < 2 ^ 31 /\ acks_ok ack acks
  end.

Lemma credits_ext e acks : forall tp tp',
  una tp' = una tp -> t_maxseg tp' = t_maxseg tp -> credits e tp' acks = credits e tp acks.
Proof.
  induction acks as [|ack acks IH]; intros tp tp' E1 E2; [reflexivity|].
  cbn [credits]. unfold abc_bytes. rewrite E1, E2. f_equal. apply IH; [reflexivity|exact E2].
Qed.

Lemma credits_nonneg e acks : forall tp, env_ok e -> window_ok tp -> 0 <= credits e tp acks.
Proof.
  induction acks as [|ack acks IH]; intros tp He W; [cbn; lia|]. cbn [credits].
  specialize (IH (with_una tp ack) He). destruct W as [W1 W2 W3 W4]. unfold env_ok in He.
  assert (0 <= abc_bytes e tp ack) by (unfold abc_bytes; pose proof (u32_range (ack - una tp)); nia).
  assert (0 <= credits e (with_una tp ack) acks) by (apply IH; split; assumption). lia.
Qed.

Lemma ack_run_waits e acks : forall tp,
  env_ok e -> growing e tp -> acks_ok (una tp) acks -> snd_ssthresh tp < snd_cwnd tp ->
  t_bytes_acked tp + credits e tp acks < snd_cwnd tp ->
  let tp' := fold_left (ack_step e) acks tp in
  growing e tp' /\ snd_cwnd tp' = snd_cwnd tp /\ snd_ssthresh tp' = snd_ssthresh tp /\
  t_maxseg tp' = t_maxseg tp /\ maxwin tp' = maxwin tp /\
  t_bytes_acked tp' = t_bytes_acked tp + credits e tp acks /\ una tp' = List.last acks (una tp).
Proof.
  induction acks as [|ack acks IH]; intros tp He G Ha Hss Hc; cbn [fold_left credits].
  { cbv zeta. split; [exact G|]. repeat (split; [reflexivity|]). split; [lia|reflexivity]. }
  destruct Ha as [Ha1 Ha2]. cbn [credits] in Hc.
  pose proof (gr_window _ _ G) as W.
  assert (0 <= credits e (with_una tp ack) acks) as Hn by (apply credits_nonneg; [exact He|destruct W; split; assumption]).
  pose proof (avoidance_waits e tp ack He G Ha1 Hss ltac:(lia)) as E1.
  set (tp1 := ack_step e tp ack).
  assert (tp1 = (tp <| bytes_this_ack := u32 (ack - una tp) |> <| curack := ack |> <| ccv_flags := limited tp |>
       <| t_bytes_acked := t_bytes_acked tp + abc_bytes e tp ack |>) <| t_sack := (t_sack tp) <| snd_una := ack |> |>) as Et
    by (subst tp1; unfold ack_step; rewrite E1; reflexivity).
  assert (0 <= abc_bytes e tp ack) as Hab.
  { unfold abc_bytes. pose proof (u32_range (ack - una tp)). destruct W. unfold env_ok in He. nia. }
  assert (growing e tp1) as G1.
  { destruct G as [[W1 W2 W3 W4] G2 G3 G4 Gm G5 G6]. pose proof (maxwin_bounds _ W4) as Hm.
    rewrite Et. split; cbn; try assumption; [split; assumption|unfold maxwin in Gm; lia|].
    destruct (limited_flags tp) as [_ ->]. exact G6. }
  destruct (IH tp1 He G1) as (I1 & I2 & I3 & I4 & I5 & I6 & I7).
  - rewrite Et. exact Ha2.
  - rewrite Et. exact Hss.
  - rewrite Et. cbn [update t_bytes_acked snd_cwnd].
    rewrite (credits_ext e acks (with_una tp ack)) by reflexivity. lia.
  - cbv zeta. split; [exact I1|]. rewrite I2, I3, I4, I5, I6, I7. rewrite Et.
    repeat (split; [reflexivity|]). split.
    + cbn [update t_bytes_acked]. rewrite (credits_ext e acks (with_una tp ack)) by reflexivity. lia.
    + rewrite List_last_cons. reflexivity.
Qed.

(** Congestion avoidance grows by one segment per window.  With byte
    counting (RFC 3465), a run of ACKs that credits less than a congestion
    window of data leaves the window alone, and the ACK that completes the
    window adds exactly one segment (up to the largest window the peer's scale
    allows) and keeps the excess credit. *)
Theorem newreno_segment_per_window e tp acks ack :
  env_ok e -> growing e tp -> acks_ok (una tp) (acks ++ [ack]) -> snd_ssthresh tp < snd_cwnd tp ->
  t_bytes_acked tp + credits e tp acks < snd_cwnd tp ->
  snd_cwnd tp <= t_bytes_acked tp + credits e tp (acks ++ [ack]) ->
  let mid := fold_left (ack_step e) acks tp in
  let tp' := fold_left (ack_step e) (acks ++ [ack]) tp in
  snd_cwnd mid = snd_cwnd tp /\
  snd_cwnd tp' = Z.min (snd_cwnd tp + t_maxseg tp) (maxwin tp) /\
  t_bytes_acked tp' = t_bytes_acked tp + credits e tp (acks ++ [ack]) - snd_cwnd tp.
Proof.
  intros He G Ha Hss Hlt Hge.
  assert (acks_ok (una tp) acks /\ u32 (ack - List.last acks (una tp)) < 2 ^ 31) as [Ha1 Ha2].
  { clear -Ha. revert Ha. generalize (una tp). induction acks as [|a acks IH]; intros u; cbn [app acks_ok].
    - intros [H _]. split; [exact I|exact H].
    - intros [H1 H2]. destruct (IH a H2) as [H3 H4]. split; [split; assumption|]. rewrite List_last_cons. exact H4. }
  assert (credits e tp (acks ++ [ack]) = credits e tp acks
          + Z.min (u32 (ack - List.last acks (una tp))) (tcp_abc_l_var e * t_maxseg tp)) as Ec.
  { clear. revert tp. induction acks as [|a acks IH]; intros tp; cbn [app credits].
    - unfold abc_bytes. cbn [List.last]. lia.
    - rewrite IH. change (una (with_una tp a)) with a. change (t_maxseg (with_una tp a)) with (t_maxseg tp).
      rewrite List_last_cons. lia. }
  destruct (ack_run_waits e acks tp He G Ha1 Hss Hlt) as (I1 & I2 & I3 & I4 & I5 & I6 & I7).
  cbv zeta. rewrite fold_left_app. cbn [fold_left]. set (mid := fold_left (ack_step e) acks tp) in *.
  split; [exact I2|].
  assert (abc_bytes e mid ack = Z.min (u32 (ack - List.last acks (una tp))) (tcp_abc_l_var e * t_maxseg tp)) as Ea
    by (unfold abc_bytes; rewrite I4, I7; reflexivity).
  destruct (avoidance_grows e mid ack He I1) as (fl & _ & Eg).
  - rewrite I7. exact Ha2.
  - lia.
  - rewrite I2, I6, Ea. lia.
  - unfold ack_step. rewrite Eg. cbn [update snd_cwnd t_bytes_acked]. rewrite I2, I4, I5, I6, Ea, Ec.
    split; [reflexivity|lia].
Qed.
(** ** NewReno: reductions *)

Lemma flag_in_recovery x f : Z.land f TF_CONGRECOVERY = TF_CONGRECOVERY -> IN_CONGRECOVERY (Z.lor x f) = true.
Proof. intros H. apply flag_set; [exact H|discriminate|unfold TF_CONGRECOVERY; lia]. Qed.

Lemma ecn_cwr_fields tp :
  snd_cwnd (ecn_cwr tp) = snd_cwnd tp /\ snd_ssthresh (ecn_cwr tp) = snd_ssthresh tp /\
  snd_recover (ecn_cwr tp) = snd_recover tp /\ t_maxseg (ecn_cwr tp) = t_maxseg tp /\
  IN_CONGRECOVERY (t_flags (ecn_cwr tp)) = IN_CONGRECOVERY (t_flags tp) /\
  IN_FASTRECOVERY (t_flags (ecn_cwr tp)) = IN_FASTRECOVERY (t_flags tp).
Proof.
  unfold ecn_cwr. destruct (has_flag _ _); [|tauto]. cbn [set_flag update snd_cwnd snd_ssthresh snd_recover t_maxseg t_flags].
  repeat (split; [reflexivity|]). split; apply flag_set_other; reflexivity.
Qed.

Definition loss_signal (type : Z) : Prop := type = CC_NDUPACK \/ type = CC_ECN.

(** Fast recovery is a part of congestion recovery. *)
Definition recovery_ok (tp : tcpcb) : Prop :=
  IN_FASTRECOVERY (t_flags tp) = true -> IN_CONGRECOVERY (t_flags tp) = true.

(** The effect of a loss signal on the window. *)
Lemma loss_signal_effect e tp th_ack type :
  loss_signal type -> recovery_ok tp ->
  let tp' := cc_cong_signal (newreno_cc_algo e) tp th_ack type in
  IN_CONGRECOVERY (t_flags tp') = true /\ recovery_ok tp' /\
  if IN_CONGRECOVERY (t_flags tp)
  then snd_ssthresh tp' = snd_ssthresh tp /\ snd_cwnd tp' = snd_cwnd tp
  else snd_ssthresh tp' = newreno_win tp /\ snd_recover tp' = smax tp /\
       snd_cwnd tp' = (if type =? CC_ECN then newreno_win tp else snd_cwnd tp).
Proof.
  intros Hl Hr. unfold recovery_ok in *.
  unfold cc_cong_signal. cbn [newreno_cc_algo cong_signal].
  set (tp1 := if type =? CC_NDUPACK then _ else _).
  set (tp2 := match th_ack with Some _ => _ | None => _ end).
  assert (snd_cwnd tp2 = snd_cwnd tp1 /\ snd_ssthresh tp2 = snd_ssthresh tp1 /\ snd_recover tp2 = snd_recover tp1 /\
          t_maxseg tp2 = t_maxseg tp1 /\ t_flags tp2 = t_flags tp1) as (A1 & A2 & A3 & A4 & A5)
    by (subst tp2; destruct th_ack; repeat split).
  assert (snd_cwnd tp1 = snd_cwnd tp /\ snd_ssthresh tp1 = snd_ssthresh tp /\ t_maxseg tp1 = t_maxseg tp /\
          IN_CONGRECOVERY (t_flags tp1) = IN_CONGRECOVERY (t_flags tp) /\
          IN_FASTRECOVERY (t_flags tp1) = IN_FASTRECOVERY (t_flags tp) /\
          (IN_CONGRECOVERY (t_flags tp) = false -> snd_recover tp1 = smax tp)) as (B1 & B2 & B3 & B4 & B5 & B6).
  { destruct (ecn_cwr_fields (tp <| snd_recover := smax tp |>)) as (F1 & F2 & F3 & F4 & F5 & F6).
    cbn [update snd_cwnd snd_ssthresh snd_recover t_maxseg t_flags] in F1, F2, F3, F4, F5, F6.
    subst tp1. destruct Hl as [->| ->]; cbn [CC_NDUPACK CC_ECN Z.eqb Pos.eqb].
    - destruct (IN_FASTRECOVERY (t_flags tp)) eqn:Ef; cbn [negb]; [|tauto].
      rewrite Ef, (Hr eq_refl). repeat (split; [reflexivity|]). discriminate.
    - destruct (IN_CONGRECOVERY (t_flags tp)) eqn:Ef; cbn [negb]; [|tauto].
      rewrite Ef. repeat (split; [reflexivity|]). discriminate. }
  clearbody tp1 tp2. unfold newreno_cong_signal.
  assert (newreno_win tp2 = newreno_win tp) as -> by (unfold newreno_win; rewrite A1, A4, B1, B3; reflexivity).
  destruct Hl as [->| ->]; cbn [CC_NDUPACK CC_ECN Z.eqb Pos.eqb]; rewrite A5, B4.
  - rewrite B5. destruct (IN_FASTRECOVERY (t_flags tp)) eqn:Ef; cbn [negb].
    + rewrite (Hr eq_refl), A5, B4, B5, (Hr eq_refl). split; [reflexivity|]. split; [tauto|]. split; congruence.
    + destruct (IN_CONGRECOVERY (t_flags tp)) eqn:Ec; cbn [negb set_flag update t_flags snd_ssthresh snd_cwnd snd_recover];
        (split; [apply flag_in_recovery; reflexivity|]); (split; [intros _; apply flag_in_recovery; reflexivity|]).
      * split; congruence.
      * split; [reflexivity|]. split; [rewrite A3; auto|congruence].
  - destruct (IN_CONGRECOVERY (t_flags tp)) eqn:Ec; cbn [negb set_flag update t_flags snd_ssthresh snd_cwnd snd_recover].
    + rewrite A5, B4. split; [reflexivity|]. split; [tauto|]. split; congruence.
    + split; [apply flag_in_recovery; reflexivity|]. split; [intros _; apply flag_in_recovery; reflexivity|].
      split; [reflexivity|]. split; [rewrite A3; auto|reflexivity].
Qed.

(** C34: one reduction per window of data.  The first loss signal (duplicate ACKs
    or ECN) outside recovery sets the threshold to half the window in whole
    segments, at least two (and for ECN the window too) and remembers snd_max;
    further signals, of either kind, before recovery ends change neither the
    threshold nor the window. *)
Theorem newreno_one_reduction e tp th_ack type signals :
  window_ok tp -> recovery_ok tp -> IN_CONGRECOVERY (t_flags tp) = false ->
  loss_signal type -> Forall (fun s => loss_signal (snd s)) signals ->
  let tp1 := cc_cong_signal (newreno_cc_algo e) tp th_ack type in
  let tp2 := fold_left (fun tp s => cc_cong_signal (newreno_cc_algo e) tp (fst s) (snd s)) signals tp1 in
  snd_recover tp1 = smax tp /\
  2 * t_maxseg tp <= snd_ssthresh tp1 <= Z.max (snd_cwnd tp / 2) (2 * t_maxseg tp) /\
  snd_cwnd tp1 = (if type =? CC_ECN then snd_ssthresh tp1 else snd_cwnd tp) /\
  snd_ssthresh tp2 = snd_ssthresh tp1 /\ snd_cwnd tp2 = snd_cwnd tp1.
Proof.
  intros W Hr Hc Hl Hs. cbv zeta.
  destruct (loss_signal_effect e tp th_ack type Hl Hr) as (E1 & E2 & E3). rewrite Hc in E3.
  set (tp1 := cc_cong_signal (newreno_cc_algo e) tp th_ack type) in *. destruct E3 as (E3 & E4 & E5).
  pose proof (newreno_win_bounds tp W) as Hw. rewrite E3.
  split; [exact E4|]. split; [lia|]. split; [exact E5|].
  clearbody tp1. rewrite <- E3. clear E3 E4 E5 Hw. revert tp1 E1 E2.
  induction Hs as [|[ack t] signals Ht _ IH]; intros tp1 E1 E2; [auto|]. cbn [fold_left fst snd].
  destruct (loss_signal_effect e tp1 ack t Ht E2) as (F1 & F2 & F3). rewrite E1 in F3. destruct F3 as [F3 F4].
  rewrite <- F3, <- F4. apply IH; assumption.
Qed.

(** Leaving fast recovery does not burst.  With [flight] bytes outstanding,
    cc_post_recovery leaves room for at most one segment beyond them when less
    than the threshold is outstanding, and none otherwise; the new window is
    never above max(threshold, flight + one segment). *)
Theorem newreno_recovery_exit e tp th_ack :
  window_ok tp -> IN_FASTRECOVERY (t_flags tp) = true ->
  let flight := u32 (smax tp - th_ack) in
  flight < 2 ^ 30 -> snd_ssthresh tp < 2 ^ 30 ->
  let tp' := cc_post_recovery (newreno_cc_algo e) tp th_ack in
  snd_cwnd tp' = (if flight <? snd_ssthresh tp then flight + t_maxseg tp else snd_ssthresh tp) /\
  snd_cwnd tp' - flight <= t_maxseg tp /\ t_bytes_acked tp' = 0.
Proof.
  intros [W1 W2 W3 W4] Hf flight Hfl Hss. cbv zeta. unfold cc_post_recovery.
  cbn [newreno_cc_algo post_recovery]. unfold newreno_post_recovery.
  cbn [update t_flags curack snd_ssthresh t_maxseg]. rewrite Hf.
  change (smax (tp <| curack := th_ack |>)) with (smax tp).
  pose proof (u32_range (smax tp - th_ack)) as Hr. fold flight in Hr.
  assert (s32 (th_ack + snd_ssthresh tp - smax tp) = snd_ssthresh tp - flight) as Es.
  { rewrite <- (s32_small (snd_ssthresh tp - flight)) by lia. apply s32_cong. subst flight.
    rewrite u32_sub_r. f_equal. lia. }
  unfold SEQ_GT. rewrite Es.
  assert (u32 (smax tp - th_ack + t_maxseg tp) = flight + t_maxseg tp) as Eu
    by (rewrite <- u32_add_l; apply u32_small; fold flight; lia).
  destruct (Z.ltb_spec 0 (snd_ssthresh tp - flight)); cbn [update snd_cwnd t_bytes_acked]; rewrite ?Eu;
    destruct (Z.ltb_spec flight (snd_ssthresh tp)); (split; [lia|split; [lia|reflexivity]]).
Qed.
(** ** Examples *)

Definition idle_callout : callout := mk_callout 0 None 0 None CALLOUT_MPSAFE 0.
Definition idle_timers : tcp_timer :=
  mk_tcp_timer idle_callout idle_callout idle_callout idle_callout idle_callout.

(** A connection with 1000-byte segments, [cwnd] and [ssthresh] as given, and
    10000 bytes in flight from 5000. *)
Definition sample_conn (flags cwnd ssthresh : Z) : tcpcb :=
  mk_tcpcb ((sample_sender 65536) <| snd_una := 5000 |> <| snd_nxt := 15000 |> <| snd_max := 15000 |>)
    TCPS_ESTABLISHED flags 1000 0 0 65535 cwnd ssthresh 0 0 0 0 0 0 0 0 0
    64 16 0 3 0 0 300 0 0 0 0 0 0 0 idle_timers 0 false.

Definition sample_ccenv : ccenv := mk_ccenv true true 2 1 4 100 20.

Lemma sample_env_ok : env_ok sample_ccenv.
Proof. unfold env_ok. cbn. lia. Qed.

Lemma sample_window_ok flags cwnd ssthresh :
  1000 <= cwnd < 2 ^ 31 -> 2000 <= ssthresh < 2 ^ 31 -> window_ok (sample_conn flags cwnd ssthresh).
Proof. intros. split; cbn; unfold TCP_MAX_WINSHIFT; lia. Qed.

Lemma sample_growing cwnd ssthresh :
  1000 <= cwnd <= 65535 -> 2000 <= ssthresh < 2 ^ 31 -> growing sample_ccenv (sample_conn 0 cwnd ssthresh).
Proof.
  intros. split; [apply sample_window_ok; lia|reflexivity|reflexivity|cbn; lia|change (cwnd <= 65535); lia|cbn; lia|reflexivity].
Qed.


(** Five ACKs of two segments complete a window of 10000 bytes. *)
Lemma newreno_segment_per_window_witness :
  snd_cwnd (fold_left (ack_step sample_ccenv) [7000; 9000; 11000; 13000; 15000] (sample_conn 0 10000 8000)) = 11000 /\
  snd_cwnd (fold_left (ack_step sample_ccenv) ([7000; 9000; 11000; 13000] ++ [15000]) (sample_conn 0 10000 8000))
  = Z.min (10000 + 1000) (maxwin (sample_conn 0 10000 8000)).
Proof.
  split; [vm_compute; reflexivity|].
  apply (newreno_segment_per_window sample_ccenv (sample_conn 0 10000 8000) [7000; 9000; 11000; 13000] 15000);
    [exact sample_env_ok|apply sample_growing; lia| |cbn; lia|vm_compute; reflexivity|vm_compute; congruence].
  cbn. repeat split; vm_compute; reflexivity.
Defined.

Lemma newreno_slow_start_witness :
  snd_cwnd (cc_ack_received sample_ccenv (newreno_cc_algo sample_ccenv) (sample_conn 0 4000 8000) 8000 CC_ACK) = 6000 /\
  t_bytes_acked (cc_ack_received sample_ccenv (newreno_cc_algo sample_ccenv) (sample_conn 0 4000 8000) 8000 CC_ACK) = 0.
Proof.
  split; [vm_compute; reflexivity|].
  apply (newreno_slow_start sample_ccenv (sample_conn 0 4000 8000) 8000);
    [exact sample_env_ok|apply sample_growing; lia|split; vm_compute; reflexivity|cbn; lia|cbn; lia].
Defined.

Lemma newreno_one_reduction_witness :
  let tp1 := cc_cong_signal (newreno_cc_algo sample_ccenv) (sample_conn 0 10000 8000) (Some 5000) CC_NDUPACK in
  let tp2 := fold_left (fun tp s => cc_cong_signal (newreno_cc_algo sample_ccenv) tp (fst s) (snd s))
               [(Some 5000, CC_ECN); (Some 5000, CC_NDUPACK)] tp1 in
  snd_ssthresh tp1 = 5000 /\ snd_ssthresh tp2 = snd_ssthresh tp1 /\ snd_cwnd tp2 = snd_cwnd tp1.
Proof.
  cbv zeta. split; [vm_compute; reflexivity|].
  apply (newreno_one_reduction sample_ccenv (sample_conn 0 10000 8000) (Some 5000) CC_NDUPACK
           [(Some 5000, CC_ECN); (Some 5000, CC_NDUPACK)]);
    [apply sample_window_ok; lia|discriminate|reflexivity|left; reflexivity|].
  constructor; [right; reflexivity|]. constructor; [left; reflexivity|constructor].
Defined.

Lemma newreno_recovery_exit_witness :
  snd_cwnd (cc_post_recovery (newreno_cc_algo sample_ccenv) (sample_conn TF_RECOVERY 10000 8000) 12000) = 4000 /\
  snd_cwnd (cc_post_recovery (newreno_cc_algo sample_ccenv) (sample_conn TF_RECOVERY 10000 8000) 12000)
  = (if u32 (15000 - 12000) <? 8000 then u32 (15000 - 12000) + 1000 else 8000).
Proof.
  split; [vm_compute; reflexivity|].
  apply (newreno_recovery_exit sample_ccenv (sample_conn TF_RECOVERY 10000 8000) 12000);
    [apply sample_window_ok; lia|reflexivity|vm_compute; reflexivity|cbn; lia].
Defined.

End CC.
