(* ===== verification/TcpTimer.v ===== *)
(** * Round-trip times and timers

    The RTT estimator and retransmission timeout ([tcp_xmit_timer] of
    sys/netinet/tcp_input.c), the persist timer's start ([tcp_setpersist] of
    sys/netinet/tcp_output.c) and the timer functions of
    sys/netinet/tcp_timer.c.

    [tcp_output] is a parameter, its effect on the control block; [tcp_drop] and
    [tcp_close] end the connection and are outcomes.  What other threads may do
    while [tcp_timer_rexmt] has dropped its locks is an argument ([race]). *)

From S2P Require Import Prelude TcpSeq Callout TcpOptions TcpSack TcpCC.

Module Timer.

Import TcpSack.Sack TcpCC.CC.

Definition TCP_MAXRXTSHIFT := 12.
Definition ETIMEDOUT := 60.

Definition tcp_syn_backoff : list Z := [1; 1; 1; 1; 1; 2; 4; 8; 16; 32; 64; 64; 64].
Definition tcp_backoff : list Z := [1; 2; 4; 8; 16; 32; 64; 128; 256; 512; 512; 512; 512].
Definition tcp_totbackoff : Z := 2559.

(** The kernel variables the timers read; [so_keepalive] and [so_cantrcvmore]
    are the bits of the connection's socket. *)
Record tenv := mk_tenv {
  cce : ccenv;
  ticks : Z;
  tcp_keepidle : Z;
  tcp_keepintvl : Z;
  tcp_keepcnt : Z;
  tcp_maxpersistidle : Z;
  always_keepalive : bool;
  so_keepalive : bool;
  so_cantrcvmore : bool;
  tcp_fast_finwait2_recycle : bool }.

Definition TCPTV_PERSMIN (e : tenv) : Z := 5 * hz (cce e).
Definition TCPTV_PERSMAX (e : tenv) : Z := 60 * hz (cce e).

Definition TP_KEEPIDLE (e : tenv) (tp : tcpcb) : Z :=
  u32 (if t_keepidle tp =? 0 then tcp_keepidle e else t_keepidle tp).
Definition TP_KEEPINTVL (e : tenv) (tp : tcpcb) : Z :=
  u32 (if t_keepintvl tp =? 0 then tcp_keepintvl e else t_keepintvl tp).
Definition TP_KEEPCNT (e : tenv) (tp : tcpcb) : Z :=
  u32 (if t_keepcnt tp =? 0 then tcp_keepcnt e else t_keepcnt tp).
Definition TP_MAXIDLE (e : tenv) (tp : tcpcb) : Z := u32 (TP_KEEPCNT e tp * TP_KEEPINTVL e tp).

Definition TCP_REXMTVAL (tp : tcpcb) : Z :=
  umax (t_rttmin tp)
    (Z.shiftr (Z.shiftr (t_srtt tp) (TCP_RTT_SHIFT - TCP_DELTA_SHIFT) + t_rttvar tp) TCP_DELTA_SHIFT).

(** The idle time [ticks - tp->t_rcvtime], an unsigned difference. *)
Definition idle (e : tenv) (tp : tcpcb) : Z := u32 (ticks e - t_rcvtime tp).

(** ** tcp_xmit_timer *)

Definition smooth_rtt (tp : tcpcb) (rtt : Z) : tcpcb :=
  let delta := s32 (Z.shiftl (rtt - 1) TCP_DELTA_SHIFT
                    - Z.shiftr (t_srtt tp) (TCP_RTT_SHIFT - TCP_DELTA_SHIFT)) in
  let srtt := s32 (t_srtt tp + delta) in
  let tp := tp <| t_srtt := if srtt <=? 0 then 1 else srtt |> in
  let delta := if delta <? 0 then - delta else delta in
  let delta := s32 (delta - Z.shiftr (t_rttvar tp) (TCP_RTTVAR_SHIFT - TCP_DELTA_SHIFT)) in
  let rttvar := s32 (t_rttvar tp + delta) in
  let tp := tp <| t_rttvar := if rttvar <=? 0 then 1 else rttvar |> in
  if u32 (t_srtt tp + t_rttvar tp) <? t_rttbest tp
  then tp <| t_rttbest := u32 (t_srtt tp + t_rttvar tp) |> else tp.

Definition first_rtt (tp : tcpcb) (rtt : Z) : tcpcb :=
  let tp := tp <| t_srtt := s32 (Z.shiftl rtt TCP_RTT_SHIFT) |>
               <| t_rttvar := s32 (Z.shiftl rtt (TCP_RTTVAR_SHIFT - 1)) |> in
  tp <| t_rttbest := u32 (t_srtt tp + t_rttvar tp) |>.

Definition tcp_xmit_timer (e : ccenv) (tp : tcpcb) (rtt : Z) : tcpcb :=
  let tp := tp <| t_rttupdated := u64 (t_rttupdated tp + 1) |> in
  let tp := if negb (t_srtt tp =? 0) then smooth_rtt tp rtt else first_rtt tp rtt in
  let tp := tp <| t_rtttime := 0 |> <| t_rxtshift := 0 |> in
  let tp := tp <| t_rxtcur := TCPT_RANGESET e (TCP_REXMTVAL tp)
                                (umax (t_rttmin tp) (rtt + 2)) (TCPTV_REXMTMAX e) |> in
  tp <| t_softerror := 0 |>.

(** ** Starting and stopping timers *)

Inductive timer_type := TT_DELACK | TT_REXMT | TT_PERSIST | TT_KEEP | TT_2MSL.

#[export] Instance timer_type_eq_dec : EqDecision timer_type.
Proof. solve_decision. Defined.

Definition timer (t : timer_type) (tm : tcp_timer) : callout :=
  match t with
  | TT_DELACK => tt_delack tm
  | TT_REXMT => tt_rexmt tm
  | TT_PERSIST => tt_persist tm
  | TT_KEEP => tt_keep tm
  | TT_2MSL => tt_2msl tm
  end.

Definition set_timer (t : timer_type) (c : callout) (tm : tcp_timer) : tcp_timer :=
  match t with
  | TT_DELACK => tm <| tt_delack := c |>
  | TT_REXMT => tm <| tt_rexmt := c |>
  | TT_PERSIST => tm <| tt_persist := c |>
  | TT_KEEP => tm <| tt_keep := c |>
  | TT_2MSL => tm <| tt_2msl := c |>
  end.

(** The timer functions' addresses. *)
Definition timer_fn (t : timer_type) : Z :=
  match t with TT_DELACK => 1 | TT_REXMT => 2 | TT_PERSIST => 3 | TT_KEEP => 4 | TT_2MSL => 5 end.

Definition on_timer (t : timer_type) (f : callout -> callout) (tp : tcpcb) : tcpcb :=
  tp <| t_timers := set_timer t (f (timer t (t_timers tp))) (t_timers tp) |>.

Definition tcp_timer_activate (e : tenv) (tp : tcpcb) (t : timer_type) (delta : Z) : tcpcb :=
  if delta =? 0 then on_timer t callout_disarm tp
  else on_timer t (callout_arm (ticks e) (s32 delta) (Some (timer_fn t)) 0) tp.

Definition tcp_timer_active (tp : tcpcb) (t : timer_type) : bool :=
  callout_active (timer t (t_timers tp)).

(** [None] is the panic "retransmit pending". *)
Definition tcp_setpersist (e : tenv) (tp : tcpcb) : option tcpcb :=
  let t := Z.shiftr (Z.shiftr (t_srtt tp) 2 + t_rttvar tp) 1 in
  let tp := clear_flag TF_PREVVALID tp in
  if tcp_timer_active tp TT_REXMT then None
  else
    let ival := TCPT_RANGESET (cce e) (s32 (t * nth (Z.to_nat (t_rxtshift tp)) tcp_backoff 0))
                (TCPTV_PERSMIN e) (TCPTV_PERSMAX e) in
    let tp := tcp_timer_activate e tp TT_PERSIST (u32 ival) in
    Some (if t_rxtshift tp <? TCP_MAXRXTSHIFT then tp <| t_rxtshift := t_rxtshift tp + 1 |> else tp).

(** ** The timer functions *)

(** How a timer function ends: the connection goes on (with the segments
    [tcp_respond] was called for, as (ack, seq)), it is dropped with an error, it
    is closed, its inpcb was gone ([tcp_timer_race]) or the kernel panicked. *)
Inductive outcome :=
  | Done (tp : tcpcb) (probes : list (Z * Z))
  | Dropped (tp : tcpcb) (error : Z)
  | Closed (tp : tcpcb)
  | NoPcb
  | Panic.

(** The callout was stopped or rescheduled after it fired, or the inpcb was
    dropped. *)
Definition stale (t : timer_type) (tp : tcpcb) : bool :=
  inp_dropped tp || callout_pending (timer t (t_timers tp))
  || negb (callout_active (timer t (t_timers tp))).

Definition deactivate (t : timer_type) (tp : tcpcb) : tcpcb := on_timer t callout_deactivate tp.

Section timers.
Context (e : tenv) (tcp_output : tcpcb -> tcpcb).

Definition tcp_timer_delack (inp : bool) (tp : tcpcb) : outcome :=
  if negb inp then NoPcb
  else if stale TT_DELACK tp then Done tp []
  else Done (tcp_output (set_flag TF_ACKNOW (deactivate TT_DELACK tp))) [].

Definition tcp_timer_2msl (inp : bool) (tp : tcpcb) : outcome :=
  if negb inp then NoPcb
  else
    let tp := tp <| t_sack := tcp_free_sackholes (t_sack tp) |> in
    if stale TT_2MSL tp then Done tp []
    else
      let tp := deactivate TT_2MSL tp in
      if tcp_fast_finwait2_recycle e && (t_state tp =? TCPS_FIN_WAIT_2) && so_cantrcvmore e
      then Closed tp
      else if negb (t_state tp =? TCPS_TIME_WAIT) && (idle e tp <=? TP_MAXIDLE e tp)
      then Done (on_timer TT_2MSL (callout_arm (ticks e) (s32 (TP_KEEPINTVL e tp)) (Some (timer_fn TT_2MSL)) 0) tp) []
      else Closed tp.

(** [template]: tcpip_maketemplate succeeded. *)
Definition tcp_timer_keep (inp template : bool) (tp : tcpcb) : outcome :=
  if negb inp then NoPcb
  else if stale TT_KEEP tp then Done tp []
  else
    let tp := deactivate TT_KEEP tp in
    if t_state tp <? TCPS_ESTABLISHED then Dropped tp ETIMEDOUT
    else if (always_keepalive e || so_keepalive e) && (t_state tp <=? TCPS_CLOSING) then
      if u32 (TP_KEEPIDLE e tp + TP_MAXIDLE e tp) <=? idle e tp then Dropped tp ETIMEDOUT
      else
        Done (on_timer TT_KEEP (callout_arm (ticks e) (s32 (TP_KEEPINTVL e tp)) (Some (timer_fn TT_KEEP)) 0) tp)
          (if template then [(rcv_nxt (t_sack tp), u32 (una tp - 1))] else [])
    else
      Done (on_timer TT_KEEP (callout_arm (ticks e) (s32 (TP_KEEPIDLE e tp)) (Some (timer_fn TT_KEEP)) 0) tp) [].

Definition tcp_timer_persist (inp : bool) (tp : tcpcb) : outcome :=
  if negb inp then NoPcb
  else if stale TT_PERSIST tp then Done tp []
  else
    let tp := deactivate TT_PERSIST tp in
    if (t_rxtshift tp =? TCP_MAXRXTSHIFT) &&
       ((u32 (tcp_maxpersistidle e) <=? idle e tp)
        || (u32 (TCP_REXMTVAL tp * tcp_totbackoff) <=? idle e tp))
    then Dropped tp ETIMEDOUT
    else
      match tcp_setpersist e tp with
      | None => Panic
      | Some tp =>
          Done (clear_flag TF_FORCEDATA (tcp_output (set_flag TF_FORCEDATA tp))) []
      end.

(** The first retransmission saves what is needed to undo it. *)
Definition rexmt_save (tp : tcpcb) : tcpcb :=
  if t_rxtshift tp =? 1 then
    let tp := tp <| snd_cwnd_prev := snd_cwnd tp |>
                 <| snd_ssthresh_prev := snd_ssthresh tp |>
                 <| snd_recover_prev := snd_recover tp |> in
    let tp := if IN_FASTRECOVERY (t_flags tp) then set_flag TF_WASFRECOVERY tp
              else clear_flag TF_WASFRECOVERY tp in
    let tp := if IN_CONGRECOVERY (t_flags tp) then set_flag TF_WASCRECOVERY tp
              else clear_flag TF_WASCRECOVERY tp in
    let tp := tp <| t_badrxtwin := u32 (ticks e + Z.shiftr (t_srtt tp) (TCP_RTT_SHIFT + 1)) |> in
    set_flag TF_PREVVALID tp
  else clear_flag TF_PREVVALID tp.

(** The next timeout, and the estimator after several of them. *)
Definition rexmt_backoff (tp : tcpcb) : tcpcb :=
  let backoff := if t_state tp =? TCPS_SYN_SENT then tcp_syn_backoff else tcp_backoff in
  let rexmt := s32 (TCP_REXMTVAL tp * nth (Z.to_nat (t_rxtshift tp)) backoff 0) in
  let tp := tp <| t_rxtcur := TCPT_RANGESET (cce e) rexmt (t_rttmin tp) (TCPTV_REXMTMAX (cce e)) |> in
  let tp := if (t_state tp =? TCPS_SYN_SENT) && (t_rxtshift tp =? 3)
            then clear_flag (Z.lor TF_REQ_SCALE TF_REQ_TSTMP) tp else tp in
  if TCP_MAXRXTSHIFT / 4 <? t_rxtshift tp
  then tp <| t_rttvar := s32 (t_rttvar tp + Z.shiftr (t_srtt tp) TCP_RTT_SHIFT) |> <| t_srtt := 0 |>
  else tp.

(** What other threads did between the unlock and the relock: the last
    reference was ours ([in_pcbrele_wlocked]), or the inpcb was dropped. *)
Inductive race := Quiet | PcbFreed | PcbDropped.

Definition tcp_timer_rexmt (a : cc_algo) (inp : bool) (r : race) (tp : tcpcb) : outcome :=
  if negb inp then NoPcb
  else if stale TT_REXMT tp then Done tp []
  else
    let tp := deactivate TT_REXMT tp in
    let tp := tp <| t_sack := tcp_free_sackholes (t_sack tp) |> in
    let tp := tp <| t_rxtshift := t_rxtshift tp + 1 |> in
    if TCP_MAXRXTSHIFT <? t_rxtshift tp then
      let tp := tp <| t_rxtshift := TCP_MAXRXTSHIFT |> in
      match r with
      | Quiet => Dropped tp (if negb (t_softerror tp =? 0) then t_softerror tp else ETIMEDOUT)
      | _ => Done tp []
      end
    else
      let tp := rexmt_save tp in
      let tp := rexmt_backoff tp in
      let tp := set_nxt (una tp) tp in
      let tp := tp <| snd_recover := smax tp |> in
      let tp := set_flag TF_ACKNOW tp in
      let tp := tp <| t_rtttime := 0 |> in
      let tp := cc_cong_signal a tp None CC_RTO in
      Done (tcp_output tp) [].

End timers.

(** ** tcp_timer_to_xtimer *)

Definition ticks_to_msecs (hz t : Z) : Z := Z.quot (s32 (1000 * t)) hz.

Definition xtimer_field (e : tenv) (c : callout) : Z :=
  if callout_active c then ticks_to_msecs (hz (cce e)) (s32 (c_time c - ticks e)) else 0.

(** (delack, rexmt, persist, keep, 2msl, rcvtime); the idle time is converted
    with unsigned arithmetic. *)
Definition tcp_timer_to_xtimer (e : tenv) (tp : tcpcb) (tm : option tcp_timer)
  : Z * Z * Z * Z * Z * Z :=
  match tm with
  | None => (0, 0, 0, 0, 0, 0)
  | Some tm =>
      (xtimer_field e (tt_delack tm), xtimer_field e (tt_rexmt tm), xtimer_field e (tt_persist tm),
       xtimer_field e (tt_keep tm), xtimer_field e (tt_2msl tm),
       s32 (u32 (1000 * idle e tp) / u32 (hz (cce e))))
  end.
(** ** The estimator *)

Definition clamp (lo hi x : Z) : Z := Z.min (Z.max x lo) hi.

Lemma rangeset_clamp e value tvmin tvmax :
  0 <= value + tcp_rexmit_slop e < 2 ^ 31 -> 0 <= tvmin < 2 ^ 31 -> 0 <= tvmax < 2 ^ 31 ->
  TCPT_RANGESET e value tvmin tvmax = clamp tvmin tvmax (value + tcp_rexmit_slop e).
Proof.
  intros Hv H1 H2. unfold TCPT_RANGESET, clamp. rewrite (s32_small (value + _)) by lia.
  assert (forall x, 0 <= x < 2 ^ 31 -> u64 x = x) as Hu by (intros; wrap).
  rewrite (Hu (value + tcp_rexmit_slop e)), (Hu tvmin), (Hu tvmax), !s32_small by lia.
  destruct (Z.ltb_spec (value + tcp_rexmit_slop e) tvmin).
  - rewrite (Hu tvmin) by lia. destruct (Z.ltb_spec tvmax tvmin); lia.
  - rewrite Hu by lia. destruct (Z.ltb_spec tvmax (value + tcp_rexmit_slop e)); lia.
Qed.

(** The estimates lie within what samples of at most [M] ticks can give, in
    fixed point: 5 bits of fraction for srtt, 4 for rttvar. *)
Record est_ok (M : Z) (tp : tcpcb) : Prop := {
  eo_srtt : 0 <= t_srtt tp <= 32 * M;
  eo_rttvar : 0 <= t_rttvar tp <= 16 * M;
  eo_rttmin : 0 <= t_rttmin tp <= M;
  eo_rttbest : 0 <= t_rttbest tp < 2 ^ 32 }.

(** The parameters of the timeout: a clock rate and a slop that make sense. *)
Definition rto_env_ok (e : ccenv) : Prop := 0 < hz e < 2 ^ 20 /\ 0 <= tcp_rexmit_slop e < 2 ^ 20.

(** Jacobson's smoothing without the wrap-around: 7/8 of the old estimate plus
    1/8 of the sample, 3/4 of the old deviation plus 1/4 of the new one. *)
Definition next_srtt (srtt rtt : Z) : Z := Z.max 1 (srtt + (4 * (rtt - 1) - srtt / 8)).
Definition next_rttvar (srtt rttvar rtt : Z) : Z :=
  Z.max 1 (rttvar + (Z.abs (4 * (rtt - 1) - srtt / 8) - rttvar / 4)).

Lemma smooth_rtt_spec M tp rtt :
  0 < M < 2 ^ 20 -> est_ok M tp -> 1 <= rtt <= M ->
  let tp' := smooth_rtt tp rtt in
  t_srtt tp' = next_srtt (t_srtt tp) rtt /\ t_rttvar tp' = next_rttvar (t_srtt tp) (t_rttvar tp) rtt /\
  est_ok M tp' /\ t_rttmin tp' = t_rttmin tp.
Proof.
  intros HM [S1 S2 S3 S4] Hr. unfold smooth_rtt.
  change (TCP_RTT_SHIFT - TCP_DELTA_SHIFT) with 3. change (TCP_RTTVAR_SHIFT - TCP_DELTA_SHIFT) with 2.
  rewrite Z.shiftl_mul_pow2, !Z.shiftr_div_pow2 by (unfold TCP_DELTA_SHIFT; lia).
  change (2 ^ TCP_DELTA_SHIFT) with 4. change (2 ^ 3) with 8. change (2 ^ 2) with 4.
  assert (0 <= t_srtt tp / 8 <= 4 * M) as H1 by (Z.div_mod_to_equations; lia).
  assert (0 <= t_rttvar tp / 4 <= 4 * M) as H2 by (Z.div_mod_to_equations; lia).
  set (delta := 4 * (rtt - 1) - t_srtt tp / 8).
  replace ((rtt - 1) * 4 - t_srtt tp / 8) with delta by (subst delta; lia).
  rewrite (s32_small delta) by (subst delta; lia).
  assert (t_srtt tp + delta <= 32 * M /\ - (4 * M) <= delta <= 4 * M) as [H3 H4]
    by (subst delta; Z.div_mod_to_equations; lia).
  rewrite (s32_small (t_srtt tp + delta)) by (subst delta; lia).
  set (srtt' := if t_srtt tp + delta <=? 0 then 1 else t_srtt tp + delta).
  assert (srtt' = next_srtt (t_srtt tp) rtt) as Es by (subst srtt' delta; unfold next_srtt; zbool_cases; lia).
  assert ((if delta <? 0 then - delta else delta) = Z.abs delta) as -> by (zbool_cases; lia).
  cbv zeta. cbn [update t_srtt t_rttvar t_rttbest t_rttmin].
  rewrite (s32_small (Z.abs delta - t_rttvar tp / 4)) by lia.
  rewrite (s32_small (t_rttvar tp + (Z.abs delta - t_rttvar tp / 4))) by lia.
  set (rttvar' := if t_rttvar tp + (Z.abs delta - t_rttvar tp / 4) <=? 0 then 1 else _).
  assert (rttvar' = next_rttvar (t_srtt tp) (t_rttvar tp) rtt) as Ev
    by (subst rttvar'; unfold next_rttvar; fold delta; zbool_cases; lia).
  assert (1 <= srtt' <= 32 * M) as Hs by (subst srtt'; zbool_cases; lia).
  assert (1 <= rttvar' <= 16 * M) as Hv by (subst rttvar'; zbool_cases; Z.div_mod_to_equations; lia).
  cbv zeta. cbn [update t_srtt t_rttvar t_rttbest]. rewrite <- Es, <- Ev. pose proof (u32_range (srtt' + rttvar')).
  destruct (Z.ltb_spec (u32 (srtt' + rttvar')) (t_rttbest tp));
    (split; [reflexivity|]); (split; [reflexivity|]); (split; [|reflexivity]);
    split; cbn [update t_srtt t_rttvar t_rttmin t_rttbest]; lia.
Qed.

Lemma rexmtval_bounds M tp : 0 < M < 2 ^ 20 -> est_ok M tp ->
  TCP_REXMTVAL tp = Z.max (t_rttmin tp) ((t_srtt tp / 8 + t_rttvar tp) / 4) /\
  0 <= TCP_REXMTVAL tp <= 5 * M.
Proof.
  intros HM [S1 S2 S3 S4]. unfold TCP_REXMTVAL.
  change (TCP_RTT_SHIFT - TCP_DELTA_SHIFT) with 3. rewrite !Z.shiftr_div_pow2 by (unfold TCP_DELTA_SHIFT; lia).
  change (2 ^ TCP_DELTA_SHIFT) with 4. change (2 ^ 3) with 8.
  assert (0 <= (t_srtt tp / 8 + t_rttvar tp) / 4 <= 5 * M) by (Z.div_mod_to_equations; lia).
  rewrite umax_small by lia. split; lia.
Qed.

(** C35: the RTT estimator.  For samples of at most [M] ticks (below 2^20) the
    fixed-point computation of tcp_xmit_timer never overflows and is Jacobson's
    smoothing; the estimates never leave the range of the samples; and the new
    timeout is rtt + 4 * rttvar plus the slop, clamped between the larger of
    t_rttmin and rtt + 2 and the maximum. *)
Theorem tcp_xmit_timer_correct e M tp rtt :
  rto_env_ok e -> 0 < M < 2 ^ 20 -> est_ok M tp -> 1 <= rtt <= M ->
  let tp' := tcp_xmit_timer e tp rtt in
  t_srtt tp' = (if t_srtt tp =? 0 then 32 * rtt else next_srtt (t_srtt tp) rtt) /\
  t_rttvar tp' = (if t_srtt tp =? 0 then 8 * rtt else next_rttvar (t_srtt tp) (t_rttvar tp) rtt) /\
  est_ok M tp' /\ 0 < t_srtt tp' /\ 0 < t_rttvar tp' /\
  t_rxtcur tp' = clamp (Z.max (t_rttmin tp) (rtt + 2)) (64 * hz e)
                   (Z.max (t_rttmin tp) ((t_srtt tp' / 8 + t_rttvar tp') / 4) + tcp_rexmit_slop e) /\
  t_rxtshift tp' = 0.
Proof.
  intros [He1 He2] HM Hok Hr. unfold tcp_xmit_timer. cbv zeta.
  change (t_srtt (tp <| t_rttupdated := _ |>)) with (t_srtt tp).
  set (tp0 := tp <| t_rttupdated := u64 (t_rttupdated tp + 1) |>).
  assert (est_ok M tp0) as Hok0 by (destruct Hok; split; assumption).
  set (tp1 := if negb (t_srtt tp =? 0) then smooth_rtt tp0 rtt else first_rtt tp0 rtt).
  assert (t_srtt tp1 = (if t_srtt tp =? 0 then 32 * rtt else next_srtt (t_srtt tp) rtt) /\
          t_rttvar tp1 = (if t_srtt tp =? 0 then 8 * rtt else next_rttvar (t_srtt tp) (t_rttvar tp) rtt) /\
          est_ok M tp1 /\ t_rttmin tp1 = t_rttmin tp) as (A1 & A2 & A3 & A4).
  { subst tp1. destruct (t_srtt tp =? 0); cbn [negb]; [|exact (smooth_rtt_spec M tp0 rtt HM Hok0 Hr)].
    destruct Hok as [S1 S2 S3 S4]. unfold first_rtt. cbn [update t_srtt t_rttvar t_rttmin].
    rewrite !Z.shiftl_mul_pow2 by (unfold TCP_RTT_SHIFT, TCP_RTTVAR_SHIFT; lia).
    change (2 ^ TCP_RTT_SHIFT) with 32. change (2 ^ (TCP_RTTVAR_SHIFT - 1)) with 8. rewrite !s32_small by lia.
    pose proof (u32_range (rtt * 32 + rtt * 8)).
    split; [lia|]. split; [lia|]. split; [|reflexivity]. split; cbn; lia. }
  clearbody tp1. destruct (rexmtval_bounds M tp1 HM A3) as [V1 V2].
  match goal with |- context [TCP_REXMTVAL ?x] => change (TCP_REXMTVAL x) with (TCP_REXMTVAL tp1) end.
  cbn [update t_srtt t_rttvar t_rttmin t_rxtcur t_rxtshift].
  split; [exact A1|]. split; [exact A2|]. split; [destruct A3; split; assumption|].
  split; [rewrite A1; unfold next_srtt; destruct (_ =? _); lia|].
  split; [rewrite A2; unfold next_rttvar; destruct (_ =? _); lia|]. split; [|reflexivity].
  rewrite A4 in *. destruct Hok as [S1 S2 S3 S4]. unfold TCPTV_REXMTMAX.
  rewrite umax_small by lia. rewrite rangeset_clamp by lia. rewrite V1. reflexivity.
Qed.

(** ** Retransmission timeouts *)

Section rexmt.
Context (e : tenv) (tcp_output : tcpcb -> tcpcb) (ce : ccenv).

(** The control block [tcp_timer_rexmt] hands to [tcp_output]. *)
Definition rexmt_block (tp : tcpcb) : tcpcb :=
  let tp := deactivate TT_REXMT tp in
  let tp := tp <| t_sack := tcp_free_sackholes (t_sack tp) |> in
  let tp := tp <| t_rxtshift := t_rxtshift tp + 1 |> in
  let tp := rexmt_backoff e (rexmt_save e tp) in
  let tp := set_nxt (una tp) tp in
  let tp := set_flag TF_ACKNOW (tp <| snd_recover := smax tp |>) in
  cc_cong_signal (newreno_cc_algo ce) (tp <| t_rtttime := 0 |>) None CC_RTO.

Lemma rexmt_cases tp :
  stale TT_REXMT tp = false ->
  tcp_timer_rexmt e tcp_output (newreno_cc_algo ce) true Quiet tp =
  if TCP_MAXRXTSHIFT <=? t_rxtshift tp
  then Dropped ((deactivate TT_REXMT tp) <| t_sack := tcp_free_sackholes (t_sack tp) |>
                  <| t_rxtshift := TCP_MAXRXTSHIFT |>)
         (if negb (t_softerror tp =? 0) then t_softerror tp else ETIMEDOUT)
  else Done (tcp_output (rexmt_block tp)) [].
Proof.
  intros Hs. unfold tcp_timer_rexmt. cbn [negb]. rewrite Hs.
  cbv zeta. cbn [update deactivate on_timer t_rxtshift t_softerror].
  destruct (Z.ltb_spec TCP_MAXRXTSHIFT (t_rxtshift tp + 1)), (Z.leb_spec TCP_MAXRXTSHIFT (t_rxtshift tp));
    try lia; reflexivity.
Qed.

(** NewReno does nothing of its own on a timeout: the hook collapses the
    window to one segment. *)
Lemma rto_signal tp :
  cc_cong_signal (newreno_cc_algo ce) tp None CC_RTO =
  (clear_flag TF_RECOVERY (tp <| t_dupacks := 0 |> <| t_bytes_acked := 0 |>))
    <| snd_ssthresh := u32 (umax 2 (umin (snd_wnd tp) (snd_cwnd tp) / 2 / t_maxseg tp) * t_maxseg tp) |>
    <| snd_cwnd := t_maxseg tp |>.
Proof. reflexivity. Qed.

Definition was_flags (tp : tcpcb) : Z :=
  let f := if IN_FASTRECOVERY (t_flags tp) then Z.lor (t_flags tp) TF_WASFRECOVERY
           else Z.land (t_flags tp) (Z.lnot TF_WASFRECOVERY) in
  let f := if IN_CONGRECOVERY f then Z.lor f TF_WASCRECOVERY else Z.land f (Z.lnot TF_WASCRECOVERY) in
  Z.lor f TF_PREVVALID.

Lemma rexmt_save_first tp : t_rxtshift tp = 1 ->
  rexmt_save e tp =
  tp <| snd_cwnd_prev := snd_cwnd tp |> <| snd_ssthresh_prev := snd_ssthresh tp |>
     <| snd_recover_prev := snd_recover tp |> <| t_flags := was_flags tp |>
     <| t_badrxtwin := u32 (ticks e + Z.shiftr (t_srtt tp) (TCP_RTT_SHIFT + 1)) |>.
Proof.
  intros H. unfold rexmt_save, was_flags. rewrite H. cbn [Z.eqb Pos.eqb]. cbv zeta.
  cbn [update t_flags snd_ssthresh snd_recover].
  destruct (IN_FASTRECOVERY (t_flags tp)); cbn [set_flag clear_flag update t_flags];
    destruct (IN_CONGRECOVERY _); reflexivity.
Qed.

Lemma rexmt_save_next tp : t_rxtshift tp <> 1 -> rexmt_save e tp = clear_flag TF_PREVVALID tp.
Proof. intros H. unfold rexmt_save. apply Z.eqb_neq in H. rewrite H. reflexivity. Qed.

(** What [rexmt_backoff] changes. *)
Lemma rexmt_backoff_frame tp :
  rexmt_backoff e tp =
  tp <| t_rxtcur := t_rxtcur (rexmt_backoff e tp) |> <| t_flags := t_flags (rexmt_backoff e tp) |>
     <| t_rttvar := t_rttvar (rexmt_backoff e tp) |> <| t_srtt := t_srtt (rexmt_backoff e tp) |>.
Proof.
  unfold rexmt_backoff. cbv zeta. destruct (_ && _), (_ <? _); destruct tp; reflexivity.
Qed.

Lemma rexmt_block_shift tp : t_rxtshift (rexmt_block tp) = t_rxtshift tp + 1.
Proof.
  unfold rexmt_block. cbv zeta. rewrite rto_signal, rexmt_backoff_frame.
  set (tp0 := _ <| t_rxtshift := _ |>). cbn [clear_flag set_flag set_nxt update t_rxtshift].
  assert (t_rxtshift (rexmt_save e tp0) = t_rxtshift tp0) as ->; [|reflexivity].
  destruct (Z.eq_dec (t_rxtshift tp0) 1); [rewrite rexmt_save_first|rewrite rexmt_save_next]; auto.
Qed.

(** The sequence of timeouts of a connection whose peer is silent: after each
    one anything may happen to the control block (segments go out, the timer is
    started and fires again) that does not reset [t_rxtshift]. *)
Inductive timeouts : nat -> tcpcb -> tcpcb -> Prop :=
  | timeouts_none tp : timeouts 0 tp tp
  | timeouts_next n tp0 tp tp' probes tp'' :
      timeouts n tp0 tp -> stale TT_REXMT tp = false ->
      tcp_timer_rexmt e tcp_output (newreno_cc_algo ce) true Quiet tp = Done tp' probes ->
      t_rxtshift tp'' = t_rxtshift tp' ->
      timeouts (S n) tp0 tp''.

Lemma timeouts_shift n tp0 tp :
  (forall tp, t_rxtshift (tcp_output tp) = t_rxtshift tp) -> t_rxtshift tp0 = 0 ->
  timeouts n tp0 tp -> t_rxtshift tp = Z.of_nat n /\ (n <= 12)%nat.
Proof.
  intros Hout H0. induction 1 as [|n tp0 tp tp' probes tp'' Hr IH Hs E Hk]; [lia|].
  destruct (IH H0) as [IH1 IH2]. rewrite rexmt_cases in E by exact Hs.
  destruct (Z.leb_spec TCP_MAXRXTSHIFT (t_rxtshift tp)) as [|Hlt]; [discriminate|]. injection E as <- <-.
  rewrite Hk, Hout, rexmt_block_shift. unfold TCP_MAXRXTSHIFT in Hlt. lia.
Qed.

End rexmt.

Lemma free_loop_seqs n : forall s,
  snd_una (free_loop n s) = snd_una s /\ snd_max (free_loop n s) = snd_max s.
Proof.
  induction n as [|n IH]; intros s; [tauto|]. cbn [free_loop].
  destruct (is_empty (snd_holes s)); [tauto|]. destruct (IH (tcp_sackhole_remove s 0)) as [-> ->].
  unfold tcp_sackhole_remove. destruct (snd_holes s !! 0%nat); [|tauto]. cbv zeta.
  destruct (is_hole _ _); split; reflexivity.
Qed.

Lemma free_loop_holes n : forall s, snd_holes (free_loop n s) = drop n (snd_holes s).
Proof.
  induction n as [|n IH]; intros s; [reflexivity|]. cbn [free_loop].
  destruct (snd_holes s) as [|h t] eqn:Eh; cbn [is_empty]; [rewrite Eh; reflexivity|].
  rewrite IH. unfold tcp_sackhole_remove. rewrite Eh. cbn [lookup list_lookup]. cbv zeta.
  destruct (is_hole _ _); cbn -[drop]; rewrite Eh; reflexivity.
Qed.

Lemma free_sackholes_holes s : snd_holes (tcp_free_sackholes s) = [].
Proof. change (snd_holes (free_loop (length (snd_holes s)) s) = []). rewrite free_loop_holes. apply drop_all. Qed.

Lemma free_sackholes_una s : snd_una (tcp_free_sackholes s) = snd_una s.
Proof. exact (proj1 (free_loop_seqs _ s)). Qed.

Lemma backoff_bounds n : (n <= 12)%nat -> 1 <= nth n tcp_backoff 0 <= 512 /\ 1 <= nth n tcp_syn_backoff 0 <= 512.
Proof. intros H. do 13 (destruct n as [|n]; [cbn; lia|]). lia. Qed.

(** The timeout after the [n]-th retransmission of a segment. *)
Definition backed_off (e : tenv) (tp : tcpcb) (n : Z) : Z :=
  clamp (t_rttmin tp) (64 * hz (cce e))
    (Z.max (t_rttmin tp) ((t_srtt tp / 8 + t_rttvar tp) / 4)
     * nth (Z.to_nat n) (if t_state tp =? TCPS_SYN_SENT then tcp_syn_backoff else tcp_backoff) 0
     + tcp_rexmit_slop (cce e)).

Lemma rexmt_backoff_rto e M tp :
  rto_env_ok (cce e) -> 0 < M <= 2 ^ 19 -> est_ok M tp -> 0 <= t_rxtshift tp <= 12 ->
  t_rxtcur (rexmt_backoff e tp) = backed_off e tp (t_rxtshift tp).
Proof.
  intros [E1 E2] HM Hok Hs. destruct (rexmtval_bounds M tp ltac:(lia) Hok) as [V1 V2].
  pose proof (backoff_bounds (Z.to_nat (t_rxtshift tp)) ltac:(lia)) as [B1 B2].
  unfold rexmt_backoff, backed_off. rewrite <- V1. cbv zeta.
  set (b := nth _ (if t_state tp =? TCPS_SYN_SENT then _ else _) 0). set (tp' := tp <| t_rxtcur := _ |>).
  assert (1 <= b <= 512) as Hb by (subst b; destruct (_ =? _); lia).
  assert (t_rxtcur tp' = clamp (t_rttmin tp) (64 * hz (cce e)) (TCP_REXMTVAL tp * b + tcp_rexmit_slop (cce e))) as Hc.
  { subst tp'. cbn [update t_rxtcur]. unfold TCPTV_REXMTMAX. destruct Hok.
    rewrite (s32_small (_ * _)) by nia. apply rangeset_clamp; nia. }
  destruct (_ && _), (_ <? _); exact Hc.
Qed.

(** A retransmission timeout that is not the last.  tcp_timer_rexmt goes back
    to the oldest unacknowledged byte (snd_nxt = snd_una) with an empty SACK
    scoreboard, out of recovery, a window of one segment and a threshold of half
    the usable window in segments, at least two; the next timeout is the current
    one scaled by the back-off table, within t_rttmin and 64 seconds, without
    overflow. *)
Theorem tcp_timer_rexmt_restarts e tcp_output M tp :
  stale TT_REXMT tp = false -> 0 <= t_rxtshift tp < TCP_MAXRXTSHIFT ->
  rto_env_ok (cce e) -> 0 < M <= 2 ^ 19 -> est_ok M tp ->
  exists tp', tcp_timer_rexmt e tcp_output (newreno_cc_algo (cce e)) true Quiet tp = Done (tcp_output tp') [] /\
    nxt tp' = una tp /\ una tp' = una tp /\ snd_holes (t_sack tp') = [] /\
    IN_RECOVERY (t_flags tp') = false /\
    snd_cwnd tp' = t_maxseg tp /\
    snd_ssthresh tp' = u32 (umax 2 (umin (snd_wnd tp) (snd_cwnd tp) / 2 / t_maxseg tp) * t_maxseg tp) /\
    t_rxtshift tp' = t_rxtshift tp + 1 /\ t_rxtcur tp' = backed_off e tp (t_rxtshift tp + 1).
Proof.
  intros Hst Hs He HM Hok. exists (rexmt_block e (cce e) tp). rewrite rexmt_cases by exact Hst.
  destruct (Z.leb_spec TCP_MAXRXTSHIFT (t_rxtshift tp)); [lia|]. split; [reflexivity|].
  rewrite rexmt_block_shift. unfold rexmt_block. cbv zeta. rewrite rto_signal.
  match goal with |- context [rexmt_save e ?x] => set (tp0 := x) end. set (tp1 := rexmt_save e tp0).
  assert (t_sack tp1 = tcp_free_sackholes (t_sack tp) /\ t_rxtshift tp1 = t_rxtshift tp + 1 /\
          backed_off e tp1 (t_rxtshift tp + 1) = backed_off e tp (t_rxtshift tp + 1) /\
          est_ok M tp1 /\ t_maxseg tp1 = t_maxseg tp /\ snd_cwnd tp1 = snd_cwnd tp /\ snd_wnd tp1 = snd_wnd tp)
    as (A1 & A2 & A3 & A4 & A5 & A6 & A7).
  { assert (est_ok M tp0) by (destruct Hok; split; assumption). subst tp1.
    destruct (Z.eq_dec (t_rxtshift tp0) 1); [rewrite rexmt_save_first by assumption|rewrite rexmt_save_next by assumption];
      (repeat (split; [reflexivity|])); (split; [destruct Hok; split; assumption|repeat split]). }
  clearbody tp1. pose proof (rexmt_backoff_rto e M tp1 He HM A4 ltac:(unfold TCP_MAXRXTSHIFT in Hs; lia)) as Hc.
  rewrite rexmt_backoff_frame. unfold una, nxt.
  cbn [clear_flag set_flag set_nxt una update t_rxtshift t_rxtcur t_sack snd_cwnd snd_ssthresh snd_wnd t_maxseg t_flags snd_nxt snd_una smax].
  rewrite A1, free_sackholes_una, A5, A6, A7, Hc, A2, A3.
  do 2 (split; [reflexivity|]). split; [apply free_sackholes_holes|].
  split; [apply flag_cleared|]. repeat split.
Qed.


(** *** Undoing a spurious timeout *)

(** [tp'] still has what the first timeout saved in [tp]. *)
Definition saved_kept (tp tp' : tcpcb) : Prop :=
  snd_cwnd_prev tp' = snd_cwnd_prev tp /\ snd_ssthresh_prev tp' = snd_ssthresh_prev tp /\
  snd_recover_prev tp' = snd_recover_prev tp /\ t_flags tp' = t_flags tp /\ t_rxtshift tp' = t_rxtshift tp.

Lemma was_flags_spec tp :
  has_flag (was_flags tp) TF_WASFRECOVERY = IN_FASTRECOVERY (t_flags tp) /\
  has_flag (was_flags tp) TF_WASCRECOVERY = IN_CONGRECOVERY (t_flags tp) /\
  has_flag (was_flags tp) TF_PREVVALID = true.
Proof.
  unfold was_flags. cbv zeta.
  set (f := if IN_FASTRECOVERY (t_flags tp) then _ else _).
  assert (has_flag f TF_WASFRECOVERY = IN_FASTRECOVERY (t_flags tp) /\
          IN_CONGRECOVERY f = IN_CONGRECOVERY (t_flags tp)) as [F1 F2].
  { subst f. destruct (IN_FASTRECOVERY (t_flags tp)); split.
    - apply flag_set; vm_compute; congruence.
    - apply flag_set_other; reflexivity.
    - apply flag_cleared.
    - apply flag_cleared_other; reflexivity. }
  rewrite F2, !(flag_set_other TF_PREVVALID) by reflexivity.
  split; [|split; [|apply flag_set; vm_compute; congruence]].
  - destruct (IN_CONGRECOVERY (t_flags tp)); [rewrite flag_set_other|rewrite flag_cleared_other]; auto.
  - destruct (IN_CONGRECOVERY (t_flags tp)); [apply flag_set; vm_compute; congruence|apply flag_cleared].
Qed.

(** The flags after the timeout function of the first timeout. *)
Lemma first_timeout_saves e ce tp : t_rxtshift tp = 0 ->
  let tp' := rexmt_block e ce tp in
  snd_cwnd_prev tp' = snd_cwnd tp /\ snd_ssthresh_prev tp' = snd_ssthresh tp /\
  snd_recover_prev tp' = snd_recover tp /\
  has_flag (t_flags tp') TF_WASFRECOVERY = IN_FASTRECOVERY (t_flags tp) /\
  has_flag (t_flags tp') TF_WASCRECOVERY = IN_CONGRECOVERY (t_flags tp) /\
  has_flag (t_flags tp') TF_PREVVALID = true /\
  IN_FASTRECOVERY (t_flags tp') = false /\ IN_CONGRECOVERY (t_flags tp') = false.
Proof.
  intros H. unfold rexmt_block. cbv zeta. rewrite rto_signal.
  match goal with |- context [rexmt_save e ?x] => set (tp0 := x) end.
  assert (t_rxtshift tp0 = 1) as H1 by (subst tp0; cbn; lia).
  rewrite rexmt_save_first by exact H1. set (tp1 := tp0 <| snd_cwnd_prev := _ |> <| snd_ssthresh_prev := _ |>
    <| snd_recover_prev := _ |> <| t_flags := _ |> <| t_badrxtwin := _ |>).
  destruct (was_flags_spec tp) as (W1 & W2 & W3).
  assert (t_flags (rexmt_backoff e tp1) = was_flags tp \/
          t_flags (rexmt_backoff e tp1) = Z.land (was_flags tp) (Z.lnot (Z.lor TF_REQ_SCALE TF_REQ_TSTMP))) as Hf.
  { unfold rexmt_backoff. cbv zeta. destruct (_ && _), (_ <? _); [right|right|left|left]; reflexivity. }
  rewrite rexmt_backoff_frame.
  cbn [clear_flag set_flag set_nxt una smax update snd_cwnd_prev snd_ssthresh_prev snd_recover_prev t_flags].
  split; [reflexivity|]. split; [reflexivity|]. split; [reflexivity|].
  assert (forall g, Z.land TF_RECOVERY g = 0 -> Z.land TF_ACKNOW g = 0 ->
    Z.land (Z.lor TF_REQ_SCALE TF_REQ_TSTMP) g = 0 ->
    has_flag (Z.land (Z.lor (t_flags (rexmt_backoff e tp1)) TF_ACKNOW) (Z.lnot TF_RECOVERY)) g
    = has_flag (was_flags tp) g) as Hg.
  { intros g G1 G2 G3. rewrite flag_cleared_other, flag_set_other by assumption.
    destruct Hf as [-> | ->]; rewrite ?flag_cleared_other by assumption; reflexivity. }
  rewrite !Hg by reflexivity. repeat (split; [assumption|]).
  split; apply flag_cleared_sub; reflexivity.
Qed.

(** A spurious timeout is undone.  If the first retransmission timeout turns
    out to be spurious (the acknowledgement arrives before t_badrxtwin and what
    the timeout saved is still there), CC_RTO_ERR gives the connection back the
    window, the threshold, the recovery point and the recovery flags it had
    before the timeout, moves snd_nxt to the end of what was sent and can do so
    only once. *)
Theorem spurious_timeout_undone e tcp_output ce tp :
  stale TT_REXMT tp = false -> t_rxtshift tp = 0 ->
  exists tp1,
    tcp_timer_rexmt e tcp_output (newreno_cc_algo ce) true Quiet tp = Done (tcp_output tp1) [] /\
    forall tp2 ack, saved_kept tp1 tp2 ->
      let tp3 := cc_cong_signal (newreno_cc_algo ce) tp2 (Some ack) CC_RTO_ERR in
      t_rxtshift tp2 = 1 /\ has_flag (t_flags tp2) TF_PREVVALID = true /\
      snd_cwnd tp3 = snd_cwnd tp /\ snd_ssthresh tp3 = snd_ssthresh tp /\ snd_recover tp3 = snd_recover tp /\
      IN_FASTRECOVERY (t_flags tp3) = IN_FASTRECOVERY (t_flags tp) /\
      IN_CONGRECOVERY (t_flags tp3) = IN_CONGRECOVERY (t_flags tp) /\
      nxt tp3 = smax tp2 /\ has_flag (t_flags tp3) TF_PREVVALID = false.
Proof.
  intros Hst H0. exists (rexmt_block e ce tp). rewrite rexmt_cases, H0 by exact Hst. split; [reflexivity|].
  intros tp2 ack (K1 & K2 & K3 & K4 & K5).
  destruct (first_timeout_saves e ce tp H0) as (S1 & S2 & S3 & S4 & S5 & S6 & S7 & S8).
  rewrite S1 in K1. rewrite S2 in K2. rewrite S3 in K3. rewrite <- K4 in S4, S5, S6, S7, S8.
  rewrite rexmt_block_shift, H0 in K5. cbv zeta. split; [exact K5|]. split; [exact S6|].
  unfold cc_cong_signal. cbn [newreno_cc_algo cong_signal CC_RTO_ERR CC_NDUPACK CC_ECN CC_RTO Z.eqb Pos.eqb].
  unfold newreno_cong_signal. cbn [CC_RTO_ERR CC_NDUPACK CC_ECN CC_RTO Z.eqb Pos.eqb].
  cbn [update t_flags]. rewrite S4.
  assert (has_flag (t_flags (if IN_FASTRECOVERY (t_flags tp)
    then set_flag TF_FASTRECOVERY (tp2 <| snd_cwnd := snd_cwnd_prev tp2 |> <| snd_ssthresh := snd_ssthresh_prev tp2 |>
                 <| snd_recover := snd_recover_prev tp2 |>)
    else tp2 <| snd_cwnd := snd_cwnd_prev tp2 |> <| snd_ssthresh := snd_ssthresh_prev tp2 |>
                 <| snd_recover := snd_recover_prev tp2 |>)) TF_WASCRECOVERY = IN_CONGRECOVERY (t_flags tp)) as E.
  { rewrite <- S5. destruct (IN_FASTRECOVERY _); [apply flag_set_other|]; reflexivity. }
  rewrite E. clear E.
  destruct (IN_FASTRECOVERY (t_flags tp)), (IN_CONGRECOVERY (t_flags tp));
    cbn [set_flag clear_flag set_nxt update snd_cwnd snd_ssthresh snd_recover t_flags nxt smax t_sack snd_nxt];
    (split; [exact K1|]); (split; [exact K2|]); (split; [exact K3|]);
    unfold IN_FASTRECOVERY, IN_CONGRECOVERY in *;
    rewrite !(flag_cleared_other TF_PREVVALID) by reflexivity;
    (split; [|split; [|split; [reflexivity|apply flag_cleared]]]);
    first [ assumption | apply flag_set; vm_compute; congruence
          | rewrite flag_set_other by reflexivity; assumption
          | rewrite flag_set_other by reflexivity; apply flag_set; vm_compute; congruence ].
Qed.

(** ** The persist timer *)

(** The persist timer.  When no retransmission is pending, tcp_setpersist
    starts the persist timer for a time between 5 and 60 seconds and counts the
    probe, up to 12; it never overflows and never panics. *)
Theorem tcp_setpersist_bounds e M tp :
  rto_env_ok (cce e) -> 0 < M <= 2 ^ 18 -> est_ok M tp -> 0 <= t_rxtshift tp <= TCP_MAXRXTSHIFT ->
  tcp_timer_active tp TT_REXMT = false ->
  exists tp' ival, tcp_setpersist e tp = Some tp' /\ 5 * hz (cce e) <= ival <= 60 * hz (cce e) /\
    c_time (timer TT_PERSIST (t_timers tp')) = s32 (ticks e + ival) /\
    tcp_timer_active tp' TT_PERSIST = true /\ tcp_timer_active tp' TT_REXMT = false /\
    t_rxtshift tp' = Z.min 12 (t_rxtshift tp + 1).
Proof.
  intros [E1 E2] HM [S1 S2 S3 S4] Hs Ha. unfold TCP_MAXRXTSHIFT in Hs. unfold tcp_setpersist. cbv zeta.
  change (tcp_timer_active (clear_flag TF_PREVVALID tp) TT_REXMT) with (tcp_timer_active tp TT_REXMT). rewrite Ha.
  change (t_rxtshift (clear_flag TF_PREVVALID tp)) with (t_rxtshift tp).
  rewrite !Z.shiftr_div_pow2 by lia. change (2 ^ 2) with 4. change (2 ^ 1) with 2.
  set (t := (t_srtt tp / 4 + t_rttvar tp) / 2).
  assert (0 <= t <= 12 * M) as Ht by (subst t; Z.div_mod_to_equations; lia).
  pose proof (proj1 (backoff_bounds (Z.to_nat (t_rxtshift tp)) ltac:(lia))) as Hb.
  set (b := nth _ tcp_backoff 0) in *. rewrite (s32_small (t * b)) by nia.
  rewrite rangeset_clamp by (unfold TCPTV_PERSMIN, TCPTV_PERSMAX; nia).
  unfold TCPTV_PERSMIN, TCPTV_PERSMAX. set (ival := clamp _ _ _).
  assert (5 * hz (cce e) <= ival <= 60 * hz (cce e)) as Hi by (subst ival; unfold clamp; lia).
  rewrite u32_small by lia. unfold tcp_timer_activate.
  destruct (Z.eqb_spec ival 0); [lia|]. rewrite s32_small by lia.
  set (tp1 := on_timer _ _ _).
  assert (c_time (timer TT_PERSIST (t_timers tp1)) = s32 (ticks e + ival) /\
          tcp_timer_active tp1 TT_PERSIST = true /\ tcp_timer_active tp1 TT_REXMT = tcp_timer_active tp TT_REXMT /\
          t_rxtshift tp1 = t_rxtshift tp) as (A1 & A2 & A3 & A4).
  { subst tp1. unfold tcp_timer_active, callout_active, on_timer, callout_arm. cbn -[Z.lor Z.leb s32].
    destruct (Z.leb_spec ival 0); [lia|]. split; [reflexivity|].
    split; [apply flag_set; vm_compute; congruence|]. split; reflexivity. }
  clearbody tp1. rewrite A4. unfold TCP_MAXRXTSHIFT.
  destruct (Z.ltb_spec (t_rxtshift tp) 12); do 2 eexists; (split; [reflexivity|]); (split; [exact Hi|]);
    (split; [exact A1|]); (split; [exact A2|]); (split; [change (tcp_timer_active tp1 TT_REXMT = false); congruence|]); [cbn|rewrite A4]; lia.
Qed.

(** A timer function whose callout was stopped or restarted after it fired, or
    whose connection is gone, leaves the connection alone (the 2MSL timer still
    frees the SACK scoreboard). *)
Theorem stale_timers_do_nothing e tcp_output a r template tp :
  (stale TT_DELACK tp = true -> tcp_timer_delack tcp_output true tp = Done tp []) /\
  (stale TT_KEEP tp = true -> tcp_timer_keep e true template tp = Done tp []) /\
  (stale TT_PERSIST tp = true -> tcp_timer_persist e tcp_output true tp = Done tp []) /\
  (stale TT_REXMT tp = true -> tcp_timer_rexmt e tcp_output a true r tp = Done tp []) /\
  (stale TT_2MSL tp = true ->
   tcp_timer_2msl e true tp = Done (tp <| t_sack := tcp_free_sackholes (t_sack tp) |>) []).
Proof.
  repeat split; intros H;
    [unfold tcp_timer_delack|unfold tcp_timer_keep|unfold tcp_timer_persist|unfold tcp_timer_rexmt|];
    cbn [negb]; rewrite ?H; try reflexivity.
  unfold tcp_timer_2msl. cbn [negb]. cbv zeta.
  change (stale TT_2MSL (tp <| t_sack := _ |>)) with (stale TT_2MSL tp). rewrite H. reflexivity.
Qed.

(** ** Concrete inputs *)

Definition sample_tenv : tenv := mk_tenv sample_ccenv 5000 720000 7500 8 60000 false true false false.

(** A connection whose retransmission timer has just fired: active, no longer
    pending. *)
Definition fired_conn (flags shift : Z) : tcpcb :=
  (sample_conn flags 10000 8000) <| t_rxtshift := shift |>
    <| t_timers := idle_timers <| tt_rexmt := idle_callout <| c_flags := Z.lor CALLOUT_MPSAFE CALLOUT_ACTIVE |> |> |>.

(** An output routine that only moves [snd_nxt] and starts the timer again. *)
Definition sample_output (tp : tcpcb) : tcpcb :=
  tcp_timer_activate sample_tenv (set_nxt (u32 (nxt tp + 1000)) tp) TT_REXMT (t_rxtcur tp).

Lemma sample_est_ok flags shift : est_ok 1000 (fired_conn flags shift).
Proof. split; cbn; lia. Qed.

Lemma sample_rto_env : rto_env_ok (cce sample_tenv).
Proof. split; cbn; lia. Qed.

Lemma tcp_xmit_timer_witness :
  t_rxtcur (tcp_xmit_timer sample_ccenv (fired_conn 0 0) 6) = 28 /\
  est_ok 1000 (tcp_xmit_timer sample_ccenv (fired_conn 0 0) 6).
Proof.
  split; [vm_compute; reflexivity|].
  apply (tcp_xmit_timer_correct sample_ccenv 1000 (fired_conn 0 0) 6);
    [exact sample_rto_env|lia|apply sample_est_ok|lia].
Defined.

Lemma tcp_timer_rexmt_restarts_witness :
  exists tp', tcp_timer_rexmt sample_tenv sample_output (newreno_cc_algo sample_ccenv) true Quiet (fired_conn 0 0)
              = Done (sample_output tp') [] /\ nxt tp' = 5000 /\ snd_cwnd tp' = 1000.
Proof.
  destruct (tcp_timer_rexmt_restarts sample_tenv sample_output 1000 (fired_conn 0 0)) as (tp' & E & N & _ & _ & _ & C & _);
    [reflexivity|cbn; unfold TCP_MAXRXTSHIFT; lia|exact sample_rto_env|lia|apply sample_est_ok|].
  exists tp'. split; [exact E|]. split; [exact N|exact C].
Defined.

(** The retransmission timer runs out again. *)
Definition next_fired (tp : tcpcb) : tcpcb :=
  match tcp_timer_rexmt sample_tenv sample_output (newreno_cc_algo sample_ccenv) true Quiet tp with
  | Done tp' _ => on_timer TT_REXMT (fun c => c <| c_flags := Z.lor CALLOUT_MPSAFE CALLOUT_ACTIVE |>) tp'
  | _ => tp
  end.

Lemma on_timer_shift t f tp : t_rxtshift (on_timer t f tp) = t_rxtshift tp.
Proof. reflexivity. Qed.

Lemma next_fired_timeouts n tp0 tp :
  timeouts sample_tenv sample_output sample_ccenv n tp0 tp ->
  stale TT_REXMT tp || (TCP_MAXRXTSHIFT <=? t_rxtshift tp) = false ->
  timeouts sample_tenv sample_output sample_ccenv (S n) tp0 (next_fired tp).
Proof.
  intros Hr [Hs Hc]%orb_false_iff. unfold next_fired.
  pose proof (rexmt_cases sample_tenv sample_output sample_ccenv tp Hs) as E. rewrite Hc in E. rewrite E.
  eapply timeouts_next; [exact Hr|exact Hs|exact E|apply on_timer_shift].
Qed.


Lemma spurious_timeout_undone_witness :
  exists tp1,
    tcp_timer_rexmt sample_tenv sample_output (newreno_cc_algo sample_ccenv) true Quiet (fired_conn TF_RECOVERY 0)
    = Done (sample_output tp1) [] /\
    snd_cwnd (cc_cong_signal (newreno_cc_algo sample_ccenv) (sample_output tp1) (Some 9000) CC_RTO_ERR) = 10000.
Proof.
  destruct (spurious_timeout_undone sample_tenv sample_output sample_ccenv (fired_conn TF_RECOVERY 0))
    as (tp1 & E & H); [reflexivity|reflexivity|].
  exists tp1. split; [exact E|]. destruct (H (sample_output tp1) 9000) as (_ & _ & C & _); [|exact C].
  unfold saved_kept, sample_output, tcp_timer_activate. destruct (_ =? _); repeat split.
Defined.

Lemma tcp_setpersist_bounds_witness :
  exists tp' ival, tcp_setpersist sample_tenv ((sample_conn 0 10000 8000) <| t_rxtshift := 3 |>) = Some tp' /\
    500 <= ival <= 6000 /\ c_time (timer TT_PERSIST (t_timers tp')) = s32 (5000 + ival).
Proof.
  destruct (tcp_setpersist_bounds sample_tenv 1000 ((sample_conn 0 10000 8000) <| t_rxtshift := 3 |>))
    as (tp' & ival & E & I & C & _);
    [exact sample_rto_env|lia|split; cbn; lia|cbn; unfold TCP_MAXRXTSHIFT; lia|reflexivity|].
  exists tp', ival. split; [exact E|]. split; [exact I|exact C].
Defined.
End Timer.
