(* ===== verification/TcpOutput.v ===== *)
(** * TCP output

    [tcp_output] of sys/netinet/tcp_output.c: what a connection sends, and when.
    Also the segment size ([tcp_mss_update], [tcp_mss], [tcp_mssopt] of
    sys/netinet/tcp_input.c) and [tcp_mtudisc] of sys/netinet/tcp_subr.c, which
    [tcp_output] calls when a packet was too long.

    The control block is that of the congestion control and timer files
    ([o_tp]) with the fields only output uses, the two socket buffers of
    SockBuf.v, and the world around it: the results of the mbuf allocations and
    of the calls of [ip_output] to come, and the segments handed to [ip_output]
    so far ([wire]).  The checksums, the statistics counters and the helper
    hooks, which no module of the stack but siftr and h_ertt registers, are left
    out.  The build has no INET6, IPSEC, MAC, TCPDEBUG or TCP_SIGNATURE. *)

From S2P Require Import Prelude TcpSeq Callout SockBuf TcpOptions TcpSack TcpCC TcpTimer.

Module Output.

Import SockBuf.Sockbuf TcpSack.Sack TcpCC.CC TcpTimer.Timer.

(** ** Constants *)

Definition TF_NODELAY := 4.
Definition TF_NOOPT := 8.
Definition TF_SENTFIN := 16.
Definition TF_RCVD_TSTMP := 256.
Definition TF_SACK_PERMIT := 512.
Definition TF_NEEDSYN := 1024.
Definition TF_NEEDFIN := 2048.
Definition TF_NOPUSH := 4096.
Definition TF_MORETOCOME := 65536.
Definition TF_LASTIDLE := 262144.
Definition TF_RXWIN0SENT := 524288.
Definition TF_SIGNATURE := 4194304.
Definition TF_TSO := 16777216.
Definition TF_ECN_SND_ECE := 268435456.

Definition EPERM := 1.
Definition EMSGSIZE := 40.
Definition ENETDOWN := 50.
Definition ENETUNREACH := 51.
Definition EHOSTDOWN := 64.
Definition EHOSTUNREACH := 65.

Definition IP_MAXPACKET := 65535.
Definition tcpiphdr_size := 40.
Definition TCPOLEN_TSTAMP_APPA := 12.

(** tcp_fsm.h *)
Definition tcp_outflags (state : Z) : Z :=
  nth (Z.to_nat state)
    [Z.lor TH_RST TH_ACK; 0; TH_SYN; Z.lor TH_SYN TH_ACK; TH_ACK; TH_ACK; Z.lor TH_FIN TH_ACK;
     Z.lor TH_FIN TH_ACK; Z.lor TH_FIN TH_ACK; TH_ACK; TH_ACK] 0.

(** ** State *)

(** A segment as it is handed to [ip_output]: the fields of the TCP header, the
    option bytes and the payload, and what the IP header and the packet header
    are told (ECT, DF, the segment size for TSO). *)
Record segment := mk_segment {
  th_seq : Z;
  th_ack : Z;
  th_flags : Z;
  th_win : Z;
  th_urp : Z;
  th_opt : list Z;
  th_data : list Z;
  ip_ect : bool;
  ip_df : bool;
  tso_segsz : option Z }.

Record ocb := mk_ocb {
  o_tp : tcpcb;
  t_maxopd : Z;
  max_sndwnd : Z;
  snd_up : Z;
  iss : Z;
  rcv_adv : Z;
  rcv_scale : Z;
  request_r_scale : Z;
  last_ack_sent : Z;
  ts_recent : Z;
  ts_offset : Z;
  rfbuf_ts : Z;
  t_rtseq : Z;
  t_sndrexmitpack : Z;
  t_sndzerowin : Z;
  so_snd : sockbuf;
  so_rcv : sockbuf;
  ui_sbsize : Z;
  inp_options : option Z;
  inp_passive : bool;
  inp_timewait : bool;
  mbufs : list (option Z);
  ip_results : list Z;
  wire : list segment }.

#[export] Instance eta_ocb : Eta ocb := fun r =>
  mk_ocb (o_tp r) (t_maxopd r) (max_sndwnd r) (snd_up r) (iss r) (rcv_adv r) (rcv_scale r)
    (request_r_scale r) (last_ack_sent r) (ts_recent r) (ts_offset r) (rfbuf_ts r) (t_rtseq r)
    (t_sndrexmitpack r) (t_sndzerowin r) (so_snd r) (so_rcv r) (ui_sbsize r) (inp_options r)
    (inp_passive r) (inp_timewait r) (mbufs r) (ip_results r) (wire r).

(** The kernel variables, and what the routing table and the host cache say of
    the peer ([maxmtu], 0 without a route, and [rmx_mtu]). *)
Record oenv := mk_oenv {
  te : tenv;
  sbe : sbenv;
  algo : cc_algo;
  sbsize_limit : Z;
  tcp_do_autosndbuf : bool;
  tcp_autosndbuf_inc : Z;
  tcp_autosndbuf_max : Z;
  tcp_do_tso : bool;
  tcp_do_ecn : bool;
  tcp_ecn_maxretries : Z;
  ts_ticks : Z;
  path_mtu_discovery : bool;
  tcp_minmss : Z;
  tcp_mssdflt : Z;
  tcp_sendspace : Z;
  tcp_recvspace : Z;
  max_linkhdr : Z;
  MHLEN : Z;
  maxmtu : Z;
  route_tso : bool;
  localaddr : bool;
  rmx_mtu : Z;
  rmx_sendpipe : Z;
  rmx_recvpipe : Z }.

Definition on_tp (f : tcpcb -> tcpcb) (s : ocb) : ocb := s <| o_tp := f (o_tp s) |>.
Definition on_sack (f : sackcb -> sackcb) (s : ocb) : ocb :=
  on_tp (fun tp => tp <| t_sack := f (t_sack tp) |>) s.

Definition flag (f : Z) (s : ocb) : bool := has_flag (t_flags (o_tp s)) f.
Definition active (t : timer_type) (s : ocb) : bool := tcp_timer_active (o_tp s) t.
Definition activate (e : oenv) (t : timer_type) (delta : Z) (s : ocb) : ocb :=
  on_tp (fun tp => tcp_timer_activate (te e) tp t (u32 delta)) s.

Definition s_una (s : ocb) : Z := una (o_tp s).
Definition s_nxt (s : ocb) : Z := nxt (o_tp s).
Definition s_max (s : ocb) : Z := smax (o_tp s).
Definition rnxt (s : ocb) : Z := rcv_nxt (t_sack (o_tp s)).
Definition put_nxt (v : Z) (s : ocb) : ocb := on_tp (set_nxt v) s.
Definition put_max (v : Z) (s : ocb) : ocb := on_sack (fun k => k <| snd_max := v |>) s.

(** ** Segment size *)

Definition tcp_mssopt (e : oenv) : Z :=
  let mss := tcp_mssdflt e in
  if negb (maxmtu e =? 0) && negb (rmx_mtu e =? 0)
  then s32 (umin (maxmtu e) (rmx_mtu e) - tcpiphdr_size)
  else if negb (maxmtu e =? 0) || negb (rmx_mtu e =? 0)
  then s32 (umax (maxmtu e) (rmx_mtu e) - tcpiphdr_size)
  else mss.

(** [offer] and [mtuoffer] are -1 when there is none. *)
Definition tcp_mss_update (e : oenv) (offer mtuoffer : Z) (s : ocb) : ocb :=
  let offer := if negb (mtuoffer =? -1) then s32 (mtuoffer - tcpiphdr_size) else offer in
  let origoffer := offer in
  let set_maxseg v := on_tp (fun tp => tp <| t_maxseg := v |>) in
  let s := set_maxseg (u32 (tcp_mssdflt e)) (s <| t_maxopd := u32 (tcp_mssdflt e) |>) in
  if maxmtu e =? 0 then s
  else
    let offer := if offer =? 0 then s32 (t_maxopd s) else s32 (umax offer (tcp_minmss e)) in
    let mss :=
      if negb (rmx_mtu e =? 0) then s32 (umin (rmx_mtu e) (maxmtu e) - tcpiphdr_size)
      else
        let mss := s32 (maxmtu e - tcpiphdr_size) in
        if negb (path_mtu_discovery e) && negb (localaddr e) then s32 (umin mss (tcp_mssdflt e)) else mss in
    let mss := s32 (umin mss offer) in
    let mss := s32 (umax mss 64) in
    let s := s <| t_maxopd := u32 mss |> in
    let mss :=
      if (Z.land (t_flags (o_tp s)) (Z.lor TF_REQ_TSTMP TF_NOOPT) =? TF_REQ_TSTMP)
         && ((origoffer =? -1) || flag TF_RCVD_TSTMP s)
      then mss - TCPOLEN_TSTAMP_APPA else mss in
    let mss := if MCLBYTES <? mss then Z.land mss (Z.lnot (MCLBYTES - 1)) else mss in
    set_maxseg (u32 mss) s.

Definition roundup (x y : Z) : Z := u64 (u64 (x + (y - 1)) / y * y).

(** Growing a buffer to [bufsize], a whole number of segments. *)
Definition grow (e : oenv) (bufsize mss : Z) (ui : Z) (sb : sockbuf) : Z * sockbuf :=
  let bufsize := roundup bufsize (u64 mss) in
  let bufsize := if sb_max (sbe e) <? bufsize then sb_max (sbe e) else bufsize in
  if sb_hiwat sb <? bufsize then fst (sbreserve_locked (sbe e) ui bufsize RLIM_INFINITY sb) else (ui, sb).

Definition tcp_mss (e : oenv) (offer : Z) (s : ocb) : ocb :=
  let s := tcp_mss_update e offer (-1) s in
  let mss := s32 (t_maxseg (o_tp s)) in
  let bufsize := if (sb_hiwat (so_snd s) =? tcp_sendspace e) && negb (rmx_sendpipe e =? 0)
                 then rmx_sendpipe e else sb_hiwat (so_snd s) in
  let '(mss, s) :=
    if bufsize <? u64 mss then (s32 bufsize, s)
    else let '(ui, sb) := grow e bufsize mss (ui_sbsize s) (so_snd s) in
         (mss, s <| ui_sbsize := ui |> <| so_snd := sb |>) in
  let s := on_tp (fun tp => tp <| t_maxseg := u32 mss |>) s in
  let bufsize := if (sb_hiwat (so_rcv s) =? tcp_recvspace e) && negb (rmx_recvpipe e =? 0)
                 then rmx_recvpipe e else sb_hiwat (so_rcv s) in
  let s :=
    if u64 mss <? bufsize then
      let '(ui, sb) := grow e bufsize mss (ui_sbsize s) (so_rcv s) in
      s <| ui_sbsize := ui |> <| so_rcv := sb |>
    else s in
  if route_tso e then on_tp (set_flag TF_TSO) s else s.

(** [tcp_mtudisc(inp, -1)] up to its call of [tcp_output]; [None] when it returns
    early. *)
Definition tcp_mtudisc (e : oenv) (s : ocb) : option ocb :=
  if inp_timewait s || inp_dropped (o_tp s) then None
  else
    let s := tcp_mss_update e (-1) (-1) s in
    let s := if sb_hiwat (so_snd s) <? t_maxseg (o_tp s)
             then on_tp (fun tp => tp <| t_maxseg := sb_hiwat (so_snd s) |>) s else s in
    let s := on_tp (fun tp => tp <| t_rtttime := 0 |>) s in
    let s := put_nxt (s_una s) s in
    let s := on_sack tcp_free_sackholes s in
    let s := on_tp (fun tp => tp <| snd_recover := smax tp |>) s in
    Some (if flag TF_SACK_PERMIT s then on_tp (clear_flag TF_FASTRECOVERY) s else s).

(** ** What to send *)

(** The local variables of [tcp_output]. *)
Record locals := mk_locals {
  l_idle : bool;
  l_sendalot : bool;
  l_tso : bool;
  l_off : Z;
  l_sendwin : Z;
  l_flags : Z;
  l_sack_rxmit : bool;
  l_bytes_rxmt : Z;
  l_len : Z;
  l_p : option sackhole;
  l_recwin : Z;
  l_opt : list Z }.

#[export] Instance eta_locals : Eta locals := fun r =>
  mk_locals (l_idle r) (l_sendalot r) (l_tso r) (l_off r) (l_sendwin r) (l_flags r) (l_sack_rxmit r)
    (l_bytes_rxmt r) (l_len r) (l_p r) (l_recwin r) (l_opt r).

Definition set_th (f : Z) (l : locals) : locals := l <| l_flags := Z.lor (l_flags l) f |>.
Definition clear_th (f : Z) (l : locals) : locals := l <| l_flags := Z.land (l_flags l) (Z.lnot f) |>.
Definition th (f : Z) (l : locals) : bool := has_flag (l_flags l) f.
Definition cc (s : ocb) : Z := sb_cc (so_snd s).

(** Before [again]: the restart of the window after an idle period. *)
Definition output_start (e : oenv) (s : ocb) : ocb * bool :=
  let tp := o_tp s in
  let idle := flag TF_LASTIDLE s || (s_max s =? s_una s) in
  let s := if idle && (u32 (t_rxtcur tp) <=? u32 (ticks (te e) - t_rcvtime tp))
           then on_tp (cc_after_idle (algo e)) s else s in
  let s := on_tp (clear_flag TF_LASTIDLE) s in
  if idle && flag TF_MORETOCOME s then (on_tp (set_flag TF_LASTIDLE) s, false) else (s, idle).

(** From [again] to the SACK retransmissions. *)
Definition output_begin (idle : bool) (s : ocb) : ocb * locals :=
  let s := if flag TF_SACK_PERMIT s && SEQ_LT (s_nxt s) (s_max s) then on_sack tcp_sack_adjust s else s in
  (s, mk_locals idle false false (s32 (s_nxt s - s_una s)) (umin (snd_wnd (o_tp s)) (snd_cwnd (o_tp s)))
        (tcp_outflags (t_state (o_tp s))) false 0 0 None 0 []).

(** A retransmission from the scoreboard.  [cwin] is computed as a [u_int], so
    the test [cwin < 0] of the code never holds. *)
Definition sack_retransmit (s : ocb) (l : locals) : ocb * locals :=
  if flag TF_SACK_PERMIT s && flag TF_FASTRECOVERY s then
    let '(k, p, bytes) := tcp_sack_output (t_sack (o_tp s)) in
    let s := on_sack (fun _ => k) s in
    let l := l <| l_bytes_rxmt := bytes |> in
    match p with
    | None => (s, l)
    | Some p =>
        let tp := o_tp s in
        let cwin := u32 (umin (snd_wnd tp) (snd_cwnd tp) - bytes) in
        let fin len :=
          let l := l <| l_len := len |> <| l_p := Some p |> <| l_off := s32 (h_rxmit p - s_una s) |> in
          (s, if 0 <? len then l <| l_sack_rxmit := true |> <| l_sendalot := true |> else l) in
        if SEQ_GT (h_end p) (snd_recover tp) then
          if SEQ_GEQ (h_rxmit p) (snd_recover tp) then (s, l)
          else fin (Z.min cwin (u32 (snd_recover tp - h_rxmit p)))
        else fin (Z.min cwin (u32 (h_end p - h_rxmit p)))
    end
  else (s, l).

(** The hidden flags, and the probe of the persist timer. *)
Definition force_data (e : oenv) (s : ocb) (l : locals) : ocb * locals :=
  let l := if flag TF_NEEDFIN s then set_th TH_FIN l else l in
  let l := if flag TF_NEEDSYN s then set_th TH_SYN l else l in
  if flag TF_FORCEDATA s then
    if l_sendwin l =? 0 then
      let l := if u32 (l_off l) <? cc s then clear_th TH_FIN l else l in
      (s, l <| l_sendwin := 1 |>)
    else (on_tp (fun tp => tp <| t_rxtshift := 0 |>) (activate e TT_PERSIST 0 s), l)
  else (s, l).

Definition data_len (s : ocb) (l : locals) : Z :=
  if l_sack_rxmit l then l_len l
  else if l_bytes_rxmt l =? 0 then Z.min (cc s) (l_sendwin l) - l_off l
  else
    let len := Z.min (cc s) (snd_wnd (o_tp s)) - l_off l in
    if 0 <? len then
      let cwin := s64 (snd_cwnd (o_tp s) - u32 (s_nxt s - sack_newdata (o_tp s)) - l_bytes_rxmt l) in
      Z.min len (if cwin <? 0 then 0 else cwin)
    else len.

(** The SYN that was sent already, and the SYN that goes alone. *)
Definition lop_syn (s : ocb) (l : locals) : locals :=
  let l := if th TH_SYN l && SEQ_GT (s_nxt s) (s_una s) then
             let l := if negb (t_state (o_tp s) =? TCPS_SYN_RECEIVED) then clear_th TH_SYN l else l in
             l <| l_off := l_off l - 1 |> <| l_len := l_len l + 1 |>
           else l in
  if th TH_SYN l && flag TF_NOOPT s then clear_th TH_FIN (l <| l_len := 0 |>) else l.

(** A negative length: everything is sent, or the window shrank.  [None] is the
    panic of [tcp_setpersist]. *)
Definition window_shrank (e : oenv) (s : ocb) (l : locals) : option (ocb * locals) :=
  if l_len l <? 0 then
    let l := l <| l_len := 0 |> in
    if l_sendwin l =? 0 then
      let s := on_tp (fun tp => tp <| t_rxtshift := 0 |>) (activate e TT_REXMT 0 s) in
      let s := put_nxt (s_una s) s in
      if negb (active TT_PERSIST s) then tp ← tcp_setpersist (te e) (o_tp s); Some (s <| o_tp := tp |>, l)
      else Some (s, l)
    else Some (s, l)
  else Some (s, l).

(** Automatic sizing of the send buffer. *)
Definition autosize (e : oenv) (s : ocb) (l : locals) : ocb :=
  let sb := so_snd s in
  if tcp_do_autosndbuf e && has_flag (sb_flags sb) SB_AUTOSIZE
     && (sb_hiwat sb <=? u64 (snd_wnd (o_tp s) / 4 * 5)) && (u32 (sb_hiwat sb / 8 * 7) <=? cc s)
     && (cc s <? u32 (tcp_autosndbuf_max e)) && (u32 (cc s - u32 (s_nxt s - s_una s)) <=? l_sendwin l)
  then
    let '(ui, sb, ok) := sbreserve_locked (sbe e) (ui_sbsize s)
        (umin (u32 (sb_hiwat sb + tcp_autosndbuf_inc e)) (tcp_autosndbuf_max e)) (sbsize_limit e) sb in
    let sb := if ok : bool then sb else sb <| sb_flags := Z.land (sb_flags sb) (Z.lnot SB_AUTOSIZE) |> in
    s <| ui_sbsize := ui |> <| so_snd := sb |>
  else s.

Definition choose_tso (e : oenv) (s : ocb) (l : locals) : locals :=
  if flag TF_TSO s && tcp_do_tso e && (t_maxseg (o_tp s) <? l_len l) && negb (flag TF_SIGNATURE s)
     && (rcv_numsacks (t_sack (o_tp s)) =? 0)%nat && negb (l_sack_rxmit l) && bool_decide (inp_options s = None)
  then l <| l_tso := true |> else l.

(** The FIN waits until all data goes with it or before it. *)
Definition hold_fin (s : ocb) (l : locals) : locals :=
  let from := match l_p l with Some p => if l_sack_rxmit l then h_rxmit p else s_nxt s | None => s_nxt s end in
  if SEQ_LT (from + l_len l) (s_una s + cc s) then clear_th TH_FIN l else l.

(** ** Whether to send *)

(** Sender silly window avoidance. *)
Definition send_data (s : ocb) (l : locals) : bool :=
  negb (l_len l =? 0) &&
  ((t_maxseg (o_tp s) <=? l_len l)
   || (negb (flag TF_MORETOCOME s) && (l_idle l || flag TF_NODELAY s) && (cc s <=? l_len l + l_off l)
       && negb (flag TF_NOPUSH s))
   || flag TF_FORCEDATA s
   || ((max_sndwnd s / 2 <=? l_len l) && (0 <? max_sndwnd s))
   || SEQ_LT (s_nxt s) (s_max s)
   || l_sack_rxmit l).

(** A window update worth a segment. *)
Definition window_update (s : ocb) (l : locals) : bool :=
  (0 <? l_recwin l) && negb (flag TF_NEEDSYN s) && negb (TCPS_HAVERCVDFIN (t_state (o_tp s))) &&
  let adv := umin (l_recwin l) (Z.shiftl TCP_MAXWIN (rcv_scale s)) in
  let oldwin := if SEQ_GT (rcv_adv s) (rnxt s) then s32 (rcv_adv s - rnxt s) else 0 in
  let adv := adv - oldwin in
  negb (Z.shiftr oldwin (rcv_scale s) =? Z.shiftr (adv + oldwin) (rcv_scale s)) &&
  ((u32 (2 * t_maxseg (o_tp s)) <=? adv) || (sb_hiwat (so_rcv s) <=? 2 * adv)).

Definition want_send (s : ocb) (l : locals) : bool :=
  send_data s l || window_update s l || flag TF_ACKNOW s
  || th TH_RST l || (th TH_SYN l && negb (flag TF_NEEDSYN s))
  || SEQ_GT (snd_up s) (s_una s)
  || (th TH_FIN l && (negb (flag TF_SENTFIN s) || (s_nxt s =? s_una s))).

(** Nothing to send: make sure that a timer runs.  [None]: [tcp_setpersist]
    panics. *)
Definition just_return (e : oenv) (s : ocb) : option ocb :=
  if flag TF_SACK_PERMIT s && SEQ_GT (s_max s) (s_una s) && negb (active TT_REXMT s) && negb (active TT_PERSIST s)
  then Some (activate e TT_REXMT (t_rxtcur (o_tp s)) s)
  else if negb (cc s =? 0) && negb (active TT_REXMT s) && negb (active TT_PERSIST s) then
    tp ← tcp_setpersist (te e) ((o_tp s) <| t_rxtshift := 0 |>); Some (s <| o_tp := tp |>)
  else Some s.
(** ** Making a segment *)

(** [None] is the panic of [tcp_addoptions]. *)
Definition make_options (e : oenv) (s : ocb) (l : locals) : option (ocb * locals) :=
  if flag TF_NOOPT s then Some (s, l)
  else
    let syn := th TH_SYN l in
    let to := mk_tcpopt 0 0 0 [] [] 0 0 0 in
    let s := if syn then put_nxt (iss s) s else s in
    let to := if syn then (add_flag TOF_MSS to) <| to_mss := u16 (tcp_mssopt e) |> else to in
    let to := if syn && flag TF_REQ_SCALE s
              then (add_flag TOF_SCALE to) <| to_wscale := request_r_scale s |> else to in
    let ts := flag TF_RCVD_TSTMP s || (syn && flag TF_REQ_TSTMP s) in
    let to := if ts then (add_flag TOF_TS to) <| to_tsval := u32 (ts_ticks e + ts_offset s) |>
                                              <| to_tsecr := ts_recent s |> else to in
    let s := if ts && (rfbuf_ts s =? 0) && has_flag (sb_flags (so_rcv s)) SB_AUTOSIZE
             then s <| rfbuf_ts := ts_ticks e |> else s in
    let k := t_sack (o_tp s) in
    let to :=
      if flag TF_SACK_PERMIT s then
        if syn then add_flag TOF_SACKPERM to
        else if TCPS_HAVEESTABLISHED (t_state (o_tp s)) && (0 <? rcv_numsacks k)%nat
        then (add_flag TOF_SACK to) <| to_nsacks := Z.of_nat (rcv_numsacks k) |> <| to_sackblks := sackblks k |>
        else to
      else to in
    opt ← tcp_addoptions to;
    Some (s, l <| l_opt := opt |>).

Definition optlen (l : locals) : Z := Z.of_nat (length (l_opt l)).
Definition hdrlen (l : locals) : Z := tcpiphdr_size + optlen l.
Definition ipoptlen (s : ocb) : Z := default 0 (inp_options s).

(** The data that fits with the options. *)
Definition limit_len (s : ocb) (l : locals) : locals :=
  if t_maxopd s <? l_len l + optlen l + ipoptlen s then
    let l := clear_th TH_FIN l in
    if l_tso l then
      let room := u32 (IP_MAXPACKET - hdrlen l) in
      let l := if room <? l_len l then l <| l_len := room |> <| l_sendalot := true |> else l in
      let l := if l_sendalot l && (l_off l + l_len l <? cc s)
               then l <| l_len := l_len l - Z.rem (l_len l) (u32 (t_maxopd s - optlen l)) |> else l in
      if flag TF_NEEDFIN s then l <| l_sendalot := true |> else l
    else l <| l_len := u32 (t_maxopd s - optlen l - ipoptlen s) |> <| l_sendalot := true |>
  else l <| l_tso := false |>.

(** [MGETHDR] *)
Definition get_mbuf (s : ocb) : ocb * bool :=
  match mbufs s with
  | Some _ :: rest => (s <| mbufs := rest |>, true)
  | _ :: rest => (s <| mbufs := rest |>, false)
  | [] => (s, false)
  end.

(** The bytes of a copied chain. *)
Definition copied (ms : list mbuf) : list Z := concat (map (fun m => mbuf_read m 0 (m_len m)) ms).

(** The payload; [inl] is the error that no mbuf could be had.  [None]: a panic
    or a read outside the send buffer. *)
Definition get_data (e : oenv) (s : ocb) (l : locals) : option (ocb * (Z + list Z)) :=
  let '(s1, ok) :=
    get_mbuf (if negb (l_len l =? 0) && negb (flag TF_FORCEDATA s && (l_len l =? 1))
                 && (SEQ_LT (s_nxt s) (s_max s) || l_sack_rxmit l)
              then s <| t_sndrexmitpack := s32 (t_sndrexmitpack s + 1) |> else s) in
  if negb ok then Some (s1, inl ENOBUFS)
  else if l_len l =? 0 then Some (s1, inr [])
  else
    '(sb, ms, moff) ← sbsndptr (u32 (l_off l)) (u32 (l_len l)) (so_snd s1);
    let s := s1 <| so_snd := sb |> in
    if l_len l <=? u64 (MHLEN e - hdrlen l - max_linkhdr e) then
      bs ← m_copydata ms (s32 moff) (s32 (l_len l)); Some (s, inr bs)
    else
      '(r, allocs) ← m_copym (mbufs s) ms (s32 moff) (s32 (l_len l));
      let s := s <| mbufs := allocs |> in
      match r with
      | Some c => Some (s, inr (copied c))
      | None => Some (s, inl ENOBUFS)
      end.

(** From the header mbuf to the ECN bits: the flags, and whether the packet is
    marked ECT. *)
Definition mark_ecn (e : oenv) (s : ocb) (l : locals) : ocb * locals * bool :=
  let s := if th TH_FIN l && flag TF_SENTFIN s && (s_nxt s =? s_max s) then put_nxt (u32 (s_nxt s - 1)) s else s in
  let tp := o_tp s in
  let l := if (t_state tp =? TCPS_SYN_SENT) && tcp_do_ecn e
              && ((t_rxtshift tp <? 1) || (t_rxtshift tp <=? tcp_ecn_maxretries e))
           then set_th (Z.lor TH_ECE TH_CWR) l else l in
  if (t_state tp =? TCPS_ESTABLISHED) && flag TF_ECN_PERMIT s then
    let ect := (0 <? l_len l) && SEQ_GEQ (s_nxt s) (s_max s) && negb (flag TF_FORCEDATA s && (l_len l =? 1)) in
    let '(s, l) := if flag TF_ECN_SND_CWR s then (on_tp (clear_flag TF_ECN_SND_CWR) s, set_th TH_CWR l) else (s, l) in
    (s, if flag TF_ECN_SND_ECE s then set_th TH_ECE l else l, ect)
  else (s, l, false).

Definition set_rxmit (id v : Z) (holes : list sackhole) : list sackhole :=
  map (fun h => if h_id h =? id then h <| h_rxmit := v |> else h) holes.
Definition add_rexmit (p : sackhole) (n : Z) (k : sackcb) : sackcb :=
  k <| snd_holes := set_rxmit (h_id p) (u32 (h_rxmit p + n)) (snd_holes k) |>
    <| sack_bytes_rexmit := s32 (sack_bytes_rexmit k + n) |>.

(** The hole being retransmitted. *)
Definition rexmit_hole (l : locals) : option sackhole := if l_sack_rxmit l then l_p l else None.

Definition choose_seq (s : ocb) (l : locals) : ocb * Z :=
  match rexmit_hole l with
  | None =>
      (s, if negb (l_len l =? 0) || th (Z.lor TH_SYN TH_FIN) l || active TT_PERSIST s then s_nxt s else s_max s)
  | Some p => (on_sack (add_rexmit p (l_len l)) s, h_rxmit p)
  end.

(** The window to advertise: never less than before, and not a silly one. *)
Definition receive_window (s : ocb) (recwin : Z) : Z :=
  let recwin := if (recwin <? sb_hiwat (so_rcv s) / 4) && (recwin <? t_maxseg (o_tp s)) then 0 else recwin in
  let recwin := if SEQ_GT (rcv_adv s) (rnxt s) && (recwin <? u32 (rcv_adv s - rnxt s))
                then u32 (rcv_adv s - rnxt s) else recwin in
  if Z.shiftl TCP_MAXWIN (rcv_scale s) <? recwin then Z.shiftl TCP_MAXWIN (rcv_scale s) else recwin.

(** The header is filled in; [l_recwin] becomes the window advertised. *)
Definition make_segment (e : oenv) (s : ocb) (l : locals) (data : list Z) : ocb * locals * segment :=
  let l := if negb (l_len l =? 0) && (l_off l + l_len l =? cc s) then set_th TH_PUSH l else l in
  let '(s, l, ect) := mark_ecn e s l in
  let '(s, seq) := choose_seq s l in
  let recwin := receive_window s (l_recwin l) in
  let l := l <| l_recwin := recwin |> in
  let win := if th TH_SYN l then u16 (umin (sbspace (so_rcv s)) TCP_MAXWIN) else u16 (Z.shiftr recwin (rcv_scale s)) in
  let s := if win =? 0
           then on_tp (set_flag TF_RXWIN0SENT) (s <| t_sndzerowin := s32 (t_sndzerowin s + 1) |>)
           else on_tp (clear_flag TF_RXWIN0SENT) s in
  let urgent := SEQ_GT (snd_up s) (s_nxt s) in
  let urp := if urgent then u16 (snd_up s - s_nxt s) else 0 in
  let thf := if urgent then Z.lor (l_flags l) TH_URG else l_flags l in
  let s := if urgent then s else s <| snd_up := s_una s |> in
  (s, l, mk_segment seq (rnxt s) thf win urp (l_opt l) data ect
           (path_mtu_discovery e && (u32 (tcp_minmss e) <? t_maxopd s))
           (if l_tso l then Some (u32 (t_maxopd s - optlen l)) else None)).

(** ** After the segment is made *)

Definition b2z (b : bool) : Z := if b then 1 else 0.

(** The retransmission timer is started if there is something to retransmit. *)
Definition start_rexmt (e : oenv) (s : ocb) (sack_rxmit : bool) : ocb :=
  if negb (active TT_REXMT s) && ((sack_rxmit && negb (s_nxt s =? s_max s)) || negb (s_nxt s =? s_una s)) then
    let s := if active TT_PERSIST s
             then on_tp (fun tp => tp <| t_rxtshift := 0 |>) (activate e TT_PERSIST 0 s) else s in
    activate e TT_REXMT (t_rxtcur (o_tp s)) s
  else s.

(** [snd_nxt] and [snd_max] move past the segment. *)
Definition advance (e : oenv) (s : ocb) (l : locals) : ocb :=
  if negb (flag TF_FORCEDATA s) || negb (active TT_PERSIST s) then
    let startseq := s_nxt s in
    let s := if th TH_SYN l then put_nxt (u32 (s_nxt s + 1)) s else s in
    let s := if th TH_FIN l then on_tp (set_flag TF_SENTFIN) (put_nxt (u32 (s_nxt s + 1)) s) else s in
    if l_sack_rxmit l then start_rexmt e s true
    else
      let s := put_nxt (u32 (s_nxt s + l_len l)) s in
      let s :=
        if SEQ_GT (s_nxt s) (s_max s) then
          let s := put_max (s_nxt s) s in
          if t_rtttime (o_tp s) =? 0
          then (on_tp (fun tp => tp <| t_rtttime := u32 (ticks (te e)) |>) s) <| t_rtseq := startseq |>
          else s
        else s in
      start_rexmt e s false
  else
    let xlen := s32 (l_len l) + b2z (th TH_SYN l) + b2z (th TH_FIN l) in
    let s := if th TH_FIN l then on_tp (set_flag TF_SENTFIN) s else s in
    if SEQ_GT (s_nxt s + xlen) (s_max s) then put_max (u32 (s_nxt s + l_len l)) s else s.

(** [ip_output]: the segment goes out and the next result comes back. *)
Definition ip_output (seg : segment) (s : ocb) : ocb * Z :=
  (s <| wire := wire s ++ [seg] |> <| ip_results := tail (ip_results s) |>, default 0 (head (ip_results s))).

(** How a pass ends. *)
Inductive pass_result :=
  | Return (s : ocb) (error : Z)
  | Again (s : ocb)
  | MtuDisc (s : ocb)
  | PanicOut.

(** From [out:] on. *)
Definition output_error (e : oenv) (s : ocb) (tso : bool) (error : Z) : pass_result :=
  let soft s := on_tp (fun tp => tp <| t_softerror := error |>) s in
  if error =? EPERM then Return (soft s) error
  else if error =? ENOBUFS then
    let s := if negb (active TT_REXMT s) && negb (active TT_PERSIST s)
             then activate e TT_REXMT (t_rxtcur (o_tp s)) s else s in
    Return (on_tp (fun tp => tp <| snd_cwnd := t_maxseg tp |>) s) 0
  else if error =? EMSGSIZE then
    MtuDisc (if tso then on_tp (clear_flag TF_TSO) s else s)
  else if ((error =? EHOSTDOWN) || (error =? EHOSTUNREACH) || (error =? ENETDOWN) || (error =? ENETUNREACH))
          && TCPS_HAVERCVDSYN (t_state (o_tp s))
  then Return (soft s) 0
  else Return s error.

(** The packet was lost: [snd_nxt] or the hole's [rxmit] goes back. *)
Definition back_out (s : ocb) (l : locals) (error : Z) : ocb :=
  if (negb (flag TF_FORCEDATA s) || negb (active TT_PERSIST s)) && negb (th TH_SYN l) && negb (error =? EPERM) then
    match rexmit_hole l with
    | Some p =>
        on_sack (fun k => k <| snd_holes := set_rxmit (h_id p) (u32 (u32 (h_rxmit p + l_len l) - l_len l)) (snd_holes k) |>
                            <| sack_bytes_rexmit := s32 (sack_bytes_rexmit k - l_len l) |>) s
    | None => put_nxt (u32 (s_nxt s - l_len l)) s
    end
  else s.

(** Sent: remember the window advertised; no ACK is owed any more. *)
Definition sent (e : oenv) (s : ocb) (l : locals) : pass_result :=
  let s := if (0 <=? l_recwin l) && SEQ_GT (rnxt s + l_recwin l) (rcv_adv s)
           then s <| rcv_adv := u32 (rnxt s + l_recwin l) |> else s in
  let s := s <| last_ack_sent := rnxt s |> in
  let s := on_tp (clear_flag (Z.lor TF_ACKNOW TF_DELACK)) s in
  let s := if active TT_DELACK s then activate e TT_DELACK 0 s else s in
  if l_sendalot l then Again s else Return s 0.

(** From [send:] on. *)
Definition output_send (e : oenv) (s : ocb) (l : locals) : pass_result :=
  match make_options e s l with
  | None => PanicOut
  | Some (s, l) =>
      let l := limit_len s l in
      if MHLEN e <? max_linkhdr e + hdrlen l then PanicOut
      else
        match get_data e s l with
        | None => PanicOut
        | Some (s, inl error) => output_error e s (l_tso l) error
        | Some (s, inr data) =>
            let '(s, l, seg) := make_segment e s l data in
            let s := advance e s l in
            let '(s, error) := ip_output seg s in
            if error =? 0 then sent e s l
            else output_error e (back_out s l error) (l_tso l) error
        end
  end.

(** From [again:] to the decision whether to send. *)
Definition output_plan (e : oenv) (idle : bool) (s : ocb) : option (ocb * locals) :=
  let '(s, l) := output_begin idle s in
  let '(s, l) := sack_retransmit s l in
  let '(s, l) := force_data e s l in
  let l := l <| l_len := data_len s l |> in
  let l := lop_syn s l in
  '(s, l) ← window_shrank e s l;
  let s := autosize e s l in
  let l := choose_tso e s l in
  let l := hold_fin s l in
  Some (s, l <| l_recwin := sbspace (so_rcv s) |>).

(** One pass from [again:]. *)
Definition output_pass (e : oenv) (idle : bool) (s : ocb) : pass_result :=
  match output_plan e idle s with
  | None => PanicOut
  | Some (s, l) =>
      if want_send s l then output_send e s l
      else match just_return e s with None => PanicOut | Some s => Return s 0 end
  end.

(** ** tcp_output *)

Inductive output_result :=
  | Returned (s : ocb) (error : Z)
  | Panicked
  | OutOfFuel.

(** The passes of one call; [fuel] bounds their number.  After EMSGSIZE
    [tcp_mtudisc] calls [tcp_output] again, from the start, and 0 is returned
    whatever that call returns. *)
Fixpoint output_loop (e : oenv) (fuel : nat) (idle : bool) (s : ocb) : output_result :=
  match fuel with
  | O => OutOfFuel
  | S fuel =>
      match output_pass e idle s with
      | Return s error => Returned s error
      | PanicOut => Panicked
      | Again s => output_loop e fuel idle s
      | MtuDisc s =>
          match tcp_mtudisc e s with
          | None => Returned s 0
          | Some s =>
              let '(s, idle) := output_start e s in
              match output_loop e fuel idle s with
              | Returned s _ => Returned s 0
              | r => r
              end
          end
      end
  end.

Definition tcp_output (e : oenv) (fuel : nat) (s : ocb) : output_result :=
  if inp_passive s then Returned s 0
  else let '(s, idle) := output_start e s in output_loop e fuel idle s.
End Output.
