(* ===== verification/TcpOutputStream.v ===== *)
(** * TCP output: the stream

    What [tcp_output] (TcpOutput.v) sends is the send buffer.  The stages of a
    pass are followed on a synchronised connection ([conn_ok]): the plan, the
    options, the limit to the segment size, the payload, the header and the
    sequence numbers; [tcp_output_stream] puts them together. *)

From S2P Require Import Prelude TcpSeq Callout SockBuf TcpOptions TcpSack TcpCC TcpTimer TcpOutput.

Module OutputStream.

Import SockBuf.Sockbuf TcpSack.Sack TcpCC.CC TcpTimer.Timer TcpOutput.Output.

(** ** What the passes preserve *)

(** The stages before a segment is made only touch timers, the back-off, the
    flag of the saved window and the limits of the send buffer. *)
Definition sb_limits (sb sb' : sockbuf) : Prop :=
  sb' = sb <| sb_hiwat := sb_hiwat sb' |> <| sb_mbmax := sb_mbmax sb' |>
           <| sb_lowat := sb_lowat sb' |> <| sb_flags := sb_flags sb' |>.

Record quiet (s s' : ocb) : Prop := {
  qt_eq : s' = s <| o_tp := (o_tp s) <| t_timers := t_timers (o_tp s') |> <| t_rxtshift := t_rxtshift (o_tp s') |>
                                     <| t_flags := t_flags (o_tp s') |> |>
                 <| so_snd := so_snd s' |> <| ui_sbsize := ui_sbsize s' |>;
  qt_flags : forall f, Z.land TF_PREVVALID f = 0 -> flag f s' = flag f s;
  qt_snd : sb_limits (so_snd s) (so_snd s') }.

Lemma sb_limits_refl sb : sb_limits sb sb.
Proof. destruct sb; reflexivity. Qed.
Lemma quiet_refl s : quiet s s.
Proof.
  split; [destruct s as [tp]; destruct tp; reflexivity|reflexivity|apply sb_limits_refl].
Qed.
Lemma quiet_trans s1 s2 s3 : quiet s1 s2 -> quiet s2 s3 -> quiet s1 s3.
Proof.
  intros [E1 F1 B1] [E2 F2 B2]. split.
  - rewrite E2 at 1. rewrite E1. reflexivity.
  - intros f Hf. rewrite F2, F1 by exact Hf. reflexivity.
  - unfold sb_limits in *. rewrite B2 at 1. rewrite B1. reflexivity.
Qed.

(** Changes of the timers and the back-off are quiet. *)
Lemma quiet_timers s tm sh :
  quiet s (s <| o_tp := (o_tp s) <| t_timers := tm |> <| t_rxtshift := sh |> |>).
Proof. split; [destruct s as [tp]; destruct tp; reflexivity|reflexivity|apply sb_limits_refl]. Qed.

Lemma activate_eq e t d s : activate e t d s =
  s <| o_tp := (o_tp s) <| t_timers := t_timers (tcp_timer_activate (te e) (o_tp s) t (u32 d)) |> |>.
Proof. unfold activate, on_tp, tcp_timer_activate, on_timer. destruct (_ =? _); reflexivity. Qed.

Lemma quiet_activate e t d s : quiet s (activate e t d s).
Proof.
  rewrite activate_eq. pose proof (quiet_timers s (t_timers (tcp_timer_activate (te e) (o_tp s) t (u32 d))) (t_rxtshift (o_tp s))) as H.
  replace (s <| o_tp := _ |>) with
    (s <| o_tp := (o_tp s) <| t_timers := t_timers (tcp_timer_activate (te e) (o_tp s) t (u32 d)) |> <| t_rxtshift := t_rxtshift (o_tp s) |> |>);
    [exact H|]. destruct s as [tp]; destruct tp; reflexivity.
Qed.

Lemma quiet_rxtshift v s : quiet s (on_tp (fun tp => tp <| t_rxtshift := v |>) s).
Proof.
  pose proof (quiet_timers s (t_timers (o_tp s)) v) as H. unfold on_tp.
  replace (s <| o_tp := (o_tp s) <| t_rxtshift := v |> |>) with
    (s <| o_tp := (o_tp s) <| t_timers := t_timers (o_tp s) |> <| t_rxtshift := v |> |>); [exact H|].
  destruct s as [tp]; destruct tp; reflexivity.
Qed.

Lemma setpersist_eq e tp tp' : tcp_setpersist e tp = Some tp' ->
  tp' = tp <| t_timers := t_timers tp' |> <| t_rxtshift := t_rxtshift tp' |>
           <| t_flags := Z.land (t_flags tp) (Z.lnot TF_PREVVALID) |>.
Proof.
  unfold tcp_setpersist. destruct (tcp_timer_active _ _); [discriminate|]. intros [= <-].
  unfold tcp_timer_activate, on_timer. destruct (_ =? 0), (_ <? _); destruct tp; reflexivity.
Qed.

Lemma quiet_setpersist e s tp' : tcp_setpersist e (o_tp s) = Some tp' -> quiet s (s <| o_tp := tp' |>).
Proof.
  intros H%setpersist_eq. split.
  - cbn [update o_tp so_snd ui_sbsize]. rewrite H at 1. destruct s as [tp]; destruct tp; rewrite H; reflexivity.
  - intros f Hf. unfold flag. cbn [update o_tp]. rewrite H. cbn [update t_flags]. apply flag_cleared_other. exact Hf.
  - apply sb_limits_refl.
Qed.
(** Retransmissions go through the holes in order. *)
Definition in_order (base : Z) (holes : list sackhole) : Prop :=
  forall A p B, holes = A ++ p :: B -> hr base p < he base p -> Forall (fun h => hr base h = hs base h) B.

(** The first hole with something left to retransmit. *)
Definition first_due (base : Z) (holes : list sackhole) (p : sackhole) : Prop :=
  exists A B, holes = A ++ p :: B /\ Forall (fun h => hr base h = he base h) A.

Lemma first_due_in base holes p : first_due base holes p -> p ∈ holes.
Proof. intros (A & B & -> & _). apply elem_of_app. right. left. Qed.

Definition qlen (q : list Z) : Z := Z.of_nat (length q).

(** A synchronised connection whose send buffer holds [q], the bytes from
    [snd_una] on.  Everything sent is in the buffer, with the FIN after it; the
    holes are before [K], which nothing acknowledged is. *)
Record conn_ok (q : list Z) (K : Z) (s : ocb) : Prop := {
  co_holds : holds q (so_snd s);
  co_len : qlen q < 2 ^ 29;
  co_board : board_wf (s_una s) 0 (off (s_una s) (s_max s)) (t_sack (o_tp s));
  co_fack : snd_holes (t_sack (o_tp s)) <> [] ->
    0 <= off (s_una s) (snd_fack (t_sack (o_tp s))) <= off (s_una s) (s_max s) /\ 0 <= snd_fack (t_sack (o_tp s)) < 2 ^ 32;
  co_holes : Forall (fun h => he (s_una s) h < K /\ 0 <= h_start h < 2 ^ 32 /\ 0 <= h_rxmit h < 2 ^ 32) (snd_holes (t_sack (o_tp s)));
  co_K : K <= off (s_una s) (s_max s);
  co_order : in_order (s_una s) (snd_holes (t_sack (o_tp s)));
  co_word : 0 <= s_una s < 2 ^ 32 /\ 0 <= s_nxt s < 2 ^ 32 /\ 0 <= s_max s < 2 ^ 32;
  co_nxt : 0 <= off (s_una s) (s_nxt s) <= off (s_una s) (s_max s);
  co_fin : if flag TF_SENTFIN s then off (s_una s) (s_max s) = qlen q + 1 else off (s_una s) (s_max s) <= qlen q;
  co_state : TCPS_ESTABLISHED <= t_state (o_tp s) <= TCPS_TIME_WAIT;
  co_syn : flag TF_NEEDSYN s = false;
  co_wnd : 0 <= snd_wnd (o_tp s) < 2 ^ 31;
  co_cwnd : 0 <= snd_cwnd (o_tp s) < 2 ^ 31;
  co_maxseg : 0 < t_maxseg (o_tp s) < 2 ^ 16;
  co_opd : 0 <= ipoptlen s /\ TCP_MAXOLEN + ipoptlen s < t_maxopd s <= 65000;
  co_blks : Z.of_nat (rcv_numsacks (t_sack (o_tp s))) <= Z.of_nat (length (sackblks (t_sack (o_tp s))));
  co_probe : flag TF_FORCEDATA s = true -> flag TF_FASTRECOVERY s = false }.

(** What a stage of a pass leaves alone. *)
Record same (s s' : ocb) : Prop := {
  sm_una : s_una s' = s_una s;
  sm_wnd : snd_wnd (o_tp s') = snd_wnd (o_tp s);
  sm_cwnd : snd_cwnd (o_tp s') = snd_cwnd (o_tp s);
  sm_rxtcur : t_rxtcur (o_tp s') = t_rxtcur (o_tp s);
  sm_state : t_state (o_tp s') = t_state (o_tp s);
  sm_maxopd : t_maxopd s' = t_maxopd s;
  sm_options : inp_options s' = inp_options s;
  sm_force : flag TF_FORCEDATA s' = flag TF_FORCEDATA s;
  sm_sack : flag TF_SACK_PERMIT s' = flag TF_SACK_PERMIT s;
  sm_fast : flag TF_FASTRECOVERY s' = flag TF_FASTRECOVERY s;
  sm_results : exists old, ip_results s = old ++ ip_results s' }.

Lemma same_refl s : same s s.
Proof. split; try reflexivity. exists []. reflexivity. Qed.
Lemma same_trans a b c : same a b -> same b c -> same a c.
Proof.
  intros [A1 A2 A3 A3' A4 A5 A6 A7 A8 A9 [o1 A10]] [B1 B2 B3 B3' B4 B5 B6 B7 B8 B9 [o2 B10]]. split; try congruence.
  exists (o1 ++ o2). rewrite A10, B10. apply app_assoc.
Qed.

Lemma quiet_same s s' : quiet s s' -> same s s' /\ t_sack (o_tp s') = t_sack (o_tp s) /\ wire s' = wire s.
Proof.
  intros [E F B]. split; [split|split]; try (apply F; reflexivity); try (rewrite E; reflexivity).
  exists []. cbn [app]. rewrite E. reflexivity.
Qed.

Lemma holds_limits q sb sb' : holds q sb -> sb_limits sb sb' -> holds q sb'.
Proof.
  intros [[O1 O2 [C1 C2 C3 C4 C5] O4 O5 O6 O7 O8] Hc] E. rewrite E. split; [|exact Hc].
  split; try assumption. split; assumption.
Qed.

Lemma quiet_conn q K s s' : conn_ok q K s -> quiet s s' -> conn_ok q K s'.
Proof.
  intros [] Q. destruct (quiet_same s s' Q) as ([] & Es & _). pose proof (qt_flags s s' Q) as F. pose proof (qt_eq s s' Q) as E.
  assert (s_nxt s' = s_nxt s /\ s_max s' = s_max s) as [En Em] by (unfold s_nxt, s_max, nxt, smax; rewrite Es; auto).
  assert (t_maxseg (o_tp s') = t_maxseg (o_tp s)) as Eg by (rewrite E; reflexivity).
  assert (ipoptlen s' = ipoptlen s) as Ei by (unfold ipoptlen; rewrite E; reflexivity).
  split; rewrite ?sm_una0, ?Es, ?En, ?Em, ?sm_wnd0, ?sm_cwnd0, ?sm_state0, ?sm_maxopd0, ?Eg, ?Ei, ?sm_force0, ?sm_fast0; auto.
  - eapply holds_limits; [eassumption|apply Q].
  - rewrite F by reflexivity. assumption.
  - rewrite F by reflexivity. assumption.
Qed.

Lemma put_nxt_conn q K s v :
  conn_ok q K s -> 0 <= v < 2 ^ 32 -> 0 <= off (s_una s) v <= off (s_una s) (s_max s) -> conn_ok q K (put_nxt v s).
Proof. intros [] Hv Ho. split; try assumption. split; [apply co_word0|]. split; [exact Hv|apply co_word0]. Qed.

Lemma put_nxt_same v s : same s (put_nxt v s).
Proof. split; try reflexivity. exists []. reflexivity. Qed.

Lemma co_near q K s : conn_ok q K s -> 0 <= off (s_una s) (s_nxt s) <= off (s_una s) (s_max s) /\ off (s_una s) (s_max s) < 2 ^ 30.
Proof. intros []. split; [assumption|]. apply co_board0. Qed.
(** *** From [again] to the scoreboard *)

Lemma adjust_loop_range base nxt fack M rest : forall cur r,
  near base nxt -> off base nxt <= M -> M < 2 ^ 30 -> off base nxt < off base fack <= M ->
  Forall (fun h => 0 <= hs base h <= M) rest -> adjust_loop nxt fack cur rest = Some r ->
  off base nxt <= off base r <= M /\ (r = fack \/ exists h, h ∈ rest /\ r = h_start h).
Proof.
  induction rest as [|p rest IH]; intros cur r Hn Hm HM Hf Hr; cbn [adjust_loop].
  - destruct (SEQ_LT _ _); [discriminate|]. intros [= <-]. split; [lia|auto].
  - destruct (SEQ_LT _ _); [discriminate|]. inversion Hr as [|? ? Hp Hr']; subst.
    rewrite (SEQ_GEQ_off base) by (unfold near, hs in *; lia). destruct (Z.leb_spec (off base (h_start p)) (off base nxt)).
    + intros E. destruct (IH p r Hn Hm HM Hf Hr' E) as [K [->|(h & Hh & ->)]]; (split; [exact K|]); [auto|].
      right. exists h. split; [right; exact Hh|reflexivity].
    + intros [= <-]. unfold hs in Hp. split; [lia|]. right. exists p. split; [left|reflexivity].
Qed.

Lemma begin_spec q K s idle :
  conn_ok q K s ->
  let '(s', l) := output_begin idle s in
  conn_ok q K s' /\ same s s' /\ wire s' = wire s /\ off (s_una s) (s_nxt s) <= off (s_una s) (s_nxt s') /\
  t_timers (o_tp s') = t_timers (o_tp s) /\ s' = put_nxt (s_nxt s') s /\
  l = mk_locals idle false false (off (s_una s) (s_nxt s')) (Z.min (snd_wnd (o_tp s)) (snd_cwnd (o_tp s)))
        (tcp_outflags (t_state (o_tp s))) false 0 0 None 0 [].
Proof.
  intros C. unfold output_begin.
  set (s' := if _ && _ then _ else _).
  assert (s' = s \/ exists v, s' = put_nxt v s /\ 0 <= v < 2 ^ 32 /\ off (s_una s) (s_nxt s) <= off (s_una s) v <= off (s_una s) (s_max s)) as H.
  { subst s'. destruct (_ && _); [|auto]. destruct (snd_holes (t_sack (o_tp s))) as [|cur rest] eqn:Eh.
    { left. unfold on_sack, on_tp, tcp_sack_adjust. rewrite Eh. destruct s as [tp]; destruct tp; reflexivity. }
    pose proof (co_near _ _ _ C) as [N1 N2]. destruct (co_fack _ _ _ C ltac:(congruence)) as [F1 F2].
    unfold on_sack, on_tp, tcp_sack_adjust. rewrite Eh. fold (s_nxt s). change (snd_nxt (t_sack (o_tp s))) with (s_nxt s).
    rewrite (SEQ_GEQ_off (s_una s)) by (unfold near; lia).
    destruct (Z.leb_spec (off (s_una s) (snd_fack (t_sack (o_tp s)))) (off (s_una s) (s_nxt s)));
      [left; destruct s as [tp]; destruct tp; reflexivity|].
    destruct (adjust_loop _ _ _ _) as [v|] eqn:Ea; [|left; destruct s as [tp]; destruct tp; reflexivity].
    right. exists v. pose proof (co_board _ _ _ C) as (_ & _ & Ch & _). rewrite Eh in Ch.
    eapply (adjust_loop_range (s_una s) (s_nxt s) _ (off (s_una s) (s_max s))) in Ea as [K1 K2]; try (unfold near; lia).
    - split; [reflexivity|]. split; [|exact K1]. destruct K2 as [->|(h & Hh & ->)]; [exact F2|].
      pose proof (co_holes _ _ _ C) as Hw. rewrite Eh, Forall_forall in Hw. apply Hw. right. exact Hh.
    - apply Forall_forall. intros h Hh. eapply (chain_bounds _ _ _ _ h) in Ch; [lia|right; exact Hh]. }
  clearbody s'. assert (conn_ok q K s' /\ same s s' /\ wire s' = wire s /\ off (s_una s) (s_nxt s) <= off (s_una s) (s_nxt s')
    /\ t_timers (o_tp s') = t_timers (o_tp s) /\ s' = put_nxt (s_nxt s') s) as (K1 & K2 & K3 & K4 & K5 & K6).
  { destruct H as [->|(v & -> & Hv & Ho)].
    - split; [exact C|]. split; [apply same_refl|]. split; [reflexivity|]. split; [lia|]. split; [reflexivity|].
      destruct s as [tp]; destruct tp as [sk]; destruct sk; reflexivity.
    - pose proof (co_near _ _ _ C) as [N1 N2]. split; [apply put_nxt_conn; [exact C|exact Hv|lia]|].
      split; [apply put_nxt_same|]. split; [reflexivity|]. split; [apply Ho|]. split; reflexivity. }
  split; [exact K1|]. split; [exact K2|]. split; [exact K3|]. split; [exact K4|]. split; [exact K5|]. split; [exact K6|].
  rewrite (sm_wnd _ _ K2), (sm_cwnd _ _ K2), (sm_state _ _ K2). pose proof (co_wnd _ _ _ C). pose proof (co_cwnd _ _ _ C).
  rewrite umin_small by lia. fold (off (s_una s') (s_nxt s')). rewrite (sm_una _ _ K2). reflexivity.
Qed.

(** What has been retransmitted lies before the next byte to retransmit. *)
Lemma retransmitted_before base hi A p B :
  chain base 0 hi (A ++ p :: B) -> in_order base (A ++ p :: B) -> hr base p < he base p ->
  0 <= retransmitted base (A ++ p :: B) <= hr base p.
Proof.
  intros C Ho Hp. pose proof (retransmitted_bounds base _ _ _ C) as R0. specialize (Ho A p B eq_refl Hp).
  rewrite retransmitted_app in *. cbn [retransmitted] in *.
  apply holes_chain_app in C as (m & C1 & C2). cbn [chain] in C2. destruct C2 as (C2 & C3 & C4).
  pose proof (retransmitted_bounds base _ _ _ C1).
  assert (retransmitted base B = 0) as HB.
  { clear - Ho. induction Ho as [|h B Hh _ IH]; cbn [retransmitted]; [reflexivity|lia]. }
  lia.
Qed.

(** The hole the scoreboard gives, the length and the offset. *)
Lemma sack_spec q K s l :
  conn_ok q K s -> l_sack_rxmit l = false -> l_len l = 0 -> l_off l = off (s_una s) (s_nxt s) ->
  l_bytes_rxmt l = 0 -> l_sendalot l = false ->
  let '(s', l') := sack_retransmit s l in
  let c := Z.min (snd_wnd (o_tp s)) (snd_cwnd (o_tp s)) in
  conn_ok q K s' /\ same s s' /\ wire s' = wire s /\ s_nxt s' = s_nxt s /\ s_max s' = s_max s /\
  snd_holes (t_sack (o_tp s')) = snd_holes (t_sack (o_tp s)) /\ (forall f, flag f s' = flag f s) /\
  t_timers (o_tp s') = t_timers (o_tp s) /\
  l_flags l' = l_flags l /\ l_sendwin l' = l_sendwin l /\ l_tso l' = l_tso l /\ l_opt l' = l_opt l /\ l_idle l' = l_idle l /\
  (flag TF_SACK_PERMIT s && flag TF_FASTRECOVERY s = false -> l' = l) /\
  0 <= l_bytes_rxmt l' < 2 ^ 30 /\
  ((exists p, l_p l' = Some p /\ first_due (s_una s) (snd_holes (t_sack (o_tp s'))) p /\ l_sack_rxmit l' = true /\ l_sendalot l' = true /\
      0 < l_len l' /\ hr (s_una s) p + l_len l' <= he (s_una s) p /\ l_off l' = hr (s_una s) p) \/
   (l_sack_rxmit l' = false /\ l_sendalot l' = false /\ l_len l' = 0 /\
      (l_off l' = l_off l \/ (l_bytes_rxmt l' = c /\ c <= l_off l' /\ 0 <= l_off l' < 2 ^ 30)))).
Proof.
  intros C H1 H2 H3 H4 H5. unfold sack_retransmit. pose proof (co_near _ _ _ C) as [N1 N2].
  destruct (flag TF_SACK_PERMIT s && flag TF_FASTRECOVERY s) eqn:Ef.
  2: { split; [exact C|]. split; [apply same_refl|]. repeat (split; [reflexivity|]).
       split; [lia|]. right. auto. }
  pose proof (output_spec (s_una s) 0 _ _ (co_board _ _ _ C)) as O.
  destruct (tcp_sack_output (t_sack (o_tp s))) as [[k p] bytes]. destruct O as (O1 & O2 & O3 & O4 & O5).
  set (s' := on_sack (fun _ => k) s).
  assert (conn_ok q K s' /\ same s s' /\ wire s' = wire s /\ s_nxt s' = s_nxt s /\ s_max s' = s_max s /\
    snd_holes (t_sack (o_tp s')) = snd_holes (t_sack (o_tp s)) /\ (forall f, flag f s' = flag f s) /\
    t_timers (o_tp s') = t_timers (o_tp s)) as S.
  { subst s'. clear O1 O2. rewrite O5 in *. clear O5. split; [|split; [split; try reflexivity; exists []; reflexivity|repeat split]].
    destruct C. split; assumption. }
  destruct S as (C' & S2 & S3 & S4 & S5 & S6 & S7 & S8).
  assert (0 <= bytes < 2 ^ 30) as Hb.
  { pose proof (co_board _ _ _ C) as (_ & W2 & Ch & _). apply retransmitted_bounds in Ch. rewrite O2. lia. }
  clearbody s'. destruct p as [p|].
  2: { cbn [update l_flags l_sendwin l_tso l_opt l_idle l_bytes_rxmt l_sack_rxmit l_sendalot l_len l_off].
       do 8 (split; [assumption|]). do 5 (split; [reflexivity|]). split; [discriminate|]. split; [exact Hb|]. right. auto. }
  symmetry in O1. apply find_split in O1 as (A & B & E & HA & Hp).
  pose proof (co_board _ _ _ C) as (W1 & W2 & Ch & _). rewrite E in Ch.
  assert (hs (s_una s) p < he (s_una s) p /\ 0 <= hr (s_una s) p < he (s_una s) p /\ he (s_una s) p <= off (s_una s) (s_max s)) as (P1 & P2 & P3).
  { pose proof (chain_bounds _ _ _ _ p Ch ltac:(apply elem_of_app; right; left)) as (B1 & B2 & B3 & B4).
    rewrite (to_send_off (s_una s) _ _ _ p Ch) in Hp by (try apply elem_of_app; try lia; right; left). apply Z.ltb_lt in Hp. lia. }
  assert (Forall (fun h => hr (s_una s) h = he (s_una s) h) A) as HA'.
  { apply Forall_forall. intros h Hh. rewrite Forall_forall in HA. specialize (HA h Hh).
    assert (h ∈ A ++ p :: B) as Hin by (apply elem_of_app; left; exact Hh).
    rewrite (to_send_off (s_una s) _ _ _ h Ch) in HA by (exact Hin || lia). pose proof (chain_bounds _ _ _ _ h Ch Hin). zbool. lia. }
  pose proof (co_order _ _ _ C) as Ho. rewrite E in Ho, O2. pose proof (retransmitted_before _ _ _ _ _ Ch Ho ltac:(lia)) as Hr. rewrite <- O2 in Hr.
  rewrite (sm_wnd _ _ S2), (sm_cwnd _ _ S2). pose proof (co_wnd _ _ _ C). pose proof (co_cwnd _ _ _ C). rewrite umin_small by lia.
  rewrite (sm_una _ _ S2). fold (off (s_una s) (h_rxmit p)). fold (hr (s_una s) p).
  set (c := Z.min (snd_wnd (o_tp s)) (snd_cwnd (o_tp s))) in *.
  assert (u32 (h_end p - h_rxmit p) = he (s_una s) p - hr (s_una s) p) as Ed.
  { apply (u32_sub_near (s_una s)); [reflexivity|]. unfold he, hr in *. lia. }
  assert (forall len, 0 <= len <= he (s_una s) p - hr (s_una s) p -> (len = 0 -> bytes = c) ->
    let l' := l <| l_bytes_rxmt := bytes |> <| l_len := len |> <| l_p := Some p |> <| l_off := hr (s_una s) p |> in
    let l' := if 0 <? len then l' <| l_sack_rxmit := true |> <| l_sendalot := true |> else l' in
    l_flags l' = l_flags l /\ l_sendwin l' = l_sendwin l /\ l_tso l' = l_tso l /\ l_opt l' = l_opt l /\ l_idle l' = l_idle l /\
    0 <= l_bytes_rxmt l' < 2 ^ 30 /\
    ((exists p, l_p l' = Some p /\ first_due (s_una s) (snd_holes (t_sack (o_tp s'))) p /\ l_sack_rxmit l' = true /\ l_sendalot l' = true /\
      0 < l_len l' /\ hr (s_una s) p + l_len l' <= he (s_una s) p /\ l_off l' = hr (s_una s) p) \/
   (l_sack_rxmit l' = false /\ l_sendalot l' = false /\ l_len l' = 0 /\
      (l_off l' = l_off l \/ (l_bytes_rxmt l' = c /\ c <= l_off l' /\ 0 <= l_off l' < 2 ^ 30))))) as Hfin.
  { intros len Hl Hz. destruct (Z.ltb_spec 0 len); cbn; do 5 (split; [reflexivity|]); (split; [exact Hb|]).
    - left. exists p. split; [reflexivity|]. split; [rewrite S6; exists A, B; split; [exact E|exact HA']|].
      split; [reflexivity|]. split; [reflexivity|]. lia.
    - right. split; [exact H1|]. split; [exact H5|]. split; [lia|]. right. specialize (Hz ltac:(lia)). split; [exact Hz|]. lia. }
  assert (u32 (c - bytes) = 0 -> bytes = c) as Hz by (intros Hz; unfold c in *; wrap).
  pose proof (u32_range (c - bytes)) as Hc.
  assert (forall len, 0 < len -> (Z.min (u32 (c - bytes)) len = 0 -> bytes = c)) as Hz2 by (intros; apply Hz; lia).
  destruct (SEQ_GT (h_end p) (snd_recover (o_tp s'))) eqn:Eg.
  - destruct (SEQ_GEQ (h_rxmit p) (snd_recover (o_tp s'))) eqn:Eq.
    + cbn. do 8 (split; [assumption|]). do 5 (split; [reflexivity|]). split; [discriminate|]. split; [exact Hb|]. right. auto.
    + (* the part of the hole before snd_recover *)
      assert (0 < u32 (snd_recover (o_tp s') - h_rxmit p) <= he (s_una s) p - hr (s_una s) p) as Hrec.
      { rewrite <- Ed. unfold SEQ_GT, SEQ_GEQ in *. zbool. assert (0 < u32 (h_end p - h_rxmit p) < 2 ^ 30) as Hd by (rewrite Ed; lia).
        clear - Eg Eq Hd. generalize dependent (snd_recover (o_tp s')). intros r. generalize (h_end p) (h_rxmit p). intros a b. wrap. }
      destruct (Hfin (Z.min (u32 (c - bytes)) (u32 (snd_recover (o_tp s') - h_rxmit p))) ltac:(lia) (Hz2 (u32 (snd_recover (o_tp s') - h_rxmit p)) ltac:(lia))) as (F1&F2&F3&F4&F5&F6&F7).
      do 8 (split; [assumption|]). do 5 (split; [assumption|]). split; [discriminate|]. split; [exact F6|exact F7].
  - rewrite Ed. destruct (Hfin (Z.min (u32 (c - bytes)) (he (s_una s) p - hr (s_una s) p)) ltac:(lia) (Hz2 (he (s_una s) p - hr (s_una s) p) ltac:(lia))) as (F1&F2&F3&F4&F5&F6&F7).
    do 8 (split; [assumption|]). do 5 (split; [assumption|]). split; [discriminate|]. split; [exact F6|exact F7].
Qed.
(** *** The plan of a pass *)

Definition probe (s : ocb) : Z := if flag TF_FORCEDATA s then 1 else 0.
Definition sack_recovery (s : ocb) : bool := flag TF_SACK_PERMIT s && flag TF_FASTRECOVERY s.

(** Where the data of the segment starts. *)
Definition plan_start (s : ocb) (l : locals) : Z :=
  if l_sack_rxmit l then l_off l else off (s_una s) (s_nxt s).

(** What is known when the decision to send is taken. *)
Record plan (q : list Z) (K : Z) (s : ocb) (l : locals) : Prop := {
  pl_len : 0 <= l_len l < 2 ^ 30;
  pl_hole : l_sack_rxmit l = true -> exists p, l_p l = Some p /\ first_due (s_una s) (snd_holes (t_sack (o_tp s))) p /\
    0 < l_len l /\ hr (s_una s) p + l_len l <= he (s_una s) p /\ l_off l = hr (s_una s) p;
  pl_rec : l_sack_rxmit l = true -> sack_recovery s = true;
  pl_off : 0 < l_len l -> l_off l = plan_start s l /\ 0 <= l_off l /\ l_off l + l_len l <= qlen q;
  pl_wnd : 0 < l_len l -> l_off l + l_len l <= Z.max K (Z.max (snd_wnd (o_tp s)) (probe s));
  pl_cwnd : 0 < l_len l -> sack_recovery s = false ->
    l_off l + l_len l <= Z.max (Z.min (snd_wnd (o_tp s)) (snd_cwnd (o_tp s))) (probe s);
  pl_alot : l_sendalot l = l_sack_rxmit l;
  pl_syn : th TH_SYN l = false;
  pl_fin : th TH_FIN l = true -> qlen q <= plan_start s l + l_len l;
  pl_opt : l_opt l = [];
  pl_tso : l_tso l = true -> inp_options s = None;
  pl_probe : flag TF_FORCEDATA s && active TT_PERSIST s = true -> l_len l <= 1 /\ l_sack_rxmit l = false }.

Lemma disarm_inactive c : callout_active (callout_disarm c) = false.
Proof. unfold callout_active, callout_disarm. cbn [update c_flags]. apply flag_cleared_sub. reflexivity. Qed.

Lemma activate_0 e t s : active t (activate e t 0 s) = false.
Proof.
  unfold active, activate, on_tp, tcp_timer_active, tcp_timer_activate. change (u32 0 =? 0) with true.
  cbn [update o_tp]. unfold on_timer. cbn [update t_timers].
  destruct t; cbn [timer set_timer update tt_delack tt_rexmt tt_persist tt_keep tt_2msl]; apply disarm_inactive.
Qed.

Lemma th_set_other f g l : Z.land f g = 0 -> th g (set_th f l) = th g l.
Proof. apply flag_set_other. Qed.
Lemma th_clear_other f g l : Z.land f g = 0 -> th g (clear_th f l) = th g l.
Proof. apply flag_cleared_other. Qed.

Lemma outflags_syn s : TCPS_ESTABLISHED <= t_state (o_tp s) <= TCPS_TIME_WAIT ->
  has_flag (tcp_outflags (t_state (o_tp s))) TH_SYN = false.
Proof.
  unfold TCPS_ESTABLISHED, TCPS_TIME_WAIT. intros H.
  assert (t_state (o_tp s) = 4 \/ t_state (o_tp s) = 5 \/ t_state (o_tp s) = 6 \/ t_state (o_tp s) = 7 \/
          t_state (o_tp s) = 8 \/ t_state (o_tp s) = 9 \/ t_state (o_tp s) = 10) as E by lia.
  decompose [or] E; match goal with Hs : t_state (o_tp s) = _ |- _ => rewrite Hs; reflexivity end.
Qed.

(** The hidden flags and the probe. *)
Lemma force_spec e q K s l :
  conn_ok q K s -> th TH_SYN l = false -> 0 <= l_sendwin l ->
  let '(s', l') := force_data e s l in
  quiet s s' /\ th TH_SYN l' = false /\
  l' = l <| l_flags := l_flags l' |> <| l_sendwin := l_sendwin l' |> /\
  l_sendwin l <= l_sendwin l' <= Z.max (l_sendwin l) (probe s) /\
  (flag TF_FORCEDATA s' && active TT_PERSIST s' = true -> l_sendwin l' = 1).
Proof.
  intros C Hs Hw. unfold force_data.
  set (l1 := if flag TF_NEEDFIN s then _ else _). rewrite (co_syn _ _ _ C).
  assert (th TH_SYN l1 = false /\ l1 = l <| l_flags := l_flags l1 |> /\ l_sendwin l1 = l_sendwin l) as (H1 & H2 & H3).
  { subst l1. destruct (flag TF_NEEDFIN s); [rewrite th_set_other by reflexivity|]; (split; [exact Hs|]); destruct l; split; reflexivity. }
  clearbody l1. destruct (flag TF_FORCEDATA s) eqn:Ef.
  - assert (probe s = 1) as -> by (unfold probe; rewrite Ef; reflexivity). rewrite H3. destruct (Z.eqb_spec (l_sendwin l) 0) as [E0|E0].
    + split; [apply quiet_refl|]. set (l2 := if u32 _ <? _ then _ else _).
      assert (th TH_SYN l2 = false /\ l2 = l1 <| l_flags := l_flags l2 |>) as (K1 & K2).
      { subst l2. destruct (_ <? _); [rewrite th_clear_other by reflexivity|]; (split; [exact H1|]); destruct l1; reflexivity. }
      clearbody l2. split; [exact K1|]. split; [rewrite K2, H2; reflexivity|]. cbn [update l_sendwin]. split; [lia|reflexivity].
    + split; [eapply quiet_trans; [apply (quiet_activate e TT_PERSIST 0)|apply quiet_rxtshift]|].
      split; [exact H1|]. split; [rewrite H2; destruct l; cbn in *; rewrite <- H3; reflexivity|]. split; [lia|].
      intros Hp. exfalso. apply andb_true_iff in Hp as [_ Hp].
      change (active TT_PERSIST (activate e TT_PERSIST 0 s) = true) in Hp. rewrite activate_0 in Hp. discriminate.
  - split; [apply quiet_refl|]. split; [exact H1|]. split; [rewrite H2; destruct l; cbn in *; rewrite <- H3; reflexivity|].
    unfold probe. rewrite Ef. split; [lia|]. discriminate.
Qed.

Lemma cc_qlen q K s : conn_ok q K s -> cc s = qlen q.
Proof.
  intros C. destruct (co_holds _ _ _ C) as [Hok Hc]. unfold cc, qlen.
  rewrite (sb_cc_total _ Hok), <- length_contents, Hc, length_fmap by apply Hok. reflexivity.
Qed.

(** The length of new data stays within the buffer and the windows. *)
Lemma data_len_spec q K s l :
  let c := Z.min (snd_wnd (o_tp s)) (snd_cwnd (o_tp s)) in
  conn_ok q K s -> l_sack_rxmit l = false -> c <= l_sendwin l <= Z.max c (probe s) ->
  0 <= l_bytes_rxmt l < 2 ^ 30 -> (sack_recovery s = false -> l_bytes_rxmt l = 0) ->
  (l_off l = off (s_una s) (s_nxt s) \/
   (sack_recovery s = true /\ l_bytes_rxmt l = c /\ c <= l_off l /\ 0 <= l_off l < 2 ^ 30)) ->
  let n := data_len s l in
  n < 2 ^ 30 /\
  (0 < n -> l_off l = off (s_una s) (s_nxt s) /\ l_off l + n <= qlen q /\
     l_off l + n <= Z.max (snd_wnd (o_tp s)) (probe s) /\
     (sack_recovery s = false -> l_off l + n <= Z.max c (probe s)) /\
     (sack_recovery s = false -> l_off l + n <= l_sendwin l)).
Proof.
  intros c C Hr Hw Hb Hb0 Ho n. subst n. unfold data_len. rewrite Hr.
  pose proof (co_near _ _ _ C) as [N1 N2]. pose proof (co_len _ _ _ C) as HL. rewrite (cc_qlen q K s C).
  pose proof (co_wnd _ _ _ C) as W1. pose proof (co_cwnd _ _ _ C) as W2. assert (0 <= qlen q) by (unfold qlen; lia).
  assert (0 <= probe s <= 1) as Hp by (unfold probe; destruct (flag _ s); lia).
  destruct (Z.eqb_spec (l_bytes_rxmt l) 0) as [E0|E0].
  - split; [lia|]. intros Hn. destruct Ho as [Ho|(Hs & H1 & H2 & H3)].
    + repeat split; try lia.
    + exfalso. assert (probe s = 0) as Ep.
      { unfold probe. destruct (flag TF_FORCEDATA s) eqn:Ef; [|reflexivity].
        apply (co_probe _ _ _ C) in Ef. unfold sack_recovery in Hs. rewrite Ef, andb_false_r in Hs. discriminate. }
      lia.
  - set (len := Z.min (qlen q) (snd_wnd (o_tp s)) - l_off l).
    destruct (Z.ltb_spec 0 len); [|split; [lia|intros; lia]].
    set (cwin := s64 _). split; [subst len; destruct (cwin <? 0); lia|]. intros Hn.
    assert (sack_recovery s = true) as Hs by (destruct (sack_recovery s); [reflexivity|exfalso; apply E0, Hb0; reflexivity]).
    destruct Ho as [Ho|(_ & H1 & H2 & H3)].
    + rewrite Hs. split; [exact Ho|]. split; [subst len; destruct (cwin <? 0); lia|]. split; [subst len; destruct (cwin <? 0); lia|].
      split; discriminate.
    + exfalso. pose proof (u32_range (s_nxt s - sack_newdata (o_tp s))) as Hu.
      assert (cwin = snd_cwnd (o_tp s) - u32 (s_nxt s - sack_newdata (o_tp s)) - l_bytes_rxmt l) as Ec.
      { unfold cwin. clear - Hu W2 Hb. set (x := u32 _) in *. wrap. }
      destruct (Z.ltb_spec cwin 0); subst len; lia.
Qed.

(** [lop_syn] has nothing to do once the SYN is out of the way. *)
Lemma lop_syn_id s l : th TH_SYN l = false -> lop_syn s l = l.
Proof. intros H. unfold lop_syn. rewrite H. cbn [andb]. rewrite H. reflexivity. Qed.

Lemma setpersist_some e s : active TT_REXMT s = false -> exists tp, tcp_setpersist (te e) (o_tp s) = Some tp.
Proof.
  intros A. unfold tcp_setpersist.
  assert (tcp_timer_active (clear_flag TF_PREVVALID (o_tp s)) TT_REXMT = false) as -> by exact A. eauto.
Qed.

Lemma stop_timer_spec e t s :
  let s1 := on_tp (fun tp => tp <| t_rxtshift := 0 |>) (activate e t 0 s) in
  quiet s s1 /\ active t s1 = false.
Proof.
  split.
  - eapply quiet_trans; [apply (quiet_activate e t 0)|apply quiet_rxtshift].
  - pose proof (activate_0 e t s) as A. unfold active, on_tp, tcp_timer_active in *. cbn [update o_tp t_timers]. exact A.
Qed.

Lemma shrank_spec e q K s l :
  conn_ok q K s -> exists s' l', window_shrank e s l = Some (s', l') /\ conn_ok q K s' /\ same s s' /\ wire s' = wire s /\
    s_max s' = s_max s /\ snd_holes (t_sack (o_tp s')) = snd_holes (t_sack (o_tp s)) /\ l' = l <| l_len := l_len l' |> /\
    (0 <= l_len l -> l' = l /\ s' = s) /\ (l_len l < 0 -> l_len l' = 0 /\ (l_sendwin l <> 0 -> s' = s)) .
Proof.
  intros C. unfold window_shrank. destruct (Z.ltb_spec (l_len l) 0).
  2: { exists s, l. split; [reflexivity|]. split; [exact C|]. split; [apply same_refl|]. do 3 (split; [reflexivity|]).
       split; [destruct l; reflexivity|]. split; [auto|lia]. }
  cbn [update l_sendwin]. destruct (Z.eqb_spec (l_sendwin l) 0) as [E|E].
  2: { exists s, (l <| l_len := 0 |>). split; [reflexivity|]. split; [exact C|]. split; [apply same_refl|]. do 3 (split; [reflexivity|]).
       split; [destruct l; reflexivity|]. split; [lia|auto]. }
  destruct (stop_timer_spec e TT_REXMT s) as [Q1 A1]. set (s1 := on_tp _ (activate e TT_REXMT 0 s)) in *.
  clearbody s1. pose proof (quiet_conn _ _ _ _ C Q1) as C1. destruct (quiet_same _ _ Q1) as (S1 & K1 & R1).
  assert (conn_ok q K (put_nxt (s_una s1) s1)) as C2.
  { apply put_nxt_conn; [exact C1|apply C1|]. rewrite off_refl. pose proof (co_near _ _ _ C1). lia. }
  pose proof (put_nxt_same (s_una s1) s1) as S2. set (s2 := put_nxt (s_una s1) s1) in *.
  assert (active TT_REXMT s2 = false) as A2 by exact A1.
  assert (s_max s2 = s_max s /\ snd_holes (t_sack (o_tp s2)) = snd_holes (t_sack (o_tp s)) /\ wire s2 = wire s) as (M2 & H2 & R2).
  { split; [change (smax (o_tp s1) = smax (o_tp s)); unfold smax; rewrite K1; reflexivity|].
    split; [change (snd_holes (t_sack (o_tp s1)) = snd_holes (t_sack (o_tp s))); rewrite K1; reflexivity|exact R1]. }
  clearbody s2. destruct (active TT_PERSIST s2); cbn [negb].
  - exists s2, (l <| l_len := 0 |>). split; [reflexivity|]. split; [exact C2|]. split; [eapply same_trans; eassumption|].
    split; [exact R2|]. split; [exact M2|]. split; [exact H2|]. split; [destruct l; reflexivity|]. split; [lia|]. intros _. split; [reflexivity|congruence].
  - destruct (setpersist_some e s2 A2) as [tp Ep]. rewrite Ep.
    cbn [mbind option_bind]. apply quiet_setpersist in Ep as Q3. pose proof (quiet_conn _ _ _ _ C2 Q3) as C3.
    destruct (quiet_same _ _ Q3) as (S3 & K3 & R3).
    exists (s2 <| o_tp := tp |>), (l <| l_len := 0 |>). split; [reflexivity|]. split; [exact C3|].
    split; [eapply same_trans; [eassumption|]; eapply same_trans; eassumption|]. split; [exact R2|].
    split; [rewrite <- M2; change (smax tp = smax (o_tp s2)); unfold smax; change (t_sack tp) with (t_sack (o_tp (s2 <| o_tp := tp |>))); rewrite K3; reflexivity|].
    split; [rewrite K3; exact H2|]. split; [destruct l; reflexivity|]. split; [lia|]. intros _. split; [reflexivity|congruence].
Qed.

Lemma sbreserve_limits e ui c lim sb :
  sb_limits sb (snd (fst (sbreserve_locked e ui c lim sb))).
Proof.
  unfold sbreserve_locked, sb_limits. destruct (_ <? _); [destruct sb; reflexivity|].
  destruct (chgsbsize _ _ _ _) as [[u h] ok]. destruct ok; [|destruct sb; reflexivity].
  cbn [fst snd]. destruct (_ <? _); destruct sb; reflexivity.
Qed.

Lemma autosize_quiet e s l : quiet s (autosize e s l).
Proof.
  unfold autosize. destruct (_ && _); [|apply quiet_refl].
  pose proof (sbreserve_limits (sbe e) (ui_sbsize s) (umin (u32 (sb_hiwat (so_snd s) + tcp_autosndbuf_inc e)) (tcp_autosndbuf_max e)) (sbsize_limit e) (so_snd s)) as H.
  destruct (sbreserve_locked _ _ _ _ _) as [[ui sb] ok]. cbn [fst snd] in H. split.
  - destruct s as [tp]; destruct tp; reflexivity.
  - reflexivity.
  - cbn [update so_snd]. destruct ok; [exact H|]. unfold sb_limits in *. rewrite H. reflexivity.
Qed.

Lemma autosize_active e s l t : active t (autosize e s l) = active t s.
Proof. unfold autosize. destruct (_ && _); [|reflexivity]. destruct (sbreserve_locked _ _ _ _ _) as [[? ?] []]; reflexivity. Qed.

Lemma choose_tso_eq e s l : choose_tso e s l = l <| l_tso := l_tso (choose_tso e s l) |>.
Proof. unfold choose_tso. match goal with |- context [if ?b then _ else _] => destruct b end; destruct l; reflexivity. Qed.

Lemma choose_tso_options e s l : l_tso l = false -> l_tso (choose_tso e s l) = true -> inp_options s = None.
Proof.
  unfold choose_tso. intros Hl. destruct (bool_decide (inp_options s = None)) eqn:E; [intros _; exact (bool_decide_eq_true_1 _ E)|].
  rewrite andb_false_r. congruence.
Qed.

(** Holding the FIN back. *)
Lemma hold_fin_spec q K s l :
  conn_ok q K s -> 0 <= l_len l < 2 ^ 30 ->
  (l_sack_rxmit l = true -> exists p, l_p l = Some p /\ 0 <= hr (s_una s) p < 2 ^ 30 /\ l_off l = hr (s_una s) p) ->
  let l' := hold_fin s l in
  l' = l <| l_flags := l_flags l' |> /\ (th TH_SYN l' = th TH_SYN l) /\
  (th TH_FIN l' = true -> qlen q <= plan_start s l + l_len l).
Proof.
  intros C Hl Hp. unfold hold_fin. pose proof (co_near _ _ _ C) as [N1 N2]. pose proof (co_len _ _ _ C) as HL.
  set (from := match l_p l with Some p => _ | None => _ end).
  assert (off (s_una s) from = plan_start s l /\ 0 <= plan_start s l < 2 ^ 30) as [Ef Hf].
  { subst from. unfold plan_start. destruct (l_sack_rxmit l).
    - destruct (Hp eq_refl) as (p & -> & H1 & ->). split; [reflexivity|exact H1].
    - destruct (l_p l); split; (reflexivity || lia). }
  assert (SEQ_LT (from + l_len l) (s_una s + cc s) = (plan_start s l + l_len l <? qlen q)) as ->.
  { rewrite (cc_qlen q K s C). unfold SEQ_LT. assert (0 <= qlen q) by (unfold qlen; lia).
    rewrite (seq_sub_off (s_una s)); rewrite ?off_add, ?off_refl, ?Ef by (rewrite ?off_refl; lia); [zbool_cases; lia|lia]. }
  destruct (Z.ltb_spec (plan_start s l + l_len l) (qlen q)).
  - split; [destruct l; reflexivity|]. split; [apply th_clear_other; reflexivity|]. unfold th, clear_th. cbn [update l_flags].
    rewrite flag_cleared. discriminate.
  - split; [destruct l; reflexivity|]. split; [reflexivity|]. intros _. exact H.
Qed.

Lemma plan_spec e q K s idle :
  conn_ok q K s ->
  exists s' l, output_plan e idle s = Some (s', l) /\ conn_ok q K s' /\ same s s' /\ wire s' = wire s /\ s_max s' = s_max s /\
    snd_holes (t_sack (o_tp s')) = snd_holes (t_sack (o_tp s)) /\ plan q K s' l /\
    (0 < l_len l -> off (s_una s) (s_nxt s) <= off (s_una s) (s_nxt s')) /\
    (sack_recovery s = false -> 0 < Z.min (snd_wnd (o_tp s)) (snd_cwnd (o_tp s)) -> 0 < qlen q -> l_len l = 0 ->
     0 < off (s_una s) (s_nxt s')).
Proof.
  intros C. unfold output_plan. pose proof (begin_spec q K s idle C) as HB.
  destruct (output_begin idle s) as [s1 l1]. destruct HB as (C1 & S1 & R1 & N1 & T1 & B1 & L1).
  pose proof (sack_spec q K s1 l1 C1) as HS. rewrite L1 in HS at 1 2 3 4 5. cbn [l_sack_rxmit l_len l_off l_bytes_rxmt l_sendalot] in HS.
  rewrite (sm_una _ _ S1) in HS. specialize (HS eq_refl eq_refl eq_refl eq_refl eq_refl).
  assert (s_max s1 = s_max s /\ snd_holes (t_sack (o_tp s1)) = snd_holes (t_sack (o_tp s))) as [M1 H1] by (rewrite B1; split; reflexivity).
  assert (th TH_SYN l1 = false) as Y1 by (rewrite L1; apply outflags_syn, C).
  assert (0 <= l_sendwin l1 /\ l_sendwin l1 = Z.min (snd_wnd (o_tp s)) (snd_cwnd (o_tp s)) /\ l_opt l1 = [] /\ l_off l1 = off (s_una s) (s_nxt s1)
          /\ l_bytes_rxmt l1 = 0 /\ l_sack_rxmit l1 = false /\ l_tso l1 = false) as (W1 & W1' & O1 & F1 & Z1 & X1 & Ts1).
  { rewrite L1. pose proof (co_wnd _ _ _ C). pose proof (co_cwnd _ _ _ C). cbn. repeat split; lia. }
  clear L1. destruct (sack_retransmit s1 l1) as [s2 l2].
  destruct HS as (C2 & S2 & R2 & N2 & M2 & H2 & G2 & T2 & F2 & W2 & Ts2 & O2 & _ & U2 & B2 & P2).
  pose proof (force_spec e q K s2 l2 C2) as HF. unfold th in HF at 1. rewrite F2, W2 in HF. specialize (HF Y1 W1).
  destruct (force_data e s2 l2) as [s3 l3]. destruct HF as (Q3 & Y3 & E3 & V3 & X3).
  pose proof (quiet_conn _ _ _ _ C2 Q3) as C3. destruct (quiet_same _ _ Q3) as (S3 & K3 & R3).
  assert (same s s3) as S13 by (eapply same_trans; [exact S1|]; eapply same_trans; eassumption).
  assert (s_nxt s3 = s_nxt s1 /\ s_max s3 = s_max s /\ snd_holes (t_sack (o_tp s3)) = snd_holes (t_sack (o_tp s))) as (N3 & M3 & H3).
  { unfold s_nxt, s_max, nxt, smax in *. rewrite K3. split; [congruence|]. split; congruence. }
  assert (wire s3 = wire s) as R13 by congruence.
  assert (probe s3 = probe s2) as Pr by (unfold probe; rewrite (sm_force _ _ S3); reflexivity).
  assert (sack_recovery s3 = (flag TF_SACK_PERMIT s1 && flag TF_FASTRECOVERY s1)) as SR.
  { unfold sack_recovery. rewrite (sm_sack _ _ S3), (sm_fast _ _ S3), !G2. reflexivity. }
  (* the length *)
  set (n := data_len s3 l3).
  assert (n < 2 ^ 30 /\ (l_sack_rxmit l3 = true -> n = l_len l3) /\
    (l_sack_rxmit l3 = false -> 0 < n -> l_off l3 = off (s_una s3) (s_nxt s3) /\ l_off l3 + n <= qlen q /\
     l_off l3 + n <= Z.max (snd_wnd (o_tp s3)) (probe s3) /\
     (sack_recovery s3 = false -> l_off l3 + n <= Z.max (Z.min (snd_wnd (o_tp s3)) (snd_cwnd (o_tp s3))) (probe s3)) /\
     (sack_recovery s3 = false -> l_off l3 + n <= l_sendwin l3))) as (D1 & D2 & D3).
  { assert (l_sack_rxmit l3 = l_sack_rxmit l2 /\ l_len l3 = l_len l2 /\ l_off l3 = l_off l2 /\ l_bytes_rxmt l3 = l_bytes_rxmt l2)
      as (I1 & I2 & I3 & I4) by (rewrite E3; repeat split).
    destruct P2 as [(p & P2a & P2b & P2c & P2d & P2e & P2f & P2g)|(P2a & P2b & P2c & P2d)].
    - assert (n = l_len l3) as En by (subst n; unfold data_len; rewrite I1, P2c; reflexivity).
      split; [|split; [auto|congruence]]. rewrite En, I2. rewrite <- H2 in *.
      pose proof (co_board _ _ _ C2) as (_ & Wb & Ch & _). pose proof (chain_bounds _ _ _ _ p Ch (first_due_in _ _ _ P2b)).
      rewrite (sm_una _ _ S2), (sm_una _ _ S1) in *. lia.
    - destruct (data_len_spec q K s3 l3) as [K1 K2].
      + exact C3.
      + congruence.
      + rewrite (sm_wnd _ _ S13), (sm_cwnd _ _ S13), Pr. rewrite W1' in V3. exact V3.
      + rewrite I4. exact B2.
      + rewrite SR, I4. intros Hs. rewrite (U2 Hs). exact Z1.
      + rewrite I3, I4, (sm_una _ _ S13), N3. rewrite (sm_wnd _ _ S13), (sm_cwnd _ _ S13).
        rewrite (sm_wnd _ _ S1), (sm_cwnd _ _ S1) in P2d. destruct P2d as [P2d|P2d]; [left; congruence|].
        destruct (sack_recovery s3) eqn:Es; [right; auto|]. left. rewrite (U2 (eq_sym SR)). exact F1.
      + split; [exact K1|]. split; [congruence|]. intros _ Hn. exact (K2 Hn). }
  assert (sack_recovery s = false -> n = Z.min (qlen q) (l_sendwin l3) - off (s_una s) (s_nxt s3)) as D4.
  { intros Hs. assert (flag TF_SACK_PERMIT s1 && flag TF_FASTRECOVERY s1 = false) as Hs1.
    { unfold sack_recovery in Hs. rewrite (sm_sack _ _ S1), (sm_fast _ _ S1). exact Hs. }
    subst n. unfold data_len. rewrite E3. cbn [update l_sack_rxmit l_bytes_rxmt l_off]. rewrite (U2 Hs1), X1, Z1.
    change (0 =? 0) with true. cbn [update l_sendwin]. rewrite (cc_qlen q K s3 C3), F1, N3. reflexivity. }
  clearbody n. set (l4 := l3 <| l_len := n |>).
  assert (th TH_SYN l4 = false) as Y4 by exact Y3. rewrite (lop_syn_id s3 l4 Y4).
  destruct (shrank_spec e q K s3 l4 C3) as (s5 & l5 & -> & C5 & S5 & R5 & M5 & H5 & E5 & G5 & V5).
  change (l_len l4) with n in G5, V5.
  cbn [mbind option_bind]. pose proof (autosize_quiet e s5 l5) as Q6. set (s6 := autosize e s5 l5) in *.
  pose proof (quiet_conn _ _ _ _ C5 Q6) as C6. destruct (quiet_same _ _ Q6) as (S6 & K6 & R6).
  assert (same s s6) as S16 by (eapply same_trans; [exact S13|]; eapply same_trans; eassumption).
  assert (same s3 s6) as S36 by (eapply same_trans; eassumption).
  assert (s_nxt s6 = s_nxt s5 /\ s_max s6 = s_max s /\ snd_holes (t_sack (o_tp s6)) = snd_holes (t_sack (o_tp s)) /\ wire s6 = wire s) as (N6 & M6 & H6 & R16).
  { unfold s_nxt, s_max, nxt, smax in *. rewrite K6. split; [reflexivity|]. split; [congruence|]. split; congruence. }
  assert (forall t, active t s6 = active t s5) as A6.
  { intros t. apply autosize_active. }
  clearbody s6.
  set (l6 := choose_tso e s6 l5).
  assert (l6 = l5 <| l_tso := l_tso l6 |>) as E6 by apply choose_tso_eq.
  assert (l_sack_rxmit l6 = l_sack_rxmit l2 /\ l_p l6 = l_p l2 /\ l_off l6 = l_off l2 /\ l_sendalot l6 = l_sendalot l2 /\ l_opt l6 = [] /\ l_len l6 = Z.max n 0 /\ l_flags l6 = l_flags l3)
    as (I1 & I2 & I3 & I4 & I5 & I6 & I7).
  { assert (l_len l5 = Z.max n 0) as Hmax.
    { destruct (Z.ltb_spec n 0) as [Hneg|Hpos]; [destruct (V5 Hneg) as [-> _]; lia|destruct (G5 Hpos) as [-> _]; cbn; lia]. }
    rewrite E6, E5. cbn [update l_sack_rxmit l_p l_off l_sendalot l_opt l_len l_flags l4]. rewrite Hmax. subst l4. rewrite E3. cbn. repeat split; congruence. }
  assert (l_tso l6 = true -> inp_options s6 = None) as Ts6.
  { apply choose_tso_options. rewrite E5. subst l4. rewrite E3. cbn. congruence. }
  clearbody l6. clear E6.
  assert (0 < n -> s5 = s3) as Epos by (intros Hn; destruct (G5 ltac:(lia)) as [_ ->]; reflexivity).
  assert (l_sack_rxmit l6 = true -> exists p, l_p l6 = Some p /\ first_due (s_una s6) (snd_holes (t_sack (o_tp s6))) p /\ 0 < l_len l6 /\
      hr (s_una s6) p + l_len l6 <= he (s_una s6) p /\ l_off l6 = hr (s_una s6) p) as Hhole.
  { intros Hr. rewrite I1 in Hr. destruct P2 as [(p & P2a & P2b & P2c & P2d & P2e & P2f & P2g)|(P2a & _)]; [|congruence].
    exists p. rewrite (sm_una _ _ S16).
    assert (n = l_len l2) as En by (rewrite E3 in D2; cbn in D2; auto).
    split; [congruence|]. split; [rewrite H6, <- H1, <- H2; exact P2b|]. rewrite I6, I3, En. split; [lia|]. split; [|exact P2g]. lia. }
  assert (forall p, p ∈ snd_holes (t_sack (o_tp s6)) -> 0 <= hr (s_una s6) p < 2 ^ 30 /\ he (s_una s6) p < K /\ K <= qlen q + 1 /\ he (s_una s6) p <= qlen q) as Hh.
  { intros p Hp. pose proof (co_board _ _ _ C6) as (_ & Wb & Ch & _). pose proof (chain_bounds _ _ _ _ p Ch Hp).
    pose proof (co_holes _ _ _ C6) as Ho. rewrite Forall_forall in Ho. destruct (Ho p Hp) as [Ho1 _].
    pose proof (co_K _ _ _ C6) as HK. pose proof (co_fin _ _ _ C6) as Hfin. clear - H Wb Ho1 HK Hfin. destruct (flag TF_SENTFIN s6); lia. }
  assert (0 <= l_len l6 < 2 ^ 30) as Hlen by lia.
  destruct (hold_fin_spec q K s6 l6 C6 Hlen) as (E7 & Y7 & X7).
  { intros Hr. destruct (Hhole Hr) as (p & Hp1 & Hp2 & _ & _ & Hp3). exists p. split; [exact Hp1|]. split; [apply Hh, (first_due_in _ _ _ Hp2)|exact Hp3]. }
  set (l7 := hold_fin s6 l6) in *. clearbody l7.
  eexists s6, _. split; [reflexivity|]. split; [exact C6|]. split; [exact S16|]. split; [exact R16|]. split; [exact M6|]. split; [exact H6|].
  assert (0 < l_len l6 -> s_nxt s6 = s_nxt s3) as Nn by (intros Hn; rewrite N6, Epos by lia; reflexivity).
  split.
  2: { rewrite E7. cbn [update l_len]. split; [intros Hn; rewrite (Nn Hn), N3; exact N1|].
       intros Hs Hw Hq Hl. specialize (D4 Hs). assert (0 < l_sendwin l3) as Hw3 by lia.
       assert (s5 = s3) as E53.
       { destruct (Z.ltb_spec n 0) as [Hneg|Hpos]; [|apply (G5 Hpos)]. apply (V5 Hneg). change (l_sendwin l4) with (l_sendwin l3). lia. }
       rewrite N6, E53. lia. }
  clear D4.
  assert (l_sack_rxmit l6 = true -> sack_recovery s6 = true) as Hrec.
  { intros Hr. destruct (sack_recovery s6) eqn:Hs; [reflexivity|exfalso].
    unfold sack_recovery in Hs. rewrite (sm_sack _ _ S36), (sm_fast _ _ S36) in Hs. fold (sack_recovery s3) in Hs. rewrite SR in Hs.
    rewrite (U2 Hs) in I1. congruence. }
  assert (0 < l_len l6 -> l_off l6 = plan_start s6 l6 /\ 0 <= l_off l6 /\ l_off l6 + l_len l6 <= qlen q /\
     l_off l6 + l_len l6 <= Z.max K (Z.max (snd_wnd (o_tp s6)) (probe s6)) /\
     (sack_recovery s6 = false -> l_off l6 + l_len l6 <= Z.max (Z.min (snd_wnd (o_tp s6)) (snd_cwnd (o_tp s6))) (probe s6))) as Hdata.
  { intros Hn. unfold plan_start. destruct (l_sack_rxmit l6) eqn:Er.
    - destruct (Hhole eq_refl) as (p & Hp1 & Hp2 & Hp3 & Hp4 & Hp5). destruct (Hh p (first_due_in _ _ _ Hp2)) as (Q1 & Q2 & Q4 & Q5).
      split; [reflexivity|]. rewrite Hp5. split; [lia|]. split; [lia|]. split; [lia|]. intros Hs. rewrite (Hrec eq_refl) in Hs. discriminate.
    - assert (0 < n) as Hn' by lia. rewrite I6, (Z.max_l n 0) by lia. rewrite I3.
      assert (l_sack_rxmit l3 = false) as Er3 by (rewrite E3; cbn; congruence).
      assert (l_off l3 = l_off l2) as Eo by (rewrite E3; reflexivity).
      destruct (D3 Er3 Hn') as (K1 & K2 & K3' & K4 & _). rewrite Eo in *.
      rewrite (Nn Hn), (sm_una _ _ S36), (sm_wnd _ _ S36), (sm_cwnd _ _ S36).
      unfold probe, sack_recovery. rewrite (sm_force _ _ S36), (sm_sack _ _ S36), (sm_fast _ _ S36).
      fold (probe s3) (sack_recovery s3). split; [exact K1|]. split; [rewrite K1; apply (co_near _ _ _ C3)|]. split; [exact K2|].
      split; [lia|exact K4]. }
  assert (plan_start s6 l7 = plan_start s6 l6) as Ps by (rewrite E7; reflexivity).
  split.
  - rewrite E7. exact Hlen.
  - rewrite E7. exact Hhole.
  - rewrite E7. exact Hrec.
  - rewrite E7. intros Hn. destruct (Hdata Hn) as (K1 & K2 & K3' & _). split; [exact K1|]. split; assumption.
  - rewrite E7. intros Hn. apply (Hdata Hn).
  - rewrite E7. intros Hn. apply (Hdata Hn).
  - rewrite E7. cbn [update l_sendalot l_sack_rxmit]. rewrite I4, I1. destruct P2 as [(p & _ & _ & P2c & P2d & _)|(P2a & P2b & _)]; congruence.
  - change (th TH_SYN l7 = false). rewrite Y7. unfold th. rewrite I7. exact Y3.
  - intros Hf. change (th TH_FIN l7 = true) in Hf. specialize (X7 Hf). rewrite E7. exact X7.
  - rewrite E7. exact I5.
  - rewrite E7. exact Ts6.
  - rewrite A6, (sm_force _ _ S6). intros Hp. rewrite E7. cbn [update l_len l_sack_rxmit].
    assert (flag TF_FORCEDATA s3 = true) as Hforce by (apply andb_true_iff in Hp as [Hp _]; rewrite <- (sm_force _ _ S5); exact Hp).
    assert (sack_recovery s3 = false) as Hs3.
    { unfold sack_recovery. rewrite (co_probe _ _ _ C3 Hforce). apply andb_false_r. }
    assert (l_sack_rxmit l6 = false) as Er6 by (rewrite I1; rewrite SR in Hs3; rewrite (U2 Hs3); exact X1).
    split; [|exact Er6]. rewrite I6. destruct (Z.leb_spec n 0) as [Hn|Hn]; [clear - Hn; lia|].
    rewrite (Epos Hn) in Hp. specialize (X3 Hp).
    assert (l_sack_rxmit l3 = false) as Er3 by (rewrite E3; cbn; congruence).
    destruct (D3 Er3 Hn) as (K1 & _ & _ & _ & K5). specialize (K5 Hs3). pose proof (co_near _ _ _ C3) as [N30 _].
    clear - K1 K5 X3 N30 Hn. lia.
Qed.

(** *** The segment *)

(** The environment: room for the headers in one mbuf. *)
Definition oenv_ok (e : oenv) : Prop := 0 <= max_linkhdr e /\ max_linkhdr e + tcpiphdr_size + TCP_MAXOLEN <= MHLEN e < 2 ^ 31.

Lemma make_options_spec e q K s l :
  conn_ok q K s -> th TH_SYN l = false -> l_opt l = [] ->
  exists r opt, make_options e s l = Some (s <| rfbuf_ts := r |>, l <| l_opt := opt |>) /\ Z.of_nat (length opt) <= TCP_MAXOLEN.
Proof.
  intros C Hs Ho. unfold make_options. destruct (flag TF_NOOPT s).
  { exists (rfbuf_ts s), []. split; [|unfold TCP_MAXOLEN; cbn; lia]. do 2 f_equal; [destruct s; reflexivity|]. rewrite <- Ho. destruct l; reflexivity. }
  rewrite Hs. cbn [andb]. rewrite orb_false_r.
  set (s1 := if _ && _ && _ then _ else _).
  assert (exists r, s1 = s <| rfbuf_ts := r |>) as [r Er].
  { subst s1. destruct (_ && _ && _); [eauto|]. exists (rfbuf_ts s). destruct s; reflexivity. }
  clearbody s1. subst s1. set (to := if flag TF_SACK_PERMIT _ then _ else _).
  destruct (addoptions_fits to) as (opt & Eo & Hl & _).
  - subst to. destruct (flag TF_SACK_PERMIT _), (flag TF_RCVD_TSTMP s); [| | reflexivity..]; destruct (_ && _); reflexivity.
  - subst to. pose proof (co_blks _ _ _ C). destruct (flag TF_SACK_PERMIT _), (flag TF_RCVD_TSTMP s);
      try (cbn; lia); destruct (_ && _); cbn; lia.
  - exists r, opt. rewrite Eo. split; [reflexivity|exact Hl].
Qed.

(** The part of the data that fits. *)
Record limited (s : ocb) (l l' : locals) : Prop := {
  lm_len : 0 <= l_len l' <= l_len l;
  lm_pos : 0 < l_len l -> 0 < l_len l';
  lm_alot : l_sendalot l' = true -> l_sendalot l = true \/ (1 < l_len l /\ th TH_FIN l' = false);
  lm_same : l_sack_rxmit l' = l_sack_rxmit l /\ l_p l' = l_p l /\ l_off l' = l_off l /\ l_opt l' = l_opt l;
  lm_more : l_sendalot l = true -> l_sendalot l' = true;
  lm_fin : th TH_FIN l' = true -> l_len l' = l_len l /\ th TH_FIN l = true;
  lm_syn : th TH_SYN l' = th TH_SYN l;
  lm_size : l_tso l' = false -> l_len l' + optlen l + ipoptlen s <= t_maxopd s }.

Lemma limit_spec q K s l :
  conn_ok q K s -> 0 <= l_len l < 2 ^ 30 -> optlen l <= TCP_MAXOLEN -> (l_tso l = true -> inp_options s = None) ->
  limited s l (limit_len s l).
Proof.
  intros C Hl Ho Ht. pose proof (co_opd _ _ _ C) as [P1 P2]. assert (0 <= optlen l) as Ho0 by (unfold optlen; lia). unfold TCP_MAXOLEN in *.
  unfold limit_len. destruct (Z.ltb_spec (t_maxopd s) (l_len l + optlen l + ipoptlen s)) as [Hbig|Hfit].
  2: { split; cbn [update l_len l_sendalot l_sack_rxmit l_p l_off l_opt l_tso]; auto; try lia. }
  assert (th TH_SYN (clear_th TH_FIN l) = th TH_SYN l /\ th TH_FIN (clear_th TH_FIN l) = false) as [Y F].
  { split; [apply th_clear_other; reflexivity|]. unfold th, clear_th. cbn [update l_flags]. apply flag_cleared. }
  assert (hdrlen (clear_th TH_FIN l) = tcpiphdr_size + optlen l /\ optlen (clear_th TH_FIN l) = optlen l) as [Eh Eo] by (split; reflexivity).
  cbn [update l_tso clear_th]. change (l_tso (clear_th TH_FIN l)) with (l_tso l).
  destruct (l_tso l) eqn:Et.
  - assert (ipoptlen s = 0) as Ei by (unfold ipoptlen; rewrite (Ht eq_refl); reflexivity).
    rewrite Eh. rewrite (u32_small (IP_MAXPACKET - _)) by (unfold IP_MAXPACKET, tcpiphdr_size; lia).
    set (room := IP_MAXPACKET - (tcpiphdr_size + optlen l)).
    set (l1 := if room <? _ then _ else _).
    assert (l_len l1 = Z.min (l_len l) room /\ th TH_SYN l1 = th TH_SYN l /\ th TH_FIN l1 = false /\ optlen l1 = optlen l /\
      l_sack_rxmit l1 = l_sack_rxmit l /\ l_p l1 = l_p l /\ l_off l1 = l_off l /\ l_opt l1 = l_opt l /\ l_tso l1 = true /\
      (l_sendalot l = true -> l_sendalot l1 = true)) as (A1 & A2 & A3 & A4 & A5 & A6 & A7 & A8 & A9 & A10).
    { subst l1. change (l_len (clear_th TH_FIN l)) with (l_len l). destruct (Z.ltb_spec room (l_len l));
        (split; [cbn [update l_len clear_th]; lia|]); (split; [exact Y|]); (split; [exact F|]); repeat split; auto. }
    clearbody l1. assert (65000 <= room) as Hroom by (subst room; unfold IP_MAXPACKET, tcpiphdr_size; lia).
    set (l2 := if _ && _ then _ else _).
    assert (0 < l_len l2 <= l_len l1 /\ th TH_SYN l2 = th TH_SYN l /\ th TH_FIN l2 = false /\
      l_sack_rxmit l2 = l_sack_rxmit l /\ l_p l2 = l_p l /\ l_off l2 = l_off l /\ l_opt l2 = l_opt l /\ l_tso l2 = true /\
      (l_sendalot l = true -> l_sendalot l2 = true)) as (B1 & B2 & B3 & B4 & B5 & B6 & B7 & B8 & B9).
    { subst l2. destruct (_ && _); [|repeat split; auto; lia]. cbn [update l_len l_sack_rxmit l_p l_off l_opt l_tso l_sendalot].
      split; [|repeat split; auto]. rewrite A4, A1. rewrite (u32_small (t_maxopd s - optlen l)) by lia.
      set (k := t_maxopd s - optlen l). assert (0 < k <= Z.min (l_len l) room) as Hk by lia.
      rewrite Z.rem_mod_nonneg by lia. pose proof (Z.mod_pos_bound (Z.min (l_len l) room) k ltac:(lia)).
      assert (Z.min (l_len l) room mod k < Z.min (l_len l) room); [|lia].
      destruct (Z.eq_dec (Z.min (l_len l) room) k) as [->|]; [rewrite Z.mod_same; lia|lia]. }
    clearbody l2. set (l3 := if flag TF_NEEDFIN s then _ else _).
    assert (l_len l3 = l_len l2 /\ th TH_SYN l3 = th TH_SYN l /\ th TH_FIN l3 = false /\
      l_sack_rxmit l3 = l_sack_rxmit l /\ l_p l3 = l_p l /\ l_off l3 = l_off l /\ l_opt l3 = l_opt l /\ l_tso l3 = true /\
      (l_sendalot l = true -> l_sendalot l3 = true)) as (D1 & D2 & D3 & D4 & D5 & D6 & D7 & D8 & D9).
    { subst l3. destruct (flag TF_NEEDFIN s); repeat split; auto. }
    clearbody l3. split; auto; try lia; try congruence.
    intros _. right. split; [lia|exact D3].
  - rewrite Eo. rewrite u32_small by lia.
    split; cbn [update l_len l_sendalot l_sack_rxmit l_p l_off l_opt l_tso]; auto; try lia.
    + intros _. right. split; [lia|exact F].
    + intros Hf. change (th TH_FIN (clear_th TH_FIN l) = true) in Hf. congruence.
Qed.

(** *** The payload *)

Lemma copied_contents c : copied c = zeroed <$> contents c.
Proof.
  unfold copied, contents. induction c as [|m c IH]; [reflexivity|]. cbn [map concat]. rewrite IH, fmap_app. f_equal.
  unfold mbuf_read, cells. destruct (m_hole m); [symmetry; apply fmap_replicate|]. rewrite drop_0, zeroed_some. reflexivity.
Qed.

(** The stage that reads the send buffer. *)
Record fetched (q : list Z) (s s' : ocb) : Prop := {
  ft_eq : s' = s <| t_sndrexmitpack := t_sndrexmitpack s' |> <| so_snd := so_snd s' |> <| mbufs := mbufs s' |>;
  ft_holds : holds q (so_snd s') }.

Lemma get_mbuf_fetched q s n : holds q (so_snd s) -> fetched q s (fst (get_mbuf (s <| t_sndrexmitpack := n |>))).
Proof.
  intros H. unfold get_mbuf. cbn [update mbufs]. destruct (mbufs s) as [|[i|] rest] eqn:E; cbn [fst]; split; try exact H; rewrite ?E; try reflexivity.
Qed.

Lemma fetched_trans q s1 s2 s3 : fetched q s1 s2 -> fetched q s2 s3 -> fetched q s1 s3.
Proof. intros [E1 _] [E2 H]. split; [|exact H]. rewrite E2 at 1. rewrite E1. reflexivity. Qed.

Lemma fetched_conn q K s s' : conn_ok q K s -> fetched q s s' -> conn_ok q K s'.
Proof.
  intros [] [E H]. split; first [exact H|rewrite E; assumption|assumption].
Qed.

Lemma get_data_spec e q K s l :
  conn_ok q K s -> oenv_ok e -> 0 <= l_len l < 2 ^ 29 -> optlen l <= TCP_MAXOLEN ->
  (0 < l_len l -> 0 <= l_off l /\ l_off l + l_len l <= qlen q) ->
  exists s' r, get_data e s l = Some (s', r) /\ fetched q s s' /\
    match r with
    | inl err => err = ENOBUFS /\ (l_len l = 0 -> forall i rest, mbufs s <> Some i :: rest)
    | inr data => data = take (Z.to_nat (l_len l)) (drop (Z.to_nat (l_off l)) q)
    end.
Proof.
  intros C [He1 He2] Hl Ho Hd. unfold get_data.
  match goal with |- context [get_mbuf ?x] => set (s0 := x) end.
  assert (exists n, s0 = s <| t_sndrexmitpack := n |>) as [n ->].
  { subst s0. match goal with |- context [if ?b then _ else _] => destruct b end; [eauto|].
    exists (t_sndrexmitpack s). destruct s; reflexivity. }
  pose proof (get_mbuf_fetched q s n (co_holds _ _ _ C)) as F1.
  assert (forall i rest, mbufs s = Some i :: rest -> snd (get_mbuf (s <| t_sndrexmitpack := n |>)) = true) as G1.
  { intros i rest E. unfold get_mbuf. cbn [update mbufs]. rewrite E. reflexivity. }
  destruct (get_mbuf _) as [s1 ok]. cbn [fst snd] in F1, G1. pose proof (fetched_conn _ _ _ _ C F1) as C1.
  destruct ok; cbn [negb].
  2: { eexists _, _. split; [reflexivity|]. split; [exact F1|]. split; [reflexivity|]. intros _ i rest E.
       specialize (G1 i rest E). discriminate. }
  clear G1.
  destruct (Z.eqb_spec (l_len l) 0) as [E0|E0]; [rewrite E0; eexists _, _; split; [reflexivity|auto]|].
  destruct (Hd ltac:(lia)) as [Hd1 Hd2]. pose proof (co_holds _ _ _ C1) as [Hok Hc]. pose proof (co_len _ _ _ C) as HL.
  rewrite !u32_small by lia.
  destruct (sbsndptr_spec (so_snd s1) (l_off l) (l_len l) Hok Hd1 ltac:(lia)) as (sb & ms & moff & -> & K1 & K2 & _ & K3 & K4 & K5 & K6 & K7).
  { change (sb_cc (so_snd s1)) with (cc s1). rewrite (cc_qlen q K s1 C1). exact Hd2. }
  cbn [mbind option_bind]. specialize (K7 0%nat). rewrite !Nat.add_0_r in K7.
  assert (forall al, fetched q s (s1 <| so_snd := sb |> <| mbufs := al |>)) as F2.
  { intros al. eapply fetched_trans; [exact F1|]. split; [destruct s1; reflexivity|]. split; [exact K1|]. cbn. rewrite K2. exact Hc. }
  rewrite !s32_small by lia. destruct (_ <=? _).
  - rewrite m_copydata_spec by (assumption || lia). eexists _, _. split; [reflexivity|]. split.
    + replace (s1 <| so_snd := sb |>) with (s1 <| so_snd := sb |> <| mbufs := mbufs s1 |>); [apply F2|destruct s1; reflexivity].
    + rewrite K7, Hc, <- fmap_drop, <- fmap_take, zeroed_some. reflexivity.
  - destruct (m_copym_spec (mbufs (s1 <| so_snd := sb |>)) ms moff (l_len l) K5 K3) as (r & al & -> & Hr);
      [unfold M_COPYALL; lia|exact K4|]. cbn [mbind option_bind].
    destruct r as [c|]; eexists _, _; (split; [reflexivity|]); (split; [apply F2|]); [|split; [reflexivity|contradiction]].
    rewrite copied_contents, Hr, K7, Hc, <- fmap_drop, <- fmap_take, zeroed_some. reflexivity.
Qed.

(** *** Header, sequence numbers, timers *)

Definition core_flags : list Z := [TF_SENTFIN; TF_NEEDSYN; TF_FORCEDATA; TF_FASTRECOVERY; TF_SACK_PERMIT].

(** What the invariant and the bounds depend on is unchanged. *)
Record kept (s s' : ocb) : Prop := {
  kp_sack : t_sack (o_tp s') = t_sack (o_tp s);
  kp_wnd : snd_wnd (o_tp s') = snd_wnd (o_tp s);
  kp_cwnd : snd_cwnd (o_tp s') = snd_cwnd (o_tp s);
  kp_rxtcur : t_rxtcur (o_tp s') = t_rxtcur (o_tp s);
  kp_state : t_state (o_tp s') = t_state (o_tp s);
  kp_maxseg : t_maxseg (o_tp s') = t_maxseg (o_tp s);
  kp_maxopd : t_maxopd s' = t_maxopd s;
  kp_options : inp_options s' = inp_options s;
  kp_snd : so_snd s' = so_snd s;
  kp_results : ip_results s' = ip_results s;
  kp_wire : wire s' = wire s;
  kp_flags : Forall (fun f => flag f s' = flag f s) core_flags }.

Lemma kept_refl s : kept s s.
Proof. split; try reflexivity. apply Forall_forall. reflexivity. Qed.
Lemma kept_trans a b c : kept a b -> kept b c -> kept a c.
Proof.
  intros [A1 A2 A3 A3' A4 A5 A6 A7 A8 A9 A10 A11] [B1 B2 B3 B3' B4 B5 B6 B7 B8 B9 B10 B11]. split; try congruence.
  rewrite Forall_forall in *. intros f Hf. rewrite B11, A11 by exact Hf. reflexivity.
Qed.

Lemma kept_flag s s' f : kept s s' -> f ∈ core_flags -> flag f s' = flag f s.
Proof. intros [_ _ _ _ _ _ _ _ _ _ _ F] Hf. rewrite Forall_forall in F. apply F, Hf. Qed.

Ltac core := unfold core_flags; repeat (apply elem_of_cons; first [left; reflexivity|right]).

Lemma kept_conn q K s s' : conn_ok q K s -> kept s s' -> conn_ok q K s'.
Proof.
  intros [] Hk. pose proof (fun f => kept_flag s s' f Hk) as F. destruct Hk.
  assert (ipoptlen s' = ipoptlen s) as Ei by (unfold ipoptlen; rewrite kp_options0; reflexivity).
  assert (s_una s' = s_una s /\ s_nxt s' = s_nxt s /\ s_max s' = s_max s) as (Eu & En & Em)
    by (unfold s_una, s_nxt, s_max, una, nxt, smax; rewrite kp_sack0; auto).
  split; rewrite ?Eu, ?En, ?Em, ?kp_sack0, ?kp_wnd0, ?kp_cwnd0, ?kp_state0, ?kp_maxseg0, ?kp_maxopd0, ?kp_snd0, ?Ei;
    rewrite ?(F TF_SENTFIN), ?(F TF_NEEDSYN), ?(F TF_FORCEDATA), ?(F TF_FASTRECOVERY) by core; auto.
Qed.

Lemma kept_same s s' : kept s s' -> same s s'.
Proof.
  intros Hk. pose proof (fun f => kept_flag s s' f Hk) as F. destruct Hk. split; try assumption; try (apply F; core).
  - unfold s_una, una. rewrite kp_sack0. reflexivity.
  - exists []. rewrite kp_results0. reflexivity.
Qed.

(** Setting or clearing a flag that is not one of these. *)
Lemma kept_set g s : Forall (fun f => Z.land g f = 0) core_flags -> kept s (on_tp (set_flag g) s).
Proof.
  intros H. split; try reflexivity. rewrite Forall_forall in *. intros f Hf. apply flag_set_other, H, Hf.
Qed.
Lemma kept_clear g s : Forall (fun f => Z.land g f = 0) core_flags -> kept s (on_tp (clear_flag g) s).
Proof.
  intros H. split; try reflexivity. rewrite Forall_forall in *. intros f Hf. apply flag_cleared_other, H, Hf.
Qed.
Ltac other_flags := repeat constructor.

Lemma kept_on_sack f a b : kept a b -> kept (on_sack f a) (on_sack f b).
Proof. intros []. split; cbn; try assumption. rewrite kp_sack0. reflexivity. Qed.

(** The timers. *)
Lemma kept_activate e t d s : kept s (activate e t d s).
Proof. rewrite activate_eq. split; try reflexivity. apply Forall_forall. reflexivity. Qed.

Lemma kept_field s tp : kept s (s <| o_tp := (o_tp s) <| t_rxtshift := tp |> |>).
Proof. split; try reflexivity. apply Forall_forall. reflexivity. Qed.

Lemma kept_start_rexmt e s b : kept s (start_rexmt e s b).
Proof.
  unfold start_rexmt. destruct (_ && _); [|apply kept_refl].
  eapply kept_trans; [|apply kept_activate]. destruct (active TT_PERSIST s); [|apply kept_refl].
  eapply kept_trans; [apply kept_activate|apply kept_field].
Qed.

(** [mark_ecn] takes the FIN that was sent back into account and clears a flag;
    the flags of the segment that matter do not change. *)
Definition unsend_fin (s : ocb) (l : locals) : ocb :=
  if th TH_FIN l && flag TF_SENTFIN s && (s_nxt s =? s_max s) then put_nxt (u32 (s_nxt s - 1)) s else s.

(** The locals with other header flags, SYN and FIN excepted, and another window. *)
Record reflagged (l l' : locals) : Prop := {
  rf_eq : l' = l <| l_flags := l_flags l' |> <| l_recwin := l_recwin l' |>;
  rf_syn : th TH_SYN l' = th TH_SYN l;
  rf_fin : th TH_FIN l' = th TH_FIN l }.

Lemma reflagged_refl l : reflagged l l.
Proof. split; [destruct l|..]; reflexivity. Qed.
Lemma reflagged_trans a b c : reflagged a b -> reflagged b c -> reflagged a c.
Proof. intros [A1 A2 A3] [B1 B2 B3]. split; [rewrite B1 at 1; rewrite A1; reflexivity|congruence..]. Qed.
Lemma reflagged_set f l : Z.land f TH_SYN = 0 -> Z.land f TH_FIN = 0 -> reflagged l (set_th f l).
Proof. intros H1 H2. split; [destruct l; reflexivity|apply th_set_other; assumption..]. Qed.

Lemma mark_ecn_spec e s l :
  let '(s', l', _) := mark_ecn e s l in kept (unsend_fin s l) s' /\ t_timers (o_tp s') = t_timers (o_tp s) /\ reflagged l l'.
Proof.
  unfold mark_ecn. fold (unsend_fin s l). set (s0 := unsend_fin s l).
  assert (t_timers (o_tp s0) = t_timers (o_tp s)) as Et by (subst s0; unfold unsend_fin; destruct (_ && _); reflexivity).
  clearbody s0. set (l1 := if _ && _ && _ then _ else _).
  assert (reflagged l l1) as R1.
  { subst l1. destruct (_ && _); [apply reflagged_set; reflexivity|apply reflagged_refl]. }
  clearbody l1. match goal with |- context [if ?b then _ else (s0, l1, false)] => destruct b end; [|split; [apply kept_refl|auto]].
  destruct (flag TF_ECN_SND_CWR s0).
  - split; [apply kept_clear; other_flags|]. split; [exact Et|]. eapply reflagged_trans; [exact R1|].
    destruct (flag TF_ECN_SND_ECE _); [eapply reflagged_trans|]; apply reflagged_set; reflexivity.
  - split; [apply kept_refl|]. split; [exact Et|]. eapply reflagged_trans; [exact R1|].
    destruct (flag TF_ECN_SND_ECE _); [apply reflagged_set; reflexivity|apply reflagged_refl].
Qed.

(** The segment and the state it is made from. *)
Lemma make_segment_spec e s l data :
  let '(s', l', seg) := make_segment e s l data in
  kept (fst (choose_seq (unsend_fin s l) l)) s' /\ t_timers (o_tp s') = t_timers (o_tp s) /\ reflagged l l' /\
  th_seq seg = snd (choose_seq (unsend_fin s l) l) /\ th_data seg = data /\ th_opt seg = l_opt l /\
  has_flag (th_flags seg) TH_SYN = th TH_SYN l /\ has_flag (th_flags seg) TH_FIN = th TH_FIN l /\
  (tso_segsz seg = None -> l_tso l = false).
Proof.
  unfold make_segment. set (l1 := if _ && _ then set_th TH_PUSH l else l).
  assert (reflagged l l1) as R1 by (subst l1; destruct (_ && _); [apply reflagged_set; reflexivity|apply reflagged_refl]).
  pose proof (mark_ecn_spec e s l1) as M. destruct (mark_ecn e s l1) as [[s2 l2] ect]. destruct M as (K2 & T2 & R2).
  assert (unsend_fin s l1 = unsend_fin s l) as Eu by (unfold unsend_fin; rewrite (rf_fin _ _ R1); reflexivity).
  rewrite Eu in K2. clear Eu. pose proof (reflagged_trans _ _ _ R1 R2) as R. clear R1 R2. clearbody l1.
  set (s0 := unsend_fin s l) in *.
  assert (t_timers (o_tp s0) = t_timers (o_tp s)) as Et by (subst s0; unfold unsend_fin; destruct (_ && _); reflexivity).
  assert (kept (fst (choose_seq s0 l)) (fst (choose_seq s2 l2)) /\ snd (choose_seq s2 l2) = snd (choose_seq s0 l) /\
          t_timers (o_tp (fst (choose_seq s2 l2))) = t_timers (o_tp s)) as (K3 & E3 & T3).
  { assert (rexmit_hole l2 = rexmit_hole l /\ l_len l2 = l_len l) as [Er El] by (rewrite (rf_eq _ _ R); split; reflexivity).
    unfold choose_seq. rewrite Er, El. destruct (rexmit_hole l); cbn [fst snd].
    - split; [apply kept_on_sack, K2|]. split; [reflexivity|exact T2].
    - split; [exact K2|]. split; [|exact T2]. unfold s_nxt, s_max, nxt, smax. rewrite (kp_sack _ _ K2).
      assert (active TT_PERSIST s2 = active TT_PERSIST s0) as -> by (unfold active, tcp_timer_active; rewrite T2, Et; reflexivity).
      assert (th (Z.lor TH_SYN TH_FIN) l2 = th (Z.lor TH_SYN TH_FIN) l) as ->; [|reflexivity].
      pose proof (rf_syn _ _ R) as F1. pose proof (rf_fin _ _ R) as F2. unfold th, has_flag in *. rewrite !Z.land_lor_distr_r.
      destruct (Z.eqb_spec (Z.land (l_flags l2) TH_SYN) 0), (Z.eqb_spec (Z.land (l_flags l) TH_SYN) 0); try discriminate;
      destruct (Z.eqb_spec (Z.land (l_flags l2) TH_FIN) 0), (Z.eqb_spec (Z.land (l_flags l) TH_FIN) 0); try discriminate;
      rewrite ?e0, ?e1, ?e2, ?e3; try reflexivity;
      f_equal; zbool_cases; try reflexivity; exfalso; rewrite ?Z.lor_eq_0_iff in *; tauto. }
  clearbody s0. destruct (choose_seq s2 l2) as [s3 seq]. cbn [fst snd] in K3, E3, T3.
  set (l3 := l2 <| l_recwin := _ |>). assert (reflagged l l3) as R3.
  { eapply reflagged_trans; [exact R|]. split; [destruct l2; reflexivity|reflexivity..]. }
  clearbody l3. set (s4 := if _ =? 0 then _ else on_tp _ s3).
  assert (kept s3 s4 /\ t_timers (o_tp s4) = t_timers (o_tp s3)) as [K4 T4].
  { subst s4. destruct (_ =? 0); (split; [|reflexivity]).
    - eapply kept_trans; [|apply kept_set; other_flags]. split; try reflexivity. other_flags.
    - apply kept_clear. other_flags. }
  clearbody s4. destruct (SEQ_GT (snd_up s4) (s_nxt s4)).
  - split; [eapply kept_trans; eassumption|]. split; [congruence|]. split; [exact R3|].
    cbn [th_seq th_data th_opt th_flags tso_segsz]. split; [exact E3|]. split; [reflexivity|]. rewrite (rf_eq _ _ R3) at 1.
    split; [reflexivity|]. rewrite !flag_set_other by reflexivity. split; [apply R3|]. split; [apply R3|].
    rewrite (rf_eq _ _ R3). cbn [update l_tso]. destruct (l_tso l); [discriminate|reflexivity].
  - split; [eapply kept_trans; [exact K3|]; eapply kept_trans; [exact K4|]; split; try reflexivity; other_flags|].
    split; [cbn [update o_tp]; congruence|]. split; [exact R3|].
    cbn [th_seq th_data th_opt th_flags tso_segsz]. split; [exact E3|]. split; [reflexivity|]. rewrite (rf_eq _ _ R3) at 1.
    split; [reflexivity|]. split; [apply R3|]. split; [apply R3|].
    rewrite (rf_eq _ _ R3). cbn [update l_tso]. destruct (l_tso l); [discriminate|reflexivity].
Qed.

(** A call of [advance] for a segment that is not a probe. *)
Lemma advance_spec e s l :
  flag TF_FORCEDATA s && active TT_PERSIST s = false -> th TH_SYN l = false ->
  let s1 := if th TH_FIN l then on_tp (set_flag TF_SENTFIN) (put_nxt (u32 (s_nxt s + 1)) s) else s in
  let s2 := put_nxt (u32 (s_nxt s1 + l_len l)) s1 in
  kept (if l_sack_rxmit l then s1 else if SEQ_GT (s_nxt s2) (s_max s2) then put_max (s_nxt s2) s2 else s2) (advance e s l).
Proof.
  intros Hf Hs s1 s2. unfold advance. rewrite <- negb_andb, Hf, Hs. cbn [negb]. cbv zeta. fold s1. destruct (l_sack_rxmit l); [apply kept_start_rexmt|].
  fold s2. eapply kept_trans; [|apply kept_start_rexmt]. destruct (SEQ_GT (s_nxt s2) (s_max s2)); [|apply kept_refl].
  destruct (_ =? 0); [|apply kept_refl]. split; try reflexivity. other_flags.
Qed.

Lemma advance_wire e s l : wire (advance e s l) = wire s /\ ip_results (advance e s l) = ip_results s.
Proof.
  unfold advance. destruct (_ || _).
  - destruct (l_sack_rxmit l); [|destruct (SEQ_GT _ _); [destruct (_ =? 0)|]];
    match goal with |- context [start_rexmt e ?x ?b] => destruct (kept_start_rexmt e x b) as [_ _ _ _ _ _ _ _ _ K1 K2 _]; rewrite K1, K2 end;
    destruct (th TH_SYN l), (th TH_FIN l); split; reflexivity.
  - destruct (SEQ_GT _ _), (th TH_FIN l); split; reflexivity.
Qed.

(** *** Progress *)

(** What is left to retransmit. *)
Fixpoint unsent (base : Z) (holes : list sackhole) : Z :=
  match holes with [] => 0 | h :: rest => (he base h - hr base h) + unsent base rest end.

Lemma unsent_app base A B : unsent base (A ++ B) = unsent base A + unsent base B.
Proof. induction A as [|h A IH]; cbn [app unsent]; [reflexivity|rewrite IH; lia]. Qed.

Lemma unsent_bounds base lo hi l : chain base lo hi l -> 0 <= unsent base l <= hi - lo.
Proof.
  revert lo. induction l as [|h l IH]; intros lo; cbn [chain unsent]; [lia|].
  intros (H1 & H2 & H3). apply IH in H3. lia.
Qed.

Lemma set_rxmit_split A p B v : NoDup (map h_id (A ++ p :: B)) ->
  set_rxmit (h_id p) v (A ++ p :: B) = A ++ (p <| h_rxmit := v |>) :: B.
Proof.
  intros Hn. assert (forall L, h_id p ∉ map h_id L -> set_rxmit (h_id p) v L = L) as Hid.
  { induction L as [|h L IH]; [reflexivity|]. cbn [map set_rxmit]. intros Hin. apply not_elem_of_cons in Hin as [H1 H2].
    destruct (Z.eqb_spec (h_id h) (h_id p)); [congruence|]. f_equal. apply IH, H2. }
  rewrite map_app in Hn. apply NoDup_app in Hn as (_ & Hd & Hn). cbn [map] in Hn, Hd. apply NoDup_cons in Hn as [Hn _].
  unfold set_rxmit. rewrite map_app. cbn [map]. rewrite Z.eqb_refl. unfold set_rxmit in Hid.
  rewrite !Hid; [reflexivity|exact Hn|]. intros Hin. apply (Hd _ Hin). left.
Qed.

Lemma in_order_step base A p p' B :
  in_order base (A ++ p :: B) -> Forall (fun h => hr base h = he base h) A -> hr base p < he base p ->
  in_order base (A ++ p' :: B).
Proof.
  intros Ho HA Hp C x D E Hx. specialize (Ho A p B eq_refl Hp).
  assert (forall y, y ∈ B -> hr base y = hs base y) as HB by (rewrite Forall_forall in Ho; exact Ho).
  apply Forall_forall. intros y Hy. apply HB.
  apply app_eq_inv in E as [(k & -> & E)|(k & -> & E)].
  - destruct k as [|z k]; cbn [app] in E.
    + injection E as <- ->. exact Hy.
    + exfalso. injection E as <- E. rewrite Forall_forall in HA. specialize (HA x ltac:(apply elem_of_app; right; left)). lia.
  - destruct k as [|z k]; cbn [app] in E.
    + injection E as <- ->. exact Hy.
    + injection E as <- ->. apply elem_of_app. right. right. exact Hy.
Qed.

(** The retransmission of [n] bytes of the hole that is due. *)
Lemma add_rexmit_conn q K s p n :
  conn_ok q K s -> first_due (s_una s) (snd_holes (t_sack (o_tp s))) p -> 0 < n -> hr (s_una s) p + n <= he (s_una s) p ->
  let s' := on_sack (add_rexmit p n) s in
  conn_ok q K s' /\ unsent (s_una s) (snd_holes (t_sack (o_tp s'))) = unsent (s_una s) (snd_holes (t_sack (o_tp s))) - n.
Proof.
  intros C (A & B & E & HA) Hn Hp s'. set (p' := p <| h_rxmit := u32 (h_rxmit p + n) |>).
  pose proof (co_board _ _ _ C) as Wf. pose proof Wf as (_ & W2 & Ch & W4 & _ & _ & W7 & _). rewrite E in Ch.
  pose proof (chain_bounds _ _ _ _ p Ch ltac:(apply elem_of_app; right; left)) as (P1 & P2 & P3 & P4).
  assert (hr (s_una s) p' = hr (s_una s) p + n) as Er.
  { unfold hr in *. subst p'. cbn [update h_rxmit]. rewrite off_u32. apply off_add. unfold he in *. lia. }
  assert (snd_holes (t_sack (o_tp s')) = A ++ p' :: B) as Es.
  { subst s'. cbn. rewrite E. apply set_rxmit_split. rewrite E in W7. apply NoDup_app in W7 as (W7 & _). exact W7. }
  pose proof (retransmitted_before _ _ _ _ _ Ch ltac:(rewrite <- E; apply C) ltac:(lia)) as Hr.
  assert (t_sack (o_tp s') = (t_sack (o_tp s)) <| sack_bytes_rexmit := sack_bytes_rexmit (t_sack (o_tp s)) - (hr (s_una s) p - hs (s_una s) p) + (hr (s_una s) p' - hs (s_una s) p') |>
            <| snd_holes := A ++ p' :: B |>) as Ek.
  { subst s'. unfold on_sack, on_tp, add_rexmit. cbn [update o_tp t_sack]. rewrite E.
    rewrite set_rxmit_split by (rewrite E in W7; apply NoDup_app in W7 as (W7 & _); exact W7). fold p'.
    change (hs (s_una s) p') with (hs (s_una s) p). rewrite Er. rewrite s32_small by (rewrite W4, E; lia).
    replace (sack_bytes_rexmit (t_sack (o_tp s)) - (hr (s_una s) p - hs (s_una s) p) + (hr (s_una s) p + n - hs (s_una s) p))
      with (sack_bytes_rexmit (t_sack (o_tp s)) + n) by lia. reflexivity. }
  assert (board_wf (s_una s) 0 (off (s_una s) (s_max s)) (t_sack (o_tp s'))) as Wf'.
  { rewrite Ek. apply (replace_hole_wf (s_una s) 0 _ _ A p p' B Wf E); rewrite ?Er; try reflexivity;
      change (hs (s_una s) p') with (hs (s_una s) p); change (he (s_una s) p') with (he (s_una s) p); lia. }
  split; [|rewrite Es, E, !unsent_app; cbn [unsent]; rewrite Er; change (he (s_una s) p') with (he (s_una s) p); lia].
  destruct C. split; try assumption.
  - change (s_una s') with (s_una s). change (s_max s') with (s_max s). intros _. apply co_fack0. rewrite E. destruct A; discriminate.
  - rewrite Es. change (s_una s') with (s_una s). rewrite E in co_holes0. apply Forall_app in co_holes0 as [H1 H2]. inversion H2 as [|? ? (H3 & H4 & H5) H6]; subst.
    apply Forall_app. split; [exact H1|]. constructor; [|exact H6]. split; [exact H3|]. split; [exact H4|]. apply u32_range.
  - rewrite Es. change (s_una s') with (s_una s). rewrite E in co_order0. eapply in_order_step; [exact co_order0|exact HA|lia].
Qed.

(** Moving [snd_nxt] past [n] more bytes of the buffer, and [snd_max] with it. *)
Lemma advance_conn q K s n :
  conn_ok q K s -> 0 <= n -> off (s_una s) (s_nxt s) + n <= qlen q ->
  let s2 := put_nxt (u32 (s_nxt s + n)) s in
  let s' := if SEQ_GT (s_nxt s2) (s_max s2) then put_max (s_nxt s2) s2 else s2 in
  conn_ok q K s' /\ off (s_una s) (s_nxt s') = off (s_una s) (s_nxt s) + n /\
  snd_holes (t_sack (o_tp s')) = snd_holes (t_sack (o_tp s)) /\ same s s' /\ wire s' = wire s.
Proof.
  intros C Hn Hq s2 s'. pose proof (co_near _ _ _ C) as [N1 N2]. pose proof (co_len _ _ _ C) as HL.
  assert (off (s_una s) (s_nxt s2) = off (s_una s) (s_nxt s) + n) as E2.
  { change (s_nxt s2) with (u32 (s_nxt s + n)). rewrite off_u32. apply off_add. lia. }
  assert (0 <= s_nxt s2 < 2 ^ 32) as H2 by (apply u32_range).
  assert (SEQ_GT (s_nxt s2) (s_max s2) = (off (s_una s) (s_max s) <? off (s_una s) (s_nxt s2))) as Eg.
  { change (s_max s2) with (s_max s). apply SEQ_GT_off; unfold near; lia. }
  pose proof (co_fin _ _ _ C) as Hf.
  subst s'. rewrite Eg. destruct (Z.ltb_spec (off (s_una s) (s_max s)) (off (s_una s) (s_nxt s2))) as [Hlt|Hle].
  - split; [|split; [exact E2|split; [reflexivity|split; [split; try reflexivity; exists []; reflexivity|reflexivity]]]].
    assert (s_una (put_max (s_nxt s2) s2) = s_una s /\ s_max (put_max (s_nxt s2) s2) = s_nxt s2 /\ s_nxt (put_max (s_nxt s2) s2) = s_nxt s2) as (U & M & N) by (repeat split).
    destruct C. split; rewrite ?U, ?M, ?N; try assumption.
    + destruct co_board0 as (W1 & W2 & W3 & W4). split; [exact W1|]. split; [lia|]. split; [|exact W4].
      eapply holes_chain_weaken; [exact W3|lia|lia].
    + intros Hh. destruct (co_fack0 Hh) as [F1 F2]. split; [change (t_sack (o_tp (put_max (s_nxt s2) s2))) with ((t_sack (o_tp s2)) <| snd_max := s_nxt s2 |>); cbn [update snd_fack]; change (snd_fack (t_sack (o_tp s2))) with (snd_fack (t_sack (o_tp s))); lia|exact F2].
    + lia.
    + split; [apply co_word0|]. split; exact H2.
    + lia.
    + change (flag TF_SENTFIN (put_max (s_nxt s2) s2)) with (flag TF_SENTFIN s). destruct (flag TF_SENTFIN s); lia.
  - split; [apply put_nxt_conn; [exact C|exact H2|change (u32 (s_nxt s + n)) with (s_nxt s2); lia]|].
    split; [exact E2|]. split; [reflexivity|]. split; [apply put_nxt_same|reflexivity].
Qed.

(** *** The segments *)

(** A segment that a connection in state [s] may send: its data are the bytes of
    the send buffer at its sequence number, within the peer's window (beyond it
    only to retransmit, before [K]) and, outside SACK recovery, within the
    congestion window, except for the byte of a window probe; a FIN follows the
    last byte; a segment that the interface does not cut fits the path. *)
Record good_seg (q : list Z) (K : Z) (s : ocb) (g : segment) : Prop := {
  gs_data : forall n, n = Z.of_nat (length (th_data g)) -> 0 < n -> let o := off (s_una s) (th_seq g) in
    0 <= o /\ o + n <= qlen q /\ th_data g = take (Z.to_nat n) (drop (Z.to_nat o) q) /\
    o + n <= Z.max K (Z.max (snd_wnd (o_tp s)) (probe s)) /\
    (sack_recovery s = false -> o + n <= Z.max (Z.min (snd_wnd (o_tp s)) (snd_cwnd (o_tp s))) (probe s));
  gs_fin : has_flag (th_flags g) TH_FIN = true -> off (s_una s) (th_seq g) + Z.of_nat (length (th_data g)) = qlen q;
  gs_syn : has_flag (th_flags g) TH_SYN = false;
  gs_size : tso_segsz g = None ->
    Z.of_nat (length (th_data g)) + Z.of_nat (length (th_opt g)) + ipoptlen s <= t_maxopd s }.

Lemma good_same q K s s' g : same s s' -> good_seg q K s' g -> good_seg q K s g.
Proof.
  intros [] [G1 G2 G3 G4]. unfold probe, sack_recovery, ipoptlen in *.
  rewrite sm_una0, ?sm_wnd0, ?sm_cwnd0, ?sm_force0, ?sm_sack0, ?sm_fast0, ?sm_options0, ?sm_maxopd0 in *. split; assumption.
Qed.

Lemma put_nxt_back v s : put_nxt (s_nxt s) (put_nxt v s) = s.
Proof. destruct s as [tp]; destruct tp as [k]; destruct k. reflexivity. Qed.
Lemma put_nxt_id s : put_nxt (s_nxt s) s = s.
Proof. destruct s as [tp]; destruct tp as [k]; destruct k. reflexivity. Qed.

Lemma unsend_spec q K s l l2 opt :
  conn_ok q K s -> plan q K s l -> limited s (l <| l_opt := opt |>) l2 ->
  let s0 := unsend_fin s l2 in
  conn_ok q K s0 /\ put_nxt (s_nxt s) s0 = s /\
  (0 < l_len l2 -> l_sack_rxmit l2 = false -> s0 = s) /\
  (th TH_FIN l2 = true -> l_sack_rxmit l2 = false -> off (s_una s) (s_nxt s0) + l_len l2 = qlen q) /\
  (s0 = s \/ (th TH_FIN l2 = true /\ off (s_una s) (s_nxt s0) + 1 = off (s_una s) (s_nxt s))) /\
  (th TH_FIN l2 = true -> flag TF_SENTFIN s = true -> off (s_una s) (s_nxt s0) + 1 <= off (s_una s) (s_max s)).
Proof.
  intros C P L s0. pose proof (co_near _ _ _ C) as [N1 N2]. pose proof (co_fin _ _ _ C) as Hf. pose proof (co_len _ _ _ C) as HL.
  assert (0 <= qlen q) as Hq by (unfold qlen; lia).
  assert (l_sack_rxmit l2 = l_sack_rxmit l /\ l_off l2 = l_off l) as [E1 E2] by (destruct (lm_same _ _ _ L) as (? & _ & ? & _); auto).
  assert (0 < l_len l2 -> l_sack_rxmit l2 = false -> off (s_una s) (s_nxt s) + l_len l2 <= qlen q) as Hd.
  { intros Hn Hr. pose proof (lm_len _ _ _ L) as Hl. cbn [update l_len] in Hl. destruct (pl_off _ _ _ _ P ltac:(lia)) as (K1 & _ & K2).
    unfold plan_start in K1. rewrite <- E1, Hr in K1. lia. }
  assert (th TH_FIN l2 = true -> l_sack_rxmit l2 = false -> qlen q <= off (s_una s) (s_nxt s) + l_len l2) as Hfin.
  { intros Hfn Hr. destruct (lm_fin _ _ _ L Hfn) as [Hl Hfl]. cbn [update l_len] in Hl.
    pose proof (pl_fin _ _ _ _ P Hfl) as K1. unfold plan_start in K1. rewrite <- E1, Hr in K1. lia. }
  pose proof (lm_len _ _ _ L) as Hl0. cbn [update l_len] in Hl0.
  assert (u32 (s_nxt s) = s_nxt s /\ u32 (s_max s) = s_max s) as [U1 U2] by (split; apply u32_small; apply C).
  subst s0. unfold unsend_fin. destruct (th TH_FIN l2) eqn:Ef; cbn [andb].
  2: { split; [exact C|]. split; [apply put_nxt_id|repeat split; auto; discriminate]. }
  destruct (flag TF_SENTFIN s) eqn:Es; cbn [andb].
  2: { split; [exact C|]. split; [apply put_nxt_id|].
       split; [auto|]. split; [|split; [auto|discriminate]]. intros _ Hr. specialize (Hfin eq_refl Hr).
       destruct (Z.eq_dec (l_len l2) 0); [lia|]. specialize (Hd ltac:(lia) Hr). lia. }
  destruct (Z.eqb_spec (s_nxt s) (s_max s)) as [Em|Em].
  - assert (off (s_una s) (u32 (s_nxt s - 1)) = off (s_una s) (s_nxt s) - 1) as Eo.
    { rewrite off_u32. change (s_nxt s - 1) with (s_nxt s + -1). rewrite off_add by lia. lia. }
    rewrite Em in *. rewrite Hf in *.
    split; [apply put_nxt_conn; [exact C|apply u32_range|lia]|].
    split; [rewrite <- Em; apply put_nxt_back|].
    split; [intros Hn Hr; specialize (Hd Hn Hr); lia|].
    change (s_nxt (put_nxt (u32 (s_max s - 1)) s)) with (u32 (s_max s - 1)). rewrite Eo.
    split; [intros _ Hr; destruct (Z.eq_dec (l_len l2) 0); [lia|specialize (Hd ltac:(lia) Hr); lia]|]. split; [right; split; [reflexivity|lia]|lia].
  - split; [exact C|]. split; [apply put_nxt_id|].
    assert (off (s_una s) (s_nxt s) <> off (s_una s) (s_max s)) as Hne.
    { intros Heq. apply off_eq in Heq. congruence. }
    split; [auto|]. split; [|split; [auto|lia]]. intros _ Hr. specialize (Hfin eq_refl Hr).
    destruct (Z.eq_dec (l_len l2) 0); [lia|]. specialize (Hd ltac:(lia) Hr). lia.
Qed.

Lemma segment_good q K s l l2 opt g :
  conn_ok q K s -> plan q K s l -> limited s (l <| l_opt := opt |>) l2 ->
  th_seq g = snd (choose_seq (unsend_fin s l2) l2) ->
  th_data g = take (Z.to_nat (l_len l2)) (drop (Z.to_nat (l_off l2)) q) -> th_opt g = l_opt l2 ->
  has_flag (th_flags g) TH_SYN = th TH_SYN l2 -> has_flag (th_flags g) TH_FIN = th TH_FIN l2 ->
  (tso_segsz g = None -> l_tso l2 = false) -> good_seg q K s g.
Proof.
  intros C P L Hseq Hdata Hopt Hsyn Hfin Htso.
  destruct (unsend_spec q K s l l2 opt C P L) as (C0 & K0 & U1 & U2 & _ & _).
  pose proof (lm_len _ _ _ L) as Hl. cbn [update l_len] in Hl.
  destruct (lm_same _ _ _ L) as (E1 & E2 & E3 & E4). cbn [update l_sack_rxmit l_p l_off l_opt] in *.
  assert (Z.of_nat (length (th_data g)) = l_len l2) as Hlen.
  { rewrite Hdata, length_take, length_drop. destruct (Z.eq_dec (l_len l2) 0) as [->|]; [cbn; lia|].
    destruct (pl_off _ _ _ _ P ltac:(lia)) as (_ & K1 & K2). unfold qlen in K2. lia. }
  assert (0 < l_len l2 -> off (s_una s) (th_seq g) = l_off l) as Hoff.
  { intros Hn. rewrite Hseq. destruct (pl_off _ _ _ _ P ltac:(lia)) as (K1 & _). unfold choose_seq, rexmit_hole. unfold plan_start in K1. rewrite E1.
    destruct (l_sack_rxmit l) eqn:Er.
    - destruct (pl_hole _ _ _ _ P Er) as (p & Hp & _ & _ & _ & Ho). rewrite E2, Hp. cbn [snd]. rewrite Ho. reflexivity.
    - cbn [snd]. destruct (Z.eqb_spec (l_len l2) 0); [lia|]. cbn [negb orb]. rewrite (U1 Hn E1). symmetry. exact K1. }
  split.
  - intros n -> Hn. rewrite Hlen in *. cbv zeta. rewrite (Hoff Hn). destruct (pl_off _ _ _ _ P ltac:(lia)) as (_ & K1 & K2).
    split; [exact K1|]. split; [lia|]. split; [rewrite Hdata, E3; reflexivity|].
    pose proof (pl_wnd _ _ _ _ P ltac:(lia)). split; [lia|]. intros Hs. pose proof (pl_cwnd _ _ _ _ P ltac:(lia) Hs). lia.
  - rewrite Hfin, Hlen. intros Hf. destruct (l_sack_rxmit l) eqn:Er.
    + destruct (lm_fin _ _ _ L Hf) as [Hl2 Hf2]. cbn [update l_len] in Hl2. destruct (pl_hole _ _ _ _ P Er) as (p & _ & _ & Hpos & _).
      rewrite (Hoff ltac:(lia)). pose proof (pl_fin _ _ _ _ P Hf2) as K1. destruct (pl_off _ _ _ _ P ltac:(lia)) as (K2 & _ & K3). lia.
    + rewrite Hseq. unfold choose_seq, rexmit_hole. rewrite E1. cbn [snd].
      assert (th (Z.lor TH_SYN TH_FIN) l2 = true) as ->.
      { unfold th, has_flag in *. destruct (Z.eqb_spec (Z.land (l_flags l2) (Z.lor TH_SYN TH_FIN)) 0) as [E|]; [|reflexivity].
        rewrite Z.land_lor_distr_r in E. apply Z.lor_eq_0_iff in E as [_ E]. rewrite E in Hf. discriminate. }
      rewrite orb_true_r. cbn [orb]. apply U2; [exact Hf|exact E1].
  - rewrite Hsyn, (lm_syn _ _ _ L). exact (pl_syn _ _ _ _ P).
  - intros Ht. rewrite Hlen, Hopt, E4. exact (lm_size _ _ _ L (Htso Ht)).
Qed.

(** What another pass still has to do: it gets less with every segment that is
    followed by another. *)
Definition mu (q : list Z) (s : ocb) : Z :=
  unsent (s_una s) (snd_holes (t_sack (o_tp s))) + (qlen q + 1 - off (s_una s) (s_nxt s)).

Lemma mu_bounds q K s : conn_ok q K s -> 0 <= mu q s <= 2 * qlen q + 2.
Proof.
  intros C. pose proof (co_near _ _ _ C) as [N1 N2]. pose proof (co_board _ _ _ C) as (_ & _ & Ch & _).
  apply unsent_bounds in Ch. pose proof (co_fin _ _ _ C) as Hf. unfold mu. destruct (flag TF_SENTFIN s); lia.
Qed.

Lemma kept_mu q s s' : kept s s' -> mu q s' = mu q s.
Proof. intros H. unfold mu, s_una, s_nxt, una, nxt. rewrite (kp_sack _ _ H). reflexivity. Qed.

Lemma kept_sentfin s : flag TF_SENTFIN s = true -> kept s (on_tp (set_flag TF_SENTFIN) s).
Proof.
  intros H. split; try reflexivity. unfold core_flags. constructor.
  - rewrite H. apply flag_set; [reflexivity|discriminate|unfold TF_SENTFIN; lia].
  - repeat constructor; apply flag_set_other; reflexivity.
Qed.

Lemma rexmit_fin q K s p n : conn_ok q K s -> first_due (s_una s) (snd_holes (t_sack (o_tp s))) p ->
  hr (s_una s) p + n <= he (s_una s) p -> qlen q <= hr (s_una s) p + n -> flag TF_SENTFIN s = true.
Proof.
  intros C Hp Hn Hq. pose proof (co_holes _ _ _ C) as Hh. rewrite Forall_forall in Hh.
  destruct (Hh p (first_due_in _ _ _ Hp)) as [H1 _]. pose proof (co_K _ _ _ C). pose proof (co_fin _ _ _ C) as Hf.
  destruct (flag TF_SENTFIN s); [reflexivity|lia].
Qed.

Lemma send_again e q K s l l2 opt s3 l3 :
  conn_ok q K s -> plan q K s l -> limited s (l <| l_opt := opt |>) l2 ->
  kept (fst (choose_seq (unsend_fin s l2) l2)) s3 -> t_timers (o_tp s3) = t_timers (o_tp s) -> reflagged l2 l3 ->
  l_sendalot l2 = true ->
  let s' := advance e s3 l3 in conn_ok q K s' /\ same s s' /\ mu q s' < mu q s.
Proof.
  intros C P L K3 T3 R3 Ha s'. destruct (unsend_spec q K s l l2 opt C P L) as (C0 & B0 & U1 & U2 & U3 & U4).
  set (s0 := unsend_fin s l2) in *. clearbody s0.
  destruct (lm_same _ _ _ L) as (E1 & E2 & E3 & _). cbn [update l_sack_rxmit l_p l_off] in E1, E2, E3.
  pose proof (lm_len _ _ _ L) as Hl. cbn [update l_len] in Hl.
  assert (same s s0) as S0.
  { rewrite <- B0. split; try reflexivity. exists []. reflexivity. }
  assert (flag TF_FORCEDATA s3 && active TT_PERSIST s3 = false) as Hprobe.
  { destruct (flag TF_FORCEDATA s3 && active TT_PERSIST s3) eqn:E; [exfalso|reflexivity].
    assert (flag TF_FORCEDATA s && active TT_PERSIST s = true) as E'.
    { rewrite <- E. f_equal; [|unfold active, tcp_timer_active; rewrite T3; reflexivity].
      rewrite (kept_flag _ _ _ K3) by core. rewrite <- B0. unfold choose_seq. destruct (rexmit_hole l2); reflexivity. }
    destruct (pl_probe _ _ _ _ P E') as [Hp1 Hp2]. destruct (lm_alot _ _ _ L Ha) as [Hq|[Hq _]]; cbn [update l_sendalot l_len] in Hq; [|lia].
    rewrite (pl_alot _ _ _ _ P) in Hq. congruence. }
  assert (th TH_SYN l3 = false) as Hsyn.
  { rewrite (rf_syn _ _ R3), (lm_syn _ _ _ L). exact (pl_syn _ _ _ _ P). }
  pose proof (advance_spec e s3 l3 Hprobe Hsyn) as KA. cbv zeta in KA. fold s' in KA. clearbody s'.
  rewrite (rf_fin _ _ R3) in KA.
  assert (l_sack_rxmit l3 = l_sack_rxmit l /\ l_len l3 = l_len l2) as [E4 E5] by (rewrite (rf_eq _ _ R3); cbn; auto).
  rewrite E4, E5 in KA. unfold choose_seq, rexmit_hole in K3. rewrite E1, E2 in K3.
  destruct (l_sack_rxmit l) eqn:Er.
  - destruct (pl_hole _ _ _ _ P Er) as (p & Hp & Hdue & Hpos & Hend & Hoff). rewrite Hp in K3. cbn [fst] in K3.
    assert (0 < l_len l2) as Hn by (apply (lm_pos _ _ _ L); exact Hpos).
    assert (s_una s0 = s_una s /\ snd_holes (t_sack (o_tp s0)) = snd_holes (t_sack (o_tp s))) as [Eu Eh].
    { split; [apply S0|]. rewrite <- B0. reflexivity. }
    destruct (add_rexmit_conn q K s0 p (l_len l2) C0) as [C1 M1]; [rewrite Eu, Eh; exact Hdue|exact Hn|rewrite Eu; lia|].
    set (s1 := on_sack (add_rexmit p (l_len l2)) s0) in *. rewrite Eu, Eh in M1.
    pose proof (kept_conn _ _ _ _ C1 K3) as C3.
    assert (same s s3) as S3.
    { eapply same_trans; [exact S0|]. eapply same_trans; [|apply (kept_same _ _ K3)]. split; try reflexivity. exists []. reflexivity. }
    assert (s_nxt s3 = s_nxt s0 /\ s_max s3 = s_max s /\ snd_holes (t_sack (o_tp s3)) = snd_holes (t_sack (o_tp s1))) as (N3 & X3 & H3).
    { unfold s_nxt, s_max, nxt, smax. rewrite (kp_sack _ _ K3). split; [reflexivity|]. split; [|reflexivity]. rewrite <- B0. reflexivity. }
    destruct (th TH_FIN l2) eqn:Ef.
    + assert (flag TF_SENTFIN s = true) as Hsent.
      { destruct (lm_fin _ _ _ L Ef) as [Hl2 Hf2]. cbn [update l_len] in Hl2. pose proof (pl_fin _ _ _ _ P Hf2) as Hq.
        unfold plan_start in Hq. rewrite Er, Hoff in Hq. eapply (rexmit_fin q K s p (l_len l)); eassumption. }
      assert (flag TF_SENTFIN s3 = true) as Hsent3.
      { rewrite (kept_flag _ _ _ K3) by core. rewrite <- Hsent, <- B0. reflexivity. }
      specialize (U4 eq_refl Hsent). pose proof (co_near _ _ _ C0) as [N0 N0']. rewrite Eu in *. pose proof (co_near _ _ _ C) as [Nn Nm].
      assert (off (s_una s) (u32 (s_nxt s3 + 1)) = off (s_una s) (s_nxt s0) + 1) as Eo.
      { rewrite off_u32, N3. apply off_add. lia. }
      assert (conn_ok q K (put_nxt (u32 (s_nxt s3 + 1)) s3)) as C4.
      { apply put_nxt_conn; [exact C3|apply u32_range|]. rewrite (sm_una _ _ S3), X3, Eo. lia. }
      assert (kept (put_nxt (u32 (s_nxt s3 + 1)) s3) s') as KA' by (eapply kept_trans; [apply kept_sentfin; exact Hsent3|exact KA]).
      split; [eapply kept_conn; eassumption|]. split; [eapply same_trans; [exact S3|]; eapply same_trans; [apply put_nxt_same|apply kept_same, KA']|].
      rewrite (kept_mu q _ _ KA'). unfold mu. change (s_una (put_nxt (u32 (s_nxt s3 + 1)) s3)) with (s_una s3).
      change (snd_holes (t_sack (o_tp (put_nxt (u32 (s_nxt s3 + 1)) s3)))) with (snd_holes (t_sack (o_tp s3))).
      change (s_nxt (put_nxt (u32 (s_nxt s3 + 1)) s3)) with (u32 (s_nxt s3 + 1)). rewrite (sm_una _ _ S3), H3, M1, Eo. destruct U3 as [->|[_ U3]]; lia.
    + split; [eapply kept_conn; eassumption|]. split; [eapply same_trans; [exact S3|apply kept_same, KA]|].
      rewrite (kept_mu q _ _ KA). unfold mu. rewrite (sm_una _ _ S3), H3, M1, N3.
      assert (off (s_una s) (s_nxt s) <= off (s_una s) (s_nxt s0)); [|lia].
      destruct U3 as [->|[U3 _]]; [lia|discriminate].
  - destruct (lm_alot _ _ _ L Ha) as [Hq|[Hq Hf]]; cbn [update l_sendalot l_len] in Hq; [rewrite (pl_alot _ _ _ _ P) in Hq; congruence|].
    assert (0 < l_len l2) as Hn by (apply (lm_pos _ _ _ L); cbn; lia). rewrite Hf in KA. cbn [fst] in K3.
    rewrite (U1 Hn E1) in K3. destruct (pl_off _ _ _ _ P ltac:(lia)) as (Ho1 & Ho2 & Ho3). unfold plan_start in Ho1. rewrite Er in Ho1.
    pose proof (kept_conn _ _ _ _ C K3) as C3. assert (s_una s3 = s_una s /\ s_nxt s3 = s_nxt s) as [Eu En].
    { unfold s_una, s_nxt, una, nxt. rewrite (kp_sack _ _ K3). auto. }
    destruct (advance_conn q K s3 (l_len l2) C3) as (C4 & N4 & H4 & S4 & W4); [lia|rewrite Eu, En; lia|]. cbv zeta in *.
    set (s4 := if SEQ_GT _ _ then _ else _) in *. clearbody s4.
    split; [eapply kept_conn; eassumption|].
    split; [eapply same_trans; [apply kept_same, K3|]; eapply same_trans; [exact S4|apply kept_same, KA]|].
    rewrite (kept_mu q _ _ KA). unfold mu. rewrite H4, (sm_una _ _ S4), N4, (kp_sack _ _ K3), Eu, En. lia.
Qed.

(** *** A pass *)

Lemma sent_spec e s l :
  match sent e s l with
  | Again s' => kept s s' /\ l_sendalot l = true
  | Return s' err => kept s s' /\ err = 0
  | _ => False
  end.
Proof.
  unfold sent. set (s1 := if _ && _ then _ else s).
  assert (kept s s1) as K1 by (subst s1; destruct (_ && _); [split; try reflexivity; other_flags|apply kept_refl]).
  clearbody s1. set (s2 := on_tp _ _).
  assert (kept s1 s2) as K2.
  { eapply kept_trans; [|apply kept_clear; other_flags]. split; try reflexivity. other_flags. }
  clearbody s2. set (s3 := if active _ _ then _ else s2).
  assert (kept s2 s3) as K3 by (subst s3; destruct (active _ _); [apply kept_activate|apply kept_refl]).
  clearbody s3. assert (kept s s3) as K by (eapply kept_trans; [exact K1|]; eapply kept_trans; eassumption).
  destruct (l_sendalot l); auto.
Qed.

Lemma output_error_spec e s tso err :
  err <> EMSGSIZE -> match output_error e s tso err with Return s' _ => wire s' = wire s | _ => False end.
Proof.
  intros H. unfold output_error. destruct (err =? EPERM); [reflexivity|].
  destruct (err =? ENOBUFS).
  - cbn [on_tp update wire]. destruct (_ && _); [|reflexivity]. apply (kp_wire _ _ (kept_activate _ _ _ _)).
  - destruct (Z.eqb_spec err EMSGSIZE); [congruence|]. destruct (_ && _); reflexivity.
Qed.

Lemma back_out_wire s l err : wire (back_out s l err) = wire s.
Proof. unfold back_out. destruct (_ && _); [|reflexivity]. destruct (rexmit_hole l); reflexivity. Qed.

Lemma plan_moved q K s s' l : plan q K s l -> o_tp s' = o_tp s -> inp_options s' = inp_options s -> plan q K s' l.
Proof.
  intros [] E1 E2. split; unfold plan_start, probe, sack_recovery, flag, active, s_una, s_nxt in *; rewrite ?E1, ?E2; assumption.
Qed.
Lemma limited_moved s s' l l' : limited s l l' -> inp_options s' = inp_options s -> t_maxopd s' = t_maxopd s -> limited s' l l'.
Proof. intros [] E1 E2. split; unfold ipoptlen in *; rewrite ?E1, ?E2; assumption. Qed.

(** What one pass does to the connection and the wire. *)
Definition pass_ok (q : list Z) (K : Z) (s : ocb) (r : pass_result) : Prop :=
  match r with
  | Return s' _ => exists segs, wire s' = wire s ++ segs /\ Forall (good_seg q K s) segs
  | Again s' => conn_ok q K s' /\ same s s' /\ mu q s' < mu q s /\
      exists segs, wire s' = wire s ++ segs /\ Forall (good_seg q K s) segs
  | MtuDisc _ | PanicOut => False
  end.

(** The segment is handed to [ip_output], and what follows. *)
Definition finish (e : oenv) (seg : segment) (s : ocb) (l : locals) : pass_result :=
  let '(s, error) := ip_output seg s in
  if error =? 0 then sent e s l else output_error e (back_out s l error) (l_tso l) error.

Lemma send_cases e q K s l :
  oenv_ok e -> conn_ok q K s -> plan q K s l ->
  exists opt s2 l2, conn_ok q K s2 /\ plan q K s2 l /\ limited s2 (l <| l_opt := opt |>) l2 /\ same s s2 /\
    o_tp s2 = o_tp s /\ wire s2 = wire s /\ ip_results s2 = ip_results s /\
    ((output_send e s l = output_error e s2 (l_tso l2) ENOBUFS /\ (l_len l2 = 0 -> forall i rest, mbufs s <> Some i :: rest)) \/
     exists s3 l3 seg, make_segment e s2 l2 (take (Z.to_nat (l_len l2)) (drop (Z.to_nat (l_off l2)) q)) = (s3, l3, seg) /\
       output_send e s l = finish e seg (advance e s3 l3) l3).
Proof.
  intros He C P. unfold output_send.
  destruct (make_options_spec e q K s l C (pl_syn _ _ _ _ P) (pl_opt _ _ _ _ P)) as (r & opt & -> & Ho).
  set (s1 := s <| rfbuf_ts := r |>). set (l1 := l <| l_opt := opt |>).
  assert (kept s s1) as K1 by (split; try reflexivity; other_flags). pose proof (kept_conn _ _ _ _ C K1) as C1.
  assert (limited s1 l1 (limit_len s1 l1)) as L1.
  { apply (limit_spec q K); [exact C1|exact (pl_len _ _ _ _ P)|exact Ho|exact (pl_tso _ _ _ _ P)]. }
  set (l2 := limit_len s1 l1) in *. clearbody l2.
  pose proof (lm_len _ _ _ L1) as Hl. cbn [update l_len l1] in Hl. destruct (lm_same _ _ _ L1) as (E1 & E2 & E3 & E4).
  assert (optlen l2 <= TCP_MAXOLEN) as Ho2 by (unfold optlen; rewrite E4; exact Ho).
  destruct (Z.ltb_spec (MHLEN e) (max_linkhdr e + hdrlen l2)) as [Hbad|_].
  { exfalso. destruct He as [He1 He2]. unfold hdrlen in Hbad. lia. }
  pose proof (co_len _ _ _ C) as HL. pose proof (pl_len _ _ _ _ P) as Hl0.
  assert (0 <= l_len l2 < 2 ^ 29) as Hl2.
  { destruct (Z.eq_dec (l_len l) 0); [lia|]. destruct (pl_off _ _ _ _ P ltac:(lia)) as (_ & ? & ?). lia. }
  destruct (get_data_spec e q K s1 l2 C1 He Hl2 Ho2) as (s2 & rd & -> & F2 & Hd).
  { intros Hn. rewrite E3. cbn [update l_off l1]. destruct (pl_off _ _ _ _ P ltac:(lia)) as (_ & ? & ?). lia. }
  pose proof (fetched_conn _ _ _ _ C1 F2) as C2. pose proof (ft_eq _ _ _ F2) as E12.
  assert (o_tp s2 = o_tp s /\ inp_options s2 = inp_options s /\ t_maxopd s2 = t_maxopd s /\ wire s2 = wire s /\ ip_results s2 = ip_results s)
    as (Et & Eopt & Ed & Ew & Er) by (rewrite E12; repeat split).
  exists opt, s2, l2. split; [exact C2|]. split; [exact (plan_moved _ _ _ s2 _ P Et Eopt)|].
  split; [apply (limited_moved s1); assumption|]. split.
  { split; unfold flag; rewrite ?Et, ?Er; try assumption; try reflexivity; [unfold s_una; rewrite Et; reflexivity|exists []; reflexivity]. }
  do 3 (split; [assumption|]). destruct rd as [err|data]; [left; destruct Hd as [-> Hd]; split; [reflexivity|exact Hd]|right].
  subst data. destruct (make_segment e s2 l2 _) as [[s3 l3] seg]. exists s3, l3, seg. split; [reflexivity|].
  unfold finish, ip_output. reflexivity.
Qed.

Lemma send_spec e q K s l :
  oenv_ok e -> conn_ok q K s -> plan q K s l -> Forall (fun r => r <> EMSGSIZE) (ip_results s) ->
  pass_ok q K s (output_send e s l) /\ (forall s', output_send e s l = Again s' -> 0 < l_len l).
Proof.
  intros He C P HR. destruct (send_cases e q K s l He C P) as (opt & s2 & l2 & C2 & P2 & L2 & S2 & Et & Ew & Er & [[-> _]|H]).
  { pose proof (output_error_spec e s2 (l_tso l2) ENOBUFS ltac:(discriminate)) as Oe.
    destruct (output_error _ _ _ _); try contradiction. split; [|discriminate]. exists []. rewrite Oe, Ew, app_nil_r. auto. }
  destruct H as (s3 & l3 & seg & Em & ->).
  pose proof (make_segment_spec e s2 l2 (take (Z.to_nat (l_len l2)) (drop (Z.to_nat (l_off l2)) q))) as MS. rewrite Em in MS.
  destruct MS as (K3 & T3 & R3 & G1 & G2 & G3 & G4 & G5 & G6).
  assert (good_seg q K s seg) as Hg.
  { apply (good_same _ _ _ _ _ S2). eapply (segment_good q K s2 l l2 opt seg C2 P2 L2); assumption. }
  assert (mu q s2 = mu q s) as Mu by (unfold mu, s_una, s_nxt; rewrite Et; reflexivity).
  assert (wire (advance e s3 l3) = wire s /\ ip_results (advance e s3 l3) = ip_results s) as [Aw Ar].
  { destruct (advance_wire e s3 l3) as [-> ->]. rewrite (kp_wire _ _ K3), (kp_results _ _ K3), <- Ew, <- Er.
    unfold choose_seq, unsend_fin. destruct (_ && _), (rexmit_hole l2); auto. }
  unfold finish, ip_output. set (s4 := advance e s3 l3) in *.
  set (s5 := s4 <| wire := _ |> <| ip_results := _ |>).
  assert (wire s5 = wire s ++ [seg]) as W5 by (rewrite <- Aw; reflexivity).
  assert (default 0 (head (ip_results s4)) <> EMSGSIZE) as Herr.
  { rewrite Ar. destruct (ip_results s) as [|x]; [discriminate|]. inversion HR; subst. assumption. }
  destruct (_ =? 0).
  - pose proof (sent_spec e s5 l3) as SS. destruct (sent e s5 l3) as [s6 err|s6| |]; try contradiction.
    + destruct SS as [SK _]. split; [|discriminate]. exists [seg]. rewrite (kp_wire _ _ SK), W5. auto.
    + destruct SS as [SK Ha].
      assert (l_sendalot l2 = true) as Ha2 by (rewrite <- Ha, (rf_eq _ _ R3); reflexivity).
      destruct (send_again e q K s2 l l2 opt s3 l3 C2 P2 L2 K3 T3 R3 Ha2) as (C4 & S4 & M4). fold s4 in C4, S4, M4.
      assert (conn_ok q K s5) as C5 by (destruct C4; split; assumption).
      split; [|intros _ _; destruct (lm_alot _ _ _ L2 Ha2) as [Hq|[Hq _]]; cbn [update l_sendalot l_len] in Hq; [|lia];
               rewrite (pl_alot _ _ _ _ P) in Hq; destruct (pl_hole _ _ _ _ P Hq) as (_ & _ & _ & Hpos & _); exact Hpos].
      split; [eapply kept_conn; eassumption|]. split.
      * eapply same_trans; [exact S2|]. eapply same_trans; [exact S4|]. eapply same_trans; [|apply kept_same, SK].
        split; try reflexivity. cbn. destruct (ip_results s4) as [|x xs]; [exists []; reflexivity|exists [x]; reflexivity].
      * split; [rewrite (kept_mu q _ _ SK), <- Mu; exact M4|]. exists [seg]. rewrite (kp_wire _ _ SK), W5. auto.
  - pose proof (output_error_spec e (back_out s5 l3 (default 0 (head (ip_results s4)))) (l_tso l3) _ Herr) as Oe.
    destruct (output_error _ _ _ _) as [s6 err| | |]; try contradiction.
    split; [|discriminate]. exists [seg]. rewrite Oe, back_out_wire, W5. auto.
Qed.

Lemma just_return_spec e s : exists s', just_return e s = Some s' /\ wire s' = wire s.
Proof.
  unfold just_return. destruct (_ && _ && _ && _); [eexists; split; [reflexivity|apply (kp_wire _ _ (kept_activate _ _ _ _))]|].
  destruct (negb (cc s =? 0)); cbn [andb]; [|eauto]. destruct (active TT_REXMT s) eqn:E; cbn [negb andb]; [eauto|].
  destruct (active TT_PERSIST s); cbn [negb andb]; [eauto|].
  pose (s0 := s <| o_tp := (o_tp s) <| t_rxtshift := 0 |> |>).
  destruct (setpersist_some e s0 E) as [tp Ep]. change (o_tp s0) with ((o_tp s) <| t_rxtshift := 0 |>) in Ep.
  rewrite Ep. cbn [mbind option_bind]. eauto.
Qed.

Lemma pass_spec e q K s idle :
  oenv_ok e -> conn_ok q K s -> Forall (fun r => r <> EMSGSIZE) (ip_results s) -> pass_ok q K s (output_pass e idle s).
Proof.
  intros He C HR. unfold output_pass. destruct (plan_spec e q K s idle C) as (s1 & l & -> & C1 & S1 & W1 & M1 & H1 & P1 & N1 & _).
  assert (Forall (fun r => r <> EMSGSIZE) (ip_results s1)) as HR1.
  { destruct (sm_results _ _ S1) as [old Eo]. rewrite Eo in HR. apply Forall_app in HR as [_ HR]. exact HR. }
  assert (forall g, good_seg q K s1 g -> good_seg q K s g) as Hg by (intros g; apply good_same, S1).
  destruct (want_send s1 l).
  - pose proof (send_spec e q K s1 l He C1 P1 HR1) as [Hs Hlen]. destruct (output_send e s1 l) as [s2 err|s2| |] eqn:Eo; try contradiction; cbn [pass_ok] in *.
    + destruct Hs as (segs & Hw & Hf). exists segs. rewrite <- W1. split; [exact Hw|]. eapply Forall_impl; [exact Hf|exact Hg].
    + destruct Hs as (C2 & S2 & M2 & segs & Hw & Hf). split; [exact C2|]. split; [eapply same_trans; eassumption|]. split.
      * enough (mu q s1 <= mu q s) by lia. unfold mu. rewrite H1, (sm_una _ _ S1).
        enough (off (s_una s) (s_nxt s) <= off (s_una s) (s_nxt s1)) by lia. apply N1. exact (Hlen s2 eq_refl).
      * exists segs. rewrite <- W1. split; [exact Hw|]. eapply Forall_impl; [exact Hf|exact Hg].
  - destruct (just_return_spec e s1) as (s2 & -> & Hw). exists []. rewrite Hw, W1, app_nil_r. auto.
Qed.

(** *** tcp_output *)

Lemma no_emsgsize_same s s' :
  same s s' -> Forall (fun r => r <> EMSGSIZE) (ip_results s) -> Forall (fun r => r <> EMSGSIZE) (ip_results s').
Proof. intros S H. destruct (sm_results _ _ S) as [old Eo]. rewrite Eo in H. apply Forall_app in H as [_ H]. exact H. Qed.

Lemma loop_spec e q K idle : oenv_ok e -> forall fuel s,
  conn_ok q K s -> Forall (fun r => r <> EMSGSIZE) (ip_results s) -> mu q s < Z.of_nat fuel ->
  exists s' err segs, output_loop e fuel idle s = Returned s' err /\ wire s' = wire s ++ segs /\ Forall (good_seg q K s) segs.
Proof.
  intros He fuel. induction fuel as [|fuel IH]; intros s C HR Hm.
  { pose proof (mu_bounds q K s C). lia. }
  cbn [output_loop]. pose proof (pass_spec e q K s idle He C HR) as P.
  destruct (output_pass e idle s) as [s1 err|s1| |]; cbn [pass_ok] in P; try contradiction.
  - destruct P as (segs & Hw & Hg). exists s1, err, segs. auto.
  - destruct P as (C1 & S1 & M1 & segs & Hw & Hg).
    destruct (IH s1 C1 (no_emsgsize_same _ _ S1 HR) ltac:(lia)) as (s2 & err & segs2 & -> & Hw2 & Hg2).
    exists s2, err, (segs ++ segs2). split; [reflexivity|]. split; [rewrite Hw2, Hw; symmetry; apply app_assoc|].
    apply Forall_app. split; [exact Hg|]. eapply Forall_impl; [exact Hg2|]. intros g. apply good_same, S1.
Qed.

(** The restart after an idle period, for an algorithm that keeps its promises. *)
Lemma start_conn e q K s :
  CongestionControl (algo e) -> window_ok (o_tp s) -> conn_ok q K s ->
  let s' := fst (output_start e s) in
  conn_ok q K s' /\ wire s' = wire s /\ ip_results s' = ip_results s.
Proof.
  intros A W C. unfold output_start. set (idle := _ || _). set (s1 := if idle && _ then _ else s).
  assert (conn_ok q K s1 /\ wire s1 = wire s /\ ip_results s1 = ip_results s) as (C1 & W1 & R1).
  { subst s1. match goal with |- context [if ?b then _ else s] => destruct b end; [|auto]. split; [|auto].
    unfold cc_after_idle, call_hook. destruct (after_idle (algo e)) as [f|] eqn:Ef; [|destruct s; exact C].
    destruct (cc_after_idle_ok f Ef (o_tp s) W) as [[W1 W2 _ _] [Fr _]]. pose proof (cc_after_idle_flags f (o_tp s) Ef) as Fl.
    unfold on_tp. rewrite Fr, Fl. rewrite Fr in W2. cbn [update t_maxseg snd_cwnd] in W2.
    assert (0 <= snd_cwnd (f (o_tp s)) < 2 ^ 31) as Hc by (pose proof (wo_maxseg _ W); lia).
    destruct C. split; try assumption. }
  clearbody s1. assert (kept s1 (on_tp (clear_flag TF_LASTIDLE) s1)) as K2 by (apply kept_clear; other_flags).
  pose proof (kept_conn _ _ _ _ C1 K2) as C2. destruct (_ && _); cbn [fst].
  - split; [|split; [exact W1|exact R1]]. eapply kept_conn; [exact C2|apply kept_set; other_flags].
  - split; [exact C2|]. split; [exact W1|exact R1].
Qed.

Lemma output_returns e q K s fuel :
  oenv_ok e -> CongestionControl (algo e) -> window_ok (o_tp s) -> conn_ok q K s ->
  Forall (fun r => r <> EMSGSIZE) (ip_results s) -> (2 * length q + 3 <= fuel)%nat ->
  exists s' err, tcp_output e fuel s = Returned s' err.
Proof.
  intros He A W C HR Hf. unfold tcp_output. destruct (inp_passive s); [eauto|].
  destruct (start_conn e q K s A W C) as (C1 & _ & R1). destruct (output_start e s) as [s1 idle]. cbn [fst] in *. rewrite <- R1 in HR.
  pose proof (mu_bounds q K s1 C1). unfold qlen in *. destruct (loop_spec e q K idle He fuel s1 C1 HR ltac:(lia)) as (s' & err & _ & E & _). eauto.
Qed.


(** ** A concrete connection *)

Definition sample_data : list Z := map Z.of_nat (seq 0 80).
Definition sample_snd : sockbuf :=
  Eval vm_compute in
  default empty_sb (sbappendstream_locked [data_mbuf 1 (take 50 sample_data) 0; data_mbuf 2 (drop 50 sample_data) 0] empty_sb).

(** 80 bytes to send from 5000 on, with the timestamp option, 45 bytes of data
    and options in a segment; the peer's window is [wnd]. *)
Definition sample_ocb (flags wnd : Z) : ocb :=
  mk_ocb ((sample_conn (Z.lor flags (Z.lor TF_RCVD_TSTMP TF_NODELAY)) 20000 20000)
            <| t_sack := (sample_sender 65536) <| snd_una := 5000 |> <| snd_nxt := 5000 |> <| snd_max := 5000 |> |>
            <| t_maxseg := 33 |> <| snd_wnd := wnd |>)
    45 65535 5000 4000 65535 0 0 0 77 0 0 0 0 0 sample_snd empty_sb 0 None false false
    (replicate 20 (Some 9)) [] [].

Definition sample_oenv : oenv :=
  mk_oenv sample_tenv (mk_sbenv 262144 233016 8) (newreno_cc_algo sample_ccenv) RLIM_INFINITY true 8192 262144 true false 1
    500000 true 216 512 32768 65536 16 256 1500 false false 0 0 0.

Lemma sample_oenv_ok : oenv_ok sample_oenv.
Proof. vm_compute. repeat split; congruence. Qed.

Lemma sample_snd_holds : holds sample_data sample_snd.
Proof.
  split; [|vm_compute; reflexivity]. split.
  - repeat (constructor; [vm_compute; repeat split; congruence|]). constructor.
  - apply (bool_decide_unpack _). vm_compute. exact I.
  - split; vm_compute; reflexivity.
  - vm_compute. reflexivity.
  - vm_compute. reflexivity.
  - vm_compute. reflexivity.
  - vm_compute. reflexivity.
  - vm_compute. reflexivity.
Qed.

(** Segments as (sequence number, flags, data). *)
Definition seg_view (g : segment) : Z * Z * list Z := (th_seq g, th_flags g, th_data g).

Lemma sample_conn_ok flags wnd :
  0 <= wnd < 2 ^ 31 -> (flags = 0 \/ flags = TF_ACKNOW) -> conn_ok sample_data 0 (sample_ocb flags wnd).
Proof.
  intros Hw Hf. split.
  - exact sample_snd_holds.
  - reflexivity.
  - change (board_wf 5000 0 0 ((sample_sender 65536) <| snd_una := 5000 |> <| snd_nxt := 5000 |> <| snd_max := 5000 |>)).
    split; [lia|]. split; [lia|]. split; [cbn; lia|]. do 2 (split; [reflexivity|]). split; [cbn; lia|].
    split; [apply (bool_decide_unpack _); vm_compute; exact I|]. exists [], []. repeat split. constructor.
  - intros H. exfalso. apply H. reflexivity.
  - constructor.
  - discriminate.
  - intros A p B E. destruct A; discriminate.
  - change (0 <= 5000 < 2 ^ 32 /\ 0 <= 5000 < 2 ^ 32 /\ 0 <= 5000 < 2 ^ 32). lia.
  - change (0 <= 0 <= 0). lia.
  - destruct Hf as [->| ->]; vm_compute; congruence.
  - vm_compute. split; congruence.
  - destruct Hf as [->| ->]; reflexivity.
  - exact Hw.
  - change (0 <= 20000 < 2 ^ 31). lia.
  - change (0 < 33 < 2 ^ 16). lia.
  - vm_compute. repeat split; congruence.
  - cbn. lia.
  - destruct Hf as [->| ->]; discriminate.
Qed.

End OutputStream.
