(* ===== verification/TcpOutputTimers.v ===== *)
(** * TCP output: the timers

    While the send buffer holds data, a call of [tcp_output] (TcpOutput.v) leaves
    the retransmission or the persist timer running ([tcp_output_timed]), unless
    the peer's window is closed and there is an ACK to send
    ([tcp_output_closed_window_stalls]).  Also what a retransmission from the
    scoreboard may exceed ([sack_retransmit_exceeds_window]). *)

From S2P Require Import Prelude TcpSeq Callout SockBuf TcpOptions TcpSack TcpCC TcpTimer TcpOutput TcpOutputStream.

Module OutputTimers.

Import SockBuf.Sockbuf TcpSack.Sack TcpCC.CC TcpTimer.Timer TcpOutput.Output TcpOutputStream.OutputStream.

(** A timer will get the data going again. *)
Definition timed (s : ocb) : bool := active TT_REXMT s || active TT_PERSIST s.

Lemma timed_timers s s' : t_timers (o_tp s') = t_timers (o_tp s) -> timed s' = timed s.
Proof. intros H. unfold timed, active, tcp_timer_active. rewrite H. reflexivity. Qed.

Lemma arm_active t n f a c : callout_active (callout_arm t n f a c) = true.
Proof. unfold callout_active, callout_arm. cbn [update c_flags]. apply flag_set; vm_compute; congruence. Qed.

Lemma activate_on e t d s : u32 d <> 0 -> active t (activate e t d s) = true.
Proof.
  intros H. unfold active, activate, on_tp, tcp_timer_active, tcp_timer_activate. destruct (Z.eqb_spec (u32 d) 0); [contradiction|].
  cbn [update o_tp]. unfold on_timer. cbn [update t_timers].
  destruct t; cbn [timer set_timer update tt_delack tt_rexmt tt_persist tt_keep tt_2msl]; apply arm_active.
Qed.

Lemma activate_other e t t' d s : t <> t' -> active t (activate e t' d s) = active t s.
Proof.
  intros H. unfold active, activate, on_tp, tcp_timer_active, tcp_timer_activate.
  cbn [update o_tp]. destruct (_ =? 0); unfold on_timer; cbn [update t_timers]; destruct t, t'; try reflexivity; congruence.
Qed.

(** The parameters of the timers that have to make sense. *)
Record timer_ok (e : oenv) (s : ocb) : Prop := {
  tk_hz : 0 < hz (cce (te e)) < 2 ^ 20;
  tk_rxtcur : 0 < t_rxtcur (o_tp s) < 2 ^ 31 }.

Lemma rangeset_nonzero e v lo hi : 0 < lo < 2 ^ 31 -> 0 < hi < 2 ^ 31 -> u32 (u32 (TCPT_RANGESET e v lo hi)) <> 0.
Proof.
  intros Hl Hh. unfold TCPT_RANGESET. rewrite u32_u32, !(s32_small lo), !(s32_small hi) by lia.
  pose proof (s32_range (v + tcp_rexmit_slop e)) as Ht. set (tv := s32 _) in *.
  assert (forall x, 0 < x < 2 ^ 31 -> u32 x <> 0) as Hpos by (intros x Hx; rewrite u32_small; lia).
  destruct (Z.ltb_spec (u64 tv) (u64 lo)) as [H1|H1]; destruct (_ <? _); try (apply Hpos; lia).
  intros H0. assert (tv = 0) as E by (clear - H0 Ht; wrap). rewrite E in H1. clear - H1 Hl. change (u64 0) with 0 in H1.
  assert (u64 lo = lo) as El by (clear H1; wrap). lia.
Qed.

Lemma setpersist_active e tp tp' : 0 < hz (cce e) < 2 ^ 20 -> tcp_setpersist e tp = Some tp' -> tcp_timer_active tp' TT_PERSIST = true.
Proof.
  intros Hz. unfold tcp_setpersist. destruct (tcp_timer_active _ TT_REXMT); [discriminate|]. intros [= <-].
  set (ival := TCPT_RANGESET _ _ _ _). assert (u32 ival <> 0) as Hi.
  { pose proof (rangeset_nonzero (cce e) (s32 (Z.shiftr (Z.shiftr (t_srtt tp) 2 + t_rttvar tp) 1 * nth (Z.to_nat (t_rxtshift (clear_flag TF_PREVVALID tp))) tcp_backoff 0))
      (TCPTV_PERSMIN e) (TCPTV_PERSMAX e)) as H. rewrite u32_u32 in H. apply H; unfold TCPTV_PERSMIN, TCPTV_PERSMAX; lia. }
  clearbody ival. unfold tcp_timer_activate. destruct (Z.eqb_spec (u32 ival) 0); [contradiction|].
  unfold on_timer, tcp_timer_active. destruct (_ <? _); cbn [update t_timers timer set_timer tt_persist]; apply arm_active.
Qed.

Lemma start_rexmt_timed e s b : timer_ok e s -> s_nxt s <> s_una s -> timed (start_rexmt e s b) = true.
Proof.
  intros [_ T] H. unfold start_rexmt, timed. destruct (active TT_REXMT s) eqn:E; cbn [negb andb]; [rewrite E; reflexivity|].
  destruct (Z.eqb_spec (s_nxt s) (s_una s)); [contradiction|]. cbn [negb]. rewrite orb_true_r.
  rewrite activate_on; [reflexivity|]. destruct (active TT_PERSIST s); cbn [on_tp update o_tp t_rxtcur];
    rewrite ?activate_eq; cbn [update o_tp t_rxtcur]; rewrite u32_small; lia.
Qed.

Lemma just_return_timed e s : timer_ok e s -> 0 < cc s -> exists s', just_return e s = Some s' /\ timed s' = true.
Proof.
  intros [Hz T] Hc. unfold just_return, timed.
  destruct (active TT_REXMT s) eqn:E1; cbn [negb].
  { rewrite !andb_false_r. cbn [andb]. exists s. rewrite E1. split; reflexivity. }
  destruct (active TT_PERSIST s) eqn:E2; cbn [negb].
  { rewrite !andb_false_r. exists s. rewrite E1, E2. split; reflexivity. }
  rewrite !andb_true_r. destruct (_ && _).
  { eexists. split; [reflexivity|]. rewrite activate_on by (rewrite u32_small; lia). reflexivity. }
  destruct (Z.eqb_spec (cc s) 0); [lia|]. cbn [negb].
  pose (s0 := s <| o_tp := (o_tp s) <| t_rxtshift := 0 |> |>).
  destruct (setpersist_some e s0 E1) as [tp Ep]. change (o_tp s0) with ((o_tp s) <| t_rxtshift := 0 |>) in Ep. rewrite Ep.
  cbn [mbind option_bind]. eexists. split; [reflexivity|].
  unfold active at 2. cbn [update o_tp]. rewrite (setpersist_active _ _ _ Hz Ep). apply orb_true_r.
Qed.

Lemma sent_timed e s l s' err : sent e s l = Return s' err -> timed s' = timed s.
Proof.
  unfold sent. set (s1 := on_tp (clear_flag _) _).
  assert (timed s1 = timed s) as E1 by (subst s1; destruct (_ && _); reflexivity). clearbody s1.
  destruct (active TT_DELACK s1), (l_sendalot l); intros [= <- _]; rewrite <- E1; [|reflexivity].
  unfold timed. rewrite !activate_other by discriminate. reflexivity.
Qed.

Lemma output_error_timed e s tso err s' err' :
  timer_ok e s -> output_error e s tso err = Return s' err' -> err = ENOBUFS \/ timed s = true -> timed s' = true.
Proof.
  intros [_ T] Ho Ht. unfold output_error in Ho.
  destruct (Z.eqb_spec err EPERM) as [->|N1]; [injection Ho as <- _; destruct Ht as [Ht|Ht]; [discriminate|exact Ht]|].
  destruct (Z.eqb_spec err ENOBUFS) as [->|N2].
  - injection Ho as <- _. unfold timed. cbn [on_tp update]. destruct (active TT_REXMT s) eqn:E1; cbn [negb andb].
    + change (active TT_REXMT s || active TT_PERSIST s = true). rewrite E1. reflexivity.
    + destruct (active TT_PERSIST s) eqn:E2; cbn [negb andb].
      * change (active TT_REXMT s || active TT_PERSIST s = true). rewrite E1, E2. reflexivity.
      * change (timed (activate e TT_REXMT (t_rxtcur (o_tp s)) s) = true). unfold timed.
        rewrite activate_on by (rewrite u32_small; lia). reflexivity.
  - destruct Ht as [Ht|Ht]; [contradiction|]. destruct (err =? EMSGSIZE); [discriminate|].
    destruct (_ && _); injection Ho as <- _; exact Ht.
Qed.

(** A segment goes out: the retransmission timer runs if something is unacknowledged. *)
Lemma advance_timed e s l :
  timer_ok e s -> th TH_SYN l = false ->
  (flag TF_FORCEDATA s && active TT_PERSIST s = false -> u32 (s_nxt s + b2z (th TH_FIN l) + (if l_sack_rxmit l then 0 else l_len l)) <> s_una s) ->
  0 <= s_nxt s < 2 ^ 32 -> timed (advance e s l) = true.
Proof.
  intros T Hs Hn Hw. unfold advance. rewrite <- negb_andb, Hs. destruct (flag TF_FORCEDATA s && active TT_PERSIST s) eqn:Ep; cbn [negb].
  - apply andb_true_iff in Ep as [_ Ep].
    assert (timed s = true) as Ht by (unfold timed; rewrite Ep; apply orb_true_r).
    destruct (SEQ_GT _ _), (th TH_FIN l); exact Ht.
  - specialize (Hn eq_refl). unfold b2z in Hn. set (s1 := if th TH_FIN l then _ else s).
    assert (timer_ok e s1 /\ s_una s1 = s_una s /\ u32 (s_nxt s1) = u32 (s_nxt s + (if th TH_FIN l then 1 else 0)) /\ u32 (s_nxt s1) = s_nxt s1) as (T1 & U1 & N1 & M1).
    { subst s1. destruct T. destruct (th TH_FIN l); (split; [split; assumption|]); (split; [reflexivity|]); split.
      - change (u32 (u32 (s_nxt s + 1)) = u32 (s_nxt s + 1)). apply u32_u32.
      - change (u32 (u32 (s_nxt s + 1)) = u32 (s_nxt s + 1)). apply u32_u32.
      - rewrite Z.add_0_r. reflexivity.
      - apply u32_small. exact Hw. }
    clearbody s1. rewrite <- u32_add_l, <- N1, u32_add_l in Hn. destruct (l_sack_rxmit l).
    + rewrite Z.add_0_r, M1 in Hn. apply start_rexmt_timed; [exact T1|]. rewrite U1. exact Hn.
    + set (s2 := put_nxt (u32 (s_nxt s1 + l_len l)) s1). set (s3 := if SEQ_GT _ _ then _ else s2).
      assert (s_nxt s3 = u32 (s_nxt s1 + l_len l) /\ s_una s3 = s_una s1 /\ timer_ok e s3) as (N3 & U3 & T3).
      { subst s3. destruct T1. destruct (SEQ_GT _ _); [destruct (_ =? 0)|]; (split; [reflexivity|]); (split; [reflexivity|]); split; assumption. }
      clearbody s3. apply start_rexmt_timed; [exact T3|]. rewrite N3, U3, U1. exact Hn.
Qed.

Lemma back_out_timed s l err : timed (back_out s l err) = timed s /\ t_rxtcur (o_tp (back_out s l err)) = t_rxtcur (o_tp s).
Proof. unfold back_out. destruct (_ && _); [|auto]. destruct (rexmit_hole l); split; reflexivity. Qed.

Lemma finish_timed e seg s l s' err :
  timer_ok e s -> timed s = true -> finish e seg s l = Return s' err -> timed s' = true.
Proof.
  intros T Ht. unfold finish, ip_output. set (s1 := s <| wire := _ |> <| ip_results := _ |>).
  assert (timed s1 = true /\ timer_ok e s1) as [H1 T1] by (split; [exact Ht|destruct T; split; assumption]).
  clearbody s1. destruct (_ =? 0).
  - intros Hs. rewrite (sent_timed _ _ _ _ _ Hs). exact H1.
  - intros Ho. destruct (back_out_timed s1 l (default 0 (head (ip_results s)))) as [E1 E2].
    eapply output_error_timed; [|exact Ho|]; [destruct T1; split; [assumption|rewrite E2; assumption]|right; rewrite E1; exact H1].
Qed.

(** What the connection is like while the theorem applies. *)
Record sending (e : oenv) (q : list Z) (s : ocb) : Prop := {
  sn_data : 0 < qlen q;
  sn_wnd : 0 < Z.min (snd_wnd (o_tp s)) (snd_cwnd (o_tp s));
  sn_sack : sack_recovery s = false;
  sn_timer : timer_ok e s }.

Lemma sending_same e q s s' : same s s' -> sending e q s -> sending e q s'.
Proof.
  intros [] [H1 H2 H3 [H4 H5]]. unfold sack_recovery in *.
  split; rewrite ?sm_wnd0, ?sm_cwnd0; auto; [unfold sack_recovery; rewrite sm_sack0, sm_fast0; exact H3|].
  split; rewrite ?sm_rxtcur0; assumption.
Qed.

Lemma advance_rxtcur e s l : t_rxtcur (o_tp (advance e s l)) = t_rxtcur (o_tp s).
Proof.
  unfold advance. destruct (_ || _).
  - destruct (l_sack_rxmit l); [|destruct (SEQ_GT _ _); [destruct (_ =? 0)|]]; rewrite (kp_rxtcur _ _ (kept_start_rexmt e _ _));
    destruct (th TH_SYN l), (th TH_FIN l); reflexivity.
  - destruct (SEQ_GT _ _), (th TH_FIN l); reflexivity.
Qed.

(** The restart after an idle period keeps the window open. *)
Lemma start_sending e q s :
  CongestionControl (algo e) -> window_ok (o_tp s) -> 0 < qlen q -> 0 < snd_wnd (o_tp s) -> sack_recovery s = false ->
  timer_ok e s -> sending e q (fst (output_start e s)).
Proof.
  intros A W Hq Hw Hs Ht. unfold output_start. set (idle := _ || _). set (s1 := if idle && _ then _ else s).
  assert (sending e q s1) as Hsn.
  { assert (sending e q s) as Hs0.
    { split; try assumption. pose proof (wo_cwnd _ W). pose proof (wo_maxseg _ W). lia. }
    subst s1. match goal with |- context [if ?b then _ else s] => destruct b end; [|exact Hs0].
    unfold cc_after_idle, call_hook. destruct (after_idle (algo e)) as [f|] eqn:Ef; [|destruct s; exact Hs0].
    destruct (cc_after_idle_ok f Ef (o_tp s) W) as [[W1 W2 _ _] [Fr _]]. pose proof (cc_after_idle_flags f (o_tp s) Ef) as Fl.
    unfold on_tp. rewrite Fr, Fl. rewrite Fr in W1, W2. cbn [update t_maxseg snd_cwnd] in W1, W2.
    destruct Hs0, Ht. split; [assumption|cbn [update o_tp snd_wnd snd_cwnd]; lia|assumption|split; assumption]. }
  clearbody s1. assert (kept s1 (on_tp (clear_flag TF_LASTIDLE) s1)) as K2 by (apply kept_clear; other_flags).
  pose proof (sending_same _ _ _ _ (kept_same _ _ K2) Hsn) as C2. destruct (_ && _); cbn [fst]; [|exact C2].
  eapply sending_same; [|exact C2]. apply kept_same, kept_set. other_flags.
Qed.

Lemma send_timed e q K s l s' err :
  oenv_ok e -> conn_ok q K s -> plan q K s l -> sending e q s -> (l_len l = 0 -> 0 < off (s_una s) (s_nxt s)) ->
  output_send e s l = Return s' err -> timed s' = true.
Proof.
  intros He C P Hsn Hz Ho. destruct (send_cases e q K s l He C P) as (opt & s2 & l2 & C2 & P2 & L2 & S2 & Et & _ & _ & [[E _]|H]).
  { rewrite E in Ho. eapply output_error_timed; [|exact Ho|left; reflexivity]. exact (sn_timer _ _ _ (sending_same _ _ _ _ S2 Hsn)). }
  destruct H as (s3 & l3 & seg & Em & E). rewrite E in Ho. clear E.
  pose proof (sending_same _ _ _ _ S2 Hsn) as Hsn2. clear Hsn. assert (s_una s2 = s_una s /\ s_nxt s2 = s_nxt s) as [Eu En] by (unfold s_una, s_nxt; rewrite Et; auto).
  rewrite <- Eu, <- En in Hz. clear Et Eu En S2 C P.
  pose proof (make_segment_spec e s2 l2 (take (Z.to_nat (l_len l2)) (drop (Z.to_nat (l_off l2)) q))) as MS. rewrite Em in MS.
  destruct MS as (K3 & T3 & R3 & _). clear Em.
  destruct (unsend_spec q K s2 l l2 opt C2 P2 L2) as (C0 & B0 & U1 & U2 & U3 & U4).
  (* outside SACK recovery no hole is retransmitted *)
  assert (l_sack_rxmit l = false) as Er.
  { destruct (l_sack_rxmit l) eqn:Er; [exfalso|reflexivity]. pose proof (pl_rec _ _ _ _ P2 Er). rewrite (sn_sack _ _ _ Hsn2) in *. discriminate. }
  destruct (lm_same _ _ _ L2) as (E1 & E2 & E3 & _). cbn [update l_sack_rxmit l_p l_off] in E1, E2, E3. rewrite Er in E1.
  unfold choose_seq, rexmit_hole in K3. rewrite E1 in K3. cbn [fst] in K3.
  set (s0 := unsend_fin s2 l2) in *. clearbody s0.
  assert (same s2 s0) as S0 by (rewrite <- B0; split; try reflexivity; exists []; reflexivity).
  pose proof (sending_same _ _ _ _ (same_trans _ _ _ S0 (kept_same _ _ K3)) Hsn2) as Hsn3.
  pose proof (kept_conn _ _ _ _ C0 K3) as C3.
  assert (s_una s3 = s_una s2 /\ s_nxt s3 = s_nxt s0) as [Eu En].
  { unfold s_nxt, s_una, nxt, una. rewrite (kp_sack _ _ K3). split; [rewrite <- B0; reflexivity|reflexivity]. }
  assert (l_sack_rxmit l3 = false /\ l_len l3 = l_len l2) as [F1 F2] by (rewrite (rf_eq _ _ R3); auto).
  assert (timed (advance e s3 l3) = true) as Ha.
  { apply advance_timed.
    - exact (sn_timer _ _ _ Hsn3).
    - rewrite (rf_syn _ _ R3), (lm_syn _ _ _ L2). exact (pl_syn _ _ _ _ P2).
    - intros _ Heq. rewrite F1, F2, (rf_fin _ _ R3), Eu, En in Heq.
      pose proof (co_near _ _ _ C2) as [N1 N2]. pose proof (co_near _ _ _ C0) as [N3 N4]. rewrite (sm_una _ _ S0) in N3, N4.
      pose proof (lm_len _ _ _ L2) as Hl. pose proof (pl_len _ _ _ _ P2) as Hl0. cbn [update l_len] in Hl.
      apply (f_equal (off (s_una s2))) in Heq. rewrite off_refl, off_u32 in Heq. unfold b2z in Heq.
      assert (0 < off (s_una s2) (s_nxt s2) + l_len l2) as Hpos.
      { destruct (Z.eq_dec (l_len l) 0) as [E0|E0]; [specialize (Hz E0); lia|].
        pose proof (lm_pos _ _ _ L2) as Hp. cbn [update l_len] in Hp. lia. }
      rewrite <- Z.add_assoc, off_add in Heq by (destruct (th TH_FIN l2); lia).
      destruct U3 as [->|[Hf U3]]; [|rewrite Hf in Heq]; destruct (th TH_FIN l2); lia.
    - apply C3. }
  eapply finish_timed; [|exact Ha|exact Ho].
  destruct (sn_timer _ _ _ Hsn3) as [Z1 Z2]. split; [exact Z1|].
  assert (t_rxtcur (o_tp (advance e s3 l3)) = t_rxtcur (o_tp s3)) as ->; [|exact Z2].
  apply advance_rxtcur.
Qed.

(** While the connection has data to send and an open window, a pass that is the
    last leaves a timer running. *)
Lemma pass_timed e q K s idle s' err :
  oenv_ok e -> conn_ok q K s -> sending e q s -> output_pass e idle s = Return s' err -> timed s' = true.
Proof.
  intros He C Hsn. unfold output_pass.
  destruct (plan_spec e q K s idle C) as (s1 & l & -> & C1 & S1 & _ & _ & _ & P1 & _ & N1).
  pose proof (sending_same _ _ _ _ S1 Hsn) as Hsn1. destruct (want_send s1 l).
  - intros Ho. eapply send_timed; try eassumption. rewrite (sm_una _ _ S1).
    apply N1; [exact (sn_sack _ _ _ Hsn)|exact (sn_wnd _ _ _ Hsn)|exact (sn_data _ _ _ Hsn)].
  - destruct (just_return_timed e s1 (sn_timer _ _ _ Hsn1)) as (s2 & -> & Ht).
    + rewrite (cc_qlen q K s1 C1). exact (sn_data _ _ _ Hsn).
    + intros [= <- _]. exact Ht.
Qed.


(** ** The closed window *)

(** Data waits in the buffer, nothing is in flight, the peer's window is closed,
    no timer runs, and an ACK is owed. *)
Record closed (q : list Z) (K : Z) (s : ocb) : Prop := {
  cl_conn : conn_ok q K s;
  cl_data : 0 < qlen q;
  cl_wnd : snd_wnd (o_tp s) = 0;
  cl_nxt : s_nxt s = s_una s;
  cl_max : s_max s = s_una s;
  cl_force : flag TF_FORCEDATA s = false;
  cl_sack : sack_recovery s = false;
  cl_timed : timed s = false;
  cl_ack : flag TF_ACKNOW s = true;
  cl_mbuf : exists i rest, mbufs s = Some i :: rest;
  cl_result : default 0 (head (ip_results s)) = 0 }.

Lemma closed_plan e q K s idle : closed q K s ->
  exists l l', output_plan e idle s = Some (autosize e s l', l) /\ l_len l = 0 /\ l_sack_rxmit l = false /\ l_sendalot l = false /\ th TH_FIN l = false.
Proof.
  intros [C Hd Hw Hn Hm Hf Hs _ _ _ _]. unfold output_plan, output_begin.
  assert (SEQ_LT (s_nxt s) (s_max s) = false) as -> by (rewrite Hn, Hm; unfold SEQ_LT; rewrite Z.sub_diag; reflexivity).
  rewrite andb_false_r. unfold sack_retransmit. unfold sack_recovery in Hs. rewrite Hs. unfold force_data. rewrite Hf, (co_syn _ _ _ C).
  set (l0 := mk_locals _ _ _ _ _ _ _ _ _ _ _ _). set (l1 := if flag TF_NEEDFIN s then _ else l0).
  assert (l1 = l0 <| l_flags := l_flags l1 |> /\ th TH_SYN l1 = false) as [E1 Y1].
  { pose proof (outflags_syn s (co_state _ _ _ C)) as Y. subst l1. destruct (flag TF_NEEDFIN s); (split; [reflexivity|]); [rewrite th_set_other by reflexivity|]; exact Y. }
  clearbody l1. assert (data_len s l1 = 0) as ->.
  { unfold data_len. rewrite E1. subst l0. cbn. rewrite (cc_qlen q K s C), Hw, Hn, Z.sub_diag.
    pose proof (co_cwnd _ _ _ C). rewrite umin_small by lia. change (s32 0) with 0. lia. }
  set (l2 := l1 <| l_len := 0 |>). rewrite lop_syn_id by exact Y1. unfold window_shrank. change (l_len l2 <? 0) with false.
  cbn [mbind option_bind]. exists ((hold_fin (autosize e s l2) (choose_tso e (autosize e s l2) l2)) <| l_recwin := sbspace (so_rcv (autosize e s l2)) |>), l2.
  split; [reflexivity|].
  assert (choose_tso e (autosize e s l2) l2 = l2) as ->.
  { unfold choose_tso. assert ((t_maxseg (o_tp (autosize e s l2)) <? l_len l2) = false) as Em.
    { change (l_len l2) with 0. pose proof (co_maxseg _ _ _ (quiet_conn _ _ _ _ C (autosize_quiet e s l2))). zbool. lia. }
    rewrite Em, andb_false_r. reflexivity. }
  pose proof (quiet_conn _ _ _ _ C (autosize_quiet e s l2)) as C1. destruct (quiet_same _ _ (autosize_quiet e s l2)) as (S1 & K1 & _).
  destruct (hold_fin_spec q K (autosize e s l2) l2 C1) as (E3 & _ & F3); [change (0 <= 0 < 2 ^ 30); lia| |].
  { change (l_sack_rxmit l2) with (l_sack_rxmit l1). rewrite E1. discriminate. }
  split; [rewrite E3; reflexivity|]. split; [rewrite E3; cbn; rewrite E1; reflexivity|]. split; [rewrite E3; cbn; rewrite E1; reflexivity|].
  change (th TH_FIN (hold_fin (autosize e s l2) l2) = false). destruct (th TH_FIN (hold_fin (autosize e s l2) l2)); [|reflexivity].
  exfalso. specialize (F3 eq_refl). unfold plan_start in F3. change (l_sack_rxmit l2) with (l_sack_rxmit l1) in F3. rewrite E1 in F3. cbn in F3.
  assert (s_nxt (autosize e s l2) = s_nxt s) as En by (unfold s_nxt, nxt; rewrite K1; reflexivity).
  rewrite En, (sm_una _ _ S1), Hn, off_refl in F3. change (l_len l2) with 0 in F3. lia.
Qed.

Lemma closed_start e q K s : CongestionControl (algo e) -> window_ok (o_tp s) -> closed q K s -> closed q K (fst (output_start e s)).
Proof.
  intros A W Hc. destruct (start_conn e q K s A W (cl_conn _ _ _ Hc)) as (C1 & _ & R1).
  unfold output_start in *. set (idle := _ || _) in *. set (s1 := if idle && _ then _ else s) in *.
  assert (o_tp s1 = (o_tp s) <| snd_cwnd := snd_cwnd (o_tp s1) |> <| snd_ssthresh := snd_ssthresh (o_tp s1) |> <| ccv_flags := ccv_flags (o_tp s1) |> /\
    s1 = s <| o_tp := o_tp s1 |>) as [E1 E2].
  { subst s1. match goal with |- context [if ?b then _ else s] => destruct b end; [|destruct s as [tp]; destruct tp; split; reflexivity].
    split; [|reflexivity]. unfold cc_after_idle, call_hook. destruct (after_idle (algo e)) as [f|] eqn:Ef; [|destruct s as [tp]; destruct tp; reflexivity].
    destruct (cc_after_idle_ok f Ef (o_tp s) W) as [_ [Fr _]]. pose proof (cc_after_idle_flags f (o_tp s) Ef) as Fl.
    unfold on_tp. cbn [update o_tp]. rewrite Fr at 1. rewrite Fl. destruct (o_tp s); reflexivity. }
  clearbody s1. destruct Hc.
  assert (flag TF_FORCEDATA s1 = flag TF_FORCEDATA s /\ flag TF_ACKNOW s1 = flag TF_ACKNOW s /\ sack_recovery s1 = sack_recovery s /\ timed s1 = timed s /\
    snd_wnd (o_tp s1) = snd_wnd (o_tp s) /\ s_nxt s1 = s_nxt s /\ s_una s1 = s_una s /\ s_max s1 = s_max s /\ mbufs s1 = mbufs s /\ ip_results s1 = ip_results s)
    as (F1 & F2 & F3 & F4 & F5 & F6 & F7 & F8 & F9 & F10).
  { unfold sack_recovery, flag, timed, active, s_nxt, s_una, s_max. rewrite E1, E2. repeat split. }
  rewrite <- F1, <- F2, <- F3, <- F4, <- F5, <- F6, <- F7, <- F8, <- F9, <- F10 in *. clear F1 F2 F3 F4 F5 F6 F7 F8 F9 F10 E1 E2.
  pose proof (flag_cleared_other TF_LASTIDLE) as Fc. pose proof (flag_set_other TF_LASTIDLE) as Fs.
  destruct (idle && flag TF_MORETOCOME (on_tp (clear_flag TF_LASTIDLE) s1)); cbn [fst] in *;
    (split; [exact C1|exact cl_data0|exact cl_wnd0|assumption|assumption| | |exact cl_timed0| |exact cl_mbuf0|exact cl_result0]).
  all: unfold sack_recovery, flag, on_tp, clear_flag, set_flag in *; cbn [update o_tp t_flags] in *;
    rewrite ?Fs, ?Fc by reflexivity; assumption.
Qed.

Lemma closed_pass e q K s idle : oenv_ok e -> closed q K s ->
  exists s' seg, output_pass e idle s = Return s' 0 /\ wire s' = wire s ++ [seg] /\ th_data seg = [] /\ timed s' = false.
Proof.
  intros He Hc. unfold output_pass. destruct (closed_plan e q K s idle Hc) as (l & l' & Ep & L0 & L1 & L2 & L3).
  destruct Hc as [C Hd Hw Hn Hm Hf Hs Ht Ha (i & rest & Hmb) Hr].
  destruct (plan_spec e q K s idle C) as (s1 & l1 & Ep' & C1 & _ & _ & _ & _ & P1 & _). rewrite Ep in Ep'. injection Ep' as <- <-. rewrite Ep.
  pose proof (autosize_quiet e s l') as Q. destruct (quiet_same _ _ Q) as (S1 & K1 & W1).
  set (s1 := autosize e s l') in *.
  assert (want_send s1 l = true) as ->.
  { unfold want_send. rewrite (qt_flags _ _ Q) by reflexivity. rewrite Ha. rewrite !orb_true_r. reflexivity. }
  assert (mbufs s1 = mbufs s /\ ip_results s1 = ip_results s) as [M1 R1] by (rewrite (qt_eq _ _ Q); split; reflexivity).
  assert (timed s1 = timed s) as T1 by (subst s1; unfold timed; rewrite !autosize_active; reflexivity). clearbody s1.
  destruct (send_cases e q K s1 l He C1 P1) as (opt & s2 & l2 & C2 & P2 & Lm & S2 & Et & W2 & R2 & H).
  pose proof (lm_len _ _ _ Lm) as Hl. cbn [update l_len] in Hl. assert (l_len l2 = 0) as Hl2 by lia.
  destruct H as [[_ Hbad]|(s3 & l3 & seg & Em & ->)]; [exfalso; apply (Hbad Hl2 i rest); congruence|].
  destruct (lm_same _ _ _ Lm) as (E1 & _). cbn [update l_sack_rxmit] in E1. rewrite L1 in E1.
  assert (th TH_FIN l2 = false) as F2.
  { destruct (th TH_FIN l2) eqn:E; [|reflexivity]. destruct (lm_fin _ _ _ Lm E) as [_ F]. change (th TH_FIN (l <| l_opt := opt |>)) with (th TH_FIN l) in F. congruence. }
  assert (l_sendalot l2 = false) as A2.
  { destruct (l_sendalot l2) eqn:E; [exfalso|reflexivity]. destruct (lm_alot _ _ _ Lm E) as [F|[F _]]; cbn [update l_sendalot l_len] in F; [congruence|lia]. }
  pose proof (make_segment_spec e s2 l2 (take (Z.to_nat (l_len l2)) (drop (Z.to_nat (l_off l2)) q))) as MS. rewrite Em in MS.
  destruct MS as (K3 & T3 & R3 & _ & G2 & _). unfold choose_seq, rexmit_hole, unsend_fin in K3. rewrite E1, F2 in K3. cbn [andb fst] in K3.
  assert (l_sendalot l3 = false /\ l_sack_rxmit l3 = false /\ l_len l3 = 0 /\ th TH_FIN l3 = false /\ th TH_SYN l3 = false) as (A3 & X3 & N3 & F3 & Y3).
  { rewrite (rf_syn _ _ R3), (rf_fin _ _ R3), F2, (lm_syn _ _ _ Lm), (rf_eq _ _ R3). cbn. repeat split; auto. exact (pl_syn _ _ _ _ P1). }
  assert (t_sack (o_tp s3) = t_sack (o_tp s)) as Es by (rewrite (kp_sack _ _ K3), Et; exact K1).
  assert (s_nxt s3 = s_una s3 /\ s_max s3 = s_una s3 /\ 0 <= s_una s3 < 2 ^ 32) as (Hn3 & Hm3 & Hw3).
  { unfold s_nxt, s_una, s_max, nxt, una, smax in *. rewrite Es. split; [exact Hn|]. split; [exact Hm|]. apply C. }
  assert (flag TF_FORCEDATA s3 = false) as Hf3 by (rewrite (kept_flag _ _ _ K3) by core; rewrite (sm_force _ _ S2), (sm_force _ _ S1); exact Hf).
  assert (timed s3 = false) as T3' by (rewrite (timed_timers s2) by exact T3; rewrite (timed_timers s1) by (rewrite Et; reflexivity); congruence).
  assert (advance e s3 l3 = s3) as Ea.
  { unfold advance. rewrite Hf3, Y3, F3, X3, N3, Hn3. cbn [negb orb]. rewrite Z.add_0_r, u32_small by exact Hw3. rewrite <- Hn3, put_nxt_id.
    assert (SEQ_GT (s_nxt s3) (s_max s3) = false) as -> by (rewrite Hn3, Hm3; unfold SEQ_GT; rewrite Z.sub_diag; reflexivity).
    unfold start_rexmt. rewrite Hn3, Z.eqb_refl. cbn [negb andb orb]. rewrite andb_false_r. reflexivity. }
  rewrite Ea. unfold finish, ip_output. rewrite (kp_results _ _ K3), R2, R1, Hr. change (0 =? 0) with true. cbn iota.
  pose proof (sent_spec e (s3 <| wire := wire s3 ++ [seg] |> <| ip_results := tail (ip_results s) |>) l3) as SS.
  destruct (sent e _ l3) as [s6 err|s6| |] eqn:Esent; try contradiction; [|destruct SS as [_ SS]; congruence].
  destruct SS as [SK ->]. exists s6, seg. split; [reflexivity|].
  split; [rewrite (kp_wire _ _ SK); cbn [update wire]; rewrite (kp_wire _ _ K3); congruence|].
  split; [rewrite G2, Hl2; reflexivity|]. rewrite (sent_timed _ _ _ _ _ Esent). exact T3'.
Qed.

(** C21: the connection that goes to sleep.  When the peer closed its window with
    everything acknowledged, data waits in the send buffer and an ACK is owed,
    tcp_output sends the ACK, without data, and returns with neither the
    retransmission nor the persist timer running: nothing will probe the window
    (the code goes to persist state only when it has nothing to send). *)
Theorem tcp_output_closed_window_stalls e q K s fuel :
  oenv_ok e -> CongestionControl (algo e) -> window_ok (o_tp s) -> inp_passive s = false -> closed q K s -> (0 < fuel)%nat ->
  exists s' seg, tcp_output e fuel s = Returned s' 0 /\ wire s' = wire s ++ [seg] /\ th_data seg = [] /\
    active TT_REXMT s' = false /\ active TT_PERSIST s' = false.
Proof.
  intros He A W Hp Hc Hf. unfold tcp_output. rewrite Hp. destruct (start_conn e q K s A W (cl_conn _ _ _ Hc)) as (_ & W1 & _).
  pose proof (closed_start e q K s A W Hc) as C1. destruct (output_start e s) as [s1 idle]. cbn [fst] in *.
  destruct (closed_pass e q K s1 idle He C1) as (s2 & seg & E & W2 & D & T). destruct fuel as [|fuel]; [lia|].
  cbn [output_loop]. rewrite E. exists s2, seg. split; [reflexivity|]. split; [congruence|]. split; [exact D|].
  apply orb_false_iff. exact T.
Qed.

(** ** Retransmission beyond the congestion window *)

(** The window left to a retransmission from the scoreboard is computed as an
    unsigned number: when more than the window was retransmitted already, the
    test for a negative one never holds, and the whole rest of the hole (up to
    snd_recover) is due for retransmission instead of nothing. *)
Theorem sack_retransmit_exceeds_window q K s l p k bytes :
  conn_ok q K s -> sack_recovery s = true -> tcp_sack_output (t_sack (o_tp s)) = (k, Some p, bytes) ->
  SEQ_GT (h_end p) (snd_recover (o_tp s)) = false ->
  Z.min (snd_wnd (o_tp s)) (snd_cwnd (o_tp s)) < bytes ->
  l_len (snd (sack_retransmit s l)) = u32 (h_end p - h_rxmit p) /\ l_sack_rxmit (snd (sack_retransmit s l)) = true.
Proof.
  intros C Hs Ho Hrec Hw. unfold sack_retransmit. unfold sack_recovery in Hs. rewrite Hs, Ho.
  pose proof (output_spec (s_una s) 0 _ _ (co_board _ _ _ C)) as O. rewrite Ho in O. destruct O as (O1 & O2 & O3 & O4 & O5).
  pose proof (co_board _ _ _ C) as (_ & W2 & Ch & _). symmetry in O1. apply find_split in O1 as (A & B & E & _ & Hp).
  rewrite E in Ch, O2. pose proof (chain_bounds _ _ _ _ p Ch ltac:(apply elem_of_app; right; left)) as (B1 & B2 & B3 & B4).
  pose proof (retransmitted_bounds _ _ _ _ Ch) as Hb. rewrite <- O2 in Hb.
  cbn [on_sack on_tp update o_tp snd_wnd snd_cwnd snd_recover]. rewrite Hrec.
  pose proof (co_wnd _ _ _ C). pose proof (co_cwnd _ _ _ C). rewrite umin_small by lia.
  assert (u32 (h_end p - h_rxmit p) = he (s_una s) p - hr (s_una s) p) as Ed.
  { apply (u32_sub_near (s_una s)); [reflexivity|]. unfold he, hr in *. lia. }
  rewrite (to_send_off (s_una s) _ _ _ p Ch) in Hp by (try apply elem_of_app; try lia; right; left). apply Z.ltb_lt in Hp.
  assert (2 ^ 31 <= u32 (Z.min (snd_wnd (o_tp s)) (snd_cwnd (o_tp s)) - bytes)) as Hc.
  { set (c := Z.min _ _) in *. assert (0 <= c) by lia. clearbody c. clear - Hw H1 Hb W2. wrap. }
  rewrite Ed, Z.min_r by lia. destruct (Z.ltb_spec 0 (he (s_una s) p - hr (s_una s) p)); [|lia]. split; reflexivity.
Qed.

(** ** The window advertised *)

(** The window that [receive_window] decides on. *)
Lemma receive_window_bounds s recwin :
  let adv := off (rnxt s) (rcv_adv s) in let top := Z.shiftl TCP_MAXWIN (rcv_scale s) in
  0 <= rcv_scale s <= TCP_MAX_WINSHIFT -> 0 <= adv <= top -> 0 <= recwin < 2 ^ 31 ->
  adv <= receive_window s recwin <= Z.max adv recwin /\ receive_window s recwin <= top.
Proof.
  intros adv top Hs Ha Hr. unfold receive_window. fold top. set (w := if _ && _ then 0 else recwin).
  assert (0 <= w <= recwin) as Hw by (subst w; destruct (_ && _); lia). clearbody w.
  assert (top < 2 ^ 31) as Ht.
  { subst top. rewrite Z.shiftl_mul_pow2 by lia. unfold TCP_MAXWIN, TCP_MAX_WINSHIFT in *.
    assert (2 ^ rcv_scale s <= 2 ^ 14) by (apply Z.pow_le_mono_r; lia). change (2 ^ 14) with 16384 in *. lia. }
  assert (u32 (rcv_adv s - rnxt s) = adv) as Ea.
  { subst adv. unfold off in *. set (x := rcv_adv s - rnxt s) in *. clearbody x. clear - Ha. wrap. }
  assert (SEQ_GT (rcv_adv s) (rnxt s) = (0 <? adv)) as ->.
  { unfold SEQ_GT. fold (off (rnxt s) (rcv_adv s)). fold adv. zbool_cases; lia. }
  rewrite Ea. destruct (Z.ltb_spec 0 adv), (Z.ltb_spec w adv); cbn [andb];
    match goal with |- context [if ?b then _ else _] => destruct b eqn:E end; zbool; lia.
Qed.

Lemma mark_ecn_window e s l :
  let '(s', l', _) := mark_ecn e s l in
  rnxt s' = rnxt s /\ rcv_adv s' = rcv_adv s /\ rcv_scale s' = rcv_scale s /\ l_recwin l' = l_recwin l.
Proof.
  unfold mark_ecn. set (s0 := if _ && _ && _ then put_nxt _ s else s).
  assert (rnxt s0 = rnxt s /\ rcv_adv s0 = rcv_adv s /\ rcv_scale s0 = rcv_scale s) as (A1 & A2 & A3) by (subst s0; destruct (_ && _); repeat split).
  clearbody s0. set (l1 := if _ && _ && _ then _ else l). assert (l_recwin l1 = l_recwin l) as A4 by (subst l1; destruct (_ && _); reflexivity).
  clearbody l1. match goal with |- context [if ?b then _ else (s0, l1, false)] => destruct b end; [|auto].
  destruct (flag TF_ECN_SND_CWR s0); (split; [exact A1|]); (split; [exact A2|]); (split; [exact A3|]); destruct (flag TF_ECN_SND_ECE _); exact A4.
Qed.

(** ** Concrete connections *)

Lemma sample_timer_ok flags wnd : timer_ok sample_oenv (sample_ocb flags wnd).
Proof. split; [change (0 < 100 < 2 ^ 20)|change (0 < 300 < 2 ^ 31)]; lia. Qed.

Lemma sample_window_33 flags wnd : window_ok (o_tp (sample_ocb flags wnd)).
Proof. split; cbn; unfold TCP_MAX_WINSHIFT; lia. Qed.


(** 80 bytes wait, the window is closed: only an ACK goes out and no timer runs. *)
Lemma tcp_output_closed_window_stalls_witness :
  exists s' seg, tcp_output sample_oenv 1 (sample_ocb TF_ACKNOW 0) = Returned s' 0 /\ wire s' = [seg] /\ th_data seg = [] /\
    sb_cc (so_snd s') = 80 /\ active TT_REXMT s' = false /\ active TT_PERSIST s' = false.
Proof.
  destruct (tcp_output_closed_window_stalls sample_oenv sample_data 0 (sample_ocb TF_ACKNOW 0) 1) as (s' & seg & E & Hw & D & T1 & T2).
  - exact sample_oenv_ok.
  - exact (newreno_congestion_control sample_ccenv sample_env_ok).
  - apply sample_window_33.
  - reflexivity.
  - split; try reflexivity; [apply sample_conn_ok; [lia|auto]|do 2 eexists; reflexivity].
  - lia.
  - exists s', seg. split; [exact E|]. split; [exact Hw|]. split; [exact D|]. split; [|split; assumption].
    vm_compute in E. injection E as <-. reflexivity.
Defined.

(** Three holes of 10 bytes, two of them retransmitted, and a congestion window of
    15 bytes: the third hole is retransmitted at once. *)
Definition sample_holes : list sackhole :=
  [mk_sackhole 1 5000 5010 5010; mk_sackhole 2 5020 5030 5030; mk_sackhole 3 5040 5050 5040].
Definition sample_lossy : ocb :=
  let s := sample_ocb (Z.lor TF_SACK_PERMIT TF_FASTRECOVERY) 65535 in
  on_tp (fun tp => tp <| snd_cwnd := 15 |> <| snd_recover := 5070 |>
     <| t_sack := (t_sack tp) <| snd_nxt := 5070 |> <| snd_max := 5070 |> <| snd_fack := 5060 |> <| snd_holes := sample_holes |>
                    <| snd_numholes := 3 |> <| tcp_sack_globalholes := 3 |> <| sack_bytes_rexmit := 20 |> <| nexthole := Some 3 |>
                    <| sack_hole_zone := [4; 5; 6] |> |>) s.

Lemma sample_lossy_ok : conn_ok sample_data 70 sample_lossy.
Proof.
  split.
  - exact sample_snd_holds.
  - reflexivity.
  - change (board_wf 5000 0 70 (t_sack (o_tp sample_lossy))).
    split; [lia|]. split; [lia|]. split; [vm_compute; repeat split; congruence|]. do 2 (split; [reflexivity|]). split; [cbn; lia|].
    split; [apply (bool_decide_unpack _); vm_compute; exact I|].
    exists [mk_sackhole 1 5000 5010 5010; mk_sackhole 2 5020 5030 5030], [mk_sackhole 3 5040 5050 5040].
    split; [reflexivity|]. split; [repeat constructor|reflexivity].
  - intros _. vm_compute. repeat split; congruence.
  - change (snd_holes (t_sack (o_tp sample_lossy))) with sample_holes. repeat (constructor; [vm_compute; repeat split; congruence|]). constructor.
  - vm_compute. congruence.
  - change (in_order 5000 sample_holes).
    intros [|a [|b [|c A]]] p B E Hlt; unfold sample_holes in E; cbn [app] in E.
    + injection E as <- <-. discriminate.
    + injection E as _ <- <-. discriminate.
    + injection E as _ _ <- <-. constructor.
    + injection E as _ _ _ E. destruct A; discriminate.
  - vm_compute. repeat split; congruence.
  - vm_compute. split; congruence.
  - vm_compute. congruence.
  - vm_compute. split; congruence.
  - reflexivity.
  - change (0 <= 65535 < 2 ^ 31). lia.
  - change (0 <= 15 < 2 ^ 31). lia.
  - change (0 < 33 < 2 ^ 16). lia.
  - vm_compute. repeat split; congruence.
  - cbn. lia.
  - discriminate.
Qed.

Lemma sack_retransmit_exceeds_window_witness :
  l_len (snd (sack_retransmit sample_lossy (snd (output_begin false sample_lossy)))) = 10 /\
  Z.min (snd_wnd (o_tp sample_lossy)) (snd_cwnd (o_tp sample_lossy)) = 15 /\
  sack_bytes_rexmit (t_sack (o_tp sample_lossy)) = 20.
Proof.
  split; [|split; reflexivity].
  apply (sack_retransmit_exceeds_window sample_data 70 sample_lossy (snd (output_begin false sample_lossy))
           (mk_sackhole 3 5040 5050 5040) (t_sack (o_tp sample_lossy)) 20 sample_lossy_ok); vm_compute; reflexivity.
Defined.

End OutputTimers.
