(* ===== verification/TcpInput.v ===== *)
(** * TCP segment processing

    [tcp_do_segment] of sys/netinet/tcp_input.c: what a segment does to a
    connection, from the option parsing to the labels at its end, and what it
    calls: [tcp_dropwithreset] and [tcp_pulloutofband] (tcp_input.c),
    [tcp_respond], [tcp_drop] and [tcp_close] (tcp_subr.c), [soisconnected] and
    [soisdisconnected] (uipc_socket.c).

    The control block is that of TcpOutput.v ([ic_o]) with the fields only input
    uses, the reassembly queue of TcpReass.v ([ic_reass]; the fields the two
    share are copied in and out around a call of [tcp_reass]) and the socket.
    A jump is a value of [flow].  Statistics, locks, log messages, wakeups and
    the helper hooks are left out, and so are [sofree] and [tcp_twstart]: a
    segment that starts TIME_WAIT ends in [InTimeWait] with the state in which
    [tcp_twstart] is called.  The build has no INET6, MAC, TCPDEBUG or
    TCP_SIGNATURE, and no accept filter. *)

From S2P Require Import Prelude TcpSeq Callout SockBuf TcpReass TcpOptions TcpSack TcpCC TcpTimer TcpOutput.

Module Input.

Import (hints) TcpReass.Reass.
Import SockBuf.Sockbuf TcpSack.Sack TcpCC.CC TcpTimer.Timer TcpOutput.Output.

(** ** Constants *)

Definition TF_RCVD_SCALE := 64.
Definition tcprexmtthresh := 3.
Definition TCP_PAWS_IDLE := 24 * 24 * 60 * 60 * 1000.
Definition TCPOOB_HAVEDATA := 1.
Definition TCPOOB_HADDATA := 2.
Definition IPTOS_ECN_CE := 3.
Definition IPTOS_ECN_MASK := 3.
Definition BANDLIM_UNLIMITED := -1.
Definition BANDLIM_RST_OPENPORT := 4.
Definition ECONNRESET := 54.
Definition ECONNREFUSED := 61.
Definition SBS_RCVATMARK := 64.
Definition SS_NOFDREF := 1.
Definition SS_ISCONNECTED := 2.
Definition SS_ISCONNECTING := 4.
Definition SS_ISDISCONNECTING := 8.
Definition SS_ISCONFIRMING := 1024.
Definition SS_ISDISCONNECTED := 8192.
Definition SS_PROTOREF := 16384.
Definition SQ_INCOMP := 2048.
Definition SQ_COMP := 4096.
Definition SO_OOBINLINE := 256.
Definition SO_PASSIVE := 131072.

(** ** State *)

(** [so_head] holds [so_incqlen] and [so_qlen] of the listening socket, if there
    is one; [ic_freed] is set when [tcp_close] has let the control block go;
    [ic_mbuf] is the address of the next mbuf to be queued. *)
Record icb := mk_icb {
  ic_o : ocb;
  ic_reass : TcpReass.Reass.tcpcb;
  snd_wl1 : Z;
  snd_wl2 : Z;
  rcv_wnd : Z;
  rcv_up : Z;
  irs : Z;
  ts_recent_age : Z;
  t_rttlow : Z;
  rfbuf_cnt : Z;
  snd_limited : Z;
  t_iobc : Z;
  t_oobflags : Z;
  so_oobmark : Z;
  so_error : Z;
  so_state : Z;
  so_options : Z;
  so_qstate : Z;
  so_head : option (Z * Z);
  inp_sockref : bool;
  ic_freed : bool;
  ic_mbuf : Z }.

#[export] Instance eta_icb : Eta icb := fun r =>
  mk_icb (ic_o r) (ic_reass r) (snd_wl1 r) (snd_wl2 r) (rcv_wnd r) (rcv_up r) (irs r) (ts_recent_age r)
    (t_rttlow r) (rfbuf_cnt r) (snd_limited r) (t_iobc r) (t_oobflags r) (so_oobmark r) (so_error r)
    (so_state r) (so_options r) (so_qstate r) (so_head r) (inp_sockref r) (ic_freed r) (ic_mbuf r).

(** The kernel variables, and what is outside: the host cache entry of the peer,
    the rate limit of [badport_bandlim], the stack the options are parsed into,
    and the mbufs ([chain_of], from an address on) the bytes of a received
    segment are in. *)
Record ienv := mk_ienv {
  oe : oenv;
  reass_env : TcpReass.Reass.env;
  tcp_delack_enabled : bool;
  tcp_delacktime : Z;
  tcp_insecure_rst : bool;
  tcp_do_rfc3042 : bool;
  tcp_do_sack : bool;
  tcp_do_autorcvbuf : bool;
  tcp_autorcvbuf_inc : Z;
  tcp_autorcvbuf_max : Z;
  tcp_finwait2_timeout : Z;
  metrics : hc_metrics_lite;
  badport_bandlim : Z -> Z;
  stack_to : tcpopt;
  chain_of : Z -> list Z -> list mbuf }.

(** A received segment: the header in host order, the option bytes and the data,
    the ECN bits of the IP header, and whether an address is a broadcast or
    multicast one, of the link or of IP. *)
Record packet := mk_packet {
  p_seq : Z;
  p_ack : Z;
  p_flags : Z;
  p_win : Z;
  p_urp : Z;
  p_opt : list Z;
  p_data : list Z;
  p_tos : Z;
  p_bcast : bool }.

Definition on_o (f : ocb -> ocb) (s : icb) : icb := s <| ic_o := f (ic_o s) |>.
Definition on_cb (f : tcpcb -> tcpcb) (s : icb) : icb := on_o (on_tp f) s.
Definition cb (s : icb) : tcpcb := o_tp (ic_o s).
Definition state (s : icb) : Z := t_state (cb s).
Definition iflag (f : Z) (s : icb) : bool := flag f (ic_o s).
Definition raise (f : Z) (s : icb) : icb := on_cb (set_flag f) s.
Definition lower (f : Z) (s : icb) : icb := on_cb (clear_flag f) s.
Definition to_state (v : Z) (s : icb) : icb := on_cb (fun tp => tp <| t_state := v |>) s.
Definition put_rnxt (v : Z) (s : icb) : icb := on_o (on_sack (fun k => k <| rcv_nxt := u32 v |>)) s.
Definition put_una (v : Z) (s : icb) : icb := on_o (on_sack (fun k => k <| snd_una := u32 v |>)) s.
Definition on_rcv (f : sockbuf -> sockbuf) (s : icb) : icb := on_o (fun o => o <| so_rcv := f (so_rcv o) |>) s.
Definition on_snd (f : sockbuf -> sockbuf) (s : icb) : icb := on_o (fun o => o <| so_snd := f (so_snd o) |>) s.
Definition start_timer (e : ienv) (t : timer_type) (delta : Z) (s : icb) : icb := on_o (activate (oe e) t delta) s.
Definition running (t : timer_type) (s : icb) : bool := active t (ic_o s).
Definition now (e : ienv) : Z := ticks (te (oe e)).
Definition irnxt (s : icb) : Z := rnxt (ic_o s).
Definition cant_receive (s : icb) : bool := has_flag (sb_state (so_rcv (ic_o s))) SBS_CANTRCVMORE.

(** [DELAY_ACK]: the ACK may wait. *)
Definition DELAY_ACK (e : ienv) (s : icb) : bool :=
  negb (running TT_DELACK s) && negb (iflag TF_RXWIN0SENT s) && (tcp_delack_enabled e || iflag TF_NEEDSYN s).

(** [tcp_output], with fuel for every byte of the send buffer and every result
    of [ip_output] to come; [None]: a panic. *)
Definition output_fuel (o : ocb) : nat := (2 * Z.to_nat (cc o) + 4) * S (length (ip_results o)).
Definition run_output (e : ienv) (s : icb) : option icb :=
  match tcp_output (oe e) (output_fuel (ic_o s)) (ic_o s) with
  | Returned o _ => Some (s <| ic_o := o |>)
  | _ => None
  end.

(** ** The socket *)

Definition soisconnected (s : icb) : icb :=
  let s := s <| so_state := Z.lor (Z.land (so_state s)
                  (Z.lnot (Z.lor SS_ISCONNECTING (Z.lor SS_ISDISCONNECTING SS_ISCONFIRMING)))) SS_ISCONNECTED |> in
  match so_head s with
  | Some (incqlen, qlen) =>
      if has_flag (so_qstate s) SQ_INCOMP
      then s <| so_head := Some (incqlen - 1, qlen + 1) |>
             <| so_qstate := Z.lor (Z.land (so_qstate s) (Z.lnot SQ_INCOMP)) SQ_COMP |>
      else s
  | None => s
  end.

Definition socantrcvmore (s : icb) : icb :=
  on_rcv (fun sb => sb <| sb_state := Z.lor (sb_state sb) SBS_CANTRCVMORE |>) s.

(** [None]: the panic of [sbdrop]. *)
Definition soisdisconnected (s : icb) : option icb :=
  let s := s <| so_state := Z.lor (Z.land (so_state s)
                  (Z.lnot (Z.lor SS_ISCONNECTING (Z.lor SS_ISCONNECTED SS_ISDISCONNECTING)))) SS_ISDISCONNECTED |> in
  let s := socantrcvmore s in
  let s := on_snd (fun sb => sb <| sb_state := Z.lor (sb_state sb) SBS_CANTSENDMORE |>) s in
  sb ← sbdrop_internal (s32 (cc (ic_o s))) (so_snd (ic_o s));
  Some (on_snd (fun _ => sb) s).

(** ** tcp_subr.c *)

(** [ic_freed] tells that NULL is returned. *)
Definition tcp_close (s : icb) : option icb :=
  let s := on_cb (fun tp => tp <| inp_dropped := true |>) s in
  s ← soisdisconnected s;
  Some (if inp_sockref s
        then s <| inp_sockref := false |> <| so_state := Z.land (so_state s) (Z.lnot SS_PROTOREF) |>
               <| ic_freed := true |>
        else s).

Definition tcp_drop (e : ienv) (errno : Z) (s : icb) : option icb :=
  s ← (if TCPS_HAVERCVDSYN (state s) then run_output e (to_state TCPS_CLOSED s) else Some s);
  let errno := if (errno =? ETIMEDOUT) && negb (t_softerror (cb s) =? 0) then t_softerror (cb s) else errno in
  tcp_close (s <| so_error := errno |>).

(** [tp] tells whether there is a control block, [m] whether the mbuf of a
    received segment is reused; without one the segment is an ACK made from the
    template. *)
Definition tcp_respond (e : ienv) (tp m : bool) (ack seq flags : Z) (s : icb) : icb :=
  let o := ic_o s in
  if tp && inp_passive o then s
  else
    let scale := if tp then rcv_scale o else 0 in
    let win := if tp && negb (has_flag flags TH_RST)
               then Z.min (sbspace (so_rcv o)) (Z.shiftl TCP_MAXWIN scale) else 0 in
    let '(o, ok) := if m then (o, true) else get_mbuf o in
    let s := s <| ic_o := o |> in
    if negb ok then s
    else
      let flags := if m then flags else TH_ACK in
      let seg := mk_segment (u32 seq) (u32 ack) flags (u16 (Z.shiftr win scale)) 0 [] [] false
                   (path_mtu_discovery (oe e)) None in
      s <| ic_o := fst (ip_output seg o) |>.

(** ** Control flow *)

(** The local variables of [tcp_do_segment].  [v_seq] and [v_urp] are the header
    fields it changes, [v_thflags] its copy of the flags; [v_data] is what is
    behind the header in the mbuf chain, and [v_skip] how much of that is to be
    dropped from the front ([drop_hdrlen] less the header). *)
Record vars := mk_vars {
  v_pkt : packet;
  v_seq : Z;
  v_urp : Z;
  v_thflags : Z;
  v_data : list Z;
  v_skip : Z;
  v_tlen : Z;
  v_tiwin : Z;
  v_to : tcpopt;
  v_needoutput : bool }.

#[export] Instance eta_vars : Eta vars := fun r =>
  mk_vars (v_pkt r) (v_seq r) (v_urp r) (v_thflags r) (v_data r) (v_skip r) (v_tlen r) (v_tiwin r)
    (v_to r) (v_needoutput r).

Inductive label :=
  | drop_it
  | dropafterack
  | dropwithreset (rstreason : Z)
  | check_delack
  | process_ACK
  | step6.

(** A stage falls through to the next one, jumps, starts TIME_WAIT, or panics. *)
Inductive flow :=
  | Next (s : icb) (v : vars)
  | Goto (l : label) (s : icb) (v : vars)
  | TwStart (s : icb)
  | Panic.

Definition andthen (f : flow) (k : icb -> vars -> flow) : flow :=
  match f with Next s v => k s v | _ => f end.
Notation "f >>> k" := (andthen f k) (at level 50, left associativity).

(** The stages that begin at a label are also reached by jumping to it. *)
Definition at_label (l : label) (f : flow) (k : icb -> vars -> flow) : flow :=
  match f with
  | Next s v => k s v
  | Goto process_ACK s v => match l with process_ACK => k s v | _ => f end
  | Goto step6 s v => match l with step6 => k s v | _ => f end
  | Goto check_delack s v => match l with check_delack => k s v | _ => f end
  | _ => f
  end.

Definition lift (r : option icb) (k : icb -> flow) : flow :=
  match r with Some s => k s | None => Panic end.

Definition thf (f : Z) (v : vars) : bool := has_flag (v_thflags v) f.
Definition clear_thf (f : Z) (v : vars) : vars := v <| v_thflags := Z.land (v_thflags v) (Z.lnot f) |>.
Definition v_ack (v : vars) : Z := p_ack (v_pkt v).
Definition has_ts (v : vars) : bool := has_flag (to_flags (v_to v)) TOF_TS.

(** [m_adj] with a negative length: bytes go from the end. *)
Definition trim_tail (n : Z) (bs : list Z) : list Z := take (length bs - Z.to_nat n) bs.

(** ** Before the states *)

Definition process_ecn (e : ienv) (p : packet) (s : icb) : icb :=
  if iflag TF_ECN_PERMIT s then
    let s := if has_flag (p_flags p) TH_CWR then lower TF_ECN_SND_ECE s else s in
    let s := if Z.land (p_tos p) IPTOS_ECN_MASK =? IPTOS_ECN_CE then raise TF_ECN_SND_ECE s else s in
    if has_flag (p_flags p) TH_ECE
    then on_cb (fun tp => cc_cong_signal (algo (oe e)) tp (Some (p_ack p)) CC_ECN) s else s
  else s.

(** A timestamp echo from the future is not used. *)
Definition echoed (e : ienv) (s : icb) (to : tcpopt) : tcpopt :=
  if has_flag (to_flags to) TOF_TS && negb (to_tsecr to =? 0) then
    let tsecr := u32 (to_tsecr to - ts_offset (ic_o s)) in
    to <| to_tsecr := if TSTMP_GT tsecr (ts_ticks (oe e)) then 0 else tsecr |>
  else to.

Definition record_timestamp (e : ienv) (to : tcpopt) (s : icb) : icb :=
  (on_o (fun o => o <| ts_recent := to_tsval to |>) s) <| ts_recent_age := ts_ticks (oe e) |>.

(** The options of a SYN in SYN_SENT. *)
Definition syn_options (e : ienv) (p : packet) (to : tcpopt) (s : icb) : icb :=
  let s := if has_flag (to_flags to) TOF_SCALE && iflag TF_REQ_SCALE s
           then on_cb (fun tp => (set_flag TF_RCVD_SCALE tp) <| snd_scale := to_wscale to |>) s else s in
  let s := on_cb (fun tp => tp <| snd_wnd := p_win p |>) s in
  let s := if has_flag (to_flags to) TOF_TS then record_timestamp e to (raise TF_RCVD_TSTMP s) else s in
  let s := if has_flag (to_flags to) TOF_MSS then on_o (tcp_mss (oe e) (to_mss to)) s else s in
  if iflag TF_SACK_PERMIT s && negb (has_flag (to_flags to) TOF_SACKPERM) then lower TF_SACK_PERMIT s else s.

(** From the start to the option processing; [None]: the options are read
    outside the header. *)
Definition begin_segment (e : ienv) (p : packet) (s : icb) : option (icb * vars) :=
  let s := on_o (on_sack (fun k => k <| last_sack_ack := 0 |>)) s in
  let s := on_cb (fun tp => tp <| t_rcvtime := u32 (now e) |>) s in
  let s := if TCPS_HAVEESTABLISHED (state s)
           then start_timer e TT_KEEP (TP_KEEPIDLE (te (oe e)) (cb s)) s else s in
  let tiwin := Z.shiftl (p_win p) (snd_scale (cb s)) in
  let s := process_ecn e p s in
  to ← tcp_dooptions (tcp_do_sack e) (stack_to e) (p_opt p) (if has_flag (p_flags p) TH_SYN then TO_SYN else 0);
  let to := echoed e s to in
  let s := if (state s =? TCPS_SYN_SENT) && has_flag (p_flags p) TH_SYN then syn_options e p to s else s in
  Some (s, mk_vars p (p_seq p) (p_urp p) (p_flags p) (p_data p) 0 (Z.of_nat (length (p_data p))) tiwin to false).

(** *** Round-trip time *)

Definition TCP_TS_TO_TICKS (e : ienv) (t : Z) : Z := u32 (t * hz (cce (te (oe e)))) / 1000.

Definition sample_rtt (e : ienv) (low rtt : Z) (s : icb) : icb :=
  let s := if (t_rttlow s =? 0) || (u32 low <? u32 (t_rttlow s)) then s <| t_rttlow := s32 low |> else s in
  on_cb (fun tp => tcp_xmit_timer (cce (te (oe e))) tp (s32 rtt)) s.

Definition update_rtt (e : ienv) (v : vars) (s : icb) : icb :=
  if has_ts v && negb (to_tsecr (v_to v) =? 0) then
    let t := u32 (ts_ticks (oe e) - to_tsecr (v_to v)) in
    sample_rtt e t (TCP_TS_TO_TICKS e t + 1) s
  else if negb (t_rtttime (cb s) =? 0) && SEQ_GT (v_ack v) (t_rtseq (ic_o s)) then
    let t := u32 (now e - t_rtttime (cb s)) in sample_rtt e t t s
  else s.

(** "Bad retransmit" recovery. *)
Definition undo_rexmt (e : ienv) (v : vars) (s : icb) : icb :=
  if (t_rxtshift (cb s) =? 1) && iflag TF_PREVVALID s && (s32 (now e - t_badrxtwin (cb s)) <? 0)
  then on_cb (fun tp => cc_cong_signal (algo (oe e)) tp (Some (v_ack v)) CC_RTO_ERR) s
  else s.

(** *** Header prediction *)

Definition predicted (e : ienv) (s : icb) (v : vars) : bool :=
  (state s =? TCPS_ESTABLISHED) && (v_seq v =? irnxt s)
  && (Z.land (v_thflags v) (Z.lor TH_SYN (Z.lor TH_FIN (Z.lor TH_RST (Z.lor TH_URG TH_ACK)))) =? TH_ACK)
  && (s_nxt (ic_o s) =? s_max (ic_o s))
  && negb (v_tiwin v =? 0) && (v_tiwin v =? snd_wnd (cb s))
  && negb (iflag (Z.lor TF_NEEDSYN TF_NEEDFIN) s)
  && is_empty (TcpReass.Reass.t_segq (ic_reass s))
  && (negb (has_ts v) || TSTMP_GEQ (to_tsval (v_to v)) (ts_recent (ic_o s))).

(** A pure ACK for data outstanding. *)
Definition predicted_ack (s : icb) (v : vars) : bool :=
  SEQ_GT (v_ack v) (s_una (ic_o s)) && SEQ_LEQ (v_ack v) (s_max (ic_o s))
  && negb (IN_RECOVERY (t_flags (cb s))) && negb (has_flag (to_flags (v_to v)) TOF_SACK)
  && is_empty (snd_holes (t_sack (cb s))).

Definition restart_rexmt (e : ienv) (all : bool) (s : icb) : icb :=
  if all then start_timer e TT_REXMT 0 s
  else if negb (running TT_PERSIST s) then start_timer e TT_REXMT (t_rxtcur (cb s)) s
  else s.

Definition drop_acked (n : Z) (s : icb) : option icb :=
  sb ← sbdrop_internal n (so_snd (ic_o s)); Some (on_snd (fun _ => sb) s).

(** [snd_recover] stays behind [snd_una] when the sequence space wraps. *)
Definition pull_recover (v : vars) (s : icb) : icb :=
  if SEQ_GT (s_una (ic_o s)) (snd_recover (cb s)) && SEQ_LEQ (v_ack v) (snd_recover (cb s))
  then on_cb (fun tp => tp <| snd_recover := u32 (v_ack v - 1) |>) s else s.

Definition predict_ack (e : ienv) (s : icb) (v : vars) : flow :=
  let s := update_rtt e v (undo_rexmt e v s) in
  let acked := s32 (BYTES_THIS_ACK (cb s) (v_ack v)) in
  lift (drop_acked acked s) (fun s =>
    let s := pull_recover v s in
    let s := on_cb (fun tp => cc_ack_received (cce (te (oe e))) (algo (oe e)) tp (v_ack v) CC_ACK) s in
    let s := put_una (v_ack v) s in
    let s := on_cb (fun tp => tp <| t_dupacks := 0 |>) (s <| snd_wl2 := v_ack v |>) in
    let s := restart_rexmt e (s_una (ic_o s) =? s_max (ic_o s)) s in
    lift (if negb (cc (ic_o s) =? 0) then run_output e s else Some s) (fun s => Goto check_delack s v)).

(** The new size of the receive buffer, 0 for the old one.  [to_tsecr] is read
    whether the segment had a timestamp or not. *)
Definition autorcvbuf (e : ienv) (v : vars) (s : icb) : icb * Z :=
  let o := ic_o s in
  if tcp_do_autorcvbuf e && negb (to_tsecr (v_to v) =? 0) && has_flag (sb_flags (so_rcv o)) SB_AUTOSIZE then
    let tsecr := to_tsecr (v_to v) in
    if TSTMP_GT tsecr (rfbuf_ts o) && (u32 (tsecr - rfbuf_ts o) <? u32 (hz (cce (te (oe e))))) then
      let newsize :=
        if (u32 (sb_hiwat (so_rcv o) / 8 * 7) <? u32 (rfbuf_cnt s)) && (sb_hiwat (so_rcv o) <? u32 (tcp_autorcvbuf_max e))
        then s32 (umin (u32 (sb_hiwat (so_rcv o) + tcp_autorcvbuf_inc e)) (tcp_autorcvbuf_max e)) else 0 in
      ((on_o (fun o => o <| rfbuf_ts := 0 |>) s) <| rfbuf_cnt := 0 |>, newsize)
    else (s <| rfbuf_cnt := s32 (rfbuf_cnt s + v_tlen v) |>, 0)
  else (s, 0).

Definition resize_rcv (e : ienv) (newsize : Z) (s : icb) : icb :=
  if newsize =? 0 then s
  else
    let '(ui, sb, ok) := sbreserve_locked (sbe (oe e)) (ui_sbsize (ic_o s)) (u64 newsize) RLIM_INFINITY (so_rcv (ic_o s)) in
    let sb := if (ok : bool) then sb else sb <| sb_flags := Z.land (sb_flags sb) (Z.lnot SB_AUTOSIZE) |> in
    on_o (fun o => o <| ui_sbsize := ui |> <| so_rcv := sb |>) s.

(** Data goes to the receive buffer in the mbufs it came in. *)
Definition append_mbufs (ms : list mbuf) (s : icb) : option icb :=
  sb ← sbappendstream_locked ms (so_rcv (ic_o s));
  Some ((on_rcv (fun _ => sb) s) <| ic_mbuf := ic_mbuf s + Z.of_nat (length ms) |>).

Definition append_data (e : ienv) (bs : list Z) (s : icb) : option icb :=
  append_mbufs (chain_of e (ic_mbuf s) bs) s.

(** In-sequence data with room for it. *)
Definition predict_data (e : ienv) (s : icb) (v : vars) : flow :=
  let s := if iflag TF_SACK_PERMIT s && negb (rcv_numsacks (t_sack (cb s)) =? 0)%nat
           then on_o (on_sack tcp_clean_sackreport) s else s in
  let s := put_rnxt (irnxt s + v_tlen v) s in
  let s := s <| snd_wl1 := v_seq v |> in
  let s := s <| rcv_up := irnxt s |> in
  let '(s, newsize) := autorcvbuf e v s in
  lift (if cant_receive s then Some s
        else append_data e (drop (Z.to_nat (v_skip v)) (v_data v)) (resize_rcv e newsize s)) (fun s =>
    if DELAY_ACK e s then Goto check_delack (raise TF_DELACK s) v
    else lift (run_output e (raise TF_ACKNOW s)) (fun s => Goto check_delack s v)).

Definition header_prediction (e : ienv) (s : icb) (v : vars) : flow :=
  if predicted e s v then
    let s := if has_ts v && SEQ_LEQ (v_seq v) (last_ack_sent (ic_o s)) then record_timestamp e (v_to v) s else s in
    if v_tlen v =? 0 then if predicted_ack s v then predict_ack e s v else Next s v
    else if (v_ack v =? s_una (ic_o s)) && (v_tlen v <=? sbspace (so_rcv (ic_o s))) then predict_data e s v
    else Next s v
  else Next s v.

(** ** The states before the ACK *)

(** The receive window: the room in the buffer, but not less than advertised. *)
Definition set_rcv_wnd (s : icb) (v : vars) : flow :=
  let win := sbspace (so_rcv (ic_o s)) in
  let win := if win <? 0 then 0 else win in
  let s := s <| rcv_wnd := Z.max win (s32 (rcv_adv (ic_o s) - irnxt s)) |> in
  Next ((on_o (fun o => o <| rfbuf_ts := 0 |>) s) <| rfbuf_cnt := 0 |>) v.

(** Both sides asked for window scaling. *)
Definition both_scale (s : icb) : bool :=
  Z.land (t_flags (cb s)) (Z.lor TF_RCVD_SCALE TF_REQ_SCALE) =? Z.lor TF_RCVD_SCALE TF_REQ_SCALE.
Definition use_scale (s : icb) : icb := on_o (fun o => o <| rcv_scale := request_r_scale o |>) s.

Definition put_starttime (e : ienv) (s : icb) : icb :=
  s <| ic_reass := (ic_reass s) <| TcpReass.Reass.t_starttime := u32 (now e) |> |>.

(** Our SYN is acknowledged: ESTABLISHED, or FIN_WAIT_1 if the user has closed. *)
Definition establish (e : ienv) (s : icb) : icb :=
  let s := put_starttime e s in
  if iflag TF_NEEDFIN s then lower TF_NEEDFIN (to_state TCPS_FIN_WAIT_1 s)
  else
    let s := to_state TCPS_ESTABLISHED s in
    let s := on_cb (cc_conn_init (cce (te (oe e))) (algo (oe e)) (metrics e) (localaddr (oe e))) s in
    start_timer e TT_KEEP (TP_KEEPIDLE (te (oe e)) (cb s)) s.

(** [<SYN,ACK>] in SYN_SENT. *)
Definition syn_acked (e : ienv) (s : icb) (v : vars) : icb * vars :=
  let s := soisconnected s in
  let s := if both_scale s then use_scale s else s in
  let s := on_o (fun o => o <| rcv_adv := u32 (rcv_adv o + Z.min (s32 (rcv_wnd s)) (Z.shiftl TCP_MAXWIN (rcv_scale o))) |>) s in
  let s := put_una (s_una (ic_o s) + 1) s in
  let s := if DELAY_ACK e s && negb (v_tlen v =? 0) then start_timer e TT_DELACK (tcp_delacktime e) s
           else raise TF_ACKNOW s in
  let s := if thf TH_ECE v && tcp_do_ecn (oe e) then raise TF_ECN_PERMIT s else s in
  (establish e s, if iflag TF_NEEDFIN s then clear_thf TH_SYN v else v).

Definition syn_sent (e : ienv) (s : icb) (v : vars) : flow :=
  if thf TH_ACK v && (SEQ_LEQ (v_ack v) (iss (ic_o s)) || SEQ_GT (v_ack v) (s_max (ic_o s)))
  then Goto (dropwithreset BANDLIM_UNLIMITED) s v
  else
    lift (if Z.land (v_thflags v) (Z.lor TH_ACK TH_RST) =? Z.lor TH_ACK TH_RST
          then tcp_drop e ECONNREFUSED s else Some s) (fun s =>
    if thf TH_RST v || negb (thf TH_SYN v) then Goto drop_it s v
    else
      let s := s <| irs := v_seq v |> in
      let s := put_rnxt (irs s + 1) (on_o (fun o => o <| rcv_adv := u32 (irs s + 1) |>) s) in
      let '(s, v) :=
        if thf TH_ACK v then syn_acked e s v
        else (to_state TCPS_SYN_RECEIVED (start_timer e TT_REXMT 0 (raise (Z.lor TF_ACKNOW TF_NEEDSYN) s)), v) in
      let v := v <| v_seq := u32 (v_seq v + 1) |> in
      let v := if rcv_wnd s <? v_tlen v
               then clear_thf TH_FIN (v <| v_data := trim_tail (s32 (v_tlen v - rcv_wnd s)) (v_data v) |>
                                        <| v_tlen := s32 (rcv_wnd s) |>)
               else v in
      let s := s <| snd_wl1 := u32 (v_seq v - 1) |> <| rcv_up := v_seq v |> in
      if thf TH_ACK v then Goto process_ACK s v else Goto step6 s v).

Definition check_state (e : ienv) (s : icb) (v : vars) : flow :=
  if (state s =? TCPS_SYN_RECEIVED) && thf TH_ACK v
     && (SEQ_LEQ (v_ack v) (s_una (ic_o s)) || SEQ_GT (v_ack v) (s_max (ic_o s)))
  then Goto (dropwithreset BANDLIM_RST_OPENPORT) s v
  else if state s =? TCPS_SYN_SENT then syn_sent e s v
  else Next s v.

(** *** RST *)

Definition near_seq (a b : Z) : bool := SEQ_GEQ a (b - 1) && SEQ_LEQ a (b + 1).

Definition reset_by (errno : option Z) (s : icb) (v : vars) : flow :=
  let s := match errno with
           | Some errno => to_state TCPS_CLOSED (s <| so_error := errno |>)
           | None => s
           end in
  lift (tcp_close s) (fun s => Goto drop_it s v).

Definition check_rst (e : ienv) (s : icb) (v : vars) : flow :=
  if thf TH_RST v then
    let last := last_ack_sent (ic_o s) in
    if SEQ_GEQ (v_seq v) (last - 1) && SEQ_LEQ (v_seq v) (last + rcv_wnd s) then
      if state s =? TCPS_SYN_RECEIVED then reset_by (Some ECONNREFUSED) s v
      else if state s =? TCPS_ESTABLISHED then
        if negb (tcp_insecure_rst e) && negb (near_seq (v_seq v) (irnxt s)) && negb (near_seq (v_seq v) last)
        then Goto drop_it s v else reset_by (Some ECONNRESET) s v
      else if (state s =? TCPS_FIN_WAIT_1) || (state s =? TCPS_FIN_WAIT_2) || (state s =? TCPS_CLOSE_WAIT)
      then reset_by (Some ECONNRESET) s v
      else if (state s =? TCPS_CLOSING) || (state s =? TCPS_LAST_ACK) then reset_by None s v
      else Goto drop_it s v
    else Goto drop_it s v
  else Next s v.

(** *** Timestamp and window *)

Definition check_paws (e : ienv) (s : icb) (v : vars) : flow :=
  if has_ts v && negb (ts_recent (ic_o s) =? 0) && TSTMP_LT (to_tsval (v_to v)) (ts_recent (ic_o s)) then
    if TCP_PAWS_IDLE <? u32 (ts_ticks (oe e) - ts_recent_age s)
    then Next (on_o (fun o => o <| ts_recent := 0 |>) s) v
    else Goto (if negb (v_tlen v =? 0) then dropafterack else drop_it) s v
  else Next s v.

Definition check_irs (s : icb) (v : vars) : flow :=
  if (state s =? TCPS_SYN_RECEIVED) && SEQ_LT (v_seq v) (irs s)
  then Goto (dropwithreset BANDLIM_RST_OPENPORT) s v else Next s v.

(** What was received already goes from the front. *)
Definition trim_front (s : icb) (v : vars) : flow :=
  let todrop := s32 (irnxt s - v_seq v) in
  if 0 <? todrop then
    let '(todrop, v) :=
      if thf TH_SYN v then
        let v := (clear_thf TH_SYN v) <| v_seq := u32 (v_seq v + 1) |> in
        (todrop - 1, if 1 <? v_urp v then v <| v_urp := u16 (v_urp v - 1) |> else clear_thf TH_URG v)
      else (todrop, v) in
    let '(todrop, s, v) :=
      if (v_tlen v <? todrop) || ((todrop =? v_tlen v) && negb (thf TH_FIN v))
      then (v_tlen v, raise TF_ACKNOW s, clear_thf TH_FIN v)
      else (todrop, s, v) in
    let v := v <| v_skip := v_skip v + todrop |> <| v_seq := u32 (v_seq v + todrop) |>
               <| v_tlen := v_tlen v - todrop |> in
    Next s (if todrop <? v_urp v then v <| v_urp := u16 (v_urp v - todrop) |>
            else (clear_thf TH_URG v) <| v_urp := 0 |>)
  else Next s v.

(** Data after the user is gone. *)
Definition check_gone (s : icb) (v : vars) : flow :=
  if has_flag (so_state s) SS_NOFDREF && (TCPS_CLOSE_WAIT <? state s) && negb (v_tlen v =? 0)
  then lift (tcp_close s) (fun s => Goto (dropwithreset BANDLIM_UNLIMITED) s v)
  else Next s v.

(** What is beyond the window goes from the end. *)
Definition trim_back (s : icb) (v : vars) : flow :=
  let todrop := s32 (v_seq v + v_tlen v - (irnxt s + rcv_wnd s)) in
  if 0 <? todrop then
    if (v_tlen v <=? todrop) && negb ((rcv_wnd s =? 0) && (v_seq v =? irnxt s)) then Goto dropafterack s v
    else
      let s := if v_tlen v <=? todrop then raise TF_ACKNOW s else s in
      Next s (clear_thf (Z.lor TH_PUSH TH_FIN)
                (v <| v_data := trim_tail todrop (v_data v) |> <| v_tlen := v_tlen v - todrop |>))
  else Next s v.

Definition check_timestamp (e : ienv) (s : icb) (v : vars) : flow :=
  Next (if has_ts v && SEQ_LEQ (v_seq v) (last_ack_sent (ic_o s))
           && SEQ_LEQ (last_ack_sent (ic_o s)) (v_seq v + v_tlen v + b2z (thf (Z.lor TH_SYN TH_FIN) v))
        then record_timestamp e (v_to v) s else s) v.

(** A SYN in the window is an error; without an ACK there is nothing more to do
    unless the connection is half synchronised. *)
Definition check_syn (e : ienv) (s : icb) (v : vars) : flow :=
  if thf TH_SYN v then lift (tcp_drop e ECONNRESET s) (fun s => Goto drop_it s v) else Next s v.

Definition check_ack (s : icb) (v : vars) : flow :=
  if negb (thf TH_ACK v) then
    if (state s =? TCPS_SYN_RECEIVED) || iflag TF_NEEDSYN s then Goto step6 s v
    else Goto (if iflag TF_ACKNOW s then dropafterack else drop_it) s v
  else Next s v.

(** ** tcp_reass *)

(** The reassembly state with what it shares with the rest of the connection. *)
Definition reass_in (s : icb) : TcpReass.Reass.tcpcb :=
  let o := ic_o s in
  (ic_reass s) <| TcpReass.Reass.t_state := state s |> <| TcpReass.Reass.rcv_nxt := irnxt s |>
    <| TcpReass.Reass.t_maxseg := t_maxseg (o_tp o) |> <| TcpReass.Reass.inp_passive := inp_passive o |>
    <| TcpReass.Reass.so_rcv := TcpReass.Reass.mk_sockbuf [] (cant_receive s) (sb_hiwat (so_rcv o)) 0 |>.

Definition append_rmbuf (e : ienv) (s : icb) (m : TcpReass.Reass.rmbuf) : option icb :=
  match m with
  | TcpReass.Reass.M_DATA bs => append_data e bs s
  | TcpReass.Reass.M_HOLE len => append_mbufs [mk_mbuf (ic_mbuf s) [] len MT_DATA true false false None] s
  end.

Fixpoint append_all (e : ienv) (ms : list TcpReass.Reass.rmbuf) (s : icb) : option icb :=
  match ms with
  | [] => Some s
  | m :: ms => s ← append_rmbuf e s m; append_all e ms s
  end.

(** The result of [tcp_reass], its [*tlenp], and the state: what it delivers is
    in the receive buffer. *)
Definition call_reass (e : ienv) (seg : option TcpReass.Reass.segment) (s : icb) : option (icb * Z * Z) :=
  let r := TcpReass.Reass.tcp_reass (reass_env e) (reass_in s) seg in
  let tp := TcpReass.Reass.r_tp r in
  s ← append_all e (TcpReass.Reass.sb_stream (TcpReass.Reass.so_rcv tp)) s;
  Some (put_rnxt (TcpReass.Reass.rcv_nxt tp) (s <| ic_reass := tp |>), TcpReass.Reass.r_flags r, TcpReass.Reass.r_tlen r).

(** ** ACK processing *)

Definition set_dupacks (n : Z) (s : icb) : icb := on_cb (fun tp => tp <| t_dupacks := n |>) s.
Definition set_cwnd (n : Z) (s : icb) : icb := on_cb (fun tp => tp <| snd_cwnd := n |>) s.
Definition note_ack (e : ienv) (type : Z) (v : vars) (s : icb) : icb :=
  on_cb (fun tp => cc_ack_received (cce (te (oe e))) (algo (oe e)) tp (v_ack v) type) s.

(** The ACK of our SYN in SYN_RECEIVED. *)
Definition syn_received (e : ienv) (s : icb) (v : vars) : flow :=
  if state s =? TCPS_SYN_RECEIVED then
    let s := soisconnected s in
    let s := if both_scale s then on_cb (fun tp => tp <| snd_wnd := v_tiwin v |>) (use_scale s) else s in
    let s := establish e s in
    lift (if (v_tlen v =? 0) && negb (thf TH_FIN v) then '(s, _, _) ← call_reass e None s; Some s else Some s)
      (fun s => Next (s <| snd_wl1 := u32 (v_seq v - 1) |>) v)
  else if (TCPS_ESTABLISHED <=? state s) && (state s <=? TCPS_FIN_WAIT_2) then Next s v
  else Goto step6 s v.

(** An ACK for what was not sent, unless the connection is only watched; the
    scoreboard. *)
Definition ack_range (s : icb) (v : vars) : flow :=
  let s := if inp_passive (ic_o s) && SEQ_LT (s_max (ic_o s)) (v_ack v)
           then on_o (put_max (v_ack v)) s else s in
  if SEQ_GT (v_ack v) (s_max (ic_o s)) then Goto dropafterack s v
  else if iflag TF_SACK_PERMIT s
          && (has_flag (to_flags (v_to v)) TOF_SACK || negb (is_empty (snd_holes (t_sack (cb s)))))
  then match tcp_sack_doack (t_sack (cb s)) (v_to v) (v_ack v) with
       | Some k => Next (on_o (on_sack (fun _ => k)) s) v
       | None => Panic
       end
  else Next s v.

(** More duplicates than the threshold, or in fast recovery. *)
Definition inflate (e : ienv) (s : icb) (v : vars) : flow :=
  let s := note_ack e CC_DUPACK v s in
  let tp := cb s in
  let s :=
    if iflag TF_SACK_PERMIT s && IN_FASTRECOVERY (t_flags tp) then
      let awnd := s32 (u32 (nxt tp - snd_fack (t_sack tp)) + sack_bytes_rexmit (t_sack tp)) in
      if u64 awnd <? snd_ssthresh tp then
        let cwnd := u64 (snd_cwnd tp + t_maxseg tp) in
        set_cwnd (if snd_ssthresh tp <? cwnd then snd_ssthresh tp else cwnd) s
      else s
    else set_cwnd (u64 (snd_cwnd tp + t_maxseg tp)) s in
  lift (run_output e s) (fun s => Goto drop_it s v).

(** As many duplicates as the threshold: fast retransmit. *)
Definition fast_retransmit (e : ienv) (s : icb) (v : vars) : flow :=
  let onxt := s_nxt (ic_o s) in
  if (if iflag TF_SACK_PERMIT s then IN_FASTRECOVERY (t_flags (cb s)) else SEQ_LEQ (v_ack v) (snd_recover (cb s)))
  then Goto step6 (set_dupacks 0 s) v
  else
    let s := on_cb (fun tp => cc_cong_signal (algo (oe e)) tp (Some (v_ack v)) CC_NDUPACK) s in
    let s := note_ack e CC_DUPACK v s in
    let s := start_timer e TT_REXMT 0 s in
    let s := on_cb (fun tp => tp <| t_rtttime := 0 |>) s in
    if iflag TF_SACK_PERMIT s then
      let s := on_cb (fun tp => tp <| sack_newdata := nxt tp |> <| snd_cwnd := t_maxseg tp |>) s in
      lift (run_output e s) (fun s => Goto drop_it s v)
    else
      let s := on_cb (fun tp => (set_nxt (v_ack v) tp) <| snd_cwnd := t_maxseg tp |>) s in
      lift (run_output e s) (fun s =>
        let tp := cb s in
        let s := set_cwnd (u64 (snd_ssthresh tp + u32 (t_maxseg tp * (t_dupacks tp - snd_limited s)))) s in
        Goto drop_it (if SEQ_GT onxt (s_nxt (ic_o s)) then on_o (put_nxt onxt) s else s) v).

(** The first and second duplicate: limited transmit. *)
Definition limited_transmit (e : ienv) (s : icb) (v : vars) : flow :=
  let s := note_ack e CC_DUPACK v s in
  let oldcwnd := snd_cwnd (cb s) in
  let oldsndmax := s_max (ic_o s) in
  let s := if t_dupacks (cb s) =? 1 then s <| snd_limited := 0 |> else s in
  let tp := cb s in
  let s := set_cwnd (u32 (nxt tp - una tp + (t_dupacks tp - snd_limited s) * t_maxseg tp)) s in
  lift (run_output e s) (fun s =>
    let sent := u32 (s_max (ic_o s) - oldsndmax) in
    let s := if t_maxseg (cb s) <? sent then s <| snd_limited := 2 |>
             else if 0 <? sent then s <| snd_limited := u8 (snd_limited s + 1) |> else s in
    Goto drop_it (set_cwnd oldcwnd s) v).

(** An ACK that acknowledges nothing new. *)
Definition old_ack (e : ienv) (s : icb) (v : vars) : flow :=
  if (v_tlen v =? 0) && (v_tiwin v =? snd_wnd (cb s)) then
    if negb (running TT_REXMT s) || negb (v_ack v =? s_una (ic_o s)) then Goto step6 (set_dupacks 0 s) v
    else
      let s := set_dupacks (s32 (t_dupacks (cb s) + 1)) s in
      if (tcprexmtthresh <? t_dupacks (cb s)) || IN_FASTRECOVERY (t_flags (cb s)) then inflate e s v
      else if t_dupacks (cb s) =? tcprexmtthresh then fast_retransmit e s v
      else if tcp_do_rfc3042 e then limited_transmit e s v
      else Goto step6 s v
  else Goto step6 (set_dupacks 0 s) v.

Definition tcp_newreno_partial_ack (e : ienv) (v : vars) (s : icb) : option icb :=
  let onxt := s_nxt (ic_o s) in
  let ocwnd := snd_cwnd (cb s) in
  s ← run_output e (on_cb (fun tp => newreno_partial_start tp (v_ack v)) s);
  Some (on_cb (fun tp => newreno_partial_end onxt ocwnd tp (v_ack v)) s).

Definition tcp_sack_partialack (e : ienv) (v : vars) (s : icb) : option icb :=
  run_output e (on_cb (fun tp => sack_partial_start tp (v_ack v)) s).

(** An ACK in fast recovery, and the end of a half-synchronised connection. *)
Definition new_ack (e : ienv) (s : icb) (v : vars) : flow :=
  lift (if IN_FASTRECOVERY (t_flags (cb s)) then
          if SEQ_LT (v_ack v) (snd_recover (cb s)) then
            if iflag TF_SACK_PERMIT s then tcp_sack_partialack e v s else tcp_newreno_partial_ack e v s
          else Some (on_cb (fun tp => cc_post_recovery (algo (oe e)) tp (v_ack v)) s)
        else Some s) (fun s =>
    let s := set_dupacks 0 s in
    if iflag TF_NEEDSYN s then
      let s := lower TF_NEEDSYN s in
      let s := put_una (s_una (ic_o s) + 1) s in
      Next (if both_scale s then use_scale s else s) v
    else Next s v).

Definition check_dup (e : ienv) (s : icb) (v : vars) : flow :=
  if SEQ_LEQ (v_ack v) (s_una (ic_o s)) then old_ack e s v else new_ack e s v.

Definition ack_stage (e : ienv) (s : icb) (v : vars) : flow :=
  syn_received e s v >>> ack_range >>> check_dup e.

(** *** process_ACK *)

(** The acknowledged bytes leave the send buffer; more than it holds means that
    our FIN is acknowledged. *)
Definition free_acked (acked : Z) (s : icb) : option (icb * bool) :=
  let n := cc (ic_o s) in
  if n <? u32 acked then
    let s := on_cb (fun tp => tp <| snd_wnd := u64 (snd_wnd tp - n) |>) s in
    s ← drop_acked (s32 n) s; Some (s, true)
  else
    s ← drop_acked acked s;
    Some (on_cb (fun tp => tp <| snd_wnd := u64 (snd_wnd tp - acked) |>) s, false).

Definition advance_una (v : vars) (s : icb) : icb :=
  let s := if negb (IN_RECOVERY (t_flags (cb s))) then pull_recover v s else s in
  let s := if IN_RECOVERY (t_flags (cb s)) && SEQ_GEQ (v_ack v) (snd_recover (cb s))
           then lower TF_RECOVERY s else s in
  let s := put_una (v_ack v) s in
  let s := if iflag TF_SACK_PERMIT s && SEQ_GT (s_una (ic_o s)) (snd_recover (cb s))
           then on_cb (fun tp => tp <| snd_recover := una tp |>) s else s in
  if SEQ_LT (s_nxt (ic_o s)) (s_una (ic_o s)) then on_o (put_nxt (s_una (ic_o s))) s else s.

(** The states in which we wait for the ACK of our FIN. *)
Definition fin_acked (e : ienv) (s : icb) (v : vars) : flow :=
  if state s =? TCPS_FIN_WAIT_1 then
    lift (if cant_receive s then
            s ← soisdisconnected s;
            Some (start_timer e TT_2MSL (if tcp_fast_finwait2_recycle (te (oe e)) then tcp_finwait2_timeout e
                                         else TP_MAXIDLE (te (oe e)) (cb s)) s)
          else Some s) (fun s => Next (to_state TCPS_FIN_WAIT_2 s) v)
  else if state s =? TCPS_CLOSING then TwStart s
  else if state s =? TCPS_LAST_ACK then lift (tcp_close s) (fun s => Goto drop_it s v)
  else Next s v.

Definition do_process_ack (e : ienv) (s : icb) (v : vars) : flow :=
  let acked := s32 (BYTES_THIS_ACK (cb s) (v_ack v)) in
  let s := update_rtt e v (undo_rexmt e v s) in
  let all := v_ack v =? s_max (ic_o s) in
  let s := restart_rexmt e all s in
  let v := if all then v <| v_needoutput := true |> else v in
  if acked =? 0 then Goto step6 s v
  else
    match free_acked acked (note_ack e CC_ACK v s) with
    | None => Panic
    | Some (s, ourfinisacked) =>
        let s := advance_una v s in
        if ourfinisacked then fin_acked e s v else Next s v
    end.

(** ** step6 *)

Definition update_window (s : icb) (v : vars) : icb * vars :=
  if thf TH_ACK v
     && (SEQ_LT (snd_wl1 s) (v_seq v)
         || ((snd_wl1 s =? v_seq v)
             && (SEQ_LT (snd_wl2 s) (v_ack v) || ((snd_wl2 s =? v_ack v) && (snd_wnd (cb s) <? v_tiwin v)))))
  then
    let s := on_cb (fun tp => tp <| snd_wnd := v_tiwin v |>) s in
    let s := s <| snd_wl1 := v_seq v |> <| snd_wl2 := v_ack v |> in
    let s := if max_sndwnd (ic_o s) <? v_tiwin v then on_o (fun o => o <| max_sndwnd := v_tiwin v |>) s else s in
    (s, v <| v_needoutput := true |>)
  else (s, v).

(** The urgent byte goes out of the data; [None]: the panic, when the chain does
    not hold it. *)
Definition tcp_pulloutofband (s : icb) (v : vars) : option (icb * vars) :=
  let cnt := Z.to_nat (v_skip v + v_urp v - 1) in
  c ← v_data v !! cnt;
  Some (s <| t_iobc := c |> <| t_oobflags := Z.lor (t_oobflags s) TCPOOB_HAVEDATA |>,
        v <| v_data := take cnt (v_data v) ++ drop (S cnt) (v_data v) |>).

(** A new urgent pointer marks the stream. *)
Definition mark_urgent (s : icb) (v : vars) : icb :=
  if SEQ_GT (v_seq v + v_urp v) (rcv_up s) then
    let s := s <| rcv_up := u32 (v_seq v + v_urp v) |> in
    let s := s <| so_oobmark := u32 (sb_cc (so_rcv (ic_o s)) + (rcv_up s - irnxt s) - 1) |> in
    let s := if so_oobmark s =? 0
             then on_rcv (fun sb => sb <| sb_state := Z.lor (sb_state sb) SBS_RCVATMARK |>) s else s in
    s <| t_oobflags := Z.land (t_oobflags s) (Z.lnot (Z.lor TCPOOB_HAVEDATA TCPOOB_HADDATA)) |>
  else s.

Definition do_urgent (e : ienv) (s : icb) (v : vars) : flow :=
  if thf TH_URG v && negb (v_urp v =? 0) && negb (TCPS_HAVERCVDFIN (state s)) then
    if sb_max (sbe (oe e)) <? u32 (v_urp v + sb_cc (so_rcv (ic_o s)))
    then Next s ((clear_thf TH_URG v) <| v_urp := 0 |>)
    else
      let s := mark_urgent s v in
      if (v_urp v <=? v_tlen v) && negb (has_flag (so_options s) SO_OOBINLINE)
      then match tcp_pulloutofband s v with Some (s, v) => Next s v | None => Panic end
      else Next s v
  else Next (if SEQ_GT (irnxt s) (rcv_up s) then s <| rcv_up := irnxt s |> else s) v.

(** *** dodata *)

(** The next segment in order, with nothing queued.  [thflags] is taken from the
    header again. *)
Definition in_order_data (e : ienv) (s : icb) (v : vars) : option (icb * vars) :=
  let s := raise (if DELAY_ACK e s then TF_DELACK else TF_ACKNOW) s in
  let s := put_rnxt (irnxt s + v_tlen v) s in
  let v := v <| v_thflags := Z.land (p_flags (v_pkt v)) TH_FIN |> in
  s ← (if cant_receive s then Some s else append_data e (v_data v) s);
  Some (s, v).

Definition queue_data (e : ienv) (s : icb) (v : vars) : option (icb * vars) :=
  '(s, flags, tlen) ← call_reass e (Some (TcpReass.Reass.mk_segment (v_seq v) (p_flags (v_pkt v)) (v_tlen v) (v_data v))) s;
  Some (raise TF_ACKNOW s, v <| v_thflags := flags |> <| v_tlen := tlen |>).

Definition do_data (e : ienv) (s : icb) (v : vars) : flow :=
  if (negb (v_tlen v =? 0) || thf TH_FIN v) && negb (TCPS_HAVERCVDFIN (state s)) then
    let save_start := v_seq v in
    let v := v <| v_data := drop (Z.to_nat (v_skip v)) (v_data v) |> in
    match (if (v_seq v =? irnxt s) && is_empty (TcpReass.Reass.t_segq (ic_reass s)) && TCPS_HAVEESTABLISHED (state s)
           then in_order_data e s v else queue_data e s v) with
    | None => Panic
    | Some (s, v) =>
        Next (if (0 <? v_tlen v) && iflag TF_SACK_PERMIT s
              then on_o (on_sack (fun k => tcp_update_sack_list k save_start (u32 (save_start + v_tlen v)))) s
              else s) v
    end
  else Next s (clear_thf TH_FIN v).

(** A FIN received. *)
Definition do_fin (e : ienv) (s : icb) (v : vars) : flow :=
  if thf TH_FIN v then
    let s := if negb (TCPS_HAVERCVDFIN (state s)) then
               let s := socantrcvmore s in
               let s := raise (if iflag TF_NEEDSYN s then TF_DELACK else TF_ACKNOW) s in
               put_rnxt (irnxt s + 1) s
             else s in
    if state s =? TCPS_SYN_RECEIVED then Next (to_state TCPS_CLOSE_WAIT (put_starttime e s)) v
    else if state s =? TCPS_ESTABLISHED then Next (to_state TCPS_CLOSE_WAIT s) v
    else if state s =? TCPS_FIN_WAIT_1 then Next (to_state TCPS_CLOSING s) v
    else if state s =? TCPS_FIN_WAIT_2 then TwStart s
    else Next s v
  else Next s v.

Definition do_output (e : ienv) (s : icb) (v : vars) : flow :=
  if v_needoutput v || iflag TF_ACKNOW s then lift (run_output e s) (fun s => Next s v) else Next s v.

Definition step6_stage (e : ienv) (s : icb) (v : vars) : flow :=
  let '(s, v) := update_window s v in
  do_urgent e s v >>> do_data e >>> do_fin e >>> do_output e.

Definition delack (e : ienv) (s : icb) (v : vars) : flow :=
  Next (if iflag TF_DELACK s then start_timer e TT_DELACK (tcp_delacktime e) (lower TF_DELACK s) else s) v.

(** ** tcp_dropwithreset and the labels *)

Definition tcp_dropwithreset (e : ienv) (tp : bool) (rstreason : Z) (s : icb) (v : vars) : icb :=
  let p := v_pkt v in
  if tp && inp_passive (ic_o s) then s
  else if has_flag (p_flags p) TH_RST || p_bcast p then s
  else if badport_bandlim e rstreason <? 0 then s
  else if has_flag (p_flags p) TH_ACK then tcp_respond e tp true 0 (p_ack p) TH_RST s
  else
    let tlen := if has_flag (p_flags p) TH_SYN then v_tlen v + 1 else v_tlen v in
    tcp_respond e tp true (v_seq v + tlen) 0 (Z.lor TH_RST TH_ACK) s.

Inductive seg_result :=
  | Done (s : icb)
  | InTimeWait (s : icb)
  | Panicked.

Definition reset_label (e : ienv) (rstreason : Z) (s : icb) (v : vars) : seg_result :=
  if negb (ic_freed s) then Done (tcp_dropwithreset e true rstreason s v)
  else if has_flag (so_options s) SO_PASSIVE then Done s
  else Done (tcp_dropwithreset e false rstreason s v).

Definition dropafterack_label (e : ienv) (s : icb) (v : vars) : seg_result :=
  if (state s =? TCPS_SYN_RECEIVED) && thf TH_ACK v
     && (SEQ_GT (s_una (ic_o s)) (v_ack v) || SEQ_GT (v_ack v) (s_max (ic_o s)))
  then reset_label e BANDLIM_RST_OPENPORT s v
  else match run_output e (raise TF_ACKNOW s) with Some s => Done s | None => Panicked end.

(** [process_ACK], [step6] and [check_delack] are where a stage begins, and no
    jump to them is left. *)
Definition finish (e : ienv) (f : flow) : seg_result :=
  match f with
  | Next s _ => Done s
  | Goto drop_it s _ => Done s
  | Goto dropafterack s v => dropafterack_label e s v
  | Goto (dropwithreset rstreason) s v => reset_label e rstreason s v
  | Goto _ s _ => Done s
  | TwStart s => InTimeWait s
  | Panic => Panicked
  end.

(** ** tcp_do_segment *)

(** Up to the ACK. *)
Definition front_stage (e : ienv) (s : icb) (v : vars) : flow :=
  header_prediction e s v >>> set_rcv_wnd >>> check_state e >>> check_rst e >>> check_paws e >>> check_irs
    >>> trim_front >>> check_gone >>> trim_back >>> check_timestamp e >>> check_syn e >>> check_ack.

Definition segment_flow (e : ienv) (s : icb) (v : vars) : flow :=
  let f := front_stage e s v >>> ack_stage e in
  let f := at_label process_ACK f (do_process_ack e) in
  let f := at_label step6 f (step6_stage e) in
  at_label check_delack f (delack e).

Definition tcp_do_segment (e : ienv) (p : packet) (s : icb) : seg_result :=
  match begin_segment e p s with
  | None => Panicked
  | Some (s, v) => finish e (segment_flow e s v)
  end.
End Input.
