(* ===== verification/TcpInputFrame.v ===== *)
(** * TCP segment processing: what is left alone

    Frame lemmas for the stages of TcpInput.v, and the theorems that follow from
    them: the arcs of the TCP state machine, resets, and passive connections. *)

From stdpp Require Import relations.
From S2P Require Import Prelude TcpSeq Callout SockBuf TcpReass TcpOptions TcpSack TcpCC TcpTimer TcpOutput TcpOutputStream TcpInput.

Module InputFrame.

Import (hints) TcpReass.Reass.
Import SockBuf.Sockbuf TcpSack.Sack TcpCC.CC TcpTimer.Timer TcpOutput.Output TcpInput.Input.

(** ** The receiving side *)

(** What [tcp_output] does not touch. *)
Definition rx (o : ocb) :=
  (t_state (o_tp o), rcv_nxt (t_sack (o_tp o)), s_una o, so_rcv o, inp_passive o, iss o, inp_dropped (o_tp o)).

Definition rx_tp (tp : tcpcb) := (t_state tp, rcv_nxt (t_sack tp), snd_una (t_sack tp), inp_dropped tp).

(** An algorithm that keeps to the window, the threshold and the flags. *)
Definition hook_rx (tp : tcpcb) := (t_sack tp, t_state tp, inp_dropped tp).
Lemma hook_rx_tp tp tp' : hook_rx tp' = hook_rx tp -> rx_tp tp' = rx_tp tp.
Proof. unfold hook_rx, rx_tp. intros [= -> -> ->]. reflexivity. Qed.

Class CcFrame (a : cc_algo) : Prop := {
  cf_conn_init : forall f tp, conn_init a = Some f -> hook_rx (f tp) = hook_rx tp;
  cf_ack_received : forall f tp t, ack_received a = Some f -> hook_rx (f tp t) = hook_rx tp;
  cf_cong_signal : forall f tp t, cong_signal a = Some f -> hook_rx (f tp t) = hook_rx tp;
  cf_post_recovery : forall f tp, post_recovery a = Some f -> hook_rx (f tp) = hook_rx tp;
  cf_after_idle : forall f tp, after_idle a = Some f -> hook_rx (f tp) = hook_rx tp }.

(** Case analysis on every test of the goal. *)
Ltac cases := repeat (match goal with
  | |- context [match ?b with _ => _ end] => lazymatch b with context [match _ with _ => _ end] => fail | _ => destruct b end
  end; try reflexivity).

#[export] Instance newreno_frame e : CcFrame (newreno_cc_algo e).
Proof.
  split; cbn [newreno_cc_algo conn_init ack_received cong_signal post_recovery after_idle]; intros; simplify_eq; try reflexivity.
  - unfold newreno_ack_received. destruct (_ && _); [|reflexivity].
    assert (hook_rx (snd (newreno_incr e tp)) = hook_rx tp) as H by (unfold newreno_incr; cases).
    destruct (newreno_incr e tp) as [i tp']. cbn [snd] in H. destruct (_ <? _); exact H.
  - unfold newreno_cong_signal, set_flag. cases.
  - unfold newreno_post_recovery. cases.
Qed.

Section Frames.
Context (e : ienv) {F : CcFrame (algo (oe e))}.

Lemma rx_on_tp f o : rx_tp (f (o_tp o)) = rx_tp (o_tp o) -> rx (on_tp f o) = rx o.
Proof. unfold rx, rx_tp, s_una, una, on_tp. cbn [update o_tp so_rcv inp_passive iss]. intros [= -> -> -> ->]. reflexivity. Qed.

Lemma rx_activate t d o : rx (activate (oe e) t d o) = rx o.
Proof. apply rx_on_tp. unfold tcp_timer_activate, on_timer. destruct (_ =? _); reflexivity. Qed.

Lemma rx_start o : rx (fst (output_start (oe e) o)) = rx o.
Proof.
  unfold output_start.
  assert (rx (on_tp (cc_after_idle (algo (oe e))) o) = rx o) as H.
  { apply rx_on_tp. unfold cc_after_idle, call_hook. destruct (after_idle _) eqn:E; [|reflexivity]. eapply hook_rx_tp, cf_after_idle, E. }
  match goal with |- context [if ?b then on_tp (cc_after_idle _) _ else _] => destruct b end;
    match goal with |- context [if ?b then _ else _] => destruct b end; exact H || reflexivity.
Qed.

(** *** The scoreboard *)

(** The operations on holes leave the receiver's report and [snd_una] alone. *)
Definition sack_rx (k : sackcb) := (rcv_nxt k, snd_una k, rcv_numsacks k, sackblks k).

Lemma sack_rx_insert k a b i : sack_rx (fst (tcp_sackhole_insert k a b i)) = sack_rx k.
Proof. unfold tcp_sackhole_insert, tcp_sackhole_alloc. cases. Qed.

Lemma sack_rx_remove k i : sack_rx (tcp_sackhole_remove k i) = sack_rx k.
Proof. unfold tcp_sackhole_remove. destruct (_ !! _); [|reflexivity]. destruct (is_hole _ _); reflexivity. Qed.

Lemma sack_rx_free k : sack_rx (tcp_free_sackholes k) = sack_rx k.
Proof.
  unfold tcp_free_sackholes. enough (forall n k, sack_rx (free_loop n k) = sack_rx k) as H by (rewrite <- (H (length (snd_holes k)) k); reflexivity).
  induction n as [|n IH]; intros k'; cbn [free_loop]; [reflexivity|]. destruct (is_empty _); [reflexivity|].
  rewrite IH. apply sack_rx_remove.
Qed.

Lemma sack_rx_output k : sack_rx (fst (fst (tcp_sack_output k))) = sack_rx k.
Proof. unfold tcp_sack_output. cases. Qed.

Lemma sack_rx_adjust k : sack_rx (tcp_sack_adjust k) = sack_rx k.
Proof. unfold tcp_sack_adjust. cases. Qed.

Lemma sack_rx_step k b blks i h : sack_rx (fst (fst (doack_step k b blks i h))) = sack_rx k.
Proof.
  unfold doack_step, doack_advance. destruct (SEQ_GEQ (sb_start b) (h_end h)); [reflexivity|].
  destruct (SEQ_LEQ (sb_end b) (h_start h)); [reflexivity|]. destruct (SEQ_LEQ (sb_start b) (h_start h)).
  - destruct (SEQ_GEQ (sb_end b) (h_end h)); [cbn [fst]; rewrite sack_rx_remove; reflexivity|cases].
  - destruct (SEQ_GEQ (sb_end b) (h_end h)); [cases|]. unfold doack_split, doack_advance.
    match goal with |- context [tcp_sackhole_insert ?k ?a ?b ?i] => pose proof (sack_rx_insert k a b i) as H; destruct (tcp_sackhole_insert k a b i) as [k' [t|]] end;
      cbn [fst] in H; cases; exact H.
Qed.

Lemma sack_rx_sweep n : forall k blks i k', doack_sweep n k blks i = Some k' -> sack_rx k' = sack_rx k.
Proof.
  induction n as [|n IH]; intros k [|b blks] [|i] k'; cbn [doack_sweep]; try congruence.
  destruct (_ !! i) as [h|]; [|discriminate]. cbn [mbind option_bind].
  pose proof (sack_rx_step k b blks i h) as H. destruct (doack_step k b blks i h) as [[k1 b1] i1]. cbn [fst] in H.
  intros E%IH. congruence.
Qed.

Lemma sack_rx_doack k to ack k' : tcp_sack_doack k to ack = Some k' -> sack_rx k' = sack_rx k.
Proof.
  unfold tcp_sack_doack. destruct (doack_blks k to ack) as [blks|]; [|discriminate]. cbn [mbind option_bind].
  destruct (is_empty blks); [congruence|]. set (k1 := if is_empty _ then _ else _).
  assert (sack_rx k1 = sack_rx k) as H1 by (unfold k1; destruct (is_empty _); reflexivity). clearbody k1.
  assert (forall b, sack_rx (fst (doack_fack k1 b)) = sack_rx k1) as H2.
  { intros [|b bs]; cbn [doack_fack]; [reflexivity|].
    match goal with |- context [tcp_sackhole_insert ?k ?a ?b ?i] => pose proof (sack_rx_insert k a b i) as H; destruct (tcp_sackhole_insert k a b i) as [k0 [t|]] end;
    cbn [fst] in H; cases; exact H. }
  match goal with |- context [doack_fack k1 ?b] => specialize (H2 b); destruct (doack_fack k1 b) as [k2 b2] end.
  cbn [fst] in H2. intros E%sack_rx_sweep. rewrite E. etransitivity; [|exact (eq_trans H2 H1)]. reflexivity.
Qed.

(** *** tcp_output *)

Lemma rx_on_sack f o : sack_rx (f (t_sack (o_tp o))) = sack_rx (t_sack (o_tp o)) -> rx (on_sack f o) = rx o.
Proof. intros H. apply rx_on_tp. unfold rx_tp. cbn [update t_state t_sack inp_dropped]. unfold sack_rx in H. congruence. Qed.

Lemma rx_setpersist tp tp' : tcp_setpersist (te (oe e)) tp = Some tp' -> rx_tp tp' = rx_tp tp.
Proof.
  unfold tcp_setpersist. destruct (tcp_timer_active _ _); [discriminate|]. intros [= <-].
  unfold tcp_timer_activate, on_timer. destruct (_ =? 0), (_ <? _); reflexivity.
Qed.

Lemma rx_tp_set o tp' : rx_tp tp' = rx_tp (o_tp o) -> rx (o <| o_tp := tp' |>) = rx o.
Proof. intros H. apply (rx_on_tp (fun _ => tp')). exact H. Qed.

Lemma rx_plan idle o o' l : output_plan (oe e) idle o = Some (o', l) -> rx o' = rx o.
Proof.
  unfold output_plan.
  assert (rx (fst (output_begin idle o)) = rx o) as H1.
  { unfold output_begin. cbn [fst]. destruct (_ && _); [|reflexivity]. apply rx_on_sack, sack_rx_adjust. }
  destruct (output_begin idle o) as [o1 l1]. cbn [fst] in H1.
  assert (rx (fst (sack_retransmit o1 l1)) = rx o1) as H2.
  { unfold sack_retransmit. destruct (_ && _); [|reflexivity]. pose proof (sack_rx_output (t_sack (o_tp o1))) as H.
    destruct (tcp_sack_output _) as [[k p] b]. cbn [fst] in H.
    assert (rx (on_sack (fun _ => k) o1) = rx o1) as K by (apply rx_on_sack; exact H). cases; exact K. }
  destruct (sack_retransmit o1 l1) as [o2 l2]. cbn [fst] in H2.
  assert (rx (fst (force_data (oe e) o2 l2)) = rx o2) as H3.
  { unfold force_data. destruct (flag TF_FORCEDATA o2); [|reflexivity].
    match goal with |- context [if ?b =? 0 then _ else _] => destruct (b =? 0) end; [reflexivity|]. cbn [fst].
    rewrite rx_on_tp by reflexivity. apply rx_activate. }
  destruct (force_data (oe e) o2 l2) as [o3 l3]. cbn [fst] in H3.
  match goal with |- context [window_shrank _ o3 ?l] => generalize l; intros l4 end.
  destruct (window_shrank (oe e) o3 l4) as [[o5 l5]|] eqn:E5; [|discriminate]. cbn [mbind option_bind].
  assert (rx o5 = rx o3) as H5.
  { revert E5. unfold window_shrank. destruct (_ <? 0); [|congruence].
    match goal with |- context [if ?b =? 0 then _ else _] => destruct (b =? 0) end; [|congruence].
    match goal with |- context [put_nxt ?v ?o] => set (o4 := put_nxt v o) end.
    assert (rx o4 = rx o3) as H4 by (unfold o4, put_nxt; rewrite !rx_on_tp by reflexivity; apply rx_activate). clearbody o4.
    destruct (negb _); [|congruence]. destruct (tcp_setpersist _ _) as [tp|] eqn:Ep; [|discriminate].
    cbn [mbind option_bind]. intros [= <- <-]. rewrite rx_tp_set; [exact H4|]. exact (rx_setpersist _ _ Ep). }
  intros [= <- _].
  enough (rx (autosize (oe e) o5 l5) = rx o5) as H6 by congruence.
  unfold autosize. destruct (_ && _); [|reflexivity]. destruct (sbreserve_locked _ _ _ _ _) as [[ui sb] ok]. destruct ok; reflexivity.
Qed.

(** The state a pass leaves. *)
Definition left (r : pass_result) : option ocb :=
  match r with Return s _ | Again s | MtuDisc s => Some s | PanicOut => None end.

Lemma rx_error o tso err o' : left (output_error (oe e) o tso err) = Some o' -> rx o' = rx o.
Proof.
  unfold output_error. destruct (err =? EPERM); [intros [= <-]; apply rx_on_tp; reflexivity|].
  destruct (err =? ENOBUFS).
  { intros [= <-]. rewrite rx_on_tp by reflexivity. destruct (_ && _); [apply rx_activate|reflexivity]. }
  destruct (err =? EMSGSIZE); [intros [= <-]; destruct tso; [apply rx_on_tp|]; reflexivity|].
  destruct (_ && _); intros [= <-]; [apply rx_on_tp|]; reflexivity.
Qed.

Lemma rx_advance o l : rx (advance (oe e) o l) = rx o.
Proof.
  assert (forall o b, rx (start_rexmt (oe e) o b) = rx o) as Hs.
  { intros o0 b. unfold start_rexmt. destruct (_ && _); [|reflexivity]. rewrite rx_activate. destruct (active _ _); [|reflexivity].
    rewrite rx_on_tp by reflexivity. apply rx_activate. }
  unfold advance. destruct (_ || _); cbv zeta; [|cases].
  destruct (th TH_SYN l), (th TH_FIN l), (l_sack_rxmit l); rewrite Hs;
    try reflexivity; match goal with |- context [if SEQ_GT ?a ?b then _ else _] => destruct (SEQ_GT a b) end; try reflexivity; cases.
Qed.

Lemma rx_make o l data : rx (fst (fst (make_segment (oe e) o l data))) = rx o.
Proof.
  unfold make_segment.
  match goal with |- context [mark_ecn _ o ?l] => generalize l; intros l1 end.
  assert (rx (fst (fst (mark_ecn (oe e) o l1))) = rx o) as H1.
  { unfold mark_ecn. match goal with |- context [if ?b then put_nxt _ _ else _] => destruct b end; cases. }
  destruct (mark_ecn (oe e) o l1) as [[o1 l2] ect]. cbn [fst] in H1.
  assert (rx (fst (choose_seq o1 l2)) = rx o1) as H2.
  { unfold choose_seq. destruct (rexmit_hole _); [|reflexivity]. apply rx_on_sack. reflexivity. }
  destruct (choose_seq o1 l2) as [o2 sq]. cbn [fst] in H2.
  match goal with |- context [if ?b then on_tp (set_flag _) _ else _] => destruct b end;
    match goal with |- context [if ?b then _ else _ <| snd_up := _ |>] => destruct b end; cbn [fst]; rewrite <- H1, <- H2; reflexivity.
Qed.

Lemma rx_send o l o' : left (output_send (oe e) o l) = Some o' -> rx o' = rx o.
Proof.
  unfold output_send. destruct (make_options (oe e) o l) as [[o1 l1]|] eqn:E1; [|discriminate].
  assert (rx o1 = rx o) as H1.
  { revert E1. unfold make_options. destruct (flag TF_NOOPT o); [congruence|].
    match goal with |- context [tcp_addoptions ?t] => destruct (tcp_addoptions t) end; [|discriminate].
    intros [= <- _]. destruct (th TH_SYN l); match goal with |- context [if ?b then _ <| rfbuf_ts := _ |> else _] => destruct b end; reflexivity. }
  destruct (_ <? _); [discriminate|].
  destruct (get_data (oe e) o1 _) as [[o2 r]|] eqn:E2; [|discriminate].
  assert (rx o2 = rx o1) as H2.
  { revert E2. unfold get_data.
    match goal with |- context [get_mbuf ?o] => assert (rx (fst (get_mbuf o)) = rx o1) as K;
      [unfold get_mbuf; match goal with |- context [if ?b then _ <| t_sndrexmitpack := _ |> else _] => destruct b end; cases|
       destruct (get_mbuf o) as [o3 ok]; cbn [fst] in K] end.
    destruct (negb ok); [intros [= <- _]; exact K|]. destruct (_ =? 0); [intros [= <- _]; exact K|].
    destruct (sbsndptr _ _ _) as [[[sb ms] moff]|]; [|discriminate]. cbn [mbind option_bind].
    destruct (_ <=? _).
    - destruct (m_copydata _ _ _); [|discriminate]. intros [= <- _]. exact K.
    - destruct (m_copym _ _ _ _) as [[[c|] al]|]; [| |discriminate]; intros [= <- _]; exact K. }
  destruct r as [err|data]; [intros H%rx_error; congruence|].
  match goal with |- context [make_segment _ o2 ?l data] => pose proof (rx_make o2 l data) as H3; destruct (make_segment (oe e) o2 l data) as [[o3 l3] seg] end.
  cbn [fst] in H3. pose proof (rx_advance o3 l3) as H4. set (o4 := advance (oe e) o3 l3) in *. clearbody o4.
  cbn [ip_output]. match goal with |- context [sent _ ?o l3] => set (o5 := o) end. assert (rx o5 = rx o4) as H5 by reflexivity. clearbody o5.
  destruct (_ =? 0).
  - unfold sent.
    match goal with |- context [if active TT_DELACK ?o then _ else _] => set (o6 := o); assert (rx o6 = rx o5) as H6 end.
    { unfold o6. match goal with |- context [if ?b then _ <| rcv_adv := _ |> else _] => destruct b end; reflexivity. }
    clearbody o6. assert (rx (if active TT_DELACK o6 then activate (oe e) TT_DELACK 0 o6 else o6) = rx o6) as H7
      by (destruct (active _ _); [apply rx_activate|reflexivity]).
    destruct (l_sendalot l3); intros [= <-]; congruence.
  - intros H%rx_error. rewrite H. enough (rx (back_out o5 l3 (default 0 (head (ip_results o4)))) = rx o5) by congruence.
    unfold back_out. destruct (_ && _); [|reflexivity]. destruct (rexmit_hole _); [apply rx_on_sack|]; reflexivity.
Qed.

Lemma rx_pass idle o o' : left (output_pass (oe e) idle o) = Some o' -> rx o' = rx o.
Proof.
  unfold output_pass. destruct (output_plan _ _ _) as [[o1 l1]|] eqn:E; [|discriminate]. apply rx_plan in E.
  destruct (want_send o1 l1); [intros H%rx_send; congruence|].
  destruct (just_return (oe e) o1) as [o2|] eqn:Ej; [|discriminate]. intros [= <-]. rewrite <- E. revert Ej. unfold just_return.
  destruct (_ && _); [intros [= <-]; apply rx_activate|]. destruct (_ && _); [|congruence].
  destruct (tcp_setpersist _ _) as [tp|] eqn:Ep; [|discriminate]. intros [= <-]. apply rx_tp_set. exact (rx_setpersist _ _ Ep).
Qed.

Lemma rx_mtudisc o o' : tcp_mtudisc (oe e) o = Some o' -> rx o' = rx o.
Proof.
  assert (forall a b o, rx (tcp_mss_update (oe e) a b o) = rx o) as Hm by (intros; unfold tcp_mss_update; cases).
  unfold tcp_mtudisc. destruct (_ || _); [discriminate|].
  pose proof (Hm (-1) (-1) o) as H0. revert H0. generalize (tcp_mss_update (oe e) (-1) (-1) o). clear Hm. intros o0 H0.
  cbv zeta. set (o1 := if sb_hiwat _ <? _ then _ else _).
  assert (rx o1 = rx o0) as H1 by (unfold o1; destruct (_ <? _); [apply rx_on_tp|]; reflexivity). clearbody o1.
  set (o2 := put_nxt _ _). assert (rx o2 = rx o1) as H2 by (unfold o2, put_nxt; rewrite !rx_on_tp; reflexivity). clearbody o2.
  pose proof (rx_on_sack tcp_free_sackholes o2 (sack_rx_free _)) as H3. revert H3.
  generalize (on_sack tcp_free_sackholes o2). intros o3 H3.
  set (o4 := on_tp _ o3). assert (rx o4 = rx o3) as H4 by (apply rx_on_tp; reflexivity). clearbody o4.
  destruct (flag _ _); intros [= <-]; [rewrite rx_on_tp by reflexivity|]; congruence.
Qed.

Lemma rx_loop n : forall idle o o' err, output_loop (oe e) n idle o = Returned o' err -> rx o' = rx o.
Proof.
  induction n as [|n IH]; intros idle o o' err; cbn [output_loop]; [discriminate|].
  pose proof (rx_pass idle o) as H. destruct (output_pass (oe e) idle o) as [o1 er|o1|o1|]; [| | |discriminate]; specialize (H o1 eq_refl).
  - intros [= <- _]. exact H.
  - intros E%IH. congruence.
  - destruct (tcp_mtudisc (oe e) o1) as [o2|] eqn:Em; [|intros [= <- _]; exact H]. apply rx_mtudisc in Em.
    pose proof (rx_start o2) as Hs. destruct (output_start (oe e) o2) as [o3 i3]. cbn [fst] in Hs.
    destruct (output_loop (oe e) n i3 o3) as [o4 er| |] eqn:E; [|discriminate..]. apply IH in E. intros [= <- _]. congruence.
Qed.

Lemma rx_output n o o' err : tcp_output (oe e) n o = Returned o' err -> rx o' = rx o.
Proof.
  unfold tcp_output. destruct (inp_passive o); [congruence|]. pose proof (rx_start o) as Hs.
  destruct (output_start (oe e) o) as [o1 i1]. intros H%rx_loop. cbn [fst] in Hs. congruence.
Qed.

(** ** The stages of the input *)

(** What the stages that deal with the sending side and with the header leave
    alone: the state, the receive buffer and queue, the socket, and, for a passive
    connection, what was sent. *)
Definition spied (s : icb) : list segment := if inp_passive (ic_o s) then wire (ic_o s) else [].
Definition core (s : icb) :=
  (state s, irnxt s, so_rcv (ic_o s), inp_passive (ic_o s), ic_reass s, spied s,
   (so_options s, ic_freed s, ic_mbuf s, so_state s, so_error s)).

Lemma core_on_cb f s : rx_tp (f (cb s)) = rx_tp (cb s) -> core (on_cb f s) = core s.
Proof.
  intros H. unfold core, spied, on_cb, on_o, on_tp, state, cb, irnxt, rnxt in *.
  cbn [update ic_o o_tp so_rcv inp_passive ic_reass so_options ic_freed ic_mbuf so_state so_error wire].
  unfold rx_tp in H. injection H as -> -> _ _. reflexivity.
Qed.

Lemma core_run_output s s' : run_output e s = Some s' -> core s' = core s /\ s_una (ic_o s') = s_una (ic_o s).
Proof.
  unfold run_output. destruct (tcp_output _ _ _) as [o err| |] eqn:E; [|discriminate..]. intros [= <-].
  pose proof (rx_output _ _ _ _ E) as H. unfold rx, s_una, una in H.
  unfold core, spied, state, cb, irnxt, rnxt. cbn [update ic_o ic_reass so_options ic_freed ic_mbuf so_state so_error].
  injection H as -> -> H1 -> H2 _ _. split; [|exact H1]. rewrite H2. destruct (inp_passive (ic_o s)) eqn:Ep; [|reflexivity].
  revert E. unfold tcp_output. rewrite Ep. intros [= <- _]. reflexivity.
Qed.

(** A connection that is only watched sends nothing. *)
Lemma run_output_passive s : inp_passive (ic_o s) = true -> run_output e s = Some s.
Proof. intros H. unfold run_output, tcp_output. rewrite H. destruct s; reflexivity. Qed.

Lemma core_timer t d s : core (start_timer e t d s) = core s.
Proof. apply core_on_cb. unfold tcp_timer_activate, on_timer. destruct (_ =? _); reflexivity. Qed.

Lemma rx_tp_count tp ack type : rx_tp (cc_count_ack (cce (te (oe e))) tp ack type) = rx_tp tp.
Proof. unfold cc_count_ack, set_ccv, clear_ccv. cases. Qed.

Lemma core_note_ack type v s : core (note_ack e type v s) = core s.
Proof.
  apply core_on_cb. unfold cc_ack_received. destruct (CC.ack_received _) as [f|] eqn:E; [|apply rx_tp_count].
  rewrite (hook_rx_tp _ _ (cf_ack_received f _ _ E)). apply rx_tp_count.
Qed.

Lemma core_cong_signal type ack s : core (on_cb (fun tp => cc_cong_signal (algo (oe e)) tp ack type) s) = core s.
Proof.
  apply core_on_cb. unfold cc_cong_signal, ecn_cwr, set_flag, clear_flag, set_nxt.
  match goal with |- context [cong_signal _ ] => set (tp := if type =? CC_NDUPACK then _ else _) end.
  assert (rx_tp tp = rx_tp (cb s)) as H by (unfold tp; cases). clearbody tp.
  destruct (cong_signal _) as [f|] eqn:E; [|exact H]. rewrite (hook_rx_tp _ _ (cf_cong_signal f _ _ E)). destruct ack; exact H.
Qed.

Lemma core_undo_rexmt v s : core (undo_rexmt e v s) = core s.
Proof. unfold undo_rexmt. destruct (_ && _); [apply core_cong_signal|reflexivity]. Qed.

Lemma rx_tp_xmit tp rtt : rx_tp (tcp_xmit_timer (cce (te (oe e))) tp rtt) = rx_tp tp.
Proof. unfold tcp_xmit_timer, smooth_rtt, first_rtt. cases. Qed.

Lemma core_sample_rtt a b s : core (sample_rtt e a b s) = core s.
Proof. unfold sample_rtt. destruct (_ || _); (rewrite core_on_cb by apply rx_tp_xmit; reflexivity). Qed.

Lemma core_update_rtt v s : core (update_rtt e v s) = core s.
Proof. unfold update_rtt. destruct (_ && _); [apply core_sample_rtt|]. destruct (_ && _); [apply core_sample_rtt|reflexivity]. Qed.

Lemma core_restart_rexmt b s : core (restart_rexmt e b s) = core s.
Proof. unfold restart_rexmt. destruct b; [apply core_timer|]. destruct (negb _); [apply core_timer|reflexivity]. Qed.

Lemma core_drop_acked n s s' : drop_acked n s = Some s' -> core s' = core s.
Proof. unfold drop_acked. destruct (sbdrop_internal _ _); [|discriminate]. intros [= <-]. reflexivity. Qed.

Lemma core_pull_recover v s : core (pull_recover v s) = core s.
Proof. unfold pull_recover. destruct (_ && _); reflexivity. Qed.

Lemma core_process_ecn p s : core (process_ecn e p s) = core s.
Proof.
  unfold process_ecn. destruct (iflag _ _); [|reflexivity].
  destruct (has_flag _ TH_CWR), (_ =? _), (has_flag _ TH_ECE); rewrite ?core_cong_signal; reflexivity.
Qed.

(** How a stage ends: [Q None] where it falls through, [Q (Some l)] where it
    jumps, [T] where it starts TIME_WAIT. *)
Definition ends (f : flow) (Q : option label -> icb -> vars -> Prop) (T : icb -> Prop) : Prop :=
  match f with
  | Next s v => Q None s v
  | Goto l s v => Q (Some l) s v
  | TwStart s => T s
  | Panic => True
  end.

Lemma ends_mono f Q Q' T T' :
  (forall l s v, Q l s v -> Q' l s v) -> (forall s, T s -> T' s) -> ends f Q T -> ends f Q' T'.
Proof. destruct f; cbn [ends]; auto. Qed.

Lemma ends_both f Q Q' T T' : ends f Q T -> ends f Q' T' -> ends f (fun l s v => Q l s v /\ Q' l s v) (fun s => T s /\ T' s).
Proof. destruct f; cbn [ends]; auto. Qed.

Lemma ends_andthen f k Q T :
  ends f (fun l s v => match l with None => ends (k s v) Q T | Some _ => Q l s v end) T -> ends (f >>> k) Q T.
Proof. destruct f; cbn [ends andthen]; auto. Qed.

Lemma ends_at l f k Q T :
  ends f (fun l' s v => if match l' with
                           | None => true
                           | Some l' => match l, l' with
                                        | process_ACK, process_ACK | step6, step6 | check_delack, check_delack => true
                                        | _, _ => false
                                        end
                           end : bool then ends (k s v) Q T else Q l' s v) T -> ends (at_label l f k) Q T.
Proof. destruct f as [| [] | |]; cbn [ends at_label]; auto; destruct l; auto. Qed.

Lemma ends_lift r k Q T : (forall s, r = Some s -> ends (k s) Q T) -> ends (lift r k) Q T.
Proof. destruct r; cbn [lift]; [auto|]. intros _. exact I. Qed.

(** A stage that leaves the [core] alone, sets no flag and keeps the ACK flag. *)
Definition plain (s : icb) (v : vars) (s' : icb) (v' : vars) : Prop :=
  core s' = core s /\ v_pkt v' = v_pkt v /\ thf TH_ACK v' = thf TH_ACK v /\ forall f, thf f v' = true -> thf f v = true.

Lemma plain_refl s v : plain s v s v.
Proof. repeat split; auto. Qed.

Lemma has_flag_land a b f : has_flag (Z.land a b) f = true -> has_flag a f = true.
Proof.
  unfold has_flag. rewrite !negb_true_iff, !Z.eqb_neq. intros H E. apply H. rewrite <- Z.land_assoc, (Z.land_comm b), Z.land_assoc, E. reflexivity.
Qed.

Lemma thf_clear f g v : thf f (clear_thf g v) = true -> thf f v = true.
Proof. apply has_flag_land. Qed.

Lemma thf_clear_other f g v : Z.land g f = 0 -> thf f (clear_thf g v) = thf f v.
Proof. apply flag_cleared_other. Qed.

Lemma plain_clear g s v s' v' : Z.land g TH_ACK = 0 -> plain s v s' v' -> plain s v s' (clear_thf g v').
Proof.
  intros Hg (H1 & H2 & H3 & H4). split; [exact H1|]. split; [exact H2|]. split; [rewrite thf_clear_other by exact Hg; exact H3|].
  intros f Hf%thf_clear. auto.
Qed.

Definition plainly (s : icb) (v : vars) (f : flow) : Prop := ends f (fun _ s' v' => plain s v s' v') (fun _ => False).

Lemma plain_core s s' v : core s' = core s -> plain s v s' v.
Proof. intros H. repeat split; auto. Qed.

Lemma plain_predict_ack s v : plainly s v (predict_ack e s v).
Proof.
  unfold predict_ack. apply ends_lift. intros s1 H1%core_drop_acked. rewrite core_update_rtt, core_undo_rexmt in H1.
  apply ends_lift. intros s2 H2. cbn [ends]. apply plain_core. rewrite <- H1.
  set (s3 := pull_recover v s1) in *. assert (core s3 = core s1) as H3 by apply core_pull_recover. clearbody s3.
  change (on_cb _ s3) with (note_ack e CC_ACK v s3) in H2.
  pose proof (core_note_ack CC_ACK v s3) as H4. set (s4 := note_ack e CC_ACK v s3) in *. clearbody s4.
  rewrite <- H3, <- H4. revert H2. match goal with |- context [restart_rexmt e ?b ?s] => pose proof (core_restart_rexmt b s) as H5; set (s5 := restart_rexmt e b s) in *; clearbody s5 end.
  destruct (negb _); [intros [H6 _]%core_run_output; rewrite H6|intros [= <-]]; rewrite H5; reflexivity.
Qed.

Lemma plain_set_rcv_wnd s v : plainly s v (set_rcv_wnd s v).
Proof. apply plain_core. reflexivity. Qed.

Lemma plain_check_paws s v : plainly s v (check_paws e s v).
Proof. unfold check_paws. destruct (_ && _); [destruct (_ <? _)|]; apply plain_core; reflexivity. Qed.

Lemma plain_check_irs s v : plainly s v (check_irs s v).
Proof. unfold check_irs. destruct (_ && _); apply plain_refl. Qed.

Lemma plain_trim_front s v : plainly s v (trim_front s v).
Proof.
  unfold trim_front. destruct (_ <? _); [|apply plain_refl].
  destruct (thf TH_SYN v); [destruct (1 <? v_urp _)|];
    match goal with |- context [if ?b then _ else _] => destruct b end;
    cbv beta iota zeta; (match goal with |- context [if ?b then _ else _] => destruct b end);
    repeat (apply plain_clear; [reflexivity|]); (split; [reflexivity|]); (split; [reflexivity|]); (split; [|intros f Hf; repeat (apply thf_clear in Hf); exact Hf]);
    repeat (first [reflexivity|etransitivity; [apply thf_clear_other; reflexivity|]]).
Qed.

Lemma plain_trim_back s v : plainly s v (trim_back s v).
Proof.
  unfold trim_back. destruct (0 <? _); [|apply plain_refl]. destruct (_ && _); [apply plain_refl|]. cbv zeta.
  apply (plain_clear _ s v); [reflexivity|]. split; [|repeat split; auto]. destruct (_ <=? _); reflexivity.
Qed.

Lemma plain_check_timestamp s v : plainly s v (check_timestamp e s v).
Proof. apply plain_core. destruct (_ && _); reflexivity. Qed.

Lemma plain_check_ack s v : plainly s v (check_ack s v).
Proof. unfold check_ack. destruct (negb _); [destruct (_ || _)|]; apply plain_refl. Qed.

Lemma plain_ack_range s v : plainly s v (ack_range s v).
Proof.
  unfold ack_range. set (s1 := if _ && _ then _ else _). assert (core s1 = core s) as H by (unfold s1; destruct (_ && _); reflexivity).
  clearbody s1. destruct (SEQ_GT _ _); [apply plain_core, H|]. destruct (_ && _); [|apply plain_core, H].
  destruct (tcp_sack_doack _ _ _) as [k|] eqn:E; [|exact I]. apply plain_core. rewrite <- H. apply sack_rx_doack in E.
  apply core_on_cb. unfold rx_tp. cbn [update t_state t_sack inp_dropped]. unfold sack_rx in E. fold (cb s1) in E. congruence.
Qed.

(** A state that differs from [s] in nothing of the core. *)
Lemma plain_output_to s v s1 (k : icb -> flow) :
  core s1 = core s -> (forall s2, core s2 = core s -> plainly s v (k s2)) -> plainly s v (lift (run_output e s1) k).
Proof. intros H1 H. apply ends_lift. intros s2 [H2 _]%core_run_output. apply H. congruence. Qed.

Lemma plain_old_ack s v : plainly s v (old_ack e s v).
Proof.
  unfold old_ack. destruct (_ && _); [|apply plain_core; reflexivity]. destruct (_ || _); [apply plain_core; reflexivity|].
  set (s1 := set_dupacks _ s). assert (core s1 = core s) as H1 by reflexivity. clearbody s1.
  pose proof (core_note_ack CC_DUPACK v) as Hn.
  destruct (_ || _); [|destruct (_ =? _); [|destruct (tcp_do_rfc3042 e); [|apply plain_core, H1]]].
  - unfold inflate. specialize (Hn s1). set (s2 := note_ack e CC_DUPACK v s1) in *. clearbody s2.
    apply plain_output_to; [|intros s3 H3; apply plain_core, H3]. rewrite <- H1, <- Hn. unfold set_cwnd. cases.
  - unfold fast_retransmit. match goal with |- context [if ?b then Goto step6 _ _ else _] => destruct b end; [apply plain_core, H1|].
    pose proof (core_cong_signal CC_NDUPACK (Some (v_ack v)) s1) as Hc. set (s2 := on_cb _ s1) in *. clearbody s2.
    specialize (Hn s2). set (s3 := note_ack e CC_DUPACK v s2) in *. clearbody s3.
    pose proof (core_timer TT_REXMT 0 s3) as Ht. set (s4 := start_timer e TT_REXMT 0 s3) in *. clearbody s4.
    assert (core s4 = core s) as H4 by congruence. cbv zeta.
    match goal with |- context [if ?b then _ else _] => destruct b end; (apply plain_output_to; [exact H4|]); intros s5 H5; apply plain_core.
    + exact H5.
    + destruct (SEQ_GT _ _); exact H5.
  - unfold limited_transmit. specialize (Hn s1). set (s2 := note_ack e CC_DUPACK v s1) in *. clearbody s2. cbv zeta.
    apply plain_output_to; [destruct (_ =? 1); rewrite <- H1, <- Hn; reflexivity|]. intros s3 H3. apply plain_core.
    unfold set_cwnd. rewrite core_on_cb by reflexivity. destruct (_ <? _); [exact H3|]. destruct (_ <? _); exact H3.
Qed.

Lemma core_partial_ack v s s' :
  tcp_sack_partialack e v s = Some s' \/ tcp_newreno_partial_ack e v s = Some s' -> core s' = core s.
Proof.
  intros [H|H]; revert H.
  - unfold tcp_sack_partialack. intros [H _]%core_run_output. rewrite H. apply core_on_cb. unfold sack_partial_start, stop_rexmt, set_flag. cases.
  - unfold tcp_newreno_partial_ack. destruct (run_output _ _) as [s1|] eqn:E; [|discriminate]. apply core_run_output in E as [E _].
    intros [= <-]. rewrite core_on_cb; [rewrite E; reflexivity|]. unfold newreno_partial_end, set_nxt. cases.
Qed.

Lemma plain_new_ack s v : plainly s v (new_ack e s v).
Proof.
  unfold new_ack. apply ends_lift. intros s1 H1.
  assert (core s1 = core s) as H.
  { revert H1. destruct (IN_FASTRECOVERY _); [|congruence]. destruct (SEQ_LT _ _).
    - destruct (iflag _ _); intros; apply (core_partial_ack v); auto.
    - intros [= <-]. apply core_on_cb. unfold cc_post_recovery. destruct (post_recovery _) as [f|] eqn:Ef; [|reflexivity].
      transitivity (rx_tp (f ((cb s) <| curack := v_ack v |>))); [reflexivity|]. rewrite (hook_rx_tp _ _ (cf_post_recovery f _ Ef)). reflexivity. }
  cbv zeta. match goal with |- context [if ?b then _ else _] => destruct b end; [|apply plain_core, H].
  match goal with |- context [if ?b then _ else _] => destruct b end; apply plain_core, H.
Qed.

Lemma plain_check_dup s v : plainly s v (check_dup e s v).
Proof. unfold check_dup. destruct (SEQ_LEQ _ _); [apply plain_old_ack|apply plain_new_ack]. Qed.

Lemma core_free_acked n s s' b : free_acked n s = Some (s', b) -> core s' = core s.
Proof.
  unfold free_acked. destruct (_ <? _).
  - destruct (drop_acked _ _) as [s1|] eqn:E; [|discriminate]. apply core_drop_acked in E. intros [= <- _]. rewrite E. reflexivity.
  - destruct (drop_acked _ _) as [s1|] eqn:E; [|discriminate]. apply core_drop_acked in E. intros [= <- _].
    rewrite core_on_cb by reflexivity. exact E.
Qed.

Lemma core_advance_una v s : core (advance_una v s) = core s.
Proof.
  unfold advance_una. set (s1 := if negb _ then _ else _).
  assert (core s1 = core s) as H1 by (unfold s1; destruct (negb _); [apply core_pull_recover|reflexivity]). clearbody s1. rewrite <- H1.
  cbv zeta. repeat (match goal with |- context [if ?b then _ else _] => destruct b end); reflexivity.
Qed.

Lemma plain_update_window s v : plain s v (fst (update_window s v)) (snd (update_window s v)).
Proof. unfold update_window. destruct (_ && _); [|apply plain_refl]. split; [cases|]. repeat split; auto. Qed.

Lemma plain_do_output s v : plainly s v (do_output e s v).
Proof.
  unfold do_output. destruct (_ || _); [|apply plain_refl]. apply plain_output_to; [reflexivity|]. intros s1 H1. apply plain_core, H1.
Qed.

Lemma plain_delack s v : plainly s v (delack e s v).
Proof. apply plain_core. destruct (iflag _ _); [rewrite core_timer|]; reflexivity. Qed.

(** *** FINs in the reassembly queue *)

Definition fin_entry (q : TcpReass.Reass.tseg_qent) : Prop := has_flag (TcpReass.Reass.th_flags q) TH_FIN = true.
Definition fin_queued (tp : TcpReass.Reass.tcpcb) : Prop := Exists fin_entry (TcpReass.Reass.t_segq tp).
Definition fin_seg (seg : option TcpReass.Reass.segment) : Prop :=
  match seg with Some g => has_flag (TcpReass.Reass.s_flags g) TH_FIN = true | None => False end.

Lemma fin_split sq l : Exists fin_entry (fst (TcpReass.Reass.split_queue sq l)) \/ Exists fin_entry (snd (TcpReass.Reass.split_queue sq l)) -> Exists fin_entry l.
Proof.
  induction l as [|q l IH]; cbn [TcpReass.Reass.split_queue]; [cbn; intros [H|H]; exact H|].
  destruct (SEQ_GT _ _); cbn [fst snd]; [intros [H|H]; [inversion H|exact H]|].
  destruct (TcpReass.Reass.split_queue sq l) as [pre post]. cbn [fst snd] in *. rewrite !Exists_cons. tauto.
Qed.

Lemma fin_trim sq n l : forall tp, Exists fin_entry (fst (TcpReass.Reass.trim_following sq n l tp)) -> Exists fin_entry l.
Proof.
  induction l as [|q l IH]; intros tp; cbn [TcpReass.Reass.trim_following]; [auto|].
  destruct (_ <=? 0); [auto|]. destruct (_ <? _); [cbn [fst]; rewrite !Exists_cons; auto|]. rewrite Exists_cons. eauto.
Qed.

Lemma fin_place env te seg tp :
  Exists fin_entry (TcpReass.Reass.t_segq (TcpReass.Reass.pl_tp (TcpReass.Reass.reass_place env te seg tp))) ->
  fin_queued tp \/ fin_seg (Some seg).
Proof.
  unfold TcpReass.Reass.reass_place, fin_queued. pose proof (fin_split (TcpReass.Reass.s_seq seg) (TcpReass.Reass.t_segq tp)) as Hs.
  destruct (TcpReass.Reass.split_queue _ _) as [pre post]. cbn [fst snd] in Hs.
  assert (forall g tp', TcpReass.Reass.s_flags g = TcpReass.Reass.s_flags seg ->
    Exists fin_entry (TcpReass.Reass.t_segq (TcpReass.Reass.pl_tp (TcpReass.Reass.reass_link env te pre post g tp'))) ->
    Exists fin_entry (TcpReass.Reass.t_segq tp) \/ fin_seg (Some seg)) as Hl.
  { intros g tp' Hg. unfold TcpReass.Reass.reass_link.
    match goal with |- context [TcpReass.Reass.trim_following ?a ?b post ?t] => pose proof (fin_trim a b post t) as Ht;
      destruct (TcpReass.Reass.trim_following a b post t) as [post' tp1] end. cbn [fst] in Ht.
    destruct pre; [|destruct (_ && _)]; cbn [TcpReass.Reass.pl_tp TcpReass.Reass.t_segq update app];
      rewrite ?Exists_cons, ?Exists_app, ?Exists_cons in *; unfold fin_entry at 1 2, fin_seg; cbn [TcpReass.Reass.th_flags]; rewrite Hg; tauto. }
  destruct (last pre) as [p|]; [|apply Hl; reflexivity]. destruct (0 <? _); [|apply Hl; reflexivity].
  destruct (_ <=? _); [|apply Hl; reflexivity]. cbn [TcpReass.Reass.pl_tp]. unfold TcpReass.Reass.reass_dup.
  destruct (_ =? TcpReass.Reass.TQS); left; assumption.
Qed.

Lemma fin_present_loop rest : forall q rep recl tp,
  let r := TcpReass.Reass.present_loop q rest rep recl tp in
  has_flag (fst (fst (fst r))) TH_FIN = true \/ fin_queued (snd r) -> Exists fin_entry (q :: rest).
Proof.
  assert (forall q rest rep recl tp, TcpReass.Reass.t_segq (snd (TcpReass.Reass.present_step q rest rep recl tp)) = rest) as Hs.
  { intros. unfold TcpReass.Reass.present_step. cases. }
  induction rest as [|nq rest IH]; intros q rep recl tp; cbn [TcpReass.Reass.present_loop].
  - specialize (Hs q [] rep recl tp). destruct (TcpReass.Reass.present_step _ _ _ _ _) as [[rep' recl'] tp'].
    cbn [snd fst] in *. unfold fin_queued. rewrite Hs. intros [H%has_flag_land|H]; [left; exact H|inversion H].
  - specialize (Hs q (nq :: rest) rep recl tp). destruct (TcpReass.Reass.present_step _ _ _ _ _) as [[rep' recl'] tp'].
    cbn [snd] in Hs. destruct (_ =? _).
    + intros H. right. exact (IH _ _ _ _ H).
    + cbn [fst snd]. unfold fin_queued. rewrite Hs. intros [H%has_flag_land|H]; [left; exact H|right; exact H].
Qed.

Lemma fin_present env hole rep tp :
  let r := TcpReass.Reass.reass_present env hole rep tp in
  has_flag (fst r) TH_FIN = true \/ fin_queued (snd r) -> fin_queued tp.
Proof.
  unfold TcpReass.Reass.reass_present. cbv zeta. destruct (negb _); [intros [H|H]; [discriminate|exact H]|].
  unfold fin_queued at 2. destruct (TcpReass.Reass.t_segq tp) as [|q rest] eqn:Eq.
  { intros [H|H]; [discriminate|]. unfold fin_queued in H. cbn [snd] in H. rewrite Eq in H. exact H. }
  destruct (_ && _).
  { intros [H|H]; [discriminate|]. rewrite <- Eq. unfold fin_queued in H. cbn [snd] in H.
    destruct (TcpReass.Reass.inp_passive tp); [|exact H]. unfold TcpReass.Reass.tcp_timer_activate in H. destruct (_ =? 0) in H; exact H. }
  pose proof (fin_present_loop rest q rep None (TcpReass.Reass.leading_hole hole q tp)) as H.
  destruct (TcpReass.Reass.present_loop _ _ _ _ _) as [[[fl rep'] recl'] tp']. cbn [fst snd] in *.
  intros [K|K]; apply H; [left; exact K|right].
  set (tp1 := match rep' with true => _ | false => _ end) in K.
  assert (fin_queued tp1 -> fin_queued tp') as K1.
  { unfold tp1. destruct rep', recl'; auto. unfold fin_queued, TcpReass.Reass.replace_tqs. cbn [TcpReass.Reass.t_segq update].
    generalize (TcpReass.Reass.t_segq tp'). induction l as [|y l IH]; cbn [map]; [auto|]. rewrite !Exists_cons.
    destruct (TcpReass.Reass.tqe_id y =? _); (intros [X|X]; [left; exact X|right; exact (IH X)]). }
  apply K1. clearbody tp1. revert K. unfold fin_queued. cbn [TcpReass.Reass.t_segq update].
  destruct (_ || _); [|auto]. unfold TcpReass.Reass.tcp_timer_activate. destruct (_ =? 0); auto.
Qed.

(** A FIN that [tcp_reass] reports or keeps was in the queue or in the segment. *)
Lemma reass_fin env tp seg :
  let r := TcpReass.Reass.tcp_reass env tp seg in
  has_flag (TcpReass.Reass.r_flags r) TH_FIN = true \/ fin_queued (TcpReass.Reass.r_tp r) -> fin_queued tp \/ fin_seg seg.
Proof.
  unfold TcpReass.Reass.tcp_reass. destruct seg as [g|].
  - destruct (TcpReass.Reass.reass_admit _ tp) as [tp1|[[te hole] tp1]] eqn:E.
    + apply TcpReass.Reass.reass_admit_inl in E as (_ & _ & (st & ->) & _). cbn. intros [H|H]; [discriminate|left; exact H].
    + apply TcpReass.Reass.reass_admit_inr in E as (E & _).
      match goal with |- context [TcpReass.Reass.reass_present ?a ?b ?c ?d] => pose proof (fin_present a b c d) as H;
        destruct (TcpReass.Reass.reass_present a b c d) as [fl tp2] end.
      cbn [fst snd TcpReass.Reass.r_flags TcpReass.Reass.r_tp] in *. intros K%H%fin_place. unfold fin_queued in *. rewrite E in K. exact K.
  - pose proof (fin_present env false false tp) as H. destruct (TcpReass.Reass.reass_present _ _ _ _) as [fl tp2]. cbn in *. auto.
Qed.

(** ** The state machine *)

(** A FIN in the segment or waiting in the reassembly queue. *)
Definition fin_seen (s0 : icb) (p : packet) : Prop := has_flag (p_flags p) TH_FIN = true \/ fin_queued (ic_reass s0).

(** The ACK lies in what was sent after [from]. *)
Definition acks (from : Z) (s0 : icb) (p : packet) : Prop :=
  has_flag (p_flags p) TH_ACK = true /\ SEQ_GT (p_ack p) from = true /\ SEQ_LEQ (p_ack p) (s_max (ic_o s0)) = true.

(** The arcs a segment [p] may take a connection [s0] along. *)
Inductive arc (s0 : icb) (p : packet) : Z -> Z -> Prop :=
  | arc_simultaneous : has_flag (p_flags p) TH_SYN = true -> arc s0 p TCPS_SYN_SENT TCPS_SYN_RECEIVED
  | arc_open st : has_flag (p_flags p) TH_SYN = true -> acks (iss (ic_o s0)) s0 p ->
      st = TCPS_ESTABLISHED \/ st = TCPS_FIN_WAIT_1 -> arc s0 p TCPS_SYN_SENT st
  | arc_accept st : acks (s_una (ic_o s0)) s0 p ->
      st = TCPS_ESTABLISHED \/ st = TCPS_FIN_WAIT_1 -> arc s0 p TCPS_SYN_RECEIVED st
  | arc_fin_acked : has_flag (p_flags p) TH_ACK = true -> arc s0 p TCPS_FIN_WAIT_1 TCPS_FIN_WAIT_2
  | arc_close st : fin_seen s0 p -> st = TCPS_SYN_RECEIVED \/ st = TCPS_ESTABLISHED -> arc s0 p st TCPS_CLOSE_WAIT
  | arc_fin_both : fin_seen s0 p -> arc s0 p TCPS_FIN_WAIT_1 TCPS_CLOSING
  | arc_reset st : has_flag (p_flags p) TH_RST = true -> TCPS_SYN_RECEIVED <= st -> arc s0 p st TCPS_CLOSED
  | arc_bad_syn st : has_flag (p_flags p) TH_SYN = true -> TCPS_SYN_RECEIVED <= st -> arc s0 p st TCPS_CLOSED.

(** A passive connection stays one and sends nothing. *)
Record steady (s s' : icb) : Prop := {
  kp_passive : inp_passive (ic_o s') = inp_passive (ic_o s);
  kp_wire : inp_passive (ic_o s) = true -> wire (ic_o s') = wire (ic_o s);
  kp_options : so_options s' = so_options s }.

Lemma steady_refl s : steady s s.
Proof. split; auto. Qed.
Lemma steady_trans s1 s2 s3 : steady s1 s2 -> steady s2 s3 -> steady s1 s3.
Proof. intros [A1 A2 A3] [B1 B2 B3]. split; [congruence| |congruence]. intros H. rewrite B2 by congruence. auto. Qed.
Lemma steady_core s s' : core s' = core s -> steady s s'.
Proof.
  unfold core, spied. intros [= _ _ _ E1 _ E2 E3 _ _ _ _]. split; [exact E1| |exact E3]. intros H. rewrite E1, H in E2. exact E2.
Qed.
Lemma steady_wire s s' : inp_passive (ic_o s') = inp_passive (ic_o s) -> wire (ic_o s') = wire (ic_o s) -> so_options s' = so_options s -> steady s s'.
Proof. intros. split; auto. Qed.

Section Arcs.
Context (s0 : icb) (p : packet).

(** Where the connection may be, and that an ACK in SYN_RECEIVED has been checked. *)
Record on_arc (s : icb) (v : vars) : Prop := {
  oa_state : rtc (arc s0 p) (state s0) (state s);
  oa_pkt : v_pkt v = p;
  oa_flags : forall f, thf f v = true -> has_flag (p_flags p) f = true;
  oa_queue : fin_queued (ic_reass s) -> fin_seen s0 p;
  oa_kept : steady s0 s }.

Definition checked (s : icb) (v : vars) : Prop :=
  state s = TCPS_SYN_RECEIVED -> thf TH_ACK v = true -> acks (s_una (ic_o s0)) s0 p.

Definition arc_inv (s : icb) (v : vars) : Prop := on_arc s v /\ checked s v.

(** A stage that keeps the state and the queue. *)
Lemma arc_stay s v s' v' :
  arc_inv s v -> state s' = state s -> (fin_queued (ic_reass s') -> fin_queued (ic_reass s)) -> steady s s' -> v_pkt v' = v_pkt v ->
  thf TH_ACK v' = thf TH_ACK v -> (forall f, thf f v' = true -> thf f v = true) -> arc_inv s' v'.
Proof.
  intros [[H1 H2 H3 H4 H6] H5] Es Er Hk Ep Ea Ef. split; [|unfold checked; rewrite Es, Ea; exact H5].
  split; [rewrite Es; exact H1|congruence|intros f Hf; auto|auto|eapply steady_trans; eauto].
Qed.

Lemma arc_inv_core s v s' v' : arc_inv s v -> plain s v s' v' -> arc_inv s' v'.
Proof.
  intros H (E & E1 & E2 & E3). pose proof (steady_core _ _ E). unfold core in E. injection E as E4 _ _ _ E5 _ _ _ _ _ _.
  eapply arc_stay; eauto. rewrite E5. auto.
Qed.

Lemma arc_plain s v f : arc_inv s v -> plainly s v f -> ends f (fun _ => arc_inv) (fun _ => False).
Proof. intros H. apply ends_mono; [|auto]. intros l s' v' Hp. eapply arc_inv_core; eauto. Qed.

(** A stage that moves along an arc, not to SYN_RECEIVED. *)
Lemma arc_move s v s' v' :
  arc_inv s v -> arc s0 p (state s) (state s') -> state s' <> TCPS_SYN_RECEIVED ->
  (fin_queued (ic_reass s') -> fin_queued (ic_reass s)) -> steady s s' ->
  v_pkt v' = v_pkt v -> (forall f, thf f v' = true -> thf f v = true) -> arc_inv s' v'.
Proof.
  intros [[H1 H2 H3 H4 H5] _] Ha Hn Er Hk Ep Ef. split; [|intros E; congruence].
  split; [eapply rtc_r; eauto|congruence|intros f Hf; auto|auto|eapply steady_trans; eauto].
Qed.

Lemma close_state s s' : tcp_close s = Some s' -> state s' = state s /\ ic_reass s' = ic_reass s /\ steady s s'.
Proof.
  unfold tcp_close, soisdisconnected. destruct (sbdrop_internal _ _) as [sb|]; [|discriminate]. cbn [mbind option_bind].
  intros [= <-]. destruct (inp_sockref _); (split; [|split; [|apply steady_wire]]; reflexivity).
Qed.

Lemma drop_state errno s s' : tcp_drop e errno s = Some s' ->
  state s' = (if TCPS_HAVERCVDSYN (state s) then TCPS_CLOSED else state s) /\ ic_reass s' = ic_reass s /\ steady s s'.
Proof.
  unfold tcp_drop. destruct (TCPS_HAVERCVDSYN (state s)).
  - destruct (run_output _ _) as [s1|] eqn:E; [|discriminate]. cbn [mbind option_bind].
    intros (C1 & C2 & C3)%close_state. apply core_run_output in E as [E _]. pose proof (steady_core _ _ E) as K.
    unfold core in E. injection E as E1 _ _ _ E2 _ _ _ _ _ _.
    split; [rewrite C1; exact E1|]. split; [rewrite C2; exact E2|].
    eapply steady_trans; [|exact C3]. eapply (steady_trans _ (to_state TCPS_CLOSED s)); [apply steady_wire; reflexivity|eapply steady_trans; [exact K|apply steady_wire; reflexivity]].
  - cbn [mbind option_bind]. intros (C1 & C2 & C3)%close_state. split; [rewrite C1; reflexivity|]. split; [rewrite C2; reflexivity|].
    eapply steady_trans; [|exact C3]. apply steady_wire; reflexivity.
Qed.

Lemma append_state ms s s' : append_mbufs ms s = Some s' -> state s' = state s /\ ic_reass s' = ic_reass s /\ steady s s'.
Proof.
  unfold append_mbufs. destruct (sbappendstream_locked _ _); [|discriminate]. intros [= <-].
  split; [|split; [|apply steady_wire]]; reflexivity.
Qed.

Lemma append_all_state ms : forall s s', append_all e ms s = Some s' -> state s' = state s /\ ic_reass s' = ic_reass s /\ steady s s'.
Proof.
  induction ms as [|m ms IH]; intros s s'; cbn [append_all]; [intros [= <-]; repeat split; auto|].
  destruct (append_rmbuf e s m) as [s1|] eqn:E; [|discriminate]. cbn [mbind option_bind]. intros (H1 & H2 & H3)%IH.
  assert (state s1 = state s /\ ic_reass s1 = ic_reass s /\ steady s s1) as (K1 & K2 & K3)
    by (destruct m; exact (append_state _ _ _ E)).
  split; [congruence|]. split; [congruence|]. eapply steady_trans; eauto.
Qed.

Lemma call_reass_state seg s s' fl n : call_reass e seg s = Some (s', fl, n) ->
  state s' = state s /\ steady s s' /\
  (has_flag fl TH_FIN = true \/ fin_queued (ic_reass s') -> fin_queued (ic_reass s) \/ fin_seg seg).
Proof.
  unfold call_reass. destruct (append_all _ _ _) as [s1|] eqn:E; [|discriminate]. cbn [mbind option_bind]. intros [= <- <- _].
  apply append_all_state in E as (E1 & E2 & E3). split; [exact E1|]. split; [destruct E3; split; assumption|].
  intros H. apply (reass_fin (reass_env e) (reass_in s) seg). exact H.
Qed.

Lemma arc_predict_data s v : arc_inv s v -> ends (predict_data e s v) (fun _ => arc_inv) (fun _ => False).
Proof.
  intros H. unfold predict_data.
  match goal with |- context [autorcvbuf e v ?s] => set (s1 := s) end.
  assert (state s1 = state s /\ ic_reass s1 = ic_reass s /\ steady s s1) as (A1 & A2 & A3).
  { unfold s1. match goal with |- context [if ?b then on_o _ s else s] => destruct b end; (split; [|split; [|apply steady_wire]]; reflexivity). }
  clearbody s1.
  assert (state (fst (autorcvbuf e v s1)) = state s1 /\ ic_reass (fst (autorcvbuf e v s1)) = ic_reass s1 /\ steady s1 (fst (autorcvbuf e v s1))) as (B1 & B2 & B3).
  { unfold autorcvbuf. cases; (split; [|split; [|apply steady_wire]]; reflexivity). }
  destruct (autorcvbuf e v s1) as [s2 n]. cbn [fst] in *. apply ends_lift. intros s3 E.
  assert (state s3 = state s2 /\ ic_reass s3 = ic_reass s2 /\ steady s2 s3) as (C1 & C2 & C3).
  { destruct (cant_receive s2); [injection E as <-; split; [|split; [|apply steady_refl]]; reflexivity|].
    apply append_state in E as (E1 & E2 & E3). rewrite E1, E2. unfold resize_rcv in *. destruct (n =? 0); [auto|].
    destruct (sbreserve_locked _ _ _ _ _) as [[ui sb] ok]. destruct E3. split; [|split; [|split]]; auto. }
  assert (arc_inv s3 v) as H3.
  { eapply (arc_stay s v); try reflexivity; [exact H|congruence|rewrite C2, B2, A2; auto| |auto]. eapply steady_trans; [exact A3|]. eapply steady_trans; eauto. }
  destruct (DELAY_ACK e s3); [apply (arc_inv_core _ _ _ _ H3), plain_core; reflexivity|].
  eapply arc_plain; [exact H3|]. apply plain_output_to; [reflexivity|]. intros s4 H4. apply plain_core, H4.
Qed.

Lemma arc_prediction s v : arc_inv s v -> ends (header_prediction e s v) (fun _ => arc_inv) (fun _ => False).
Proof.
  intros H. unfold header_prediction. destruct (predicted e s v); [|exact H].
  set (s1 := if _ && _ then _ else _). assert (arc_inv s1 v) as H1.
  { apply (arc_inv_core _ _ _ _ H), plain_core. unfold s1. destruct (_ && _); reflexivity. }
  clearbody s1. cbv zeta. destruct (_ =? 0).
  - destruct (predicted_ack s1 v); [|exact H1]. eapply arc_plain; [exact H1|apply plain_predict_ack].
  - destruct (_ && _); [|exact H1]. apply arc_predict_data, H1.
Qed.

Lemma arc_check_rst s v : arc_inv s v -> ends (check_rst e s v) (fun _ => arc_inv) (fun _ => False).
Proof.
  intros H. unfold check_rst. destruct (thf TH_RST v) eqn:Er; [|exact H].
  pose proof (oa_flags _ _ (proj1 H) _ Er) as Hr.
  assert (forall errno, TCPS_SYN_RECEIVED <= state s -> ends (reset_by errno s v) (fun _ => arc_inv) (fun _ => False)) as Hc.
  { intros errno Hs. unfold reset_by. apply ends_lift. intros s1 (E1 & E2 & E3)%close_state. destruct errno.
    - eapply (arc_move s v); auto; [rewrite E1; apply arc_reset; auto|rewrite E1; discriminate|rewrite E2; auto|].
      eapply steady_trans; [|exact E3]. apply steady_wire; reflexivity.
    - eapply (arc_stay s v); auto. rewrite E2. auto. }
  destruct (_ && _); [|exact H]. unfold TCPS_SYN_RECEIVED, TCPS_ESTABLISHED in *.
  destruct (Z.eqb_spec (state s) 3); [apply Hc; lia|]. destruct (Z.eqb_spec (state s) 4).
  { destruct (_ && _); [exact H|apply Hc; lia]. }
  unfold TCPS_FIN_WAIT_1, TCPS_FIN_WAIT_2, TCPS_CLOSE_WAIT, TCPS_CLOSING, TCPS_LAST_ACK in *.
  destruct (_ || _) eqn:E1; [apply Hc; zbool; lia|]. destruct (_ || _) eqn:E2 in |- *; [apply Hc; zbool; lia|exact H].
Qed.

(** The numbers the handshake is checked against. *)
Definition fresh (s : icb) : Prop :=
  iss (ic_o s) = iss (ic_o s0) /\ s_una (ic_o s) = s_una (ic_o s0) /\ s_max (ic_o s) = s_max (ic_o s0).

Lemma fresh_on_cb f s : t_sack (f (cb s)) = t_sack (cb s) -> fresh s -> fresh (on_cb f s).
Proof.
  unfold fresh, on_cb, on_o, on_tp, s_una, s_max, una, smax, cb. cbn [update ic_o o_tp iss]. intros ->. auto.
Qed.

Lemma fresh_timer t d s : fresh s -> fresh (start_timer e t d s).
Proof. apply fresh_on_cb. unfold tcp_timer_activate, on_timer. destruct (_ =? _); reflexivity. Qed.

Lemma mss_frame n o : t_sack (o_tp (tcp_mss (oe e) n o)) = t_sack (o_tp o) /\ iss (tcp_mss (oe e) n o) = iss o /\
  t_state (o_tp (tcp_mss (oe e) n o)) = t_state (o_tp o) /\ inp_passive (tcp_mss (oe e) n o) = inp_passive o /\ wire (tcp_mss (oe e) n o) = wire o.
Proof.
  assert (forall a b o, let o' := tcp_mss_update (oe e) a b o in
    t_sack (o_tp o') = t_sack (o_tp o) /\ iss o' = iss o /\ t_state (o_tp o') = t_state (o_tp o) /\ inp_passive o' = inp_passive o /\ wire o' = wire o) as Hm.
  { intros a b o1. unfold tcp_mss_update. cbv zeta. destruct (maxmtu _ =? 0); repeat split. }
  specialize (Hm n (-1) o). unfold tcp_mss. revert Hm. generalize (tcp_mss_update (oe e) n (-1) o). cbv zeta. intros o1 Hm.
  repeat match goal with |- context [grow ?a ?b ?c ?d ?f] => destruct (grow a b c d f) end.
  repeat match goal with
    | |- context [if ?b then _ else _] => lazymatch b with context [if _ then _ else _] => fail | _ => destruct b end
    | |- context [grow ?a ?b ?c ?d ?f] => destruct (grow a b c d f)
    end; exact Hm.
Qed.

Lemma begin_arc s v : begin_segment e p s0 = Some (s, v) ->
  on_arc s v /\ fresh s /\ v = mk_vars p (p_seq p) (p_urp p) (p_flags p) (p_data p) 0 (Z.of_nat (length (p_data p)))
    (v_tiwin v) (v_to v) false.
Proof.
  unfold begin_segment.
  match goal with |- context [process_ecn e p ?s] => set (s1 := s) end.
  assert (fresh s1 /\ core s1 = core s0) as [F1 C1].
  { unfold s1. match goal with |- context [if ?b then start_timer _ _ _ _ else _] => destruct b end; [split; [apply fresh_timer; split; [|split]; reflexivity|rewrite core_timer; reflexivity]|split; [split; [|split]|]; reflexivity]. }
  clearbody s1.
  assert (fresh (process_ecn e p s1)) as F2.
  { unfold process_ecn. destruct (iflag _ _); [|exact F1].
    match goal with |- context [if has_flag (p_flags p) TH_ECE then _ else ?s] => set (s2 := s) end.
    assert (fresh s2) as F2 by (unfold s2; destruct (has_flag _ TH_CWR), (_ =? _); exact F1). clearbody s2.
    destruct (has_flag _ TH_ECE); [|exact F2]. apply fresh_on_cb; [|exact F2]. unfold cc_cong_signal. cbn [Z.eqb CC_ECN CC_NDUPACK Pos.eqb].
    match goal with |- context [cong_signal (algo (oe e))] => set (tp := if negb _ then _ else _) end.
    assert (t_sack tp = t_sack (cb s2)) as K by (unfold tp, ecn_cwr; destruct (negb _); [destruct (has_flag _ _)|]; reflexivity). clearbody tp.
    destruct (cong_signal _) as [f|] eqn:Ef; [|exact K].
    pose proof (cf_cong_signal f (tp <| curack := p_ack p |>) CC_ECN Ef) as H. unfold hook_rx in H. injection H as H _ _. rewrite H. exact K. }
  pose proof (core_process_ecn p s1) as C2. rewrite C1 in C2. set (s2 := process_ecn e p s1) in *. clearbody s2.
  destruct (tcp_dooptions _ _ _ _) as [to|]; [|discriminate]. cbn [mbind option_bind]. intros [= <- <-].
  set (to' := echoed e s2 to). clearbody to'.
  match goal with |- on_arc ?s _ /\ _ => set (s3 := s) end.
  assert (fresh s3 /\ state s3 = state s0 /\ ic_reass s3 = ic_reass s0 /\ steady s0 s3) as (F3 & E1 & E2 & K).
  { pose proof (steady_core _ _ C2) as K. unfold core in C2. injection C2 as D1 _ _ _ D2 _ _ _ _ _ _.
    unfold s3. destruct (_ && _); [|split; [exact F2|split; [exact D1|split; [exact D2|exact K]]]]. unfold syn_options.
    match goal with |- context [on_o (tcp_mss _ _) ?s] => set (s4 := s) end.
    assert (fresh s4 /\ state s4 = state s0 /\ ic_reass s4 = ic_reass s0 /\ steady s0 s4) as (F4 & G1 & G2 & G3).
    { unfold s4. repeat match goal with |- context [if ?b then _ else _] => destruct b end; (split; [exact F2|split; [exact D1|split; [exact D2|]]]);
        destruct K; split; assumption. }
    clearbody s4. set (s5 := if has_flag _ TOF_MSS then _ else _).
    assert (fresh s5 /\ state s5 = state s0 /\ ic_reass s5 = ic_reass s0 /\ steady s0 s5) as H5.
    { unfold s5. destruct (has_flag _ TOF_MSS); [|auto]. destruct (mss_frame (to_mss to') (ic_o s4)) as (M1 & M2 & M3 & M4 & M5).
      split; [|split; [|split; [exact G2|]]].
      - unfold fresh, s_una, s_max, una, smax, on_o in *. cbn [update ic_o]. rewrite M1, M2. exact F4.
      - unfold state, cb, on_o in *. cbn [update ic_o]. congruence.
      - eapply steady_trans; [exact G3|]. apply steady_wire; [exact M4|exact M5|reflexivity]. }
    clearbody s5. destruct H5 as (H51 & H52 & H53 & []). destruct (_ && _); (split; [exact H51|split; [exact H52|split; [exact H53|split; assumption]]]). }
  split; [|split; [exact F3|reflexivity]]. split; [rewrite E1; apply rtc_refl|reflexivity|auto| |exact K].
  rewrite E2. intros H. right. exact H.
Qed.

Lemma front_prediction s v : on_arc s v -> fresh s ->
  ends (header_prediction e s v) (fun l s' v' => match l with None => on_arc s' v' /\ fresh s' | Some l => l = check_delack /\ arc_inv s' v' end)
    (fun _ => False).
Proof.
  intros H Fr. destruct (predicted e s v) eqn:Ep.
  2: { unfold header_prediction. rewrite Ep. cbn [ends]. auto. }
  assert (arc_inv s v) as H1.
  { split; [exact H|]. intros E. exfalso. unfold predicted in Ep. rewrite E in Ep. discriminate. }
  pose proof (arc_prediction s v H1) as Ha.
  assert (match header_prediction e s v with Next s' _ => fresh s' | Goto l _ _ => l = check_delack | _ => True end) as Hf.
  { unfold header_prediction. rewrite Ep. cbv zeta. set (s1 := if _ && _ then _ else _).
    assert (fresh s1) as F1 by (unfold s1; destruct (_ && _); exact Fr). clearbody s1. destruct (_ =? 0).
    - destruct (predicted_ack s1 v); [|exact F1]. unfold predict_ack. destruct (drop_acked _ _); [|exact I]. cbn [lift].
      match goal with |- context [lift ?r _] => destruct r end; [reflexivity|exact I].
    - destruct (_ && _); [|exact F1]. unfold predict_data. destruct (autorcvbuf e v _) as [s2 n].
      match goal with |- context [lift ?r _] => destruct r end; [|exact I]. cbn [lift]. destruct (DELAY_ACK e _); [reflexivity|].
      match goal with |- context [lift ?r _] => destruct r end; [reflexivity|exact I]. }
  destruct (header_prediction e s v); cbn [ends] in *; auto. destruct Ha; auto.
Qed.

Lemma establish_state s :
  (state (establish e s) = TCPS_ESTABLISHED \/ state (establish e s) = TCPS_FIN_WAIT_1) /\
  (fin_queued (ic_reass (establish e s)) -> fin_queued (ic_reass s)) /\ steady s (establish e s).
Proof.
  unfold establish. destruct (iflag _ _); [split; [right; reflexivity|split; [auto|apply steady_wire; reflexivity]]|]. cbv zeta.
  match goal with |- context [start_timer e TT_KEEP _ (on_cb ?f ?s)] => set (s2 := s); assert (core (on_cb f s2) = core s2) as Hc end.
  { apply core_on_cb. unfold cc_conn_init. set (tp := conn_init_rtt _ _ _).
    assert (rx_tp tp = rx_tp (cb s2)) as H1 by (unfold tp, conn_init_rtt; destruct (_ && _); [destruct (negb _)|]; reflexivity). clearbody tp.
    unfold call_hook. destruct (conn_init _) as [f|] eqn:Ef; [rewrite (hook_rx_tp _ _ (cf_conn_init f _ Ef))|]; destruct (negb _); exact H1. }
  match goal with |- context [start_timer e TT_KEEP ?d ?s] => pose proof (core_timer TT_KEEP d s) as Ht; rewrite Hc in Ht; set (s3 := start_timer e TT_KEEP d s) in * end.
  clearbody s3. pose proof (steady_core _ _ Ht) as []. unfold core in Ht. injection Ht as E1 _ _ _ E2 _ _ _ _ _ _.
  split; [left; rewrite E1; reflexivity|]. split; [rewrite E2; auto|]. split; assumption.
Qed.

Lemma not_SEQ_LEQ a b : SEQ_LEQ a b = false -> SEQ_GT a b = true.
Proof. unfold SEQ_LEQ, SEQ_GT. intros H. zbool. lia. Qed.
Lemma not_SEQ_GT a b : SEQ_GT a b = false -> SEQ_LEQ a b = true.
Proof. unfold SEQ_LEQ, SEQ_GT. intros H. zbool. lia. Qed.

Lemma connected_frame s : state (soisconnected s) = state s /\ ic_reass (soisconnected s) = ic_reass s /\ steady s (soisconnected s).
Proof.
  unfold soisconnected. cbv zeta. destruct (so_head _) as [[]|]; [|split; [|split; [|apply steady_wire]]; reflexivity].
  destruct (has_flag _ SQ_INCOMP); (split; [|split; [|apply steady_wire]]; reflexivity).
Qed.

(** The connection before it is established by a [<SYN,ACK>]. *)
Lemma syn_acked_frame s v :
  exists s3, syn_acked e s v = (establish e s3, if iflag TF_NEEDFIN s3 then clear_thf TH_SYN v else v) /\
    ic_reass s3 = ic_reass s /\ steady s s3.
Proof.
  unfold syn_acked. cbv zeta. destruct (connected_frame s) as (_ & C1 & C2). set (s1 := soisconnected s) in *. clearbody s1.
  set (s2 := if both_scale s1 then _ else _). assert (ic_reass s2 = ic_reass s1 /\ steady s1 s2) as [D1 D2]
    by (unfold s2; destruct (both_scale s1); (split; [|apply steady_wire]; reflexivity)). clearbody s2.
  match goal with |- context [raise TF_ACKNOW ?s] => set (s4 := s); assert (ic_reass s4 = ic_reass s2 /\ steady s2 s4) as [D3 D4] by (split; [|apply steady_wire]; reflexivity) end.
  clearbody s4. set (s5 := if DELAY_ACK e s4 && _ then _ else _).
  assert (core s5 = core s4) as E5 by (unfold s5; destruct (_ && _); [apply core_timer|reflexivity]). clearbody s5.
  pose proof (steady_core _ _ E5) as K5. unfold core in E5. injection E5 as _ _ _ _ E5 _ _ _ _ _ _.
  eexists. split; [reflexivity|]. assert (steady s s5) as K by (repeat (eapply steady_trans; [eassumption|]); apply steady_refl).
  destruct (_ && _); (split; [cbn; congruence|]); destruct K; split; assumption.
Qed.

Lemma arc_syn_sent s v : on_arc s v -> fresh s -> state s = TCPS_SYN_SENT ->
  ends (syn_sent e s v) (fun l s' v' => arc_inv s' v' /\ (l = Some process_ACK -> thf TH_ACK v' = true)) (fun _ => False).
Proof.
  intros H Fr Es. pose proof H as [O1 O2 O3 O4 O5]. assert (arc_inv s v) as Hi by (split; [exact H|]; intros E; rewrite Es in E; discriminate).
  unfold syn_sent. destruct (thf TH_ACK v && _) eqn:Eb; [split; [exact Hi|discriminate]|].
  apply ends_lift. intros s1 E1.
  assert (arc_inv s1 v /\ state s1 = TCPS_SYN_SENT /\ (thf TH_RST v = false -> s1 = s)) as (H1 & Es1 & Hr).
  { destruct (_ =? _) eqn:Ef in E1.
    - apply drop_state in E1 as (D1 & D2 & D3). rewrite Es in D1. change (TCPS_HAVERCVDSYN TCPS_SYN_SENT) with false in D1. split; [|split; [exact D1|]].
      + eapply (arc_stay s v); auto; [congruence|rewrite D2; auto].
      + intros Hr. exfalso. apply Z.eqb_eq in Ef. unfold thf, has_flag in Hr. apply negb_false_iff, Z.eqb_eq in Hr.
        assert (Z.land (Z.land (v_thflags v) (Z.lor TH_ACK TH_RST)) TH_RST = TH_RST) as K by (rewrite Ef; reflexivity).
        rewrite <- Z.land_assoc in K. change (Z.land (Z.lor TH_ACK TH_RST) TH_RST) with TH_RST in K. rewrite Hr in K. discriminate.
    - injection E1 as <-. auto. }
  destruct (thf TH_RST v || negb (thf TH_SYN v)) eqn:Ers; [split; [exact H1|discriminate]|].
  apply orb_false_iff in Ers as [Er Esy]. apply negb_false_iff in Esy. specialize (Hr Er). subst s1. cbv zeta.
  pose proof (O3 _ Esy) as Psyn.
  match goal with |- context [syn_acked e ?s v] => set (s2 := s) end.
  assert (state s2 = TCPS_SYN_SENT /\ ic_reass s2 = ic_reass s /\ steady s s2) as (A1 & A2 & A3).
  { split; [exact Es|]. split; [reflexivity|]. apply steady_wire; reflexivity. }
  clearbody s2.
  set (pr := if thf TH_ACK v then syn_acked e s2 v else _).
  assert (arc_inv (fst pr) (snd pr) /\ thf TH_ACK (snd pr) = thf TH_ACK v) as [B1 B2].
  { unfold pr. destruct (thf TH_ACK v) eqn:Ea.
    - destruct (syn_acked_frame s2 v) as (s3 & -> & C2 & C3).
      destruct (establish_state s3) as (G1 & G2 & G3). cbn [fst snd].
      assert (forall f, thf f (if iflag TF_NEEDFIN s3 then clear_thf TH_SYN v else v) = true -> thf f v = true) as Hf
        by (intros f; destruct (iflag _ _); [apply thf_clear|auto]).
      split.
      + eapply (arc_move s v); [exact Hi| |intros K; rewrite K in G1; destruct G1; discriminate| | | |exact Hf].
        * rewrite Es. apply arc_open; [exact Psyn| |exact G1]. apply andb_false_iff in Eb as [Eb|Eb]; [discriminate|].
          apply orb_false_iff in Eb as [L1 L2]. unfold v_ack in L1, L2. rewrite O2 in L1, L2. destruct Fr as (F1 & F2 & F3). rewrite F1 in L1. rewrite F3 in L2.
          split; [exact (O3 _ Ea)|]. split; [apply not_SEQ_LEQ, L1|apply not_SEQ_GT, L2].
        * intros K. apply G2 in K. rewrite C2, A2 in K. exact K.
        * eapply steady_trans; [exact A3|]. eapply steady_trans; eauto.
        * destruct (iflag _ _); reflexivity.
      + destruct (iflag _ _); [rewrite thf_clear_other by reflexivity|]; exact Ea.
    - cbn [fst snd]. split; [|exact Ea]. set (s3 := start_timer _ _ _ _).
      assert (core s3 = core s2) as E3 by (unfold s3; rewrite core_timer; reflexivity). pose proof (steady_core _ _ E3) as K3. clearbody s3.
      unfold core in E3. injection E3 as _ _ _ _ E3 _ _ _ _ _ _. split.
      + split; [eapply rtc_r; [exact O1|]; rewrite Es; apply arc_simultaneous, Psyn|exact O2|exact O3| |].
        * intros K. change (fin_queued (ic_reass s3)) in K. rewrite E3, A2 in K. auto.
        * eapply steady_trans; [exact O5|]. eapply steady_trans; [exact A3|]. destruct K3; split; assumption.
      + intros _ K. rewrite Ea in K. discriminate. }
  clearbody pr. destruct pr as [s3 v3]. cbn [fst snd] in *.
  match goal with |- context [s3 <| snd_wl1 := u32 (v_seq ?v - 1) |>] => set (v4 := v) end.
  assert (v_pkt v4 = v_pkt v3 /\ thf TH_ACK v4 = thf TH_ACK v3 /\ forall f, thf f v4 = true -> thf f v3 = true) as (V1 & V2 & V3).
  { unfold v4. destruct (_ <? _); [|auto]. split; [reflexivity|]. split; [rewrite thf_clear_other by reflexivity; reflexivity|]. intros f Hf%thf_clear. exact Hf. }
  clearbody v4. assert (forall s5, state s5 = state s3 -> ic_reass s5 = ic_reass s3 -> steady s3 s5 -> arc_inv s5 v4) as Hfin.
  { intros s5 X1 X2 X3. eapply (arc_stay s3 v3); auto. rewrite X2. auto. }
  destruct (thf TH_ACK v4) eqn:E4; (split; [apply Hfin; [reflexivity|reflexivity|apply steady_wire; reflexivity]|auto; discriminate]).
Qed.

(** After a stage up to the ACK: the segments that are answered with a reset need
    not have passed the check, and the ACK stage is only entered with an ACK. *)
Definition arc_post (l : option label) (s : icb) (v : vars) : Prop :=
  on_arc s v /\ match l with Some (dropwithreset _) => True | Some process_ACK => thf TH_ACK v = true /\ checked s v | _ => checked s v end.

Definition no_jump (f : flow) : Prop := match f with Goto process_ACK _ _ => False | _ => True end.

Lemma arc_post_inv f : no_jump f -> ends f (fun _ => arc_inv) (fun _ => False) -> ends f arc_post (fun _ => False).
Proof. destruct f as [|[]| |]; cbn; unfold arc_post, arc_inv; tauto. Qed.

Lemma arc_check_state s v : on_arc s v -> fresh s -> ends (check_state e s v) arc_post (fun _ => False).
Proof.
  intros H Fr. unfold check_state. destruct (_ && _) eqn:Eb; [split; [exact H|exact I]|].
  destruct (Z.eqb_spec (state s) TCPS_SYN_SENT) as [Es|Es].
  { eapply ends_mono; [| |apply arc_syn_sent; eauto]; [|auto]. intros l s' v' [[K1 K2] K3]. split; [exact K1|].
    destruct l as [[]|]; auto. }
  split; [exact H|]. intros E Ea. rewrite E, Ea in Eb. cbn [Z.eqb TCPS_SYN_RECEIVED Pos.eqb andb] in Eb. apply orb_false_iff in Eb as [L1 L2].
  destruct H as [_ O2 O3 _ _]. destruct Fr as (_ & F2 & F3). unfold v_ack in *. rewrite O2 in *. rewrite F2 in L1. rewrite F3 in L2.
  split; [exact (O3 _ Ea)|]. split; [apply not_SEQ_LEQ, L1|apply not_SEQ_GT, L2].
Qed.

Lemma arc_check_gone s v : arc_inv s v -> ends (check_gone s v) (fun _ => arc_inv) (fun _ => False).
Proof.
  intros H. unfold check_gone. destruct (_ && _); [|exact H]. apply ends_lift. intros s1 (E1 & E2 & E3)%close_state.
  eapply (arc_stay s v); auto. rewrite E2. auto.
Qed.

Lemma arc_check_syn s v : arc_inv s v -> ends (check_syn e s v) (fun _ => arc_inv) (fun _ => False).
Proof.
  intros H. unfold check_syn. destruct (thf TH_SYN v) eqn:Es; [|exact H]. apply ends_lift. intros s1 (E1 & E2 & E3)%drop_state.
  destruct (TCPS_HAVERCVDSYN (state s)) eqn:Er.
  - eapply (arc_move s v); auto; [rewrite E1; apply arc_bad_syn|rewrite E1; discriminate|rewrite E2; auto].
    + apply (oa_flags _ _ (proj1 H)), Es.
    + unfold TCPS_HAVERCVDSYN in Er. zbool. exact Er.
  - eapply (arc_stay s v); auto. rewrite E2. auto.
Qed.

(** The front stages, up to the ACK. *)
Lemma arc_front s v : on_arc s v -> fresh s ->
  ends (front_stage e s v) (fun l s' v' => match l with
    | Some check_delack => on_arc s' v'
    | None => arc_inv s' v' /\ thf TH_ACK v' = true
    | l => arc_post l s' v' end) (fun _ => False).
Proof.
  intros H Fr. unfold front_stage.
  assert (forall f k, ends f (fun l s' v' => match l with Some check_delack => on_arc s' v' | l => arc_post l s' v' end) (fun _ => False) ->
    (forall s v, arc_inv s v -> ends (k s v) (fun _ => arc_inv) (fun _ => False) /\ no_jump (k s v)) ->
    ends (f >>> k) (fun l s' v' => match l with Some check_delack => on_arc s' v' | l => arc_post l s' v' end) (fun _ => False)) as Hk.
  { intros f k Hf K. apply ends_andthen. eapply ends_mono; [| |exact Hf]; [|auto]. intros [l|] s1 v1; [auto|]. intros K1.
    destruct (K s1 v1 K1) as [K2 K3]. eapply ends_mono; [| |apply arc_post_inv; eauto]; [|auto].
    intros [[]|] s2 v2 K4; auto. apply K4. }
  apply ends_andthen. eapply ends_mono; [| |apply Hk; [apply Hk; [apply Hk; [apply Hk; [apply Hk; [apply Hk; [apply Hk; [apply Hk|]|]|]|]|]|]|]]; [|auto|..].
  - intros [l|] s1 v1 K1; [exact K1|]. unfold check_ack. destruct (thf TH_ACK v1) eqn:Ea; [split; [exact K1|exact Ea]|].
    cbn [negb]. destruct (_ || _); [exact K1|]. cbn [ends]. destruct (iflag _ _); exact K1.
  - (* up to check_state *)
    apply ends_andthen, ends_andthen. eapply ends_mono; [| |apply front_prediction; eauto]; [|auto].
    intros [l|] s1 v1; [intros [-> [K _]]; exact K|]. intros [K1 K2]. cbn [ends set_rcv_wnd].
    eapply ends_mono; [| |apply arc_check_state]; [intros [[]|] s2 v2 K; try exact K; apply K|auto| |].
    + destruct K1. split; auto. eapply steady_trans; [eassumption|]. apply steady_wire; reflexivity.
    + exact K2.
  - intros s1 v1 K. split; [apply arc_check_rst, K|]. unfold check_rst, reset_by. cases; destruct (tcp_close _); exact I.
  - intros s1 v1 K. split; [eapply arc_plain; [exact K|apply plain_check_paws]|]. unfold check_paws. cases; exact I.
  - intros s1 v1 K. split; [eapply arc_plain; [exact K|apply plain_check_irs]|]. unfold check_irs. destruct (_ && _); exact I.
  - intros s1 v1 K. split; [eapply arc_plain; [exact K|apply plain_trim_front]|]. unfold trim_front. cases; exact I.
  - intros s1 v1 K. split; [apply arc_check_gone, K|]. unfold check_gone. destruct (_ && _); [destruct (tcp_close _)|]; exact I.
  - intros s1 v1 K. split; [eapply arc_plain; [exact K|apply plain_trim_back]|]. unfold trim_back. cases; exact I.
  - intros s1 v1 K. split; [eapply arc_plain; [exact K|apply plain_check_timestamp]|exact I].
  - intros s1 v1 K. split; [apply arc_check_syn, K|]. unfold check_syn. destruct (thf _ _); [destruct (tcp_drop _ _ _)|]; exact I.
Qed.

(** The ACK. *)
Lemma arc_syn_received s v : arc_inv s v -> thf TH_ACK v = true ->
  ends (syn_received e s v) (fun _ s' v' => arc_inv s' v' /\ v' = v) (fun _ => False).
Proof.
  intros H Ha. unfold syn_received. destruct (Z.eqb_spec (state s) TCPS_SYN_RECEIVED) as [Es|Es].
  2: { destruct (_ && _); (split; [exact H|reflexivity]). }
  destruct (connected_frame s) as (C0 & C1 & C2). set (s1 := soisconnected s) in *. clearbody s1. cbv zeta.
  set (s2 := if both_scale s1 then _ else _). assert (ic_reass s2 = ic_reass s1 /\ steady s1 s2) as [D1 D2]
    by (unfold s2; destruct (both_scale s1); (split; [|apply steady_wire]; reflexivity)). clearbody s2.
  destruct (establish_state s2) as (G1 & G2 & G3). apply ends_lift. intros s3 E3.
  assert (state s3 = state (establish e s2) /\ (fin_queued (ic_reass s3) -> fin_queued (ic_reass (establish e s2))) /\ steady (establish e s2) s3) as (X1 & X2 & X3).
  { destruct (_ && _) in E3; [|injection E3 as <-; split; [reflexivity|split; [auto|apply steady_refl]]].
    destruct (call_reass _ _ _) as [[[s4 fl] n]|] eqn:E4; [|discriminate]. injection E3 as <-.
    apply call_reass_state in E4 as (Y1 & Y2 & Y3). split; [exact Y1|]. split; [|exact Y2]. intros K. destruct (Y3 (or_intror K)) as [?|[]]; assumption. }
  split; [|reflexivity]. eapply (arc_move s v); [exact H| | | | |reflexivity|auto].
  - rewrite Es. apply arc_accept; [apply (proj2 H); assumption|]. change (state s3 = TCPS_ESTABLISHED \/ state s3 = TCPS_FIN_WAIT_1). rewrite X1. exact G1.
  - change (state s3 <> TCPS_SYN_RECEIVED). rewrite X1. destruct G1 as [G|G]; rewrite G; discriminate.
  - intros K. apply X2, G2 in K. rewrite D1, C1 in K. exact K.
  - assert (steady s s3) as [] by (repeat (eapply steady_trans; [eassumption|]); apply steady_refl). split; assumption.
Qed.

Definition acked_inv (s : icb) (v : vars) : Prop := arc_inv s v /\ thf TH_ACK v = true.

Lemma arc_ack_stage s v : acked_inv s v -> ends (ack_stage e s v) (fun _ => acked_inv) (fun _ => False).
Proof.
  intros [H Ha]. unfold ack_stage.
  assert (forall s v f, acked_inv s v -> plainly s v f -> ends f (fun _ => acked_inv) (fun _ => False)) as Hp.
  { intros s1 v1 f [K1 K2] Hf. eapply ends_mono; [| |exact Hf]; [|auto]. intros l s' v' X. split; [eapply arc_inv_core; eauto|].
    destruct X as (_ & _ & X & _). congruence. }
  apply ends_andthen, ends_andthen. eapply ends_mono; [| |apply arc_syn_received; eauto]; [|auto].
  intros [l|] s1 v1 [K ->]; [split; [exact K|exact Ha]|]. eapply ends_mono; [| |eapply Hp; [split; [exact K|exact Ha]|apply plain_ack_range]]; [|auto].
  intros [l|] s2 v2 K2; [exact K2|]. eapply Hp; [exact K2|apply plain_check_dup].
Qed.

(** How TIME_WAIT is entered. *)
Definition to_time_wait (s : icb) : Prop :=
  rtc (arc s0 p) (state s0) (state s) /\ steady s0 s /\
  (state s = TCPS_CLOSING /\ has_flag (p_flags p) TH_ACK = true \/ state s = TCPS_FIN_WAIT_2 /\ fin_seen s0 p).

Lemma disconnected_frame s s' : soisdisconnected s = Some s' -> state s' = state s /\ ic_reass s' = ic_reass s /\ steady s s'.
Proof.
  unfold soisdisconnected. destruct (sbdrop_internal _ _) as [sb|]; [|discriminate]. intros [= <-].
  split; [|split; [|apply steady_wire]]; reflexivity.
Qed.

Lemma timer_frame t d s : state (start_timer e t d s) = state s /\ ic_reass (start_timer e t d s) = ic_reass s /\ steady s (start_timer e t d s).
Proof.
  pose proof (core_timer t d s) as H. split; [|split; [|apply steady_core, H]]; unfold core in H; congruence.
Qed.

Lemma arc_fin_stage s v : arc_inv s v -> has_flag (p_flags p) TH_ACK = true -> ends (fin_acked e s v) (fun _ => arc_inv) to_time_wait.
Proof.
  intros K3 Hack. unfold fin_acked. destruct (Z.eqb_spec (state s) TCPS_FIN_WAIT_1) as [Es|Es].
  - apply ends_lift. intros s4 E4. assert (ic_reass s4 = ic_reass s /\ steady s s4) as [A1 A2].
    { destruct (cant_receive s); [|injection E4 as <-; split; [reflexivity|apply steady_refl]].
      destruct (soisdisconnected s) as [s5|] eqn:E5; [|discriminate]. apply disconnected_frame in E5 as (_ & D1 & D2).
      cbn [mbind option_bind] in E4. match type of E4 with Some (start_timer e ?t ?d ?s) = _ => destruct (timer_frame t d s) as (_ & T1 & T2); set (s6 := start_timer e t d s) in *; clearbody s6 end.
      injection E4 as <-. split; [congruence|eapply steady_trans; eauto]. }
    eapply (arc_move s v); [exact K3| |discriminate| | |reflexivity|auto].
    + rewrite Es. apply arc_fin_acked, Hack.
    + change (fin_queued (ic_reass s4) -> fin_queued (ic_reass s)). rewrite A1. auto.
    + destruct A2; split; assumption.
  - destruct (Z.eqb_spec (state s) TCPS_CLOSING) as [Ec|Ec].
    + destruct K3 as [[O1 _ _ _ O5] _]. split; [exact O1|]. split; [exact O5|]. left. auto.
    + destruct (_ =? _); [|exact K3]. apply ends_lift. intros s4 (D1 & D2 & D3)%close_state. eapply (arc_stay s v); auto. rewrite D2. auto.
Qed.

Lemma arc_process_ack s v : acked_inv s v -> ends (do_process_ack e s v) (fun _ => arc_inv) to_time_wait.
Proof.
  intros [H Ha]. pose proof (oa_flags _ _ (proj1 H) _ Ha) as Hack. unfold do_process_ack. generalize (s32 (BYTES_THIS_ACK (cb s) (v_ack v))). intros n. cbv zeta.
  pose proof (core_update_rtt v (undo_rexmt e v s)) as H0. rewrite core_undo_rexmt in H0. revert H0. generalize (update_rtt e v (undo_rexmt e v s)).
  intros s' H0. generalize (v_ack v =? s_max (ic_o s')). intros all. pose proof (core_restart_rexmt all s') as H1. rewrite H0 in H1. revert H1.
  generalize (restart_rexmt e all s'). intros s1 H1. clear s' H0.
  assert (arc_inv s1 (if all then v <| v_needoutput := true |> else v)) as K1
    by (apply (arc_inv_core _ _ _ _ H); destruct all; (split; [exact H1|repeat split; auto])).
  revert K1. generalize (if all then v <| v_needoutput := true |> else v). intros v1 K1.
  destruct (n =? 0); [exact K1|]. pose proof (core_note_ack CC_ACK v1 s1) as H2. revert H2. generalize (note_ack e CC_ACK v1 s1). intros s2 H2.
  destruct (free_acked n s2) as [[s3 b]|] eqn:E; [|exact I]. apply core_free_acked in E.
  pose proof (core_advance_una v1 s3) as H3. revert H3. generalize (advance_una v1 s3). intros s4 H3.
  assert (arc_inv s4 v1) as K4 by (apply (arc_inv_core _ _ _ _ K1), plain_core; congruence).
  destruct b; [apply arc_fin_stage; assumption|exact K4].
Qed.

Lemma arc_urgent s v : arc_inv s v -> ends (do_urgent e s v) (fun _ => arc_inv) to_time_wait.
Proof.
  intros H. unfold do_urgent. destruct (_ && _).
  2: { apply (arc_inv_core _ _ _ _ H), plain_core. destruct (SEQ_GT _ _); reflexivity. }
  destruct (_ <? _). { apply (arc_inv_core _ _ _ _ H), plain_clear; [reflexivity|]. apply plain_core. reflexivity. }
  assert (state (mark_urgent s v) = state s /\ ic_reass (mark_urgent s v) = ic_reass s /\ steady s (mark_urgent s v)) as (A1 & A2 & A3).
  { unfold mark_urgent. destruct (SEQ_GT _ _); [|split; [|split; [|apply steady_refl]]; reflexivity]. cbv zeta.
    match goal with |- context [if ?b then _ else _] => destruct b end; (split; [|split; [|apply steady_wire]]; reflexivity). }
  cbv zeta. revert A1 A2 A3. generalize (mark_urgent s v). intros s1 A1 A2 A3.
  assert (arc_inv s1 v) as H1 by (eapply (arc_stay s v); auto; rewrite A2; auto).
  destruct (_ && _); [|exact H1]. unfold tcp_pulloutofband. destruct (_ !! _) as [c|]; [|exact I].
  eapply (arc_stay s1 v); auto. split; auto.
Qed.

Lemma arc_data s v : arc_inv s v ->
  ends (do_data e s v) (fun _ s' v' => arc_inv s' v' \/ on_arc s' (v' <| v_thflags := 0 |>) /\ (thf TH_FIN v' = true -> fin_seen s0 p)) to_time_wait.
Proof.
  intros H. unfold do_data. destruct (_ && _).
  2: { left. apply (arc_inv_core _ _ _ _ H), plain_clear; [reflexivity|]. apply plain_refl. }
  cbv zeta. set (v0 := v <| v_data := _ |>). assert (arc_inv s v0) as H0 by (destruct H as [[] ?]; split; [split|]; assumption). clearbody v0. clear H. destruct H0 as [[O1 O2 O3 O4 O5] _].
  assert (forall r, (forall s1 v1, r = Some (s1, v1) -> state s1 = state s /\ v_pkt v1 = p /\ steady s s1 /\
      (thf TH_FIN v1 = true -> fin_seen s0 p) /\ (fin_queued (ic_reass s1) -> fin_seen s0 p)) ->
    ends match r with
         | None => Panic
         | Some (s1, v1) => Next (if (0 <? v_tlen v1) && iflag TF_SACK_PERMIT s1
                                  then on_o (on_sack (fun k => tcp_update_sack_list k (v_seq v) (u32 (v_seq v + v_tlen v1)))) s1 else s1) v1
         end (fun _ s' v' => arc_inv s' v' \/ on_arc s' (v' <| v_thflags := 0 |>) /\ (thf TH_FIN v' = true -> fin_seen s0 p)) to_time_wait) as Hr.
  { intros [[s1 v1]|]; [|intros _; exact I]. intros X. destruct (X s1 v1 eq_refl) as (X1 & X2 & X3 & X4 & X5). right.
    split; [|exact X4]. match goal with |- on_arc ?s _ => set (s2 := s) end.
    assert (state s2 = state s1 /\ ic_reass s2 = ic_reass s1 /\ steady s1 s2) as (Y1 & Y2 & Y3)
      by (unfold s2; destruct (_ && _); (split; [|split; [|apply steady_wire]]; reflexivity)). clearbody s2.
    split; [rewrite Y1, X1; exact O1|exact X2|intros f Hf; discriminate|rewrite Y2; exact X5|].
    eapply steady_trans; [exact O5|]. eapply steady_trans; eauto. }
  destruct (_ && _); apply Hr; clear Hr; intros s1 v1.
  - unfold in_order_data. set (s2 := put_rnxt _ _). assert (state s2 = state s /\ ic_reass s2 = ic_reass s /\ steady s s2) as (A1 & A2 & A3)
      by (split; [|split; [|apply steady_wire]]; reflexivity). clearbody s2. cbv zeta.
    assert (forall r, (forall s3, r = Some s3 -> state s3 = state s2 /\ ic_reass s3 = ic_reass s2 /\ steady s2 s3) ->
      (s3 ← r; Some (s3, v0 <| v_thflags := Z.land (p_flags (v_pkt v0)) TH_FIN |>)) = Some (s1, v1) ->
      state s1 = state s /\ v_pkt v1 = p /\ steady s s1 /\ (thf TH_FIN v1 = true -> fin_seen s0 p) /\ (fin_queued (ic_reass s1) -> fin_seen s0 p)) as Hs.
    { intros [s3|] X; [|discriminate]. destruct (X s3 eq_refl) as (X1 & X2 & X3). intros [= <- <-]. split; [congruence|]. split; [exact O2|].
      split; [eapply steady_trans; eauto|]. split; [|rewrite X2, A2; exact O4]. intros Hf. left. rewrite <- O2. eapply has_flag_land, Hf. }
    apply Hs. intros s3. destruct (cant_receive s2); [intros [= <-]; split; [|split; [|apply steady_refl]]; reflexivity|]. apply append_state.
  - unfold queue_data. destruct (call_reass _ _ _) as [[[s2 fl] n]|] eqn:E; [|discriminate]. apply call_reass_state in E as (E1 & E2 & E3).
    intros [= <- <-]. assert (forall P : Prop, (P -> has_flag fl TH_FIN = true \/ fin_queued (ic_reass s2)) -> P -> fin_seen s0 p) as Hq.
    { intros P X Y. destruct (E3 (X Y)) as [K|K]; [exact (O4 K)|]. left. cbn [fin_seg TcpReass.Reass.s_flags] in K. rewrite <- O2. exact K. }
    split; [exact E1|]. split; [exact O2|]. split; [destruct E2; split; assumption|]. split; eapply Hq; auto.
Qed.

(** The rest of the segment; only where the connection may be matters now. *)
Definition ended (s : icb) : Prop := rtc (arc s0 p) (state s0) (state s) /\ steady s0 s.

Lemma arc_fin s v : on_arc s (v <| v_thflags := 0 |>) -> (thf TH_FIN v = true -> fin_seen s0 p) ->
  ends (do_fin e s v) (fun _ s' _ => ended s') to_time_wait.
Proof.
  intros [O1 _ _ _ O5] Hf. unfold do_fin. destruct (thf TH_FIN v); [|split; assumption]. specialize (Hf eq_refl). cbv zeta.
  set (s1 := if negb _ then _ else _). assert (state s1 = state s /\ steady s s1) as [A1 A2]
    by (unfold s1; destruct (negb _); (split; [|apply steady_wire]; reflexivity)). clearbody s1.
  assert (steady s0 s1) as A3 by (eapply steady_trans; eauto).
  assert (forall s2, arc s0 p (state s1) (state s2) -> steady s1 s2 -> ended s2) as Hm.
  { intros s2 X1 X2. split; [eapply rtc_r; [exact O1|]; rewrite <- A1; exact X1|eapply steady_trans; eauto]. }
  destruct (Z.eqb_spec (state s1) TCPS_SYN_RECEIVED) as [Es|Es].
  { apply Hm; [rewrite Es; apply (arc_close s0 p); auto|apply steady_wire; reflexivity]. }
  destruct (Z.eqb_spec (state s1) TCPS_ESTABLISHED) as [Et|Et].
  { apply Hm; [rewrite Et; apply (arc_close s0 p); auto|apply steady_wire; reflexivity]. }
  destruct (Z.eqb_spec (state s1) TCPS_FIN_WAIT_1) as [Ef|Ef].
  { apply Hm; [rewrite Ef; apply arc_fin_both; auto|apply steady_wire; reflexivity]. }
  destruct (Z.eqb_spec (state s1) TCPS_FIN_WAIT_2) as [Ew|Ew].
  - split; [rewrite A1; exact O1|]. split; [exact A3|]. right. auto.
  - split; [rewrite A1; exact O1|exact A3].
Qed.

Lemma on_arc_ended s v : on_arc s v -> ended s.
Proof. intros [O1 _ _ _ O5]. split; assumption. Qed.

Lemma ended_core s s' : ended s -> core s' = core s -> ended s'.
Proof.
  intros [H1 H2] E. pose proof (steady_core _ _ E). unfold core in E. injection E as E _ _ _ _ _ _ _ _ _ _.
  split; [rewrite E; exact H1|eapply steady_trans; eauto].
Qed.

Lemma ended_plain s v f : ended s -> plainly s v f -> ends f (fun _ s' _ => ended s') to_time_wait.
Proof. intros H. apply ends_mono; [|intros ? []]. intros l s' v' [E _]. eapply ended_core; eauto. Qed.

Lemma arc_step6 s v : arc_inv s v -> ends (step6_stage e s v) (fun _ s' _ => ended s') to_time_wait.
Proof.
  intros H. unfold step6_stage. pose proof (plain_update_window s v) as Hp. destruct (update_window s v) as [s1 v1]. cbn [fst snd] in Hp.
  apply (arc_inv_core _ _ _ _ H) in Hp. apply ends_andthen, ends_andthen, ends_andthen.
  eapply ends_mono; [| |apply arc_urgent; exact Hp]; [|auto]. intros [l|] s2 v2 H2; [eapply on_arc_ended, H2|].
  eapply ends_mono; [| |apply arc_data; exact H2]; [|auto]. intros [l|] s3 v3 H3.
  { destruct H3 as [[H3 _]|[H3 _]]; eapply on_arc_ended, H3. }
  assert (on_arc s3 (v3 <| v_thflags := 0 |>) /\ (thf TH_FIN v3 = true -> fin_seen s0 p)) as [K1 K2].
  { destruct H3 as [[[] _]|H3]; [|exact H3]. split; [split; auto; intros; discriminate|]. intros Hf. left. auto. }
  eapply ends_mono; [| |apply arc_fin; eauto]; [|auto]. intros [l|] s4 v4 H4; [exact H4|].
  eapply ended_plain; [exact H4|apply plain_do_output].
Qed.

(** What holds where the flow reaches a label. *)
Definition before_ack (l : option label) (s : icb) (v : vars) : Prop :=
  match l with None | Some process_ACK => acked_inv s v | Some step6 => arc_inv s v | _ => ended s end.
Definition before_step6 (l : option label) (s : icb) (v : vars) : Prop :=
  match l with None | Some step6 => arc_inv s v | _ => ended s end.

Lemma arc_inv_ended s v : arc_inv s v -> ended s.
Proof. intros [H _]. eapply on_arc_ended, H. Qed.

Lemma arc_until_ack s v : on_arc s v -> fresh s -> ends (front_stage e s v >>> ack_stage e) before_ack to_time_wait.
Proof.
  intros H Fr. apply ends_andthen. eapply ends_mono; [| |apply arc_front; [exact H|exact Fr]]; [|intros ? []]. intros [l|] s1 v1 K.
  - destruct l; [destruct K as [K _]|destruct K as [K _]|destruct K as [K _]| |destruct K as (X1 & X2 & X3); split; [split; assumption|exact X2]|exact K];
      exact (on_arc_ended _ _ K).
  - eapply ends_mono; [| |apply arc_ack_stage; exact K]; [|intros ? []]. intros l s2 v2 K2. pose proof (arc_inv_ended _ _ (proj1 K2)) as K3.
    destruct l as [[]|]; [exact K3|exact K3|exact K3|exact K3|exact K2|exact (proj1 K2)|exact K2].
Qed.

Lemma arc_until_step6 f : ends f before_ack to_time_wait -> ends (at_label process_ACK f (do_process_ack e)) before_step6 to_time_wait.
Proof.
  intros H1. apply ends_at. eapply ends_mono; [| |exact H1]; [|auto]. intros l s1 v1 K.
  assert (acked_inv s1 v1 -> ends (do_process_ack e s1 v1) before_step6 to_time_wait) as Hp.
  { intros X. eapply ends_mono; [| |apply arc_process_ack; exact X]; [|auto]. intros l' s2 v2 K2. pose proof (arc_inv_ended _ _ K2) as K3.
    destruct l' as [[]|]; [exact K3|exact K3|exact K3|exact K3|exact K3|exact K2|exact K2]. }
  destruct l as [[]|]; [exact K|exact K|exact K|exact K|exact (Hp K)|exact K|exact (Hp K)].
Qed.

Lemma arc_until_delack f : ends f before_step6 to_time_wait -> ends (at_label step6 f (step6_stage e)) (fun _ s' _ => ended s') to_time_wait.
Proof.
  intros H2. apply ends_at. eapply ends_mono; [| |exact H2]; [|auto]. intros l s1 v1 K. pose proof (arc_step6 s1 v1) as Hp.
  destruct l as [[]|]; [exact K|exact K|exact K|exact K|exact K|exact (Hp K)|exact (Hp K)].
Qed.

Lemma arc_until_end f : ends f (fun _ s' _ => ended s') to_time_wait -> ends (at_label check_delack f (delack e)) (fun _ s' _ => ended s') to_time_wait.
Proof.
  intros H3. apply ends_at. eapply ends_mono; [| |exact H3]; [|auto]. intros l s1 v1 K.
  pose proof (ended_plain s1 v1 _ K (plain_delack s1 v1)) as Hp.
  destruct l as [[]|]; [exact K|exact K|exact K|exact Hp|exact K|exact K|exact Hp].
Qed.

Lemma arc_flow s v : on_arc s v -> fresh s -> ends (segment_flow e s v) (fun _ s' _ => ended s') to_time_wait.
Proof. intros H Fr. apply arc_until_end, arc_until_delack, arc_until_step6, arc_until_ack; assumption. Qed.

Lemma respond_ended tp m ack sq fl s : ended s -> (tp = false -> inp_passive (ic_o s) = false) -> ended (tcp_respond e tp m ack sq fl s).
Proof.
  intros [H1 H2] Ht. unfold tcp_respond. destruct (tp && inp_passive (ic_o s)) eqn:Ep; [split; assumption|].
  assert (inp_passive (ic_o s) = false) as Hn by (destruct tp; [exact Ep|auto]).
  assert (inp_passive (ic_o s0) = false) as H0 by (rewrite <- (kp_passive _ _ H2); exact Hn).
  cbv zeta. set (g := if m then _ else get_mbuf _).
  assert (t_state (o_tp (fst g)) = state s /\ inp_passive (fst g) = inp_passive (ic_o s)) as [G1 G2]
    by (unfold g; destruct m; [split; reflexivity|]; unfold get_mbuf; cases; split; reflexivity).
  destruct g as [o ok]. cbn [fst] in *. destruct H2 as [K1 K2 K3].
  assert (forall s', state s' = state s -> inp_passive (ic_o s') = inp_passive (ic_o s) -> so_options s' = so_options s -> ended s') as Hd.
  { intros s' X1 X2 X3. split; [rewrite X1; exact H1|]. split; [congruence|intros X; congruence|congruence]. }
  destruct (negb ok); apply Hd; try exact G1; try exact G2; reflexivity.
Qed.

Lemma reset_ended reason s v :
  ended s -> (inp_passive (ic_o s) = true -> has_flag (so_options s) SO_PASSIVE = true) ->
  exists s', reset_label e reason s v = Done s' /\ ended s'.
Proof.
  intros H Hp. unfold reset_label, tcp_dropwithreset.
  assert (forall tp, (tp = false -> inp_passive (ic_o s) = false) ->
    exists s', Done (if tp && inp_passive (ic_o s) then s else if has_flag (p_flags (v_pkt v)) TH_RST || p_bcast (v_pkt v) then s
      else if badport_bandlim e reason <? 0 then s
      else if has_flag (p_flags (v_pkt v)) TH_ACK then tcp_respond e tp true 0 (p_ack (v_pkt v)) TH_RST s
      else tcp_respond e tp true (v_seq v + (if has_flag (p_flags (v_pkt v)) TH_SYN then v_tlen v + 1 else v_tlen v)) 0 (Z.lor TH_RST TH_ACK) s) = Done s' /\ ended s') as Hr.
  { intros tp Ht. eexists. split; [reflexivity|]. repeat match goal with |- context [if ?b then _ else _] => destruct b eqn:? end; try exact H; apply respond_ended; assumption. }
  destruct (ic_freed s); cbn [negb]; [|apply Hr; discriminate].
  destruct (has_flag (so_options s) SO_PASSIVE); [eauto|]. apply Hr. intros _. destruct (inp_passive _); [|reflexivity]. discriminate (Hp eq_refl).
Qed.

Lemma segment_ended : (inp_passive (ic_o s0) = true -> has_flag (so_options s0) SO_PASSIVE = true) ->
  match tcp_do_segment e p s0 with Done s' => ended s' | InTimeWait s' => to_time_wait s' | Input.Panicked => True end.
Proof.
  intros Hp. unfold tcp_do_segment. destruct (begin_segment e p s0) as [[s v]|] eqn:Eb; [|exact I].
  apply begin_arc in Eb as (H & Fr & _). pose proof (arc_flow s v H Fr) as Hf.
  destruct (segment_flow e s v) as [s1 v1|l s1 v1|s1|]; cbn [ends finish] in *; [exact Hf| |exact Hf|exact I].
  assert (inp_passive (ic_o s1) = true -> has_flag (so_options s1) SO_PASSIVE = true) as Hp1.
  { destruct Hf as [_ [K1 _ K3]]. rewrite K1, K3. exact Hp. }
  destruct l; try exact Hf.
  - unfold dropafterack_label. destruct (_ && _); [destruct (reset_ended BANDLIM_RST_OPENPORT s1 v1 Hf Hp1) as (s' & -> & K); exact K|].
    destruct (run_output e _) as [s2|] eqn:E; [|exact I]. apply core_run_output in E as [E _]. eapply ended_core; [exact Hf|].
    rewrite E. reflexivity.
  - destruct (reset_ended rstreason s1 v1 Hf Hp1) as (s' & -> & K). exact K.
Qed.
End Arcs.


(** C5: a passive connection never sends: whatever segment arrives, nothing is
    handed to [ip_output], and the connection stays passive. *)
Theorem tcp_do_segment_passive_silent s p :
  inp_passive (ic_o s) = true -> has_flag (so_options s) SO_PASSIVE = true ->
  match tcp_do_segment e p s with
  | Done s' | InTimeWait s' => wire (ic_o s') = wire (ic_o s) /\ inp_passive (ic_o s') = true
  | Input.Panicked => True
  end.
Proof.
  intros Hp Ho. pose proof (segment_ended s p (fun _ => Ho)) as H.
  destruct (tcp_do_segment e p s) as [s'|s'|]; [destruct H as [_ [K1 K2 _]]|destruct H as (_ & [K1 K2 _] & _)|exact I];
    (split; [apply K2, Hp|congruence]).
Qed.

(** *** Resets *)

(** Parsing the header of a segment on a connection that has passed SYN_SENT
    changes the control block only. *)
Lemma ecn_hook p s : exists tp', process_ecn e p s = on_cb (fun _ => tp') s /\ hook_rx tp' = hook_rx (cb s).
Proof.
  unfold process_ecn. destruct (iflag _ _); [|exists (cb s); split; [destruct s as [[]]|]; reflexivity].
  set (s1 := if Z.land _ _ =? _ then _ else _).
  assert (exists tp1, s1 = on_cb (fun _ => tp1) s /\ hook_rx tp1 = hook_rx (cb s)) as (tp1 & E1 & H1).
  { exists (cb s1). unfold s1. destruct (has_flag _ TH_CWR), (_ =? _); (split; [destruct s as [[]]|]; reflexivity). }
  cbv zeta. clearbody s1. subst s1. destruct (has_flag _ TH_ECE); [|eauto].
  eexists. split; [reflexivity|]. change (cb (on_cb (fun _ => tp1) s)) with tp1. cbv beta.
  unfold cc_cong_signal. cbn [Z.eqb CC_ECN CC_NDUPACK Pos.eqb]. set (tp := if negb _ then _ else _).
  assert (hook_rx tp = hook_rx tp1) as K by (unfold tp, ecn_cwr; destruct (negb _); [destruct (has_flag _ _)|]; reflexivity). clearbody tp.
  rewrite <- H1, <- K. destruct (cong_signal _) as [f|] eqn:Ef; [|reflexivity]. rewrite (cf_cong_signal f _ _ Ef). reflexivity.
Qed.

Lemma begin_synced p s : state s <> TCPS_SYN_SENT ->
  exists tp' to, begin_segment e p s =
      Some (on_cb (fun _ => tp') s,
            mk_vars p (p_seq p) (p_urp p) (p_flags p) (p_data p) 0 (Z.of_nat (length (p_data p)))
              (Z.shiftl (p_win p) (snd_scale (cb s))) to false) /\
    t_sack tp' = (t_sack (cb s)) <| last_sack_ack := 0 |> /\ t_state tp' = state s /\ inp_dropped tp' = inp_dropped (cb s).
Proof.
  intros Hs. unfold begin_segment.
  match goal with |- context [process_ecn e p ?s] => set (s1 := s) end.
  assert (exists tp1, s1 = on_cb (fun _ => tp1) s /\ hook_rx tp1 = ((t_sack (cb s)) <| last_sack_ack := 0 |>, state s, inp_dropped (cb s)) /\
    snd_scale tp1 = snd_scale (cb s)) as (tp1 & E1 & H1 & H2).
  { exists (cb s1). unfold s1. destruct (TCPS_HAVEESTABLISHED _); [unfold start_timer, activate, tcp_timer_activate, on_timer; destruct (_ =? 0)|];
      (split; [destruct s as [[]]; reflexivity|split; reflexivity]). }
  clearbody s1. subst s1. destruct (ecn_hook p (on_cb (fun _ => tp1) s)) as (tp2 & -> & H3).
  change (cb (on_cb (fun _ => tp1) s)) with tp1 in *. rewrite H1 in H3. injection H3 as K1 K2 K3.
  destruct (TcpOptions.Options.dooptions_loop_total (tcp_do_sack e) (if has_flag (p_flags p) TH_SYN then TO_SYN else 0) (S (length (p_opt p))) (p_opt p)
    ((stack_to e) <| to_flags := 0 |>) ltac:(lia)) as [to Et].
  unfold tcp_dooptions. rewrite Et. cbn [mbind option_bind].
  match goal with |- context [if (?a =? TCPS_SYN_SENT) && _ then _ else _] => change a with (t_state tp2) end.
  rewrite K2. destruct (Z.eqb_spec (state s) TCPS_SYN_SENT); [congruence|]. cbn [andb]. rewrite H2.
  eexists tp2, _. split; [reflexivity|]. auto.
Qed.

(** The window of sequence numbers the connection is ready to receive. *)
Definition receivable (s : icb) : Z :=
  Z.max (Z.max 0 (sbspace (so_rcv (ic_o s)))) (s32 (rcv_adv (ic_o s) - irnxt s)).

(** A reset is valid for its sequence number. *)
Definition reset_valid (s : icb) (p : packet) : Prop :=
  let d := off (last_ack_sent (ic_o s)) (p_seq p) in
  -1 <= d <= receivable s /\ (tcp_insecure_rst e = true \/ -1 <= d <= 1 \/ -1 <= off (irnxt s) (p_seq p) <= 1).

Lemma near_seq_off a b : near_seq a b = true <-> -1 <= off b a <= 1.
Proof.
  unfold near_seq, SEQ_GEQ, SEQ_LEQ, off. rewrite andb_true_iff, Z.leb_le, Z.leb_le. wrap.
Qed.

Lemma rst_window_off a b w : 0 <= w < 2 ^ 30 ->
  SEQ_GEQ a (b - 1) && SEQ_LEQ a (b + w) = true <-> -1 <= off b a <= w.
Proof. intros Hw. unfold SEQ_GEQ, SEQ_LEQ, off. rewrite andb_true_iff, Z.leb_le, Z.leb_le. wrap. Qed.

Lemma predicted_no_rst s v : thf TH_RST v = true -> predicted e s v = false.
Proof.
  intros H. unfold predicted. destruct (Z.land (v_thflags v) _ =? TH_ACK) eqn:E; [|rewrite andb_false_r; reflexivity].
  exfalso. apply Z.eqb_eq in E. unfold thf, has_flag in H. apply negb_true_iff, Z.eqb_neq in H. apply H.
  change TH_RST with (Z.land (Z.lor TH_SYN (Z.lor TH_FIN (Z.lor TH_RST (Z.lor TH_URG TH_ACK)))) TH_RST).
  rewrite Z.land_assoc, E. reflexivity.
Qed.

(** A jump to [drop_it] in front of the timestamp check is the end. *)
Lemma drop_early s v s' v' :
  header_prediction e s v >>> set_rcv_wnd >>> check_state e >>> check_rst e = Goto drop_it s' v' ->
  finish e (segment_flow e s v) = Done s'.
Proof. intros H. unfold segment_flow, front_stage. rewrite H. reflexivity. Qed.

Lemma close_spec s : sb_ok (so_snd (ic_o s)) ->
  exists s', tcp_close s = Some s' /\ state s' = state s /\ so_error s' = so_error s /\ inp_dropped (cb s') = true /\
    wire (ic_o s') = wire (ic_o s) /\ contents (sb_mb (so_snd (ic_o s'))) = [].
Proof.
  intros Hok. unfold tcp_close, soisdisconnected.
  match goal with |- context [sbdrop_internal _ ?sb] => set (sb1 := sb) end.
  assert (sb_ok sb1) as Hok1. { destruct Hok as [O1 O2 [] O4 O5 O6 O7 O8]. split; try assumption. split; assumption. }
  assert (sb_cc sb1 = sb_cc (so_snd (ic_o s)) /\ contents (sb_mb sb1) = contents (sb_mb (so_snd (ic_o s)))) as [E1 E2] by (split; reflexivity).
  pose proof (sb_cc_total _ Hok1) as Et. pose proof (length_contents (sb_mb sb1) (so_wf _ Hok1)) as El. pose proof (so_total _ Hok1).
  match goal with |- context [s32 ?x] => change x with (sb_cc sb1) end.
  assert (0 <= sb_cc sb1) as H0 by (rewrite Et; apply total_nonneg; apply Hok1). clearbody sb1.
  rewrite s32_small by lia. destruct (sbdrop_spec sb1 (sb_cc sb1) Hok1 ltac:(lia)) as (sb2 & -> & _ & C2 & _).
  cbn [mbind option_bind]. eexists. split; [reflexivity|]. destruct (inp_sockref _); (do 4 (split; [reflexivity|]));
    (etransitivity; [exact C2|]); apply drop_ge; lia.
Qed.

(** A reset of an established connection comes as far as the check of the RST flag. *)
Lemma begin_rst p s : state s = TCPS_ESTABLISHED -> has_flag (p_flags p) TH_RST = true ->
  exists s1 s2 v, begin_segment e p s = Some (s1, v) /\ thf TH_RST v = true /\ v_seq v = p_seq p /\
    header_prediction e s1 v >>> set_rcv_wnd >>> check_state e = Next s2 v /\ core s2 = core s /\
    (rcv_wnd s2 = receivable s /\ last_ack_sent (ic_o s2) = last_ack_sent (ic_o s)) /\
    (so_snd (ic_o s2) = so_snd (ic_o s) /\ wire (ic_o s2) = wire (ic_o s) /\ s_una (ic_o s2) = s_una (ic_o s)).
Proof.
  intros Hs Hr. destruct (begin_synced p s ltac:(rewrite Hs; discriminate)) as (tp' & to & -> & K1 & K2 & K3).
  set (v := mk_vars _ _ _ _ _ _ _ _ _ _). assert (thf TH_RST v = true) as Hv by exact Hr.
  set (s1 := on_cb (fun _ => tp') s).
  assert (core s1 = core s) as C1 by (apply core_on_cb; unfold rx_tp; rewrite K1, K2, K3; reflexivity).
  assert (state s1 = TCPS_ESTABLISHED /\ irnxt s1 = irnxt s /\ last_ack_sent (ic_o s1) = last_ack_sent (ic_o s) /\
    so_snd (ic_o s1) = so_snd (ic_o s) /\ wire (ic_o s1) = wire (ic_o s) /\ so_rcv (ic_o s1) = so_rcv (ic_o s) /\ rcv_adv (ic_o s1) = rcv_adv (ic_o s) /\
    s_una (ic_o s1) = s_una (ic_o s)) as (S1 & S2 & S3 & S4 & S5 & S6 & S7 & S8).
  { unfold s1, irnxt, rnxt, s_una, una, state, cb, on_cb, on_o, on_tp. cbn [update ic_o o_tp last_ack_sent so_snd wire so_rcv rcv_adv].
    rewrite K1, K2, Hs. repeat split. }
  clearbody s1. assert (v_seq v = p_seq p) as Ev by reflexivity. clearbody v.
  assert (exists s2, header_prediction e s1 v >>> set_rcv_wnd >>> check_state e = Next s2 v /\ core s2 = core s1 /\ rcv_wnd s2 = receivable s /\
    last_ack_sent (ic_o s2) = last_ack_sent (ic_o s) /\ so_snd (ic_o s2) = so_snd (ic_o s) /\ wire (ic_o s2) = wire (ic_o s) /\ s_una (ic_o s2) = s_una (ic_o s))
    as (s2 & E2 & D1 & D2 & D3 & D4 & D5 & D6).
  { unfold header_prediction. rewrite (predicted_no_rst _ _ Hv). cbn [andthen set_rcv_wnd]. set (s2 := (on_o _ _) <| rfbuf_cnt := 0 |>).
    exists s2. split; [|split; [reflexivity|split; [|split; [exact S3|split; [exact S4|split; [exact S5|exact S8]]]]]].
    - unfold check_state. change (state s2) with (state s1). rewrite S1. reflexivity.
    - cbn [s2 update rcv_wnd on_o]. rewrite S2, S6, S7. unfold receivable. f_equal. destruct (Z.ltb_spec (sbspace (so_rcv (ic_o s))) 0); lia. }
  exists s1, s2, v. split; [reflexivity|]. split; [exact Hv|]. split; [exact Ev|]. split; [exact E2|]. split; [congruence|]. auto.
Qed.

End Frames.

(** ** A connection *)

Definition sample_chain (id : Z) (bs : list Z) : list mbuf := match bs with [] => [] | _ => [data_mbuf id bs 0] end.

Definition sample_ienv : ienv :=
  mk_ienv OutputStream.sample_oenv (TcpReass.Reass.ex_env 5000) true 10 false true true true 16384 262144 6000
    (mk_metrics 0 0 0) (fun r => r + 1) (mk_tcpopt 0 0 0 [] [] 0 0 0) sample_chain.

(** State [st], 80 bytes to send from 5000 on, the byte 7000 expected next and
    [wnd] bytes of room. *)
Definition sample_icb (st wnd : Z) : icb :=
  let o := (OutputStream.sample_ocb 0 20000) <| rcv_adv := 7000 + wnd |> <| last_ack_sent := 7000 |>
             <| so_rcv := empty_sb <| sb_hiwat := wnd |> <| sb_mbmax := 8 * wnd |> |> in
  let o := on_sack (fun k => k <| rcv_nxt := 7000 |>) o in
  let o := on_tp (fun tp => tp <| t_state := st |>) o in
  mk_icb o (TcpReass.Reass.ex_tp 4 false []) 7000 5000 0 7000 6999 0 0 0 0 0 0 0 0 SS_ISCONNECTED 0 0 None false false 100.

Definition pkt (seq ack flags : Z) (data : list Z) : packet := mk_packet seq ack flags 20000 0 [] data 0 false.

Definition watched (s : icb) : icb := (on_o (fun o => o <| inp_passive := true |>) s) <| so_options := SO_PASSIVE |>.

#[export] Instance sample_frame : CcFrame (algo (oe sample_ienv)) := newreno_frame _.


Lemma tcp_do_segment_passive_silent_witness :
  exists s', tcp_do_segment sample_ienv (pkt 7000 5000 (Z.lor TH_ACK TH_FIN) [1; 2]) (watched (sample_icb TCPS_ESTABLISHED 20000)) = Done s' /\
    wire (ic_o s') = [] /\ inp_passive (ic_o s') = true.
Proof.
  pose proof (tcp_do_segment_passive_silent sample_ienv (watched (sample_icb TCPS_ESTABLISHED 20000))
    (pkt 7000 5000 (Z.lor TH_ACK TH_FIN) [1; 2]) eq_refl eq_refl) as H.
  destruct (tcp_do_segment _ _ _) as [s'| |] eqn:E; [|exfalso; vm_compute in E; discriminate|exfalso; vm_compute in E; discriminate].
  exists s'. split; [reflexivity|]. exact H.
Defined.

End InputFrame.
