(* ===== verification/TcpInputRecv.v ===== *)
(** * TCP segment processing: the receiver

    What [tcp_do_segment] does to the receiving side of a synchronised
    connection.  The peer sends a stream [S]; [R] bytes of it are in order at
    the receiver.  Whatever segments of [S] arrive, in whatever order, the
    receive buffer grows by the next bytes of [S] and [rcv_nxt] moves with it. *)

From S2P Require Import Prelude TcpSeq Callout SockBuf TcpReass TcpOptions TcpSack TcpCC TcpTimer TcpOutput TcpOutputStream TcpInput TcpInputFrame.

Module InputRecv.

Import (hints) TcpReass.Reass.
Import SockBuf.Sockbuf TcpSack.Sack TcpCC.CC TcpTimer.Timer TcpOutput.Output TcpInput.Input TcpInputFrame.InputFrame.

(** ** Mbufs for received bytes *)

(** What is relied on of the driver: the bytes of a segment come in data mbufs
    of their own, none larger than a cluster for each byte it holds. *)
Class MbufLayout (chain : Z -> list Z -> list mbuf) : Prop :=
  layout : forall id bs, Z.of_nat (length bs) < 2 ^ 31 ->
    Forall wf_mbuf (chain id bs) /\ Forall (fun m => m_hole m = false) (chain id bs) /\
    contents (chain id bs) = Some <$> bs /\ ids (chain id bs) = seqZ id (Z.of_nat (length (chain id bs))) /\
    msum footprint (chain id bs) <= 2304 * Z.of_nat (length bs).

#[export] Instance sample_layout : MbufLayout sample_chain.
Proof.
  intros id [|b bs] H; [cbn; repeat split; try constructor; lia|]. cbn [sample_chain].
  assert (wf_mbuf (data_mbuf id (b :: bs) 0)) as Hw by (split; [cbn [m_len data_mbuf]; lia|split; [cbn [m_hole data_mbuf m_len m_buf]; rewrite length_app; lia|exact I]]).
  split; [auto|]. split; [auto|]. split; [|split; [reflexivity|]].
  - unfold contents. cbn [map concat]. rewrite app_nil_r. unfold cells. cbn [data_mbuf m_hole m_len m_buf].
    rewrite take_app_le by lia. rewrite take_ge by lia. reflexivity.
  - change (MSIZE + 0 + 0 <= 2304 * Z.of_nat (S (length bs))). unfold MSIZE. lia.
Qed.

Section Receive.
Context (e : ienv) {F : CcFrame (algo (oe e))} {L : MbufLayout (chain_of e)}.

(** The receive buffer takes [n] more bytes. *)
Record room (n : Z) (s : icb) : Prop := {
  rm_ok : sb_ok (so_rcv (ic_o s));
  rm_last : match last (sb_mb (so_rcv (ic_o s))) with Some x => m_hole x = false | None => True end;
  rm_ids : Forall (fun i => i < ic_mbuf s) (ids (sb_mb (so_rcv (ic_o s))));
  rm_total : total (sb_mb (so_rcv (ic_o s))) + n < 2 ^ 31;
  rm_foot : msum footprint (sb_mb (so_rcv (ic_o s))) + 2304 * n < 2 ^ 32 }.

Lemma append_data_spec n bs s : room n s -> Z.of_nat (length bs) <= n ->
  exists sb k, let s' := (on_rcv (fun _ => sb) s) <| ic_mbuf := k |> in
    append_data e bs s = Some s' /\ room (n - Z.of_nat (length bs)) s' /\
    contents (sb_mb sb) = contents (sb_mb (so_rcv (ic_o s))) ++ (Some <$> bs) /\ sb_frame (so_rcv (ic_o s)) sb.
Proof.
  intros [R1 R2 R3 R4 R5] Hn. unfold append_data, append_mbufs. set (ms := chain_of e (ic_mbuf s) bs).
  assert (0 <= total (sb_mb (so_rcv (ic_o s)))) as H0 by (apply total_nonneg, R1).
  destruct (layout (ic_mbuf s) bs ltac:(lia)) as (Hw & Hd & Hb & Hi & Hf). fold ms in Hw, Hd, Hb, Hi, Hf.
  assert (total ms = Z.of_nat (length bs)) as Ht by (pose proof (length_contents _ Hw) as X; rewrite Hb, length_fmap in X; lia).
  destruct (sbappendstream_spec ms (so_rcv (ic_o s)) R1) as (sb & E & K1 & K2 & K3 & K4).
  { split; [exact Hw|]. split; [exact Hd|]. split; [|split; [lia|split; [lia|exact R2]]].
    apply NoDup_app. split; [apply R1|]. rewrite Hi. split; [|apply NoDup_seqZ]. intros x Hx Hy%elem_of_seqZ.
    rewrite Forall_forall in R3. specialize (R3 _ Hx). lia. }
  pose proof (sbappendstream_grown _ _ _ Hw (so_wf _ R1) E) as [G1 G2].
  exists sb, (ic_mbuf s + Z.of_nat (length ms)). rewrite E. cbv zeta. split; [reflexivity|].
  assert (contents (sb_mb sb) = contents (sb_mb (so_rcv (ic_o s))) ++ (Some <$> bs)) as Hc by (rewrite K2, Hb; reflexivity).
  split; [|split; [exact Hc|exact K3]]. split; cbn [update ic_o so_rcv on_rcv on_o ic_mbuf]; [exact K1|exact K4| | |lia].
  - apply Forall_forall. intros i [Hx|Hx]%G1; [rewrite Forall_forall in R3; specialize (R3 _ Hx); lia|].
    rewrite Hi, elem_of_seqZ in Hx. lia.
  - pose proof (length_contents _ (so_wf _ K1)) as X1. pose proof (length_contents _ (so_wf _ R1)) as X2.
    rewrite Hc, length_app, length_fmap in X1. lia.
Qed.
Lemma append_all_spec ms : forall n s, Forall TcpReass.Reass.is_data ms -> room n s ->
  Z.of_nat (length (TcpReass.Reass.stream_bytes ms)) <= n ->
  exists sb k, let s' := (on_rcv (fun _ => sb) s) <| ic_mbuf := k |> in
    append_all e ms s = Some s' /\ room (n - Z.of_nat (length (TcpReass.Reass.stream_bytes ms))) s' /\
    contents (sb_mb sb) = contents (sb_mb (so_rcv (ic_o s))) ++ (Some <$> TcpReass.Reass.stream_bytes ms) /\
    sb_frame (so_rcv (ic_o s)) sb.
Proof.
  induction ms as [|m ms IH]; intros n s Hd Hr Hn; cbn [append_all].
  - exists (so_rcv (ic_o s)), (ic_mbuf s). cbv zeta. change (TcpReass.Reass.stream_bytes []) with (@nil Z) in *. cbn [length fmap list_fmap Z.of_nat].
    rewrite app_nil_r, Z.sub_0_r. split; [destruct s as [[]]; reflexivity|]. split; [destruct Hr; split; assumption|]. split; [reflexivity|].
    repeat split.
  - apply Forall_cons in Hd as [Hm Hd]. destruct m as [bs|]; [|destruct Hm]. cbn [append_rmbuf].
    change (TcpReass.Reass.stream_bytes (TcpReass.Reass.M_DATA bs :: ms)) with (bs ++ TcpReass.Reass.stream_bytes ms) in *.
    rewrite length_app in *. destruct (append_data_spec n bs s Hr ltac:(lia)) as (sb1 & k1 & E1 & Hr1 & C1 & F1). cbv zeta in *. rewrite E1. cbn [mbind option_bind].
    destruct (IH _ _ Hd Hr1 ltac:(lia)) as (sb2 & k2 & E2 & Hr2 & C2 & F2). cbv zeta in *. rewrite E2.
    exists sb2, k2. split; [reflexivity|]. split; [|split].
    + replace (n - _) with (n - Z.of_nat (length bs) - Z.of_nat (length (TcpReass.Reass.stream_bytes ms))) by lia. exact Hr2.
    + rewrite C2. cbn [on_rcv on_o update ic_o so_rcv]. rewrite C1, fmap_app, app_assoc. reflexivity.
    + eapply sb_frame_trans; [exact F1|exact F2].
Qed.

(** ** The sending side *)

(** What the sending side depends on, the windows and the SACK report aside. *)
Definition sender_view (o : ocb) :=
  let tp := o_tp o in
  let k := t_sack tp in
  ((so_snd o, ip_results o, inp_options o, t_maxopd o),
   (snd_una k, snd_nxt k, snd_max k, snd_fack k, snd_holes k, snd_numholes k, nexthole k, sack_bytes_rexmit k,
    (tcp_sack_globalholes k, sack_hole_zone k)),
   (t_state tp, snd_cwnd tp, snd_ssthresh tp, t_maxseg tp, snd_scale tp),
   (flag TF_SENTFIN o, flag TF_NEEDSYN o, flag TF_FORCEDATA o, flag TF_FASTRECOVERY o)).

Definition report_fits (s : icb) : Prop := (rcv_numsacks (t_sack (cb s)) <= length (sackblks (t_sack (cb s))))%nat.

(** The sending side and the user are as they were. *)
Record sender_kept (s s' : icb) : Prop := {
  sk_view : sender_view (ic_o s') = sender_view (ic_o s);
  sk_wnd : snd_wnd (cb s') = snd_wnd (cb s);
  sk_fits : report_fits s -> report_fits s';
  sk_user : so_state s' = so_state s }.

Lemma sender_kept_refl s : sender_kept s s.
Proof. split; auto. Qed.
Lemma sender_kept_trans s1 s2 s3 : sender_kept s1 s2 -> sender_kept s2 s3 -> sender_kept s1 s3.
Proof. intros [] []. split; [congruence|congruence|auto|congruence]. Qed.

Lemma append_mbufs_sender ms s s' : append_mbufs ms s = Some s' -> sender_kept s s'.
Proof. unfold append_mbufs. destruct (sbappendstream_locked _ _); [|discriminate]. intros [= <-]. split; auto. Qed.

Lemma append_all_sender ms : forall s s', append_all e ms s = Some s' -> sender_kept s s'.
Proof.
  induction ms as [|m ms IH]; intros s s'; cbn [append_all]; [intros [= <-]; apply sender_kept_refl|].
  destruct (append_rmbuf e s m) as [s1|] eqn:E; [|discriminate]. cbn [mbind option_bind]. intros H%IH.
  eapply sender_kept_trans; [|exact H]. destruct m; exact (append_mbufs_sender _ _ _ E).
Qed.

(** The flags that the sending side looks at, after others are set or cleared. *)
Lemma view_raise f s : Z.land f (Z.lor TF_SENTFIN (Z.lor TF_NEEDSYN (Z.lor TF_FORCEDATA TF_FASTRECOVERY))) = 0 ->
  sender_view (ic_o (raise f s)) = sender_view (ic_o s) /\ sender_view (ic_o (lower f s)) = sender_view (ic_o s).
Proof.
  intros H. assert (Z.land f TF_SENTFIN = 0 /\ Z.land f TF_NEEDSYN = 0 /\ Z.land f TF_FORCEDATA = 0 /\ Z.land f TF_FASTRECOVERY = 0) as (H1 & H2 & H3 & H4).
  { rewrite !Z.land_lor_distr_r in H. apply Z.lor_eq_0_iff in H as [A1 H]. apply Z.lor_eq_0_iff in H as [A2 H]. apply Z.lor_eq_0_iff in H as [A3 A4]. auto. }
  split; unfold sender_view, flag, raise, lower, on_cb, on_o, on_tp; cbn [update ic_o o_tp set_flag clear_flag t_flags];
    [rewrite !flag_set_other by assumption|rewrite !flag_cleared_other by assumption]; reflexivity.
Qed.

(** ** The stream *)

Section Stream.
Context (S : Z -> Z) (R W : Z) (s0 : icb) (p : packet).

Definition open_state (st : Z) : Prop := st = TCPS_ESTABLISHED \/ st = TCPS_FIN_WAIT_1 \/ st = TCPS_FIN_WAIT_2.

(** A receiver that has [R] bytes of [S] in order, and others of the next [W] in
    its queue; the window it offers is within [W], and its buffer takes them. *)
Record receiver : Prop := {
  rv_state : open_state (state s0);
  rv_active : inp_passive (ic_o s0) = false;
  rv_open : cant_receive s0 = false;
  rv_wf : TcpReass.Reass.reass_wf S R (reass_in s0);
  rv_queue : forall x, TcpReass.Reass.covered (irnxt s0) (TcpReass.Reass.t_segq (ic_reass s0)) x -> x < W;
  rv_wnd : receivable s0 <= W;
  rv_max : W < 2 ^ 30;
  rv_room : room W s0 }.

(** A segment of [S]: text, and maybe a FIN. *)
Record carries : Prop := {
  ca_seq : 0 <= p_seq p < 2 ^ 32;
  ca_near : - 2 ^ 30 < off (irnxt s0) (p_seq p) < 2 ^ 30;
  ca_len : Z.of_nat (length (p_data p)) < 2 ^ 16;
  ca_data : p_data p = slice S (R + off (irnxt s0) (p_seq p)) (Z.of_nat (length (p_data p)));
  ca_text : has_flag (p_flags p) TH_SYN = false /\ has_flag (p_flags p) TH_RST = false /\ has_flag (p_flags p) TH_URG = false }.

(** [d] more bytes, and the FIN if [fin] is 1, have been taken in order. *)
Record got (d fin : Z) (s : icb) : Prop := {
  gt_len : 0 <= d <= W;
  gt_nxt : irnxt s = u32 (irnxt s0 + d + fin);
  gt_bytes : contents (sb_mb (so_rcv (ic_o s))) = contents (sb_mb (so_rcv (ic_o s0))) ++ (Some <$> slice S R d);
  gt_ok : sb_ok (so_rcv (ic_o s));
  gt_fin : fin = 0 /\ TcpReass.Reass.reass_wf S (R + d) (reass_in s) \/
           fin = 1 /\ fin_seen s0 p /\ cant_receive s = true }.

(** At least [n] bytes have been. *)
Definition gained (n : Z) (s : icb) : Prop := exists d fin, got d fin s /\ n <= d.
Definition received : icb -> Prop := gained 0.
Context (Hrv : receiver) (Hca : carries).

(** Nothing taken yet. *)
Definition intact (s : icb) : Prop :=
  (irnxt s, so_rcv (ic_o s), ic_reass s, ic_mbuf s, inp_passive (ic_o s)) =
  (irnxt s0, so_rcv (ic_o s0), ic_reass s0, ic_mbuf s0, inp_passive (ic_o s0)) /\ open_state (state s).

Lemma intact_core s s' : intact s -> core s' = core s -> intact s'.
Proof. unfold core. intros [H1 H2] [= E1 E2 E3 E4 E5 _ _ _ E6 _ _]. split; [congruence|rewrite E1; exact H2]. Qed.

Lemma open_established st : open_state st -> TCPS_HAVEESTABLISHED st = true.
Proof. intros [->|[->| ->]]; reflexivity. Qed.

(** [reass_wf] depends on the queue, the edge and the state being synchronised. *)
Lemma reass_wf_in Q s s' : TcpReass.Reass.reass_wf S Q (reass_in s) -> ic_reass s' = ic_reass s -> irnxt s' = irnxt s ->
  TCPS_HAVEESTABLISHED (state s) = true -> TcpReass.Reass.reass_wf S Q (reass_in s').
Proof.
  intros (H1 & H2 & H3 & H4) E1 E2 Hs. unfold reass_in in *. rewrite E1, E2. split; [exact H1|]. split; [exact H2|]. split; [exact H3|].
  intros _. exact (H4 Hs).
Qed.

(** At least [n] bytes taken, and the connection still open. *)
Definition took (n : Z) (s : icb) : Prop :=
  exists d, got d 0 s /\ open_state (state s) /\ inp_passive (ic_o s) = false /\ cant_receive s = false /\ n <= d.

Lemma took_gained n s : took n s -> gained n s.
Proof. intros (d & H & _ & _ & _ & Hn). exists d, 0. auto. Qed.

Lemma took_some n s : took n s -> took 0 s.
Proof. intros (d & H & Hs & Hp & Ho & Hn). exists d. pose proof (gt_len _ _ _ H). repeat (split; [assumption|]). lia. Qed.
Lemma took_received n s : took n s -> received s.
Proof. intros H. apply took_gained. eapply took_some, H. Qed.

Lemma intact_open s : intact s -> cant_receive s = false.
Proof. intros [[= E1 E2 E3 E4 E5] Hs]. unfold cant_receive. rewrite E2. exact (rv_open Hrv). Qed.

Lemma intact_took s : intact s -> took 0 s.
Proof.
  intros Hi. pose proof Hi as [[= E1 E2 E3 E4 E5] Hs]. pose proof Hrv as [V1 V2 V3 V4 V5 V6 V7 V8]. exists 0.
  split; [|split; [exact Hs|split; [congruence|split; [exact (intact_open _ Hi)|lia]]]]. split.
  - unfold receivable in V6. lia.
  - rewrite E1, !Z.add_0_r. destruct V4 as (K & _). rewrite u32_small; [reflexivity|exact K].
  - rewrite E2, slice_nil by lia. cbn. rewrite app_nil_r. reflexivity.
  - rewrite E2. apply V8.
  - left. split; [reflexivity|]. rewrite Z.add_0_r. apply (reass_wf_in R s0); auto. apply open_established, V1.
Qed.

Lemma intact_received s : intact s -> received s.
Proof. intros H. eapply took_received, intact_took, H. Qed.

(** What is received stays when the socket is closed or a reset is sent. *)
Lemma gained_kept n s s' : gained n s -> irnxt s' = irnxt s -> ic_reass s' = ic_reass s -> state s' = state s ->
  sb_mb (so_rcv (ic_o s')) = sb_mb (so_rcv (ic_o s)) -> sb_ok (so_rcv (ic_o s')) -> (cant_receive s = true -> cant_receive s' = true) -> gained n s'.
Proof.
  intros (d & fin & [G1 G2 G3 G4 G5] & Hn) E1 E2 E3 E4 E5 E6. exists d, fin. split; [|exact Hn]. split; [exact G1|congruence|rewrite E4; exact G3|exact E5|].
  destruct G5 as [[-> G5]|(-> & G5 & G6)]; [left|right; auto]. split; [reflexivity|].
  destruct G5 as (K1 & K2 & K3 & K4). unfold reass_in in *. rewrite E1, E2, E3. split; [exact K1|]. split; [exact K2|]. split; [exact K3|exact K4].
Qed.

Lemma gained_core n s s' : gained n s -> core s' = core s -> gained n s'.
Proof.
  intros H E. unfold core in E. injection E as E1 E2 E3 E4 E5 _ _ _ E6 _ _. pose proof H as (d & fin & [_ _ _ G _] & _).
  eapply gained_kept; [exact H|exact E2|exact E5|exact E1|rewrite E3; reflexivity|rewrite E3; exact G|unfold cant_receive; rewrite E3; auto].
Qed.

(** *** Taking data *)

Lemma cant_receive_frame s sb k : sb_frame (so_rcv (ic_o s)) sb -> cant_receive ((on_rcv (fun _ => sb) s) <| ic_mbuf := k |>) = cant_receive s.
Proof. intros (_ & _ & _ & _ & H). unfold cant_receive. cbn [on_rcv on_o update ic_o so_rcv]. rewrite H. reflexivity. Qed.

Lemma intact_room s : intact s -> room W s.
Proof.
  intros [[= E1 E2 E3 E4 E5] Hs]. destruct (rv_room Hrv) as [K1 K2 K3 K4 K5]. split; rewrite ?E2, ?E4; assumption.
Qed.

(** Text appended to the buffer with the queue empty. *)
Lemma append_took s n bs :
  room W s -> contents (sb_mb (so_rcv (ic_o s))) = contents (sb_mb (so_rcv (ic_o s0))) -> irnxt s = u32 (irnxt s0 + n) ->
  0 <= n <= W -> bs = slice S R n -> TcpReass.Reass.t_segq (ic_reass s) = [] -> TcpReass.Reass.t_segqlen (ic_reass s) = 0 ->
  open_state (state s) -> inp_passive (ic_o s) = false -> cant_receive s = false ->
  exists s', append_data e bs s = Some s' /\ took n s'.
Proof.
  intros Hr Hc Hn Hw Hb Q1 Q2 Hs Hp Ho. assert (Z.of_nat (length bs) = n) as Hl by (rewrite Hb; apply length_slice; lia).
  destruct (append_data_spec W bs s Hr ltac:(lia)) as (sb & k & E & Hr' & C & Fr). cbv zeta in *. rewrite E. eexists. split; [reflexivity|].
  exists n. split; [|split; [exact Hs|split; [exact Hp|split; [rewrite cant_receive_frame by exact Fr; exact Ho|lia]]]]. split.
  - exact Hw.
  - rewrite Z.add_0_r. exact Hn.
  - cbn [on_rcv on_o update ic_o so_rcv]. rewrite C, Hc, Hb. reflexivity.
  - apply Hr'.
  - left. split; [reflexivity|]. unfold reass_in. cbn [on_rcv on_o update ic_o ic_reass].
    split; [change (0 <= irnxt s < 2 ^ 32); rewrite Hn; apply u32_range|]. unfold TcpReass.Reass.queue_ok.
    cbn [update TcpReass.Reass.t_segq TcpReass.Reass.t_segqlen TcpReass.Reass.rcv_nxt]. rewrite Q1, Q2. repeat split; constructor.
Qed.

(** Text that goes through the reassembly queue. *)
Lemma call_reass_took seg s :
  intact s -> TcpReass.Reass.seg_ok (irnxt s0) (fun x => S (R + x)) seg ->
  off (irnxt s0) (TcpReass.Reass.s_seq seg) + TcpReass.Reass.s_len seg <= W ->
  exists s' fl n, call_reass e (Some seg) s = Some (s', fl, n) /\
    took 0 s' /\ (TcpReass.Reass.s_seq seg = irnxt s0 -> took (TcpReass.Reass.s_len seg) s').
Proof.
  intros Hi Hseg Hend. pose proof Hi as [[= E1 E2 E3 E4 E5] Hs]. pose proof (open_established _ Hs) as He.
  assert (TcpReass.Reass.reass_wf S R (reass_in s)) as Hwf by (apply (reass_wf_in R s0); auto; [exact (rv_wf Hrv)|apply open_established, Hrv]).
  pose proof (TcpReass.Reass.tcp_reass_delivers (reass_env e) S R (reass_in s) seg Hwf) as H. cbv zeta in H.
  set (tp' := TcpReass.Reass.r_tp _) in *. set (d := TcpReass.Reass.advance _ _) in *.
  destruct H as (Hd & Hwf' & Ht & Ha & Hc & ch & C1 & C2 & C3).
  { unfold TcpReass.Reass.segment_ok. change (TcpReass.Reass.rcv_nxt (reass_in s)) with (irnxt s). rewrite E1. exact Hseg. }
  { exact He. } { exact (intact_open _ Hi). } { change (inp_passive (ic_o s) = false). rewrite E5. exact (rv_active Hrv). }
  change (TcpReass.Reass.sb_stream (TcpReass.Reass.so_rcv (reass_in s))) with (@nil TcpReass.Reass.rmbuf) in C1. cbn [app] in C1.
  assert (d <= W) as HdW.
  { destruct (Z.le_gt_cases d 0) as [X|X]; [pose proof (rv_wnd Hrv); unfold receivable in *; lia|].
    change (TcpReass.Reass.rcv_nxt (reass_in s)) with (irnxt s) in Hc. change (TcpReass.Reass.t_segq (reass_in s)) with (TcpReass.Reass.t_segq (ic_reass s)) in Hc.
    destruct (Hc (d - 1) ltac:(lia)) as [Y|Y]; [rewrite E1, E3 in Y; apply (rv_queue Hrv) in Y; lia|].
    unfold TcpReass.Reass.in_seg in Y. rewrite E1 in Y. lia. }
  assert (Z.of_nat (length (TcpReass.Reass.stream_bytes ch)) = d) as Hl by (rewrite C3; apply length_slice; lia).
  destruct (append_all_spec ch W s C2 (intact_room _ Hi) ltac:(lia)) as (sb & k & E & Hr & C & Fr). cbv zeta in *.
  unfold call_reass. cbv zeta. fold tp'. rewrite C1, E. cbn [mbind option_bind]. do 3 eexists. split; [reflexivity|].
  assert (u32 (TcpReass.Reass.rcv_nxt tp') = u32 (irnxt s0 + d)) as Hn.
  { destruct Hwf' as (X & _). rewrite <- E1. unfold d, TcpReass.Reass.advance, off. change (TcpReass.Reass.rcv_nxt (reass_in s)) with (irnxt s). clear -X. wrap. }
  set (s' := put_rnxt _ _). enough (got d 0 s') as G.
  { assert (forall m, m <= d -> took m s') as Htk.
    { intros m Hm. exists d. split; [exact G|]. split; [exact Hs|]. split; [change (inp_passive (ic_o s) = false); rewrite E5; exact (rv_active Hrv)|].
      split; [|exact Hm]. etransitivity; [|apply (intact_open _ Hi)]. apply (cant_receive_frame s sb k Fr). }
    split; [apply Htk; lia|]. intros X. apply Htk, Ha. rewrite X, <- E1. reflexivity. }
  split.
  - lia.
  - rewrite Z.add_0_r. exact Hn.
  - change (contents (sb_mb sb) = contents (sb_mb (so_rcv (ic_o s0))) ++ (Some <$> slice S R d)). rewrite C, E2, C3. reflexivity.
  - apply Hr.
  - left. split; [reflexivity|]. destruct Hwf' as (X1 & X2 & X3 & X4). rewrite Ht in X4. specialize (X4 He).
    assert (TcpReass.Reass.rcv_nxt tp' = u32 (TcpReass.Reass.rcv_nxt tp')) as Hu by (symmetry; apply u32_small, X1).
    unfold TcpReass.Reass.reass_wf, TcpReass.Reass.queue_ok in *. rewrite Hu in X2, X4. split; [apply u32_range|]. split; [exact X2|]. split; [exact X3|].
    intros _. exact X4.
Qed.

(** *** The segment on its way *)

(** [v] describes bytes of [S]; nothing has been taken. *)
Record tracks (s : icb) (v : vars) : Prop := {
  tk_intact : intact s;
  tk_pkt : v_pkt v = p;
  tk_flags : forall f, thf f v = true -> has_flag (p_flags p) f = true;
  tk_seq : 0 <= v_seq v < 2 ^ 32;
  tk_near : - 2 ^ 30 < off (irnxt s0) (v_seq v) /\ off (irnxt s0) (v_seq v) + v_tlen v < 2 ^ 30 + 2 ^ 16;
  tk_len : 0 <= v_tlen v < 2 ^ 16;
  tk_skip : 0 <= v_skip v;
  tk_data : drop (Z.to_nat (v_skip v)) (v_data v) = slice S (R + off (irnxt s0) (v_seq v)) (v_tlen v) }.

(** What is left of it lies in the window, or is nothing. *)
Definition ready (s : icb) (v : vars) : Prop :=
  tracks s v /\ (v_tlen v = 0 /\ thf TH_FIN v = false \/
                 0 <= off (irnxt s0) (v_seq v) /\ off (irnxt s0) (v_seq v) + v_tlen v <= W).

Definition at_stage (I : icb -> vars -> Prop) (l : option label) (s : icb) (v : vars) : Prop :=
  match l with None => I s v | Some step6 | Some process_ACK => ready s v | Some _ => received s end.

Lemma stage_seq I J f k :
  ends f (at_stage I) (fun _ => False) -> (forall s v, I s v -> ends (k s v) (at_stage J) (fun _ => False)) ->
  ends (f >>> k) (at_stage J) (fun _ => False).
Proof.
  intros H Hk. apply ends_andthen. eapply ends_mono; [| |exact H]; [|intros ? []]. intros [l|] s v K; [exact K|exact (Hk _ _ K)].
Qed.

Lemma tracks_text s v : tracks s v -> thf TH_SYN v = false /\ thf TH_RST v = false /\ thf TH_URG v = false.
Proof.
  intros H. destruct (ca_text Hca) as (A & B & C). pose proof (tk_flags _ _ H) as Hf.
  repeat split; match goal with |- thf ?f v = false => destruct (thf f v) eqn:E; [apply Hf in E; congruence|reflexivity] end.
Qed.

Definition body (v : vars) := (v_seq v, v_data v, v_skip v, v_tlen v).

Lemma tracks_plain s v s' v' : tracks s v -> plain s v s' v' -> body v' = body v -> tracks s' v'.
Proof.
  intros [T1 T2 T3 T4 T5 T6 T7 T8] (P1 & P2 & _ & P4) [= B1 B2 B3 B4].
  split; rewrite ?B1, ?B2, ?B3, ?B4; auto; [eapply intact_core; eauto|congruence].
Qed.

Lemma tracks_received s v : tracks s v -> received s.
Proof. intros H. apply intact_received, H. Qed.

(** *** Header prediction *)

Lemma room_limits s s' : room W s -> OutputStream.sb_limits (so_rcv (ic_o s)) (so_rcv (ic_o s')) -> ic_mbuf s' = ic_mbuf s -> room W s'.
Proof.
  intros [[O1 O2 [C1 C2 C3 C4 C5] O4 O5 O6 O7 O8] R2 R3 R4 R5] E Ei.
  assert (sb_mb (so_rcv (ic_o s')) = sb_mb (so_rcv (ic_o s))) as Em by (rewrite E; reflexivity).
  split; rewrite ?Em, ?Ei; try assumption. rewrite E. split; try assumption. split; assumption.
Qed.

Lemma resize_spec n s : let s' := resize_rcv e n s in
  irnxt s' = irnxt s /\ ic_reass s' = ic_reass s /\ state s' = state s /\ inp_passive (ic_o s') = inp_passive (ic_o s) /\
  ic_mbuf s' = ic_mbuf s /\ OutputStream.sb_limits (so_rcv (ic_o s)) (so_rcv (ic_o s')) /\ sender_kept s s'.
Proof.
  unfold resize_rcv. cbv zeta. destruct (n =? 0); [do 5 (split; [reflexivity|]); split; [apply OutputStream.sb_limits_refl|apply sender_kept_refl]|].
  pose proof (OutputStream.sbreserve_limits (sbe (oe e)) (ui_sbsize (ic_o s)) (u64 n) RLIM_INFINITY (so_rcv (ic_o s))) as H.
  destruct (sbreserve_locked _ _ _ _ _) as [[ui sb] ok]. cbn [fst snd] in H. do 5 (split; [reflexivity|]). split; [|split; auto].
  cbn [on_o update ic_o so_rcv]. destruct ok; [exact H|]. unfold OutputStream.sb_limits in *. rewrite H. destruct (so_rcv (ic_o s)); reflexivity.
Qed.

Lemma autorcvbuf_frame v s : let s' := fst (autorcvbuf e v s) in
  irnxt s' = irnxt s /\ so_rcv (ic_o s') = so_rcv (ic_o s) /\ ic_reass s' = ic_reass s /\ ic_mbuf s' = ic_mbuf s /\
  inp_passive (ic_o s') = inp_passive (ic_o s) /\ state s' = state s /\ sender_kept s s'.
Proof. unfold autorcvbuf. cbv zeta. destruct (_ && _); [destruct (_ && _)|]; repeat split; auto. Qed.

(** In-sequence text with the queue empty. *)
Lemma predict_data_took s v : tracks s v -> v_seq v = irnxt s0 -> TcpReass.Reass.t_segq (ic_reass s0) = [] -> v_tlen v <= W ->
  exists s', predict_data e s v = (if DELAY_ACK e s' then Goto check_delack (raise TF_DELACK s') v
                                   else lift (run_output e (raise TF_ACKNOW s')) (fun s => Goto check_delack s v)) /\
    took (v_tlen v) s' /\ sender_kept s s'.
Proof.
  intros Ht Hseq Hq Hw. pose proof Ht as [[[= E1 E2 E3 E4 E5] Hs] _ _ _ _ [L1 _] _ Hd]. unfold predict_data.
  match goal with |- context [autorcvbuf e v ?s] => set (s1 := s) end.
  assert (irnxt s1 = u32 (irnxt s0 + v_tlen v) /\ so_rcv (ic_o s1) = so_rcv (ic_o s0) /\ ic_reass s1 = ic_reass s0 /\ ic_mbuf s1 = ic_mbuf s0 /\
    inp_passive (ic_o s1) = inp_passive (ic_o s0) /\ open_state (state s1)) as (A1 & A2 & A3 & A4 & A5 & A6).
  { unfold s1. rewrite <- E1, <- E2, <- E3, <- E4, <- E5. match goal with |- context [if ?b then on_o _ s else s] => destruct b end; repeat split; exact Hs. }
  assert (sender_kept s s1) as S1.
  { unfold s1. match goal with |- context [if ?b then on_o _ s else s] => destruct b end; (split; [reflexivity|reflexivity| |reflexivity]); [intros _; apply Nat.le_0_l|auto]. }
  clearbody s1. pose proof (autorcvbuf_frame v s1) as (B1 & B2 & B3 & B4 & B5 & B6 & S2). destruct (autorcvbuf e v s1) as [s2 n]. cbn [fst] in *.
  assert (cant_receive s2 = false) as Ho by (unfold cant_receive; rewrite B2, A2; exact (rv_open Hrv)).
  rewrite Ho. destruct (resize_spec n s2) as (Z1 & Z2 & Z3 & Z4 & Z5 & Z6 & S3). set (s3 := resize_rcv e n s2) in *. clearbody s3.
  destruct (append_took s3 (v_tlen v) (drop (Z.to_nat (v_skip v)) (v_data v))) as (s4 & Ea & Hk).
  { apply (room_limits s2); [|exact Z6|exact Z5]. destruct (rv_room Hrv). split; rewrite ?B2, ?A2, ?B4, ?A4; assumption. }
  { rewrite Z6. cbn [update sb_mb]. rewrite B2, A2. reflexivity. }
  { congruence. } { lia. } { rewrite Hd, Hseq, off_refl, Z.add_0_r. reflexivity. } { congruence. }
  { rewrite Z2, B3, A3. destruct (rv_wf Hrv) as (_ & _ & X & _). cbn in X. rewrite Hq in X. exact X. }
  { rewrite Z3, B6. exact A6. } { rewrite Z4, B5, A5. exact (rv_active Hrv). }
  { unfold cant_receive in *. rewrite Z6. exact Ho. }
  exists s4. rewrite Ea. split; [reflexivity|]. split; [exact Hk|].
  eapply sender_kept_trans; [exact S1|]. eapply sender_kept_trans; [exact S2|]. eapply sender_kept_trans; [exact S3|]. exact (append_mbufs_sender _ _ _ Ea).
Qed.

Lemma predict_data_received s v : tracks s v -> v_seq v = irnxt s0 -> TcpReass.Reass.t_segq (ic_reass s0) = [] -> v_tlen v <= W ->
  ends (predict_data e s v) (fun _ s' _ => received s') (fun _ => False).
Proof.
  intros H1 H2 H3 H4. destruct (predict_data_took s v H1 H2 H3 H4) as (s4 & -> & Hk & _). apply took_received in Hk.
  destruct (DELAY_ACK e s4); [eapply gained_core; [exact Hk|reflexivity]|].
  apply ends_lift. intros s5 [E _]%(core_run_output e). eapply gained_core; [exact Hk|rewrite E; reflexivity].
Qed.

Definition offered (s : icb) (v : vars) : Prop := tracks s v /\ rcv_adv (ic_o s) = rcv_adv (ic_o s0).

Lemma predicted_next s v : predicted e s v = true -> v_seq v = irnxt s /\ TcpReass.Reass.t_segq (ic_reass s) = [].
Proof.
  unfold predicted. rewrite !andb_true_iff. intros ((((((((_ & H1) & _) & _) & _) & _) & _) & H2) & _).
  split; [apply Z.eqb_eq, H1|]. destruct (TcpReass.Reass.t_segq (ic_reass s)); [reflexivity|discriminate].
Qed.

Lemma predict_jumps s v : ends (predict_ack e s v) (fun l _ _ => l = Some check_delack) (fun _ => False) /\
  ends (predict_data e s v) (fun l _ _ => l = Some check_delack) (fun _ => False).
Proof.
  split; [unfold predict_ack; do 2 (apply ends_lift; intros ? _); reflexivity|]. unfold predict_data. destruct (autorcvbuf _ _ _) as [s1 n].
  apply ends_lift. intros s2 _. destruct (DELAY_ACK e s2); [reflexivity|apply ends_lift; intros; reflexivity].
Qed.

Lemma jumps_received f I : ends f (fun l _ _ => l = Some check_delack) (fun _ => False) -> ends f (fun _ s _ => received s) (fun _ => False) ->
  ends f (at_stage I) (fun _ => False).
Proof. intros H1 H2. eapply ends_mono; [| |exact (ends_both _ _ _ _ _ H1 H2)]; [|intros ? [[] _]]. intros l s v [-> H]. exact H. Qed.

Lemma recv_prediction s v : offered s v -> ends (header_prediction e s v) (at_stage offered) (fun _ => False).
Proof.
  intros [Ht Ha]. unfold header_prediction. destruct (predicted e s v) eqn:Ep; [|split; assumption]. apply predicted_next in Ep as [Es Eq].
  set (s1 := if _ && _ then _ else _). assert (core s1 = core s /\ rcv_adv (ic_o s1) = rcv_adv (ic_o s)) as [C1 C2] by (unfold s1; destruct (_ && _); split; reflexivity).
  clearbody s1. cbv zeta. assert (tracks s1 v) as Ht1 by (eapply tracks_plain; [exact Ht|apply plain_core, C1|reflexivity]).
  assert (offered s1 v) as Ho by (split; [exact Ht1|congruence]). destruct (predict_jumps s1 v) as [J1 J2]. destruct (_ =? 0).
  - destruct (predicted_ack s1 v); [|exact Ho]. apply jumps_received; [exact J1|].
    eapply ends_mono; [| |apply (plain_predict_ack e s1 v)]; [|intros ? []].
    intros l s' v' Hp. eapply gained_core; [exact (tracks_received _ _ Ht1)|apply Hp].
  - destruct (_ && _) eqn:Eb; [|exact Ho]. apply andb_true_iff in Eb as [_ Eb%Z.leb_le]. apply jumps_received; [exact J2|].
    pose proof (tk_intact _ _ Ht) as [[= E1 E2 E3 E4 E5] _]. pose proof (tk_intact _ _ Ht1) as [[= D1 D2 D3 D4 D5] _].
    apply predict_data_received; [exact Ht1|congruence|congruence|]. rewrite D2 in Eb. pose proof (rv_wnd Hrv). unfold receivable in *. lia.
Qed.

(** *** Up to the ACK *)

(** The window is known. *)
Definition framed (s : icb) (v : vars) : Prop := tracks s v /\ 0 <= rcv_wnd s <= W.

Lemma recv_set_rcv_wnd s v : offered s v -> ends (set_rcv_wnd s v) (at_stage framed) (fun _ => False).
Proof.
  intros [Ht Ha]. split.
  - eapply tracks_plain; [exact Ht|apply (plain_set_rcv_wnd s v)|reflexivity].
  - cbn [update rcv_wnd on_o]. pose proof (tk_intact _ _ Ht) as [[= E1 E2 E3 E4 E5] _]. rewrite E1, E2, Ha.
    pose proof (rv_wnd Hrv) as Hw. unfold receivable in Hw. destruct (Z.ltb_spec (sbspace (so_rcv (ic_o s0))) 0); lia.
Qed.

Lemma recv_check_state s v : framed s v -> ends (check_state e s v) (at_stage framed) (fun _ => False).
Proof.
  intros H. pose proof (tk_intact _ _ (proj1 H)) as [_ Hs]. unfold check_state. destruct Hs as [->|[->| ->]]; exact H.
Qed.

Lemma recv_check_rst s v : framed s v -> ends (check_rst e s v) (at_stage framed) (fun _ => False).
Proof. intros H. unfold check_rst. destruct (tracks_text _ _ (proj1 H)) as (_ & -> & _). exact H. Qed.

Lemma recv_check_paws s v : framed s v -> ends (check_paws e s v) (at_stage framed) (fun _ => False).
Proof.
  intros H. unfold check_paws. destruct (_ && _); [|exact H]. destruct (_ <? _).
  - destruct H as [H1 H2]. split; [eapply tracks_plain; [exact H1|apply plain_core|]; reflexivity|exact H2].
  - destruct (negb _); apply (tracks_received s v), H.
Qed.

Lemma recv_check_irs s v : framed s v -> ends (check_irs s v) (at_stage framed) (fun _ => False).
Proof. intros H. unfold check_irs. destruct (_ && _); [apply (tracks_received s v), H|exact H]. Qed.

(** What was received before has been cut off, or the rest is nothing. *)
Definition topped (s : icb) (v : vars) : Prop :=
  framed s v /\ (0 <= off (irnxt s0) (v_seq v) \/ v_tlen v = 0 /\ thf TH_FIN v = false).

Lemma tracks_drop s v n : tracks s v -> 0 <= n <= v_tlen v ->
  tracks s (v <| v_skip := v_skip v + n |> <| v_seq := u32 (v_seq v + n) |> <| v_tlen := v_tlen v - n |>) /\
  off (irnxt s0) (u32 (v_seq v + n)) = off (irnxt s0) (v_seq v) + n.
Proof.
  intros [T1 T2 T3 T4 T5 T6 T7 T8] Hn.
  assert (off (irnxt s0) (u32 (v_seq v + n)) = off (irnxt s0) (v_seq v) + n) as Eo by (rewrite off_u32; apply off_add; lia).
  split; [|exact Eo]. split; cbn [update v_pkt v_seq v_tlen v_skip v_data]; auto; [apply u32_range| |lia|lia|].
  - rewrite Eo. lia.
  - rewrite Eo. replace (Z.to_nat (v_skip v + n)) with (Z.to_nat (v_skip v) + Z.to_nat n)%nat by lia. rewrite <- drop_drop, T8, slice_drop by lia.
    f_equal. lia.
Qed.

(** Flags cleared, and the urgent pointer moved. *)
Lemma tracks_same s v s' v' : tracks s v -> core s' = core s -> v_pkt v' = v_pkt v -> body v' = body v ->
  (forall f, thf f v' = true -> thf f v = true) -> tracks s' v'.
Proof.
  intros [T1 T2 T3 T4 T5 T6 T7 T8] C P [= B1 B2 B3 B4] Hf.
  split; rewrite ?B1, ?B2, ?B3, ?B4; auto; [eapply intact_core; eauto|congruence].
Qed.

Lemma topped_urgent s v (b : bool) x : topped s v ->
  topped s (if b then v <| v_urp := x |> else (clear_thf TH_URG v) <| v_urp := 0 |>).
Proof.
  intros [[H1 H2] H3]. destruct b; (split; [split; [eapply tracks_same; [exact H1|reflexivity|reflexivity|reflexivity|]|exact H2]|]).
  - intros f Hf. exact Hf.
  - exact H3.
  - intros f Hf. apply (thf_clear f TH_URG v), Hf.
  - destruct H3 as [H3|[H3 H4]]; [left; exact H3|right; split; [exact H3|]]. etransitivity; [apply (thf_clear_other TH_FIN TH_URG v eq_refl)|exact H4].
Qed.

Lemma recv_trim_front s v : framed s v -> ends (trim_front s v) (at_stage topped) (fun _ => False).
Proof.
  intros [Ht Hw]. pose proof (tracks_text _ _ Ht) as (Hsyn & _). pose proof Ht as [[[= E1 _ _ _ _] _] _ _ T4 T5 T6 _ _].
  assert (s32 (irnxt s0 - v_seq v) = - off (irnxt s0) (v_seq v)) as Ed.
  { rewrite (seq_sub_off (irnxt s0)); rewrite off_refl; lia. }
  unfold trim_front. rewrite E1, Ed, Hsyn. cbv zeta. destruct (Z.ltb_spec 0 (- off (irnxt s0) (v_seq v))) as [Hd|Hd]; [|split; [split; assumption|left; lia]].
  set (q := off (irnxt s0) (v_seq v)) in *. destruct (_ || _) eqn:Eb.
  - apply topped_urgent. destruct (tracks_drop s v (v_tlen v) Ht ltac:(lia)) as [Hk Eo]. split; [split; [|exact Hw]|].
    + eapply tracks_same; [exact Hk|reflexivity|reflexivity|reflexivity|]. intros f Hf. apply (thf_clear f TH_FIN v), Hf.
    + right. split; [cbn [update v_tlen clear_thf]; lia|apply flag_cleared].
  - apply topped_urgent. apply orb_false_iff in Eb as [Eb%Z.ltb_ge _]. destruct (tracks_drop s v (- q) Ht ltac:(lia)) as [Hk Eo].
    split; [split; [exact Hk|exact Hw]|]. left. cbn [update v_seq]. rewrite Eo. fold q. lia.
Qed.

Lemma close_received s s' : received s -> tcp_close s = Some s' -> received s'.
Proof.
  intros H E. pose proof H as (d & fin & [_ _ _ G _] & _). unfold tcp_close, soisdisconnected in E.
  destruct (sbdrop_internal _ _) as [sb|]; [|discriminate]. cbn [mbind option_bind] in E.
  assert (sb_ok ((so_rcv (ic_o s)) <| sb_state := Z.lor (sb_state (so_rcv (ic_o s))) SBS_CANTRCVMORE |>)) as Hok.
  { destruct G as [O1 O2 [] O4 O5 O6 O7 O8]. split; try assumption. split; assumption. }
  destruct (inp_sockref _); injection E as <-;
    (eapply gained_kept; [exact H|reflexivity|reflexivity|reflexivity|reflexivity|exact Hok|intros _; apply flag_set; [reflexivity|discriminate|discriminate]]).
Qed.

Lemma recv_check_gone s v : topped s v -> ends (check_gone s v) (at_stage topped) (fun _ => False).
Proof.
  intros H. unfold check_gone. destruct (_ && _); [|exact H]. apply ends_lift. intros s' E. eapply close_received; [|exact E].
  eapply tracks_received, H.
Qed.

Lemma recv_trim_back s v : topped s v -> ends (trim_back s v) (at_stage ready) (fun _ => False).
Proof.
  intros [[Ht [Hw0 Hw]] Hf]. pose proof Ht as [Hi T2 T3 T4 T5 T6 T7 T8]. pose proof Hi as [[= E1 _ _ _ _] _]. pose proof (rv_max Hrv).
  set (q := off (irnxt s0) (v_seq v)) in *.
  assert (s32 (v_seq v + v_tlen v - (irnxt s0 + rcv_wnd s)) = q + v_tlen v - rcv_wnd s) as Ed.
  { unfold q in *. rewrite (seq_sub_off (irnxt s0)); rewrite !off_add, ?off_refl; rewrite ?off_refl; lia. }
  unfold trim_back. rewrite E1, Ed. cbv zeta. destruct (Z.ltb_spec 0 (q + v_tlen v - rcv_wnd s)) as [Hd|Hd].
  2: { split; [exact Ht|]. fold q. destruct Hf as [Hf|Hf]; [right; lia|left; exact Hf]. }
  set (n := q + v_tlen v - rcv_wnd s) in *. destruct (_ && _) eqn:Eb; [apply (tracks_received s v), Ht|].
  assert (n <= v_tlen v) as Hn.
  { destruct (Z.leb_spec (v_tlen v) n) as [X|X]; [|lia]. cbn [andb] in Eb. apply negb_false_iff, andb_true_iff in Eb as [B1%Z.eqb_eq B2%Z.eqb_eq].
    assert (q = 0) as Hq by (unfold q; rewrite B2; apply off_refl). lia. }
  assert (forall s', core s' = core s -> ready s' (clear_thf (Z.lor TH_PUSH TH_FIN) (v <| v_data := trim_tail n (v_data v) |> <| v_tlen := v_tlen v - n |>))) as Hr.
  { intros s' Hc. split.
    - split; cbn [clear_thf update v_pkt v_seq v_tlen v_skip v_data]; auto; [eapply intact_core; eauto| |fold q; lia|lia|].
      + intros f Hx. apply T3. apply (thf_clear f (Z.lor TH_PUSH TH_FIN) v), Hx.
      + unfold trim_tail. fold q. fold q in T8.
        assert (length (v_data v) = Z.to_nat (v_skip v) + Z.to_nat (v_tlen v))%nat as Hl.
        { pose proof (length_slice S (R + q) (v_tlen v) ltac:(lia)) as X. rewrite <- T8, length_drop in X. lia. }
        replace (length (v_data v) - Z.to_nat n)%nat with (Z.to_nat (v_skip v) + Z.to_nat (v_tlen v - n))%nat by lia.
        rewrite <- take_drop_commute, T8. replace (v_tlen v) with ((v_tlen v - n) + n) by lia. rewrite slice_app by lia.
        rewrite take_app_length'; [f_equal; lia|]. pose proof (length_slice S (R + q) (v_tlen v - n) ltac:(lia)) as X.
        replace (v_tlen v - n + n - n) with (v_tlen v - n) by lia. lia.
    - destruct Hf as [Hf|Hf]; [right; cbn [clear_thf update v_seq v_tlen]; fold q; lia|lia]. }
  apply Hr. destruct (_ <=? n); reflexivity.
Qed.

Lemma recv_check_timestamp s v : ready s v -> ends (check_timestamp e s v) (at_stage ready) (fun _ => False).
Proof.
  intros [Ht Hf]. split; [|exact Hf]. eapply tracks_plain; [exact Ht|apply (plain_check_timestamp e s v)|reflexivity].
Qed.

Lemma recv_check_syn s v : ready s v -> ends (check_syn e s v) (at_stage ready) (fun _ => False).
Proof. intros H. unfold check_syn. destruct (tracks_text _ _ (proj1 H)) as (-> & _). exact H. Qed.

Lemma recv_check_ack s v : ready s v -> ends (check_ack s v) (at_stage ready) (fun _ => False).
Proof.
  intros H. unfold check_ack. destruct (negb _); [|exact H]. destruct (_ || _); [exact H|].
  destruct (iflag _ _); apply (tracks_received s v), H.
Qed.

Lemma recv_front s v : offered s v -> ends (front_stage e s v) (at_stage ready) (fun _ => False).
Proof.
  intros H. unfold front_stage.
  eapply stage_seq; [|exact recv_check_ack]. eapply stage_seq; [|exact recv_check_syn]. eapply stage_seq; [|exact recv_check_timestamp].
  eapply stage_seq; [|exact recv_trim_back]. eapply stage_seq; [|exact recv_check_gone]. eapply stage_seq; [|exact recv_trim_front].
  eapply stage_seq; [|exact recv_check_irs]. eapply stage_seq; [|exact recv_check_paws]. eapply stage_seq; [|exact recv_check_rst].
  eapply stage_seq; [|exact recv_check_state]. eapply stage_seq; [|exact recv_set_rcv_wnd]. apply recv_prediction, H.
Qed.

(** *** The ACK *)

(** A stage that is [plain] and does not look at the text. *)
Lemma ready_plain s v f : ready s v -> plainly s v f ->
  ends f (fun _ _ v' => body v' = body v /\ thf TH_FIN v' = thf TH_FIN v) (fun _ => True) -> ends f (at_stage ready) (fun _ => False).
Proof.
  intros [Ht Hf] H1 H2. eapply ends_mono; [| |exact (ends_both _ _ _ _ _ H1 H2)]; [|intros ? [[] _]]. intros l s' v' [Hp [Hb Hx]].
  assert (ready s' v') as Hr.
  { split; [eapply tracks_plain; eauto|]. unfold body in Hb. injection Hb as -> _ _ ->. rewrite Hx. exact Hf. }
  destruct l as [[]|]; try exact Hr; eapply tracks_received, Hr.
Qed.

(** The text is passed along. *)
Ltac passes := repeat first
  [ progress cbv zeta
  | apply ends_lift; intros ? _
  | match goal with |- ends (match ?b with _ => _ end) _ _ => destruct b end ]; try exact I; split; reflexivity.

Lemma recv_ack_stage s v : ready s v -> ends (ack_stage e s v) (at_stage ready) (fun _ => False).
Proof.
  intros H. unfold ack_stage. eapply stage_seq; [eapply stage_seq|].
  - pose proof (tk_intact _ _ (proj1 H)) as [_ Hs]. unfold syn_received. destruct Hs as [->|[->| ->]]; exact H.
  - intros s1 v1 H1. apply (ready_plain s1 v1); [exact H1|apply (plain_ack_range s1 v1)|]. unfold ack_range. passes.
  - intros s1 v1 H1. apply (ready_plain s1 v1); [exact H1|apply (plain_check_dup e s1 v1)|].
    unfold check_dup, old_ack, new_ack, inflate, fast_retransmit, limited_transmit. passes.
Qed.

Lemma ready_core s v s' v' : ready s v -> intact s' -> v_pkt v' = v_pkt v -> body v' = body v -> v_thflags v' = v_thflags v -> ready s' v'.
Proof.
  intros [[T1 T2 T3 T4 T5 T6 T7 T8] Hf] Hi P [= B1 B2 B3 B4] Hx. unfold ready, thf in *. rewrite B1, B4, Hx. split; [|exact Hf].
  split; rewrite ?B1, ?B2, ?B3, ?B4; auto; [congruence|]. unfold thf. rewrite Hx. exact T3.
Qed.

Lemma recv_fin_acked s v : ready s v -> ends (fin_acked e s v) (at_stage ready) (fun _ => False).
Proof.
  intros H. pose proof (tk_intact _ _ (proj1 H)) as Hi. unfold fin_acked. rewrite (intact_open _ Hi).
  destruct Hi as [Hi [->|[->| ->]]]; [exact H| |exact H]. apply (ready_core s v); [exact H|split; [exact Hi|right; right; reflexivity]|reflexivity..].
Qed.

Lemma recv_process_ack s v : ready s v -> ends (do_process_ack e s v) (at_stage ready) (fun _ => False).
Proof.
  intros H. unfold do_process_ack. generalize (s32 (BYTES_THIS_ACK (cb s) (v_ack v))). intros n. cbv zeta.
  pose proof (core_update_rtt e v (undo_rexmt e v s)) as H0. rewrite (core_undo_rexmt e) in H0. revert H0. generalize (update_rtt e v (undo_rexmt e v s)).
  intros s' H0. generalize (v_ack v =? s_max (ic_o s')). intros all. pose proof (core_restart_rexmt e all s') as H1. rewrite H0 in H1. revert H1.
  generalize (restart_rexmt e all s'). intros s1 H1. set (v1 := if all then _ else v).
  pose proof (intact_core _ _ (tk_intact _ _ (proj1 H)) H1) as Hi1.
  assert (forall s2, core s2 = core s1 -> ready s2 v1) as Hr.
  { intros s2 Hc. apply (ready_core s v); [exact H|eapply intact_core; [exact Hi1|exact Hc]|unfold v1; destruct all; reflexivity..]. }
  clearbody v1. destruct (n =? 0); [exact (Hr s1 eq_refl)|]. destruct (free_acked _ _) as [[s2 b]|] eqn:E; [|exact I].
  apply core_free_acked in E. rewrite (core_note_ack e) in E. pose proof (core_advance_una v1 s2) as E2. rewrite E in E2. apply Hr in E2.
  destruct b; [apply recv_fin_acked, E2|exact E2].
Qed.

(** *** Taking the text *)

Lemma update_sack_core a b s : core (on_o (on_sack (fun k => tcp_update_sack_list k a b)) s) = core s.
Proof.
  apply core_on_cb. unfold rx_tp. cbn [update t_state t_sack inp_dropped]. unfold tcp_update_sack_list, KASSERT.
  destruct (SEQ_LT a b); match goal with |- context [merge_blks ?x ?y ?z ?w] => destruct (merge_blks x y z w) as [hb sv] end;
    destruct (SEQ_GT _ _); reflexivity.
Qed.

Lemma took_core n s s' : took n s -> core s' = core s -> took n s'.
Proof.
  intros (d & G & Hs & Hp & Ho & Hn) E. unfold core in E. injection E as E1 E2 E3 E4 E5 _ _ _ E6 _ _. exists d. rewrite E1, E4.
  split; [|split; [exact Hs|split; [exact Hp|split; [unfold cant_receive in *; rewrite E3; exact Ho|exact Hn]]]].
  destruct G as [G1 G2 G3 G4 [[_ G5]|[? _]]]; [|lia]. split; [exact G1|congruence|rewrite E3; exact G3|rewrite E3; exact G4|].
  left. split; [reflexivity|]. apply (reass_wf_in (R + d) s s'); auto. apply open_established. exact Hs.
Qed.

Definition taken (n : Z) (s : icb) (v : vars) : Prop := took n s /\ (thf TH_FIN v = true -> fin_seen s0 p).

Lemma ready_text s v : ready s v -> 0 <= v_tlen v <= W.
Proof.
  intros [Ht [[-> _]|H]]; [pose proof (rv_wnd Hrv); unfold receivable in *; lia|]. pose proof (tk_len _ _ Ht). lia.
Qed.

Lemma took_in_order s v : ready s v -> v_seq v = irnxt s -> TcpReass.Reass.t_segq (ic_reass s) = [] ->
  exists s' v', in_order_data e s (v <| v_data := drop (Z.to_nat (v_skip v)) (v_data v) |>) = Some (s', v') /\ taken (v_tlen v) s' v'.
Proof.
  intros H Hseq Hq. pose proof H as [Ht _]. pose proof Ht as [Hi T2 T3 _ _ _ _ T8]. pose proof Hi as [[= E1 E2 E3 E4 E5] Hs].
  unfold in_order_data. set (s1 := put_rnxt _ _). assert (irnxt s1 = u32 (irnxt s0 + v_tlen v) /\ so_rcv (ic_o s1) = so_rcv (ic_o s0) /\
    ic_reass s1 = ic_reass s0 /\ ic_mbuf s1 = ic_mbuf s0 /\ inp_passive (ic_o s1) = inp_passive (ic_o s0) /\ state s1 = state s) as (A1 & A2 & A3 & A4 & A5 & A6).
  { rewrite <- E1, <- E2, <- E3, <- E4, <- E5. repeat split. }
  clearbody s1. assert (cant_receive s1 = false) as Ho by (unfold cant_receive; rewrite A2; exact (rv_open Hrv)). rewrite Ho.
  destruct (append_took s1 (v_tlen v) (drop (Z.to_nat (v_skip v)) (v_data v))) as (s2 & E & Hk).
  { destruct (rv_room Hrv). split; rewrite ?A2, ?A4; assumption. } { rewrite A2. reflexivity. } { exact A1. } { exact (ready_text _ _ H). }
  { rewrite T8, Hseq, E1, off_refl, Z.add_0_r. reflexivity. } { congruence. }
  { rewrite A3. destruct (rv_wf Hrv) as (_ & _ & X & _). cbn in X. rewrite <- E3, Hq in X. rewrite <- E3. exact X. }
  { rewrite A6. exact Hs. } { rewrite A5. exact (rv_active Hrv). } { exact Ho. }
  cbv zeta. cbn [update v_data]. rewrite E. cbn [mbind option_bind]. do 2 eexists. split; [reflexivity|]. split; [exact Hk|].
  intros X. left. cbn [thf update v_thflags v_pkt] in X. rewrite T2 in X. apply has_flag_land in X. exact X.
Qed.

Lemma took_queued s v : ready s v -> negb (v_tlen v =? 0) || thf TH_FIN v = true ->
  exists s' v', queue_data e s (v <| v_data := drop (Z.to_nat (v_skip v)) (v_data v) |>) = Some (s', v') /\
    taken 0 s' v' /\ (v_seq v = irnxt s -> taken (v_tlen v) s' v').
Proof.
  intros [Ht Hf] Hx. pose proof Ht as [Hi T2 T3 T4 T5 T6 _ T8]. destruct Hf as [[Y1 Y2]|[Hf1 Hf2]].
  { rewrite Y1, Y2 in Hx. discriminate. }
  unfold queue_data. set (seg := TcpReass.Reass.mk_segment _ _ _ _). pose proof (rv_max Hrv).
  destruct (call_reass_took seg s Hi) as (s1 & fl & n & E & Hk & Hk').
  { split; [exact T4|]. split; [exact Hf1|]. split; [apply T6|]. split; [cbn [seg TcpReass.Reass.s_seq TcpReass.Reass.s_len update v_seq v_tlen]; lia|].
    cbn [seg TcpReass.Reass.s_m update v_data]. rewrite T8. symmetry. apply TcpReass.Reass.slice_shift. }
  { exact Hf2. }
  rewrite E. cbn [mbind option_bind]. do 2 eexists. split; [reflexivity|].
  apply (call_reass_state e) in E as (_ & _ & E). destruct Hi as [[= E1 _ E3 _ _] _].
  match goal with |- taken 0 ?a ?b /\ _ => assert (thf TH_FIN b = true -> fin_seen s0 p) as Hfin end.
  { intros X. destruct E as [E|E]; [left; exact X|right; rewrite <- E3; exact E|left; cbn in E; rewrite T2 in E; exact E]. }
  split; [split; [eapply took_core; [exact Hk|reflexivity]|exact Hfin]|]. intros X. split; [|exact Hfin].
  eapply took_core; [apply Hk'; rewrite <- E1; exact X|reflexivity].
Qed.

Lemma taken_reported n s v (b : bool) x y : taken n s v -> taken n (if b then on_o (on_sack (fun k => tcp_update_sack_list k x y)) s else s) v.
Proof. intros [H1 H2]. split; [|exact H2]. destruct b; [eapply took_core; [exact H1|apply update_sack_core]|exact H1]. Qed.

Lemma recv_data s v : ready s v -> ends (do_data e s v) (at_stage (taken 0)) (fun _ => False).
Proof.
  intros H. pose proof (tk_intact _ _ (proj1 H)) as Hi. unfold do_data. destruct (_ && _) eqn:Eb.
  2: { split; [apply intact_took, Hi|]. unfold thf, clear_thf. cbn [update v_thflags]. rewrite flag_cleared. discriminate. }
  apply andb_true_iff in Eb as [Eb _]. cbv zeta. match goal with |- context [if ?b then in_order_data _ _ _ else _] => destruct b eqn:Ec end.
  - apply andb_true_iff in Ec as [[E1%Z.eqb_eq E2]%andb_true_iff _].
    destruct (took_in_order s v H E1) as (s1 & v1 & -> & Hk). { destruct (TcpReass.Reass.t_segq _); [reflexivity|discriminate]. }
    apply taken_reported. destruct Hk as [Hk1 Hk2]. split; [|exact Hk2]. eapply took_some, Hk1.
  - destruct (took_queued s v H Eb) as (s1 & v1 & -> & Hk & _). apply taken_reported, Hk.
Qed.

(** *** The FIN, and the end *)

Lemma recv_urgent s v : ready s v -> ends (do_urgent e s v) (at_stage ready) (fun _ => False).
Proof.
  intros H. unfold do_urgent. destruct (tracks_text _ _ (proj1 H)) as (_ & _ & ->). cbn [andb ends at_stage].
  apply (ready_core s v); [exact H| |reflexivity..]. eapply intact_core; [apply H|]. destruct (SEQ_GT _ _); reflexivity.
Qed.

Lemma fin_received n s : took n s -> fin_seen s0 p ->
  let s' := put_rnxt (irnxt s + 1) (raise (if iflag TF_NEEDSYN (socantrcvmore s) then TF_DELACK else TF_ACKNOW) (socantrcvmore s)) in
  exists d, got d 1 s' /\ n <= d.
Proof.
  intros (d & [G1 G2 G3 G4 G5] & Hs & _ & _ & Hn) Hf. cbv zeta. exists d. split; [|exact Hn]. split.
  - exact G1.
  - transitivity (u32 (irnxt s + 1)); [reflexivity|]. rewrite G2. clear. wrap.
  - exact G3.
  - destruct G4 as [O1 O2 [] O4 O5 O6 O7 O8]. split; try assumption. split; assumption.
  - right. split; [reflexivity|]. split; [exact Hf|]. apply flag_set; [reflexivity|discriminate|discriminate].
Qed.

(** With the FIN taken the state does not matter. *)
Lemma fin_to_state n s d st : got d 1 s -> n <= d -> gained n (to_state st s).
Proof. intros [G1 G2 G3 G4 [[? _]|G5]] Hn; [lia|]. exists d, 1. split; [|exact Hn]. split; try assumption. right. exact G5. Qed.

Lemma gained_fin n s v : taken n s v -> ends (do_fin e s v) (fun l s' v' => gained n s' /\ l = None /\ v' = v) (gained n).
Proof.
  intros [Hk Hf]. unfold do_fin. destruct (thf TH_FIN v); [|split; [apply took_gained, Hk|auto]]. specialize (Hf eq_refl).
  pose proof Hk as (_ & _ & Hs & _). assert (TCPS_HAVERCVDFIN (state s) = false) as -> by (destruct Hs as [->|[->| ->]]; reflexivity).
  cbn [negb]. cbv zeta. destruct (fin_received n s Hk Hf) as (d & Hg & Hn). cbv zeta in Hg.
  change (irnxt (raise _ (socantrcvmore s))) with (irnxt s). set (s1 := put_rnxt _ _) in *.
  assert (state s1 = state s) as Es by reflexivity. clearbody s1. rewrite Es. assert (gained n s1) as Hr by (exists d, 1; auto).
  destruct Hs as [->|[->| ->]]; cbn; [split; [eapply fin_to_state; eassumption|auto]..|exact Hr].
Qed.

Lemma received_plain s v f : received s -> plainly s v f -> ends f (fun _ s' _ => received s') received.
Proof. intros H. apply ends_mono; [|intros ? []]. intros l s' v' [E _]. eapply gained_core; eauto. Qed.

Lemma recv_step6 s v : ready s v -> ends (step6_stage e s v) (fun _ s' _ => received s') received.
Proof.
  intros H. unfold step6_stage. pose proof (plain_update_window s v) as Hp.
  assert (body (snd (update_window s v)) = body v /\ thf TH_FIN (snd (update_window s v)) = thf TH_FIN v) as Hb
    by (unfold update_window; destruct (_ && _); split; reflexivity).
  destruct (update_window s v) as [s1 v1]. cbn [fst snd] in *.
  assert (ready s1 v1) as H1 by (apply (ready_plain s v (Next s1 v1) H Hp Hb)).
  apply ends_andthen, ends_andthen, ends_andthen.
  eapply ends_mono; [| |apply recv_urgent; exact H1]; [|intros ? []]. intros [l|] s2 v2 H2.
  { destruct l; try exact H2; eapply tracks_received, H2. }
  eapply ends_mono; [| |apply recv_data; exact H2]; [|intros ? []]. intros [l|] s3 v3 H3.
  { destruct l; try exact H3; eapply tracks_received, H3. }
  eapply ends_mono; [| |apply (gained_fin 0); exact H3]; [|auto]. intros [l|] s4 v4 [H4 _]; [exact H4|].
  eapply received_plain; [exact H4|apply (plain_do_output e)].
Qed.

Lemma recv_until_step6 f : ends f (at_stage ready) (fun _ => False) ->
  ends (at_label process_ACK f (do_process_ack e)) (at_stage ready) (fun _ => False).
Proof.
  intros H. apply ends_at. refine (ends_mono _ _ _ _ _ _ (fun _ X => X) H). intros l s1 v1 K. pose proof (recv_process_ack s1 v1) as Hp.
  destruct l as [[]|]; [exact K|exact K|exact K|exact K|exact (Hp K)|exact K|exact (Hp K)].
Qed.

Lemma recv_until_delack f : ends f (at_stage ready) (fun _ => False) ->
  ends (at_label step6 f (step6_stage e)) (fun _ s' _ => received s') received.
Proof.
  intros H. apply ends_at. refine (ends_mono _ _ _ _ _ _ (fun _ X => False_ind _ X) H). intros l s1 v1 K. pose proof (recv_step6 s1 v1) as Hp.
  destruct l as [[]|]; [exact K|exact K|exact K|exact K|exact (tracks_received s1 v1 (proj1 K))|exact (Hp K)|exact (Hp K)].
Qed.

Lemma recv_until_end f : ends f (fun _ s' _ => received s') received ->
  ends (at_label check_delack f (delack e)) (fun _ s' _ => received s') received.
Proof.
  intros H. apply ends_at. refine (ends_mono _ _ _ _ _ _ (fun _ X => X) H). intros l s1 v1 K.
  pose proof (received_plain s1 v1 _ K (plain_delack e s1 v1)) as Hp.
  destruct l as [[]|]; [exact K|exact K|exact K|exact Hp|exact K|exact K|exact Hp].
Qed.

Lemma recv_flow s v : offered s v -> ends (segment_flow e s v) (fun _ s' _ => received s') received.
Proof.
  intros H. apply recv_until_end, recv_until_delack, recv_until_step6. eapply stage_seq; [apply recv_front, H|exact recv_ack_stage].
Qed.

Lemma respond_received tp m ack sq fl s : received s -> received (tcp_respond e tp m ack sq fl s).
Proof.
  intros H. pose proof H as (_ & _ & [_ _ _ G _] & _). unfold tcp_respond. destruct (_ && _); [exact H|]. cbv zeta. set (g := if m then _ else get_mbuf _).
  assert (irnxt (s <| ic_o := fst g |>) = irnxt s /\ state (s <| ic_o := fst g |>) = state s /\ so_rcv (fst g) = so_rcv (ic_o s)) as (G1 & G2 & G3)
    by (unfold g; destruct m; [repeat split|]; unfold get_mbuf; destruct (mbufs (ic_o s)) as [|[]]; repeat split).
  destruct g as [o ok]. cbn [fst] in *.
  assert (forall s', irnxt s' = irnxt (s <| ic_o := o |>) -> state s' = state (s <| ic_o := o |>) -> so_rcv (ic_o s') = so_rcv o -> ic_reass s' = ic_reass s -> received s') as Hd.
  { intros s' X1 X2 X3 X4. eapply gained_kept; [exact H|congruence|exact X4|congruence|rewrite X3, G3; reflexivity|rewrite X3, G3; exact G|].
    unfold cant_receive. rewrite X3, G3. auto. }
  destruct (negb ok); apply Hd; reflexivity.
Qed.

Lemma reset_received reason s v : received s -> exists s', reset_label e reason s v = Done s' /\ received s'.
Proof.
  intros H. unfold reset_label, tcp_dropwithreset.
  destruct (ic_freed s); cbn [negb]; [destruct (has_flag (so_options s) SO_PASSIVE); [eauto|]|];
    (eexists; split; [reflexivity|]); repeat match goal with |- context [if ?b then _ else _] => destruct b end; try exact H; apply respond_received, H.
Qed.

Lemma begin_offered : exists s v, begin_segment e p s0 = Some (s, v) /\ offered s v.
Proof.
  destruct (begin_synced e p s0) as (tp' & to & -> & K1 & K2 & K3).
  { destruct (rv_state Hrv) as [->|[->| ->]]; discriminate. }
  do 2 eexists. split; [reflexivity|]. split; [|reflexivity]. pose proof Hca as [C1 C2 C3 C4 C5].
  split; cbn [v_pkt v_seq v_tlen v_skip v_data]; auto; try lia. split.
  - unfold irnxt, rnxt, on_cb, on_o, on_tp. cbn [update ic_o o_tp so_rcv ic_reass ic_mbuf inp_passive]. rewrite K1. reflexivity.
  - unfold state. change (open_state (t_state tp')). rewrite K2. exact (rv_state Hrv).
Qed.

Lemma segment_received : match tcp_do_segment e p s0 with Done s' | InTimeWait s' => received s' | Input.Panicked => True end.
Proof.
  unfold tcp_do_segment. destruct begin_offered as (s & v & -> & H). pose proof (recv_flow s v H) as Hf.
  destruct (segment_flow e s v) as [s1 v1|l s1 v1|s1|]; cbn [ends finish] in *; [exact Hf| |exact Hf|exact I]. destruct l; try exact Hf.
  - unfold dropafterack_label. destruct (_ && _); [destruct (reset_received BANDLIM_RST_OPENPORT s1 v1 Hf) as (s' & -> & K); exact K|].
    destruct (run_output e _) as [s2|] eqn:E; [|exact I]. apply (core_run_output e) in E as [E _]. eapply gained_core; [exact Hf|]. rewrite E. reflexivity.
  - destruct (reset_received rstreason s1 v1 Hf) as (s' & -> & K). exact K.
Qed.

(** ** Text the receiver waits for *)

Section Accept.
Context (q : list Z) (K : Z) (Henv : OutputStream.oenv_ok (oe e)) (Acc : CongestionControl (algo (oe e))).

(** The sending side is in order: [tcp_output] runs. *)
Definition sends (s : icb) : Prop :=
  OutputStream.conn_ok q K (ic_o s) /\ window_ok (cb s) /\ Forall (fun r => r <> EMSGSIZE) (ip_results (ic_o s)).

Lemma sends_view s s' : sends s -> sender_view (ic_o s') = sender_view (ic_o s) -> 0 <= snd_wnd (cb s') < 2 ^ 31 -> report_fits s' -> sends s'.
Proof.
  intros (C & W0 & HR) E Hw Hf. unfold sender_view in E. cbv zeta in E. injection E as E1 E2 E3 E4 F1 F2 F3 F4 F5 F6 F7 F8 F9 F10 G1 G2 G3 G4 G5 H1 H2 H3 H4.
  assert (ipoptlen (ic_o s') = ipoptlen (ic_o s)) as Ei by (unfold ipoptlen; rewrite E3; reflexivity).
  assert (s_una (ic_o s') = s_una (ic_o s) /\ s_nxt (ic_o s') = s_nxt (ic_o s) /\ s_max (ic_o s') = s_max (ic_o s)) as (Eu & En & Em) by (split; [|split]; assumption).
  unfold report_fits, cb in *. split; [|split].
  - destruct C. split; rewrite ?Eu, ?En, ?Em, ?E1, ?E4, ?F4, ?F5, ?G1, ?G2, ?G4, ?H1, ?H2, ?H3, ?H4, ?Ei; auto; [|lia].
    unfold board_wf in *. rewrite F5, F6, F7, F8, F9, F10. assumption.
  - destruct W0 as [X1 X2 X3 X4]. unfold cb in *. split; rewrite ?G2, ?G3, ?G4, ?G5; assumption.
  - rewrite E2. exact HR.
Qed.

Lemma output_runs s : sends s -> exists s', run_output e s = Some s' /\ core s' = core s.
Proof.
  intros (C & W0 & HR). unfold run_output.
  assert (length q = Z.to_nat (cc (ic_o s))) as Hq.
  { destruct (OutputStream.co_holds _ _ _ C) as [Hok Hc]. pose proof (sb_cc_total _ Hok) as X. pose proof (length_contents _ (so_wf _ Hok)) as Y.
    rewrite Hc, length_fmap in Y. unfold cc. lia. }
  assert (exists o err, tcp_output (oe e) (output_fuel (ic_o s)) (ic_o s) = Returned o err) as (o & err & E).
  { apply (OutputStream.output_returns (oe e) q K); try assumption. unfold output_fuel. rewrite Hq. lia. }
  destruct (tcp_output _ _ _) as [o' err'| |] eqn:Eo; try discriminate. injection E as -> ->. eexists. split; [reflexivity|].
  apply (core_run_output e). unfold run_output. rewrite Eo. reflexivity.
Qed.

(** Text without control flags and options, next in order, in the window, with
    nothing new acknowledged. *)
Record next_text : Prop := {
  nx_flags : p_flags p = TH_ACK \/ p_flags p = Z.lor TH_ACK TH_PUSH;
  nx_opt : p_opt p = [];
  nx_data : p_data p <> [];
  nx_ack : p_ack p = s_una (ic_o s0);
  nx_win : 0 <= p_win p < 2 ^ 16;
  nx_seq : p_seq p = irnxt s0;
  nx_fits : Z.of_nat (length (p_data p)) <= receivable s0;
  nx_user : has_flag (so_state s0) SS_NOFDREF = false }.

Context (Hsend : sends s0) (Hholes : snd_holes (t_sack (cb s0)) = []) (Hnx : next_text).
Let len : Z := Z.of_nat (length (p_data p)).

Record going (s : icb) (v : vars) : Prop := {
  go_track : tracks s v;
  go_sends : sends s;
  go_holes : snd_holes (t_sack (cb s)) = [];
  go_ack : v_ack v = s_una (ic_o s);
  go_seq : v_seq v = irnxt s0;
  go_len : v_tlen v = len;
  go_flags : v_thflags v = p_flags p;
  go_opt : to_flags (v_to v) = 0;
  go_win : 0 <= v_tiwin v < 2 ^ 31;
  go_user : has_flag (so_state s) SS_NOFDREF = false }.

Lemma len_pos : 0 < len.
Proof. unfold len. pose proof (nx_data Hnx). destruct (p_data p); [congruence|cbn; lia]. Qed.

Lemma going_flags s v : going s v -> thf TH_ACK v = true /\ thf TH_FIN v = false.
Proof. intros H. unfold thf. rewrite (go_flags _ _ H). destruct (nx_flags Hnx) as [->| ->]; split; reflexivity. Qed.

Lemma sends_fits s : sends s -> report_fits s.
Proof. intros (C & _). pose proof (OutputStream.co_blks _ _ _ C). unfold report_fits, cb. lia. Qed.

Lemma sends_kept s s' : sends s -> sender_kept s s' -> sends s'.
Proof.
  intros H [K1 K2 K3 _]. eapply sends_view; [exact H|exact K1| |apply K3, sends_fits, H]. rewrite K2. destruct H as (C & _).
  exact (OutputStream.co_wnd _ _ _ C).
Qed.

Lemma going_kept s v s' : going s v -> core s' = core s -> sender_kept s s' -> going s' v.
Proof.
  intros [T1 T2 T3 T4 T5 T6 T7 T8 T9 T10] Hc Hk. pose proof (sk_view _ _ Hk) as Hx. unfold sender_view in Hx. cbv zeta in Hx.
  injection Hx as _ _ _ _ X1 _ _ _ X2 _ _ _ _ _ _ _ _ _ _ _ _ _ _.
  split; auto; [eapply tracks_plain; [exact T1|apply plain_core, Hc|reflexivity]|eapply sends_kept; eassumption|unfold cb in *; congruence| |rewrite (sk_user _ _ Hk); exact T10].
  rewrite T4. unfold s_una, una. symmetry. exact X1.
Qed.

(** Without ECE, congestion notification only sets flags. *)
Lemma ecn_flags s : exists f, process_ecn e p s = on_cb (fun tp => tp <| t_flags := f |>) s /\
  sender_view (ic_o (process_ecn e p s)) = sender_view (ic_o s).
Proof.
  assert (has_flag (p_flags p) TH_ECE = false) as Hx by (destruct (nx_flags Hnx) as [->| ->]; reflexivity).
  unfold process_ecn. rewrite Hx. assert (forall s, exists f, s = on_cb (fun tp => tp <| t_flags := f |>) s) as Hid
    by (intros [[[]]]; eexists; reflexivity).
  destruct (iflag TF_ECN_PERMIT s); [|destruct (Hid s) as [f Hf]; exists f; auto].
  set (s1 := if has_flag _ _ then _ else s). assert (sender_view (ic_o s1) = sender_view (ic_o s)) as V1.
  { unfold s1. destruct (has_flag (p_flags p) TH_CWR); [apply (view_raise TF_ECN_SND_ECE s eq_refl)|reflexivity]. }
  assert (exists f, s1 = on_cb (fun tp => tp <| t_flags := f |>) s) as [f1 F1] by (unfold s1; destruct (has_flag (p_flags p) TH_CWR); [eexists; reflexivity|apply Hid]).
  clearbody s1. destruct (_ =? _).
  - eexists. split; [rewrite F1; reflexivity|]. rewrite <- V1. apply (view_raise TF_ECN_SND_ECE s1 eq_refl).
  - exists f1. auto.
Qed.

Lemma scaled_window w k : 0 <= w < 2 ^ 16 -> 0 <= k <= TCP_MAX_WINSHIFT -> 0 <= Z.shiftl w k < 2 ^ 31.
Proof.
  intros Hw Hk. unfold TCP_MAX_WINSHIFT in Hk. rewrite Z.shiftl_mul_pow2 by lia. assert (1 <= 2 ^ k <= 2 ^ 14) as Hp
    by (split; [apply (Z.pow_le_mono_r 2 0 k)|apply Z.pow_le_mono_r]; lia). nia.
Qed.

Lemma begin_going : exists s v, begin_segment e p s0 = Some (s, v) /\ going s v /\ rcv_adv (ic_o s) = rcv_adv (ic_o s0).
Proof.
  destruct begin_offered as (s & v & E & Ht & Ha). exists s, v. split; [exact E|]. split; [|exact Ha]. revert E. unfold begin_segment.
  match goal with |- context [process_ecn e p ?s] => set (s1 := s) end.
  assert (sender_view (ic_o s1) = sender_view (ic_o s0) /\ snd_wnd (cb s1) = snd_wnd (cb s0) /\ report_fits s1 /\ so_state s1 = so_state s0) as (A1 & A2 & A3 & A4).
  { unfold s1. pose proof (sends_fits _ Hsend). destruct (TCPS_HAVEESTABLISHED _); [unfold start_timer, activate, tcp_timer_activate, on_timer; destruct (_ =? 0)|]; repeat split; assumption. }
  clearbody s1. destruct (ecn_flags s1) as (f & Ef & Ev). rewrite Ef in *. clear Ef. set (s2 := on_cb _ s1) in *.
  assert (snd_wnd (cb s2) = snd_wnd (cb s1) /\ t_sack (cb s2) = t_sack (cb s1) /\ so_state s2 = so_state s1) as (B1 & B2 & B3) by (repeat split). clearbody s2.
  rewrite (nx_opt Hnx). unfold tcp_dooptions. cbn [length TcpOptions.Options.dooptions_loop Z.of_nat Z.leb Z.compare mbind option_bind].
  assert (sender_view (ic_o s2) = sender_view (ic_o s0)) as Hv by congruence. pose proof Hv as Hx. unfold sender_view in Hx. cbv zeta in Hx.
  injection Hx as _ _ _ _ X1 _ _ _ X2 _ _ _ _ _ X3 _ _ _ X4 _ _ _ _.
  assert ((state s2 =? TCPS_SYN_SENT) = false) as Hst.
  { unfold state, cb. rewrite X3. destruct (rv_state Hrv) as [X|[X|X]]; unfold state, cb in X; rewrite X; reflexivity. }
  unfold echoed. cbn [update to_flags]. change (has_flag 0 TOF_TS) with false. cbn [andb]. rewrite Hst. cbn [andb]. intros [= <- <-].
  destruct Hsend as (C & W0 & HR). split; auto.
  - eapply sends_view; [exact Hsend|exact Hv| |].
    + rewrite B1, A2. exact (OutputStream.co_wnd _ _ _ C).
    + unfold report_fits in *. rewrite B2. exact A3.
  - unfold cb. rewrite X2. exact Hholes.
  - change (p_ack p = s_una (ic_o s2)). rewrite (nx_ack Hnx). symmetry. exact X1.
  - exact (nx_seq Hnx).
  - change (0 <= Z.shiftl (p_win p) (snd_scale (cb s1)) < 2 ^ 31). unfold cb. rewrite <- Ev, Hv in A1. unfold sender_view in Ev. cbv zeta in Ev.
    injection Ev as _ _ _ _ _ _ _ _ _ _ _ _ _ _ _ _ _ _ Es _ _ _ _. rewrite <- Es, X4. apply scaled_window; [exact (nx_win Hnx)|exact (wo_scale _ W0)].
  - rewrite B3, A4. exact (nx_user Hnx).
Qed.

Lemma raise_kept f s : Z.land f (Z.lor TF_SENTFIN (Z.lor TF_NEEDSYN (Z.lor TF_FORCEDATA TF_FASTRECOVERY))) = 0 -> sender_kept s (raise f s).
Proof. intros H. split; auto. apply (proj1 (view_raise f s H)). Qed.

(** An ACK that goes out at once. *)
Lemma ack_runs n s : gained n s -> sends s -> exists s', run_output e s = Some s' /\ gained n s'.
Proof. intros Hg Hs. destruct (output_runs s Hs) as (s' & E & C). exists s'. split; [exact E|]. eapply gained_core; eassumption. Qed.

Lemma going_prediction s v : going s v ->
  header_prediction e s v = Next s v \/ exists s', header_prediction e s v = Goto check_delack s' v /\ gained len s'.
Proof.
  intros H. pose proof H as [T1 T2 T3 T4 T5 T6 T7 T8 T9 T10]. pose proof len_pos. unfold header_prediction, has_ts. rewrite T8, T6.
  destruct (predicted e s v) eqn:Ep; [|left; reflexivity]. apply predicted_next in Ep as [_ Eq]. change (has_flag 0 TOF_TS) with false. cbn [andb]. cbv zeta.
  destruct (Z.eqb_spec len 0); [lia|]. destruct (_ && _) eqn:Eb; [right|left; reflexivity]. apply andb_true_iff in Eb as [_ Eb%Z.leb_le].
  pose proof (tk_intact _ _ T1) as [[= E1 E2 E3 E4 E5] _]. rewrite E2 in Eb. rewrite E3 in Eq. pose proof (rv_wnd Hrv).
  destruct (predict_data_took s v T1 T5 Eq) as (s4 & -> & Hk & Hv); [rewrite T6; unfold receivable in *; lia|]. rewrite T6 in Hk. apply took_gained in Hk.
  destruct (DELAY_ACK e s4); [eexists; split; [reflexivity|]; eapply gained_core; [exact Hk|reflexivity]|].
  destruct (ack_runs len (raise TF_ACKNOW s4)) as (s5 & E & Hg).
  - eapply gained_core; [exact Hk|reflexivity].
  - eapply sends_kept; [exact T2|]. eapply sender_kept_trans; [exact Hv|]. apply raise_kept. reflexivity.
  - rewrite E. eauto.
Qed.

(** The window is wide enough, and nothing is dropped before the ACK. *)
Lemma going_front s v : going s v -> rcv_adv (ic_o s) = rcv_adv (ic_o s0) -> header_prediction e s v = Next s v ->
  exists s', front_stage e s v = Next s' v /\ going s' v.
Proof.
  intros H Ha Hp. unfold front_stage. rewrite Hp. cbn [andthen set_rcv_wnd]. set (s2 := (on_o _ _) <| rfbuf_cnt := 0 |>).
  assert (going s2 v) as H2 by (eapply going_kept; [exact H|reflexivity|split; auto]).
  assert (rcv_wnd s2 = receivable s0) as Hw.
  { pose proof (tk_intact _ _ (go_track _ _ H)) as [[= E1 E2 E3 E4 E5] _]. unfold receivable. cbn [s2 update rcv_wnd on_o]. rewrite E1, E2, Ha.
    f_equal. destruct (Z.ltb_spec (sbspace (so_rcv (ic_o s0))) 0); lia. }
  clearbody s2. exists s2. split; [|exact H2]. pose proof H2 as [T1 T2 T3 T4 T5 T6 T7 T8 T9 T10]. destruct (tracks_text _ _ T1) as (F1 & F2 & F3).
  destruct (going_flags _ _ H2) as [F4 F5]. pose proof (tk_intact _ _ T1) as [[= E1 E2 E3 E4 E5] Hs]. pose proof (nx_fits Hnx) as Hfit. fold len in Hfit.
  assert (check_state e s2 v = Next s2 v) as -> by (unfold check_state; destruct Hs as [->|[->| ->]]; reflexivity). cbn [andthen].
  unfold check_rst. rewrite F2. cbn [andthen]. unfold check_paws, has_ts. rewrite T8. cbn [andthen andb has_flag].
  change (has_flag 0 TOF_TS) with false. cbn [andb andthen].
  assert (check_irs s2 v = Next s2 v) as -> by (unfold check_irs; destruct Hs as [->|[->| ->]]; reflexivity). cbn [andthen].
  assert (trim_front s2 v = Next s2 v) as -> by (unfold trim_front; rewrite E1, T5, Z.sub_diag; reflexivity). cbn [andthen].
  unfold check_gone. rewrite T10. cbn [andb andthen].
  assert (trim_back s2 v = Next s2 v) as ->.
  { unfold trim_back. rewrite E1, T5, T6, Hw. pose proof (rv_wnd Hrv). pose proof (rv_max Hrv). pose proof len_pos.
    replace (irnxt s0 + len - (irnxt s0 + receivable s0)) with (len - receivable s0) by lia. rewrite s32_small by lia.
    destruct (Z.ltb_spec 0 (len - receivable s0)); [lia|reflexivity]. }
  cbn [andthen]. unfold check_timestamp, has_ts. rewrite T8. change (has_flag 0 TOF_TS) with false. cbn [andb andthen].
  unfold check_syn. rewrite F1. cbn [andthen]. unfold check_ack. rewrite F4. reflexivity.
Qed.

(** The ACK is not new. *)
Lemma going_ack s v : going s v -> exists s', ack_stage e s v = Goto step6 s' v /\ going s' v.
Proof.
  intros H. pose proof H as [T1 T2 T3 T4 T5 T6 T7 T8 T9 T10]. pose proof (tk_intact _ _ T1) as [[= E1 E2 E3 E4 E5] Hs].
  exists (set_dupacks 0 s). split; [|eapply going_kept; [exact H|reflexivity|split; auto]]. unfold ack_stage.
  assert (syn_received e s v = Next s v) as -> by (unfold syn_received; destruct Hs as [->|[->| ->]]; reflexivity). cbn [andthen].
  assert (ack_range s v = Next s v) as ->.
  { unfold ack_range. rewrite E5, (rv_active Hrv). cbn [andb]. rewrite T4, T8, T3. destruct T2 as (C & _).
    assert (SEQ_GT (s_una (ic_o s)) (s_max (ic_o s)) = false) as ->.
    { pose proof (OutputStream.co_near _ _ _ C) as [N1 N2]. unfold SEQ_GT. unfold off in *. clear -N1 N2 C. pose proof (OutputStream.co_word _ _ _ C) as (X1 & X2 & X3). destruct (Z.ltb_spec 0 (s32 (s_una (ic_o s) - s_max (ic_o s)))) as [Y|Y]; [|reflexivity]. exfalso. revert N1 N2 Y. wrap. }
    change (has_flag 0 TOF_SACK) with false. cbn [is_empty orb negb]. rewrite andb_false_r. reflexivity. }
  cbn [andthen]. unfold check_dup. rewrite T4. assert (SEQ_LEQ (s_una (ic_o s)) (s_una (ic_o s)) = true) as -> by (unfold SEQ_LEQ; rewrite Z.sub_diag; reflexivity).
  unfold old_ack. rewrite T6. pose proof len_pos. destruct (Z.eqb_spec len 0); [lia|]. reflexivity.
Qed.

(** *** Taking it *)

Lemma kept_in_order s v s' v' : in_order_data e s v = Some (s', v') -> sender_kept s s'.
Proof.
  unfold in_order_data. set (s1 := put_rnxt _ _). assert (sender_kept s s1) as H1.
  { eapply sender_kept_trans; [apply (raise_kept (if DELAY_ACK e s then TF_DELACK else TF_ACKNOW)); destruct (DELAY_ACK e s); reflexivity|split; auto]. }
  clearbody s1. cbv zeta. destruct (cant_receive s1); [intros [= <- _]; exact H1|].
  destruct (append_data e _ s1) as [s2|] eqn:E; [|discriminate]. intros [= <- _]. eapply sender_kept_trans; [exact H1|exact (append_mbufs_sender _ _ _ E)].
Qed.

Lemma kept_queued s v s' v' : queue_data e s v = Some (s', v') -> sender_kept s s'.
Proof.
  unfold queue_data, call_reass. cbv zeta. destruct (append_all _ _ _) as [s1|] eqn:E; [|discriminate]. cbn [mbind option_bind]. intros [= <- _].
  apply append_all_sender in E. eapply sender_kept_trans; [exact E|]. match goal with |- sender_kept _ (raise _ ?s) => eapply (sender_kept_trans _ s) end.
  - split; auto.
  - apply raise_kept. reflexivity.
Qed.

Lemma kept_report a b s : sender_kept s (on_o (on_sack (fun k => tcp_update_sack_list k a b)) s).
Proof.
  assert (forall k, let k' := tcp_update_sack_list k a b in
    k' = k <| sackblks := sackblks k' |> <| rcv_numsacks := rcv_numsacks k' |> <| kassert := kassert k' |> /\ (rcv_numsacks k' <= length (sackblks k'))%nat) as H.
  { intros k. unfold tcp_update_sack_list, KASSERT. cbv zeta. match goal with |- context [merge_blks ?x ?y ?z ?w] => destruct (merge_blks x y z w) as [hb sv] end.
    destruct (SEQ_GT _ _); cbn [update rcv_numsacks sackblks]; (split; [destruct k; reflexivity|]); match goal with |- (length ?a <= _)%nat => rewrite (length_app a) end; lia. }
  split; auto.
  - unfold sender_view, on_o, on_sack, on_tp. cbn [update ic_o o_tp t_sack]. destruct (H (t_sack (o_tp (ic_o s)))) as [E _]. rewrite E. reflexivity.
  - intros _. apply H.
Qed.

Lemma going_data s v : going s v -> ready s v -> exists s' v', do_data e s v = Next s' v' /\ taken len s' v' /\ sends s'.
Proof.
  intros H Hr. pose proof H as [T1 T2 T3 T4 T5 T6 T7 T8 T9 T10]. pose proof (tk_intact _ _ T1) as [[= E1 E2 E3 E4 E5] Hs]. pose proof len_pos.
  unfold do_data. rewrite T6. destruct (Z.eqb_spec len 0) as [|_]; [lia|]. cbn [negb orb].
  assert (TCPS_HAVERCVDFIN (state s) = false) as -> by (destruct Hs as [->|[->| ->]]; reflexivity). cbn [negb andb]. cbv zeta.
  assert (forall s1 v1, taken (v_tlen v) s1 v1 -> sender_kept s s1 -> forall b : bool, exists s' v',
    Next (if b then on_o (on_sack (fun k => tcp_update_sack_list k (v_seq v) (u32 (v_seq v + v_tlen v1)))) s1 else s1) v1 = Next s' v' /\ taken len s' v' /\ sends s') as Hend.
  { intros s1 v1 Hk Hv b. do 2 eexists. split; [reflexivity|]. rewrite <- T6. split; [apply taken_reported, Hk|].
    eapply sends_kept; [exact T2|]. eapply sender_kept_trans; [exact Hv|]. destruct b; [apply kept_report|apply sender_kept_refl]. }
  match goal with |- context [if ?b then in_order_data _ _ _ else _] => destruct b eqn:Ec end.
  - apply andb_true_iff in Ec as [[_ Eq]%andb_true_iff _].
    destruct (took_in_order s v Hr) as (s1 & v1 & E & Hk); [congruence|destruct (TcpReass.Reass.t_segq _); [reflexivity|discriminate]|].
    rewrite E. apply Hend; [exact Hk|exact (kept_in_order _ _ _ _ E)].
  - destruct (took_queued s v Hr) as (s1 & v1 & E & _ & Hk); [rewrite T6; destruct (Z.eqb_spec len 0); [lia|reflexivity]|].
    rewrite E. apply Hend; [apply Hk; congruence|exact (kept_queued _ _ _ _ E)].
Qed.

Lemma sends_state st s : sends s -> TCPS_ESTABLISHED <= st <= TCPS_TIME_WAIT -> sends (to_state st s).
Proof. intros (C & [] & HR) Hst. split; [destruct C; split; assumption|]. split; [split; assumption|exact HR]. Qed.

Lemma sends_fin n s v : taken n s v -> sends s -> ends (do_fin e s v) (fun _ s' _ => sends s') (fun _ => True).
Proof.
  intros [(_ & _ & Hs & _) _] H. unfold do_fin. destruct (thf TH_FIN v); [|exact H].
  assert (TCPS_HAVERCVDFIN (state s) = false) as -> by (destruct Hs as [->|[->| ->]]; reflexivity). cbn [negb]. cbv zeta. set (s1 := put_rnxt _ _).
  assert (sends s1) as H1.
  { eapply sends_kept; [exact H|]. apply (sender_kept_trans _ (socantrcvmore s)); [split; auto|].
    eapply sender_kept_trans; [apply (raise_kept (if iflag TF_NEEDSYN (socantrcvmore s) then TF_DELACK else TF_ACKNOW)); destruct (iflag _ _); reflexivity|].
    split; auto. }
  assert (state s1 = state s) as Es by reflexivity. clearbody s1. rewrite Es.
  destruct Hs as [->|[->| ->]]; cbn; [apply sends_state; [exact H1|unfold TCPS_ESTABLISHED, TCPS_CLOSE_WAIT, TCPS_TIME_WAIT; lia]|apply sends_state; [exact H1|unfold TCPS_ESTABLISHED, TCPS_CLOSING, TCPS_TIME_WAIT; lia]|exact I].
Qed.

Lemma going_window s v : going s v -> exists s' v', update_window s v = (s', v') /\ going s' v'.
Proof.
  intros H. pose proof H as [T1 T2 T3 T4 T5 T6 T7 T8 T9 T10]. pose proof (plain_update_window s v) as Hp. unfold update_window in *.
  destruct (_ && _); [|eauto]. do 2 eexists. split; [reflexivity|]. cbn [fst snd] in Hp. split; auto.
  - eapply tracks_plain; [exact T1|exact Hp|reflexivity].
  - eapply sends_view; [exact T2| | |].
    + destruct (_ <? _); reflexivity.
    + match goal with |- 0 <= snd_wnd (cb (if ?b then _ else _)) < _ => destruct b end; exact T9.
    + pose proof (sends_fits _ T2). match goal with |- report_fits (if ?b then _ else _) => destruct b end; assumption.
  - match goal with |- context [if ?b then _ else _] => destruct b end; exact T3.
  - match goal with |- context [if ?b then _ else _] => destruct b end; exact T4.
  - match goal with |- context [if ?b then _ else _] => destruct b end; exact T10.
Qed.

Lemma going_ready s v : going s v -> ready s v.
Proof.
  intros H. split; [apply H|right]. rewrite (go_seq _ _ H), (go_len _ _ H), off_refl. pose proof (nx_fits Hnx) as Hf. fold len in Hf.
  pose proof (rv_wnd Hrv). lia.
Qed.

Lemma going_step6 s v : going s v ->
  (exists s' v', step6_stage e s v = Next s' v' /\ gained len s') \/ exists s', step6_stage e s v = TwStart s' /\ gained len s'.
Proof.
  intros H. unfold step6_stage. destruct (going_window s v H) as (s1 & v1 & -> & H1).
  destruct (tracks_text _ _ (go_track _ _ H1)) as (_ & _ & Hu). unfold do_urgent. rewrite Hu. cbn [andb andthen].
  set (s2 := if SEQ_GT _ _ then _ else s1). assert (going s2 v1) as H2.
  { eapply going_kept; [exact H1|unfold s2; destruct (SEQ_GT _ _); reflexivity|]. unfold s2. destruct (SEQ_GT _ _); split; auto. }
  clearbody s2. destruct (going_data s2 v1 H2 (going_ready _ _ H2)) as (s3 & v3 & -> & Hk & Hs). cbn [andthen].
  pose proof (ends_both _ _ _ _ _ (gained_fin len s3 v3 Hk) (sends_fin len s3 v3 Hk Hs)) as Hf.
  destruct (do_fin e s3 v3) as [s4 v4|l s4 v4|s4|] eqn:E; cbn [ends andthen] in *.
  - destruct Hf as [(Hg & _) Hs4]. left. unfold do_output. destruct (_ || _); [|eauto]. destruct (ack_runs len s4 Hg Hs4) as (s5 & -> & H5). cbn [lift]. eauto.
  - destruct Hf as [(_ & [=] & _) _].
  - right. exists s4. split; [reflexivity|apply Hf].
  - exfalso. unfold do_fin in E. repeat match type of E with context [if ?b then _ else _] => destruct b end; discriminate.
Qed.

Lemma text_taken : exists s', (tcp_do_segment e p s0 = Done s' \/ tcp_do_segment e p s0 = InTimeWait s') /\ gained len s'.
Proof.
  unfold tcp_do_segment. destruct begin_going as (s & v & -> & H & Ha).
  assert (forall s' v', gained len s' -> exists s2, finish e (delack e s' v') = Done s2 /\ gained len s2) as Hd.
  { intros s' v' Hg. unfold delack. eexists. split; [reflexivity|]. destruct (iflag TF_DELACK s'); [|exact Hg].
    eapply gained_core; [exact Hg|]. rewrite core_timer. reflexivity. }
  unfold segment_flow. destruct (going_prediction s v H) as [Hp|(s1 & Hp & Hg)].
  - destruct (going_front s v H Ha Hp) as (s1 & -> & H1). cbn [andthen]. destruct (going_ack s1 v H1) as (s2 & -> & H2). cbn [at_label].
    destruct (going_step6 s2 v H2) as [(s3 & v3 & -> & Hg)|(s3 & -> & Hg)]; cbn [at_label].
    + destruct (Hd s3 v3 Hg) as (s4 & E & H4). exists s4. auto.
    + exists s3. auto.
  - assert (front_stage e s v = Goto check_delack s1 v) as -> by (unfold front_stage; rewrite Hp; reflexivity). cbn [andthen at_label].
    destruct (Hd s1 v Hg) as (s4 & E & H4). exists s4. auto.
Qed.
End Accept.
End Stream.

(** C1: whatever segments of the peer's stream arrive, in whatever order, however
    they overlap, are repeated, acknowledge or carry options, a connection that
    can receive only ever takes the next bytes of the stream: tcp_do_segment
    appends to the receive buffer exactly the bytes from the receive edge on, and
    moves rcv_nxt by their number, plus one for a FIN; a FIN is only taken if the
    segment or the reassembly queue has one; and the reassembly queue goes on
    holding bytes of the stream beyond the new edge.  This covers header
    prediction, the trimming to the window, reassembly, and every branch of the
    ACK processing in between. *)
Theorem tcp_do_segment_in_order S R W s p :
  receiver S R W s -> carries S R s p ->
  match tcp_do_segment e p s with
  | Done s' | InTimeWait s' => exists d fin, got S R W s p d fin s'
  | Input.Panicked => True
  end.
Proof.
  intros Hrv Hca. pose proof (segment_received S R W s p Hrv Hca) as H.
  destruct (tcp_do_segment e p s) as [s'|s'|]; [destruct H as (d & fin & H & _); eauto..|exact I].
Qed.

End Receive.

(** ** A connection *)

Lemma sample_receiver : receiver (fun x => x) 0 20000 (sample_icb TCPS_ESTABLISHED 20000).
Proof.
  split.
  - left. reflexivity.
  - reflexivity.
  - reflexivity.
  - split; [vm_compute; split; congruence|]. split; [split; [exact I|constructor]|]. split; [reflexivity|]. intros _. exact I.
  - intros x (q & Hq & _). apply not_elem_of_nil in Hq. destruct Hq.
  - vm_compute. congruence.
  - reflexivity.
  - split; [|exact I|constructor|reflexivity|reflexivity]. destruct (proj1 empty_sb_holds) as [O1 O2 [] O4 O5 O6 O7 O8].
    split; try assumption. split; assumption.
Qed.

Lemma tcp_do_segment_in_order_witness :
  exists s' d fin, tcp_do_segment sample_ienv (pkt 6998 5000 TH_ACK [-2; -1; 0; 1; 2]) (sample_icb TCPS_ESTABLISHED 20000) = Done s' /\
    got (fun x => x) 0 20000 (sample_icb TCPS_ESTABLISHED 20000) (pkt 6998 5000 TH_ACK [-2; -1; 0; 1; 2]) d fin s' /\ irnxt s' = 7003.
Proof.
  pose proof (tcp_do_segment_in_order sample_ienv (fun x => x) 0 20000 (sample_icb TCPS_ESTABLISHED 20000) (pkt 6998 5000 TH_ACK [-2; -1; 0; 1; 2])
    sample_receiver) as H.
  destruct (tcp_do_segment _ _ _) as [s'| |] eqn:E; [|exfalso; vm_compute in E; discriminate|exfalso; vm_compute in E; discriminate].
  destruct H as (d & fin & H).
  { split; [vm_compute; split; congruence|vm_compute; split; congruence|reflexivity|reflexivity|repeat split]. }
  exists s', d, fin. split; [reflexivity|]. split; [exact H|]. vm_compute in E. injection E as <-. reflexivity.
Defined.

Lemma sample_sends : sends OutputStream.sample_data 0 (sample_icb TCPS_ESTABLISHED 20000).
Proof.
  apply (sends_view _ _ ((sample_icb TCPS_ESTABLISHED 20000) <| ic_o := OutputStream.sample_ocb 0 20000 |>)).
  - split; [apply OutputStream.sample_conn_ok; [lia|auto]|]. split; [split; vm_compute; split; congruence|constructor].
  - reflexivity.
  - vm_compute. split; congruence.
  - unfold report_fits. vm_compute. lia.
Qed.


(** *** Where the code and its comments part *)

(** A segment of seven bytes and a FIN for a window of five: the tail is cut off,
    and the FIN with it, but [in_order_data] takes the flag from the header
    again.  The FIN is acknowledged as the sixth byte. *)
Example fin_beyond_window_taken :
  exists s', tcp_do_segment sample_ienv (pkt 7000 5000 (Z.lor TH_ACK TH_FIN) [0; 1; 2; 3; 4; 5; 6]) (sample_icb TCPS_ESTABLISHED 5) = Done s' /\
    state s' = TCPS_CLOSE_WAIT /\ irnxt s' = 7006 /\ contents (sb_mb (so_rcv (ic_o s'))) = Some <$> [0; 1; 2; 3; 4].
Proof. eexists. split; [vm_compute; reflexivity|]. repeat split. Qed.

(** [TCPS_HAVERCVDFIN] holds in TIME_WAIT only: a second FIN in CLOSE_WAIT moves
    the receive edge. *)
Example second_fin_taken :
  exists s', tcp_do_segment sample_ienv (pkt 7000 5000 (Z.lor TH_ACK TH_FIN) []) (sample_icb TCPS_CLOSE_WAIT 20000) = Done s' /\
    state s' = TCPS_CLOSE_WAIT /\ irnxt s' = 7001.
Proof. eexists. split; [vm_compute; reflexivity|]. repeat split. Qed.

(** The receive buffer of a connection without timestamps may grow by what is on
    the stack. *)
Definition bulk_receiver : icb :=
  on_rcv (fun sb => sb <| sb_flags := SB_AUTOSIZE |>) ((sample_icb TCPS_ESTABLISHED 20000) <| rfbuf_cnt := 19000 |>).
Example receive_buffer_from_stack :
  let p := pkt 7000 5000 TH_ACK [0; 1] in
  let size (e : ienv) := match tcp_do_segment e p bulk_receiver with Done s => sb_hiwat (so_rcv (ic_o s)) | _ => 0 end in
  size sample_ienv = 20000 /\
  size (mk_ienv (oe sample_ienv) (reass_env sample_ienv) true 10 false true true true 16384 262144 6000 (metrics sample_ienv)
          (badport_bandlim sample_ienv) (mk_tcpopt 0 0 50 [] [] 0 0 0) sample_chain) = 36384.
Proof. vm_compute. split; reflexivity. Qed.
End InputRecv.
