(* ===== verification/HostCache.v ===== *)
(** * The TCP host cache

    sys/netinet/tcp_hostcache.c: what is remembered of other hosts between
    connections, a hash table of bounded rows in the order of use, aged by a
    periodic purge.

    An entry of a row is named by the row and its position.  [None] is an access
    outside the table.  A row is locked while it is used, but [tcp_hc_lookup]
    unlocks it when it finds nothing, and [tcp_hc_insert] locks it again: what
    other threads do in between is the argument [window] of the two updates.
    Statistics and the sysctl that prints the table are left out. *)

From S2P Require Import Prelude TcpCC.

Module Hostcache.

Import (hints) TcpCC.CC.

Definition TCP_HOSTCACHE_HASHSIZE := 512.
Definition TCP_HOSTCACHE_BUCKETLIMIT := 30.
Definition TCP_HOSTCACHE_EXPIRE := 60 * 60.
Definition TCP_HOSTCACHE_PRUNE := 5 * 60.

(** The foreign address of a connection; an IPv6 address is four words. *)
Record in_conninfo := mk_inc {
  inc_isipv6 : bool;
  inc_faddr : Z;
  inc6_faddr : list Z }.

Record hc_metrics_lite := mk_lite {
  l_mtu : Z;
  l_ssthresh : Z;
  l_rtt : Z;
  l_rttvar : Z;
  l_bandwidth : Z;
  l_cwnd : Z;
  l_sendpipe : Z;
  l_recvpipe : Z }.

Record hc_metrics := mk_entry {
  ip4 : Z;
  ip6 : list Z;
  rmx_mtu : Z;
  rmx_ssthresh : Z;
  rmx_rtt : Z;
  rmx_rttvar : Z;
  rmx_bandwidth : Z;
  rmx_cwnd : Z;
  rmx_sendpipe : Z;
  rmx_recvpipe : Z;
  rmx_expire : Z;
  rmx_hits : Z;
  rmx_updates : Z }.

#[export] Instance eta_hc_metrics : Eta hc_metrics := fun r =>
  mk_entry (ip4 r) (ip6 r) (rmx_mtu r) (rmx_ssthresh r) (rmx_rtt r) (rmx_rttvar r) (rmx_bandwidth r) (rmx_cwnd r)
    (rmx_sendpipe r) (rmx_recvpipe r) (rmx_expire r) (rmx_hits r) (rmx_updates r).

Record hc_head := mk_head {
  hch_bucket : list hc_metrics;
  hch_length : Z }.

(** [zallocs]: whether the allocations of entries to come succeed. *)
Record hostcache := mk_hostcache {
  hashbase : list hc_head;
  hashsize : Z;
  hashmask : Z;
  bucket_limit : Z;
  cache_count : Z;
  cache_limit : Z;
  hc_expire : Z;
  hc_prune : Z;
  purgeall : bool;
  zallocs : list bool }.

#[export] Instance eta_hostcache : Eta hostcache := fun r =>
  mk_hostcache (hashbase r) (hashsize r) (hashmask r) (bucket_limit r) (cache_count r) (cache_limit r) (hc_expire r)
    (hc_prune r) (purgeall r) (zallocs r).

Definition powerof2 (x : Z) : bool := Z.land (u32 (x - 1)) x =? 0.

(** The tunables are those of the environment, if set. *)
Definition tcp_hc_init (t_hashsize t_cachelimit t_bucketlimit : option Z) : hostcache :=
  let hashsize := default TCP_HOSTCACHE_HASHSIZE t_hashsize in
  let cache_limit := default (TCP_HOSTCACHE_HASHSIZE * TCP_HOSTCACHE_BUCKETLIMIT) t_cachelimit in
  let bucket_limit := default TCP_HOSTCACHE_BUCKETLIMIT t_bucketlimit in
  let hashsize := if negb (powerof2 hashsize) then TCP_HOSTCACHE_HASHSIZE else hashsize in
  mk_hostcache (replicate (Z.to_nat hashsize) (mk_head [] 0)) hashsize (u32 (hashsize - 1)) bucket_limit 0 cache_limit
    TCP_HOSTCACHE_EXPIRE TCP_HOSTCACHE_PRUNE false [].

Definition HOSTCACHE_HASH (hc : hostcache) (s_addr : Z) : Z :=
  Z.land (Z.lxor (Z.lxor s_addr (Z.shiftr s_addr 7)) (Z.shiftr s_addr 17)) (hashmask hc).
Definition HOSTCACHE_HASH6 (hc : hostcache) (s6_addr32 : list Z) : Z := Z.land (foldl Z.lxor 0 s6_addr32) (hashmask hc).

Definition hc_hash (hc : hostcache) (inc : in_conninfo) : Z :=
  s32 (if inc_isipv6 inc then HOSTCACHE_HASH6 hc (inc6_faddr inc) else HOSTCACHE_HASH hc (inc_faddr inc)).

(** [hashbase[i]] for an int [i]. *)
Definition row (hc : hostcache) (i : Z) : option hc_head := if i <? 0 then None else hashbase hc !! Z.to_nat i.
Definition on_row (i : Z) (f : hc_head -> hc_head) (hc : hostcache) : hostcache :=
  hc <| hashbase := alter f (Z.to_nat i) (hashbase hc) |>.

Definition matches (inc : in_conninfo) (en : hc_metrics) : bool :=
  if inc_isipv6 inc then bool_decide (inc6_faddr inc = ip6 en) else inc_faddr inc =? ip4 en.

Fixpoint find_index {A} (f : A -> bool) (l : list A) : option nat :=
  match l with
  | [] => None
  | x :: l => if f x then Some 0%nat else S <$> find_index f l
  end.

Definition tcp_hc_lookup (inc : in_conninfo) (hc : hostcache) : option (option (Z * nat)) :=
  let hash := hc_hash hc inc in
  head ← row hc hash;
  Some (pair hash <$> find_index (matches inc) (hch_bucket head)).

(** The entry as [bzero] and the assignments that follow leave it. *)
Definition new_entry (hc : hostcache) (inc : in_conninfo) : hc_metrics :=
  mk_entry (if inc_isipv6 inc then 0 else inc_faddr inc) (if inc_isipv6 inc then inc6_faddr inc else [0; 0; 0; 0])
    0 0 0 0 0 0 0 0 (hc_expire hc) 0 0.

Definition tcp_hc_insert (inc : in_conninfo) (hc : hostcache) : option (hostcache * option (Z * nat)) :=
  let hash := hc_hash hc inc in
  head ← row hc hash;
  let '(hc, ok) :=
    if (bucket_limit hc <=? hch_length head) || (cache_limit hc <=? cache_count hc) then
      match last (hch_bucket head) with
      | None => (hc, false)
      | Some _ =>
          let hc := on_row hash (fun h => mk_head (removelast (hch_bucket h)) (u32 (hch_length h - 1))) hc in
          (hc <| cache_count := u32 (cache_count hc - 1) |>, true)
      end
    else (hc <| zallocs := tail (zallocs hc) |>, default true (List.head (zallocs hc))) in
  if negb ok then Some (hc, None)
  else
    let en := new_entry hc inc in
    let hc := on_row hash (fun h => mk_head (en :: hch_bucket h) (u32 (hch_length h + 1))) hc in
    Some (hc <| cache_count := u32 (cache_count hc + 1) |>, Some (hash, 0%nat)).

Definition entry_at (hc : hostcache) (at_ : Z * nat) : option hc_metrics :=
  head ← row hc (fst at_); hch_bucket head !! snd at_.

Definition on_entry (at_ : Z * nat) (f : hc_metrics -> hc_metrics) : hostcache -> hostcache :=
  on_row (fst at_) (fun h => mk_head (alter f (snd at_) (hch_bucket h)) (hch_length h)).

(** [TAILQ_REMOVE] and [TAILQ_INSERT_HEAD]. *)
Definition upfront (at_ : Z * nat) : hostcache -> hostcache :=
  on_row (fst at_) (fun h =>
    match hch_bucket h !! snd at_ with
    | Some en => mk_head (en :: delete (snd at_) (hch_bucket h)) (hch_length h)
    | None => h
    end).

(** A use starts the life of an entry over. *)
Definition hit (hc : hostcache) (en : hc_metrics) : hc_metrics :=
  en <| rmx_hits := u64 (rmx_hits en + 1) |> <| rmx_expire := hc_expire hc |>.
Definition updated (hc : hostcache) (en : hc_metrics) : hc_metrics :=
  en <| rmx_updates := u64 (rmx_updates en + 1) |> <| rmx_expire := hc_expire hc |>.

Definition lite (en : hc_metrics) : hc_metrics_lite :=
  mk_lite (rmx_mtu en) (rmx_ssthresh en) (rmx_rtt en) (rmx_rttvar en) (rmx_bandwidth en) (rmx_cwnd en)
    (rmx_sendpipe en) (rmx_recvpipe en).

Definition tcp_hc_get (inc : in_conninfo) (hc : hostcache) : option (hostcache * hc_metrics_lite) :=
  found ← tcp_hc_lookup inc hc;
  match found with
  | None => Some (hc, mk_lite 0 0 0 0 0 0 0 0)
  | Some i => en ← entry_at hc i; Some (on_entry i (hit hc) hc, lite en)
  end.

Definition tcp_hc_getmtu (inc : in_conninfo) (hc : hostcache) : option (hostcache * Z) :=
  found ← tcp_hc_lookup inc hc;
  match found with
  | None => Some (hc, 0)
  | Some i => en ← entry_at hc i; Some (on_entry i (hit hc) hc, rmx_mtu en)
  end.

(** The entry of a host, a new one if there is none. *)
Definition find_or_insert (window : hostcache -> hostcache) (inc : in_conninfo) (hc : hostcache) : option (hostcache * option (Z * nat)) :=
  found ← tcp_hc_lookup inc hc;
  match found with
  | Some i => Some (hc, Some i)
  | None => tcp_hc_insert inc (window hc)
  end.

Definition tcp_hc_updatemtu (window : hostcache -> hostcache) (inc : in_conninfo) (mtu : Z) (hc : hostcache) : option hostcache :=
  '(hc, found) ← find_or_insert window inc hc;
  match found with
  | None => Some hc
  | Some i => Some (upfront i (on_entry i (fun en => (updated hc en) <| rmx_mtu := mtu |>) hc))
  end.

(** A new value is averaged with the old one; 0 is no value. *)
Definition blend (old new : Z) : Z :=
  if new =? 0 then old else if old =? 0 then new else u64 (old + new) / 2.

Definition absorb (m : hc_metrics_lite) (en : hc_metrics) : hc_metrics :=
  en <| rmx_rtt := blend (rmx_rtt en) (l_rtt m) |> <| rmx_rttvar := blend (rmx_rttvar en) (l_rttvar m) |>
     <| rmx_ssthresh := blend (rmx_ssthresh en) (l_ssthresh m) |>
     <| rmx_bandwidth := blend (rmx_bandwidth en) (l_bandwidth m) |> <| rmx_cwnd := blend (rmx_cwnd en) (l_cwnd m) |>
     <| rmx_sendpipe := blend (rmx_sendpipe en) (l_sendpipe m) |>
     <| rmx_recvpipe := blend (rmx_recvpipe en) (l_recvpipe m) |>.

Definition tcp_hc_update (window : hostcache -> hostcache) (inc : in_conninfo) (m : hc_metrics_lite) (hc : hostcache) : option hostcache :=
  '(hc, found) ← find_or_insert window inc hc;
  match found with
  | None => Some hc
  | Some i => Some (upfront i (on_entry i (fun en => absorb m (updated hc en)) hc))
  end.

(** The entries of a row that stay, older by [prune], and how many go. *)
Fixpoint purge_row (all : bool) (prune : Z) (l : list hc_metrics) : list hc_metrics * Z :=
  match l with
  | [] => ([], 0)
  | en :: l =>
      let '(kept, gone) := purge_row all prune l in
      if all || (rmx_expire en <=? 0) then (kept, gone + 1)
      else ((en <| rmx_expire := s32 (rmx_expire en - prune) |>) :: kept, gone)
  end.

Definition purge_head (all : bool) (hc : hostcache) (i : Z) : option hostcache :=
  head ← row hc i;
  let '(kept, gone) := purge_row all (hc_prune hc) (hch_bucket head) in
  Some ((on_row i (fun h => mk_head kept (u32 (hch_length h - gone))) hc) <| cache_count := u32 (cache_count hc - gone) |>).

(** [for (i = 0; i < hashsize; i++)]. *)
Definition tcp_hc_purge_internal (all : bool) (hc : hostcache) : option hostcache :=
  foldl (fun r i => hc ← r; purge_head all hc i) (Some hc) (seqZ 0 (hashsize hc)).

(** The state, and after how many ticks it runs again. *)
Definition tcp_hc_purge (hz : Z) (hc : hostcache) : option (hostcache * Z) :=
  let all := purgeall hc in
  hc ← tcp_hc_purge_internal all (hc <| purgeall := false |>);
  Some (hc, s32 (hc_prune hc * hz)).

(** The callout of the purge is drained first; the zone and the table are freed. *)
Definition tcp_hc_destroy (hc : hostcache) : option hostcache :=
  hc ← tcp_hc_purge_internal true hc;
  Some (hc <| hashbase := [] |>).

(** ** The table *)

Definition head_of (b : list hc_metrics) : hc_head := mk_head b (Z.of_nat (length b)).
Definition entries (hc : hostcache) : list hc_metrics := concat (hch_bucket <$> hashbase hc).

(** An address a host can have, and the entry that is one of its own. *)
Definition valid_inc (inc : in_conninfo) : Prop :=
  if inc_isipv6 inc then inc6_faddr inc <> [0; 0; 0; 0] else inc_faddr inc <> 0.
Definition stored (inc : in_conninfo) (en : hc_metrics) : Prop :=
  if inc_isipv6 inc then ip4 en = 0 /\ ip6 en = inc6_faddr inc else ip4 en = inc_faddr inc /\ ip6 en = [0; 0; 0; 0].
Definition same_host (a b : in_conninfo) : Prop :=
  inc_isipv6 a = inc_isipv6 b /\ if inc_isipv6 a then inc6_faddr a = inc6_faddr b else inc_faddr a = inc_faddr b.
Definition home (hc : hostcache) (i : nat) (en : hc_metrics) : Prop :=
  exists inc, valid_inc inc /\ stored inc en /\ hc_hash hc inc = Z.of_nat i.

Definition row_ok (hc : hostcache) (i : nat) (h : hc_head) : Prop :=
  h = head_of (hch_bucket h) /\ hch_length h <= bucket_limit hc /\ Forall (home hc i) (hch_bucket h).

Record hc_ok (hc : hostcache) : Prop := {
  ok_size : exists k, 0 <= k < 32 /\ hashsize hc = 2 ^ k;
  ok_mask : hashmask hc = hashsize hc - 1;
  ok_rows : Z.of_nat (length (hashbase hc)) = hashsize hc;
  ok_row : forall i h, hashbase hc !! i = Some h -> row_ok hc i h;
  ok_count : cache_count hc = Z.of_nat (length (entries hc));
  ok_limit : cache_count hc <= cache_limit hc < 2 ^ 32 }.

(** What the invariant does not change with. *)
Record same_config (a b : hostcache) : Prop := {
  sc_size : hashsize a = hashsize b;
  sc_mask : hashmask a = hashmask b;
  sc_bucket : bucket_limit a = bucket_limit b;
  sc_limit : cache_limit a = cache_limit b }.

(** The table with row [n] replaced, its counters right. *)
Definition set_row (n : nat) (b : list hc_metrics) (hc : hostcache) : hostcache :=
  let hc := hc <| hashbase := <[n := head_of b]> (hashbase hc) |> in
  hc <| cache_count := Z.of_nat (length (entries hc)) |>.

Lemma length_concat_insert (l : list hc_head) n h b :
  l !! n = Some h ->
  Z.of_nat (length (concat (hch_bucket <$> <[n := head_of b]> l)))
  = Z.of_nat (length (concat (hch_bucket <$> l))) - Z.of_nat (length (hch_bucket h)) + Z.of_nat (length b).
Proof.
  intros H. rewrite <- (take_drop_middle l n h H) at 2.
  rewrite insert_take_drop by (eapply lookup_lt_Some; eassumption).
  rewrite !fmap_app, !concat_app, !length_app. cbn. rewrite !length_app. lia.
Qed.

Lemma hc_hash_bounds hc inc : hc_ok hc -> 0 <= hc_hash hc inc < hashsize hc.
Proof.
  intros [(k & Hk & Hs) Hm _ _ _ _]. unfold hc_hash, HOSTCACHE_HASH, HOSTCACHE_HASH6.
  assert (P : hashmask hc = Z.ones k) by (rewrite Hm, Hs, Z.ones_equiv; lia).
  assert (Q : 2 ^ k <= 2 ^ 31) by (apply Z.pow_le_mono_r; lia).
  rewrite P, Hs. destruct (inc_isipv6 inc); rewrite Z.land_ones by lia;
    match goal with |- context [?x mod 2 ^ k] => pose proof (Z.mod_pos_bound x (2 ^ k) ltac:(lia)) end;
    rewrite s32_small by lia; lia.
Qed.

(** The row of a host exists. *)
Lemma row_of hc inc : hc_ok hc ->
  exists n b, hc_hash hc inc = Z.of_nat n /\ hashbase hc !! n = Some (head_of b) /\ row_ok hc n (head_of b).
Proof.
  intros Hok. pose proof (hc_hash_bounds hc inc Hok) as B.
  destruct (hashbase hc !! Z.to_nat (hc_hash hc inc)) as [h|] eqn:E.
  2: { apply lookup_ge_None in E. pose proof (ok_rows hc Hok). lia. }
  pose proof (ok_row hc Hok _ _ E) as R. exists (Z.to_nat (hc_hash hc inc)), (hch_bucket h).
  rewrite <- (proj1 R). split_and!; [lia | exact E | exact R].
Qed.

Lemma row_nat hc n : row hc (Z.of_nat n) = hashbase hc !! n.
Proof. unfold row. rewrite Nat2Z.id. zbool_cases; [lia | reflexivity]. Qed.

Lemma alter_as_insert {A} (f : A -> A) (l : list A) (j : nat) x : l !! j = Some x -> alter f j l = <[j := f x]> l.
Proof.
  intros H. apply list_eq. intros i. destruct (decide (i = j)) as [->|Hne].
  - rewrite list_lookup_alter_eq, list_lookup_insert_eq, H by (eapply lookup_lt_Some; eassumption). reflexivity.
  - rewrite list_lookup_alter_ne, list_lookup_insert_ne by congruence. reflexivity.
Qed.

Lemma on_row_nat hc n f h : hashbase hc !! n = Some h -> on_row (Z.of_nat n) f hc = hc <| hashbase := <[n := f h]> (hashbase hc) |>.
Proof. intros H. unfold on_row. rewrite Nat2Z.id, (alter_as_insert _ _ _ _ H). reflexivity. Qed.

Lemma hc_ok_config a b :
  same_config a b -> hashbase a = hashbase b -> cache_count a = cache_count b -> hc_ok a -> hc_ok b.
Proof.
  intros [S1 S2 S3 S4] Hb Hc [K1 K2 K3 K4 K5 K6]. split; rewrite <- ?S1, <- ?S2, <- ?Hb, <- ?Hc, <- ?S4; auto.
  - intros i h Hi. destruct (K4 i h Hi) as (R1 & R2 & R3).
    split_and!; [exact R1 | rewrite <- S3; exact R2 |].
    eapply Forall_impl; [exact R3|]. intros en (inc & V & T & Hh). exists inc. split_and!; auto.
    rewrite <- Hh. unfold hc_hash, HOSTCACHE_HASH, HOSTCACHE_HASH6. rewrite S2. reflexivity.
  - unfold entries. rewrite <- Hb. exact K5.
Qed.

Lemma same_config_hash a b inc : same_config a b -> hc_hash a inc = hc_hash b inc.
Proof. intros [_ S2 _ _]. unfold hc_hash, HOSTCACHE_HASH, HOSTCACHE_HASH6. rewrite S2. reflexivity. Qed.

Lemma entries_set_row n b hc h : hashbase hc !! n = Some h ->
  cache_count (set_row n b hc) = Z.of_nat (length (entries hc)) - Z.of_nat (length (hch_bucket h)) + Z.of_nat (length b).
Proof. intros H. exact (length_concat_insert (hashbase hc) n h b H). Qed.

Lemma hashbase_set_row n b hc : hashbase (set_row n b hc) = <[n := head_of b]> (hashbase hc).
Proof. reflexivity. Qed.

Lemma set_row_ok n b hc h :
  hc_ok hc -> hashbase hc !! n = Some h -> Forall (home hc n) b -> Z.of_nat (length b) <= bucket_limit hc ->
  Z.of_nat (length (entries hc)) - Z.of_nat (length (hch_bucket h)) + Z.of_nat (length b) <= cache_limit hc ->
  hc_ok (set_row n b hc).
Proof.
  intros [K1 K2 K3 K4 K5 K6] Hn Hb Hl Hc. split.
  - exact K1.
  - exact K2.
  - rewrite hashbase_set_row, length_insert. exact K3.
  - intros i h' Hi. rewrite hashbase_set_row in Hi. apply list_lookup_insert_Some in Hi as [(<- & <- & _)|[_ Hi]].
    + split_and!; [reflexivity | exact Hl | exact Hb].
    + exact (K4 i h' Hi).
  - reflexivity.
  - rewrite (entries_set_row _ _ _ _ Hn). change (cache_limit (set_row n b hc)) with (cache_limit hc). lia.
Qed.

Lemma same_config_set_row n b hc : same_config hc (set_row n b hc).
Proof. split; reflexivity. Qed.
Lemma same_config_refl hc : same_config hc hc.
Proof. split; reflexivity. Qed.
Lemma same_config_sym a b : same_config a b -> same_config b a.
Proof. intros []. split; auto. Qed.

(** ** Finding an entry *)

Lemma find_index_Some {A} (f : A -> bool) l j :
  find_index f l = Some j -> exists x, l !! j = Some x /\ f x = true /\ forall i y, (i < j)%nat -> l !! i = Some y -> f y = false.
Proof.
  revert j. induction l as [|x l IH]; intros j; cbn; [discriminate|].
  destruct (f x) eqn:Ex.
  - intros [= <-]. exists x. split_and!; auto. intros. lia.
  - destruct (find_index f l) as [k|]; [|discriminate]. intros [= <-].
    destruct (IH k eq_refl) as (y & Y1 & Y2 & Y3). exists y. split_and!; auto.
    intros [|i] z Hi; cbn; [congruence | apply Y3; lia].
Qed.

Lemma find_index_None {A} (f : A -> bool) l : find_index f l = None -> Forall (fun x => f x = false) l.
Proof.
  induction l as [|x l IH]; cbn; [constructor|]. destruct (f x) eqn:Ex; [discriminate|].
  destruct (find_index f l); [discriminate|]. intros _. constructor; auto.
Qed.

(** The entry a lookup finds. *)
Definition first_match (inc : in_conninfo) (b : list hc_metrics) : option hc_metrics :=
  find_index (matches inc) b ≫= fun j => b !! j.
Definition recall (inc : in_conninfo) (hc : hostcache) : option hc_metrics :=
  head ← row hc (hc_hash hc inc); first_match inc (hch_bucket head).

Lemma first_match_cons inc en b : first_match inc (en :: b) = if matches inc en then Some en else first_match inc b.
Proof. unfold first_match. cbn. destruct (matches inc en); [reflexivity|]. destruct (find_index (matches inc) b); reflexivity. Qed.

Lemma first_match_app inc a b :
  first_match inc (a ++ b) = match first_match inc a with Some en => Some en | None => first_match inc b end.
Proof.
  induction a as [|en a IH]; [reflexivity|]. cbn [app]. rewrite !first_match_cons.
  destruct (matches inc en); [reflexivity | exact IH].
Qed.

Lemma first_match_delete inc b j en : b !! j = Some en -> matches inc en = false -> first_match inc (delete j b) = first_match inc b.
Proof.
  intros Hj Hm. rewrite <- (take_drop_middle b j en Hj) at 2. rewrite delete_take_drop, !first_match_app.
  rewrite first_match_cons, Hm. reflexivity.
Qed.

Lemma first_match_index inc b j : find_index (matches inc) b = Some j -> exists en, b !! j = Some en /\ matches inc en = true /\ first_match inc b = Some en.
Proof.
  intros H. destruct (find_index_Some _ _ _ H) as (en & E & M & _). exists en. split_and!; auto.
  unfold first_match. rewrite H. exact E.
Qed.

Lemma first_match_None inc b : find_index (matches inc) b = None -> first_match inc b = None.
Proof. intros H. unfold first_match. rewrite H. reflexivity. Qed.

Lemma recall_row inc hc n b : hc_hash hc inc = Z.of_nat n -> hashbase hc !! n = Some (head_of b) -> recall inc hc = first_match inc b.
Proof. intros Hh Hn. unfold recall. rewrite Hh, row_nat, Hn. reflexivity. Qed.

(** A host is looked up by its own entries only. *)
Lemma matches_stored inc en other :
  valid_inc inc -> stored other en -> valid_inc other -> matches inc en = true <-> same_host inc other.
Proof.
  unfold valid_inc, stored, matches, same_host.
  destruct (inc_isipv6 inc), (inc_isipv6 other); intros V [S1 S2] W; rewrite ?bool_decide_eq_true, ?Z.eqb_eq, ?S1, ?S2;
    intuition congruence.
Qed.

(** ** The operations as replacements of a row *)

Definition full (hc : hostcache) (b : list hc_metrics) : bool :=
  (bucket_limit hc <=? Z.of_nat (length b)) || (cache_limit hc <=? cache_count hc).

Definition next_zalloc (hc : hostcache) : hostcache := hc <| zallocs := tail (zallocs hc) |>.

(** [fill inc hc b]: the state an entry is put in and the rest of its row, where there is room or room is made. *)
Definition fill (hc : hostcache) (b : list hc_metrics) : option (hostcache * list hc_metrics) :=
  if full hc b then (if bool_decide (b = []) then None else Some (hc, removelast b))
  else if default true (List.head (zallocs hc)) then Some (next_zalloc hc, b) else None.
Definition no_fill (hc : hostcache) (b : list hc_metrics) : hostcache := if full hc b then hc else next_zalloc hc.

Lemma length_removelast_cons {A} (x : A) l : length (removelast (x :: l)) = length l.
Proof. revert x. induction l as [|y l IH]; intros x; [reflexivity|]. change (S (length (removelast (y :: l))) = S (length l)). rewrite IH. reflexivity. Qed.

Lemma delete_alter {A} (f : A -> A) (j : nat) (l : list A) : delete j (alter f j l) = delete j l.
Proof. revert j. induction l as [|x l IH]; intros [|j]; cbn; [reflexivity.. |]. f_equal. apply IH. Qed.

Lemma last_Some_ne {A} (l : list A) : l <> [] -> exists x, last l = Some x.
Proof. intros H. destruct (last l) eqn:E; [eauto|]. apply last_None in E. contradiction. Qed.

Lemma set_row_eq hc n b b' x c :
  hc_ok hc -> hashbase hc !! n = Some (head_of b) -> x = Z.of_nat (length b') ->
  c = cache_count hc - Z.of_nat (length b) + Z.of_nat (length b') ->
  hc <| hashbase := <[n := mk_head b' x]> (hashbase hc) |> <| cache_count := c |> = set_row n b' hc.
Proof.
  intros Hok Hn -> ->. rewrite (ok_count hc Hok). unfold entries.
  unfold set_row, entries. cbn [hashbase update eta eta_hostcache].
  rewrite (length_concat_insert _ _ _ b' Hn). reflexivity.
Qed.

Lemma next_zalloc_ok hc : hc_ok hc -> hc_ok (next_zalloc hc).
Proof. apply hc_ok_config; [split|..]; reflexivity. Qed.

Section Row.
Context (hc : hostcache) (inc : in_conninfo) (n : nat) (b : list hc_metrics).
Context (Hok : hc_ok hc) (Hh : hc_hash hc inc = Z.of_nat n) (Hn : hashbase hc !! n = Some (head_of b)).

Lemma entries_bounds : Z.of_nat (length b) <= cache_count hc < 2 ^ 32.
Proof using Hok Hn.
  pose proof (ok_limit hc Hok). pose proof (ok_count hc Hok) as C.
  pose proof (entries_set_row n [] hc _ Hn) as E. cbn [length] in E.
  assert (0 <= cache_count (set_row n [] hc)) by (cbn; lia). cbn [head_of hch_bucket] in E. lia.
Qed.

Lemma lookup_eq : tcp_hc_lookup inc hc = Some (pair (Z.of_nat n) <$> find_index (matches inc) b).
Proof using Hh Hn. unfold tcp_hc_lookup. rewrite Hh, row_nat, Hn. reflexivity. Qed.

Lemma insert_eq :
  tcp_hc_insert inc hc
  = match fill hc b with
    | Some (s, b) => Some (set_row n (new_entry hc inc :: b) s, Some (Z.of_nat n, 0%nat))
    | None => Some (no_fill hc b, None)
    end.
Proof using Hok Hh Hn.
  pose proof entries_bounds as B. pose proof (lookup_lt_Some _ _ _ Hn) as Hlt.
  unfold tcp_hc_insert, fill, no_fill. rewrite Hh, row_nat, Hn. cbn [mbind option_bind].
  change ((bucket_limit hc <=? hch_length (head_of b)) || (cache_limit hc <=? cache_count hc)) with (full hc b).
  destruct (full hc b) eqn:F.
  - case_bool_decide as E; [rewrite E; reflexivity|].
    destruct (last_Some_ne b E) as [v Ev]. cbn [head_of hch_bucket]. rewrite Ev. cbn [negb].
    rewrite (on_row_nat _ _ _ _ Hn).
    erewrite on_row_nat by (cbn [hashbase update]; apply list_lookup_insert_eq; exact Hlt).
    assert (L : Z.of_nat (length (removelast b)) = Z.of_nat (length b) - 1)
      by (destruct b; [contradiction | rewrite length_removelast_cons; cbn [length]; lia]).
    rewrite <- (set_row_eq hc n b) with (x := Z.of_nat (length b)) (c := cache_count hc) by (cbn [length]; auto; lia).
    cbn [hashbase cache_count zallocs update eta eta_hostcache].
    rewrite list_insert_insert_eq. cbn [hch_bucket hch_length head_of].
    rewrite !u32_add_l, !Z.sub_add, !u32_small by lia. reflexivity.
  - cbn zeta. destruct (default true (List.head (zallocs hc))); cbn [negb]; [|reflexivity].
    apply orb_false_iff in F as [F1 F2]. zbool. pose proof (ok_limit hc Hok).
    erewrite on_row_nat by (cbn [hashbase update]; exact Hn).
    rewrite <- (set_row_eq (next_zalloc hc) n b) with (x := Z.of_nat (length b) + 1) (c := cache_count hc + 1)
      by (cbn [length cache_count next_zalloc update eta eta_hostcache]; auto using next_zalloc_ok; lia).
    cbn [hashbase cache_count zallocs update eta eta_hostcache next_zalloc hch_bucket hch_length head_of].
    rewrite !u32_small by lia. reflexivity.
Qed.

(** A write to an entry, which is then put upfront. *)
Lemma touch_eq j en f : b !! j = Some en ->
  upfront (Z.of_nat n, j) (on_entry (Z.of_nat n, j) f hc) = set_row n (f en :: delete j b) hc.
Proof using Hok Hn.
  intros Hj. pose proof (lookup_lt_Some _ _ _ Hn) as Hlt. pose proof (lookup_lt_Some _ _ _ Hj) as Hjl.
  unfold upfront, on_entry. cbn [fst snd]. rewrite (on_row_nat _ _ _ _ Hn).
  erewrite on_row_nat by (cbn [hashbase update]; apply list_lookup_insert_eq; exact Hlt).
  rewrite <- (set_row_eq hc n b) with (x := Z.of_nat (length b)) (c := cache_count hc)
    by (auto; cbn [length]; rewrite length_delete by eauto; lia).
  cbn [hashbase cache_count zallocs update eta eta_hostcache hch_bucket hch_length head_of].
  rewrite list_insert_insert_eq, list_lookup_alter_eq, Hj. cbn [fmap option_fmap option_map].
  rewrite delete_alter. reflexivity.
Qed.
End Row.

(** ** The two updates *)

(** Both updates: find the entry or make it, change it, put it upfront. *)
Definition update_with (g : hostcache -> hc_metrics -> hc_metrics) (window : hostcache -> hostcache) (inc : in_conninfo)
    (hc : hostcache) : option hostcache :=
  '(hc, found) ← find_or_insert window inc hc;
  match found with
  | None => Some hc
  | Some i => Some (upfront i (on_entry i (g hc) hc))
  end.

Definition keeps_host (g : hostcache -> hc_metrics -> hc_metrics) : Prop :=
  forall hc en, ip4 (g hc en) = ip4 en /\ ip6 (g hc en) = ip6 en.

Definition write_mtu (mtu : Z) (hc : hostcache) (en : hc_metrics) : hc_metrics := (updated hc en) <| rmx_mtu := mtu |>.
Definition write_metrics (m : hc_metrics_lite) (hc : hostcache) (en : hc_metrics) : hc_metrics := absorb m (updated hc en).

Lemma keeps_write_mtu mtu : keeps_host (write_mtu mtu).
Proof. split; reflexivity. Qed.
Lemma keeps_write_metrics m : keeps_host (write_metrics m).
Proof. split; reflexivity. Qed.
#[local] Hint Resolve keeps_write_mtu keeps_write_metrics next_zalloc_ok : uinet.

Lemma updatemtu_with window inc mtu hc : tcp_hc_updatemtu window inc mtu hc = update_with (write_mtu mtu) window inc hc.
Proof. reflexivity. Qed.
Lemma update_metrics_with window inc m hc : tcp_hc_update window inc m hc = update_with (write_metrics m) window inc hc.
Proof. reflexivity. Qed.

(** The state of an update when it locks the row to insert. *)
Lemma update_hit g window inc hc n b j en :
  hc_ok hc -> hc_hash hc inc = Z.of_nat n -> hashbase hc !! n = Some (head_of b) ->
  find_index (matches inc) b = Some j -> b !! j = Some en ->
  update_with g window inc hc = Some (set_row n (g hc en :: delete j b) hc).
Proof.
  intros Hok Hh Hn Hj Hen. unfold update_with, find_or_insert. rewrite (lookup_eq _ _ _ _ Hh Hn), Hj.
  cbn [fmap option_fmap option_map mbind option_bind]. rewrite (touch_eq _ _ _ Hok Hn _ _ _ Hen). reflexivity.
Qed.

Lemma set_row_twice n a b hc : set_row n a (set_row n b hc) = set_row n a hc.
Proof. unfold set_row. cbn [hashbase update eta eta_hostcache]. rewrite list_insert_insert_eq. reflexivity. Qed.

Lemma fill_same hc b s b' : fill hc b = Some (s, b') -> s = hc \/ s = next_zalloc hc.
Proof. unfold fill. destruct (full hc b); [case_bool_decide|destruct (default _ _)]; intros [= <- <-]; auto. Qed.

Lemma fill_fits hc n b s b' e :
  hc_ok hc -> hashbase hc !! n = Some (head_of b) -> fill hc b = Some (s, b') -> home hc n e -> hc_ok (set_row n (e :: b') s).
Proof.
  intros Hok Hn F He. pose proof (ok_row hc Hok _ _ Hn) as (_ & Hlim & Hhome). cbn [head_of hch_bucket hch_length] in *.
  pose proof (ok_count hc Hok) as C. pose proof (ok_limit hc Hok) as Lim.
  revert F. unfold fill. destruct (full hc b) eqn:Fu.
  - case_bool_decide as E; [discriminate|]. intros [= <- <-]. destruct b as [|x l]; [contradiction|].
    apply (set_row_ok n _ hc _ Hok Hn); cbn [length head_of hch_bucket]; rewrite ?length_removelast_cons;
      [|cbn [length] in *; lia..].
    constructor; [exact He|]. rewrite removelast_firstn_len. apply Forall_take, Hhome.
  - destruct (default true _); [|discriminate]. intros [= <- <-]. apply orb_false_iff in Fu as [F1 F2]. zbool.
    apply (set_row_ok n _ (next_zalloc hc) (head_of b) (next_zalloc_ok _ Hok) Hn);
      cbn [length head_of hch_bucket next_zalloc update eta eta_hostcache bucket_limit cache_limit];
      [|change (entries (next_zalloc hc)) with (entries hc); lia..].
    constructor; [exact He | exact Hhome].
Qed.

Lemma no_fill_ok hc b : hc_ok hc -> hc_ok (no_fill hc b).
Proof. intros. unfold no_fill. destruct (full hc b); auto with uinet. Qed.

Lemma stored_new hc inc : stored inc (new_entry hc inc).
Proof. unfold stored, new_entry. destruct (inc_isipv6 inc); split; reflexivity. Qed.

Lemma home_new hc inc n : valid_inc inc -> hc_hash hc inc = Z.of_nat n -> home hc n (new_entry hc inc).
Proof. intros. exists inc. split_and!; auto using stored_new. Qed.

(** What an update that misses does, [s] being the state it locks the row in. *)
Lemma update_miss g window inc hc n b s :
  hc_ok hc -> hc_hash hc inc = Z.of_nat n -> hashbase hc !! n = Some (head_of b) ->
  find_index (matches inc) b = None -> s = window hc -> hc_ok s -> valid_inc inc ->
  exists n' b', hc_hash s inc = Z.of_nat n' /\ hashbase s !! n' = Some (head_of b') /\
  update_with g window inc hc
  = Some (match fill s b' with
          | Some (s', b'') => let t := set_row n' (new_entry s inc :: b'') s' in set_row n' (g t (new_entry s inc) :: b'') t
          | None => no_fill s b'
          end).
Proof.
  intros Hok Hh Hn Hj -> Hs V. destruct (row_of (window hc) inc Hs) as (n' & b' & Hh' & Hn' & _).
  exists n', b'. split_and!; [exact Hh' | exact Hn' |].
  unfold update_with, find_or_insert. rewrite (lookup_eq _ _ _ _ Hh Hn), Hj.
  cbn [fmap option_fmap option_map mbind option_bind]. rewrite (insert_eq _ _ _ _ Hs Hh' Hn').
  destruct (fill (window hc) b') as [[s' b'']|] eqn:F; [|reflexivity].
  cbn [mbind option_bind]. pose proof (fill_fits _ _ _ _ _ _ Hs Hn' F (home_new _ _ _ V Hh')) as Ht.
  rewrite (touch_eq _ _ (new_entry (window hc) inc :: b'') Ht) with (en := new_entry (window hc) inc); [reflexivity | | reflexivity].
  rewrite hashbase_set_row. apply list_lookup_insert_eq.
  destruct (fill_same _ _ _ _ F) as [-> | ->]; exact (lookup_lt_Some _ _ _ Hn').
Qed.

Lemma home_keeps hc hc' i en en' :
  hashmask hc' = hashmask hc -> ip4 en' = ip4 en -> ip6 en' = ip6 en -> home hc i en -> home hc' i en'.
Proof.
  intros M E4 E6 (inc & V & S & H). exists inc. split_and!; [exact V | |].
  - unfold stored in *. rewrite E4, E6. exact S.
  - rewrite <- H. unfold hc_hash, HOSTCACHE_HASH, HOSTCACHE_HASH6. rewrite M. reflexivity.
Qed.

Lemma update_with_ok g window inc hc :
  keeps_host g -> hc_ok hc -> hc_ok (window hc) -> valid_inc inc -> exists hc', update_with g window inc hc = Some hc' /\ hc_ok hc'.
Proof.
  intros K Hok Hw V. destruct (row_of hc inc Hok) as (n & b & Hh & Hn & R).
  destruct (find_index (matches inc) b) as [j|] eqn:J.
  - destruct (first_match_index _ _ _ J) as (en & Hen & _ & _).
    rewrite (update_hit _ _ _ _ _ _ _ _ Hok Hh Hn J Hen). eexists; split; [reflexivity|].
    destruct R as (_ & R1 & R2). cbn [head_of hch_bucket hch_length] in *.
    assert (L : length (delete j b) = (length b - 1)%nat) by (apply length_delete; eauto).
    assert (0 < length b)%nat by (apply lookup_lt_Some in Hen; lia).
    pose proof (ok_count hc Hok). pose proof (ok_limit hc Hok).
    apply (set_row_ok n _ hc _ Hok Hn); cbn [length head_of hch_bucket]; [|lia..].
    constructor.
    + apply (home_keeps hc hc n en); [reflexivity | apply K | apply K |]. exact (Forall_lookup_1 _ _ _ _ R2 Hen).
    + rewrite delete_take_drop. apply Forall_app. auto using Forall_take, Forall_drop.
  - destruct (update_miss g window inc hc n b _ Hok Hh Hn J eq_refl Hw V) as (n' & b' & Hh' & Hn' & E).
    rewrite E. eexists; split; [reflexivity|].
    destruct (fill (window hc) b') as [[s b'']|] eqn:F; [|apply no_fill_ok; exact Hw].
    cbv zeta. rewrite set_row_twice. apply (fill_fits _ _ _ _ _ _ Hw Hn' F).
    apply (home_keeps (window hc) _ _ (new_entry (window hc) inc)); [reflexivity | apply K | apply K |].
    exact (home_new _ _ _ V Hh').
Qed.

(** A use that leaves the entry where it is. *)
Lemma on_entry_ok hc n j f b en :
  hc_ok hc -> hashbase hc !! n = Some (head_of b) -> b !! j = Some en -> ip4 (f en) = ip4 en -> ip6 (f en) = ip6 en ->
  on_entry (Z.of_nat n, j) f hc = set_row n (<[j := f en]> b) hc /\ hc_ok (set_row n (<[j := f en]> b) hc).
Proof.
  intros Hok Hn Hj E4 E6. destruct (ok_row hc Hok _ _ Hn) as (_ & R1 & R2). cbn [head_of hch_bucket hch_length] in *.
  pose proof (ok_count hc Hok). pose proof (ok_limit hc Hok). split.
  - unfold on_entry. cbn [fst snd]. rewrite (on_row_nat _ _ _ _ Hn).
    rewrite <- (set_row_eq hc n b) with (x := Z.of_nat (length b)) (c := cache_count hc); rewrite ?length_insert; auto; [|lia].
    cbn [hch_bucket hch_length head_of]. rewrite (alter_as_insert _ _ _ _ Hj). reflexivity.
  - apply (set_row_ok n _ hc _ Hok Hn); rewrite ?length_insert; cbn [head_of hch_bucket]; [|lia..].
    apply Forall_insert; [exact R2|]. apply (home_keeps hc hc n en); auto. exact (Forall_lookup_1 _ _ _ _ R2 Hj).
Qed.

(** ** Aging *)

Definition stays (all : bool) (en : hc_metrics) : Prop := all = false /\ 0 < rmx_expire en.
#[export] Instance stays_dec all en : Decision (stays all en).
Proof. unfold stays. apply _. Defined.
Definition older (t : Z) (en : hc_metrics) : hc_metrics := en <| rmx_expire := s32 (rmx_expire en - t) |>.
Definition survivors (all : bool) (t : Z) (l : list hc_metrics) : list hc_metrics := older t <$> filter (stays all) l.

Lemma purge_row_eq all t l :
  purge_row all t l = (survivors all t l, Z.of_nat (length l) - Z.of_nat (length (survivors all t l))).
Proof.
  induction l as [|en l IH]; [reflexivity|]. unfold survivors in *. cbn [purge_row length]. rewrite IH.
  destruct (decide (stays all en)) as [S|S].
  - rewrite filter_cons_True by exact S. destruct S as [-> S]. cbn [orb fmap list_fmap length].
    zbool_cases; [lia|]. f_equal. lia.
  - rewrite filter_cons_False by exact S. rewrite length_fmap in *.
    assert (G : all || (rmx_expire en <=? 0) = true).
    { destruct all; [reflexivity|]. cbn. apply Z.leb_le. unfold stays in S. 
      destruct (Z.le_gt_cases (rmx_expire en) 0); [assumption | exfalso; apply S; auto]. }
    rewrite G. f_equal. lia.
Qed.

Lemma length_survivors all t l : (length (survivors all t l) <= length l)%nat.
Proof. unfold survivors. rewrite length_fmap. apply length_filter. Qed.

Lemma purge_head_eq all hc n b : hc_ok hc -> hashbase hc !! n = Some (head_of b) ->
  purge_head all hc (Z.of_nat n) = Some (set_row n (survivors all (hc_prune hc) b) hc) /\
  hc_ok (set_row n (survivors all (hc_prune hc) b) hc).
Proof.
  intros Hok Hn. pose proof (length_survivors all (hc_prune hc) b) as L.
  pose proof (entries_bounds hc n b Hok Hn) as B. pose proof (ok_row hc Hok _ _ Hn) as (_ & R1 & R2).
  pose proof (ok_count hc Hok). pose proof (ok_limit hc Hok). cbn [head_of hch_bucket hch_length] in *. split.
  - unfold purge_head. rewrite row_nat, Hn. cbn [mbind option_bind head_of hch_bucket]. rewrite purge_row_eq.
    rewrite (on_row_nat _ _ _ _ Hn). f_equal. apply set_row_eq with (b := b); auto.
    + cbn [head_of hch_length]. rewrite u32_small by lia. lia.
    + rewrite u32_small by lia. lia.
  - apply (set_row_ok n _ hc _ Hok Hn); cbn [head_of hch_bucket]; [|lia..].
    unfold survivors. apply Forall_fmap, Forall_forall. intros en Hin. apply list_elem_of_filter in Hin as [_ Hin].
    rewrite Forall_forall in R2. apply (home_keeps hc hc n en); auto; reflexivity.
Qed.

Lemma length_row_ok hc n : hc_ok hc -> (n < length (hashbase hc))%nat -> exists b, hashbase hc !! n = Some (head_of b).
Proof.
  intros Hok Hlt. destruct (lookup_lt_is_Some_2 _ _ Hlt) as [h Hh]. exists (hch_bucket h).
  rewrite <- (proj1 (ok_row hc Hok _ _ Hh)). exact Hh.
Qed.

(** [purged all ns hc hc']: the rows [ns] of [hc] are purged in [hc']. *)
Record purged (all : bool) (ns : list nat) (hc hc' : hostcache) : Prop := {
  pg_ok : hc_ok hc';
  pg_config : same_config hc hc';
  pg_times : hc_expire hc' = hc_expire hc /\ hc_prune hc' = hc_prune hc /\ purgeall hc' = purgeall hc;
  pg_length : length (hashbase hc') = length (hashbase hc);
  pg_row : forall i b, hashbase hc !! i = Some (head_of b) ->
    hashbase hc' !! i = Some (head_of (if decide (i ∈ ns) then survivors all (hc_prune hc) b else b)) }.

Lemma purged_nil all hc : hc_ok hc -> purged all [] hc hc.
Proof.
  intros Hok. split; [exact Hok | apply same_config_refl | auto | reflexivity |].
  intros i b Hi. destruct (decide (i ∈ [])) as [C|_]; [|exact Hi].
  apply not_elem_of_nil in C. contradiction.
Qed.

Lemma purged_snoc all ns n hc hc' :
  purged all ns hc hc' -> n ∉ ns -> (n < length (hashbase hc))%nat -> hc_ok hc ->
  exists hc'', purge_head all hc' (Z.of_nat n) = Some hc'' /\ purged all (ns ++ [n]) hc hc''.
Proof.
  intros [P1 P2 (P3 & P4 & P5) P6 P7] Hni Hlt Hok. destruct (length_row_ok hc n Hok Hlt) as [b Hb].
  pose proof (P7 n b Hb) as Hn. rewrite decide_False in Hn by exact Hni.
  destruct (purge_head_eq all hc' n b P1 Hn) as [E K]. rewrite P4 in E, K.
  eexists; split; [exact E|]. split; [exact K | split; apply P2 | auto | |].
  - rewrite hashbase_set_row, length_insert. exact P6.
  - intros i c Hi. rewrite hashbase_set_row. destruct (decide (i = n)) as [->|Hne].
    + rewrite list_lookup_insert_eq by (rewrite P6; exact Hlt). rewrite decide_True by set_solver.
      rewrite Hb in Hi. injection Hi as <-. reflexivity.
    + rewrite list_lookup_insert_ne by congruence. rewrite (P7 i c Hi).
      destruct (decide (i ∈ ns)); [rewrite decide_True by set_solver | rewrite decide_False by set_solver]; reflexivity.
Qed.

Lemma purge_internal_rows all hc m : hc_ok hc -> (m <= length (hashbase hc))%nat ->
  exists hc', foldl (fun r i => hc ← r; purge_head all hc i) (Some hc) (seqZ 0 (Z.of_nat m)) = Some hc' /\
    purged all (seq 0 m) hc hc'.
Proof.
  intros Hok. induction m as [|m IH]; intros Hm.
  - exists hc. split; [reflexivity | apply purged_nil; exact Hok].
  - destruct IH as (hc1 & E1 & P1); [lia|].
    replace (Z.of_nat (S m)) with (Z.of_nat m + 1) by lia. rewrite seqZ_app, foldl_app, E1 by lia.
    rewrite seq_S.
    destruct (purged_snoc all (seq 0 m) m hc hc1 P1) as (hc2 & E2 & P2); [rewrite elem_of_seq; lia | lia | exact Hok |].
    exists hc2. split; [|exact P2]. exact E2.
Qed.

Lemma purge_internal_ok all hc : hc_ok hc ->
  exists hc', tcp_hc_purge_internal all hc = Some hc' /\ purged all (seq 0 (length (hashbase hc))) hc hc'.
Proof.
  intros Hok. unfold tcp_hc_purge_internal. rewrite <- (ok_rows hc Hok). apply purge_internal_rows; auto.
Qed.

(** ** What callers see *)

Definition no_metrics : hc_metrics_lite := mk_lite 0 0 0 0 0 0 0 0.

(** What [tcp_hc_get] answers. *)
Definition answer (inc : in_conninfo) (hc : hostcache) : option hc_metrics_lite := snd <$> tcp_hc_get inc hc.

(** What a host is known by after an update. *)
Definition learn (m old : hc_metrics_lite) : hc_metrics_lite :=
  mk_lite (l_mtu old) (blend (l_ssthresh old) (l_ssthresh m)) (blend (l_rtt old) (l_rtt m))
    (blend (l_rttvar old) (l_rttvar m)) (blend (l_bandwidth old) (l_bandwidth m)) (blend (l_cwnd old) (l_cwnd m))
    (blend (l_sendpipe old) (l_sendpipe m)) (blend (l_recvpipe old) (l_recvpipe m)).
Definition learn_mtu (mtu : Z) (old : hc_metrics_lite) : hc_metrics_lite :=
  mk_lite mtu (l_ssthresh old) (l_rtt old) (l_rttvar old) (l_bandwidth old) (l_cwnd old) (l_sendpipe old) (l_recvpipe old).

(** The row of a host, its last entry, and the reasons not to make an entry. *)
Definition bucket (hc : hostcache) (inc : in_conninfo) : list hc_metrics :=
  default [] (hch_bucket <$> row hc (hc_hash hc inc)).
Definition refused (hc : hostcache) (inc : in_conninfo) : Prop := fill hc (bucket hc inc) = None.
Definition evicted (hc : hostcache) (inc other : in_conninfo) : Prop :=
  answer inc hc = Some no_metrics /\ full hc (bucket hc inc) = true /\ hc_hash hc other = hc_hash hc inc /\
  last (bucket hc inc) = recall other hc.

Lemma bucket_row hc inc n b : hc_hash hc inc = Z.of_nat n -> hashbase hc !! n = Some (head_of b) -> bucket hc inc = b.
Proof. intros Hh Hn. unfold bucket. rewrite Hh, row_nat, Hn. reflexivity. Qed.

Lemma get_eq inc hc : hc_ok hc ->
  exists hc', tcp_hc_get inc hc = Some (hc', default no_metrics (lite <$> recall inc hc)) /\ hc_ok hc' /\ same_config hc hc'
  /\ (forall i b, hashbase hc !! i = Some (head_of b) -> exists b', hashbase hc' !! i = Some (head_of b') /\
      Forall2 (fun en en' => ip4 en' = ip4 en /\ ip6 en' = ip6 en /\ lite en' = lite en) b b').
Proof.
  intros Hok. destruct (row_of hc inc Hok) as (n & b & Hh & Hn & R).
  assert (Same : forall b, Forall2 (fun en en' => ip4 en' = ip4 en /\ ip6 en' = ip6 en /\ lite en' = lite en) b b)
    by (intros b0; induction b0; constructor; auto).
  unfold tcp_hc_get. rewrite (recall_row _ _ _ _ Hh Hn), (lookup_eq _ _ _ _ Hh Hn).
  destruct (find_index (matches inc) b) as [j|] eqn:J; cbn [fmap option_fmap option_map mbind option_bind].
  - destruct (first_match_index _ _ _ J) as (en & Hen & _ & ->).
    unfold entry_at. cbn [fst snd]. rewrite row_nat, Hn. cbn [mbind option_bind head_of hch_bucket]. rewrite Hen.
    cbn [mbind option_bind].
    destruct (on_entry_ok hc n j (hit hc) b en Hok Hn Hen) as [E K]; [reflexivity..|]. rewrite E.
    eexists. split_and!; [reflexivity | exact K | apply same_config_set_row |].
    intros i c Hi. rewrite hashbase_set_row. destruct (decide (i = n)) as [->|Hne].
    + rewrite list_lookup_insert_eq by (eapply lookup_lt_Some; eassumption). eexists; split; [reflexivity|].
      rewrite Hn in Hi. injection Hi as <-. rewrite <- (list_insert_id b j en Hen) at 1.
      apply Forall2_insert; [apply Same | split_and!; reflexivity].
    + rewrite list_lookup_insert_ne by congruence. eauto.
  - rewrite (first_match_None _ _ J). exists hc. split_and!; auto using same_config_refl. intros i c Hi. eauto.
Qed.

Lemma answer_eq inc hc : hc_ok hc -> answer inc hc = Some (default no_metrics (lite <$> recall inc hc)).
Proof. intros Hok. unfold answer. destruct (get_eq inc hc Hok) as (hc' & -> & _). reflexivity. Qed.

Lemma recall_set_row inc hc n b h :
  hashbase hc !! n = Some h -> recall inc (set_row n b hc) = if decide (hc_hash hc inc = Z.of_nat n) then first_match inc b else recall inc hc.
Proof.
  intros Hn. unfold recall. rewrite <- (same_config_hash _ _ inc (same_config_set_row n b hc)).
  unfold row. rewrite hashbase_set_row. case_decide as D.
  - rewrite D, Nat2Z.id. destruct (Z.ltb_spec (Z.of_nat n) 0); [lia|].
    rewrite list_lookup_insert_eq by (eapply lookup_lt_Some; eassumption). reflexivity.
  - destruct (Z.ltb_spec (hc_hash hc inc) 0); [reflexivity|]. rewrite list_lookup_insert_ne by lia. reflexivity.
Qed.

Lemma fill_cases hc b s b' : fill hc b = Some (s, b') ->
  (forall inc, recall inc s = recall inc hc) /\ hashbase s = hashbase hc /\ (forall inc, hc_hash s inc = hc_hash hc inc) /\
  ((full hc b = false /\ b' = b) \/ (full hc b = true /\ b <> [] /\ b' = removelast b)).
Proof.
  unfold fill. destruct (full hc b).
  - case_bool_decide; [discriminate|]. intros [= <- <-]. split_and!; auto.
  - destruct (default true _); [|discriminate]. intros [= <- <-]. split_and!; auto.
Qed.

Lemma recall_no_fill inc hc b : recall inc (no_fill hc b) = recall inc hc.
Proof. unfold no_fill. destruct (full hc b); reflexivity. Qed.

Section Remembers.
Context (g : hostcache -> hc_metrics -> hc_metrics) (learned : hc_metrics_lite -> hc_metrics_lite).
Context (Hg : keeps_host g) (Hl : forall s en, lite (g s en) = learned (lite en)).

Lemma matches_keeps inc s en : matches inc (g s en) = matches inc en.
Proof using Hg. unfold matches. destruct (Hg s en) as [-> ->]. reflexivity. Qed.

Lemma matches_self inc en : stored inc en -> matches inc en = true.
Proof using. unfold stored, matches. destruct (inc_isipv6 inc); intros [S1 S2]; [apply bool_decide_eq_true | apply Z.eqb_eq]; auto. Qed.

(** The first of the row is the host's own, and not the other's. *)
Lemma first_of_other inc other s en b i :
  hc_ok s -> valid_inc other -> valid_inc inc -> ~ same_host inc other -> home s i en -> matches inc en = true ->
  first_match other (g s en :: b) = first_match other b.
Proof using Hg.
  intros Hs Vo V Ns (inc0 & V0 & S0 & _) M. rewrite first_match_cons, matches_keeps.
  destruct (matches other en) eqn:Mo; [|reflexivity]. exfalso. apply Ns.
  apply (matches_stored inc en inc0) in M; auto. apply (matches_stored other en inc0) in Mo; auto.
  destruct M as [M1 M2], Mo as [N1 N2]. split; [congruence|]. rewrite M1, N1 in *. destruct (inc_isipv6 inc0); congruence.
Qed.

Lemma other_than_new inc other s :
  valid_inc other -> valid_inc inc -> ~ same_host inc other -> matches other (new_entry s inc) = false.
Proof using.
  intros Vo V Ns. destruct (matches other (new_entry s inc)) eqn:Mo; [|reflexivity]. exfalso. apply Ns.
  apply (matches_stored other _ inc) in Mo; auto using stored_new.
  destruct Mo as [N1 N2]. split; [congruence|]. rewrite N1 in N2. destruct (inc_isipv6 inc); congruence.
Qed.

Lemma first_match_removelast other b :
  b <> [] -> first_match other (removelast b) = first_match other b \/
             (first_match other (removelast b) = None /\ first_match other b = last b).
Proof using.
  intros Hb. destruct (last_snoc_or_nil b) as [->|(l & x & ->)]; [contradiction|].
  rewrite removelast_last, first_match_app, last_snoc, first_match_cons.
  destruct (first_match other l); [left; reflexivity|].
  destruct (matches other x); [right; auto | left; reflexivity].
Qed.

(** The outcome of an update, [hc'], in terms of what was known before. *)
Definition remembered (inc : in_conninfo) (hc hc' : hostcache) : Prop :=
  exists old, answer inc hc = Some old /\
  (answer inc hc' = Some (learned old) \/ (refused hc inc /\ old = no_metrics /\ answer inc hc' = Some no_metrics)) /\
  (forall other, valid_inc other -> ~ same_host inc other ->
     answer other hc' = answer other hc \/ (evicted hc inc other /\ answer other hc' = Some no_metrics)).

Lemma remembered_hit inc hc n b j en :
  hc_ok hc -> valid_inc inc -> hc_hash hc inc = Z.of_nat n -> hashbase hc !! n = Some (head_of b) ->
  find_index (matches inc) b = Some j -> b !! j = Some en -> hc_ok (set_row n (g hc en :: delete j b) hc) ->
  remembered inc hc (set_row n (g hc en :: delete j b) hc).
Proof using Hg Hl.
  intros Hok V Hh Hn J Hen Hok'. destruct (first_match_index _ _ _ J) as (en' & Hen' & M & F).
  assert (en' = en) as -> by congruence. pose proof (recall_row _ _ _ _ Hh Hn) as Rc. rewrite F in Rc.
  exists (lite en). rewrite !(answer_eq inc) by assumption. rewrite Rc. split_and!; [reflexivity | left |].
  - rewrite (recall_set_row _ _ _ _ _ Hn), decide_True by exact Hh. rewrite first_match_cons, matches_keeps, M.
    cbn. rewrite Hl. reflexivity.
  - intros other Vo Ns. left. rewrite !answer_eq by assumption. do 3 f_equal. rewrite (recall_set_row _ _ _ _ _ Hn).
    case_decide as D; [|reflexivity]. rewrite (recall_row _ _ _ _ D Hn).
    assert (H : home hc n en) by exact (Forall_lookup_1 _ _ _ _ (proj2 (proj2 (ok_row hc Hok _ _ Hn))) Hen).
    rewrite (first_of_other inc other hc en _ n) by auto.
    apply (first_match_delete other b j en Hen).
    pose proof (first_of_other inc other hc en [] n Hok Vo V Ns H M) as T. rewrite first_match_cons, matches_keeps in T.
    destruct (matches other en); [discriminate | reflexivity].
Qed.

Lemma remembered_new inc hc n b s b' t :
  hc_ok hc -> valid_inc inc -> hc_hash hc inc = Z.of_nat n -> hashbase hc !! n = Some (head_of b) ->
  first_match inc b = None -> fill hc b = Some (s, b') -> hc_ok (set_row n (g t (new_entry hc inc) :: b') s) ->
  remembered inc hc (set_row n (g t (new_entry hc inc) :: b') s).
Proof using Hg Hl.
  intros Hok V Hh Hn F Fi Hok'. pose proof (recall_row _ _ _ _ Hh Hn) as Rc. rewrite F in Rc.
  destruct (fill_cases _ _ _ _ Fi) as (Hs1 & Hs2 & Hs3 & Hs4). rewrite <- Hs2 in Hn.
  exists no_metrics. rewrite !(answer_eq inc) by assumption. rewrite Rc. split_and!; [reflexivity | left |].
  - rewrite (recall_set_row _ _ _ _ _ Hn), Hs3, decide_True by exact Hh.
    rewrite first_match_cons, matches_keeps, (matches_self inc) by apply stored_new. cbn. rewrite Hl. reflexivity.
  - intros other Vo Ns. unfold evicted. rewrite !answer_eq, Rc by assumption. rewrite (recall_set_row _ _ _ _ _ Hn), Hs3, Hs1.
    case_decide as D; [|left; reflexivity].
    rewrite first_match_cons, matches_keeps, (other_than_new inc other) by assumption.
    rewrite Hs2 in Hn. rewrite (bucket_row hc inc n b Hh Hn), (recall_row _ _ _ _ D Hn).
    destruct Hs4 as [[_ ->]|(Hf & Hb & ->)]; [left; reflexivity|].
    destruct (first_match_removelast other b Hb) as [-> | [-> E]]; [left; reflexivity | right].
    split_and!; [reflexivity | exact Hf | congruence | congruence | reflexivity].
Qed.

Lemma update_remembers inc hc : hc_ok hc -> valid_inc inc ->
  exists hc', update_with g id inc hc = Some hc' /\ remembered inc hc hc'.
Proof using Hg Hl.
  intros Hok V. destruct (update_with_ok g id inc hc Hg Hok Hok V) as (hc' & E & Hok').
  exists hc'. split; [exact E|]. destruct (row_of hc inc Hok) as (n & b & Hh & Hn & R).
  destruct (find_index (matches inc) b) as [j|] eqn:J.
  - destruct (first_match_index _ _ _ J) as (en & Hen & _).
    rewrite (update_hit _ _ _ _ _ _ _ _ Hok Hh Hn J Hen) in E. injection E as <-. apply remembered_hit; assumption.
  - destruct (update_miss g id inc hc n b hc Hok Hh Hn J eq_refl Hok V) as (n' & b' & Hh' & Hn' & E').
    assert (n' = n) as -> by lia. rewrite Hn in Hn'. injection Hn' as <-.
    rewrite E in E'. injection E' as ->. cbv zeta in *. apply first_match_None in J.
    destruct (fill hc b) as [[s b'']|] eqn:F; [rewrite set_row_twice in *; apply (remembered_new inc hc n b); assumption|].
    exists no_metrics. rewrite !(answer_eq inc) by assumption. rewrite recall_no_fill, (recall_row _ _ _ _ Hh Hn), J.
    split_and!; [reflexivity | right | intros; left].
    + unfold refused. rewrite (bucket_row _ _ _ _ Hh Hn). auto.
    + rewrite !answer_eq, recall_no_fill by assumption. reflexivity.
Qed.
End Remembers.

(** ** The life of the table *)

(** The calls of the rest of the stack and of the sysctl tree; [Allocs]: what the zone will answer. *)
Inductive call :=
| Get (inc : in_conninfo)
| Getmtu (inc : in_conninfo)
| Updatemtu (inc : in_conninfo) (mtu : Z)
| Update (inc : in_conninfo) (m : hc_metrics_lite)
| Purge
| Set_purge (all : bool)
| Set_expire (t : Z)
| Set_prune (t : Z)
| Allocs (l : list bool).

Definition run (hz : Z) (c : call) (window : hostcache -> hostcache) (hc : hostcache) : option hostcache :=
  match c with
  | Get inc => fst <$> tcp_hc_get inc hc
  | Getmtu inc => fst <$> tcp_hc_getmtu inc hc
  | Updatemtu inc mtu => tcp_hc_updatemtu window inc mtu hc
  | Update inc m => tcp_hc_update window inc m hc
  | Purge => fst <$> tcp_hc_purge hz hc
  | Set_purge all => Some (hc <| purgeall := all |>)
  | Set_expire t => Some (hc <| hc_expire := t |>)
  | Set_prune t => Some (hc <| hc_prune := t |>)
  | Allocs l => Some (hc <| zallocs := l |>)
  end.

Definition call_ok (c : call) : Prop :=
  match c with Get inc | Getmtu inc | Updatemtu inc _ | Update inc _ => valid_inc inc | _ => True end.
(** What other threads do keeps the table what it is. *)
Definition rely (window : hostcache -> hostcache) : Prop := forall s, hc_ok s -> hc_ok (window s).

Definition run_all (hz : Z) (cs : list (call * (hostcache -> hostcache))) (hc : hostcache) : option hostcache :=
  foldl (fun r cw => hc ← r; run hz (fst cw) (snd cw) hc) (Some hc) cs.

Definition tunable_ok (x : option Z) : Prop := forall v, x = Some v -> 0 <= v < 2 ^ 32.

Lemma powerof2_pow x : 0 < x < 2 ^ 32 -> powerof2 x = true -> exists k, 0 <= k < 32 /\ x = 2 ^ k.
Proof.
  unfold powerof2. intros Hx P. apply Z.eqb_eq in P. rewrite u32_small in P by lia.
  pose proof (Z.log2_spec x ltac:(lia)) as [L1 L2]. pose proof (Z.log2_nonneg x) as L0.
  exists (Z.log2 x). split; [split; [exact L0 | apply Z.log2_lt_pow2; lia]|].
  destruct (Z.eq_dec x (2 ^ Z.log2 x)) as [|Hne]; [assumption|]. exfalso.
  assert (Lm : Z.log2 (x - 1) = Z.log2 x) by (apply Z.log2_unique; lia).
  assert (B : Z.testbit (Z.land (x - 1) x) (Z.log2 x) = true).
  { rewrite Z.land_spec. rewrite <- Lm at 1. rewrite !Z.bit_log2; [reflexivity | lia |].
    destruct (Z.eq_dec (x - 1) 0); [|lia]. assert (x = 1) by lia. subst x. cbn in Hne. lia. }
  rewrite P, Z.bits_0 in B. discriminate.
Qed.

Lemma concat_replicate_nil {A B} (h : A) (f : A -> list B) k : f h = [] -> concat (f <$> replicate k h) = [].
Proof. intros E. induction k as [|k IH]; [reflexivity|]. cbn. rewrite E. exact IH. Qed.

Lemma init_ok ts tc tb : tunable_ok ts -> ts <> Some 0 -> tunable_ok tc -> tunable_ok tb -> hc_ok (tcp_hc_init ts tc tb).
Proof.
  intros T1 T0 T2 T3. unfold tcp_hc_init. cbv zeta. set (size := if negb _ then _ else _).
  assert (S : exists k, 0 <= k < 32 /\ size = 2 ^ k).
  { unfold size. destruct (powerof2 (default TCP_HOSTCACHE_HASHSIZE ts)) eqn:P; cbn [negb].
    - destruct ts as [v|]; [|exists 9; split; [lia | reflexivity]]. apply powerof2_pow; [|exact P].
      specialize (T1 v eq_refl). cbn. assert (v <> 0) by congruence. lia.
    - exists 9; split; [lia | reflexivity]. }
  clearbody size. destruct S as (k & Hk & ->).
  assert (P : 0 < 2 ^ k < 2 ^ 32) by (split; [apply Z.pow_pos_nonneg; lia | apply Z.pow_lt_mono_r; lia]).
  split; cbn [hashsize hashmask hashbase bucket_limit cache_count cache_limit].
  - eauto.
  - apply u32_small. lia.
  - rewrite length_replicate. lia.
  - intros i h Hi. apply lookup_replicate in Hi as [-> _]. split_and!; [reflexivity | | constructor].
    cbn. destruct tb as [v|]; cbn; [apply (T3 v eq_refl) | unfold TCP_HOSTCACHE_BUCKETLIMIT; lia].
  - unfold entries. cbn [hashbase]. rewrite concat_replicate_nil by reflexivity. reflexivity.
  - destruct tc as [v|]; cbn; [apply (T2 v eq_refl) | unfold TCP_HOSTCACHE_HASHSIZE, TCP_HOSTCACHE_BUCKETLIMIT; lia].
Qed.

Lemma getmtu_get inc hc : tcp_hc_getmtu inc hc = (fun r => (fst r, l_mtu (snd r))) <$> tcp_hc_get inc hc.
Proof.
  unfold tcp_hc_getmtu, tcp_hc_get. destruct (tcp_hc_lookup inc hc) as [[i|]|]; cbn; [|reflexivity..].
  destruct (entry_at hc i); reflexivity.
Qed.

Lemma run_ok hz c window hc : hc_ok hc -> call_ok c -> rely window -> exists hc', run hz c window hc = Some hc' /\ hc_ok hc'.
Proof.
  intros Hok Hc Hw. destruct c; cbn [run call_ok] in *; try rewrite getmtu_get;
    try (destruct (get_eq inc hc Hok) as (hc' & -> & K & _); exists hc'; split; [reflexivity | exact K]);
    try (eexists; split; [reflexivity|]; revert Hok; apply hc_ok_config; [split|..]; reflexivity).
  - rewrite updatemtu_with. apply update_with_ok; auto with uinet.
  - rewrite update_metrics_with. apply update_with_ok; auto with uinet.
  - unfold tcp_hc_purge.
    destruct (purge_internal_ok (purgeall hc) (hc <| purgeall := false |>)) as (hc' & E & P).
    { revert Hok. apply hc_ok_config; [split|..]; reflexivity. }
    rewrite E. eexists; split; [reflexivity | apply P].
Qed.

Lemma run_all_ok hz cs hc :
  hc_ok hc -> Forall (fun cw => call_ok (fst cw) /\ rely (snd cw)) cs -> exists hc', run_all hz cs hc = Some hc' /\ hc_ok hc'.
Proof.
  unfold run_all. revert hc. induction cs as [|[c w] cs IH]; intros hc Hok Hcs; [eauto|].
  apply Forall_cons in Hcs as [[Hc Hw] Hcs]. destruct (run_ok hz c w hc Hok Hc Hw) as (hc1 & E & Hok1).
  cbn. cbn in E. rewrite E. apply IH; assumption.
Qed.

Lemma survivors_all t l : survivors true t l = [].
Proof. unfold survivors. induction l as [|en l IH]; [reflexivity|]. rewrite filter_cons_False; [exact IH|]. intros [C _]. discriminate. Qed.

Lemma destroy_ok hc : hc_ok hc ->
  exists hc', tcp_hc_purge_internal true hc = Some hc' /\ entries hc' = [] /\ cache_count hc' = 0.
Proof.
  intros Hok. destruct (purge_internal_ok true hc Hok) as (hc' & E & [P1 _ _ P4 P5]). exists hc'.
  assert (N : entries hc' = []).
  { unfold entries. apply concat_nil_Forall, Forall_forall. intros b Hb. apply list_elem_of_fmap in Hb as (h & -> & Hh).
    apply list_elem_of_lookup in Hh as [i Hi]. pose proof (lookup_lt_Some _ _ _ Hi) as Hlt. rewrite P4 in Hlt.
    destruct (length_row_ok hc i Hok Hlt) as [b0 Hb0]. rewrite (P5 i b0 Hb0) in Hi. injection Hi as <-.
    rewrite decide_True by (rewrite elem_of_seq; lia). cbn. apply survivors_all. }
  split_and!; auto. rewrite (ok_count hc' P1), N. reflexivity.
Qed.


(** An update is what the next lookup of the host answers: each metric given is averaged with the one known, or
    replaces an unknown one (a path MTU replaces the old one); only if the zone is exhausted, or the cache is full and
    the host's row empty, is it lost.  The answer for any other host is the same as before, unless that host's entry
    was the last of the same, full row, which the new entry took the place of. *)
Theorem tcp_hc_update_remembered hc inc m mtu :
  hc_ok hc -> valid_inc inc ->
  (exists hc', tcp_hc_update id inc m hc = Some hc' /\ remembered (learn m) inc hc hc') /\
  (exists hc', tcp_hc_updatemtu id inc mtu hc = Some hc' /\ remembered (learn_mtu mtu) inc hc hc').
Proof.
  intros Hok V. rewrite updatemtu_with, update_metrics_with.
  split; (apply update_remembers; [auto with uinet | intros; reflexivity | assumption..]).
Qed.

(** A row after [k + 1] purges. *)
Definition aged (t : Z) (k : nat) (l : list hc_metrics) : list hc_metrics :=
  (fun en => en <| rmx_expire := rmx_expire en - (Z.of_nat k + 1) * t |>)
  <$> filter (fun en => Z.of_nat k * t < rmx_expire en) l.

Fixpoint purges (hz : Z) (k : nat) (hc : hostcache) : option hostcache :=
  match k with O => Some hc | S k => hc ← purges hz k hc; fst <$> tcp_hc_purge hz hc end.

Definition expire_ok (en : hc_metrics) : Prop := - 2 ^ 31 <= rmx_expire en < 2 ^ 31.

Lemma survivors_aged0 t l : 0 < t < 2 ^ 31 -> Forall expire_ok l -> survivors false t l = aged t 0 l.
Proof.
  intros Ht. unfold survivors, aged. induction l as [|en l IH]; intros Hl; [reflexivity|].
  apply Forall_cons in Hl as [He Hl]. rewrite !filter_cons. specialize (IH Hl).
  unfold expire_ok, stays in *. repeat case_decide; try lia; [|exact IH].
  rewrite !fmap_cons, IH. f_equal. unfold older. rewrite s32_small by lia. replace ((Z.of_nat 0 + 1) * t) with t by lia. reflexivity.
Qed.

Lemma survivors_aged t k l : 0 < t < 2 ^ 31 -> Forall expire_ok l -> survivors false t (aged t k l) = aged t (S k) l.
Proof.
  intros Ht. unfold survivors, aged. induction l as [|en l IH]; intros Hl; [reflexivity|].
  apply Forall_cons in Hl as [He Hl]. rewrite !filter_cons. specialize (IH Hl). unfold expire_ok in *.
  destruct (decide (Z.of_nat k * t < rmx_expire en)) as [D|D].
  - rewrite fmap_cons, filter_cons. unfold stays at 1. cbn [rmx_expire update eta eta_hc_metrics].
    repeat case_decide; try lia; [|exact IH]. rewrite !fmap_cons, IH. f_equal.
    unfold older. cbn [rmx_expire update eta eta_hc_metrics]. rewrite s32_small by nia.
    replace (rmx_expire en - (Z.of_nat k + 1) * t - t) with (rmx_expire en - (Z.of_nat (S k) + 1) * t) by lia. reflexivity.
  - rewrite decide_False by nia. exact IH.
Qed.

Lemma purge_step hz hc : hc_ok hc -> purgeall hc = false ->
  exists hc', fst <$> tcp_hc_purge hz hc = Some hc' /\ purged false (seq 0 (length (hashbase hc))) hc hc'.
Proof.
  intros Hok Ha. unfold tcp_hc_purge. rewrite Ha.
  assert (E : hc <| purgeall := false |> = hc) by (destruct hc; cbn in *; subst; reflexivity). rewrite E.
  destruct (purge_internal_ok false hc Hok) as (hc' & -> & P). exists hc'. auto.
Qed.

(** An entry that is not used is dropped by the first purge that finds its time used up and by no earlier one:
    after k + 1 purges of the table a row holds, in order, exactly the entries whose life was more than k times the
    purge interval (with the defaults, those of 3600 s live through twelve purges of 300 s). *)
Theorem tcp_hc_purge_ages hz hc k i b :
  hc_ok hc -> purgeall hc = false -> 0 < hc_prune hc < 2 ^ 31 -> hashbase hc !! i = Some (head_of b) -> Forall expire_ok b ->
  exists hc', purges hz (S k) hc = Some hc' /\ hc_ok hc' /\ hashbase hc' !! i = Some (head_of (aged (hc_prune hc) k b)).
Proof.
  intros Hok Ha Hp Hi Hb.
  assert (G : exists hc', purges hz (S k) hc = Some hc' /\ hc_ok hc' /\ purgeall hc' = false /\ hc_prune hc' = hc_prune hc /\
    hashbase hc' !! i = Some (head_of (aged (hc_prune hc) k b))).
  2: { destruct G as (hc' & G1 & G2 & _ & _ & G3). eauto. }
  induction k as [|k (hc1 & E1 & K1 & A1 & P1 & R1)].
  - destruct (purge_step hz hc Hok Ha) as (hc' & E & [Q1 _ (_ & Q2 & Q3) _ Q5]). exists hc'. cbn [purges mbind option_bind].
    rewrite E. split_and!; auto; [congruence|]. rewrite (Q5 i b Hi), survivors_aged0 by assumption.
    rewrite decide_True; [reflexivity|]. apply lookup_lt_Some in Hi. rewrite elem_of_seq. lia.
  - destruct (purge_step hz hc1 K1 A1) as (hc' & E & [Q1 _ (_ & Q2 & Q3) _ Q5]). exists hc'.
    change (purges hz (S (S k)) hc) with (hc ← purges hz (S k) hc; fst <$> tcp_hc_purge hz hc). rewrite E1. cbn [mbind option_bind].
    rewrite E. split_and!; auto; [congruence..|]. rewrite (Q5 i _ R1), P1, survivors_aged by assumption.
    rewrite decide_True; [reflexivity|]. apply lookup_lt_Some in R1. rewrite elem_of_seq. lia.
Qed.

(** ** From one connection to the next *)

Definition sizeof_tcpiphdr := 40.

(** The threshold in packets, at least two, then in bytes with their headers; 0 unless a loss set it. *)
Definition saved_ssthresh (sb_hiwat : Z) (tp : CC.tcpcb) : Z :=
  let ssthresh := CC.snd_ssthresh tp in
  if negb (ssthresh =? 0) && (ssthresh <? sb_hiwat / 2) then
    let ssthresh := u64 (ssthresh + CC.t_maxseg tp / 2) / CC.t_maxseg tp in
    u64 ((if ssthresh <? 2 then 2 else ssthresh) * (CC.t_maxseg tp + sizeof_tcpiphdr))
  else 0.

(** What [tcp_discardcb] saves of a connection. *)
Definition saved_metrics (sb_hiwat : Z) (tp : CC.tcpcb) : hc_metrics_lite :=
  mk_lite 0 (saved_ssthresh sb_hiwat tp) (u64 (CC.t_srtt tp)) (u64 (CC.t_rttvar tp)) 0 (CC.snd_cwnd tp) 0 0.
Definition discard_metrics (window : hostcache -> hostcache) (inc : in_conninfo) (sb_hiwat : Z) (tp : CC.tcpcb) (hc : hostcache)
    : option hostcache :=
  if 4 <=? CC.t_rttupdated tp then tcp_hc_update window inc (saved_metrics sb_hiwat tp) hc else Some hc.

(** What [cc_conn_init] reads. *)
Definition conn_metrics (m : hc_metrics_lite) : CC.hc_metrics_lite := CC.mk_metrics (l_rtt m) (l_rttvar m) (l_ssthresh m).

Lemma blend_mean old new : 0 <= old < 2 ^ 31 -> 0 < new < 2 ^ 31 ->
  blend old new = (if old =? 0 then new else (old + new) / 2) /\ 0 < blend old new < 2 ^ 31.
Proof.
  intros Ho Hn. unfold blend. destruct (Z.eqb_spec new 0); [lia|]. destruct (Z.eqb_spec old 0); [auto|].
  unfold u64. rewrite Z.mod_small by lia. split; [reflexivity|]. Z.div_mod_to_equations. lia.
Qed.

Lemma conn_init_rtt_takes e m fresh :
  CC.t_srtt fresh = 0 -> 0 < l_rtt m < 2 ^ 31 -> 0 < l_rttvar m < 2 ^ 31 ->
  CC.t_srtt (CC.conn_init_rtt e (conn_metrics m) fresh) = l_rtt m /\
  CC.t_rttvar (CC.conn_init_rtt e (conn_metrics m) fresh) = l_rttvar m.
Proof.
  intros F R V. unfold CC.conn_init_rtt. cbn [CC.rmx_rtt CC.rmx_rttvar conn_metrics].
  rewrite F, !s32_small by lia. destruct (Z.eqb_spec (l_rtt m) 0); [lia|]. destruct (Z.eqb_spec (l_rttvar m) 0); [lia|].
  split; reflexivity.
Qed.

(** What a connection measured is where the next one to the same host starts: after a connection with four
    samples or more is discarded, a new one takes as its round-trip time and variance the mean of what was measured
    and what was known before, or what was measured, if nothing was known; after fewer samples it starts from what
    was known. *)
Theorem metrics_inherited hc inc sb_hiwat tp e a fresh old localaddr :
  hc_ok hc -> valid_inc inc -> ~ refused hc inc -> answer inc hc = Some old ->
  0 < CC.t_srtt tp < 2 ^ 31 -> 0 < CC.t_rttvar tp < 2 ^ 31 -> 0 <= l_rtt old < 2 ^ 31 -> 0 <= l_rttvar old < 2 ^ 31 ->
  CC.t_srtt fresh = 0 -> CC.conn_init a = None ->
  exists hc' m, discard_metrics id inc sb_hiwat tp hc = Some hc' /\ answer inc hc' = Some m /\
  if 4 <=? CC.t_rttupdated tp then
    let fresh' := CC.cc_conn_init e a (conn_metrics m) localaddr fresh in
    CC.t_srtt fresh' = (if l_rtt old =? 0 then CC.t_srtt tp else (l_rtt old + CC.t_srtt tp) / 2) /\
    CC.t_rttvar fresh' = (if l_rttvar old =? 0 then CC.t_rttvar tp else (l_rttvar old + CC.t_rttvar tp) / 2)
  else m = old.
Proof.
  intros Hok V Nr A R1 R2 O1 O2 F Ca. unfold discard_metrics. destruct (4 <=? CC.t_rttupdated tp); [|eauto].
  rewrite update_metrics_with.
  destruct (update_remembers (write_metrics (saved_metrics sb_hiwat tp)) (learn (saved_metrics sb_hiwat tp))
    (keeps_write_metrics _) (fun _ _ => eq_refl) inc hc Hok V) as (hc' & E & old' & A' & L & _).
  rewrite A in A'. injection A' as <-. destruct L as [L|[C _]]; [|contradiction].
  exists hc', (learn (saved_metrics sb_hiwat tp) old). split; [exact E|]. split; [exact L|]. cbv zeta.
  assert (S1 : l_rtt (saved_metrics sb_hiwat tp) = CC.t_srtt tp) by (cbn; unfold u64; apply Z.mod_small; lia).
  assert (S2 : l_rttvar (saved_metrics sb_hiwat tp) = CC.t_rttvar tp) by (cbn; unfold u64; apply Z.mod_small; lia).
  destruct (blend_mean _ _ O1 R1) as [B1 K1]. destruct (blend_mean _ _ O2 R2) as [B2 K2].
  rewrite <- B1, <- B2. unfold CC.cc_conn_init. rewrite Ca. cbn [CC.call_hook].
  destruct (conn_init_rtt_takes e (learn (saved_metrics sb_hiwat tp) old) fresh F) as [T1 T2];
    [cbn [learn l_rtt l_rttvar]; rewrite ?S1, ?S2; assumption..|].
  cbn [learn l_rtt l_rttvar] in T1, T2. rewrite S1 in T1. rewrite S2 in T2. rewrite <- T1, <- T2.
  destruct (negb _); split; reflexivity.
Qed.
(** ** Samples *)

Definition host (a : Z) : in_conninfo := mk_inc false a [].
Definition rtt_of (x : Z) : hc_metrics_lite := mk_lite 0 0 x 0 0 0 0 0.

(** Another thread that updates. *)
Definition racing (inc : in_conninfo) (m : hc_metrics_lite) (s : hostcache) : hostcache := default s (tcp_hc_update id inc m s).

Lemma rely_racing inc m : valid_inc inc -> rely (racing inc m).
Proof.
  intros V s Hs. unfold racing. rewrite update_metrics_with.
  destruct (update_with_ok (write_metrics m) id inc s) as (s' & -> & K); auto with uinet.
Qed.
Lemma rely_id : rely id.
Proof. intros s H. exact H. Qed.

(** A table of two rows of two. *)
Definition small_hc : hostcache := tcp_hc_init (Some 2) (Some 3) (Some 2).
Lemma small_hc_ok : hc_ok small_hc.
Proof. apply init_ok; [intros v [= <-]; lia | congruence | intros v [= <-]; lia..]. Qed.

Definition sample_calls : list (call * (hostcache -> hostcache)) :=
  [(Update (host 2) (rtt_of 100), id); (Updatemtu (host 3) 1500, racing (host 4) (rtt_of 7)); (Purge, id); (Getmtu (host 3), id)].

Lemma sample_calls_ok : Forall (fun cw => call_ok (fst cw) /\ rely (snd cw)) sample_calls.
Proof.
  unfold sample_calls. rewrite !Forall_cons. cbn [fst snd call_ok].
  split_and!; try exact rely_id; try exact I; try (unfold valid_inc; cbn; lia); [|constructor].
  apply rely_racing. unfold valid_inc. cbn. lia.
Qed.


Lemma tcp_hc_update_remembered_witness :
  (exists hc', tcp_hc_update id (host 2) (rtt_of 100) small_hc = Some hc' /\ remembered (learn (rtt_of 100)) (host 2) small_hc hc') /\
  (exists hc', tcp_hc_updatemtu id (host 2) 576 small_hc = Some hc' /\ remembered (learn_mtu 576) (host 2) small_hc hc').
Proof.
  apply (tcp_hc_update_remembered small_hc (host 2) (rtt_of 100) 576); [exact small_hc_ok | unfold valid_inc; cbn; lia].
Defined.

(** Row 0 of the small table with one host in it. *)
Definition one_host : hostcache := default small_hc (tcp_hc_update id (host 2) (rtt_of 100) small_hc).
Lemma one_host_ok : hc_ok one_host.
Proof. apply rely_racing; [unfold valid_inc; cbn; lia | exact small_hc_ok]. Qed.
Definition one_row : list hc_metrics := [mk_entry 2 [0; 0; 0; 0] 0 0 100 0 0 0 0 0 3600 0 1].

Lemma tcp_hc_purge_ages_witness :
  exists hc', purges 100 (S 11) one_host = Some hc' /\ hc_ok hc' /\ hashbase hc' !! 0%nat = Some (head_of (aged 300 11 one_row)).
Proof.
  apply (tcp_hc_purge_ages 100 one_host 11 0 one_row);
    [exact one_host_ok | reflexivity | change (0 < 300 < 2 ^ 31); lia | vm_compute; reflexivity |].
  repeat constructor; cbn; lia.
Defined.

(** A connection that measured 300 and 40, and one that has not measured anything. *)
Definition measured : CC.tcpcb := (CC.sample_conn 0 1000 2000) <| CC.t_srtt := 300 |> <| CC.t_rttvar := 40 |> <| CC.t_rttupdated := 4 |>.
Definition unmeasured : CC.tcpcb := (CC.sample_conn 0 1000 2000) <| CC.t_srtt := 0 |>.

Lemma metrics_inherited_witness :
  exists hc' m, discard_metrics id (host 2) 65536 measured one_host = Some hc' /\ answer (host 2) hc' = Some m /\
    let fresh' := CC.cc_conn_init CC.sample_ccenv (CC.newreno_cc_algo CC.sample_ccenv) (conn_metrics m) false unmeasured in
    CC.t_srtt fresh' = 200 /\ CC.t_rttvar fresh' = 40.
Proof.
  apply (metrics_inherited one_host (host 2) 65536 measured CC.sample_ccenv (CC.newreno_cc_algo CC.sample_ccenv) unmeasured
    (mk_lite 0 0 100 0 0 0 0 0) false);
    [exact one_host_ok | unfold valid_inc; cbn; lia | intros C; vm_compute in C; discriminate | vm_compute; reflexivity
    | cbn; lia.. | reflexivity | reflexivity].
Defined.

Example purges_twelve_and_thirteen : length (aged 300 11 one_row) = 1%nat /\ aged 300 12 one_row = [].
Proof. vm_compute. split; reflexivity. Qed.

(** A table size of 0 passes the test for a power of two: the mask is all ones and the first lookup leaves the table. *)
Example hashsize_zero_faults : tcp_hc_lookup (host 16909060) (tcp_hc_init (Some 0) None None) = None.
Proof. vm_compute. reflexivity. Qed.

(** Two threads that miss the same host both insert it: the row holds the host twice. *)
Example two_threads_insert_twice :
  option_map (fun hc => map ip4 (entries hc)) (tcp_hc_update (racing (host 2) (rtt_of 7)) (host 2) (rtt_of 100) small_hc)
  = Some [2; 2].
Proof. vm_compute. reflexivity. Qed.

(** Host 8 is read twice and host 14 never, but host 8 was updated first: its entry is the one reused. *)
Example least_recently_updated_goes :
  option_map (fun hc => map (fun en => (ip4 en, rmx_hits en)) (entries hc))
    (run_all 100 [(Update (host 8) (rtt_of 7), id); (Update (host 14) (rtt_of 7), id); (Get (host 8), id); (Get (host 8), id);
                  (Update (host 2) (rtt_of 7), id)] small_hc)
  = Some [(2, 0); (14, 0)].
Proof. vm_compute. reflexivity. Qed.
End Hostcache.
