(* ===== verification/SockLife.v ===== *)
(** * The life of sockets and control blocks

    Who owns whom from socket() to the last close, and through TIME_WAIT:
    sys/kern/uipc_socket.c (sockets, their references and listen queues),
    sys/netinet/in_pcb.c (struct inpcb), sys/netinet/tcp_usrreq.c and tcp_subr.c
    (struct tcpcb), sys/netinet/tcp_timewait.c (struct tcptw, the 2MSL queue),
    sys/netinet/in_passive.c (pairs of passive sockets), the sockets the syncache
    makes, and [uinet_soaccept] of lib/libuinet/uinet_api.c.

    Every object has an address in a store of its kind.  An operation is a
    computation that fails on a NULL pointer, an address that was freed, a PCB
    taken for one of the other kind, or, in a kernel built with INVARIANTS, a
    KASSERT.  Addresses are not used again, so that a stale pointer is always
    seen.  A flag word is a boolean per flag.  Locks are not modelled here: each
    definition is what is done between taking the pcbinfo or accept lock and
    giving it back, and the sections other threads can come between are kept
    apart.  Left out are the contents of socket buffers, wakeups, credentials,
    timers and the segments tcp_output sends. *)

From stdpp Require Import gmap.
From S2P Require Import Prelude TcpSeq.

Module Life.

(** ** Objects *)

Record socket := mk_socket {
  so_count : Z;
  so_acceptconn : bool;
  so_passive : bool;
  so_passiveclnt : bool;
  so_linger : option Z;
  ss_nofdref : bool;
  ss_protoref : bool;
  ss_isconnected : bool;
  ss_isconnecting : bool;
  ss_isdisconnecting : bool;
  ss_isdisconnected : bool;
  ss_nbio : bool;
  sq_incomp : bool;
  sq_comp : bool;
  so_head : option nat;
  so_incomp : list nat;
  so_comp : list nat;
  so_incqlen : Z;
  so_qlen : Z;
  so_qlimit : Z;
  so_error : Z;
  so_pcb : option nat;
  so_passive_peer : option nat }.

#[export] Instance eta_socket : Eta socket := fun r =>
  mk_socket (so_count r) (so_acceptconn r) (so_passive r) (so_passiveclnt r) (so_linger r) (ss_nofdref r) (ss_protoref r)
    (ss_isconnected r) (ss_isconnecting r) (ss_isdisconnecting r) (ss_isdisconnected r) (ss_nbio r) (sq_incomp r)
    (sq_comp r) (so_head r) (so_incomp r) (so_comp r) (so_incqlen r) (so_qlen r) (so_qlimit r) (so_error r) (so_pcb r)
    (so_passive_peer r).

(** What [inp_ppcb] points to. *)
Inductive pcb := Tcpcb (t : nat) | Tcptw (t : nat).
#[export] Instance pcb_eq_dec : EqDecision pcb.
Proof. solve_decision. Defined.

(** [inp_listed]: on the list of the pcbinfo. *)
Record inpcb := mk_inpcb {
  inp_socket : option nat;
  inp_ppcb : option pcb;
  inp_timewait : bool;
  inp_dropped : bool;
  inp_sockref : bool;
  inp_passive : bool;
  inp_refcount : Z;
  inp_listed : bool }.

#[export] Instance eta_inpcb : Eta inpcb := fun r =>
  mk_inpcb (inp_socket r) (inp_ppcb r) (inp_timewait r) (inp_dropped r) (inp_sockref r) (inp_passive r) (inp_refcount r)
    (inp_listed r).

Record tcpcb := mk_tcpcb {
  t_inpcb : option nat;
  t_state : Z;
  tf_needfin : bool;
  tf_acknow : bool;
  tf_req_tstmp : bool;
  tf_rcvd_tstmp : bool;
  tf_noopt : bool;
  snd_una : Z;
  snd_nxt : Z;
  snd_max : Z;
  rcv_nxt : Z;
  rcv_adv : Z;
  rcv_scale : Z;
  ts_recent : Z;
  ts_offset : Z }.

#[export] Instance eta_tcpcb : Eta tcpcb := fun r =>
  mk_tcpcb (t_inpcb r) (t_state r) (tf_needfin r) (tf_acknow r) (tf_req_tstmp r) (tf_rcvd_tstmp r) (tf_noopt r) (snd_una r)
    (snd_nxt r) (snd_max r) (rcv_nxt r) (rcv_adv r) (rcv_scale r) (ts_recent r) (ts_offset r).

Record tcptw := mk_tcptw {
  tw_inpcb : option nat;
  tw_snd_nxt : Z;
  tw_rcv_nxt : Z;
  tw_last_win : Z;
  tw_t_recent : Z;
  tw_ts_offset : Z;
  tw_time : Z }.

#[export] Instance eta_tcptw : Eta tcptw := fun r =>
  mk_tcptw (tw_inpcb r) (tw_snd_nxt r) (tw_rcv_nxt r) (tw_last_win r) (tw_t_recent r) (tw_ts_offset r) (tw_time r).

(** A segment of [tcp_twrespond]: sequence number, acknowledgement, flags, window, timestamp option. *)
Definition response : Type := Z * Z * Z * Z * option (Z * Z).

(** [zallocs]: whether the allocations to come succeed; [next]: an address that was never used;
    [ts_ticks]: the clock of timestamps, in milliseconds. *)
Record world := mk_world {
  socks : gmap nat socket;
  inps : gmap nat inpcb;
  tcbs : gmap nat tcpcb;
  tws : gmap nat tcptw;
  twq_2msl : list nat;
  next : nat;
  zallocs : list bool;
  ticks : Z;
  ts_ticks : Z;
  tcp_msl : Z;
  somaxconn : Z;
  nolocaltimewait : bool;
  INVARIANTS : bool;
  sent : list response }.

#[export] Instance eta_world : Eta world := fun r =>
  mk_world (socks r) (inps r) (tcbs r) (tws r) (twq_2msl r) (next r) (zallocs r) (ticks r) (ts_ticks r) (tcp_msl r) (somaxconn r)
    (nolocaltimewait r) (INVARIANTS r) (sent r).

(** ** Computations *)

Definition M (A : Type) : Type := world -> option (A * world).

#[export] Instance M_ret : MRet M := fun A x w => Some (x, w).
#[export] Instance M_bind : MBind M := fun A B f m w =>
  match m w with Some (x, w) => f x w | None => None end.

Definition fault {A} : M A := fun _ => None.
Definition deref {A} (p : option A) : M A := match p with Some a => mret a | None => fault end.
Definition when (b : bool) (m : M unit) : M unit := if b then m else mret tt.
Definition KASSERT (b : bool) : M unit := fun w => if INVARIANTS w && negb b then None else Some (tt, w).
Definition is_null {A} (p : option A) : bool := match p with None => true | Some _ => false end.

Definition get : M world := fun w => Some (w, w).
Definition modify (f : world -> world) : M unit := fun w => Some (tt, f w).

Definition get_so (a : nat) : M socket := fun w => match socks w !! a with Some x => Some (x, w) | None => None end.
Definition get_inp (a : nat) : M inpcb := fun w => match inps w !! a with Some x => Some (x, w) | None => None end.
Definition get_tp (a : nat) : M tcpcb := fun w => match tcbs w !! a with Some x => Some (x, w) | None => None end.
Definition get_tw (a : nat) : M tcptw := fun w => match tws w !! a with Some x => Some (x, w) | None => None end.

Definition set_so (a : nat) (f : socket -> socket) : M unit :=
  x ← get_so a; modify (fun w => w <| socks := <[a := f x]> (socks w) |>).
Definition set_inp (a : nat) (f : inpcb -> inpcb) : M unit :=
  x ← get_inp a; modify (fun w => w <| inps := <[a := f x]> (inps w) |>).
Definition set_tp (a : nat) (f : tcpcb -> tcpcb) : M unit :=
  x ← get_tp a; modify (fun w => w <| tcbs := <[a := f x]> (tcbs w) |>).
Definition set_tw (a : nat) (f : tcptw -> tcptw) : M unit :=
  x ← get_tw a; modify (fun w => w <| tws := <[a := f x]> (tws w) |>).

(** [uma_zfree]: freeing what is not allocated is a fault. *)
Definition free_so (a : nat) : M unit := get_so a;; modify (fun w => w <| socks := delete a (socks w) |>).
Definition free_inp (a : nat) : M unit := get_inp a;; modify (fun w => w <| inps := delete a (inps w) |>).
Definition free_tp (a : nat) : M unit := get_tp a;; modify (fun w => w <| tcbs := delete a (tcbs w) |>).
Definition free_tw (a : nat) : M unit := get_tw a;; modify (fun w => w <| tws := delete a (tws w) |>).

(** Whether an allocation succeeds, and its address. *)
Definition zalloc : M bool := fun w => Some (default true (List.head (zallocs w)), w <| zallocs := tail (zallocs w) |>).
Definition new_address : M nat := fun w => Some (next w, w <| next := S (next w) |>).

Definition intotcpcb (inp : inpcb) : M (option nat) :=
  match inp_ppcb inp with
  | None => mret None
  | Some (Tcpcb t) => mret (Some t)
  | Some (Tcptw _) => fault
  end.
Definition intotw (inp : inpcb) : M (option nat) :=
  match inp_ppcb inp with
  | None => mret None
  | Some (Tcptw t) => mret (Some t)
  | Some (Tcpcb _) => fault
  end.

(** ** Protocol control blocks, in_pcb.c *)

(** [INP_PASSIVE] is set by [in_passive_inpcb_init]; [in_promisc_inpcb_init] may run out of memory. *)
Definition in_pcballoc (a : nat) : M bool :=
  ok ← zalloc;
  if negb ok then mret false
  else
    i ← new_address;
    so ← get_so a;
    modify (fun w => w <| inps := <[i := mk_inpcb (Some a) None false false false (so_passive so) 0 false]> (inps w) |>);;
    ok ← zalloc;
    if negb ok then free_inp i;; mret false
    else
      set_inp i (fun inp => inp <| inp_listed := true |>);;
      set_so a (fun so => so <| so_pcb := Some i |>);;
      set_inp i (fun inp => inp <| inp_refcount := 1 |>);;
      mret true.

Definition in_pcbdetach (i : nat) : M unit :=
  inp ← get_inp i;
  KASSERT (negb (is_null (inp_socket inp)));;
  a ← deref (inp_socket inp);
  set_so a (fun so => so <| so_pcb := None |>);;
  set_inp i (fun inp => inp <| inp_socket := None |>).

Definition in_pcbref (i : nat) : M unit :=
  inp ← get_inp i;
  KASSERT (0 <? inp_refcount inp);;
  set_inp i (fun inp => inp <| inp_refcount := u32 (inp_refcount inp + 1) |>).

Definition in_pcbrele_wlocked (i : nat) : M bool :=
  inp ← get_inp i;
  KASSERT (0 <? inp_refcount inp);;
  set_inp i (fun inp => inp <| inp_refcount := u32 (inp_refcount inp - 1) |>);;
  if negb (inp_refcount inp =? 1) then mret false
  else
    KASSERT (is_null (inp_socket inp));;
    free_inp i;;
    mret true.

Definition in_pcbfree (i : nat) : M unit :=
  inp ← get_inp i;
  KASSERT (is_null (inp_socket inp));;
  set_inp i (fun inp => inp <| inp_listed := false |>);;
  in_pcbrele_wlocked i;;
  mret tt.

Definition in_pcbdrop (i : nat) : M unit := set_inp i (fun inp => inp <| inp_dropped := true |>).

(** ** TCP control blocks, tcp_subr.c *)

(** [cb_init] of the congestion control algorithm and [khelp_init_osd] may fail too; [V_tcp_do_rfc1323] is set, as it is
    by default. *)
Definition tcp_newtcpcb (i : nat) : M (option nat) :=
  ok ← zalloc;
  if negb ok then mret None
  else
    t ← new_address;
    modify (fun w => w <| tcbs := <[t := mk_tcpcb None TCPS_CLOSED false false false false false 0 0 0 0 0 0 0 0]> (tcbs w) |>);;
    cb_init ← zalloc;
    if negb cb_init then free_tp t;; mret None
    else
      osd ← zalloc;
      if negb osd then free_tp t;; mret None
      else
        set_tp t (fun tp => tp <| tf_req_tstmp := true |> <| t_inpcb := Some i |>);;
        set_inp i (fun inp => inp <| inp_ppcb := Some (Tcpcb t) |>);;
        mret (Some t).

(** The metrics saved ([so->so_snd.sb_hiwat] is read) are in [HostCache]. *)
Definition tcp_discardcb (t : nat) : M unit :=
  tp ← get_tp t;
  i ← deref (t_inpcb tp);
  inp ← get_inp i;
  a ← deref (inp_socket inp);
  get_so a;;
  set_inp i (fun inp => inp <| inp_ppcb := None |>);;
  set_tp t (fun tp => tp <| t_inpcb := None |>);;
  free_tp t.

(** ** Detaching, tcp_usrreq.c *)

Definition tcp_detach (a i : nat) : M unit :=
  so ← get_so a;
  inp ← get_inp i;
  KASSERT (bool_decide (so_pcb so = Some i));;
  KASSERT (bool_decide (inp_socket inp = Some a));;
  if inp_timewait inp then
    if inp_dropped inp then
      KASSERT (is_null (inp_ppcb inp));;
      in_pcbdetach i;;
      in_pcbfree i
    else in_pcbdetach i
  else
    t ← intotcpcb inp;
    gone ← (if inp_dropped inp then mret true
            else t ← deref t; tp ← get_tp t; mret (t_state tp <? TCPS_SYN_SENT));
    if gone : bool then
      t ← deref t;
      tcp_discardcb t;;
      in_pcbdetach i;;
      in_pcbfree i
    else in_pcbdetach i.

Definition tcp_usr_detach (a : nat) : M unit :=
  so ← get_so a;
  KASSERT (negb (is_null (so_pcb so)));;
  i ← deref (so_pcb so);
  inp ← get_inp i;
  KASSERT (negb (is_null (inp_socket inp)));;
  tcp_detach a i.

(** ** References and queues of sockets, uipc_socket.c *)

Definition soalloc : M (option nat) :=
  ok ← zalloc;
  if negb ok then mret None
  else
    l2info ← zalloc;
    if negb l2info then mret None
    else
      a ← new_address;
      modify (fun w => w <| socks := <[a := mk_socket 0 false false false None false false false false false false false
        false false None [] [] 0 0 0 0 None None]> (socks w) |>);;
      mret (Some a).

Definition sodealloc (a : nat) : M unit :=
  so ← get_so a;
  KASSERT (so_count so =? 0);;
  KASSERT (is_null (so_pcb so));;
  free_so a.

Definition soisconnecting (so : socket) : socket :=
  so <| ss_isconnected := false |> <| ss_isdisconnecting := false |> <| ss_isconnecting := true |>.
Definition soisdisconnecting (so : socket) : socket := so <| ss_isconnecting := false |> <| ss_isdisconnecting := true |>.
Definition soisdisconnected (so : socket) : socket :=
  so <| ss_isconnecting := false |> <| ss_isconnected := false |> <| ss_isdisconnecting := false |> <| ss_isdisconnected := true |>.

Definition remove1 (a : nat) (l : list nat) : list nat := filter (fun b => b <> a) l.

(** [TAILQ_REMOVE] of what is not on the queue is a fault. *)
Definition leave_incomp (h a : nat) : M unit :=
  so ← get_so h;
  if bool_decide (a ∈ so_incomp so)
  then set_so h (fun h => h <| so_incomp := remove1 a (so_incomp h) |> <| so_incqlen := u16 (so_incqlen h - 1) |>)
  else fault.
Definition leave_comp (h a : nat) : M unit :=
  so ← get_so h;
  if bool_decide (a ∈ so_comp so)
  then set_so h (fun h => h <| so_comp := remove1 a (so_comp h) |> <| so_qlen := u16 (so_qlen h - 1) |>)
  else fault.
Definition enter_incomp (a : nat) (h : socket) : socket :=
  h <| so_incomp := so_incomp h ++ [a] |> <| so_incqlen := u16 (so_incqlen h + 1) |>.
Definition enter_comp (a : nat) (h : socket) : socket :=
  h <| so_comp := so_comp h ++ [a] |> <| so_qlen := u16 (so_qlen h + 1) |>.

(** Without an accept filter. *)
Definition soisconnected (a : nat) : M unit :=
  set_so a (fun so => so <| ss_isconnecting := false |> <| ss_isdisconnecting := false |> <| ss_isconnected := true |>);;
  so ← get_so a;
  match so_head so with
  | Some h =>
      if sq_incomp so then
        leave_incomp h a;;
        set_so a (fun so => so <| sq_incomp := false |>);;
        set_so h (enter_comp a);;
        set_so a (fun so => so <| sq_comp := true |>)
      else mret tt
  | None => mret tt
  end.

Definition sohasrefs (so : socket) : bool :=
  negb (ss_nofdref so) || negb (so_count so =? 0) || ss_protoref so || sq_comp so.

Definition sofree_dequeue (a : nat) : M unit :=
  so ← get_so a;
  match so_head so with
  | Some h =>
      KASSERT (sq_comp so || sq_incomp so);;
      KASSERT (negb (sq_comp so) || negb (sq_incomp so));;
      leave_incomp h a;;
      set_so a (fun so => so <| sq_incomp := false |> <| so_head := None |>)
  | None => mret tt
  end;;
  so ← get_so a;
  KASSERT (negb (sq_comp so) && negb (sq_incomp so));;
  when (so_acceptconn so) (KASSERT (bool_decide (so_comp so = []));; KASSERT (bool_decide (so_incomp so = []))).

Definition sofree_dispose (a : nat) : M unit := tcp_usr_detach a;; sodealloc a.

Definition sofree (a : nat) : M unit :=
  so ← get_so a;
  match so_passive_peer so with
  | Some p =>
      peer ← get_so p;
      if sohasrefs so || sohasrefs peer then mret tt
      else sofree_dequeue a;; sofree_dequeue p;; sofree_dispose a;; sofree_dispose p
  | None => if sohasrefs so then mret tt else sofree_dequeue a;; sofree_dispose a
  end.

Definition sorele (a : nat) : M unit :=
  so ← get_so a;
  if so_count so <=? 0 then fault
  else
    set_so a (fun so => so <| so_count := so_count so - 1 |>);;
    if so_count so - 1 =? 0 then sofree a else mret tt.

(** ** Closing, tcp_subr.c and tcp_usrreq.c *)

Definition tcp_close (t : nat) : M (option nat) :=
  tp ← get_tp t;
  i ← deref (t_inpcb tp);
  in_pcbdrop i;;
  inp ← get_inp i;
  KASSERT (negb (is_null (inp_socket inp)));;
  a ← deref (inp_socket inp);
  set_so a soisdisconnected;;
  if inp_sockref inp then
    so ← get_so a;
    KASSERT (ss_protoref so);;
    set_inp i (fun inp => inp <| inp_sockref := false |>);;
    set_so a (fun so => so <| ss_protoref := false |>);;
    sofree a;;
    mret None
  else mret (Some t).

Definition tcp_drop (t errno : nat) : M (option nat) :=
  tp ← get_tp t;
  i ← deref (t_inpcb tp);
  inp ← get_inp i;
  a ← deref (inp_socket inp);
  when (TCPS_HAVERCVDSYN (t_state tp)) (set_tp t (fun tp => tp <| t_state := TCPS_CLOSED |>));;
  set_so a (fun so => so <| so_error := Z.of_nat errno |>);;
  tcp_close t.

Definition set_state (st : Z) (tp : tcpcb) : tcpcb := tp <| t_state := st |>.

(** A passive connection in CLOSE_WAIT starts over as CLOSED. *)
Definition usrclosed_state (passive : bool) (st : Z) : Z :=
  if (st =? TCPS_CLOSE_WAIT) && passive then TCPS_CLOSED else st.

Definition tcp_usrclosed (t : nat) : M unit :=
  tp ← get_tp t;
  i ← deref (t_inpcb tp);
  inp ← get_inp i;
  let st := usrclosed_state (inp_passive inp) (t_state tp) in
  set_tp t (set_state st);;
  t ← (if (st =? TCPS_LISTEN) || (st =? TCPS_CLOSED) then
         set_tp t (set_state TCPS_CLOSED);;
         r ← tcp_close t;
         KASSERT (negb (is_null r));;
         deref r
       else if (st =? TCPS_SYN_SENT) || (st =? TCPS_SYN_RECEIVED) then
         set_tp t (fun tp => tp <| tf_needfin := true |>);; mret t
       else if st =? TCPS_ESTABLISHED then set_tp t (set_state TCPS_FIN_WAIT_1);; mret t
       else if st =? TCPS_CLOSE_WAIT then set_tp t (set_state TCPS_LAST_ACK);; mret t
       else mret t);
  tp ← get_tp t;
  when (TCPS_FIN_WAIT_2 <=? t_state tp)
    (i ← deref (t_inpcb tp); inp ← get_inp i; a ← deref (inp_socket inp); set_so a soisdisconnected).

(** [tcp_output] works on the control block. *)
Definition output_unless_dropped (i t : nat) : M unit :=
  inp ← get_inp i;
  when (negb (inp_dropped inp)) (get_tp t;; mret tt).

Definition tcp_disconnect (t : nat) : M unit :=
  tp ← get_tp t;
  i ← deref (t_inpcb tp);
  inp ← get_inp i;
  a ← deref (inp_socket inp);
  if t_state tp <? TCPS_ESTABLISHED then
    r ← tcp_close t; KASSERT (negb (is_null r))
  else
    so ← get_so a;
    if bool_decide (so_linger so = Some 0) then
      r ← tcp_drop t 0; KASSERT (negb (is_null r))
    else
      set_so a soisdisconnecting;;
      tcp_usrclosed t;;
      output_unless_dropped i t.

Definition gone_or_waiting (inp : inpcb) : bool := inp_timewait inp || inp_dropped inp.

(** [Some e]: the error [e]. *)
Definition ECONNRESET := 54.
Definition ECONNABORTED := 53%nat.
Definition EINVAL := 22.
Definition ENOBUFS := 55.
Definition ENOTCONN := 57.
Definition EALREADY := 37.

Definition pcb_of (a : nat) : M (nat * inpcb) :=
  so ← get_so a;
  KASSERT (negb (is_null (so_pcb so)));;
  i ← deref (so_pcb so);
  inp ← get_inp i;
  mret (i, inp).

Definition tcp_usr_disconnect (a : nat) : M Z :=
  '(i, inp) ← pcb_of a;
  if gone_or_waiting inp then mret ECONNRESET
  else t ← intotcpcb inp; t ← deref t; tcp_disconnect t;; mret 0.

Definition tcp_usr_shutdown (a : nat) : M Z :=
  '(i, inp) ← pcb_of a;
  if gone_or_waiting inp then mret ECONNRESET
  else t ← intotcpcb inp; t ← deref t; tcp_usrclosed t;; output_unless_dropped i t;; mret 0.

Definition take_sockref (a i : nat) : M unit :=
  inp ← get_inp i;
  when (negb (inp_dropped inp))
    (set_so a (fun so => so <| ss_protoref := true |>);; set_inp i (fun inp => inp <| inp_sockref := true |>)).

Definition tcp_usr_abort (a : nat) : M unit :=
  '(i, inp) ← pcb_of a;
  KASSERT (negb (is_null (inp_socket inp)));;
  when (negb (inp_timewait inp) && negb (inp_dropped inp))
    (t ← intotcpcb inp; t ← deref t; tcp_drop t ECONNABORTED;; mret tt);;
  take_sockref a i.

Definition tcp_usr_close (a : nat) : M unit :=
  '(i, inp) ← pcb_of a;
  KASSERT (negb (is_null (inp_socket inp)));;
  when (negb (inp_timewait inp) && negb (inp_dropped inp))
    (t ← intotcpcb inp; t ← deref t; tcp_disconnect t);;
  take_sockref a i.

(** [Some e]: [solisten_proto_check] or binding a port fails with [e]. *)
Definition tcp_usr_listen (a : nat) (backlog : Z) (bind : option Z) : M Z :=
  '(i, inp) ← pcb_of a;
  if gone_or_waiting inp then mret EINVAL
  else
    t ← intotcpcb inp;
    so ← get_so a;
    let error := if ss_isconnected so || ss_isconnecting so || ss_isdisconnecting so then Some EINVAL else bind in
    match error with
    | Some e => mret e
    | None =>
        t ← deref t;
        set_tp t (set_state TCPS_LISTEN);;
        w ← get;
        set_so a (fun so => so <| so_qlimit := u16 (if (backlog <? 0) || (somaxconn w <? backlog) then somaxconn w else backlog) |>
                               <| so_acceptconn := true |>);;
        mret 0
    end.

(** [setup]: what binding and [in_pcbconnect_setup] answer. *)
Definition tcp_connect (t : nat) (setup : option Z) : M Z :=
  tp ← get_tp t;
  i ← deref (t_inpcb tp);
  inp ← get_inp i;
  a ← deref (inp_socket inp);
  match setup with
  | Some e => mret e
  | None => set_so a soisconnecting;; set_tp t (set_state TCPS_SYN_SENT);; mret 0
  end.

Definition tcp_usr_connect (a : nat) (setup : option Z) : M Z :=
  '(i, inp) ← pcb_of a;
  if gone_or_waiting inp then mret EINVAL
  else t ← intotcpcb inp; t ← deref t; tcp_connect t setup.

Definition tcp_usr_accept (a : nat) : M Z :=
  so ← get_so a;
  if ss_isdisconnected so then mret (Z.of_nat ECONNABORTED)
  else
    '(i, inp) ← pcb_of a;
    if gone_or_waiting inp then mret (Z.of_nat ECONNABORTED) else mret 0.

(** ** TIME_WAIT, tcp_timewait.c *)

Definition twq_remove (t : nat) : M unit := fun w =>
  if bool_decide (t ∈ twq_2msl w) then Some (tt, w <| twq_2msl := remove1 t (twq_2msl w) |>) else None.

Definition tcp_tw_2msl_stop (t : nat) : M unit := twq_remove t.

Definition tcp_tw_2msl_reset (t : nat) (rearm : bool) : M unit :=
  when rearm (twq_remove t);;
  w ← get;
  set_tw t (fun tw => tw <| tw_time := s32 (ticks w + 2 * tcp_msl w) |>);;
  modify (fun w => w <| twq_2msl := twq_2msl w ++ [t] |>).

Definition tcp_twrespond (t flags : nat) : M unit :=
  tw ← get_tw t;
  i ← deref (tw_inpcb tw);
  get_inp i;;
  ok ← zalloc;
  when ok
    (w ← get;
     let ts := if negb (tw_t_recent tw =? 0) && (Z.of_nat flags =? TH_ACK)
               then Some (u32 (ts_ticks w + tw_ts_offset tw), tw_t_recent tw) else None in
     modify (fun w => w <| sent := sent w ++ [(tw_snd_nxt tw, tw_rcv_nxt tw, Z.of_nat flags, tw_last_win tw, ts)] |>)).

Definition tcp_twclose (t : nat) (reuse : bool) : M unit :=
  tw ← get_tw t;
  i ← deref (tw_inpcb tw);
  inp ← get_inp i;
  KASSERT (inp_timewait inp);;
  KASSERT (bool_decide (inp_ppcb inp = Some (Tcptw t)));;
  set_tw t (fun tw => tw <| tw_inpcb := None |>);;
  tcp_tw_2msl_stop t;;
  set_inp i (fun inp => inp <| inp_ppcb := None |>);;
  in_pcbdrop i;;
  match inp_socket inp with
  | Some a =>
      when (inp_sockref inp)
        (set_inp i (fun inp => inp <| inp_sockref := false |>);;
         so ← get_so a;
         KASSERT (ss_protoref so);;
         set_so a (fun so => so <| ss_protoref := false |>);;
         sofree a)
  | None => in_pcbfree i
  end;;
  if reuse then mret tt else free_tw t.

(** The oldest entry, closed for another use ([reuse]), or every entry whose time has come. *)
Fixpoint tcp_tw_2msl_scan (fuel : nat) (reuse : bool) : M (option nat) :=
  match fuel with
  | O => fault
  | S fuel =>
      w ← get;
      match twq_2msl w with
      | [] => mret None
      | t :: _ =>
          tw ← get_tw t;
          if negb reuse && (0 <? s32 (tw_time tw - ticks w)) then mret None
          else
            i ← deref (tw_inpcb tw);
            tcp_twclose t reuse;;
            if reuse then mret (Some t) else tcp_tw_2msl_scan fuel reuse
      end
  end.

Definition run_scan (reuse : bool) : M (option nat) := w ← get; tcp_tw_2msl_scan (S (length (twq_2msl w))) reuse.

(** The window to advertise in TIME_WAIT, and the timestamp to echo. *)
Definition last_win (tp : tcpcb) : Z :=
  if SEQ_GT (rcv_adv tp) (rcv_nxt tp) then u16 (Z.shiftr (u32 (rcv_adv tp - rcv_nxt tp)) (rcv_scale tp)) else 0.
Definition tstmps_used (tp : tcpcb) : bool := tf_req_tstmp tp && tf_rcvd_tstmp tp && negb (tf_noopt tp).

Definition tw_of (i : nat) (tp : tcpcb) : tcptw :=
  mk_tcptw (Some i) (snd_nxt tp) (rcv_nxt tp) (last_win tp) (if tstmps_used tp then ts_recent tp else 0)
    (if tstmps_used tp then ts_offset tp else 0) 0.

Definition close_and_unlock (t : nat) : M unit := tcp_close t;; mret tt.

(** [in_localip]: whether the foreign address is one of our own. *)
Definition tcp_twstart (t : nat) (in_localip : bool) : M unit :=
  tp ← get_tp t;
  i ← deref (t_inpcb tp);
  inp ← get_inp i;
  w ← get;
  if nolocaltimewait w && in_localip then close_and_unlock t
  else
    ok ← zalloc;
    t' ← (if ok : bool then
            t' ← new_address;
            modify (fun w => w <| tws := <[t' := mk_tcptw None 0 0 0 0 0 0]> (tws w) |>);;
            mret (Some t')
          else run_scan true);
    match t' with
    | None => close_and_unlock t
    | Some t' =>
        set_tw t' (fun _ => tw_of i tp);;
        tcp_discardcb t;;
        inp ← get_inp i;
        a ← deref (inp_socket inp);
        set_so a soisdisconnected;;
        when (negb (inp_passive inp) && tf_acknow tp) (tcp_twrespond t' 16);;
        set_inp i (fun inp => inp <| inp_ppcb := Some (Tcptw t') |> <| inp_timewait := true |>);;
        tcp_tw_2msl_reset t' false;;
        if inp_passive inp then tcp_twclose t' false
        else if inp_sockref inp then
          so ← get_so a;
          KASSERT (ss_protoref so);;
          set_inp i (fun inp => inp <| inp_sockref := false |>);;
          set_so a (fun so => so <| ss_protoref := false |>);;
          sofree a
        else mret tt
    end.

(** A segment for a PCB in TIME_WAIT: whether to look for a listening socket instead. *)
Definition tcp_twcheck (i : nat) (th_seq th_ack th_flags tlen : Z) : M bool :=
  inp ← get_inp i;
  t ← intotw inp;
  match t with
  | None => mret false
  | Some t =>
      tw ← get_tw t;
      if has_flag th_flags TH_RST then mret false
      else if has_flag th_flags TH_SYN && SEQ_GT th_seq (tw_rcv_nxt tw) then tcp_twclose t false;; mret true
      else if negb (has_flag th_flags TH_ACK) then mret false
      else
        let seq := u32 (th_seq + tlen + if has_flag th_flags TH_SYN then 1 else 0) in
        when (has_flag th_flags TH_FIN && (u32 (seq + 1) =? tw_rcv_nxt tw)) (tcp_tw_2msl_reset t true);;
        when (negb (th_flags =? TH_ACK) || negb (tlen =? 0) || negb (th_seq =? tw_rcv_nxt tw) || negb (th_ack =? tw_snd_nxt tw))
          (tcp_twrespond t 16);;
        mret false
  end.

Fixpoint tw_destroy (fuel : nat) : M unit :=
  match fuel with
  | O => fault
  | S fuel =>
      w ← get;
      match twq_2msl w with
      | [] => mret tt
      | t :: _ => tcp_twclose t false;; tw_destroy fuel
      end
  end.
Definition tcp_tw_destroy : M unit := w ← get; tw_destroy (S (length (twq_2msl w))).

(** ** Making and giving up sockets *)

(** [soreserve] may fail as an allocation does. *)
Definition tcp_attach (a : nat) : M bool :=
  ok ← zalloc;
  if negb ok then mret false
  else
    ok ← in_pcballoc a;
    if negb ok then mret false
    else
      so ← get_so a;
      i ← deref (so_pcb so);
      t ← tcp_newtcpcb i;
      match t with
      | None => in_pcbdetach i;; in_pcbfree i;; mret false
      | Some t => set_tp t (set_state TCPS_CLOSED);; mret true
      end.

Definition tcp_usr_attach (a : nat) : M bool :=
  so ← get_so a;
  KASSERT (is_null (so_pcb so));;
  tcp_attach a.

Definition socreate : M (option nat) :=
  a ← soalloc;
  match a with
  | None => mret None
  | Some a =>
      set_so a (fun so => so <| so_count := 1 |>);;
      ok ← tcp_usr_attach a;
      if ok : bool then mret (Some a)
      else set_so a (fun so => so <| so_count := 0 |>);; sodealloc a;; mret None
  end.

(** A peer that nobody refers to is aborted too. *)
Definition soabort (a : nat) : M unit :=
  so ← get_so a;
  KASSERT (so_count so =? 0);;
  KASSERT (negb (ss_protoref so));;
  KASSERT (ss_nofdref so);;
  tcp_usr_abort a;;
  match so_passive_peer so with
  | Some p => peer ← get_so p; when (negb (sohasrefs peer)) (tcp_usr_abort p)
  | None => mret tt
  end;;
  sofree a.

(** What a new connection takes from the listening socket. *)
Definition inherit (head : socket) (passive : bool) (so : socket) : socket :=
  so <| so_acceptconn := false |> <| so_passive := passive |> <| so_passiveclnt := so_passiveclnt head |>
     <| so_linger := so_linger head |> <| ss_nofdref := true |> <| ss_protoref := ss_protoref head |>
     <| ss_isconnected := ss_isconnected head |> <| ss_isconnecting := ss_isconnecting head |>
     <| ss_isdisconnecting := ss_isdisconnecting head |> <| ss_isdisconnected := ss_isdisconnected head |>
     <| ss_nbio := ss_nbio head |>.

(** [while (head->so_incqlen > head->so_qlimit)]: the oldest incomplete connections are aborted. *)
Fixpoint trim_incomp (fuel : nat) (h : nat) : M unit :=
  match fuel with
  | O => fault
  | S fuel =>
      head ← get_so h;
      if so_qlimit head <? so_incqlen head then
        sp ← deref (List.head (so_incomp head));
        leave_incomp h sp;;
        set_so sp (fun so => so <| sq_incomp := false |> <| so_head := None |>);;
        soabort sp;;
        trim_incomp fuel h
      else mret tt
  end.

(** [connected]: [connstatus] is [SS_ISCONNECTED] rather than 0. *)
Definition sonewconn (h : nat) (connected : bool) : M (option nat) :=
  head ← get_so h;
  if 3 * so_qlimit head / 2 <? so_qlen head then mret None
  else
    a ← soalloc;
    match a with
    | None => mret None
    | Some a =>
        set_so a (fun so => (inherit head false so) <| so_head := Some h |>);;
        ok ← zalloc;
        ok ← (if ok : bool then tcp_usr_attach a else mret false);
        if negb ok then sodealloc a;; mret None
        else
          when connected (set_so a (fun so => so <| ss_isconnected := true |>));;
          (if connected then
             set_so h (enter_comp a);;
             set_so a (fun so => so <| sq_comp := true |>)
           else
             head ← get_so h;
             trim_incomp (S (length (so_incomp head))) h;;
             set_so h (enter_incomp a);;
             set_so a (fun so => so <| sq_incomp := true |>));;
          mret (Some a)
    end.

Definition sonewconn_passive_client (h : nat) : M (option nat) :=
  head ← get_so h;
  a ← soalloc;
  match a with
  | None => mret None
  | Some a =>
      set_so a (inherit head (so_passive head));;
      ok ← zalloc;
      ok ← (if ok : bool then tcp_usr_attach a else mret false);
      if negb ok then sodealloc a;; mret None
      else set_so a (fun so => so <| ss_isconnecting := true |>);; mret (Some a)
  end.

(** [hashed]: whether the PCB can be entered in the hash tables and connected.  The synthesized SYN,ACK establishes
    the connection. *)
Definition syncache_passive_client_socket (lso : nat) (hashed : bool) : M (option nat) :=
  a ← sonewconn_passive_client lso;
  match a with
  | None => mret None
  | Some a =>
      '(i, inp) ← pcb_of a;
      if negb hashed then soabort a;; mret None
      else
        t ← intotcpcb inp;
        t ← deref t;
        set_tp t (set_state TCPS_SYN_SENT);;
        set_tp t (set_state TCPS_ESTABLISHED);;
        soisconnected a;;
        mret (Some a)
  end.

Definition abort_if (a : option nat) : M unit := match a with Some a => soabort a | None => mret tt end.

Definition syncache_socket (lso : nat) (passive client_hashed hashed : bool) : M (option nat) :=
  client ← (if passive then syncache_passive_client_socket lso client_hashed else mret None);
  if passive && is_null client then mret None
  else
    a ← sonewconn lso false;
    match a with
    | None => abort_if client;; mret None
    | Some a =>
        '(i, inp) ← pcb_of a;
        match client with
        | Some c =>
            set_so a (fun so => so <| so_passive := true |>);;
            set_inp i (fun inp => inp <| inp_passive := true |>);;
            set_so a (fun so => so <| so_passive_peer := Some c |>);;
            set_so c (fun so => so <| so_passive_peer := Some a |>)
        | None => set_so a (fun so => so <| so_passive := false |>)
        end;;
        if negb hashed then soabort a;; mret None
        else
          inp ← get_inp i;
          t ← intotcpcb inp;
          t ← deref t;
          set_tp t (set_state TCPS_SYN_RECEIVED);;
          mret (Some a)
    end.

Definition sodisconnect (a : nat) : M Z :=
  so ← get_so a;
  if negb (ss_isconnected so) then mret ENOTCONN
  else if ss_isdisconnecting so then mret EALREADY
  else tcp_usr_disconnect a.

(** The sections of [soclose], other threads coming between: the disconnect (the wait of SO_LINGER follows it), the
    close of the protocol, an iteration of the loops over the queues, and the release of the reference. *)
Definition soclose_disconnect (a : nat) : M unit :=
  so ← get_so a;
  KASSERT (negb (ss_nofdref so));;
  when (ss_isconnected so && negb (ss_isdisconnecting so)) (sodisconnect a;; mret tt).

Definition soclose_incomp (a : nat) : M bool :=
  so ← get_so a;
  match so_incomp so with
  | sp :: _ => leave_incomp a sp;; set_so sp (fun so => so <| sq_incomp := false |> <| so_head := None |>);; soabort sp;; mret true
  | [] => mret false
  end.
Definition soclose_comp (a : nat) : M bool :=
  so ← get_so a;
  match so_comp so with
  | sp :: _ => leave_comp a sp;; set_so sp (fun so => so <| sq_comp := false |> <| so_head := None |>);; soabort sp;; mret true
  | [] => mret false
  end.

Definition soclose_rele (a : nat) : M unit :=
  so ← get_so a;
  KASSERT (negb (ss_nofdref so));;
  set_so a (fun so => so <| ss_nofdref := true |>);;
  sorele a.

Fixpoint repeat_while (fuel : nat) (m : M bool) : M unit :=
  match fuel with
  | O => fault
  | S fuel => go ← m; if go : bool then repeat_while fuel m else mret tt
  end.

Definition soclose_queues (a : nat) : M unit :=
  so ← get_so a;
  when (so_acceptconn so)
    (repeat_while (S (length (so_incomp so))) (soclose_incomp a);;
     repeat_while (S (length (so_comp so))) (soclose_comp a)).

Definition soclose (a : nat) : M unit :=
  soclose_disconnect a;; tcp_usr_close a;; soclose_queues a;; soclose_rele a.

Definition soaccept (a : nat) : M Z :=
  so ← get_so a;
  KASSERT (ss_nofdref so);;
  set_so a (fun so => so <| ss_nofdref := false |>);;
  tcp_usr_accept a.

(** The references [uinet_soaccept] takes under the accept lock.  [SO_PASSIVECLNT] is set in [so_state], a short that
    does not have that bit, instead of [so_options]: nothing changes. *)
Definition accept_take (h : nat) : M (option nat) :=
  head ← get_so h;
  if ss_nbio head && bool_decide (so_comp head = []) then mret None
  else if negb (so_error head =? 0) then set_so h (fun so => so <| so_error := 0 |>);; mret None
  else
    match so_comp head with
    | [] => mret None
    | a :: _ =>
        so ← get_so a;
        KASSERT (negb (sq_incomp so));;
        KASSERT (sq_comp so);;
        set_so a (fun so => so <| so_count := so_count so + 1 |>);;
        leave_comp h a;;
        set_so a (fun so => so <| ss_nbio := ss_nbio so || ss_nbio head |> <| sq_comp := false |> <| so_head := None |>);;
        when (so_passive so)
          (p ← deref (so_passive_peer so);
           set_so p (fun so => so <| so_count := so_count so + 1 |> <| ss_nbio := ss_nbio so || ss_nbio head |>));;
        mret (Some a)
    end.

Definition uinet_soaccept (h : nat) : M (option nat) :=
  a ← accept_take h;
  match a with
  | None => mret None
  | Some a =>
      so ← get_so a;
      error ← soaccept a;
      if error =? 0 then mret (Some a)
      else
        match so_passive_peer so with Some p => soclose p | None => mret tt end;;
        soclose a;;
        mret None
  end.

(** ** Passive pairs, in_passive.c *)

(** The option SO_PASSIVE, which [uinet_make_socket_passive] sets. *)
Definition so_set_passive (a : nat) (optval : bool) : M unit :=
  set_so a (fun so => so <| so_passive := optval |>);;
  '(i, inp) ← pcb_of a;
  set_inp i (fun inp => inp <| inp_passive := optval |>).

(** The order in which the locks of a pair are taken. *)
Definition in_passive_ordered_socks (a p : nat) (so : socket) : nat * nat := if so_passiveclnt so then (p, a) else (a, p).

(** The end the user writes to becomes an active connection, and the other is reset. *)
Definition in_passive_convert_to_active (a : nat) : M unit :=
  so ← get_so a;
  p ← deref (so_passive_peer so);
  peer ← get_so p;
  i ← deref (so_pcb so);
  j ← deref (so_pcb peer);
  inp ← get_inp i;
  peer_inp ← get_inp j;
  t ← intotcpcb inp;
  peert ← intotcpcb peer_inp;
  set_inp i (fun inp => inp <| inp_passive := false |>);;
  set_inp j (fun inp => inp <| inp_passive := false |>);;
  set_so a (fun so => so <| so_passive := false |> <| so_passiveclnt := false |>);;
  set_so p (fun so => so <| so_passive := false |> <| so_passiveclnt := false |>);;
  t ← deref t;
  peert ← deref peert;
  peertp ← get_tp peert;
  set_tp t (fun tp => tp <| snd_una := rcv_nxt peertp |> <| snd_max := rcv_nxt peertp |> <| snd_nxt := rcv_nxt peertp |>
                        <| tf_rcvd_tstmp := false |>);;
  tp ← get_tp t;
  set_tp peert (fun peertp => peertp <| snd_una := rcv_nxt tp |> <| snd_max := rcv_nxt tp |> <| snd_nxt := rcv_nxt tp |>
                                <| tf_rcvd_tstmp := false |>);;
  tcp_drop peert ECONNABORTED;;
  mret tt.

(** [oob], [eof]: the flags of the request; [control]: there is control data; [full]: the send buffer has no room for
    urgent data; [nam]: an address is given, and what connecting to it answers. *)
Definition tcp_usr_send (a : nat) (control oob full eof : bool) (nam : option (option Z)) : M Z :=
  '(i, inp) ← pcb_of a;
  if gone_or_waiting inp then mret ECONNRESET
  else
    t ← intotcpcb inp;
    if control then mret EINVAL
    else
      when (inp_passive inp) (in_passive_convert_to_active a);;
      if oob && full then mret ENOBUFS
      else
        t ← deref t;
        tp ← get_tp t;
        error ← match nam with
                | Some setup => if t_state tp <? TCPS_SYN_SENT then tcp_connect t setup else mret 0
                | None => mret 0
                end;
        if negb (error =? 0) then mret error
        else if oob then get_tp t;; mret 0
        else when eof (tcp_usrclosed t);; output_unless_dropped i t;; mret 0.
End Life.
