(* ===== verification/SockLifeInv.v ===== *)
(** * Ownership of sockets and control blocks

    The invariant of [SockLife]: every pointer leads to an object that leads
    back, and every object is reachable from a reference.  It is stated over the
    [shape] of a world, the fields that say who owns whom, and proved with a
    Hoare logic over shapes: [run m o Q] says that from every world of shape [o]
    the computation [m] does not fault and ends with its result and its shape in
    [Q]. *)

From stdpp Require Import gmap.
From S2P Require Import Prelude TcpSeq SockLife.

Module LifeInv.

Import SockLife.Life.

(** ** Shapes *)

Definition sshape (so : socket) : socket :=
  mk_socket (so_count so) (so_acceptconn so) (so_passive so) false None (ss_nofdref so) (ss_protoref so) false false false false false
    (sq_incomp so) (sq_comp so) (so_head so) (so_incomp so) (so_comp so) (so_incqlen so) (so_qlen so) (so_qlimit so) 0
    (so_pcb so) (so_passive_peer so).
Definition ishape (inp : inpcb) : inpcb := inp <| inp_passive := false |>.
(** The back pointer, and whether the connection listens. *)
Definition tshape (tp : tcpcb) : option nat * bool := (t_inpcb tp, t_state tp =? TCPS_LISTEN).

Record shape := mk_shape {
  oS : gmap nat socket;
  oI : gmap nat inpcb;
  oT : gmap nat (option nat * bool);
  oW : gmap nat (option nat);
  oQ : list nat;
  oN : nat;
  oV : bool }.

#[export] Instance eta_shape : Eta shape := fun r => mk_shape (oS r) (oI r) (oT r) (oW r) (oQ r) (oN r) (oV r).

Definition shape_of (w : world) : shape :=
  mk_shape (sshape <$> socks w) (ishape <$> inps w) (tshape <$> tcbs w) (tw_inpcb <$> tws w) (twq_2msl w) (next w)
    (INVARIANTS w).

(** ** The logic *)

Definition run {A} (m : M A) (o : shape) (Q : A -> shape -> Prop) : Prop :=
  forall w, shape_of w = o -> match m w with Some (x, w') => Q x (shape_of w') | None => False end.

Section Rules.
Context {A B : Type}.
Implicit Types (o : shape) (Q : A -> shape -> Prop).

Lemma run_ret (x : A) o Q : Q x o -> run (mret x) o Q.
Proof. intros H w <-. exact H. Qed.

Lemma run_bind (m : M B) (f : B -> M A) o Q : run m o (fun x o' => run (f x) o' Q) -> run (x ← m; f x) o Q.
Proof.
  intros H w Hw. unfold mbind, M_bind. specialize (H w Hw). destruct (m w) as [[x w']|]; [|exact H].
  exact (H w' eq_refl).
Qed.

Lemma run_mono (m : M A) o Q Q' : run m o Q -> (forall x o', Q x o' -> Q' x o') -> run m o Q'.
Proof. intros H HQ w Hw. specialize (H w Hw). destruct (m w) as [[x w']|]; auto. Qed.

Lemma run_deref (x : A) o Q : Q x o -> run (deref (Some x)) o Q.
Proof. apply run_ret. Qed.
End Rules.

Section UnitRules.
Implicit Types (o : shape) (Q : unit -> shape -> Prop).

Lemma run_KASSERT b o Q : (oV o = true -> b = true) -> Q tt o -> run (KASSERT b) o Q.
Proof.
  intros H HQ w <-. unfold KASSERT. cbn in H. destruct (INVARIANTS w) eqn:E; cbn; [rewrite H by reflexivity|]; exact HQ.
Qed.

Lemma run_when b m o Q : (b = true -> run m o Q) -> (b = false -> Q tt o) -> run (when b m) o Q.
Proof. intros Ht Hf. destruct b; cbn; [auto | apply run_ret; auto]. Qed.

Lemma run_set_so a f s s' o Q :
  oS o !! a = Some s -> (forall so, sshape so = s -> sshape (f so) = s') -> Q tt (o <| oS := <[a := s']> (oS o) |>) ->
  run (set_so a f) o Q.
Proof.
  intros Ha Hf HQ w <-. cbn in Ha. apply lookup_fmap_Some in Ha as (so & Es & Ha).
  unfold set_so, get_so, mbind, M_bind, modify. rewrite Ha. unfold shape_of in *. cbn. cbn in HQ. rewrite fmap_insert, (Hf so Es).
  exact HQ.
Qed.

Lemma run_set_inp a f s s' o Q :
  oI o !! a = Some s -> (forall x, ishape x = s -> ishape (f x) = s') -> Q tt (o <| oI := <[a := s']> (oI o) |>) ->
  run (set_inp a f) o Q.
Proof.
  intros Ha Hf HQ w <-. cbn in Ha. apply lookup_fmap_Some in Ha as (so & Es & Ha).
  unfold set_inp, get_inp, mbind, M_bind, modify. rewrite Ha. unfold shape_of in *. cbn. cbn in HQ. rewrite fmap_insert, (Hf so Es).
  exact HQ.
Qed.

Lemma run_set_tp a f s s' o Q :
  oT o !! a = Some s -> (forall x, tshape x = s -> tshape (f x) = s') -> Q tt (o <| oT := <[a := s']> (oT o) |>) ->
  run (set_tp a f) o Q.
Proof.
  intros Ha Hf HQ w <-. cbn in Ha. apply lookup_fmap_Some in Ha as (so & Es & Ha).
  unfold set_tp, get_tp, mbind, M_bind, modify. rewrite Ha. unfold shape_of in *. cbn. cbn in HQ. rewrite fmap_insert, (Hf so Es).
  exact HQ.
Qed.

Lemma run_set_tw a f s s' o Q :
  oW o !! a = Some s -> (forall x, tw_inpcb x = s -> tw_inpcb (f x) = s') -> Q tt (o <| oW := <[a := s']> (oW o) |>) ->
  run (set_tw a f) o Q.
Proof.
  intros Ha Hf HQ w <-. cbn in Ha. apply lookup_fmap_Some in Ha as (so & Es & Ha).
  unfold set_tw, get_tw, mbind, M_bind, modify. rewrite Ha. unfold shape_of in *. cbn. cbn in HQ. rewrite fmap_insert, (Hf so Es).
  exact HQ.
Qed.

Lemma run_free_so a s o Q : oS o !! a = Some s -> Q tt (o <| oS := delete a (oS o) |>) -> run (free_so a) o Q.
Proof.
  intros Ha HQ w <-. cbn in Ha. apply lookup_fmap_Some in Ha as (so & _ & Ha).
  unfold free_so, get_so, mbind, M_bind, modify. rewrite Ha. unfold shape_of in *. cbn. cbn in HQ. rewrite fmap_delete. exact HQ.
Qed.
Lemma run_free_inp a s o Q : oI o !! a = Some s -> Q tt (o <| oI := delete a (oI o) |>) -> run (free_inp a) o Q.
Proof.
  intros Ha HQ w <-. cbn in Ha. apply lookup_fmap_Some in Ha as (so & _ & Ha).
  unfold free_inp, get_inp, mbind, M_bind, modify. rewrite Ha. unfold shape_of in *. cbn. cbn in HQ. rewrite fmap_delete. exact HQ.
Qed.
Lemma run_free_tp a s o Q : oT o !! a = Some s -> Q tt (o <| oT := delete a (oT o) |>) -> run (free_tp a) o Q.
Proof.
  intros Ha HQ w <-. cbn in Ha. apply lookup_fmap_Some in Ha as (so & _ & Ha).
  unfold free_tp, get_tp, mbind, M_bind, modify. rewrite Ha. unfold shape_of in *. cbn. cbn in HQ. rewrite fmap_delete. exact HQ.
Qed.
Lemma run_free_tw a s o Q : oW o !! a = Some s -> Q tt (o <| oW := delete a (oW o) |>) -> run (free_tw a) o Q.
Proof.
  intros Ha HQ w <-. cbn in Ha. apply lookup_fmap_Some in Ha as (so & _ & Ha).
  unfold free_tw, get_tw, mbind, M_bind, modify. rewrite Ha. unfold shape_of in *. cbn. cbn in HQ. rewrite fmap_delete. exact HQ.
Qed.

Lemma run_twq_remove t o Q : t ∈ oQ o -> Q tt (o <| oQ := remove1 t (oQ o) |>) -> run (twq_remove t) o Q.
Proof. intros Ht HQ w <-. unfold twq_remove. rewrite bool_decide_eq_true_2 by exact Ht. exact HQ. Qed.

(** A change that does not touch the shape. *)
Lemma run_modify f o Q : (forall w, shape_of w = o -> Q tt (shape_of (f w))) -> run (modify f) o Q.
Proof. intros H w Hw. exact (H w Hw). Qed.
End UnitRules.

Lemma run_get_so a s o Q : oS o !! a = Some s -> (forall so, sshape so = s -> Q so o) -> run (get_so a) o Q.
Proof.
  intros Ha HQ w <-. cbn in Ha. apply lookup_fmap_Some in Ha as (so & Es & Ha). unfold get_so. rewrite Ha. auto.
Qed.
Lemma run_get_inp a s o Q : oI o !! a = Some s -> (forall x, ishape x = s -> Q x o) -> run (get_inp a) o Q.
Proof.
  intros Ha HQ w <-. cbn in Ha. apply lookup_fmap_Some in Ha as (so & Es & Ha). unfold get_inp. rewrite Ha. auto.
Qed.
Lemma run_get_tp a s o Q : oT o !! a = Some s -> (forall x, tshape x = s -> Q x o) -> run (get_tp a) o Q.
Proof.
  intros Ha HQ w <-. cbn in Ha. apply lookup_fmap_Some in Ha as (so & Es & Ha). unfold get_tp. rewrite Ha. auto.
Qed.
Lemma run_get_tw a s o Q : oW o !! a = Some s -> (forall x, tw_inpcb x = s -> Q x o) -> run (get_tw a) o Q.
Proof.
  intros Ha HQ w <-. cbn in Ha. apply lookup_fmap_Some in Ha as (so & Es & Ha). unfold get_tw. rewrite Ha. auto.
Qed.
Lemma run_get o Q : (forall w, shape_of w = o -> Q w o) -> run get o Q.
Proof. intros H w Hw. change (Q w (shape_of w)). rewrite Hw. auto. Qed.
Lemma run_zalloc o Q : (forall b, Q b o) -> run zalloc o Q.
Proof. intros H w <-. apply H. Qed.
Lemma run_new_address o Q : Q (oN o) (o <| oN := S (oN o) |>) -> run new_address o Q.
Proof. intros H w <-. exact H. Qed.

(** ** The invariant *)

(** Sockets the application has open, those it is closing (between [tcp_usr_close] and the release of its reference),
    and the references to PCBs that threads hold across a lock. *)
Record user := mk_user {
  opens : gset nat;
  closing : gset nat;
  pins : list nat }.
#[export] Instance eta_user : Eta user := fun r => mk_user (opens r) (closing r) (pins r).

Definition owned (u : user) : gset nat := opens u ∪ closing u.

Definition at_ {A} (m : gmap nat A) (k : nat) (P : A -> Prop) : Prop := exists x, m !! k = Some x /\ P x.

Definition waiting (s : socket) : Prop := so_head s <> None.
(** The connection is over: nothing more is to come for the socket. *)
Definition over (n : inpcb) : Prop := inp_dropped n = true \/ inp_timewait n = true.

Definition held (s : socket) : Prop := sohasrefs s = true \/ waiting s.
(** A reference, a queue or the other end of a passive pair keeps the socket. *)
Definition anchored (o : shape) (s : socket) : Prop :=
  held s \/ exists p, so_passive_peer s = Some p /\ at_ (oS o) p held.
(** What may be given up was not open, or its connection is over. *)
Definition released (u : user) (o : shape) (a : nat) (s : socket) (n : inpcb) : Prop :=
  a ∈ opens u \/ inp_sockref n = true \/ waiting s \/ (exists p, so_passive_peer s = Some p /\ at_ (oS o) p waiting) \/ over n.

Definition queued (a : nat) (s sh : socket) : Prop :=
  (sq_incomp s = true /\ sq_comp s = false /\ a ∈ so_incomp sh) \/ (sq_incomp s = false /\ sq_comp s = true /\ a ∈ so_comp sh).

(** A new connection knows its listening socket before it is on the queue. *)
Definition newborn (Y : gset nat) (u : user) (a : nat) (s : socket) (h : nat) : Prop :=
  (a ∈ Y) /\ sq_incomp s = false /\ sq_comp s = false /\ h ∈ owned u.

(** A socket that is being freed. *)
Record leaving (s : socket) (n : inpcb) : Prop := {
  lv_over : over n;
  lv_head : so_head s = None;
  lv_incomp : so_incomp s = [];
  lv_comp : so_comp s = [] }.

(** [Y]: sockets in the hands of an operation, which may have lost their last reference; [X]: those being freed. *)
Record sock_ok (Y X : gset nat) (u : user) (o : shape) (a : nat) (s : socket) : Prop := {
  s_pcb : exists i, so_pcb s = Some i /\
    at_ (oI o) i (fun n => inp_socket n = Some a /\ ss_protoref s = inp_sockref n /\
      (a ∉ Y -> a ∉ X -> released u o a s n) /\ (a ∈ X -> leaving s n));
  s_count : so_count s = if decide (a ∈ owned u) then 1 else 0;
  s_nofd : ss_nofdref s = false -> a ∈ owned u;
  s_head : forall h, so_head s = Some h -> at_ (oS o) h (queued a s) \/ newborn Y u a s h;
  s_waiting : waiting s -> ss_protoref s = false /\ a ∉ owned u;
  s_nohead : so_head s = None -> sq_incomp s = false /\ sq_comp s = false;
  s_nodup : NoDup (so_incomp s ++ so_comp s);
  s_lens : so_incqlen s = u16 (Z.of_nat (length (so_incomp s))) /\ so_qlen s = u16 (Z.of_nat (length (so_comp s))) /\ 0 <= so_qlimit s;
  s_member : forall b, b ∈ so_incomp s ++ so_comp s -> a ∈ owned u /\ at_ (oS o) b (fun sb => so_head sb = Some a);
  s_peer : a ∉ X -> forall p, so_passive_peer s = Some p -> p <> a /\ (p ∉ X) /\
    at_ (oS o) p (fun sp => so_passive_peer sp = Some a /\
      (waiting s -> so_head sp = None /\ ss_protoref sp = false /\ p ∉ owned u));
  s_passive : waiting s -> so_passive s = true <-> so_passive_peer s <> None;
  s_anchor : a ∉ Y -> a ∉ X -> anchored o s;
  s_leaving : a ∈ X -> sohasrefs s = false;
  s_accept : so_incomp s ++ so_comp s <> [] -> so_acceptconn s = true }.

Record inp_ok (u : user) (o : shape) (i : nat) (n : inpcb) : Prop := {
  n_refs : inp_refcount n = (if inp_listed n then 1 else 0) + Z.of_nat (count_occ Nat.eq_dec (pins u) i) /\ 0 < inp_refcount n < 2 ^ 32;
  n_sock : forall a, inp_socket n = Some a -> inp_listed n = true /\ at_ (oS o) a (fun s => so_pcb s = Some i);
  n_tw : inp_listed n = true -> inp_timewait n = true -> inp_dropped n = false ->
    exists t, inp_ppcb n = Some (Tcptw t) /\ oW o !! t = Some (Some i);
  n_twgone : inp_listed n = true -> inp_timewait n = true -> inp_dropped n = true -> inp_ppcb n = None /\ inp_socket n <> None;
  n_tcb : inp_listed n = true -> inp_timewait n = false -> inp_socket n <> None /\
    exists t l, inp_ppcb n = Some (Tcpcb t) /\ oT o !! t = Some (Some i, l) /\
      (l = true -> inp_dropped n = false -> forall a, inp_socket n = Some a -> a ∈ opens u);
  n_sockref : inp_sockref n = true -> inp_dropped n = false /\ exists a, inp_socket n = Some a /\ a ∉ opens u;
  n_unlisted : inp_listed n = false -> inp_socket n = None /\ inp_ppcb n = None }.

(** [R]: entries of TIME_WAIT that are taken off the queue but not freed. *)
Record wf (Y X R : gset nat) (u : user) (o : shape) : Prop := {
  wf_socks : map_Forall (sock_ok Y X u o) (oS o);
  wf_inps : map_Forall (inp_ok u o) (oI o);
  wf_tcbs : map_Forall (fun t x => exists i, fst x = Some i /\ at_ (oI o) i (fun n => inp_ppcb n = Some (Tcpcb t))) (oT o);
  wf_tws : map_Forall (fun t x => t ∉ R -> t ∈ oQ o /\ exists i, x = Some i /\ at_ (oI o) i (fun n => inp_ppcb n = Some (Tcptw t))) (oW o);
  wf_reserved : forall t, t ∈ R -> (t ∉ oQ o) /\ is_Some (oW o !! t) /\ map_Forall (fun _ n => inp_ppcb n <> Some (Tcptw t)) (oI o);
  wf_twq : NoDup (oQ o) /\ forall t, t ∈ oQ o -> is_Some (oW o !! t);
  wf_user : opens u ## closing u /\ (forall a, a ∈ owned u -> is_Some (oS o !! a)) /\ (forall i, i ∈ pins u -> is_Some (oI o !! i));
  wf_fresh : forall k, (oN o <= k)%nat -> oS o !! k = None /\ oI o !! k = None /\ oT o !! k = None /\ oW o !! k = None }.

(** ** Looking through updates *)

Section At.
Context {A : Type} (m : gmap nat A).

Lemma at_impl k (P Q : A -> Prop) : at_ m k P -> (forall x, m !! k = Some x -> P x -> Q x) -> at_ m k Q.
Proof. intros (x & H & HP) HQ. exists x. auto. Qed.

Lemma at_insert a s s' k P : m !! a = Some s -> at_ m k P -> (k = a -> P s -> P s') -> at_ (<[a := s']> m) k P.
Proof.
  intros Ha (x & Hk & HP) HQ. destruct (decide (k = a)) as [->|Hne].
  - exists s'. rewrite lookup_insert_eq. split; [reflexivity|]. apply HQ; [reflexivity | congruence].
  - exists x. rewrite lookup_insert_ne by congruence. auto.
Qed.

Lemma at_insert_eq a s' (P : A -> Prop) : P s' -> at_ (<[a := s']> m) a P.
Proof. intros H. exists s'. rewrite lookup_insert_eq. auto. Qed.

Lemma at_delete a k P : at_ m k P -> k <> a -> at_ (delete a m) k P.
Proof. intros (x & Hk & HP) Hne. exists x. rewrite lookup_delete_ne by congruence. auto. Qed.

Lemma at_new a s' k P : m !! a = None -> at_ m k P -> at_ (<[a := s']> m) k P.
Proof. intros Ha (x & Hk & HP). exists x. rewrite lookup_insert_ne by congruence. auto. Qed.

Lemma at_lookup k x P : m !! k = Some x -> at_ m k P -> P x.
Proof. intros Hk (y & Hy & HP). congruence. Qed.

Lemma map_Forall_step (P Q : nat -> A -> Prop) (m' : gmap nat A) :
  map_Forall P m -> (forall k x, m' !! k = Some x -> (m !! k = Some x /\ (P k x -> Q k x)) \/ Q k x) -> map_Forall Q m'.
Proof. intros H HQ k x Hk. destruct (HQ k x Hk) as [[Hm HPQ]|]; [apply HPQ, H, Hm | assumption]. Qed.
End At.

(** What a PCB points to tells the state it is in. *)
Lemma inp_ok_tcpcb u o i n t : inp_ok u o i n -> inp_ppcb n = Some (Tcpcb t) ->
  inp_listed n = true /\ inp_timewait n = false /\ exists l, oT o !! t = Some (Some i, l).
Proof.
  intros [_ _ J1 J2 J3 _ J5] E. destruct (inp_listed n); [|destruct (J5 eq_refl); congruence].
  destruct (inp_timewait n).
  - destruct (inp_dropped n); [destruct (J2 eq_refl eq_refl eq_refl); congruence|].
    destruct (J1 eq_refl eq_refl eq_refl) as (t0 & C & _). congruence.
  - destruct (J3 eq_refl eq_refl) as (_ & t0 & l0 & C & D & _). split_and!; auto. exists l0. congruence.
Qed.

Lemma inp_ok_tcptw u o i n t : inp_ok u o i n -> inp_ppcb n = Some (Tcptw t) ->
  inp_listed n = true /\ inp_timewait n = true /\ inp_dropped n = false /\ oW o !! t = Some (Some i).
Proof.
  intros [_ _ J1 J2 J3 _ J5] E. destruct (inp_listed n); [|destruct (J5 eq_refl); congruence].
  destruct (inp_timewait n); [|destruct (J3 eq_refl eq_refl) as (_ & t0 & l0 & C & _); congruence].
  destruct (inp_dropped n); [destruct (J2 eq_refl eq_refl eq_refl); congruence|].
  destruct (J1 eq_refl eq_refl eq_refl) as (t0 & C & D). split_and!; auto. congruence.
Qed.

(** ** A change to a socket and its PCB *)

(** The fields that link a socket to others. *)
Record same_links (s s' : socket) : Prop := {
  sl_pcb : so_pcb s' = so_pcb s;
  sl_head : so_head s' = so_head s;
  sl_sq : sq_incomp s' = sq_incomp s /\ sq_comp s' = sq_comp s;
  sl_incomp : so_incomp s' = so_incomp s /\ so_incqlen s' = so_incqlen s;
  sl_comp : so_comp s' = so_comp s /\ so_qlen s' = so_qlen s /\ (0 <= so_qlimit s -> 0 <= so_qlimit s');
  sl_peer : so_passive_peer s' = so_passive_peer s;
  sl_passive : waiting s -> so_passive s' = so_passive s;
  sl_accept : so_acceptconn s = true -> so_acceptconn s' = true }.

Record same_block (n n' : inpcb) : Prop := {
  sb_socket : inp_socket n' = inp_socket n;
  sb_ppcb : inp_ppcb n' = inp_ppcb n;
  sb_timewait : inp_timewait n' = inp_timewait n;
  sb_refcount : inp_refcount n' = inp_refcount n;
  sb_listed : inp_listed n' = inp_listed n }.

(** The users differ in what they say of [a] only. *)
Record same_user_but (a : nat) (u u' : user) : Prop := {
  su_pins : pins u' = pins u;
  su_opens : forall b, b <> a -> b ∈ opens u' <-> b ∈ opens u;
  su_closing : forall b, b <> a -> b ∈ closing u' <-> b ∈ closing u;
  su_disj : opens u' ## closing u' }.

Lemma same_user_refl a u : opens u ## closing u -> same_user_but a u u.
Proof. split; auto; reflexivity. Qed.

Lemma su_owned a u u' b : same_user_but a u u' -> b <> a -> b ∈ owned u' <-> b ∈ owned u.
Proof. intros [_ H1 H2 _] Hne. unfold owned. rewrite !elem_of_union, (H1 b Hne), (H2 b Hne). reflexivity. Qed.

(** What the new socket and PCB have to satisfy themselves. *)
Record pair_ok (Y' : gset nat) (u' : user) (o : shape) (a : nat) (s s' : socket) (n n' : inpcb) : Prop := {
  po_ref : ss_protoref s' = inp_sockref n';
  po_count : so_count s' = if decide (a ∈ owned u') then 1 else 0;
  po_nofd : ss_nofdref s' = false -> a ∈ owned u';
  po_waiting : waiting s -> ss_protoref s' = false /\ a ∉ owned u';
  po_queue : so_incomp s ++ so_comp s <> [] -> a ∈ owned u';
  po_peer : forall p, so_passive_peer s = Some p -> at_ (oS o) p waiting -> ss_protoref s' = false /\ a ∉ owned u';
  po_released : a ∉ Y' -> released u' o a s' n';
  po_dropped : inp_timewait n = true -> inp_dropped n' = inp_dropped n;
  po_listen : inp_timewait n = false -> inp_dropped n' = false -> a ∈ opens u' \/ (inp_dropped n = false /\ forall t l, inp_ppcb n = Some (Tcpcb t) -> oT o !! t = Some l -> snd l = false);
  po_sockref : inp_sockref n' = true -> inp_dropped n' = false /\ a ∉ opens u' }.

(** Both written. *)
Definition set_pair (a : nat) (s' : socket) (i : nat) (n' : inpcb) (o : shape) : shape :=
  o <| oS := <[a := s']> (oS o) |> <| oI := <[i := n']> (oI o) |>.

Section Pair.
Context (Y Y' R : gset nat) (u u' : user) (o : shape) (a i : nat) (s s' : socket) (n n' : inpcb).
Context (W : wf Y ∅ R u o) (Ha : oS o !! a = Some s) (Hi : oI o !! i = Some n) (Hp : so_pcb s = Some i).
Context (L : same_links s s') (B : same_block n n') (U : same_user_but a u u') (P : pair_ok Y' u' o a s s' n n').
Context (HY : Y ⊆ Y') (An : a ∉ Y' -> anchored o s') (Ow : owned u ⊆ owned u' \/ Y = ∅).
Context (Hh : forall p, so_passive_peer s = Some p -> p ∉ Y' -> held s -> held s').

Let o' := set_pair a s' i n' o.

Lemma pair_sock : inp_socket n = Some a.
Proof.
  destruct (s_pcb _ _ _ _ _ _ (wf_socks _ _ _ _ _ W _ _ Ha)) as (j & Hj & (n0 & Hn0 & E & _)). congruence.
Qed.

Lemma pair_at_so (k : nat) (Q : socket -> Prop) :
  at_ (oS o) k Q -> (k = a -> Q s -> Q s') -> at_ (oS o') k Q.
Proof. intros H HQ. exact (at_insert _ _ _ _ _ _ Ha H HQ). Qed.
Lemma pair_at_inp (k : nat) (Q : inpcb -> Prop) :
  at_ (oI o) k Q -> (k = i -> Q n -> Q n') -> at_ (oI o') k Q.
Proof. intros H HQ. exact (at_insert _ _ _ _ _ _ Hi H HQ). Qed.

Lemma pair_waiting : waiting s' <-> waiting s.
Proof. unfold waiting. rewrite (sl_head _ _ L). reflexivity. Qed.

Lemma pair_released b sb nb : b <> a -> released u o b sb nb -> released u' o' b sb nb.
Proof.
  intros Hne [H|[H|[H|[(p & Hpe & H)|H]]]].
  - left. apply (su_opens _ _ _ U b Hne), H.
  - right; left; exact H.
  - right; right; left; exact H.
  - right; right; right; left. exists p. split; [exact Hpe|]. apply pair_at_so; [exact H|]. intros _. apply pair_waiting.
  - right; right; right; right; exact H.
Qed.

Lemma pair_anchored b sb : b <> a -> b ∉ Y' -> oS o !! b = Some sb -> sock_ok Y ∅ u o b sb -> anchored o' sb.
Proof.
  intros Hne Hb Hbl [].
  assert (b ∉ Y) as HbY by (intros C; exact (Hb (HY _ C))). destruct (s_anchor0 HbY (not_elem_of_empty _)) as [H|(p & Hpe & H)]; [left; exact H | right].
  exists p. split; [exact Hpe|]. apply pair_at_so; [exact H|]. intros -> Hs.
  apply (Hh b); [|exact Hb | exact Hs].
  destruct (s_peer0 (not_elem_of_empty _) a Hpe) as (_ & _ & (s0 & Hs0 & E & _)). congruence.
Qed.

Lemma pair_newborn b sb sb' h : sq_incomp sb' = sq_incomp sb -> sq_comp sb' = sq_comp sb -> newborn Y u b sb h -> newborn Y' u' b sb' h.
Proof.
  unfold newborn. intros -> -> (N1 & N2 & N3 & N4). destruct Ow as [O|O]; [|rewrite O in N1; destruct (not_elem_of_empty _ N1)].
  split_and!; [exact (HY _ N1) | exact N2 | exact N3 | exact (O _ N4)].
Qed.

Lemma pair_other b sb : b <> a -> oS o !! b = Some sb -> sock_ok Y ∅ u o b sb -> sock_ok Y' ∅ u' o' b sb.
Proof.
  intros Hne Hb K. pose proof (pair_anchored b sb Hne) as An'. destruct K as [K1 K2 K3 K4 K5 K6 K7 K8 K9 K10 K11 K12 K13 K14].
  pose proof (su_owned a u u' b U Hne) as Ho. split.
  - destruct K1 as (j & Hj & K1). exists j. split; [exact Hj|]. apply pair_at_inp.
    + eapply at_impl; [exact K1|]. cbn. intros x _ (E1 & E2 & E3 & E4). split_and!; auto.
      intros HbY _. apply pair_released; auto. apply E3; [intros C; exact (HbY (HY _ C)) | apply not_elem_of_empty].
    + intros -> (E & _). rewrite pair_sock in E. congruence.
  - rewrite K2. destruct (decide (b ∈ owned u)), (decide (b ∈ owned u')); tauto.
  - intros H. apply Ho, K3, H.
  - intros h Hhd. destruct (K4 h Hhd) as [K4'|K4']; [left | right; exact (pair_newborn b sb sb h eq_refl eq_refl K4')].
    apply pair_at_so; [exact K4'|]. intros _ [(Q1 & Q2 & Q3)|(Q1 & Q2 & Q3)];
      [left; rewrite (proj1 (sl_incomp _ _ L)) | right; rewrite (proj1 (sl_comp _ _ L))]; auto.
  - intros Hw. split; [apply K5, Hw | rewrite Ho; apply K5, Hw].
  - exact K6.
  - exact K7.
  - exact K8.
  - intros c Hc. destruct (K9 c Hc) as [Q1 Q2]. split; [apply Ho, Q1|]. apply pair_at_so; [exact Q2|].
    intros _ E. rewrite (sl_head _ _ L). exact E.
  - intros _ p Hpe. destruct (K10 (not_elem_of_empty _) p Hpe) as (Q1 & Q2 & Q3). split_and!; [exact Q1 | apply not_elem_of_empty |].
    destruct (decide (p = a)) as [->|Hpa].
    + apply at_insert_eq. destruct Q3 as (s0 & Hs0 & E & Q3). assert (s0 = s) as -> by congruence.
      rewrite (sl_peer _ _ L), (sl_head _ _ L). split; [exact E|]. intros Hw. split; [apply Q3, Hw|].
      apply (po_peer _ _ _ _ _ _ _ _ P b E). exists sb. auto.
    + apply pair_at_so; [|congruence]. eapply at_impl; [exact Q3|]. cbn. intros x _ [E Q]. split; [exact E|].
      intros Hw. destruct (Q Hw) as (E1 & E2 & E3). split_and!; auto. rewrite (su_owned a u u' p U Hpa). exact E3.
  - exact K11.
  - intros H1 _. exact (An' H1 Hb ltac:(split; assumption)).
  - intros C. destruct (not_elem_of_empty _ C).
  - exact K14.
Qed.

Lemma pair_self : sock_ok Y' ∅ u' o' a s'.
Proof.
  destruct (wf_socks _ _ _ _ _ W _ _ Ha) as [K1 K2 K3 K4 K5 K6 K7 K8 K9 K10 K11 K12 K13 K14]. destruct P as [P1 P2 P3 P4 P5 P6 P7 P8 P9 P10].
  destruct L as [L1 L2 [L3 L3'] [L4 L4'] (L5 & L5' & L5'') L6 L7 L8].
  assert (Own : forall b, b <> a -> b ∈ owned u' <-> b ∈ owned u) by (intros b; apply (su_owned a u u' b U)).
  split.
  - exists i. rewrite L1. split; [exact Hp|]. apply at_insert_eq. rewrite (sb_socket _ _ B), pair_sock.
    split_and!; [reflexivity | exact P1 | | intros C; destruct (not_elem_of_empty _ C)]. intros HaY _.
    destruct (P7 HaY) as [H|[H|[H|[(p & Hpe & H)|H]]]];
      [left; exact H | right; left; exact H | right; right; left; exact H | | right; right; right; right; exact H].
    right; right; right; left. exists p. split; [exact Hpe|]. apply pair_at_so; [exact H|]. intros _. apply pair_waiting.
  - exact P2.
  - exact P3.
  - intros h Hhd. rewrite L2 in Hhd. destruct (K4 h Hhd) as [K4'|K4']; [left | right; exact (pair_newborn a s s' h L3 L3' K4')].
    apply pair_at_so.
    + eapply at_impl; [exact K4'|]. unfold queued. rewrite L3, L3'. auto.
    + intros _. unfold queued. rewrite L4, L5. auto.
  - rewrite pair_waiting. exact P4.
  - rewrite L2, L3, L3'. exact K6.
  - rewrite L4, L5. exact K7.
  - rewrite L4, L5, L4', L5'. destruct K8 as (Q1 & Q2 & Q3). auto.
  - rewrite L4, L5. intros b Hb. split; [apply P5; intros E; rewrite E in Hb; inversion Hb|].
    apply pair_at_so; [exact (proj2 (K9 b Hb))|]. intros _ E. rewrite L2. exact E.
  - rewrite L6. intros _ p Hpe. destruct (K10 (not_elem_of_empty _) p Hpe) as (Q1 & Q2 & Q3). split_and!; [exact Q1 | apply not_elem_of_empty |].
    apply pair_at_so; [|congruence]. eapply at_impl; [exact Q3|]. cbn. intros x _ [E Q]. split; [exact E|].
    intros Hw. apply pair_waiting in Hw. destruct (Q Hw) as (E1 & E2 & E3). split_and!; auto. rewrite (Own p Q1). exact E3.
  - rewrite pair_waiting, L6. intros Hw. rewrite (L7 Hw). exact (K11 Hw).
  - intros H1 _. destruct (An H1) as [H|(p & Hpe & H)]; [left; exact H | right]. exists p. split; [exact Hpe|].
    apply pair_at_so; [exact H|]. rewrite L6 in Hpe. destruct (K10 (not_elem_of_empty _) p Hpe) as (Q1 & _). congruence.
  - intros C. destruct (not_elem_of_empty _ C).
  - rewrite L4, L5. auto.
Qed.
Lemma pair_inp j m : j <> i -> oI o !! j = Some m -> inp_ok u o j m -> inp_ok u' o' j m.
Proof.
  intros Hne Hj [K1 K2 K3 K4 K5 K6 K7].
  assert (Na : forall b, inp_socket m = Some b -> b <> a).
  { intros b Hb ->. destruct (K2 a Hb) as [_ (s0 & Hs0 & E)]. congruence. }
  split; auto.
  - rewrite (su_pins _ _ _ U). exact K1.
  - intros b Hb. destruct (K2 b Hb) as [Q1 Q2]. split; [exact Q1|]. apply pair_at_so; [exact Q2|]. intros ->. destruct (Na a Hb eq_refl).
  - intros Q1 Q2. destruct (K5 Q1 Q2) as (R1 & t & l & R2 & R3 & R4). split; [exact R1|]. exists t, l. split_and!; auto.
    intros El Ed b Hb. apply (su_opens _ _ _ U b (Na b Hb)). auto.
  - intros Hr. destruct (K6 Hr) as (R1 & b & R2 & R3). split; [exact R1|]. exists b. split; [exact R2|].
    rewrite (su_opens _ _ _ U b (Na b R2)). exact R3.
Qed.

Lemma pair_inp_self : inp_ok u' o' i n'.
Proof.
  destruct (wf_inps _ _ _ _ _ W _ _ Hi) as [K1 K2 K3 K4 K5 K6 K7]. destruct P as [P1 P2 P3 P4 P5 P6 P7 P8 P9 P10].
  destruct B as [B1 B2 B3 B4 B5]. pose proof pair_sock as Es. split; rewrite ?B1, ?B2, ?B3, ?B4, ?B5.
  - rewrite (su_pins _ _ _ U). exact K1.
  - intros b Hb. destruct (K2 b Hb) as [Q1 Q2]. split; [exact Q1|]. apply pair_at_so; [exact Q2|]. intros _ E. rewrite (sl_pcb _ _ L). exact E.
  - intros Q1 Q2. rewrite (P8 Q2). auto.
  - intros Q1 Q2. rewrite (P8 Q2). auto.
  - intros Q1 Q2. destruct (K5 Q1 Q2) as (R1 & t & l & R2 & R3 & R4). split; [exact R1|]. exists t, l. split_and!; auto.
    intros El Ed b Hb. assert (b = a) as -> by congruence. destruct (P9 Q2 Ed) as [H|[_ H]]; [exact H|].
    specialize (H t _ R2 R3). cbn in H. congruence.
  - intros Hr. destruct (P10 Hr) as [R1 R2]. split; [exact R1|]. exists a. auto.
  - exact K7.
Qed.

Lemma wf_pair : wf Y' ∅ R u' o'.
Proof.
  pose proof W as [W1 W2 W3 W4 W5 W6 (W7 & W7' & W7'') W8]. split.
  - intros b sb Hb. change (oS o') with (<[a := s']> (oS o)) in Hb. apply lookup_insert_Some in Hb as [[<- <-]|[Hne Hb]]; [exact pair_self|].
    apply pair_other; auto.
  - intros j m Hj. change (oI o') with (<[i := n']> (oI o)) in Hj.
    apply lookup_insert_Some in Hj as [[<- <-]|[Hne Hj]]; [exact pair_inp_self|].
    apply pair_inp; auto.
  - intros t x Ht. destruct (W3 t x Ht) as (j & Hj & Q). exists j. split; [exact Hj|]. apply pair_at_inp; [exact Q|].
    intros _ E. rewrite (sb_ppcb _ _ B). exact E.
  - intros t x Ht Hr. destruct (W4 t x Ht Hr) as (Q1 & j & Hj & Q). split; [exact Q1|]. exists j. split; [exact Hj|].
    apply pair_at_inp; [exact Q|]. intros _ E. rewrite (sb_ppcb _ _ B). exact E.
  - intros t Ht. destruct (W5 t Ht) as (Q1 & Q2 & Q3). split_and!; auto. intros j m Hj.
    change (oI o') with (<[i := n']> (oI o)) in Hj. apply lookup_insert_Some in Hj as [[<- <-]|[Hne Hj]]; [rewrite (sb_ppcb _ _ B); exact (Q3 _ _ Hi) | exact (Q3 _ _ Hj)].
  - exact W6.
  - split_and!; [exact (su_disj _ _ _ U) | |].
    + intros b Hb. cbn. destruct (decide (b = a)) as [->|Hne]; [rewrite lookup_insert_eq; eauto|].
      rewrite lookup_insert_ne by congruence. apply W7', (su_owned a u u' b U Hne), Hb.
    + intros j. rewrite (su_pins _ _ _ U). intros Hj. cbn. destruct (decide (j = i)) as [->|Hne]; [rewrite lookup_insert_eq; eauto|].
      rewrite lookup_insert_ne by congruence. auto.
  - intros k Hk. cbn. destruct (W8 k Hk) as (Q1 & Q2 & Q3 & Q4).
    rewrite !lookup_insert_ne by congruence. auto.
Qed.
End Pair.

Lemma no_refs s : sohasrefs s = false -> ss_nofdref s = true /\ so_count s = 0 /\ ss_protoref s = false /\ sq_comp s = false.
Proof.
  unfold sohasrefs. intros H. repeat (apply orb_false_iff in H as [H ?]). apply negb_false_iff in H.
  destruct (Z.eqb_spec (so_count s) 0); [auto | discriminate].
Qed.

Lemma no_refs_owned Y X u o a s : sock_ok Y X u o a s -> sohasrefs s = false -> a ∉ owned u.
Proof.
  intros [] H. destruct (no_refs s H) as (_ & E & _). rewrite s_count0 in E. destruct (decide (a ∈ owned u)); [lia | assumption].
Qed.

Lemma no_refs_queues Y X u o a s : sock_ok Y X u o a s -> sohasrefs s = false -> so_incomp s = [] /\ so_comp s = [].
Proof.
  intros K H. pose proof (no_refs_owned _ _ _ _ _ _ K H) as No. pose proof (s_member _ _ _ _ _ _ K) as M.
  destruct (so_incomp s ++ so_comp s) as [|c l] eqn:E; [apply app_eq_nil in E; exact E|].
  destruct (M c) as [C _]; [left|]. contradiction.
Qed.

(** ** Freeing a socket *)

Section Drop.
Context (Y X R : gset nat) (u : user) (o : shape) (a i : nat) (s : socket) (n : inpcb).
Context (I' : gmap nat inpcb) (T' : gmap nat (option nat * bool)).
Context (W : wf Y X R u o) (HX : a ∈ X) (Ha : oS o !! a = Some s) (Hi : oI o !! i = Some n) (Hp : so_pcb s = Some i).
Let o' := o <| oS := delete a (oS o) |> <| oI := I' |> <| oT := T' |>.
Context (HI : forall j, j <> i -> I' !! j = oI o !! j).
Context (Hn : match I' !! i with None => i ∉ pins u | Some n' => inp_socket n' = None /\ inp_ok u o' i n' end).
Context (HT : forall t, inp_ppcb n <> Some (Tcpcb t) -> T' !! t = oT o !! t).
Context (HT' : forall t, inp_ppcb n = Some (Tcpcb t) -> T' !! t = None).
Context (Hw : forall t, inp_ppcb n = Some (Tcptw t) -> at_ I' i (fun n' => inp_ppcb n' = Some (Tcptw t))).
Context (Hw' : forall n' t, I' !! i = Some n' -> inp_ppcb n' = Some (Tcptw t) -> inp_ppcb n = Some (Tcptw t)).

Lemma drop_sock : inp_socket n = Some a /\ leaving s n.
Proof.
  destruct (s_pcb _ _ _ _ _ _ (wf_socks _ _ _ _ _ W _ _ Ha)) as (j & Hj & (n0 & Hn0 & E & _ & _ & Lv)).
  assert (n0 = n) as -> by congruence. auto.
Qed.

Lemma drop_at_so k (Q : socket -> Prop) : at_ (oS o) k Q -> k <> a -> at_ (oS o') k Q.
Proof. intros H Hne. exact (at_delete _ _ _ _ H Hne). Qed.
Lemma drop_at_inp k (Q : inpcb -> Prop) : at_ (oI o) k Q -> k <> i -> at_ (oI o') k Q.
Proof. intros (x & Hx & HQ) Hne. exists x. cbn. rewrite HI by exact Hne. auto. Qed.

(** Nobody waits on a socket that leaves, and none but leaving ones are its peers. *)
Lemma drop_not_head b sb : oS o !! b = Some sb -> so_head sb <> Some a.
Proof.
  intros Hb E. destruct (s_head _ _ _ _ _ _ (wf_socks _ _ _ _ _ W _ _ Hb) a E) as [(sh & Hsh & Q)|(_ & _ & _ & Q)].
  2: { exact (no_refs_owned _ _ _ _ _ _ (wf_socks _ _ _ _ _ W _ _ Ha) (s_leaving _ _ _ _ _ _ (wf_socks _ _ _ _ _ W _ _ Ha) HX) Q). }
  destruct drop_sock as [_ [_ _ L2 L3]]. assert (sh = s) as -> by congruence.
  destruct Q as [(_ & _ & Q)|(_ & _ & Q)]; [rewrite L2 in Q | rewrite L3 in Q]; inversion Q.
Qed.

Lemma drop_other b sb : b <> a -> oS o !! b = Some sb -> sock_ok Y (X ∖ {[a]}) u o' b sb.
Proof.
  intros Hne Hb. pose proof (drop_not_head b sb Hb) as Nh. destruct (wf_socks _ _ _ _ _ W _ _ Hb) as [K1 K2 K3 K4 K5 K6 K7 K8 K9 K10 K11 K12 K13 K14].
  assert (EX : b ∈ X ∖ {[a]} <-> b ∈ X) by (rewrite elem_of_difference, elem_of_singleton; tauto).
  assert (Np : b ∉ X -> forall p, so_passive_peer sb = Some p -> p <> a).
  { intros HbX p E ->. destruct (K10 HbX a E) as (_ & C & _). contradiction. }
  split; auto.
  - destruct K1 as (j & Hj & K1). exists j. split; [exact Hj|].
    assert (j <> i) as Hji.
    { intros ->. destruct K1 as (n0 & Hn0 & E & _). assert (n0 = n) as -> by congruence. destruct drop_sock as [E' _]. congruence. }
    apply drop_at_inp; [|exact Hji]. eapply at_impl; [exact K1|]. cbn. intros x _ (E1 & E2 & E3 & E4). rewrite EX.
    split_and!; auto. intros HbY HbX. destruct (E3 HbY HbX) as [H|[H|[H|[(p & Hpe & H)|H]]]];
      [left; exact H | right; left; exact H | right; right; left; exact H | | right; right; right; right; exact H].
    right; right; right; left. exists p. split; [exact Hpe|]. apply drop_at_so; [exact H | exact (Np HbX p Hpe)].
  - intros h Hh. destruct (K4 h Hh) as [K4'|K4']; [left | right; exact K4'].
    apply drop_at_so; [exact K4'|]. intros ->. exact (Nh Hh).
  - intros c Hc. destruct (K9 c Hc) as [Q1 Q2]. split; [exact Q1|]. apply drop_at_so; [exact Q2|]. intros ->.
    destruct Q2 as (s0 & Hs0 & E). assert (s0 = s) as -> by congruence. destruct drop_sock as [_ []]. congruence.
  - rewrite EX. intros HbX p Hpe. destruct (K10 HbX p Hpe) as (Q1 & Q2 & Q3). split_and!; [exact Q1 | rewrite elem_of_difference; tauto |].
    apply drop_at_so; [exact Q3 | exact (Np HbX p Hpe)].
  - rewrite EX. intros HbY HbX. destruct (K12 HbY HbX) as [H|(p & Hpe & H)]; [left; exact H | right].
    exists p. split; [exact Hpe|]. apply drop_at_so; [exact H | exact (Np HbX p Hpe)].
  - rewrite EX. exact K13.
Qed.

Lemma drop_inp j m : j <> i -> oI o !! j = Some m -> inp_ok u o' j m.
Proof.
  intros Hne Hj. destruct (wf_inps _ _ _ _ _ W _ _ Hj) as [K1 K2 K3 K4 K5 K6 K7]. split; auto.
  - intros b Hb. destruct (K2 b Hb) as [Q1 Q2]. split; [exact Q1|]. apply drop_at_so; [exact Q2|]. intros ->.
    destruct Q2 as (s0 & Hs0 & E). congruence.
  - intros Q1 Q2. destruct (K5 Q1 Q2) as (R1 & t & l & R2 & R3 & R4). split; [exact R1|]. exists t, l. split_and!; auto.
    cbn. rewrite HT; [exact R3|]. intros E.
    destruct (inp_ok_tcpcb _ _ _ _ _ (wf_inps _ _ _ _ _ W _ _ Hi) E) as (_ & _ & l0 & D). congruence.
Qed.

Lemma wf_drop : wf Y (X ∖ {[a]}) R u o'.
Proof.
  pose proof W as [W1 W2 W3 W4 W5 W6 (W7 & W7' & W7'') W8]. split.
  - intros b sb Hb. change (oS o') with (delete a (oS o)) in Hb. apply lookup_delete_Some in Hb as [Hne Hb].
    apply drop_other; auto.
  - intros j m Hj. change (oI o') with I' in Hj. destruct (decide (j = i)) as [->|Hne].
    + rewrite Hj in Hn. apply Hn.
    + rewrite HI in Hj by exact Hne. apply drop_inp; assumption.
  - intros t x Ht. change (oT o') with T' in Ht.
    assert (Nt : inp_ppcb n <> Some (Tcpcb t)) by (intros E; rewrite HT' in Ht by exact E; discriminate).
    rewrite HT in Ht by exact Nt. destruct (W3 t x Ht) as (j & Hj & Q). exists j. split; [exact Hj|].
    apply drop_at_inp; [exact Q|]. intros ->. destruct Q as (n0 & Hn0 & E). congruence.
  - intros t x Ht Hr. destruct (W4 t x Ht Hr) as (Q1 & j & Hj & Q). split; [exact Q1|]. exists j. split; [exact Hj|].
    destruct (decide (j = i)) as [->|Hne]; [|apply drop_at_inp; assumption].
    apply Hw. destruct Q as (n0 & Hn0 & E). congruence.
  - intros t Ht. destruct (W5 t Ht) as (Q1 & Q2 & Q3). split_and!; auto. intros j m Hj. change (oI o') with I' in Hj.
    destruct (decide (j = i)) as [->|Hne].
    + intros E. exact (Q3 _ _ Hi (Hw' _ _ Hj E)).
    + rewrite HI in Hj by exact Hne. exact (Q3 _ _ Hj).
  - exact W6.
  - split_and!; [exact W7 | |].
    + intros b Hb. change (oS o') with (delete a (oS o)). rewrite lookup_delete_ne; [auto|]. intros <-.
      destruct (wf_socks _ _ _ _ _ W _ _ Ha) as []. specialize (s_leaving0 HX). unfold sohasrefs in s_leaving0.
      rewrite s_count0, decide_True in s_leaving0 by exact Hb. cbn in s_leaving0. rewrite orb_true_r in s_leaving0. discriminate.
    + intros j Hj. change (oI o') with I'. destruct (decide (j = i)) as [->|Hne].
      * destruct (I' !! i); [eauto | contradiction].
      * rewrite HI by exact Hne. auto.
  - intros k Hk. destruct (W8 k Hk) as (Q1 & Q2 & Q3 & Q4). cbn. rewrite lookup_delete_ne, HI by congruence.
    split_and!; auto. rewrite HT; [exact Q3|]. intros E.
    destruct (inp_ok_tcpcb _ _ _ _ _ (wf_inps _ _ _ _ _ W _ _ Hi) E) as (_ & _ & l0 & D). congruence.
Qed.
End Drop.

(** ** Symbolic execution *)

Section Put.
Implicit Types (Q : unit -> shape -> Prop).

Lemma run_keep_so a f s o Q : oS o !! a = Some s -> (forall so, sshape (f so) = sshape so) -> Q tt o -> run (set_so a f) o Q.
Proof.
  intros Ha Hf HQ. apply (run_set_so a f s s o Q Ha); [intros so <-; apply Hf|].
  destruct o. cbn in *. rewrite insert_id by exact Ha. exact HQ.
Qed.
Lemma run_put_so a f s o Q : oS o !! a = Some s -> (forall so, sshape (f so) = f (sshape so)) ->
  Q tt (o <| oS := <[a := f s]> (oS o) |>) -> run (set_so a f) o Q.
Proof. intros Ha Hf HQ. apply (run_set_so a f s (f s) o Q Ha); [intros so <-; apply Hf | exact HQ]. Qed.

Lemma run_keep_inp a f s o Q : oI o !! a = Some s -> (forall x, ishape (f x) = ishape x) -> Q tt o -> run (set_inp a f) o Q.
Proof.
  intros Ha Hf HQ. apply (run_set_inp a f s s o Q Ha); [intros so <-; apply Hf|].
  destruct o. cbn in *. rewrite insert_id by exact Ha. exact HQ.
Qed.
Lemma run_put_inp a f s o Q : oI o !! a = Some s -> (forall x, ishape (f x) = f (ishape x)) ->
  Q tt (o <| oI := <[a := f s]> (oI o) |>) -> run (set_inp a f) o Q.
Proof. intros Ha Hf HQ. apply (run_set_inp a f s (f s) o Q Ha); [intros so <-; apply Hf | exact HQ]. Qed.
End Put.

Ltac shp := cbn [oS oI oT oW oQ oN oV update eta eta_shape set_pair].
Ltac look :=
  shp; first [eassumption | rewrite lookup_insert_eq; reflexivity | rewrite lookup_insert_ne by congruence; eassumption
             | rewrite lookup_insert_ne by congruence; rewrite lookup_insert_eq; reflexivity
             | rewrite lookup_insert_ne by congruence; rewrite lookup_insert_ne by congruence; eassumption].
(** The fields of an object are those of its shape. *)
Ltac fields :=
  repeat match goal with
  | E : ishape ?x = ?n |- _ =>
      match goal with
      | |- context [inp_socket x] => change (inp_socket x) with (inp_socket (ishape x))
      | |- context [inp_ppcb x] => change (inp_ppcb x) with (inp_ppcb (ishape x))
      | |- context [inp_timewait x] => change (inp_timewait x) with (inp_timewait (ishape x))
      | |- context [inp_dropped x] => change (inp_dropped x) with (inp_dropped (ishape x))
      | |- context [inp_sockref x] => change (inp_sockref x) with (inp_sockref (ishape x))
      | |- context [inp_refcount x] => change (inp_refcount x) with (inp_refcount (ishape x))
      end
  | E : sshape ?x = ?n |- _ =>
      match goal with
      | |- context [sohasrefs x] => change (sohasrefs x) with (sohasrefs (sshape x))
      | |- context [so_count x] => change (so_count x) with (so_count (sshape x))
      | |- context [so_acceptconn x] => change (so_acceptconn x) with (so_acceptconn (sshape x))
      | |- context [so_passive x] => change (so_passive x) with (so_passive (sshape x))
      | |- context [ss_nofdref x] => change (ss_nofdref x) with (ss_nofdref (sshape x))
      | |- context [ss_protoref x] => change (ss_protoref x) with (ss_protoref (sshape x))
      | |- context [sq_incomp x] => change (sq_incomp x) with (sq_incomp (sshape x))
      | |- context [sq_comp x] => change (sq_comp x) with (sq_comp (sshape x))
      | |- context [so_head x] => change (so_head x) with (so_head (sshape x))
      | |- context [so_incomp x] => change (so_incomp x) with (so_incomp (sshape x))
      | |- context [so_comp x] => change (so_comp x) with (so_comp (sshape x))
      | |- context [so_incqlen x] => change (so_incqlen x) with (so_incqlen (sshape x))
      | |- context [so_qlen x] => change (so_qlen x) with (so_qlen (sshape x))
      | |- context [so_qlimit x] => change (so_qlimit x) with (so_qlimit (sshape x))
      | |- context [so_pcb x] => change (so_pcb x) with (so_pcb (sshape x))
      | |- context [so_passive_peer x] => change (so_passive_peer x) with (so_passive_peer (sshape x))
      end
  | E : tshape ?x = ?n |- _ =>
      match goal with |- context [t_inpcb x] => change (t_inpcb x) with (fst (tshape x)) end
  | E : tw_inpcb ?x = ?n |- context [tw_inpcb ?x] => rewrite E
  end;
  repeat match goal with
  | E : ishape ?x = _ |- context [ishape ?x] => rewrite E
  | E : sshape ?x = _ |- context [sshape ?x] => rewrite E
  | E : tshape ?x = _ |- context [tshape ?x] => rewrite E
  end.

(** One statement of a computation on a known shape. *)
Ltac prim :=
  lazymatch goal with
  | |- run (mret _) _ _ => apply run_ret
  | |- run (deref (Some _)) _ _ => apply run_deref
  | |- run (KASSERT _) _ _ => apply run_KASSERT; [intros _; fields |]
  | |- run (get_so _) _ _ => eapply run_get_so; [look | let so := fresh "so" in let E := fresh "Eso" in intros so E]
  | |- run (get_inp _) _ _ => eapply run_get_inp; [look | let so := fresh "inp" in let E := fresh "Einp" in intros so E]
  | |- run (get_tp _) _ _ => eapply run_get_tp; [look | let so := fresh "tp" in let E := fresh "Etp" in intros so E]
  | |- run (get_tw _) _ _ => eapply run_get_tw; [look | let so := fresh "tw" in let E := fresh "Etw" in intros so E]
  | |- run (set_so _ _) _ _ => first [eapply run_keep_so; [look | reflexivity |] | eapply run_put_so; [look | reflexivity |]]
  | |- run (set_inp _ _) _ _ => first [eapply run_keep_inp; [look | reflexivity |] | eapply run_put_inp; [look | reflexivity |]]
  | |- run (free_so _) _ _ => eapply run_free_so; [look|]
  | |- run (free_inp _) _ _ => eapply run_free_inp; [look|]
  | |- run (free_tp _) _ _ => eapply run_free_tp; [look|]
  | |- run (free_tw _) _ _ => eapply run_free_tw; [look|]
  | |- run zalloc _ _ => apply run_zalloc; let b := fresh "ok" in intros b
  | |- run new_address _ _ => apply run_new_address
  end; cbv beta.
Ltac binds := repeat lazymatch goal with |- run (mbind _ _) _ _ => apply run_bind end.
Ltac step := binds; prim.

(** Giving a PCB back: it goes, or stays unlisted for those who hold it. *)
Definition put_back (i : nat) (n : inpcb) (I : gmap nat inpcb) : gmap nat inpcb :=
  if inp_refcount n =? 1 then delete i I
  else <[i := n <| inp_listed := false |> <| inp_refcount := inp_refcount n - 1 |>]> I.

Lemma run_pcbfree i n o Q :
  oI o !! i = Some n -> inp_socket n = None -> 0 < inp_refcount n < 2 ^ 32 ->
  Q tt (o <| oI := put_back i n (oI o) |>) -> run (in_pcbfree i) o Q.
Proof.
  intros Hi Hs Hr HQ. unfold in_pcbfree, in_pcbrele_wlocked.
  step. step; [rewrite Hs; reflexivity|]. step. step. step; [apply Z.ltb_lt, Hr|]. step. fields.
  cbn [inp_refcount update eta eta_inpcb].
  unfold put_back in HQ. destruct (Z.eqb_spec (inp_refcount n) 1) as [E|E]; cbn [negb].
  - step; [cbn; rewrite Hs; reflexivity|]. step. step. step. shp. rewrite !delete_insert_eq. exact HQ.
  - step. step. shp. rewrite insert_insert_eq, u32_small by lia. exact HQ.
Qed.

Lemma run_pcbdetach a i s n o Q :
  oS o !! a = Some s -> oI o !! i = Some n -> inp_socket n = Some a ->
  Q tt (set_pair a (s <| so_pcb := None |>) i (n <| inp_socket := None |>) o) -> run (in_pcbdetach i) o Q.
Proof.
  intros Ha Hi Hs HQ. unfold in_pcbdetach. step. step; [rewrite Hs; reflexivity|]. fields. rewrite Hs. step. step. step. exact HQ.
Qed.

Lemma run_discardcb a i t s n l o Q :
  oS o !! a = Some s -> oI o !! i = Some n -> oT o !! t = Some (Some i, l) -> inp_socket n = Some a ->
  Q tt (o <| oI := <[i := n <| inp_ppcb := None |>]> (oI o) |> <| oT := delete t (oT o) |>) -> run (tcp_discardcb t) o Q.
Proof.
  intros Ha Hi Ht Hs HQ. unfold tcp_discardcb. step. fields. cbn [fst]. step. step. fields. rewrite Hs. step. step. step.
  apply run_bind. eapply run_set_tp with (s' := (None, l)); [look | intros x [= E1 E2]; unfold tshape; cbn; congruence |].
  cbv beta. step. shp. rewrite delete_insert_eq. exact HQ.
Qed.

(** ** Disposing of a socket *)

Lemma put_back_ne i n I j : j <> i -> put_back i n I !! j = I !! j.
Proof. intros H. unfold put_back. destruct (_ =? _); [apply lookup_delete_ne | apply lookup_insert_ne]; congruence. Qed.

Lemma pins_zero u i : count_occ Nat.eq_dec (pins u) i = 0%nat -> i ∉ pins u.
Proof. intros H. rewrite list_elem_of_In. apply (count_occ_not_In Nat.eq_dec), H. Qed.

(** A PCB that is given back is no longer listed. *)
Lemma inp_ok_put_back u o o' i n m :
  inp_ok u o i n -> inp_listed n = true -> inp_socket m = None -> inp_ppcb m = None -> inp_sockref m = false ->
  inp_refcount m = inp_refcount n ->
  match put_back i m (oI o) !! i with None => i ∉ pins u | Some n' => inp_socket n' = None /\ inp_ok u o' i n' end.
Proof.
  intros [[K1 K1'] _ _ _ _ _ _] Hl Hs Hp Hr Ec. rewrite Hl in K1. unfold put_back. rewrite Ec.
  destruct (Z.eqb_spec (inp_refcount n) 1) as [E|E].
  - rewrite lookup_delete_eq. apply pins_zero. lia.
  - rewrite lookup_insert_eq. split; [exact Hs|]. split; cbn; try discriminate; rewrite ?Hs, ?Hp, ?Hr, ?Ec; try discriminate; auto. lia.
Qed.

Section Dispose.
Context (Y X R : gset nat) (u : user) (o : shape) (a i : nat) (s : socket) (n : inpcb).
Context (W : wf Y X R u o) (HX : a ∈ X) (Ha : oS o !! a = Some s) (Hi : oI o !! i = Some n) (Hp : so_pcb s = Some i).

Lemma leaving_sockref : inp_sockref n = false.
Proof.
  destruct (s_pcb _ _ _ _ _ _ (wf_socks _ _ _ _ _ W _ _ Ha)) as (j & Hj & (n0 & Hn0 & _ & E & _)).
  assert (n0 = n) as -> by congruence. pose proof (s_leaving _ _ _ _ _ _ (wf_socks _ _ _ _ _ W _ _ Ha) HX) as F.
  unfold sohasrefs in F. apply orb_false_iff in F as [F _]. apply orb_false_iff in F as [_ F]. congruence.
Qed.

Definition disposed (o' : shape) : Prop :=
  wf Y (X ∖ {[a]}) R u o' /\ oS o' = delete a (oS o) /\ (forall j, j <> i -> oI o' !! j = oI o !! j) /\
  oQ o' = oQ o /\ oV o' = oV o.

(** The PCB is given back, [T'] being the control blocks that are left. *)
Lemma disposed_back T' :
  over n -> (inp_timewait n = true -> inp_dropped n = true) ->
  (forall t, inp_ppcb n <> Some (Tcpcb t) -> T' !! t = oT o !! t) -> (forall t, inp_ppcb n = Some (Tcpcb t) -> T' !! t = None) ->
  disposed (o <| oS := delete a (oS o) |> <| oI := put_back i (n <| inp_ppcb := None |> <| inp_socket := None |>) (oI o) |> <| oT := T' |>).
Proof.
  intros Ov Htw HT HT'. destruct (drop_sock Y X R u o a i s n W HX Ha Hi Hp) as [Es Lv].
  pose proof (wf_inps _ _ _ _ _ W _ _ Hi) as K. destruct (n_sock _ _ _ _ K a Es) as [El _].
  pose proof leaving_sockref as Er.
  split_and!; [|reflexivity | intros j Hj; apply put_back_ne, Hj | reflexivity | reflexivity].
  assert (Nw : forall t, inp_ppcb n <> Some (Tcptw t)).
  { intros t E. destruct (inp_ok_tcptw _ _ _ _ _ K E) as (_ & E1 & E2 & _). rewrite (Htw E1) in E2. discriminate. }
  apply (wf_drop Y X R u o a i s n); auto.
  - intros j Hj. apply put_back_ne, Hj.
  - apply (inp_ok_put_back u o _ i n); auto.
  - intros t E. destruct (Nw t E).
  - intros n' t Hn' E. exfalso. unfold put_back in Hn'. destruct (_ =? 1).
    + rewrite lookup_delete_eq in Hn'. discriminate.
    + rewrite lookup_insert_eq in Hn'. injection Hn' as <-. discriminate.
Qed.

(** The PCB stays in TIME_WAIT. *)
Lemma disposed_tw : inp_timewait n = true -> inp_dropped n = false ->
  disposed (o <| oS := delete a (oS o) |> <| oI := <[i := n <| inp_socket := None |>]> (oI o) |>).
Proof.
  intros Htw Hd. destruct (drop_sock Y X R u o a i s n W HX Ha Hi Hp) as [Es Lv].
  pose proof (wf_inps _ _ _ _ _ W _ _ Hi) as K. destruct (n_sock _ _ _ _ K a Es) as [El _].
  split_and!; [|reflexivity | intros j Hj; apply lookup_insert_ne; congruence | reflexivity | reflexivity].
  assert (Np : forall t, inp_ppcb n <> Some (Tcpcb t)).
  { intros t E. destruct (inp_ok_tcpcb _ _ _ _ _ K E) as (_ & E1 & _). congruence. }
  change (wf Y (X ∖ {[a]}) R u
    (o <| oS := delete a (oS o) |> <| oI := <[i := n <| inp_socket := None |>]> (oI o) |> <| oT := oT o |>)).
  apply (wf_drop Y X R u o a i s n); auto.
  - intros j Hj. apply lookup_insert_ne. congruence.
  - rewrite lookup_insert_eq. split; [reflexivity|]. destruct K as [K1 K2 K3 K4 K5 K6 K7].
    split; cbn; rewrite ?El, ?Htw, ?Hd; try discriminate; auto.
    + rewrite El in K1. exact K1.
    + rewrite leaving_sockref. discriminate.
  - intros t E. destruct (Np t E).
  - intros t E. apply at_insert_eq. exact E.
  - intros n' t Hn' E. rewrite lookup_insert_eq in Hn'. injection Hn' as <-. exact E.
Qed.
End Dispose.

Lemma run_sodealloc a s o Q :
  oS o !! a = Some s -> so_count s = 0 -> so_pcb s = None -> Q tt (o <| oS := delete a (oS o) |>) -> run (sodealloc a) o Q.
Proof.
  intros Ha Hc Hp HQ. unfold sodealloc. step. step; [rewrite Hc; reflexivity|]. step; [rewrite Hp; reflexivity|]. step. exact HQ.
Qed.

Lemma leaving_count Y X u o a s : sock_ok Y X u o a s -> a ∈ X -> so_count s = 0.
Proof.
  intros [] HX. specialize (s_leaving0 HX). unfold sohasrefs in s_leaving0. destruct (Z.eqb_spec (so_count s) 0); [assumption|].
  cbn in s_leaving0. rewrite orb_true_r in s_leaving0. discriminate.
Qed.

Lemma put_back_insert i n m I : put_back i n (<[i := m]> I) = put_back i n I.
Proof. unfold put_back. destruct (_ =? _); [apply delete_insert_eq | apply insert_insert_eq]. Qed.

Lemma clear_ppcb n : inp_ppcb n = None -> n <| inp_ppcb := None |> = n.
Proof. destruct n. cbn. intros ->. reflexivity. Qed.

Lemma run_dispose Y X R u o a i s (Q : unit -> shape -> Prop) :
  wf Y X R u o -> a ∈ X -> oS o !! a = Some s -> so_pcb s = Some i -> (forall o', disposed Y X R u o a i o' -> Q tt o') -> run (sofree_dispose a) o Q.
Proof.
  intros W HX Ha Hp HQ. pose proof (wf_socks _ _ _ _ _ W _ _ Ha) as K. pose proof (leaving_count _ _ _ _ _ _ K HX) as Ec.
  destruct (s_pcb _ _ _ _ _ _ K) as (i0 & Hp0 & (n & Hi & _)). assert (i0 = i) as -> by congruence.
  destruct (drop_sock Y X R u o a i s n W HX Ha Hi Hp) as [Es [Ov _ _ _]].
  pose proof (wf_inps _ _ _ _ _ W _ _ Hi) as N. destruct (n_sock _ _ _ _ N a Es) as [El _]. pose proof (n_refs _ _ _ _ N) as [_ Nr].
  unfold sofree_dispose, tcp_usr_detach, tcp_detach.
  step. step; [rewrite Hp; reflexivity|]. fields. rewrite Hp. step. step. step; [rewrite Es; reflexivity|]. step. step.
  step; [rewrite Hp; apply bool_decide_eq_true_2; reflexivity|]. step; [rewrite Es; apply bool_decide_eq_true_2; reflexivity|].
  fields. destruct (inp_timewait n) eqn:Et; [destruct (inp_dropped n) eqn:Ed|].
  - destruct (n_twgone _ _ _ _ N El Et Ed) as [Epp _]. step; [rewrite Epp; reflexivity|].
    binds. eapply run_pcbdetach; [look | look | exact Es |]. cbv beta.
    eapply run_pcbfree; [look | reflexivity | exact Nr |]. cbv beta.
    eapply run_sodealloc; [look | exact Ec | reflexivity |]. shp. apply HQ.
    rewrite delete_insert_eq, put_back_insert. rewrite <- (clear_ppcb n) at 1 by exact Epp.
    apply (disposed_back Y X R u o a i s n W HX Ha Hi Hp (oT o)); auto; congruence.
  - binds. eapply run_pcbdetach; [look | look | exact Es |]. cbv beta.
    eapply run_sodealloc; [look | exact Ec | reflexivity |]. shp. apply HQ. rewrite delete_insert_eq.
    apply (disposed_tw Y X R u o a i s n); auto.
  - destruct (n_tcb _ _ _ _ N El Et) as (_ & t & l & Epp & Ht & _).
    assert (Ed : inp_dropped n = true) by (destruct Ov; congruence).
    unfold intotcpcb. fields. rewrite Epp, Ed. step. step. step.
    binds. eapply run_discardcb; [look | look | look | exact Es |]. cbv beta. binds.
    eapply run_pcbdetach; [look | look | exact Es |]. cbv beta.
    eapply run_pcbfree; [look | reflexivity | exact Nr |]. cbv beta.
    eapply run_sodealloc; [look | exact Ec | reflexivity |]. shp. apply HQ.
    rewrite delete_insert_eq, !put_back_insert.
    apply (disposed_back Y X R u o a i s n W HX Ha Hi Hp (delete t (oT o))); auto.
    + intros t' E. apply lookup_delete_ne. congruence.
    + intros t' E. rewrite Epp in E. injection E as <-. apply lookup_delete_eq.
Qed.

(** ** Queues *)

(** A change to sockets that leaves their PCBs alone. *)
Lemma wf_socks_only Y Y' X X' R u o S' :
  wf Y X R u o -> map_Forall (sock_ok Y' X' u (o <| oS := S' |>)) S' ->
  (forall k s, oS o !! k = Some s -> at_ S' k (fun s' => so_pcb s' = so_pcb s)) -> (forall k, oS o !! k = None -> S' !! k = None) ->
  wf Y' X' R u (o <| oS := S' |>).
Proof.
  intros [W1 W2 W3 W4 W5 W6 (W7 & W7' & W7'') W8] HS Hk Hn. split; auto.
  - intros i n Hi. destruct (W2 i n Hi) as [K1 K2 K3 K4 K5 K6 K7]. split; auto.
    intros a Ea. destruct (K2 a Ea) as [Q1 (s & Hs & Q2)]. split; [exact Q1|]. eapply at_impl; [exact (Hk a s Hs)|]. cbn. congruence.
  - split_and!; auto. intros a Ha. destruct (W7' a Ha) as [s Hs]. destruct (Hk a s Hs) as (s' & Hs' & _). exists s'. exact Hs'.
  - intros k Hk0. destruct (W8 k Hk0) as (Q1 & Q2). split; [apply Hn, Q1 | exact Q2].
Qed.

Definition pair_of (a : nat) (s : socket) : gset nat := {[a]} ∪ from_option singleton ∅ (so_passive_peer s).

Lemma pair_of_self a s : a ∈ pair_of a s.
Proof. unfold pair_of. set_solver. Qed.
Lemma pair_of_peer a s p : so_passive_peer s = Some p -> p ∈ pair_of a s.
Proof. intros E. unfold pair_of. rewrite E. cbn. set_solver. Qed.

(** [sh'] is [sh] without [a] in its queues. *)
Record left_queue (a : nat) (sh sh' : socket) : Prop := {
  lq_pcb : so_pcb sh' = so_pcb sh;
  lq_head : so_head sh' = so_head sh;
  lq_sq : sq_incomp sh' = sq_incomp sh /\ sq_comp sh' = sq_comp sh;
  lq_refs : so_count sh' = so_count sh /\ ss_nofdref sh' = ss_nofdref sh /\ ss_protoref sh' = ss_protoref sh;
  lq_peer : so_passive_peer sh' = so_passive_peer sh;
  lq_passive : so_passive sh' = so_passive sh;
  lq_accept : so_acceptconn sh' = so_acceptconn sh;
  lq_incomp : so_incomp sh' = remove1 a (so_incomp sh);
  lq_comp : so_comp sh' = remove1 a (so_comp sh);
  lq_lens : so_incqlen sh' = u16 (Z.of_nat (length (so_incomp sh'))) /\ so_qlen sh' = u16 (Z.of_nat (length (so_comp sh'))) /\ so_qlimit sh' = so_qlimit sh }.

Definition off_queue (s : socket) : socket := s <| sq_incomp := false |> <| sq_comp := false |> <| so_head := None |>.

Lemma elem_of_remove1 a b l : b ∈ remove1 a l <-> b ∈ l /\ b <> a.
Proof. unfold remove1. rewrite list_elem_of_filter. tauto. Qed.

Section Leave.
Context (Y Y' R : gset nat) (u : user) (o : shape) (a h : nat) (s sh sh' : socket).
Context (W : wf Y ∅ R u o) (Ha : oS o !! a = Some s) (Hh : oS o !! h = Some sh) (Hd : so_head s = Some h).
Context (Lq : left_queue a sh sh') (HY : Y ⊆ Y') (HYp : pair_of a s ⊆ Y').
Let S' := <[a := off_queue s]> (<[h := sh']> (oS o)).
Let o' := o <| oS := S' |>.

Lemma leave_owned : (a ∉ owned u) /\ (h ∈ owned u) /\ ss_protoref s = false.
Proof.
  destruct (wf_socks _ _ _ _ _ W _ _ Ha) as [K1 K2 K3 K4 K5 K6 K7 K8 K9 K10 K11 K12 K13 K14].
  destruct K5 as [E1 E2]; [unfold waiting; congruence|]. destruct (K4 h Hd) as [(x & Hx & Q)|(_ & _ & _ & Q)]; [|auto].
  assert (x = sh) as -> by congruence.
  destruct (wf_socks _ _ _ _ _ W _ _ Hh) as [_ _ _ _ _ _ _ _ J _ _ _ _ _].
  destruct (J a) as [J1 _]; [|auto]. rewrite elem_of_app. destruct Q as [(_ & _ & Q)|(_ & _ & Q)]; auto.
Qed.
Lemma leave_ne : a <> h.
Proof. destruct leave_owned as (E1 & E2 & _). intros E. rewrite E in E1. contradiction. Qed.

Lemma leave_lookup k : S' !! k = if decide (k = a) then Some (off_queue s) else if decide (k = h) then Some sh' else oS o !! k.
Proof.
  unfold S'. destruct (decide (k = a)) as [->|Hka]; [apply lookup_insert_eq|]. rewrite lookup_insert_ne by congruence.
  destruct (decide (k = h)) as [->|Hkh]; [apply lookup_insert_eq | apply lookup_insert_ne; congruence].
Qed.

Lemma leave_at k (Q : socket -> Prop) :
  at_ (oS o) k Q -> (k = a -> Q s -> Q (off_queue s)) -> (k = h -> Q sh -> Q sh') -> at_ (oS o') k Q.
Proof.
  intros H H1 H2. apply at_insert with (s := s); [rewrite lookup_insert_ne by (apply not_eq_sym, leave_ne); exact Ha | | exact H1].
  apply at_insert with (s := sh); assumption.
Qed.

Lemma leave_hasrefs : sohasrefs sh' = sohasrefs sh.
Proof. unfold sohasrefs. destruct Lq as [_ _ [_ ->] (-> & -> & ->) _ _ _ _ _ _]. reflexivity. Qed.

Lemma leave_held : held sh -> held sh'.
Proof. unfold held, waiting. rewrite leave_hasrefs, (lq_head _ _ _ Lq). auto. Qed.

(** What another socket sees. *)
Lemma leave_links b sb : b <> a -> oS o !! b = Some sb ->
  (forall i n, oI o !! i = Some n -> b ∉ Y' -> released u o b sb n -> released u o' b sb n) /\ (b ∉ Y' -> anchored o sb -> anchored o' sb) /\
  (forall k, so_head sb = Some k -> at_ (oS o') k (queued b sb) \/ newborn Y' u b sb k) /\
  (forall p, so_passive_peer sb = Some p -> p <> b /\ at_ (oS o') p (fun sp => so_passive_peer sp = Some b /\
      (waiting sb -> so_head sp = None /\ ss_protoref sp = false /\ p ∉ owned u))).
Proof.
  intros Hne Hb. destruct (wf_socks _ _ _ _ _ W _ _ Hb) as [K1 K2 K3 K4 K5 K6 K7 K8 K9 K10 K11 K12 K13 K14].
  assert (Np : b ∉ Y' -> forall p, so_passive_peer sb = Some p -> p <> a).
  { intros HbY p E ->. destruct (K10 (not_elem_of_empty _) a E) as (_ & _ & (x & Hx & E' & _)). assert (x = s) as -> by congruence.
    apply HbY, HYp, pair_of_peer, E'. }
  split_and!.
  - intros i n Hi HbY [H|[H|[H|[(p & Hpe & H)|H]]]];
      [left; exact H | right; left; exact H | right; right; left; exact H | | right; right; right; right; exact H].
    right; right; right; left. exists p. split; [exact Hpe|]. apply leave_at; [exact H | intros C; destruct (Np HbY p Hpe C) |].
    intros _. unfold waiting. rewrite (lq_head _ _ _ Lq). auto.
  - intros HbY [H|(p & Hpe & H)]; [left; exact H | right]. exists p. split; [exact Hpe|].
    apply leave_at; [exact H | intros C; destruct (Np HbY p Hpe C) | intros _; apply leave_held].
  - intros k Hk. destruct (K4 k Hk) as [K4'|(N1 & N2)]; [left | right; exact (conj (HY _ N1) N2)].
    apply leave_at; [exact K4' | intros _ Q; exact Q |]. intros _.
    unfold queued. rewrite (lq_incomp _ _ _ Lq), (lq_comp _ _ _ Lq), !elem_of_remove1. intros [(Q1 & Q2 & Q3)|(Q1 & Q2 & Q3)]; auto 10.
  - intros p Hpe. destruct (K10 (not_elem_of_empty _) p Hpe) as (Q1 & _ & Q3). split; [exact Q1|].
    apply leave_at; [exact Q3 | |].
    + intros -> [E Q]. split; [exact E|]. intros Hw. destruct (Q Hw) as (E1 & E2 & E3). auto.
    + intros _ [E Q]. rewrite (lq_peer _ _ _ Lq), (lq_head _ _ _ Lq), (proj2 (proj2 (lq_refs _ _ _ Lq))). auto.
Qed.

Lemma leave_other b sb : b <> a -> b <> h -> oS o !! b = Some sb -> sock_ok Y' ∅ u o' b sb.
Proof.
  intros Hba Hbh Hb. destruct (leave_links b sb Hba Hb) as (V1 & V2 & V3 & V4).
  destruct (wf_socks _ _ _ _ _ W _ _ Hb) as [K1 K2 K3 K4 K5 K6 K7 K8 K9 K10 K11 K12 K13 K14]. split; auto.
  - destruct K1 as (j & Hj & K1). exists j. split; [exact Hj|]. eapply at_impl; [exact K1|]. cbn. intros x Hx (E1 & E2 & E3 & E4).
    split_and!; auto. intros HbY _. apply (V1 j x Hx HbY). apply E3; [intros C; exact (HbY (HY _ C)) | apply not_elem_of_empty].
  - intros c Hc. destruct (K9 c Hc) as [Q1 Q2]. split; [exact Q1|]. apply leave_at; [exact Q2 | |].
    + intros -> E. congruence.
    + intros _ E. rewrite (lq_head _ _ _ Lq). exact E.
  - intros _ p Hpe. destruct (V4 p Hpe) as [Q1 Q2]. split_and!; [exact Q1 | apply not_elem_of_empty | exact Q2].
  - intros HbY _. apply V2; [exact HbY|]. apply K12; [intros C; exact (HbY (HY _ C)) | apply not_elem_of_empty].
Qed.

Lemma leave_head : sock_ok Y' ∅ u o' h sh'.
Proof.
  assert (Hha : h <> a) by (apply not_eq_sym, leave_ne). destruct (leave_links h sh Hha Hh) as (V1 & V2 & V3 & V4).
  destruct (wf_socks _ _ _ _ _ W _ _ Hh) as [K1 K2 K3 K4 K5 K6 K7 K8 K9 K10 K11 K12 K13 K14].
  pose proof leave_owned as (_ & Ho & _).
  assert (Nw : ~ waiting sh) by (intros Hw; destruct (K5 Hw); contradiction).
  destruct Lq as [L1 L2 [L3 L3'] (L4 & L4' & L4'') L5 L6 L10 L7 L8 (L9 & L9' & L9'')].
  assert (Wt : waiting sh' <-> waiting sh) by (unfold waiting; rewrite L2; reflexivity).
  split; rewrite ?L1, ?L2, ?L3, ?L3', ?L4, ?L4', ?L4'', ?L5, ?L6; auto.
  - destruct K1 as (j & Hj & K1). exists j. split; [exact Hj|]. eapply at_impl; [exact K1|]. cbn. intros x Hx (E1 & E2 & E3 & E4).
    split_and!; auto; [|intros C; destruct (not_elem_of_empty _ C)]. intros HbY _.
    destruct (V1 j x Hx HbY) as [H|[H|[H|[(p & Hpe & H)|H]]]];
      [apply E3; [intros C; exact (HbY (HY _ C)) | apply not_elem_of_empty] | left; exact H | right; left; exact H | contradiction | | right; right; right; right; exact H].
    right; right; right; left. exists p. rewrite L5. auto.
  - intros k Hk. exfalso. apply Nw. unfold waiting. congruence.
  - rewrite Wt. contradiction.
  - rewrite L7, L8. apply NoDup_app in K7 as (N1 & N2 & N3). apply NoDup_app. unfold remove1.
    split_and!; [apply NoDup_filter, N1 | | apply NoDup_filter, N3].
    intros c. rewrite !list_elem_of_filter. intros [_ Hc] [_ Hc']. exact (N2 c Hc Hc').
  - split_and!; auto. rewrite L9''. apply K8.
  - intros c. rewrite L7, L8, elem_of_app, !elem_of_remove1. intros Hc.
    assert (Hc' : c ∈ so_incomp sh ++ so_comp sh /\ c <> a) by (rewrite elem_of_app; tauto).
    destruct (K9 c (proj1 Hc')) as [Q1 Q2]. split; [exact Q1|]. apply leave_at; [exact Q2 | intros E; destruct (proj2 Hc' E) |].
    intros _ E. congruence.
  - intros _ p Hpe. destruct (V4 p Hpe) as [Q1 Q2]. split_and!; [exact Q1 | apply not_elem_of_empty |].
    eapply at_impl; [exact Q2|]. cbn. intros x _ [E Q]. split; [exact E|]. rewrite Wt. contradiction.
  - rewrite Wt. contradiction.
  - intros HbY _. destruct (V2 HbY) as [H|(p & Hpe & H)]; [apply K12; [intros C; exact (HbY (HY _ C)) | apply not_elem_of_empty] | left | right].
    + apply leave_held, H.
    + exists p. rewrite L5. auto.
  - intros C. destruct (not_elem_of_empty _ C).
  - rewrite L10, L7, L8. intros Hq. apply K14. intros E. apply Hq. apply app_eq_nil in E as [-> ->]. reflexivity.
Qed.

Lemma leave_self : sock_ok Y' ∅ u o' a (off_queue s).
Proof.
  destruct (wf_socks _ _ _ _ _ W _ _ Ha) as [K1 K2 K3 K4 K5 K6 K7 K8 K9 K10 K11 K12 K13 K14]. pose proof leave_owned as (Ho & _ & Hpr).
  assert (HaY : a ∈ Y') by (apply HYp, pair_of_self).
  split; cbn; auto; try (intros C; destruct (C eq_refl)).
  - destruct K1 as (j & Hj & K1). exists j. split; [exact Hj|]. eapply at_impl; [exact K1|]. cbn. intros x Hx (E1 & E2 & E3 & E4).
    split_and!; auto; [contradiction | intros C; destruct (not_elem_of_empty _ C)].
  - discriminate.
  - intros c Hc. destruct (K9 c Hc) as [Q1 _]. contradiction.
  - intros _ p Hpe. destruct (K10 (not_elem_of_empty _) p Hpe) as (Q1 & _ & Q3). split_and!; [exact Q1 | apply not_elem_of_empty |].
    apply leave_at; [|congruence|].
    + eapply at_impl; [exact Q3|]. cbn. intros x _ [E _]. split; [exact E|]. intros C. destruct (C eq_refl).
    + intros _ [E Q]. rewrite (lq_peer _ _ _ Lq). split; [exact E|]. intros C. destruct (C eq_refl).
  - contradiction.
  - intros C. destruct (not_elem_of_empty _ C).
Qed.

Lemma wf_leave : wf Y' ∅ R u o'.
Proof.
  apply (wf_socks_only Y Y' ∅ ∅ R u o S' W).
  - intros b sb Hb. rewrite leave_lookup in Hb. destruct (decide (b = a)) as [->|Hba]; [injection Hb as <-; exact leave_self|].
    destruct (decide (b = h)) as [->|Hbh]; [injection Hb as <-; exact leave_head|]. apply leave_other; assumption.
  - intros k sk Hk. unfold at_. rewrite leave_lookup. destruct (decide (k = a)) as [->|Hka].
    + eexists. split; [reflexivity|]. cbn. congruence.
    + destruct (decide (k = h)) as [->|Hkh]; eexists; (split; [first [reflexivity | eassumption]|]); [|reflexivity].
      rewrite (lq_pcb _ _ _ Lq). congruence.
  - intros k Hk. rewrite leave_lookup, decide_False, decide_False by congruence. exact Hk.
Qed.
End Leave.

Lemma remove1_notin a l : a ∉ l -> remove1 a l = l.
Proof.
  unfold remove1. induction l as [|b l IH]; intros H; [reflexivity|]. apply not_elem_of_cons in H as [H1 H2].
  rewrite filter_cons_True by congruence. rewrite IH by exact H2. reflexivity.
Qed.

Lemma length_remove1 a l : NoDup l -> a ∈ l -> Z.of_nat (length (remove1 a l)) = Z.of_nat (length l) - 1.
Proof.
  induction 1 as [|b l Hb Hl IH]; intros Ha; [inversion Ha|]. unfold remove1 in *. destruct (decide (b = a)) as [->|Hne].
  - rewrite filter_cons_False by congruence. pose proof (remove1_notin a l Hb) as E. unfold remove1 in E. rewrite E. cbn [length]. lia.
  - rewrite filter_cons_True by congruence. apply elem_of_cons in Ha as [->|Ha]; [contradiction|].
    cbn [length]. rewrite !Nat2Z.inj_succ, (IH Ha). lia.
Qed.

Lemma u16_pred x : u16 (u16 x - 1) = u16 (x - 1).
Proof. unfold u16. apply Zminus_mod_idemp_l. Qed.
Lemma u16_succ x : u16 (u16 x + 1) = u16 (x + 1).
Proof. unfold u16. apply Zplus_mod_idemp_l. Qed.

Definition without_incomp (a : nat) (h : socket) : socket :=
  h <| so_incomp := remove1 a (so_incomp h) |> <| so_incqlen := u16 (so_incqlen h - 1) |>.
Definition without_comp (a : nat) (h : socket) : socket :=
  h <| so_comp := remove1 a (so_comp h) |> <| so_qlen := u16 (so_qlen h - 1) |>.


Lemma left_incomp Y X u o a h sh : sock_ok Y X u o h sh -> a ∈ so_incomp sh -> left_queue a sh (without_incomp a sh).
Proof.
  intros K Ha. destruct (s_lens _ _ _ _ _ _ K) as (L1 & L2 & L3). pose proof (s_nodup _ _ _ _ _ _ K) as N.
  apply NoDup_app in N as (N1 & N2 & N3). split; cbn; auto.
  - symmetry. apply remove1_notin. auto.
  - rewrite L1, u16_pred, (length_remove1 a _ N1 Ha). auto.
Qed.

Lemma left_comp Y X u o a h sh : sock_ok Y X u o h sh -> a ∈ so_comp sh -> left_queue a sh (without_comp a sh).
Proof.
  intros K Ha. destruct (s_lens _ _ _ _ _ _ K) as (L1 & L2 & L3). pose proof (s_nodup _ _ _ _ _ _ K) as N.
  apply NoDup_app in N as (N1 & N2 & N3). split; cbn; auto.
  - symmetry. apply remove1_notin. intros C. exact (N2 a C Ha).
  - rewrite L2, u16_pred, (length_remove1 a _ N3 Ha). auto.
Qed.

Lemma run_leave_incomp h a sh o (Q : unit -> shape -> Prop) :
  oS o !! h = Some sh -> a ∈ so_incomp sh -> Q tt (o <| oS := <[h := without_incomp a sh]> (oS o) |>) -> run (leave_incomp h a) o Q.
Proof.
  intros Hh Ha HQ. unfold leave_incomp. step. fields. rewrite bool_decide_eq_true_2 by exact Ha. step. exact HQ.
Qed.
Lemma run_leave_comp h a sh o (Q : unit -> shape -> Prop) :
  oS o !! h = Some sh -> a ∈ so_comp sh -> Q tt (o <| oS := <[h := without_comp a sh]> (oS o) |>) -> run (leave_comp h a) o Q.
Proof.
  intros Hh Ha HQ. unfold leave_comp. step. fields. rewrite bool_decide_eq_true_2 by exact Ha. step. exact HQ.
Qed.

(** [sofree_dequeue] of a socket without references. *)
Definition dequeued (Y R : gset nat) (u : user) (o : shape) (a : nat) (s : socket) (o' : shape) : Prop :=
  wf Y ∅ R u o' /\ oS o' !! a = Some (off_queue s) /\ (forall b, b <> a -> so_head s <> Some b -> oS o' !! b = oS o !! b) /\
  oI o' = oI o /\ oQ o' = oQ o /\ oV o' = oV o.

(** On a queue, if it waits. *)
Definition enqueued (s : socket) : Prop := waiting s -> sq_incomp s = true \/ sq_comp s = true.

Lemma off_queue_same Y X u o a s : sock_ok Y X u o a s -> so_head s = None -> off_queue s = s.
Proof. intros K E. destruct (s_nohead _ _ _ _ _ _ K E) as [E1 E2]. destruct s. cbn in *. subst. reflexivity. Qed.

Lemma run_dequeue Y R u o a s (Q : unit -> shape -> Prop) :
  wf Y ∅ R u o -> pair_of a s ⊆ Y -> oS o !! a = Some s -> sohasrefs s = false -> enqueued s ->
  (forall o', dequeued Y R u o a s o' -> Q tt o') -> run (sofree_dequeue a) o Q.
Proof.
  intros W HY Ha Hr Hq HQ. pose proof (wf_socks _ _ _ _ _ W _ _ Ha) as K. destruct (no_refs s Hr) as (_ & _ & _ & Ec).
  destruct (no_refs_queues _ _ _ _ _ _ K Hr) as [Eq1 Eq2].
  assert (Tail : forall o', dequeued Y R u o a s o' ->
    run (so ← get_so a; KASSERT (negb (sq_comp so) && negb (sq_incomp so));;
      when (so_acceptconn so) (KASSERT (bool_decide (so_comp so = []));; KASSERT (bool_decide (so_incomp so = [])))) o' Q).
  { intros o' D. pose proof D as (_ & Ha' & _). step. step; [cbn; reflexivity|]. apply run_when; intros _; [|exact (HQ o' D)].
    step; [cbn; rewrite Eq2; reflexivity|]. step; [cbn; rewrite Eq1; reflexivity|]. exact (HQ o' D). }
  unfold sofree_dequeue. step. fields. destruct (so_head s) as [h|] eqn:Eh.
  - assert (Wt : waiting s) by (unfold waiting; congruence).
    destruct (s_head _ _ _ _ _ _ K h Eh) as [(sh & Hh & [(Q1 & Q2 & Q3)|(_ & Q2 & _)])|(_ & N1 & N2 & _)];
      [|congruence | destruct (Hq Wt); congruence].
    step; [rewrite Q1, Q2; reflexivity|]. step; [rewrite Q1, Q2; reflexivity|].
    pose proof (leave_ne Y R u o a h s sh W Ha Hh Eh) as Hne.
    binds. eapply run_leave_incomp; [look | exact Q3 |]. cbv beta. step. apply Tail.
    replace (s <| sq_incomp := false |> <| so_head := None |>) with (off_queue s) by (destruct s; cbn in *; subst; reflexivity).
    pose proof (left_incomp _ _ _ _ a h sh (wf_socks _ _ _ _ _ W _ _ Hh) Q3) as Lq.
    split_and!; [exact (wf_leave Y Y R u o a h s sh _ W Ha Hh Eh Lq (reflexivity Y) HY) | look | | reflexivity | reflexivity | reflexivity].
    intros b Hb Hbo. shp. rewrite !lookup_insert_ne; [reflexivity | | congruence]. congruence.
  - step. apply Tail. unfold dequeued. rewrite (off_queue_same _ _ _ _ _ _ K Eh). split_and!; auto.
Qed.

(** Sockets that nothing refers to any more are freed. *)
Lemma wf_promote Y P R u o :
  wf (Y ∪ P) ∅ R u o ->
  (forall a s, a ∈ P -> oS o !! a = Some s -> sohasrefs s = false /\ so_head s = None /\
     (forall p, so_passive_peer s = Some p -> p ∈ P) /\ forall i n, so_pcb s = Some i -> oI o !! i = Some n -> over n) ->
  wf Y P R u o.
Proof.
  intros W HP. pose proof W as [W1 W2 W3 W4 W5 W6 W7 W8]. split; auto. intros a s Ha.
  pose proof (W1 a s Ha) as K. destruct K as [K1 K2 K3 K4 K5 K6 K7 K8 K9 K10 K11 K12 K13 K14].
  assert (EY : a ∉ Y -> a ∉ P -> a ∉ Y ∪ P) by (rewrite elem_of_union; tauto). split; auto.
  - destruct K1 as (j & Hj & (n & Hn & E1 & E2 & E3 & E4)). exists j. split; [exact Hj|]. exists n. split; [exact Hn|].
    split_and!; auto.
    + intros H1 H2. apply E3; [exact (EY H1 H2) | apply not_elem_of_empty].
    + intros HaP. destruct (HP a s HaP Ha) as (F1 & F2 & _ & F3).
      destruct (no_refs_queues _ _ _ _ _ _ (W1 a s Ha) F1) as [F4 F5]. split; auto. exact (F3 j n Hj Hn).
  - intros h Hh. destruct (K4 h Hh) as [K4'|(N1 & N2)]; [left; exact K4' | right]. split; [|exact N2].
    apply elem_of_union in N1 as [N1|N1]; [exact N1|]. destruct (HP a s N1 Ha) as (_ & C & _). congruence.
  - intros HaP p Hpe. destruct (K10 (not_elem_of_empty _) p Hpe) as (Q1 & _ & Q3). split_and!; auto. intros HpP.
    destruct Q3 as (sp & Hsp & E & _). destruct (HP p sp HpP Hsp) as (_ & _ & F & _). exact (HaP (F a E)).
  - intros H1 H2. apply K12; [exact (EY H1 H2) | apply not_elem_of_empty].
  - intros HaP. apply (HP a s HaP Ha).
Qed.

(** Once an operation lets go of sockets the invariant holds of them. *)
Lemma wf_settle Y P R u o :
  wf (Y ∪ P) ∅ R u o ->
  (forall a s, a ∈ P -> oS o !! a = Some s -> enqueued s /\ anchored o s /\
     forall i n, so_pcb s = Some i -> oI o !! i = Some n -> released u o a s n) ->
  wf Y ∅ R u o.
Proof.
  intros W HP. pose proof W as [W1 W2 W3 W4 W5 W6 W7 W8]. split; auto. intros a s Ha.
  destruct (W1 a s Ha) as [K1 K2 K3 K4 K5 K6 K7 K8 K9 K10 K11 K12 K13 K14].
  assert (EY : a ∉ Y -> a ∉ P -> a ∉ Y ∪ P) by (rewrite elem_of_union; tauto). split; auto.
  - destruct K1 as (j & Hj & (n & Hn & E1 & E2 & E3 & E4)). exists j. split; [exact Hj|]. exists n. split; [exact Hn|].
    split_and!; auto. intros H1 H2. destruct (decide (a ∈ P)) as [Hy|Hy]; [exact (proj2 (proj2 (HP a s Hy Ha)) j n Hj Hn)|].
    apply E3; [exact (EY H1 Hy) | exact H2].
  - intros h Hh. destruct (K4 h Hh) as [K4'|(N1 & N2 & N3 & N4)]; [left; exact K4' | right]. split; [|auto].
    apply elem_of_union in N1 as [N1|N1]; [exact N1|]. destruct (HP a s N1 Ha) as (C & _).
    destruct C as [C|C]; [unfold waiting; congruence | congruence | congruence].
  - intros H1 H2. destruct (decide (a ∈ P)) as [Hy|Hy]; [apply (HP a s Hy Ha)|]. apply K12; [exact (EY H1 Hy) | exact H2].
Qed.

(** ** Giving up the last reference *)

(** Nothing refers to either end of a pair. *)
Definition idle (o : shape) (s : socket) : Prop :=
  sohasrefs s = false /\ forall p, so_passive_peer s = Some p -> at_ (oS o) p (fun sp => sohasrefs sp = false).
Definition all_over (o : shape) (P : gset nat) : Prop :=
  forall a s i n, a ∈ P -> oS o !! a = Some s -> so_pcb s = Some i -> oI o !! i = Some n -> over n.
Definition all_released (u : user) (o : shape) (P : gset nat) : Prop :=
  forall a s i n, a ∈ P -> oS o !! a = Some s -> so_pcb s = Some i -> oI o !! i = Some n -> enqueued s /\ released u o a s n.

(** What the freeing of the sockets [P] leaves alone: PCBs of other connections and, if they are not queued, other sockets. *)
Record frees (P : gset nat) (o o' : shape) : Prop := {
  fr_inps : forall i n, oI o !! i = Some n -> ~ over n -> oI o' !! i = Some n;
  fr_socks : (forall a s, a ∈ P -> oS o !! a = Some s -> so_head s = None) -> forall b, b ∉ P -> oS o' !! b = oS o !! b;
  fr_twq : oQ o' = oQ o;
  fr_inv : oV o' = oV o }.

Lemma frees_refl P o : frees P o o.
Proof. split; auto. Qed.

Section Sofree.
Context (Y R : gset nat) (u : user) (o : shape) (a : nat) (s : socket).
Context (W : wf (Y ∪ pair_of a s) ∅ R u o) (Ha : oS o !! a = Some s).

(** A reference is left: both ends stay. *)
Lemma sofree_busy : all_released u o (pair_of a s) -> ~ idle o s -> wf Y ∅ R u o.
Proof.
  intros Hrel Hb. pose proof (wf_socks _ _ _ _ _ W _ _ Ha) as K.
  assert (B : sohasrefs s = true \/ exists p, so_passive_peer s = Some p /\ at_ (oS o) p held).
  { destruct (sohasrefs s) eqn:E; [auto|]. right. destruct (so_passive_peer s) as [p|] eqn:Ep.
    - exists p. split; [reflexivity|]. destruct (s_peer _ _ _ _ _ _ K (not_elem_of_empty _) p Ep) as (_ & _ & (sp & Hsp & _)).
      exists sp. split; [exact Hsp|]. left. destruct (sohasrefs sp) eqn:E2; [reflexivity|]. exfalso. apply Hb. split; [exact E|].
      intros q Eq. rewrite Ep in Eq. injection Eq as <-. exists sp. auto.
    - exfalso. apply Hb. split; [exact E|]. congruence. }
  apply (wf_settle _ _ _ _ _ W). intros b sb Hbp Hb'.
  destruct (s_pcb _ _ _ _ _ _ (wf_socks _ _ _ _ _ W _ _ Hb')) as (j & Hj & (m & Hm & _)).
  split_and!; [exact (proj1 (Hrel b sb j m Hbp Hb' Hj Hm)) | | intros i n Hi Hn; exact (proj2 (Hrel b sb i n Hbp Hb' Hi Hn))].
  unfold pair_of in Hbp. apply elem_of_union in Hbp as [Hbp|Hbp].
  - apply elem_of_singleton in Hbp as ->. assert (sb = s) as -> by congruence.
    destruct B as [B|B]; [left; left; exact B | right; exact B].
  - destruct (so_passive_peer s) as [p|] eqn:Ep; cbn in Hbp; [|destruct (not_elem_of_empty _ Hbp)]. apply elem_of_singleton in Hbp as ->.
    destruct (s_peer _ _ _ _ _ _ K (not_elem_of_empty _) p Ep) as (_ & _ & (sp & Hsp & E & _)). assert (sp = sb) as -> by congruence.
    destruct B as [B|(q & Eq & B)].
    + right. exists a. split; [exact E|]. exists s. split; [exact Ha | left; exact B].
    + injection Eq as <-. destruct B as (x & Hx & B). assert (x = sb) as -> by congruence. left. exact B.
Qed.
End Sofree.

Lemma off_queue_norefs s : sohasrefs s = false -> sohasrefs (off_queue s) = false.
Proof. intros H. destruct (no_refs s H) as (E1 & E2 & E3 & _). unfold sohasrefs. cbn. rewrite E1, E2, E3. reflexivity. Qed.

(** Both ends of a pair that nothing refers to are freed. *)
Lemma run_dispose_one Y X R u o a s (Q : unit -> shape -> Prop) :
  wf Y X R u o -> a ∈ X -> oS o !! a = Some s ->
  (forall o', wf Y (X ∖ {[a]}) R u o' -> oS o' = delete a (oS o) -> frees {[a]} o o' -> Q tt o') -> run (sofree_dispose a) o Q.
Proof.
  intros W Hy Ha HQ. destruct (s_pcb _ _ _ _ _ _ (wf_socks _ _ _ _ _ W _ _ Ha)) as (i & Hp & (n & Hi & _ & _ & _ & Lv)).
  apply (run_dispose Y X R u o a i s); auto. intros o' (D1 & D2 & D3 & D4 & D5). apply HQ; auto. split; [| | exact D4 | exact D5].
  - intros j m Hj Ho. rewrite D3; [exact Hj|]. intros ->. apply Ho. rewrite Hi in Hj. injection Hj as <-. apply Lv, Hy.
  - intros _ b Hb. rewrite D2. apply lookup_delete_ne. set_solver.
Qed.

(** One socket taken off its queue and freed, of those being given up. *)
Lemma run_sofree_single Y R u o a s (Q : unit -> shape -> Prop) :
  wf (Y ∪ pair_of a s) ∅ R u o -> oS o !! a = Some s -> so_passive_peer s = None -> sohasrefs s = false -> enqueued s ->
  all_over o (pair_of a s) -> (forall o', wf Y ∅ R u o' -> frees (pair_of a s) o o' -> Q tt o') ->
  run (sofree_dequeue a;; sofree_dispose a) o Q.
Proof.
  intros W Ha Ep Er Hq Ov HQ. assert (Ya : a ∈ pair_of a s) by apply pair_of_self.
  assert (EY : pair_of a s = {[a]}) by (unfold pair_of; rewrite Ep; cbn; set_solver).
  binds. apply (run_dequeue (Y ∪ pair_of a s) R u o a s); auto; [set_solver|]. intros o1 (W1 & Ha1 & Fr1 & EI1 & EQ1 & EV1).
  assert (W3 : wf Y (pair_of a s) R u o1).
  { apply (wf_promote _ _ _ _ _ W1). intros b sb Hb Hsb. rewrite EI1. rewrite EY, elem_of_singleton in Hb. subst b.
    assert (sb = off_queue s) as -> by congruence. split_and!; [apply off_queue_norefs, Er | reflexivity | cbn; congruence |].
    cbn. intros i n Hi Hn. exact (Ov a s i n Ya Ha Hi Hn). }
  apply (run_dispose_one _ _ _ _ _ _ _ _ W3 Ya Ha1). intros o2 W4 ES2 [F1 F2 F3 F4]. apply HQ.
  - replace (pair_of a s ∖ {[a]}) with (∅ : gset nat) in W4; [exact W4 | rewrite EY; set_solver].
  - split; [| | congruence | congruence].
    + intros i n Hi Hn. apply F1; [rewrite EI1|]; assumption.
    + intros Hh b. rewrite EY, elem_of_singleton. intros Hb. rewrite ES2, lookup_delete_ne by congruence.
      apply Fr1; [exact Hb|]. rewrite (Hh a s Ya Ha). discriminate.
Qed.

Section SofreePair.
Context (Y R : gset nat) (u : user) (o : shape) (a p : nat) (s sp : socket) (Q : unit -> shape -> Prop).
Context (W : wf (Y ∪ pair_of a s) ∅ R u o) (Ha : oS o !! a = Some s) (Ep : so_passive_peer s = Some p).
Context (Hsp : oS o !! p = Some sp) (Epp : so_passive_peer sp = Some a) (Hpa : p <> a).
Context (Er : sohasrefs s = false) (Erp : sohasrefs sp = false) (Hq : enqueued s) (Hqp : enqueued sp) (Ov : all_over o (pair_of a s)).

Lemma pair_members b : b ∈ pair_of a s <-> b = a \/ b = p.
Proof. unfold pair_of. rewrite Ep. cbn. rewrite elem_of_union, !elem_of_singleton. reflexivity. Qed.

(** Neither is the socket the other waits on. *)
Lemma pair_not_head : so_head s <> Some p /\ so_head sp <> Some a.
Proof.
  pose proof (wf_socks _ _ _ _ _ W _ _ Ha) as K. pose proof (wf_socks _ _ _ _ _ W _ _ Hsp) as Kp.
  split; intros C.
  - destruct (leave_owned _ _ _ _ _ _ _ _ W Ha Hsp C) as (_ & D & _). exact (no_refs_owned _ _ _ _ _ _ Kp Erp D).
  - destruct (leave_owned _ _ _ _ _ _ _ _ W Hsp Ha C) as (_ & D & _). exact (no_refs_owned _ _ _ _ _ _ K Er D).
Qed.

Lemma run_sofree_pair : (forall o', wf Y ∅ R u o' -> frees (pair_of a s) o o' -> Q tt o') ->
  run (sofree_dequeue a;; sofree_dequeue p;; sofree_dispose a;; sofree_dispose p) o Q.
Proof.
  intros HQ. pose proof (pair_of_self a s) as Ya. pose proof (pair_of_peer a s p Ep) as Yp. destruct pair_not_head as [Nh Nhp].
  binds. apply (run_dequeue (Y ∪ pair_of a s) R u o a s); auto; [set_solver|]. intros o1 (W1 & Ha1 & Fr1 & EI1 & EQ1 & EV1).
  assert (Hp1 : oS o1 !! p = Some sp) by (rewrite Fr1 by auto; exact Hsp).
  binds. apply (run_dequeue (Y ∪ pair_of a s) R u o1 p sp); auto.
  { intros b. rewrite elem_of_union, pair_members. unfold pair_of. rewrite Epp. cbn. rewrite elem_of_union, !elem_of_singleton. tauto. }
  intros o2 (W2 & Hp2 & Fr2 & EI2 & EQ2 & EV2).
  assert (Ha2 : oS o2 !! a = Some (off_queue s)) by (rewrite Fr2 by auto; exact Ha1).
  assert (W3 : wf Y (pair_of a s) R u o2).
  { apply (wf_promote _ _ _ _ _ W2). intros b sb Hb Hsb. rewrite EI2, EI1. apply pair_members in Hb as [-> | ->].
    - assert (sb = off_queue s) as -> by congruence. split_and!; [apply off_queue_norefs, Er | reflexivity | |].
      + cbn. intros q Eq. apply pair_members. right. congruence.
      + cbn. intros i n Hi Hn. exact (Ov a s i n Ya Ha Hi Hn).
    - assert (sb = off_queue sp) as -> by congruence. split_and!; [apply off_queue_norefs, Erp | reflexivity | |].
      + cbn. intros q Eq. apply pair_members. left. congruence.
      + cbn. intros i n Hi Hn. exact (Ov p sp i n Yp Hsp Hi Hn). }
  binds. apply (run_dispose_one _ _ _ _ _ _ _ _ W3 Ya Ha2). intros o3 W4 ES3 [F1 F2 F3 F4].
  assert (Hp3 : oS o3 !! p = Some (off_queue sp)) by (rewrite ES3, lookup_delete_ne by congruence; exact Hp2).
  assert (Yp' : p ∈ pair_of a s ∖ {[a]}) by (rewrite elem_of_difference, elem_of_singleton; auto).
  apply (run_dispose_one _ _ _ _ _ _ _ _ W4 Yp' Hp3). intros o4 W5 ES4 [G1 G2 G3 G4]. apply HQ.
  - replace (pair_of a s ∖ {[a]} ∖ {[p]}) with (∅ : gset nat) in W5; [exact W5|].
    apply set_eq. intros b. rewrite !elem_of_difference, !elem_of_singleton, pair_members. pose proof (not_elem_of_empty (C := gset nat) b). tauto.
  - split; [| | congruence | congruence].
    + intros i n Hi Hn. apply G1; [|exact Hn]. apply F1; [|exact Hn]. rewrite EI2, EI1. exact Hi.
    + intros Hh b. rewrite pair_members. intros Hb. rewrite ES4, ES3, !lookup_delete_ne by (intros E; apply Hb; auto).
      rewrite Fr2, Fr1; [reflexivity | tauto | rewrite (Hh a s Ya Ha); discriminate | tauto | rewrite (Hh p sp Yp Hsp); discriminate].
Qed.
End SofreePair.

Lemma run_sofree Y R u o a s (Q : unit -> shape -> Prop) :
  wf (Y ∪ pair_of a s) ∅ R u o -> oS o !! a = Some s -> all_released u o (pair_of a s) -> (idle o s -> all_over o (pair_of a s)) ->
  (forall o', wf Y ∅ R u o' -> frees (pair_of a s) o o' -> Q tt o') -> run (sofree a) o Q.
Proof.
  intros W Ha Hrel Hov HQ. pose proof (wf_socks _ _ _ _ _ W _ _ Ha) as K. pose proof (sofree_busy Y R u o a s W Ha Hrel) as Busy.
  assert (Hq : forall b sb, b ∈ pair_of a s -> oS o !! b = Some sb -> enqueued sb).
  { intros b sb Hb Hsb. destruct (s_pcb _ _ _ _ _ _ (wf_socks _ _ _ _ _ W _ _ Hsb)) as (j & Hj & (m & Hm & _)).
    exact (proj1 (Hrel b sb j m Hb Hsb Hj Hm)). }
  unfold sofree. step. fields. destruct (so_passive_peer s) as [p|] eqn:Ep.
  - destruct (s_peer _ _ _ _ _ _ K (not_elem_of_empty _) p Ep) as (Hpa & _ & (sp & Hsp & Epp & _)).
    step. fields. destruct (sohasrefs s) eqn:Er; cbn [orb].
    { step. apply HQ; [apply Busy; intros [C _]; congruence | apply frees_refl]. }
    destruct (sohasrefs sp) eqn:Erp.
    { step. apply HQ; [apply Busy | apply frees_refl]. intros [_ C]. destruct (C p Ep) as (x & Hx & C'). congruence. }
    apply (run_sofree_pair Y R u o a p s sp); auto.
    + exact (Hq a s (pair_of_self a s) Ha).
    + exact (Hq p sp (pair_of_peer a s p Ep) Hsp).
    + apply Hov. split; [exact Er|]. intros q Eq. rewrite Ep in Eq. injection Eq as <-. exists sp. auto.
  - destruct (sohasrefs s) eqn:Er.
    { step. apply HQ; [apply Busy; intros [C _]; congruence | apply frees_refl]. }
    apply (run_sofree_single Y R u o a s); auto.
    + exact (Hq a s (pair_of_self a s) Ha).
    + apply Hov. split; [exact Er | congruence].
Qed.
End LifeInv.
