(* ===== verification/SockLifeOps.v ===== *)
(** * The operations on sockets keep ownership

    For each operation of [SockLife], a rule for [SockLifeInv.LifeInv.run]: started in
    a world that satisfies the invariant it does not fault and the invariant holds
    at its end.  [Y] names the sockets the caller still has in its hands. *)

From stdpp Require Import gmap.
From S2P Require Import Prelude TcpSeq SockLife SockLifeInv.

Module LifeOps.

Import SockLife.Life SockLifeInv.LifeInv.

(** ** Losing a reference *)

Definition settled (u : user) (b : nat) (n : inpcb) : Prop := b ∈ opens u \/ inp_sockref n = true \/ over n.

Lemma settled_released u o b s n : settled u b n -> released u o b s n.
Proof. intros [H|[H|H]]; unfold released; auto 6. Qed.

(** Without a reference, what is settled is over. *)
Lemma settled_over Y X R u o b sb i n :
  wf Y X R u o -> oS o !! b = Some sb -> so_pcb sb = Some i -> oI o !! i = Some n -> settled u b n -> sohasrefs sb = false -> over n.
Proof.
  intros W Hb Hp Hi [H|[H|H]] Hr; [| |exact H].
  - pose proof (no_refs_owned _ _ _ _ _ _ (wf_socks _ _ _ _ _ W _ _ Hb) Hr) as C. destruct C. apply elem_of_union_l, H.
  - destruct (s_pcb _ _ _ _ _ _ (wf_socks _ _ _ _ _ W _ _ Hb)) as (j & Hj & (m & Hm & _ & E & _)).
    destruct (no_refs sb Hr) as (_ & _ & E' & _). assert (m = n) as -> by congruence. congruence.
Qed.

Definition all_settled (u : user) (o : shape) (P : gset nat) : Prop :=
  forall b sb i n, b ∈ P -> oS o !! b = Some sb -> so_pcb sb = Some i -> oI o !! i = Some n -> enqueued sb /\ settled u b n.

Lemma run_sofree_last Y R u o a s (Q : unit -> shape -> Prop) :
  wf (Y ∪ pair_of a s) ∅ R u o -> oS o !! a = Some s -> all_settled u o (pair_of a s) ->
  (forall o', wf Y ∅ R u o' -> frees (pair_of a s) o o' -> Q tt o') -> run (sofree a) o Q.
Proof.
  intros W Ha Hs HQ. apply (run_sofree Y R u o a s); auto.
  - intros b sb i n Hb Hsb Hp Hi. destruct (Hs b sb i n Hb Hsb Hp Hi) as [E1 E2]. split; [exact E1 | apply settled_released, E2].
  - intros [I1 I2] b sb i n Hb Hsb Hp Hi. apply (settled_over _ _ _ _ _ _ _ _ _ W Hsb Hp Hi (proj2 (Hs b sb i n Hb Hsb Hp Hi))).
    unfold pair_of in Hb. apply elem_of_union in Hb as [Hb|Hb]; [apply elem_of_singleton in Hb as ->; congruence|].
    destruct (so_passive_peer s) as [p|] eqn:Ep; cbn in Hb; [|destruct (not_elem_of_empty _ Hb)].
    apply elem_of_singleton in Hb as ->. destruct (I2 p eq_refl) as (x & Hx & E). congruence.
Qed.

(** A socket that is referred to, and its peer, are not on a queue. *)
Lemma pair_settled R u o a s :
  wf ∅ ∅ R u o -> oS o !! a = Some s -> ss_protoref s = true \/ a ∈ owned u ->
  forall b sb i n, b ∈ pair_of a s -> oS o !! b = Some sb -> so_pcb sb = Some i -> oI o !! i = Some n -> so_head sb = None /\ settled u b n.
Proof.
  intros W Ha Hr.
  assert (Na : ~ waiting s).
  { intros C. destruct (s_waiting _ _ _ _ _ _ (wf_socks _ _ _ _ _ W _ _ Ha) C) as [E1 E2]. destruct Hr; [congruence | contradiction]. }
  assert (Np : forall p, so_passive_peer s = Some p -> ~ at_ (oS o) p waiting).
  { intros p Ep (sp & Hsp & C). destruct (s_peer _ _ _ _ _ _ (wf_socks _ _ _ _ _ W _ _ Ha) (not_elem_of_empty _) p Ep) as (_ & _ & (x & Hx & E & _)).
    assert (x = sp) as -> by congruence.
    destruct (s_peer _ _ _ _ _ _ (wf_socks _ _ _ _ _ W _ _ Hsp) (not_elem_of_empty _) a E) as (_ & _ & (y & Hy & _ & D)).
    assert (y = s) as -> by congruence. destruct (D C) as (_ & D1 & D2). destruct Hr; [congruence | contradiction]. }
  assert (Main : forall b sb i n, b ∈ pair_of a s -> oS o !! b = Some sb -> so_pcb sb = Some i -> oI o !! i = Some n ->
    ~ waiting sb /\ forall q, so_passive_peer sb = Some q -> ~ at_ (oS o) q waiting).
  { intros b sb i n Hb Hsb Hp Hi. unfold pair_of in Hb. apply elem_of_union in Hb as [Hb|Hb].
    - apply elem_of_singleton in Hb as ->. assert (sb = s) as -> by congruence. auto.
    - destruct (so_passive_peer s) as [p|] eqn:Ep; cbn in Hb; [|destruct (not_elem_of_empty _ Hb)]. apply elem_of_singleton in Hb as ->.
      destruct (s_peer _ _ _ _ _ _ (wf_socks _ _ _ _ _ W _ _ Ha) (not_elem_of_empty _) p Ep) as (_ & _ & (x & Hx & E & _)).
      assert (x = sb) as -> by congruence. split; [intros C; apply (Np p eq_refl); exists sb; auto|].
      intros q Eq (y & Hy & C). assert (y = s) as -> by congruence. contradiction. }
  intros b sb i n Hb Hsb Hp Hi. destruct (Main b sb i n Hb Hsb Hp Hi) as [M1 M2]. split.
  - unfold waiting in M1. destruct (so_head sb); [destruct M1; discriminate | reflexivity].
  - destruct (s_pcb _ _ _ _ _ _ (wf_socks _ _ _ _ _ W _ _ Hsb)) as (j & Hj & (m & Hm & _ & _ & E & _)). assert (m = n) as -> by congruence.
    destruct (E (not_elem_of_empty _) (not_elem_of_empty _)) as [H|[H|[H|[(q & Eq & H)|H]]]];
      [left; exact H | right; left; exact H | contradiction | destruct (M2 q Eq H) | right; right; exact H].
Qed.

(** ** Connections *)

(** A socket, its PCB and its control block. *)
Record conn (o : shape) (a i t : nat) (s : socket) (n : inpcb) (l : bool) : Prop := {
  c_sock : oS o !! a = Some s;
  c_pcb : so_pcb s = Some i;
  c_inp : oI o !! i = Some n;
  c_back : inp_socket n = Some a;
  c_ppcb : inp_ppcb n = Some (Tcpcb t);
  c_tcb : oT o !! t = Some (Some i, l);
  c_tw : inp_timewait n = false;
  c_listed : inp_listed n = true }.

Section Conn.
Context (Y X R : gset nat) (u : user) (o : shape) (W : wf Y X R u o).

Lemma conn_of_inp a i s n : oS o !! a = Some s -> so_pcb s = Some i -> oI o !! i = Some n -> inp_timewait n = false ->
  exists t l, conn o a i t s n l.
Proof.
  intros Ha Hp Hi Ht. destruct (s_pcb _ _ _ _ _ _ (wf_socks _ _ _ _ _ W _ _ Ha)) as (j & Hj & (m & Hm & Es & _)).
  assert (m = n) as -> by congruence. pose proof (wf_inps _ _ _ _ _ W _ _ Hi) as N. destruct (n_sock _ _ _ _ N a Es) as [El _].
  destruct (n_tcb _ _ _ _ N El Ht) as (_ & t & l & E1 & E2 & _). exists t, l. split; auto.
Qed.

Lemma conn_of_tcb t x : oT o !! t = Some x -> exists a i s n l, x = (Some i, l) /\ conn o a i t s n l.
Proof.
  intros Ht. destruct (wf_tcbs _ _ _ _ _ W _ _ Ht) as (i & Ei & (n & Hi & Ep)). pose proof (wf_inps _ _ _ _ _ W _ _ Hi) as N.
  destruct (inp_ok_tcpcb _ _ _ _ _ N Ep) as (El & Etw & l & Hl). destruct (n_tcb _ _ _ _ N El Etw) as (Ns & _).
  destruct (inp_socket n) as [a|] eqn:Es; [|congruence]. destruct (n_sock _ _ _ _ N a Es) as (_ & (s & Hs & Hp)).
  exists a, i, s, n, l. split; [congruence | split; auto].
Qed.

Lemma sock_pcb a s : oS o !! a = Some s -> exists i n, so_pcb s = Some i /\ oI o !! i = Some n /\ inp_socket n = Some a /\ ss_protoref s = inp_sockref n.
Proof. intros Ha. destruct (s_pcb _ _ _ _ _ _ (wf_socks _ _ _ _ _ W _ _ Ha)) as (i & Hp & (n & Hi & E1 & E2 & _)). eauto 8. Qed.

(** A PCB does not lead to two sockets. *)
Lemma conn_inj a a' i t t' s s' n n' l l' : conn o a i t s n l -> conn o a' i t' s' n' l' -> a = a' /\ t = t'.
Proof. intros [] []. split; congruence. Qed.
End Conn.

Lemma set_pair_same a s i n o : oS o !! a = Some s -> set_pair a s i n o = o <| oI := <[i := n]> (oI o) |>.
Proof. intros Ha. unfold set_pair. rewrite (insert_id (oS o)) by exact Ha. destruct o. reflexivity. Qed.

Lemma set_pair_id a s i n o : oS o !! a = Some s -> oI o !! i = Some n -> set_pair a s i n o = o.
Proof. intros Ha Hi. rewrite set_pair_same, insert_id by assumption. destruct o. reflexivity. Qed.

Lemma set_pair_sock a s i n o : oI o !! i = Some n -> set_pair a s i n o = o <| oS := <[a := s]> (oS o) |>.
Proof. intros Hi. unfold set_pair. cbn. rewrite (insert_id (oI o)) by exact Hi. destruct o. reflexivity. Qed.

Lemma same_links_refl s : same_links s s.
Proof. split; auto. Qed.
Lemma same_block_refl n : same_block n n.
Proof. split; auto. Qed.

(** What the invariant already says of a socket and its PCB. *)
Lemma sock_facts Y R u o a s i n : wf Y ∅ R u o -> oS o !! a = Some s -> so_pcb s = Some i -> oI o !! i = Some n ->
  (forall p, so_passive_peer s = Some p -> at_ (oS o) p waiting -> ss_protoref s = false /\ a ∉ owned u) /\
  (so_incomp s ++ so_comp s <> [] -> a ∈ owned u) /\ (a ∉ Y -> released u o a s n) /\ (a ∉ Y -> anchored o s).
Proof.
  intros W Ha Hp Hi. pose proof (wf_socks _ _ _ _ _ W _ _ Ha) as K. split_and!.
  - intros p Ep (sp & Hsp & C). destruct (s_peer _ _ _ _ _ _ K (not_elem_of_empty _) p Ep) as (_ & _ & (x & Hx & E & _)).
    assert (x = sp) as -> by congruence.
    destruct (s_peer _ _ _ _ _ _ (wf_socks _ _ _ _ _ W _ _ Hsp) (not_elem_of_empty _) a E) as (_ & _ & (y & Hy & _ & D)).
    assert (y = s) as -> by congruence. apply D, C.
  - intros H. destruct (so_incomp s ++ so_comp s) as [|c q] eqn:E; [congruence|].
    apply (s_member _ _ _ _ _ _ K c). rewrite E. left.
  - intros HY. destruct (s_pcb _ _ _ _ _ _ K) as (j & Hj & (m & Hm & _ & _ & E & _)). assert (m = n) as -> by congruence.
    exact (E HY (not_elem_of_empty _)).
  - intros HY. exact (s_anchor _ _ _ _ _ _ K HY (not_elem_of_empty _)).
Qed.

(** A connection is dropped that the protocol does not hold. *)
Lemma wf_dropped Y R u o a i t s n l :
  wf Y ∅ R u o -> conn o a i t s n l -> inp_sockref n = false ->
  wf Y ∅ R u (o <| oI := <[i := n <| inp_dropped := true |>]> (oI o) |>).
Proof.
  intros W [C1 C2 C3 C4 C5 C6 C7 C8] Hr. destruct (sock_facts Y R u o a s i n W C1 C2 C3) as (F1 & F2 & F3 & F4).
  pose proof (wf_socks _ _ _ _ _ W _ _ C1) as K. destruct (s_pcb _ _ _ _ _ _ K) as (j & Hj & (m & Hm & _ & E & _)).
  assert (m = n) as -> by congruence.
  rewrite <- (set_pair_same a s i _ o C1). apply (wf_pair Y Y R u u o a i s s n); auto.
  - apply same_links_refl.
  - split; reflexivity.
  - apply same_user_refl, (wf_user _ _ _ _ _ W).
  - split; cbn; auto; try congruence; [apply K | apply K | apply K |]. intros _. right; right; right; right. left. reflexivity.
Qed.

Lemma sock_ok_same Y X u o o' a s : oS o' = oS o -> oI o' = oI o -> sock_ok Y X u o a s -> sock_ok Y X u o' a s.
Proof. intros E1 E2 []. unfold anchored, released in *. split; unfold anchored, released; rewrite ?E1, ?E2; auto. Qed.

Lemma wf_tcb Y X R u o t i l l' :
  wf Y X R u o -> oT o !! t = Some (Some i, l) -> (l' = true -> l = true \/ forall n a, oI o !! i = Some n -> inp_socket n = Some a -> a ∈ opens u) ->
  wf Y X R u (o <| oT := <[t := (Some i, l')]> (oT o) |>).
Proof.
  intros [W1 W2 W3 W4 W5 W6 W7 W8] Ht Hl. split; auto.
  - intros a s Ha. apply (sock_ok_same Y X u o); auto.
  - intros j n Hj. destruct (W2 j n Hj) as [K1 K2 K3 K4 K5 K6 K7]. split; auto.
    intros Q1 Q2. destruct (K5 Q1 Q2) as (R1 & t' & k & R2 & R3 & R4). split; [exact R1|]. shp.
    destruct (decide (t' = t)) as [->|Hne].
    + exists t, l'. rewrite lookup_insert_eq. assert (j = i /\ k = l) as [-> ->] by (split; congruence). split_and!; auto.
      intros E Ed b Hb. destruct (Hl E) as [E'|E']; [exact (R4 E' Ed b Hb) | exact (E' n b Hj Hb)].
    + exists t', k. rewrite lookup_insert_ne by congruence. auto.
  - intros t' x Hx. cbn in Hx. apply lookup_insert_Some in Hx as [[<- <-]|[_ Hx]]; [|exact (W3 t' x Hx)].
    destruct (W3 t _ Ht) as (j & Hj & Q). exists j. split; [exact Hj | exact Q].
  - intros k Hk. destruct (W8 k Hk) as (Q1 & Q2 & Q3 & Q4). split_and!; auto. shp. rewrite lookup_insert_ne by congruence. exact Q3.
Qed.

(** A socket that was referred to loses a reference. *)
Lemma run_lose R u u' o a i s s' n n' (Q : unit -> shape -> Prop) :
  wf ∅ ∅ R u o -> oS o !! a = Some s -> oI o !! i = Some n -> so_pcb s = Some i ->
  same_links s s' -> same_block n n' -> same_user_but a u u' -> pair_ok (∅ ∪ pair_of a s') u' o a s s' n n' ->
  ss_protoref s = true \/ a ∈ owned u -> settled u' a n' ->
  (forall o', wf ∅ ∅ R u' o' -> frees (pair_of a s') (set_pair a s' i n' o) o' -> Q tt o') -> run (sofree a) (set_pair a s' i n' o) Q.
Proof.
  intros W Ha Hi Hp L B U P Hr Hs HQ. assert (Ea : oS (set_pair a s' i n' o) !! a = Some s') by look.
  assert (Ya : a ∈ (∅ ∪ pair_of a s' : gset nat)) by apply elem_of_union_r, pair_of_self.
  apply (run_sofree_last ∅ R u' _ a s'); auto.
  - apply (wf_pair ∅ (∅ ∪ pair_of a s') R u u' o a i s s' n n'); auto.
    + apply empty_subseteq.
    + contradiction.
    + intros p Ep Hn. destruct Hn. apply elem_of_union_r, pair_of_peer. rewrite (sl_peer _ _ L). exact Ep.
  - intros b sb j m Hb Hsb Hj Hm. destruct (decide (b = a)) as [->|Hne].
    + assert (sb = s') as -> by congruence. rewrite (sl_pcb _ _ L) in Hj. assert (j = i) as -> by congruence.
      unfold set_pair in Hm. cbn in Hm. rewrite lookup_insert_eq in Hm. injection Hm as <-. split; [|exact Hs].
      assert (F : so_head s = None) by (apply (pair_settled R u o a s W Ha Hr a s i n); auto; apply pair_of_self).
      unfold enqueued, waiting. rewrite (sl_head _ _ L), F. congruence.
    + unfold set_pair in Hsb, Hm. cbn in Hsb, Hm. rewrite lookup_insert_ne in Hsb by congruence.
      assert (Hji : j <> i).
      { intros ->. destruct (sock_pcb _ _ _ _ _ W b sb Hsb) as (k & x & E1 & E2 & E3 & _).
        destruct (sock_pcb _ _ _ _ _ W a s Ha) as (k' & x' & E1' & E2' & E3' & _). congruence. }
      rewrite lookup_insert_ne in Hm by congruence.
      assert (Hb' : b ∈ pair_of a s) by (unfold pair_of in *; rewrite (sl_peer _ _ L) in Hb; exact Hb).
      destruct (pair_settled R u o a s W Ha Hr b sb j m Hb' Hsb Hj Hm) as [F1 F2]. split.
      * unfold enqueued, waiting. congruence.
      * destruct F2 as [F2|F2]; [left; apply (su_opens _ _ _ U b Hne), F2 | right; exact F2].
Qed.

(** ** Closing a connection *)

Lemma run_close_kept Y R u o a i t s n l (Q : option nat -> shape -> Prop) :
  wf Y ∅ R u o -> conn o a i t s n l -> inp_sockref n = false ->
  (wf Y ∅ R u (o <| oI := <[i := n <| inp_dropped := true |>]> (oI o) |>) -> Q (Some t) (o <| oI := <[i := n <| inp_dropped := true |>]> (oI o) |>)) ->
  run (tcp_close t) o Q.
Proof.
  intros W C Hr HQ. pose proof C as [C1 C2 C3 C4 C5 C6 C7 C8]. unfold tcp_close, in_pcbdrop.
  step. fields. cbn [fst]. step. step. step. step; [cbn; rewrite C4; reflexivity|]. fields. cbn [inp_socket inp_sockref update eta eta_inpcb].
  rewrite C4. step. step. rewrite Hr. step. apply HQ, (wf_dropped Y R u o a i t s n l W C Hr).
Qed.

(** Connections other than that of the PCB [i] go on. *)
Definition others (i : nat) (o o' : shape) : Prop := forall j m, j <> i -> oI o !! j = Some m -> ~ over m -> oI o' !! j = Some m.

Lemma run_close_ref R u o a i t s n l (Q : option nat -> shape -> Prop) :
  wf ∅ ∅ R u o -> conn o a i t s n l -> inp_sockref n = true ->
  (forall o', wf ∅ ∅ R u o' -> others i o o' -> oV o' = oV o -> Q None o') -> run (tcp_close t) o Q.
Proof.
  intros W C Hr HQ. pose proof C as [C1 C2 C3 C4 C5 C6 C7 C8]. pose proof (wf_socks _ _ _ _ _ W _ _ C1) as K.
  destruct (sock_pcb _ _ _ _ _ W a s C1) as (j & m & Hj & Hm & _ & Epr). assert (m = n) as -> by congruence. rewrite Hr in Epr.
  destruct (sock_facts ∅ R u o a s i n W C1 C2 C3) as (F1 & F2 & _).
  unfold tcp_close, in_pcbdrop.
  step. fields. cbn [fst]. step. step. step. step; [cbn; rewrite C4; reflexivity|]. fields. cbn [inp_socket inp_sockref update eta eta_inpcb].
  rewrite C4. step. step. rewrite Hr. step. step; [exact Epr|]. step. step. binds. shp. rewrite insert_insert_eq.
  apply (run_lose R u u o a i s (s <| ss_protoref := false |>) n (n <| inp_dropped := true |> <| inp_sockref := false |>)); auto.
  - split; auto.
  - split; auto.
  - apply same_user_refl, (wf_user _ _ _ _ _ W).
  - split; cbn; auto; try congruence; try apply K.
    + intros Hw. split; [reflexivity | apply K, Hw].
    + intros p Ep Hw. split; [reflexivity | exact (proj2 (F1 p Ep Hw))].
    + intros Hn. destruct Hn. apply elem_of_union_r, pair_of_self.
  - right; right; left. reflexivity.
  - intros o' W' [Fi _ _ Fv]. cbv beta. step. apply HQ; [exact W' | | exact Fv].
    intros k x Hk Hx Ho. apply Fi; [|exact Ho]. shp. rewrite lookup_insert_ne by congruence. exact Hx.
Qed.

Lemma run_keep_tp t f x o (Q : unit -> shape -> Prop) : oT o !! t = Some x -> (forall tp, tshape (f tp) = tshape tp) -> Q tt o -> run (set_tp t f) o Q.
Proof.
  intros Ht Hf HQ. apply (run_set_tp t f x x o Q Ht); [intros tp <-; apply Hf|].
  destruct o. cbn in *. rewrite insert_id by exact Ht. exact HQ.
Qed.
Lemma run_set_state t st i l o (Q : unit -> shape -> Prop) :
  oT o !! t = Some (i, l) -> Q tt (o <| oT := <[t := (i, st =? TCPS_LISTEN)]> (oT o) |>) -> run (set_tp t (set_state st)) o Q.
Proof. intros Ht HQ. apply (run_set_tp t _ (i, l) (i, st =? TCPS_LISTEN) o Q Ht); [intros tp [= <- _]; reflexivity | exact HQ]. Qed.

(** The connection is as it was, or dropped; if not dropped it does not listen. *)
Record kept (Y R : gset nat) (u : user) (o : shape) (i t : nat) (n n' : inpcb) (o' : shape) : Prop := {
  k_inp : n' = n \/ n' = n <| inp_dropped := true |>;
  k_wf : wf Y ∅ R u o';
  k_socks : oS o' = oS o;
  k_inps : oI o' = <[i := n']> (oI o);
  k_tcb : exists l, oT o' !! t = Some (Some i, l) /\ (inp_dropped n' = true \/ l = false);
  k_inv : oV o' = oV o }.

Lemma kept_conn_of Y R u o i t n n' o' a s l : kept Y R u o i t n n' o' -> conn o a i t s n l -> exists l', conn o' a i t s n' l'.
Proof.
  intros [K1 K2 K3 K4 (l' & K5 & _) K6] [C1 C2 C3 C4 C5 C6 C7 C8]. exists l'.
  split; rewrite ?K3, ?K4; auto; try (rewrite lookup_insert_eq; reflexivity); destruct K1 as [-> | ->]; auto.
Qed.

Section Kept.
Context (Y R : gset nat) (u : user) (o : shape) (a i t : nat) (s : socket) (n : inpcb) (l : bool).
Context (W : wf Y ∅ R u o) (C : conn o a i t s n l) (Hr : inp_sockref n = false).

(** A state other than LISTEN. *)
Lemma wf_state st : ((st =? TCPS_LISTEN) = true -> l = true) -> wf Y ∅ R u (o <| oT := <[t := (Some i, st =? TCPS_LISTEN)]> (oT o) |>).
Proof. intros H. apply (wf_tcb Y ∅ R u o t i l); [exact W | exact (c_tcb _ _ _ _ _ _ _ C) | auto]. Qed.

Lemma conn_state k : conn (o <| oT := <[t := (Some i, k)]> (oT o) |>) a i t s n k.
Proof. destruct C. split; auto. shp. apply lookup_insert_eq. Qed.

Lemma kept_state st : (st =? TCPS_LISTEN) = false -> kept Y R u o i t n n (o <| oT := <[t := (Some i, st =? TCPS_LISTEN)]> (oT o) |>).
Proof.
  intros H. split; auto.
  - apply wf_state. congruence.
  - shp. symmetry. apply insert_id, C.
  - shp. rewrite lookup_insert_eq. eauto.
Qed.

Lemma kept_dropped : wf Y ∅ R u (o <| oI := <[i := n <| inp_dropped := true |>]> (oI o) |>) ->
  kept Y R u o i t n (n <| inp_dropped := true |>) (o <| oI := <[i := n <| inp_dropped := true |>]> (oI o) |>).
Proof. intros W'. split; auto. exists l. split; [apply C | auto]. Qed.

Lemma run_drop_kept errno (Q : option nat -> shape -> Prop) :
  (forall o', kept Y R u o i t n (n <| inp_dropped := true |>) o' -> Q (Some t) o') -> run (tcp_drop t errno) o Q.
Proof.
  intros HQ. pose proof C as [C1 C2 C3 C4 C5 C6 C7 C8]. unfold tcp_drop. step. fields. cbn [fst]. step. step. fields. rewrite C4. step.
  binds. apply run_when; intros Hs.
  - eapply (run_set_state t TCPS_CLOSED); [look|]. cbv beta. step.
    eapply (run_close_kept Y R u _ a i t s n); [apply (wf_state TCPS_CLOSED); discriminate | apply conn_state | exact Hr |].
    intros W'. apply HQ. split; auto. shp. rewrite lookup_insert_eq. eauto.
  - step. apply (run_close_kept Y R u o a i t s n l _ W C Hr). intros W'. apply HQ, kept_dropped, W'.
Qed.

(** What is left to do once a connection is closed: its socket is told. *)
Lemma run_tell o' n' (Q : unit -> shape -> Prop) : kept Y R u o i t n n' o' -> Q tt o' ->
  run (tp ← get_tp t; when (TCPS_FIN_WAIT_2 <=? t_state tp)
    (i ← deref (t_inpcb tp); inp ← get_inp i; a ← deref (inp_socket inp); set_so a soisdisconnected)) o' Q.
Proof.
  intros K HQ. destruct (kept_conn_of _ _ _ _ _ _ _ _ _ _ _ _ K C) as (l' & [C1 C2 C3 C4 C5 C6 C7 C8]). step.
  apply run_when; intros _; [|exact HQ]. fields. cbn [fst]. step. step. fields. rewrite C4. step. step. exact HQ.
Qed.

Lemma run_usrclosed (Q : unit -> shape -> Prop) : (forall o' n', kept Y R u o i t n n' o' -> Q tt o') -> run (tcp_usrclosed t) o Q.
Proof.
  intros HQ. pose proof C as [C1 C2 C3 C4 C5 C6 C7 C8]. unfold tcp_usrclosed. step. fields. cbn [fst]. step. step.
  set (st := usrclosed_state (inp_passive inp) (t_state tp)).
  assert (Hl : (st =? TCPS_LISTEN) = true -> l = true).
  { intros E. injection Etp as _ <-. unfold st, usrclosed_state in E. destruct (_ && _); [discriminate | exact E]. }
  pose proof (wf_state st Hl) as W1. pose proof (conn_state (st =? TCPS_LISTEN)) as C'.
  binds. eapply run_set_state; [look|]. cbv beta. binds.
  assert (Done : forall o' n', kept Y R u o i t n n' o' -> forall x, x = t -> run (tp ← get_tp x; when (TCPS_FIN_WAIT_2 <=? t_state tp)
    (i ← deref (t_inpcb tp); inp ← get_inp i; a ← deref (inp_socket inp); set_so a soisdisconnected)) o' Q).
  { intros o' n' K x ->. apply (run_tell o' n' Q K), (HQ o' n' K). }
  assert (Again : forall st', (st' =? TCPS_LISTEN) = false -> forall Q' : unit -> shape -> Prop,
    (forall o', kept Y R u o i t n n o' -> Q' tt o') -> run (set_tp t (set_state st')) (o <| oT := <[t := (Some i, st =? TCPS_LISTEN)]> (oT o) |>) Q').
  { intros st' Hst Q' H. eapply run_set_state; [look|]. apply H. shp. rewrite insert_insert_eq. apply kept_state, Hst. }
  destruct ((st =? TCPS_LISTEN) || (st =? TCPS_CLOSED)) eqn:E1.
  - binds. eapply run_set_state; [look|]. shp. rewrite insert_insert_eq. cbv beta. binds.
    eapply (run_close_kept Y R u _ a i t s n); [apply (wf_state TCPS_CLOSED); discriminate | apply conn_state | exact Hr |].
    intros W2. cbv beta. step; [reflexivity|]. step. apply (Done _ (n <| inp_dropped := true |>)); [|reflexivity].
    split; auto. shp. rewrite lookup_insert_eq. eauto.
  - apply orb_false_iff in E1 as [E1 _]. pose proof (kept_state st E1) as K.
    destruct ((st =? TCPS_SYN_SENT) || (st =? TCPS_SYN_RECEIVED)).
    { binds. eapply run_keep_tp; [look | reflexivity |]. cbv beta. step. apply (Done _ n K _ eq_refl). }
    destruct (st =? TCPS_ESTABLISHED).
    { binds. apply Again; [reflexivity|]. intros o' K'. cbv beta. step. apply (Done _ n K' _ eq_refl). }
    destruct (st =? TCPS_CLOSE_WAIT).
    { binds. apply Again; [reflexivity|]. intros o' K'. cbv beta. step. apply (Done _ n K' _ eq_refl). }
    step. apply (Done _ n K _ eq_refl).
Qed.

Lemma run_output o' n' (Q : unit -> shape -> Prop) : kept Y R u o i t n n' o' -> Q tt o' -> run (output_unless_dropped i t) o' Q.
Proof.
  intros K HQ. destruct (kept_conn_of _ _ _ _ _ _ _ _ _ _ _ _ K C) as (l' & [C1 C2 C3 C4 C5 C6 C7 C8]). unfold output_unless_dropped. step.
  apply run_when; intros _; [|exact HQ]. step. step. exact HQ.
Qed.

Lemma run_disconnect (Q : unit -> shape -> Prop) : (forall o' n', kept Y R u o i t n n' o' -> Q tt o') -> run (tcp_disconnect t) o Q.
Proof.
  intros HQ. pose proof C as [C1 C2 C3 C4 C5 C6 C7 C8]. unfold tcp_disconnect. step. fields. cbn [fst]. step. step. fields. rewrite C4. step.
  destruct (t_state tp <? TCPS_ESTABLISHED).
  - binds. apply (run_close_kept Y R u o a i t s n l _ W C Hr). intros W'. cbv beta. step; [reflexivity|]. eapply HQ, kept_dropped, W'.
  - step. destruct (bool_decide _).
    + binds. apply run_drop_kept. intros o' K. cbv beta. step; [reflexivity|]. exact (HQ _ _ K).
    + step. binds. apply run_usrclosed. intros o' n' K. exact (run_output o' n' _ K (HQ _ _ K)).
Qed.
End Kept.

(** ** Requests of the user *)

Definition fine (R : gset nat) (u : user) (o o' : shape) : Prop := wf ∅ ∅ R u o' /\ oV o' = oV o.

Lemma run_pcb_of a s i n o (Q : nat * inpcb -> shape -> Prop) :
  oS o !! a = Some s -> so_pcb s = Some i -> oI o !! i = Some n -> (forall x, ishape x = n -> Q (i, x) o) -> run (pcb_of a) o Q.
Proof.
  intros Ha Hp Hi HQ. unfold pcb_of. step. step; [rewrite Hp; reflexivity|]. fields. rewrite Hp. step. step. step. auto.
Qed.

Lemma owned_count Y X u o a s : sock_ok Y X u o a s -> a ∈ owned u -> so_count s = 1.
Proof. intros K H. rewrite (s_count _ _ _ _ _ _ K). apply decide_True, H. Qed.

Lemma counted_hasrefs s : so_count s = 1 -> sohasrefs s = true.
Proof. unfold sohasrefs. intros ->. cbn. rewrite orb_true_r. reflexivity. Qed.

Lemma opens_sockref Y X R u o a s i n :
  wf Y X R u o -> oS o !! a = Some s -> so_pcb s = Some i -> oI o !! i = Some n -> a ∈ opens u -> inp_sockref n = false.
Proof.
  intros W Ha Hp Hi Ho. destruct (inp_sockref n) eqn:E; [|reflexivity].
  destruct (n_sockref _ _ _ _ (wf_inps _ _ _ _ _ W _ _ Hi) E) as (_ & b & Eb & Nb).
  destruct (sock_pcb _ _ _ _ _ W a s Ha) as (j & m & E1 & E2 & E3 & _). congruence.
Qed.

Lemma opened u a : a ∈ opens u -> a ∈ owned u.
Proof. apply elem_of_union_l. Qed.

(** A request on the connection of an open socket: what the invariant gives for it. *)
Lemma open_conn R u o a : wf ∅ ∅ R u o -> a ∈ opens u ->
  exists s i n, oS o !! a = Some s /\ so_pcb s = Some i /\ oI o !! i = Some n /\ inp_sockref n = false /\ inp_socket n = Some a.
Proof.
  intros W Ho. destruct (wf_user _ _ _ _ _ W) as (_ & Hu & _). destruct (Hu a (opened u a Ho)) as [s Ha].
  destruct (sock_pcb _ _ _ _ _ W a s Ha) as (i & n & Hp & Hi & Es & _). exists s, i, n. split_and!; auto.
  exact (opens_sockref _ _ _ _ _ _ _ _ _ W Ha Hp Hi Ho).
Qed.

Ltac on_conn W Ha Hp Hi Tw :=
  let t := fresh "t" in let l := fresh "l" in let C := fresh "C" in
  destruct (conn_of_inp _ _ _ _ _ W _ _ _ _ Ha Hp Hi Tw) as (t & l & C).

Section Requests.
Context (R : gset nat) (u : user) (o : shape) (a : nat) (W : wf ∅ ∅ R u o) (Ho : a ∈ opens u).

Lemma fine_here : fine R u o o.
Proof. split; auto. Qed.

Lemma kept_fine i t n n' o' : kept ∅ R u o i t n n' o' -> fine R u o o'.
Proof. intros []. split; auto. Qed.

Lemma run_usr_shutdown : run (tcp_usr_shutdown a) o (fun _ => fine R u o).
Proof.
  destruct (open_conn R u o a W Ho) as (s & i & n & Ha & Hp & Hi & Hr & Es). unfold tcp_usr_shutdown.
  binds. apply (run_pcb_of a s i n); auto. intros inp Einp. cbv beta iota. unfold gone_or_waiting, intotcpcb. fields.
  destruct (inp_timewait n) eqn:Tw; cbn [orb]; [step; exact fine_here|]. destruct (inp_dropped n) eqn:Ed; [step; exact fine_here|].
  on_conn W Ha Hp Hi Tw. rewrite (c_ppcb _ _ _ _ _ _ _ C). step. step. binds.
  apply (run_usrclosed ∅ R u o a i t s n l W C Hr). intros o' n' K. cbv beta. binds.
  apply (run_output ∅ R u o a i t s n l C o' n' _ K). cbv beta. step. exact (kept_fine _ _ _ _ _ K).
Qed.

Lemma run_usr_disconnect : run (tcp_usr_disconnect a) o (fun _ => fine R u o).
Proof.
  destruct (open_conn R u o a W Ho) as (s & i & n & Ha & Hp & Hi & Hr & Es). unfold tcp_usr_disconnect.
  binds. apply (run_pcb_of a s i n); auto. intros inp Einp. cbv beta iota. unfold gone_or_waiting, intotcpcb. fields.
  destruct (inp_timewait n) eqn:Tw; cbn [orb]; [step; exact fine_here|]. destruct (inp_dropped n) eqn:Ed; [step; exact fine_here|].
  on_conn W Ha Hp Hi Tw. rewrite (c_ppcb _ _ _ _ _ _ _ C). step. step. binds.
  apply (run_disconnect ∅ R u o a i t s n l W C Hr). intros o' n' K. cbv beta. step. exact (kept_fine _ _ _ _ _ K).
Qed.

Lemma run_sodisconnect : run (sodisconnect a) o (fun _ => fine R u o).
Proof.
  destruct (open_conn R u o a W Ho) as (s & i & n & Ha & _). unfold sodisconnect. step.
  destruct (negb (ss_isconnected so)); [step; exact fine_here|]. destruct (ss_isdisconnecting so); [step; exact fine_here|].
  exact run_usr_disconnect.
Qed.

Lemma run_soclose_disconnect :
  (oV o = true -> forall s, oS o !! a = Some s -> ss_nofdref s = false) -> run (soclose_disconnect a) o (fun _ => fine R u o).
Proof.
  intros Hf. destruct (open_conn R u o a W Ho) as (s & i & n & Ha & _). unfold soclose_disconnect. step.
  apply run_bind, run_KASSERT; [intros V; fields; rewrite (Hf V s Ha); reflexivity|]. apply run_when; intros _; [|exact fine_here].
  binds. eapply run_mono; [exact run_sodisconnect|]. intros x o' F. cbv beta. step. exact F.
Qed.

Lemma run_usr_listen backlog bind : run (tcp_usr_listen a backlog bind) o (fun _ => fine R u o).
Proof.
  destruct (open_conn R u o a W Ho) as (s & i & n & Ha & Hp & Hi & Hr & Es). unfold tcp_usr_listen.
  binds. apply (run_pcb_of a s i n); auto. intros inp Einp. cbv beta iota. unfold gone_or_waiting, intotcpcb. fields.
  destruct (inp_timewait n) eqn:Tw; cbn [orb]; [step; exact fine_here|]. destruct (inp_dropped n) eqn:Ed; [step; exact fine_here|].
  on_conn W Ha Hp Hi Tw. rewrite (c_ppcb _ _ _ _ _ _ _ C). step. step.
  cbv zeta. lazymatch goal with |- context [if ?b then Some EINVAL else bind] => destruct (if b then Some EINVAL else bind) as [e|] end;
    [step; exact fine_here|]. step. binds.
  eapply run_set_state; [apply C|]. cbv beta. binds. apply run_get. intros w Hw. cbv beta. binds.
  set (q := u16 _). step. step.
  split; [|reflexivity].
  assert (W1 : wf ∅ ∅ R u (o <| oT := <[t := (Some i, TCPS_LISTEN =? TCPS_LISTEN)]> (oT o) |>)).
  { apply (wf_tcb ∅ ∅ R u o t i l); [exact W | apply C |]. intros _. right. intros m b Hm Hb. congruence. }
  destruct (sock_facts ∅ R u _ a s i n W1 Ha Hp Hi) as (F1 & F2 & F3 & F4). pose proof (wf_socks _ _ _ _ _ W1 _ _ Ha) as K.
  replace (_ <| oS := _ |>) with (set_pair a (s <| so_qlimit := q |> <| so_acceptconn := true |>) i n (o <| oT := <[t := (Some i, TCPS_LISTEN =? TCPS_LISTEN)]> (oT o) |>))
    by (unfold set_pair; shp; rewrite (insert_id (oI o)) by exact Hi; reflexivity).
  apply (wf_pair ∅ ∅ R u u _ a i s _ n); auto.
  - split; auto. cbn. split_and!; auto. intros _. unfold q, u16. apply Z.mod_pos_bound. lia.
  - apply same_block_refl.
  - apply same_user_refl, (wf_user _ _ _ _ _ W1).
  - destruct (sock_pcb _ _ _ _ _ W a s Ha) as (j & m & E1 & E2 & _ & E3). split; cbn; auto; try apply K; congruence.
Qed.

Lemma run_connect i t s n l setup : conn o a i t s n l -> run (tcp_connect t setup) o (fun _ => fine R u o).
Proof.
  intros C. pose proof C as [C1 C2 C3 C4 C5 C6 C7 C8]. unfold tcp_connect. step. fields. cbn [fst]. step. step. fields. rewrite C4. step.
  destruct setup as [e|]; [step; exact fine_here|]. step. binds. eapply run_set_state; [exact C6|]. cbv beta. step. split; [|reflexivity].
  apply (wf_state ∅ R u o a i t s n l W C). discriminate.
Qed.

Lemma run_usr_connect setup : run (tcp_usr_connect a setup) o (fun _ => fine R u o).
Proof.
  destruct (open_conn R u o a W Ho) as (s & i & n & Ha & Hp & Hi & Hr & Es). unfold tcp_usr_connect.
  binds. apply (run_pcb_of a s i n); auto. intros inp Einp. cbv beta iota. unfold gone_or_waiting, intotcpcb. fields.
  destruct (inp_timewait n) eqn:Tw; cbn [orb]; [step; exact fine_here|]. destruct (inp_dropped n) eqn:Ed; [step; exact fine_here|].
  on_conn W Ha Hp Hi Tw. rewrite (c_ppcb _ _ _ _ _ _ _ C). step. step. exact (run_connect _ _ _ _ _ setup C).
Qed.

(** The user lets go of the socket but for its reference. *)
Definition closes : user := mk_user (opens u ∖ {[a]}) (closing u ∪ {[a]}) (pins u).

Lemma closes_owned b : b ∈ owned closes <-> b ∈ owned u.
Proof.
  unfold owned, closes. cbn. rewrite !elem_of_union, elem_of_difference, elem_of_singleton.
  destruct (decide (b = a)) as [->|]; tauto.
Qed.

Lemma closes_user : same_user_but a u closes.
Proof.
  destruct (wf_user _ _ _ _ _ W) as (D & _). split; cbn; auto.
  - intros b Hne. rewrite elem_of_difference, elem_of_singleton. tauto.
  - intros b Hne. rewrite elem_of_union, elem_of_singleton. tauto.
  - apply elem_of_disjoint. intros b. rewrite elem_of_difference, elem_of_union, elem_of_singleton. intros [H1 H2] [H3|H3]; [|contradiction].
    exact (proj1 (elem_of_disjoint _ _) D b H1 H3).
Qed.
End Requests.

(** The protocol takes over the socket, unless the connection is gone. *)
Lemma run_take_close R u o a i s n : wf ∅ ∅ R u o -> a ∈ opens u -> oS o !! a = Some s -> so_pcb s = Some i -> oI o !! i = Some n ->
  (inp_timewait n = false -> inp_dropped n = false -> forall t x, inp_ppcb n = Some (Tcpcb t) -> oT o !! t = Some x -> snd x = false) ->
  run (take_sockref a i) o (fun _ => fine R (closes u a) o).
Proof.
  intros W Ho Ha Hp Hi Hl. pose proof (wf_socks _ _ _ _ _ W _ _ Ha) as K. pose proof (opens_sockref _ _ _ _ _ _ _ _ _ W Ha Hp Hi Ho) as Hr.
  destruct (sock_pcb _ _ _ _ _ W a s Ha) as (j & m & Ej & Em & _ & Epr). assert (m = n) as -> by congruence. clear j Ej Em.
  destruct (sock_facts ∅ R u o a s i n W Ha Hp Hi) as (F1 & F2 & F3 & F4).
  pose proof (owned_count _ _ _ _ _ _ K (opened u a Ho)) as Ec. pose proof (closes_owned u a Ho a) as Eo.
  assert (Oa : a ∈ owned (closes u a)) by apply Eo, opened, Ho.
  assert (Nw : ~ waiting s) by (intros C; destruct (s_waiting _ _ _ _ _ _ K C) as [_ D]; exact (D (opened u a Ho))).
  assert (Main : forall s' n', same_links s s' -> same_block n n' -> so_count s' = 1 -> ss_protoref s' = inp_sockref n' ->
    inp_dropped n' = inp_dropped n -> (inp_sockref n' = true /\ inp_dropped n = false \/ inp_sockref n' = false /\ inp_dropped n = true) ->
    fine R (closes u a) o (set_pair a s' i n' o)).
  { intros s' n' L B E1 E2 E3 E4. split; [|reflexivity].
    assert (Hld : held s') by (left; apply counted_hasrefs, E1).
    apply (wf_pair ∅ ∅ R u (closes u a) o a i s s' n n'); auto; [exact (closes_user R u o a W) | | intros _; left; exact Hld].
    split; auto.
    - rewrite decide_True by exact Oa. exact E1.
    - contradiction.
    - intros p Ep Hw. destruct (F1 p Ep Hw) as [_ C]. destruct (C (opened u a Ho)).
    - intros _. destruct E4 as [[E4 _]|[_ E4]]; [right; left; exact E4 | right; right; right; right; left; congruence].
    - intros Tw Ed. right. rewrite E3 in Ed. split; [exact Ed | exact (Hl Tw Ed)].
    - intros Er. destruct E4 as [[_ E4]|[E4 _]]; [|congruence]. split; [congruence|]. cbn. rewrite elem_of_difference, elem_of_singleton. tauto. }
  unfold take_sockref. step. apply run_when; fields; intros E.
  - apply negb_true_iff in E. step. step.
    change (fine R (closes u a) o (set_pair a (s <| ss_protoref := true |>) i (n <| inp_sockref := true |>) o)).
    apply Main; auto; split; auto.
  - apply negb_false_iff in E.
    rewrite <- (set_pair_id a s i n o Ha Hi) at 2. apply Main; auto; [apply same_links_refl | apply same_block_refl].
Qed.

Lemma run_usr_close R u o a : wf ∅ ∅ R u o -> a ∈ opens u -> run (tcp_usr_close a) o (fun _ => fine R (closes u a) o).
Proof.
  intros W Ho. destruct (open_conn R u o a W Ho) as (s & i & n & Ha & Hp & Hi & Hr & Es). unfold tcp_usr_close.
  binds. apply (run_pcb_of a s i n); auto. intros inp Einp. cbv beta iota. step; [rewrite Es; reflexivity|]. unfold intotcpcb. fields.
  binds. apply run_when; intros E.
  - apply andb_true_iff in E as [Tw Ed]. apply negb_true_iff in Tw, Ed. on_conn W Ha Hp Hi Tw. rewrite (c_ppcb _ _ _ _ _ _ _ C). step. step.
    apply (run_disconnect ∅ R u o a i t s n l W C Hr). intros o' n' K.
    destruct (kept_conn_of _ _ _ _ _ _ _ _ _ _ _ _ K C) as (l' & [C1 C2 C3 C4 C5 C6 C7 C8]). destruct K as [K1 K2 K3 K4 (l2 & K5 & K5') K6].
    eapply run_mono; [apply (run_take_close R u o' a i s n' K2 Ho C1 C2 C3)|].
    + intros _ D t' x E1 E2. rewrite C5 in E1. injection E1 as <-. destruct K5'; [congruence|]. rewrite K5 in E2. injection E2 as <-. assumption.
    + intros _ o2 [F1 F2]. split; [exact F1 | congruence].
  - eapply run_mono; [apply (run_take_close R u o a i s n W Ho Ha Hp Hi)|]; [|auto]. intros Tw Ed. rewrite Tw, Ed in E. discriminate.
Qed.

(** ** The last close *)

Definition lets_go (u : user) (a : nat) : user := mk_user (opens u) (closing u ∖ {[a]}) (pins u).

Lemma lets_go_user Y X R u o a : wf Y X R u o -> same_user_but a u (lets_go u a).
Proof.
  intros W. destruct (wf_user _ _ _ _ _ W) as (D & _). split; cbn; auto.
  - intros b Hne. rewrite elem_of_difference, elem_of_singleton. tauto.
  - apply elem_of_disjoint. intros b H1 H2. apply elem_of_difference in H2 as [H2 _]. exact (proj1 (elem_of_disjoint _ _) D b H1 H2).
Qed.

Lemma closing_not_open Y X R u o a : wf Y X R u o -> a ∈ closing u -> a ∉ opens u.
Proof. intros W H C. exact (proj1 (elem_of_disjoint _ _) (proj1 (wf_user _ _ _ _ _ W)) a C H). Qed.

Lemma run_soclose_rele R u o a : wf ∅ ∅ R u o -> a ∈ closing u ->
  (forall s, oS o !! a = Some s -> so_incomp s ++ so_comp s = [] /\ (oV o = true -> ss_nofdref s = false)) ->
  run (soclose_rele a) o (fun _ => fine R (lets_go u a) o).
Proof.
  intros W Hc Hg. pose proof (elem_of_union_r a (opens u) (closing u) Hc) as Ho. destruct (wf_user _ _ _ _ _ W) as (D & Hu & _).
  destruct (Hu a Ho) as [s Ha]. destruct (Hg s Ha) as [Hq Hf]. pose proof (wf_socks _ _ _ _ _ W _ _ Ha) as K.
  destruct (sock_pcb _ _ _ _ _ W a s Ha) as (i & n & Hp & Hi & Es & Epr). destruct (sock_facts ∅ R u o a s i n W Ha Hp Hi) as (F1 & _).
  pose proof (owned_count _ _ _ _ _ _ K Ho) as Ec. pose proof (wf_inps _ _ _ _ _ W _ _ Hi) as N.
  pose proof (closing_not_open _ _ _ _ _ _ W Hc) as No.
  assert (No' : a ∉ owned (lets_go u a)) by (unfold owned; cbn; rewrite elem_of_union, elem_of_difference, elem_of_singleton; tauto).
  unfold soclose_rele. step. apply run_bind, run_KASSERT; [intros V; fields; rewrite (Hf V); reflexivity|]. step. unfold sorele.
  step. fields. cbn [so_count update eta eta_socket]. rewrite Ec. cbn [Z.leb]. change (1 <=? 0) with false. cbv iota.
  step. change (1 - 1 =? 0) with true. cbv iota. shp. rewrite insert_insert_eq. cbn [so_count update eta eta_socket]. rewrite Ec.
  change (1 - 1) with 0.
  set (s' := s <| ss_nofdref := true |> <| so_count := 0 |>). 
  change (run (sofree a) (o <| oS := <[a := s']> (oS o) |>) (fun _ => fine R (lets_go u a) o)). rewrite <- (set_pair_sock a s' i n o Hi).
  assert (Nw : ~ waiting s) by (intros C; destruct (s_waiting _ _ _ _ _ _ K C) as [_ C']; contradiction).
  apply (run_lose R u (lets_go u a) o a i s s' n n); auto.
  - split; auto.
  - apply same_block_refl.
  - exact (lets_go_user _ _ _ _ _ _ W).
  - split; cbn; auto; try contradiction.
    + rewrite decide_False by exact No'. reflexivity.
    + discriminate.
    + intros p Ep Hw. destruct (F1 p Ep Hw) as [_ C]. contradiction.
    + intros Hn. destruct Hn. apply elem_of_union_r, pair_of_self.
    + intros Tw Ed. right. split; [exact Ed|]. intros t x E1 E2. destruct (snd x) eqn:El; [|reflexivity].
      destruct (n_sock _ _ _ _ N a Es) as [Els _]. destruct (n_tcb _ _ _ _ N Els Tw) as (_ & t' & l' & G1 & G2 & G3).
      assert (t' = t) as -> by congruence. assert (x = (Some i, l')) as -> by congruence. destruct No. exact (G3 El Ed a Es).
    + intros Er. destruct (n_sockref _ _ _ _ N Er) as (G1 & _). auto.
  - destruct (pair_settled R u o a s W Ha (or_intror Ho) a s i n (pair_of_self a s) Ha Hp Hi) as [_ [C|G]]; [contradiction | right; exact G].
  - intros o' W' [_ _ _ Fv]. split; [exact W' | exact Fv].
Qed.

(** ** Ends of connections that the protocol sees *)

Lemma run_close_others R u o t i l : wf ∅ ∅ R u o -> oT o !! t = Some (Some i, l) -> run (tcp_close t) o (fun _ o' => fine R u o o' /\ others i o o').
Proof.
  intros W Ht. destruct (conn_of_tcb _ _ _ _ _ W t _ Ht) as (a & k & s & n & l' & E & C). injection E as <- <-. destruct (inp_sockref n) eqn:Hr.
  - apply (run_close_ref R u o a i t s n l _ W C Hr). intros o' W' F V. split; [split; assumption | exact F].
  - apply (run_close_kept ∅ R u o a i t s n l _ W C Hr). intros W'. split; [split; [exact W' | reflexivity]|].
    intros j m Hj Hm _. shp. rewrite lookup_insert_ne by congruence. exact Hm.
Qed.

Lemma run_close R u o t x : wf ∅ ∅ R u o -> oT o !! t = Some x -> run (tcp_close t) o (fun _ => fine R u o).
Proof.
  intros W Ht. destruct (conn_of_tcb _ _ _ _ _ W t x Ht) as (a & i & s & n & l & -> & C).
  eapply run_mono; [exact (run_close_others R u o t i l W Ht)|]. intros r o' [F _]. exact F.
Qed.

Lemma run_drop_others R u o t i l errno : wf ∅ ∅ R u o -> oT o !! t = Some (Some i, l) ->
  run (tcp_drop t errno) o (fun _ o' => fine R u o o' /\ others i o o').
Proof.
  intros W Ht. destruct (conn_of_tcb _ _ _ _ _ W t _ Ht) as (a & k & s & n & l' & E & C). injection E as <- <-. pose proof C as [C1 C2 C3 C4 C5 C6 C7 C8].
  unfold tcp_drop. step. fields. cbn [fst]. step. step. fields. rewrite C4. step. binds. apply run_when; intros _.
  - eapply (run_set_state t TCPS_CLOSED); [look|]. cbv beta. step.
    eapply run_mono; [eapply run_close_others; [apply (wf_state ∅ R u o a i t s n l W C TCPS_CLOSED); discriminate | shp; apply lookup_insert_eq]|].
    intros r o' F. exact F.
  - step. exact (run_close_others R u o t i l W Ht).
Qed.

Lemma run_drop R u o t x errno : wf ∅ ∅ R u o -> oT o !! t = Some x -> run (tcp_drop t errno) o (fun _ => fine R u o).
Proof.
  intros W Ht. destruct (conn_of_tcb _ _ _ _ _ W t x Ht) as (a & i & s & n & l & -> & C).
  eapply run_mono; [exact (run_drop_others R u o t i l errno W Ht)|]. intros r o' [F _]. exact F.
Qed.

(** The state of a connection changes as segments come, to another one than LISTEN. *)
Lemma run_new_state R u o t x st : wf ∅ ∅ R u o -> oT o !! t = Some x -> (st =? TCPS_LISTEN) = false ->
  run (set_tp t (set_state st)) o (fun _ => fine R u o).
Proof.
  intros W Ht Hs. destruct (conn_of_tcb _ _ _ _ _ W t x Ht) as (a & i & s & n & l & -> & C).
  eapply run_set_state; [exact Ht|]. split; [|reflexivity]. apply (wf_state ∅ R u o a i t s n l W C). congruence.
Qed.

(** ** TIME_WAIT *)

Section TwGone.
Context (Y R : gset nat) (u : user) (o : shape) (i t : nat) (n : inpcb) (I' : gmap nat inpcb).
Context (W : wf Y ∅ R u o) (Hi : oI o !! i = Some n) (Ep : inp_ppcb n = Some (Tcptw t)).
Let o' := o <| oW := <[t := None]> (oW o) |> <| oQ := remove1 t (oQ o) |> <| oI := I' |>.
Context (HI : forall j, j <> i -> I' !! j = oI o !! j).
Context (Hn : match I' !! i with
              | None => (i ∉ pins u) /\ inp_socket n = None
              | Some n' => inp_ok u o' i n' /\ inp_socket n' = inp_socket n /\ inp_sockref n' = inp_sockref n /\ over n' /\ inp_ppcb n' = None
              end).

Lemma twgone_facts : inp_timewait n = true /\ oW o !! t = Some (Some i) /\ (t ∉ R) /\ t ∈ oQ o.
Proof.
  destruct (inp_ok_tcptw _ _ _ _ _ (wf_inps _ _ _ _ _ W _ _ Hi) Ep) as (_ & E1 & _ & E2).
  assert (Nr : t ∉ R) by (intros C; destruct (wf_reserved _ _ _ _ _ W t C) as (_ & _ & D); exact (D i n Hi Ep)).
  destruct (wf_tws _ _ _ _ _ W t _ E2 Nr) as [E3 _]. auto.
Qed.

Lemma twgone_at j (Q : inpcb -> Prop) : j <> i -> at_ (oI o) j Q -> at_ (oI o') j Q.
Proof. intros Hne (x & Hx & HQ). exists x. cbn. rewrite HI by exact Hne. auto. Qed.

Lemma twgone_sock b sb : oS o !! b = Some sb -> sock_ok Y ∅ u o b sb -> sock_ok Y ∅ u o' b sb.
Proof.
  intros Hb [K1 K2 K3 K4 K5 K6 K7 K8 K9 K10 K11 K12 K13]. split; auto.
  destruct K1 as (j & Hj & (m & Hm & E1 & E2 & E3 & E4)). exists j. split; [exact Hj|]. destruct (decide (j = i)) as [->|Hne].
  - assert (m = n) as -> by congruence. unfold at_. change (oI o') with I'. destruct (I' !! i) as [n'|]; [|destruct Hn; congruence].
    destruct Hn as (_ & F1 & F2 & F3 & _). exists n'. split; [reflexivity|]. rewrite F1, F2. split_and!; auto.
    + intros _ _. right; right; right; right. exact F3.
    + intros C. destruct (not_elem_of_empty _ C).
  - apply twgone_at; [exact Hne|]. exists m. auto.
Qed.

Lemma twgone_inp j m : j <> i -> oI o !! j = Some m -> inp_ok u o j m -> inp_ok u o' j m.
Proof.
  intros Hne Hj [K1 K2 K3 K4 K5 K6 K7]. split; auto. intros Q1 Q2 Q3. destruct (K3 Q1 Q2 Q3) as (t' & G1 & G2). exists t'. split; [exact G1|].
  cbn. rewrite lookup_insert_ne; [exact G2|]. intros <-. destruct twgone_facts as (_ & F & _). congruence.
Qed.

Lemma wf_twgone : wf Y ∅ (R ∪ {[t]}) u o'.
Proof.
  destruct twgone_facts as (F1 & F2 & F3 & F4). pose proof W as [W1 W2 W3 W4 W5 [W6 W6'] (W7 & W7' & W7'') W8]. split.
  - intros b sb Hb. apply twgone_sock; [exact Hb | exact (W1 b sb Hb)].
  - intros j m Hj. change (oI o') with I' in Hj. destruct (decide (j = i)) as [->|Hne]; [rewrite Hj in Hn; apply Hn|].
    rewrite HI in Hj by exact Hne. apply twgone_inp; auto.
  - intros t' x Hx. destruct (W3 t' x Hx) as (j & Ej & Q). exists j. split; [exact Ej|]. apply twgone_at; [|exact Q].
    intros ->. destruct Q as (m & Hm & E). congruence.
  - intros t' x Hx Hr. cbn in Hx. assert (Hne : t' <> t) by set_solver. rewrite lookup_insert_ne in Hx by congruence.
    destruct (W4 t' x Hx) as (Q1 & j & Ej & Q); [set_solver|]. split; [cbn; apply elem_of_remove1; auto|]. exists j. split; [exact Ej|].
    apply twgone_at; [|exact Q]. intros ->. destruct Q as (m & Hm & E). congruence.
  - intros t' Ht'. apply elem_of_union in Ht'. cbn. rewrite elem_of_remove1. split_and!.
    + destruct Ht' as [Ht'|Ht']; [destruct (W5 t' Ht') as (C & _); tauto | apply elem_of_singleton in Ht'; tauto].
    + destruct (decide (t' = t)) as [->|Hne]; [rewrite lookup_insert_eq; eauto|]. rewrite lookup_insert_ne by congruence.
      destruct Ht' as [Ht'|Ht']; [apply (W5 t' Ht') | apply elem_of_singleton in Ht'; contradiction].
    + intros j m Hj E. destruct (decide (j = i)) as [->|Hne].
      * rewrite Hj in Hn. destruct Hn as (_ & _ & _ & _ & C). congruence.
      * rewrite HI in Hj by exact Hne. destruct Ht' as [Ht'|Ht']; [exact (proj2 (proj2 (W5 t' Ht')) j m Hj E)|].
        apply elem_of_singleton in Ht' as ->. destruct (inp_ok_tcptw _ _ _ _ _ (W2 j m Hj) E) as (_ & _ & _ & C). congruence.
  - split; [apply NoDup_filter, W6|]. cbn. intros t' Ht'. apply elem_of_remove1 in Ht' as [Ht' Hne].
    rewrite lookup_insert_ne by congruence. exact (W6' t' Ht').
  - split_and!; auto. intros j Hj. cbn. destruct (decide (j = i)) as [->|Hne]; [destruct (I' !! i); [eauto | destruct Hn; contradiction]|].
    rewrite HI by exact Hne. auto.
  - intros k Hk. destruct (W8 k Hk) as (Q1 & Q2 & Q3 & Q4). cbn. rewrite HI by congruence. rewrite lookup_insert_ne by congruence. auto.
Qed.
End TwGone.

Definition tw_gone (n : inpcb) : inpcb := n <| inp_ppcb := None |> <| inp_dropped := true |>.

Lemma inp_ok_twgone u o o' i n t : inp_ok u o i n -> inp_ppcb n = Some (Tcptw t) -> inp_sockref n = false -> inp_socket n <> None -> oS o' = oS o ->
  inp_ok u o' i (tw_gone n).
Proof.
  intros K E Hr Hs ES. destruct (inp_ok_tcptw _ _ _ _ _ K E) as (El & Et & _). destruct K as [K1 K2 K3 K4 K5 K6 K7].
  split; cbn; rewrite ?El, ?Et, ?Hr; try discriminate; auto.
  - rewrite El in K1. exact K1.
  - rewrite ES. intros b Hb. split; [reflexivity | apply (K2 b Hb)].
Qed.

(** With a socket the PCB stays, for the socket to detach it. *)
Lemma wf_twgone_sock Y R u o i t n :
  wf Y ∅ R u o -> oI o !! i = Some n -> inp_ppcb n = Some (Tcptw t) -> inp_socket n <> None -> inp_sockref n = false ->
  wf Y ∅ (R ∪ {[t]}) u (o <| oW := <[t := None]> (oW o) |> <| oQ := remove1 t (oQ o) |> <| oI := <[i := tw_gone n]> (oI o) |>).
Proof.
  intros W Hi Ep Hs Hr. apply (wf_twgone Y R u o i t n); auto.
  - intros j Hj. apply lookup_insert_ne. congruence.
  - rewrite lookup_insert_eq. split_and!; auto; [|left; reflexivity].
    apply (inp_ok_twgone u o _ i n t); auto. exact (wf_inps _ _ _ _ _ W _ _ Hi).
Qed.

(** Without one it is given back. *)
Lemma wf_twgone_alone Y R u o i t n :
  wf Y ∅ R u o -> oI o !! i = Some n -> inp_ppcb n = Some (Tcptw t) -> inp_socket n = None ->
  wf Y ∅ (R ∪ {[t]}) u (o <| oW := <[t := None]> (oW o) |> <| oQ := remove1 t (oQ o) |> <| oI := put_back i (tw_gone n) (oI o) |>).
Proof.
  intros W Hi Ep Hs. pose proof (wf_inps _ _ _ _ _ W _ _ Hi) as K. destruct (inp_ok_tcptw _ _ _ _ _ K Ep) as (El & _).
  assert (Hr : inp_sockref n = false).
  { destruct (inp_sockref n) eqn:E; [|reflexivity]. destruct (n_sockref _ _ _ _ K E) as (_ & b & C & _). congruence. }
  apply (wf_twgone Y R u o i t n); auto.
  - intros j Hj. apply put_back_ne, Hj.
  - pose proof (inp_ok_put_back u o (o <| oW := <[t := None]> (oW o) |> <| oQ := remove1 t (oQ o) |> <| oI := put_back i (tw_gone n) (oI o) |>)
      i n (tw_gone n) K El Hs eq_refl Hr eq_refl) as P.
    destruct (put_back i (tw_gone n) (oI o) !! i) as [n'|] eqn:E; [|auto]. destruct P as [P1 P2]. unfold put_back in E.
    destruct (_ =? 1); [rewrite lookup_delete_eq in E; discriminate|]. rewrite lookup_insert_eq in E. injection E as <-.
    split_and!; auto. left. reflexivity.
Qed.

Lemma wf_free_tw Y X R u o t : wf Y X R u o -> t ∈ R -> wf Y X (R ∖ {[t]}) u (o <| oW := delete t (oW o) |>).
Proof.
  intros [W1 W2 W3 W4 W5 [W6 W6'] W7 W8] Ht. destruct (W5 t Ht) as (F1 & F2 & F3).
  assert (Nq : forall t', t' ∈ oQ o -> t' <> t) by (intros t' H ->; contradiction). split; auto.
  - intros a s Ha. apply (sock_ok_same Y X u o); auto.
  - intros i n Hi. destruct (W2 i n Hi) as [K1 K2 K3 K4 K5 K6 K7]. split; auto. intros Q1 Q2 Q3. destruct (K3 Q1 Q2 Q3) as (t' & G1 & G2).
    exists t'. split; [exact G1|]. cbn. rewrite lookup_delete_ne; [exact G2|]. intros <-. exact (F3 i n Hi G1).
  - intros t' x Hx Hr. cbn in Hx. apply lookup_delete_Some in Hx as [Hne Hx]. apply (W4 t' x Hx). set_solver.
  - intros t' Ht'. apply elem_of_difference in Ht' as [Ht' Hne]. rewrite elem_of_singleton in Hne. destruct (W5 t' Ht') as (G1 & G2 & G3).
    split_and!; auto. cbn. rewrite lookup_delete_ne by congruence. exact G2.
  - split; [exact W6|]. intros t' Ht'. cbn. rewrite lookup_delete_ne by (apply not_eq_sym, Nq, Ht'). exact (W6' t' Ht').
  - intros k Hk. destruct (W8 k Hk) as (Q1 & Q2 & Q3 & Q4). split_and!; auto. cbn. apply lookup_delete_None. auto.
Qed.

(** The result of closing an entry: it is free, or kept for another connection. *)
Record tw_closed (R : gset nat) (u : user) (o : shape) (t : nat) (o' : shape) : Prop := {
  tc_wf : wf ∅ ∅ R u o';
  tc_inps : forall i n, oI o !! i = Some n -> ~ over n -> oI o' !! i = Some n;
  tc_twq : oQ o' = remove1 t (oQ o);
  tc_inv : oV o' = oV o }.

Lemma run_tw_tail R u o o1 t (reuse : bool) : t ∉ R -> tw_closed (R ∪ {[t]}) u o t o1 ->
  run (if reuse then mret tt else free_tw t) o1 (fun _ => tw_closed (if reuse then R ∪ {[t]} else R) u o t).
Proof.
  intros Nr [T1 T2 T3 T4]. destruct reuse; [step; split; auto|]. assert (Ht : t ∈ R ∪ {[t]}) by set_solver.
  destruct (wf_reserved _ _ _ _ _ T1 t Ht) as (_ & [x Hx] & _). eapply run_free_tw; [exact Hx|]. split; auto.
  replace R with ((R ∪ {[t]}) ∖ {[t]}) at 1 by set_solver. apply wf_free_tw; assumption.
Qed.

(** The protocol gives up the socket of an entry as it closes it. *)
Definition twref_shape (a i t : nat) (s : socket) (n : inpcb) (o : shape) : shape :=
  o <| oW := <[t := None]> (oW o) |> <| oQ := remove1 t (oQ o) |> <| oS := <[a := s <| ss_protoref := false |>]> (oS o) |>
    <| oI := <[i := tw_gone (n <| inp_sockref := false |>)]> (oI o) |>.

Section TwRef.
Context (R : gset nat) (u : user) (o : shape) (a i t : nat) (s : socket) (n : inpcb).
Context (W : wf ∅ ∅ R u o) (Ha : oS o !! a = Some s) (Hp : so_pcb s = Some i) (Hi : oI o !! i = Some n).
Context (Es : inp_socket n = Some a) (Ep : inp_ppcb n = Some (Tcptw t)) (Hr : inp_sockref n = true).
Let s' := s <| ss_protoref := false |>.
Let n' := n <| inp_sockref := false |>.
Let o1 := set_pair a s' i n' o.
Let o2 := twref_shape a i t s n o.

Lemma twref_protoref : ss_protoref s = true.
Proof. destruct (sock_pcb _ _ _ _ _ W a s Ha) as (j & m & E1 & E2 & _ & E3). congruence. Qed.

Lemma wf_twref : wf (∅ ∪ pair_of a s') ∅ (R ∪ {[t]}) u o2.
Proof.
  pose proof (wf_socks _ _ _ _ _ W _ _ Ha) as K. destruct (sock_facts ∅ R u o a s i n W Ha Hp Hi) as (F1 & F2 & _).
  pose proof (pair_of_self a s') as Ya. destruct (inp_ok_tcptw _ _ _ _ _ (wf_inps _ _ _ _ _ W _ _ Hi) Ep) as (_ & Tw & _).
  replace o2 with (o1 <| oW := <[t := None]> (oW o) |> <| oQ := remove1 t (oQ o) |> <| oI := <[i := tw_gone n']> (oI o1) |>)
    by (unfold o2, o1, twref_shape, set_pair; cbn; rewrite insert_insert_eq; reflexivity).
  apply (wf_twgone_sock (∅ ∪ pair_of a s') R u o1 i t n'); auto; [|exact (lookup_insert_eq (oI o) i n') | cbn; congruence].
  apply (wf_pair ∅ (∅ ∪ pair_of a s') R u u o a i s s' n n'); auto.
  - split; auto.
  - split; auto.
  - apply same_user_refl, (wf_user _ _ _ _ _ W).
  - split; cbn; auto; try congruence; try apply K.
    + intros Hw. split; [reflexivity | apply K, Hw].
    + intros p Epe Hw. split; [reflexivity | exact (proj2 (F1 p Epe Hw))].
    + intros Hn. destruct Hn. apply elem_of_union_r, Ya.
  - apply empty_subseteq.
  - intros Hn. destruct Hn. apply elem_of_union_r, Ya.
  - intros p Epe Hn. destruct Hn. apply elem_of_union_r, pair_of_peer, Epe.
Qed.

Lemma run_twref (Q : unit -> shape -> Prop) :
  (forall o', wf ∅ ∅ (R ∪ {[t]}) u o' -> frees (pair_of a s') o2 o' -> Q tt o') -> run (sofree a) o2 Q.
Proof.
  intros HQ. apply (run_sofree_last ∅ (R ∪ {[t]}) u o2 a s'); [exact wf_twref | exact (lookup_insert_eq (oS o) a s') | | exact HQ].
  intros b sb j m Hb Hsb Hj Hm. unfold o2 in Hsb, Hm. cbn in Hsb, Hm.
  assert (Hb' : b ∈ pair_of a s) by exact Hb.
  apply lookup_insert_Some in Hsb as [[<- <-]|[Hne Hsb]].
  - assert (j = i) as -> by (cbn in Hj; congruence). rewrite lookup_insert_eq in Hm. injection Hm as <-.
    destruct (pair_settled R u o a s W Ha (or_introl twref_protoref) a s i n Hb' Ha Hp Hi) as [F _]. split.
    + unfold enqueued, waiting. cbn. congruence.
    + right; right; left. reflexivity.
  - assert (Hji : j <> i).
    { intros ->. destruct (sock_pcb _ _ _ _ _ W b sb Hsb) as (k & x & E1 & E2 & E3 & _). congruence. }
    rewrite lookup_insert_ne in Hm by congruence.
    destruct (pair_settled R u o a s W Ha (or_introl twref_protoref) b sb j m Hb' Hsb Hj Hm) as [F1 F2]. split; [|exact F2].
    unfold enqueued, waiting. congruence.
Qed.
End TwRef.

Lemma run_twclose R u o t x reuse :
  wf ∅ ∅ R u o -> oW o !! t = Some x -> t ∉ R -> run (tcp_twclose t reuse) o (fun _ => tw_closed (if reuse then R ∪ {[t]} else R) u o t).
Proof.
  intros W Ht Nr. destruct (wf_tws _ _ _ _ _ W t x Ht Nr) as (Hq & i & -> & (n & Hi & Ep)).
  pose proof (wf_inps _ _ _ _ _ W _ _ Hi) as N. destruct (inp_ok_tcptw _ _ _ _ _ N Ep) as (El & Tw & Ed & _).
  assert (Fr : forall j m, oI o !! j = Some m -> ~ over m -> j <> i) by (intros j m Hj Ho ->; apply Ho; right; congruence).
  unfold tcp_twclose, in_pcbdrop, tcp_tw_2msl_stop. step. fields. step. step. step; [exact Tw|].
  step; [rewrite Ep; apply bool_decide_eq_true_2; reflexivity|].
  binds. eapply run_set_tw with (s' := None); [look | reflexivity |]. cbv beta. binds. apply run_twq_remove; [exact Hq|]. cbv beta.
  step. step. fields. shp. rewrite insert_insert_eq. destruct (inp_socket n) as [a|] eqn:Es.
  - destruct (n_sock _ _ _ _ N a Es) as (_ & (s & Ha & Hp)). binds. apply run_when; intros Hr.
    + assert (Epr : ss_protoref s = true) by exact (twref_protoref R u o a i s n W Ha Hp Hi Hr).
      step. step. step; [exact Epr|]. step. shp. rewrite insert_insert_eq.
      lazymatch goal with |- run _ _ ?Q => change (run (sofree a) (twref_shape a i t s n o) Q) end.
      apply (run_twref R u o a i t s n W Ha Hp Hi Es Ep Hr). intros o' W' [G1 G2 G3 G4]. cbv beta. apply run_tw_tail; [exact Nr|].
      split; [exact W' | | exact G3 | exact G4]. intros j m Hj Ho. apply G1; [|exact Ho]. unfold twref_shape. shp. rewrite lookup_insert_ne by (apply not_eq_sym; eauto).
      exact Hj.
    + cbv beta. apply run_tw_tail; [exact Nr|].
      split; [apply (wf_twgone_sock ∅ R u o i t n); auto; congruence | | reflexivity | reflexivity].
      intros j m Hj Ho. shp. rewrite lookup_insert_ne by (apply not_eq_sym; eauto). exact Hj.
  - binds. eapply run_pcbfree; [look | exact Es | apply N |]. cbv beta. shp. rewrite put_back_insert.
    apply run_tw_tail; [exact Nr|]. split; [exact (wf_twgone_alone ∅ R u o i t n W Hi Ep Es) | | reflexivity | reflexivity].
    intros j m Hj Ho. shp. rewrite put_back_ne by eauto. exact Hj.
Qed.

Lemma twq_front Y X R u o t q : wf Y X R u o -> oQ o = t :: q ->
  exists i, oW o !! t = Some (Some i) /\ (t ∉ R) /\ (length (remove1 t (oQ o)) < length (oQ o))%nat.
Proof.
  intros W E. destruct (wf_twq _ _ _ _ _ W) as [N H]. assert (Ht : t ∈ oQ o) by (rewrite E; left). destruct (H t Ht) as [x Hx].
  assert (Nr : t ∉ R) by (intros C; destruct (wf_reserved _ _ _ _ _ W t C) as (D & _); contradiction).
  destruct (wf_tws _ _ _ _ _ W t x Hx Nr) as (_ & i & -> & _). exists i. split_and!; auto. pose proof (length_remove1 t (oQ o) N Ht). lia.
Qed.

Lemma fine_trans R u u' o o' o'' : fine R u o o' -> fine R u' o' o'' -> fine R u' o o''.
Proof. intros [_ E] [W E']. split; [exact W | congruence]. Qed.

Lemma tw_closed_fine R u o t o' : tw_closed R u o t o' -> fine R u o o'.
Proof. intros []. split; auto. Qed.

(** Closing entries from the front of the queue ends. *)
Lemma run_scan_expire R u fuel : forall o, wf ∅ ∅ R u o -> (length (oQ o) < fuel)%nat -> run (tcp_tw_2msl_scan fuel false) o (fun _ => fine R u o).
Proof.
  induction fuel as [|fuel IH]; intros o W Hf; [lia|]. cbn [tcp_tw_2msl_scan]. binds. apply run_get. intros w Hw. cbv beta.
  change (twq_2msl w) with (oQ (shape_of w)). rewrite Hw. destruct (oQ o) as [|t q] eqn:E; [step; exact (fine_here R u o W)|].
  destruct (twq_front _ _ _ _ _ t q W E) as (i & Ht & Nr & Hlen). step. destruct (negb false && _); [step; exact (fine_here R u o W)|].
  fields. step. binds. eapply run_mono; [exact (run_twclose R u o t _ false W Ht Nr)|]. intros r o' T. cbv beta iota.
  eapply run_mono; [apply IH; [apply T | rewrite (tc_twq _ _ _ _ _ T); rewrite E in Hlen |- *; lia]|]. intros r' o2 F. exact (fine_trans _ _ _ _ _ _ (tw_closed_fine _ _ _ _ _ T) F).
Qed.

Lemma run_scan_false R u o : wf ∅ ∅ R u o -> run (run_scan false) o (fun _ => fine R u o).
Proof.
  intros W. unfold run_scan. binds. apply run_get. intros w Hw. cbv beta. change (twq_2msl w) with (oQ (shape_of w)). rewrite Hw.
  apply run_scan_expire; [exact W | lia].
Qed.

Lemma run_scan_true R u o : wf ∅ ∅ R u o ->
  run (run_scan true) o (fun r o' => match r with None => o' = o | Some t => (t ∉ R) /\ tw_closed (R ∪ {[t]}) u o t o' end).
Proof.
  intros W. unfold run_scan. binds. apply run_get. intros w Hw. cbv beta. cbn [tcp_tw_2msl_scan]. binds. apply run_get. intros w' Hw'.
  cbv beta. change (twq_2msl w') with (oQ (shape_of w')). rewrite Hw'. destruct (oQ o) as [|t q] eqn:E; [step; reflexivity|].
  destruct (twq_front _ _ _ _ _ t q W E) as (i & Ht & Nr & _). step. cbn [negb andb]. fields. step. binds.
  eapply run_mono; [exact (run_twclose R u o t _ true W Ht Nr)|]. intros r o' T. cbv beta iota. step. auto.
Qed.

Lemma run_tw_destroy R u fuel : forall o, wf ∅ ∅ R u o -> (length (oQ o) < fuel)%nat ->
  run (tw_destroy fuel) o (fun _ o' => fine R u o o' /\ oQ o' = []).
Proof.
  induction fuel as [|fuel IH]; intros o W Hf; [lia|]. cbn [tw_destroy]. binds. apply run_get. intros w Hw. cbv beta.
  change (twq_2msl w) with (oQ (shape_of w)). rewrite Hw. destruct (oQ o) as [|t q] eqn:E; [step; split; [exact (fine_here R u o W) | exact E]|].
  destruct (twq_front _ _ _ _ _ t q W E) as (i & Ht & Nr & Hlen). binds.
  eapply run_mono; [exact (run_twclose R u o t _ false W Ht Nr)|]. intros r o' T. cbv beta iota.
  eapply run_mono; [apply IH; [apply T | rewrite (tc_twq _ _ _ _ _ T); rewrite E in Hlen |- *; lia]|].
  intros r' o2 [F F']. split; [exact (fine_trans _ _ _ _ _ _ (tw_closed_fine _ _ _ _ _ T) F) | exact F'].
Qed.

Lemma run_tcp_tw_destroy R u o : wf ∅ ∅ R u o -> run tcp_tw_destroy o (fun _ o' => fine R u o o' /\ oQ o' = []).
Proof.
  intros W. unfold tcp_tw_destroy. binds. apply run_get. intros w Hw. cbv beta. change (twq_2msl w) with (oQ (shape_of w)). rewrite Hw.
  apply run_tw_destroy; [exact W | lia].
Qed.

(** A fresh entry. *)
Lemma wf_new_tw Y X R u o x : wf Y X R u o -> wf Y X (R ∪ {[oN o]}) u (o <| oN := S (oN o) |> <| oW := <[oN o := x]> (oW o) |>).
Proof.
  intros W. pose proof W as [W1 W2 W3 W4 W5 [W6 W6'] W7 W8]. destruct (W8 (oN o) (le_n _)) as (N1 & N2 & N3 & N4).
  assert (Ne : forall k y, oW o !! k = Some y -> k <> oN o) by (intros k y H ->; congruence). split; auto.
  - intros a s Ha. apply (sock_ok_same Y X u o); auto.
  - intros i n Hi. destruct (W2 i n Hi) as [K1 K2 K3 K4 K5 K6 K7]. split; auto. intros Q1 Q2 Q3. destruct (K3 Q1 Q2 Q3) as (t' & G1 & G2).
    exists t'. split; [exact G1|]. cbn. rewrite lookup_insert_ne by (apply not_eq_sym; eauto). exact G2.
  - intros t y Hy Hr. cbn in Hy. rewrite lookup_insert_ne in Hy by set_solver. apply (W4 t y Hy). set_solver.
  - intros t Ht. apply elem_of_union in Ht as [Ht|Ht].
    + destruct (W5 t Ht) as (G1 & [y G2] & G3). split_and!; auto. cbn. rewrite lookup_insert_ne by (apply not_eq_sym; eauto). eauto.
    + apply elem_of_singleton in Ht as ->. split_and!.
      * intros C. destruct (W6' _ C) as [y C']. congruence.
      * cbn. rewrite lookup_insert_eq. eauto.
      * intros i n Hi E. destruct (inp_ok_tcptw _ _ _ _ _ (W2 i n Hi) E) as (_ & _ & _ & C). congruence.
  - split; [exact W6|]. intros t Ht. destruct (W6' t Ht) as [y Hy]. cbn. rewrite lookup_insert_ne by (apply not_eq_sym; eauto). eauto.
  - intros k Hk. cbn in Hk. destruct (W8 k ltac:(lia)) as (Q1 & Q2 & Q3 & Q4). split_and!; auto. cbn. rewrite lookup_insert_ne by lia. exact Q4.
Qed.

(** The control block gives way to an entry. *)
Definition in_tw (t' : nat) (n : inpcb) : inpcb := n <| inp_ppcb := Some (Tcptw t') |> <| inp_timewait := true |>.

Section TwStart.
Context (R : gset nat) (u : user) (o : shape) (a i t t' : nat) (s : socket) (n : inpcb) (l : bool).
Context (W : wf ∅ ∅ R u o) (C : conn o a i t s n l) (Ed : inp_dropped n = false) (Ht' : t' ∈ R).

Definition started : shape :=
  o <| oW := <[t' := Some i]> (oW o) |> <| oT := delete t (oT o) |> <| oI := <[i := in_tw t' n]> (oI o) |> <| oQ := oQ o ++ [t'] |>.
Let o' := started.

Lemma started_at j (Q : inpcb -> Prop) : j <> i -> at_ (oI o) j Q -> at_ (oI o') j Q.
Proof. intros Hne (x & Hx & HQ). exists x. cbn. rewrite lookup_insert_ne by congruence. auto. Qed.

Lemma started_sock b sb : oS o !! b = Some sb -> sock_ok ∅ ∅ u o b sb -> sock_ok ∅ ∅ u o' b sb.
Proof.
  intros Hb [K1 K2 K3 K4 K5 K6 K7 K8 K9 K10 K11 K12 K13]. split; auto.
  destruct K1 as (j & Hj & (m & Hm & E1 & E2 & E3 & E4)). exists j. split; [exact Hj|]. destruct (decide (j = i)) as [->|Hne].
  - assert (m = n) as -> by (destruct C; congruence). apply at_insert_eq. cbn. split_and!; auto.
    + intros _ _. right; right; right; right. right. reflexivity.
    + intros D. destruct (not_elem_of_empty _ D).
  - apply started_at; [exact Hne|]. exists m. auto.
Qed.

Lemma started_inp j m : oI o' !! j = Some m -> inp_ok u o' j m.
Proof.
  pose proof C as [C1 C2 C3 C4 C5 C6 C7 C8]. intros Hj. change (oI o') with (<[i := in_tw t' n]> (oI o)) in Hj.
  apply lookup_insert_Some in Hj as [[<- <-]|[Hne Hj]].
  - destruct (wf_inps _ _ _ _ _ W _ _ C3) as [K1 K2 K3 K4 K5 K6 K7]. split; cbn; rewrite ?C8, ?Ed; try discriminate; auto.
    + rewrite C8 in K1. exact K1.
    + intros b Hb. split; [reflexivity | apply (K2 b Hb)].
    + intros _ _ _. exists t'. rewrite lookup_insert_eq. auto.
    + intros Hr. split; [reflexivity | apply (K6 Hr)].
  - destruct (wf_inps _ _ _ _ _ W _ _ Hj) as [K1 K2 K3 K4 K5 K6 K7]. split; auto.
    + intros Q1 Q2 Q3. destruct (K3 Q1 Q2 Q3) as (x & G1 & G2). exists x. split; [exact G1|]. cbn. rewrite lookup_insert_ne; [exact G2|].
      intros <-. exact (proj2 (proj2 (wf_reserved _ _ _ _ _ W t' Ht')) j m Hj G1).
    + intros Q1 Q2. destruct (K5 Q1 Q2) as (R1 & x & k & R2 & R3 & R4). split; [exact R1|]. exists x, k. split_and!; auto.
      cbn. rewrite lookup_delete_ne; [exact R3|]. congruence.
Qed.

Lemma wf_started : wf ∅ ∅ (R ∖ {[t']}) u o'.
Proof.
  pose proof C as [C1 C2 C3 C4 C5 C6 C7 C8]. pose proof W as [W1 W2 W3 W4 W5 [W6 W6'] (W7 & W7' & W7'') W8].
  destruct (W5 t' Ht') as (F1 & F2 & F3). split.
  - intros b sb Hb. apply started_sock; [exact Hb | exact (W1 b sb Hb)].
  - intros j m Hj. apply started_inp, Hj.
  - intros x y Hx. cbn in Hx. apply lookup_delete_Some in Hx as [Hne Hx]. destruct (W3 x y Hx) as (j & Ej & Q). exists j. split; [exact Ej|].
    apply started_at; [|exact Q]. intros ->. destruct Q as (m & Hm & E). congruence.
  - intros x y Hx Hr. cbn in Hx. cbn. rewrite elem_of_app, list_elem_of_singleton. apply lookup_insert_Some in Hx as [[<- <-]|[Hne Hx]].
    + split; [auto|]. exists i. split; [reflexivity|]. apply at_insert_eq. reflexivity.
    + destruct (W4 x y Hx) as (Q1 & j & Ej & Q); [set_solver|]. split; [auto|]. exists j. split; [exact Ej|].
      apply started_at; [|exact Q]. intros ->. destruct Q as (m & Hm & E). congruence.
  - intros x Hx. apply elem_of_difference in Hx as [Hx Hne]. rewrite elem_of_singleton in Hne. destruct (W5 x Hx) as (G1 & G2 & G3).
    cbn. rewrite elem_of_app, list_elem_of_singleton. split_and!; [tauto | rewrite lookup_insert_ne by congruence; exact G2|].
    intros j m Hj. apply lookup_insert_Some in Hj as [[<- <-]|[_ Hj]]; [cbn; congruence | exact (G3 j m Hj)].
  - cbn. split.
    + apply NoDup_app. split_and!; [exact W6 | | apply NoDup_singleton]. intros x Hx. rewrite list_elem_of_singleton. intros ->. contradiction.
    + intros x. rewrite elem_of_app, list_elem_of_singleton. intros Hx. destruct (decide (x = t')) as [->|Hne]; [rewrite lookup_insert_eq; eauto|].
      rewrite lookup_insert_ne by congruence. apply W6'. tauto.
  - split_and!; auto. intros j Hj. cbn. destruct (decide (j = i)) as [->|Hne]; [rewrite lookup_insert_eq; eauto|].
    rewrite lookup_insert_ne by congruence. auto.
  - intros k Hk. destruct (W8 k Hk) as (Q1 & Q2 & Q3 & Q4). cbn. rewrite !lookup_insert_ne by (intros <-; destruct F2; congruence).
    split_and!; auto. apply lookup_delete_None. auto.
Qed.
End TwStart.

(** Objects that are allocated. *)
Section Alloc.
Implicit Types (Q : unit -> shape -> Prop).

Lemma run_new_so k x o Q : Q tt (o <| oS := <[k := sshape x]> (oS o) |>) -> run (modify (fun w => w <| socks := <[k := x]> (socks w) |>)) o Q.
Proof. intros HQ. apply run_modify. intros w <-. unfold shape_of in *. cbn in *. rewrite fmap_insert. exact HQ. Qed.
Lemma run_new_inp k x o Q : Q tt (o <| oI := <[k := ishape x]> (oI o) |>) -> run (modify (fun w => w <| inps := <[k := x]> (inps w) |>)) o Q.
Proof. intros HQ. apply run_modify. intros w <-. unfold shape_of in *. cbn in *. rewrite fmap_insert. exact HQ. Qed.
Lemma run_new_tcb k x o Q : Q tt (o <| oT := <[k := tshape x]> (oT o) |>) -> run (modify (fun w => w <| tcbs := <[k := x]> (tcbs w) |>)) o Q.
Proof. intros HQ. apply run_modify. intros w <-. unfold shape_of in *. cbn in *. rewrite fmap_insert. exact HQ. Qed.
Lemma run_new_tw k x o Q : Q tt (o <| oW := <[k := tw_inpcb x]> (oW o) |>) -> run (modify (fun w => w <| tws := <[k := x]> (tws w) |>)) o Q.
Proof. intros HQ. apply run_modify. intros w <-. unfold shape_of in *. cbn in *. rewrite fmap_insert. exact HQ. Qed.
End Alloc.

(** An answer to a segment leaves the shape. *)
Lemma run_twrespond t flags i n o (Q : unit -> shape -> Prop) :
  oW o !! t = Some (Some i) -> oI o !! i = Some n -> Q tt o -> run (tcp_twrespond t flags) o Q.
Proof.
  intros Ht Hi HQ. unfold tcp_twrespond. step. fields. step. step. step. apply run_when; intros _; [|exact HQ].
  binds. apply run_get. intros w Hw. cbv beta zeta. apply run_modify. intros w' Hw'. unfold shape_of in *. cbn. rewrite Hw'. exact HQ.
Qed.

Lemma run_2msl_queue t x o (Q : unit -> shape -> Prop) :
  oW o !! t = Some x -> Q tt (o <| oQ := oQ o ++ [t] |>) -> run (tcp_tw_2msl_reset t false) o Q.
Proof.
  intros Ht HQ. unfold tcp_tw_2msl_reset. binds. apply run_ret. binds. apply run_get. intros w Hw. cbv beta. binds.
  eapply run_set_tw with (s' := x); [exact Ht | intros y <-; reflexivity |]. cbv beta. shp. rewrite insert_id by exact Ht.
  apply run_modify. intros w' Hw'. unfold shape_of. cbn. change (Q tt ((shape_of w') <| oQ := oQ (shape_of w') ++ [t] |>)). rewrite Hw'. destruct o; exact HQ.
Qed.

Section RunTwStart.
Context (u : user) (o : shape) (a i t t' : nat) (s : socket) (n : inpcb) (l : bool).
Context (W : wf ∅ ∅ {[t']} u o) (C : conn o a i t s n l) (Ed : inp_dropped n = false).

Lemma run_started_ref o0 : inp_sockref n = true -> oV o = oV o0 ->
  run (so ← get_so a; KASSERT (ss_protoref so);; set_inp i (fun inp => inp <| inp_sockref := false |>);;
       set_so a (fun so => so <| ss_protoref := false |>);; sofree a) (started o i t t' n) (fun _ => fine ∅ u o0).
Proof.
  intros Hr Ev. pose proof C as [C1 C2 C3 C4 C5 C6 C7 C8]. pose proof (elem_of_singleton_2 (C := gset nat) t' t' eq_refl) as Ht'.
  pose proof (wf_started {[t']} u o a i t t' s n l W C Ed Ht') as W'. replace ({[t']} ∖ {[t']}) with (∅ : gset nat) in W' by set_solver.
  set (o' := started o i t t' n) in *.
  assert (Hi' : oI o' !! i = Some (in_tw t' n)) by exact (lookup_insert_eq _ _ _).
  pose proof (wf_socks _ _ _ _ _ W' _ _ C1) as K. destruct (sock_facts ∅ ∅ u o' a s i _ W' C1 C2 Hi') as (F1 & F2 & _).
  destruct (sock_pcb _ _ _ _ _ W a s C1) as (j & m & E1 & E2 & _ & E3). assert (m = n) as -> by congruence. rewrite Hr in E3.
  step. step; [exact E3|]. step. step.
  lazymatch goal with |- run _ _ ?Q => change (run (sofree a) (set_pair a (s <| ss_protoref := false |>) i (in_tw t' n <| inp_sockref := false |>) o') Q) end.
  apply (run_lose ∅ u u o' a i s (s <| ss_protoref := false |>) (in_tw t' n) (in_tw t' n <| inp_sockref := false |>)); auto.
  - split; auto.
  - split; auto.
  - apply same_user_refl, (wf_user _ _ _ _ _ W').
  - split; cbn; auto; try congruence; try apply K.
    + intros Hw. split; [reflexivity | apply K, Hw].
    + intros p Ep Hw. split; [reflexivity | exact (proj2 (F1 p Ep Hw))].
    + intros Hn. destruct Hn. apply elem_of_union_r, pair_of_self.
  - right; right; right. reflexivity.
  - intros o2 W2 [_ _ _ Fv]. split; [exact W2 | cbn in Fv; congruence].
Qed.

Lemma run_into_tw tp o0 acknow : oV o = oV o0 ->
  run (set_tw t' (fun _ => tw_of i tp);; tcp_discardcb t;;
       inp ← get_inp i; a ← deref (inp_socket inp); set_so a soisdisconnected;;
       when (negb (inp_passive inp) && acknow) (tcp_twrespond t' 16);;
       set_inp i (fun inp => inp <| inp_ppcb := Some (Tcptw t') |> <| inp_timewait := true |>);;
       tcp_tw_2msl_reset t' false;;
       if inp_passive inp then tcp_twclose t' false
       else if inp_sockref inp then
         so ← get_so a; KASSERT (ss_protoref so);; set_inp i (fun inp => inp <| inp_sockref := false |>);;
         set_so a (fun so => so <| ss_protoref := false |>);; sofree a
       else mret tt) o (fun _ => fine ∅ u o0).
Proof.
  intros Ev. pose proof C as [C1 C2 C3 C4 C5 C6 C7 C8]. pose proof (elem_of_singleton_2 (C := gset nat) t' t' eq_refl) as Ht'.
  pose proof (wf_started {[t']} u o a i t t' s n l W C Ed Ht') as W'. replace ({[t']} ∖ {[t']}) with (∅ : gset nat) in W' by set_solver.
  destruct (wf_reserved _ _ _ _ _ W t' Ht') as (_ & [x Hx] & _).
  binds. eapply run_set_tw with (s' := Some i); [exact Hx | reflexivity |]. cbv beta. binds.
  eapply run_discardcb; [look | look | look | exact C4 |]. cbv beta. step. fields. cbn [inp_socket inp_sockref update eta eta_inpcb].
  rewrite C4. step. step. binds.
  assert (Rest : run (set_inp i (fun inp => inp <| inp_ppcb := Some (Tcptw t') |> <| inp_timewait := true |>);;
       tcp_tw_2msl_reset t' false;;
       if inp_passive inp then tcp_twclose t' false
       else if inp_sockref n then
         so ← get_so a; KASSERT (ss_protoref so);; set_inp i (fun inp => inp <| inp_sockref := false |>);;
         set_so a (fun so => so <| ss_protoref := false |>);; sofree a
       else mret tt) (o <| oW := <[t' := Some i]> (oW o) |> <| oI := <[i := n <| inp_ppcb := None |>]> (oI o) |> <| oT := delete t (oT o) |>) (fun _ => fine ∅ u o0)).
  { step. binds. eapply run_2msl_queue; [shp; apply lookup_insert_eq|]. cbv beta. shp. rewrite insert_insert_eq.
    lazymatch goal with |- run ?m _ ?Q => change (run m (started o i t t' n) Q) end.
    destruct (inp_passive inp).
    - assert (Hw : oW (started o i t t' n) !! t' = Some (Some i)) by exact (lookup_insert_eq _ _ _).
      eapply run_mono; [exact (run_twclose ∅ u _ t' _ false W' Hw (not_elem_of_empty _))|]. intros r o2 T.
      split; [apply T | rewrite (tc_inv _ _ _ _ _ T); exact Ev].
    - destruct (inp_sockref n) eqn:Hr; [exact (run_started_ref o0 Hr Ev) | step; split; [exact W' | exact Ev]]. }
  apply run_when; intros _; [|exact Rest]. eapply run_twrespond; [shp; apply lookup_insert_eq | look | exact Rest].
Qed.
End RunTwStart.

Lemma run_twstart u o t x in_localip : wf ∅ ∅ ∅ u o -> oT o !! t = Some x ->
  (forall i n, fst x = Some i -> oI o !! i = Some n -> inp_dropped n = false) -> run (tcp_twstart t in_localip) o (fun _ => fine ∅ u o).
Proof.
  intros W Ht Hd. destruct (conn_of_tcb _ _ _ _ _ W t x Ht) as (a & i & s & n & l & -> & C). pose proof C as [C1 C2 C3 C4 C5 C6 C7 C8].
  specialize (Hd i n eq_refl C3). assert (No : ~ over n) by (intros [D|D]; congruence).
  assert (Cl : run (close_and_unlock t) o (fun _ => fine ∅ u o)).
  { unfold close_and_unlock. binds. eapply run_mono; [exact (run_close ∅ u o t _ W Ht)|]. intros r o' F. cbv beta. step. exact F. }
  unfold tcp_twstart. step. fields. cbn [fst]. step. step. binds. apply run_get. intros w Hw. cbv beta.
  destruct (_ && _); [exact Cl|]. step.
  assert (Go : forall t' o1, wf ∅ ∅ {[t']} u o1 -> oI o1 !! i = Some n -> exists s1 l1, conn o1 a i t s1 n l1).
  { intros t' o1 W1 Hi1. destruct (n_sock _ _ _ _ (wf_inps _ _ _ _ _ W1 _ _ Hi1) a C4) as (_ & (s1 & Hs1 & Hp1)).
    destruct (conn_of_inp _ _ _ _ _ W1 a i s1 n Hs1 Hp1 Hi1 C7) as (t2 & l1 & C'). assert (t2 = t) as -> by (destruct C'; congruence). eauto. }
  binds. destruct ok.
  - step. binds. apply run_new_tw. cbv beta. step. pose proof (wf_new_tw ∅ ∅ ∅ u o None W) as W1. rewrite union_empty_l_L in W1.
    assert (C' : conn (o <| oN := S (oN o) |> <| oW := <[oN o := None]> (oW o) |>) a i t s n l) by (split; auto).
    exact (run_into_tw u _ a i t (oN o) s n l W1 C' Hd tp o _ eq_refl).
  - eapply run_mono; [exact (run_scan_true ∅ u o W)|]. intros [t'|] o1; cbv beta iota; [|intros ->; exact Cl].
    intros [_ [T1 T2 T3 T4]]. rewrite union_empty_l_L in T1. destruct (Go t' o1 T1 (T2 i n C3 No)) as (s1 & l1 & C').
    exact (run_into_tw u o1 a i t t' s1 n l1 T1 C' Hd tp o _ T4).
Qed.

(** An entry goes to the end of the queue. *)
Lemma wf_requeue Y X R u o t : wf Y X R u o -> t ∈ oQ o -> wf Y X R u (o <| oQ := remove1 t (oQ o) ++ [t] |>).
Proof.
  intros [W1 W2 W3 W4 W5 [W6 W6'] W7 W8] Ht.
  assert (E : forall x, x ∈ remove1 t (oQ o) ++ [t] <-> x ∈ oQ o).
  { intros x. rewrite elem_of_app, list_elem_of_singleton, elem_of_remove1. destruct (decide (x = t)) as [->|]; tauto. }
  split; auto.
  - intros a s Ha. apply (sock_ok_same Y X u o); auto.
  - intros i n Hi. destruct (W2 i n Hi). split; auto.
  - intros x y Hx Hr. cbn. rewrite E. exact (W4 x y Hx Hr).
  - intros x Hx. cbn. rewrite E. exact (W5 x Hx).
  - cbn. split; [|intros x; rewrite E; apply W6']. apply NoDup_app. split_and!; [apply NoDup_filter, W6 | | apply NoDup_singleton].
    intros x. rewrite elem_of_remove1, list_elem_of_singleton. tauto.
Qed.

Lemma run_2msl_rearm t x o (Q : unit -> shape -> Prop) :
  oW o !! t = Some x -> t ∈ oQ o -> Q tt (o <| oQ := remove1 t (oQ o) ++ [t] |>) -> run (tcp_tw_2msl_reset t true) o Q.
Proof.
  intros Ht Hq HQ. unfold tcp_tw_2msl_reset. binds. apply run_twq_remove; [exact Hq|]. cbv beta.
  pose (o1 := o <| oQ := remove1 t (oQ o) |>). pose proof (run_2msl_queue t x o1 Q Ht HQ) as H. unfold tcp_tw_2msl_reset in H.
  intros w Hw. exact (H w Hw).
Qed.

Lemma run_twcheck u o i n th_seq th_ack th_flags tlen : wf ∅ ∅ ∅ u o -> oI o !! i = Some n -> inp_timewait n = true ->
  run (tcp_twcheck i th_seq th_ack th_flags tlen) o (fun _ => fine ∅ u o).
Proof.
  intros W Hi Tw. pose proof (wf_inps _ _ _ _ _ W _ _ Hi) as N. unfold tcp_twcheck, intotw. step. fields.
  destruct (inp_ppcb n) as [[t|t]|] eqn:Ep.
  - destruct (inp_ok_tcpcb _ _ _ _ _ N Ep) as (_ & C & _). congruence.
  - destruct (inp_ok_tcptw _ _ _ _ _ N Ep) as (El & _ & Ed & Ht). destruct (wf_tws _ _ _ _ _ W t _ Ht (not_elem_of_empty _)) as (Hq & _).
    step. step. destruct (has_flag th_flags TH_RST); [step; exact (fine_here ∅ u o W)|].
    destruct (has_flag th_flags TH_SYN && _).
    { binds. eapply run_mono; [exact (run_twclose ∅ u o t _ false W Ht (not_elem_of_empty _))|]. intros r o' T. cbv beta. step.
      exact (tw_closed_fine _ _ _ _ _ T). }
    destruct (negb (has_flag th_flags TH_ACK)); [step; exact (fine_here ∅ u o W)|]. cbv zeta.
    assert (Tail : forall o' b, fine ∅ u o o' -> oW o' !! t = Some (Some i) -> oI o' !! i = Some n ->
      run (when b (tcp_twrespond t 16);; mret false) o' (fun _ => fine ∅ u o)).
    { intros o' b F Ht' Hi'. binds. apply run_when; intros _; [|step; exact F]. eapply run_twrespond; [exact Ht' | exact Hi' |]. cbv beta. step. exact F. }
    binds. apply run_when; intros _.
    + eapply run_2msl_rearm; [exact Ht | exact Hq |]. apply Tail; auto. split; [exact (wf_requeue _ _ _ _ _ _ W Hq) | reflexivity].
    + apply Tail; auto. exact (fine_here ∅ u o W).
  - step. step. exact (fine_here ∅ u o W).
Qed.

(** ** References to PCBs *)

Definition pin (i : nat) (u : user) : user := mk_user (opens u) (closing u) (i :: pins u).

Fixpoint remove_one (i : nat) (l : list nat) : list nat :=
  match l with
  | [] => []
  | j :: l => if decide (j = i) then l else j :: remove_one i l
  end.
Definition unpin (i : nat) (u : user) : user := mk_user (opens u) (closing u) (remove_one i (pins u)).

Lemma remove_one_elem i j l : j ∈ remove_one i l -> j ∈ l.
Proof.
  induction l as [|k l IH]; cbn; [auto|]. destruct (decide (k = i)); [right; assumption|].
  rewrite !elem_of_cons. intros [H|H]; auto.
Qed.

Lemma count_remove_one i j l : i ∈ l ->
  Z.of_nat (count_occ Nat.eq_dec (remove_one i l) j) = Z.of_nat (count_occ Nat.eq_dec l j) - if decide (j = i) then 1 else 0.
Proof.
  induction l as [|k l IH]; intros H; [inversion H|]. cbn [remove_one]. destruct (decide (k = i)) as [->|Hk].
  - cbn [count_occ]. destruct (Nat.eq_dec i j), (decide (j = i)); try congruence; lia.
  - apply elem_of_cons in H as [H|H]; [congruence|]. specialize (IH H). cbn [count_occ].
    destruct (Nat.eq_dec k j), (decide (j = i)); try congruence; lia.
Qed.

Section Refs.
Context (R : gset nat) (u u' : user) (o : shape) (i : nat) (n : inpcb) (I' : gmap nat inpcb).
Context (W : wf ∅ ∅ R u o) (Hi : oI o !! i = Some n) (HO : opens u' = opens u) (HC : closing u' = closing u).
Context (HP : forall j, j <> i -> count_occ Nat.eq_dec (pins u') j = count_occ Nat.eq_dec (pins u) j).
Context (HI : forall j, j <> i -> I' !! j = oI o !! j).
Context (Hn : match I' !! i with
              | None => inp_socket n = None /\ inp_ppcb n = None /\ i ∉ pins u'
              | Some n' => n' = n <| inp_refcount := (if inp_listed n then 1 else 0) + Z.of_nat (count_occ Nat.eq_dec (pins u') i) |> /\ 0 < inp_refcount n' < 2 ^ 32
              end).
Let o' := o <| oI := I' |>.

Lemma refs_owned : owned u' = owned u.
Proof. unfold owned. rewrite HO, HC. reflexivity. Qed.

Lemma refs_at j (Q : inpcb -> Prop) : (forall m c, Q m -> Q (m <| inp_refcount := c |>)) -> (Q n -> inp_socket n <> None \/ inp_ppcb n <> None) ->
  at_ (oI o) j Q -> at_ (oI o') j Q.
Proof.
  intros HQ Hl (m & Hm & Q1). unfold at_. change (oI o') with I'. destruct (decide (j = i)) as [->|Hne].
  - assert (m = n) as -> by congruence. destruct (I' !! i) as [n'|]; [|destruct (Hl Q1); destruct Hn as (? & ? & ?); congruence].
    destruct Hn as [-> _]. eauto.
  - rewrite HI by exact Hne. eauto.
Qed.

Lemma refs_sock b sb : sock_ok ∅ ∅ u o b sb -> sock_ok ∅ ∅ u' o' b sb.
Proof.
  intros [K1 K2 K3 K4 K5 K6 K7 K8 K9 K10 K11 K12 K13]. unfold newborn in *. split; unfold newborn; rewrite ?refs_owned; auto.
  destruct K1 as (j & Hj & K1). exists j. split; [exact Hj|]. unfold released. rewrite HO.
  apply refs_at; [| |exact K1]; cbn.
  - intros m c (E1 & E2 & E3 & E4). split_and!; auto. intros D. destruct (not_elem_of_empty _ D).
  - intros (E1 & _). left. congruence.
Qed.

Lemma refs_inp j m : oI o' !! j = Some m -> inp_ok u' o' j m.
Proof.
  intros Hj. change (oI o') with I' in Hj. destruct (decide (j = i)) as [->|Hne].
  - rewrite Hj in Hn. destruct Hn as [-> Hr]. destruct (wf_inps _ _ _ _ _ W _ _ Hi) as [K1 K2 K3 K4 K5 K6 K7]. split; cbn; rewrite ?HO; auto.
  - rewrite HI in Hj by exact Hne. destruct (wf_inps _ _ _ _ _ W _ _ Hj) as [K1 K2 K3 K4 K5 K6 K7]. split; cbn; rewrite ?HO; auto.
    rewrite (HP j Hne). exact K1.
Qed.

Lemma refs_pinned j : j ∈ pins u' -> is_Some (I' !! j).
Proof.
  intros Hj. destruct (decide (j = i)) as [->|Hne]; [destruct (I' !! i); [eauto | destruct Hn as (_ & _ & C); contradiction]|].
  rewrite HI by exact Hne. apply (proj2 (proj2 (wf_user _ _ _ _ _ W))). rewrite list_elem_of_In in *.
  apply (count_occ_In Nat.eq_dec) in Hj. apply (count_occ_In Nat.eq_dec). rewrite <- (HP j Hne). exact Hj.
Qed.

Lemma wf_refs : wf ∅ ∅ R u' o'.
Proof.
  pose proof W as [W1 W2 W3 W4 W5 W6 (W7 & W7' & W7'') W8]. split; auto.
  - intros b sb Hb. apply refs_sock, W1, Hb.
  - intros j m. apply refs_inp.
  - intros t x Hx. destruct (W3 t x Hx) as (j & Ej & Q). exists j. split; [exact Ej|]. apply refs_at; [auto | intros E; right; congruence | exact Q].
  - intros t x Hx Hr. destruct (W4 t x Hx Hr) as (Q0 & j & Ej & Q). split; [exact Q0|]. exists j. split; [exact Ej|].
    apply refs_at; [auto | intros E; right; congruence | exact Q].
  - intros t Ht. destruct (W5 t Ht) as (G1 & G2 & G3). split_and!; auto. intros j m Hj. change (oI o') with I' in Hj.
    destruct (decide (j = i)) as [->|Hne]; [|rewrite HI in Hj by exact Hne; exact (G3 j m Hj)].
    rewrite Hj in Hn. destruct Hn as [-> _]. exact (G3 i n Hi).
  - rewrite HO, HC, refs_owned. split_and!; auto. exact refs_pinned.
  - intros k Hk. destruct (W8 k Hk) as (Q1 & Q2 & Q3 & Q4). split_and!; auto. change (oI o') with I'. rewrite HI by congruence. exact Q2.
Qed.
End Refs.

Lemma run_pcbref R u o i n : wf ∅ ∅ R u o -> oI o !! i = Some n -> inp_refcount n + 1 < 2 ^ 32 ->
  run (in_pcbref i) o (fun _ => fine R (pin i u) o).
Proof.
  intros W Hi Hc. pose proof (wf_inps _ _ _ _ _ W _ _ Hi) as [[K1 K1'] _ _ _ _ _ _]. unfold in_pcbref. step. step; [apply Z.ltb_lt, K1'|].
  step. split; [|reflexivity]. rewrite u32_small by lia.
  apply (wf_refs R u (pin i u) o i n); auto.
  - intros j Hj. cbn [count_occ pins pin]. destruct (Nat.eq_dec i j); [congruence | reflexivity].
  - intros j Hj. apply lookup_insert_ne. congruence.
  - rewrite lookup_insert_eq. cbn [pins pin count_occ]. destruct (Nat.eq_dec i i); [|congruence]. cbn [inp_refcount update eta eta_inpcb].
    split; [|lia]. f_equal. lia.
Qed.

Lemma run_pcbrele R u o i : wf ∅ ∅ R u o -> i ∈ pins u -> run (in_pcbrele_wlocked i) o (fun _ => fine R (unpin i u) o).
Proof.
  intros W Hp. destruct (wf_user _ _ _ _ _ W) as (_ & _ & Hu). destruct (Hu i Hp) as [n Hi].
  pose proof (wf_inps _ _ _ _ _ W _ _ Hi) as [[K1 K1'] _ _ _ _ _ K7]. pose proof (count_remove_one i i (pins u) Hp) as Ec.
  rewrite decide_True in Ec by reflexivity.
  assert (Hother : forall j, j <> i -> count_occ Nat.eq_dec (pins (unpin i u)) j = count_occ Nat.eq_dec (pins u) j).
  { intros j Hj. pose proof (count_remove_one i j (pins u) Hp) as E. rewrite decide_False in E by exact Hj. cbn [unpin pins]. lia. }
  unfold in_pcbrele_wlocked. step. step; [apply Z.ltb_lt, K1'|]. step. fields. destruct (Z.eqb_spec (inp_refcount n) 1) as [E|E]; cbn [negb].
  - assert (El : inp_listed n = false) by (destruct (inp_listed n); [|reflexivity]; rewrite list_elem_of_In in Hp; apply (count_occ_In Nat.eq_dec) in Hp; lia).
    destruct (K7 El) as [Es Ep]. step; [cbn; rewrite Es; reflexivity|]. step. step. split; [|reflexivity]. shp. rewrite delete_insert_eq.
    apply (wf_refs R u (unpin i u) o i n); auto.
    + intros j Hj. apply lookup_delete_ne. congruence.
    + rewrite lookup_delete_eq. split_and!; auto. apply pins_zero. cbn [unpin pins]. rewrite El in K1. lia.
  - step. split; [|reflexivity]. rewrite u32_small by lia. apply (wf_refs R u (unpin i u) o i n); auto.
    + intros j Hj. apply lookup_insert_ne. congruence.
    + rewrite lookup_insert_eq. cbn [unpin pins inp_refcount update eta eta_inpcb]. split; [|lia]. f_equal. lia.
Qed.
End LifeOps.
