(* ===== verification/SockLifeNew.v ===== *)
(** * New sockets keep ownership

    Making a socket with its control blocks, putting it on the queue of a
    listening socket, accepting it and aborting it: the rules of [SockLifeOps] for
    the operations that add to the world or take from the queues. *)

From stdpp Require Import gmap.
From S2P Require Import Prelude TcpSeq SockLife SockLifeInv SockLifeOps.

Module LifeNew.

Import SockLife.Life SockLifeInv.LifeInv SockLifeOps.LifeOps.

(** ** Attaching *)

Definition new_inp (a t : nat) : inpcb := mk_inpcb (Some a) (Some (Tcpcb t)) false false false false 1 true.

(** A socket that was alone has its control blocks. *)
Definition attached (a : nat) (s : socket) (o : shape) : shape :=
  o <| oS := <[a := s <| so_pcb := Some (oN o) |>]> (oS o) |> <| oI := <[oN o := new_inp a (S (oN o))]> (oI o) |>
    <| oT := <[S (oN o) := (Some (oN o), false)]> (oT o) |> <| oN := S (S (oN o)) |>.

Definition unused (o : shape) : Prop := forall k, (oN o <= k)%nat -> oI o !! k = None /\ oT o !! k = None.

Section Attach.
Context (a : nat) (s : socket) (o : shape) (Ha : oS o !! a = Some s) (Hp : so_pcb s = None) (Hu : unused o).

Lemma run_pcballoc (Q : bool -> shape -> Prop) :
  (forall N, (oN o <= N)%nat -> Q false (o <| oN := N |>)) ->
  Q true (o <| oS := <[a := s <| so_pcb := Some (oN o) |>]> (oS o) |>
            <| oI := <[oN o := mk_inpcb (Some a) None false false false false 1 true]> (oI o) |> <| oN := S (oN o) |>) ->
  run (in_pcballoc a) o Q.
Proof.
  intros HF HT. destruct (Hu (oN o) (le_n _)) as [Ni _]. unfold in_pcballoc. step. destruct ok; cbn [negb].
  2: { step. specialize (HF (oN o) (le_n _)). destruct o; exact HF. }
  step. step. binds. apply run_new_inp. cbv beta. step. destruct ok; cbn [negb].
  - step. step. step. step. shp. rewrite !insert_insert_eq. exact HT.
  - step. step. shp. rewrite delete_insert_id by exact Ni. exact (HF (S (oN o)) (le_S _ _ (le_n _))).
Qed.

Lemma run_attach (Q : bool -> shape -> Prop) :
  (forall N, (oN o <= N)%nat -> Q false (o <| oN := N |>)) -> Q true (attached a s o) -> run (tcp_usr_attach a) o Q.
Proof.
  intros HF HT. destruct (Hu (oN o) (le_n _)) as [Ni _]. destruct (Hu (S (oN o)) (le_S _ _ (le_n _))) as [_ Nt].
  unfold tcp_usr_attach, tcp_attach. step. step; [rewrite Hp; reflexivity|]. step. destruct ok; cbn [negb].
  2: { step. specialize (HF (oN o) (le_n _)). destruct o; exact HF. }
  binds. apply run_pcballoc; [intros N HN; cbv beta; cbn [negb]; step; exact (HF N HN)|]. cbv beta. cbn [negb].
  assert (Undo : forall N, (oN o <= N)%nat ->
    run (in_pcbdetach (oN o);; in_pcbfree (oN o);; mret false)
      (o <| oS := <[a := s <| so_pcb := Some (oN o) |>]> (oS o) |>
         <| oI := <[oN o := mk_inpcb (Some a) None false false false false 1 true]> (oI o) |> <| oN := N |>) Q).
  { intros N HN. binds. eapply run_pcbdetach; [look | look | reflexivity |]. cbv beta. binds.
    eapply run_pcbfree; [look | reflexivity | cbn; lia |]. cbv beta. step.
    lazymatch goal with |- Q false ?x => replace x with (o <| oN := N |>); [exact (HF N HN)|] end.
    clear - Ha Hp Ni. destruct o as [S1 I1 T1 W1 Q1 N1 V1]. unfold put_back, set_pair, update. cbn in *. f_equal.
    - rewrite insert_insert_eq. symmetry. apply insert_id. rewrite Ha. destruct s. unfold update. cbn in *. subst. reflexivity.
    - rewrite !delete_insert_eq. symmetry. apply delete_id, Ni. }
  step. fields. cbn [so_pcb update eta eta_socket]. step. unfold tcp_newtcpcb. binds. step. destruct ok; cbn [negb].
  2: { step. apply (Undo (S (oN o))). lia. }
  step. binds. apply run_new_tcb. cbv beta. step. destruct ok; cbn [negb].
  2: { step. step. shp. rewrite delete_insert_id by exact Nt. apply (Undo (S (S (oN o)))). lia. }
  step. destruct ok; cbn [negb].
  2: { step. step. shp. rewrite delete_insert_id by exact Nt. apply (Undo (S (S (oN o)))). lia. }
  binds. eapply run_set_tp with (s' := (Some (oN o), false)); [look | intros x [= _ E]; unfold tshape; cbn; congruence |]. cbv beta.
  step. step. binds. eapply run_set_state; [look|]. cbv beta. step. shp. rewrite !insert_insert_eq. exact HT.
Qed.
End Attach.

(** ** A socket is born *)

Record born (Y' : gset nat) (u' : user) (a i : nat) (s : socket) : Prop := {
  b_pcb : so_pcb s = Some i;
  b_protoref : ss_protoref s = false;
  b_sq : sq_incomp s = false /\ sq_comp s = false;
  b_queues : so_incomp s = [] /\ so_comp s = [] /\ so_incqlen s = 0 /\ so_qlen s = 0 /\ 0 <= so_qlimit s;
  b_peer : so_passive_peer s = None;
  b_count : so_count s = if decide (a ∈ owned u') then 1 else 0;
  b_nofd : ss_nofdref s = false -> a ∈ owned u';
  b_head : forall h, so_head s = Some h -> (a ∈ Y') /\ (h ∈ owned u') /\ (a ∉ owned u') /\ so_passive s = false;
  b_held : a ∉ Y' -> a ∈ opens u' }.

Section Born.
Context (Y Y' R : gset nat) (u u' : user) (o : shape) (a i t N : nat) (s : socket).
Context (W : wf Y ∅ R u o) (Na : oS o !! a = None) (Ni : oI o !! i = None) (Nt : oT o !! t = None).
Context (Ha : (a < N)%nat) (Hi : (i < N)%nat) (Ht : (t < N)%nat) (HN : (oN o <= N)%nat).
Context (U : same_user_but a u u') (HY : Y ⊆ Y') (Ow : owned u ⊆ owned u') (B : born Y' u' a i s).

Definition born_shape : shape :=
  o <| oS := <[a := s]> (oS o) |> <| oI := <[i := new_inp a t]> (oI o) |> <| oT := <[t := (Some i, false)]> (oT o) |> <| oN := N |>.
Let o' := born_shape.

Lemma born_at_so k Q : at_ (oS o) k Q -> at_ (oS o') k Q.
Proof. apply at_new, Na. Qed.
Lemma born_at_inp k Q : at_ (oI o) k Q -> at_ (oI o') k Q.
Proof. apply at_new, Ni. Qed.

Lemma born_other b sb : oS o !! b = Some sb -> sock_ok Y ∅ u o b sb -> sock_ok Y' ∅ u' o' b sb.
Proof.
  intros Hb [K1 K2 K3 K4 K5 K6 K7 K8 K9 K10 K11 K12 K13]. assert (Hne : b <> a) by congruence. pose proof (su_owned a u u' b U Hne) as Eo.
  assert (HbY : b ∉ Y' -> b ∉ Y) by (intros H C; exact (H (HY _ C))). split; auto.
  - destruct K1 as (j & Hj & K1). exists j. split; [exact Hj|]. apply born_at_inp. eapply at_impl; [exact K1|]. cbn. intros x _ (E1 & E2 & E3 & E4).
    split_and!; auto. intros H1 H2. destruct (E3 (HbY H1) H2) as [H|[H|[H|[(p & Hpe & H)|H]]]].
    + left. apply (su_opens _ _ _ U b Hne), H.
    + right; left; exact H.
    + right; right; left; exact H.
    + right; right; right; left. exists p. split; [exact Hpe | apply born_at_so, H].
    + right; right; right; right; exact H.
  - rewrite K2. destruct (decide (b ∈ owned u)), (decide (b ∈ owned u')); tauto.
  - intros h Hh. destruct (K4 h Hh) as [H|(N1 & N2 & N3 & N4)]; [left; apply born_at_so, H | right; split_and!; auto].
  - intros Hw. rewrite Eo. auto.
  - intros c Hc. destruct (K9 c Hc) as [Q1 Q2]. split; [apply Eo, Q1 | apply born_at_so, Q2].
  - intros HX p Hpe. destruct (K10 HX p Hpe) as (Q1 & Q2 & (sp & Hsp & Q3 & Q4)). split_and!; auto. apply born_at_so. exists sp. split_and!; auto.
    intros Hw. rewrite (su_owned a u u' p U) by congruence. auto.
  - intros H1 H2. destruct (K12 (HbY H1) H2) as [H|(p & Hpe & H)]; [left; exact H | right; exists p; split; [exact Hpe | apply born_at_so, H]].
Qed.

Lemma born_self : sock_ok Y' ∅ u' o' a s.
Proof.
  destruct B as [B1 B2 [B3 B3'] (B4 & B5 & B6 & B7 & B8) B9 B10 B11 B12 B13]. split; auto.
  - exists i. split; [exact B1|]. apply at_insert_eq. cbn. split_and!; auto; [|intros C; destruct (not_elem_of_empty _ C)].
    intros H1 _. left. auto.
  - intros h Hh. right. destruct (B12 h Hh) as (H1 & H2 & _). split_and!; auto.
  - intros Hw. unfold waiting in Hw. destruct (so_head s) as [h|] eqn:E; [|congruence]. destruct (B12 h eq_refl) as (_ & _ & H & _). auto.
  - rewrite B4, B5. apply NoDup_nil_2.
  - rewrite B4, B5, B6, B7. auto.
  - rewrite B4, B5. intros b Hb. inversion Hb.
  - intros _ p Ep. congruence.
  - intros Hw. unfold waiting in Hw. destruct (so_head s) as [h|] eqn:E; [|congruence]. destruct (B12 h eq_refl) as (_ & _ & _ & H).
    rewrite H, B9. split; congruence.
  - intros H1 _. left. left. apply counted_hasrefs. rewrite B10, decide_True; [reflexivity | apply opened; auto].
  - intros C. destruct (not_elem_of_empty _ C).
  - rewrite B4, B5. intros C. destruct (C eq_refl).
Qed.

Lemma born_inp j m : oI o' !! j = Some m -> inp_ok u' o' j m.
Proof.
  intros Hj. change (oI o') with (<[i := new_inp a t]> (oI o)) in Hj. apply lookup_insert_Some in Hj as [[<- <-]|[Hne Hj]].
  - split; cbn; try discriminate; auto.
    + split; [|lia]. assert (Np : i ∉ pins u').
      { rewrite (su_pins _ _ _ U). intros C. destruct (proj2 (proj2 (wf_user _ _ _ _ _ W)) i C). congruence. }
      rewrite list_elem_of_In in Np. apply (count_occ_not_In Nat.eq_dec) in Np. rewrite Np. reflexivity.
    + intros b [= <-]. split; [reflexivity|]. apply at_insert_eq, B.
    + intros _ _. split; [discriminate|]. exists t, false. rewrite lookup_insert_eq. split_and!; auto. discriminate.
  - destruct (wf_inps _ _ _ _ _ W _ _ Hj) as [K1 K2 K3 K4 K5 K6 K7]. split; auto.
    + rewrite (su_pins _ _ _ U). exact K1.
    + intros b Hb. destruct (K2 b Hb) as [Q1 Q2]. split; [exact Q1 | apply born_at_so, Q2].
    + intros Q1 Q2. destruct (K5 Q1 Q2) as (R1 & x & k & R2 & R3 & R4). split; [exact R1|]. exists x, k. split_and!; auto.
      * cbn. rewrite lookup_insert_ne by congruence. exact R3.
      * intros E1 E2 b Hb. apply (su_opens _ _ _ U); [|exact (R4 E1 E2 b Hb)]. destruct (K2 b Hb) as [_ (x' & Hx' & _)]. congruence.
    + intros Hr. destruct (K6 Hr) as (R1 & b & R2 & R3). split; [exact R1|]. exists b. split; [exact R2|].
      rewrite (su_opens _ _ _ U); [exact R3|]. destruct (K2 b R2) as [_ (x' & Hx' & _)]. congruence.
Qed.

Lemma wf_born : wf Y' ∅ R u' o'.
Proof.
  pose proof W as [W1 W2 W3 W4 W5 W6 (W7 & W7' & W7'') W8]. split.
  - intros b sb Hb. change (oS o') with (<[a := s]> (oS o)) in Hb. apply lookup_insert_Some in Hb as [[<- <-]|[Hne Hb]]; [exact born_self|].
    apply born_other; auto.
  - intros j m. apply born_inp.
  - intros x y Hx. change (oT o') with (<[t := (Some i, false)]> (oT o)) in Hx. apply lookup_insert_Some in Hx as [[<- <-]|[Hne Hx]].
    + exists i. split; [reflexivity|]. apply at_insert_eq. reflexivity.
    + destruct (W3 x y Hx) as (j & Ej & Q). exists j. split; [exact Ej | apply born_at_inp, Q].
  - intros x y Hx Hr. destruct (W4 x y Hx Hr) as (Q0 & j & Ej & Q). split; [exact Q0|]. exists j. split; [exact Ej | apply born_at_inp, Q].
  - intros x Hx. destruct (W5 x Hx) as (G1 & G2 & G3). split_and!; auto. intros j m Hj. change (oI o') with (<[i := new_inp a t]> (oI o)) in Hj.
    apply lookup_insert_Some in Hj as [[<- <-]|[_ Hj]]; [discriminate | exact (G3 j m Hj)].
  - exact W6.
  - split_and!; [exact (su_disj _ _ _ U) | |].
    + intros b Hb. cbn. destruct (decide (b = a)) as [->|Hne]; [rewrite lookup_insert_eq; eauto|]. rewrite lookup_insert_ne by congruence.
      apply W7', (su_owned a u u' b U Hne), Hb.
    + intros j. rewrite (su_pins _ _ _ U). intros Hj. cbn. destruct (W7'' j Hj) as [m Hm]. rewrite lookup_insert_ne by congruence. eauto.
  - intros k Hk. cbn in Hk. destruct (W8 k ltac:(lia)) as (Q1 & Q2 & Q3 & Q4). cbn. rewrite !lookup_insert_ne by lia. auto.
Qed.
End Born.

Lemma wf_next Y X R u o N : wf Y X R u o -> (oN o <= N)%nat -> wf Y X R u (o <| oN := N |>).
Proof.
  intros [W1 W2 W3 W4 W5 W6 W7 W8] HN. split; auto.
  - intros a s Ha. apply (sock_ok_same Y X u o); auto.
  - intros i n Hi. destruct (W2 i n Hi). split; auto.
  - intros k Hk. cbn in Hk. apply W8. lia.
Qed.

Definition new_sock : socket :=
  mk_socket 0 false false false None false false false false false false false false false None [] [] 0 0 0 0 None None.

Lemma run_soalloc o (Q : option nat -> shape -> Prop) :
  Q None o -> Q (Some (oN o)) (o <| oN := S (oN o) |> <| oS := <[oN o := new_sock]> (oS o) |>) -> run soalloc o Q.
Proof.
  intros HF HT. unfold soalloc. step. destruct ok; cbn [negb]; [|step; exact HF]. step. destruct ok; cbn [negb]; [|step; exact HF].
  step. binds. apply run_new_so. cbv beta. step. exact HT.
Qed.

(** A socket without PCB is given back as if it had not been. *)
Lemma run_sodealloc_new a s o0 N (Q : unit -> shape -> Prop) : so_count s = 0 -> so_pcb s = None -> oS o0 !! a = None ->
  Q tt (o0 <| oN := N |>) -> run (sodealloc a) (o0 <| oS := <[a := s]> (oS o0) |> <| oN := N |>) Q.
Proof.
  intros Hc Hp Na HQ. eapply run_sodealloc; [look | exact Hc | exact Hp |]. shp.
  lazymatch goal with |- Q tt ?x => replace x with (o0 <| oN := N |>); [exact HQ|] end.
  destruct o0. unfold update. cbn in *. f_equal. symmetry. apply delete_insert_id, Na.
Qed.

Definition opening (a : nat) (u : user) : user := mk_user ({[a]} ∪ opens u) (closing u) (pins u).

Lemma opening_user a u : opens u ## closing u -> a ∉ closing u -> same_user_but a u (opening a u).
Proof.
  intros D Hc. split; cbn; auto.
  - intros b Hne. rewrite elem_of_union, elem_of_singleton. tauto.
  - apply elem_of_disjoint. intros b. rewrite elem_of_union, elem_of_singleton. intros [->|H1] H2; [contradiction|].
    exact (proj1 (elem_of_disjoint _ _) D b H1 H2).
Qed.

Lemma opening_owned a u : owned u ⊆ owned (opening a u).
Proof. intros b. unfold owned, opening. cbn. rewrite !elem_of_union. tauto. Qed.

(** Addresses that were never given out. *)
Lemma fresh_not_owned Y X R u o k : wf Y X R u o -> (oN o <= k)%nat -> k ∉ owned u.
Proof.
  intros W Hk C. destruct (proj1 (proj2 (wf_user _ _ _ _ _ W)) k C) as [s Hs]. destruct (wf_fresh _ _ _ _ _ W k Hk) as [E _]. congruence.
Qed.

Lemma unused_of Y X R u o : wf Y X R u o -> unused o.
Proof. intros W k Hk. destruct (wf_fresh _ _ _ _ _ W k Hk) as (_ & E1 & E2 & _). auto. Qed.

Lemma run_socreate R u o : wf ∅ ∅ R u o ->
  run socreate o (fun r o' => fine R (match r with Some a => opening a u | None => u end) o o').
Proof.
  intros W. destruct (wf_fresh _ _ _ _ _ W (oN o) (le_n _)) as (Na & _). set (a := oN o) in *.
  unfold socreate. binds. apply run_soalloc; [step; exact (fine_here R u o W)|]. cbv beta iota. fold a. step.
  set (s := new_sock <| so_count := 1 |>). pose (o1 := o <| oS := <[a := s]> (oS o) |> <| oN := S a |>). binds. shp. rewrite insert_insert_eq.
  lazymatch goal with |- run ?m _ ?Q => change (run m o1 Q) end.
  apply (run_attach a s o1); [exact (lookup_insert_eq _ _ _) | reflexivity | | |].
  - intros k Hk. apply (unused_of _ _ _ _ _ W). cbn in Hk. fold a. lia.
  - intros N HN. cbn in HN. cbv beta iota. unfold o1. step. binds. shp. rewrite insert_insert_eq.
    lazymatch goal with |- run ?m _ ?Q => change (run m (o <| oS := <[a := s <| so_count := 0 |>]> (oS o) |> <| oN := N |>) Q) end.
    apply run_sodealloc_new; [reflexivity | reflexivity | exact Na |]. cbv beta. step. split; [|reflexivity]. apply wf_next; [exact W | fold a; lia].
  - cbv beta iota. step. split; [|reflexivity]. unfold attached.
    lazymatch goal with |- wf _ _ _ _ ?x => replace x with (born_shape o a (S a) (S (S a)) (S (S (S a))) (s <| so_pcb := Some (S a) |>))
      by (destruct o; unfold born_shape, update, a; cbn; f_equal; symmetry; apply insert_insert_eq) end.
    destruct (wf_fresh _ _ _ _ _ W (S a) (le_S _ _ (le_n _))) as (_ & Ni & _).
    destruct (wf_fresh _ _ _ _ _ W (S (S a)) (le_S _ _ (le_S _ _ (le_n _)))) as (_ & _ & Nt & _).
    pose proof (fresh_not_owned _ _ _ _ _ a W (le_n _)) as No.
    assert (Ho : a ∈ opens (opening a u)) by (cbn; set_solver). pose proof (opened _ _ Ho) as Ho'.
    apply (wf_born ∅ ∅ R u (opening a u) o a (S a) (S (S a)) (S (S (S a))) _ W Na Ni Nt); try lia.
    + apply opening_user; [apply (wf_user _ _ _ _ _ W)|]. intros C. apply No, elem_of_union_r, C.
    + reflexivity.
    + apply opening_owned.
    + split; auto; try discriminate; [cbn; split_and!; auto; lia|]. rewrite decide_True by exact Ho'. reflexivity.
Qed.

(** ** Aborting *)

(** The connection of [a] is over, and the protocol holds the socket only while it is in TIME_WAIT. *)
Record gone (Y R : gset nat) (u : user) (o : shape) (a i : nat) (s s' : socket) (n' : inpcb) (o' : shape) : Prop := {
  g_wf : wf Y ∅ R u o';
  g_socks : oS o' = <[a := s']> (oS o);
  g_inps : oI o' = <[i := n']> (oI o);
  g_links : same_links s s';
  g_over : over n';
  g_inv : oV o' = oV o }.

Lemma run_usr_abort Y R u o a i s n (Q : unit -> shape -> Prop) :
  wf Y ∅ R u o -> a ∈ Y -> oS o !! a = Some s -> so_pcb s = Some i -> oI o !! i = Some n -> sohasrefs s = false ->
  (inp_timewait n = true -> inp_dropped n = false -> ~ waiting s /\ forall p, so_passive_peer s = Some p -> ~ at_ (oS o) p waiting) ->
  (forall p, so_passive_peer s = Some p -> p ∈ Y) ->
  (forall o' s' n', gone Y R u o a i s s' n' o' -> Q tt o') -> run (tcp_usr_abort a) o Q.
Proof.
  intros W HY Ha Hp Hi Hr Hw HpY HQ. destruct (sock_pcb _ _ _ _ _ W a s Ha) as (j & m & Ej & Em & Es & Epr). assert (m = n) as -> by congruence.
  destruct (no_refs s Hr) as (Hnf & Hc & Hpr & Hsq). rewrite Hpr in Epr. symmetry in Epr.
  pose proof (no_refs_owned _ _ _ _ _ _ (wf_socks _ _ _ _ _ W _ _ Ha) Hr) as No.
  unfold tcp_usr_abort. binds. apply (run_pcb_of a s i n); auto. intros inp Einp. cbv beta iota. step; [rewrite Es; reflexivity|].
  unfold intotcpcb. fields. binds. apply run_when; intros E.
  - apply andb_true_iff in E as [Tw Ed]. apply negb_true_iff in Tw, Ed. destruct (conn_of_inp _ _ _ _ _ W _ _ _ _ Ha Hp Hi Tw) as (t & l & C).
    rewrite (c_ppcb _ _ _ _ _ _ _ C). step. step. binds. apply (run_drop_kept Y R u o a i t s n l W C Epr). intros o' [K1 K2 K3 K4 K5 K6]. cbv beta. step.
    unfold take_sockref. binds. eapply run_get_inp; [rewrite K4; apply lookup_insert_eq|]. intros inp' Einp'. cbv beta. fields. cbn [inp_dropped update eta eta_inpcb negb].
    apply run_ret. apply (HQ o' s (n <| inp_dropped := true |>)). split; auto; [rewrite K3, insert_id by exact Ha; reflexivity | apply same_links_refl | left; reflexivity].
  - cbv beta. unfold take_sockref. step. apply run_when; fields; intros Ed.
    + apply negb_true_iff in Ed. rewrite Ed, andb_true_r in E. apply negb_false_iff in E. destruct (Hw E Ed) as [Hw1 Hw2]. step. step.
      apply (HQ _ (s <| ss_protoref := true |>) (n <| inp_sockref := true |>)). split; auto; [|split; auto | right; exact E].
      pose proof (wf_socks _ _ _ _ _ W _ _ Ha) as K. destruct (sock_facts Y R u o a s i n W Ha Hp Hi) as (F1 & F2 & _).
      apply (wf_pair Y Y R u u o a i s _ n); auto; try (split; auto; fail); try contradiction.
      * apply same_user_refl, (wf_user _ _ _ _ _ W).
      * split; cbn; auto; try contradiction; try congruence; try apply K.
        -- intros p Ep C. destruct (Hw2 p Ep C).
        -- intros _. split; [exact Ed|]. intros C. apply No, opened, C.
      * intros p Ep C. destruct (C (HpY p Ep)).
    + apply negb_false_iff in Ed. apply (HQ o s n). split; auto; [rewrite insert_id by exact Ha; reflexivity | rewrite insert_id by exact Hi; reflexivity | apply same_links_refl | left; exact Ed].
Qed.

(** What aborting a pair leaves alone. *)
Record aborted (P : gset nat) (o o' : shape) : Prop := {
  ab_inps : forall i n, oI o !! i = Some n -> ~ over n -> (forall b, inp_socket n = Some b -> b ∉ P) -> oI o' !! i = Some n;
  ab_socks : (forall a s, a ∈ P -> oS o !! a = Some s -> so_head s = None) -> forall b, b ∉ P -> oS o' !! b = oS o !! b;
  ab_inv : oV o' = oV o }.

(** A pair that can be aborted: nothing refers to [a], and what refers to its peer has to do with its connection. *)
Record abortable (u : user) (o : shape) (a : nat) (s : socket) : Prop := {
  ao_refs : sohasrefs s = false;
  ao_enq : enqueued s;
  ao_tw : forall i n, so_pcb s = Some i -> oI o !! i = Some n -> inp_timewait n = true -> ~ waiting s;
  ao_peer : forall p sp j m, so_passive_peer s = Some p -> oS o !! p = Some sp -> so_pcb sp = Some j -> oI o !! j = Some m ->
    so_head sp = None /\ (sohasrefs sp = true -> settled u p m) /\ (inp_timewait m = true -> ~ waiting s) }.

Section Abort.
Context (Y R : gset nat) (u : user) (o : shape) (a : nat) (s : socket).
Context (W : wf (Y ∪ pair_of a s) ∅ R u o) (Ha : oS o !! a = Some s) (A : abortable u o a s).

Lemma abort_pcb_ne p sp i j : so_passive_peer s = Some p -> p <> a -> oS o !! p = Some sp -> so_pcb s = Some i -> so_pcb sp = Some j -> j <> i.
Proof.
  intros Ep Hne Hsp Hi Hj ->. destruct (sock_pcb _ _ _ _ _ W a s Ha) as (k & x & E1 & E2 & E3 & _).
  destruct (sock_pcb _ _ _ _ _ W p sp Hsp) as (k' & x' & E1' & E2' & E3' & _). congruence.
Qed.

(** Both connections are over. *)
Record halfway (i : nat) (s1 : socket) (n1 : inpcb) (o2 : shape) : Prop := {
  hw_wf : wf (Y ∪ pair_of a s) ∅ R u o2;
  hw_sock : oS o2 !! a = Some s1;
  hw_inp : oI o2 !! i = Some n1;
  hw_inv : oV o2 = oV o;
  hw_peer : forall p sp j m, so_passive_peer s = Some p -> oS o2 !! p = Some sp -> so_pcb sp = Some j -> oI o2 !! j = Some m ->
    so_head sp = None /\ settled u p m;
  hw_socks : forall b, b ∉ pair_of a s -> oS o2 !! b = oS o !! b;
  hw_inps : forall k m, oI o !! k = Some m -> (forall b, inp_socket m = Some b -> b ∉ pair_of a s) -> oI o2 !! k = Some m;
  hw_heads : forall b sb, b ∈ pair_of a s -> oS o2 !! b = Some sb -> exists sb0, oS o !! b = Some sb0 /\ so_head sb = so_head sb0 }.

Lemma run_abort_rest i s1 n1 o2 (Q : unit -> shape -> Prop) :
  so_pcb s = Some i -> same_links s s1 -> over n1 -> halfway i s1 n1 o2 ->
  (forall o', wf Y ∅ R u o' -> aborted (pair_of a s) o o' -> Q tt o') -> run (sofree a) o2 Q.
Proof.
  intros Hp L Ov [W2 Ha2 Hi2 V2 Hpeer Fs Fi Fh] HQ.
  assert (EP : pair_of a s1 = pair_of a s) by (unfold pair_of; rewrite (sl_peer _ _ L); reflexivity). rewrite <- EP in W2.
  apply (run_sofree_last Y R u o2 a s1 Q W2 Ha2).
  - intros b sb j m Hb Hsb Hj Hm. rewrite EP in Hb. unfold pair_of in Hb. apply elem_of_union in Hb as [Hb|Hb].
    + apply elem_of_singleton in Hb as ->. assert (sb = s1) as -> by congruence. rewrite (sl_pcb _ _ L) in Hj.
      assert (m = n1) as -> by congruence. split; [|right; right; exact Ov].
      unfold enqueued, waiting. rewrite (sl_head _ _ L), (proj1 (sl_sq _ _ L)), (proj2 (sl_sq _ _ L)). exact (ao_enq _ _ _ _ A).
    + destruct (so_passive_peer s) as [p|] eqn:Ep; cbn in Hb; [|destruct (not_elem_of_empty _ Hb)]. apply elem_of_singleton in Hb as ->.
      destruct (Hpeer p sb j m eq_refl Hsb Hj Hm) as [F1 F2]. split; [|exact F2]. unfold enqueued, waiting. congruence.
  - intros o' W' [F1 F2 F3 F4]. rewrite EP in F2. apply HQ; [exact W'|]. split; [| | congruence].
    + intros k m Hk Ho Hb. apply F1; [apply Fi; assumption | exact Ho].
    + intros Hh b Hb. rewrite F2; [apply Fs, Hb | | exact Hb]. intros c sc Hc' Hsc. destruct (Fh c sc Hc' Hsc) as (sc0 & E1 & E2).
      rewrite E2. exact (Hh c sc0 Hc' E1).
Qed.

Section AbortPeer.
Context (i : nat) (n : inpcb) (o1 : shape) (s1 : socket) (n1 : inpcb).
Context (Hp : so_pcb s = Some i) (Hi : oI o !! i = Some n) (Es : inp_socket n = Some a) (G : gone (Y ∪ pair_of a s) R u o a i s s1 n1 o1).

Lemma gone_halfway :
  (forall p sp j m, so_passive_peer s = Some p -> oS o1 !! p = Some sp -> so_pcb sp = Some j -> oI o1 !! j = Some m ->
    so_head sp = None /\ settled u p m) -> halfway i s1 n1 o1.
Proof.
  destruct G as [G1 G2 G3 G4 G5 G6]. pose proof (pair_of_self a s) as Ya. intros Hpeer. split; auto.
  - rewrite G2. apply lookup_insert_eq.
  - rewrite G3. apply lookup_insert_eq.
  - intros b Hb. rewrite G2. apply lookup_insert_ne. intros <-. contradiction.
  - intros k m Hk Hb. rewrite G3, lookup_insert_ne; [exact Hk|]. intros <-. assert (m = n) as -> by congruence. exact (Hb a Es Ya).
  - intros b sb _ Hsb. rewrite G2 in Hsb. apply lookup_insert_Some in Hsb as [[<- <-]|[_ Hsb]]; [|eauto].
    exists s. split; [exact Ha | exact (sl_head _ _ G4)].
Qed.

(** The peer is aborted too. *)
Lemma gone_peer p sp j m o2 sp2 m2 :
  so_passive_peer s = Some p -> p <> a -> oS o !! p = Some sp -> so_pcb sp = Some j -> oI o !! j = Some m -> inp_socket m = Some p ->
  so_head sp = None -> gone (Y ∪ pair_of a s) R u o1 p j sp sp2 m2 o2 -> halfway i s1 n1 o2.
Proof.
  intros Ep Hpa Hsp Hj Hm Em Hh [H1 H2 H3 H4 H5 H6]. pose proof (abort_pcb_ne p sp i j Ep Hpa Hsp Hp Hj) as Hji.
  destruct G as [G1 G2 G3 G4 G5 G6]. pose proof (pair_of_self a s) as Ya. pose proof (pair_of_peer a s p Ep) as Yp. split; auto; try congruence.
  - rewrite H2, lookup_insert_ne, G2 by congruence. apply lookup_insert_eq.
  - rewrite H3, lookup_insert_ne, G3 by congruence. apply lookup_insert_eq.
  - intros q sq k x Eq Hsq Hk Hx. assert (q = p) as -> by congruence. rewrite H2, lookup_insert_eq in Hsq. injection Hsq as <-.
    rewrite (sl_pcb _ _ H4) in Hk. assert (k = j) as -> by congruence. rewrite H3, lookup_insert_eq in Hx. injection Hx as <-.
    split; [rewrite (sl_head _ _ H4); exact Hh | right; right; exact H5].
  - intros b Hb. rewrite H2, G2, !lookup_insert_ne by (intros <-; contradiction). reflexivity.
  - intros k x Hx Hb. rewrite H3, G3, !lookup_insert_ne; [exact Hx | |].
    + intros <-. assert (x = n) as -> by congruence. exact (Hb a Es Ya).
    + intros <-. assert (x = m) as -> by congruence. exact (Hb p Em Yp).
  - intros b sb Hb Hsb. rewrite H2, G2 in Hsb. apply lookup_insert_Some in Hsb as [[<- <-]|[_ Hsb]].
    + exists sp. split; [exact Hsp | exact (sl_head _ _ H4)].
    + apply lookup_insert_Some in Hsb as [[<- <-]|[_ Hsb]]; [|eauto]. exists s. split; [exact Ha | exact (sl_head _ _ G4)].
Qed.
End AbortPeer.

Lemma run_soabort (Q : unit -> shape -> Prop) :
  (forall o', wf Y ∅ R u o' -> aborted (pair_of a s) o o' -> Q tt o') -> run (soabort a) o Q.
Proof.
  intros HQ. pose proof A as [A1 A2 A3 A4]. destruct (no_refs s A1) as (Hnf & Hc & Hpr & _).
  destruct (sock_pcb _ _ _ _ _ W a s Ha) as (i & n & Hp & Hi & Es & _).
  assert (Ya : a ∈ Y ∪ pair_of a s) by (apply elem_of_union_r, pair_of_self).
  unfold soabort. step. step; [rewrite Hc; reflexivity|]. step; [rewrite Hpr; reflexivity|]. step; [exact Hnf|]. binds.
  apply (run_usr_abort (Y ∪ pair_of a s) R u o a i s n); auto.
  { intros Tw Ed. split; [exact (A3 i n Hp Hi Tw)|]. intros p Ep (sp & Hsp & Hw).
    destruct (sock_pcb _ _ _ _ _ W p sp Hsp) as (j & m & Hj & Hm & _). destruct (A4 p sp j m Ep Hsp Hj Hm) as (F & _). exact (Hw F). }
  { intros p Ep. apply elem_of_union_r, pair_of_peer, Ep. }
  intros o1 s1 n1 G. pose proof G as [G1 G2 G3 G4 G5 G6]. cbv beta. binds. fields.
  destruct (so_passive_peer s) as [p|] eqn:Ep.
  2: { step. apply (run_abort_rest i s1 n1 o1); auto. apply (gone_halfway i n); auto. congruence. }
  destruct (s_peer _ _ _ _ _ _ (wf_socks _ _ _ _ _ W _ _ Ha) (not_elem_of_empty _) p Ep) as (Hpa & _ & (sp & Hsp & Epp & _)).
  destruct (sock_pcb _ _ _ _ _ W p sp Hsp) as (j & m & Hj & Hm & Esp & _).
  pose proof (abort_pcb_ne p sp i j Ep Hpa Hsp Hp Hj) as Hji.
  assert (Hsp1 : oS o1 !! p = Some sp) by (rewrite G2, lookup_insert_ne by congruence; exact Hsp).
  assert (Hm1 : oI o1 !! j = Some m) by (rewrite G3, lookup_insert_ne by congruence; exact Hm).
  destruct (A4 p sp j m eq_refl Hsp Hj Hm) as (P1 & P2 & P3). step. binds. fields. apply run_when; intros Er.
  - apply negb_true_iff in Er. apply (run_usr_abort (Y ∪ pair_of a s) R u o1 p j sp m); auto.
    { apply elem_of_union_r, pair_of_peer, Ep. }
    { intros Tw _. split; [unfold waiting; congruence|]. intros q Eq (x & Hx & Hw). assert (q = a) as -> by congruence.
      rewrite G2, lookup_insert_eq in Hx. injection Hx as <-. unfold waiting in Hw. rewrite (sl_head _ _ G4) in Hw. exact (P3 Tw Hw). }
    { intros q Eq. assert (q = a) as -> by congruence. exact Ya. }
    intros o2 sp2 m2 G'. cbv beta. apply (run_abort_rest i s1 n1 o2); auto. apply (gone_peer i n o1 s1 n1 Hp Hi Es G p sp j m o2 sp2 m2); auto.
  - apply negb_false_iff in Er. apply (run_abort_rest i s1 n1 o1); auto. apply (gone_halfway i n); auto.
    intros q sq k x Eq Hsq Hk Hx. assert (q = p) as -> by congruence. assert (sq = sp) as -> by congruence.
    assert (k = j) as -> by congruence. assert (x = m) as -> by congruence. split; [exact P1 | exact (P2 Er)].
Qed.
End Abort.

(** ** Taking connections off the queues *)

(** What waits on a queue has no references, nor has its peer. *)
Lemma waiting_norefs Y R u o a s : wf Y ∅ R u o -> oS o !! a = Some s -> waiting s ->
  sohasrefs (off_queue s) = false /\ (a ∉ owned u) /\
  forall p sp, so_passive_peer s = Some p -> oS o !! p = Some sp -> so_head sp = None /\ sohasrefs sp = false /\ p ∉ owned u.
Proof.
  intros W Ha Hw. pose proof (wf_socks _ _ _ _ _ W _ _ Ha) as K. destruct (s_waiting _ _ _ _ _ _ K Hw) as [Hpr No].
  assert (None' : forall b sb, oS o !! b = Some sb -> (b ∉ owned u) -> ss_protoref sb = false -> sq_comp sb = false -> sohasrefs sb = false).
  { intros b sb Hb Nb E1 E2. pose proof (wf_socks _ _ _ _ _ W _ _ Hb) as Kb. unfold sohasrefs. rewrite E1, E2, (s_count _ _ _ _ _ _ Kb), decide_False by exact Nb.
    destruct (ss_nofdref sb) eqn:E3; [reflexivity|]. destruct (Nb (s_nofd _ _ _ _ _ _ Kb E3)). }
  split_and!; [|exact No|].
  - unfold sohasrefs, off_queue. cbn. rewrite Hpr, (s_count _ _ _ _ _ _ K), decide_False by exact No.
    destruct (ss_nofdref s) eqn:E; [reflexivity|]. destruct (No (s_nofd _ _ _ _ _ _ K E)).
  - intros p sp Ep Hsp. destruct (s_peer _ _ _ _ _ _ K (not_elem_of_empty _) p Ep) as (_ & _ & (x & Hx & _ & D)). assert (x = sp) as -> by congruence.
    destruct (D Hw) as (D1 & D2 & D3). split_and!; auto. apply (None' p sp); auto.
    exact (proj2 (s_nohead _ _ _ _ _ _ (wf_socks _ _ _ _ _ W _ _ Hsp) D1)).
Qed.

Section AbortQueued.
Context (Y R : gset nat) (u : user) (o : shape) (a h : nat) (s sh : socket).
Context (W : wf Y ∅ R u o) (Ha : oS o !! a = Some s) (Hh : oS o !! h = Some sh) (Hd : so_head s = Some h).

Lemma queued_waiting : waiting s.
Proof. unfold waiting. congruence. Qed.

Lemma queued_head_apart : h ∉ pair_of a s.
Proof.
  destruct (waiting_norefs Y R u o a s W Ha queued_waiting) as (_ & No & Hp). destruct (leave_owned Y R u o a h s sh W Ha Hh Hd) as (_ & Oh & _).
  unfold pair_of. intros C. apply elem_of_union in C as [C|C]; [apply elem_of_singleton in C as ->; contradiction|].
  destruct (so_passive_peer s) as [p|] eqn:Ep; cbn in C; [|destruct (not_elem_of_empty _ C)]. apply elem_of_singleton in C as ->.
  destruct (s_peer _ _ _ _ _ _ (wf_socks _ _ _ _ _ W _ _ Ha) (not_elem_of_empty _) p Ep) as (_ & _ & (sp & Hsp & _)).
  destruct (Hp p sp eq_refl Hsp) as (_ & _ & C). contradiction.
Qed.

Context (sh' : socket) (Lq : left_queue a sh sh').
Let o1 := o <| oS := <[a := off_queue s]> (<[h := sh']> (oS o)) |>.

Lemma queued_abortable : abortable u o1 a (off_queue s).
Proof.
  destruct (waiting_norefs Y R u o a s W Ha queued_waiting) as (Hr & No & Hp). pose proof queued_head_apart as Nh.
  split; [exact Hr | intros C; destruct (C eq_refl) | intros i n _ _ _ C; exact (C eq_refl) |].
  intros p sp j m Ep Hsp Hj Hm. cbn in Ep. unfold o1 in Hsp. cbn in Hsp.
  destruct (s_peer _ _ _ _ _ _ (wf_socks _ _ _ _ _ W _ _ Ha) (not_elem_of_empty _) p Ep) as (Hpa & _).
  rewrite lookup_insert_ne, lookup_insert_ne in Hsp; [|intros E; apply Nh; rewrite E; apply pair_of_peer, Ep | congruence].
  destruct (Hp p sp Ep Hsp) as (E1 & E2 & _). split_and!; auto; congruence.
Qed.

(** [a] leaves the queue of [h] and is aborted. *)
Lemma run_abort_queued (Q : unit -> shape -> Prop) :
  (forall o', wf Y ∅ R u o' -> oS o' !! h = Some sh' -> aborted (pair_of a s) o1 o' -> (forall b, b ∉ pair_of a s -> b <> h -> oS o' !! b = oS o !! b) -> Q tt o') ->
  run (soabort a) o1 Q.
Proof.
  intros HQ. pose proof (leave_ne Y R u o a h s sh W Ha Hh Hd) as Hne. pose proof queued_head_apart as Nh.
  destruct (waiting_norefs Y R u o a s W Ha queued_waiting) as (Hr & No & Hp).
  assert (Heads : forall b sb, b ∈ pair_of a s -> oS o1 !! b = Some sb -> so_head sb = None).
  { intros b sb Hb Hsb. unfold o1 in Hsb. cbn in Hsb. apply lookup_insert_Some in Hsb as [[<- <-]|[Hba Hsb]]; [reflexivity|].
    rewrite lookup_insert_ne in Hsb by (intros ->; contradiction). unfold pair_of in Hb. apply elem_of_union in Hb as [Hb|Hb].
    - apply elem_of_singleton in Hb. congruence.
    - destruct (so_passive_peer s) as [p|] eqn:Ep; cbn in Hb; [|destruct (not_elem_of_empty _ Hb)]. apply elem_of_singleton in Hb as ->.
      exact (proj1 (Hp p sb eq_refl Hsb)). }
  apply (run_soabort Y R u o1 a (off_queue s)).
  - apply (wf_leave Y (Y ∪ pair_of a s) R u o a h s sh sh' W Ha Hh Hd Lq); [apply union_subseteq_l | apply union_subseteq_r].
  - exact (lookup_insert_eq _ _ _).
  - exact queued_abortable.
  - intros o' W' Ab. change (pair_of a (off_queue s)) with (pair_of a s) in Ab. apply HQ; auto.
    + rewrite (ab_socks _ _ _ Ab Heads h Nh). unfold o1. cbn. rewrite lookup_insert_ne by congruence. apply lookup_insert_eq.
    + intros b Hb Hbh. rewrite (ab_socks _ _ _ Ab Heads b Hb). unfold o1. cbn.
      rewrite !lookup_insert_ne; [reflexivity | congruence |]. intros <-. apply Hb, pair_of_self.
Qed.
End AbortQueued.

(** A member of a queue, as its socket has it. *)
Lemma member_incomp Y R u o h sh a : wf Y ∅ R u o -> oS o !! h = Some sh -> a ∈ so_incomp sh -> a ∉ Y ->
  exists s, oS o !! a = Some s /\ so_head s = Some h /\ s <| sq_incomp := false |> <| so_head := None |> = off_queue s.
Proof.
  intros W Hh Ha HaY. pose proof (wf_socks _ _ _ _ _ W _ _ Hh) as K. destruct (s_member _ _ _ _ _ _ K a) as [_ (s & Hs & E)]; [apply elem_of_app; auto|].
  exists s. split_and!; auto. destruct (s_head _ _ _ _ _ _ (wf_socks _ _ _ _ _ W _ _ Hs) h E) as [(x & Hx & Q)|(C & _)]; [|contradiction].
  assert (x = sh) as -> by congruence. pose proof (s_nodup _ _ _ _ _ _ K) as N. apply NoDup_app in N as (_ & N & _). destruct Q as [(_ & E2 & _)|(_ & _ & C)].
  - destruct s. unfold off_queue, update. cbn in *. subst. reflexivity.
  - destruct (N a Ha C).
Qed.
Lemma member_comp R u o h sh a : wf ∅ ∅ R u o -> oS o !! h = Some sh -> a ∈ so_comp sh ->
  exists s, oS o !! a = Some s /\ so_head s = Some h /\ sq_incomp s = false /\ sq_comp s = true /\ s <| sq_comp := false |> <| so_head := None |> = off_queue s.
Proof.
  intros W Hh Ha. pose proof (wf_socks _ _ _ _ _ W _ _ Hh) as K. destruct (s_member _ _ _ _ _ _ K a) as [_ (s & Hs & E)]; [apply elem_of_app; auto|].
  exists s. destruct (s_head _ _ _ _ _ _ (wf_socks _ _ _ _ _ W _ _ Hs) h E) as [(x & Hx & Q)|(C & _)]; [|destruct (not_elem_of_empty _ C)].
  assert (x = sh) as -> by congruence. pose proof (s_nodup _ _ _ _ _ _ K) as N. apply NoDup_app in N as (_ & N & _). destruct Q as [(_ & _ & C)|(E1 & E2 & _)].
  - destruct (N a C Ha).
  - split_and!; auto. destruct s. unfold off_queue, update. cbn in *. subst. reflexivity.
Qed.

(** An iteration of the loops of [soclose]. *)
Lemma run_soclose_incomp R u o h sh : wf ∅ ∅ R u o -> oS o !! h = Some sh ->
  run (soclose_incomp h) o (fun b o' => if b : bool then fine R u o o' /\ exists a, a ∈ so_incomp sh /\ oS o' !! h = Some (without_incomp a sh)
    else o' = o /\ so_incomp sh = []).
Proof.
  intros W Hh. unfold soclose_incomp. step. fields. destruct (so_incomp sh) as [|a l] eqn:Eq; [step; auto|].
  assert (Ha : a ∈ so_incomp sh) by (rewrite Eq; left). destruct (member_incomp ∅ R u o h sh a W Hh Ha (not_elem_of_empty _)) as (s & Hs & Ehd & Eoff).
  pose proof (leave_ne ∅ R u o a h s sh W Hs Hh Ehd) as Hne. binds. eapply run_leave_incomp; [exact Hh | exact Ha |]. cbv beta. step. rewrite Eoff. binds.
  lazymatch goal with |- run _ ?x _ => change x with (o <| oS := <[a := off_queue s]> (<[h := without_incomp a sh]> (oS o)) |>) end.
  apply (run_abort_queued ∅ R u o a h s sh W Hs Hh Ehd _ (left_incomp _ _ _ _ a h sh (wf_socks _ _ _ _ _ W _ _ Hh) Ha)).
  intros o' W' Hh' Ab _. cbv beta. step. split; [split; [exact W' | exact (ab_inv _ _ _ Ab)]|]. exists a. split; [left | exact Hh'].
Qed.

Lemma run_soclose_comp R u o h sh : wf ∅ ∅ R u o -> oS o !! h = Some sh ->
  run (soclose_comp h) o (fun b o' => if b : bool then fine R u o o' /\ exists a, a ∈ so_comp sh /\ oS o' !! h = Some (without_comp a sh)
    else o' = o /\ so_comp sh = []).
Proof.
  intros W Hh. unfold soclose_comp. step. fields. destruct (so_comp sh) as [|a l] eqn:Eq; [step; auto|].
  assert (Ha : a ∈ so_comp sh) by (rewrite Eq; left). destruct (member_comp R u o h sh a W Hh Ha) as (s & Hs & Ehd & _ & _ & Eoff).
  pose proof (leave_ne ∅ R u o a h s sh W Hs Hh Ehd) as Hne. binds. eapply run_leave_comp; [exact Hh | exact Ha |]. cbv beta. step. rewrite Eoff. binds.
  lazymatch goal with |- run _ ?x _ => change x with (o <| oS := <[a := off_queue s]> (<[h := without_comp a sh]> (oS o)) |>) end.
  apply (run_abort_queued ∅ R u o a h s sh W Hs Hh Ehd _ (left_comp _ _ _ _ a h sh (wf_socks _ _ _ _ _ W _ _ Hh) Ha)).
  intros o' W' Hh' Ab _. cbv beta. step. split; [split; [exact W' | exact (ab_inv _ _ _ Ab)]|]. exists a. split; [left | exact Hh'].
Qed.

Lemma run_drain_incomp R u h fuel : forall o sh, wf ∅ ∅ R u o -> oS o !! h = Some sh -> (length (so_incomp sh) < fuel)%nat ->
  run (repeat_while fuel (soclose_incomp h)) o
    (fun _ o' => fine R u o o' /\ exists sh', oS o' !! h = Some sh' /\ so_incomp sh' = [] /\ so_comp sh' = so_comp sh).
Proof.
  induction fuel as [|fuel IH]; intros o sh W Hh Hf; [lia|]. cbn [repeat_while]. binds.
  eapply run_mono; [exact (run_soclose_incomp R u o h sh W Hh)|]. intros [|] o1; cbv beta iota.
  - intros [F1 (a & Ha & Hh1)]. pose proof (s_nodup _ _ _ _ _ _ (wf_socks _ _ _ _ _ W _ _ Hh)) as N. apply NoDup_app in N as (N & _ & _).
    pose proof (length_remove1 a _ N Ha) as Hl. eapply run_mono; [apply (IH o1 (without_incomp a sh)); [apply F1 | exact Hh1 | cbn; lia]|].
    intros r o2 (F2 & sh2 & E1 & E2 & E3). split; [exact (fine_trans _ _ _ _ _ _ F1 F2) | exists sh2; auto].
  - intros [-> E]. step. split; [exact (fine_here R u o W) | eauto].
Qed.

Lemma run_drain_comp R u h fuel : forall o sh, wf ∅ ∅ R u o -> oS o !! h = Some sh -> (length (so_comp sh) < fuel)%nat ->
  run (repeat_while fuel (soclose_comp h)) o
    (fun _ o' => fine R u o o' /\ exists sh', oS o' !! h = Some sh' /\ so_comp sh' = [] /\ so_incomp sh' = so_incomp sh).
Proof.
  induction fuel as [|fuel IH]; intros o sh W Hh Hf; [lia|]. cbn [repeat_while]. binds.
  eapply run_mono; [exact (run_soclose_comp R u o h sh W Hh)|]. intros [|] o1; cbv beta iota.
  - intros [F1 (a & Ha & Hh1)]. pose proof (s_nodup _ _ _ _ _ _ (wf_socks _ _ _ _ _ W _ _ Hh)) as N. apply NoDup_app in N as (_ & _ & N).
    pose proof (length_remove1 a _ N Ha) as Hl. eapply run_mono; [apply (IH o1 (without_comp a sh)); [apply F1 | exact Hh1 | cbn; lia]|].
    intros r o2 (F2 & sh2 & E1 & E2 & E3). split; [exact (fine_trans _ _ _ _ _ _ F1 F2) | exists sh2; auto].
  - intros [-> E]. step. split; [exact (fine_here R u o W) | eauto].
Qed.

Lemma run_soclose_queues R u o h sh : wf ∅ ∅ R u o -> oS o !! h = Some sh ->
  run (soclose_queues h) o (fun _ o' => fine R u o o' /\ exists sh', oS o' !! h = Some sh' /\ so_incomp sh' ++ so_comp sh' = []).
Proof.
  intros W Hh. unfold soclose_queues. step. fields. apply run_when; intros Ea.
  - binds. eapply run_mono; [apply (run_drain_incomp R u h _ o sh W Hh); lia|]. intros r o1 (F1 & s1 & E1 & E2 & E3). cbv beta.
    eapply run_mono; [apply (run_drain_comp R u h _ o1 s1); [apply F1 | exact E1 | rewrite E3; lia]|].
    intros r' o2 (F2 & s2 & G1 & G2 & G3). split; [exact (fine_trans _ _ _ _ _ _ F1 F2)|]. exists s2. split; [exact G1|]. rewrite G3, E2, G2. reflexivity.
  - split; [exact (fine_here R u o W)|]. exists sh. split; [exact Hh|].
    destruct (so_incomp sh ++ so_comp sh) eqn:E; [reflexivity|].
    rewrite (s_accept _ _ _ _ _ _ (wf_socks _ _ _ _ _ W _ _ Hh)) in Ea; [discriminate|]. rewrite E. discriminate.
Qed.

(** The whole of [soclose], in a kernel without INVARIANTS. *)
Lemma run_soclose R u o a : wf ∅ ∅ R u o -> a ∈ opens u -> oV o = false -> run (soclose a) o (fun _ => fine R (lets_go (closes u a) a) o).
Proof.
  intros W Ho V. unfold soclose. binds. eapply run_mono; [apply (run_soclose_disconnect R u o a W Ho); congruence|]. intros r o1 [W1 V1]. cbv beta. binds.
  eapply run_mono; [exact (run_usr_close R u o1 a W1 Ho)|]. intros r1 o2 [W2 V2]. cbv beta. binds.
  assert (Hc : a ∈ closing (closes u a)) by (cbn; set_solver).
  destruct (proj1 (proj2 (wf_user _ _ _ _ _ W2)) a (elem_of_union_r _ _ _ Hc)) as [s Hs].
  eapply run_mono; [exact (run_soclose_queues R _ o2 a s W2 Hs)|]. intros r2 o3 ([W3 V3] & s3 & Hs3 & Eq). cbv beta.
  eapply run_mono; [apply (run_soclose_rele R _ o3 a W3 Hc)|].
  - intros x Hx. assert (x = s3) as -> by congruence. split; [exact Eq | congruence].
  - intros r3 o4 [W4 V4]. split; [exact W4 | congruence].
Qed.

(** ** Joining a queue *)

(** [sh'] is [sh] with [a] on one of its queues, and [s'] is [s] there. *)
Record join_queue (a h : nat) (s s' sh sh' : socket) : Prop := {
  jq_pcb : so_pcb sh' = so_pcb sh;
  jq_head : so_head sh' = so_head sh;
  jq_sq : sq_incomp sh' = sq_incomp sh /\ sq_comp sh' = sq_comp sh;
  jq_refs : so_count sh' = so_count sh /\ ss_nofdref sh' = ss_nofdref sh /\ ss_protoref sh' = ss_protoref sh;
  jq_peer : so_passive_peer sh' = so_passive_peer sh;
  jq_passive : so_passive sh' = so_passive sh;
  jq_accept : so_acceptconn sh' = so_acceptconn sh;
  jq_incomp : forall b, b ∈ so_incomp sh -> b ∈ so_incomp sh';
  jq_comp : forall b, b ∈ so_comp sh -> b ∈ so_comp sh';
  jq_members : forall b, b ∈ so_incomp sh' ++ so_comp sh' -> b ∈ so_incomp sh ++ so_comp sh \/ b = a;
  jq_nodup : NoDup (so_incomp sh' ++ so_comp sh');
  jq_lens : so_incqlen sh' = u16 (Z.of_nat (length (so_incomp sh'))) /\ so_qlen sh' = u16 (Z.of_nat (length (so_comp sh'))) /\ so_qlimit sh' = so_qlimit sh;
  jq_self : so_head s' = Some h /\ queued a s' sh';
  jq_same : so_pcb s' = so_pcb s /\ so_count s' = so_count s /\ ss_nofdref s' = ss_nofdref s /\ ss_protoref s' = ss_protoref s /\
    so_incomp s' = so_incomp s /\ so_comp s' = so_comp s /\ so_incqlen s' = so_incqlen s /\ so_qlen s' = so_qlen s /\
    so_qlimit s' = so_qlimit s /\ so_passive_peer s' = so_passive_peer s /\ so_passive s' = so_passive s /\ so_acceptconn s' = so_acceptconn s }.

Section Join.
Context (Y R : gset nat) (u : user) (o : shape) (a h : nat) (s s' sh sh' : socket).
Context (W : wf Y ∅ R u o) (Ha : oS o !! a = Some s) (Hh : oS o !! h = Some sh) (J : join_queue a h s s' sh sh').
Context (HaY : a ∈ Y) (Hacc : so_acceptconn sh = true) (Oh : h ∈ owned u) (No : a ∉ owned u) (Hpr : ss_protoref s = false).
Context (Hd : so_head s = None \/ so_head s = Some h) (Hnq : a ∉ so_incomp sh ++ so_comp sh) (Hps : so_passive s = true <-> so_passive_peer s <> None).
Context (Hpe : forall p sp, so_passive_peer s = Some p -> oS o !! p = Some sp -> so_head sp = None /\ ss_protoref sp = false /\ p ∉ owned u).
Let S' := <[a := s']> (<[h := sh']> (oS o)).
Let o' := o <| oS := S' |>.

Lemma join_ne : a <> h.
Proof. intros E. rewrite E in No. contradiction. Qed.

Lemma join_lookup k : S' !! k = if decide (k = a) then Some s' else if decide (k = h) then Some sh' else oS o !! k.
Proof.
  unfold S'. destruct (decide (k = a)) as [->|Hka]; [apply lookup_insert_eq|]. rewrite lookup_insert_ne by congruence.
  destruct (decide (k = h)) as [->|Hkh]; [apply lookup_insert_eq | apply lookup_insert_ne; congruence].
Qed.

Lemma join_at k (Q : socket -> Prop) : at_ (oS o) k Q -> (k = a -> Q s -> Q s') -> (k = h -> Q sh -> Q sh') -> at_ (oS o') k Q.
Proof.
  intros H H1 H2. apply at_insert with (s := s); [rewrite lookup_insert_ne by (apply not_eq_sym, join_ne); exact Ha | | exact H1].
  apply at_insert with (s := sh); assumption.
Qed.

Lemma join_held : held s' /\ (held sh -> held sh').
Proof.
  split.
  - right. unfold waiting. rewrite (proj1 (jq_self _ _ _ _ _ _ J)). discriminate.
  - destruct J as [_ J2 [_ J3] (J4 & J5 & J6) _ _ _ _ _ _ _ _ _ _]. unfold held, waiting, sohasrefs. rewrite J2, J3, J4, J5, J6. auto.
Qed.

Lemma join_member_not b sb : oS o !! b = Some sb -> a ∉ so_incomp sb ++ so_comp sb.
Proof.
  intros Hb C. destruct (s_member _ _ _ _ _ _ (wf_socks _ _ _ _ _ W _ _ Hb) a C) as [_ (x & Hx & E)]. assert (x = s) as -> by congruence.
  destruct Hd as [E'|E']; [congruence|]. assert (b = h) as -> by congruence. assert (sb = sh) as -> by congruence. contradiction.
Qed.

(** What a socket other than the two sees. *)
Lemma join_links b sb : b <> a -> oS o !! b = Some sb ->
  (forall n, released u o b sb n -> released u o' b sb n) /\ (anchored o sb -> anchored o' sb) /\
  (forall k, so_head sb = Some k -> at_ (oS o') k (queued b sb) \/ newborn Y u b sb k) /\
  (forall p, so_passive_peer sb = Some p -> p <> b /\ at_ (oS o') p (fun sp => so_passive_peer sp = Some b /\
      (waiting sb -> so_head sp = None /\ ss_protoref sp = false /\ p ∉ owned u))).
Proof.
  intros Hne Hb. destruct (wf_socks _ _ _ _ _ W _ _ Hb) as [K1 K2 K3 K4 K5 K6 K7 K8 K9 K10 K11 K12 K13 K14]. destruct join_held as [H1 H2].
  destruct J as [J1 J2 J3 (J4 & J5 & J6) J7 J8 J9 J10 J11 J12 J13 J14 [J15 J15'] (M1 & M2 & M3 & M4 & M5 & M6 & M7 & M8 & M9 & M10 & M11 & M12)].
  split_and!.
  - intros n [H|[H|[H|[(p & Hp & H)|H]]]]; [left; exact H | right; left; exact H | right; right; left; exact H | | right; right; right; right; exact H].
    right; right; right; left. exists p. split; [exact Hp|]. apply join_at; [exact H | intros _ _; unfold waiting; congruence | intros _; unfold waiting; congruence].
  - intros [H|(p & Hp & H)]; [left; exact H | right]. exists p. split; [exact Hp|]. apply join_at; [exact H | auto | auto].
  - intros k Hk. destruct (K4 k Hk) as [K4'|K4']; [left | right; exact K4']. apply join_at; [exact K4' | |]; intros _; unfold queued; rewrite ?M5, ?M6; [auto|].
    intros [(Q1 & Q2 & Q3)|(Q1 & Q2 & Q3)]; auto 6.
  - intros p Hp. destruct (K10 (not_elem_of_empty _) p Hp) as (Q1 & _ & Q3). split; [exact Q1|]. apply join_at; [exact Q3 | |].
    + intros -> [E _]. rewrite M10. split; [exact E|]. intros Hw. destruct (Hpe b sb E Hb) as (C & _). destruct (Hw C).
    + intros _ [E Q]. rewrite J7, J2, J6. auto.
Qed.

Lemma join_other b sb : b <> a -> b <> h -> oS o !! b = Some sb -> sock_ok Y ∅ u o' b sb.
Proof.
  intros Hba Hbh Hb. destruct (join_links b sb Hba Hb) as (V1 & V2 & V3 & V4). pose proof (join_member_not b sb Hb) as Nm.
  destruct (wf_socks _ _ _ _ _ W _ _ Hb) as [K1 K2 K3 K4 K5 K6 K7 K8 K9 K10 K11 K12 K13 K14]. split; auto.
  - destruct K1 as (j & Hj & K1). exists j. split; [exact Hj|]. eapply at_impl; [exact K1|]. cbn. intros x Hx (E1 & E2 & E3 & E4). split_and!; auto.
  - intros c Hc. destruct (K9 c Hc) as [Q1 Q2]. split; [exact Q1|]. apply join_at; [exact Q2 | |].
    + intros ->. contradiction.
    + intros _ E. rewrite (jq_head _ _ _ _ _ _ J). exact E.
  - intros _ p Hp. destruct (V4 p Hp) as [Q1 Q2]. split_and!; [exact Q1 | apply not_elem_of_empty | exact Q2].
Qed.

Lemma join_head : sock_ok Y ∅ u o' h sh'.
Proof.
  assert (Hha : h <> a) by (apply not_eq_sym, join_ne). destruct (join_links h sh Hha Hh) as (V1 & V2 & V3 & V4).
  destruct (wf_socks _ _ _ _ _ W _ _ Hh) as [K1 K2 K3 K4 K5 K6 K7 K8 K9 K10 K11 K12 K13 K14].
  assert (Nw : ~ waiting sh) by (intros Hw; destruct (K5 Hw); contradiction). destruct join_held as [_ H2].
  destruct J as [J1 J2 [J3 J3'] (J4 & J5 & J6) J7 J8 J9 J10 J11 J12 J13 (J14 & J14' & J14'') [J15 J15'] _].
  assert (Wt : waiting sh' <-> waiting sh) by (unfold waiting; rewrite J2; reflexivity).
  split; rewrite ?J1, ?J2, ?J3, ?J3', ?J4, ?J5, ?J6, ?J7, ?J8, ?J9; auto.
  - destruct K1 as (j & Hj & K1). exists j. split; [exact Hj|]. eapply at_impl; [exact K1|]. cbn. intros x Hx (E1 & E2 & E3 & E4). split_and!; auto;
      [|intros C; destruct (not_elem_of_empty _ C)]. intros N1 N2.
    destruct (V1 x (E3 N1 N2)) as [H|[H|[H|[(p & Hp & H)|H]]]]; [left; exact H | right; left; exact H | contradiction | | right; right; right; right; exact H].
    right; right; right; left. exists p. rewrite J7. auto.
  - intros k Hk. exfalso. apply Nw. unfold waiting. congruence.
  - rewrite Wt. contradiction.
  - split_and!; auto. rewrite J14''. apply K8.
  - intros c Hc. split; [exact Oh|]. destruct (J12 c Hc) as [Hc'| ->].
    + destruct (K9 c Hc') as [_ Q]. apply join_at; [exact Q | intros -> _; contradiction | intros _ E; congruence].
    + unfold at_. change (oS o') with S'. rewrite join_lookup, decide_True by reflexivity. eauto.
  - intros _ p Hp. destruct (V4 p Hp) as [Q1 Q2]. split_and!; [exact Q1 | apply not_elem_of_empty |].
    eapply at_impl; [exact Q2|]. cbn. intros x _ [E Q]. split; [exact E|]. rewrite Wt. contradiction.
  - rewrite Wt. contradiction.
  - intros N1 N2. destruct (V2 (K12 N1 N2)) as [H|(p & Hp & H)]; [left; exact (H2 H) | right]. exists p. rewrite J7. auto.
  - intros C. destruct (not_elem_of_empty _ C).
Qed.

Lemma join_self : sock_ok Y ∅ u o' a s'.
Proof.
  destruct (wf_socks _ _ _ _ _ W _ _ Ha) as [K1 K2 K3 K4 K5 K6 K7 K8 K9 K10 K11 K12 K13 K14]. destruct join_held as [H1 _].
  destruct J as [J1 J2 J3 (J4 & J5 & J6) J7 J8 J9 J10 J11 J12 J13 J14 [J15 J15'] (M1 & M2 & M3 & M4 & M5 & M6 & M7 & M8 & M9 & M10 & M11 & M12)].
  split; rewrite ?M1, ?M2, ?M3, ?M4, ?M5, ?M6, ?M7, ?M8, ?M9, ?M10, ?M11, ?M12; auto.
  - destruct K1 as (j & Hj & K1). exists j. split; [exact Hj|]. eapply at_impl; [exact K1|]. cbn. intros x Hx (E1 & E2 & E3 & E4).
    split_and!; auto; [contradiction | intros C; destruct (not_elem_of_empty _ C)].
  - intros k Hk. left. assert (k = h) as -> by congruence. unfold at_. change (oS o') with S'.
    rewrite join_lookup, decide_False, decide_True by (auto using join_ne). eauto.
  - congruence.
  - intros c Hc. destruct (K9 c Hc) as [Q1 _]. contradiction.
  - intros _ p Hp. destruct (K10 (not_elem_of_empty _) p Hp) as (Q1 & _ & Q3). split_and!; [exact Q1 | apply not_elem_of_empty |].
    apply join_at; [|congruence|].
    + destruct Q3 as (x & Hx & E & _). exists x. split_and!; auto.
    + intros _ [E Q]. rewrite J7, J2, J6. split; [exact E | exact Q].
  - contradiction.
  - intros C. destruct (not_elem_of_empty _ C).
Qed.

Lemma wf_join : wf Y ∅ R u o'.
Proof.
  apply (wf_socks_only Y Y ∅ ∅ R u o S' W).
  - intros b sb Hb. rewrite join_lookup in Hb. destruct (decide (b = a)) as [->|Hba]; [injection Hb as <-; exact join_self|].
    destruct (decide (b = h)) as [->|Hbh]; [injection Hb as <-; exact join_head|]. apply join_other; assumption.
  - intros k sk Hk. unfold at_. rewrite join_lookup. destruct (decide (k = a)) as [->|Hka].
    + eexists. split; [reflexivity|]. assert (sk = s) as -> by congruence. apply J.
    + destruct (decide (k = h)) as [->|Hkh]; eexists; (split; [first [reflexivity | eassumption]|]); [|reflexivity].
      rewrite (jq_pcb _ _ _ _ _ _ J). congruence.
  - intros k Hk. rewrite join_lookup, decide_False, decide_False by congruence. exact Hk.
Qed.
End Join.
End LifeNew.
