(* ===== verification/SockLifeConn.v ===== *)
(** * New connections keep ownership

    The sockets the syncache makes, alone or in passive pairs, on the queue of a
    listening socket until they are accepted, and the conversion of a passive pair:
    the rules of [SockLifeOps] for the operations in which these meet. *)

From stdpp Require Import gmap.
From S2P Require Import Prelude TcpSeq SockLife SockLifeInv SockLifeOps SockLifeNew.

Module LifeConn.

Import SockLife.Life SockLifeInv.LifeInv SockLifeOps.LifeOps SockLifeNew.LifeNew.

(** ** A connection is established *)

Lemma insert_shadow {A} (m : gmap nat A) a h x y z : a <> h -> <[a := x]> (<[h := y]> (<[a := z]> m)) = <[a := x]> (<[h := y]> m).
Proof. intros Hne. rewrite (insert_insert_ne m h a) by congruence. apply insert_insert_eq. Qed.

(** On a queue again, both ends of the pair are held by it. *)
Lemma wf_queued_again Y R u o a s : wf (Y ∪ pair_of a s) ∅ R u o -> oS o !! a = Some s -> waiting s -> enqueued s -> wf Y ∅ R u o.
Proof.
  intros W Ha Hw He. apply (wf_settle Y (pair_of a s) R u o W). intros b sb Hb Hsb. unfold pair_of in Hb. apply elem_of_union in Hb as [Hb|Hb].
  - apply elem_of_singleton in Hb as ->. assert (sb = s) as -> by congruence. split_and!; [exact He | left; right; exact Hw|].
    intros i n _ _. right; right; left. exact Hw.
  - destruct (so_passive_peer s) as [p|] eqn:Ep; cbn in Hb; [|destruct (not_elem_of_empty _ Hb)]. apply elem_of_singleton in Hb as ->.
    destruct (s_peer _ _ _ _ _ _ (wf_socks _ _ _ _ _ W _ _ Ha) (not_elem_of_empty _) p Ep) as (_ & _ & (x & Hx & E & D)). assert (x = sb) as -> by congruence.
    destruct (D Hw) as (D1 & _). split_and!.
    + intros C. destruct (C D1).
    + right. exists a. split; [exact E|]. exists s. split; [exact Ha | right; exact Hw].
    + intros i n _ _. right; right; right; left. exists a. split; [exact E|]. exists s. auto.
Qed.

Section Connected.
Context (R : gset nat) (u : user) (o : shape) (a h : nat) (s sh : socket).
Context (W : wf ∅ ∅ R u o) (Ha : oS o !! a = Some s) (Hh : oS o !! h = Some sh) (Hd : so_head s = Some h) (Hq : a ∈ so_incomp sh).
Let s' := s <| sq_incomp := false |> <| sq_comp := true |>.
Let sh' := enter_comp a (without_incomp a sh).

Lemma promoted_queue : join_queue a h (off_queue s) s' (without_incomp a sh) sh'.
Proof.
  pose proof (wf_socks _ _ _ _ _ W _ _ Hh) as K. destruct (s_lens _ _ _ _ _ _ K) as (L1 & L2 & L3).
  pose proof (s_nodup _ _ _ _ _ _ K) as N. apply NoDup_app in N as (N1 & N2 & N3). split; cbn; auto; unfold remove1 in *.
  - intros b Hb. apply elem_of_app. auto.
  - intros b. rewrite !elem_of_app, list_elem_of_singleton. tauto.
  - apply NoDup_app. split_and!; [apply NoDup_filter, N1 | |].
    + intros b Hb C. apply list_elem_of_filter in Hb as [Hb Hb']. rewrite elem_of_app, list_elem_of_singleton in C. destruct C as [C|C]; [exact (N2 b Hb' C) | contradiction].
    + apply NoDup_app. split_and!; [exact N3 | | apply NoDup_singleton]. intros b Hb. rewrite list_elem_of_singleton. intros ->. exact (N2 a Hq Hb).
  - split_and!; auto.
    + rewrite L1, u16_pred. f_equal. symmetry. apply (length_remove1 a _ N1 Hq).
    + rewrite L2, u16_succ, length_app. cbn. f_equal. lia.
  - split; [exact Hd|]. right. split_and!; auto. apply elem_of_app. right. apply list_elem_of_singleton. reflexivity.
  - split_and!; auto.
Qed.

Lemma wf_promoted : wf ∅ ∅ R u (o <| oS := <[a := s']> (<[h := sh']> (oS o)) |>).
Proof.
  assert (Hw : waiting s) by (unfold waiting; congruence).
  pose proof (leave_ne ∅ R u o a h s sh W Ha Hh Hd) as Hne. destruct (leave_owned ∅ R u o a h s sh W Ha Hh Hd) as (No & Oh & Hpr).
  destruct (waiting_norefs ∅ R u o a s W Ha Hw) as (_ & _ & Hp).
  pose proof (left_incomp _ _ _ _ a h sh (wf_socks _ _ _ _ _ W _ _ Hh) Hq) as Lq.
  pose proof (wf_leave ∅ (∅ ∪ pair_of a s) R u o a h s sh _ W Ha Hh Hd Lq ltac:(apply union_subseteq_l) ltac:(apply union_subseteq_r)) as W1.
  set (o1 := o <| oS := <[a := off_queue s]> (<[h := without_incomp a sh]> (oS o)) |>) in *.
  assert (Ha1 : oS o1 !! a = Some (off_queue s)) by exact (lookup_insert_eq _ _ _).
  assert (Hh1 : oS o1 !! h = Some (without_incomp a sh)) by (unfold o1; cbn; rewrite lookup_insert_ne by congruence; apply lookup_insert_eq).
  replace (o <| oS := _ |>) with (o1 <| oS := <[a := s']> (<[h := sh']> (oS o1)) |>).
  2: { unfold o1, update. cbn. f_equal. rewrite insert_shadow by exact Hne. f_equal. apply insert_insert_eq. }
  apply (wf_queued_again ∅ R u _ a s'); [|exact (lookup_insert_eq _ _ _) | unfold waiting; cbn; congruence | right; reflexivity].
  apply (wf_join (∅ ∪ pair_of a s) R u o1 a h (off_queue s) s' _ sh' W1 Ha1 Hh1 promoted_queue); auto.
  - apply elem_of_union_r, pair_of_self.
  - apply (s_accept _ _ _ _ _ _ (wf_socks _ _ _ _ _ W _ _ Hh)). intros E. apply app_eq_nil in E as [E _]. rewrite E in Hq. inversion Hq.
  - cbn. rewrite elem_of_app, elem_of_remove1. intros [[_ C]|C]; [congruence|].
    pose proof (s_nodup _ _ _ _ _ _ (wf_socks _ _ _ _ _ W _ _ Hh)) as N. apply NoDup_app in N as (_ & N & _). exact (N a Hq C).
  - exact (s_passive _ _ _ _ _ _ (wf_socks _ _ _ _ _ W _ _ Ha) Hw).
  - intros p sp Ep Hsp. cbn in Ep. pose proof (queued_head_apart ∅ R u o a h s sh W Ha Hh Hd) as Nh.
    destruct (s_peer _ _ _ _ _ _ (wf_socks _ _ _ _ _ W _ _ Ha) (not_elem_of_empty _) p Ep) as (Hpa & _).
    unfold o1 in Hsp. cbn in Hsp. rewrite lookup_insert_ne, lookup_insert_ne in Hsp; [|intros <-; apply Nh, pair_of_peer, Ep | congruence].
    destruct (Hp p sp Ep Hsp) as (E1 & E2 & E3). split_and!; auto. apply no_refs, E2.
Qed.
End Connected.

Lemma run_soisconnected R u o a s : wf ∅ ∅ R u o -> oS o !! a = Some s -> run (soisconnected a) o (fun _ => fine R u o).
Proof.
  intros W Ha. unfold soisconnected. step. step. fields. destruct (so_head s) as [h|] eqn:Ehd; [|step; exact (fine_here R u o W)].
  destruct (sq_incomp s) eqn:Eq; [|step; exact (fine_here R u o W)].
  destruct (s_head _ _ _ _ _ _ (wf_socks _ _ _ _ _ W _ _ Ha) h Ehd) as [(sh & Hh & [(_ & _ & Q)|(C & _)])|(C & _)];
    [|congruence | destruct (not_elem_of_empty _ C)].
  pose proof (leave_ne ∅ R u o a h s sh W Ha Hh Ehd) as Hne.
  binds. eapply run_leave_incomp; [exact Hh | exact Q |]. cbv beta. step. step. step. split; [|reflexivity]. shp.
  rewrite insert_shadow, (insert_insert_eq (oS o)) by exact Hne. exact (wf_promoted R u o a h s sh W Ha Hh Ehd Q).
Qed.

(** ** Room on the queue of incomplete connections *)

(** Sockets an operation has made and not yet let go: connected to nothing but their PCB, which is not over. *)
Definition nursed (Y : gset nat) (o : shape) : Prop :=
  forall b, b ∈ Y -> exists sb i n, oS o !! b = Some sb /\ so_pcb sb = Some i /\ oI o !! i = Some n /\ inp_socket n = Some b /\
    so_passive_peer sb = None /\ ~ over n.

(** What is left of them by operations on others. *)
Definition nurses (Y : gset nat) (o o' : shape) : Prop :=
  forall b sb i n, b ∈ Y -> oS o !! b = Some sb -> so_pcb sb = Some i -> oI o !! i = Some n -> oS o' !! b = Some sb /\ oI o' !! i = Some n.

Lemma nurses_refl Y o : nurses Y o o.
Proof. intros b sb i n _ H1 _ H2. auto. Qed.

Lemma nursed_after Y o o' : nursed Y o -> nurses Y o o' -> nursed Y o'.
Proof.
  intros H F b Hb. destruct (H b Hb) as (sb & i & n & H1 & H2 & H3 & H4 & H5 & H6). destruct (F b sb i n Hb H1 H2 H3) as [E1 E2].
  exists sb, i, n. auto 8.
Qed.

Lemma nurses_trans Y o o' o'' : nurses Y o o' -> nurses Y o' o'' -> nurses Y o o''.
Proof. intros F G b sb i n Hb H1 H2 H3. destruct (F b sb i n Hb H1 H2 H3) as [E1 E2]. exact (G b sb i n Hb E1 H2 E2). Qed.

(** [sh'] is [sh] with fewer incomplete connections. *)
Record trimmed (sh sh' : socket) : Prop := {
  tm_incomp : forall b, b ∈ so_incomp sh' -> b ∈ so_incomp sh;
  tm_comp : so_comp sh' = so_comp sh;
  tm_accept : so_acceptconn sh' = so_acceptconn sh;
  tm_limit : so_qlimit sh' = so_qlimit sh }.

Lemma trimmed_refl sh : trimmed sh sh.
Proof. split; auto. Qed.

Lemma trimmed_trans sh1 sh2 sh3 : trimmed sh1 sh2 -> trimmed sh2 sh3 -> trimmed sh1 sh3.
Proof. intros [A1 A2 A3 A4] [B1 B2 B3 B4]. split; [auto | congruence | congruence | congruence]. Qed.

Section Trim.
Context (Y R : gset nat) (u : user) (h : nat).

(** Nursed sockets are none of those on the queue, nor their peers. *)
Lemma nursed_apart o sh a s : wf Y ∅ R u o -> nursed Y o -> oS o !! h = Some sh -> oS o !! a = Some s -> (a ∉ Y) -> forall b, b ∈ Y -> b ∉ pair_of a s.
Proof.
  intros W Nu Hh Ha Ho b Hb C. unfold pair_of in C. apply elem_of_union in C as [C|C]; [apply elem_of_singleton in C as ->; contradiction|].
  destruct (so_passive_peer s) as [p|] eqn:Ep; cbn in C; [|destruct (not_elem_of_empty _ C)]. apply elem_of_singleton in C as ->.
  destruct (Nu p Hb) as (sb & i & n & H1 & _ & _ & _ & H5 & _).
  destruct (s_peer _ _ _ _ _ _ (wf_socks _ _ _ _ _ W _ _ Ha) (not_elem_of_empty _) p Ep) as (_ & _ & (x & Hx & E & _)). congruence.
Qed.

Lemma run_trim fuel : forall o sh (Q : unit -> shape -> Prop),
  wf Y ∅ R u o -> oS o !! h = Some sh -> h ∉ Y -> nursed Y o -> (forall b, b ∈ so_incomp sh -> b ∉ Y) -> (length (so_incomp sh) < fuel)%nat ->
  (forall o' sh', wf Y ∅ R u o' -> oS o' !! h = Some sh' -> trimmed sh sh' -> nurses Y o o' -> oV o' = oV o -> Q tt o') ->
  run (trim_incomp fuel h) o Q.
Proof.
  induction fuel as [|fuel IH]; intros o sh Q W Hh HhY Nu HY Hf HQ; [lia|]. cbn [trim_incomp]. step. fields.
  pose proof (wf_socks _ _ _ _ _ W _ _ Hh) as K. destruct (s_lens _ _ _ _ _ _ K) as (L1 & _ & L3).
  destruct (Z.ltb_spec (so_qlimit sh) (so_incqlen sh)) as [Hlt|_].
  2: { step. apply (HQ o sh); auto using trimmed_refl, nurses_refl. }
  destruct (so_incomp sh) as [|a l] eqn:Eq; [rewrite L1 in Hlt; change (u16 (Z.of_nat (length []))) with 0 in Hlt; lia|]. cbn [List.head]. step.
  assert (Ha : a ∈ so_incomp sh) by (rewrite Eq; left). assert (HaY : a ∉ Y) by (apply HY; left).
  destruct (member_incomp Y R u o h sh a W Hh Ha HaY) as (s & Hs & Ehd & Eoff). pose proof (leave_ne Y R u o a h s sh W Hs Hh Ehd) as Hne.
  pose proof (nursed_apart o sh a s W Nu Hh Hs HaY) as Ap.
  binds. eapply run_leave_incomp; [exact Hh | exact Ha |]. cbv beta. step. rewrite Eoff. binds.
  lazymatch goal with |- run _ ?x _ => change x with (o <| oS := <[a := off_queue s]> (<[h := without_incomp a sh]> (oS o)) |>) end.
  apply (run_abort_queued Y R u o a h s sh W Hs Hh Ehd _ (left_incomp _ _ _ _ a h sh K Ha)).
  intros o1 W1 Hh1 [B1 B2 B3] Fr. cbv beta.
  assert (F : nurses Y o o1).
  { intros b sb i n Hb H1 H2 H3. split.
    - rewrite Fr; [exact H1 | exact (Ap b Hb) | intros ->; contradiction].
    - destruct (Nu b Hb) as (sb' & i' & n' & G1 & G2 & G3 & G4 & _ & G5). assert (n' = n) as -> by congruence.
      apply B1; [exact H3 | exact G5 |]. intros c Hc. assert (c = b) as -> by congruence. exact (Ap b Hb). }
  pose proof (s_nodup _ _ _ _ _ _ K) as N. apply NoDup_app in N as (N & _ & _). pose proof (length_remove1 a _ N Ha) as Hl. rewrite Eq in Hl.
  apply (IH o1 (without_incomp a sh)); auto.
  - exact (nursed_after _ _ _ Nu F).
  - cbn. intros b Hb. apply elem_of_remove1 in Hb as [Hb _]. apply HY. rewrite Eq in Hb. exact Hb.
  - cbn. rewrite Eq. cbn [length] in *. lia.
  - intros o' sh' W' Hh' T F' V'. apply (HQ o' sh'); auto; [|exact (nurses_trans _ _ _ _ F F') | cbn in B3; congruence].
    refine (trimmed_trans _ _ _ _ T). split; auto. cbn. intros b Hb. apply elem_of_remove1 in Hb. apply Hb.
Qed.
End Trim.

(** ** A connection for a listening socket *)

Lemma entered_incomp Y X u o a h s sh : sock_ok Y X u o h sh -> a ∉ so_incomp sh ++ so_comp sh -> so_head s = Some h -> sq_comp s = false ->
  join_queue a h s (s <| sq_incomp := true |>) sh (enter_incomp a sh).
Proof.
  intros K Hn Hd Hc. destruct (s_lens _ _ _ _ _ _ K) as (L1 & L2 & L3). pose proof (s_nodup _ _ _ _ _ _ K) as N. apply NoDup_app in N as (N1 & N2 & N3).
  rewrite elem_of_app in Hn. split; cbn; auto.
  - intros b Hb. apply elem_of_app. auto.
  - intros b. rewrite !elem_of_app, list_elem_of_singleton. tauto.
  - apply NoDup_app. split_and!; [| |exact N3].
    + apply NoDup_app. split_and!; [exact N1 | | apply NoDup_singleton]. intros b Hb. rewrite list_elem_of_singleton. intros ->. tauto.
    + intros b. rewrite elem_of_app, list_elem_of_singleton. intros [Hb| ->] C; [exact (N2 b Hb C) | tauto].
  - split_and!; auto. rewrite L1, u16_succ, length_app. cbn. f_equal. lia.
  - split; [exact Hd|]. left. split_and!; auto. apply elem_of_app. right. apply list_elem_of_singleton. reflexivity.
  - split_and!; auto.
Qed.

(** The socket of a new connection before it is attached, with [hd] its listening socket. *)
Definition conn_sock (passive : bool) (hd : option nat) : socket :=
  new_sock <| so_passive := passive |> <| ss_nofdref := true |> <| so_head := hd |>.

Lemma inherit_shape head passive so : ss_protoref head = false ->
  sshape (inherit head passive so) =
  (sshape so) <| so_acceptconn := false |> <| so_passive := passive |> <| ss_nofdref := true |> <| ss_protoref := false |>.
Proof. destruct head as [? ? ? ? ? ? p]. cbn. intros ->. destruct so. vm_compute. reflexivity. Qed.

Lemma run_inherit_head a h head o (Q : unit -> shape -> Prop) : oS o !! a = Some new_sock -> ss_protoref head = false ->
  Q tt (o <| oS := <[a := conn_sock false (Some h)]> (oS o) |>) -> run (set_so a (fun so => (inherit head false so) <| so_head := Some h |>)) o Q.
Proof.
  intros Ha Hp HQ. eapply run_set_so; [exact Ha | | exact HQ]. intros so E.
  change (sshape ((inherit head false so) <| so_head := Some h |>)) with ((sshape (inherit head false so)) <| so_head := Some h |>).
  rewrite inherit_shape, E by exact Hp. reflexivity.
Qed.

Lemma run_inherit a passive head o (Q : unit -> shape -> Prop) : oS o !! a = Some new_sock -> ss_protoref head = false ->
  Q tt (o <| oS := <[a := conn_sock passive None]> (oS o) |>) -> run (set_so a (inherit head passive)) o Q.
Proof.
  intros Ha Hp HQ. eapply run_set_so; [exact Ha | | exact HQ]. intros so E. rewrite inherit_shape, E by exact Hp. reflexivity.
Qed.

(** A socket of the queue of [h], just made. *)
Record newconn (Y R : gset nat) (u : user) (o : shape) (h a i t : nat) (o' : shape) : Prop := {
  nc_wf : wf (Y ∪ {[a]}) ∅ R u o';
  nc_sock : oS o' !! a = Some ((conn_sock false (Some h)) <| so_pcb := Some i |> <| sq_incomp := true |>);
  nc_inp : oI o' !! i = Some (new_inp a t);
  nc_fresh : (a ∉ Y) /\ a ∉ owned u;
  nc_nurses : nurses Y o o';
  nc_inv : oV o' = oV o }.

Section Newconn.
Context (Y R : gset nat) (u : user) (o : shape) (h : nat) (sh : socket).
Context (W : wf Y ∅ R u o) (Hh : oS o !! h = Some sh) (Oh : h ∈ opens u) (HhY : h ∉ Y) (Nu : nursed Y o).
Context (HqY : forall b, b ∈ so_incomp sh -> b ∉ Y) (Hacc : so_acceptconn sh = true).
Let a := oN o.
Let i := S a.
Let t := S i.

Lemma open_protoref : ss_protoref sh = false.
Proof.
  destruct (sock_pcb _ _ _ _ _ W h sh Hh) as (j & n & Hp & Hi & _ & ->). exact (opens_sockref _ _ _ _ _ _ _ _ _ W Hh Hp Hi Oh).
Qed.

Lemma new_fresh : oS o !! a = None /\ oI o !! i = None /\ oT o !! t = None /\ (a ∉ Y) /\ a ∉ owned u.
Proof.
  destruct (wf_fresh _ _ _ _ _ W a (le_n _)) as (Na & _). destruct (wf_fresh _ _ _ _ _ W i ltac:(unfold i, a; lia)) as (_ & Ni & _).
  destruct (wf_fresh _ _ _ _ _ W t ltac:(unfold t, i, a; lia)) as (_ & _ & Nt & _). split_and!; auto.
  - intros C. destruct (Nu a C) as (sb & j & n & E & _). congruence.
  - exact (fresh_not_owned _ _ _ _ _ a W (le_n _)).
Qed.

(** Attached, for a listening socket or alone. *)
Definition newborn_shape (passive : bool) (hd : option nat) : shape := born_shape o a i t (S t) ((conn_sock passive hd) <| so_pcb := Some i |>).

Lemma wf_newborn passive hd : (forall x, hd = Some x -> (x ∈ owned u) /\ passive = false) -> wf (Y ∪ {[a]}) ∅ R u (newborn_shape passive hd).
Proof.
  intros Hhd. destruct new_fresh as (Na & Ni & Nt & HaY & No).
  apply (wf_born Y (Y ∪ {[a]}) R u u o a i t (S t) _ W Na Ni Nt); try (unfold t, i, a; lia).
  - apply same_user_refl, (wf_user _ _ _ _ _ W).
  - apply union_subseteq_l.
  - reflexivity.
  - split; auto; try discriminate.
    + cbn. split_and!; auto. lia.
    + rewrite decide_False by exact No. reflexivity.
    + intros x Hx. destruct (Hhd x Hx) as [H1 H2]. split_and!; auto. apply elem_of_union_r, elem_of_singleton_2. reflexivity.
    + intros C. destruct C. apply elem_of_union_r, elem_of_singleton_2. reflexivity.
Qed.

Lemma nurses_newborn passive hd : nurses Y o (newborn_shape passive hd).
Proof.
  destruct new_fresh as (Na & Ni & _). intros b sb j n Hb H1 H2 H3. unfold newborn_shape, born_shape. cbn.
  rewrite !lookup_insert_ne by congruence. auto.
Qed.

Lemma nursed_newborn passive hd : nursed (Y ∪ {[a]}) (newborn_shape passive hd).
Proof.
  intros b Hb. apply elem_of_union in Hb as [Hb|Hb].
  - exact (nursed_after Y o _ Nu (nurses_newborn passive hd) b Hb).
  - apply elem_of_singleton in Hb as ->. exists ((conn_sock passive hd) <| so_pcb := Some i |>), i, (new_inp a t).
    unfold newborn_shape, born_shape. cbn. rewrite !lookup_insert_eq. split_and!; auto. intros [C|C]; discriminate.
Qed.

(** Allocation and attachment of the socket of a connection: it is there, or nothing is. *)
Lemma run_make {A} passive hd (f : socket -> socket) (k : bool -> M A) (Q : A -> shape -> Prop) :
  (forall o1 (Q' : unit -> shape -> Prop), oS o1 !! a = Some new_sock -> Q' tt (o1 <| oS := <[a := conn_sock passive hd]> (oS o1) |>) -> run (set_so a f) o1 Q') ->
  (forall N, (oN o <= N)%nat -> run (k false) (o <| oS := <[a := conn_sock passive hd]> (oS o) |> <| oN := N |>) Q) ->
  run (k true) (newborn_shape passive hd) Q ->
  run (set_so a f;; ok ← zalloc; ok ← (if ok : bool then tcp_usr_attach a else mret false); k ok) (o <| oN := S (oN o) |> <| oS := <[oN o := new_sock]> (oS o) |>) Q.
Proof.
  intros Hf HF HT. destruct new_fresh as (Na & _). fold a. binds. apply Hf; [exact (lookup_insert_eq _ _ _)|]. cbv beta. shp. rewrite insert_insert_eq.
  pose (o1 := o <| oS := <[a := conn_sock passive hd]> (oS o) |> <| oN := S a |>).
  lazymatch goal with |- run ?m _ ?Q => change (run m o1 Q) end. step. binds. destruct ok.
  - apply (run_attach a (conn_sock passive hd) o1); [exact (lookup_insert_eq _ _ _) | reflexivity | | |].
    + intros x Hx. apply (unused_of _ _ _ _ _ W). cbn in Hx. fold a. lia.
    + intros N HN. cbn in HN. apply (HF N). fold a. lia.
    + unfold attached, o1. lazymatch goal with |- run _ ?x _ => replace x with (newborn_shape passive hd); [exact HT|] end.
      unfold newborn_shape, born_shape, update. cbn. f_equal. symmetry. apply insert_insert_eq.
  - step. apply (HF (S a)). fold a. lia.
Qed.

Lemma nurses_next N : nurses Y o (o <| oN := N |>).
Proof. intros b sb j n _ H1 _ H2. auto. Qed.

Lemma run_sonewconn (Q : option nat -> shape -> Prop) :
  (forall o', wf Y ∅ R u o' -> nurses Y o o' -> oV o' = oV o -> Q None o') ->
  (forall o', newconn Y R u o h a i t o' -> Q (Some a) o') -> run (sonewconn h false) o Q.
Proof.
  intros HF HT. destruct new_fresh as (Na & Ni & Nt & HaY & No). pose proof (opened u h Oh) as Oh'.
  assert (Hah : a <> h) by (intros E; apply No; rewrite E; exact Oh').
  unfold sonewconn. step. destruct (_ <? _); [step; apply HF; auto using nurses_refl|].
  binds. apply run_soalloc; [step; apply HF; auto using nurses_refl|]. cbv beta iota. fold a.
  apply (run_make false (Some h)).
  - intros o1 Q' H1 H2. apply run_inherit_head; [exact H1 | | exact H2]. fields. exact open_protoref.
  - intros N HN. cbn [negb]. binds. apply run_sodealloc_new; [reflexivity | reflexivity | exact Na |]. cbv beta. step.
    apply HF; [apply wf_next; assumption | apply nurses_next | reflexivity].
  - cbn [negb]. binds. cbn [when]. step. set (o1 := newborn_shape false (Some h)).
    assert (W1 : wf (Y ∪ {[a]}) ∅ R u o1) by (apply wf_newborn; intros x [= <-]; auto).
    assert (Hh1 : oS o1 !! h = Some sh) by (unfold o1, newborn_shape, born_shape; cbn; rewrite lookup_insert_ne by congruence; exact Hh).
    assert (Ha1 : oS o1 !! a = Some ((conn_sock false (Some h)) <| so_pcb := Some i |>)) by exact (lookup_insert_eq _ _ _).
    assert (Na1 : forall b, b ∈ so_incomp sh ++ so_comp sh -> b <> a).
    { intros b Hb ->. destruct (s_member _ _ _ _ _ _ (wf_socks _ _ _ _ _ W _ _ Hh) a Hb) as [_ (x & Hx & _)]. congruence. }
    binds. eapply run_get_so; [exact Hh1|]. intros head' Ehead. cbv beta. binds. fields.
    apply (run_trim (Y ∪ {[a]}) R u h _ o1 sh); auto; [set_solver | apply nursed_newborn | |].
    { intros b Hb. rewrite elem_of_union, elem_of_singleton. intros [C|C]; [exact (HqY b Hb C)|]. apply (Na1 b); [apply elem_of_app; auto | exact C]. }
    intros o2 sh2 W2 Hh2 T2 N2 V2. cbv beta.
    destruct (N2 a _ i (new_inp a t) ltac:(set_solver) Ha1 eq_refl (lookup_insert_eq _ _ _)) as [Ha2 Hi2].
    step. step. step. shp. apply HT.
    assert (Hnq : a ∉ so_incomp sh2 ++ so_comp sh2).
    { rewrite (tm_comp _ _ T2). intros C. apply (Na1 a); [|reflexivity]. rewrite elem_of_app in *. destruct C as [C|C]; [left; exact (tm_incomp _ _ T2 a C) | auto]. }
    set (s1 := (conn_sock false (Some h)) <| so_pcb := Some i |>) in *.
    pose proof (entered_incomp _ _ _ _ a h s1 sh2 (wf_socks _ _ _ _ _ W2 _ _ Hh2) Hnq eq_refl eq_refl) as J. split; auto.
    + apply (wf_join (Y ∪ {[a]}) R u o2 a h s1 _ sh2 _ W2 Ha2 Hh2 J); auto.
      * set_solver.
      * rewrite (tm_accept _ _ T2). exact Hacc.
      * cbn. split; congruence.
      * cbn. discriminate.
    + apply lookup_insert_eq.
    + intros b sb j n Hb H1 H2 H3. assert (Hba : b <> a) by (intros ->; contradiction). assert (Hbh : b <> h) by (intros ->; contradiction).
      destruct (nurses_newborn false (Some h) b sb j n Hb H1 H2 H3) as [E1 E2]. destruct (N2 b sb j n ltac:(set_solver) E1 H2 E2) as [E3 E4].
      shp. rewrite !lookup_insert_ne by congruence. auto.
Qed.
End Newconn.

(** ** Passive pairs *)

(** A state that is not LISTEN, where it was not. *)
Lemma run_keep_state t st i o (Q : unit -> shape -> Prop) :
  oT o !! t = Some (i, false) -> (st =? TCPS_LISTEN) = false -> Q tt o -> run (set_tp t (set_state st)) o Q.
Proof.
  intros Ht Hs HQ. eapply run_set_state; [exact Ht|]. rewrite Hs. destruct o. cbn in *. rewrite insert_id by exact Ht. exact HQ.
Qed.

Lemma pair_alone a s : so_passive_peer s = None -> pair_of a s = {[a]}.
Proof. intros E. unfold pair_of. rewrite E. apply union_empty_r_L. Qed.

(** A socket nobody knows of is aborted. *)
Lemma run_abort_alone Y R u o a s (Q : unit -> shape -> Prop) :
  wf (Y ∪ {[a]}) ∅ R u o -> oS o !! a = Some s -> sohasrefs s = false -> so_passive_peer s = None -> so_head s = None ->
  (forall o', wf Y ∅ R u o' -> oV o' = oV o -> Q tt o') -> run (soabort a) o Q.
Proof.
  intros W Ha Hr Hp Hd HQ. apply (run_soabort Y R u o a s).
  - rewrite (pair_alone a s Hp). exact W.
  - exact Ha.
  - split; auto; try (intros; unfold waiting; congruence).
  - intros o' W' [_ _ V]. auto.
Qed.

Section Client.
Context (R : gset nat) (u : user) (o : shape) (h : nat) (sh : socket).
Context (W : wf ∅ ∅ R u o) (Hh : oS o !! h = Some sh) (Oh : h ∈ opens u).
Let c := oN o.
Let i := S c.
Let t := S i.

Lemma nursed_none : nursed ∅ o.
Proof. intros b Hb. destruct (not_elem_of_empty _ Hb). Qed.

Lemma run_client hashed (Q : option nat -> shape -> Prop) :
  (forall o', wf ∅ ∅ R u o' -> oV o' = oV o -> Q None o') -> (forall passive, Q (Some c) (newborn_shape o passive None)) ->
  run (syncache_passive_client_socket h hashed) o Q.
Proof.
  intros HF HT. destruct (new_fresh ∅ R u o W nursed_none) as (Na & Ni & Nt & _ & No). fold c i t in Na, Ni, Nt, No.
  unfold syncache_passive_client_socket, sonewconn_passive_client. step.
  binds. apply run_soalloc; [step; cbv iota; step; apply HF; auto|]. cbv beta iota. fold c.
  apply (run_make ∅ R u o W nursed_none (so_passive so) None).
  - intros o1 Q' H1 H2. apply run_inherit; [exact H1 | | exact H2]. fields. exact (open_protoref ∅ R u o h sh W Hh Oh).
  - intros N HN. cbn [negb]. binds. apply run_sodealloc_new; [reflexivity | reflexivity | exact Na |]. cbv beta. step. cbv iota. step.
    apply HF; [apply wf_next; assumption | reflexivity].
  - cbn [negb]. set (o1 := newborn_shape o (so_passive so) None). set (s1 := (conn_sock (so_passive so) None) <| so_pcb := Some i |>).
    assert (Hc1 : oS o1 !! c = Some s1) by exact (lookup_insert_eq _ _ _).
    assert (Hi1 : oI o1 !! i = Some (new_inp c t)) by exact (lookup_insert_eq _ _ _).
    assert (Ht1 : oT o1 !! t = Some (Some i, false)) by exact (lookup_insert_eq _ _ _).
    assert (W1 : wf (∅ ∪ {[c]}) ∅ R u o1) by (apply wf_newborn; auto using nursed_none; discriminate).
    binds. eapply run_keep_so; [exact Hc1 | reflexivity |]. cbv beta. step. cbv iota. binds.
    apply (run_pcb_of c s1 i (new_inp c t)); auto. intros inp Einp. cbv beta iota. destruct hashed; cbn [negb].
    + unfold intotcpcb. fields. cbn [inp_ppcb new_inp]. step. step. binds.
      eapply run_keep_state; [exact Ht1 | reflexivity |]. cbv beta. binds. eapply run_keep_state; [exact Ht1 | reflexivity |]. cbv beta.
      unfold soisconnected. binds. eapply run_keep_so; [exact Hc1 | reflexivity |]. cbv beta. binds. eapply run_get_so; [exact Hc1|]. intros so' Eso'.
      cbv beta. fields. cbn [so_head s1 conn_sock update eta eta_socket]. change (so_head s1) with (@None nat). cbv iota. step. step. apply HT.
    + binds. apply (run_abort_alone ∅ R u o1 c s1); auto. intros o' W' V'. cbv beta. step. apply HF; auto.
Qed.
End Client.

Section Link.
Context (Y R : gset nat) (u : user) (o : shape) (a c : nat) (s sc : socket).
Context (W : wf Y ∅ R u o) (Ha : oS o !! a = Some s) (Hc : oS o !! c = Some sc) (Hne : a <> c) (HaY : a ∈ Y) (HcY : c ∈ Y).
Context (Pa : so_passive_peer s = None) (Pc : so_passive_peer sc = None).
Context (Hd : so_head sc = None) (Hpr : ss_protoref sc = false) (No : c ∉ owned u).
Let s' := s <| so_passive := true |> <| so_passive_peer := Some c |>.
Let sc' := sc <| so_passive_peer := Some a |>.
Let S' := <[c := sc']> (<[a := s']> (oS o)).
Let o' := o <| oS := S' |>.

Lemma link_lookup k : S' !! k = if decide (k = c) then Some sc' else if decide (k = a) then Some s' else oS o !! k.
Proof.
  unfold S'. destruct (decide (k = c)) as [->|Hkc]; [apply lookup_insert_eq|]. rewrite lookup_insert_ne by congruence.
  destruct (decide (k = a)) as [->|Hka]; [apply lookup_insert_eq | apply lookup_insert_ne; congruence].
Qed.

(** What does not say who the peer is, or whether there is one, is as it was. *)
Lemma link_at k (Q : socket -> Prop) : at_ (oS o) k Q -> (Q s -> Q s') -> (Q sc -> Q sc') -> at_ (oS o') k Q.
Proof.
  intros (x & Hx & HQ) H1 H2. unfold at_. change (oS o') with S'. rewrite link_lookup.
  destruct (decide (k = c)) as [->|]; [assert (x = sc) as -> by congruence; eauto|].
  destruct (decide (k = a)) as [->|]; [assert (x = s) as -> by congruence; eauto | eauto].
Qed.

Lemma link_not_peer b sb p : oS o !! b = Some sb -> so_passive_peer sb = Some p -> p <> a /\ p <> c.
Proof.
  intros Hb E. destruct (s_peer _ _ _ _ _ _ (wf_socks _ _ _ _ _ W _ _ Hb) (not_elem_of_empty _) p E) as (_ & _ & (x & Hx & E' & _)).
  split; intros ->; congruence.
Qed.

Lemma link_ok b sb : oS o !! b = Some sb -> b <> a -> b <> c -> sock_ok Y ∅ u o' b sb.
Proof.
  intros Hb Nba Nbc. destruct (wf_socks _ _ _ _ _ W _ _ Hb) as [K1 K2 K3 K4 K5 K6 K7 K8 K9 K10 K11 K12 K13 K14].
  assert (Pw : forall p, at_ (oS o) p waiting -> at_ (oS o') p waiting) by (intros p H; apply link_at; auto).
  assert (Ph : forall p, at_ (oS o) p held -> at_ (oS o') p held) by (intros p H; apply link_at; auto). split; auto.
  - destruct K1 as (j & Hj & K1). exists j. split; [exact Hj|]. eapply at_impl; [exact K1|]. cbn. intros x Hx (E1 & E2 & E3 & E4). split_and!; auto.
    intros N1 N2. destruct (E3 N1 N2) as [H|[H|[H|[(p & Hp & H)|H]]]];
      [left; exact H | right; left; exact H | right; right; left; exact H | | right; right; right; right; exact H].
    right; right; right; left. exists p. split; [exact Hp | exact (Pw p H)].
  - intros k Hk. destruct (K4 k Hk) as [H|H]; [left; apply link_at; auto | right; exact H].
  - intros x Hx. destruct (K9 x Hx) as [Q1 Q2]. split; [exact Q1 | apply link_at; auto].
  - intros HX p Hp. destruct (K10 HX p Hp) as (Q1 & Q2 & (x & Hx & Q3)). split_and!; auto. destruct (link_not_peer b sb p Hb Hp) as [N1 N2].
    exists x. change (oS o') with S'. rewrite link_lookup, !decide_False by assumption. auto.
  - intros N1 N2. destruct (K12 N1 N2) as [H|(p & Hp & H)]; [left; exact H | right; eauto].
Qed.

Lemma link_self : sock_ok Y ∅ u o' a s'.
Proof.
  destruct (wf_socks _ _ _ _ _ W _ _ Ha) as [K1 K2 K3 K4 K5 K6 K7 K8 K9 K10 K11 K12 K13 K14]. split; auto.
  - destruct K1 as (j & Hj & K1). exists j. split; [exact Hj|]. eapply at_impl; [exact K1|]. cbn. intros x Hx (E1 & E2 & E3 & E4). split_and!; auto;
      [contradiction | intros C; destruct (not_elem_of_empty _ C)].
  - intros k Hk. destruct (K4 k Hk) as [H|H]; [left; apply link_at; auto | right; exact H].
  - intros x Hx. destruct (K9 x Hx) as [Q1 Q2]. split; [exact Q1 | apply link_at; auto].
  - cbn. intros _ p [= <-]. split_and!; [congruence | apply not_elem_of_empty |]. exists sc'. change (oS o') with S'.
    rewrite link_lookup, decide_True by reflexivity. split_and!; auto.
  - cbn. intros _. split; [discriminate | reflexivity].
  - contradiction.
Qed.

Lemma link_client : sock_ok Y ∅ u o' c sc'.
Proof.
  destruct (wf_socks _ _ _ _ _ W _ _ Hc) as [K1 K2 K3 K4 K5 K6 K7 K8 K9 K10 K11 K12 K13 K14]. split; auto.
  - destruct K1 as (j & Hj & K1). exists j. split; [exact Hj|]. eapply at_impl; [exact K1|]. cbn. intros x Hx (E1 & E2 & E3 & E4). split_and!; auto;
      [contradiction | intros C; destruct (not_elem_of_empty _ C)].
  - intros k Hk. cbn in Hk. congruence.
  - intros x Hx. destruct (K9 x Hx) as [Q1 Q2]. split; [exact Q1 | apply link_at; auto].
  - cbn. intros _ p [= <-]. split_and!; [exact Hne | apply not_elem_of_empty |]. exists s'. change (oS o') with S'.
    rewrite link_lookup, decide_False, decide_True by congruence. split_and!; auto. intros C. destruct (C Hd).
  - intros C. destruct (C Hd).
  - contradiction.
Qed.

Lemma wf_link : wf Y ∅ R u o'.
Proof.
  apply (wf_socks_only Y Y ∅ ∅ R u o S' W).
  - intros b sb Hb. rewrite link_lookup in Hb. destruct (decide (b = c)) as [->|Hbc]; [injection Hb as <-; exact link_client|].
    destruct (decide (b = a)) as [->|Hba]; [injection Hb as <-; exact link_self|]. apply link_ok; assumption.
  - intros k sk Hk. apply link_at with (Q := fun x => so_pcb x = so_pcb sk); [exists sk; auto | auto | auto].
  - intros k Hk. rewrite link_lookup, !decide_False by congruence. exact Hk.
Qed.
End Link.

(** The pair is on the queue, or nothing is left of it. *)
Section Syncache.
Context (R : gset nat) (u : user) (o : shape) (h : nat) (sh : socket).
Context (W : wf ∅ ∅ R u o) (Hh : oS o !! h = Some sh) (Oh : h ∈ opens u) (Hacc : so_acceptconn sh = true).

(** The last steps: the PCB is entered in the hash tables, or the connection aborted. *)
Lemma run_syn_tail (hashed : bool) a i t s1 o2 :
  wf (∅ ∪ pair_of a s1) ∅ R u o2 -> oS o2 !! a = Some s1 -> so_pcb s1 = Some i -> oI o2 !! i = Some (new_inp a t) ->
  so_head s1 = Some h -> sq_incomp s1 = true -> sohasrefs s1 = false ->
  (forall p sp j m, so_passive_peer s1 = Some p -> oS o2 !! p = Some sp -> so_pcb sp = Some j -> oI o2 !! j = Some m ->
    so_head sp = None /\ sohasrefs sp = false /\ inp_timewait m = false) ->
  oV o2 = oV o ->
  run (if negb hashed then soabort a;; mret None
       else inp ← get_inp i; t ← intotcpcb inp; t ← deref t; set_tp t (set_state TCPS_SYN_RECEIVED);; mret (Some a)) o2 (fun _ => fine R u o).
Proof.
  intros W2 Ha Hp Hi Hd Hq Hr Hpe V2. destruct hashed; cbn [negb].
  - destruct (conn_of_inp _ _ _ _ _ W2 a i s1 _ Ha Hp Hi eq_refl) as (t0 & l & C). assert (t0 = t) as -> by (destruct C; cbn in *; congruence).
    step. unfold intotcpcb. fields. cbn [inp_ppcb new_inp]. step. step. binds. eapply run_set_state; [apply C|]. cbv beta. step. split; [|exact V2].
    apply (wf_queued_again ∅ R u _ a s1); [|exact Ha | unfold waiting; congruence | left; exact Hq].
    apply (wf_state (∅ ∪ pair_of a s1) R u o2 a i t s1 (new_inp a t) l W2 C). discriminate.
  - binds. apply (run_soabort ∅ R u o2 a s1 W2 Ha).
    + split; [exact Hr | left; exact Hq | |].
      * intros j m Hj Hm Tw. assert (m = new_inp a t) as -> by congruence. discriminate.
      * intros p sp j m Ep Hsp Hj Hm. destruct (Hpe p sp j m Ep Hsp Hj Hm) as (E1 & E2 & E3). split_and!; auto; congruence.
    + intros o' W' [_ _ V']. cbv beta. step. split; [exact W' | congruence].
Qed.

(** Without a client. *)
Lemma run_syn_single hashed a i t o1 : newconn ∅ R u o h a i t o1 ->
  run ('(i, inp) ← pcb_of a; set_so a (fun so => so <| so_passive := false |>);;
       if negb hashed then soabort a;; mret None
       else inp ← get_inp i; t ← intotcpcb inp; t ← deref t; set_tp t (set_state TCPS_SYN_RECEIVED);; mret (Some a)) o1 (fun _ => fine R u o).
Proof.
  intros [N1 N2 N3 N4 N5 N6]. set (s1 := (conn_sock false (Some h)) <| so_pcb := Some i |> <| sq_incomp := true |>) in *.
  binds. apply (run_pcb_of a s1 i (new_inp a t)); auto. intros inp Einp. cbv beta iota. binds.
  eapply run_set_so with (s' := s1); [exact N2 | intros x Ex; change (sshape (x <| so_passive := false |>)) with ((sshape x) <| so_passive := false |>); rewrite Ex; reflexivity |].
  cbv beta. rewrite insert_id by exact N2. replace (o1 <| oS := oS o1 |>) with o1 by (destruct o1; reflexivity).
  apply (run_syn_tail hashed a i t s1 o1); auto; [rewrite (pair_alone a s1) by reflexivity; exact N1 | discriminate].
Qed.

(** With one. *)
Lemma run_syn_pair hashed c a i t sc j tc o0 o1 :
  newconn {[c]} R u o0 h a i t o1 -> oS o1 !! c = Some sc -> so_pcb sc = Some j -> oI o1 !! j = Some (new_inp c tc) -> so_head sc = None ->
  sohasrefs sc = false -> so_passive_peer sc = None -> (c ∉ owned u) -> oV o0 = oV o ->
  run ('(i, inp) ← pcb_of a;
       (set_so a (fun so => so <| so_passive := true |>);; set_inp i (fun inp => inp <| inp_passive := true |>);;
        set_so a (fun so => so <| so_passive_peer := Some c |>);; set_so c (fun so => so <| so_passive_peer := Some a |>));;
       if negb hashed then soabort a;; mret None
       else inp ← get_inp i; t ← intotcpcb inp; t ← deref t; set_tp t (set_state TCPS_SYN_RECEIVED);; mret (Some a)) o1 (fun _ => fine R u o).
Proof.
  intros [N1 N2 N3 [N4 N4'] N5 N6] Hc Hj Hm Hd Hr Hp No V. set (s1 := (conn_sock false (Some h)) <| so_pcb := Some i |> <| sq_incomp := true |>) in *.
  assert (Hne : a <> c) by (intros ->; apply N4; apply elem_of_singleton_2; reflexivity).
  binds. apply (run_pcb_of a s1 i (new_inp a t)); auto. intros inp Einp. cbv beta iota. step. step. step. step.
  shp. rewrite insert_insert_eq. set (s2 := s1 <| so_passive := true |> <| so_passive_peer := Some c |>).
  set (sc2 := sc <| so_passive_peer := Some a |>).
  pose (o2 := o1 <| oS := <[c := sc2]> (<[a := s2]> (oS o1)) |>). lazymatch goal with |- run ?m _ ?Q => change (run m o2 Q) end.
  assert (W2 : wf ({[c]} ∪ {[a]}) ∅ R u o2).
  { apply (wf_link ({[c]} ∪ {[a]}) R u o1 a c s1 sc); auto; [set_solver | set_solver | apply no_refs, Hr]. }
  assert (EP : {[c]} ∪ {[a]} = (∅ ∪ pair_of a s2 : gset nat)).
  { unfold pair_of. cbn. rewrite union_empty_l_L. apply union_comm_L. }
  rewrite EP in W2. assert (Ha2 : oS o2 !! a = Some s2) by (unfold o2; cbn; rewrite lookup_insert_ne by congruence; apply lookup_insert_eq).
  apply (run_syn_tail hashed a i t s2 o2); auto.
  - intros p sp k m Ep Hsp Hk Hm'. cbn in Ep. injection Ep as <-. unfold o2 in Hsp. cbn in Hsp. rewrite lookup_insert_eq in Hsp. injection Hsp as <-.
    split_and!; auto. cbn in Hk. assert (k = j) as -> by congruence. assert (m = new_inp c tc) as -> by (cbn in Hm'; congruence). reflexivity.
  - change (oV o2) with (oV o1). congruence.
Qed.

Lemma run_syncache_socket passive client_hashed hashed : run (syncache_socket h passive client_hashed hashed) o (fun _ => fine R u o).
Proof.
  pose proof (opened u h Oh) as Oh'. unfold syncache_socket. destruct passive.
  - binds. apply (run_client R u o h sh W Hh Oh client_hashed); [intros o' W' V'; cbn [andb is_null]; step; split; assumption|].
    intros p0. cbn [andb is_null]. set (c := oN o). set (o1 := newborn_shape o p0 None).
    destruct (new_fresh ∅ R u o W (nursed_none o)) as (Nc & Nj & _ & _ & No). fold c in Nc, Nj, No.
    assert (Hch : c <> h) by (intros E; apply No; rewrite E; exact Oh').
    assert (W1 : wf {[c]} ∅ R u o1).
    { rewrite <- (union_empty_l_L {[c]}). apply wf_newborn; auto using nursed_none. discriminate. }
    set (sc := (conn_sock p0 None) <| so_pcb := Some (S c) |>).
    assert (Hc1 : oS o1 !! c = Some sc) by exact (lookup_insert_eq _ _ _).
    assert (Hj1 : oI o1 !! S c = Some (new_inp c (S (S c)))) by exact (lookup_insert_eq _ _ _).
    assert (Hh1 : oS o1 !! h = Some sh) by (unfold o1, newborn_shape, born_shape; cbn; rewrite lookup_insert_ne by exact Hch; exact Hh).
    assert (Nu1 : nursed {[c]} o1) by (rewrite <- (union_empty_l_L {[c]}); apply nursed_newborn with (R := R) (u := u); auto using nursed_none).
    assert (Nc1 : forall b, b ∈ so_incomp sh -> b ∉ ({[c]} : gset nat)).
    { intros b Hb C. apply elem_of_singleton in C.
      destruct (s_member _ _ _ _ _ _ (wf_socks _ _ _ _ _ W _ _ Hh) b) as [_ (x & Hx & _)]; [apply elem_of_app; auto|]. rewrite C in Hx. congruence. }
    assert (Hc1' : h ∉ ({[c]} : gset nat)) by (rewrite elem_of_singleton; congruence).
    binds. apply (run_sonewconn {[c]} R u o1 h sh W1 Hh1 Oh Hc1' Nu1 Nc1 Hacc).
    + intros o2 W2 N2 V2. cbv beta iota. unfold abort_if. binds.
      destruct (N2 c sc _ _ (elem_of_singleton_2 _ _ eq_refl) Hc1 eq_refl Hj1) as [Hc2 _].
      apply (run_abort_alone ∅ R u o2 c sc); auto; [rewrite union_empty_l_L; exact W2|]. intros o3 W3 V3. cbv beta. step. split; [exact W3 | rewrite V3, V2; reflexivity].
    + intros o2 N2. cbv beta iota. destruct (nc_nurses _ _ _ _ _ _ _ _ _ N2 c sc _ _ (elem_of_singleton_2 _ _ eq_refl) Hc1 eq_refl Hj1) as [Hc2 Hj2].
      exact (run_syn_pair hashed c _ _ _ sc (S c) (S (S c)) o1 o2 N2 Hc2 eq_refl Hj2 eq_refl eq_refl eq_refl No eq_refl).
  - step. cbn [andb]. binds.
    apply (run_sonewconn ∅ R u o h sh W Hh Oh (not_elem_of_empty _) (nursed_none o) (fun b _ => not_elem_of_empty b) Hacc).
    + intros o' W' _ V'. cbv beta iota. unfold abort_if. step. step. split; assumption.
    + intros o' N'. cbv beta iota. exact (run_syn_single hashed _ _ _ o' N').
Qed.
End Syncache.

(** ** Accepting *)

(** What the user has after taking [a], and its peer, off a queue. *)
Definition takes (u : user) (a : nat) (s : socket) : user :=
  match so_passive_peer s with Some p => opening p (opening a u) | None => opening a u end.

(** A socket nothing refers to is given to the user. *)
Lemma wf_give Y R u o a s : wf Y ∅ R u o -> oS o !! a = Some s -> a ∈ Y -> (forall p, so_passive_peer s = Some p -> p ∈ Y) ->
  sohasrefs s = false -> so_head s = None -> (forall p, so_passive_peer s = Some p -> ~ at_ (oS o) p waiting) ->
  wf Y ∅ R (opening a u) (o <| oS := <[a := s <| so_count := 1 |>]> (oS o) |>).
Proof.
  intros W Ha HaY HpY Hr Hd Hw. destruct (sock_pcb _ _ _ _ _ W a s Ha) as (i & n & Hp & Hi & Es & Epr). destruct (no_refs s Hr) as (_ & _ & Hpr & _).
  pose proof (no_refs_owned _ _ _ _ _ _ (wf_socks _ _ _ _ _ W _ _ Ha) Hr) as No.
  assert (Ho : a ∈ opens (opening a u)) by (cbn; apply elem_of_union_l, elem_of_singleton_2; reflexivity). pose proof (opened _ _ Ho) as Ho'.
  rewrite <- (set_pair_sock a _ i n o Hi). apply (wf_pair Y Y R u (opening a u) o a i s _ n n); auto; try contradiction.
  - split; auto.
  - apply same_block_refl.
  - apply opening_user; [apply (wf_user _ _ _ _ _ W)|]. intros C. apply No, elem_of_union_r, C.
  - split; auto.
    + rewrite decide_True by exact Ho'. reflexivity.
    + intros p Ep C. destruct (Hw p Ep C).
    + contradiction.
    + congruence.
  - left. apply opening_owned.
  - intros p Ep C. destruct (C (HpY p Ep)).
Qed.

Section Accept.
Context (R : gset nat) (u : user) (o : shape) (h a : nat) (sh s : socket).
Context (W : wf ∅ ∅ R u o) (Hh : oS o !! h = Some sh) (Hq : a ∈ so_comp sh) (Ha : oS o !! a = Some s) (Hd : so_head s = Some h).
Let s1 := (off_queue s) <| so_count := 1 |>.
Let sh1 := without_comp a sh.

Lemma accept_left : wf (∅ ∪ pair_of a s) ∅ R u (o <| oS := <[a := off_queue s]> (<[h := sh1]> (oS o)) |>).
Proof.
  apply (wf_leave ∅ (∅ ∪ pair_of a s) R u o a h s sh _ W Ha Hh Hd); [|apply union_subseteq_l | apply union_subseteq_r].
  exact (left_comp _ _ _ _ a h sh (wf_socks _ _ _ _ _ W _ _ Hh) Hq).
Qed.

Lemma accept_taken : wf (∅ ∪ pair_of a s) ∅ R (opening a u) (o <| oS := <[a := s1]> (<[h := sh1]> (oS o)) |>).
Proof.
  pose proof accept_left as W1. assert (Hw : waiting s) by (unfold waiting; congruence). pose proof (queued_head_apart ∅ R u o a h s sh W Ha Hh Hd) as Nh.
  destruct (waiting_norefs ∅ R u o a s W Ha Hw) as (Hr & _ & Hp).
  set (o1 := o <| oS := <[a := off_queue s]> (<[h := sh1]> (oS o)) |>) in *.
  replace (o <| oS := _ |>) with (o1 <| oS := <[a := s1]> (oS o1) |>) by (unfold o1, update; cbn; f_equal; apply insert_insert_eq).
  apply (wf_give (∅ ∪ pair_of a s) R u o1 a (off_queue s) W1); auto.
  - exact (lookup_insert_eq _ _ _).
  - apply elem_of_union_r, pair_of_self.
  - cbn. intros p Ep. apply elem_of_union_r, pair_of_peer, Ep.
  - cbn. intros p Ep (x & Hx & C). destruct (s_peer _ _ _ _ _ _ (wf_socks _ _ _ _ _ W _ _ Ha) (not_elem_of_empty _) p Ep) as (Hpa & _ & (sp & Hsp & _)).
    unfold o1 in Hx. cbn in Hx. rewrite lookup_insert_ne, lookup_insert_ne in Hx; [|intros <-; apply Nh, pair_of_peer, Ep | congruence].
    assert (x = sp) as -> by congruence. destruct (Hp p sp Ep Hsp) as (D & _). exact (C D).
Qed.

(** Open sockets are whole again. *)
Lemma wf_opened P u' o' : wf (∅ ∪ P) ∅ R u' o' -> (forall b, b ∈ P -> (b ∈ opens u') /\ forall sb, oS o' !! b = Some sb -> so_head sb = None) -> wf ∅ ∅ R u' o'.
Proof.
  intros W' HP. apply (wf_settle ∅ P R u' o' W'). intros b sb Hb Hsb. destruct (HP b Hb) as [Ho Hhd]. split_and!.
  - intros C. destruct (C (Hhd sb Hsb)).
  - left. left. apply counted_hasrefs, (owned_count _ _ _ _ _ _ (wf_socks _ _ _ _ _ W' _ _ Hsb)), opened, Ho.
  - intros i n _ _. left. exact Ho.
Qed.

Lemma accept_alone : so_passive_peer s = None -> wf ∅ ∅ R (opening a u) (o <| oS := <[a := s1]> (<[h := sh1]> (oS o)) |>).
Proof.
  intros Ep. apply (wf_opened (pair_of a s) _ _ accept_taken). intros b. rewrite (pair_alone a s Ep), elem_of_singleton. intros ->. split.
  - cbn. apply elem_of_union_l, elem_of_singleton_2. reflexivity.
  - cbn. rewrite lookup_insert_eq. intros sb [= <-]. reflexivity.
Qed.

Lemma accept_pair p sp : so_passive_peer s = Some p -> oS o !! p = Some sp ->
  wf ∅ ∅ R (opening p (opening a u)) (o <| oS := <[p := sp <| so_count := 1 |>]> (<[a := s1]> (<[h := sh1]> (oS o))) |>).
Proof.
  intros Ep Hsp. pose proof accept_taken as W2. assert (Hw : waiting s) by (unfold waiting; congruence).
  pose proof (queued_head_apart ∅ R u o a h s sh W Ha Hh Hd) as Nh. destruct (waiting_norefs ∅ R u o a s W Ha Hw) as (_ & _ & Hp).
  destruct (s_peer _ _ _ _ _ _ (wf_socks _ _ _ _ _ W _ _ Ha) (not_elem_of_empty _) p Ep) as (Hpa & _ & (x & Hx & E & _)).
  assert (x = sp) as -> by congruence. destruct (Hp p sp Ep Hsp) as (P1 & P2 & P3).
  set (o2 := o <| oS := <[a := s1]> (<[h := sh1]> (oS o)) |>) in *.
  assert (Hp2 : oS o2 !! p = Some sp).
  { unfold o2. cbn. rewrite lookup_insert_ne, lookup_insert_ne; [exact Hsp | intros <-; apply Nh, pair_of_peer, Ep | congruence]. }
  change (wf ∅ ∅ R (opening p (opening a u)) (o2 <| oS := <[p := sp <| so_count := 1 |>]> (oS o2) |>)).
  apply (wf_opened (pair_of a s)).
  - apply (wf_give (∅ ∪ pair_of a s) R (opening a u) o2 p sp W2); auto.
    + apply elem_of_union_r, pair_of_peer, Ep.
    + intros q Eq. assert (q = a) as -> by congruence. apply elem_of_union_r, pair_of_self.
    + intros q Eq (y & Hy & C). assert (q = a) as -> by congruence. unfold o2 in Hy. cbn in Hy. rewrite lookup_insert_eq in Hy. injection Hy as <-. exact (C eq_refl).
  - intros b Hb. unfold pair_of in Hb. rewrite Ep in Hb. cbn in Hb. rewrite elem_of_union, !elem_of_singleton in Hb. split.
    + cbn. rewrite !elem_of_union, !elem_of_singleton. tauto.
    + cbn. intros sb Hsb. destruct Hb as [-> | ->].
      * rewrite lookup_insert_ne, lookup_insert_eq in Hsb by congruence. injection Hsb as <-. reflexivity.
      * rewrite lookup_insert_eq in Hsb. injection Hsb as <-. exact P1.
Qed.
End Accept.

(** The user's, once [accept_take] has answered: the shape of the socket it took is the one it had on the queue. *)
Definition accepts (u : user) (o : shape) (r : option nat) : user :=
  match r with
  | Some a => match oS o !! a with Some s => takes u a s | None => u end
  | None => u
  end.

Lemma run_accept_take R u o h : wf ∅ ∅ R u o -> h ∈ opens u -> run (accept_take h) o (fun r o' => fine R (accepts u o r) o o').
Proof.
  intros W Oh. destruct (proj1 (proj2 (wf_user _ _ _ _ _ W)) h (opened u h Oh)) as [sh Hh]. unfold accept_take. step.
  destruct (ss_nbio so && _); [step; exact (fine_here R u o W)|]. destruct (negb (so_error so =? 0)); [step; step; exact (fine_here R u o W)|]. fields.
  destruct (so_comp sh) as [|a l] eqn:Eq; [step; exact (fine_here R u o W)|]. assert (Ha : a ∈ so_comp sh) by (rewrite Eq; left).
  destruct (member_comp R u o h sh a W Hh Ha) as (s & Hs & Hd & Q1 & Q2 & Eoff). pose proof (leave_ne ∅ R u o a h s sh W Hs Hh Hd) as Hne.
  assert (Hw : waiting s) by (unfold waiting; congruence). destruct (s_waiting _ _ _ _ _ _ (wf_socks _ _ _ _ _ W _ _ Hs) Hw) as [Hpr No].
  assert (Ec : so_count s = 0) by (rewrite (s_count _ _ _ _ _ _ (wf_socks _ _ _ _ _ W _ _ Hs)), decide_False by exact No; reflexivity).
  step. step; [rewrite Q1; reflexivity|]. step; [exact Q2|]. step. binds. eapply run_leave_comp; [look | exact Ha |]. cbv beta. binds.
  set (s1 := (off_queue s) <| so_count := 1 |>). eapply run_set_so with (s' := s1); [look | |].
  { intros x Ex. change (sshape (x <| ss_nbio := ss_nbio x || ss_nbio so |> <| sq_comp := false |> <| so_head := None |>))
      with ((sshape x) <| sq_comp := false |> <| so_head := None |>). rewrite Ex. unfold s1. rewrite <- Eoff, Ec. reflexivity. }
  cbv beta. shp. rewrite insert_shadow by exact Hne. binds. fields.
  apply run_when; intros Ep.
  - destruct (so_passive_peer s) as [p|] eqn:Epp; [|apply (s_passive _ _ _ _ _ _ (wf_socks _ _ _ _ _ W _ _ Hs) Hw) in Ep; congruence].
    destruct (s_peer _ _ _ _ _ _ (wf_socks _ _ _ _ _ W _ _ Hs) (not_elem_of_empty _) p Epp) as (Hpa & _ & (sp & Hsp & E & D)).
    destruct (D Hw) as (D1 & D2 & D3). pose proof (queued_head_apart ∅ R u o a h s sh W Hs Hh Hd) as Nh.
    assert (Hph : p <> h) by (intros ->; apply Nh, pair_of_peer, Epp).
    assert (Ecp : so_count sp = 0) by (rewrite (s_count _ _ _ _ _ _ (wf_socks _ _ _ _ _ W _ _ Hsp)), decide_False by exact D3; reflexivity).
    step. eapply run_set_so with (s' := sp <| so_count := 1 |>); [shp; rewrite !lookup_insert_ne by congruence; exact Hsp | |].
    { intros x Ex. change (sshape (x <| so_count := so_count x + 1 |> <| ss_nbio := ss_nbio x || ss_nbio so |>)) with ((sshape x) <| so_count := so_count (sshape x) + 1 |>).
      rewrite Ex, Ecp. reflexivity. }
    step. split; [|reflexivity]. unfold accepts, takes. rewrite Hs, Epp. exact (accept_pair R u o h a sh s W Hh Ha Hs Hd p sp Epp Hsp).
  - assert (Epp : so_passive_peer s = None).
    { destruct (so_passive_peer s) eqn:E; [|reflexivity]. destruct (s_passive _ _ _ _ _ _ (wf_socks _ _ _ _ _ W _ _ Hs) Hw) as [_ C]. rewrite E in C. rewrite C in Ep; congruence. }
    step. split; [|reflexivity]. unfold accepts, takes. rewrite Hs, Epp. exact (accept_alone R u o h a sh s W Hh Ha Hs Hd Epp).
Qed.

(** The user's descriptor. *)
Lemma run_soaccept R u o a : wf ∅ ∅ R u o -> a ∈ opens u -> (oV o = true -> forall s, oS o !! a = Some s -> ss_nofdref s = true) ->
  run (soaccept a) o (fun _ => fine R u o).
Proof.
  intros W Ho Hv. destruct (open_conn R u o a W Ho) as (s & i & n & Ha & Hp & Hi & Hr & Es). pose proof (wf_socks _ _ _ _ _ W _ _ Ha) as K.
  pose proof (opened u a Ho) as Ho'. pose proof (owned_count _ _ _ _ _ _ K Ho') as Ec. destruct (sock_facts ∅ R u o a s i n W Ha Hp Hi) as (F1 & F2 & F3 & F4).
  destruct (sock_pcb _ _ _ _ _ W a s Ha) as (j & m & E1 & E2 & _ & Epr). assert (m = n) as -> by congruence.
  assert (W1 : wf ∅ ∅ R u (set_pair a (s <| ss_nofdref := false |>) i n o)).
  { assert (Hld : held (s <| ss_nofdref := false |>)) by (left; apply counted_hasrefs, Ec).
    apply (wf_pair ∅ ∅ R u u o a i s _ n n); auto; try (split; auto; fail).
    - apply same_user_refl, (wf_user _ _ _ _ _ W).
    - split; auto; try apply K. congruence.
    - intros _. left. exact Hld. }
  rewrite set_pair_sock in W1 by exact Hi. unfold soaccept. step. apply run_bind, run_KASSERT; [intros V; fields; exact (Hv V s Ha)|]. step.
  unfold tcp_usr_accept. step. destruct (ss_isdisconnected so0); [step; split; [exact W1 | reflexivity]|].
  binds. apply (run_pcb_of a (s <| ss_nofdref := false |>) i n); [look | exact Hp | exact Hi |]. intros inp Einp. cbv beta iota.
  destruct (gone_or_waiting inp); step; (split; [exact W1 | reflexivity]).
Qed.

(** ** Converting a passive pair *)

Lemma wf_flagged R u o a s b : wf ∅ ∅ R u o -> oS o !! a = Some s -> ~ waiting s -> wf ∅ ∅ R u (o <| oS := <[a := s <| so_passive := b |>]> (oS o) |>).
Proof.
  intros W Ha Hw. pose proof (wf_socks _ _ _ _ _ W _ _ Ha) as K. destruct (sock_pcb _ _ _ _ _ W a s Ha) as (i & n & Hp & Hi & Es & Epr).
  destruct (sock_facts ∅ R u o a s i n W Ha Hp Hi) as (F1 & F2 & F3 & F4). pose proof (wf_inps _ _ _ _ _ W _ _ Hi) as N.
  rewrite <- (set_pair_sock a _ i n o Hi). apply (wf_pair ∅ ∅ R u u o a i s _ n n); auto; try (split; auto; fail).
  - split; auto. contradiction.
  - apply same_user_refl, (wf_user _ _ _ _ _ W).
  - split; auto; try apply K.
    + intros Tw Ed. destruct (n_tcb _ _ _ _ N (proj1 (n_sock _ _ _ _ N a Es)) Tw) as (_ & t & l & G1 & G2 & G3). destruct l; [left; auto | right].
      split; [exact Ed|]. intros t' x E1 E2. assert (t' = t) as -> by congruence. assert (x = (Some i, false)) as -> by congruence. reflexivity.
    + intros Er. destruct (n_sockref _ _ _ _ N Er) as (G1 & c & G2 & G3). split; [exact G1 | congruence].
Qed.

Lemma run_set_active a s o (Q : unit -> shape -> Prop) : oS o !! a = Some s -> Q tt (o <| oS := <[a := s <| so_passive := false |>]> (oS o) |>) ->
  run (set_so a (fun so => so <| so_passive := false |> <| so_passiveclnt := false |>)) o Q.
Proof.
  intros Ha HQ. eapply run_set_so; [exact Ha | | exact HQ]. intros x Ex.
  change (sshape (x <| so_passive := false |> <| so_passiveclnt := false |>)) with ((sshape x) <| so_passive := false |>). rewrite Ex. reflexivity.
Qed.

(** SO_PASSIVE of a socket that is open. *)
Lemma run_set_passive R u o a optval : wf ∅ ∅ R u o -> a ∈ opens u -> run (so_set_passive a optval) o (fun _ => fine R u o).
Proof.
  intros W Ho. destruct (open_conn R u o a W Ho) as (s & i & n & Ha & Hp & Hi & _). pose proof (opened u a Ho) as Oa.
  assert (Hw : ~ waiting s) by (intros C; destruct (s_waiting _ _ _ _ _ _ (wf_socks _ _ _ _ _ W _ _ Ha) C); contradiction).
  pose proof (wf_flagged R u o a s optval W Ha Hw) as W1. unfold so_set_passive. step. binds.
  eapply run_pcb_of; [exact (lookup_insert_eq _ _ _) | exact Hp | exact Hi |]. intros x Ex. cbv beta. step. split; [exact W1 | reflexivity].
Qed.

Section Convert.
Context (R : gset nat) (u : user) (o : shape) (a i t : nat) (s : socket) (n : inpcb) (l : bool).
Context (W : wf ∅ ∅ R u o) (C : conn o a i t s n l) (Ho : a ∈ opens u) (Hr : inp_sockref n = false) (Ed : inp_dropped n = false).

Lemma conn_alive : ~ over n.
Proof. intros [D|D]; [congruence|]. rewrite (c_tw _ _ _ _ _ _ _ C) in D. discriminate. Qed.

(** The connection is the same after an operation that leaves its PCB alone. *)
Lemma conn_again o' : wf ∅ ∅ R u o' -> oI o' !! i = Some n -> exists s' l', conn o' a i t s' n l'.
Proof.
  intros W' Hi'. destruct (n_sock _ _ _ _ (wf_inps _ _ _ _ _ W' _ _ Hi') a (c_back _ _ _ _ _ _ _ C)) as (_ & (s1 & Hs1 & Hp1)).
  destruct (conn_of_inp _ _ _ _ _ W' a i s1 n Hs1 Hp1 Hi' (c_tw _ _ _ _ _ _ _ C)) as (t2 & l1 & C').
  assert (t2 = t) as -> by (destruct C, C'; congruence). eauto.
Qed.

Lemma run_convert p sp j m tp lp : so_passive_peer s = Some p -> conn o p j tp sp m lp ->
  run (in_passive_convert_to_active a) o (fun _ o' => fine R u o o' /\ oI o' !! i = Some n).
Proof.
  intros Ep Cp. pose proof C as [C1 C2 C3 C4 C5 C6 C7 C8]. pose proof Cp as [P1 P2 P3 P4 P5 P6 P7 P8].
  destruct (s_peer _ _ _ _ _ _ (wf_socks _ _ _ _ _ W _ _ C1) (not_elem_of_empty _) p Ep) as (Hpa & _ & (x & Hx & Epp & _)).
  assert (x = sp) as -> by congruence. assert (Hji : j <> i) by congruence.
  assert (Hw : ~ waiting s) by (intros D; destruct (s_waiting _ _ _ _ _ _ (wf_socks _ _ _ _ _ W _ _ C1) D) as [_ D']; exact (D' (opened u a Ho))).
  assert (Hwp : ~ waiting sp).
  { intros D. destruct (s_peer _ _ _ _ _ _ (wf_socks _ _ _ _ _ W _ _ P1) (not_elem_of_empty _) a Epp) as (_ & _ & (y & Hy & _ & E)).
    assert (y = s) as -> by congruence. destruct (E D) as (_ & _ & E'). exact (E' (opened u a Ho)). }
  unfold in_passive_convert_to_active, intotcpcb. step. fields. rewrite Ep. step. step. fields. rewrite C2. step. rewrite P2. step. step. step.
  fields. rewrite C5. step. rewrite P5. step. step. step.
  binds. eapply run_set_active; [exact C1|]. cbv beta. binds. eapply run_set_active; [look|]. cbv beta. step. step.
  pose proof (wf_flagged R u o a s false W C1 Hw) as W1. set (o1 := o <| oS := <[a := s <| so_passive := false |>]> (oS o) |>) in *.
  assert (Hp1 : oS o1 !! p = Some sp) by (unfold o1; cbn; rewrite lookup_insert_ne by congruence; exact P1).
  pose proof (wf_flagged R u o1 p sp false W1 Hp1 Hwp) as W2. set (o2 := o1 <| oS := <[p := sp <| so_passive := false |>]> (oS o1) |>) in *.
  lazymatch goal with |- run ?m _ ?Q => change (run m o2 Q) end.
  binds. eapply run_get_tp; [exact P6|]. intros tpeer Etp. cbv beta. binds. eapply run_keep_tp; [exact C6 | reflexivity |]. cbv beta.
  binds. eapply run_get_tp; [exact C6|]. intros tpa Etpa. cbv beta. binds. eapply run_keep_tp; [exact P6 | reflexivity |]. cbv beta. binds.
  eapply run_mono; [exact (run_drop_others R u o2 tp j lp ECONNABORTED W2 P6)|]. intros r o3 [[F1 F2] F3]. cbv beta. step.
  split; [split; [exact F1 | exact F2]|]. apply F3; [congruence | exact C3 | exact conn_alive].
Qed.

Definition same_conn (o' : shape) : Prop := wf ∅ ∅ R u o' /\ (exists l', conn o' a i t s n l') /\ oV o' = oV o.

Lemma run_connect_same setup : run (tcp_connect t setup) o (fun _ => same_conn).
Proof.
  pose proof C as [C1 C2 C3 C4 C5 C6 C7 C8]. unfold tcp_connect. step. fields. cbn [fst]. step. step. fields. rewrite C4. step.
  destruct setup as [e|]; [step; split_and!; eauto|]. step. binds. eapply run_set_state; [exact C6|]. cbv beta. step. split_and!; [| |reflexivity].
  - apply (wf_state ∅ R u o a i t s n l W C). discriminate.
  - exists (TCPS_SYN_SENT =? TCPS_LISTEN). exact (conn_state o a i t s n l C _).
Qed.

(** What follows the conversion. *)
Lemma run_send_tail (oob eof : bool) (nam : option (option Z)) :
  run (t ← deref (Some t); tp ← get_tp t;
       error ← match nam with
               | Some setup => if t_state tp <? TCPS_SYN_SENT then tcp_connect t setup else mret 0
               | None => mret 0
               end;
       if negb (error =? 0) then mret error
       else if oob then get_tp t;; mret 0
       else when eof (tcp_usrclosed t);; output_unless_dropped i t;; mret 0) o (fun _ => fine R u o).
Proof.
  assert (Same : same_conn o) by (split_and!; eauto). step. binds. eapply run_get_tp; [apply C|]. intros tp Etp. cbv beta. binds.
  apply (run_mono _ _ (fun _ => same_conn)).
  - destruct nam as [setup|]; [|step; exact Same]. destruct (_ <? _); [apply run_connect_same | step; exact Same].
  - intros error o1 (W1 & (l1 & C') & V1). destruct (negb (error =? 0)); [step; split; assumption|]. destruct oob.
    + binds. eapply run_get_tp; [apply C'|]. intros tp1 _. cbv beta. step. split; assumption.
    + binds. apply run_when; intros _.
      * apply (run_usrclosed ∅ R u o1 a i t s n l1 W1 C' Hr). intros o2 n2 K. binds. apply (run_output ∅ R u o1 a i t s n l1 C' o2 n2 _ K).
        cbv beta. step. split; [apply K | rewrite (k_inv _ _ _ _ _ _ _ _ _ K); exact V1].
      * binds. unfold output_unless_dropped. binds. eapply run_get_inp; [apply C'|]. intros inp Einp. cbv beta. apply run_when; intros _.
        -- binds. eapply run_get_tp; [apply C'|]. intros tp1 _. cbv beta. step. step. split; assumption.
        -- step. split; assumption.
Qed.
End Convert.

(** A passive connection needs its peer's control block to be converted. *)
Definition can_convert (o : shape) (s : socket) : Prop :=
  exists p, so_passive_peer s = Some p /\ at_ (oS o) p (fun sp => exists j, so_pcb sp = Some j /\ at_ (oI o) j (fun m => inp_timewait m = false)).

Lemma send_safe R u w a control oob full eof nam : wf ∅ ∅ R u (shape_of w) -> a ∈ opens u ->
  (forall so i inp, socks w !! a = Some so -> so_pcb so = Some i -> inps w !! i = Some inp -> inp_passive inp = true -> gone_or_waiting inp = false ->
    can_convert (shape_of w) (sshape so)) ->
  match tcp_usr_send a control oob full eof nam w with Some (_, w') => fine R u (shape_of w) (shape_of w') | None => False end.
Proof.
  intros W Ho Hg. set (o := shape_of w) in *. destruct (open_conn R u o a W Ho) as (s & i & n & Ha & Hp & Hi & Hr & Es).
  pose proof Ha as Hso. unfold o, shape_of in Hso. cbn in Hso. apply lookup_fmap_Some in Hso as (so & Eso & Hso).
  pose proof Hi as Hinp. unfold o, shape_of in Hinp. cbn in Hinp. apply lookup_fmap_Some in Hinp as (inp & Einp & Hinp).
  assert (Hpo : so_pcb so = Some i) by (rewrite <- Eso in Hp; exact Hp). specialize (Hg so i inp Hso Hpo Hinp).
  assert (Go : run ((if gone_or_waiting inp then mret ECONNRESET
    else t ← intotcpcb inp; if control then mret EINVAL else when (inp_passive inp) (in_passive_convert_to_active a);; if oob && full then mret ENOBUFS else
       t ← deref t; tp ← get_tp t;
       error ← match nam with
               | Some setup => if t_state tp <? TCPS_SYN_SENT then tcp_connect t setup else mret 0
               | None => mret 0
               end;
       if negb (error =? 0) then mret error
       else if oob then get_tp t;; mret 0
       else when eof (tcp_usrclosed t);; output_unless_dropped i t;; mret 0) : M Z) o (fun _ => fine R u o)).
  { destruct (gone_or_waiting inp) eqn:Eg; [apply (run_ret ECONNRESET); exact (fine_here R u o W)|].
    unfold gone_or_waiting in Eg. apply orb_false_iff in Eg as [Tw Ed].
    assert (Tw' : inp_timewait n = false) by (rewrite <- Einp; exact Tw). assert (Ed' : inp_dropped n = false) by (rewrite <- Einp; exact Ed).
    destruct (conn_of_inp _ _ _ _ _ W a i s n Ha Hp Hi Tw') as (t & l & C).
    change (run (t ← intotcpcb inp; if control then mret EINVAL else when (inp_passive inp) (in_passive_convert_to_active a);; if oob && full then mret ENOBUFS else
       t ← deref t; tp ← get_tp t;
       error ← match nam with
               | Some setup => if t_state tp <? TCPS_SYN_SENT then tcp_connect t setup else mret 0
               | None => mret 0
               end;
       if negb (error =? 0) then mret error
       else if oob then get_tp t;; mret 0
       else when eof (tcp_usrclosed t);; output_unless_dropped i t;; mret 0) o (fun _ => fine R u o)).
    unfold intotcpcb. fields. rewrite (c_ppcb _ _ _ _ _ _ _ C). step. destruct control; [step; exact (fine_here R u o W)|]. binds.
    apply run_when; intros Ep.
    2: { destruct (oob && full); [step; exact (fine_here R u o W) | exact (run_send_tail R u o a i t s n l W C Hr oob eof nam)]. }
    destruct (Hg Ep eq_refl) as (p & Epp & (sp & Hsp & j & Hj & (m & Hm & Twp))). rewrite Eso in Epp.
    destruct (conn_of_inp _ _ _ _ _ W p j sp m Hsp Hj Hm Twp) as (tp & lp & Cp).
    eapply run_mono; [exact (run_convert R u o a i t s n l W C Ho Ed' p sp j m tp lp Epp Cp)|]. intros r o1 [[W1 V1] Hi1].
    destruct (conn_again R u o a i t s n l C o1 W1 Hi1) as (s1 & l1 & C1).
    destruct (oob && full); [step; split; assumption|].
    eapply run_mono; [exact (run_send_tail R u o1 a i t s1 n l1 W1 C1 Hr oob eof nam)|]. intros r2 o2 [W2 V2]. split; [exact W2 | congruence]. }
  specialize (Go w eq_refl). unfold tcp_usr_send, pcb_of, get_so, get_inp, mbind, M_bind, KASSERT. rewrite Hso. cbn [is_null negb]. rewrite Hpo. cbn [is_null negb].
  rewrite andb_false_r. cbn [deref]. unfold mret, M_ret. rewrite Hinp. exact Go.
Qed.
End LifeConn.
