(* ===== verification/SockLifeSafe.v ===== *)
(** * Any interleaving keeps ownership

    The sections of [SockLife] that threads run under the locks, as the events of
    a machine: system calls of the application, segments and timers that find a
    connection, the SYN cache, the 2MSL queue.  Whatever events come in whatever
    order, nothing is used after it is freed and nothing is lost. *)

From stdpp Require Import gmap.
From S2P Require Import Prelude TcpSeq SockLife SockLifeInv SockLifeOps SockLifeNew SockLifeConn.

Module LifeSafe.

Import SockLife.Life SockLifeInv.LifeInv SockLifeOps.LifeOps SockLifeNew.LifeNew SockLifeConn.LifeConn.

(** ** Events *)

(** What a segment or a timer does to the connection it found. *)
Inductive action :=
  | Established
  | State (st : Z)
  | Drop (errno : nat)
  | Close
  | Time_wait (in_localip : bool).

Inductive event :=
  | Socket
  | Set_passive (a : nat) (optval : bool)
  | Listen (a : nat) (backlog : Z) (bind : option Z)
  | Connect (a : nat) (setup : option Z)
  | Send (a : nat) (control oob full eof : bool) (nam : option (option Z))
  | Shutdown (a : nat)
  | Disconnect (a : nat)
  | Accept_take (h : nat)
  | Accept (a : nat)
  | Close_disconnect (a : nat)
  | Close_protocol (a : nat)
  | Close_incomp (a : nat)
  | Close_comp (a : nat)
  | Close_release (a : nat)
  | Newconn (h : nat) (client_hashed hashed : bool)
  | On_connection (i : nat) (x : action)
  | On_time_wait (i : nat) (th_seq th_ack th_flags tlen : Z)
  | Tick (ms : Z)
  | Slowtimo
  | Tw_destroy
  | Ref (i : nat)
  | Rele (i : nat).

(** The socket of a connection. *)
Definition socket_of (t : nat) : M nat :=
  tp ← get_tp t; i ← deref (t_inpcb tp); inp ← get_inp i; deref (inp_socket inp).

Definition act (t : nat) (x : action) : M unit :=
  match x with
  | Established => a ← socket_of t; soisconnected a
  | State st => set_tp t (set_state st)
  | Drop errno => tcp_drop t errno;; mret tt
  | Close => tcp_close t;; mret tt
  | Time_wait in_localip => tcp_twstart t in_localip
  end.

(** The PCB was found, locked, and is looked at before its control block is used.  One that was found may have been
    given up before it was locked: then it has no control block. *)
Definition on_connection (i : nat) (x : action) : M unit :=
  inp ← get_inp i;
  if gone_or_waiting inp then mret tt
  else
    t ← intotcpcb inp;
    match t with Some t => act t x | None => mret tt end.

Definition on_time_wait (i : nat) (th_seq th_ack th_flags tlen : Z) : M bool :=
  inp ← get_inp i;
  if inp_timewait inp then tcp_twcheck i th_seq th_ack th_flags tlen else mret false.

(** The SYN cache completes a handshake for the listening socket; [INC_PASSIVE] is the flag of its PCB. *)
Definition newconn_for (h : nat) (client_hashed hashed : bool) : M (option nat) :=
  '(i, inp) ← pcb_of h;
  syncache_socket h (inp_passive inp) client_hashed hashed.

(** The sockets the application has afterwards. *)
Definition perform (e : event) (u : user) : M user :=
  match e with
  | Socket => r ← socreate; mret (match r with Some a => opening a u | None => u end)
  | Set_passive a optval => so_set_passive a optval;; mret u
  | Listen a backlog bind => tcp_usr_listen a backlog bind;; mret u
  | Connect a setup => tcp_usr_connect a setup;; mret u
  | Send a control oob full eof nam => tcp_usr_send a control oob full eof nam;; mret u
  | Shutdown a => tcp_usr_shutdown a;; mret u
  | Disconnect a => sodisconnect a;; mret u
  | Accept_take h => w ← get; r ← accept_take h; mret (accepts u (shape_of w) r)
  | Accept a => soaccept a;; mret u
  | Close_disconnect a => soclose_disconnect a;; mret u
  | Close_protocol a => tcp_usr_close a;; mret (closes u a)
  | Close_incomp a => soclose_incomp a;; mret u
  | Close_comp a => soclose_comp a;; mret u
  | Close_release a => soclose_rele a;; mret (lets_go u a)
  | Newconn h client_hashed hashed => newconn_for h client_hashed hashed;; mret u
  | On_connection i x => on_connection i x;; mret u
  | On_time_wait i th_seq th_ack th_flags tlen => on_time_wait i th_seq th_ack th_flags tlen;; mret u
  | Tick ms => modify (fun w => w <| ticks := s32 (ticks w + 1) |> <| ts_ticks := ms |>);; mret u
  | Slowtimo => run_scan false;; mret u
  | Tw_destroy => tcp_tw_destroy;; mret u
  | Ref i => in_pcbref i;; mret (pin i u)
  | Rele i => in_pcbrele_wlocked i;; mret (unpin i u)
  end.

(** ** What callers see to *)

Definition sock_test (w : world) (a : nat) (P : socket -> bool) : bool := match socks w !! a with Some so => P so | None => false end.
Definition inp_test (w : world) (i : nat) (P : inpcb -> bool) : bool := match inps w !! i with Some inp => P inp | None => false end.

(** [tcp_input] gives a segment to the SYN cache for a PCB it found, so one that was not dropped, of a socket that
    accepts connections. *)
Definition listens (w : world) (h : nat) : bool :=
  sock_test w h (fun so => so_acceptconn so &&
    match so_pcb so with
    | Some i => inp_test w i (fun inp => negb (inp_dropped inp) &&
        match inp_ppcb inp with Some (Tcpcb t) => from_option (fun tp => t_state tp =? TCPS_LISTEN) false (tcbs w !! t) | _ => false end)
    | None => false
    end).

(** Writing to a passive connection converts it, for which the other end must not be in TIME_WAIT. *)
Definition writable (w : world) (a : nat) : bool :=
  sock_test w a (fun so =>
    match so_pcb so with
    | Some i => inp_test w i (fun inp => negb (inp_passive inp) || gone_or_waiting inp ||
        match so_passive_peer so with
        | Some p => sock_test w p (fun peer => match so_pcb peer with Some j => inp_test w j (fun inp => negb (inp_timewait inp)) | None => false end)
        | None => false
        end)
    | None => false
    end).

(** A system call is made on a socket that is open, [soclose] takes its steps in order, an assertion on SS_NOFDREF is
    met by the calls of the application, a PCB that is used was found or is held, and counters do not run over. *)
Definition permitted (e : event) (u : user) (w : world) : bool :=
  match e with
  | Socket | Tick _ | Slowtimo | Tw_destroy => true
  | Set_passive a _ | Listen a _ _ | Connect a _ | Shutdown a | Disconnect a | Accept_take a | Close_protocol a => bool_decide (a ∈ opens u)
  | Send a _ _ _ _ _ => bool_decide (a ∈ opens u) && writable w a
  | Accept a => bool_decide (a ∈ opens u) && (negb (INVARIANTS w) || sock_test w a ss_nofdref)
  | Close_disconnect a => bool_decide (a ∈ opens u) && (negb (INVARIANTS w) || sock_test w a (fun so => negb (ss_nofdref so)))
  | Close_incomp a | Close_comp a => bool_decide (a ∈ closing u)
  | Close_release a => bool_decide (a ∈ closing u) &&
      sock_test w a (fun so => bool_decide (so_incomp so ++ so_comp so = []) && (negb (INVARIANTS w) || negb (ss_nofdref so)))
  | Newconn h _ _ => listens w h
  | On_connection i (State st) => inp_test w i (fun _ => negb (st =? TCPS_LISTEN))
  | On_connection i _ | On_time_wait i _ _ _ _ => inp_test w i (fun _ => true)
  | Ref i => inp_test w i (fun inp => inp_refcount inp + 1 <? 2 ^ 32)
  | Rele i => bool_decide (i ∈ pins u)
  end.

(** Events that no caller may issue do not happen. *)
Fixpoint play (es : list event) (u : user) : M user :=
  match es with
  | [] => mret u
  | e :: es => w ← get; u ← (if permitted e u w then perform e u else mret u); play es u
  end.

(** ** Every event is safe *)

Lemma safe_of_run {A} (m : M A) (f : A -> user) w o :
  shape_of w = o -> run m o (fun x => fine ∅ (f x) o) ->
  match (x ← m; mret (f x)) w with Some (u', w') => wf ∅ ∅ ∅ u' (shape_of w') | None => False end.
Proof.
  intros E H. specialize (H w E). unfold mbind, M_bind. destruct (m w) as [[x w']|]; [exact (proj1 H) | exact H].
Qed.

Section Event.
Context (u : user) (w : world) (W : wf ∅ ∅ ∅ u (shape_of w)).

Lemma sock_shape a so : socks w !! a = Some so -> oS (shape_of w) !! a = Some (sshape so).
Proof. intros H. cbn. rewrite lookup_fmap, H. reflexivity. Qed.
Lemma inp_shape i inp : inps w !! i = Some inp -> oI (shape_of w) !! i = Some (ishape inp).
Proof. intros H. cbn. rewrite lookup_fmap, H. reflexivity. Qed.
Lemma tcb_shape t tp : tcbs w !! t = Some tp -> oT (shape_of w) !! t = Some (tshape tp).
Proof. intros H. cbn. rewrite lookup_fmap, H. reflexivity. Qed.

Lemma sock_tested a P : sock_test w a P = true -> exists so, socks w !! a = Some so /\ P so = true.
Proof. unfold sock_test. destruct (socks w !! a) as [so|]; [eauto | discriminate]. Qed.
Lemma inp_tested i P : inp_test w i P = true -> exists inp, inps w !! i = Some inp /\ P inp = true.
Proof. unfold inp_test. destruct (inps w !! i) as [inp|]; [eauto | discriminate]. Qed.

(** A socket that listens is one the application has open. *)
Lemma listens_open h : listens w h = true -> exists sh, oS (shape_of w) !! h = Some sh /\ (h ∈ opens u) /\ so_acceptconn sh = true.
Proof.
  intros H. apply sock_tested in H as (so & Hs & H). apply andb_true_iff in H as [Ha H].
  destruct (so_pcb so) as [i|] eqn:Ep; [|discriminate]. apply inp_tested in H as (inp & Hi & H). apply andb_true_iff in H as [Hd H].
  destruct (inp_ppcb inp) as [[t|t]|] eqn:Et; try discriminate. destruct (tcbs w !! t) as [tp|] eqn:Ht; [|discriminate]. cbn in H.
  pose proof (sock_shape _ _ Hs) as Hs'. pose proof (inp_shape _ _ Hi) as Hi'. pose proof (tcb_shape _ _ Ht) as Ht'.
  exists (sshape so). split_and!; [exact Hs' | | exact Ha].
  destruct (sock_pcb _ _ _ _ _ W _ _ Hs') as (i' & n & E1 & E2 & E3 & _). cbn [sshape so_pcb] in E1.
  assert (i' = i) as -> by congruence. assert (n = ishape inp) as -> by congruence.
  pose proof (wf_inps _ _ _ _ _ W _ _ Hi') as N. destruct (inp_ok_tcpcb _ _ _ _ t N Et) as (El & Tw & _).
  destruct (n_tcb _ _ _ _ N El Tw) as (_ & t' & l & G1 & G2 & G3). assert (t' = t) as -> by (cbn in G1; congruence).
  apply (G3 ltac:(unfold tshape in Ht'; congruence)); [|exact E3]. apply negb_true_iff in Hd. exact Hd.
Qed.

Lemma writable_converts a : writable w a = true ->
  forall so i inp, socks w !! a = Some so -> so_pcb so = Some i -> inps w !! i = Some inp -> inp_passive inp = true -> gone_or_waiting inp = false ->
  can_convert (shape_of w) (sshape so).
Proof.
  intros H so i inp Hs Hp Hi Ep Eg. apply sock_tested in H as (so' & Hs' & H). assert (so' = so) as -> by congruence. rewrite Hp in H.
  apply inp_tested in H as (inp' & Hi' & H). assert (inp' = inp) as -> by congruence. rewrite Ep, Eg in H. cbn in H.
  destruct (so_passive_peer so) as [p|] eqn:Epp; [|discriminate]. apply sock_tested in H as (peer & Hpe & H).
  destruct (so_pcb peer) as [j|] eqn:Ej; [|discriminate]. apply inp_tested in H as (m & Hm & H). apply negb_true_iff in H.
  exists p. split; [exact Epp|]. exists (sshape peer). split; [exact (sock_shape _ _ Hpe)|]. exists j. split; [exact Ej|].
  exists (ishape m). split; [exact (inp_shape _ _ Hm) | exact H].
Qed.
End Event.
(** A connection that was found. *)
Lemma run_act u o a i t s n l x : wf ∅ ∅ ∅ u o -> conn o a i t s n l -> inp_dropped n = false ->
  match x with State st => (st =? TCPS_LISTEN) = false | _ => True end -> run (act t x) o (fun _ => fine ∅ u o).
Proof.
  intros W C Ed Hx. pose proof (c_tcb _ _ _ _ _ _ _ C) as Ht. destruct x as [|st|errno| |in_localip]; cbn [act].
  - pose proof C as [C1 C2 C3 C4 C5 C6 C7 C8]. unfold socket_of. step. fields. cbn [fst]. step. step. fields. rewrite C4. step.
    exact (run_soisconnected ∅ u o a s W C1).
  - exact (run_new_state ∅ u o t _ st W Ht Hx).
  - binds. eapply run_mono; [exact (run_drop ∅ u o t _ errno W Ht)|]. intros r o' F. cbv beta. step. exact F.
  - binds. eapply run_mono; [exact (run_close ∅ u o t _ W Ht)|]. intros r o' F. cbv beta. step. exact F.
  - apply (run_twstart u o t _ in_localip W Ht). intros j m Ej Hm. cbn in Ej. assert (j = i) as -> by congruence.
    pose proof (c_inp _ _ _ _ _ _ _ C). congruence.
Qed.

Lemma run_on_connection u o i n x : wf ∅ ∅ ∅ u o -> oI o !! i = Some n ->
  match x with State st => (st =? TCPS_LISTEN) = false | _ => True end -> run (on_connection i x) o (fun _ => fine ∅ u o).
Proof.
  intros W Hi Hx. unfold on_connection. step. unfold gone_or_waiting. fields.
  destruct (inp_timewait n) eqn:Tw; cbn [orb]; [step; exact (fine_here ∅ u o W)|]. destruct (inp_dropped n) eqn:Ed; [step; exact (fine_here ∅ u o W)|].
  pose proof (wf_inps _ _ _ _ _ W _ _ Hi) as N. destruct (inp_listed n) eqn:El.
  - destruct (n_tcb _ _ _ _ N El Tw) as (_ & t & l & G1 & G2 & _). destruct (conn_of_tcb _ _ _ _ _ W t _ G2) as (a & i' & s & m & l' & E & C).
    assert (i' = i) as -> by congruence. assert (m = n) as -> by (pose proof (c_inp _ _ _ _ _ _ _ C); congruence).
    unfold intotcpcb. fields. rewrite G1. step. cbv beta iota. exact (run_act u o a i t s n l' x W C Ed Hx).
  - destruct (n_unlisted _ _ _ _ N El) as [_ E]. unfold intotcpcb. fields. rewrite E. step. cbv beta iota. step. exact (fine_here ∅ u o W).
Qed.

Lemma run_on_time_wait u o i n th_seq th_ack th_flags tlen : wf ∅ ∅ ∅ u o -> oI o !! i = Some n ->
  run (on_time_wait i th_seq th_ack th_flags tlen) o (fun _ => fine ∅ u o).
Proof.
  intros W Hi. unfold on_time_wait. step. fields. destruct (inp_timewait n) eqn:Tw; [exact (run_twcheck u o i n _ _ _ _ W Hi Tw)|].
  step. exact (fine_here ∅ u o W).
Qed.
Lemma run_newconn_for u o h sh client_hashed hashed : wf ∅ ∅ ∅ u o -> oS o !! h = Some sh -> h ∈ opens u -> so_acceptconn sh = true ->
  run (newconn_for h client_hashed hashed) o (fun _ => fine ∅ u o).
Proof.
  intros W Hh Oh Ha. destruct (sock_pcb _ _ _ _ _ W h sh Hh) as (i & n & Hp & Hi & _). unfold newconn_for. binds.
  eapply run_pcb_of; [exact Hh | exact Hp | exact Hi |]. intros x _. cbv beta.
  exact (run_syncache_socket ∅ u o h sh W Hh Oh Ha (inp_passive x) client_hashed hashed).
Qed.

Lemma shape_tested w a P (Q : socket -> Prop) s :
  sock_test w a P = true -> (forall so, P so = true -> Q (sshape so)) -> oS (shape_of w) !! a = Some s -> Q s.
Proof.
  intros H HQ Hs. apply sock_tested in H as (so & Hso & HP). pose proof (sock_shape w a so Hso). assert (s = sshape so) as -> by congruence.
  exact (HQ so HP).
Qed.

Lemma closing_sock u o a : wf ∅ ∅ ∅ u o -> a ∈ closing u -> is_Some (oS o !! a).
Proof. intros W H. exact (proj1 (proj2 (wf_user _ _ _ _ _ W)) a (elem_of_union_r _ _ _ H)). Qed.

Lemma asserted (inv b : bool) : negb inv || b = true -> inv = true -> b = true.
Proof. destruct inv; [exact (fun H _ => H) | discriminate]. Qed.

Lemma perform_safe e u w : wf ∅ ∅ ∅ u (shape_of w) -> permitted e u w = true ->
  match perform e u w with Some (u', w') => wf ∅ ∅ ∅ u' (shape_of w') | None => False end.
Proof.
  intros W P. set (o := shape_of w) in *.
  destruct e as [|a optval|a backlog bind|a setup|a control oob full eof nam|a|a|h|a|a|a|a|a|a|h client_hashed hashed|i x|i th_seq th_ack th_flags tlen|ms| | |i|i];
    cbn [permitted perform] in *; repeat match goal with
    | H : _ && _ = true |- _ => apply andb_true_iff in H as [H ?]
    | H : bool_decide _ = true |- _ => apply bool_decide_eq_true_1 in H
    end.
  - exact (safe_of_run socreate _ w o eq_refl (run_socreate ∅ u o W)).
  - exact (safe_of_run _ (fun _ => u) w o eq_refl (run_set_passive ∅ u o a optval W P)).
  - exact (safe_of_run _ (fun _ => u) w o eq_refl (run_usr_listen ∅ u o a W P backlog bind)).
  - exact (safe_of_run _ (fun _ => u) w o eq_refl (run_usr_connect ∅ u o a W P setup)).
  - pose proof (send_safe ∅ u w a control oob full eof nam W P (writable_converts w a ltac:(assumption))) as S.
    unfold mbind, M_bind. destruct (tcp_usr_send _ _ _ _ _ _ w) as [[r w']|]; [exact (proj1 S) | exact S].
  - exact (safe_of_run _ (fun _ => u) w o eq_refl (run_usr_shutdown ∅ u o a W P)).
  - exact (safe_of_run _ (fun _ => u) w o eq_refl (run_sodisconnect ∅ u o a W P)).
  - exact (safe_of_run (accept_take h) (accepts u o) w o eq_refl (run_accept_take ∅ u o h W P)).
  - refine (safe_of_run _ (fun _ => u) w o eq_refl (run_soaccept ∅ u o a W P _)). intros V s.
    apply (shape_tested w a ss_nofdref (fun s => ss_nofdref s = true) s); [apply (asserted (INVARIANTS w)); assumption | auto].
  - refine (safe_of_run _ (fun _ => u) w o eq_refl (run_soclose_disconnect ∅ u o a W P _)). intros V s.
    eapply (shape_tested w a _ (fun s => ss_nofdref s = false) s); [eapply (asserted (INVARIANTS w)); eassumption|]. intros so E. apply negb_true_iff in E. exact E.
  - exact (safe_of_run _ (fun _ => closes u a) w o eq_refl (run_usr_close ∅ u o a W P)).
  - destruct (closing_sock u o a W P) as [s Hs]. refine (safe_of_run _ (fun _ => u) w o eq_refl (run_mono _ _ _ _ (run_soclose_incomp ∅ u o a s W Hs) _)).
    intros [] o'; [exact (fun H => proj1 H)|]. intros [-> _]. exact (fine_here ∅ u o W).
  - destruct (closing_sock u o a W P) as [s Hs]. refine (safe_of_run _ (fun _ => u) w o eq_refl (run_mono _ _ _ _ (run_soclose_comp ∅ u o a s W Hs) _)).
    intros [] o'; [exact (fun H => proj1 H)|]. intros [-> _]. exact (fine_here ∅ u o W).
  - refine (safe_of_run _ (fun _ => lets_go u a) w o eq_refl (run_soclose_rele ∅ u o a W P _)). intros s.
    eapply (shape_tested w a _ (fun s => so_incomp s ++ so_comp s = [] /\ (oV o = true -> ss_nofdref s = false)) s); [eassumption|]. intros so E. apply andb_true_iff in E as [E1 E2]. apply bool_decide_eq_true_1 in E1.
    split; [exact E1|]. intros V. apply negb_true_iff. exact (asserted _ _ E2 V).
  - destruct (listens_open u w W h P) as (sh & Hh & Oh & Ha).
    exact (safe_of_run _ (fun _ => u) w o eq_refl (run_newconn_for u o h sh client_hashed hashed W Hh Oh Ha)).
  - assert (H : exists inp, inps w !! i = Some inp /\ match x with State st => (st =? TCPS_LISTEN) = false | _ => True end).
    { destruct x; apply inp_tested in P as (inp & Hi & E); exists inp; split; auto. apply negb_true_iff, E. }
    destruct H as (inp & Hi & Hx). exact (safe_of_run _ (fun _ => u) w o eq_refl (run_on_connection u o i _ x W (inp_shape w i inp Hi) Hx)).
  - apply inp_tested in P as (inp & Hi & _).
    exact (safe_of_run _ (fun _ => u) w o eq_refl (run_on_time_wait u o i _ th_seq th_ack th_flags tlen W (inp_shape w i inp Hi))).
  - exact W.
  - exact (safe_of_run _ (fun _ => u) w o eq_refl (run_scan_false ∅ u o W)).
  - refine (safe_of_run _ (fun _ => u) w o eq_refl (run_mono _ _ _ _ (run_tcp_tw_destroy ∅ u o W) (fun _ _ => proj1 (B := _)))).
  - apply inp_tested in P as (inp & Hi & E). apply Z.ltb_lt in E.
    exact (safe_of_run _ (fun _ => pin i u) w o eq_refl (run_pcbref ∅ u o i _ W (inp_shape w i inp Hi) E)).
  - exact (safe_of_run _ (fun _ => unpin i u) w o eq_refl (run_pcbrele ∅ u o i W P)).
Qed.

Lemma play_safe es : forall u w, wf ∅ ∅ ∅ u (shape_of w) ->
  match play es u w with Some (u', w') => wf ∅ ∅ ∅ u' (shape_of w') | None => False end.
Proof.
  induction es as [|e es IH]; intros u w W; [exact W|]. cbn [play]. unfold mbind, M_bind, get.
  destruct (permitted e u w) eqn:P; [|exact (IH u w W)]. pose proof (perform_safe e u w W P) as H.
  destruct (perform e u w) as [[u' w']|]; [exact (IH u' w' H) | exact H].
Qed.
(** ** From the start *)

Definition nobody : user := mk_user ∅ ∅ [].

(** A stack with nothing in it, whatever allocations will fail, with or without assertions. *)
Definition boot (allocs : list bool) (tick msl maxconn : Z) (nolocal invariants : bool) : world :=
  mk_world ∅ ∅ ∅ ∅ [] 0 allocs tick 0 msl maxconn nolocal invariants [].

Lemma wf_boot allocs tick msl maxconn nolocal invariants : wf ∅ ∅ ∅ nobody (shape_of (boot allocs tick msl maxconn nolocal invariants)).
Proof.
  unfold shape_of. cbn. rewrite !fmap_empty. split; cbn; try (intros k x H; rewrite lookup_empty in H; discriminate).
  - intros t H. destruct (not_elem_of_empty _ H).
  - split; [constructor|]. intros t H. inversion H.
  - split_and!; [set_solver | |]; [intros a H; exfalso; set_solver | intros i H; inversion H].
  - intros k _. rewrite !lookup_empty. auto.
Qed.


(** ** Nothing is lost *)

(** The protocol still has a connection of the socket to finish. *)
Definition in_progress (w : world) (a : nat) : Prop :=
  exists so i inp, socks w !! a = Some so /\ so_pcb so = Some i /\ ss_protoref so = true /\
    inps w !! i = Some inp /\ inp_sockref inp = true /\ inp_dropped inp = false.

Record accounted (w : world) : Prop := {
  ac_socks : forall a so, socks w !! a = Some so -> in_progress w a \/ exists p, so_passive_peer so = Some p /\ in_progress w p;
  ac_inps : forall i inp, inps w !! i = Some inp ->
    (exists a so, inp_socket inp = Some a /\ socks w !! a = Some so /\ so_pcb so = Some i) \/
    (exists t, inp_ppcb inp = Some (Tcptw t) /\ t ∈ twq_2msl w);
  ac_tcbs : forall t tp, tcbs w !! t = Some tp -> exists i inp a,
    t_inpcb tp = Some i /\ inps w !! i = Some inp /\ inp_ppcb inp = Some (Tcpcb t) /\ inp_socket inp = Some a;
  ac_tws : forall t, is_Some (tws w !! t) <-> t ∈ twq_2msl w }.

Section Quiet.
Context (u : user) (w : world) (W : wf ∅ ∅ ∅ u (shape_of w)) (Ho : opens u = ∅) (Hc : closing u = ∅) (Hp : pins u = []).

Lemma none_owned a : a ∉ owned u.
Proof. unfold owned. rewrite Ho, Hc. set_solver. Qed.

Lemma at_socks a (P : socket -> Prop) : at_ (oS (shape_of w)) a P -> exists so, socks w !! a = Some so /\ P (sshape so).
Proof. intros (s & H & HP). cbn in H. apply lookup_fmap_Some in H as (so & <- & E). eauto. Qed.

Lemma none_waiting a so : socks w !! a = Some so -> so_head so = None.
Proof.
  intros Hs. pose proof (wf_socks _ _ _ _ _ W _ _ (sock_shape w a so Hs)) as K. destruct (so_head so) as [h|] eqn:E; [|reflexivity].
  destruct (s_head _ _ _ _ _ _ K h E) as [(sh & Hh & Q)|(Y & _)]; [|destruct (not_elem_of_empty _ Y)].
  assert (M : a ∈ so_incomp sh ++ so_comp sh) by (apply elem_of_app; destruct Q as [(_ & _ & Q)|(_ & _ & Q)]; auto).
  destruct (s_member _ _ _ _ _ _ (wf_socks _ _ _ _ _ W _ _ Hh) a M) as [O _]. destruct (none_owned _ O).
Qed.

Lemma held_in_progress a so : socks w !! a = Some so -> held (sshape so) -> in_progress w a.
Proof.
  intros Hs H. pose proof (wf_socks _ _ _ _ _ W _ _ (sock_shape w a so Hs)) as K. pose proof (none_waiting a so Hs) as Eh.
  destruct H as [H|H]; [|destruct (H Eh)]. destruct (s_nohead _ _ _ _ _ _ K Eh) as [_ Ec]. pose proof (s_count _ _ _ _ _ _ K) as En.
  rewrite decide_False in En by apply none_owned.
  assert (Ef : ss_nofdref so = true) by (destruct (ss_nofdref so) eqn:E; [reflexivity | destruct (none_owned _ (s_nofd _ _ _ _ _ _ K E))]).
  unfold sohasrefs in H. cbn [sshape so_count ss_nofdref ss_protoref sq_comp] in *. rewrite Ef, En, Ec, orb_false_r in H. cbn in H.
  destruct (s_pcb _ _ _ _ _ _ K) as (i & Ei & (n & Hn & _ & Er & _)). pose proof (wf_inps _ _ _ _ _ W _ _ Hn) as N.
  cbn in Hn. apply lookup_fmap_Some in Hn as (inp & <- & Hn). cbn [sshape ss_protoref so_pcb ishape inp_sockref update eta eta_inpcb] in *.
  rewrite H in Er. destruct (n_sockref _ _ _ _ N (eq_sym Er)) as [Ed _]. exists so, i, inp. split_and!; auto.
Qed.

Lemma all_accounted : accounted w.
Proof.
  split.
  - intros a so Hs. destruct (s_anchor _ _ _ _ _ _ (wf_socks _ _ _ _ _ W _ _ (sock_shape w a so Hs)) (not_elem_of_empty _) (not_elem_of_empty _)) as [H|(p & Ep & H)].
    + left. exact (held_in_progress a so Hs H).
    + right. exists p. split; [exact Ep|]. apply at_socks in H as (sp & Hsp & H). exact (held_in_progress p sp Hsp H).
  - intros i inp Hi. pose proof (wf_inps _ _ _ _ _ W _ _ (inp_shape w i inp Hi)) as N. destruct (n_refs _ _ _ _ N) as [E [L _]].
    rewrite Hp in E. cbn [count_occ] in E. destruct (inp_listed (ishape inp)) eqn:El; [|lia]. destruct (inp_socket inp) as [a|] eqn:Es.
    + left. destruct (n_sock _ _ _ _ N a Es) as [_ H]. apply at_socks in H as (so & Hs & H). exists a, so. auto.
    + right. destruct (inp_timewait inp) eqn:Tw; [|destruct (n_tcb _ _ _ _ N El Tw) as [C _]; destruct (C Es)].
      destruct (inp_dropped inp) eqn:Ed; [destruct (n_twgone _ _ _ _ N El Tw Ed) as [_ C]; destruct (C Es)|].
      destruct (n_tw _ _ _ _ N El Tw Ed) as (t & Et & Ht). exists t. split; [exact Et|].
      exact (proj1 (wf_tws _ _ _ _ _ W t _ Ht (not_elem_of_empty _))).
  - intros t tp Ht. destruct (conn_of_tcb _ _ _ _ _ W t _ (tcb_shape w t tp Ht)) as (a & i & s & n & l & E & C).
    destruct C as [_ _ C3 C4 C5 _ _ _]. cbn in C3. apply lookup_fmap_Some in C3 as (inp & <- & C3). exists i, inp, a. unfold tshape in E. simplify_eq. auto.
  - intros t. split.
    + intros [tw Ht]. refine (proj1 (wf_tws _ _ _ _ _ W t (tw_inpcb tw) _ (not_elem_of_empty _))). cbn. rewrite lookup_fmap, Ht. reflexivity.
    + intros Ht. destruct (proj2 (wf_twq _ _ _ _ _ W) t Ht) as [x Hx]. cbn in Hx. apply lookup_fmap_Some in Hx as (tw & _ & Hx). eauto.
Qed.
End Quiet.
End LifeSafe.
