(* ===== verification/SockLifeTime.v ===== *)
(** * What is given back, and when

    The end of the life of connections in [SockLife]: what stays of a connection in
    TIME_WAIT and how long, and that what the application closed is freed once its
    connections are over. *)

From stdpp Require Import gmap.
From S2P Require Import Prelude TcpSeq SockLife SockLifeInv SockLifeOps SockLifeNew SockLifeConn SockLifeSafe.

Module LifeTime.

Import SockLife.Life SockLifeInv.LifeInv SockLifeOps.LifeOps SockLifeNew.LifeNew SockLifeConn.LifeConn SockLifeSafe.LifeSafe.

(** ** Frames *)

(** How the world before and after a computation are related. *)
Definition respects {A} (R : world -> world -> Prop) (m : M A) : Prop := forall w x w', m w = Some (x, w') -> R w w'.

(** A relation that closing a connection respects: sockets and control blocks are of no concern, and what is
    over stays over. *)
Record frame (R : world -> world -> Prop) : Prop := {
  fr_refl : forall w, R w w;
  fr_trans : forall w1 w2 w3, R w1 w2 -> R w2 w3 -> R w1 w3;
  fr_socks : forall w m, R w (w <| socks := m |>);
  fr_tcbs : forall w m, R w (w <| tcbs := m |>);
  fr_inps : forall w i x y, inps w !! i = Some x -> (gone_or_waiting x = true -> gone_or_waiting y = true) -> R w (w <| inps := <[i := y]> (inps w) |>);
  fr_free : forall w i, R w (w <| inps := delete i (inps w) |>) }.

Section Frame.
Context (R : world -> world -> Prop) (F : frame R).

Lemma rs_ret {A} (x : A) : respects R (mret x).
Proof. intros w y w' H. unfold mret, M_ret in H. simplify_eq. apply (fr_refl _ F). Qed.
Lemma rs_fault {A} : respects R (@fault A).
Proof. intros w y w' H. discriminate H. Qed.
Lemma rs_bind {A B} (m : M B) (f : B -> M A) : respects R m -> (forall x, respects R (f x)) -> respects R (x ← m; f x).
Proof.
  intros Hm Hf w y w' H. unfold mbind, M_bind in H. destruct (m w) as [[x w1]|] eqn:E; [|discriminate].
  exact (fr_trans _ F _ _ _ (Hm w x w1 E) (Hf x w1 y w' H)).
Qed.
Lemma rs_same {A} (m : M A) : (forall w x w', m w = Some (x, w') -> w' = w) -> respects R m.
Proof. intros H w x w' E. rewrite (H _ _ _ E). apply (fr_refl _ F). Qed.
Lemma rs_when b m : respects R m -> respects R (when b m).
Proof. destruct b; [auto | intros _; apply rs_ret]. Qed.
Lemma rs_modify f : (forall w, R w (f w)) -> respects R (modify f).
Proof. intros H w x w' E. unfold modify in E. simplify_eq. apply H. Qed.
Lemma rs_set_inp i f : (forall x, gone_or_waiting x = true -> gone_or_waiting (f x) = true) -> respects R (set_inp i f).
Proof.
  intros Hf w x w' H. unfold set_inp, get_inp, modify, mbind, M_bind in H. destruct (inps w !! i) as [y|] eqn:E; [|discriminate]. simplify_eq.
  apply (fr_inps _ F w i y _ E). apply Hf.
Qed.
End Frame.

Ltac frames F :=
  repeat lazymatch goal with
  | |- respects _ (mbind _ _) => apply (rs_bind _ F); [|intros]
  | |- respects _ (mret _) => apply (rs_ret _ F)
  | |- respects _ fault => apply rs_fault
  | |- respects _ (when _ _) => apply (rs_when _ F)
  | |- respects _ (modify _) => apply rs_modify; intros; first [apply (fr_socks _ F) | apply (fr_tcbs _ F) | apply (fr_free _ F)]
  | |- respects _ (set_inp _ _) => apply (rs_set_inp _ F); intros ?; unfold gone_or_waiting; cbn; rewrite ?orb_true_r; auto
  | |- respects _ (match ?x with _ => _ end) => destruct x
  | |- respects _ (deref _) => unfold deref
  | |- respects _ _ => apply (rs_same _ F); intros ? ? ?; unfold get_so, get_inp, get_tp, get_tw, KASSERT, get; repeat case_match; intros; simplify_eq; reflexivity
  end.
Section Closing.
Context (R : world -> world -> Prop) (F : frame R).

Lemma rs_pcbdetach i : respects R (in_pcbdetach i).
Proof. unfold in_pcbdetach, set_so. frames F. Qed.
Lemma rs_pcbfree i : respects R (in_pcbfree i).
Proof. unfold in_pcbfree, in_pcbrele_wlocked, free_inp. frames F. Qed.
Lemma rs_discardcb t : respects R (tcp_discardcb t).
Proof. unfold tcp_discardcb, set_tp, free_tp. frames F. Qed.
Lemma rs_usr_detach a : respects R (tcp_usr_detach a).
Proof.
  unfold tcp_usr_detach, tcp_detach, intotcpcb. frames F; try apply rs_pcbdetach; try apply rs_pcbfree; apply rs_discardcb.
Qed.
Lemma rs_dequeue a : respects R (sofree_dequeue a).
Proof. unfold sofree_dequeue, leave_incomp, set_so. frames F. Qed.
Lemma rs_dispose a : respects R (sofree_dispose a).
Proof. unfold sofree_dispose, sodealloc, free_so. frames F. apply rs_usr_detach. Qed.
Lemma rs_sofree a : respects R (sofree a).
Proof. unfold sofree. frames F; try apply rs_dequeue; apply rs_dispose. Qed.
Lemma rs_close t : respects R (tcp_close t).
Proof. unfold tcp_close, in_pcbdrop, set_so. frames F. apply rs_sofree. Qed.
End Closing.

(** ** What was closed is freed *)

(** No PCB comes to be, and what is over stays over. *)
Definition stays (w w' : world) : Prop :=
  forall i y, inps w' !! i = Some y -> exists x, inps w !! i = Some x /\ (gone_or_waiting x = true -> gone_or_waiting y = true).

Lemma stays_same w w' : inps w' = inps w -> stays w w'.
Proof. intros E i y H. rewrite E in H. eauto. Qed.

Lemma stays_frame : frame stays.
Proof.
  split; try (intros; apply stays_same; reflexivity).
  - intros w1 w2 w3 H1 H2 i z Hz. destruct (H2 i z Hz) as (y & Hy & E2). destruct (H1 i y Hy) as (x & Hx & E1). eauto.
  - intros w i x y Hx E j z Hz. cbn in Hz. destruct (decide (j = i)) as [->|Hne].
    + rewrite lookup_insert_eq in Hz. simplify_eq. eauto.
    + rewrite lookup_insert_ne in Hz by congruence. eauto.
  - intros w i j z Hz. cbn in Hz. apply lookup_delete_Some in Hz as [_ Hz]. eauto.
Qed.

Lemma stays_modify f : (forall w, inps (f w) = inps w) -> respects stays (modify f).
Proof. intros H. apply rs_modify. intros w. apply stays_same, H. Qed.

Lemma stays_twclose t reuse : respects stays (tcp_twclose t reuse).
Proof.
  unfold tcp_twclose, set_tw, tcp_tw_2msl_stop, in_pcbdrop, free_tw, set_so.
  repeat first [apply stays_modify; reflexivity | progress frames stays_frame | apply (rs_sofree _ stays_frame) | apply (rs_pcbfree _ stays_frame)].
  intros w ? w1 H. unfold twq_remove in H. case_match; simplify_eq. apply stays_same. reflexivity.
Qed.

Lemma stays_tw_destroy fuel : respects stays (tw_destroy fuel).
Proof. induction fuel as [|fuel IH]; cbn [tw_destroy]; frames stays_frame; [apply stays_twclose | exact IH]. Qed.

Lemma bind_inv {A B} (m : M B) (f : B -> M A) w y w' : (x ← m; f x) w = Some (y, w') -> exists x w1, m w = Some (x, w1) /\ f x w1 = Some (y, w').
Proof. unfold mbind, M_bind. destruct (m w) as [[x w1]|]; [eauto | discriminate]. Qed.

Lemma close_drops t i tp w x w' : tcp_close t w = Some (x, w') -> tcbs w !! t = Some tp -> t_inpcb tp = Some i ->
  forall y, inps w' !! i = Some y -> gone_or_waiting y = true.
Proof.
  intros H Ht Ei y Hy. unfold tcp_close in H. apply bind_inv in H as (tp' & w1 & H1 & H). unfold get_tp in H1. rewrite Ht in H1. simplify_eq.
  apply bind_inv in H as (i' & w2 & H2 & H). rewrite Ei in H2. unfold deref, mret, M_ret in H2. simplify_eq.
  apply bind_inv in H as ([] & w3 & H3 & H).
  assert (S : stays w3 w').
  { revert H. match goal with |- ?m _ = _ -> _ => assert (G : respects stays m) end; [|intros H; exact (G _ _ _ H)].
    unfold set_so. frames stays_frame. apply (rs_sofree _ stays_frame). }
  destruct (S i' y Hy) as (z & Hz & E). apply E. unfold in_pcbdrop, set_inp, get_inp, modify, mbind, M_bind in H3.
  destruct (inps w2 !! i') as [n|]; simplify_eq. cbn in Hz. rewrite lookup_insert_eq in Hz. simplify_eq. unfold gone_or_waiting. cbn. apply orb_true_r.
Qed.

Lemma stays_on_close i : respects stays (on_connection i Close).
Proof. unfold on_connection, intotcpcb, act. frames stays_frame. apply (rs_close _ stays_frame). Qed.

Section Finish.
Context (u : user) (Hp : pins u = []).

Lemma close_over w i x w' : wf ∅ ∅ ∅ u (shape_of w) -> on_connection i Close w = Some (x, w') -> forall y, inps w' !! i = Some y -> gone_or_waiting y = true.
Proof.
  intros W H y Hy. unfold on_connection in H. apply bind_inv in H as (inp & w1 & H1 & H). unfold get_inp in H1.
  destruct (inps w !! i) as [n|] eqn:Hi; [|discriminate]. simplify_eq.
  destruct (gone_or_waiting inp) eqn:Eg; [unfold mret, M_ret in H; simplify_eq; assumption|].
  apply orb_false_iff in Eg as [Tw Ed]. pose proof (wf_inps _ _ _ _ _ W _ _ (inp_shape w1 i inp Hi)) as N.
  assert (El : inp_listed (ishape inp) = true).
  { destruct (n_refs _ _ _ _ N) as [E [L _]]. rewrite Hp in E. cbn [count_occ] in E. destruct (inp_listed (ishape inp)); [reflexivity | lia]. }
  destruct (n_tcb _ _ _ _ N El Tw) as (_ & t & l & Et & Ht & _). cbn in Ht. apply lookup_fmap_Some in Ht as (tp & E & Ht).
  apply bind_inv in H as (r & w2 & H2 & H). unfold intotcpcb in H2. replace (inp_ppcb inp) with (Some (Tcpcb t)) in H2 by (symmetry; exact Et).
  unfold mret, M_ret in H2. simplify_eq. cbn [act] in H. apply bind_inv in H as (r & w1 & H1 & H). unfold mret, M_ret in H. simplify_eq.
  apply (close_drops t i tp _ _ _ H1 Ht); [|exact Hy]. unfold tshape in E. congruence.
Qed.

(** Every connection is closed, then TIME_WAIT is cut short. *)
Definition finish (w : world) : list event := map (fun i => On_connection i Close) (elements (dom (inps w))) ++ [Tw_destroy].

Lemma play_cons_safe e es w : wf ∅ ∅ ∅ u (shape_of w) -> (forall u' w', perform e u w = Some (u', w') -> u' = u) ->
  exists w', (permitted e u w = true -> perform e u w = Some (u, w')) /\ (permitted e u w = false -> w' = w) /\
    wf ∅ ∅ ∅ u (shape_of w') /\ play (e :: es) u w = play es u w'.
Proof.
  intros W Hu. cbn [play]. unfold mbind at 1, M_bind at 1, get. destruct (permitted e u w) eqn:P.
  - pose proof (perform_safe e u w W P) as S. unfold mbind, M_bind. destruct (perform e u w) as [[u' w']|] eqn:E; [|destruct S].
    assert (u' = u) as -> by exact (Hu u' w' eq_refl). exists w'. split_and!; auto. discriminate.
  - exists w. split_and!; auto. discriminate.
Qed.

Lemma keeps_user {A} (m : M A) w u' w' : (m;; mret u) w = Some (u', w') -> u' = u /\ exists x, m w = Some (x, w').
Proof. intros H. apply bind_inv in H as (x & w1 & H1 & H). unfold mret, M_ret in H. simplify_eq. eauto. Qed.

Lemma play_closes l es : forall w, wf ∅ ∅ ∅ u (shape_of w) -> exists w',
  play (map (fun i => On_connection i Close) l ++ es) u w = play es u w' /\ wf ∅ ∅ ∅ u (shape_of w') /\ stays w w' /\
  forall i y, i ∈ l -> inps w' !! i = Some y -> gone_or_waiting y = true.
Proof.
  induction l as [|i l IH]; intros w W.
  - exists w. split_and!; auto; [apply stays_same; reflexivity|]. intros i y H. inversion H.
  - cbn [map app]. destruct (play_cons_safe (On_connection i Close) (map (fun i => On_connection i Close) l ++ es) w W) as (w1 & P1 & P2 & W1 & ->).
    { intros u' w' H. exact (proj1 (keeps_user _ _ _ _ H)). }
    assert (S1 : stays w w1 /\ forall y, inps w1 !! i = Some y -> gone_or_waiting y = true).
    { destruct (permitted (On_connection i Close) u w) eqn:P.
      - destruct (keeps_user _ _ _ _ (P1 eq_refl)) as (_ & x & H). split; [exact (stays_on_close i _ _ _ H) | exact (close_over w i x w1 W H)].
      - rewrite (P2 eq_refl). split; [apply stays_same; reflexivity|]. intros y Hy. cbn [permitted] in P. unfold inp_test in P. rewrite Hy in P. discriminate. }
    destruct S1 as [S1 O1]. destruct (IH w1 W1) as (w2 & E2 & W2 & S2 & O2). exists w2. split_and!; auto.
    + exact (fr_trans _ stays_frame _ _ _ S1 S2).
    + intros j y Hj Hy. apply elem_of_cons in Hj as [->|Hj]; [|exact (O2 j y Hj Hy)]. destruct (S2 i y Hy) as (x & Hx & E). exact (E (O1 x Hx)).
Qed.
End Finish.

Record blank (w : world) : Prop := {
  bl_socks : socks w = ∅;
  bl_inps : inps w = ∅;
  bl_tcbs : tcbs w = ∅;
  bl_tws : tws w = ∅;
  bl_twq : twq_2msl w = [] }.

Lemma quiet_blank u w : wf ∅ ∅ ∅ u (shape_of w) -> opens u = ∅ -> closing u = ∅ -> pins u = [] ->
  (forall i y, inps w !! i = Some y -> gone_or_waiting y = true) -> twq_2msl w = [] -> blank w.
Proof.
  intros W Ho Hc Hp Hov Hq. destruct (all_accounted u w W Ho Hc Hp) as [A1 A2 A3 A4].
  assert (P : forall a, ~ in_progress w a).
  { intros a (so & i & inp & Hs & Ei & _ & Hi & Er & Ed). pose proof (wf_inps _ _ _ _ _ W _ _ (inp_shape w i inp Hi)) as N.
    destruct (n_sockref _ _ _ _ N Er) as (_ & b & Eb & _). destruct (n_sock _ _ _ _ N b Eb) as [El _].
    pose proof (Hov i inp Hi) as H. unfold gone_or_waiting in H. rewrite Ed, orb_false_r in H.
    destruct (n_tw _ _ _ _ N El H Ed) as (t & _ & Ht). destruct (wf_tws _ _ _ _ _ W t _ Ht (not_elem_of_empty _)) as [H1 _].
    cbn in H1. rewrite Hq in H1. inversion H1. }
  assert (S : socks w = ∅).
  { apply map_empty. intros a. destruct (socks w !! a) as [so|] eqn:Hs; [|reflexivity]. destruct (A1 a so Hs) as [H|(p & _ & H)]; destruct (P _ H). }
  assert (I : inps w = ∅).
  { apply map_empty. intros i. destruct (inps w !! i) as [inp|] eqn:Hi; [|reflexivity].
    destruct (A2 i inp Hi) as [(a & so & _ & H & _)|(t & _ & H)]; [rewrite S, lookup_empty in H; discriminate | rewrite Hq in H; inversion H]. }
  split; auto; apply map_empty; intros t.
  - destruct (tcbs w !! t) as [tp|] eqn:Ht; [|reflexivity]. destruct (A3 t tp Ht) as (i & inp & _ & _ & H & _). rewrite I, lookup_empty in H. discriminate.
  - destruct (tws w !! t) as [tw|] eqn:Ht; [|reflexivity]. assert (H : t ∈ twq_2msl w) by (apply A4; eauto). rewrite Hq in H. inversion H.
Qed.

Lemma destroy_blank u w : wf ∅ ∅ ∅ u (shape_of w) -> opens u = ∅ -> closing u = ∅ -> pins u = [] ->
  (forall i y, inps w !! i = Some y -> gone_or_waiting y = true) -> exists w', play [Tw_destroy] u w = Some (u, w') /\ blank w'.
Proof.
  intros W Ho Hc Hp Hov. pose proof (run_tcp_tw_destroy ∅ u _ W w eq_refl) as H. cbn [play]. unfold mbind, M_bind, get. cbn [permitted perform].
  unfold mbind, M_bind. destruct (tcp_tw_destroy w) as [[[] w']|] eqn:E; [|destruct H]. destruct H as [[W' _] Q]. exists w'. split; [reflexivity|].
  assert (S : stays w w').
  { unfold tcp_tw_destroy in E. apply bind_inv in E as (w1 & w2 & E1 & E). unfold get in E1. simplify_eq. exact (stays_tw_destroy _ _ _ _ E). }
  apply (quiet_blank u w' W' Ho Hc Hp); [|exact Q]. intros i y Hy. destruct (S i y Hy) as (x & Hx & Hxy). exact (Hxy (Hov i x Hx)).
Qed.

(** C7: nothing is leaked.  When the application has closed every socket and no thread holds a PCB, whatever happened
    before, every socket left is one whose connection, or whose peer's, the protocol has still to finish, every PCB
    belongs to such a socket or waits on the 2MSL queue, and closing those connections and emptying the queue frees every
    socket, PCB, control block and TIME_WAIT entry there is. *)
Theorem closed_sockets_freed es allocs tick msl maxconn nolocal invariants u w :
  play es nobody (boot allocs tick msl maxconn nolocal invariants) = Some (u, w) -> opens u = ∅ -> closing u = ∅ -> pins u = [] ->
  accounted w /\ exists w', play (finish w) u w = Some (u, w') /\ blank w'.
Proof.
  intros H Ho Hc Hp. pose proof (play_safe es nobody _ (wf_boot allocs tick msl maxconn nolocal invariants)) as W. rewrite H in W.
  split; [exact (all_accounted u w W Ho Hc Hp)|]. unfold finish.
  destruct (play_closes u Hp (elements (dom (inps w))) [Tw_destroy] w W) as (w1 & -> & W1 & S1 & O1).
  apply (destroy_blank u w1 W1 Ho Hc Hp). intros i y Hy. apply (O1 i y); [|exact Hy]. destruct (S1 i y Hy) as (x & Hx & _).
  apply elem_of_elements, elem_of_dom. eauto.
Qed.

(** A server accepts a passive pair, then an active connection, a third stays on its queue, and it closes everything; one
    connection goes through TIME_WAIT. *)
Definition close_events (a : nat) : list event := [Close_disconnect a; Close_protocol a; Close_incomp a; Close_comp a; Close_release a].
Definition server : list event :=
  [Socket; Set_passive 0 true; Listen 0 5 None; Newconn 0 true true; On_connection 7 Established; On_connection 7 (State TCPS_ESTABLISHED);
   Set_passive 0 false; Newconn 0 false true; On_connection 10 Established; On_connection 10 (State TCPS_ESTABLISHED); Newconn 0 false true;
   Accept_take 0; Accept 6; Accept_take 0; Accept 9; Shutdown 9; Ref 10; On_connection 10 (Time_wait false); Rele 10;
   Shutdown 6; Tick 1010] ++ close_events 6 ++ close_events 3 ++ close_events 9 ++ close_events 0.

Definition start : world := boot [] 100 3000 128 false false.
Definition served : user * world := default (nobody, start) (play server nobody start).

Lemma closed_sockets_freed_witness :
  (size (socks (snd served)) = 3%nat /\ twq_2msl (snd served) = [15%nat]) /\
  accounted (snd served) /\ exists w', play (finish (snd served)) (fst served) (snd served) = Some (fst served, w') /\ blank w'.
Proof.
  split; [vm_compute; split; reflexivity|].
  apply (closed_sockets_freed server [] 100 3000 128 false false (fst served) (snd served)); vm_compute; reflexivity.
Defined.

(** ** The 2MSL queue *)

(** What closing sockets leaves alone. *)
Definition same_queue (w w' : world) : Prop := tws w' = tws w /\ twq_2msl w' = twq_2msl w /\ ticks w' = ticks w.

Lemma same_queue_frame : frame same_queue.
Proof.
  split; try (intros; split_and!; reflexivity).
  intros w1 w2 w3 (A1 & A2 & A3) (B1 & B2 & B3). split_and!; congruence.
Qed.

Lemma deref_same {A} (p : option A) w x w' : deref p w = Some (x, w') -> p = Some x /\ w' = w.
Proof. destruct p; cbn; unfold mret, M_ret; intros H; [simplify_eq; auto | discriminate]. Qed.
Lemma get_inp_same i w x w' : get_inp i w = Some (x, w') -> inps w !! i = Some x /\ w' = w.
Proof. unfold get_inp. destruct (inps w !! i); intros H; [simplify_eq; auto | discriminate]. Qed.
Lemma get_tw_same t w x w' : get_tw t w = Some (x, w') -> tws w !! t = Some x /\ w' = w.
Proof. unfold get_tw. destruct (tws w !! t); intros H; [simplify_eq; auto | discriminate]. Qed.
Lemma KASSERT_same b w x w' : KASSERT b w = Some (x, w') -> w' = w.
Proof. unfold KASSERT. destruct (_ && _); intros H; [discriminate | simplify_eq; reflexivity]. Qed.

(** The time of an entry has come. *)
Definition expired (w : world) (t : nat) : bool :=
  match tws w !! t with Some tw => negb (0 <? s32 (tw_time tw - ticks w)) | None => false end.

Fixpoint drop_while (f : nat -> bool) (l : list nat) : list nat :=
  match l with
  | [] => []
  | t :: l' => if f t then drop_while f l' else l
  end.

Lemma twclose_queue t w x w' : tcp_twclose t false w = Some (x, w') ->
  tws w' = delete t (tws w) /\ twq_2msl w' = remove1 t (twq_2msl w) /\ ticks w' = ticks w.
Proof.
  intros H. unfold tcp_twclose in H. apply bind_inv in H as (tw & w1 & H1 & H). apply get_tw_same in H1 as [Et ->].
  apply bind_inv in H as (i & w2 & H2 & H). apply deref_same in H2 as [_ ->]. apply bind_inv in H as (inp & w2 & H3 & H). apply get_inp_same in H3 as [_ ->].
  apply bind_inv in H as (k1 & w2 & H4 & H). apply KASSERT_same in H4 as ->. apply bind_inv in H as (k2 & w2 & H5 & H). apply KASSERT_same in H5 as ->.
  apply bind_inv in H as (y & w2 & H6 & H). unfold set_tw, get_tw, modify, mbind, M_bind in H6. rewrite Et in H6. simplify_eq.
  apply bind_inv in H as (z & w3 & H7 & H). unfold tcp_tw_2msl_stop, twq_remove in H7. case_bool_decide; [|discriminate]. simplify_eq.
  apply bind_inv in H as (k3 & w4 & H8 & H). apply bind_inv in H as (k4 & w5 & H9 & H). apply bind_inv in H as (k5 & w6 & H10 & H).
  assert (Q1 : same_queue w5 w6).
  { revert H10. match goal with |- ?m _ = _ -> _ => assert (G : respects same_queue m) end; [|intros E; exact (G _ _ _ E)].
    unfold set_so. frames same_queue_frame; [apply (rs_sofree _ same_queue_frame) | apply (rs_pcbfree _ same_queue_frame)]. }
  assert (Q2 : same_queue w4 w5) by (revert H9; apply (rs_set_inp _ same_queue_frame); intros n; unfold gone_or_waiting; cbn; rewrite orb_true_r; auto).
  assert (Q3 : respects same_queue (set_inp i (fun inp => inp <| inp_ppcb := None |>))) by (apply (rs_set_inp _ same_queue_frame); auto).
  specialize (Q3 _ _ _ H8). unfold free_tw in H. apply bind_inv in H as (k6 & w7 & H11 & H). apply get_tw_same in H11 as [_ ->].
  unfold modify in H. simplify_eq. cbn. destruct Q1 as (-> & -> & ->), Q2 as (-> & -> & ->), Q3 as (-> & -> & ->). cbn. split_and!; auto.
  rewrite delete_insert_eq. reflexivity.
Qed.

Lemma drop_while_ext f g l : (forall t, t ∈ l -> f t = g t) -> drop_while f l = drop_while g l.
Proof.
  induction l as [|t l IH]; intros H; [reflexivity|]. cbn. rewrite (H t) by left. destruct (g t); [|reflexivity].
  apply IH. intros t' Ht'. apply H. right. exact Ht'.
Qed.
Lemma remove1_front t q : NoDup (t :: q) -> remove1 t (t :: q) = q.
Proof.
  intros H. inversion H as [|? ? Hn Hd]; subst. unfold remove1. rewrite filter_cons_False by (intros C; apply C; reflexivity).
  clear H Hd. induction q as [|b q IH]; [reflexivity|]. rewrite filter_cons_True by (intros ->; apply Hn; left). rewrite IH; [reflexivity|].
  intros C. apply Hn. right. exact C.
Qed.

Record scanned (w w' : world) : Prop := {
  sc_queue : twq_2msl w' = drop_while (expired w) (twq_2msl w);
  sc_entries : forall t, tws w' !! t = if decide (t ∈ twq_2msl w') then tws w !! t else None;
  sc_ticks : ticks w' = ticks w }.

Lemma entry_queued u w t : wf ∅ ∅ ∅ u (shape_of w) -> tws w !! t = if decide (t ∈ twq_2msl w) then tws w !! t else None.
Proof.
  intros W. destruct (decide _) as [|Hn]; [reflexivity|]. destruct (tws w !! t) as [tw|] eqn:E; [|reflexivity]. destruct Hn.
  refine (proj1 (wf_tws _ _ _ _ _ W t (tw_inpcb tw) _ (not_elem_of_empty _))). cbn. rewrite lookup_fmap, E. reflexivity.
Qed.

Lemma scan_frees fuel : forall u w, wf ∅ ∅ ∅ u (shape_of w) -> (length (twq_2msl w) < fuel)%nat ->
  exists w', tcp_tw_2msl_scan fuel false w = Some (None, w') /\ scanned w w'.
Proof.
  induction fuel as [|fuel IH]; intros u w W L; [lia|]. cbn [tcp_tw_2msl_scan]. unfold mbind at 1, M_bind at 1, get.
  pose proof (wf_twq _ _ _ _ _ W) as [Nd Hq]. cbn [shape_of oQ oW] in Nd, Hq. destruct (twq_2msl w) as [|t q] eqn:Eq.
  - exists w. split; [reflexivity|]. split; [rewrite Eq; reflexivity | exact (fun t => entry_queued u w t W) | reflexivity].
  - destruct (Hq t ltac:(left)) as [x Hx]. apply lookup_fmap_Some in Hx as (tw & Ex & Ht).
    assert (Hx : oW (shape_of w) !! t = Some x) by (cbn; rewrite lookup_fmap, Ht, <- Ex; reflexivity).
    unfold mbind at 1, M_bind at 1, get_tw. rewrite Ht. cbn [negb andb]. destruct (0 <? s32 (tw_time tw - ticks w)) eqn:Ee.
    + exists w. split; [reflexivity|]. split; [|exact (fun t => entry_queued u w t W) | reflexivity]. rewrite Eq. cbn. unfold expired at 1. rewrite Ht, Ee. reflexivity.
    + destruct (wf_tws _ _ _ _ _ W t x Hx (not_elem_of_empty _)) as (_ & i & Ei & _). rewrite Ei in Ex. rewrite Ex. cbn [deref].
      unfold mbind at 1, M_bind at 1, mret, M_ret. pose proof (run_twclose ∅ u _ t x false W Hx (not_elem_of_empty _) w eq_refl) as H.
      unfold mbind at 1, M_bind at 1. destruct (tcp_twclose t false w) as [[r w1]|] eqn:Ec; [|destruct H].
      destruct (twclose_queue t w r w1 Ec) as (T1 & T2 & T3). rewrite Eq, (remove1_front t q Nd) in T2.
      destruct (IH u w1 (tc_wf _ _ _ _ _ H)) as (w2 & -> & [S1 S2 S3]); [rewrite T2; cbn in L; lia|]. exists w2. split; [reflexivity|].
      assert (Nt : t ∉ q) by (inversion Nd; assumption).
      assert (Hd : drop_while (expired w1) q = drop_while (expired w) q).
      { apply drop_while_ext. intros b Hb. unfold expired. rewrite T1, T3, lookup_delete_ne by congruence. reflexivity. }
      split.
      * rewrite S1, T2, Eq, Hd. cbn. unfold expired at 2. rewrite Ht, Ee. reflexivity.
      * intros b. rewrite S2. destruct (decide _) as [Hb|]; [|reflexivity]. rewrite T1, lookup_delete_ne; [reflexivity|]. intros <-.
        rewrite S1, T2 in Hb. apply Nt. revert Hb. clear. induction q as [|c q IHq]; cbn; [auto|]. destruct (expired w1 c); [right; auto | auto].
      * congruence.
Qed.

(** The slow timeout ends, and frees the entries at the front of the 2MSL queue whose time has come, up to the first
    whose time has not; the other entries, their order and their times stay as they are. *)
Theorem tcp_tw_2msl_scan_exact es allocs tick msl maxconn nolocal invariants u w :
  play es nobody (boot allocs tick msl maxconn nolocal invariants) = Some (u, w) ->
  exists w', run_scan false w = Some (None, w') /\ scanned w w'.
Proof.
  intros H. pose proof (play_safe es nobody _ (wf_boot allocs tick msl maxconn nolocal invariants)) as W. rewrite H in W.
  exact (scan_frees (S (length (twq_2msl w))) u w W (le_n _)).
Qed.

Lemma tcp_tw_2msl_scan_exact_witness :
  exists w', run_scan false (snd served) = Some (None, w') /\ scanned (snd served) w' /\ twq_2msl w' = [15%nat].
Proof.
  destruct (tcp_tw_2msl_scan_exact server [] 100 3000 128 false false (fst served) (snd served)) as (w' & H & S); [vm_compute; reflexivity|].
  exists w'. split_and!; [exact H | exact S |]. rewrite (sc_queue _ _ S). vm_compute. reflexivity.
Defined.

(** ** Segments in TIME_WAIT *)

(** The segment opens a new connection: RFC 1122 4.2.2.13. *)
Definition reopens (tw : tcptw) (th_seq th_flags : Z) : bool :=
  negb (has_flag th_flags TH_RST) && has_flag th_flags TH_SYN && SEQ_GT th_seq (tw_rcv_nxt tw).

(** The entry stays as it is but for its time; what is sent acknowledges what was received. *)
Record tw_kept (t : nat) (tw : tcptw) (w w' : world) : Prop := {
  tk_socks : socks w' = socks w;
  tk_inps : inps w' = inps w;
  tk_tcbs : tcbs w' = tcbs w;
  tk_tws : exists time, tws w' = <[t := tw <| tw_time := time |>]> (tws w);
  tk_queue : twq_2msl w' = twq_2msl w \/ twq_2msl w' = remove1 t (twq_2msl w) ++ [t];
  tk_sent : sent w' = sent w \/ exists ts, sent w' = sent w ++ [(tw_snd_nxt tw, tw_rcv_nxt tw, TH_ACK, tw_last_win tw, ts)] }.

Section Segment.
Context (t i : nat) (tw : tcptw).

Lemma tw_kept_same w : tws w !! t = Some tw -> tw_kept t tw w w.
Proof. intros H. split; auto. exists (tw_time tw). symmetry. apply insert_id. destruct tw. exact H. Qed.

Lemma twrespond_kept w : tws w !! t = Some tw -> tw_inpcb tw = Some i -> is_Some (inps w !! i) ->
  exists w', tcp_twrespond t 16 w = Some (tt, w') /\ inps w' = inps w /\ socks w' = socks w /\ tcbs w' = tcbs w /\ tws w' = tws w /\
    twq_2msl w' = twq_2msl w /\ (sent w' = sent w \/ exists ts, sent w' = sent w ++ [(tw_snd_nxt tw, tw_rcv_nxt tw, TH_ACK, tw_last_win tw, ts)]).
Proof.
  intros Ht Ei [inp Hi]. unfold tcp_twrespond, get_tw, get_inp, mbind, M_bind. rewrite Ht, Ei. cbn [deref]. unfold mret, M_ret. rewrite Hi.
  unfold zalloc, when. destruct (default true (List.head (zallocs w))); eexists; (split; [reflexivity|]); split_and!; try reflexivity; [right; eauto | left; reflexivity].
Qed.

Lemma reset_kept w : tws w !! t = Some tw -> t ∈ twq_2msl w -> exists w', tcp_tw_2msl_reset t true w = Some (tt, w') /\
  inps w' = inps w /\ socks w' = socks w /\ tcbs w' = tcbs w /\ sent w' = sent w /\
  tws w' = <[t := tw <| tw_time := s32 (ticks w + 2 * tcp_msl w) |>]> (tws w) /\ twq_2msl w' = remove1 t (twq_2msl w) ++ [t].
Proof.
  intros Ht Hq. unfold tcp_tw_2msl_reset, when, twq_remove, set_tw, get_tw, modify, get, mbind, M_bind. rewrite bool_decide_eq_true_2 by exact Hq.
  cbn [tws twq_2msl update eta eta_world]. rewrite Ht. eexists. split; [reflexivity|]. split_and!; reflexivity.
Qed.
End Segment.

Lemma twcheck_kept u w i inp t tw th_seq th_ack th_flags tlen :
  wf ∅ ∅ ∅ u (shape_of w) -> inps w !! i = Some inp -> inp_ppcb inp = Some (Tcptw t) -> tws w !! t = Some tw ->
  reopens tw th_seq th_flags = false -> exists w', tcp_twcheck i th_seq th_ack th_flags tlen w = Some (false, w') /\ tw_kept t tw w w'.
Proof.
  intros W Hi Ep Ht Hr. destruct (inp_ok_tcptw _ _ _ _ t (wf_inps _ _ _ _ _ W _ _ (inp_shape w i inp Hi)) Ep) as (_ & _ & _ & Hw).
  destruct (wf_tws _ _ _ _ _ W t _ Hw (not_elem_of_empty _)) as (Hq & _). cbn in Hw. rewrite lookup_fmap, Ht in Hw. cbn in Hw.
  assert (Ei : tw_inpcb tw = Some i) by congruence. pose proof (tw_kept_same t tw w Ht) as K.
  unfold tcp_twcheck, get_inp, intotw, mbind, M_bind. rewrite Hi, Ep. unfold mret, M_ret, get_tw. rewrite Ht.
  unfold reopens in Hr. destruct (has_flag th_flags TH_RST); [eauto|]. cbn [negb] in Hr. rewrite andb_true_l in Hr. rewrite Hr.
  destruct (has_flag th_flags TH_ACK); [|eauto]. cbn [negb].
  set (fin := has_flag th_flags TH_FIN && _). set (odd := _ || _ || _ || _).
  assert (S : exists w1, when fin (tcp_tw_2msl_reset t true) w = Some (tt, w1) /\ tw_kept t tw w w1 /\ exists tw1, tws w1 !! t = Some tw1 /\
    tw_inpcb tw1 = Some i /\ tw_snd_nxt tw1 = tw_snd_nxt tw /\ tw_rcv_nxt tw1 = tw_rcv_nxt tw /\ tw_last_win tw1 = tw_last_win tw /\ sent w1 = sent w).
  { unfold when. destruct fin; [|exists w; split_and!; auto; exists tw; split_and!; auto].
    destruct (reset_kept t tw w Ht Hq) as (w1 & E & A1 & A2 & A3 & A4 & A5 & A6). exists w1. split_and!; auto; [split; eauto; left; exact A4|].
    eexists. rewrite A5. split; [apply lookup_insert_eq|]. split_and!; auto. }
  destruct S as (w1 & -> & [B1 B2 B3 B4 B5 B6] & tw1 & C1 & C2 & C3 & C4 & C5 & C6). unfold when. destruct odd; [|eexists; split; [reflexivity | split; auto]].
  destruct (twrespond_kept t i tw1 w1 C1 C2) as (w2 & -> & D1 & D2 & D3 & D4 & D5 & D6); [rewrite B2; eauto|]. eexists. split; [reflexivity|].
  rewrite C3, C4, C5, C6 in D6. split; rewrite ?D1, ?D2, ?D3, ?D4, ?D5; auto.
Qed.

(** C8: a segment for a connection in TIME_WAIT does not end it early, a reset no more than another (RFC 1337), unless it
    is the SYN of a new connection beyond what was received, which closes it so that a listening socket can answer; the
    sequence numbers kept for the connection do not change, and what is sent is an acknowledgement of just them. *)
Theorem time_wait_not_assassinated es allocs tick msl maxconn nolocal invariants u w i inp t tw th_seq th_ack th_flags tlen :
  play es nobody (boot allocs tick msl maxconn nolocal invariants) = Some (u, w) ->
  inps w !! i = Some inp -> inp_ppcb inp = Some (Tcptw t) -> tws w !! t = Some tw ->
  exists w', tcp_twcheck i th_seq th_ack th_flags tlen w = Some (reopens tw th_seq th_flags, w') /\
    if reopens tw th_seq th_flags then tws w' !! t = None /\ twq_2msl w' = remove1 t (twq_2msl w) else tw_kept t tw w w'.
Proof.
  intros H Hi Ep Ht. pose proof (play_safe es nobody _ (wf_boot allocs tick msl maxconn nolocal invariants)) as W. rewrite H in W.
  destruct (reopens tw th_seq th_flags) eqn:Er; [|exact (twcheck_kept u w i inp t tw th_seq th_ack th_flags tlen W Hi Ep Ht Er)].
  assert (Hx : oW (shape_of w) !! t = Some (tw_inpcb tw)) by (cbn; rewrite lookup_fmap, Ht; reflexivity).
  pose proof (run_twclose ∅ u _ t _ false W Hx (not_elem_of_empty _) w eq_refl) as C. unfold tcp_twcheck, get_inp, intotw, mbind, M_bind. rewrite Hi, Ep.
  unfold mret, M_ret, get_tw. rewrite Ht. unfold reopens in Er. apply andb_true_iff in Er as [Er E3]. apply andb_true_iff in Er as [E1 E2].
  apply negb_true_iff in E1. rewrite E1, E2, E3. cbn [andb]. destruct (tcp_twclose t false w) as [[r w']|] eqn:Ec; [|destruct C]. exists w'. split; [reflexivity|].
  destruct (twclose_queue t w r w' Ec) as (-> & -> & _). split; [apply lookup_delete_eq | reflexivity].
Qed.

Lemma time_wait_not_assassinated_witness :
  exists inp tw w', inps (snd served) !! 10%nat = Some inp /\ tws (snd served) !! 15%nat = Some tw /\
    tcp_twcheck 10 1000 0 TH_RST 0 (snd served) = Some (false, w') /\ tw_kept 15 tw (snd served) w'.
Proof.
  eexists. eexists. eassert (H := time_wait_not_assassinated server [] 100 3000 128 false false (fst served) (snd served) 10 _ 15 _ 1000 0 TH_RST 0
    ltac:(vm_compute; reflexivity) ltac:(vm_compute; reflexivity) ltac:(vm_compute; reflexivity) ltac:(vm_compute; reflexivity)).
  destruct H as (w' & H1 & H2). exists w'. split_and!; [vm_compute; reflexivity | vm_compute; reflexivity | exact H1 | exact H2].
Defined.

(** ** Sequences that go wrong *)

(** A passive pair is accepted, and its client's end goes through TIME_WAIT, which for passive connections ends at once. *)
Definition half_closed : list event :=
  [Socket; Set_passive 0 true; Listen 0 5 None; Newconn 0 true true; On_connection 7 Established; On_connection 7 (State TCPS_ESTABLISHED);
   Accept_take 0; Accept 6; On_connection 4 (Time_wait false)].


(** The client's socket of a passive pair never loses SS_NOFDREF, which soclose asserts. *)
Definition start_checked : world := boot [] 100 3000 128 false true.
Example closing_passive_client_asserts :
  match play half_closed nobody start_checked with
  | Some (u, w) => bool_decide (3%nat ∈ opens u) = true /\ soclose_disconnect 3 w = None
  | None => False
  end.
Proof. vm_compute. split; reflexivity. Qed.

(** Sending to an address on a listening socket connects it, and it still accepts connections: tcp_input asserts that
    such a connection is in LISTEN. *)
Example listening_socket_connects :
  match play [Socket; Listen 0 5 None; Send 0 false false false false (Some None)] nobody start with
  | Some (_, w) => option_map so_acceptconn (socks w !! 0%nat) = Some true /\ option_map t_state (tcbs w !! 2%nat) = Some TCPS_SYN_SENT
  | None => False
  end.
Proof. vm_compute. split; reflexivity. Qed.

(** Each end of an accepted pair takes its own lock first. *)
Example pair_locked_in_both_orders :
  match play half_closed nobody start with
  | Some (_, w) =>
      option_map (in_passive_ordered_socks 6 3) (socks w !! 6%nat) = Some (6, 3)%nat /\
      option_map (in_passive_ordered_socks 3 6) (socks w !! 3%nat) = Some (3, 6)%nat
  | None => False
  end.
Proof. vm_compute. split; reflexivity. Qed.
End LifeTime.
