(* ===== verification/InPromisc.v ===== *)
(** * Layer 2 identities

    VLAN tag stacks of promiscuous connections, sys/netinet/in_promisc.c: their
    comparison, the hash that leaves masked tags out, and the hash functions of the
    SYN cache, the PCB tables and the API built on it (tcp_syncache.c, in_pcb.c,
    lib/libuinet/uinet_api.c). *)

From S2P Require Import Prelude.

Module Promisc.

(** ** MurmurHash3 over masked blocks *)

Definition rotl32 (x r : Z) : Z := Z.lor (u32 (Z.shiftl x r)) (Z.shiftr x (32 - r)).

Definition fmix32 (h : Z) : Z :=
  let h := Z.lxor h (Z.shiftr h 16) in
  let h := u32 (h * 0x85ebca6b) in
  let h := Z.lxor h (Z.shiftr h 13) in
  let h := u32 (h * 0xc2b2ae35) in
  Z.lxor h (Z.shiftr h 16).

Definition mix (h1 k1 : Z) : Z :=
  let k1 := u32 (k1 * 0xcc9e2d51) in
  let k1 := rotl32 k1 15 in
  let k1 := u32 (k1 * 0x1b873593) in
  let h1 := rotl32 (Z.lxor h1 k1) 13 in
  u32 (h1 * 5 + 0xe6546b64).

(** A block and its mask; the count goes down for blocks that are masked out. *)
Fixpoint hash_blocks (blocks : list (Z * Z)) (nblocks h1 : Z) : Z * Z :=
  match blocks with
  | [] => (nblocks, h1)
  | (block, mask) :: blocks =>
      if negb (mask =? 0) then hash_blocks blocks nblocks (mix h1 (Z.land block mask))
      else hash_blocks blocks (nblocks - 1) h1
  end.

Definition in_promisc_hash32 (blocks : list (Z * Z)) (seed : Z) : Z :=
  let '(nblocks, h1) := hash_blocks blocks (Z.of_nat (length blocks)) seed in
  fmix32 (Z.lxor h1 (u32 (Z.shiftl nblocks 2))).

(** ** Tag stacks *)

(** The [inl2t_cnt] tags in use, each with its mask; at most [IN_L2INFO_MAX_TAGS]. *)
Definition in_l2tagstack : Type := list (Z * Z).
Definition IN_L2INFO_MAX_TAGS := 16.

Fixpoint skip_masked (ts : in_l2tagstack) : in_l2tagstack :=
  match ts with
  | (tag, mask) :: ts' => if mask =? 0 then skip_masked ts' else ts
  | [] => []
  end.

(** [None]: out of fuel. *)
Fixpoint tagcmp_loop (fuel : nat) (ts1 ts2 : in_l2tagstack) : option Z :=
  match fuel with
  | O => None
  | S fuel =>
      match skip_masked ts1, skip_masked ts2 with
      | [], [] => Some 0
      | [], _ => Some 1
      | _, [] => Some 1
      | (tag1, mask1) :: ts1, (tag2, mask2) :: ts2 =>
          if negb (Z.land tag1 mask1 =? Z.land tag2 mask2) then Some 1 else tagcmp_loop fuel ts1 ts2
      end
  end.

(** A missing stack has no tags. *)
Definition in_promisc_tagcmp (l2ts1 l2ts2 : option in_l2tagstack) : option Z :=
  let ts1 := default [] l2ts1 in
  let ts2 := default [] l2ts2 in
  if (length ts1 + length ts2 =? 0)%nat then Some 0 else tagcmp_loop (S (length ts1)) ts1 ts2.

(** ** Hash functions *)

Definition all_ones := 0xffffffff.
Definition unmasked (keys : list Z) : list (Z * Z) := map (fun k => (k, all_ones)) keys.

(** The tags are hashed after what else identifies a connection. *)
Definition hash_tags (l2ts : option in_l2tagstack) (hash : Z) : Z :=
  match l2ts with
  | Some ts => if (0 <? length ts)%nat then in_promisc_hash32 ts hash else hash
  | None => hash
  end.

Definition SYNCACHE_HASH (hash_secret faddr fport lport mask : Z) : Z :=
  Z.land (Z.lxor (Z.lxor (Z.lxor (Z.lxor hash_secret faddr) (Z.shiftr faddr 16)) fport) lport) mask.

Definition syncache_hash_promisc (hash_secret laddr faddr lport fport fib : Z) (l2ts : option in_l2tagstack) (mask : Z) : Z :=
  let hash := SYNCACHE_HASH hash_secret faddr fport lport mask in
  let hash := in_promisc_hash32 (unmasked [laddr; fib]) hash in
  Z.land (hash_tags l2ts hash) mask.

Definition in_pcbhash_promisc (laddr faddr lport fport fibnum : Z) (l2ts : option in_l2tagstack) (mask : Z) : Z :=
  let hash := in_promisc_hash32 (unmasked [laddr; faddr; Z.lor (u32 (Z.shiftl lport 16)) fport; fibnum]) 0 in
  Z.land (hash_tags l2ts hash) mask.

Definition in_pcbporthash_promisc (lport fibnum : Z) (l2ts : option in_l2tagstack) (mask : Z) : Z :=
  let hash := in_promisc_hash32 (unmasked [lport; fibnum]) 0 in
  let hash := hash_tags l2ts hash in
  let hash := Z.lxor hash (Z.shiftr hash 16) in
  u16 (Z.land hash mask).

Definition uinet_l2tagstack_hash (ts : in_l2tagstack) : Z := hash_tags (Some ts) 0.

(** ** What counts in a tag stack *)

(** The tags that are not masked out, as far as their masks go. *)
Definition significant (ts : in_l2tagstack) : list Z :=
  omap (fun '(tag, mask) => if mask =? 0 then None else Some (Z.land tag mask)) ts.
Definition tags_of (l2ts : option in_l2tagstack) : in_l2tagstack := default [] l2ts.

(** MurmurHash3_x86_32 of whole blocks. *)
Definition MurmurHash3_x86_32 (blocks : list Z) (seed : Z) : Z :=
  fmix32 (Z.lxor (fold_left mix blocks seed) (u32 (4 * Z.of_nat (length blocks)))).

Lemma hash_blocks_significant ts : forall n h,
  hash_blocks ts (n + Z.of_nat (length ts)) h = (n + Z.of_nat (length (significant ts)), fold_left mix (significant ts) h).
Proof.
  induction ts as [|[tag mask] ts IH]; intros n h; [reflexivity|]. cbn [hash_blocks significant omap list_omap length].
  destruct (Z.eqb_spec mask 0); cbn [negb].
  - replace (n + Z.of_nat (S (length ts)) - 1) with (n + Z.of_nat (length ts)) by lia. apply IH.
  - replace (n + Z.of_nat (S (length ts))) with (n + 1 + Z.of_nat (length ts)) by lia. rewrite IH. fold (significant ts). cbn [length fold_left]. f_equal. lia.
Qed.

Lemma hash32_murmur ts seed : in_promisc_hash32 ts seed = MurmurHash3_x86_32 (significant ts) seed.
Proof.
  unfold in_promisc_hash32, MurmurHash3_x86_32. pose proof (hash_blocks_significant ts 0 seed) as H. rewrite !Z.add_0_l in H. rewrite H.
  rewrite Z.shiftl_mul_pow2 by lia. f_equal. f_equal. f_equal. lia.
Qed.

Lemma significant_skip ts : significant (skip_masked ts) = significant ts.
Proof. induction ts as [|[tag mask] ts IH]; [reflexivity|]. cbn. destruct (mask =? 0) eqn:E; [exact IH | cbn; rewrite E; reflexivity]. Qed.
Lemma skip_shorter ts : (length (skip_masked ts) <= length ts)%nat.
Proof. induction ts as [|[tag mask] ts IH]; [reflexivity|]. cbn. destruct (mask =? 0); cbn; lia. Qed.
Lemma skip_head ts tag mask l : skip_masked ts = (tag, mask) :: l -> significant ts = Z.land tag mask :: significant l.
Proof.
  intros H. rewrite <- significant_skip, H. cbn. destruct (Z.eqb_spec mask 0) as [->|]; [|reflexivity]. exfalso. clear - H.
  induction ts as [|[t m] ts IH]; [discriminate|]. cbn in H. destruct (Z.eqb_spec m 0); [auto | congruence].
Qed.
Lemma skip_nil ts : skip_masked ts = [] -> significant ts = [].
Proof. intros H. rewrite <- significant_skip, H. reflexivity. Qed.

Lemma tagcmp_loop_correct fuel : forall ts1 ts2, (length ts1 < fuel)%nat ->
  tagcmp_loop fuel ts1 ts2 = Some (if decide (significant ts1 = significant ts2) then 0 else 1).
Proof.
  induction fuel as [|fuel IH]; intros ts1 ts2 L; [lia|]. cbn [tagcmp_loop]. pose proof (skip_shorter ts1) as L1.
  destruct (skip_masked ts1) as [|[tag1 mask1] l1] eqn:E1; destruct (skip_masked ts2) as [|[tag2 mask2] l2] eqn:E2.
  - rewrite (skip_nil _ E1), (skip_nil _ E2), decide_True by reflexivity. reflexivity.
  - rewrite (skip_nil _ E1), (skip_head _ _ _ _ E2), decide_False by discriminate. reflexivity.
  - rewrite (skip_nil _ E2), (skip_head _ _ _ _ E1), decide_False by discriminate. reflexivity.
  - rewrite (skip_head _ _ _ _ E1), (skip_head _ _ _ _ E2). destruct (Z.eqb_spec (Z.land tag1 mask1) (Z.land tag2 mask2)) as [->|Hne]; cbn [negb].
    + rewrite IH by (cbn in L1; lia). destruct (decide (significant l1 = significant l2)) as [->|]; [rewrite decide_True by reflexivity; reflexivity|].
      rewrite decide_False by congruence. reflexivity.
    + rewrite decide_False by congruence. reflexivity.
Qed.

Lemma tagcmp_correct l2ts1 l2ts2 :
  in_promisc_tagcmp l2ts1 l2ts2 = Some (if decide (significant (tags_of l2ts1) = significant (tags_of l2ts2)) then 0 else 1).
Proof.
  unfold in_promisc_tagcmp. fold (tags_of l2ts1) (tags_of l2ts2). destruct (Nat.eqb_spec (length (tags_of l2ts1) + length (tags_of l2ts2)) 0) as [E|].
  - destruct (tags_of l2ts1), (tags_of l2ts2); try discriminate E. reflexivity.
  - apply tagcmp_loop_correct. lia.
Qed.

(** No stack, and a stack that is there: the hash functions tell them apart. *)
Definition has_tags (l2ts : option in_l2tagstack) : bool := (0 <? length (tags_of l2ts))%nat.

Lemma hash_tags_equal l2ts1 l2ts2 hash : significant (tags_of l2ts1) = significant (tags_of l2ts2) -> has_tags l2ts1 = has_tags l2ts2 ->
  hash_tags l2ts1 hash = hash_tags l2ts2 hash.
Proof.
  intros E H. unfold hash_tags, has_tags, tags_of in *. destruct l2ts1 as [ts1|], l2ts2 as [ts2|]; cbn [default from_option] in *; unfold id in *.
  - rewrite H. destruct (0 <? length ts2)%nat; [rewrite !hash32_murmur, E|]; reflexivity.
  - rewrite H. reflexivity.
  - rewrite <- H. reflexivity.
  - reflexivity.
Qed.

(** C14: the comparison of tag stacks is equality of the tags that are not masked out, as far as their masks go, and the
    hash is MurmurHash3 of just these tags; so for stacks that compare equal, and that have tags both or have none both,
    the SYN cache, the PCB tables and the API compute the same hash. *)
Theorem tagcmp_agrees_with_hash l2ts1 l2ts2 :
  (exists r, in_promisc_tagcmp l2ts1 l2ts2 = Some r /\ (r = 0 <-> significant (tags_of l2ts1) = significant (tags_of l2ts2))) /\
  (forall ts seed, in_promisc_hash32 ts seed = MurmurHash3_x86_32 (significant ts) seed) /\
  (in_promisc_tagcmp l2ts1 l2ts2 = Some 0 -> has_tags l2ts1 = has_tags l2ts2 ->
   (forall secret laddr faddr lport fport fib mask,
      syncache_hash_promisc secret laddr faddr lport fport fib l2ts1 mask = syncache_hash_promisc secret laddr faddr lport fport fib l2ts2 mask) /\
   (forall laddr faddr lport fport fib mask,
      in_pcbhash_promisc laddr faddr lport fport fib l2ts1 mask = in_pcbhash_promisc laddr faddr lport fport fib l2ts2 mask) /\
   (forall lport fib mask, in_pcbporthash_promisc lport fib l2ts1 mask = in_pcbporthash_promisc lport fib l2ts2 mask)).
Proof.
  rewrite tagcmp_correct. split_and!.
  - eexists. split; [reflexivity|]. destruct (decide _); split; congruence.
  - exact hash32_murmur.
  - intros E H. destruct (decide _) as [Es|]; [|discriminate]. pose proof (fun h => hash_tags_equal l2ts1 l2ts2 h Es H) as Ht.
    unfold syncache_hash_promisc, in_pcbhash_promisc, in_pcbporthash_promisc. split_and!; intros; rewrite Ht; reflexivity.
Qed.

(** An untagged frame, and one with the tag of VLAN 0, whose mask is zero so that it does not count. *)
Definition untagged : option in_l2tagstack := None.
Definition priority_tagged : option in_l2tagstack := Some [(0x8100e000, 0)].

Example priority_tag_hashed_apart :
  in_promisc_tagcmp untagged priority_tagged = Some 0 /\
  syncache_hash_promisc 7 0x0a000001 0x0a000002 80 4000 0 untagged 511 <> syncache_hash_promisc 7 0x0a000001 0x0a000002 80 4000 0 priority_tagged 511 /\
  in_pcbhash_promisc 0x0a000001 0x0a000002 80 4000 0 untagged 511 <> in_pcbhash_promisc 0x0a000001 0x0a000002 80 4000 0 priority_tagged 511.
Proof. vm_compute. split_and!; [reflexivity | discriminate | discriminate]. Qed.

Lemma tagcmp_agrees_with_hash_witness :
  in_promisc_tagcmp (Some [(0x81000005, 0xfff)]) (Some [(0x8100e000, 0); (0x8100e005, 0xfff)]) = Some 0 /\
  forall lport fib mask, in_pcbporthash_promisc lport fib (Some [(0x81000005, 0xfff)]) mask =
    in_pcbporthash_promisc lport fib (Some [(0x8100e000, 0); (0x8100e005, 0xfff)]) mask.
Proof.
  split; [vm_compute; reflexivity|].
  exact (proj2 (proj2 (proj2 (proj2 (tagcmp_agrees_with_hash (Some [(0x81000005, 0xfff)]) (Some [(0x8100e000, 0); (0x8100e005, 0xfff)])))
    ltac:(vm_compute; reflexivity) ltac:(vm_compute; reflexivity)))).
Defined.
End Promisc.
