(* ===== verification/Syncache.v ===== *)
(** * The SYN cache

    sys/netinet/tcp_syncache.c: connections whose handshake is not complete, a hash
    table of rows each with its own timer, and SYN cookies for when the cache is
    full.  [syncache_add] answers a SYN, [syncache_expand] turns the entry an ACK
    belongs to, or a valid cookie, into a connection (the sockets are in
    [SockLife]).

    An entry has no address: the functions that find one work on its row and its
    position there while the row is locked.  [syncache_add] gives the lock up
    between finding no entry and inserting its own, so it is two operations here
    with whatever happens between.  Credentials, the bytes of headers and IP
    options are left out, and the count of all entries, which has no lock, is taken
    to change at once. *)

From S2P Require Import Prelude TcpSeq TcpOptions TcpCC TcpTimer HostCache InPromisc.

Module Cache.

Import TcpOptions.Options InPromisc.Promisc.

(** ** Data *)

Record in_conninfo := mk_inc {
  inc_flags : Z;
  inc_fibnum : Z;
  inc_altfibnum : Z;
  inc_fport : Z;
  inc_lport : Z;
  inc_faddr : Z;
  inc_laddr : Z }.
#[export] Instance eta_in_conninfo : Eta in_conninfo := fun r =>
  mk_inc (inc_flags r) (inc_fibnum r) (inc_altfibnum r) (inc_fport r) (inc_lport r) (inc_faddr r) (inc_laddr r).
#[export] Instance in_conninfo_eq_dec : EqDecision in_conninfo.
Proof. solve_decision. Defined.

Definition INC_PASSIVE := 0x02.
Definition INC_SYNFILTERED := 0x08.
Definition INC_CONVONTMO := 0x20.

Record tcphdr := mk_th {
  th_seq : Z;
  th_ack : Z;
  th_flags : Z;
  th_win : Z }.

(** What the packet says of the layer below; there is none for an ICMP error. *)
Record mbuf := mk_mbuf {
  m_fib : Z;
  m_l2tag : option in_l2tagstack }.

Record syncache := mk_sc {
  sc_inc : in_conninfo;
  sc_rxttime : Z;
  sc_rxmits : Z;
  sc_tsreflect : Z;
  sc_ts : Z;
  sc_tsoff : Z;
  sc_irs : Z;
  sc_iss : Z;
  sc_peer_mss : Z;
  sc_wnd : Z;
  sc_ip_ttl : Z;
  sc_ip_tos : Z;
  sc_requested_s_scale : Z;
  sc_requested_r_scale : Z;
  sc_flags : Z;
  sc_l2tag : option in_l2tagstack;
  sc_fib : Z;
  sc_altfib : Z }.
#[export] Instance eta_syncache : Eta syncache := fun r =>
  mk_sc (sc_inc r) (sc_rxttime r) (sc_rxmits r) (sc_tsreflect r) (sc_ts r) (sc_tsoff r) (sc_irs r) (sc_iss r) (sc_peer_mss r)
    (sc_wnd r) (sc_ip_ttl r) (sc_ip_tos r) (sc_requested_s_scale r) (sc_requested_r_scale r) (sc_flags r) (sc_l2tag r)
    (sc_fib r) (sc_altfib r).

Definition SCF_NOOPT := 0x01.
Definition SCF_WINSCALE := 0x02.
Definition SCF_TIMESTAMP := 0x04.
Definition SCF_UNREACH := 0x10.
Definition SCF_SIGNATURE := 0x20.
Definition SCF_SACK := 0x80.
Definition SCF_ECN := 0x100.
Definition SCF_PASSIVE := 0x200.
Definition SCF_PASSIVE_SYNACK := 0x400.
Definition SCF_NO_TIMEOUT_RESET := 0x800.
Definition SCF_CONVERT_ON_TIMEOUT := 0x1000.

Definition SYNCOOKIE_SECRET_SIZE := 8%nat.
Definition SYNCOOKIE_LIFETIME := 16.

(** [sch_timer]: the tick at which the callout of the row runs. *)
Record syncache_head := mk_sch {
  sch_bucket : list syncache;
  sch_timer : option Z;
  sch_nextc : Z;
  sch_length : Z;
  sch_oddeven : bool;
  sch_secbits_odd : list Z;
  sch_secbits_even : list Z;
  sch_reseed : Z }.
#[export] Instance eta_syncache_head : Eta syncache_head := fun r =>
  mk_sch (sch_bucket r) (sch_timer r) (sch_nextc r) (sch_length r) (sch_oddeven r) (sch_secbits_odd r) (sch_secbits_even r)
    (sch_reseed r).

Record tcp_syncache := mk_syncache {
  hashbase : list syncache_head;
  hashsize : Z;
  hashmask : Z;
  bucket_limit : Z;
  cache_count : Z;
  cache_limit : Z;
  rexmt_limit : Z;
  hash_secret : Z }.
#[export] Instance eta_tcp_syncache : Eta tcp_syncache := fun r =>
  mk_syncache (hashbase r) (hashsize r) (hashmask r) (bucket_limit r) (cache_count r) (cache_limit r) (rexmt_limit r) (hash_secret r).

Definition SYNCACHE_MAXREXMTS := 3.
Definition TCP_SYNCACHE_HASHSIZE := 512.
Definition TCP_SYNCACHE_BUCKETLIMIT := 30.
Definition INT_MAX := 2 ^ 31 - 1.

(** A SYN,ACK: endpoints, sequence number, acknowledgement, flags, window, options, the fields of the IP header, FIB and tags. *)
Record synack := mk_synack {
  sa_inc : in_conninfo;
  sa_seq : Z;
  sa_ack : Z;
  sa_flags : Z;
  sa_win : Z;
  sa_df : bool;
  sa_ttl : Z;
  sa_tos : Z;
  sa_opts : option tcpopt;
  sa_fib : Z;
  sa_l2tag : option in_l2tagstack }.

(** What the rest of the stack answers, and its settings.  [digest]: the four words of the MD5 of a rotated secret, the
    endpoints, the peer's sequence number and the parameters. *)
Record env := mk_env {
  tcp_mssopt : in_conninfo -> Z;
  digest : list Z -> in_conninfo -> Z -> Z -> Z * Z * Z * Z;
  tcp_minmss : Z;
  sb_max : Z;
  hz : Z;
  do_rfc1323 : bool;
  do_ecn : bool;
  syncookies : bool;
  syncookiesonly : bool;
  path_mtu_discovery : bool }.

(** [rands], [zallocs], [outs]: the numbers arc4random gives, whether allocations succeed, and what ip_output returns. *)
Record net := mk_net {
  cache : tcp_syncache;
  ticks : Z;
  time_uptime : Z;
  ts_ticks : Z;
  rands : list Z;
  zallocs : list bool;
  outs : list Z;
  sent : list synack }.
#[export] Instance eta_net : Eta net := fun r =>
  mk_net (cache r) (ticks r) (time_uptime r) (ts_ticks r) (rands r) (zallocs r) (outs r) (sent r).

Definition arc4random (n : net) : Z * net := (u32 (default 0 (List.head (rands n))), n <| rands := tail (rands n) |>).
Definition zalloc (n : net) : bool * net := (default true (List.head (zallocs n)), n <| zallocs := tail (zallocs n) |>).
Definition ip_output (sa : synack) (n : net) : Z * net :=
  (default 0 (List.head (outs n)), n <| outs := tail (outs n) |> <| sent := sent n ++ [sa] |>).

Definition set_flag (f : Z) (sc : syncache) : syncache := sc <| sc_flags := Z.lor (sc_flags sc) f |>.
Definition clear_flag (f : Z) (sc : syncache) : syncache := sc <| sc_flags := Z.land (sc_flags sc) (Z.lnot f) |>.
Definition scf (sc : syncache) (f : Z) : bool := has_flag (sc_flags sc) f.

(** ** Rows *)

Definition row (k : nat) (n : net) : option syncache_head := hashbase (cache n) !! k.
Definition put_row (k : nat) (sch : syncache_head) (n : net) : net :=
  n <| cache := (cache n) <| hashbase := <[k := sch]> (hashbase (cache n)) |> |>.
Definition count_by (d : Z) (n : net) : net := n <| cache := (cache n) <| cache_count := u32 (cache_count (cache n) + d) |> |>.

(** [callout_reset]. *)
Definition arm (now delay : Z) (sch : syncache_head) : syncache_head := sch <| sch_timer := Some (s32 (now + Z.max 1 delay)) |>.

(** [None]: the table of back-off factors is read past its end. *)
Definition syncache_timeout (e : env) (now : Z) (docallout : bool) (timeout_ticks : Z) (sc : syncache) (sch : syncache_head) :
    option (syncache * syncache_head) :=
  time ← (if 0 <? timeout_ticks then Some (s32 (now + timeout_ticks))
          else backoff ← TcpTimer.Timer.tcp_backoff !! Z.to_nat (sc_rxmits sc); Some (s32 (now + 3 * hz e * backoff)));
  let sc := sc <| sc_rxttime := time |> <| sc_rxmits := u16 (sc_rxmits sc + 1) |> in
  if TSTMP_LT time (sch_nextc sch) then
    let sch := sch <| sch_nextc := time |> in
    Some (sc, if docallout then arm now (s32 (time - now)) sch else sch)
  else Some (sc, sch).

(** The entry at a position of the row. *)
Definition syncache_drop (k j : nat) (n : net) : option net :=
  sch ← row k n;
  _ ← sch_bucket sch !! j;
  let sch := sch <| sch_bucket := delete j (sch_bucket sch) |> <| sch_length := u32 (sch_length sch - 1) |> in
  Some (count_by (-1) (put_row k sch n)).

(** The oldest entry of a full row goes; dropping from an empty one is a fault. *)
Definition syncache_insert (e : env) (k : nat) (initial_timeout : Z) (sc : syncache) (n : net) : option net :=
  sch ← row k n;
  n ← (if bucket_limit (cache n) <=? sch_length sch then syncache_drop k (length (sch_bucket sch) - 1) n else Some n);
  sch ← row k n;
  let sch := sch <| sch_length := u32 (sch_length sch + 1) |> in
  let sch := if sch_length sch =? 1 then sch <| sch_nextc := s32 (ticks n + INT_MAX) |> else sch in
  '(sc, sch) ← syncache_timeout e (ticks n) true initial_timeout sc sch;
  Some (count_by 1 (put_row k (sch <| sch_bucket := sc :: sch_bucket sch |>) n)).

Definition ENDPTS_EQ (a b : in_conninfo) : bool :=
  (inc_fport a =? inc_fport b) && (inc_lport a =? inc_lport b) && (inc_faddr a =? inc_faddr b) && (inc_laddr a =? inc_laddr b).

Definition frame_fib (m : option mbuf) : Z := default 0 (m_fib <$> m).
Definition frame_tags (m : option mbuf) : option in_l2tagstack := m ≫= m_l2tag.

Definition sc_matches (inc : in_conninfo) (m : option mbuf) (sc : syncache) : bool :=
  (frame_fib m =? sc_fib sc) && bool_decide (in_promisc_tagcmp (frame_tags m) (sc_l2tag sc) = Some 0) && ENDPTS_EQ inc (sc_inc sc).

Definition row_of (inc : in_conninfo) (m : option mbuf) (n : net) : nat :=
  Z.to_nat (syncache_hash_promisc (hash_secret (cache n)) (inc_laddr inc) (inc_faddr inc) (inc_lport inc) (inc_fport inc) (frame_fib m)
    (frame_tags m) (hashmask (cache n))).

(** The row, which must be in the table, and the position of the entry in it. *)
Definition syncache_lookup (inc : in_conninfo) (m : option mbuf) (n : net) : option (nat * syncache_head * option (nat * syncache)) :=
  let k := row_of inc m n in
  sch ← row k n;
  Some (k, sch, list_find (fun sc => Is_true (sc_matches inc m sc)) (sch_bucket sch)).

(** ** The answer *)

Definition ENOBUFS := 55.

Definition synack_of (e : env) (sc : syncache) : synack :=
  let mssopt := u16 (tcp_mssopt e (sc_inc sc)) in
  let mssopt := if negb (sc_peer_mss sc =? 0) then u16 (umax (umin (sc_peer_mss sc) mssopt) (tcp_minmss e)) else mssopt in
  let flags := Z.lor (Z.lor TH_SYN TH_ACK) (if scf sc SCF_ECN then TH_ECE else 0) in
  let opts :=
    if scf sc SCF_NOOPT then None
    else
      let to := mk_tcpopt TOF_MSS 0 0 [] [] mssopt 0 0 in
      let to := if scf sc SCF_WINSCALE then (add_flag TOF_SCALE to) <| to_wscale := sc_requested_r_scale sc |> else to in
      let to := if scf sc SCF_TIMESTAMP then (add_flag TOF_TS to) <| to_tsval := sc_ts sc |> <| to_tsecr := sc_tsreflect sc |> else to in
      Some (if scf sc SCF_SACK then add_flag TOF_SACKPERM to else to) in
  mk_synack (sc_inc sc) (sc_iss sc) (u32 (sc_irs sc + 1)) flags (sc_wnd sc) (path_mtu_discovery e && negb (scf sc SCF_UNREACH)) (sc_ip_ttl sc)
    (sc_ip_tos sc) opts (sc_altfib sc) (sc_l2tag sc).

(** A passive connection is not answered.  The copy of the entry's tags is taken to succeed. *)
Definition syncache_respond (e : env) (sc : syncache) (n : net) : Z * net :=
  if scf sc SCF_PASSIVE then (0, n)
  else
    let '(ok, n) := zalloc n in
    if negb ok then (ENOBUFS, n) else ip_output (synack_of e sc) n.

(** ** The timer of a row *)

(** A passive connection that is to be converted is answered from now on. *)
Definition convert (sc : syncache) : syncache :=
  if scf sc SCF_PASSIVE && scf sc SCF_CONVERT_ON_TIMEOUT
  then (clear_flag (Z.lor (Z.lor SCF_PASSIVE SCF_PASSIVE_SYNACK) SCF_CONVERT_ON_TIMEOUT) sc)
         <| sc_inc := (sc_inc sc) <| inc_flags := Z.land (inc_flags (sc_inc sc)) (Z.lnot (Z.lor INC_PASSIVE INC_CONVONTMO)) |> |>
  else sc.

(** The entries that stay, the row with its [sch_nextc], and how many were dropped. *)
Fixpoint timer_loop (e : env) (limit tick : Z) (bucket : list syncache) (sch : syncache_head) (n : net) :
    option (list syncache * syncache_head * net) :=
  match bucket with
  | [] => Some ([], sch, n)
  | sc :: bucket =>
      if TSTMP_GT (sc_rxttime sc) tick then
        let sch := if TSTMP_LT (sc_rxttime sc) (sch_nextc sch) then sch <| sch_nextc := sc_rxttime sc |> else sch in
        '(kept, sch, n) ← timer_loop e limit tick bucket sch n;
        Some (sc :: kept, sch, n)
      else if limit <? sc_rxmits sc then
        timer_loop e limit tick bucket (sch <| sch_length := u32 (sch_length sch - 1) |>) (count_by (-1) n)
      else
        let sc := convert sc in
        let '(_, n) := syncache_respond e sc n in
        '(sc, sch) ← syncache_timeout e (ticks n) false (-1) sc sch;
        '(kept, sch, n) ← timer_loop e limit tick bucket sch n;
        Some (sc :: kept, sch, n)
  end.

Definition syncache_timer (e : env) (k : nat) (n : net) : option net :=
  sch ← row k n;
  let tick := ticks n in
  let bucket := sch_bucket sch in
  let sch := sch <| sch_timer := None |> <| sch_nextc := s32 (tick + INT_MAX) |> in
  '(kept, sch, n) ← timer_loop e (rexmt_limit (cache n)) tick bucket sch n;
  let sch := sch <| sch_bucket := kept |> in
  Some (put_row k (if bool_decide (kept = []) then sch else arm tick (s32 (sch_nextc sch - tick)) sch) n).

(** ** Segments and errors for an entry *)

(** The entry at a position is changed in place. *)
Definition put_entry (k j : nat) (sch : syncache_head) (sc : syncache) (n : net) : net :=
  put_row k (sch <| sch_bucket := <[j := sc]> (sch_bucket sch) |>) n.

Definition syncache_chkrst (inc : in_conninfo) (th : tcphdr) (m : option mbuf) (n : net) : option net :=
  '(k, sch, found) ← syncache_lookup inc m n;
  if has_flag (th_flags th) (Z.lor (Z.lor TH_ACK TH_SYN) TH_FIN) then Some n
  else
    match found with
    | None => Some n
    | Some (j, sc) =>
        if SEQ_GEQ (th_seq th) (sc_irs sc) && SEQ_LEQ (th_seq th) (u32 (sc_irs sc + sc_wnd sc)) then syncache_drop k j n else Some n
    end.

Definition syncache_badack (inc : in_conninfo) (m : option mbuf) (n : net) : option net :=
  '(k, sch, found) ← syncache_lookup inc m n;
  match found with
  | Some (j, sc) => syncache_drop k j n
  | None => Some n
  end.

(** [th_seq] in host order. *)
Definition syncache_unreach (inc : in_conninfo) (th_seq : Z) (m : option mbuf) (n : net) : option net :=
  '(k, sch, found) ← syncache_lookup inc m n;
  match found with
  | None => Some n
  | Some (j, sc) =>
      if negb (th_seq =? sc_iss sc) then Some n
      else if negb (scf sc SCF_UNREACH) || (sc_rxmits sc <? 3 + 1) then Some (put_entry k j sch (set_flag SCF_UNREACH sc) n)
      else syncache_drop k j n
  end.

Definition swap_ends (inc : in_conninfo) : in_conninfo :=
  inc <| inc_faddr := inc_laddr inc |> <| inc_laddr := inc_faddr inc |> <| inc_fport := inc_lport inc |> <| inc_lport := inc_fport inc |>.

(** What the server's SYN,ACK says of a passive connection. *)
Definition learn_synack (to : tcpopt) (th : tcphdr) (sc : syncache) : syncache :=
  let sc := (set_flag SCF_PASSIVE_SYNACK sc) <| sc_iss := th_seq th |> in
  let sc := if negb (has_flag (th_flags th) TH_ECE) then clear_flag SCF_ECN sc else sc in
  let sc := sc <| sc_wnd := th_win th |> in
  let sc :=
    if negb (has_flag (to_flags to) TOF_SCALE)
    then (clear_flag SCF_WINSCALE sc) <| sc_requested_s_scale := 0 |> <| sc_requested_r_scale := 0 |>
    else if scf sc SCF_WINSCALE then sc <| sc_requested_r_scale := Z.land (to_wscale to) 0xf |> else sc in
  let sc :=
    if negb (has_flag (to_flags to) TOF_TS) then (clear_flag SCF_TIMESTAMP sc) <| sc_ts := 0 |> <| sc_tsreflect := 0 |>
    else if scf sc SCF_TIMESTAMP
    then sc <| sc_tsoff := u32 (to_tsval to - sc_ts sc) |> <| sc_ts := to_tsval to |> <| sc_tsreflect := to_tsecr to |>
    else sc in
  if negb (has_flag (to_flags to) TOF_SACKPERM) then clear_flag SCF_SACK sc else sc.

Definition syncache_passive_synack (inc : in_conninfo) (to : tcpopt) (th : tcphdr) (m : option mbuf) (n : net) : option net :=
  '(k, sch, found) ← syncache_lookup (swap_ends inc) m n;
  match found with
  | Some (j, sc) => if scf sc SCF_PASSIVE then Some (put_entry k j sch (learn_synack to th sc) n) else Some n
  | None => Some n
  end.

(** ** SYN cookies *)

Definition le_bytes (w : Z) : list Z := map (fun i => Z.land (Z.shiftr w (8 * i)) 0xff) [0; 1; 2; 3].
(** The secret, from byte [off] on and then what comes before it. *)
Definition rotated (secbits : list Z) (off : Z) : list Z :=
  let bytes := flat_map le_bytes secbits in drop (Z.to_nat off) bytes ++ take (Z.to_nat off) bytes.

Definition secbits (sch : syncache_head) (odd : bool) : list Z := if odd then sch_secbits_odd sch else sch_secbits_even sch.

Fixpoint new_secret (size : nat) (n : net) : list Z * net :=
  match size with
  | O => ([], n)
  | S size => let '(x, n) := arc4random n in let '(xs, n) := new_secret size n in (x :: xs, n)
  end.

(** The other secret is renewed and used when the one in use is too old. *)
Definition reseed (sch : syncache_head) (n : net) : syncache_head * net :=
  if sch_reseed sch <? time_uptime n then
    let odd := negb (sch_oddeven sch) in
    let '(secret, n) := new_secret SYNCOOKIE_SECRET_SIZE n in
    let sch := sch <| sch_oddeven := odd |> in
    let sch := if odd then sch <| sch_secbits_odd := secret |> else sch <| sch_secbits_even := secret |> in
    (sch <| sch_reseed := u32 (time_uptime n + SYNCOOKIE_LIFETIME) |>, n)
  else (sch, n).

Definition tcp_sc_msstab : list Z := [0; 256; 468; 536; 996; 1452; 1460; 8960].

(** The largest index whose segment size is not above [pmss]. *)
Fixpoint mss_index (i : nat) (pmss : Z) : nat :=
  match i with
  | O => O
  | S i' => if nth i tcp_sc_msstab 0 <=? pmss then i else mss_index i' pmss
  end.

Definition bit (b : bool) : Z := if b then 1 else 0.

(** The parameters in the low seven bits of the cookie, and those in the timestamp. *)
Definition cookie_params (odd : bool) (off : Z) (mss : nat) : Z := Z.lor (Z.lor (bit odd) (Z.shiftl off 1)) (Z.shiftl (Z.of_nat mss) 4).
Definition ts_params (sc : syncache) : Z :=
  Z.lor (Z.lor (Z.lor (bit (scf sc SCF_SIGNATURE)) (Z.shiftl (bit (scf sc SCF_SACK)) 1)) (Z.shiftl (sc_requested_s_scale sc) 2))
    (Z.shiftl (sc_requested_r_scale sc) 6).

Definition syncookie_generate (e : env) (sch : syncache_head) (sc : syncache) (n : net) : syncache_head * syncache * net :=
  let '(sch, n) := reseed sch n in
  let off := Z.land (sc_iss sc) 7 in
  let pmss := umax (umin (sc_peer_mss sc) (tcp_mssopt e (sc_inc sc))) (tcp_minmss e) in
  let data := cookie_params (sch_oddeven sch) off (mss_index 7 pmss) in
  let '(d0, d1, d2, d3) := digest e (rotated (secbits sch (sch_oddeven sch)) off) (sc_inc sc) (sc_irs sc) data in
  let sc := sc <| sc_iss := Z.lor data (u32 (Z.shiftl d0 7)) |> in
  let sc :=
    if scf sc SCF_TIMESTAMP then
      let data := Z.lxor (Z.lor (ts_params sc) (u32 (Z.shiftl d2 10))) d3 in
      sc <| sc_ts := data |> <| sc_tsoff := u32 (data - ts_ticks n) |>
    else sc in
  (sch, sc, n).

(** What the cookie and the timestamp carry; [lsn_*]: of the listening socket. *)
Record listener := mk_listener {
  lsn_ttl : Z;
  lsn_tos : Z;
  lsn_win : Z;
  lsn_noopt : bool;
  lsn_promisc : bool }.

Definition clip_window (win : Z) : Z := Z.min (Z.max win 0) TcpCC.CC.TCP_MAXWIN.

Definition zero_inc : in_conninfo := mk_inc 0 0 0 0 0 0 0.
Definition zero_sc : syncache := mk_sc zero_inc 0 0 0 0 0 0 0 0 0 0 0 0 0 0 None 0 0.

Definition syncookie_lookup (e : env) (inc : in_conninfo) (sch : syncache_head) (to : tcpopt) (th : tcphdr) (l : listener) (n : net) :
    option syncache :=
  let ack := u32 (th_ack th - 1) in
  let seq := u32 (th_seq th - 1) in
  let off := Z.land (Z.shiftr ack 1) 7 in
  let mss := Z.land (Z.shiftr ack 4) 7 in
  let flags := Z.land ack 0x7f in
  if u32 (sch_reseed sch + SYNCOOKIE_LIFETIME) <? time_uptime n then None
  else
    let '(d0, d1, d2, d3) := digest e (rotated (secbits sch (Z.odd flags)) off) inc seq flags in
    if negb (Z.land ack (u32 (Z.lnot 0x7f)) =? u32 (Z.shiftl d0 7)) then None
    else
      let data := if has_flag (to_flags to) TOF_TS then Z.lxor d3 (to_tsecr to) else 0 in
      if has_flag (to_flags to) TOF_TS && negb (Z.land data (u32 (Z.lnot 0x3ff)) =? u32 (Z.shiftl d2 10)) then None
      else
        let sc := zero_sc <| sc_inc := inc |> <| sc_irs := seq |> <| sc_iss := ack |> <| sc_ip_ttl := lsn_ttl l |> <| sc_ip_tos := lsn_tos l |> in
        let sc :=
          if negb (data =? 0) then
            let sc := (set_flag SCF_TIMESTAMP sc) <| sc_tsreflect := to_tsval to |> <| sc_ts := to_tsecr to |>
                        <| sc_tsoff := u32 (to_tsecr to - ts_ticks n) |> in
            let sc := if Z.testbit data 0 then set_flag SCF_SIGNATURE sc else sc in
            let sc := if Z.testbit data 1 then set_flag SCF_SACK sc else sc in
            let sc := sc <| sc_requested_s_scale := umin (Z.land (Z.shiftr data 2) 0xf) TCP_MAX_WINSHIFT |>
                         <| sc_requested_r_scale := umin (Z.land (Z.shiftr data 6) 0xf) TCP_MAX_WINSHIFT |> in
            if negb (sc_requested_s_scale sc =? 0) || negb (sc_requested_r_scale sc =? 0) then set_flag SCF_WINSCALE sc else sc
          else set_flag SCF_NOOPT sc in
        Some (sc <| sc_wnd := clip_window (lsn_win l) |> <| sc_rxmits := 0 |> <| sc_peer_mss := nth (Z.to_nat mss) tcp_sc_msstab 0 |>).

(** ** The ACK that completes a handshake *)

(** Without the SYN,ACK of a passive connection the ACK is believed. *)
Definition trust_ack (to : tcpopt) (th : tcphdr) (sc : syncache) : syncache :=
  if scf sc SCF_PASSIVE && negb (scf sc SCF_PASSIVE_SYNACK)
  then sc <| sc_iss := u32 (th_ack th - 1) |> <| sc_ts := to_tsecr to |>
  else sc.

Definition ack_valid (to : tcpopt) (th : tcphdr) (sc : syncache) : bool :=
  (th_ack th =? u32 (sc_iss sc + 1)) &&
  negb (SEQ_LEQ (th_seq th) (sc_irs sc) || SEQ_GT (th_seq th) (u32 (sc_irs sc + sc_wnd sc))) &&
  negb (negb (scf sc SCF_TIMESTAMP) && has_flag (to_flags to) TOF_TS) &&
  negb (has_flag (to_flags to) TOF_TS && negb (to_tsecr to =? sc_ts sc)).

(** The connection to make, if any: [syncache_socket] follows.  An entry that was found is taken out in any case. *)
Definition syncache_expand (e : env) (inc : in_conninfo) (to : tcpopt) (th : tcphdr) (l : listener) (m : option mbuf) (n : net) :
    option (option syncache * net) :=
  '(k, sch, found) ← syncache_lookup inc m n;
  '(sc, n) ← match found with
             | Some (j, sc) => n ← syncache_drop k j n; Some (Some sc, n)
             | None =>
                 if negb (syncookies e) || has_flag (inc_flags inc) INC_PASSIVE then Some (None, n)
                 else Some (syncookie_lookup e inc sch to th l n, n)
             end;
  match sc with
  | None => Some (None, n)
  | Some sc => let sc := trust_ack to th sc in Some (if ack_valid to th sc then Some sc else None, n)
  end.

(** ** The SYN *)

(** What the SYN filter of the listening socket decides. *)
Inductive decision := SYNF_ACCEPT | SYNF_ACCEPT_PASSIVE | SYNF_REJECT_RST | SYNF_REJECT_SILENT | SYNF_DEFER.
Record verdict := mk_verdict {
  v_decision : decision;
  v_passive : bool;
  v_initial_timeout : Z;
  v_altfib : Z }.

(** Duplicate SYN: the SYN,ACK is sent again and the count of retransmissions starts over. *)
Definition dup_syn (e : env) (to : tcpopt) (k j : nat) (sch : syncache_head) (sc : syncache) (n : net) : option net :=
  let sc := if scf sc SCF_TIMESTAMP && has_flag (to_flags to) TOF_TS then sc <| sc_tsreflect := to_tsval to |>
            else clear_flag SCF_TIMESTAMP sc in
  let '(error, n) := syncache_respond e sc n in
  if (error =? 0) && negb (scf sc SCF_NO_TIMEOUT_RESET) then
    '(sc, sch) ← syncache_timeout e (ticks n) true (-1) (sc <| sc_rxmits := 0 |>) sch;
    Some (put_entry k j sch sc n)
  else Some (put_entry k j sch sc n).

Fixpoint pick_wscale (fuel : nat) (sb_max wscale : Z) : Z :=
  match fuel with
  | O => wscale
  | S fuel => if (wscale <? TCP_MAX_WINSHIFT) && (Z.shiftl TcpCC.CC.TCP_MAXWIN wscale <? sb_max) then pick_wscale fuel sb_max (wscale + 1) else wscale
  end.

Definition fill (e : env) (inc : in_conninfo) (to : tcpopt) (th : tcphdr) (l : listener) (passive : bool) (initial_timeout altfib iss ts : Z) : syncache :=
  let sc := zero_sc <| sc_inc := inc |> <| sc_ip_tos := lsn_tos l |> <| sc_ip_ttl := lsn_ttl l |> <| sc_irs := th_seq th |> <| sc_iss := iss |>
              <| sc_altfib := altfib |> <| sc_wnd := clip_window (lsn_win l) |> in
  let sc := if passive then set_flag SCF_PASSIVE sc else sc in
  let sc := if passive && (0 <? initial_timeout) then set_flag SCF_NO_TIMEOUT_RESET sc else sc in
  let sc := if passive && has_flag (inc_flags inc) INC_CONVONTMO then set_flag SCF_CONVERT_ON_TIMEOUT sc else sc in
  let sc := if do_rfc1323 e && has_flag (to_flags to) TOF_TS
            then (set_flag SCF_TIMESTAMP sc) <| sc_tsreflect := to_tsval to |> <| sc_ts := ts |> else sc in
  let sc := if do_rfc1323 e && has_flag (to_flags to) TOF_SCALE
            then (set_flag SCF_WINSCALE sc) <| sc_requested_r_scale := Z.land (pick_wscale 14 (sb_max e) 0) 0xf |>
                   <| sc_requested_s_scale := Z.land (to_wscale to) 0xf |> else sc in
  let sc := if has_flag (to_flags to) TOF_SACKPERM then set_flag SCF_SACK sc else sc in
  let sc := if has_flag (to_flags to) TOF_MSS then sc <| sc_peer_mss := u16 (to_mss to) |> else sc in
  let sc := if lsn_noopt l then set_flag SCF_NOOPT sc else sc in
  if has_flag (th_flags th) (Z.lor TH_ECE TH_CWR) && do_ecn e then set_flag SCF_ECN sc else sc.

(** An entry that was filled in and is to be answered: its row, whether it was allocated (or is on the stack, for a
    cookie only), and the timeout to start with. *)
Record pending := mk_pending {
  p_row : nat;
  p_sc : syncache;
  p_allocated : bool;
  p_passive : bool;
  p_timeout : Z }.

(** A second try after the oldest entry of the row is dropped. *)
Definition alloc_entry (k : nat) (n : net) : option (bool * net) :=
  let '(ok, n) := zalloc n in
  if ok then Some (true, n)
  else
    sch ← row k n;
    n ← match sch_bucket sch with [] => Some n | _ => syncache_drop k (length (sch_bucket sch) - 1) n end;
    Some (zalloc n).

Definition add_entry (e : env) (inc : in_conninfo) (to : tcpopt) (th : tcphdr) (l : listener) (m : option mbuf) (k : nat) (passive : bool)
    (initial_timeout altfib : Z) (n : net) : option (option pending * net) :=
  '(ok, n) ← alloc_entry k n;
  if negb ok && negb (syncookies e && negb passive) then Some (None, n)
  else
    sch ← row k n;
    let '(iss, n) := arc4random n in
    let sc := fill e inc to th l passive initial_timeout altfib iss (ts_ticks n) in
    let '(sch, sc, n) := if syncookies e && negb passive then syncookie_generate e sch sc n else (sch, sc, n) in
    let sc := sc <| sc_fib := frame_fib m |> in
    let sc := if lsn_promisc l then sc <| sc_l2tag := frame_tags m |> else sc in
    Some (Some (mk_pending k sc ok passive initial_timeout), put_row k sch n).

(** [verdict]: of the SYN filter, when there is one. *)
Definition syncache_add (e : env) (inc : in_conninfo) (to : tcpopt) (th : tcphdr) (l : listener) (filter : option verdict) (m : option mbuf)
    (initial_timeout : Z) (n : net) : option (option pending * net) :=
  let passive := has_flag (inc_flags inc) INC_PASSIVE in
  '(k, sch, found) ← syncache_lookup inc m n;
  match found with
  | Some (j, sc) => n ← dup_syn e to k j sch sc n; Some (None, n)
  | None =>
      match filter with
      | Some v =>
          if has_flag (inc_flags inc) INC_SYNFILTERED then add_entry e inc to th l m k passive initial_timeout (inc_fibnum inc) n
          else
            let initial_timeout := if v_passive v then v_initial_timeout v else initial_timeout in
            match v_decision v with
            | SYNF_ACCEPT => add_entry e inc to th l m k passive initial_timeout (v_altfib v) n
            | SYNF_ACCEPT_PASSIVE => add_entry e inc to th l m k true initial_timeout (v_altfib v) n
            | _ => Some (None, n)
            end
      | None => add_entry e inc to th l m k passive initial_timeout (inc_fibnum inc) n
      end
  end.

(** The end of [_syncache_add], the row not being locked. *)
Definition syncache_add_finish (e : env) (p : pending) (n : net) : option net :=
  let '(error, n) := syncache_respond e (p_sc p) n in
  if negb (error =? 0) || negb (p_allocated p) then Some n
  else if syncookies e && syncookiesonly e && negb (p_passive p) then Some n
  else syncache_insert e (p_row p) (p_timeout p) (p_sc p) n.

(** ** The table *)

Definition empty_row : syncache_head := mk_sch [] None 0 0 false (replicate SYNCOOKIE_SECRET_SIZE 0) (replicate SYNCOOKIE_SECRET_SIZE 0) 0.

(** The tunables, where they are given. *)
Definition syncache_init (secret : Z) (t_hashsize t_bucketlimit t_cachelimit : option Z) : tcp_syncache :=
  let size := u32 (default TCP_SYNCACHE_HASHSIZE t_hashsize) in
  let limit := u32 (default TCP_SYNCACHE_BUCKETLIMIT t_bucketlimit) in
  let size := if negb (HostCache.Hostcache.powerof2 size) || (size =? 0) then TCP_SYNCACHE_HASHSIZE else size in
  mk_syncache (replicate (Z.to_nat size) empty_row) size (u32 (size - 1)) limit 0 (u32 (default (size * limit) t_cachelimit)) SYNCACHE_MAXREXMTS (u32 secret).

(** The assertions are part of it: [None] when one fails. *)
Fixpoint drop_all (len k : nat) (n : net) : option net :=
  match len with
  | O => Some n
  | S len => n ← syncache_drop k 0 n; drop_all len k n
  end.
Definition destroy_row (k : nat) (n : net) : option net :=
  sch ← row k n;
  n ← drop_all (length (sch_bucket sch)) k (put_row k (sch <| sch_timer := None |>) n);
  sch ← row k n;
  if bool_decide (sch_bucket sch = []) && (sch_length sch =? 0) then Some n else None.
Fixpoint destroy_rows (ks : list nat) (n : net) : option net :=
  match ks with
  | [] => Some n
  | k :: ks => n ← destroy_row k n; destroy_rows ks n
  end.
Definition syncache_destroy (n : net) : option net :=
  n ← destroy_rows (seq 0 (Z.to_nat (hashsize (cache n)))) n;
  if cache_count (cache n) =? 0 then Some n else None.

Definition syncache_pcbcount (n : net) : Z := fold_left (fun count sch => s32 (count + sch_length sch)) (hashbase (cache n)) 0.

(** A tick of the clock: the callouts whose time it is run. *)
Fixpoint run_rows (e : env) (ks : list nat) (n : net) : option net :=
  match ks with
  | [] => Some n
  | k :: ks =>
      sch ← row k n;
      n ← (if bool_decide (sch_timer sch = Some (ticks n)) then syncache_timer e k n else Some n);
      run_rows e ks n
  end.
Definition tick (e : env) (n : net) : option net :=
  let n := n <| ticks := s32 (ticks n + 1) |> in run_rows e (seq 0 (length (hashbase (cache n)))) n.
End Cache.
