(* ===== verification/SyncacheTable.v ===== *)
(** * The SYN cache stays a table, and its timers keep time

    Proofs about [Syncache]: the invariant of the table under every operation, that
    no entry is overdue, and how long an entry lives. *)

From S2P Require Import Prelude TcpSeq TcpOptions TcpCC TcpTimer InPromisc Syncache.

Module CacheTable.

Import TcpOptions.Options InPromisc.Promisc Syncache.Cache.

(** ** Time *)

Lemma off_next now x : off now x <> - 2 ^ 31 -> off (s32 (now + 1)) x = off now x - 1.
Proof. unfold off. intros. wrap. Qed.
Lemma off_now now x : s32 now = now -> s32 x = x -> off now x = 0 -> x = now.
Proof. unfold off. intros. wrap. Qed.
Lemma off_plus now d : - 2 ^ 31 <= d < 2 ^ 31 -> off now (s32 (now + d)) = d.
Proof. unfold off. intros. wrap. Qed.
Lemma s32_s32 x : s32 (s32 x) = s32 x.
Proof. wrap. Qed.
Lemma later_off base a b : - 2 ^ 31 <= off base a - off base b < 2 ^ 31 -> TSTMP_LT a b = (off base a <? off base b).
Proof. intros H. unfold TSTMP_LT. rewrite (seq_sub_off base a b H). zbool_cases; lia. Qed.
Lemma off_back now x : s32 x = x -> s32 (now + off now x) = x.
Proof. unfold off. intros. wrap. Qed.

(** ** The invariant *)

Section Table.
Context (e : env) (T : Z).

(** What is waited for: the back-off of a SYN,ACK, or a time the SYN filter chose. *)
Definition wait (r : nat) : Z := 3 * hz e * nth r TcpTimer.Timer.tcp_backoff 0.

Record times_ok : Prop := {
  t_hz : 0 < hz e;
  t_waits : 3 * hz e * 512 <= T;
  t_max : T < INT_MAX }.
Context (Ht : times_ok).

Record entry_ok (limit now : Z) (sc : syncache) : Prop := {
  en_time : 0 < off now (sc_rxttime sc) <= T;
  en_norm : s32 (sc_rxttime sc) = sc_rxttime sc;
  en_rxmits : 1 <= sc_rxmits sc <= limit + 1 }.

Record row_ok (blimit limit now : Z) (sch : syncache_head) : Prop := {
  r_length : sch_length sch = Z.of_nat (length (sch_bucket sch));
  r_limit : sch_length sch <= blimit;
  r_entries : Forall (entry_ok limit now) (sch_bucket sch);
  r_timer : sch_bucket sch <> [] ->
    sch_timer sch = Some (sch_nextc sch) /\ s32 (sch_nextc sch) = sch_nextc sch /\ 0 < off now (sch_nextc sch) /\
    Forall (fun sc => off now (sch_nextc sch) <= off now (sc_rxttime sc)) (sch_bucket sch) }.

Definition total (rows : list syncache_head) : nat := sum_list_with (fun sch => length (sch_bucket sch)) rows.

Record table_ok (n : net) : Prop := {
  tb_size : exists j : nat, hashsize (cache n) = 2 ^ Z.of_nat j /\ hashmask (cache n) = 2 ^ Z.of_nat j - 1;
  tb_rows : length (hashbase (cache n)) = Z.to_nat (hashsize (cache n));
  tb_limit : 1 <= bucket_limit (cache n) < 2 ^ 32;
  tb_rexmt : 0 <= rexmt_limit (cache n) <= 12;
  tb_now : s32 (ticks n) = ticks n;
  tb_heads : Forall (row_ok (bucket_limit (cache n)) (rexmt_limit (cache n)) (ticks n)) (hashbase (cache n));
  tb_count : cache_count (cache n) = u32 (Z.of_nat (total (hashbase (cache n)))) }.

Lemma wait_bounds r : (r <= 12)%nat -> 0 < wait r <= T.
Proof.
  intros H. destruct Ht as [H1 H2 H3]. assert (B : 1 <= nth r TcpTimer.Timer.tcp_backoff 0 <= 512).
  { do 13 (destruct r as [|r]; [cbn; lia|]). lia. }
  unfold wait. nia.
Qed.

Lemma backoff_some r : (r <= 12)%nat -> TcpTimer.Timer.tcp_backoff !! r = Some (nth r TcpTimer.Timer.tcp_backoff 0).
Proof. intros H. do 13 (destruct r as [|r]; [reflexivity|]). lia. Qed.

(** ** Rows *)

Lemma row_lookup n k sch : table_ok n -> row k n = Some sch -> row_ok (bucket_limit (cache n)) (rexmt_limit (cache n)) (ticks n) sch.
Proof. intros H E. exact (proj1 (Forall_lookup _ _) (tb_heads n H) k sch E). Qed.

Lemma total_insert rows k sch sch' : rows !! k = Some sch ->
  Z.of_nat (total (<[k := sch']> rows)) = Z.of_nat (total rows) + Z.of_nat (length (sch_bucket sch')) - Z.of_nat (length (sch_bucket sch)).
Proof.
  revert k. induction rows as [|r rows IH]; intros k E; [discriminate|]. destruct k as [|k].
  - change (<[0%nat := sch']> (r :: rows)) with (sch' :: rows). cbn in E. simplify_eq. unfold total. cbn [sum_list_with]. lia.
  - change (<[S k := sch']> (r :: rows)) with (r :: <[k := sch']> rows). specialize (IH k E). unfold total in *. cbn [sum_list_with]. lia.
Qed.

(** A row is replaced, and the count goes with it. *)
Lemma table_put n k sch sch' d : table_ok n -> row k n = Some sch ->
  row_ok (bucket_limit (cache n)) (rexmt_limit (cache n)) (ticks n) sch' ->
  Z.of_nat (length (sch_bucket sch')) = Z.of_nat (length (sch_bucket sch)) + d -> table_ok (count_by d (put_row k sch' n)).
Proof.
  intros H E R Hd. destruct H as [H1 H2 H3 H4 H5 H6 H7]. split; cbn; auto.
  - rewrite length_insert. exact H2.
  - apply Forall_insert; assumption.
  - rewrite H7, u32_add_l, (total_insert _ _ _ _ E), Hd. f_equal. lia.
Qed.

Lemma table_same n k sch sch' : table_ok n -> row k n = Some sch ->
  row_ok (bucket_limit (cache n)) (rexmt_limit (cache n)) (ticks n) sch' -> length (sch_bucket sch') = length (sch_bucket sch) -> table_ok (put_row k sch' n).
Proof.
  intros H E R Hl. destruct H as [H1 H2 H3 H4 H5 H6 H7]. split; cbn; auto.
  - rewrite length_insert. exact H2.
  - apply Forall_insert; assumption.
  - rewrite H7, (total_insert _ _ _ _ E), Hl. f_equal. lia.
Qed.

(** What an operation leaves of everything but what it uses up. *)
Definition same_table (n n' : net) : Prop := cache n' = cache n /\ ticks n' = ticks n.

Definition same_hash (n n' : net) : Prop := hashmask (cache n') = hashmask (cache n) /\ hash_secret (cache n') = hash_secret (cache n).

Lemma table_of_same n n' : same_table n n' -> table_ok n -> table_ok n'.
Proof. intros [E1 E2] [H1 H2 H3 H4 H5 H6 H7]. split; rewrite ?E1, ?E2; auto. Qed.

Lemma respond_same sc n : same_table n (snd (syncache_respond e sc n)).
Proof. unfold syncache_respond. destruct (scf sc SCF_PASSIVE); [split; reflexivity|]. unfold zalloc. destruct (default true _); cbn; split; reflexivity. Qed.

Lemma alloc_same n : same_table n (snd (zalloc n)).
Proof. split; reflexivity. Qed.

(** ** Dropping an entry *)

Definition dropped (j : nat) (sch : syncache_head) : syncache_head :=
  sch <| sch_bucket := delete j (sch_bucket sch) |> <| sch_length := u32 (sch_length sch - 1) |>.

Lemma dropped_ok blimit limit now j sch : blimit < 2 ^ 32 -> row_ok blimit limit now sch -> (j < length (sch_bucket sch))%nat ->
  row_ok blimit limit now (dropped j sch) /\ Z.of_nat (length (sch_bucket (dropped j sch))) = Z.of_nat (length (sch_bucket sch)) + -1.
Proof.
  intros Hb [R1 R2 R3 R4] Hj. assert (L : length (delete j (sch_bucket sch)) = (length (sch_bucket sch) - 1)%nat) by (apply length_delete, lookup_lt_is_Some; exact Hj).
  split; [split; cbn|].
  - rewrite L, u32_small by lia. lia.
  - rewrite u32_small by lia. lia.
  - apply Forall_delete, R3.
  - intros Hn. destruct R4 as (A1 & A2 & A3 & A4); [intros E; rewrite E in Hj; cbn in Hj; lia|]. split_and!; auto. apply Forall_delete, A4.
  - cbn. lia.
Qed.

Lemma drop_ok n k sch j : table_ok n -> row k n = Some sch -> (j < length (sch_bucket sch))%nat ->
  syncache_drop k j n = Some (count_by (-1) (put_row k (dropped j sch) n)) /\ table_ok (count_by (-1) (put_row k (dropped j sch) n)).
Proof.
  intros H E Hj. destruct (lookup_lt_is_Some_2 (sch_bucket sch) j Hj) as [x Hx]. split.
  - unfold syncache_drop. rewrite E. cbn. rewrite Hx. reflexivity.
  - destruct (dropped_ok _ _ _ j sch (proj2 (tb_limit n H)) (row_lookup n k sch H E) Hj). apply (table_put n k sch); assumption.
Qed.

Lemma row_put k sch n : is_Some (row k n) -> row k (put_row k sch n) = Some sch.
Proof. intros H. unfold row, put_row in *. cbn. apply list_lookup_insert_eq, lookup_lt_is_Some, H. Qed.

(** ** Setting the time of an entry *)

Definition delay (tt : Z) (sc : syncache) : Z := if 0 <? tt then tt else wait (Z.to_nat (sc_rxmits sc)).
Definition timed (now tt : Z) (sc : syncache) : syncache :=
  sc <| sc_rxttime := s32 (now + delay tt sc) |> <| sc_rxmits := u16 (sc_rxmits sc + 1) |>.
(** The row when the time of an entry is set; [c]: how long until its timer. *)
Definition retimed (now : Z) (docallout : bool) (d : Z) (sch : syncache_head) : syncache_head :=
  if d <? off now (sch_nextc sch)
  then let sch := sch <| sch_nextc := s32 (now + d) |> in if docallout then sch <| sch_timer := Some (s32 (now + d)) |> else sch
  else sch.

Lemma delay_bounds tt sc : tt <= T -> 0 <= sc_rxmits sc <= 12 -> 0 < delay tt sc <= T.
Proof. intros H1 H2. unfold delay. destruct (Z.ltb_spec 0 tt); [lia | apply wait_bounds; lia]. Qed.

Lemma timeout_ok now docallout tt sc sch : tt <= T -> 0 <= sc_rxmits sc <= 12 -> 0 <= off now (sch_nextc sch) ->
  syncache_timeout e now docallout tt sc sch = Some (timed now tt sc, retimed now docallout (delay tt sc) sch).
Proof.
  intros H1 H2 H3. pose proof (delay_bounds tt sc H1 H2) as D. pose proof (off_range now (sch_nextc sch)) as O. destruct Ht as [_ _ Hm]. unfold INT_MAX in Hm.
  assert (E : (if 0 <? tt then Some (s32 (now + tt)) else backoff ← TcpTimer.Timer.tcp_backoff !! Z.to_nat (sc_rxmits sc); Some (s32 (now + 3 * hz e * backoff)))
    = Some (s32 (now + delay tt sc))).
  { unfold delay, wait. destruct (0 <? tt); [reflexivity|]. rewrite backoff_some by lia. reflexivity. }
  unfold syncache_timeout. rewrite E. cbn [mbind option_bind]. rewrite (later_off now) by (rewrite off_plus; lia). rewrite off_plus by lia.
  unfold retimed, timed. destruct (delay tt sc <? off now (sch_nextc sch)); [|reflexivity]. destruct docallout; [|reflexivity].
  unfold arm. cbn. rewrite <- (off_plus now (delay tt sc)) at 4 by lia. fold (off now (s32 (now + delay tt sc))). rewrite off_plus by lia.
  rewrite Z.max_r by lia. reflexivity.
Qed.

Lemma timed_ok limit now tt sc : tt <= T -> 0 <= sc_rxmits sc <= limit -> limit <= 12 -> entry_ok limit now (timed now tt sc).
Proof.
  intros H1 H2 H3. pose proof (delay_bounds tt sc H1 ltac:(lia)) as D. destruct Ht as [_ _ Hm]. unfold INT_MAX in Hm.
  split; cbn; [rewrite off_plus by lia; exact D | apply s32_s32 |]. assert (u16 (sc_rxmits sc + 1) = sc_rxmits sc + 1) as -> by wrap. lia.
Qed.
(** ** Inserting an entry *)

Definition longer (now : Z) (sch : syncache_head) : syncache_head :=
  let sch := sch <| sch_length := u32 (sch_length sch + 1) |> in
  if sch_length sch =? 1 then sch <| sch_nextc := s32 (now + INT_MAX) |> else sch.

Section Join.
Context (blimit limit now tt : Z) (sc : syncache) (sch : syncache_head).
Context (R : row_ok blimit limit now sch) (Hl : sch_length sch < blimit) (Hb : blimit < 2 ^ 32) (Htt : tt <= T).
Context (Hr : sc_rxmits sc = 0) (Hlim : 0 <= limit <= 12).

Lemma longer_length : sch_length (longer now sch) = sch_length sch + 1 /\ sch_bucket (longer now sch) = sch_bucket sch.
Proof.
  destruct R as [R1 _ _ _]. unfold longer. cbv zeta. assert (E : u32 (sch_length sch + 1) = sch_length sch + 1) by (apply u32_small; lia).
  destruct (_ =? 1); cbn; rewrite E; auto.
Qed.

Lemma longer_nextc : (sch_bucket sch = [] /\ off now (sch_nextc (longer now sch)) = INT_MAX) \/
  (sch_bucket sch <> [] /\ sch_nextc (longer now sch) = sch_nextc sch /\ sch_timer (longer now sch) = sch_timer sch).
Proof.
  destruct R as [R1 _ _ _]. unfold longer. cbv zeta. assert (E : u32 (sch_length sch + 1) = sch_length sch + 1) by (apply u32_small; lia).
  destruct (sch_bucket sch) as [|x l] eqn:Eb; cbn [length] in R1.
  - left. split; [reflexivity|]. cbn. rewrite E, R1. cbn. apply off_plus. unfold INT_MAX. lia.
  - right. split; [discriminate|]. cbn. rewrite E, R1. destruct (Z.eqb_spec (Z.of_nat (S (length l)) + 1) 1); [lia|]. cbn. auto.
Qed.

Lemma joined_ok : row_ok blimit limit now ((retimed now true (delay tt sc) (longer now sch)) <| sch_bucket := timed now tt sc :: sch_bucket sch |>).
Proof.
  pose proof longer_length as [L1 L2]. pose proof (delay_bounds tt sc Htt ltac:(lia)) as D. pose proof Ht as [_ _ Hm]. pose proof (timed_ok limit now tt sc Htt ltac:(lia) ltac:(lia)) as N.
  pose proof R as [R1 R2 R3 R4].
  assert (Et : off now (sc_rxttime (timed now tt sc)) = delay tt sc) by (cbn; apply off_plus; unfold INT_MAX in Hm; lia).
  assert (Lr : sch_length (retimed now true (delay tt sc) (longer now sch)) = sch_length sch + 1) by (unfold retimed; destruct (_ <? _); exact L1).
  split; cbn [sch_length sch_bucket sch_timer sch_nextc update eta eta_syncache_head].
  - rewrite Lr, R1. cbn [length]. lia.
  - rewrite Lr. lia.
  - constructor; assumption.
  - intros _. unfold retimed. destruct longer_nextc as [[Eb En]|(Eb & En & Ett)].
    + rewrite En. destruct (Z.ltb_spec (delay tt sc) INT_MAX); [|lia]. cbn. rewrite off_plus by (unfold INT_MAX in Hm; lia). rewrite Eb.
      split_and!; [reflexivity | apply s32_s32 | lia |]. constructor; [|constructor]. fold (timed now tt sc). rewrite Et. lia.
    + rewrite En. destruct (R4 Eb) as (A1 & A2 & A3 & A4). destruct (Z.ltb_spec (delay tt sc) (off now (sch_nextc sch))); cbn [sch_timer sch_nextc update eta eta_syncache_head].
      * rewrite off_plus by (unfold INT_MAX in Hm; lia). split_and!; [reflexivity | apply s32_s32 | lia |]. constructor; [rewrite Et; lia|].
        eapply Forall_impl; [exact A4|]. cbn. intros x Hx. lia.
      * rewrite En, Ett. split_and!; auto. constructor; [rewrite Et; lia | exact A4].
Qed.
End Join.

Lemma insert_ok n k tt sc : table_ok n -> is_Some (row k n) -> tt <= T -> sc_rxmits sc = 0 ->
  exists n', syncache_insert e k tt sc n = Some n' /\ table_ok n' /\ ticks n' = ticks n /\ length (hashbase (cache n')) = length (hashbase (cache n)) /\
    same_hash n n' /\ rexmt_limit (cache n') = rexmt_limit (cache n) /\ exists sch' b, row k n' = Some sch' /\ sch_bucket sch' = timed (ticks n) tt sc :: b.
Proof.
  intros H [sch E] Htt Hr. pose proof (row_lookup n k sch H E) as R. pose proof (tb_limit n H) as Hb. unfold syncache_insert. rewrite E. cbn [mbind option_bind].
  assert (S : exists n1 sch1, (if bucket_limit (cache n) <=? sch_length sch then syncache_drop k (length (sch_bucket sch) - 1) n else Some n) = Some n1 /\
    table_ok n1 /\ row k n1 = Some sch1 /\ sch_length sch1 < bucket_limit (cache n) /\ bucket_limit (cache n1) = bucket_limit (cache n) /\
    rexmt_limit (cache n1) = rexmt_limit (cache n) /\ ticks n1 = ticks n /\ length (hashbase (cache n1)) = length (hashbase (cache n)) /\ same_hash n n1).
  { destruct (Z.leb_spec (bucket_limit (cache n)) (sch_length sch)).
    - assert (Hj : (length (sch_bucket sch) - 1 < length (sch_bucket sch))%nat) by (rewrite (r_length _ _ _ _ R) in *; lia).
      destruct (drop_ok n k sch _ H E Hj) as [-> H1]. eexists. exists (dropped (length (sch_bucket sch) - 1) sch). split; [reflexivity|]. split; [exact H1|].
      split_and!; try reflexivity; [apply (row_put k _ n); eauto | | cbn; apply length_insert | split; reflexivity]. cbn. rewrite (r_length _ _ _ _ R) in *.
      pose proof (r_limit _ _ _ _ R). rewrite (r_length _ _ _ _ R) in *. rewrite u32_small; lia.
    - exists n, sch. split_and!; auto. split; reflexivity. }
  destruct S as (n1 & sch1 & -> & H1 & E1 & L1 & B1 & B2 & B3 & B4 & B5). cbn [mbind option_bind]. rewrite E1. cbn [mbind option_bind]. fold (longer (ticks n1) sch1).
  pose proof (row_lookup n1 k sch1 H1 E1) as R1. rewrite B1, B2 in R1. pose proof (tb_rexmt n H) as Hx.
  assert (On : 0 <= off (ticks n1) (sch_nextc (longer (ticks n1) sch1))).
  { destruct (longer_nextc _ _ _ _ R1 L1 (proj2 Hb)) as [[_ En]|(Eb & En & _)]; rewrite En; [unfold INT_MAX; lia|].
    destruct (r_timer _ _ _ _ R1 Eb) as (_ & _ & A & _). lia. }
  change (let sch := sch1 <| sch_length := u32 (sch_length sch1 + 1) |> in if sch_length sch =? 1 then sch <| sch_nextc := s32 (ticks n1 + INT_MAX) |> else sch) with (longer (ticks n1) sch1).
  rewrite timeout_ok by (rewrite ?Hr; auto; lia). cbn [mbind option_bind]. eexists. split; [reflexivity|].
  pose proof (joined_ok _ _ _ tt sc sch1 R1 L1 (proj2 Hb) Htt Hr Hx) as J. destruct (longer_length _ _ _ _ R1 L1 (proj2 Hb)) as [_ Lb].
  assert (Eb : sch_bucket (retimed (ticks n1) true (delay tt sc) (longer (ticks n1) sch1)) = sch_bucket sch1) by (unfold retimed; destruct (_ <? _); exact Lb).
  rewrite Eb. split_and!; [|exact B3 | cbn; rewrite length_insert; exact B4 | exact B5 | exact B2 |
    eexists; exists (sch_bucket sch1); split; [cbn; apply (row_put k _ n1); eauto | cbn; rewrite B3; reflexivity]]. apply (table_put n1 k sch1); [assumption | assumption | rewrite B1, B2; exact J |]. cbn. lia.
Qed.
(** ** Finding an entry *)

Lemma row_of_bound n inc m : table_ok n -> (row_of inc m n < length (hashbase (cache n)))%nat.
Proof.
  intros H. destruct (tb_size n H) as (j & E1 & E2). rewrite (tb_rows n H), E1. unfold row_of, syncache_hash_promisc. rewrite E2.
  replace (2 ^ Z.of_nat j - 1) with (Z.ones (Z.of_nat j)) by (rewrite Z.ones_equiv; lia). rewrite Z.land_ones by lia.
  pose proof (Z.pow_pos_nonneg 2 (Z.of_nat j) ltac:(lia) ltac:(lia)). match goal with |- context [?a mod ?b] => pose proof (Z.mod_pos_bound a b ltac:(lia)) end. lia.
Qed.

Lemma cache_lookup_ok n inc m : table_ok n -> exists sch r, syncache_lookup inc m n = Some (row_of inc m n, sch, r) /\ row (row_of inc m n) n = Some sch /\
  match r with
  | Some (j, sc) => sch_bucket sch !! j = Some sc /\ sc_matches inc m sc = true
  | None => Forall (fun sc => sc_matches inc m sc = false) (sch_bucket sch)
  end.
Proof.
  intros H. destruct (lookup_lt_is_Some_2 _ _ (row_of_bound n inc m H)) as [sch E]. exists sch. eexists. unfold syncache_lookup, row. rewrite E.
  split; [reflexivity|]. split; [reflexivity|]. destruct (list_find _ _) as [[j sc]|] eqn:F.
  - apply list_find_Some in F as (F1 & F2 & _). split; [exact F1 | apply Is_true_true; exact F2].
  - apply list_find_None in F. eapply Forall_impl; [exact F|]. cbn. intros sc Hn. destruct (sc_matches inc m sc); [destruct (Hn I) | reflexivity].
Qed.

(** An entry that keeps its time is changed. *)
Lemma put_entry_ok n k j sch sc sc' : table_ok n -> row k n = Some sch -> sch_bucket sch !! j = Some sc ->
  sc_rxttime sc' = sc_rxttime sc -> sc_rxmits sc' = sc_rxmits sc -> table_ok (put_entry k j sch sc' n).
Proof.
  intros H E Ej E1 E2. pose proof (row_lookup n k sch H E) as [R1 R2 R3 R4]. pose proof (proj1 (Forall_lookup _ _) R3 j sc Ej) as [N1 N2 N3].
  apply (table_same n k sch); [assumption | assumption | | cbn; apply length_insert]. split; cbn.
  - rewrite length_insert. exact R1.
  - exact R2.
  - apply Forall_insert; [exact R3|]. split; rewrite ?E1, ?E2; assumption.
  - intros Hn. destruct R4 as (A1 & A2 & A3 & A4); [intros C; rewrite C in Ej; discriminate|]. split_and!; auto. apply Forall_insert; [exact A4|].
    rewrite E1. exact (proj1 (Forall_lookup _ _) A4 j sc Ej).
Qed.

Lemma flags_time f sc : sc_rxttime (set_flag f sc) = sc_rxttime sc /\ sc_rxmits (set_flag f sc) = sc_rxmits sc /\
  sc_rxttime (clear_flag f sc) = sc_rxttime sc /\ sc_rxmits (clear_flag f sc) = sc_rxmits sc.
Proof. destruct sc. split_and!; reflexivity. Qed.

Lemma learn_time to th sc : sc_rxttime (learn_synack to th sc) = sc_rxttime sc /\ sc_rxmits (learn_synack to th sc) = sc_rxmits sc.
Proof. unfold learn_synack. repeat case_match; destruct sc; split; reflexivity. Qed.

(** What every operation on the table promises. *)
Record steps (n n' : net) : Prop := {
  st_ok : table_ok n';
  st_ticks : ticks n' = ticks n;
  st_size : length (hashbase (cache n')) = length (hashbase (cache n)) }.

Lemma steps_refl n : table_ok n -> steps n n.
Proof. split; auto. Qed.
Lemma steps_trans n1 n2 n3 : steps n1 n2 -> steps n2 n3 -> steps n1 n3.
Proof. intros [A1 A2 A3] [B1 B2 B3]. split; congruence. Qed.
Lemma steps_same n n' : table_ok n -> same_table n n' -> steps n n'.
Proof. intros H [E1 E2]. split; [exact (table_of_same n n' (conj E1 E2) H) | exact E2 | congruence]. Qed.

Lemma drop_steps n k sch j : table_ok n -> row k n = Some sch -> (j < length (sch_bucket sch))%nat -> exists n', syncache_drop k j n = Some n' /\ steps n n'.
Proof. intros H E Hj. destruct (drop_ok n k sch j H E Hj) as [-> H']. eexists. split; [reflexivity|]. split; [exact H' | reflexivity | cbn; apply length_insert]. Qed.

Lemma entry_steps n k j sch sc sc' : table_ok n -> row k n = Some sch -> sch_bucket sch !! j = Some sc ->
  sc_rxttime sc' = sc_rxttime sc -> sc_rxmits sc' = sc_rxmits sc -> steps n (put_entry k j sch sc' n).
Proof. intros H E Ej E1 E2. split; [exact (put_entry_ok n k j sch sc sc' H E Ej E1 E2) | reflexivity | cbn; apply length_insert]. Qed.

Ltac found n inc m H := 
  let sch := fresh "sch" in let j := fresh "j" in let sc := fresh "sc" in let L := fresh "L" in let E := fresh "E" in let Ej := fresh "Ej" in let Em := fresh "Em" in
  destruct (cache_lookup_ok n inc m H) as (sch & [[j sc]|] & L & E & Ej); rewrite L; cbn [mbind option_bind]; [destruct Ej as [Ej Em]|].

Lemma chkrst_steps inc th m n : table_ok n -> exists n', syncache_chkrst inc th m n = Some n' /\ steps n n'.
Proof.
  intros H. unfold syncache_chkrst. found n inc m H; destruct (has_flag _ _); eauto using steps_refl.
  destruct (_ && _); eauto using steps_refl. apply (drop_steps n _ sch j H E). eapply lookup_lt_Some; exact Ej.
Qed.

Lemma badack_steps inc m n : table_ok n -> exists n', syncache_badack inc m n = Some n' /\ steps n n'.
Proof.
  intros H. unfold syncache_badack. found n inc m H; eauto using steps_refl. apply (drop_steps n _ sch j H E). eapply lookup_lt_Some; exact Ej.
Qed.

Lemma unreach_steps inc seq m n : table_ok n -> exists n', syncache_unreach inc seq m n = Some n' /\ steps n n'.
Proof.
  intros H. unfold syncache_unreach. found n inc m H; eauto using steps_refl. destruct (negb _); eauto using steps_refl. destruct (_ || _).
  - eexists. split; [reflexivity|]. apply (entry_steps n _ j sch sc); auto; apply (flags_time SCF_UNREACH sc).
  - apply (drop_steps n _ sch j H E). eapply lookup_lt_Some; exact Ej.
Qed.

Lemma passive_synack_steps inc to th m n : table_ok n -> exists n', syncache_passive_synack inc to th m n = Some n' /\ steps n n'.
Proof.
  intros H. unfold syncache_passive_synack. found n (swap_ends inc) m H; eauto using steps_refl. destruct (scf sc SCF_PASSIVE); eauto using steps_refl.
  eexists. split; [reflexivity|]. apply (entry_steps n _ j sch sc); auto; apply (learn_time to th sc).
Qed.

Lemma expand_steps inc to th l m n : table_ok n -> exists r n', syncache_expand e inc to th l m n = Some (r, n') /\ steps n n'.
Proof.
  intros H. unfold syncache_expand. found n inc m H.
  - destruct (drop_steps n _ sch j H E) as (n1 & -> & S); [eapply lookup_lt_Some; exact Ej|]. cbn [mbind option_bind]. eauto.
  - destruct (negb _ || _); cbn [mbind option_bind]; [eauto using steps_refl|]. destruct (syncookie_lookup _ _ _ _ _ _ _); eauto using steps_refl.
Qed.

(** ** Answering a SYN *)

Lemma retimed_ok blimit limit now j sc sc' sch : row_ok blimit limit now sch -> sch_bucket sch !! j = Some sc -> sc_rxmits sc' = 0 -> 0 <= limit <= 12 ->
  row_ok blimit limit now ((retimed now true (delay (-1) sc') sch) <| sch_bucket := <[j := timed now (-1) sc']> (sch_bucket sch) |>).
Proof.
  intros [R1 R2 R3 R4] Ej Hr Hlim. pose proof Ht as [H1 H2 Hm]. assert (HT : -1 <= T) by lia. assert (Hr' : 0 <= sc_rxmits sc' <= limit) by lia.
  pose proof (delay_bounds (-1) sc' HT ltac:(lia)) as D. pose proof (timed_ok limit now (-1) sc' HT Hr' (proj2 Hlim)) as N.
  assert (Hd : - 2 ^ 31 <= delay (-1) sc' < 2 ^ 31) by (unfold INT_MAX in Hm; lia).
  assert (Et : off now (sc_rxttime (timed now (-1) sc')) = delay (-1) sc').
  { change (off now (s32 (now + delay (-1) sc')) = delay (-1) sc'). exact (off_plus now _ Hd). }
  assert (Lr : sch_length (retimed now true (delay (-1) sc') sch) = sch_length sch) by (unfold retimed; destruct (_ <? _); reflexivity).
  destruct R4 as (A1 & A2 & A3 & A4); [intros C; rewrite C in Ej; discriminate|].
  split; cbn [sch_length sch_bucket sch_timer sch_nextc update eta eta_syncache_head]; rewrite ?Lr; auto.
  - rewrite length_insert. exact R1.
  - apply Forall_insert; assumption.
  - intros _. unfold retimed. destruct (Z.ltb_spec (delay (-1) sc') (off now (sch_nextc sch))); cbn [sch_timer sch_nextc update eta eta_syncache_head].
    + rewrite (off_plus now _ Hd). split_and!; [reflexivity | apply s32_s32 | lia |]. apply Forall_insert; [|rewrite Et; lia].
      eapply Forall_impl; [exact A4|]. cbv beta. intros x Hx. lia.
    + split_and!; auto. apply Forall_insert; [exact A4 | rewrite Et; lia].
Qed.

Lemma dup_syn_steps to k j sch sc n : table_ok n -> row k n = Some sch -> sch_bucket sch !! j = Some sc -> exists n', dup_syn e to k j sch sc n = Some n' /\ steps n n'.
Proof.
  intros H E Ej. unfold dup_syn. set (sc1 := if scf sc SCF_TIMESTAMP && _ then _ else _).
  assert (T1 : sc_rxttime sc1 = sc_rxttime sc /\ sc_rxmits sc1 = sc_rxmits sc) by (unfold sc1; destruct (_ && _); destruct sc; split; reflexivity). clearbody sc1.
  pose proof (respond_same sc1 n) as S. destruct (syncache_respond e sc1 n) as [error n1]. cbn [snd] in S. pose proof (table_of_same n n1 S H) as H1.
  assert (E1 : row k n1 = Some sch) by (unfold row; rewrite (proj1 S); exact E). pose proof (steps_same n n1 H S) as S1.
  destruct (_ && _).
  - pose proof (row_lookup n1 k sch H1 E1) as R. rewrite timeout_ok; [| destruct Ht; lia | cbn; lia |].
    2: { destruct (r_timer _ _ _ _ R) as (_ & _ & A & _); [intros C; rewrite C in Ej; discriminate | lia]. }
    cbn [mbind option_bind]. eexists. split; [reflexivity|]. apply (steps_trans n n1); [exact S1|].
    pose proof (retimed_ok _ _ _ j sc (sc1 <| sc_rxmits := 0 |>) sch R Ej eq_refl (tb_rexmt n1 H1)) as Q.
    assert (Eb : sch_bucket (retimed (ticks n1) true (delay (-1) (sc1 <| sc_rxmits := 0 |>)) sch) = sch_bucket sch) by (unfold retimed; destruct (_ <? _); reflexivity).
    unfold put_entry. rewrite Eb. split; [|reflexivity | cbn; apply length_insert]. apply (table_same n1 k sch); [assumption | assumption | exact Q | cbn; apply length_insert].
  - eexists. split; [reflexivity|]. apply (steps_trans n n1); [exact S1|]. apply (entry_steps n1 k j sch sc); tauto.
Qed.

(** Secrets are of no concern to the table. *)
Definition same_row (sch sch' : syncache_head) : Prop :=
  sch_bucket sch' = sch_bucket sch /\ sch_timer sch' = sch_timer sch /\ sch_nextc sch' = sch_nextc sch /\ sch_length sch' = sch_length sch.

Lemma same_row_ok blimit limit now sch sch' : same_row sch sch' -> row_ok blimit limit now sch -> row_ok blimit limit now sch'.
Proof. intros (E1 & E2 & E3 & E4) [R1 R2 R3 R4]. split; rewrite ?E1, ?E2, ?E3, ?E4; auto. Qed.

Lemma new_secret_same size : forall n, same_table n (snd (new_secret size n)).
Proof.
  induction size as [|size IH]; intros n; [split; reflexivity|]. cbn. specialize (IH (n <| rands := tail (rands n) |>)).
  destruct (new_secret size _) as [xs n']. exact IH.
Qed.

Lemma reseed_same sch n : same_row sch (fst (reseed sch n)) /\ same_table n (snd (reseed sch n)).
Proof.
  unfold reseed. destruct (_ <? _); [|split; [split_and!; reflexivity | split; reflexivity]]. pose proof (new_secret_same SYNCOOKIE_SECRET_SIZE n) as S.
  destruct (new_secret SYNCOOKIE_SECRET_SIZE n) as [xs n']. cbn [snd] in S. cbn [fst snd]. split; [|exact S]. destruct (negb (sch_oddeven sch)); split_and!; reflexivity.
Qed.

Lemma generate_same sch sc n : let '(sch', sc', n') := syncookie_generate e sch sc n in same_row sch sch' /\ same_table n n' /\ sc_rxmits sc' = sc_rxmits sc.
Proof.
  unfold syncookie_generate. pose proof (reseed_same sch n) as [R S]. destruct (reseed sch n) as [sch1 n1]. cbn [fst snd] in R, S.
  destruct (digest e _ _ _ _) as [[[d0 d1] d2] d3]. split_and!; auto. case_match; destruct sc; reflexivity.
Qed.

Lemma fill_rxmits inc to th l passive tt altfib iss ts : sc_rxmits (fill e inc to th l passive tt altfib iss ts) = 0.
Proof. unfold fill. repeat case_match; reflexivity. Qed.

Record pending_ok (n : net) (p : pending) : Prop := {
  pd_row : (p_row p < length (hashbase (cache n)))%nat;
  pd_rxmits : sc_rxmits (p_sc p) = 0;
  pd_timeout : p_timeout p <= T }.

Lemma alloc_steps k n : table_ok n -> is_Some (row k n) -> exists ok n', alloc_entry k n = Some (ok, n') /\ steps n n'.
Proof.
  intros H Hk. unfold alloc_entry. pose proof (alloc_same n) as S. destruct (zalloc n) as [ok n1]. cbn [snd] in S. pose proof (steps_same n n1 H S) as S1.
  destruct ok; [eauto|]. destruct Hk as [sch E]. assert (E1 : row k n1 = Some sch) by (unfold row; rewrite (proj1 S); exact E). rewrite E1. cbn [mbind option_bind].
  assert (D : exists n2, match sch_bucket sch with [] => Some n1 | _ => syncache_drop k (length (sch_bucket sch) - 1) n1 end = Some n2 /\ steps n1 n2).
  { destruct (sch_bucket sch) as [|x b] eqn:Eb; [exists n1; split; [reflexivity | apply steps_refl, S1]|].
    destruct (drop_steps n1 k sch (length (sch_bucket sch) - 1)) as (n2 & D & S2); [apply S1 | exact E1 | rewrite Eb; cbn; lia |].
    rewrite Eb in D. eauto. }
  destruct D as (n2 & -> & S2). cbn [mbind option_bind]. pose proof (alloc_same n2) as S3. destruct (zalloc n2) as [ok n3]. exists ok, n3. split; [reflexivity|].
  apply (steps_trans n n1); [exact S1|]. apply (steps_trans n1 n2); [exact S2|]. apply steps_same; [apply S2 | exact S3].
Qed.

Lemma row_some k n : (k < length (hashbase (cache n)))%nat -> is_Some (row k n).
Proof. apply lookup_lt_is_Some_2. Qed.

Lemma add_entry_steps inc to th l m k passive tt altfib n : table_ok n -> (k < length (hashbase (cache n)))%nat -> tt <= T ->
  exists r n', add_entry e inc to th l m k passive tt altfib n = Some (r, n') /\ steps n n' /\ from_option (pending_ok n') True r.
Proof.
  intros H Hk Htt. unfold add_entry. destruct (alloc_steps k n H (row_some k n Hk)) as (ok & n1 & -> & S1). cbn [mbind option_bind].
  destruct (negb ok && _); [exists None; eexists; split_and!; [reflexivity | exact S1 | exact I]|].
  assert (Hk1 : (k < length (hashbase (cache n1)))%nat) by (rewrite (st_size _ _ S1); exact Hk). destruct (row_some k n1 Hk1) as [sch E]. rewrite E. cbn [mbind option_bind].
  destruct (arc4random n1) as [iss n2] eqn:Ea. assert (S2 : same_table n1 n2) by (unfold arc4random in Ea; simplify_eq; split; reflexivity).
  set (sc := fill e inc to th l passive tt altfib iss (ts_ticks n2)).
  assert (G : exists sch3 sc3 n3, (if syncookies e && negb passive then syncookie_generate e sch sc n2 else (sch, sc, n2)) = (sch3, sc3, n3) /\
    same_row sch sch3 /\ same_table n2 n3 /\ sc_rxmits sc3 = 0).
  { destruct (_ && _).
    - pose proof (generate_same sch sc n2) as G. destruct (syncookie_generate e sch sc n2) as [[sch3 sc3] n3]. destruct G as (G1 & G2 & G3).
      exists sch3, sc3, n3. split_and!; auto; try apply G1; try apply G2. rewrite G3. apply fill_rxmits.
    - exists sch, sc, n2. repeat split. apply fill_rxmits. }
  destruct G as (sch3 & sc3 & n3 & -> & R3 & S3 & M3).
  assert (S13 : same_table n1 n3) by (destruct S2, S3; split; congruence). pose proof (table_of_same _ _ S13 (st_ok _ _ S1)) as H3.
  assert (E3 : row k n3 = Some sch) by (unfold row; rewrite (proj1 S13); exact E).
  assert (S' : steps n3 (put_row k sch3 n3)).
  { split; [|reflexivity | cbn; apply length_insert]. apply (table_same n3 k sch); auto; [|f_equal; apply R3].
    apply (same_row_ok _ _ _ sch); [exact R3 | exact (row_lookup n3 k sch H3 E3)]. }
  eexists. eexists. split; [reflexivity|]. split; [exact (steps_trans _ _ _ S1 (steps_trans _ _ _ (steps_same _ _ (st_ok _ _ S1) S13) S'))|]. cbn [from_option]. split; cbn [p_row p_sc p_timeout].
  - rewrite (st_size _ _ S'), (proj1 S13). exact Hk1.
  - destruct (lsn_promisc l); cbn; exact M3.
  - exact Htt.
Qed.

Definition verdict_ok (v : option verdict) : Prop := from_option (fun v => v_initial_timeout v <= T) True v.

Lemma add_steps inc to th l v m tt n : table_ok n -> tt <= T -> verdict_ok v ->
  exists r n', syncache_add e inc to th l v m tt n = Some (r, n') /\ steps n n' /\ from_option (pending_ok n') True r.
Proof.
  intros H Htt Hv. unfold syncache_add. pose proof (row_of_bound n inc m H) as Hk. found n inc m H.
  - destruct (dup_syn_steps to _ j sch sc n H E Ej) as (n' & -> & S). cbn [mbind option_bind]. exists None, n'. split_and!; [reflexivity | exact S | exact I].
  - assert (A : forall passive tt altfib, tt <= T -> exists r n', add_entry e inc to th l m (row_of inc m n) passive tt altfib n = Some (r, n') /\ steps n n' /\ from_option (pending_ok n') True r).
    { intros passive tt' altfib Htt'. exact (add_entry_steps inc to th l m _ passive tt' altfib n H Hk Htt'). }
    assert (Z0 : exists n', Some (@None pending, n) = Some (None, n') /\ steps n n' /\ from_option (pending_ok n') True (@None pending)) by (exists n; split_and!; [reflexivity | apply steps_refl, H | exact I]).
    destruct v as [v|]; [|apply A; exact Htt]. cbn in Hv. destruct (has_flag _ _); [apply A; exact Htt|].
    assert (Htt' : (if v_passive v then v_initial_timeout v else tt) <= T) by (destruct (v_passive v); assumption).
    destruct (v_decision v); [apply A, Htt' | apply A, Htt' | exists None; exact Z0 | exists None; exact Z0 | exists None; exact Z0].
Qed.

Lemma finish_steps p n : table_ok n -> pending_ok n p -> exists n', syncache_add_finish e p n = Some n' /\ steps n n'.
Proof.
  intros H [P1 P2 P3]. unfold syncache_add_finish. pose proof (respond_same (p_sc p) n) as S. destruct (syncache_respond e (p_sc p) n) as [error n1]. cbn [snd] in S.
  pose proof (steps_same n n1 H S) as S1. destruct (_ || _); [eauto|]. destruct (_ && _); [eauto|].
  destruct (insert_ok n1 (p_row p) (p_timeout p) (p_sc p)) as (n2 & -> & H2 & E2 & L2 & _); auto; [apply S1 | apply row_some; rewrite (st_size _ _ S1); exact P1 |].
  eexists. split; [reflexivity|]. apply (steps_trans n n1); [exact S1|]. split; assumption.
Qed.

(** ** The timer of a row *)

(** What becomes of an entry when the timer of its row runs. *)
Definition served (limit now : Z) (sc : syncache) : option syncache :=
  if TSTMP_GT (sc_rxttime sc) now then Some sc
  else if limit <? sc_rxmits sc then None
  else Some (timed now (-1) (convert sc)).

Record due_ok (limit now : Z) (sc : syncache) : Prop := {
  du_time : 0 <= off now (sc_rxttime sc) <= T;
  du_norm : s32 (sc_rxttime sc) = sc_rxttime sc;
  du_rxmits : 1 <= sc_rxmits sc <= limit + 1 }.

Lemma due_gt now sc : TSTMP_GT (sc_rxttime sc) now = (0 <? off now (sc_rxttime sc)).
Proof. reflexivity. Qed.

Lemma convert_time sc : sc_rxttime (convert sc) = sc_rxttime sc /\ sc_rxmits (convert sc) = sc_rxmits sc.
Proof. unfold convert. destruct (_ && _); destruct sc; split; reflexivity. Qed.

Lemma served_ok limit now sc sc' : limit <= 12 -> due_ok limit now sc -> served limit now sc = Some sc' -> entry_ok limit now sc'.
Proof.
  intros Hl [D1 D2 D3] H. unfold served in H. rewrite due_gt in H. destruct (Z.ltb_spec 0 (off now (sc_rxttime sc))); [simplify_eq; split; auto; lia|].
  destruct (Z.ltb_spec limit (sc_rxmits sc)); [discriminate|]. simplify_eq. destruct (convert_time sc) as [_ C]. destruct Ht. apply timed_ok; rewrite ?C; lia.
Qed.

(** Counters kept modulo [2^32]. *)
Definition less (d x x' : Z) : Prop := u32 x' = u32 (x - d) /\ (u32 x = x -> u32 x' = x').

Lemma less_none x : less 0 x x.
Proof. split; [f_equal; lia | auto]. Qed.
Lemma less_one d x x' : less d (u32 (x - 1)) x' -> less (d + 1) x x'.
Proof. intros [H1 H2]. split; [rewrite H1, u32_sub_l; f_equal; lia | intros _; apply H2, u32_u32]. Qed.

Record looped (now : Z) (bucket kept : list syncache) (sch sch' : syncache_head) (n n' : net) : Prop := {
  lp_timer : sch_timer sch' = sch_timer sch;
  lp_nextc : 0 < off now (sch_nextc sch') <= off now (sch_nextc sch);
  lp_norm : s32 (sch_nextc sch') = sch_nextc sch';
  lp_all : Forall (fun sc => off now (sch_nextc sch') <= off now (sc_rxttime sc)) kept;
  lp_length : less (Z.of_nat (length bucket) - Z.of_nat (length kept)) (sch_length sch) (sch_length sch');
  lp_count : less (Z.of_nat (length bucket) - Z.of_nat (length kept)) (cache_count (cache n)) (cache_count (cache n'));
  lp_cache : (cache n') <| cache_count := 0 |> = (cache n) <| cache_count := 0 |>;
  lp_ticks : ticks n' = ticks n }.

Lemma min_nextc now t sch : 0 < t < 2 ^ 31 -> 0 < off now (sch_nextc sch) -> s32 (sch_nextc sch) = sch_nextc sch ->
  0 < off now (sch_nextc (retimed now false t sch)) <= off now (sch_nextc sch) /\ off now (sch_nextc (retimed now false t sch)) <= t /\
  s32 (sch_nextc (retimed now false t sch)) = sch_nextc (retimed now false t sch) /\ sch_timer (retimed now false t sch) = sch_timer sch /\
  sch_length (retimed now false t sch) = sch_length sch.
Proof.
  intros H1 H2 H3. unfold retimed. destruct (Z.ltb_spec t (off now (sch_nextc sch))); cbn; [|split_and!; auto; lia].
  rewrite off_plus by lia. split_and!; auto; try lia. apply s32_s32.
Qed.

Lemma kept_nextc now sc sch : 0 < off now (sc_rxttime sc) -> s32 (sc_rxttime sc) = sc_rxttime sc -> 0 < off now (sch_nextc sch) ->
  (if TSTMP_LT (sc_rxttime sc) (sch_nextc sch) then sch <| sch_nextc := sc_rxttime sc |> else sch) = retimed now false (off now (sc_rxttime sc)) sch.
Proof.
  intros H1 H2 H3. pose proof (off_range now (sc_rxttime sc)). pose proof (off_range now (sch_nextc sch)). rewrite (later_off now) by lia. unfold retimed.
  destruct (_ <? _); [|reflexivity]. rewrite off_back by exact H2. reflexivity.
Qed.

Section Loop.
Context (limit now : Z) (Hlim : 0 <= limit <= 12).

Lemma loop_cons sc sc' bucket kept sch sch1 sch' n n1 n' : 0 < off now (sch_nextc sch) -> s32 (sch_nextc sch) = sch_nextc sch ->
  0 < off now (sc_rxttime sc') -> sch1 = retimed now false (off now (sc_rxttime sc')) sch -> same_table n n1 ->
  looped now bucket kept sch1 sch' n1 n' -> looped now (sc :: bucket) (sc' :: kept) sch sch' n n'.
Proof.
  intros H1 H2 H3 -> [S1 S2] [L1 L2 L3 L4 L5 L6 L7 L8]. pose proof (off_range now (sc_rxttime sc')).
  destruct (min_nextc now (off now (sc_rxttime sc')) sch ltac:(lia) H1 H2) as (M1 & M2 & M3 & M4 & M5). rewrite M4 in L1. rewrite M5 in L5. rewrite S1 in L6, L7.
  assert (Ed : Z.of_nat (length (sc :: bucket)) - Z.of_nat (length (sc' :: kept)) = Z.of_nat (length bucket) - Z.of_nat (length kept)) by (cbn [length]; lia).
  split; rewrite ?Ed; auto; [lia | constructor; [lia | exact L4] | congruence].
Qed.

Lemma timer_loop_ok bucket : forall sch n, ticks n = now -> Forall (due_ok limit now) bucket -> 0 < off now (sch_nextc sch) -> s32 (sch_nextc sch) = sch_nextc sch ->
  exists sch' n', timer_loop e limit now bucket sch n = Some (omap (served limit now) bucket, sch', n') /\ looped now bucket (omap (served limit now) bucket) sch sch' n n'.
Proof.
  induction bucket as [|sc bucket IH]; intros sch n Hn Hd H1 H2.
  - exists sch, n. split; [reflexivity|]. split; try reflexivity; auto; try apply less_none; try lia.
  - inversion Hd as [|? ? D Hd']; subst x l. destruct D as [D1 D2 D3]. cbn [timer_loop omap list_omap]. remember (served limit now sc) as s eqn:Es.
    unfold served in Es. rewrite due_gt in Es |- *. destruct (Z.ltb_spec 0 (off now (sc_rxttime sc))) as [G|G]; [subst s|].
    + rewrite (kept_nextc now) by assumption. pose proof (off_range now (sc_rxttime sc)).
      destruct (min_nextc now (off now (sc_rxttime sc)) sch ltac:(lia) H1 H2) as (M1 & M2 & M3 & _).
      destruct (IH (retimed now false (off now (sc_rxttime sc)) sch) n Hn Hd' ltac:(lia) M3) as (sch' & n' & -> & L). cbn [mbind option_bind]. exists sch', n'.
      split; [reflexivity|]. exact (loop_cons sc sc _ _ sch _ sch' n n n' H1 H2 G eq_refl (conj eq_refl eq_refl) L).
    + destruct (Z.ltb_spec limit (sc_rxmits sc)) as [Gl|Gl]; subst s.
      * pose (sch1 := sch <| sch_length := u32 (sch_length sch - 1) |>). destruct (IH sch1 (count_by (-1) n) Hn Hd' H1 H2) as (sch' & n' & E & [L1 L2 L3 L4 L5 L6 L7 L8]).
        exists sch', n'. split; [exact E|]. split; auto.
        -- replace (Z.of_nat (length (sc :: bucket)) - _) with (Z.of_nat (length bucket) - Z.of_nat (length (omap (served limit now) bucket)) + 1) by (cbn [length]; lia).
           apply less_one. exact L5.
        -- replace (Z.of_nat (length (sc :: bucket)) - _) with (Z.of_nat (length bucket) - Z.of_nat (length (omap (served limit now) bucket)) + 1) by (cbn [length]; lia).
           apply less_one. exact L6.
      * destruct (convert_time sc) as [C1 C2]. pose proof (respond_same (convert sc) n) as S. destruct (syncache_respond e (convert sc) n) as [error n1]. cbn [snd] in S.
        pose proof Ht as [T1 T2 T3]. assert (HT : -1 <= T) by lia. assert (Hr : 0 <= sc_rxmits (convert sc) <= 12) by lia.
        rewrite (proj2 S), Hn. rewrite timeout_ok by (auto; lia). cbn [mbind option_bind]. pose proof (delay_bounds (-1) (convert sc) HT Hr) as D.
        assert (Hd2 : 0 < delay (-1) (convert sc) < 2 ^ 31) by (unfold INT_MAX in T3; lia).
        assert (Eo : off now (sc_rxttime (timed now (-1) (convert sc))) = delay (-1) (convert sc)) by (apply (off_plus now (delay (-1) (convert sc))); lia).
        destruct (min_nextc now (delay (-1) (convert sc)) sch Hd2 H1 H2) as (M1 & M2 & M3 & _).
        destruct (IH (retimed now false (delay (-1) (convert sc)) sch) n1 ltac:(destruct S; congruence) Hd' ltac:(lia) M3) as (sch' & n' & -> & L). cbn [mbind option_bind].
        exists sch', n'. split; [reflexivity|]. apply (loop_cons sc _ _ _ sch (retimed now false (delay (-1) (convert sc)) sch) sch' n n1 n' H1 H2); [rewrite Eo; lia | rewrite Eo; reflexivity | exact S | exact L].
Qed.
End Loop.

(** A row just after the clock has moved: an entry may be due, none is overdue. *)
Record row_due (blimit limit now : Z) (sch : syncache_head) : Prop := {
  q_length : sch_length sch = Z.of_nat (length (sch_bucket sch));
  q_limit : sch_length sch <= blimit;
  q_entries : Forall (due_ok limit now) (sch_bucket sch);
  q_timer : sch_bucket sch <> [] ->
    sch_timer sch = Some (sch_nextc sch) /\ s32 (sch_nextc sch) = sch_nextc sch /\ 0 <= off now (sch_nextc sch) /\
    Forall (fun sc => off now (sch_nextc sch) <= off now (sc_rxttime sc)) (sch_bucket sch) }.

Lemma clock_moves blimit limit now sch : row_ok blimit limit now sch -> row_due blimit limit (s32 (now + 1)) sch.
Proof.
  intros [R1 R2 R3 R4]. split; auto.
  - eapply Forall_impl; [exact R3|]. intros sc [N1 N2 N3]. split; auto. rewrite off_next; lia.
  - intros Hn. destruct (R4 Hn) as (A1 & A2 & A3 & A4). split_and!; auto; [rewrite off_next; lia|].
    eapply Forall_impl; [exact A4|]. cbv beta. intros sc Hs. rewrite !off_next; lia.
Qed.

Lemma omap_some {A B} (f : A -> option B) (g : A -> B) l : Forall (fun x => f x = Some (g x)) l -> omap f l = map g l.
Proof. induction 1 as [|x l E _ IH]; [reflexivity|]. cbn [omap list_omap map]. rewrite E. change (g x :: omap f l = g x :: map g l). congruence. Qed.

Lemma served_length limit now bucket : (length (omap (served limit now) bucket) <= length bucket)%nat.
Proof. induction bucket as [|sc bucket IH]; [reflexivity|]. cbn [omap list_omap]. destruct (served limit now sc); cbn [length]; change (list_omap _ _ ?f ?l) with (omap f l) in *; lia. Qed.

Lemma served_all limit now bucket : 0 <= limit <= 12 -> Forall (due_ok limit now) bucket -> Forall (entry_ok limit now) (omap (served limit now) bucket).
Proof.
  intros Hl H. apply Forall_forall. intros sc' Hs. apply list_elem_of_omap in Hs as (sc & H1 & H2). rewrite Forall_forall in H.
  exact (served_ok limit now sc sc' (proj2 Hl) (H sc H1) H2).
Qed.

(** Nothing to do for a row whose callout is for later. *)
Lemma quiet_row blimit limit now sch : s32 now = now -> row_due blimit limit now sch -> sch_timer sch <> Some now ->
  row_ok blimit limit now sch /\ sch_bucket sch = omap (served limit now) (sch_bucket sch).
Proof.
  intros Hn [R1 R2 R3 R4] Hq. assert (P : Forall (fun sc => 0 < off now (sc_rxttime sc)) (sch_bucket sch)).
  { destruct (sch_bucket sch) as [|x b] eqn:Eb; [constructor|]. destruct R4 as (A1 & A2 & A3 & A4); [discriminate|].
    assert (off now (sch_nextc sch) <> 0) by (intros C; apply off_now in C; congruence). eapply Forall_impl; [exact A4|]. cbv beta. intros sc Hs. lia. }
  split; [split; auto|].
  - apply Forall_forall. intros sc Hs. rewrite Forall_forall in R3, P. destruct (R3 sc Hs) as [N1 N2 N3]. specialize (P sc Hs). split; auto. lia.
  - intros Hb. destruct (R4 Hb) as (A1 & A2 & A3 & A4). split_and!; auto. assert (off now (sch_nextc sch) <> 0) by (intros C; apply off_now in C; congruence). lia.
  - rewrite (omap_some _ id); [symmetry; apply list_fmap_id|]. eapply Forall_impl; [exact P|]. cbv beta. intros sc Hs. unfold served. rewrite due_gt.
    destruct (Z.ltb_spec 0 (off now (sc_rxttime sc))); [reflexivity | lia].
Qed.

Lemma count_only (c c' : tcp_syncache) : c' <| cache_count := 0 |> = c <| cache_count := 0 |> -> c' = c <| cache_count := cache_count c' |>.
Proof. destruct c, c'. cbn. intros E. simplify_eq. reflexivity. Qed.

Lemma timer_ok n k sch : 0 <= rexmt_limit (cache n) <= 12 -> bucket_limit (cache n) < 2 ^ 32 -> s32 (ticks n) = ticks n -> row k n = Some sch ->
  row_due (bucket_limit (cache n)) (rexmt_limit (cache n)) (ticks n) sch ->
  exists sch' c, syncache_timer e k n <> None /\ (forall n', syncache_timer e k n = Some n' ->
    cache n' = (cache n) <| hashbase := <[k := sch']> (hashbase (cache n)) |> <| cache_count := c |> /\ ticks n' = ticks n) /\
    sch_bucket sch' = omap (served (rexmt_limit (cache n)) (ticks n)) (sch_bucket sch) /\ row_ok (bucket_limit (cache n)) (rexmt_limit (cache n)) (ticks n) sch' /\
    less (Z.of_nat (length (sch_bucket sch)) - Z.of_nat (length (sch_bucket sch'))) (cache_count (cache n)) c.
Proof.
  intros Hl Hb Hn E [R1 R2 R3 R4]. unfold syncache_timer. rewrite E. cbn [mbind option_bind].
  set (sch0 := sch <| sch_timer := None |> <| sch_nextc := s32 (ticks n + INT_MAX) |>).
  assert (O : off (ticks n) (sch_nextc sch0) = INT_MAX) by (apply off_plus; unfold INT_MAX; lia).
  destruct (timer_loop_ok (rexmt_limit (cache n)) (ticks n) Hl (sch_bucket sch) sch0 n eq_refl R3) as (sch1 & n1 & -> & [L1 L2 L3 L4 L5 L6 L7 L8]);
    [rewrite O; unfold INT_MAX; lia | apply s32_s32 |]. cbn [mbind option_bind].
  set (kept := omap (served (rexmt_limit (cache n)) (ticks n)) (sch_bucket sch)) in *. pose proof (served_length (rexmt_limit (cache n)) (ticks n) (sch_bucket sch)) as Hk. fold kept in Hk.
  set (sch2 := sch1 <| sch_bucket := kept |>). exists (if bool_decide (kept = []) then sch2 else arm (ticks n) (s32 (sch_nextc sch2 - ticks n)) sch2). exists (cache_count (cache n1)).
  split; [discriminate|]. split.
  { intros n' En. injection En as <-. split; [|exact L8]. cbn [cache put_row update eta eta_net]. apply count_only in L7. rewrite L7 at 1 2. reflexivity. }
  assert (Len : sch_length sch1 = Z.of_nat (length kept)).
  { destruct L5 as [L5 L5']. unfold sch0 in L5, L5'. cbn in L5, L5'. rewrite R1 in L5, L5'. rewrite <- L5' by (apply u32_small; lia). rewrite L5.
    rewrite u32_small by lia. lia. }
  pose proof (served_all (rexmt_limit (cache n)) (ticks n) (sch_bucket sch) Hl R3) as Q.
  destruct (bool_decide_reflect (kept = [])) as [K|K]; (split; [reflexivity|]); split; try exact L6; split; cbn [sch_length sch_bucket sch_timer sch_nextc update eta eta_syncache_head arm sch2];
    try exact Len; try exact Q; try lia; [intros C; destruct (C K)|].
  intros _. fold (off (ticks n) (sch_nextc sch1)). rewrite Z.max_r by lia. rewrite off_back by exact L3. split_and!; auto. lia.
Qed.

(** ** A tick *)

(** The rows below [i] have been served. *)
Record mid_ok (i : nat) (n : net) : Prop := {
  md_size : exists j : nat, hashsize (cache n) = 2 ^ Z.of_nat j /\ hashmask (cache n) = 2 ^ Z.of_nat j - 1;
  md_rows : length (hashbase (cache n)) = Z.to_nat (hashsize (cache n));
  md_limit : 1 <= bucket_limit (cache n) < 2 ^ 32;
  md_rexmt : 0 <= rexmt_limit (cache n) <= 12;
  md_now : s32 (ticks n) = ticks n;
  md_done : forall k sch, row k n = Some sch -> (k < i)%nat -> row_ok (bucket_limit (cache n)) (rexmt_limit (cache n)) (ticks n) sch;
  md_due : forall k sch, row k n = Some sch -> (i <= k)%nat -> row_due (bucket_limit (cache n)) (rexmt_limit (cache n)) (ticks n) sch;
  md_count : cache_count (cache n) = u32 (Z.of_nat (total (hashbase (cache n)))) }.

Definition served_rows (i : nat) (n n' : net) : Prop :=
  ticks n' = ticks n /\ (rexmt_limit (cache n') = rexmt_limit (cache n) /\ same_hash n n') /\ length (hashbase (cache n')) = length (hashbase (cache n)) /\
  forall k sch, row k n = Some sch -> exists sch', row k n' = Some sch' /\
    ((k < i)%nat -> sch' = sch) /\ ((i <= k)%nat -> sch_bucket sch' = omap (served (rexmt_limit (cache n)) (ticks n)) (sch_bucket sch)).

Lemma mid_quiet i n sch : mid_ok i n -> row i n = Some sch -> sch_timer sch <> Some (ticks n) ->
  mid_ok (S i) n /\ sch_bucket sch = omap (served (rexmt_limit (cache n)) (ticks n)) (sch_bucket sch).
Proof.
  intros [M1 M2 M3 M4 M5 M6 M7 M8] E Hq. destruct (quiet_row _ _ _ sch M5 (M7 i sch E ltac:(lia)) Hq) as [Q1 Q2]. split; [|exact Q2]. split; auto.
  - intros k s Es Hk. destruct (decide (k = i)) as [->|]; [congruence | apply (M6 k s Es); lia].
  - intros k s Es Hk. apply (M7 k s Es). lia.
Qed.

Lemma mid_fired i n sch : mid_ok i n -> row i n = Some sch -> exists n' sch', syncache_timer e i n = Some n' /\ mid_ok (S i) n' /\
  ticks n' = ticks n /\ (rexmt_limit (cache n') = rexmt_limit (cache n) /\ same_hash n n') /\ hashbase (cache n') = <[i := sch']> (hashbase (cache n)) /\
  sch_bucket sch' = omap (served (rexmt_limit (cache n)) (ticks n)) (sch_bucket sch).
Proof.
  intros [M1 M2 M3 M4 M5 M6 M7 M8] E. destruct (timer_ok n i sch M4 (proj2 M3) M5 E (M7 i sch E ltac:(lia))) as (sch' & c & F1 & F2 & F3 & F4 & F5).
  destruct (syncache_timer e i n) as [n'|]; [|destruct (F1 eq_refl)]. destruct (F2 n' eq_refl) as [G1 G2]. exists n', sch'.
  assert (Eh : hashbase (cache n') = <[i := sch']> (hashbase (cache n))) by (rewrite G1; reflexivity). split; [reflexivity|]. split; [|unfold same_hash; split_and!; auto; rewrite G1; reflexivity].
  assert (Ei : row i n' = Some sch') by (unfold row; rewrite Eh; apply list_lookup_insert_eq, lookup_lt_is_Some; exists sch; exact E).
  assert (En : forall k, k <> i -> row k n' = row k n) by (intros k Hk; unfold row; rewrite Eh; apply list_lookup_insert_ne; congruence).
  split; rewrite ?G2; rewrite ?G1; cbn [hashsize hashmask hashbase bucket_limit rexmt_limit cache_count update eta eta_tcp_syncache]; auto.
  - rewrite length_insert. exact M2.
  - intros k s Es Hk. destruct (decide (k = i)) as [->|Hki]; [congruence|]. rewrite (En k Hki) in Es. apply (M6 k s Es). lia.
  - intros k s Es Hk. rewrite (En k) in Es by lia. apply (M7 k s Es). lia.
  - destruct F5 as [F5 F5']. rewrite <- F5' by (rewrite M8; apply u32_u32). rewrite F5, M8, u32_sub_l. f_equal. rewrite (total_insert _ _ _ sch' E). lia.
Qed.

Lemma mid_end i n : mid_ok i n -> (length (hashbase (cache n)) <= i)%nat -> table_ok n.
Proof.
  intros [M1 M2 M3 M4 M5 M6 M7 M8] Hi. split; auto. apply Forall_lookup. intros k sch E. apply (M6 k sch E). apply lookup_lt_Some in E. lia.
Qed.

Lemma run_rows_ok len : forall i n, mid_ok i n -> (i + len = length (hashbase (cache n)))%nat ->
  exists n', run_rows e (seq i len) n = Some n' /\ table_ok n' /\ served_rows i n n'.
Proof.
  induction len as [|len IH]; intros i n M Hi.
  - exists n. split; [reflexivity|]. split; [apply (mid_end i n M); lia|]. unfold served_rows, same_hash. split_and!; auto. intros k sch E. exists sch. split_and!; auto.
    intros Hk. apply lookup_lt_Some in E. lia.
  - cbn [seq run_rows]. destruct (lookup_lt_is_Some_2 (hashbase (cache n)) i ltac:(lia)) as [sch E]. change (row i n = Some sch) in E. rewrite E. cbn [mbind option_bind].
    assert (S : exists n1 sch1, (if bool_decide (sch_timer sch = Some (ticks n)) then syncache_timer e i n else Some n) = Some n1 /\ mid_ok (S i) n1 /\ ticks n1 = ticks n /\
      (rexmt_limit (cache n1) = rexmt_limit (cache n) /\ same_hash n n1) /\ hashbase (cache n1) = <[i := sch1]> (hashbase (cache n)) /\ sch_bucket sch1 = omap (served (rexmt_limit (cache n)) (ticks n)) (sch_bucket sch)).
    { case_bool_decide as Hd; [destruct (mid_fired i n sch M E) as (n1 & sch1 & A); eauto 10|]. destruct (mid_quiet i n sch M E Hd) as [A1 A2]. exists n, sch.
      unfold same_hash. split_and!; auto. symmetry. apply list_insert_id. exact E. }
    destruct S as (n1 & sch1 & -> & S1 & S2 & [S3 [S3a S3b]] & S4 & S5). cbn [mbind option_bind].
    destruct (IH (Datatypes.S i) n1 S1) as (n' & -> & T1 & U1 & [U2 [U2a U2b]] & U3 & U4); [rewrite S4, length_insert; lia|]. exists n'. split; [reflexivity|]. split; [exact T1|].
    assert (L1 : length (hashbase (cache n1)) = length (hashbase (cache n))) by (rewrite S4; apply length_insert).
    unfold served_rows, same_hash. split_and!; try congruence. intros k s Es. destruct (decide (k = i)) as [->|Hk].
    + destruct (U4 i sch1) as (s' & V1 & V2 & V3); [unfold row; rewrite S4; apply list_lookup_insert_eq; lia|]. exists s'. split; [exact V1|]. split; [lia|].
      intros _. rewrite (V2 ltac:(lia)). congruence.
    + destruct (U4 k s) as (s' & V1 & V2 & V3); [unfold row; rewrite S4, list_lookup_insert_ne by congruence; exact Es|]. exists s'. split; [exact V1|].
      split; [intros Hl; apply V2; lia | intros Hl; rewrite (V3 ltac:(lia)), S2, S3; reflexivity].
Qed.

Lemma tick_ok n : table_ok n -> exists n', tick e n = Some n' /\ table_ok n' /\ ticks n' = s32 (ticks n + 1) /\ (rexmt_limit (cache n') = rexmt_limit (cache n) /\ same_hash n n') /\
  length (hashbase (cache n')) = length (hashbase (cache n)) /\
  forall k sch, row k n = Some sch -> exists sch', row k n' = Some sch' /\ sch_bucket sch' = omap (served (rexmt_limit (cache n)) (ticks n')) (sch_bucket sch).
Proof.
  intros [H1 H2 H3 H4 H5 H6 H7]. unfold tick. set (n1 := n <| ticks := s32 (ticks n + 1) |>).
  assert (M : mid_ok 0 n1).
  { split; cbn; auto; [apply s32_s32 | intros; lia |]. intros k sch E _. apply clock_moves. exact (proj1 (Forall_lookup _ _) H6 k sch E). }
  destruct (run_rows_ok (length (hashbase (cache n1))) 0 n1 M eq_refl) as (n' & -> & T1 & U1 & [U2 U2'] & U3 & U4). exists n'.
  do 3 (split; [assumption || reflexivity|]). split; [exact (conj U2 U2')|]. split; [exact U3|]. intros k sch E. destruct (U4 k sch E) as (s' & V1 & _ & V3). exists s'. split; [exact V1|]. rewrite (V3 ltac:(lia)), U1. reflexivity.
Qed.
End Table.
End CacheTable.
