(* ===== verification/SyncacheSafe.v ===== *)
(** * The SYN cache under any sequence of events

    The operations of [Syncache] in any order, with the two halves of
    [syncache_add] taken apart by whatever happens between them: the cache stays a
    table, nothing in it is overdue, and every entry lives exactly as long as its
    retransmissions take. *)

From S2P Require Import Prelude TcpSeq TcpOptions TcpCC TcpTimer HostCache InPromisc Syncache SyncacheTable.

Module CacheSafe.

Import TcpOptions.Options InPromisc.Promisc Syncache.Cache SyncacheTable.CacheTable.

(** ** Events *)

(** What calls into the cache.  A SYN that has been looked up waits to be answered; [Finish] goes on with one of those. *)
Inductive event :=
  | Syn (inc : in_conninfo) (to : tcpopt) (th : tcphdr) (l : listener) (filter : option verdict) (m : option mbuf) (initial_timeout : Z)
  | Finish (i : nat)
  | Ack (inc : in_conninfo) (to : tcpopt) (th : tcphdr) (l : listener) (m : option mbuf)
  | Rst (inc : in_conninfo) (th : tcphdr) (m : option mbuf)
  | Bad_ack (inc : in_conninfo) (m : option mbuf)
  | Unreach (inc : in_conninfo) (seq : Z) (m : option mbuf)
  | Passive_synack (inc : in_conninfo) (to : tcpopt) (th : tcphdr) (m : option mbuf)
  | Tick.

Record world := mk_world {
  w_net : net;
  w_pending : list pending }.

Definition perform (e : env) (ev : event) (w : world) : option world :=
  let n := w_net w in
  let keep (r : option net) : option world := n ← r; Some (mk_world n (w_pending w)) in
  match ev with
  | Syn inc to th l filter m initial_timeout =>
      '(p, n) ← syncache_add e inc to th l filter m initial_timeout n;
      Some (mk_world n (w_pending w ++ option_list p))
  | Finish i =>
      match w_pending w !! i with
      | None => Some w
      | Some p => n ← syncache_add_finish e p n; Some (mk_world n (delete i (w_pending w)))
      end
  | Ack inc to th l m => '(_, n) ← syncache_expand e inc to th l m n; Some (mk_world n (w_pending w))
  | Rst inc th m => keep (syncache_chkrst inc th m n)
  | Bad_ack inc m => keep (syncache_badack inc m n)
  | Unreach inc seq m => keep (syncache_unreach inc seq m n)
  | Passive_synack inc to th m => keep (syncache_passive_synack inc to th m n)
  | Tick => keep (tick e n)
  end.

Fixpoint play (e : env) (evs : list event) (w : world) : option world :=
  match evs with
  | [] => Some w
  | ev :: evs => w ← perform e ev w; play e evs w
  end.

(** The times a SYN filter asks for are within bounds. *)
Definition event_ok (T : Z) (ev : event) : Prop :=
  match ev with Syn _ _ _ _ filter _ initial_timeout => initial_timeout <= T /\ verdict_ok T filter | _ => True end.

Section Events.
Context (e : env) (T : Z) (Ht : times_ok e T).

Definition world_ok (w : world) : Prop := table_ok T (w_net w) /\ Forall (pending_ok T (w_net w)) (w_pending w).

Lemma pending_steps n n' ps : length (hashbase (cache n')) = length (hashbase (cache n)) -> Forall (pending_ok T n) ps -> Forall (pending_ok T n') ps.
Proof. intros L H. eapply Forall_impl; [exact H|]. intros p [P1 P2 P3]. split; auto. rewrite L. exact P1. Qed.

Lemma keep_ok w (r : option net) : world_ok w -> (exists n', r = Some n' /\ steps T (w_net w) n') ->
  exists w', (n ← r; Some (mk_world n (w_pending w))) = Some w' /\ world_ok w'.
Proof.
  intros [_ H2] (n' & -> & [S1 S2 S3]). eexists. split; [reflexivity|]. split; [exact S1 | exact (pending_steps _ n' _ S3 H2)].
Qed.

Lemma perform_ok ev w : world_ok w -> event_ok T ev -> exists w', perform e ev w = Some w' /\ world_ok w'.
Proof.
  intros H Hev. pose proof H as [H1 H2]. destruct ev as [inc to th l filter m tt|i|inc to th l m|inc th m|inc m|inc seq m|inc to th m|]; cbn [perform].
  - destruct Hev as [E1 E2]. destruct (add_steps e T Ht inc to th l filter m tt (w_net w) H1 E1 E2) as (p & n' & -> & S & P). eexists. split; [reflexivity|].
    split; [apply S|]. apply Forall_app. split; [exact (pending_steps _ n' _ (st_size _ _ _ S) H2)|]. destruct p as [p|]; [constructor; [exact P | constructor] | constructor].
  - destruct (w_pending w !! i) as [p|] eqn:Ep; [|eauto]. destruct (finish_steps e T Ht p (w_net w) H1 (proj1 (Forall_lookup _ _) H2 i p Ep)) as (n' & -> & S).
    eexists. split; [reflexivity|]. split; [apply S | apply Forall_delete, (pending_steps _ n' _ (st_size _ _ _ S) H2)].
  - destruct (expand_steps e T inc to th l m (w_net w) H1) as (r & n' & -> & S). eexists. split; [reflexivity|]. split; [apply S | exact (pending_steps _ n' _ (st_size _ _ _ S) H2)].
  - apply keep_ok, chkrst_steps; assumption.
  - apply keep_ok, badack_steps; assumption.
  - apply keep_ok, unreach_steps; assumption.
  - apply keep_ok, passive_synack_steps; assumption.
  - destruct (tick_ok e T Ht (w_net w) H1) as (n' & -> & T1 & _ & _ & L & _). eexists. split; [reflexivity|]. split; [exact T1 | exact (pending_steps _ n' _ L H2)].
Qed.

Lemma play_ok evs : forall w, world_ok w -> Forall (event_ok T) evs -> exists w', play e evs w = Some w' /\ world_ok w'.
Proof.
  induction evs as [|ev evs IH]; intros w H Hev; [eauto|]. inversion Hev as [|? ? E1 E2]. subst. destruct (perform_ok ev w H E1) as (w1 & E & H1).
  cbn [play]. rewrite E. exact (IH w1 H1 E2).
Qed.

(** ** The table at boot *)

Lemma boot_size hs : let size := u32 (default TCP_SYNCACHE_HASHSIZE hs) in
  exists j : nat, (if negb (HostCache.Hostcache.powerof2 size) || (size =? 0) then TCP_SYNCACHE_HASHSIZE else size) = 2 ^ Z.of_nat j /\ (j < 32)%nat.
Proof.
  intros size. assert (R : 0 <= size < 2 ^ 32) by apply u32_range. clearbody size. destruct (HostCache.Hostcache.powerof2 size) eqn:P; cbn [negb orb]; [|exists 9%nat; split; [reflexivity | lia]].
  destruct (Z.eqb_spec size 0); [exists 9%nat; split; [reflexivity | lia]|]. destruct (HostCache.Hostcache.powerof2_pow size ltac:(lia) P) as (j & Hj & ->). exists (Z.to_nat j).
  rewrite Z2Nat.id by lia. split; [reflexivity | lia].
Qed.

Lemma total_empty size : total (replicate size empty_row) = 0%nat.
Proof. induction size; [reflexivity | cbn; assumption]. Qed.

Lemma boot_ok secret hs bl cl limit n : 1 <= u32 (default TCP_SYNCACHE_BUCKETLIMIT bl) -> 0 <= limit <= 12 -> s32 (ticks n) = ticks n ->
  cache n = (syncache_init secret hs bl cl) <| rexmt_limit := limit |> -> table_ok T n.
Proof.
  intros Hb Hl Hn E. destruct (boot_size hs) as (j & Hj & Hj'). assert (P : 0 < 2 ^ Z.of_nat j < 2 ^ 32).
  { split; [lia|]. apply Z.pow_lt_mono_r; lia. }
  split; rewrite ?E; cbn [syncache_init hashsize hashmask hashbase bucket_limit rexmt_limit cache_count update eta eta_tcp_syncache]; rewrite ?Hj; auto.
  - exists j. split; [reflexivity|]. apply u32_small. lia.
  - rewrite length_replicate. reflexivity.
  - split; [exact Hb | apply u32_range].
  - apply Forall_replicate. split; cbn; [reflexivity | lia | constructor | congruence].
  - rewrite total_empty. reflexivity.
Qed.
End Events.

(** ** How long an entry lives *)

Section Life.
Context (e : env) (T : Z) (Ht : times_ok e T).

Fixpoint waits (r k : nat) : Z :=
  match k with O => 0 | S k => wait e r + waits (S r) k end.

(** Until it is dropped, if nothing arrives for it. *)
Definition remaining (limit now : Z) (sc : syncache) : Z :=
  off now (sc_rxttime sc) + waits (Z.to_nat (sc_rxmits sc)) (Z.to_nat (limit + 1) - Z.to_nat (sc_rxmits sc)).

(** An entry without its times and the marks of a passive connection, which a timeout may clear. *)
Definition who (sc : syncache) : syncache :=
  (clear_flag (Z.lor (Z.lor SCF_PASSIVE SCF_PASSIVE_SYNACK) SCF_CONVERT_ON_TIMEOUT) sc) <| sc_rxttime := 0 |> <| sc_rxmits := 0 |>
    <| sc_inc := (sc_inc sc) <| inc_flags := Z.land (inc_flags (sc_inc sc)) (Z.lnot (Z.lor INC_PASSIVE INC_CONVONTMO)) |> |>.

Fixpoint run_ticks (d : nat) (n : net) : option net :=
  match d with O => Some n | S d => n ← tick e n; run_ticks d n end.

Lemma waits_nonneg k : forall r, (r + k <= 13)%nat -> 0 <= waits r k.
Proof. induction k as [|k IH]; intros r H; cbn [waits]; [lia|]. pose proof (wait_bounds e T Ht r ltac:(lia)). specialize (IH (S r) ltac:(lia)). lia. Qed.

Lemma who_convert sc : who (convert sc) = who sc.
Proof.
  unfold convert. destruct (_ && _); [|reflexivity]. unfold who, clear_flag.
  generalize (Z.lnot (Z.lor (Z.lor SCF_PASSIVE SCF_PASSIVE_SYNACK) SCF_CONVERT_ON_TIMEOUT)), (Z.lnot (Z.lor INC_PASSIVE INC_CONVONTMO)). intros a b.
  destruct sc as [inc]. destruct inc. cbn [update sc_inc sc_flags inc_flags]. rewrite <- !Z.land_assoc, !Z.land_diag. reflexivity.
Qed.

Section Step.
Context (limit now : Z) (Hl : 0 <= limit <= 12).

Lemma remaining_pos sc : entry_ok T limit now sc -> 1 <= remaining limit now sc.
Proof. intros [N1 N2 N3]. unfold remaining. pose proof (waits_nonneg (Z.to_nat (limit + 1) - Z.to_nat (sc_rxmits sc)) (Z.to_nat (sc_rxmits sc)) ltac:(lia)). lia. Qed.

(** A tick takes one off what remains. *)
Lemma served_step sc : entry_ok T limit now sc ->
  match served e limit (s32 (now + 1)) sc with
  | Some sc' => remaining limit (s32 (now + 1)) sc' = remaining limit now sc - 1 /\ who sc' = who sc
  | None => remaining limit now sc = 1
  end.
Proof.
  intros [N1 N2 N3]. unfold served. rewrite due_gt, off_next by lia. unfold remaining. destruct (Z.ltb_spec 0 (off now (sc_rxttime sc) - 1)).
  - rewrite off_next by lia. split; [lia | reflexivity].
  - assert (E1 : off now (sc_rxttime sc) = 1) by lia. rewrite E1. destruct (Z.ltb_spec limit (sc_rxmits sc)).
    + replace (Z.to_nat (limit + 1) - Z.to_nat (sc_rxmits sc))%nat with 0%nat by lia. reflexivity.
    + destruct (convert_time sc) as [C1 C2]. split; [|exact (who_convert sc)]. cbn [timed sc_rxttime sc_rxmits update eta eta_syncache].
      assert (Er : u16 (sc_rxmits (convert sc) + 1) = sc_rxmits sc + 1) by (rewrite C2; wrap). rewrite Er. unfold delay. cbn [Z.ltb Z.compare]. rewrite C2.
      pose proof (wait_bounds e T Ht (Z.to_nat (sc_rxmits sc)) ltac:(lia)) as W. destruct Ht as [_ _ Hm]. unfold INT_MAX in Hm. rewrite off_plus by lia.
      replace (Z.to_nat (limit + 1) - Z.to_nat (sc_rxmits sc))%nat with (S (Z.to_nat (limit + 1) - Z.to_nat (sc_rxmits sc + 1))) by lia. cbn [waits].
      replace (S (Z.to_nat (sc_rxmits sc))) with (Z.to_nat (sc_rxmits sc + 1)) by lia. lia.
Qed.

Lemma served_bucket d bucket : Forall (entry_ok T limit now) bucket ->
  map who (filter (fun sc => d < remaining limit (s32 (now + 1)) sc) (omap (served e limit (s32 (now + 1))) bucket)) =
  map who (filter (fun sc => d + 1 < remaining limit now sc) bucket) \/ d < 0.
Proof.
  intros H. destruct (Z.ltb_spec d 0); [auto|]. left. induction H as [|sc bucket N _ IH]; [reflexivity|]. cbn [omap list_omap]. pose proof (served_step sc N) as S.
  rewrite (filter_cons _ sc). destruct (served e limit (s32 (now + 1)) sc) as [sc'|].
  - rewrite filter_cons. destruct S as [S1 S2]. destruct (decide (d < _)), (decide (d + 1 < _)); try lia; cbn [map]; rewrite ?S2; [f_equal|]; exact IH.
  - destruct (decide (d + 1 < _)); [lia | exact IH].
Qed.
End Step.

Lemma filter_all {A} (P : A -> Prop) `{!forall x, Decision (P x)} l : Forall P l -> filter P l = l.
Proof. induction 1 as [|x l Hx _ IH]; [reflexivity|]. rewrite filter_cons. destruct (decide (P x)); [congruence | contradiction]. Qed.

Lemma run_ticks_ok d : forall n, table_ok T n -> exists n', run_ticks d n = Some n' /\ table_ok T n' /\ same_hash n n' /\
  forall k sch, row k n = Some sch -> exists sch', row k n' = Some sch' /\
    map who (sch_bucket sch') = map who (filter (fun sc => Z.of_nat d < remaining (rexmt_limit (cache n)) (ticks n) sc) (sch_bucket sch)).
Proof.
  induction d as [|d IH]; intros n H.
  - exists n. split; [reflexivity|]. split; [exact H|]. split; [split; reflexivity|]. intros k sch E. exists sch. split; [exact E|]. f_equal. symmetry. apply filter_all.
    eapply Forall_impl; [exact (r_entries _ _ _ _ _ (row_lookup T n k sch H E))|]. intros sc N. pose proof (remaining_pos _ _ (tb_rexmt T n H) sc N). lia.
  - cbn [run_ticks]. destruct (tick_ok e T Ht n H) as (n1 & -> & H1 & T1 & [X1 [X2 X3]] & L1 & B1). cbn [mbind option_bind]. destruct (IH n1 H1) as (n' & E' & H' & [X4 X5] & B'). exists n'.
    split; [exact E'|]. split; [exact H'|]. split; [split; congruence|]. intros k sch E. destruct (B1 k sch E) as (sch1 & E1 & Eb). destruct (B' k sch1 E1) as (sch' & E2 & Eb'). exists sch'. split; [exact E2|].
    rewrite Eb', Eb, X1, T1. replace (Z.of_nat (S d)) with (Z.of_nat d + 1) by lia.
    destruct (served_bucket _ _ (tb_rexmt T n H) (Z.of_nat d) (sch_bucket sch) (r_entries _ _ _ _ _ (row_lookup T n k sch H E))) as [S|S]; [exact S | lia].
Qed.

(** With the default limit: 3 + 6 + 12 + 24 seconds. *)
Lemma fresh_remaining now sc : sc_rxmits sc = 0 -> remaining SYNCACHE_MAXREXMTS now (timed e now (-1) sc) = 45 * hz e.
Proof.
  intros H. unfold remaining, timed. cbn [sc_rxttime sc_rxmits update eta eta_syncache]. unfold delay. cbn [Z.ltb Z.compare]. rewrite H.
  pose proof (wait_bounds e T Ht 0 ltac:(lia)) as W. destruct Ht as [_ _ Hm]. unfold INT_MAX in Hm. change (Z.to_nat 0) with 0%nat. rewrite off_plus by lia.
  change (u16 (0 + 1)) with 1. change (Z.to_nat (SYNCACHE_MAXREXMTS + 1) - Z.to_nat 1)%nat with 3%nat. change (Z.to_nat 1) with 1%nat. cbn [waits].
  unfold wait. cbn [nth TcpTimer.Timer.tcp_backoff]. lia.
Qed.
End Life.

(** ** A handshake *)

(** What the entry of a SYN holds. *)
Record entry_of (inc : in_conninfo) (th : tcphdr) (l : listener) (m : option mbuf) (sc : syncache) : Prop := {
  eo_inc : sc_inc sc = inc;
  eo_fib : sc_fib sc = frame_fib m;
  eo_tags : sc_l2tag sc = if lsn_promisc l then frame_tags m else None;
  eo_irs : sc_irs sc = th_seq th;
  eo_wnd : sc_wnd sc = clip_window (lsn_win l) }.

Section Handshake.
Context (e : env) (T : Z) (Ht : times_ok e T).

Lemma drop_hash k j n n' : syncache_drop k j n = Some n' -> same_hash n n'.
Proof.
  unfold syncache_drop. intros H. destruct (row k n) as [sch|]; [|discriminate]. cbn [mbind option_bind] in H. destruct (sch_bucket sch !! j); [|discriminate].
  injection H as <-. split; reflexivity.
Qed.

Lemma alloc_hash k n ok n' : alloc_entry k n = Some (ok, n') -> same_hash n n'.
Proof.
  unfold alloc_entry. pose proof (alloc_same n) as [S _]. destruct (zalloc n) as [ok1 n1]. cbn [snd] in S. destruct ok1; [intros; simplify_eq; split; congruence|].
  destruct (row k n1) as [sch|]; [|discriminate]. cbn [mbind option_bind]. intros H.
  assert (D : exists n2, match sch_bucket sch with [] => Some n1 | _ => syncache_drop k (length (sch_bucket sch) - 1) n1 end = Some n2 /\ zalloc n2 = (ok, n') /\ same_hash n1 n2).
  { destruct (sch_bucket sch); [exists n1; split; [reflexivity|]; split; [exact (Some_inj _ _ H) | split; reflexivity]|].
    destruct (syncache_drop _ _ n1) as [n2|] eqn:D; [|discriminate]. exists n2. split; [reflexivity|]. split; [exact (Some_inj _ _ H) | exact (drop_hash _ _ _ _ D)]. }
  destruct D as (n2 & _ & Z2 & [S1 S2]). unfold zalloc in Z2. simplify_eq. unfold same_hash. cbn. split; congruence.
Qed.

Lemma if_keeps {A B} (obs : A -> B) (b : bool) (x y : A) : obs x = obs y -> obs (if b then x else y) = obs y.
Proof. destruct b; auto. Qed.

Lemma fill_holds inc to th l passive tt altfib iss ts : let sc := fill e inc to th l passive tt altfib iss ts in
  sc_inc sc = inc /\ sc_irs sc = th_seq th /\ sc_wnd sc = clip_window (lsn_win l) /\ sc_l2tag sc = None.
Proof.
  cbv zeta. pose (obs sc := (sc_inc sc, sc_irs sc, sc_wnd sc, sc_l2tag sc)). enough (E : obs (fill e inc to th l passive tt altfib iss ts) = (inc, th_seq th, clip_window (lsn_win l), None)).
  { split_and!; [exact (f_equal (fun o => o.1.1.1) E) | exact (f_equal (fun o => o.1.1.2) E) | exact (f_equal (fun o => o.1.2) E) | exact (f_equal snd E)]. }
  unfold fill. do 9 (etrans; [apply (if_keeps obs); reflexivity|]). reflexivity.
Qed.

Lemma generate_holds sch sc n : let sc' := snd (fst (syncookie_generate e sch sc n)) in
  sc_inc sc' = sc_inc sc /\ sc_irs sc' = sc_irs sc /\ sc_wnd sc' = sc_wnd sc /\ sc_l2tag sc' = sc_l2tag sc.
Proof. cbv zeta. unfold syncookie_generate. destruct (reseed sch n), (digest e _ _ _ _) as [[[d0 d1] d2] d3]. cbn [fst snd]. case_match; split_and!; reflexivity. Qed.

Lemma add_entry_holds inc to th l m k passive tt altfib n p n' : add_entry e inc to th l m k passive tt altfib n = Some (Some p, n') ->
  p_row p = k /\ entry_of inc th l m (p_sc p) /\ same_hash n n'.
Proof.
  unfold add_entry. intros H. destruct (alloc_entry k n) as [[ok n1]|] eqn:A; [|discriminate]. apply alloc_hash in A. cbn [mbind option_bind] in H.
  destruct (negb ok && _); [discriminate|]. destruct (row k n1) as [sch|]; [|discriminate]. cbn [mbind option_bind] in H.
  destruct (arc4random n1) as [iss n2] eqn:Ea. assert (S2 : same_table n1 n2) by (unfold arc4random in Ea; simplify_eq; split; reflexivity).
  pose proof (fill_holds inc to th l passive tt altfib iss (ts_ticks n2)) as (F1 & F2 & F3 & F4). set (sc := fill e inc to th l passive tt altfib iss (ts_ticks n2)) in *.
  assert (G : exists sch3 sc3 n3, (if syncookies e && negb passive then syncookie_generate e sch sc n2 else (sch, sc, n2)) = (sch3, sc3, n3) /\ same_table n2 n3 /\
    sc_inc sc3 = sc_inc sc /\ sc_irs sc3 = sc_irs sc /\ sc_wnd sc3 = sc_wnd sc /\ sc_l2tag sc3 = sc_l2tag sc).
  { destruct (_ && _); [|exists sch, sc, n2; repeat split]. pose proof (generate_holds sch sc n2) as G. pose proof (generate_same e sch sc n2) as G'.
    destruct (syncookie_generate e sch sc n2) as [[sch3 sc3] n3]. cbn [fst snd] in G. exists sch3, sc3, n3. split; [reflexivity|]. split; [apply G' | exact G]. }
  destruct G as (sch3 & sc3 & n3 & EG & [S3 _] & G1 & G2 & G3 & G4). rewrite EG in H. injection H as <- <-. cbn [p_row p_sc]. split; [reflexivity|].
  split; [|destruct A as [A1 A2], S2 as [S2 _]; unfold same_hash; cbn; rewrite S3, S2; split; assumption].
  split; destruct (lsn_promisc l); cbn; congruence.
Qed.

Lemma add_holds inc to th l filter m tt n p n' : table_ok T n -> syncache_add e inc to th l filter m tt n = Some (Some p, n') ->
  p_row p = row_of inc m n /\ entry_of inc th l m (p_sc p) /\ same_hash n n'.
Proof.
  intros H. unfold syncache_add. destruct (cache_lookup_ok T n inc m H) as (sch & r & -> & E & Er). cbn [mbind option_bind]. destruct r as [[j sc]|].
  { destruct (dup_syn e to _ j sch sc n); [intros; simplify_eq | discriminate]. }
  destruct filter as [v|]; [|apply add_entry_holds]. destruct (has_flag _ _); [apply add_entry_holds|].
  destruct (v_decision v); try discriminate; apply add_entry_holds.
Qed.

Lemma tagcmp_refl x : in_promisc_tagcmp x x = Some 0.
Proof. rewrite tagcmp_correct, decide_True by reflexivity. reflexivity. Qed.

Lemma entry_matches inc th l m sc : entry_of inc th l m sc -> frame_tags m = None \/ lsn_promisc l = true -> sc_matches inc m sc = true.
Proof.
  intros [E1 E2 E3 E4 E5] Hm. unfold sc_matches, ENDPTS_EQ. rewrite E1, E2, !Z.eqb_refl.
  assert (sc_l2tag sc = frame_tags m) as -> by (rewrite E3; destruct Hm as [-> | ->]; [destruct (lsn_promisc l)|]; reflexivity).
  rewrite tagcmp_refl. reflexivity.
Qed.

Lemma who_matches inc m sc sc' : who sc' = who sc -> sc_matches inc m sc' = sc_matches inc m sc.
Proof.
  intros H. unfold sc_matches, ENDPTS_EQ. assert (F : forall f, f (who sc') = f (who sc) :> Z) by (intros f; rewrite H; reflexivity).
  pose proof (F (fun x => inc_fport (sc_inc x))) as F1. pose proof (F (fun x => inc_lport (sc_inc x))) as F2. pose proof (F (fun x => inc_faddr (sc_inc x))) as F3.
  pose proof (F (fun x => inc_laddr (sc_inc x))) as F4. pose proof (f_equal sc_l2tag H) as F5. pose proof (F sc_fib) as F6. cbn in F1, F2, F3, F4, F5, F6. rewrite F1, F2, F3, F4, F5, F6. reflexivity.
Qed.

Lemma who_same (sc sc' : syncache) : who sc' = who sc -> scf sc' SCF_TIMESTAMP = scf sc SCF_TIMESTAMP /\ sc_irs sc' = sc_irs sc /\ sc_iss sc' = sc_iss sc /\ sc_wnd sc' = sc_wnd sc /\
  sc_ts sc' = sc_ts sc /\ sc_peer_mss sc' = sc_peer_mss sc /\ sc_requested_s_scale sc' = sc_requested_s_scale sc /\ sc_requested_r_scale sc' = sc_requested_r_scale sc.
Proof.
  intros H. split.
  2: { split_and!; [exact (f_equal sc_irs H) | exact (f_equal sc_iss H) | exact (f_equal sc_wnd H) | exact (f_equal sc_ts H) | exact (f_equal sc_peer_mss H) |
    exact (f_equal sc_requested_s_scale H) | exact (f_equal sc_requested_r_scale H)]. }
  apply (f_equal (fun x => scf x SCF_TIMESTAMP)) in H. unfold who, clear_flag, scf in *. cbn [sc_flags update eta eta_syncache] in H. rewrite !flag_cleared_other in H by reflexivity. exact H.
Qed.

(** The ACK of a SYN,ACK is good. *)
Lemma good_ack to' th' sc : 0 < sc_wnd sc <= TcpCC.CC.TCP_MAXWIN -> th_ack th' = u32 (sc_iss sc + 1) -> th_seq th' = u32 (sc_irs sc + 1) ->
  (has_flag (to_flags to') TOF_TS = true -> scf sc SCF_TIMESTAMP = true /\ to_tsecr to' = sc_ts sc) ->
  ack_valid to' th' (trust_ack to' th' sc) = true /\ u32 (sc_iss (trust_ack to' th' sc)) = u32 (sc_iss sc) /\ sc_irs (trust_ack to' th' sc) = sc_irs sc /\
  sc_peer_mss (trust_ack to' th' sc) = sc_peer_mss sc /\ sc_requested_s_scale (trust_ack to' th' sc) = sc_requested_s_scale sc /\
  sc_requested_r_scale (trust_ack to' th' sc) = sc_requested_r_scale sc.
Proof.
  unfold TcpCC.CC.TCP_MAXWIN. intros Hw Ha Hs Hts. assert (V : forall iss ts, u32 iss = u32 (sc_iss sc) -> (has_flag (to_flags to') TOF_TS = true -> to_tsecr to' = ts) ->
    ack_valid to' th' (sc <| sc_iss := iss |> <| sc_ts := ts |>) = true).
  { intros iss ts Hi Ht'. unfold ack_valid, SEQ_LEQ, SEQ_GT, scf in *. cbn. rewrite Hs, Ha.
    assert (u32 (iss + 1) = u32 (sc_iss sc + 1)) as -> by (rewrite <- u32_add_l, Hi, u32_add_l; reflexivity). rewrite Z.eqb_refl.
    assert (s32 (u32 (sc_irs sc + 1) - sc_irs sc) = 1) as -> by wrap. assert (s32 (u32 (sc_irs sc + 1) - u32 (sc_irs sc + sc_wnd sc)) = 1 - sc_wnd sc) as -> by wrap.
    destruct (Z.ltb_spec 0 (1 - sc_wnd sc)); [lia|]. cbn. destruct (has_flag (to_flags to') TOF_TS); [|rewrite andb_false_r; reflexivity].
    destruct (Hts eq_refl) as [-> _]. rewrite (Ht' eq_refl), Z.eqb_refl. reflexivity. }
  unfold trust_ack. destruct (_ && _).
  - split_and!; try reflexivity; [apply V; [|reflexivity] | cbn]; rewrite Ha; wrap.
  - split_and!; try reflexivity. specialize (V (sc_iss sc) (sc_ts sc) eq_refl (fun h => proj2 (Hts h))). destruct sc. exact V.
Qed.

(** After the SYN is answered its entry is at the head of its row. *)
Lemma finish_head p n : table_ok T n -> pending_ok T n p -> p_allocated p = true -> syncookies e && syncookiesonly e && negb (p_passive p) = false ->
  fst (syncache_respond e (p_sc p) n) = 0 ->
  exists n' sch b, syncache_add_finish e p n = Some n' /\ table_ok T n' /\ same_hash n n' /\ ticks n' = ticks n /\ rexmt_limit (cache n') = rexmt_limit (cache n) /\
    row (p_row p) n' = Some sch /\ sch_bucket sch = timed e (ticks n) (p_timeout p) (p_sc p) :: b.
Proof.
  intros H [P1 P2 P3] Ha Hc Hr. unfold syncache_add_finish. pose proof (respond_same e (p_sc p) n) as S. destruct (syncache_respond e (p_sc p) n) as [error n1]. cbn [fst snd] in *.
  rewrite Hr, Ha, Hc. cbn [Z.eqb negb orb]. pose proof (steps_same T n n1 H S) as S1. destruct S as [Sc St].
  destruct (insert_ok e T Ht n1 (p_row p) (p_timeout p) (p_sc p)) as (n2 & -> & H2 & E2 & L2 & [X1 X2] & X3 & sch & b & R & B); auto; [apply S1 | apply row_some; rewrite Sc; exact P1 |].
  exists n2, sch, b. unfold same_hash. rewrite <- Sc, <- St. split_and!; auto.
Qed.

Lemma map_head {A B} (f : A -> B) x l l' : map f l = map f (x :: l') -> exists y t, l = y :: t /\ f y = f x.
Proof. destruct l as [|y t]; [discriminate|]. intros H. exists y, t. split; [reflexivity | exact (f_equal (fun l => default (f y) (head l)) H)]. Qed.

Lemma expand_head n inc to' th' l' m sch sc b : table_ok T n -> row (row_of inc m n) n = Some sch -> sch_bucket sch = sc :: b -> sc_matches inc m sc = true ->
  exists n', syncache_expand e inc to' th' l' m n = Some (if ack_valid to' th' (trust_ack to' th' sc) then Some (trust_ack to' th' sc) else None, n') /\ table_ok T n'.
Proof.
  intros H E Eb Hm. unfold syncache_expand, syncache_lookup. rewrite E. cbn [mbind option_bind]. rewrite Eb. cbn [list_find]. rewrite decide_True by (rewrite Hm; exact I).
  destruct (drop_ok T n _ sch 0 H E) as [-> H']; [rewrite Eb; cbn; lia|]. cbn [mbind option_bind]. eexists. split; [reflexivity | exact H'].
Qed.
End Handshake.

(** ** Destroying the table *)

Lemma drop_all_ok bucket : forall k sch n, row k n = Some sch -> sch_bucket sch = bucket ->
  exists n' sch', drop_all (length bucket) k n = Some n' /\ hashbase (cache n') = <[k := sch']> (hashbase (cache n)) /\ sch_bucket sch' = [] /\
    less (Z.of_nat (length bucket)) (sch_length sch) (sch_length sch') /\ less (Z.of_nat (length bucket)) (cache_count (cache n)) (cache_count (cache n')).
Proof.
  induction bucket as [|sc bucket IH]; intros k sch n E Eb.
  - exists n, sch. split; [reflexivity|]. split; [symmetry; apply list_insert_id; exact E|]. split; [exact Eb|]. split; apply less_none.
  - cbn [length drop_all]. unfold syncache_drop at 1. rewrite E. cbn [mbind option_bind]. rewrite Eb. cbn [lookup list_lookup mbind option_bind].
    set (sch1 := sch <| sch_bucket := _ |> <| sch_length := _ |>). set (n1 := count_by (-1) (put_row k sch1 n)).
    destruct (IH k sch1 n1) as (n' & sch' & D1 & D2 & D3 & D4 & D5); [apply (row_put k sch1 n); eauto | reflexivity |]. exists n', sch'. split; [exact D1|].
    split; [rewrite D2; cbn; apply list_insert_insert_eq|]. split; [exact D3|]. replace (Z.of_nat (S (length bucket))) with (Z.of_nat (length bucket) + 1) by lia.
    split; apply less_one; assumption.
Qed.

(** The rows below [i] are empty. *)
Record emptied (i : nat) (n : net) : Prop := {
  em_count : cache_count (cache n) = u32 (Z.of_nat (total (hashbase (cache n))));
  em_done : forall k sch, row k n = Some sch -> (k < i)%nat -> sch_bucket sch = [];
  em_rest : forall k sch, row k n = Some sch -> sch_length sch = Z.of_nat (length (sch_bucket sch)) /\ 0 <= sch_length sch < 2 ^ 32 }.

Lemma destroy_row_ok i n : emptied i n -> (i < length (hashbase (cache n)))%nat ->
  exists n', destroy_row i n = Some n' /\ emptied (S i) n' /\ length (hashbase (cache n')) = length (hashbase (cache n)).
Proof.
  intros [M1 M2 M3] Hi. destruct (row_some i n Hi) as [sch E]. destruct (M3 i sch E) as [L1 L2]. unfold destroy_row. rewrite E. cbn [mbind option_bind].
  set (sch0 := sch <| sch_timer := None |>). set (n0 := put_row i sch0 n).
  destruct (drop_all_ok (sch_bucket sch) i sch0 n0) as (n' & sch' & D1 & D2 & D3 & [D4 D4'] & [D5 D5']); [apply row_put; eauto | reflexivity |]. rewrite D1. cbn [mbind option_bind].
  assert (Eh : hashbase (cache n') = <[i := sch']> (hashbase (cache n))) by (rewrite D2; apply list_insert_insert_eq).
  assert (Ei : row i n' = Some sch') by (unfold row; rewrite Eh; apply list_lookup_insert_eq; exact Hi). change (sch_length sch0) with (sch_length sch) in D4, D4'.
  assert (El : sch_length sch' = 0) by (rewrite <- D4' by (apply u32_small; lia); rewrite D4, L1, Z.sub_diag; reflexivity).
  rewrite Ei. cbn [mbind option_bind]. rewrite D3, El. cbn [Z.eqb]. rewrite bool_decide_true by reflexivity. cbn [andb]. exists n'. split; [reflexivity|].
  split; [|rewrite Eh; apply length_insert]. change (cache_count (cache n0)) with (cache_count (cache n)) in D5, D5'. split.
  - rewrite <- D5' by (rewrite M1; apply u32_u32). rewrite D5, M1, u32_sub_l, Eh, (total_insert _ _ _ _ E), D3. cbn [length]. f_equal. lia.
  - intros k s Es Hk. destruct (decide (k = i)) as [->|]; [congruence|]. unfold row in Es. rewrite Eh, list_lookup_insert_ne in Es by congruence. apply (M2 k s Es). lia.
  - intros k s Es. destruct (decide (k = i)) as [->|]; [rewrite Ei in Es; injection Es as <-; rewrite D3, El; cbn; lia|].
    unfold row in Es. rewrite Eh, list_lookup_insert_ne in Es by congruence. exact (M3 k s Es).
Qed.

Lemma destroy_rows_ok len : forall i n, emptied i n -> (i + len = length (hashbase (cache n)))%nat ->
  exists n', destroy_rows (seq i len) n = Some n' /\ emptied (i + len) n' /\ length (hashbase (cache n')) = length (hashbase (cache n)).
Proof.
  induction len as [|len IH]; intros i n M Hi; [exists n; rewrite Nat.add_0_r; auto|]. cbn [seq destroy_rows].
  destruct (destroy_row_ok i n M ltac:(lia)) as (n1 & -> & M1 & L1). cbn [mbind option_bind]. destruct (IH (S i) n1 M1 ltac:(lia)) as (n' & -> & M' & L').
  exists n'. rewrite <- Nat.add_succ_comm. split_and!; auto. congruence.
Qed.

Lemma total_none rows : Forall (fun sch => sch_bucket sch = []) rows -> total rows = 0%nat.
Proof. induction 1 as [|sch rows E _ IH]; [reflexivity|]. unfold total in *. cbn [sum_list_with]. rewrite E, IH. reflexivity. Qed.

Lemma cache_destroy_ok T n : table_ok T n -> exists n', syncache_destroy n = Some n' /\ Forall (fun sch => sch_bucket sch = []) (hashbase (cache n')).
Proof.
  intros H. unfold syncache_destroy. rewrite <- (tb_rows T n H). destruct (destroy_rows_ok (length (hashbase (cache n))) 0 n) as (n' & -> & [E1 E2 E3] & L); [|reflexivity|].
  { split; [apply (tb_count T n H) | lia |]. intros k sch E. destruct (row_lookup T n k sch H E) as [R1 R2 _ _]. pose proof (tb_limit T n H). split; [exact R1 | lia]. }
  cbn [mbind option_bind]. assert (F : Forall (fun sch => sch_bucket sch = []) (hashbase (cache n'))).
  { apply Forall_lookup. intros k sch E. apply (E2 k sch E). apply lookup_lt_Some in E. lia. }
  rewrite E1, (total_none _ F). cbn [Z.of_nat]. eauto.
Qed.

(** ** Theorems *)


(** C13: when nothing arrives for [d] ticks the timers leave in each row, in order, exactly the entries whose
    retransmissions take longer than that; for a new one, with three retransmissions, it is 45 seconds. *)
Theorem syncache_entry_lifetime e T d n : times_ok e T -> table_ok T n ->
  (exists n', run_ticks e d n = Some n' /\ table_ok T n' /\ forall k sch, row k n = Some sch -> exists sch', row k n' = Some sch' /\
    map who (sch_bucket sch') = map who (filter (fun sc => Z.of_nat d < remaining e (rexmt_limit (cache n)) (ticks n) sc) (sch_bucket sch))) /\
  (forall sc, sc_rxmits sc = 0 -> remaining e SYNCACHE_MAXREXMTS (ticks n) (timed e (ticks n) (-1) sc) = 45 * hz e).
Proof.
  intros Ht H. split; [|intros sc Hs; exact (fresh_remaining e T Ht (ticks n) sc Hs)]. destruct (run_ticks_ok e T Ht d n H) as (n' & E & H' & _ & B). eauto 6.
Qed.


(** ** Examples *)

(** The defaults, with a made up digest; a table of four rows. *)
Definition toy_digest (secret : list Z) (inc : in_conninfo) (seq data : Z) : Z * Z * Z * Z :=
  let s := fold_left (fun h b => u32 (31 * h + b)) secret (u32 (inc_faddr inc + 7 * inc_fport inc + 11 * seq + 13 * data)) in
  (u32 s, u32 (3 * s + 1), u32 (5 * s + 2), u32 (7 * s + 3)).
Definition env0 : env := mk_env (fun _ => 1460) toy_digest 216 (256 * 1024) 100 true false true false true.
Definition net0 : net := mk_net (syncache_init 99 (Some 4) None None) 1000 500 77 [5; 6; 7; 8; 9; 10; 11; 12; 13; 14; 15; 16; 17; 18; 19; 20] [] [] [].
Definition client : in_conninfo := mk_inc 0 0 0 4000 80 0x0a000002 0x0a000001.
Definition syn_opts : tcpopt := mk_tcpopt (Z.lor TOF_MSS (Z.lor TOF_SCALE (Z.lor TOF_TS TOF_SACKPERM))) 1234 0 [] [] 1460 5 0.
Definition listener0 : listener := mk_listener 64 0 65536 false true.
Definition syn0 : tcphdr := mk_th 100 0 TH_SYN 8192.

Lemma times0 : times_ok env0 (200 * 1000).
Proof. split; cbn; unfold INT_MAX; lia. Qed.

Lemma net0_ok : table_ok (200 * 1000) net0.
Proof. apply (boot_ok (200 * 1000) 99 (Some 4) None None 3 net0); vm_compute; split_and?; congruence || reflexivity. Qed.

(** Two copies of a SYN are looked up before either is entered: the row has two entries for one connection. *)
Definition double_syn : list event :=
  [Syn client syn_opts syn0 listener0 None None (-1); Syn client syn_opts syn0 listener0 None None (-1); Tick; Finish 0; Finish 0; Tick].


Example one_connection_entered_twice :
  option_map (fun w => (syncache_pcbcount (w_net w), map (fun sch => map (fun sc => sc_irs sc) (sch_bucket sch)) (hashbase (cache (w_net w)))))
    (play env0 double_syn (mk_world net0 [])) = Some (2, [[100; 100]; []; []; []]).
Proof. vm_compute. reflexivity. Qed.

Definition answered : option (pending * net) :=
  match syncache_add env0 client syn_opts syn0 listener0 None None (-1) net0 with Some (Some p, n) => Some (p, n) | _ => None end.
Definition pending0 : pending := default (mk_pending 0 zero_sc false false 0) (fst <$> answered).
Definition net1 : net := default net0 (snd <$> answered).

Lemma syncache_entry_lifetime_witness :
  (exists n', run_ticks env0 10 net0 = Some n' /\ table_ok (200 * 1000) n') /\
  remaining env0 SYNCACHE_MAXREXMTS 1000 (timed env0 1000 (-1) (p_sc pending0)) = 4500.
Proof.
  destruct (syncache_entry_lifetime env0 (200 * 1000) 10 net0 times0 net0_ok) as [(n' & E & H & _) L]. split; [eauto|].
  exact (L (p_sc pending0) ltac:(vm_compute; reflexivity)).
Defined.

(** The ACK comes 44 seconds later. *)
Definition ack_opts : tcpopt := mk_tcpopt TOF_TS 1300 (sc_ts (p_sc pending0)) [] [] 0 0 0.
Definition ack0 : tcphdr := mk_th 101 (u32 (sc_iss (p_sc pending0) + 1)) TH_ACK 8192.


(** An ACK with a wrong number is rejected, and the entry it was taken for is gone. *)
Example wrong_ack_takes_the_entry :
  let bad := mk_th 101 (u32 (sc_iss (p_sc pending0) + 2)) TH_ACK 8192 in
  match syncache_add_finish env0 pending0 net1 with
  | Some n => match syncache_expand env0 client ack_opts bad listener0 None n with
              | Some (r, n') => (r, syncache_pcbcount n, syncache_pcbcount n') = (None, 1, 0)
              | None => False
              end
  | None => False
  end.
Proof. vm_compute. reflexivity. Qed.

(** A limit of no entries: the first insertion drops from an empty row. *)
Example zero_bucket_limit_faults :
  syncache_add_finish env0 pending0 (net1 <| cache := (cache net1) <| bucket_limit := u32 (default TCP_SYNCACHE_BUCKETLIMIT (Some 0)) |> |>) = None.
Proof. vm_compute. reflexivity. Qed.

(** A limit of thirteen retransmissions: the timer reads past the back-off factors. *)
Example thirteen_retransmissions_fault :
  let due := (p_sc pending0) <| sc_rxttime := ticks net0 |> <| sc_rxmits := 13 |> in
  let n := net0 <| cache := (cache net0) <| rexmt_limit := 13 |> |> in
  syncache_timer env0 0 (put_row 0 (empty_row <| sch_bucket := [due] |> <| sch_length := 1 |>) n) = None.
Proof. vm_compute. reflexivity. Qed.
End CacheSafe.
