(* ===== verification/SyncacheCookie.v ===== *)
(** * SYN cookies

    Proofs about the cookies of [Syncache]: what [syncookie_generate] puts into the
    sequence number and the timestamp of a SYN,ACK comes back in the ACK, and
    [syncookie_lookup] accepts it for the lifetime of a secret whatever other cookies
    are made in between. *)

From S2P Require Import Prelude TcpSeq TcpOptions TcpCC TcpTimer InPromisc Syncache SyncacheTable SyncacheSafe.

Module Cookies.

Import TcpOptions.Options InPromisc.Promisc Syncache.Cache SyncacheTable.CacheTable SyncacheSafe.CacheSafe.

(** ** Bits *)

Lemma u32_bit z i : 0 <= i -> Z.testbit (u32 z) i = (i <? 32) && Z.testbit z i.
Proof.
  intros Hi. unfold u32. destruct (Z.ltb_spec i 32); cbn [andb]; [apply Z.mod_pow2_bits_low | apply Z.mod_pow2_bits_high]; lia.
Qed.
Lemma high_bit d k i : 0 <= d < 2 ^ k -> 0 <= k <= i -> Z.testbit d i = false.
Proof. intros Hd Hk. rewrite <- (Z.mod_small d (2 ^ k)) by exact Hd. apply Z.mod_pow2_bits_high. lia. Qed.

Section Parts.
Context (k d x : Z) (Hk : 0 <= k <= 32) (Hd : 0 <= d < 2 ^ k).

Lemma low_part : Z.land (Z.lor d (u32 (Z.shiftl x k))) (Z.ones k) = d.
Proof.
  apply Z.bits_inj'. intros i Hi. rewrite Z.land_spec, Z.lor_spec, u32_bit, Z.shiftl_spec, Z.testbit_ones by lia.
  destruct (Z.ltb_spec i k); destruct (Z.leb_spec 0 i); cbn [andb]; try lia.
  - rewrite (Z.testbit_neg_r x) by lia. rewrite andb_false_r, orb_false_r, andb_true_r. reflexivity.
  - rewrite andb_false_r. symmetry. apply (high_bit d k); lia.
Qed.

Lemma high_part : Z.land (Z.lor d (u32 (Z.shiftl x k))) (u32 (Z.lnot (Z.ones k))) = u32 (Z.shiftl x k).
Proof.
  apply Z.bits_inj'. intros i Hi. rewrite Z.land_spec, Z.lor_spec, !u32_bit, Z.shiftl_spec, Z.lnot_spec, Z.testbit_ones by lia.
  destruct (Z.ltb_spec i k); destruct (Z.leb_spec 0 i); cbn [andb negb]; try lia.
  - rewrite (Z.testbit_neg_r x) by lia. rewrite !andb_false_r. reflexivity.
  - rewrite (high_bit d k i) by lia. destruct (i <? 32), (Z.testbit x (i - k)); reflexivity.
Qed.

Lemma parts_range : 0 <= Z.lor d (u32 (Z.shiftl x k)) < 2 ^ 32.
Proof.
  assert (E : Z.lor d (u32 (Z.shiftl x k)) = u32 (Z.lor d (u32 (Z.shiftl x k)))); [|rewrite E; apply u32_range].
  apply Z.bits_inj'. intros i Hi. rewrite u32_bit, !Z.lor_spec, u32_bit by lia. destruct (Z.ltb_spec i 32); cbn [andb]; [reflexivity|].
  rewrite (high_bit d k i) by lia. reflexivity.
Qed.
End Parts.

(** A field of the low bits. *)
Lemma field c i w k : 0 <= i -> 0 <= w -> i + w <= k -> Z.land (Z.shiftr c i) (Z.ones w) = Z.land (Z.shiftr (Z.land c (Z.ones k)) i) (Z.ones w).
Proof.
  intros Hi Hw Hk. apply Z.bits_inj'. intros j Hj. rewrite !Z.land_spec, !Z.shiftr_spec, Z.land_spec, !Z.testbit_ones by lia.
  destruct (Z.ltb_spec j w); destruct (Z.leb_spec 0 j); destruct (Z.ltb_spec (j + i) k); destruct (Z.leb_spec 0 (j + i)); cbn [andb]; try lia;
    rewrite ?andb_true_r, ?andb_false_r; reflexivity.
Qed.

(** ** What a cookie carries *)

Definition upto (n : nat) : list Z := map Z.of_nat (seq 0 n).
Lemma upto_in n z : 0 <= z < Z.of_nat n -> In z (upto n).
Proof. intros H. unfold upto. apply in_map_iff. exists (Z.to_nat z). split; [lia|]. apply in_seq. lia. Qed.

Definition params_good (odd : bool) (off : Z) (mss : nat) : bool :=
  let d := cookie_params odd off mss in
  (0 <=? d) && (d <? 2 ^ 7) && Bool.eqb (Z.odd d) odd && (Z.land (Z.shiftr d 1) 7 =? off) && (Z.land (Z.shiftr d 4) 7 =? Z.of_nat mss).
Lemma params_all odd off mss : 0 <= off < 8 -> (mss < 8)%nat -> params_good odd off mss = true.
Proof.
  intros H1 H2. assert (A : forallb (fun odd => forallb (fun off => forallb (params_good odd off) (seq 0 8)) (upto 8)) [true; false] = true) by (vm_compute; reflexivity).
  rewrite forallb_forall in A. specialize (A odd ltac:(destruct odd; cbn; auto)). rewrite forallb_forall in A. specialize (A off (upto_in 8 off H1)).
  rewrite forallb_forall in A. apply A, in_seq. lia.
Qed.

Definition ts_word (sig sack : bool) (s r : Z) : Z := Z.lor (Z.lor (Z.lor (bit sig) (Z.shiftl (bit sack) 1)) (Z.shiftl s 2)) (Z.shiftl r 6).
Definition ts_good (sig sack : bool) (s r : Z) : bool :=
  let d := ts_word sig sack s r in
  (0 <=? d) && (d <? 2 ^ 10) && Bool.eqb (Z.testbit d 0) sig && Bool.eqb (Z.testbit d 1) sack &&
  (Z.land (Z.shiftr d 2) 0xf =? s) && (Z.land (Z.shiftr d 6) 0xf =? r) && implb (sack || negb (s =? 0) || negb (r =? 0)) (negb (d =? 0)).
Lemma ts_all sig sack s r : 0 <= s < 16 -> 0 <= r < 16 -> ts_good sig sack s r = true.
Proof.
  intros H1 H2. assert (A : forallb (fun sig => forallb (fun sack => forallb (fun s => forallb (ts_good sig sack s) (upto 16)) (upto 16)) [true; false]) [true; false] = true)
    by (vm_compute; reflexivity).
  rewrite forallb_forall in A. specialize (A sig ltac:(destruct sig; cbn; auto)). rewrite forallb_forall in A. specialize (A sack ltac:(destruct sack; cbn; auto)).
  rewrite forallb_forall in A. specialize (A s (upto_in 16 s H1)). rewrite forallb_forall in A. exact (A r (upto_in 16 r H2)).
Qed.

Lemma mss_index_small i pmss : (mss_index i pmss <= i)%nat.
Proof. induction i as [|i IH]; [reflexivity|]. cbn [mss_index]. destruct (_ <=? _); lia. Qed.

(** The largest segment size of the table that the peer can take. *)
Lemma mss_index_largest pmss v : 0 <= pmss -> nth (mss_index 7 pmss) tcp_sc_msstab 0 <= pmss /\ (In v tcp_sc_msstab -> v <= pmss -> v <= nth (mss_index 7 pmss) tcp_sc_msstab 0).
Proof.
  intros H. unfold mss_index, tcp_sc_msstab. cbn [nth]. repeat (match goal with |- context [?a <=? pmss] => destruct (Z.leb_spec a pmss) end; cbn [nth]);
    (split; [lia|]); cbn [In]; lia.
Qed.

(** ** Secrets *)

Definition same_secrets (sch sch' : syncache_head) : Prop :=
  sch_oddeven sch' = sch_oddeven sch /\ sch_secbits_odd sch' = sch_secbits_odd sch /\ sch_secbits_even sch' = sch_secbits_even sch /\ sch_reseed sch' = sch_reseed sch.

(** Other cookies of the row. *)
Definition later (e : env) (sch : syncache_head) (others : list (syncache * net)) : syncache_head :=
  fold_left (fun sch '(sc, n) => fst (fst (syncookie_generate e sch sc n))) others sch.

Lemma generate_head e sch sc n : fst (fst (syncookie_generate e sch sc n)) = fst (reseed sch n).
Proof. unfold syncookie_generate. destruct (reseed sch n), (digest e _ _ _ _) as [[[d0 d1] d2] d3]. reflexivity. Qed.

(** [secret] is the one of cookies with the bit [odd], for those made at [t0]. *)
Record holds (odd : bool) (secret : list Z) (t0 : Z) (sch : syncache_head) : Prop := {
  h_secret : secbits sch odd = secret;
  h_reseed : t0 <= sch_reseed sch <= t0 + 32;
  h_other : sch_oddeven sch <> odd -> t0 + SYNCOOKIE_LIFETIME < sch_reseed sch }.

Lemma new_secret_time size : forall n, time_uptime (snd (new_secret size n)) = time_uptime n.
Proof.
  induction size as [|size IH]; intros n; [reflexivity|]. cbn. specialize (IH (n <| rands := tail (rands n) |>)). destruct (new_secret size _). exact IH.
Qed.

Lemma reseed_holds odd secret t0 sch n : 0 <= t0 -> t0 + 48 < 2 ^ 32 -> time_uptime n <= t0 + SYNCOOKIE_LIFETIME -> holds odd secret t0 sch ->
  holds odd secret t0 (fst (reseed sch n)).
Proof.
  unfold SYNCOOKIE_LIFETIME. intros H0 H1 H2 [S1 S2 S3]. unfold SYNCOOKIE_LIFETIME in *. unfold reseed.
  destruct (Z.ltb_spec (sch_reseed sch) (time_uptime n)) as [L|L]; [|split; auto; unfold SYNCOOKIE_LIFETIME; assumption].
  pose proof (new_secret_time SYNCOOKIE_SECRET_SIZE n) as Et. destruct (new_secret SYNCOOKIE_SECRET_SIZE n) as [s n']. cbn [fst snd] in *. destruct (decide (sch_oddeven sch = odd)) as [E|E]; [|specialize (S3 E); lia].
  assert (R : u32 (time_uptime n' + 16) = time_uptime n + 16) by (rewrite Et; apply u32_small; lia).
  split; unfold SYNCOOKIE_LIFETIME; cbn [sch_reseed update eta eta_syncache_head]; rewrite ?R; [|lia | intros _; lia]. rewrite <- S1, E. destruct odd; reflexivity.
Qed.

Lemma later_holds e odd secret t0 others : 0 <= t0 -> t0 + 48 < 2 ^ 32 -> Forall (fun o => time_uptime (snd o) <= t0 + SYNCOOKIE_LIFETIME) others ->
  forall sch, holds odd secret t0 sch -> holds odd secret t0 (later e sch others).
Proof.
  intros H0 H1 H. induction H as [|[sc n] others Ho _ IH]; intros sch Hs; [exact Hs|]. cbn. apply IH. rewrite generate_head. apply reseed_holds; assumption.
Qed.

(** A new cookie is made with the secret in use. *)
Lemma generate_holds_secret sch n : 0 <= time_uptime n -> time_uptime n + 48 < 2 ^ 32 -> sch_reseed sch <= time_uptime n + SYNCOOKIE_LIFETIME ->
  let sch' := fst (reseed sch n) in holds (sch_oddeven sch') (secbits sch' (sch_oddeven sch')) (time_uptime n) sch'.
Proof.
  unfold SYNCOOKIE_LIFETIME. intros H0 H1 H2. cbv zeta. split; [reflexivity | | intros C; destruct (C eq_refl)]. unfold reseed.
  destruct (Z.ltb_spec (sch_reseed sch) (time_uptime n)); [|cbn; lia]. pose proof (new_secret_time SYNCOOKIE_SECRET_SIZE n) as Et.
  destruct (new_secret SYNCOOKIE_SECRET_SIZE n) as [s n']. cbn [fst snd sch_reseed update eta eta_syncache_head] in *. unfold SYNCOOKIE_LIFETIME. rewrite Et, u32_small by lia. lia.
Qed.

(** ** The round trip *)

Definition digest_ok (e : env) : Prop := forall secret inc seq data,
  let '(d0, d1, d2, d3) := digest e secret inc seq data in Forall (fun d => 0 <= d < 2 ^ 32) [d0; d1; d2; d3].

Definition pmss_of (e : env) (sc : syncache) : Z := umax (umin (sc_peer_mss sc) (tcp_mssopt e (sc_inc sc))) (tcp_minmss e).

Section Trip.
Context (e : env) (sch : syncache_head) (sc : syncache) (n0 : net) (Hdig : digest_ok e).
Let sch1 := fst (fst (syncookie_generate e sch sc n0)).
Let sc1 := snd (fst (syncookie_generate e sch sc n0)).
Let odd := sch_oddeven sch1.
Let o := Z.land (sc_iss sc) 7.
Let mss := mss_index 7 (pmss_of e sc).
Let data := cookie_params odd o mss.
Let D := digest e (rotated (secbits sch1 odd) o) (sc_inc sc) (sc_irs sc) data.
Let ts := Z.lor (ts_params sc) (u32 (Z.shiftl (snd (fst D)) 10)).

Lemma cookie_made : sc_iss sc1 = Z.lor data (u32 (Z.shiftl (fst (fst (fst D))) 7)) /\ (scf sc SCF_TIMESTAMP = true -> sc_ts sc1 = Z.lxor ts (snd D)).
Proof.
  unfold ts, D, data, odd, sc1, sch1. unfold syncookie_generate. destruct (reseed sch n0) as [s n1]. cbn [fst snd].
  change (umax (umin (sc_peer_mss sc) (tcp_mssopt e (sc_inc sc))) (tcp_minmss e)) with (pmss_of e sc). fold o mss.
  destruct (digest e _ _ _ (cookie_params _ o mss)) as [[[d0 d1] d2] d3] eqn:Ed. cbn [fst snd]. rewrite Ed. cbn [fst snd].
  change (scf (sc <| sc_iss := _ |>) SCF_TIMESTAMP) with (scf sc SCF_TIMESTAMP). destruct (scf sc SCF_TIMESTAMP); split; (reflexivity || discriminate).
Qed.

Lemma o_range : 0 <= o < 8.
Proof. unfold o. change 7 with (Z.ones 3). rewrite Z.land_ones by lia. apply Z.mod_pos_bound. lia. Qed.

Lemma data_fields : 0 <= data < 2 ^ 7 /\ Z.odd data = odd /\ Z.land (Z.shiftr data 1) 7 = o /\ Z.land (Z.shiftr data 4) 7 = Z.of_nat mss.
Proof.
  pose proof (mss_index_small 7 (pmss_of e sc)) as Hm. pose proof (params_all odd o mss o_range ltac:(unfold mss; lia)) as P. unfold params_good in P. fold data in P.
  repeat (apply andb_prop in P as [P ?]). split_and!; try lia. apply Bool.eqb_prop. assumption.
Qed.

(** The ACK's number has the parameters and the digest. *)
Lemma cookie_read : 0 <= sc_iss sc1 < 2 ^ 32 /\ Z.land (sc_iss sc1) 0x7f = data /\ Z.land (sc_iss sc1) (u32 (Z.lnot 0x7f)) = u32 (Z.shiftl (fst (fst (fst D))) 7) /\
  Z.land (Z.shiftr (sc_iss sc1) 1) 7 = o /\ Z.land (Z.shiftr (sc_iss sc1) 4) 7 = Z.of_nat mss.
Proof.
  destruct data_fields as (F1 & F2 & F3 & F4). destruct cookie_made as [E _]. rewrite E. change 0x7f with (Z.ones 7).
  pose proof (low_part 7 data (fst (fst (fst D))) ltac:(lia) F1) as L.
  split_and!; [apply parts_range; lia | apply parts_range; lia | exact L | apply high_part; lia | |].
  - change 7 with (Z.ones 3) at 2. rewrite (field _ 1 3 7), L by lia. exact F3.
  - change 7 with (Z.ones 3) at 2. rewrite (field _ 4 3 7), L by lia. exact F4.
Qed.

Section Read.
Context (Hs : 0 <= sc_requested_s_scale sc < 16) (Hr : 0 <= sc_requested_r_scale sc < 16).

Lemma ts_fields : 0 <= ts_params sc < 2 ^ 10 /\ Z.testbit ts 1 = scf sc SCF_SACK /\
  Z.land (Z.shiftr ts 2) 0xf = sc_requested_s_scale sc /\ Z.land (Z.shiftr ts 6) 0xf = sc_requested_r_scale sc /\
  (scf sc SCF_SACK = true \/ sc_requested_s_scale sc <> 0 \/ sc_requested_r_scale sc <> 0 -> ts <> 0).
Proof.
  pose proof (ts_all (scf sc SCF_SIGNATURE) (scf sc SCF_SACK) _ _ Hs Hr) as P. unfold ts_good in P. change (ts_word _ _ _ _) with (ts_params sc) in P.
  repeat (apply andb_prop in P as [P ?]). assert (R : 0 <= ts_params sc < 2 ^ 10) by lia.
  pose proof (low_part 10 (ts_params sc) (snd (fst D)) ltac:(lia) R) as L. fold ts in L. change 0xf with (Z.ones 4) in *.
  split_and!; try lia.
  - rewrite <- L in H2. rewrite Z.land_spec in H2. cbn in H2. rewrite andb_true_r in H2. apply Bool.eqb_prop. exact H2.
  - rewrite (field _ 2 4 10), L by lia. lia.
  - rewrite (field _ 6 4 10), L by lia. lia.
  - intros C Hz. rewrite Hz in L. cbn in L. rewrite <- L in H. destruct (scf sc SCF_SACK), (Z.eqb_spec (sc_requested_s_scale sc) 0), (Z.eqb_spec (sc_requested_r_scale sc) 0); cbn in H; try discriminate; naive_solver.
Qed.

Context (to : tcpopt) (th : tcphdr) (l : listener) (n : net) (schL : syncache_head) (t0 : Z).
Context (Ht0 : 0 <= t0) (Ht0' : t0 + 48 < 2 ^ 32) (Hn : time_uptime n <= t0 + SYNCOOKIE_LIFETIME).
Context (Hold : holds odd (secbits sch1 odd) t0 schL) (Hirs : 0 <= sc_irs sc < 2 ^ 32).
Context (Hack : th_ack th = u32 (sc_iss sc1 + 1)) (Hseq : th_seq th = u32 (sc_irs sc + 1)).
Context (Hts : has_flag (to_flags to) TOF_TS = true -> scf sc SCF_TIMESTAMP = true /\ to_tsecr to = sc_ts sc1 /\
  (scf sc SCF_SACK = true \/ sc_requested_s_scale sc <> 0 \/ sc_requested_r_scale sc <> 0)).

Lemma cookie_accepted : exists sc2, syncookie_lookup e (sc_inc sc) schL to th l n = Some sc2 /\
  sc_inc sc2 = sc_inc sc /\ sc_irs sc2 = sc_irs sc /\ sc_iss sc2 = sc_iss sc1 /\ sc_wnd sc2 = clip_window (lsn_win l) /\
  sc_peer_mss sc2 = nth mss tcp_sc_msstab 0 /\ scf sc2 SCF_PASSIVE = false /\
  (has_flag (to_flags to) TOF_TS = true -> scf sc2 SCF_TIMESTAMP = true /\ sc_ts sc2 = sc_ts sc1 /\ scf sc2 SCF_SACK = scf sc SCF_SACK /\
    sc_requested_s_scale sc2 = Z.min (sc_requested_s_scale sc) TCP_MAX_WINSHIFT /\ sc_requested_r_scale sc2 = Z.min (sc_requested_r_scale sc) TCP_MAX_WINSHIFT).
Proof.
  destruct cookie_read as (R1 & R2 & R3 & R4 & R5). destruct data_fields as (_ & F2 & _). destruct cookie_made as [_ Mts]. destruct ts_fields as (T1 & T2 & T3 & T4 & T5).
  assert (E1 : u32 (th_ack th - 1) = sc_iss sc1) by (rewrite Hack; wrap). assert (E2 : u32 (th_seq th - 1) = sc_irs sc) by (rewrite Hseq; wrap).
  unfold syncookie_lookup. rewrite E1, E2, R2, R3, R4, R5, F2. cbv zeta.
  assert (E3 : (u32 (sch_reseed schL + SYNCOOKIE_LIFETIME) <? time_uptime n) = false).
  { destruct Hold as [_ [H1 H1'] _]. unfold SYNCOOKIE_LIFETIME in *. rewrite u32_small by lia. apply Z.ltb_ge. lia. }
  rewrite E3, (h_secret _ _ _ _ Hold). fold D. pose proof (Hdig (rotated (secbits sch1 odd) o) (sc_inc sc) (sc_irs sc) data) as Hd. fold D in Hd.
  assert (Ex : has_flag (to_flags to) TOF_TS = true -> Z.lxor (snd D) (to_tsecr to) = ts).
  { intros Ht. destruct (Hts Ht) as (C1 & C2 & C3). rewrite C2, (Mts C1), (Z.lxor_comm ts), <- Z.lxor_assoc, Z.lxor_nilpotent. apply Z.lxor_0_l. }
  assert (Eh : Z.land ts (u32 (Z.lnot 0x3ff)) = u32 (Z.shiftl (snd (fst D)) 10)) by (change 0x3ff with (Z.ones 10); apply high_part; lia).
  clearbody ts. destruct D as [[[d0 d1] d2] d3]. cbn [fst snd] in *. rewrite Z.eqb_refl. cbn [negb]. rewrite Nat2Z.id.
  destruct (has_flag (to_flags to) TOF_TS) eqn:Ht; cbn [andb].
  - rewrite (Ex eq_refl), Eh, Z.eqb_refl. cbn [negb]. destruct (Hts eq_refl) as (C1 & C2 & C3). destruct (Z.eqb_spec ts 0) as [Z0|_]; [destruct (T5 C3 Z0)|]. cbn [negb].
    rewrite T2, T3, T4, C2. unfold TCP_MAX_WINSHIFT. rewrite !umin_small by lia. eexists. split; [reflexivity|].
    split_and!; [..|intros _; split_and!]; repeat case_match; reflexivity.
  - cbn [Z.eqb negb]. eexists. split; [reflexivity|]. split_and!; try reflexivity. discriminate.
Qed.
End Read.
End Trip.

Lemma holds_secrets odd secret t0 sch sch' : same_secrets sch sch' -> holds odd secret t0 sch -> holds odd secret t0 sch'.
Proof. intros (E1 & E2 & E3 & E4) [H1 H2 H3]. split; unfold secbits in *; rewrite ?E1, ?E2, ?E3, ?E4; auto. Qed.

(** ** Theorem *)

(** C12: a SYN that was answered with a cookie completes though its entry is not, or no more, in the cache: for sixteen
    seconds after the SYN,ACK, whatever other cookies are made for the row, the ACK that follows it gives the connection
    with both sequence numbers and the largest segment size of the table that both sides can take, and, with
    timestamps, with SACK and the window scales that were agreed.  (A timestamp that carries neither is excepted.) *)
Theorem cookie_completes e sch sc n0 others inc to th l m n k sch' :
  let '(sch1, sc1, _) := syncookie_generate e sch sc n0 in
  digest_ok e -> syncookies e = true -> has_flag (inc_flags inc) INC_PASSIVE = false -> sc_inc sc = inc -> 0 <= sc_irs sc < 2 ^ 32 ->
  0 <= sc_requested_s_scale sc < 16 -> 0 <= sc_requested_r_scale sc < 16 ->
  0 <= time_uptime n0 -> time_uptime n0 + 48 < 2 ^ 32 -> sch_reseed sch <= time_uptime n0 + SYNCOOKIE_LIFETIME ->
  Forall (fun other => time_uptime (snd other) <= time_uptime n0 + SYNCOOKIE_LIFETIME) others -> time_uptime n <= time_uptime n0 + SYNCOOKIE_LIFETIME ->
  syncache_lookup inc m n = Some (k, sch', None) -> same_secrets (later e sch1 others) sch' ->
  th_ack th = u32 (sc_iss sc1 + 1) -> th_seq th = u32 (sc_irs sc + 1) -> 0 < lsn_win l ->
  (has_flag (to_flags to) TOF_TS = true -> scf sc SCF_TIMESTAMP = true /\ to_tsecr to = sc_ts sc1 /\
    (scf sc SCF_SACK = true \/ sc_requested_s_scale sc <> 0 \/ sc_requested_r_scale sc <> 0)) ->
  exists sc2, syncache_expand e inc to th l m n = Some (Some sc2, n) /\ sc_inc sc2 = inc /\ sc_irs sc2 = sc_irs sc /\ sc_iss sc2 = sc_iss sc1 /\
    sc_peer_mss sc2 <= pmss_of e sc /\ (forall v, In v tcp_sc_msstab -> v <= pmss_of e sc -> v <= sc_peer_mss sc2) /\
    (has_flag (to_flags to) TOF_TS = true -> scf sc2 SCF_SACK = scf sc SCF_SACK /\
      sc_requested_s_scale sc2 = Z.min (sc_requested_s_scale sc) TCP_MAX_WINSHIFT /\ sc_requested_r_scale sc2 = Z.min (sc_requested_r_scale sc) TCP_MAX_WINSHIFT).
Proof.
  destruct (syncookie_generate e sch sc n0) as [[sch1 sc1] n1] eqn:EG. intros Hd Hc Hp Ei Hirs Hs Hr H0 H0' Hre Ho Hn EL ES Ha Hq Hw Hts.
  pose proof (generate_head e sch sc n0) as Eh. pose proof (generate_holds_secret sch n0 H0 H0' Hre) as G. rewrite <- Eh in G.
  assert (Hold : holds (sch_oddeven sch1) (secbits sch1 (sch_oddeven sch1)) (time_uptime n0) sch').
  { apply (holds_secrets _ _ _ _ _ ES), later_holds; try assumption. rewrite EG in G. exact G. }
  pose proof (cookie_accepted e sch sc n0 Hd Hs Hr to th l n sch' (time_uptime n0)) as A. rewrite EG in A. cbn [fst snd] in A.
  destruct (A H0 H0' Hn Hold Hirs Ha Hq Hts) as (sc2 & A1 & A2 & A3 & A4 & A5 & A6 & A7 & A8). rewrite Ei in A1, A2.
  assert (Hpm : 0 <= pmss_of e sc) by (unfold pmss_of, umax; destruct (_ <? _); apply u32_range).
  exists sc2. split.
  { unfold syncache_expand. rewrite EL. cbn [mbind option_bind]. rewrite Hc, Hp. cbn [negb orb]. rewrite A1.
    destruct (good_ack to th sc2) as [V _]; [rewrite A5; unfold clip_window, TcpCC.CC.TCP_MAXWIN; lia | congruence | congruence | intros Ht; destruct (A8 Ht) as (B1 & B2 & _), (Hts Ht) as (_ & C2 & _); split; congruence |].
    cbn [mbind option_bind]. rewrite V. unfold trust_ack. rewrite A7. reflexivity. }
  rewrite A6. split_and!; auto; [apply (mss_index_largest _ 0 Hpm) | intros v; apply (mss_index_largest _ v Hpm) |].
  intros Ht. destruct (A8 Ht) as (_ & _ & B3 & B4 & B5). auto.
Qed.

(** ** Examples *)

Lemma toy_digest_ok : digest_ok env0.
Proof. intros secret inc seq data. cbn. unfold toy_digest. do 4 (constructor; [apply u32_range|]). constructor. Qed.

(** The SYN of [client] is answered, and not entered into the cache. *)
Definition row0 : syncache_head := default empty_row (row (row_of client None net0) net0).
Definition row1 : syncache_head := default empty_row (row (row_of client None net1) net1).
Definition filled0 : syncache := fill env0 client syn_opts syn0 listener0 false (-1) 0 5 77.
Definition drawn0 : net := snd (arc4random (snd (zalloc net0))).

Lemma cookie_completes_witness :
  exists sc2, syncache_expand env0 client ack_opts ack0 listener0 None net1 = Some (Some sc2, net1) /\ sc_irs sc2 = 100 /\ sc_requested_s_scale sc2 = 5.
Proof.
  pose proof (cookie_completes env0 row0 filled0 drawn0 [] client ack_opts ack0 listener0 None net1 (row_of client None net1) row1) as C.
  rewrite (surjective_pairing (syncookie_generate env0 row0 filled0 drawn0)), (surjective_pairing (fst (syncookie_generate env0 row0 filled0 drawn0))) in C.
  destruct C as (sc2 & C1 & _ & C3 & _ & _ & _ & C7);
    [exact toy_digest_ok | reflexivity | reflexivity | reflexivity | vm_compute; split; congruence | vm_compute; split; congruence | vm_compute; split; congruence |
     vm_compute; congruence | vm_compute; congruence | vm_compute; congruence | constructor | vm_compute; congruence | vm_compute; reflexivity |
     vm_compute; split_and!; reflexivity | vm_compute; reflexivity | vm_compute; reflexivity | vm_compute; reflexivity |
     intros _; split; [vm_compute; reflexivity | split; [vm_compute; reflexivity | left; vm_compute; reflexivity]] |].
  exists sc2. split; [exact C1|]. split; [rewrite C3; vm_compute; reflexivity|]. rewrite (proj1 (proj2 (C7 ltac:(vm_compute; reflexivity)))). vm_compute. reflexivity.
Defined.
End Cookies.
