(* ===== verification/InPcb.v ===== *)
(** * The tables of protocol control blocks

    sys/netinet/in_pcb.c: the hash table in which arriving segments find their
    PCB, the table of local ports, binding, connecting and the choice of an
    ephemeral port.  Ordinary and promiscuous PCBs are in the same tables and are
    hashed and looked up differently.  What a PCB is otherwise, and who owns it, is
    in [SockLife].

    A PCB is an address into the store [inps]; ports and addresses are in network
    byte order, as in the code, on a little-endian machine.  Jails and credentials, the local addresses and the
    choice of a source address are given by [env].  An access outside a table and a
    failed assertion are [None]. *)

From S2P Require Import Prelude TcpSeq InPromisc.

Module Pcb.

Import InPromisc.Promisc.

(** ** Data *)

Definition ntohs (x : Z) : Z := Z.lor (Z.shiftl (Z.land x 0xff) 8) (Z.land (Z.shiftr x 8) 0xff).
Definition htons : Z -> Z := ntohs.
(** The most significant byte of the address in host byte order comes first in memory. *)
Definition IN_MULTICAST (addr : Z) : bool := Z.land addr 0xf0 =? 0xe0.
Definition INADDR_ANY := 0.
Definition IN_PROMISC_PORT_ANY := 0.
Definition SO_REUSEADDR := 0x4.
Definition SO_REUSEPORT := 0x200.

Definition EAFNOSUPPORT := 47.
Definition EADDRINUSE := 48.
Definition EADDRNOTAVAIL := 49.
Definition EACCES := 13.
Definition EINVAL := 22.
Definition EAGAIN := 35.
Definition ENOBUFS := 55.

Record in_l2info := mk_l2info {
  inl2i_any : bool;
  inl2i_tagstack : in_l2tagstack }.

(** [inp_tw]: the INP_TIMEWAIT flag, and the socket options kept in the TIME_WAIT entry unless that was reused. *)
Record inpcb := mk_inp {
  inp_faddr : Z;
  inp_fport : Z;
  inp_laddr : Z;
  inp_lport : Z;
  inp_fibnum : Z;
  inp_promisc : bool;
  inp_reuseport : bool;
  inp_bindany : bool;
  inp_highport : bool;
  inp_lowport : bool;
  inp_inhashlist : bool;
  inp_anonport : bool;
  inp_l2info : in_l2info;
  inp_cred : Z;
  inp_tw : option (option Z) }.
#[export] Instance eta_inpcb : Eta inpcb := fun r =>
  mk_inp (inp_faddr r) (inp_fport r) (inp_laddr r) (inp_lport r) (inp_fibnum r) (inp_promisc r) (inp_reuseport r) (inp_bindany r) (inp_highport r)
    (inp_lowport r) (inp_inhashlist r) (inp_anonport r) (inp_l2info r) (inp_cred r) (inp_tw r).

Record inpcbport := mk_phd {
  phd_port : Z;
  phd_pcblist : list nat }.

Record inpcbinfo := mk_pcbinfo {
  inps : list inpcb;
  ipi_hashbase : list (list nat);
  ipi_hashmask : Z;
  ipi_porthashbase : list (list inpcbport);
  ipi_porthashmask : Z;
  ipi_lastport : Z;
  ipi_lastlow : Z;
  ipi_lasthi : Z;
  tcpallocs : Z;
  rands : list Z }.
#[export] Instance eta_inpcbinfo : Eta inpcbinfo := fun r =>
  mk_pcbinfo (inps r) (ipi_hashbase r) (ipi_hashmask r) (ipi_porthashbase r) (ipi_porthashmask r) (ipi_lastport r) (ipi_lastlow r) (ipi_lasthi r)
    (tcpallocs r) (rands r).

(** [jailed]: [prison_flag] of PR_IP4; [prison_local_ip4] gives an error or the address to use instead.  [ladder]: what
    [in_pcbladdr] chooses for a destination. *)
Record env := mk_env {
  jailed : Z -> bool;
  prison_equal_ip4 : Z -> Z -> bool;
  prison_check_ip4 : Z -> Z -> bool;
  prison_local_ip4 : Z -> Z -> Z + Z;
  priv_reservedport : Z -> bool;
  priv_reuseport : Z -> bool;
  cr_uid : Z -> Z;
  ifa_ifwithaddr_check : Z -> bool;
  no_ifaddr : bool;
  ladder : Z -> Z + Z;
  is_udp : bool;
  ipport_firstauto : Z;
  ipport_lastauto : Z;
  ipport_hifirstauto : Z;
  ipport_hilastauto : Z;
  ipport_lowfirstauto : Z;
  ipport_lowlastauto : Z;
  ipport_reservedhigh : Z;
  ipport_reservedlow : Z;
  ipport_randomized : bool;
  ipport_stoprandom : bool }.

Definition inp_at (p : inpcbinfo) (id : nat) : option inpcb := inps p !! id.
Definition put_inp (id : nat) (inp : inpcb) (p : inpcbinfo) : inpcbinfo := p <| inps := <[id := inp]> (inps p) |>.

(** ** Hashing *)

Definition INP_PCBHASH (faddr lport fport mask : Z) : Z :=
  Z.land (Z.lxor (Z.lxor faddr (Z.shiftr faddr 16)) (ntohs (Z.lxor lport fport))) mask.
Definition INP_PCBPORTHASH (lport mask : Z) : Z := Z.land (ntohs lport) mask.

Definition hash_of (p : inpcbinfo) (inp : inpcb) : Z :=
  if inp_promisc inp
  then in_pcbhash_promisc (inp_laddr inp) (inp_faddr inp) (inp_lport inp) (inp_fport inp) (inp_fibnum inp)
         (Some (inl2i_tagstack (inp_l2info inp))) (ipi_hashmask p)
  else INP_PCBHASH (inp_faddr inp) (inp_lport inp) (inp_fport inp) (ipi_hashmask p).

(** The mask is that of the other table for a promiscuous PCB. *)
Definition porthash_of (p : inpcbinfo) (inp : inpcb) : Z :=
  if inp_promisc inp
  then in_pcbporthash_promisc (inp_lport inp) (inp_fibnum inp) (Some (inl2i_tagstack (inp_l2info inp))) (ipi_hashmask p)
  else INP_PCBPORTHASH (inp_lport inp) (ipi_porthashmask p).

Definition hash_row (p : inpcbinfo) (hash : Z) : option (list nat) := ipi_hashbase p !! Z.to_nat hash.
Definition port_row (p : inpcbinfo) (hash : Z) : option (list inpcbport) := ipi_porthashbase p !! Z.to_nat hash.

Fixpoint add_to_port (port : Z) (id : nat) (row : list inpcbport) : option (list inpcbport) :=
  match row with
  | [] => None
  | phd :: row =>
      if phd_port phd =? port then Some (mk_phd port (id :: phd_pcblist phd) :: row)
      else row ← add_to_port port id row; Some (phd :: row)
  end.

(** An error when there is no memory for the head of a port's list. *)
Definition in_pcbinshash (malloc_ok : bool) (id : nat) (p : inpcbinfo) : option (Z * inpcbinfo) :=
  inp ← inp_at p id;
  if inp_inhashlist inp then None
  else
    row ← hash_row p (hash_of p inp);
    ports ← port_row p (porthash_of p inp);
    let ports' :=
      match add_to_port (inp_lport inp) id ports with
      | Some ports => Some ports
      | None => if malloc_ok then Some (mk_phd (inp_lport inp) [id] :: ports) else None
      end in
    match ports' with
    | None => Some (ENOBUFS, p)
    | Some ports =>
        let p := p <| ipi_porthashbase := <[Z.to_nat (porthash_of p inp) := ports]> (ipi_porthashbase p) |>
                   <| ipi_hashbase := <[Z.to_nat (hash_of p inp) := id :: row]> (ipi_hashbase p) |> in
        Some (0, put_inp id (inp <| inp_inhashlist := true |>) p)
    end.

(** [LIST_REMOVE]: from the list it is on. *)
Definition unlink (id : nat) (rows : list (list nat)) : list (list nat) := map (filter (fun x => x <> id)) rows.
Definition unport (id : nat) (rows : list (list inpcbport)) : list (list inpcbport) :=
  map (fun row => filter (fun phd => phd_pcblist phd <> []) (map (fun phd => mk_phd (phd_port phd) (filter (fun x => x <> id) (phd_pcblist phd))) row)) rows.

Definition in_pcbrehash_mbuf (id : nat) (p : inpcbinfo) : option inpcbinfo :=
  inp ← inp_at p id;
  if negb (inp_inhashlist inp) then None
  else
    let rows := unlink id (ipi_hashbase p) in
    row ← rows !! Z.to_nat (hash_of p inp);
    Some (p <| ipi_hashbase := <[Z.to_nat (hash_of p inp) := id :: row]> rows |>).

(** Both lists, and the head of the port's list with its last PCB. *)
Definition in_pcbremlists (id : nat) (p : inpcbinfo) : option inpcbinfo :=
  inp ← inp_at p id;
  if inp_inhashlist inp then
    let p := p <| ipi_hashbase := unlink id (ipi_hashbase p) |> <| ipi_porthashbase := unport id (ipi_porthashbase p) |> in
    Some (put_inp id (inp <| inp_inhashlist := false |>) p)
  else Some p.

(** ** Lookup *)

Definition find_inp (f : inpcb -> bool) (row : list nat) (p : inpcbinfo) : option nat :=
  List.find (fun id => from_option f false (inp_at p id)) row.

(** The PCB of the row that fits best; [matchwild]: how many wildcards the best so far needs. *)
Fixpoint best_fit (e : env) (laddr : Z) (cred : option Z) (p : inpcbinfo) (row : list nat) (match_ : option nat) (matchwild : Z) : option nat :=
  match row with
  | [] => match_
  | id :: row =>
      match inp_at p id with
      | None => best_fit e laddr cred p row match_ matchwild
      | Some inp =>
          if from_option (fun c => negb (prison_equal_ip4 e (inp_cred inp) c)) false cred then best_fit e laddr cred p row match_ matchwild
          else
            let wildcard := if negb (inp_faddr inp =? INADDR_ANY) then 1 else 0 in
            let fits :=
              if negb (inp_laddr inp =? INADDR_ANY)
              then if laddr =? INADDR_ANY then Some (wildcard + 1) else if negb (inp_laddr inp =? laddr) then None else Some wildcard
              else Some (if negb (laddr =? INADDR_ANY) then wildcard + 1 else wildcard) in
            match fits with
            | None => best_fit e laddr cred p row match_ matchwild
            | Some wildcard =>
                if wildcard <? matchwild then if wildcard =? 0 then Some id else best_fit e laddr cred p row (Some id) wildcard
                else best_fit e laddr cred p row match_ matchwild
            end
      end
  end.

Definition in_pcblookup_local (e : env) (laddr lport : Z) (wildcard : bool) (cred : option Z) (p : inpcbinfo) : option (option nat) :=
  if negb wildcard then
    row ← hash_row p (INP_PCBHASH INADDR_ANY lport 0 (ipi_hashmask p));
    Some (find_inp (fun inp => (inp_faddr inp =? INADDR_ANY) && (inp_laddr inp =? laddr) && (inp_lport inp =? lport) &&
                               from_option (fun c => prison_equal_ip4 e c (inp_cred inp)) true cred) row p)
  else
    ports ← port_row p (INP_PCBPORTHASH lport (ipi_porthashmask p));
    match List.find (fun phd => phd_port phd =? lport) ports with
    | Some phd => Some (best_fit e laddr cred p (phd_pcblist phd) None 3)
    | None => Some None
    end.

Definition same_tuple (faddr fport laddr lport : Z) (inp : inpcb) : bool :=
  (inp_faddr inp =? faddr) && (inp_laddr inp =? laddr) && (inp_fport inp =? fport) && (inp_lport inp =? lport).

(** The PCBs of the row a wildcard match may be with: the first that is exact, otherwise the last of its kind.  FAITH
    interfaces are left out. *)
Fixpoint wild_loop (e : env) (laddr lport : Z) (p : inpcbinfo) (row : list nat) (jail_wild local_exact local_wild : option nat) : option nat :=
  match row with
  | [] => match jail_wild with Some id => Some id | None => match local_exact with Some id => Some id | None => local_wild end end
  | id :: row =>
      let next := wild_loop e laddr lport p row jail_wild local_exact local_wild in
      match inp_at p id with
      | None => next
      | Some inp =>
          if negb (inp_faddr inp =? INADDR_ANY) || negb (inp_lport inp =? lport) then next
          else
            let injail := jailed e (inp_cred inp) in
            if injail && negb (prison_check_ip4 e (inp_cred inp) laddr) then next
            else if negb injail && bool_decide (is_Some local_exact) then next
            else if inp_laddr inp =? laddr then if injail then Some id else wild_loop e laddr lport p row jail_wild (Some id) local_wild
            else if inp_laddr inp =? INADDR_ANY then
              if injail then wild_loop e laddr lport p row (Some id) local_exact local_wild
              else wild_loop e laddr lport p row jail_wild local_exact (Some id)
            else next
      end
  end.

Definition in_pcblookup_hash_locked (e : env) (faddr fport laddr lport : Z) (wildcard : bool) (p : inpcbinfo) : option (option nat) :=
  row ← hash_row p (INP_PCBHASH faddr lport fport (ipi_hashmask p));
  let exact := same_tuple faddr fport laddr lport in
  match find_inp (fun inp => exact inp && jailed e (inp_cred inp)) row p with
  | Some id => Some (Some id)
  | None =>
      match find_inp exact row p with
      | Some id => Some (Some id)
      | None =>
          if wildcard then
            row ← hash_row p (INP_PCBHASH INADDR_ANY lport 0 (ipi_hashmask p));
            Some (wild_loop e laddr lport p row None None None)
          else Some None
      end
  end.

(** ** Lookup for promiscuous interfaces *)

(** The local address and port and whether any tags will do, for each of eight phases. *)
Definition phase_laddr (laddr : Z) (i : nat) : Z := if Nat.testbit i 0 then INADDR_ANY else laddr.
Definition phase_lport (lport : Z) (i : nat) : Z := if Nat.testbit i 1 then IN_PROMISC_PORT_ANY else lport.
Definition phase_any (i : nat) : bool := Nat.testbit i 2.

(** Without tags on the packet the hashes of the first four phases serve for the last four. *)
Definition phase_hash (laddr lport fib : Z) (tags : in_l2tagstack) (mask : Z) (i : nat) : Z :=
  let history j l2ts := in_pcbhash_promisc (phase_laddr laddr j) INADDR_ANY (phase_lport lport j) IN_PROMISC_PORT_ANY fib l2ts mask in
  if negb (length tags =? 0)%nat || negb (phase_any i) then history i (if phase_any i then None else Some tags)
  else history (i - 4)%nat (Some tags).

Definition tags_equal (inp : inpcb) (tags : in_l2tagstack) : bool :=
  bool_decide (in_promisc_tagcmp (Some (inl2i_tagstack (inp_l2info inp))) (Some tags) = Some 0).

Definition exact_match (e : env) (faddr fport laddr lport fib : Z) (tags : in_l2tagstack) (inp : inpcb) : bool :=
  negb (jailed e (inp_cred inp)) && (inp_fibnum inp =? fib) && same_tuple faddr fport laddr lport inp && tags_equal inp tags.

Definition phase_match (e : env) (laddr lport fib : Z) (tags : in_l2tagstack) (i : nat) (inp : inpcb) : bool :=
  (inp_faddr inp =? INADDR_ANY) && (inp_laddr inp =? phase_laddr laddr i) && (inp_lport inp =? phase_lport lport i) &&
  Bool.eqb (inl2i_any (inp_l2info inp)) (phase_any i) && (inp_fibnum inp =? fib) && negb (jailed e (inp_cred inp)) &&
  (inl2i_any (inp_l2info inp) || tags_equal inp tags).

Fixpoint search_phases (e : env) (laddr lport fib : Z) (tags : in_l2tagstack) (phases : list nat) (p : inpcbinfo) : option (option nat) :=
  match phases with
  | [] => Some None
  | i :: phases =>
      row ← hash_row p (phase_hash laddr lport fib tags (ipi_hashmask p) i);
      match find_inp (phase_match e laddr lport fib tags i) row p with
      | Some id => Some (Some id)
      | None => search_phases e laddr lport fib tags phases p
      end
  end.

Definition in_pcblookup_hash_promisc_locked (e : env) (faddr fport laddr lport : Z) (wildcard : bool) (fib : Z) (tags : in_l2tagstack) (p : inpcbinfo) :
    option (option nat) :=
  row ← hash_row p (in_pcbhash_promisc laddr faddr lport fport fib (Some tags) (ipi_hashmask p));
  match find_inp (exact_match e faddr fport laddr lport fib tags) row p with
  | Some id => Some (Some id)
  | None => if wildcard then search_phases e laddr lport fib tags (seq 0 8) p else Some None
  end.

(** ** Ephemeral ports *)

(** As many tries as there are ports: the count starts at one less and may reach zero. *)
Fixpoint lport_loop (e : env) (tries : nat) (first last laddr : Z) (wildcard : bool) (cred : option Z) (lastport : Z) (p : inpcbinfo) :
    option (Z * option Z) :=
  match tries with
  | O => Some (lastport, None)
  | S tries =>
      let lastport := u16 (lastport + 1) in
      let lastport := if (lastport <? first) || (last <? lastport) then first else lastport in
      t ← in_pcblookup_local e laddr (htons lastport) wildcard cred p;
      match t with
      | None => Some (lastport, Some (htons lastport))
      | Some _ => lport_loop e tries first last laddr wildcard cred lastport p
      end
  end.

Definition arc4random (p : inpcbinfo) : Z * inpcbinfo := (u32 (default 0 (List.head (rands p))), p <| rands := tail (rands p) |>).

Inductive port_range := Range_high | Range_low | Range_default.
Definition range_of (inp : inpcb) : port_range := if inp_highport inp then Range_high else if inp_lowport inp then Range_low else Range_default.
Definition first_of (e : env) (r : port_range) : Z :=
  match r with Range_high => ipport_hifirstauto e | Range_low => ipport_lowfirstauto e | Range_default => ipport_firstauto e end.
Definition last_of (e : env) (r : port_range) : Z :=
  match r with Range_high => ipport_hilastauto e | Range_low => ipport_lowlastauto e | Range_default => ipport_lastauto e end.
Definition lastport_of (r : port_range) (p : inpcbinfo) : Z :=
  match r with Range_high => ipi_lasthi p | Range_low => ipi_lastlow p | Range_default => ipi_lastport p end.
Definition set_lastport (r : port_range) (x : Z) (p : inpcbinfo) : inpcbinfo :=
  match r with Range_high => p <| ipi_lasthi := x |> | Range_low => p <| ipi_lastlow := x |> | Range_default => p <| ipi_lastport := x |> end.

Definition in_pcb_lport (e : env) (inp : inpcb) (laddr : Z) (wildcard : bool) (cred : Z) (p : inpcbinfo) : option ((Z + Z) * inpcbinfo) :=
  let r := range_of inp in
  if (match r with Range_low => true | _ => false end) && negb (priv_reservedport e cred) then Some (inl EACCES, p)
  else
    let first := u16 (first_of e r) in
    let last := u16 (last_of e r) in
    let dorandom := ipport_randomized e && (negb (ipport_stoprandom e) || is_udp e) && negb (first =? last) in
    let p := if is_udp e then p else p <| tcpallocs := s32 (tcpallocs p + 1) |> in
    let '(first, last) := if last <? first then (last, first) else (first, last) in
    let p := if dorandom then let '(x, p) := arc4random p in set_lastport r (u16 (first + x mod (last - first))) p else p in
    '(lastport, found) ← lport_loop e (Z.to_nat (last - first + 1)) first last laddr wildcard (Some cred) (lastport_of r p) p;
    Some (match found with Some lport => inr lport | None => inl EADDRNOTAVAIL end, set_lastport r lastport p).

(** ** Binding *)

Record sockaddr_in := mk_sin {
  sin_len_ok : bool;
  sin_family_ok : bool;
  sin_port : Z;
  sin_addr : Z }.

(** Of the socket: its options, and whether it is a stream. *)
Record sockopts := mk_so {
  so_options : Z;
  so_stream : bool }.

Definition in_use_by_other (e : env) (so : sockopts) (addr : Z) (inp t : inpcb) : bool :=
  bool_decide (inp_tw t = None) && (negb (so_stream so) || (inp_faddr t =? INADDR_ANY)) &&
  (negb (addr =? INADDR_ANY) || negb (inp_laddr t =? INADDR_ANY) || negb (inp_reuseport t)) && negb (cr_uid e (inp_cred inp) =? cr_uid e (inp_cred t)).

(** The port that was asked for: an error, or 0. *)
Definition check_port (e : env) (so : sockopts) (reuseport : Z) (wildcard : bool) (cred addr lport : Z) (inp : inpcb) (p : inpcbinfo) : option Z :=
  let port := ntohs lport in
  if (port <=? ipport_reservedhigh e) && (ipport_reservedlow e <=? port) && negb (priv_reservedport e cred) then Some EACCES
  else
    other ← (if negb (IN_MULTICAST addr) && negb (priv_reuseport e (inp_cred inp)) then
               t ← in_pcblookup_local e addr lport true (Some cred) p;
               Some (from_option (in_use_by_other e so addr inp) false (t ≫= inp_at p))
             else Some false);
    if (other : bool) then Some EADDRINUSE
    else
      t ← in_pcblookup_local e addr lport wildcard (Some cred) p;
      match t ≫= inp_at p with
      | None => Some 0
      | Some t =>
          match inp_tw t with
          | Some tw => Some (if from_option (fun options => Z.land reuseport options =? 0) true tw then EADDRINUSE else 0)
          | None => Some (if (reuseport =? 0) || negb (inp_reuseport t) then EADDRINUSE else 0)
          end
      end.

Definition in_pcbbind_setup (e : env) (so : sockopts) (nam : option sockaddr_in) (laddr0 lport0 cred : Z) (inp : inpcb) (p : inpcbinfo) :
    option ((Z + Z * Z) * inpcbinfo) :=
  let reuseport := Z.land (so_options so) SO_REUSEPORT in
  let wildcard := Z.land (so_options so) (Z.lor SO_REUSEADDR SO_REUSEPORT) =? 0 in
  let finish laddr lport p :=
    let lport := if negb (lport0 =? 0) then lport0 else lport in
    if (lport =? 0) && negb (inp_promisc inp) then
      '(r, p) ← in_pcb_lport e inp laddr wildcard cred p;
      Some (match r with inl error => inl error | inr lport => inr (laddr, lport) end, p)
    else Some (inr (laddr, lport), p) in
  if no_ifaddr e && negb (inp_promisc inp) then Some (inl EADDRNOTAVAIL, p)
  else if bool_decide (is_Some nam) && negb (laddr0 =? INADDR_ANY) then Some (inl EINVAL, p)
  else
    match nam with
    | None => match prison_local_ip4 e cred laddr0 with inl error => Some (inl error, p) | inr laddr => finish laddr 0 p end
    | Some sin =>
        if negb (sin_len_ok sin) then Some (inl EINVAL, p)
        else
          match prison_local_ip4 e cred (sin_addr sin) with
          | inl error => Some (inl error, p)
          | inr addr =>
              if negb (sin_port sin =? lport0) && negb (lport0 =? 0) then Some (inl EINVAL, p)
              else
                let lport := if negb (sin_port sin =? lport0) then sin_port sin else 0 in
                let reuseport := if IN_MULTICAST addr && negb (Z.land (so_options so) SO_REUSEADDR =? 0) then Z.lor SO_REUSEADDR SO_REUSEPORT else reuseport in
                if negb (IN_MULTICAST addr) && negb (addr =? INADDR_ANY) && negb (inp_bindany inp) && negb (ifa_ifwithaddr_check e addr)
                then Some (inl EADDRNOTAVAIL, p)
                else
                  error ← (if negb (lport =? 0) then check_port e so reuseport wildcard cred addr lport inp p else Some 0);
                  if negb (error =? 0) then Some (inl error, p) else finish addr lport p
          end
    end.

Definition in_pcbbind (e : env) (malloc_ok : bool) (so : sockopts) (nam : option sockaddr_in) (cred : Z) (id : nat) (p : inpcbinfo) : option (Z * inpcbinfo) :=
  inp ← inp_at p id;
  if negb (inp_lport inp =? 0) || negb (inp_laddr inp =? INADDR_ANY) then Some (EINVAL, p)
  else
    let anonport := negb (inp_promisc inp) && from_option (fun sin => sin_port sin =? 0) true nam in
    '(r, p) ← in_pcbbind_setup e so nam (inp_laddr inp) (inp_lport inp) cred inp p;
    match r with
    | inl error => Some (error, p)
    | inr (laddr, lport) =>
        '(error, p) ← in_pcbinshash malloc_ok id (put_inp id (inp <| inp_laddr := laddr |> <| inp_lport := lport |>) p);
        if negb (error =? 0) then Some (EAGAIN, put_inp id inp p)
        else
          inp ← inp_at p id;
          Some (0, if anonport then put_inp id (inp <| inp_anonport := true |>) p else p)
    end.

(** ** Connecting *)

(** The four of the connection; [faddr]: the destination after INADDR_ANY and the broadcast address were replaced. *)
Definition in_pcbconnect_setup (e : env) (so : sockopts) (sin : sockaddr_in) (faddr cred : Z) (inp : inpcb) (p : inpcbinfo) :
    option ((Z + Z * Z * Z * Z) * inpcbinfo) :=
  if negb (sin_len_ok sin) then Some (inl EINVAL, p)
  else if negb (sin_family_ok sin) then Some (inl EAFNOSUPPORT, p)
  else if sin_port sin =? 0 then Some (inl EADDRNOTAVAIL, p)
  else
    match (if inp_laddr inp =? INADDR_ANY then ladder e faddr else inr (inp_laddr inp)) with
    | inl error => Some (inl error, p)
    | inr laddr =>
        let fport := sin_port sin in
        let lport := inp_lport inp in
        oinp ← (if inp_promisc inp
                then in_pcblookup_hash_promisc_locked e faddr fport laddr lport false (inp_fibnum inp) (inl2i_tagstack (inp_l2info inp)) p
                else in_pcblookup_hash_locked e faddr fport laddr lport false p);
        match oinp with
        | Some _ => Some (inl EADDRINUSE, p)
        | None =>
            if lport =? 0 then
              '(r, p) ← in_pcbbind_setup e so None laddr lport cred inp p;
              Some (match r with inl error => inl error | inr (laddr, lport) => inr (laddr, lport, faddr, fport) end, p)
            else Some (inr (laddr, lport, faddr, fport), p)
        end
    end.

Definition in_pcbconnect_mbuf (e : env) (malloc_ok : bool) (so : sockopts) (sin : sockaddr_in) (faddr cred : Z) (id : nat) (p : inpcbinfo) :
    option (Z * inpcbinfo) :=
  inp ← inp_at p id;
  let anonport := inp_lport inp =? 0 in
  '(r, p) ← in_pcbconnect_setup e so sin faddr cred inp p;
  match r with
  | inl error => Some (error, p)
  | inr (laddr, lport, faddr, fport) =>
      '(error, p) ← (if (inp_laddr inp =? INADDR_ANY) && (inp_lport inp =? 0) then
                       '(error, p) ← in_pcbinshash malloc_ok id (put_inp id (inp <| inp_lport := lport |> <| inp_laddr := laddr |>) p);
                       Some (if negb (error =? 0) then (EAGAIN, put_inp id inp p) else (0, p))
                     else Some (0, p));
      if negb (error =? 0) then Some (error, p)
      else
        inp ← inp_at p id;
        p ← in_pcbrehash_mbuf id (put_inp id (inp <| inp_lport := lport |> <| inp_laddr := laddr |> <| inp_faddr := faddr |> <| inp_fport := fport |>) p);
        inp ← inp_at p id;
        Some (0, if (anonport : bool) then put_inp id (inp <| inp_anonport := true |>) p else p)
  end.

Definition in_pcbdisconnect (id : nat) (p : inpcbinfo) : option inpcbinfo :=
  inp ← inp_at p id;
  in_pcbrehash_mbuf id (put_inp id (inp <| inp_faddr := INADDR_ANY |> <| inp_fport := 0 |>) p).
End Pcb.
