(* ===== verification/InPcbTables.v ===== *)
(** * PCBs are found where they are

    Proofs about [InPcb]: the ephemeral port that is chosen is free and is found if
    there is one, the lookup for promiscuous interfaces finds the PCB that comes first
    in the order of preference, and binding, connecting, disconnecting and removal
    keep every PCB in the rows its endpoints hash to. *)

From S2P Require Import Prelude TcpSeq InPromisc InPcb.

Module PcbTables.

Import InPromisc.Promisc InPcb.Pcb.

(** ** Rows *)

Record sizes_ok (p : inpcbinfo) : Prop := {
  sz_hash : exists j : nat, ipi_hashmask p = 2 ^ Z.of_nat j - 1 /\ length (ipi_hashbase p) = Z.to_nat (2 ^ Z.of_nat j);
  sz_mask : ipi_porthashmask p = ipi_hashmask p;
  sz_ports : length (ipi_porthashbase p) = length (ipi_hashbase p) }.

Lemma masked p x : sizes_ok p -> 0 <= Z.land x (ipi_hashmask p) /\ (Z.to_nat (Z.land x (ipi_hashmask p)) < length (ipi_hashbase p))%nat.
Proof.
  intros [(j & E1 & E2) _ _]. rewrite E1, E2. replace (2 ^ Z.of_nat j - 1) with (Z.ones (Z.of_nat j)) by (rewrite Z.ones_equiv; lia). rewrite Z.land_ones by lia.
  pose proof (Z.pow_pos_nonneg 2 (Z.of_nat j) ltac:(lia) ltac:(lia)). pose proof (Z.mod_pos_bound x (2 ^ Z.of_nat j) ltac:(lia)). lia.
Qed.

Lemma hash_bound p inp : sizes_ok p -> (Z.to_nat (hash_of p inp) < length (ipi_hashbase p))%nat.
Proof. intros H. unfold hash_of, in_pcbhash_promisc, INP_PCBHASH. destruct (inp_promisc inp); apply (masked p); exact H. Qed.

Lemma porthash_bound p inp : sizes_ok p -> (Z.to_nat (porthash_of p inp) < length (ipi_porthashbase p))%nat.
Proof.
  intros H. rewrite (sz_ports p H). unfold porthash_of, in_pcbporthash_promisc, INP_PCBPORTHASH. rewrite (sz_mask p H). destruct (inp_promisc inp); [|apply (masked p); exact H].
  match goal with |- context [u16 (Z.land ?h (ipi_hashmask p))] => pose proof (masked p h H) as [M1 M2]; pose proof (Z.mod_le (Z.land h (ipi_hashmask p)) (2 ^ 16) M1 ltac:(lia)) as L;
    pose proof (Z.mod_pos_bound (Z.land h (ipi_hashmask p)) (2 ^ 16) ltac:(lia)) as B; change (Z.land h (ipi_hashmask p) mod 2 ^ 16) with (u16 (Z.land h (ipi_hashmask p))) in L, B end. lia.
Qed.

Lemma u16_bounds x : 0 <= u16 x < 2 ^ 16.
Proof. unfold u16. apply Z.mod_pos_bound. lia. Qed.

Lemma row_in {A} (rows : list A) k : (k < length rows)%nat -> exists row, rows !! k = Some row.
Proof. apply lookup_lt_is_Some_2. Qed.

(** ** Ephemeral ports *)

Section Ports.
Context (e : env).

Lemma lookup_local_total p laddr lport wildcard cred : sizes_ok p -> exists r, in_pcblookup_local e laddr lport wildcard cred p = Some r.
Proof.
  intros H. unfold in_pcblookup_local, hash_row, port_row, INP_PCBHASH, INP_PCBPORTHASH. destruct wildcard; cbn [negb].
  - rewrite (sz_mask p H). destruct (row_in (ipi_porthashbase p) (Z.to_nat (Z.land (ntohs lport) (ipi_hashmask p)))) as [row ->]; [rewrite (sz_ports p H); apply masked, H|].
    cbn [mbind option_bind]. destruct (List.find _ _); eauto.
  - destruct (row_in (ipi_hashbase p) (Z.to_nat (Z.land (Z.lxor (Z.lxor INADDR_ANY (Z.shiftr INADDR_ANY 16)) (ntohs (Z.lxor lport 0))) (ipi_hashmask p)))) as [row ->]; [apply masked, H|].
    cbn [mbind option_bind]. eauto.
Qed.

(** The tables are all that a lookup looks at. *)
Definition same_tables (p p' : inpcbinfo) : Prop :=
  inps p' = inps p /\ ipi_hashbase p' = ipi_hashbase p /\ ipi_hashmask p' = ipi_hashmask p /\ ipi_porthashbase p' = ipi_porthashbase p /\ ipi_porthashmask p' = ipi_porthashmask p.

Lemma best_fit_same laddr cred p p' row : inps p' = inps p -> forall m w, best_fit e laddr cred p' row m w = best_fit e laddr cred p row m w.
Proof.
  intros E. induction row as [|id row IH]; intros m w; [reflexivity|]. cbn [best_fit]. unfold inp_at. rewrite E. destruct (inps p !! id) as [inp|]; [|apply IH].
  cbv zeta. repeat (case_match; try apply IH); reflexivity.
Qed.

Lemma local_same p p' laddr lport wildcard cred : same_tables p p' -> in_pcblookup_local e laddr lport wildcard cred p' = in_pcblookup_local e laddr lport wildcard cred p.
Proof.
  intros (E1 & E2 & E3 & E4 & E5). unfold in_pcblookup_local, hash_row, port_row, find_inp, inp_at. rewrite E1, E2, E3, E4, E5. destruct wildcard; cbn [negb]; [|reflexivity].
  destruct (ipi_porthashbase p !! _) as [ports|]; [|reflexivity]. cbn [mbind option_bind]. destruct (List.find _ ports); [|reflexivity]. rewrite (best_fit_same _ _ _ _ _ E1). reflexivity.
Qed.

Lemma loop_same tries first last laddr wildcard cred p p' : same_tables p p' -> forall lastport,
  lport_loop e tries first last laddr wildcard cred lastport p' = lport_loop e tries first last laddr wildcard cred lastport p.
Proof. intros S. induction tries as [|tries IH]; intros lastport; [reflexivity|]. cbn [lport_loop]. rewrite (local_same p p' _ _ _ _ S). destruct (in_pcblookup_local _ _ _ _ _ p) as [[id|]|]; cbn; auto. Qed.

Section Loop.
Context (lo hi laddr : Z) (wildcard : bool) (cred : option Z) (p : inpcbinfo).
Context (Hlo : 0 <= lo <= hi) (Hhi : hi < 2 ^ 16) (Hp : sizes_ok p).

Definition free (x : Z) : Prop := in_pcblookup_local e laddr (htons x) wildcard cred p = Some None.
Definition taken (x : Z) : Prop := exists id, in_pcblookup_local e laddr (htons x) wildcard cred p = Some (Some id).

Definition next (lastport : Z) : Z :=
  let x := u16 (lastport + 1) in if (x <? lo) || (hi <? x) then lo else x.

Lemma next_range lastport : lo <= next lastport <= hi.
Proof. unfold next. cbv zeta. destruct (Z.ltb_spec (u16 (lastport + 1)) lo); cbn [orb]; [lia|]. destruct (Z.ltb_spec hi (u16 (lastport + 1))); lia. Qed.

Lemma next_in lastport : lo <= lastport <= hi -> next lastport = lo + (lastport - lo + 1) mod (hi - lo + 1).
Proof.
  intros H. unfold next. cbv zeta. destruct (Z.eq_dec lastport hi) as [->|Hne].
  - replace (hi - lo + 1) with (1 * (hi - lo + 1)) at 1 by lia. rewrite Z.mod_mul by lia. rewrite Z.add_0_r.
    destruct (Z.eq_dec hi (2 ^ 16 - 1)) as [->|].
    + change (u16 (2 ^ 16 - 1 + 1)) with 0. destruct (Z.ltb_spec 0 lo); cbn [orb]; [reflexivity|]. destruct (Z.ltb_spec (2 ^ 16 - 1) 0); lia.
    + assert (u16 (hi + 1) = hi + 1) as -> by (unfold u16; apply Z.mod_small; lia). destruct (Z.ltb_spec (hi + 1) lo); cbn [orb]; [lia|]. destruct (Z.ltb_spec hi (hi + 1)); lia.
  - rewrite Z.mod_small by lia. assert (u16 (lastport + 1) = lastport + 1) as -> by (unfold u16; apply Z.mod_small; lia).
    destruct (Z.ltb_spec (lastport + 1) lo); cbn [orb]; [lia|]. destruct (Z.ltb_spec hi (lastport + 1)); lia.
Qed.

(** The tries go around the range from the port after the last. *)
Definition visited (lastport : Z) (i : nat) : Z := lo + (next lastport - lo + Z.of_nat i) mod (hi - lo + 1).

Lemma visited_0 lastport : visited lastport 0 = next lastport.
Proof. unfold visited. pose proof (next_range lastport). rewrite Z.add_0_r, Z.mod_small by lia. lia. Qed.
Lemma visited_S lastport i : visited (next lastport) i = visited lastport (S i).
Proof.
  unfold visited. rewrite (next_in (next lastport)) by apply next_range. f_equal. replace (lo + _ - lo + Z.of_nat i) with ((next lastport - lo + 1) mod (hi - lo + 1) + Z.of_nat i) by lia.
  rewrite Z.add_mod_idemp_l by lia. f_equal. lia.
Qed.

Lemma lport_loop_spec tries : forall lastport, exists r last', lport_loop e tries lo hi laddr wildcard cred lastport p = Some (last', r) /\
  match r with
  | Some lport => exists x, lo <= x <= hi /\ lport = htons x /\ free x
  | None => forall i, (i < tries)%nat -> taken (visited lastport i)
  end.
Proof.
  induction tries as [|tries IH]; intros lastport; [exists None, lastport; split; [reflexivity | intros; lia]|]. cbn [lport_loop]. fold (next lastport).
  change (if (u16 (lastport + 1) <? lo) || (hi <? u16 (lastport + 1)) then lo else u16 (lastport + 1)) with (next lastport).
  destruct (lookup_local_total p laddr (htons (next lastport)) wildcard cred Hp) as [t Et]. rewrite Et. cbn [mbind option_bind]. destruct t as [id|].
  - destruct (IH (next lastport)) as (r & last' & -> & Hr). exists r, last'. split; [reflexivity|]. destruct r; [exact Hr|]. intros [|i] Hi; [rewrite visited_0; exists id; exact Et|].
    rewrite <- visited_S. apply Hr. lia.
  - exists (Some (htons (next lastport))), (next lastport). split; [reflexivity|]. exists (next lastport). split; [apply next_range|]. split; [reflexivity | exact Et].
Qed.

Lemma all_visited lastport x : lo <= x <= hi -> exists i, (i < Z.to_nat (hi - lo + 1))%nat /\ visited lastport i = x.
Proof.
  intros Hx. pose proof (next_range lastport) as Hn. exists (Z.to_nat ((x - next lastport) mod (hi - lo + 1))). pose proof (Z.mod_pos_bound (x - next lastport) (hi - lo + 1) ltac:(lia)) as B.
  split; [lia|]. unfold visited. rewrite Z2Nat.id by lia. rewrite Z.add_mod_idemp_r by lia. replace (next lastport - lo + (x - next lastport)) with (x - lo) by lia. rewrite Z.mod_small by lia. lia.
Qed.
End Loop.

Definition low (r : port_range) : Z := Z.min (u16 (first_of e r)) (u16 (last_of e r)).
Definition high (r : port_range) : Z := Z.max (u16 (first_of e r)) (u16 (last_of e r)).

Lemma range_ok r : 0 <= low r <= high r /\ high r < 2 ^ 16.
Proof. unfold low, high. pose proof (u16_bounds (first_of e r)). pose proof (u16_bounds (last_of e r)). lia. Qed.

Lemma tables_lastport r x p : same_tables p (set_lastport r x p).
Proof. destruct r; split_and!; reflexivity. Qed.
Lemma tables_trans p p1 p2 : same_tables p p1 -> same_tables p1 p2 -> same_tables p p2.
Proof. intros (A1 & A2 & A3 & A4 & A5) (B1 & B2 & B3 & B4 & B5). split_and!; congruence. Qed.

Lemma lport_spec inp laddr wildcard cred p : sizes_ok p -> exists r p', in_pcb_lport e inp laddr wildcard cred p = Some (r, p') /\ same_tables p p' /\
  match r with
  | inr lport => exists x, low (range_of inp) <= x <= high (range_of inp) /\ lport = htons x /\ free laddr wildcard (Some cred) p x
  | inl error => (error = EACCES /\ range_of inp = Range_low /\ priv_reservedport e cred = false) \/
      (error = EADDRNOTAVAIL /\ forall x, low (range_of inp) <= x <= high (range_of inp) -> taken laddr wildcard (Some cred) p x)
  end.
Proof.
  intros Hp. unfold in_pcb_lport. set (r := range_of inp). destruct ((match r with Range_low => true | _ => false end) && negb (priv_reservedport e cred)) eqn:Ea.
  { exists (inl EACCES), p. split; [reflexivity|]. split; [split_and!; reflexivity|]. left. apply andb_prop in Ea as [Ea1 Ea2]. split; [reflexivity|].
    split; [destruct r; (reflexivity || discriminate) | destruct (priv_reservedport e cred); (reflexivity || discriminate)]. }
  set (dorandom := ipport_randomized e && _ && _). set (p1 := if is_udp e then p else _). assert (S1 : same_tables p p1) by (unfold p1; destruct (is_udp e); split_and!; reflexivity).
  assert (E : (if u16 (last_of e r) <? u16 (first_of e r) then (u16 (last_of e r), u16 (first_of e r)) else (u16 (first_of e r), u16 (last_of e r))) = (low r, high r)).
  { unfold low, high. destruct (Z.ltb_spec (u16 (last_of e r)) (u16 (first_of e r))); f_equal; lia. }
  rewrite E. set (p2 := if dorandom then _ else p1).
  assert (S2 : same_tables p p2) by (apply (tables_trans p p1 p2 S1); unfold p2; destruct dorandom; [apply (tables_trans p1 (snd (arc4random p1))); [split_and!; reflexivity | apply tables_lastport] | split_and!; reflexivity]).
  rewrite (loop_same _ _ _ _ _ _ p p2 S2). destruct (range_ok r) as [R1 R2].
  destruct (lport_loop_spec (low r) (high r) laddr wildcard (Some cred) p R1 R2 Hp (Z.to_nat (high r - low r + 1)) (lastport_of r p2)) as (found & last' & -> & Hf). cbn [mbind option_bind].
  eexists. eexists. split; [reflexivity|]. split; [apply (tables_trans p p2); [exact S2 | apply tables_lastport]|]. destruct found as [lport|]; [exact Hf|]. right. split; [reflexivity|].
  intros x Hx. destruct (all_visited (low r) (high r) R1 (lastport_of r p2) x Hx) as (i & Hi & <-). apply Hf, Hi.
Qed.
End Ports.

(** ** The lookup for promiscuous interfaces *)

(** Every row holds, once, exactly the PCBs that hash to it. *)
Definition holds_exactly (rows : list (list nat)) (key : nat -> option nat) : Prop :=
  forall k row, rows !! k = Some row -> NoDup row /\ forall id, id ∈ row <-> key id = Some k.
Definition key_of (p : inpcbinfo) (id : nat) : option nat :=
  inp ← inp_at p id; if inp_inhashlist inp then Some (Z.to_nat (hash_of p inp)) else None.
Definition rows_ok (p : inpcbinfo) : Prop := holds_exactly (ipi_hashbase p) (key_of p).

Lemma key_of_some p id k : key_of p id = Some k <-> exists inp, inp_at p id = Some inp /\ inp_inhashlist inp = true /\ Z.to_nat (hash_of p inp) = k.
Proof.
  unfold key_of. destruct (inp_at p id) as [inp|]; cbn [mbind option_bind]; [|split; [discriminate | intros (x & H & _); discriminate]]. destruct (inp_inhashlist inp) eqn:Ei.
  - split; [intros H; injection H as <-; eauto | intros (x & H & _ & <-); congruence].
  - split; [discriminate | intros (x & H & H' & _); congruence].
Qed.

Lemma find_inp_some f row p id : find_inp f row p = Some id -> id ∈ row /\ exists inp, inp_at p id = Some inp /\ f inp = true.
Proof.
  intros H. apply List.find_some in H as [H1 H2]. split; [apply list_elem_of_In; exact H1|]. destruct (inp_at p id) as [inp|]; [|discriminate]. eauto.
Qed.
Lemma find_inp_none f row p id inp : find_inp f row p = None -> id ∈ row -> inp_at p id = Some inp -> f inp = false.
Proof. intros H Hi E. apply list_elem_of_In in Hi. pose proof (List.find_none _ _ H id Hi) as F. cbv beta in F. rewrite E in F. exact F. Qed.

Lemma find_inp_ext f g row p : (forall inp, f inp = g inp) -> find_inp f row p = find_inp g row p.
Proof. intros E. unfold find_inp. induction row as [|id row IH]; [reflexivity|]. cbn. destruct (inp_at p id) as [inp|]; cbn; [rewrite E|]; rewrite IH; reflexivity. Qed.

Lemma tags_equal_hash inp tags hash : tags_equal inp tags = true -> has_tags (Some (inl2i_tagstack (inp_l2info inp))) = has_tags (Some tags) ->
  hash_tags (Some (inl2i_tagstack (inp_l2info inp))) hash = hash_tags (Some tags) hash.
Proof.
  unfold tags_equal. rewrite bool_decide_eq_true, tagcmp_correct. intros E H. apply hash_tags_equal; [|exact H]. destruct (decide _) as [E'|]; [exact E' | discriminate].
Qed.

Lemma hash_tags_nil hash : hash_tags (Some []) hash = hash_tags None hash.
Proof. reflexivity. Qed.

Section Lookup.
Context (e : env) (faddr fport laddr lport fib : Z) (wildcard : bool) (tags : in_l2tagstack) (p : inpcbinfo).

(** The kinds of listener, in the order of preference: for any address, any port, any tags. *)
Definition preference : list (bool * bool * bool) :=
  [(false, false, false); (true, false, false); (false, true, false); (true, true, false);
   (false, false, true); (true, false, true); (false, true, true); (true, true, true)].
Definition listens (kind : bool * bool * bool) (inp : inpcb) : bool :=
  let '(any_addr, any_port, any_tags) := kind in
  (inp_faddr inp =? INADDR_ANY) && (inp_laddr inp =? if any_addr then INADDR_ANY else laddr) && (inp_lport inp =? if any_port then IN_PROMISC_PORT_ANY else lport) &&
  Bool.eqb (inl2i_any (inp_l2info inp)) any_tags && (inp_fibnum inp =? fib) && negb (jailed e (inp_cred inp)) && (any_tags || tags_equal inp tags).
(** The connection itself, then the kinds of listener. *)
Definition fits (c : nat) (inp : inpcb) : bool :=
  match c with O => exact_match e faddr fport laddr lport fib tags inp | S i => from_option (fun kind => listens kind inp) false (preference !! i) end.

Lemma phase_listens i inp : (i < 8)%nat -> phase_match e laddr lport fib tags i inp = fits (S i) inp.
Proof.
  intros Hi. cbn [fits]. do 8 (destruct i as [|i]; [unfold phase_match; cbn; destruct (inl2i_any (inp_l2info inp)); cbn [Bool.eqb orb]; rewrite ?andb_false_r; reflexivity|]). lia.
Qed.
Definition eligible (c : nat) : Prop := c = 0%nat \/ (wildcard = true /\ (c <= 8)%nat).
Definition candidate (c id : nat) : Prop := eligible c /\ exists inp, inp_at p id = Some inp /\ inp_inhashlist inp = true /\ fits c inp = true.

(** All PCBs are promiscuous; one for any tags has none; equal tag stacks are both empty or neither is. *)
Record promisc_ok (inp : inpcb) : Prop := {
  po_promisc : inp_promisc inp = true;
  po_any : inl2i_any (inp_l2info inp) = true -> inl2i_tagstack (inp_l2info inp) = [];
  po_fport : inp_faddr inp = INADDR_ANY -> inp_fport inp = 0;
  po_tags : tags_equal inp tags = true -> has_tags (Some (inl2i_tagstack (inp_l2info inp))) = has_tags (Some tags) }.

Definition class_hash (c : nat) : Z :=
  match c with
  | O => in_pcbhash_promisc laddr faddr lport fport fib (Some tags) (ipi_hashmask p)
  | S i => phase_hash laddr lport fib tags (ipi_hashmask p) i
  end.

Ltac split_bools := repeat match goal with H : _ && _ = true |- _ => apply andb_prop in H as [? H] end;
  repeat match goal with H : (_ =? _) = true |- _ => apply Z.eqb_eq in H end.

Lemma exact_hash inp : promisc_ok inp -> fits 0 inp = true -> hash_of p inp = class_hash 0.
Proof.
  intros [P1 P2 P3 P4] H. cbn [fits] in H. unfold exact_match, same_tuple in H. split_bools.
  repeat match goal with H : _ && _ = true |- _ => apply andb_prop in H as [? ?] end. repeat match goal with H : (_ =? _) = true |- _ => apply Z.eqb_eq in H end.
  unfold hash_of. rewrite P1. cbn [class_hash]. unfold in_pcbhash_promisc. rewrite (tags_equal_hash inp tags) by auto. congruence.
Qed.

Lemma phase_hash_any i : (i < 8)%nat -> phase_any i = true ->
  phase_hash laddr lport fib tags (ipi_hashmask p) i = in_pcbhash_promisc (phase_laddr laddr i) INADDR_ANY (phase_lport lport i) IN_PROMISC_PORT_ANY fib None (ipi_hashmask p).
Proof.
  intros Hi Ha. unfold phase_hash. cbv zeta. rewrite Ha. cbn [negb]. rewrite orb_false_r. destruct tags as [|x l]; cbn [length Nat.eqb negb]; [|reflexivity].
  assert (E : phase_laddr laddr (i - 4) = phase_laddr laddr i /\ phase_lport lport (i - 4) = phase_lport lport i).
  { do 8 (destruct i as [|i]; [try discriminate Ha; split; reflexivity|]). lia. }
  destruct E as [-> ->]. unfold in_pcbhash_promisc. rewrite hash_tags_nil. reflexivity.
Qed.

Lemma listener_hash i inp : (i < 8)%nat -> promisc_ok inp -> fits (S i) inp = true -> hash_of p inp = class_hash (S i).
Proof.
  intros Hi [P1 P2 P3 P4] H. rewrite <- phase_listens in H by exact Hi. unfold phase_match in H. repeat (apply andb_prop in H as [H ?]). repeat match goal with H : (_ =? _) = true |- _ => apply Z.eqb_eq in H end.
  cbn [class_hash]. unfold hash_of. rewrite P1, H, (P3 H). match goal with H : inp_fibnum inp = _ |- _ => rewrite H end. match goal with H : Bool.eqb _ _ = true |- _ => apply Bool.eqb_prop in H; rename H into Ha end.
  match goal with H : inp_laddr inp = _ |- _ => rewrite H end. match goal with H : inp_lport inp = _ |- _ => rewrite H end. destruct (phase_any i) eqn:Ea.
  - rewrite (phase_hash_any i Hi Ea), (P2 Ha). unfold in_pcbhash_promisc. rewrite hash_tags_nil. reflexivity.
  - unfold phase_hash. cbv zeta. rewrite Ea. cbn [negb]. rewrite orb_true_r. unfold in_pcbhash_promisc.
    match goal with H : _ || tags_equal inp tags = true |- _ => rewrite Ha in H; cbn [orb] in H; rewrite (tags_equal_hash inp tags) by auto end. reflexivity.
Qed.

Context (Hs : sizes_ok p) (Hr : rows_ok p) (Hp : forall id inp, inp_at p id = Some inp -> inp_inhashlist inp = true -> promisc_ok inp).

(** A search of the row of a class finds a PCB of the class if there is one. *)
Lemma search_row c row : (c <= 8)%nat -> hash_row p (class_hash c) = Some row ->
  match find_inp (fits c) row p with
  | Some id => exists inp, inp_at p id = Some inp /\ inp_inhashlist inp = true /\ fits c inp = true
  | None => forall id inp, inp_at p id = Some inp -> inp_inhashlist inp = true -> fits c inp = false
  end.
Proof.
  intros Hc E. destruct (Hr _ row E) as [_ R0]. assert (R := fun id => iff_trans (R0 id) (key_of_some p id _)). clear R0. destruct (find_inp (fits c) row p) as [id|] eqn:F.
  - apply find_inp_some in F as (F1 & inp & F2 & F3). apply R in F1 as (inp' & F4 & F5 & _). exists inp. split; [exact F2|]. split; [congruence | exact F3].
  - intros id inp E1 E2. destruct (fits c inp) eqn:Ef; [|reflexivity]. rewrite <- Ef. eapply find_inp_none; [exact F | | exact E1]. apply R. exists inp. split; [exact E1|]. split; [exact E2|].
    f_equal. destruct c as [|i]; [apply exact_hash | apply listener_hash; [lia|..]]; eauto.
Qed.

Lemma class_row c : exists row, hash_row p (class_hash c) = Some row.
Proof.
  unfold hash_row. apply row_in. destruct c as [|i]; cbn [class_hash]; [|unfold phase_hash; cbv zeta; destruct (_ || _)]; unfold in_pcbhash_promisc; apply masked, Hs.
Qed.

Lemma search_phases_ok k : forall i, (i + k = 8)%nat -> exists r, search_phases e laddr lport fib tags (seq i k) p = Some r /\
  match r with
  | Some id => exists c inp, (i < c <= 8)%nat /\ inp_at p id = Some inp /\ inp_inhashlist inp = true /\ fits c inp = true /\
      forall c' id' inp', (i < c' < c)%nat -> inp_at p id' = Some inp' -> inp_inhashlist inp' = true -> fits c' inp' = false
  | None => forall c id inp, (i < c <= 8)%nat -> inp_at p id = Some inp -> inp_inhashlist inp = true -> fits c inp = false
  end.
Proof.
  induction k as [|k IH]; intros i Hi; [exists None; split; [reflexivity | intros; lia]|]. cbn [seq search_phases]. destruct (class_row (S i)) as [row E]. cbn [class_hash] in E. rewrite E.
  cbn [mbind option_bind]. pose proof (search_row (S i) row ltac:(lia) E) as F.
  rewrite (find_inp_ext (phase_match e laddr lport fib tags i) (fits (S i))) by (intros inp; apply phase_listens; lia). destruct (find_inp (fits (S i)) row p) as [id|].
  - destruct F as (inp & F1 & F2 & F3). exists (Some id). split; [reflexivity|]. exists (S i), inp. split; [lia|]. split_and!; auto. intros; lia.
  - destruct (IH (S i) ltac:(lia)) as (r & -> & H). exists r. split; [reflexivity|]. destruct r as [id|].
    + destruct H as (c & inp & H1 & H2 & H3 & H4 & H5). exists c, inp. split; [lia|]. split_and!; auto. intros c' id' inp' Hc' E' I'.
      destruct (decide (c' = S i)) as [->|]; [exact (F id' inp' E' I') | apply (H5 c' id' inp'); auto; lia].
    + intros c id inp Hc E' I'. destruct (decide (c = S i)) as [->|]; [exact (F id inp E' I') | apply (H c id inp); auto; lia].
Qed.

Lemma lookup_best : exists r, in_pcblookup_hash_promisc_locked e faddr fport laddr lport wildcard fib tags p = Some r /\
  match r with
  | Some id => exists c, candidate c id /\ forall c' id', candidate c' id' -> (c <= c')%nat
  | None => forall c id, ~ candidate c id
  end.
Proof.
  unfold in_pcblookup_hash_promisc_locked. destruct (class_row 0) as [row E]. cbn [class_hash] in E. rewrite E. cbn [mbind option_bind]. pose proof (search_row 0 row ltac:(lia) E) as F.
  change (find_inp (exact_match e faddr fport laddr lport fib tags) row p) with (find_inp (fits 0) row p). destruct (find_inp (fits 0) row p) as [id|].
  { exists (Some id). split; [reflexivity|]. exists 0%nat. split; [split; [left; reflexivity | exact F] | intros; lia]. }
  destruct wildcard eqn:W.
  - destruct (search_phases_ok 8 0 eq_refl) as (r & -> & H). exists r. split; [reflexivity|]. destruct r as [id|].
    + destruct H as (c & inp & H1 & H2 & H3 & H4 & H5). exists c. split; [split; [right; split; [exact W | lia] | eauto]|]. intros c' id' [_ (inp' & C1 & C2 & C3)].
      destruct (decide (c <= c')%nat) as [L|L]; [exact L|]. destruct c' as [|c']; [rewrite (F id' inp' C1 C2) in C3; discriminate|]. rewrite (H5 (S c') id' inp') in C3; [discriminate | lia | exact C1 | exact C2].
    + intros c id [[->|[_ Hc]] (inp & C1 & C2 & C3)]; [rewrite (F id inp C1 C2) in C3; discriminate|].
      destruct c as [|c]; [rewrite (F id inp C1 C2) in C3; discriminate|]. rewrite (H (S c) id inp) in C3; [discriminate | lia | exact C1 | exact C2].
  - exists None. split; [reflexivity|]. intros c id [[->|[C _]] (inp & C1 & C2 & C3)]; [|congruence]. rewrite (F id inp C1 C2) in C3. discriminate.
Qed.
End Lookup.

(** ** The tables are kept *)

(** Likewise for ports, each of which has one head, with a list that is not empty. *)
Definition ports_exactly (rows : list (list inpcbport)) (key : nat -> option (nat * Z)) : Prop :=
  forall k ports, rows !! k = Some ports -> NoDup (map phd_port ports) /\ Forall (fun phd => phd_pcblist phd <> [] /\ NoDup (phd_pcblist phd)) ports /\
    forall id port, (exists phd, phd ∈ ports /\ phd_port phd = port /\ id ∈ phd_pcblist phd) <-> key id = Some (k, port).
Definition portkey_of (p : inpcbinfo) (id : nat) : option (nat * Z) :=
  inp ← inp_at p id; if inp_inhashlist inp then Some (Z.to_nat (porthash_of p inp), inp_lport inp) else None.

Record tables_ok (p : inpcbinfo) : Prop := {
  tk_sizes : sizes_ok p;
  tk_rows : rows_ok p;
  tk_ports : ports_exactly (ipi_porthashbase p) (portkey_of p);
  tk_bound : forall id inp, inp_at p id = Some inp -> inp_inhashlist inp = true -> inp_promisc inp = true \/ inp_lport inp <> 0 }.

Definition upd {A} (key : nat -> option A) (id : nat) (v : option A) (x : nat) : option A := if decide (x = id) then v else key x.

Lemma rows_ext rows key key' : (forall x, key' x = key x) -> holds_exactly rows key -> holds_exactly rows key'.
Proof. intros E H k row Er. destruct (H k row Er) as [H1 H2]. split; [exact H1|]. intros id. rewrite E. apply H2. Qed.
Lemma ports_ext rows key key' : (forall x, key' x = key x) -> ports_exactly rows key -> ports_exactly rows key'.
Proof. intros E H k row Er. destruct (H k row Er) as (H1 & H2 & H3). split; [exact H1|]. split; [exact H2|]. intros id port. rewrite E. apply H3. Qed.

Lemma rows_insert rows key id k row : holds_exactly rows key -> key id = None -> rows !! k = Some row -> holds_exactly (<[k := id :: row]> rows) (upd key id (Some k)).
Proof.
  intros H Hid E k' row' E'. destruct (decide (k' = k)) as [->|Hk].
  - rewrite list_lookup_insert_eq in E' by (eapply lookup_lt_Some; exact E). injection E' as <-. destruct (H k row E) as [H1 H2]. split.
    + apply NoDup_cons. split; [|exact H1]. rewrite H2. congruence.
    + intros x. rewrite elem_of_cons, H2. unfold upd. destruct (decide (x = id)) as [->|]; naive_solver.
  - rewrite list_lookup_insert_ne in E' by congruence. destruct (H k' row' E') as [H1 H2]. split; [exact H1|]. intros x. rewrite H2. unfold upd. destruct (decide (x = id)) as [->|]; naive_solver.
Qed.

Lemma rows_remove rows key id : holds_exactly rows key -> holds_exactly (unlink id rows) (upd key id None).
Proof.
  intros H k row E. unfold unlink in E. rewrite list_lookup_fmap in E. destruct (rows !! k) as [row0|] eqn:E0; [|discriminate]. cbn in E. injection E as <-. destruct (H k row0 E0) as [H1 H2]. split; [apply NoDup_filter; exact H1|].
  intros x. rewrite list_elem_of_filter, H2. unfold upd. destruct (decide (x = id)); naive_solver.
Qed.

Lemma add_to_port_some port id ports ports' : add_to_port port id ports = Some ports' ->
  exists l1 phd l2, ports = l1 ++ phd :: l2 /\ phd_port phd = port /\ ports' = l1 ++ mk_phd port (id :: phd_pcblist phd) :: l2.
Proof.
  revert ports'. induction ports as [|phd ports IH]; intros ports' H; [discriminate|]. cbn in H. destruct (Z.eqb_spec (phd_port phd) port) as [E|E].
  - injection H as <-. exists [], phd, ports. auto.
  - destruct (add_to_port port id ports) as [l|]; [|discriminate]. cbn in H. injection H as <-. destruct (IH l eq_refl) as (l1 & x & l2 & -> & E2 & ->). exists (phd :: l1), x, l2. auto.
Qed.
Lemma add_to_port_none port id ports : add_to_port port id ports = None -> port ∉ map phd_port ports.
Proof.
  induction ports as [|phd ports IH]; intros H; [apply not_elem_of_nil|]. cbn in H. destruct (Z.eqb_spec (phd_port phd) port) as [E|E]; [discriminate|].
  destruct (add_to_port port id ports); [discriminate|]. cbn. rewrite elem_of_cons. intros [C|C]; [congruence | exact (IH eq_refl C)].
Qed.

Lemma ports_lookup_other rows key id k port k' ports : ports_exactly rows key -> key id = None -> k' <> k -> rows !! k' = Some ports ->
  NoDup (map phd_port ports) /\ Forall (fun phd => phd_pcblist phd <> [] /\ NoDup (phd_pcblist phd)) ports /\
  forall x q, (exists phd, phd ∈ ports /\ phd_port phd = q /\ x ∈ phd_pcblist phd) <-> upd key id (Some (k, port)) x = Some (k', q).
Proof.
  intros H Hid Hk E. destruct (H k' ports E) as (H1 & H2 & H3). split; [exact H1|]. split; [exact H2|]. intros x q. rewrite H3. unfold upd. destruct (decide (x = id)) as [->|]; naive_solver.
Qed.

Lemma ports_insert rows key id k port ports ports' : ports_exactly rows key -> key id = None -> rows !! k = Some ports ->
  match add_to_port port id ports with Some l => Some l | None => Some (mk_phd port [id] :: ports) end = Some ports' ->
  ports_exactly (<[k := ports']> rows) (upd key id (Some (k, port))).
Proof.
  intros H Hid E A k' row' E'. destruct (decide (k' = k)) as [->|Hk].
  2: { rewrite list_lookup_insert_ne in E' by congruence. exact (ports_lookup_other rows key id k port k' row' H Hid Hk E'). }
  rewrite list_lookup_insert_eq in E' by (eapply lookup_lt_Some; exact E). injection E' as <-. destruct (H k ports E) as (H1 & H2 & H3).
  assert (K : forall x q, (exists phd, phd ∈ ports /\ phd_port phd = q /\ x ∈ phd_pcblist phd) \/ (x = id /\ q = port) <-> upd key id (Some (k, port)) x = Some (k, q)).
  { intros x q. rewrite H3. unfold upd. destruct (decide (x = id)) as [->|]; naive_solver. }
  assert (Hnew : forall phd, phd ∈ ports -> id ∉ phd_pcblist phd) by (intros phd Hp Hx; enough (key id = Some (k, phd_port phd)) by congruence; apply H3; eauto).
  destruct (add_to_port port id ports) as [l|] eqn:Ea; injection A as <-.
  - apply add_to_port_some in Ea as (l1 & phd & l2 & -> & Ep & ->). split; [|split].
    + rewrite map_app in *. cbn [map phd_port] in *. rewrite <- Ep. exact H1.
    + apply Forall_app in H2 as [F1 F2]. inversion F2 as [|? ? [F3 F4] F5]. subst. apply Forall_app. split; [exact F1|]. constructor; [|exact F5]. cbn. split; [discriminate|].
      apply NoDup_cons. split; [|exact F4]. apply Hnew. set_solver.
    + intros x q. rewrite <- K. split.
      * intros (y & Hy & Hq & Hx). apply elem_of_app in Hy as [Hy|Hy]; [left; exists y; set_solver|]. apply elem_of_cons in Hy as [->|Hy]; [|left; exists y; set_solver].
        cbn in Hq, Hx. apply elem_of_cons in Hx as [->|Hx]; [right; auto | left; exists phd; split; [set_solver | split; [congruence | exact Hx]]].
      * intros [(y & Hy & Hq & Hx)|[-> ->]]; [|exists (mk_phd port (id :: phd_pcblist phd)); split; [set_solver | split; [reflexivity | apply elem_of_cons; auto]]].
        apply elem_of_app in Hy as [Hy|Hy]; [exists y; set_solver|]. apply elem_of_cons in Hy as [->|Hy]; [|exists y; set_solver].
        exists (mk_phd port (id :: phd_pcblist phd)). split; [set_solver|]. split; [cbn; congruence | cbn; apply elem_of_cons; auto].
  - apply add_to_port_none in Ea. split; [|split].
    + cbn. apply NoDup_cons. auto.
    + constructor; [|exact H2]. cbn. split; [discriminate | apply NoDup_singleton].
    + intros x q. rewrite <- K. split.
      * intros (y & Hy & Hq & Hx). apply elem_of_cons in Hy as [->|Hy]; [|left; eauto]. cbn in Hq, Hx. apply list_elem_of_singleton in Hx. auto.
      * intros [(y & Hy & Hq & Hx)|[-> ->]]; [exists y; set_solver|]. exists (mk_phd port [id]). set_solver.
Qed.

Definition strip (id : nat) (phd : inpcbport) : inpcbport := mk_phd (phd_port phd) (filter (fun x => x <> id) (phd_pcblist phd)).
Definition unport_row (id : nat) (ports : list inpcbport) : list inpcbport := filter (fun phd => phd_pcblist phd <> []) (map (strip id) ports).

Lemma unport_in id ports phd : phd ∈ unport_row id ports <-> phd_pcblist phd <> [] /\ exists phd0, phd0 ∈ ports /\ phd = strip id phd0.
Proof. unfold unport_row. rewrite list_elem_of_filter, list_elem_of_fmap. naive_solver. Qed.

Lemma unport_nodup id ports : NoDup (map phd_port ports) -> NoDup (map phd_port (unport_row id ports)).
Proof.
  induction ports as [|phd ports IH]; intros H; [constructor|]. cbn in H. apply NoDup_cons in H as [H1 H2]. unfold unport_row. cbn [map]. rewrite filter_cons. specialize (IH H2).
  destruct (decide _); [|exact IH]. cbn. apply NoDup_cons. split; [|exact IH]. intros C. apply H1. apply list_elem_of_fmap in C as (x & -> & Cx).
  apply unport_in in Cx as (_ & x0 & Cx & ->). apply list_elem_of_fmap. exists x0. auto.
Qed.

Lemma ports_remove rows key id : ports_exactly rows key -> ports_exactly (unport id rows) (upd key id None).
Proof.
  intros H k ports E. unfold unport in E. rewrite list_lookup_fmap in E. destruct (rows !! k) as [ports0|] eqn:E0; [|discriminate]. cbn [fmap option_fmap option_map] in E. injection E as <-.
  fold (strip id). change (filter _ (map _ ports0)) with (unport_row id ports0). destruct (H k ports0 E0) as (H1 & H2 & H3). split; [apply unport_nodup; exact H1|]. split.
  - apply Forall_forall. intros phd Hp. apply unport_in in Hp as (Hn & x0 & Hx & ->). split; [exact Hn|]. cbn. apply NoDup_filter. rewrite Forall_forall in H2. apply (H2 x0 Hx).
  - intros x q. assert (K : upd key id None x = Some (k, q) <-> x <> id /\ key x = Some (k, q)) by (unfold upd; destruct (decide (x = id)); naive_solver). rewrite K, <- H3. split.
    + intros (phd & Hp & Hq & Hx). apply unport_in in Hp as (Hn & x0 & Hx0 & ->). cbn in Hq, Hx. apply list_elem_of_filter in Hx as [Hx1 Hx2]. split; [exact Hx1|]. exists x0. auto.
    + intros [Hx (phd & Hp & Hq & Hi)]. exists (strip id phd). assert (Hf : x ∈ phd_pcblist (strip id phd)) by (cbn; apply list_elem_of_filter; auto). split; [|split; [exact Hq | exact Hf]].
      apply unport_in. split; [intros C; rewrite C in Hf; apply not_elem_of_nil in Hf; exact Hf | eauto].
Qed.

(** *** Changes of a PCB *)

Lemma inp_put p id inp id' : (id < length (inps p))%nat -> inp_at (put_inp id inp p) id' = if decide (id' = id) then Some inp else inp_at p id'.
Proof.
  intros H. unfold inp_at, put_inp. cbn. destruct (decide (id' = id)) as [->|]; [apply list_lookup_insert_eq; exact H | apply list_lookup_insert_ne; congruence].
Qed.

Lemma at_length p id inp : inp_at p id = Some inp -> (id < length (inps p))%nat.
Proof. apply lookup_lt_Some. Qed.

(** What a PCB's places in the tables depend on. *)
Definition key_of_inp (p : inpcbinfo) (inp : inpcb) : option nat := if inp_inhashlist inp then Some (Z.to_nat (hash_of p inp)) else None.
Definition portkey_of_inp (p : inpcbinfo) (inp : inpcb) : option (nat * Z) := if inp_inhashlist inp then Some (Z.to_nat (porthash_of p inp), inp_lport inp) else None.

Lemma key_put p id inp id' : (id < length (inps p))%nat -> key_of (put_inp id inp p) id' = upd (key_of p) id (key_of_inp p inp) id'.
Proof. intros H. unfold key_of, upd. rewrite inp_put by exact H. destruct (decide (id' = id)); reflexivity. Qed.
Lemma portkey_put p id inp id' : (id < length (inps p))%nat -> portkey_of (put_inp id inp p) id' = upd (portkey_of p) id (portkey_of_inp p inp) id'.
Proof. intros H. unfold portkey_of, upd. rewrite inp_put by exact H. destruct (decide (id' = id)); reflexivity. Qed.

Lemma upd_same {A} (key : nat -> option A) id v : key id = v -> forall x, upd key id v x = key x.
Proof. intros E x. unfold upd. destruct (decide (x = id)) as [->|]; congruence. Qed.

(** Bound PCBs have a port, but for promiscuous ones. *)
Definition bound_ok (inp : inpcb) : Prop := inp_inhashlist inp = true -> inp_promisc inp = true \/ inp_lport inp <> 0.

Lemma tables_put p id inp inp' : tables_ok p -> inp_at p id = Some inp -> key_of_inp p inp' = key_of_inp p inp -> portkey_of_inp p inp' = portkey_of_inp p inp -> bound_ok inp' ->
  tables_ok (put_inp id inp' p).
Proof.
  intros [S R P B] E Ek Ep Eb. pose proof (at_length p id inp E) as L. split.
  - destruct S. split; assumption.
  - eapply rows_ext; [|exact R]. intros x. rewrite key_put by exact L. apply upd_same. unfold key_of. rewrite E. cbn. symmetry. exact Ek.
  - eapply ports_ext; [|exact P]. intros x. rewrite portkey_put by exact L. apply upd_same. unfold portkey_of. rewrite E. cbn. symmetry. exact Ep.
  - intros x y Ex. rewrite inp_put in Ex by exact L. destruct (decide (x = id)); [injection Ex as <-; exact Eb | apply (B x y Ex)].
Qed.

Lemma tables_same p p' : same_tables p p' -> tables_ok p -> tables_ok p'.
Proof.
  intros (E1 & E2 & E3 & E4 & E5) [[(j & S1 & S2) S3 S4] R P B].
  assert (H : forall inp, hash_of p' inp = hash_of p inp /\ porthash_of p' inp = porthash_of p inp) by (intros inp; unfold hash_of, porthash_of; rewrite E3, E5; split; reflexivity).
  split.
  - split; [exists j; split; congruence | congruence | congruence].
  - unfold rows_ok. rewrite E2. eapply rows_ext; [|exact R]. intros x. unfold key_of, inp_at. rewrite E1. destruct (inps p !! x) as [inp|]; [|reflexivity]. cbn. destruct (H inp) as [-> _]. reflexivity.
  - rewrite E4. eapply ports_ext; [|exact P]. intros x. unfold portkey_of, inp_at. rewrite E1. destruct (inps p !! x) as [inp|]; [|reflexivity]. cbn. destruct (H inp) as [_ ->]. reflexivity.
  - intros x inp Ex. unfold inp_at in Ex. rewrite E1 in Ex. exact (B x inp Ex).
Qed.

Lemma unkeyed p id inp : inp_at p id = Some inp -> inp_inhashlist inp = false -> key_of p id = None /\ portkey_of p id = None.
Proof. intros E H. unfold key_of, portkey_of. rewrite E. cbn. rewrite H. split; reflexivity. Qed.

Lemma inshash_ok malloc_ok p id inp : tables_ok p -> inp_at p id = Some inp -> inp_inhashlist inp = false -> inp_promisc inp = true \/ inp_lport inp <> 0 ->
  exists error p', in_pcbinshash malloc_ok id p = Some (error, p') /\
    ((error = 0 /\ tables_ok p' /\ inp_at p' id = Some (inp <| inp_inhashlist := true |>)) \/ (error = ENOBUFS /\ p' = p)).
Proof.
  intros [S R P B] E Hn Hb. unfold in_pcbinshash. rewrite E. cbn [mbind option_bind]. rewrite Hn. destruct (row_in _ _ (hash_bound p inp S)) as [row Er]. unfold hash_row, port_row. rewrite Er.
  cbn [mbind option_bind]. destruct (row_in _ _ (porthash_bound p inp S)) as [ports Ep]. rewrite Ep. cbn [mbind option_bind]. destruct (unkeyed p id inp E Hn) as [K1 K2].
  destruct (add_to_port (inp_lport inp) id ports) as [l|] eqn:Ea; [|destruct malloc_ok; [|exists ENOBUFS, p; split; [reflexivity | right; auto]]]; eexists; eexists; (split; [reflexivity|]); left; (split; [reflexivity|]).
  all: pose proof (at_length p id inp E) as L; split; [|unfold inp_at; cbn; apply list_lookup_insert_eq; exact L].
  all: split; [destruct S as [(j & S1 & S2) S3 S4]; split; cbn; rewrite ?length_insert; eauto | | |
    intros x y Ex Hx; unfold inp_at in Ex; cbn in Ex; destruct (decide (x = id)) as [->|Hne]; [rewrite list_lookup_insert_eq in Ex by exact L; injection Ex as <-; exact Hb |
      rewrite list_lookup_insert_ne in Ex by congruence; exact (B x y Ex Hx)]].
  all: try (eapply rows_ext; [|apply (rows_insert _ _ id _ row R K1 Er)]; intros x; unfold key_of, upd, inp_at; cbn; destruct (decide (x = id)) as [->|Hne];
    [rewrite list_lookup_insert_eq by exact L; reflexivity | rewrite list_lookup_insert_ne by congruence; reflexivity]).
  all: eapply ports_ext; [|eapply (ports_insert _ _ id _ (inp_lport inp) ports _ P K2 Ep); rewrite Ea; reflexivity]; intros x; unfold portkey_of, upd, inp_at; cbn; destruct (decide (x = id)) as [->|Hne];
    [rewrite list_lookup_insert_eq by exact L; reflexivity | rewrite list_lookup_insert_ne by congruence; reflexivity].
Qed.

(** An entry's endpoints change and it is rehashed; its place in the port table stays. *)
Lemma rehash_ok p id inp inp' : tables_ok p -> inp_at p id = Some inp -> inp_inhashlist inp = true -> inp_inhashlist inp' = true -> inp_lport inp' = inp_lport inp ->
  inp_promisc inp' = inp_promisc inp -> inp_fibnum inp' = inp_fibnum inp -> inp_l2info inp' = inp_l2info inp ->
  exists p', in_pcbrehash_mbuf id (put_inp id inp' p) = Some p' /\ tables_ok p' /\ inp_at p' id = Some inp'.
Proof.
  intros [S R P B] E H1 H2 E1 E2 E3 E4. pose proof (at_length p id inp E) as L. unfold in_pcbrehash_mbuf. rewrite inp_put by exact L. rewrite decide_True by reflexivity. cbn [mbind option_bind].
  rewrite H2. cbn [negb]. change (hash_of (put_inp id inp' p) inp') with (hash_of p inp'). change (ipi_hashbase (put_inp id inp' p)) with (ipi_hashbase p).
  destruct (row_in (unlink id (ipi_hashbase p)) (Z.to_nat (hash_of p inp'))) as [row Er]; [unfold unlink; rewrite length_map; apply hash_bound, S|]. rewrite Er. cbn [mbind option_bind].
  eexists. split; [reflexivity|]. split; [|unfold inp_at; cbn; apply list_lookup_insert_eq; exact L]. split.
  - destruct S as [(j & S1 & S2) S3 S4]. split; cbn; rewrite ?length_insert; unfold unlink; rewrite ?length_map; eauto.
  - eapply rows_ext; [|apply (rows_insert _ _ id _ row (rows_remove _ _ id R)); [unfold upd; rewrite decide_True by reflexivity; reflexivity | exact Er]].
    intros x. unfold key_of, upd, inp_at. cbn. destruct (decide (x = id)) as [->|Hne]; [rewrite list_lookup_insert_eq by exact L; cbn; rewrite H2; reflexivity | rewrite list_lookup_insert_ne by congruence; reflexivity].
  - eapply ports_ext; [|exact P]. intros x. unfold portkey_of, inp_at. cbn. destruct (decide (x = id)) as [->|Hne]; [|rewrite list_lookup_insert_ne by congruence; reflexivity].
    rewrite list_lookup_insert_eq by exact L. unfold inp_at in E. rewrite E. cbn. rewrite H1, H2. change (porthash_of _ inp') with (porthash_of p inp'). unfold porthash_of. rewrite E1, E2, E3, E4. reflexivity.
  - intros x y Ex Hx. unfold inp_at in Ex. cbn in Ex. destruct (decide (x = id)) as [->|Hne]; [|rewrite list_lookup_insert_ne in Ex by congruence; exact (B x y Ex Hx)].
    rewrite list_lookup_insert_eq in Ex by exact L. injection Ex as <-. rewrite E1, E2. exact (B id inp E H1).
Qed.

Lemma remlists_ok p id inp : tables_ok p -> inp_at p id = Some inp -> exists p', in_pcbremlists id p = Some p' /\ tables_ok p'.
Proof.
  intros [S R P B] E. pose proof (at_length p id inp E) as L. unfold in_pcbremlists. rewrite E. cbn [mbind option_bind]. destruct (inp_inhashlist inp) eqn:H; [|exists p; split; [reflexivity | split; assumption]].
  eexists. split; [reflexivity|]. split.
  - destruct S as [(j & S1 & S2) S3 S4]. split; cbn; unfold unlink, unport; rewrite ?length_map; eauto.
  - eapply rows_ext; [|apply (rows_remove _ _ id R)]. intros x. unfold key_of, upd, inp_at. cbn. destruct (decide (x = id)) as [->|Hne]; [rewrite list_lookup_insert_eq by exact L; reflexivity | rewrite list_lookup_insert_ne by congruence; reflexivity].
  - eapply ports_ext; [|apply (ports_remove _ _ id P)]. intros x. unfold portkey_of, upd, inp_at. cbn. destruct (decide (x = id)) as [->|Hne]; [rewrite list_lookup_insert_eq by exact L; reflexivity | rewrite list_lookup_insert_ne by congruence; reflexivity].
  - intros x y Ex Hx. unfold inp_at in Ex. cbn in Ex. destruct (decide (x = id)) as [->|Hne]; [rewrite list_lookup_insert_eq in Ex by exact L; injection Ex as <-; discriminate | rewrite list_lookup_insert_ne in Ex by congruence; exact (B x y Ex Hx)].
Qed.

(** *** Binding and connecting *)

Lemma htons_zero x : 0 <= x < 2 ^ 16 -> htons x = 0 -> x = 0.
Proof.
  intros Hx H. unfold htons, ntohs in H. apply Z.lor_eq_0_iff in H as [H1 H2]. change 255 with (Z.ones 8) in *. rewrite !Z.land_ones in * by lia. rewrite Z.shiftl_mul_pow2 in H1 by lia. rewrite Z.shiftr_div_pow2 in H2 by lia.
  assert (x / 2 ^ 8 < 2 ^ 8) by (apply Z.div_lt_upper_bound; lia). rewrite (Z.mod_small (x / 2 ^ 8)) in H2 by (split; [apply Z.div_pos; lia | lia]). pose proof (Z.div_mod x (2 ^ 8) ltac:(lia)). lia.
Qed.

Definition env_ok (e : env) : Prop := forall r, 1 <= low e r.

Section Ops.
Context (e : env) (He : env_ok e).

Lemma tables_refl p : same_tables p p.
Proof. split_and!; reflexivity. Qed.

Lemma check_port_total so reuseport wildcard cred addr lport inp p : sizes_ok p -> exists error, check_port e so reuseport wildcard cred addr lport inp p = Some error.
Proof.
  intros H. unfold check_port. destruct (_ && _ && negb (priv_reservedport e cred)); [eauto|].
  destruct (lookup_local_total e p addr lport true (Some cred) H) as [t1 E1]. destruct (lookup_local_total e p addr lport wildcard (Some cred) H) as [t2 E2].
  destruct (negb (IN_MULTICAST addr) && _); [rewrite E1|]; cbn [mbind option_bind]; [destruct (from_option _ _ _); [eauto|]|]; rewrite E2; cbn [mbind option_bind]; destruct (t2 ≫= inp_at p) as [t|]; eauto; destruct (inp_tw t); eauto.
Qed.

(** The port a bind ends with. *)
Definition port_ok (nam : option sockaddr_in) (lport0 : Z) (inp : inpcb) (lport : Z) : Prop :=
  (lport0 <> 0 -> lport = lport0) /\ (inp_promisc inp = true \/ lport <> 0) /\ (nam = None -> inp_promisc inp = true -> lport = lport0).

Lemma finish_ok (nam : option sockaddr_in) laddr lport lport0 wildcard cred inp p : sizes_ok p -> (nam = None -> lport = 0) ->
  exists r p', (let lport := if negb (lport0 =? 0) then lport0 else lport in
    if (lport =? 0) && negb (inp_promisc inp) then
      '(r, p) ← in_pcb_lport e inp laddr wildcard cred p; Some (match r with inl error => inl error | inr lport => inr (laddr, lport) end, p)
    else Some (inr (laddr, lport), p)) = Some (r, p') /\ same_tables p p' /\ match r with inr (_, lport) => port_ok nam lport0 inp lport | inl _ => True end.
Proof.
  intros H Hn. cbv zeta. destruct ((_ =? 0) && _) eqn:Ec.
  - destruct (lport_spec e inp laddr wildcard cred p H) as (r & p' & -> & S & Hr). cbn [mbind option_bind]. eexists. eexists. split; [reflexivity|]. split; [exact S|].
    apply andb_prop in Ec as [Ec1 Ec2]. apply Z.eqb_eq in Ec1. destruct r as [error|lport'].
    + exact I.
    + destruct Hr as (x & Hx & -> & _). pose proof (He (range_of inp)) as Hl. pose proof (range_ok e (range_of inp)) as [_ Hh]. assert (Hz : htons x <> 0) by (intros C; apply htons_zero in C; lia).
      destruct (Z.eqb_spec lport0 0); cbn [negb] in Ec1; [|lia]. split; [lia|]. split; [right; exact Hz|]. intros _ C. rewrite C in Ec2. discriminate.
  - eexists. eexists. split; [reflexivity|]. split; [apply tables_refl|]. destruct (Z.eqb_spec lport0 0) as [->|]; cbn [negb] in *.
    + split; [lia|]. split; [|intros Hnn _; apply Hn, Hnn]. destruct (Z.eqb_spec lport 0); [|right; assumption]. left. destruct (inp_promisc inp); [reflexivity | discriminate].
    + split; [reflexivity|]. split; [right; assumption | reflexivity].
Qed.

Lemma bind_setup_ok so nam laddr0 lport0 cred inp p : sizes_ok p ->
  exists r p', in_pcbbind_setup e so nam laddr0 lport0 cred inp p = Some (r, p') /\ same_tables p p' /\
    match r with inr (_, lport) => port_ok nam lport0 inp lport | inl _ => True end.
Proof.
  intros H. unfold in_pcbbind_setup. assert (X : forall err, exists (r : Z + Z * Z) p', Some (inl err, p) = Some (r, p') /\ same_tables p p' /\
    match r with inr (_, lport) => port_ok nam lport0 inp lport | inl _ => True end) by (intros err; exists (inl err), p; split; [reflexivity|]; split; [apply tables_refl | exact I]).
  destruct (no_ifaddr e && _); [apply X|]. destruct (bool_decide (is_Some nam) && _); [apply X|]. destruct nam as [sin|].
  2: { destruct (prison_local_ip4 e cred laddr0) as [err|laddr]; [apply X|]. apply (finish_ok None); [exact H | reflexivity]. }
  destruct (negb (sin_len_ok sin)); [apply X|]. destruct (prison_local_ip4 e cred (sin_addr sin)) as [err|addr]; [apply X|].
  destruct (negb (sin_port sin =? lport0) && _); [apply X|]. destruct (negb (IN_MULTICAST addr) && _ && _ && _); [apply X|].
  match goal with |- context [check_port e so ?ru ?w cred addr ?lp inp p] => destruct (check_port_total so ru w cred addr lp inp p H) as [err ->] end.
  match goal with |- context [if negb (?lp =? 0) then Some err else Some 0] => destruct (negb (lp =? 0)); cbn [mbind option_bind] end; [|cbn [Z.eqb negb]; apply (finish_ok (Some sin)); [exact H | discriminate]].
  destruct (Z.eqb_spec err 0); cbn [negb]; [apply (finish_ok (Some sin)); [exact H | discriminate] | apply X].
Qed.

Lemma hash_total p x : sizes_ok p -> exists row, hash_row p (Z.land x (ipi_hashmask p)) = Some row.
Proof. intros H. apply row_in, masked, H. Qed.

Lemma lookup_total p faddr fport laddr lport wildcard : sizes_ok p -> exists r, in_pcblookup_hash_locked e faddr fport laddr lport wildcard p = Some r.
Proof.
  intros H. unfold in_pcblookup_hash_locked, INP_PCBHASH.
  destruct (hash_total p (Z.lxor (Z.lxor faddr (Z.shiftr faddr 16)) (ntohs (Z.lxor lport fport))) H) as [row ->]. cbn [mbind option_bind]. cbv zeta. case_match; [eauto|]. case_match; [eauto|].
  destruct wildcard; [|eauto]. edestruct (hash_total p) as [row2 ->]; [exact H|]. cbn [mbind option_bind]. eauto.
Qed.
Lemma lookup_promisc_total p faddr fport laddr lport fib tags : sizes_ok p -> exists r, in_pcblookup_hash_promisc_locked e faddr fport laddr lport false fib tags p = Some r.
Proof. intros H. unfold in_pcblookup_hash_promisc_locked, in_pcbhash_promisc. edestruct (hash_total p) as [row ->]; [exact H|]. cbn [mbind option_bind]. case_match; eauto. Qed.

Lemma anonport_ok p id inp : tables_ok p -> inp_at p id = Some inp -> tables_ok (put_inp id (inp <| inp_anonport := true |>) p).
Proof. intros H E. apply (tables_put p id inp); auto. exact (tk_bound p H id inp E). Qed.

(** A PCB that is not hashed may be changed, and stays so. *)
Lemma unhashed_put p id inp inp' : tables_ok p -> inp_at p id = Some inp -> inp_inhashlist inp = false -> inp_inhashlist inp' = false -> tables_ok (put_inp id inp' p).
Proof. intros H E H1 H2. apply (tables_put p id inp); auto; unfold key_of_inp, portkey_of_inp, bound_ok; rewrite ?H1, ?H2; [reflexivity | reflexivity | discriminate]. Qed.

Lemma bind_ok malloc_ok so nam cred id inp p : tables_ok p -> inp_at p id = Some inp -> (inp_lport inp = 0 -> inp_laddr inp = INADDR_ANY -> inp_inhashlist inp = false) ->
  exists error p', in_pcbbind e malloc_ok so nam cred id p = Some (error, p') /\ tables_ok p'.
Proof.
  intros H E Hb. unfold in_pcbbind. rewrite E. cbn [mbind option_bind]. destruct (negb _ || _) eqn:En; [eauto|]. apply orb_false_elim in En as [N1 N2].
  apply negb_false_iff, Z.eqb_eq in N1. apply negb_false_iff, Z.eqb_eq in N2. specialize (Hb N1 N2). rewrite N1, N2.
  destruct (bind_setup_ok so nam INADDR_ANY 0 cred inp p (tk_sizes p H)) as (r & p1 & -> & S & Hr). cbn [mbind option_bind]. pose proof (tables_same p p1 S H) as H1. destruct r as [error|[laddr lport]]; [eauto|].
  assert (E1 : inp_at p1 id = Some inp) by (unfold inp_at; rewrite (proj1 S); exact E). set (inp1 := inp <| inp_laddr := laddr |> <| inp_lport := lport |>).
  pose proof (unhashed_put p1 id inp inp1 H1 E1 Hb Hb) as H2. assert (E2 : inp_at (put_inp id inp1 p1) id = Some inp1) by (rewrite inp_put by exact (at_length _ _ _ E1); rewrite decide_True by reflexivity; reflexivity).
  destruct (inshash_ok malloc_ok (put_inp id inp1 p1) id inp1 H2 E2 Hb (proj1 (proj2 Hr))) as (error & p2 & -> & [(-> & H3 & E3)|(-> & ->)]); cbn [mbind option_bind Z.eqb negb].
  - rewrite E3. cbn [mbind option_bind]. eexists. eexists. split; [reflexivity|]. destruct (_ && _); [exact (anonport_ok p2 id _ H3 E3) | exact H3].
  - eexists. eexists. split; [reflexivity|]. exact (unhashed_put _ id inp1 inp H2 E2 Hb Hb).
Qed.

Lemma connect_setup_ok so sin faddr cred inp p : sizes_ok p -> exists r p', in_pcbconnect_setup e so sin faddr cred inp p = Some (r, p') /\ same_tables p p' /\
  match r with inr (_, lport, _, _) => port_ok None (inp_lport inp) inp lport | inl _ => True end.
Proof.
  intros H. unfold in_pcbconnect_setup. assert (X : forall err, exists (r : Z + Z * Z * Z * Z) p', Some (inl err, p) = Some (r, p') /\ same_tables p p' /\
    match r with inr (_, lport, _, _) => port_ok None (inp_lport inp) inp lport | inl _ => True end) by (intros err; exists (inl err), p; split; [reflexivity|]; split; [apply tables_refl | exact I]).
  destruct (negb (sin_len_ok sin)); [apply X|]. destruct (negb (sin_family_ok sin)); [apply X|]. destruct (sin_port sin =? 0); [apply X|].
  destruct (if inp_laddr inp =? INADDR_ANY then _ else _) as [err|laddr]; [apply X|]. cbv zeta.
  assert (L : exists oinp, (if inp_promisc inp then in_pcblookup_hash_promisc_locked e faddr (sin_port sin) laddr (inp_lport inp) false (inp_fibnum inp) (inl2i_tagstack (inp_l2info inp)) p
    else in_pcblookup_hash_locked e faddr (sin_port sin) laddr (inp_lport inp) false p) = Some oinp) by (destruct (inp_promisc inp); [apply lookup_promisc_total | apply lookup_total]; exact H).
  destruct L as [oinp ->]. cbn [mbind option_bind]. destruct oinp; [apply X|]. destruct (Z.eqb_spec (inp_lport inp) 0) as [Z0|Z0].
  - destruct (bind_setup_ok so None laddr (inp_lport inp) cred inp p H) as (r & p1 & -> & S & Hr). cbn [mbind option_bind]. eexists. eexists. split; [reflexivity|]. split; [exact S|].
    destruct r as [|[laddr' lport']]; [exact I | exact Hr].
  - eexists. eexists. split; [reflexivity|]. split; [apply tables_refl|]. split; [reflexivity|]. split; [right; exact Z0 | reflexivity].
Qed.

(** The end of a connect, for a PCB that is hashed. *)
Lemma commit_ok laddr lport faddr fport (anonport : bool) id inp p : tables_ok p -> inp_at p id = Some inp -> inp_inhashlist inp = true -> lport = inp_lport inp ->
  exists error p', (inp ← inp_at p id;
    p ← in_pcbrehash_mbuf id (put_inp id (inp <| inp_lport := lport |> <| inp_laddr := laddr |> <| inp_faddr := faddr |> <| inp_fport := fport |>) p);
    inp ← inp_at p id; Some (0, if anonport then put_inp id (inp <| inp_anonport := true |>) p else p)) = Some (error, p') /\ tables_ok p'.
Proof.
  intros H E Hh Hl. rewrite E. cbn [mbind option_bind]. set (inp' := inp <| inp_lport := lport |> <| inp_laddr := laddr |> <| inp_faddr := faddr |> <| inp_fport := fport |>).
  destruct (rehash_ok p id inp inp' H E Hh Hh Hl eq_refl eq_refl eq_refl) as (p1 & -> & H1 & E1). cbn [mbind option_bind]. rewrite E1. cbn [mbind option_bind]. eexists. eexists. split; [reflexivity|].
  destruct anonport; [exact (anonport_ok p1 id inp' H1 E1) | exact H1].
Qed.

(** A PCB is hashed or has no local endpoint, and not both. *)
Definition connectable (inp : inpcb) : Prop := inp_inhashlist inp = true <-> ~ (inp_laddr inp = INADDR_ANY /\ inp_lport inp = 0).

Lemma connect_ok malloc_ok so sin faddr cred id inp p : tables_ok p -> inp_at p id = Some inp -> connectable inp ->
  exists error p', in_pcbconnect_mbuf e malloc_ok so sin faddr cred id p = Some (error, p') /\ tables_ok p'.
Proof.
  intros H E Hc. unfold in_pcbconnect_mbuf. rewrite E. cbn [mbind option_bind]. destruct (connect_setup_ok so sin faddr cred inp p (tk_sizes p H)) as (r & p1 & -> & S & Hr). cbn [mbind option_bind].
  pose proof (tables_same p p1 S H) as H1. assert (E1 : inp_at p1 id = Some inp) by (unfold inp_at; rewrite (proj1 S); exact E). destruct r as [error|[[[laddr lport] fa] fp]]; [eauto|].
  destruct (Z.eqb_spec (inp_laddr inp) INADDR_ANY) as [A|A]; [destruct (Z.eqb_spec (inp_lport inp) 0) as [B|B]|]; cbn [andb].
  - assert (Hh : inp_inhashlist inp = false) by (destruct (inp_inhashlist inp) eqn:Hh; [exfalso; apply (proj1 Hc Hh); auto | reflexivity]).
    set (inp1 := inp <| inp_lport := lport |> <| inp_laddr := laddr |>). pose proof (unhashed_put p1 id inp inp1 H1 E1 Hh Hh) as H2.
    assert (E2 : inp_at (put_inp id inp1 p1) id = Some inp1) by (rewrite inp_put by exact (at_length _ _ _ E1); rewrite decide_True by reflexivity; reflexivity).
    destruct (inshash_ok malloc_ok (put_inp id inp1 p1) id inp1 H2 E2 Hh (proj1 (proj2 Hr))) as (error & p2 & -> & [(-> & H3 & E3)|(-> & ->)]); cbn [mbind option_bind Z.eqb negb].
    + exact (commit_ok laddr lport fa fp true id _ p2 H3 E3 eq_refl eq_refl).
    + eexists. eexists. split; [reflexivity|]. exact (unhashed_put _ id inp1 inp H2 E2 Hh Hh).
  - cbn [mbind option_bind Z.eqb negb]. apply (commit_ok laddr lport fa fp false id inp p1 H1 E1); [apply Hc; intros [_ C]; exact (B C) | exact (proj1 Hr B)].
  - cbn [mbind option_bind Z.eqb negb]. assert (Hh : inp_inhashlist inp = true) by (apply Hc; intros [C _]; exact (A C)). apply (commit_ok laddr lport fa fp _ id inp p1 H1 E1 Hh).
    destruct (decide (inp_lport inp = 0)) as [B|B]; [|exact (proj1 Hr B)]. destruct Hr as (_ & _ & Hr). apply (Hr eq_refl). destruct (tk_bound p H id inp E Hh) as [P|P]; [exact P | contradiction].
Qed.

Lemma disconnect_ok id inp p : tables_ok p -> inp_at p id = Some inp -> inp_inhashlist inp = true -> exists p', in_pcbdisconnect id p = Some p' /\ tables_ok p'.
Proof.
  intros H E Hh. unfold in_pcbdisconnect. rewrite E. cbn [mbind option_bind].
  set (inp' := inp <| inp_faddr := INADDR_ANY |> <| inp_fport := 0 |>). destruct (rehash_ok p id inp inp' H E Hh Hh eq_refl eq_refl eq_refl eq_refl) as (p' & -> & H' & _). eauto.
Qed.
End Ops.

(** ** Events *)

(** [Attach]: a new PCB.  [Detach]: it is removed from the tables, to be freed. *)
Inductive event :=
  | Attach (inp : inpcb)
  | Bind (malloc_ok : bool) (so : sockopts) (nam : option sockaddr_in) (cred : Z) (id : nat)
  | Connect (malloc_ok : bool) (so : sockopts) (sin : sockaddr_in) (faddr cred : Z) (id : nat)
  | Disconnect (id : nat)
  | Detach (id : nat).

Definition perform (e : env) (ev : event) (p : inpcbinfo) : option inpcbinfo :=
  match ev with
  | Attach inp => Some (p <| inps := inps p ++ [inp] |>)
  | Bind malloc_ok so nam cred id => snd <$> in_pcbbind e malloc_ok so nam cred id p
  | Connect malloc_ok so sin faddr cred id => snd <$> in_pcbconnect_mbuf e malloc_ok so sin faddr cred id p
  | Disconnect id => in_pcbdisconnect id p
  | Detach id => in_pcbremlists id p
  end.

(** What callers see to: a new PCB is not hashed, one is not bound or connected again while it is bound to no address
    and no port, nor connected after it was removed, and only a hashed one is disconnected. *)
Definition permitted (ev : event) (p : inpcbinfo) : Prop :=
  match ev with
  | Attach inp => inp_inhashlist inp = false
  | Bind _ _ _ _ id => exists inp, inp_at p id = Some inp /\ (inp_lport inp = 0 -> inp_laddr inp = INADDR_ANY -> inp_inhashlist inp = false)
  | Connect _ _ _ _ _ id => exists inp, inp_at p id = Some inp /\ connectable inp
  | Disconnect id => exists inp, inp_at p id = Some inp /\ inp_inhashlist inp = true
  | Detach id => exists inp, inp_at p id = Some inp
  end.

Inductive reachable (e : env) : inpcbinfo -> Prop :=
  | at_boot (j : nat) (p : inpcbinfo) : inps p = [] -> ipi_hashmask p = 2 ^ Z.of_nat j - 1 -> ipi_porthashmask p = 2 ^ Z.of_nat j - 1 ->
      ipi_hashbase p = replicate (Z.to_nat (2 ^ Z.of_nat j)) [] -> ipi_porthashbase p = replicate (Z.to_nat (2 ^ Z.of_nat j)) [] -> reachable e p
  | after (ev : event) (p p' : inpcbinfo) : reachable e p -> permitted ev p -> perform e ev p = Some p' -> reachable e p'.

Lemma attach_ok inp p : tables_ok p -> inp_inhashlist inp = false -> tables_ok (p <| inps := inps p ++ [inp] |>).
Proof.
  intros [S R P B] H. assert (K : forall x, inp_at (p <| inps := inps p ++ [inp] |>) x = inp_at p x \/ (inp_at (p <| inps := inps p ++ [inp] |>) x = Some inp /\ inp_at p x = None)).
  { intros x. unfold inp_at. cbn. destruct (decide (x < length (inps p))%nat) as [L|L]; [left; apply lookup_app_l; exact L|]. rewrite lookup_app_r by lia. rewrite (lookup_ge_None_2 (inps p)) by lia.
    destruct (x - length (inps p))%nat; [right; split; reflexivity | left; reflexivity]. }
  split.
  - destruct S. split; assumption.
  - eapply rows_ext; [|exact R]. intros x. unfold key_of. destruct (K x) as [->|[-> ->]]; [reflexivity|]. cbn. rewrite H. reflexivity.
  - eapply ports_ext; [|exact P]. intros x. unfold portkey_of. destruct (K x) as [->|[-> ->]]; [reflexivity|]. cbn. rewrite H. reflexivity.
  - intros x y Ex Hx. destruct (K x) as [Kx|[Kx _]]; rewrite Kx in Ex; [exact (B x y Ex Hx)|]. injection Ex as <-. congruence.
Qed.

Lemma boot_tables j p : inps p = [] -> ipi_hashmask p = 2 ^ Z.of_nat j - 1 -> ipi_porthashmask p = 2 ^ Z.of_nat j - 1 ->
  ipi_hashbase p = replicate (Z.to_nat (2 ^ Z.of_nat j)) [] -> ipi_porthashbase p = replicate (Z.to_nat (2 ^ Z.of_nat j)) [] -> tables_ok p.
Proof.
  intros E1 E2 E3 E4 E5. split.
  - split; [exists j; split; [exact E2 | rewrite E4; apply length_replicate] | congruence | rewrite E4, E5, !length_replicate; reflexivity].
  - intros k row Er. rewrite E4 in Er. apply lookup_replicate in Er as [-> _]. split; [constructor|]. intros id. unfold key_of, inp_at. rewrite E1. cbn. split; [intros C; apply not_elem_of_nil in C; contradiction | discriminate].
  - intros k ports Er. rewrite E5 in Er. apply lookup_replicate in Er as [-> _]. split; [constructor|]. split; [constructor|]. intros id port. unfold portkey_of, inp_at. rewrite E1. cbn.
    split; [intros (x & C & _); apply not_elem_of_nil in C; contradiction | discriminate].
  - intros id inp Ex. unfold inp_at in Ex. rewrite E1 in Ex. discriminate.
Qed.

Lemma pcb_perform_ok e ev p : env_ok e -> tables_ok p -> permitted ev p -> exists p', perform e ev p = Some p' /\ tables_ok p'.
Proof.
  intros He H Hp. destruct ev as [inp|malloc_ok so nam cred id|malloc_ok so sin faddr cred id|id|id]; cbn [perform permitted] in *.
  - eexists. split; [reflexivity | apply attach_ok; assumption].
  - destruct Hp as (inp & E & Hb). destruct (bind_ok e He malloc_ok so nam cred id inp p H E Hb) as (error & p' & -> & H'). cbn. eauto.
  - destruct Hp as (inp & E & Hc). destruct (connect_ok e He malloc_ok so sin faddr cred id inp p H E Hc) as (error & p' & -> & H'). cbn. eauto.
  - destruct Hp as (inp & E & Hh). exact (disconnect_ok id inp p H E Hh).
  - destruct Hp as (inp & E). exact (remlists_ok p id inp H E).
Qed.

Lemma reachable_tables e p : env_ok e -> reachable e p -> tables_ok p.
Proof.
  intros He. induction 1 as [j p E1 E2 E3 E4 E5|ev p p' _ IH Hp E]; [exact (boot_tables j p E1 E2 E3 E4 E5)|]. destruct (pcb_perform_ok e ev p He IH Hp) as (p1 & E1 & H1). congruence.
Qed.

(** ** Theorems *)




(** ** Examples *)

(** No jails; one ephemeral port, 49152; the local address is 10.0.0.1. *)
Definition env0 : env :=
  mk_env (fun _ => false) (fun _ _ => true) (fun _ _ => true) (fun _ a => inr a) (fun _ => true) (fun _ => true) (fun _ => 0) (fun _ => true) false
    (fun _ => inr 0x0100000a) false 49152 49152 49152 49152 1023 600 1023 0 true false.
Definition tables0 (rows : nat) : inpcbinfo :=
  mk_pcbinfo [] (replicate rows []) (Z.of_nat rows - 1) (replicate rows []) (Z.of_nat rows - 1) 0 0 0 0 [].
Definition blank (promisc : bool) (tags : in_l2tagstack) : inpcb :=
  mk_inp 0 0 0 0 0 promisc false false false false false false (mk_l2info false tags) 0 None.
Definition sin_of (addr port : Z) : sockaddr_in := mk_sin true true (htons port) addr.
Definition plain : sockopts := mk_so 0 true.
Definition reuse : sockopts := mk_so SO_REUSEADDR true.

Fixpoint play (e : env) (evs : list event) (p : inpcbinfo) : option inpcbinfo :=
  match evs with [] => Some p | ev :: evs => p ← perform e ev p; play e evs p end.
Definition played (evs : list event) (p : inpcbinfo) : inpcbinfo := default p (play env0 evs p).

Lemma env0_ok : env_ok env0.
Proof. intros []; vm_compute; congruence. Qed.

Definition attached : inpcbinfo := played [Attach (blank true [(5, 0xfff)])] (tables0 4).
Definition listening : inpcbinfo := played [Bind true plain (Some (sin_of 0x0100000a 80)) 0 0] attached.

Lemma attached_reachable : reachable env0 attached.
Proof. apply (after env0 (Attach (blank true [(5, 0xfff)])) (tables0 4)); [apply (at_boot env0 2); reflexivity | reflexivity | reflexivity]. Qed.

Lemma listening_reachable : reachable env0 listening.
Proof.
  apply (after env0 (Bind true plain (Some (sin_of 0x0100000a 80)) 0 0) attached _ attached_reachable); [|vm_compute; reflexivity]. exists (blank true [(5, 0xfff)]). split; reflexivity.
Qed.

Definition bound0 : inpcb := mk_inp 0 0 0x0100000a (htons 80) 0 true false false false false true false (mk_l2info false [(5, 0xfff)]) 0 None.
Lemma listening_inps : inps listening = [bound0].
Proof. vm_compute. reflexivity. Qed.




(** Two sockets with SO_REUSEADDR connect to the same peer: both get the same four endpoints. *)
Example one_tuple_for_two_connections :
  map (fun inp => (inp_faddr inp, inp_fport inp, inp_laddr inp, inp_lport inp))
    (inps (played [Attach (blank false []); Attach (blank false []); Connect true reuse (sin_of 0x0200000a 80) 0x0200000a 0 0;
                   Connect true reuse (sin_of 0x0200000a 80) 0x0200000a 0 1] (tables0 4))) =
  repeat (0x0200000a, htons 80, 0x0100000a, htons 49152) 2.
Proof. vm_compute. reflexivity. Qed.

(** A promiscuous PCB bound to any address and any port is in the tables, and connecting it puts it there again. *)
Example bound_to_anything_hashed_twice :
  perform env0 (Connect true plain (sin_of 0x0200000a 80) 0x0200000a 0 0) (played [Attach (blank true []); Bind true plain (Some (sin_of 0 0)) 0 0] (tables0 4)) = None.
Proof. vm_compute. reflexivity. Qed.

(** An ordinary listener is found for a packet on a promiscuous interface when its row happens to be the one. *)
Definition ordinary (rows : nat) : inpcbinfo := played [Attach (blank false []); Bind true plain (Some (sin_of 0 80)) 0 0] (tables0 rows).
Example ordinary_listener_found_by_chance :
  map (fun rows => in_pcblookup_hash_promisc_locked env0 0x0200000a (htons 4000) 0x0100000a (htons 80) true 0 [] (ordinary rows)) [1; 4]%nat = [Some (Some 0%nat); Some None].
Proof. vm_compute. reflexivity. Qed.

(** Two promiscuous PCBs are bound to the same address, port and tags when their row is not the one of an ordinary PCB. *)
Example promisc_port_bound_twice :
  let twice rows := played [Attach (blank true []); Attach (blank true []); Bind true plain (Some (sin_of 0x0100000a 80)) 0 0;
                            Bind true plain (Some (sin_of 0x0100000a 80)) 0 1] (tables0 rows) in
  map (fun rows => map inp_lport (inps (twice rows))) [1; 16]%nat = [[htons 80; 0]; [htons 80; htons 80]].
Proof. vm_compute. reflexivity. Qed.

(** A port table smaller than the other table: a promiscuous PCB is put outside it. *)
Example small_port_table_faults :
  perform env0 (Bind true plain (Some (sin_of 0x0100000a 80)) 0 0)
    ((played [Attach (blank true [])] (tables0 256)) <| ipi_porthashbase := [[]] |> <| ipi_porthashmask := 0 |>) = None.
Proof. vm_compute. reflexivity. Qed.
End PcbTables.
