(* ===== verification/Nv.v ===== *)
(** * Name/value lists

    lib/libuinetnv: typed name/value pairs (nvpair.c), lists of them
    (nvlist.c), lookups with a default (dnvlist.c), and their packed form, which
    nvlist_send and nvlist_recv exchange over a socket together with the file
    descriptors of the list.

    The host is little-endian, as on every platform the library is built for.
    Memory allocation succeeds.  [Abort] stands for everything that stops the
    program: a failed PJDLOG_ASSERT, PJDLOG_ABORT, a read outside the buffer.
    Names and strings are their bytes without the terminating NUL. *)

From S2P Require Import Prelude TcpSeq.

Module Nv.

Definition EBADF := 9.
Definition EEXIST := 17.
Definition EINVAL := 22.
Definition ENAMETOOLONG := 63.
Definition EOPNOTSUPP := 45.
Definition ENOTCONN := 57.

Definition NV_NAME_MAX := 2048.
Definition NV_FLAG_IGNORE_CASE := 1.
Definition NV_FLAG_BIG_ENDIAN := 128.
Definition NV_FLAG_PUBLIC_MASK := NV_FLAG_IGNORE_CASE.
Definition NV_FLAG_ALL_MASK := Z.lor NV_FLAG_BIG_ENDIAN NV_FLAG_PUBLIC_MASK.

(** ** Results *)

Inductive nvres (A : Type) :=
  | Ok (a : A)
  | Err (errno : Z)
  | Abort.
Arguments Ok {A} a.
Arguments Err {A} errno.
Arguments Abort {A}.

#[export] Instance nvres_bind : MBind nvres := fun _ _ f r =>
  match r with Ok a => f a | Err e => Err e | Abort => Abort end.

Definition guard (b : bool) (errno : Z) : nvres unit := if (b : bool) then Ok tt else Err errno.
Definition passert (b : bool) : nvres unit := if (b : bool) then Ok tt else Abort.

(** ** Data *)

Record nvpair_of (V : Type) := mk_nvpair { nvp_name : list Z; nvp_value : V }.
Record nvlist_of (V : Type) := mk_nvlist {
  nvl_error : Z;
  nvl_flags : Z;
  nvl_head : list (nvpair_of V) }.
Arguments mk_nvpair {V} _ _.
Arguments nvp_name {V} _.
Arguments nvp_value {V} _.
Arguments mk_nvlist {V} _ _ _.
Arguments nvl_error {V} _.
Arguments nvl_flags {V} _.
Arguments nvl_head {V} _.

(** [nvp_type] with [nvp_data]. *)
#[warnings="-register-all"]
Inductive nvvalue :=
  | NVNull
  | NVBool (data : Z)
  | NVNumber (data : Z)
  | NVString (s : list Z)
  | NVList (l : nvlist_of nvvalue)
  | NVDescriptor (fd : Z)
  | NVBinary (b : list Z).

Definition nvpair := nvpair_of nvvalue.
Definition nvlist := nvlist_of nvvalue.

Definition NV_TYPE_NONE := 0.
Definition NV_TYPE_NULL := 1.
Definition NV_TYPE_BOOL := 2.
Definition NV_TYPE_NUMBER := 3.
Definition NV_TYPE_STRING := 4.
Definition NV_TYPE_NVLIST := 5.
Definition NV_TYPE_DESCRIPTOR := 6.
Definition NV_TYPE_BINARY := 7.

Definition nvpair_type (p : nvpair) : Z :=
  match nvp_value p with
  | NVNull => NV_TYPE_NULL
  | NVBool _ => NV_TYPE_BOOL
  | NVNumber _ => NV_TYPE_NUMBER
  | NVString _ => NV_TYPE_STRING
  | NVList _ => NV_TYPE_NVLIST
  | NVDescriptor _ => NV_TYPE_DESCRIPTOR
  | NVBinary _ => NV_TYPE_BINARY
  end.

Definition zlen (l : list Z) : Z := Z.of_nat (length l).

(** [nvp_datasize]; that of a nested list is only set when it is packed. *)
Definition nvpair_size (p : nvpair) : Z :=
  match nvp_value p with
  | NVNull => 0
  | NVBool _ => 1
  | NVNumber _ => 8
  | NVString s => zlen s + 1
  | NVList _ => 0
  | NVDescriptor _ => 8
  | NVBinary b => zlen b
  end.

(** ** Lists *)

Definition nvlist_create (flags : Z) : nvres nvlist :=
  _ ← passert (Z.land flags (Z.lnot NV_FLAG_PUBLIC_MASK) =? 0);
  Ok (mk_nvlist 0 flags []).

Definition tolower (c : Z) : Z := if (65 <=? c) && (c <=? 90) then c + 32 else c.

(** strcmp and strcasecmp as equality tests. *)
Definition same_name (flags : Z) (a b : list Z) : bool :=
  if has_flag flags NV_FLAG_IGNORE_CASE then bool_decide (map tolower a = map tolower b)
  else bool_decide (a = b).

Definition matches (flags type : Z) (name : list Z) (p : nvpair) : bool :=
  ((type =? NV_TYPE_NONE) || (nvpair_type p =? type)) && same_name flags (nvp_name p) name.

Fixpoint find_pair (flags type : Z) (name : list Z) (l : list nvpair) : option nvpair :=
  match l with
  | [] => None
  | p :: l => if matches flags type name p then Some p else find_pair flags type name l
  end.

Definition nvlist_findv (nvl : nvlist) (type : Z) (name : list Z) : nvres (option nvpair) :=
  _ ← passert (nvl_error nvl =? 0);
  Ok (find_pair (nvl_flags nvl) type name (nvl_head nvl)).

Definition nvlist_existsv_type (nvl : nvlist) (type : Z) (name : list Z) : nvres bool :=
  p ← nvlist_findv nvl type name;
  Ok (match p with Some _ => true | None => false end).

Definition nvlist_exists (nvl : nvlist) (name : list Z) : nvres bool :=
  nvlist_existsv_type nvl NV_TYPE_NONE name.

Definition nvpair_insert (nvl : nvlist) (p : nvpair) : nvres nvlist :=
  b ← nvlist_exists nvl (nvp_name p);
  _ ← passert (negb b);
  Ok (mk_nvlist (nvl_error nvl) (nvl_flags nvl) (nvl_head nvl ++ [p])).

Definition nvlist_move_nvpair (nvl : nvlist) (p : nvpair) : nvres nvlist :=
  if negb (nvl_error nvl =? 0) then Ok nvl
  else
    b ← nvlist_exists nvl (nvp_name p);
    if (b : bool) then Ok (mk_nvlist EEXIST (nvl_flags nvl) (nvl_head nvl)) else nvpair_insert nvl p.

(** The first pair of the type and name taken off the list. *)
Fixpoint remove_pair (flags type : Z) (name : list Z) (l : list nvpair) : list nvpair :=
  match l with
  | [] => []
  | p :: l => if matches flags type name p then l else p :: remove_pair flags type name l
  end.

Definition nvlist_freev_type (nvl : nvlist) (type : Z) (name : list Z) : nvres nvlist :=
  p ← nvlist_findv nvl type name;
  match p with
  | Some _ => Ok (mk_nvlist (nvl_error nvl) (nvl_flags nvl) (remove_pair (nvl_flags nvl) type name (nvl_head nvl)))
  | None => Abort
  end.

(** nvlist_getv_<type>: the missing element is reported by aborting. *)
Definition nvlist_getv (nvl : nvlist) (type : Z) (name : list Z) : nvres nvvalue :=
  p ← nvlist_findv nvl type name;
  match p with Some p => Ok (nvp_value p) | None => Abort end.

Definition nvlist_takev (nvl : nvlist) (type : Z) (name : list Z) : nvres (nvvalue * nvlist) :=
  p ← nvlist_findv nvl type name;
  match p with
  | Some p => Ok (nvp_value p, mk_nvlist (nvl_error nvl) (nvl_flags nvl)
                                 (remove_pair (nvl_flags nvl) type name (nvl_head nvl)))
  | None => Abort
  end.

(** dnvlist.c *)
Definition dnvlist_getv (nvl : nvlist) (type : Z) (defval : nvvalue) (name : list Z) : nvres nvvalue :=
  b ← nvlist_existsv_type nvl type name;
  if (b : bool) then nvlist_getv nvl type name else Ok defval.

Definition dnvlist_takev (nvl : nvlist) (type : Z) (defval : nvvalue) (name : list Z) : nvres (nvvalue * nvlist) :=
  b ← nvlist_existsv_type nvl type name;
  if (b : bool) then nvlist_takev nvl type name else Ok (defval, nvl).

(** ** Creating pairs *)

Definition nvpair_allocv (v : nvvalue) (name : list Z) : nvres nvpair :=
  _ ← passert (0 <? zlen name);
  _ ← guard (zlen name <? NV_NAME_MAX) ENAMETOOLONG;
  Ok (mk_nvpair name v).

Section host.
(** The descriptor table of the process: [fd_is_valid] and the duplicate
    fcntl(F_DUPFD_CLOEXEC) gives. *)
Context (fd_is_valid : Z -> bool) (dupfd : Z -> nvres Z).

Definition nvpair_createv_null := nvpair_allocv NVNull.
Definition nvpair_createv_bool (value : bool) := nvpair_allocv (NVBool (if value then 1 else 0)).
Definition nvpair_createv_number (value : Z) := nvpair_allocv (NVNumber value).
Definition nvpair_createv_string (value : option (list Z)) (name : list Z) : nvres nvpair :=
  match value with
  | None => Err EINVAL
  | Some s => nvpair_allocv (NVString s) name
  end.
Definition nvpair_createv_descriptor (value : Z) (name : list Z) : nvres nvpair :=
  _ ← guard (negb ((value <? 0) || negb (fd_is_valid value))) EBADF;
  value ← dupfd value;
  nvpair_allocv (NVDescriptor value) name.
Definition nvpair_createv_binary (value : option (list Z)) (name : list Z) : nvres nvpair :=
  match value with
  | None => Err EINVAL
  | Some b => _ ← guard (negb (zlen b =? 0)) EINVAL; nvpair_allocv (NVBinary b) name
  end.

(** nvpair_movev_string, nvpair_movev_nvlist, nvpair_movev_descriptor,
    nvpair_movev_binary: the value itself is taken over. *)
Definition nvpair_movev_string (value : option (list Z)) (name : list Z) : nvres nvpair :=
  match value with None => Err EINVAL | Some s => nvpair_allocv (NVString s) name end.
Definition nvpair_movev_nvlist (value : option nvlist) (name : list Z) : nvres nvpair :=
  match value with None => Err EINVAL | Some l => nvpair_allocv (NVList l) name end.
Definition nvpair_movev_descriptor (value : Z) (name : list Z) : nvres nvpair :=
  _ ← guard (negb ((value <? 0) || negb (fd_is_valid value))) EBADF;
  nvpair_allocv (NVDescriptor value) name.
Definition nvpair_movev_binary (value : option (list Z)) (name : list Z) : nvres nvpair :=
  match value with
  | None => Err EINVAL
  | Some b => _ ← guard (negb (zlen b =? 0)) EINVAL; nvpair_allocv (NVBinary b) name
  end.

(** nvpair_clone, nvpair_createv_nvlist and nvlist_clone. *)
Fixpoint nvpair_clone_value (v : nvvalue) (name : list Z) {struct v} : nvres nvpair :=
  match v with
  | NVNull => nvpair_createv_null name
  | NVBool b => nvpair_createv_bool (b =? 1) name
  | NVNumber n => nvpair_createv_number n name
  | NVString s => nvpair_createv_string (Some s) name
  | NVDescriptor fd => nvpair_createv_descriptor fd name
  | NVBinary b => nvpair_createv_binary (Some b) name
  | NVList (mk_nvlist err flags head) =>
      if negb (err =? 0) then Err err
      else
        newnvl ← nvlist_create (Z.land flags NV_FLAG_PUBLIC_MASK);
        newnvl ← (fix clone_pairs (newnvl : nvlist) (l : list (nvpair_of nvvalue)) {struct l} : nvres nvlist :=
          match l with
          | [] => Ok newnvl
          | mk_nvpair n v :: l =>
              newnvp ← nvpair_clone_value v n;
              newnvl ← nvlist_move_nvpair newnvl newnvp;
              clone_pairs newnvl l
          end) newnvl head;
        nvpair_allocv (NVList newnvl) name
  end.

Definition nvpair_clone (p : nvpair) : nvres nvpair := nvpair_clone_value (nvp_value p) (nvp_name p).

Fixpoint clone_pairs (newnvl : nvlist) (l : list nvpair) : nvres nvlist :=
  match l with
  | [] => Ok newnvl
  | p :: l =>
      newnvp ← nvpair_clone p;
      newnvl ← nvlist_move_nvpair newnvl newnvp;
      clone_pairs newnvl l
  end.

Definition nvlist_clone (nvl : nvlist) : nvres nvlist :=
  if negb (nvl_error nvl =? 0) then Err (nvl_error nvl)
  else
    newnvl ← nvlist_create (Z.land (nvl_flags nvl) NV_FLAG_PUBLIC_MASK);
    clone_pairs newnvl (nvl_head nvl).

Definition nvpair_createv_nvlist (value : option nvlist) (name : list Z) : nvres nvpair :=
  match value with
  | None => Err EINVAL
  | Some l => l ← nvlist_clone l; nvpair_allocv (NVList l) name
  end.

(** nvlist_addv_<type> and nvlist_movev_<type> with the pair that
    nvpair_createv_<type> or nvpair_movev_<type> gives: a failure is recorded in
    the list. *)
Definition nvlist_addv (nvl : nvlist) (nvp : nvres nvpair) : nvres nvlist :=
  if negb (nvl_error nvl =? 0) then Ok nvl
  else
    match nvp with
    | Ok p => nvlist_move_nvpair nvl p
    | Err e => Ok (mk_nvlist e (nvl_flags nvl) (nvl_head nvl))
    | Abort => Abort
    end.

Definition nvlist_add_nvpair (nvl : nvlist) (p : nvpair) : nvres nvlist :=
  if negb (nvl_error nvl =? 0) then Ok nvl
  else
    b ← nvlist_exists nvl (nvp_name p);
    if (b : bool) then Ok (mk_nvlist EEXIST (nvl_flags nvl) (nvl_head nvl))
    else
      match nvpair_clone p with
      | Ok p => nvpair_insert nvl p
      | Err e => Ok (mk_nvlist e (nvl_flags nvl) (nvl_head nvl))
      | Abort => Abort
      end.

End host.

(** ** The packed form *)

(** The bytes of an [n]-byte integer in memory, and back. *)
Fixpoint le_encode (n : nat) (x : Z) : list Z :=
  match n with O => [] | S n => x mod 256 :: le_encode n (x / 256) end.
Fixpoint le_decode (l : list Z) : Z :=
  match l with [] => 0 | b :: l => b + 256 * le_decode l end.

(** be16toh, be64toh, be64dec or le64dec, as the flags of the packed list say. *)
Definition decode (flags : Z) (l : list Z) : Z :=
  if has_flag flags NV_FLAG_BIG_ENDIAN then le_decode (rev l) else le_decode l.

Definition nvpair_header_size := 11.
Definition nvlist_header_size := 19.

(** The recursive functions assert [level < 3]; [room] is [3 - level]. *)
Fixpoint nvlist_xsize (room : nat) (nvl : nvlist) : nvres Z :=
  match room with
  | O => Abort
  | S room =>
      _ ← passert (nvl_error nvl =? 0);
      fold_left (fun acc p =>
        size ← acc;
        d ← match nvp_value p with NVList l => nvlist_xsize room l | _ => Ok (nvpair_size p) end;
        Ok (size + (nvpair_header_size + (zlen (nvp_name p) + 1) + d)))
        (nvl_head nvl) (Ok nvlist_header_size)
  end.
Definition nvlist_size (nvl : nvlist) : nvres Z := nvlist_xsize 3 nvl.

Fixpoint nvlist_xdescriptors (room : nat) (nvl : nvlist) : nvres (list Z) :=
  match room with
  | O => Abort
  | S room =>
      _ ← passert (nvl_error nvl =? 0);
      fold_left (fun acc p =>
        descs ← acc;
        match nvp_value p with
        | NVDescriptor fd => Ok (descs ++ [fd])
        | NVList l => d ← nvlist_xdescriptors room l; Ok (descs ++ d)
        | _ => Ok descs
        end) (nvl_head nvl) (Ok [])
  end.

Fixpoint nvlist_xndescriptors (room : nat) (nvl : nvlist) : nvres Z :=
  match room with
  | O => Abort
  | S room =>
      _ ← passert (nvl_error nvl =? 0);
      fold_left (fun acc p =>
        ndescs ← acc;
        match nvp_value p with
        | NVDescriptor fd => Ok (ndescs + 1)
        | NVList l => d ← nvlist_xndescriptors room l; Ok (ndescs + d)
        | _ => Ok ndescs
        end) (nvl_head nvl) (Ok 0)
  end.
Definition nvlist_ndescriptors (nvl : nvlist) : nvres Z := nvlist_xndescriptors 3 nvl.

(** [fds] with [nitems]; the array is one longer, closed by -1. *)
Definition nvlist_descriptors (nvl : nvlist) : nvres (list Z) :=
  nitems ← nvlist_ndescriptors nvl;
  if 0 <? nitems then nvlist_xdescriptors 3 nvl else Ok [].

(** The buffer being filled: the bytes written up to [ptr], [*fdidxp] ([None]
    when [fdidxp] is NULL) and [*leftp]. *)
Record packing := mk_packing {
  pk_out : list Z;
  pk_fdidx : option Z;
  pk_left : Z }.

(** [PJDLOG_ASSERT( *leftp >= n); memcpy(ptr, data, n); ptr += n; *leftp -= n] *)
Definition put (data : list Z) (st : packing) : nvres packing :=
  _ ← passert (zlen data <=? pk_left st);
  Ok (mk_packing (pk_out st ++ data) (pk_fdidx st) (pk_left st - zlen data)).

Definition nvpair_pack_header (p : nvpair) (datasize : Z) (st : packing) : nvres packing :=
  let namesize := zlen (nvp_name p) + 1 in
  _ ← passert ((0 <? namesize) && (namesize <=? 65535));
  st ← put (nvpair_type p :: le_encode 2 namesize ++ le_encode 8 datasize) st;
  put (nvp_name p ++ [0]) st.

Definition nvpair_pack_descriptor (fd : Z) (st : packing) : nvres packing :=
  if fd =? -1 then put (le_encode 8 (u64 fd)) st
  else
    match pk_fdidx st with
    | None => Abort
    | Some idx => put (le_encode 8 (u64 idx)) (mk_packing (pk_out st) (Some (idx + 1)) (pk_left st))
    end.

Record nvlist_header := mk_header {
  nvlh_magic : Z;
  nvlh_version : Z;
  nvlh_flags : Z;
  nvlh_descriptors : Z;
  nvlh_size : Z }.

Definition header_bytes (h : nvlist_header) : list Z :=
  [nvlh_magic h; nvlh_version h; nvlh_flags h] ++ le_encode 8 (nvlh_descriptors h) ++ le_encode 8 (nvlh_size h).
Definition header_of_bytes (l : list Z) : nvlist_header :=
  mk_header (nth 0 l 0) (nth 1 l 0) (nth 2 l 0) (le_decode (take 8 (drop 3 l))) (le_decode (take 8 (drop 11 l))).

Definition NVLIST_HEADER_MAGIC := 108.
Definition NVLIST_HEADER_VERSION := 0.

Definition nvlist_pack_header (nvl : nvlist) (st : packing) : nvres packing :=
  ndescs ← nvlist_ndescriptors nvl;
  put (header_bytes (mk_header NVLIST_HEADER_MAGIC NVLIST_HEADER_VERSION (nvl_flags nvl) ndescs
                       (u64 (pk_left st - nvlist_header_size)))) st.

Definition nvpair_pack (xpack : nvlist -> option Z -> nvres (list Z * option Z)) (p : nvpair) (st : packing)
  : nvres packing :=
  datasize ← match nvp_value p with NVList l => nvlist_size l | _ => Ok (nvpair_size p) end;
  st ← nvpair_pack_header p datasize st;
  match nvp_value p with
  | NVNull => Ok st
  | NVBool v => put [u8 v] st
  | NVNumber v => put (le_encode 8 (u64 v)) st
  | NVString s => put (s ++ [0]) st
  | NVList l =>
      if datasize =? 0 then Ok st
      else
        '(data, fdidx) ← xpack l (pk_fdidx st);
        _ ← passert (zlen data =? datasize);
        put data (mk_packing (pk_out st) fdidx (pk_left st))
  | NVDescriptor fd => nvpair_pack_descriptor fd st
  | NVBinary b => put b st
  end.

(** The recursion of nvlist_xpack into nested lists; nvlist_size has asserted
    at most three levels when it starts, so [fuel] = 3 is enough. *)
Fixpoint nvlist_xpack_fuel (fuel : nat) (nvl : nvlist) (fdidx : option Z) : nvres (list Z * option Z) :=
  match fuel with
  | O => Abort
  | S fuel =>
      if negb (nvl_error nvl =? 0) then Err (nvl_error nvl)
      else
        size ← nvlist_size nvl;
        st ← nvlist_pack_header nvl (mk_packing [] fdidx size);
        st ← fold_left (fun acc p => st ← acc; nvpair_pack (nvlist_xpack_fuel fuel) p st) (nvl_head nvl) (Ok st);
        Ok (pk_out st, pk_fdidx st)
  end.

Definition nvlist_xpack (nvl : nvlist) (fdidx : option Z) : nvres (list Z * option Z) :=
  nvlist_xpack_fuel 3 nvl fdidx.

Definition nvlist_pack (nvl : nvlist) : nvres (list Z) :=
  if negb (nvl_error nvl =? 0) then Err (nvl_error nvl)
  else
    n ← nvlist_ndescriptors nvl;
    if 0 <? n then Err EOPNOTSUPP
    else '(data, _) ← nvlist_xpack nvl None; Ok data.

(** ** Unpacking *)

(** Reading [n] bytes at [ptr]; the list is what is left of the buffer. *)
Definition rd (n : Z) (l : list Z) : nvres (list Z * list Z) :=
  _ ← passert ((0 <=? n) && (n <=? zlen l));
  Ok (take (Z.to_nat n) l, drop (Z.to_nat n) l).

Fixpoint strlen_to_nul (l : list Z) : Z :=
  match l with [] => 0 | c :: l => if c =? 0 then 0 else 1 + strlen_to_nul l end.
Definition strnlen (l : list Z) (n : Z) : nvres Z :=
  '(s, _) ← rd n l;
  Ok (strlen_to_nul s).

Definition bswap64 (x : Z) : Z := le_decode (rev (le_encode 8 x)).

Definition nvlist_check_header (h : nvlist_header) : nvres nvlist_header :=
  _ ← guard (nvlh_magic h =? NVLIST_HEADER_MAGIC) EINVAL;
  _ ← guard (Z.land (nvlh_flags h) (Z.lnot NV_FLAG_ALL_MASK) =? 0) EINVAL;
  Ok (if has_flag (nvlh_flags h) NV_FLAG_BIG_ENDIAN
      then mk_header (nvlh_magic h) (nvlh_version h) (nvlh_flags h) (bswap64 (nvlh_descriptors h)) (bswap64 (nvlh_size h))
      else h).

(** The public flags, the flags, what follows the header. *)
Definition nvlist_unpack_header (l : list Z) (nfds : Z) : nvres (Z * Z * list Z) :=
  _ ← guard (nvlist_header_size <=? zlen l) EINVAL;
  '(hdr, rest) ← rd nvlist_header_size l;
  h ← nvlist_check_header (header_of_bytes hdr);
  _ ← guard (nvlh_size h =? zlen l - nvlist_header_size) EINVAL;
  _ ← guard (nvlh_descriptors h <=? nfds) EINVAL;
  _ ← guard (Z.land (nvlh_flags h) (Z.lnot NV_FLAG_ALL_MASK) =? 0) EINVAL;
  Ok (Z.land (nvlh_flags h) NV_FLAG_PUBLIC_MASK, nvlh_flags h, rest).

(** The type, the name, the data size, what follows. *)
Definition nvpair_unpack_header (flags : Z) (l : list Z) : nvres (Z * list Z * Z * list Z) :=
  _ ← guard (nvpair_header_size <=? zlen l) EINVAL;
  '(hdr, l) ← rd nvpair_header_size l;
  let type := nth 0 hdr 0 in
  let namesize := decode flags (take 2 (drop 1 hdr)) in
  let datasize := decode flags (take 8 (drop 3 hdr)) in
  _ ← guard (NV_TYPE_NULL <=? type) EINVAL;
  _ ← guard (type <=? NV_TYPE_BINARY) EINVAL;
  _ ← guard (namesize <=? NV_NAME_MAX) EINVAL;
  _ ← guard (namesize <=? zlen l) EINVAL;
  _ ← guard (1 <=? namesize) EINVAL;
  n ← strnlen l namesize;
  _ ← guard (n =? namesize - 1) EINVAL;
  '(name, l) ← rd namesize l;
  _ ← guard (datasize <=? zlen l) EINVAL;
  Ok (type, take (Z.to_nat (namesize - 1)) name, datasize, l).

Section unpack.
Context (fds : list Z) (unpack_nested : list Z -> nvres nvlist).

Definition nvpair_unpack_bool (datasize : Z) (l : list Z) : nvres (nvvalue * list Z) :=
  _ ← guard (datasize =? 1) EINVAL;
  _ ← guard (1 <=? zlen l) EINVAL;
  '(v, l) ← rd 1 l;
  let value := le_decode v in
  _ ← guard ((value =? 0) || (value =? 1)) EINVAL;
  Ok (NVBool value, l).

Definition nvpair_unpack_number (flags datasize : Z) (l : list Z) : nvres (nvvalue * list Z) :=
  _ ← guard (datasize =? 8) EINVAL;
  _ ← guard (8 <=? zlen l) EINVAL;
  '(v, l) ← rd 8 l;
  Ok (NVNumber (decode flags v), l).

Definition nvpair_unpack_string (datasize : Z) (l : list Z) : nvres (nvvalue * list Z) :=
  _ ← guard (negb ((zlen l <? datasize) || (datasize =? 0))) EINVAL;
  n ← strnlen l datasize;
  _ ← guard (n =? datasize - 1) EINVAL;
  '(s, l) ← rd datasize l;
  Ok (NVString (take (Z.to_nat (datasize - 1)) s), l).

Definition nvpair_unpack_nvlist (datasize : Z) (l : list Z) : nvres (nvvalue * list Z) :=
  _ ← guard (negb ((zlen l <? datasize) || (datasize =? 0))) EINVAL;
  '(data, l) ← rd datasize l;
  value ← unpack_nested data;
  Ok (NVList value, l).

Definition nvpair_unpack_descriptor (flags datasize : Z) (l : list Z) : nvres (nvvalue * list Z) :=
  _ ← guard (datasize =? 8) EINVAL;
  _ ← guard (8 <=? zlen l) EINVAL;
  '(v, l) ← rd 8 l;
  let idx := s64 (decode flags v) in
  _ ← guard (0 <=? idx) EINVAL;
  match fds !! Z.to_nat idx with
  | None => Err EINVAL
  | Some fd => Ok (NVDescriptor fd, l)
  end.

Definition nvpair_unpack_binary (datasize : Z) (l : list Z) : nvres (nvvalue * list Z) :=
  _ ← guard (negb ((zlen l <? datasize) || (datasize =? 0))) EINVAL;
  '(b, l) ← rd datasize l;
  Ok (NVBinary b, l).

Definition nvpair_unpack (flags : Z) (l : list Z) : nvres (nvpair * list Z) :=
  '(type, name, datasize, l) ← nvpair_unpack_header flags l;
  '(v, l) ← (if type =? NV_TYPE_NULL then _ ← guard (datasize =? 0) EINVAL; Ok (NVNull, l)
             else if type =? NV_TYPE_BOOL then nvpair_unpack_bool datasize l
             else if type =? NV_TYPE_NUMBER then nvpair_unpack_number flags datasize l
             else if type =? NV_TYPE_STRING then nvpair_unpack_string datasize l
             else if type =? NV_TYPE_NVLIST then nvpair_unpack_nvlist datasize l
             else if type =? NV_TYPE_DESCRIPTOR then nvpair_unpack_descriptor flags datasize l
             else if type =? NV_TYPE_BINARY then nvpair_unpack_binary datasize l
             else Abort);
  Ok (mk_nvpair name v, l).

(** [while (left > 0)]; every pair takes bytes, so [fuel] is their number. *)
Fixpoint unpack_pairs (fuel : nat) (flags : Z) (l : list Z) (nvl : nvlist) : nvres nvlist :=
  match l, fuel with
  | [], _ => Ok nvl
  | _, O => Abort
  | _, S fuel =>
      '(p, l) ← nvpair_unpack flags l;
      nvl ← nvlist_move_nvpair nvl p;
      unpack_pairs fuel flags l nvl
  end.

End unpack.

(** A nested list is shorter than the list it is in: [fuel] is the length of
    the buffer. *)
Fixpoint nvlist_xunpack_fuel (fuel : nat) (fds : list Z) (l : list Z) : nvres nvlist :=
  match fuel with
  | O => Abort
  | S fuel =>
      nvl ← nvlist_create 0;
      '(pub, flags, rest) ← nvlist_unpack_header l (zlen fds);
      unpack_pairs fds (nvlist_xunpack_fuel fuel fds) (length rest) flags rest
        (mk_nvlist (nvl_error nvl) pub (nvl_head nvl))
  end.

Definition nvlist_xunpack (l : list Z) (fds : list Z) : nvres nvlist :=
  nvlist_xunpack_fuel (S (length l)) fds l.

Definition nvlist_unpack (l : list Z) : nvres nvlist := nvlist_xunpack l [].

(** ** Over a socket *)

(** What goes into the socket: the packed list, then its descriptors. *)
Definition nvlist_send (nvl : nvlist) : nvres (list Z * list Z) :=
  if negb (nvl_error nvl =? 0) then Err (nvl_error nvl)
  else
    fds ← nvlist_descriptors nvl;
    '(data, _) ← nvlist_xpack nvl (Some 0);
    Ok (data, fds).

(** [data] and [fds]: what the peer sent; [ENOTCONN] when buf_recv meets the
    end of the stream, [EINVAL] when fewer descriptors than announced arrive.
    The header is copied into the buffer of [size] bytes without a check:
    [Abort] when it does not fit. *)
Definition nvlist_recv (data fds : list Z) : nvres nvlist :=
  _ ← guard (nvlist_header_size <=? zlen data) ENOTCONN;
  '(hdr, rest) ← rd nvlist_header_size data;
  h ← nvlist_check_header (header_of_bytes hdr);
  let nfds := nvlh_descriptors h in
  let size := u64 (nvlist_header_size + nvlh_size h) in
  _ ← passert (nvlist_header_size <=? size);
  _ ← guard (size - nvlist_header_size <=? zlen rest) ENOTCONN;
  _ ← guard (nfds <=? zlen fds) EINVAL;
  nvlist_xunpack (header_bytes h ++ take (Z.to_nat (size - nvlist_header_size)) rest) (take (Z.to_nat nfds) fds).

(** ** The wire format, as a specification *)

Definition value_type (v : nvvalue) : Z := nvpair_type (mk_nvpair [] v).

Fixpoint value_size (v : nvvalue) : Z :=
  match v with
  | NVList (mk_nvlist _ _ head) =>
      nvlist_header_size +
      (fix go (l : list (nvpair_of nvvalue)) : Z :=
         match l with
         | [] => 0
         | mk_nvpair n v :: l => nvpair_header_size + (zlen n + 1) + value_size v + go l
         end) head
  | _ => nvpair_size (mk_nvpair [] v)
  end.

(** The descriptors of a value, in order. *)
Fixpoint value_descs (v : nvvalue) : list Z :=
  match v with
  | NVDescriptor fd => [fd]
  | NVList (mk_nvlist _ _ head) =>
      (fix go (l : list (nvpair_of nvvalue)) : list Z :=
         match l with [] => [] | mk_nvpair _ v :: l => value_descs v ++ go l end) head
  | _ => []
  end.

(** The bytes of a value whose first descriptor has the index [idx]. *)
Fixpoint value_bytes (idx : Z) (v : nvvalue) {struct v} : list Z :=
  match v with
  | NVNull => []
  | NVBool b => [b]
  | NVNumber n => le_encode 8 n
  | NVString s => s ++ [0]
  | NVDescriptor _ => le_encode 8 idx
  | NVBinary b => b
  | NVList (mk_nvlist err flags head as l) =>
      header_bytes (mk_header NVLIST_HEADER_MAGIC NVLIST_HEADER_VERSION flags
                      (zlen (value_descs (NVList l))) (value_size (NVList l) - nvlist_header_size)) ++
      (fix go (idx : Z) (l : list (nvpair_of nvvalue)) : list Z :=
         match l with
         | [] => []
         | mk_nvpair n v :: l =>
             (value_type v :: le_encode 2 (zlen n + 1) ++ le_encode 8 (value_size v)) ++ (n ++ [0]) ++
             value_bytes idx v ++ go (idx + zlen (value_descs v)) l
         end) idx head
  end.

Fixpoint pairs_size (l : list nvpair) : Z :=
  match l with
  | [] => 0
  | p :: l => nvpair_header_size + (zlen (nvp_name p) + 1) + value_size (nvp_value p) + pairs_size l
  end.
Fixpoint pairs_descs (l : list nvpair) : list Z :=
  match l with [] => [] | p :: l => value_descs (nvp_value p) ++ pairs_descs l end.

Definition pair_bytes (idx : Z) (p : nvpair) : list Z :=
  (value_type (nvp_value p) :: le_encode 2 (zlen (nvp_name p) + 1) ++ le_encode 8 (value_size (nvp_value p))) ++
  (nvp_name p ++ [0]) ++ value_bytes idx (nvp_value p).
Fixpoint pairs_bytes (idx : Z) (l : list nvpair) : list Z :=
  match l with
  | [] => []
  | p :: l => pair_bytes idx p ++ pairs_bytes (idx + zlen (value_descs (nvp_value p))) l
  end.

Definition list_size (nvl : nvlist) : Z := nvlist_header_size + pairs_size (nvl_head nvl).
Definition list_descs (nvl : nvlist) : list Z := pairs_descs (nvl_head nvl).
Definition list_header (nvl : nvlist) : list Z :=
  header_bytes (mk_header NVLIST_HEADER_MAGIC NVLIST_HEADER_VERSION (nvl_flags nvl)
                  (zlen (list_descs nvl)) (pairs_size (nvl_head nvl))).
Definition list_bytes (idx : Z) (nvl : nvlist) : list Z := list_header nvl ++ pairs_bytes idx (nvl_head nvl).

Lemma value_size_list l : value_size (NVList l) = list_size l.
Proof.
  destruct l as [err flags head]. unfold list_size. cbn [value_size nvl_head]. f_equal.
  induction head as [|[n v] head IH]; [reflexivity|]. cbn [pairs_size nvp_name nvp_value]. rewrite <- IH. reflexivity.
Qed.

Lemma value_descs_list l : value_descs (NVList l) = list_descs l.
Proof.
  destruct l as [err flags head]. unfold list_descs. cbn [value_descs nvl_head].
  induction head as [|[n v] head IH]; [reflexivity|]. cbn [pairs_descs nvp_value]. rewrite <- IH. reflexivity.
Qed.

Lemma value_bytes_list idx l : value_bytes idx (NVList l) = list_bytes idx l.
Proof.
  destruct l as [err flags head] eqn:El. unfold list_bytes, list_header. cbn [nvl_head nvl_flags].
  change (value_bytes idx (NVList (mk_nvlist err flags head))) with
    (header_bytes (mk_header NVLIST_HEADER_MAGIC NVLIST_HEADER_VERSION flags
                      (zlen (value_descs (NVList (mk_nvlist err flags head))))
                      (value_size (NVList (mk_nvlist err flags head)) - nvlist_header_size)) ++
      (fix go (idx : Z) (l : list (nvpair_of nvvalue)) : list Z :=
         match l with
         | [] => []
         | mk_nvpair n v :: l =>
             (value_type v :: le_encode 2 (zlen n + 1) ++ le_encode 8 (value_size v)) ++ (n ++ [0]) ++
             value_bytes idx v ++ go (idx + zlen (value_descs v)) l
         end) idx head).
  rewrite value_size_list, value_descs_list. unfold list_size. cbn [nvl_head].
  replace (nvlist_header_size + pairs_size head - nvlist_header_size) with (pairs_size head) by lia. f_equal.
  clear El. revert idx. induction head as [|[n v] head IH]; intros idx; [reflexivity|].
  rewrite IH. cbn [pairs_bytes nvp_value]. unfold pair_bytes. cbn [nvp_name nvp_value]. rewrite <- !app_assoc. reflexivity.
Qed.

(** ** Well-formed lists *)

Definition name_ok (n : list Z) : Prop := Forall (fun c => 1 <= c < 256) n /\ zlen n < NV_NAME_MAX.

Definition distinct (flags : Z) (l : list nvpair) : Prop :=
  ForallOrdPairs (fun p q => same_name flags (nvp_name p) (nvp_name q) = false) l.

(** A value as the functions of nvpair.c make it; [sub] for nested lists. *)
Definition wf_value (sub : nvlist -> Prop) (v : nvvalue) : Prop :=
  match v with
  | NVNull => True
  | NVBool b => b = 0 \/ b = 1
  | NVNumber n => 0 <= n < 2 ^ 64
  | NVString s => Forall (fun c => 1 <= c < 256) s
  | NVList l => sub l
  | NVDescriptor fd => 0 <= fd
  | NVBinary b => b <> [] /\ Forall is_byte b
  end.

(** [strict]: no nested list carries an error; [room] bounds the nesting. *)
Fixpoint wf_list (strict : bool) (room : nat) (nvl : nvlist) : Prop :=
  match room with
  | O => False
  | S room =>
      (nvl_error nvl = 0 \/ strict = false /\ nvl_error nvl = EEXIST) /\
      (nvl_flags nvl = 0 \/ nvl_flags nvl = 1) /\
      distinct (nvl_flags nvl) (nvl_head nvl) /\
      Forall (fun p => name_ok (nvp_name p) /\
        wf_value (wf_list strict room) (nvp_value p)) (nvl_head nvl)
  end.

(** ** Integers in memory *)

Lemma le_encode_length n x : length (le_encode n x) = n.
Proof. revert x. induction n as [|n IH]; intros x; [reflexivity|]. cbn [le_encode length]. rewrite IH. reflexivity. Qed.

Lemma le_encode_bytes n x : Forall is_byte (le_encode n x).
Proof. revert x. induction n as [|n IH]; intros x; constructor; [unfold is_byte; apply Z.mod_pos_bound; lia|apply IH]. Qed.

Lemma le_decode_encode n x : 0 <= x < 256 ^ Z.of_nat n -> le_decode (le_encode n x) = x.
Proof.
  revert x. induction n as [|n IH]; intros x Hx; cbn [le_encode le_decode]; [cbn in Hx; lia|].
  rewrite IH; [pose proof (Z.div_mod x 256); lia|]. replace (Z.of_nat (S n)) with (Z.of_nat n + 1) in Hx by lia.
  rewrite Z.pow_add_r in Hx by lia. change (256 ^ 1) with 256 in Hx. split; [apply Z.div_pos; lia|apply Z.div_lt_upper_bound; lia].
Qed.

Lemma le_decode_bounds l : Forall is_byte l -> 0 <= le_decode l < 256 ^ zlen l.
Proof.
  unfold zlen. induction 1 as [|b l Hb Hl IH]; [cbn; lia|]. cbn [le_decode length]. unfold is_byte in Hb.
  replace (Z.of_nat (S (length l))) with (Z.of_nat (length l) + 1) by lia. rewrite Z.pow_add_r by lia.
  change (256 ^ 1) with 256. lia.
Qed.

Lemma zlen_app a b : zlen (a ++ b) = zlen a + zlen b.
Proof. unfold zlen. rewrite length_app. lia. Qed.
Lemma zlen_cons x l : zlen (x :: l) = 1 + zlen l.
Proof. unfold zlen. cbn [length]. lia. Qed.
Lemma zlen_nonneg l : 0 <= zlen l.
Proof. unfold zlen. lia. Qed.
Lemma zlen_le_encode n x : zlen (le_encode n x) = Z.of_nat n.
Proof. unfold zlen. rewrite le_encode_length. reflexivity. Qed.

Lemma u64_small x : 0 <= x < 2 ^ 64 -> u64 x = x.
Proof. intros. apply Z.mod_small. assumption. Qed.

Lemma rd_app n a b : zlen a = n -> rd n (a ++ b) = Ok (a, b).
Proof.
  intros H. unfold rd. rewrite zlen_app. pose proof (zlen_nonneg a). pose proof (zlen_nonneg b).
  destruct (Z.leb_spec 0 n), (Z.leb_spec n (zlen a + zlen b)); try lia. cbn.
  rewrite take_app_length', drop_app_length'; [reflexivity| |]; unfold zlen in H; lia.
Qed.

Lemma strlen_nul a : Forall (fun c => 1 <= c < 256) a -> forall b, strlen_to_nul (a ++ 0 :: b) = zlen a.
Proof.
  induction 1 as [|c a Hc Ha IH]; intros b; [reflexivity|]. cbn [app strlen_to_nul]. rewrite IH, zlen_cons.
  destruct (Z.eqb_spec c 0); lia.
Qed.

(** ** Packing computes the wire format *)

Lemma wf_list_mono s room room' nvl : (room <= room')%nat -> wf_list s room nvl -> wf_list s room' nvl.
Proof.
  revert room' nvl. induction room as [|room IH]; intros room' nvl Hr H; [destruct H|].
  destruct room' as [|room']; [lia|]. cbn [wf_list] in *. destruct H as (H1 & H2 & H3 & H4).
  split; [exact H1|]. split; [exact H2|]. split; [exact H3|]. eapply Forall_impl; [exact H4|].
  intros p [Hn Hv]. split; [exact Hn|]. destruct (nvp_value p); auto. apply IH; [lia|exact Hv].
Qed.

(** A loop over the pairs of a list that accumulates a sum. *)
Lemma fold_sum {A} (plus : A -> A -> A) (f : nvpair -> nvres A) (g : nvpair -> A) (l : list nvpair) a0
  (step : nvres A -> nvpair -> nvres A) :
  (forall a p, step (Ok a) p = (d ← f p; Ok (plus a d))) -> Forall (fun p => f p = Ok (g p)) l ->
  fold_left step l (Ok a0) = Ok (fold_left (fun a p => plus a (g p)) l a0).
Proof.
  intros Hs H. revert a0. induction H as [|p l Hp Hl IH]; intros a0; [reflexivity|].
  cbn [fold_left]. rewrite Hs, Hp. cbn. apply IH.
Qed.

Lemma xsize_spec room : forall r nvl, wf_list true room nvl -> (room <= r)%nat -> nvlist_xsize r nvl = Ok (list_size nvl).
Proof.
  induction room as [|room IH]; intros r nvl H Hr; [destruct H|]. destruct r as [|r]; [lia|].
  cbn [wf_list] in H. destruct H as ([H1|[H1 _]] & _ & _ & H4); [|discriminate]. cbn [nvlist_xsize]. rewrite H1. cbn.
  rewrite (fold_sum Z.add
    (fun p => d ← match nvp_value p with NVList l => nvlist_xsize r l | _ => Ok (nvpair_size p) end;
              Ok (nvpair_header_size + (zlen (nvp_name p) + 1) + d))
    (fun p => nvpair_header_size + (zlen (nvp_name p) + 1) + value_size (nvp_value p))).
  - f_equal. unfold list_size. generalize nvlist_header_size. clear. induction (nvl_head nvl) as [|p l IH]; intros z; cbn; [lia|].
    rewrite IH. lia.
  - intros a p. destruct (nvp_value p); cbn; try reflexivity. destruct (nvlist_xsize r l); reflexivity.
  - eapply Forall_impl; [exact H4|]. intros p [_ Hv]. destruct (nvp_value p) eqn:E; unfold nvpair_size; rewrite ?E; try reflexivity.
    rewrite (IH r l Hv) by lia. rewrite value_size_list. reflexivity.
Qed.

Lemma xdescs_spec room : forall r nvl, wf_list true room nvl -> (room <= r)%nat ->
  nvlist_xdescriptors r nvl = Ok (list_descs nvl) /\ nvlist_xndescriptors r nvl = Ok (zlen (list_descs nvl)).
Proof.
  induction room as [|room IH]; intros r nvl H Hr; [destruct H|]. destruct r as [|r]; [lia|].
  cbn [wf_list] in H. destruct H as ([H1|[H1 _]] & _ & _ & H4); [|discriminate].
  cbn [nvlist_xdescriptors nvlist_xndescriptors]. rewrite H1. cbn. split.
  - rewrite (fold_sum (@app Z)
      (fun p => match nvp_value p with NVDescriptor fd => Ok [fd] | NVList l => nvlist_xdescriptors r l | _ => Ok [] end)
      (fun p => value_descs (nvp_value p))).
    + f_equal. unfold list_descs. rewrite <- (app_nil_l (pairs_descs _)). generalize (@nil Z). clear.
      induction (nvl_head nvl) as [|p l IH]; intros z; cbn; [rewrite app_nil_r; reflexivity|]. rewrite IH, app_assoc. reflexivity.
    + intros a p. destruct (nvp_value p); cbn; rewrite ?app_nil_r; reflexivity.
    + eapply Forall_impl; [exact H4|]. intros p [_ Hv]. destruct (nvp_value p) eqn:E; try reflexivity.
      rewrite (proj1 (IH r l Hv ltac:(lia))), value_descs_list. reflexivity.
  - rewrite (fold_sum Z.add
      (fun p => match nvp_value p with NVDescriptor fd => Ok 1 | NVList l => nvlist_xndescriptors r l | _ => Ok 0 end)
      (fun p => zlen (value_descs (nvp_value p)))).
    + f_equal. unfold list_descs. rewrite <- (Z.add_0_l (zlen _)). generalize 0. clear.
      induction (nvl_head nvl) as [|p l IH]; intros z; cbn; [unfold zlen; cbn; lia|]. rewrite IH, zlen_app. lia.
    + intros a p. destruct (nvp_value p); cbn; rewrite ?Z.add_0_r; reflexivity.
    + eapply Forall_impl; [exact H4|]. intros p [_ Hv]. destruct (nvp_value p) eqn:E; try reflexivity.
      rewrite (proj2 (IH r l Hv ltac:(lia))), value_descs_list. reflexivity.
Qed.

Lemma zlen_header h : zlen (header_bytes h) = nvlist_header_size.
Proof. unfold header_bytes. rewrite !zlen_app, !zlen_le_encode. reflexivity. Qed.

Lemma sizes_nonneg room : forall nvl, wf_list true room nvl ->
  0 <= pairs_size (nvl_head nvl) /\ zlen (list_descs nvl) <= pairs_size (nvl_head nvl) /\
  Forall (fun p => 0 <= value_size (nvp_value p) <= pairs_size (nvl_head nvl) /\
                   zlen (value_descs (nvp_value p)) <= value_size (nvp_value p)) (nvl_head nvl).
Proof.
  induction room as [|room IH]; intros nvl H; [destruct H|]. cbn [wf_list] in H. destruct H as (_ & _ & _ & H4).
  assert (Forall (fun p => 0 <= value_size (nvp_value p) /\ zlen (value_descs (nvp_value p)) <= value_size (nvp_value p)) (nvl_head nvl)) as Hv.
  { eapply Forall_impl; [exact H4|]. intros p [_ Hv]. destruct (nvp_value p) eqn:E; cbn -[value_size value_descs]; try (cbn; unfold zlen; cbn; lia).
    rewrite value_size_list, value_descs_list. destruct (IH l Hv) as (A1 & A2 & _). unfold list_size, nvlist_header_size. lia. }
  unfold list_descs. clear H4 IH. induction Hv as [|p l [V1 V2] Hv IH]; cbn [pairs_size pairs_descs]; [split; [lia|]; split; [unfold zlen; cbn; lia|constructor]|].
  destruct IH as (B1 & B2 & B3). pose proof (zlen_nonneg (nvp_name p)). rewrite zlen_app. unfold nvpair_header_size.
  split; [lia|]. split; [lia|]. constructor; [split; lia|]. eapply Forall_impl; [exact B3|]. intros q [Q1 Q2]. lia.
Qed.

Lemma put_ok data st : zlen data <= pk_left st ->
  put data st = Ok (mk_packing (pk_out st ++ data) (pk_fdidx st) (pk_left st - zlen data)).
Proof. intros H. unfold put. destruct (Z.leb_spec (zlen data) (pk_left st)); [reflexivity|lia]. Qed.

(** The descriptor index: [None] is a pack without descriptors. *)
Definition fdidx_at (fi : option Z) (idx : Z) (descs : list Z) : Prop :=
  fi = Some idx \/ fi = None /\ descs = [].
Definition fdidx_add (fi : option Z) (n : Z) : option Z := (fun i => i + n) <$> fi.

Definition packs (xpack : nvlist -> option Z -> nvres (list Z * option Z)) (l : nvlist) : Prop :=
  forall fi idx, fdidx_at fi idx (list_descs l) -> 0 <= idx -> idx + zlen (list_descs l) < 2 ^ 63 ->
  xpack l fi = Ok (list_bytes idx l, fdidx_add fi (zlen (list_descs l))) /\ zlen (list_bytes idx l) = list_size l.

Lemma fdidx_add_0 fi : fdidx_add fi 0 = fi.
Proof. destruct fi; cbn; [rewrite Z.add_0_r|]; reflexivity. Qed.

Lemma pack_pair_spec xpack room p st idx :
  (room <= 3)%nat -> name_ok (nvp_name p) ->
  wf_value (fun l => wf_list true room l /\ packs xpack l) (nvp_value p) ->
  fdidx_at (pk_fdidx st) idx (value_descs (nvp_value p)) -> 0 <= idx ->
  idx + zlen (value_descs (nvp_value p)) < 2 ^ 63 ->
  nvpair_header_size + (zlen (nvp_name p) + 1) + value_size (nvp_value p) <= pk_left st ->
  0 <= value_size (nvp_value p) ->
  nvpair_pack xpack p st =
  Ok (mk_packing (pk_out st ++ pair_bytes idx p) (fdidx_add (pk_fdidx st) (zlen (value_descs (nvp_value p))))
        (pk_left st - (nvpair_header_size + (zlen (nvp_name p) + 1) + value_size (nvp_value p)))) /\
  zlen (pair_bytes idx p) = nvpair_header_size + (zlen (nvp_name p) + 1) + value_size (nvp_value p).
Proof.
  intros Hroom [Hn1 Hn2] Hv Hfd Hidx Hmax Hleft Hsz.
  pose proof (zlen_nonneg (nvp_name p)) as Hn0. unfold nvpair_header_size, NV_NAME_MAX in *.
  assert ((datasize ← match nvp_value p with NVList l => nvlist_size l | _ => Ok (nvpair_size p) end; Ok datasize)
          = Ok (value_size (nvp_value p))) as Hds.
  { unfold nvpair_size. destruct (nvp_value p) eqn:E; try reflexivity.
    unfold nvlist_size. rewrite (xsize_spec room 3 l (proj1 Hv) Hroom), value_size_list. reflexivity. }
  set (hdr := nvpair_type p :: le_encode 2 (zlen (nvp_name p) + 1) ++ le_encode 8 (value_size (nvp_value p))).
  assert (zlen hdr = 11) as Hh by (unfold hdr; rewrite zlen_cons, zlen_app, !zlen_le_encode; reflexivity).
  set (st1 := mk_packing (pk_out st ++ hdr ++ (nvp_name p ++ [0])) (pk_fdidx st) (pk_left st - (11 + (zlen (nvp_name p) + 1)))).
  assert (nvpair_pack_header p (value_size (nvp_value p)) st = Ok st1) as Hhd.
  { unfold nvpair_pack_header. destruct (Z.ltb_spec 0 (zlen (nvp_name p) + 1)), (Z.leb_spec (zlen (nvp_name p) + 1) 65535); try lia.
    cbn [passert mbind nvres_bind andb]. fold hdr. rewrite put_ok by lia. cbn [mbind nvres_bind].
    rewrite put_ok by (cbn [pk_left]; rewrite Hh, zlen_app; change (zlen [0]) with 1; lia). cbn [pk_out pk_left pk_fdidx]. unfold st1.
    rewrite Hh, !zlen_app, <- app_assoc. do 2 f_equal. change (zlen [0]) with 1. lia. }
  assert (zlen (pair_bytes idx p) = 11 + (zlen (nvp_name p) + 1) + zlen (value_bytes idx (nvp_value p))) as Hpl.
  { unfold pair_bytes. rewrite !zlen_app, zlen_cons, zlen_app, !zlen_le_encode. change (zlen [0]) with 1. lia. }
  assert (forall bytes fi, bytes = value_bytes idx (nvp_value p) -> zlen bytes = value_size (nvp_value p) ->
    fi = fdidx_add (pk_fdidx st) (zlen (value_descs (nvp_value p))) ->
    put bytes (mk_packing (pk_out st1) fi (pk_left st1)) =
    Ok (mk_packing (pk_out st ++ pair_bytes idx p) (fdidx_add (pk_fdidx st) (zlen (value_descs (nvp_value p))))
        (pk_left st - (11 + (zlen (nvp_name p) + 1) + value_size (nvp_value p)))) /\
    zlen (pair_bytes idx p) = 11 + (zlen (nvp_name p) + 1) + value_size (nvp_value p)) as Hput.
  { intros bytes fi -> Hb ->. rewrite put_ok by (cbn [st1 pk_left]; lia). cbn [st1 pk_left pk_out pk_fdidx].
    split; [|lia]. rewrite Hb. f_equal. f_equal; [|lia]. unfold pair_bytes. fold hdr. rewrite <- !app_assoc. reflexivity. }
  unfold nvpair_pack.
  assert (nvpair_pack xpack p st = (
    match nvp_value p with
    | NVNull => Ok st1 | NVBool v => put [u8 v] st1 | NVNumber v => put (le_encode 8 (u64 v)) st1
    | NVString s => put (s ++ [0]) st1
    | NVList l => if value_size (nvp_value p) =? 0 then Ok st1
        else '(data, fdidx) ← xpack l (pk_fdidx st1);
             _ ← passert (zlen data =? value_size (nvp_value p)); put data (mk_packing (pk_out st1) fdidx (pk_left st1))
    | NVDescriptor fd => nvpair_pack_descriptor fd st1
    | NVBinary b => put b st1 end)) as Hpk.
  { unfold nvpair_pack. destruct (match nvp_value p with NVList l => nvlist_size l | _ => Ok (nvpair_size p) end) as [ds| |];
      cbn in Hds; [|discriminate|discriminate]. injection Hds as ->. cbn [mbind nvres_bind]. rewrite Hhd. reflexivity. }
  unfold nvpair_pack in Hpk. rewrite Hpk. clear Hpk Hds Hhd.
  change st1 with (mk_packing (pk_out st1) (pk_fdidx st) (pk_left st1)).
  destruct (nvp_value p) as [|b|n|s|l|fd|b] eqn:E; cbn [wf_value] in Hv.
  - cbn [value_descs] in *. destruct (Hput [] _ eq_refl eq_refl eq_refl) as [H1 H2]. change (zlen []) with 0 in *. rewrite fdidx_add_0 in *.
    split; [|exact H2]. rewrite <- H1. rewrite put_ok by (cbn [pk_left st1]; change (zlen []) with 0; cbn [value_size nvpair_size nvp_value] in *; lia).
    cbn [pk_out pk_left pk_fdidx]. rewrite app_nil_r, Z.sub_0_r. reflexivity.
  - cbn [value_descs] in *. apply Hput; [cbn; destruct Hv as [->| ->]; reflexivity|reflexivity|symmetry; apply fdidx_add_0].
  - cbn [value_descs] in *. apply Hput; [cbn [value_bytes]; rewrite u64_small by exact Hv; reflexivity|rewrite zlen_le_encode; reflexivity|symmetry; apply fdidx_add_0].
  - cbn [value_descs] in *. apply Hput; [reflexivity|cbn; rewrite zlen_app; reflexivity|symmetry; apply fdidx_add_0].
  - rewrite value_size_list in *. rewrite value_descs_list in *. destruct Hv as [Hw Hx].
    assert (19 <= list_size l) by (unfold list_size, nvlist_header_size; destruct (sizes_nonneg room l Hw); lia).
    destruct (Z.eqb_spec (list_size l) 0); [lia|]. cbn [pk_fdidx].
    destruct (Hx (pk_fdidx st) idx Hfd Hidx Hmax) as [Hx1 Hx2]. rewrite Hx1. cbn [mbind nvres_bind].
    rewrite Hx2, Z.eqb_refl. cbn [passert mbind nvres_bind pk_out pk_left].
    apply Hput; [symmetry; apply value_bytes_list|exact Hx2|reflexivity].
  - cbn [value_descs] in *. destruct Hfd as [Hfd|[_ Hfd]]; [|discriminate]. unfold nvpair_pack_descriptor. destruct (Z.eqb_spec fd (-1)); [lia|].
    cbn [pk_fdidx pk_out pk_left]. rewrite Hfd in Hput |- *. change (zlen [fd]) with 1 in *.
    apply Hput; [cbn [value_bytes]; rewrite u64_small by lia; reflexivity|rewrite zlen_le_encode; reflexivity|reflexivity].
  - cbn [value_descs] in *. apply Hput; [reflexivity|reflexivity|symmetry; apply fdidx_add_0].
Qed.

Lemma pack_pairs_spec xpack room l : forall st idx,
  (room <= 3)%nat ->
  Forall (fun p => name_ok (nvp_name p) /\
    wf_value (fun l => wf_list true room l /\ packs xpack l) (nvp_value p)) l ->
  Forall (fun p => 0 <= value_size (nvp_value p)) l ->
  fdidx_at (pk_fdidx st) idx (pairs_descs l) -> 0 <= idx -> idx + zlen (pairs_descs l) < 2 ^ 63 ->
  pairs_size l <= pk_left st ->
  fold_left (fun acc p => st ← acc; nvpair_pack xpack p st) l (Ok st) =
  Ok (mk_packing (pk_out st ++ pairs_bytes idx l) (fdidx_add (pk_fdidx st) (zlen (pairs_descs l)))
        (pk_left st - pairs_size l)) /\
  zlen (pairs_bytes idx l) = pairs_size l.
Proof.
  induction l as [|p l IH]; intros st idx Hroom Hl Hz Hfd Hidx Hmax Hleft.
  { cbn [fold_left pairs_bytes pairs_descs pairs_size]. change (zlen []) with 0. rewrite fdidx_add_0, app_nil_r, Z.sub_0_r.
    destruct st; split; reflexivity. }
  apply Forall_cons in Hl as [[Hn Hv] Hl]. apply Forall_cons in Hz as [Hz0 Hz].
  cbn [pairs_descs pairs_size pairs_bytes] in *. rewrite zlen_app in Hmax.
  pose proof (zlen_nonneg (value_descs (nvp_value p))) as D1. pose proof (zlen_nonneg (pairs_descs l)) as D2.
  assert (0 <= pairs_size l) as D3.
  { clear - Hz. induction Hz as [|q l Hq Hz IH]; cbn; [lia|]. pose proof (zlen_nonneg (nvp_name q)). unfold nvpair_header_size. lia. }
  destruct (pack_pair_spec xpack room p st idx Hroom Hn Hv) as [P1 P2]; [|lia|lia|lia|exact Hz0|].
  { destruct Hfd as [H|[H1 H2]]; [left; exact H|right; split; [exact H1|]]. apply app_eq_nil in H2. tauto. }
  cbn [fold_left mbind nvres_bind]. rewrite P1.
  destruct (IH (mk_packing (pk_out st ++ pair_bytes idx p) (fdidx_add (pk_fdidx st) (zlen (value_descs (nvp_value p))))
      (pk_left st - (nvpair_header_size + (zlen (nvp_name p) + 1) + value_size (nvp_value p))))
    (idx + zlen (value_descs (nvp_value p))) Hroom Hl Hz) as [Q1 Q2]; cbn [pk_fdidx pk_left]; [|lia|lia|lia|].
  { destruct Hfd as [->|[-> H2]]; [left; reflexivity|right; split; [reflexivity|]]. apply app_eq_nil in H2. tauto. }
  rewrite Q1. cbn [pk_out pk_fdidx pk_left]. rewrite <- app_assoc, zlen_app. split; [|rewrite zlen_app; lia].
  f_equal. f_equal; [|lia]. destruct (pk_fdidx st); cbn; [f_equal; lia|reflexivity].
Qed.

Lemma xpack_spec room : forall fuel nvl,
  wf_list true room nvl -> (room <= fuel)%nat -> (room <= 3)%nat -> list_size nvl < 2 ^ 63 ->
  packs (nvlist_xpack_fuel fuel) nvl.
Proof.
  induction room as [|room IH]; intros fuel nvl H Hf Hr Hsz; [destruct H|]. destruct fuel as [|fuel]; [lia|].
  destruct (sizes_nonneg (S room) nvl H) as (Z1 & Z2 & Z3). pose proof (xsize_spec (S room) 3 nvl H Hr) as Hxs.
  pose proof (proj2 (xdescs_spec (S room) 3 nvl H Hr)) as Hxd.
  cbn [wf_list] in H. destruct H as ([H1|[H1 _]] & _ & _ & H4); [|discriminate].
  intros fi idx Hfd Hidx Hmax. cbn [nvlist_xpack_fuel]. rewrite H1. cbn [Z.eqb negb].
  unfold nvlist_size. rewrite Hxs. cbn [mbind nvres_bind]. unfold nvlist_pack_header, nvlist_ndescriptors. rewrite Hxd.
  cbn [mbind nvres_bind pk_left]. unfold list_size in *. unfold nvlist_header_size in *.
  replace (19 + pairs_size (nvl_head nvl) - 19) with (pairs_size (nvl_head nvl)) by lia.
  rewrite u64_small by lia. fold (list_header nvl).
  assert (zlen (list_header nvl) = 19) as Hh by apply zlen_header.
  rewrite put_ok by (cbn [pk_left]; lia). cbn [mbind nvres_bind pk_out pk_left pk_fdidx app].
  destruct (pack_pairs_spec (nvlist_xpack_fuel fuel) room (nvl_head nvl)
    (mk_packing (list_header nvl) fi (19 + pairs_size (nvl_head nvl) - zlen (list_header nvl))) idx) as [P1 P2];
    cbn [pk_fdidx pk_left]; try assumption; [lia| | |lia|].
  - rewrite Forall_forall in H4, Z3 |- *. intros p Hp. destruct (H4 p Hp) as [Hn Hv]. split; [exact Hn|].
    destruct (Z3 p Hp) as [V1 _]. destruct (nvp_value p) eqn:E; try exact Hv. split; [exact Hv|].
    apply IH; [exact Hv|lia|lia|]. rewrite value_size_list in V1. unfold list_size, nvlist_header_size in V1. lia.
  - eapply Forall_impl; [exact Z3|]. cbn. lia.
  - change (list (nvpair_of nvvalue)) with (list nvpair) in *. rewrite P1. cbn [mbind nvres_bind pk_out pk_fdidx].
    split; [reflexivity|]. unfold list_bytes. rewrite zlen_app. lia.
Qed.

(** ** Unpacking inverts packing *)

(** The descriptors [descs] are in the table [fds] from index [idx] on. *)
Definition fds_at (fds : list Z) (idx : Z) (descs : list Z) : Prop :=
  exists post, drop (Z.to_nat idx) fds = descs ++ post.

Lemma fds_at_app fds idx a b : 0 <= idx -> fds_at fds idx (a ++ b) -> fds_at fds idx a /\ fds_at fds (idx + zlen a) b.
Proof.
  intros Hi [post E]. split; [exists (b ++ post); rewrite E, app_assoc; reflexivity|]. exists post. unfold zlen.
  replace (Z.to_nat (idx + Z.of_nat (length a))) with (Z.to_nat idx + length a)%nat by lia.
  rewrite <- drop_drop, E, <- app_assoc, drop_app_length. reflexivity.
Qed.

Ltac zguard :=
  repeat match goal with
  | |- context [guard ?b ?e] =>
      let H := fresh in assert (b = true) as H by
        (repeat first [rewrite orb_true_iff | rewrite negb_true_iff | rewrite orb_false_iff
                      | rewrite Z.leb_le | rewrite Z.eqb_eq | rewrite Z.ltb_ge | rewrite Z.eqb_neq]; lia);
      rewrite H; clear H; cbn [guard mbind nvres_bind]
  end.

Lemma decode_le flags n x : has_flag flags NV_FLAG_BIG_ENDIAN = false -> 0 <= x < 256 ^ Z.of_nat n ->
  decode flags (le_encode n x) = x.
Proof. intros Hf Hx. unfold decode. rewrite Hf. apply le_decode_encode. exact Hx. Qed.

Lemma strnlen_nul s rest n : Forall (fun c => 1 <= c < 256) s -> n = zlen s + 1 -> strnlen (s ++ 0 :: rest) n = Ok (zlen s).
Proof.
  intros Hs ->. unfold strnlen. change (0 :: rest) with ([0] ++ rest). rewrite app_assoc, rd_app by (rewrite zlen_app; reflexivity).
  cbn [mbind nvres_bind]. rewrite strlen_nul by exact Hs. reflexivity.
Qed.

Lemma take_zlen (s t : list Z) n : n = zlen s -> take (Z.to_nat n) (s ++ t) = s.
Proof. intros ->. unfold zlen. rewrite Nat2Z.id. apply take_app_length. Qed.

Lemma value_type_range v : 1 <= value_type v <= 7.
Proof. destruct v; split; discriminate. Qed.

Lemma unpack_header_spec flags p idx rest :
  has_flag flags NV_FLAG_BIG_ENDIAN = false -> name_ok (nvp_name p) ->
  0 <= value_size (nvp_value p) < 2 ^ 63 -> zlen (value_bytes idx (nvp_value p)) = value_size (nvp_value p) ->
  nvpair_unpack_header flags (pair_bytes idx p ++ rest) =
  Ok (value_type (nvp_value p), nvp_name p, value_size (nvp_value p), value_bytes idx (nvp_value p) ++ rest).
Proof.
  intros Hf [Hn1 Hn2] Hv Hb. pose proof (zlen_nonneg (nvp_name p)) as Hn0. pose proof (zlen_nonneg rest) as Hr0.
  pose proof (value_type_range (nvp_value p)) as Ht. unfold NV_NAME_MAX in Hn2.
  set (ty := value_type (nvp_value p)) in *. set (sz := value_size (nvp_value p)) in *.
  set (tail := value_bytes idx (nvp_value p) ++ rest).
  assert (pair_bytes idx p ++ rest =
    (ty :: le_encode 2 (zlen (nvp_name p) + 1) ++ le_encode 8 sz) ++ (nvp_name p ++ 0 :: tail)) as ->.
  { unfold pair_bytes, tail. fold ty sz. rewrite <- !app_assoc. reflexivity. }
  set (hdr := ty :: le_encode 2 (zlen (nvp_name p) + 1) ++ le_encode 8 sz).
  assert (zlen hdr = 11) as Hh by (unfold hdr; rewrite zlen_cons, zlen_app, !zlen_le_encode; reflexivity).
  assert (zlen (nvp_name p ++ 0 :: tail) = zlen (nvp_name p) + 1 + zlen tail) as Hl by (rewrite zlen_app, zlen_cons; lia).
  pose proof (zlen_nonneg tail) as Htl.
  assert (sz <= zlen tail) as Hts by (unfold tail; rewrite zlen_app; lia).
  unfold nvpair_unpack_header, nvpair_header_size. rewrite zlen_app.
  change (zlen (nvp_name p ++ 0 :: tail)) with (zlen (nvp_name p ++ 0 :: tail)). rewrite Hl, Hh.
  zguard. rewrite rd_app by exact Hh. cbn [mbind nvres_bind].
  assert (nth 0 hdr 0 = ty) as -> by reflexivity.
  assert (take 2 (drop 1 hdr) = le_encode 2 (zlen (nvp_name p) + 1)) as -> by reflexivity.
  assert (take 8 (drop 3 hdr) = le_encode 8 sz) as -> by reflexivity.
  rewrite !decode_le by (try exact Hf; cbn; lia). unfold NV_TYPE_NULL, NV_TYPE_BINARY, NV_NAME_MAX. rewrite Hl. zguard.
  rewrite strnlen_nul by (auto; lia). cbn [mbind nvres_bind]. zguard.
  change (0 :: tail) with ([0] ++ tail). rewrite app_assoc, rd_app by (rewrite zlen_app; reflexivity). cbn [mbind nvres_bind]. zguard.
  rewrite take_zlen by lia. reflexivity.
Qed.

Lemma zlen_take_drop n (l : list Z) : 0 <= n <= zlen l -> zlen (take (Z.to_nat n) l) = n.
Proof. intros. unfold zlen in *. rewrite length_take. lia. Qed.

Lemma unpack_pair_spec fds nested flags p idx rest :
  has_flag flags NV_FLAG_BIG_ENDIAN = false -> name_ok (nvp_name p) ->
  wf_value (fun l => nested (list_bytes idx l) = Ok l /\ 19 <= list_size l) (nvp_value p) ->
  0 <= value_size (nvp_value p) < 2 ^ 63 -> zlen (value_bytes idx (nvp_value p)) = value_size (nvp_value p) ->
  fds_at fds idx (value_descs (nvp_value p)) -> 0 <= idx < 2 ^ 63 ->
  nvpair_unpack fds nested flags (pair_bytes idx p ++ rest) = Ok (p, rest).
Proof.
  intros Hf Hn Hv Hs Hb Hfd Hidx. unfold nvpair_unpack. rewrite unpack_header_spec by assumption. cbn [mbind nvres_bind].
  pose proof (zlen_nonneg rest) as Hr0. set (vs := value_size (nvp_value p)) in *.
  assert (vs <= zlen (value_bytes idx (nvp_value p) ++ rest)) as Hle by (rewrite zlen_app; lia).
  assert (rd vs (value_bytes idx (nvp_value p) ++ rest) = Ok (value_bytes idx (nvp_value p), rest)) as Hrd by (apply rd_app; exact Hb).
  destruct p as [name v]. cbn [nvp_value nvp_name] in *. destruct v as [|b|n|s|l|fd|b]; cbn [wf_value] in Hv; cbn [value_type nvpair_type nvp_value].
  - reflexivity.
  - unfold nvpair_unpack_bool. change vs with 1 in *. cbn [Z.eqb Pos.eqb NV_TYPE_BOOL NV_TYPE_NULL]. zguard.
    rewrite Hrd. cbn [mbind nvres_bind value_bytes le_decode]. rewrite Z.mul_0_r, Z.add_0_r.
    destruct Hv as [->| ->]; reflexivity.
  - unfold nvpair_unpack_number. change vs with 8 in *. cbn [Z.eqb Pos.eqb NV_TYPE_NUMBER NV_TYPE_BOOL NV_TYPE_NULL]. zguard.
    rewrite Hrd. cbn [mbind nvres_bind value_bytes]. rewrite decode_le by (auto; cbn; lia). reflexivity.
  - unfold nvpair_unpack_string. cbn [Z.eqb Pos.eqb NV_TYPE_STRING NV_TYPE_NUMBER NV_TYPE_BOOL NV_TYPE_NULL].
    assert (vs = zlen s + 1) as Ev by reflexivity. pose proof (zlen_nonneg s). zguard. cbn [value_bytes] in *.
    rewrite <- app_assoc. cbn [app]. rewrite strnlen_nul by auto. cbn [mbind nvres_bind]. zguard.
    change (s ++ 0 :: rest) with (s ++ [0] ++ rest). rewrite app_assoc, Hrd. cbn [mbind nvres_bind]. rewrite take_zlen by lia. reflexivity.
  - unfold nvpair_unpack_nvlist. cbn [Z.eqb Pos.eqb NV_TYPE_NVLIST NV_TYPE_STRING NV_TYPE_NUMBER NV_TYPE_BOOL NV_TYPE_NULL].
    unfold vs in *. rewrite value_size_list in *. zguard. rewrite Hrd. cbn [mbind nvres_bind].
    rewrite value_bytes_list. destruct Hv as [-> _]. reflexivity.
  - unfold nvpair_unpack_descriptor. change vs with 8 in *.
    cbn [Z.eqb Pos.eqb NV_TYPE_DESCRIPTOR NV_TYPE_NVLIST NV_TYPE_STRING NV_TYPE_NUMBER NV_TYPE_BOOL NV_TYPE_NULL]. zguard.
    rewrite Hrd. cbn [mbind nvres_bind value_bytes]. rewrite decode_le by (auto; cbn; lia).
    assert (s64 idx = idx) as ->.
    { clear - Hidx. unfold s64, sN. rewrite Z.mod_small by lia. destruct (Z.ltb_spec idx (2 ^ (64 - 1))); [reflexivity|]. cbn in *. lia. }
    zguard. destruct Hfd as [post E]. cbn [value_descs app] in E.
    assert (fds !! Z.to_nat idx = Some fd) as ->; [|reflexivity].
    rewrite <- (Nat.add_0_r (Z.to_nat idx)), <- lookup_drop, E. reflexivity.
  - unfold nvpair_unpack_binary. cbn [Z.eqb Pos.eqb NV_TYPE_BINARY NV_TYPE_DESCRIPTOR NV_TYPE_NVLIST NV_TYPE_STRING NV_TYPE_NUMBER NV_TYPE_BOOL NV_TYPE_NULL].
    assert (vs = zlen b) as Ev by reflexivity. destruct Hv as [Hne _].
    assert (1 <= zlen b) by (destruct b; [contradiction|rewrite zlen_cons; pose proof (zlen_nonneg b); lia]).
    zguard. rewrite Hrd. reflexivity.
Qed.

(** *** Inserting *)

Lemma find_pair_none flags name l :
  Forall (fun q => same_name flags (nvp_name q) name = false) l -> find_pair flags NV_TYPE_NONE name l = None.
Proof. induction 1 as [|q l Hq Hl IH]; [reflexivity|]. cbn [find_pair matches]. unfold matches. rewrite Hq. exact IH. Qed.

Lemma find_pair_none_inv flags name l :
  find_pair flags NV_TYPE_NONE name l = None -> Forall (fun q => same_name flags (nvp_name q) name = false) l.
Proof.
  induction l as [|q l IH]; intros H; [constructor|]. cbn [find_pair] in H. unfold matches in H. cbn [Z.eqb NV_TYPE_NONE orb andb] in H.
  destruct (same_name flags (nvp_name q) name) eqn:E; [discriminate|]. constructor; [exact E|auto].
Qed.

Lemma distinct_snoc flags l p :
  distinct flags (l ++ [p]) <-> distinct flags l /\ Forall (fun q => same_name flags (nvp_name q) (nvp_name p) = false) l.
Proof.
  unfold distinct. induction l as [|q l IH]; cbn [app].
  - split; [intros _; split; constructor|intros _; repeat constructor].
  - split.
    + intros H. inversion H as [|? ? H1 H2]; subst. apply Forall_app in H1 as [H1 H3]. apply IH in H2 as [H2 H4].
      inversion H3; subst. split; constructor; auto.
    + intros [H1 H2]. inversion H1 as [|? ? A1 A2]; subst. inversion H2; subst. constructor.
      * apply Forall_app. split; [assumption|]. constructor; [assumption|constructor].
      * apply IH. auto.
Qed.

(** nvlist_move_nvpair on a list without error: a new name is appended, a known
    one sets the error. *)
Lemma move_nvpair_spec nvl p : nvl_error nvl = 0 ->
  nvlist_move_nvpair nvl p =
  Ok (match find_pair (nvl_flags nvl) NV_TYPE_NONE (nvp_name p) (nvl_head nvl) with
      | None => mk_nvlist 0 (nvl_flags nvl) (nvl_head nvl ++ [p])
      | Some _ => mk_nvlist EEXIST (nvl_flags nvl) (nvl_head nvl)
      end).
Proof.
  intros H. unfold nvlist_move_nvpair, nvpair_insert, nvlist_exists, nvlist_existsv_type, nvlist_findv. rewrite H.
  cbn [Z.eqb negb passert mbind nvres_bind]. change (list (nvpair_of nvvalue)) with (list nvpair) in *.
  destruct (find_pair _ _ _ _); reflexivity.
Qed.

Lemma pairs_size_nonneg l : Forall (fun p => 0 <= value_size (nvp_value p)) l -> 0 <= pairs_size l.
Proof. induction 1 as [|q l Hq Hz IH]; cbn; [lia|]. pose proof (zlen_nonneg (nvp_name q)). unfold nvpair_header_size. lia. Qed.

Lemma distinct_app_r flags l1 l2 : distinct flags (l1 ++ l2) -> distinct flags l1.
Proof.
  induction l2 as [|p l2 IH] using rev_ind; [rewrite app_nil_r; auto|]. rewrite app_assoc. intros H.
  apply distinct_snoc in H. apply IH, H.
Qed.

Lemma pair_bytes_nonempty idx p : exists c t, pair_bytes idx p = c :: t.
Proof. unfold pair_bytes. eexists _, _. reflexivity. Qed.

Definition unpacks (fds : list Z) (unpack : list Z -> nvres nvlist) (l : nvlist) : Prop :=
  forall idx, 0 <= idx -> idx + zlen (list_descs l) < 2 ^ 63 -> fds_at fds idx (list_descs l) ->
  unpack (list_bytes idx l) = Ok l.

Lemma unpack_pairs_spec fds nested flags pub todo : forall fuel idx done,
  has_flag flags NV_FLAG_BIG_ENDIAN = false ->
  Forall (fun p => name_ok (nvp_name p) /\ 0 <= value_size (nvp_value p) < 2 ^ 63 /\
    (forall idx, zlen (value_bytes idx (nvp_value p)) = value_size (nvp_value p)) /\
    wf_value (fun l => unpacks fds nested l /\ 19 <= list_size l) (nvp_value p)) todo ->
  distinct pub (done ++ todo) -> fds_at fds idx (pairs_descs todo) -> 0 <= idx -> idx + zlen (pairs_descs todo) < 2 ^ 63 ->
  pairs_size todo <= Z.of_nat fuel ->
  unpack_pairs fds nested fuel flags (pairs_bytes idx todo) (mk_nvlist 0 pub done) = Ok (mk_nvlist 0 pub (done ++ todo)).
Proof.
  induction todo as [|p todo IH]; intros fuel idx done Hf Hall Hd Hfd Hidx Hmax Hfuel.
  { rewrite app_nil_r. destruct fuel; reflexivity. }
  apply Forall_cons in Hall as [(Hn & Hs & Hb & Hv) Hall]. cbn [pairs_bytes pairs_descs pairs_size] in *.
  apply fds_at_app in Hfd as [Hfd1 Hfd2]; [|exact Hidx]. rewrite zlen_app in Hmax.
  pose proof (zlen_nonneg (value_descs (nvp_value p))) as D1. pose proof (zlen_nonneg (pairs_descs todo)) as D2.
  assert (0 <= pairs_size todo) as D3.
  { apply pairs_size_nonneg. eapply Forall_impl; [exact Hall|]. cbn. intros q Hq. lia. }
  pose proof (zlen_nonneg (nvp_name p)) as D4. unfold nvpair_header_size in Hfuel.
  destruct fuel as [|fuel]; [lia|]. destruct (pair_bytes_nonempty idx p) as (c & t & Ec).
  assert (unpack_pairs fds nested (S fuel) flags (pair_bytes idx p ++ pairs_bytes (idx + zlen (value_descs (nvp_value p))) todo)
            (mk_nvlist 0 pub done) =
          ('(p', l) ← nvpair_unpack fds nested flags (pair_bytes idx p ++ pairs_bytes (idx + zlen (value_descs (nvp_value p))) todo);
           nvl ← nvlist_move_nvpair (mk_nvlist 0 pub done) p'; unpack_pairs fds nested fuel flags l nvl)) as -> by (rewrite Ec; reflexivity).
  rewrite unpack_pair_spec; auto; [|destruct (nvp_value p) eqn:E; try exact Hv|lia].
  - cbn [mbind nvres_bind]. rewrite move_nvpair_spec by reflexivity. cbn [mbind nvres_bind nvl_flags nvl_head].
    assert (distinct pub ((done ++ [p]) ++ todo)) as Hd' by (rewrite <- app_assoc; exact Hd).
    pose proof (proj1 (distinct_snoc _ _ _) (distinct_app_r _ _ _ Hd')) as [_ Hnone]. rewrite (find_pair_none _ _ _ Hnone).
    rewrite IH; auto; [rewrite <- app_assoc; reflexivity|lia|lia|lia].
  - destruct Hv as [Hv1 Hv2]. split; [|exact Hv2]. rewrite value_descs_list in *. apply Hv1; [lia|lia|exact Hfd1].
Qed.

Lemma bytes_length room : forall nvl idx, wf_list true room nvl ->
  zlen (pairs_bytes idx (nvl_head nvl)) = pairs_size (nvl_head nvl) /\
  Forall (fun p => forall idx, zlen (value_bytes idx (nvp_value p)) = value_size (nvp_value p)) (nvl_head nvl).
Proof.
  induction room as [|room IH]; intros nvl idx H; [destruct H|]. cbn [wf_list] in H. destruct H as (_ & _ & _ & H4).
  assert (Forall (fun p => forall idx, zlen (value_bytes idx (nvp_value p)) = value_size (nvp_value p)) (nvl_head nvl)) as Hv.
  { eapply Forall_impl; [exact H4|]. intros p [_ Hv] i. destruct (nvp_value p) as [|b|n|s|l|fd|b]; try reflexivity.
    - cbn [value_bytes]. rewrite zlen_app. reflexivity.
    - rewrite value_bytes_list, value_size_list. unfold list_bytes, list_size. rewrite zlen_app, (proj1 (IH l i Hv)).
      unfold list_header. rewrite zlen_header. reflexivity. }
  split; [|exact Hv]. revert idx. clear H4. induction Hv as [|p l Hp Hl IHl]; intros idx; [reflexivity|].
  cbn [pairs_bytes pairs_size]. rewrite zlen_app, IHl. unfold pair_bytes. rewrite !zlen_app, zlen_cons, zlen_app, !zlen_le_encode, Hp.
  unfold nvpair_header_size. change (zlen [0]) with 1. lia.
Qed.

Lemma header_roundtrip h : 0 <= nvlh_descriptors h < 2 ^ 64 -> 0 <= nvlh_size h < 2 ^ 64 ->
  header_of_bytes (header_bytes h) = h.
Proof.
  intros H1 H2. destruct h as [a b c d s]. cbn [nvlh_descriptors nvlh_size] in *.
  change (header_of_bytes (header_bytes (mk_header a b c d s))) with
    (mk_header a b c (le_decode (le_encode 8 d)) (le_decode (le_encode 8 s))).
  rewrite !le_decode_encode by (cbn; lia). reflexivity.
Qed.

Lemma unpack_list_header nvl idx fds :
  (nvl_flags nvl = 0 \/ nvl_flags nvl = 1) -> 0 <= pairs_size (nvl_head nvl) < 2 ^ 63 ->
  zlen (list_descs nvl) <= zlen fds -> zlen (list_descs nvl) <= pairs_size (nvl_head nvl) ->
  zlen (pairs_bytes idx (nvl_head nvl)) = pairs_size (nvl_head nvl) ->
  nvlist_unpack_header (list_bytes idx nvl) (zlen fds) =
  Ok (nvl_flags nvl, nvl_flags nvl, pairs_bytes idx (nvl_head nvl)).
Proof.
  intros Hf Hs Hd Hd2 Hb. pose proof (zlen_nonneg (list_descs nvl)) as D0. unfold nvlist_unpack_header, list_bytes, nvlist_header_size.
  assert (zlen (list_header nvl) = 19) as Hh by (apply zlen_header). rewrite !zlen_app, Hh, Hb. zguard.
  rewrite rd_app by exact Hh. cbn [mbind nvres_bind]. unfold list_header at 1. rewrite header_roundtrip by (cbn; lia).
  unfold nvlist_check_header. cbn [nvlh_magic nvlh_flags nvlh_version nvlh_descriptors nvlh_size].
  assert (Z.land (nvl_flags nvl) (Z.lnot NV_FLAG_ALL_MASK) = 0 /\ has_flag (nvl_flags nvl) NV_FLAG_BIG_ENDIAN = false /\
    Z.land (nvl_flags nvl) NV_FLAG_PUBLIC_MASK = nvl_flags nvl) as (F1 & F2 & F3) by (destruct Hf as [->| ->]; repeat split).
  rewrite F1, F2. cbn [Z.eqb Pos.eqb guard mbind nvres_bind nvlh_size nvlh_descriptors nvlh_flags NVLIST_HEADER_MAGIC].
  zguard. rewrite F3. reflexivity.
Qed.

Lemma xunpack_spec room : forall fuel nvl idx fds,
  wf_list true room nvl -> (room <= fuel)%nat -> list_size nvl < 2 ^ 63 ->
  fds_at fds idx (list_descs nvl) -> 0 <= idx -> idx + zlen (list_descs nvl) < 2 ^ 63 ->
  nvlist_xunpack_fuel fuel fds (list_bytes idx nvl) = Ok nvl.
Proof.
  induction room as [|room IH]; intros fuel nvl idx fds H Hf Hsz Hfd Hidx Hmax; [destruct H|]. destruct fuel as [|fuel]; [lia|].
  destruct (sizes_nonneg (S room) nvl H) as (Z1 & Z2 & Z3). destruct (bytes_length (S room) nvl idx H) as [B1 B2].
  cbn [wf_list] in H. destruct H as ([H1|[H1 _]] & H2 & H3 & H4); [|discriminate].
  unfold list_size, nvlist_header_size in Hsz. cbn [nvlist_xunpack_fuel nvlist_create]. unfold nvlist_create. cbn [Z.land Z.eqb passert mbind nvres_bind].
  rewrite unpack_list_header; auto; [|lia|destruct Hfd as [post E]; apply (f_equal length) in E; rewrite length_drop, length_app in E; unfold zlen; lia].
  cbn [mbind nvres_bind nvl_error nvl_head].
  assert (Forall (fun p => name_ok (nvp_name p) /\ 0 <= value_size (nvp_value p) < 2 ^ 63 /\
    (forall idx, zlen (value_bytes idx (nvp_value p)) = value_size (nvp_value p)) /\
    wf_value (fun l => unpacks fds (nvlist_xunpack_fuel fuel fds) l /\ 19 <= list_size l) (nvp_value p)) (nvl_head nvl)) as Hall.
  { rewrite Forall_forall in H4, Z3, B2 |- *. intros p Hp. destruct (H4 p Hp) as [Hn Hv]. destruct (Z3 p Hp) as [V1 V2].
    split; [exact Hn|]. split; [lia|]. split; [exact (B2 p Hp)|]. destruct (nvp_value p) as [|b|n|s|l|fd|b]; try exact Hv.
    rewrite value_size_list in V1. split.
    + intros i Hi1 Hi2 Hi3. apply IH; auto; lia.
    + unfold list_size, nvlist_header_size. destruct (sizes_nonneg room l Hv). lia. }
  assert (has_flag (nvl_flags nvl) NV_FLAG_BIG_ENDIAN = false) as Hbe by (destruct H2 as [-> | ->]; reflexivity).
  assert (pairs_size (nvl_head nvl) <= Z.of_nat (length (pairs_bytes idx (nvl_head nvl)))) as Hlen by (unfold zlen in B1; lia).
  pose proof (unpack_pairs_spec fds (nvlist_xunpack_fuel fuel fds) _ (nvl_flags nvl) (nvl_head nvl) _ idx [] Hbe Hall H3 Hfd Hidx Hmax Hlen) as U.
  etransitivity; [exact U|]. destruct nvl as [er fl hd]. cbn [nvl_error nvl_flags nvl_head app] in *. subst er. reflexivity.
Qed.

(** C38: what is sent is what is received.  Every well-formed list of at most
    three levels is packed by nvlist_send into exactly nvlist_size bytes; a peer
    that reads those bytes (whatever follows them in the stream) and the
    descriptors rebuilds the same list: same flags, same order, same types and
    values, each descriptor in its place. *)
Theorem nvlist_send_recv nvl more :
  wf_list true 3 nvl -> list_size nvl < 2 ^ 63 ->
  exists data fds, nvlist_send nvl = Ok (data, fds) /\ nvlist_size nvl = Ok (zlen data) /\
    nvlist_recv (data ++ more) fds = Ok nvl.
Proof.
  intros H Hs. destruct (xdescs_spec 3 3 nvl H (Nat.le_refl _)) as [D1 D2].
  destruct (sizes_nonneg 3 nvl H) as (Z1 & Z2 & _). destruct (bytes_length 3 nvl 0 H) as [B1 _].
  pose proof (zlen_nonneg (list_descs nvl)) as D0. unfold list_size, nvlist_header_size in Hs.
  destruct (xpack_spec 3 3 nvl H (Nat.le_refl _) (Nat.le_refl _) Hs (Some 0) 0) as [P1 P2]; [left; reflexivity|lia|lia|].
  assert (nvlist_descriptors nvl = Ok (list_descs nvl)) as Hd.
  { unfold nvlist_descriptors, nvlist_ndescriptors. rewrite D2. cbn [mbind nvres_bind]. rewrite D1.
    destruct (Z.ltb_spec 0 (zlen (list_descs nvl))); [reflexivity|]. destruct (list_descs nvl); [reflexivity|]. rewrite zlen_cons in *.
    pose proof (zlen_nonneg l). lia. }
  assert (nvl_error nvl = 0 /\ (nvl_flags nvl = 0 \/ nvl_flags nvl = 1)) as [He Hf].
  { cbn [wf_list] in H. destruct H as ([H1|[H1 _]] & H2 & _); [auto|discriminate]. }
  exists (list_bytes 0 nvl), (list_descs nvl). unfold nvlist_send. rewrite He, Hd. cbn [Z.eqb negb mbind nvres_bind].
  unfold nvlist_xpack. rewrite P1. split; [reflexivity|]. unfold nvlist_size. rewrite (xsize_spec 3 3 nvl H (Nat.le_refl _)), P2. split; [reflexivity|].
  unfold nvlist_recv, nvlist_header_size. pose proof (zlen_nonneg more) as M0.
  assert (zlen (list_header nvl) = 19) as Hh by apply zlen_header. unfold list_bytes. rewrite <- app_assoc, !zlen_app, Hh, B1. zguard.
  rewrite rd_app by exact Hh. cbn [mbind nvres_bind]. unfold list_header at 1. rewrite header_roundtrip by (cbn; lia).
  unfold nvlist_check_header. cbn [nvlh_magic nvlh_flags nvlh_version nvlh_descriptors nvlh_size].
  assert (Z.land (nvl_flags nvl) (Z.lnot NV_FLAG_ALL_MASK) = 0 /\ has_flag (nvl_flags nvl) NV_FLAG_BIG_ENDIAN = false) as [F1 F2]
    by (destruct Hf as [->| ->]; split; reflexivity).
  rewrite F1, F2. cbn [Z.eqb Pos.eqb guard mbind nvres_bind nvlh_size nvlh_descriptors NVLIST_HEADER_MAGIC].
  rewrite u64_small by lia. destruct (Z.leb_spec 19 (19 + pairs_size (nvl_head nvl))); [|lia]. cbn [passert mbind nvres_bind].
  rewrite zlen_app, B1. zguard. fold (list_header nvl).
  rewrite take_zlen by lia. rewrite <- (app_nil_r (list_descs nvl)) at 2. rewrite take_zlen by reflexivity.
  fold (list_bytes 0 nvl). unfold nvlist_xunpack. apply (xunpack_spec 3); auto; try lia.
  - unfold zlen in P2. unfold list_size, nvlist_header_size in P2. lia.
  - exists []. rewrite app_nil_r. reflexivity.
Qed.

(** ** Unpacking what anybody may have sent *)

(** The function returns, with an invalid-argument error or with a result in
    [Q]. *)
Definition safe {A} (r : nvres A) (Q : A -> Prop) : Prop :=
  match r with Ok a => Q a | Err e => e = EINVAL | Abort => False end.

Lemma safe_bind {A B} (r : nvres A) (f : A -> nvres B) (P : A -> Prop) (Q : B -> Prop) :
  safe r P -> (forall a, P a -> safe (f a) Q) -> safe (r ≫= f) Q.
Proof. destruct r; cbn; auto. Qed.

Lemma safe_guard {B} b (f : unit -> nvres B) Q : (b = true -> safe (f tt) Q) -> safe (guard b EINVAL ≫= f) Q.
Proof. destruct b; cbn; auto. Qed.

Lemma safe_impl {A} (r : nvres A) (P Q : A -> Prop) : safe r P -> (forall a, P a -> Q a) -> safe r Q.
Proof. destruct r; cbn; auto. Qed.

Lemma rd_safe n l : 0 <= n <= zlen l -> Forall is_byte l ->
  safe (rd n l) (fun '(a, b) => zlen a = n /\ zlen b = zlen l - n /\ Forall is_byte a /\ Forall is_byte b /\ l = a ++ b).
Proof.
  intros Hn Hl. unfold rd. destruct (Z.leb_spec 0 n), (Z.leb_spec n (zlen l)); try lia. cbn. unfold zlen in *.
  rewrite length_take, length_drop. split; [lia|]. split; [lia|]. rewrite take_drop.
  split; [apply Forall_take; exact Hl|]. split; [apply Forall_drop; exact Hl|reflexivity].
Qed.

Lemma decode_bounds flags l : Forall is_byte l -> 0 <= decode flags l < 256 ^ zlen l.
Proof.
  intros H. unfold decode. destruct (has_flag _ _); [|apply le_decode_bounds; exact H].
  replace (zlen l) with (zlen (rev l)) by (unfold zlen; rewrite length_rev; reflexivity). apply le_decode_bounds, Forall_rev, H.
Qed.

Lemma strlen_prefix s n : strlen_to_nul s = n -> Forall is_byte s -> n <= zlen s /\ Forall (fun c => 1 <= c < 256) (take (Z.to_nat n) s).
Proof.
  intros <- H. induction H as [|c s Hc Hs IH]; [split; [cbn; unfold zlen; cbn; lia|constructor]|]. cbn [strlen_to_nul]. rewrite zlen_cons.
  destruct (Z.eqb_spec c 0); [split; [pose proof (zlen_nonneg s); lia|constructor]|]. destruct IH as [I1 I2]. split; [lia|].
  assert (0 <= strlen_to_nul s) by (clear; induction s as [|x s IH]; cbn; [lia|]; destruct (x =? 0); lia).
  replace (Z.to_nat (1 + strlen_to_nul s)) with (S (Z.to_nat (strlen_to_nul s))) by lia. cbn [take]. constructor; [unfold is_byte in Hc; lia|exact I2].
Qed.

Lemma strnlen_safe l n : 0 <= n <= zlen l -> Forall is_byte l ->
  safe (strnlen l n) (fun k => k <= n /\ Forall (fun c => 1 <= c < 256) (take (Z.to_nat k) l)).
Proof.
  intros Hn Hl. unfold strnlen. eapply safe_bind; [apply rd_safe; assumption|]. intros [a b] (A1 & A2 & A3 & A4 & A5). cbn.
  destruct (strlen_prefix a _ eq_refl A3) as [S1 S2]. split; [lia|]. subst l. rewrite take_app_le; [exact S2|]. unfold zlen in *. lia.
Qed.

Lemma unpack_header_safe flags l : Forall is_byte l ->
  safe (nvpair_unpack_header flags l) (fun '(type, name, datasize, rest) =>
    1 <= type <= 7 /\ name_ok name /\ 0 <= datasize <= zlen rest /\ Forall is_byte rest /\ zlen rest + 12 <= zlen l).
Proof.
  intros Hl. unfold nvpair_unpack_header. apply safe_guard. intros H%Z.leb_le. unfold nvpair_header_size in *.
  eapply safe_bind; [apply rd_safe; [lia|exact Hl]|]. intros [hdr l1] (A1 & A2 & A3 & A4 & A5). cbv beta iota.
  assert (0 <= decode flags (take 2 (drop 1 hdr))) as N0 by (apply decode_bounds, Forall_take, Forall_drop, A3).
  assert (0 <= decode flags (take 8 (drop 3 hdr))) as S0 by (apply decode_bounds, Forall_take, Forall_drop, A3).
  set (namesize := decode flags (take 2 (drop 1 hdr))) in *. set (datasize := decode flags (take 8 (drop 3 hdr))) in *. cbv zeta.
  apply safe_guard. intros T1%Z.leb_le. apply safe_guard. intros T2%Z.leb_le. apply safe_guard. intros N1%Z.leb_le.
  apply safe_guard. intros N2%Z.leb_le. apply safe_guard. intros N3%Z.leb_le.
  eapply safe_bind; [apply strnlen_safe; [lia|exact A4]|]. intros k [K1 K2]. apply safe_guard. intros K3%Z.eqb_eq.
  eapply safe_bind; [apply rd_safe; [lia|exact A4]|]. intros [name l2] (B1 & B2 & B3 & B4 & B5). cbv beta iota.
  apply safe_guard. intros D1%Z.leb_le. cbn. unfold NV_TYPE_NULL, NV_TYPE_BINARY, NV_NAME_MAX in *.
  split; [lia|]. split; [|split; [lia|split; [exact B4|lia]]]. split.
  - subst k l1. rewrite take_app_le in K2 by (unfold zlen in *; lia). exact K2.
  - unfold zlen in *. rewrite length_take. unfold NV_NAME_MAX. lia.
Qed.

(** The value of a pair: the decoder takes exactly [datasize] bytes. *)
Lemma unpack_pair_safe fds nested room flags l :
  Forall is_byte l -> Forall (fun fd => 0 <= fd) fds ->
  (forall l', Forall is_byte l' -> zlen l' < zlen l -> safe (nested l') (wf_list false room)) ->
  safe (nvpair_unpack fds nested flags l) (fun '(p, rest) =>
    name_ok (nvp_name p) /\ wf_value (wf_list false room) (nvp_value p) /\ Forall is_byte rest /\ zlen rest < zlen l).
Proof.
  intros Hl Hfds Hnest. unfold nvpair_unpack. eapply safe_bind; [apply unpack_header_safe; exact Hl|].
  intros [[[type name] datasize] l1] (T & Hn & Hd & Hb & Hlen). cbv beta iota.
  eapply safe_bind with (P := fun '(v, rest) => wf_value (wf_list false room) v /\ Forall is_byte rest /\ zlen rest <= zlen l1);
    [|intros [v rest] (V1 & V2 & V3); cbn; split; [exact Hn|]; split; [exact V1|]; split; [exact V2|lia]].
  unfold NV_TYPE_NULL, NV_TYPE_BOOL, NV_TYPE_NUMBER, NV_TYPE_STRING, NV_TYPE_NVLIST, NV_TYPE_DESCRIPTOR, NV_TYPE_BINARY.
  repeat match goal with |- context [type =? ?k] => destruct (Z.eqb_spec type k) end; [..|lia].
  - apply safe_guard. intros _. cbn. split; [exact I|]. split; [exact Hb|lia].
  - unfold nvpair_unpack_bool. apply safe_guard. intros _. apply safe_guard. intros H%Z.leb_le.
    eapply safe_bind; [apply rd_safe; [lia|exact Hb]|]. intros [a b] (A1 & A2 & A3 & A4 & A5). cbv beta iota zeta.
    apply safe_guard. intros Hv. cbn. split; [|split; [exact A4|lia]]. apply orb_true_iff in Hv as [Hv|Hv]; zbool; auto.
  - unfold nvpair_unpack_number. apply safe_guard. intros _. apply safe_guard. intros H%Z.leb_le.
    eapply safe_bind; [apply rd_safe; [lia|exact Hb]|]. intros [a b] (A1 & A2 & A3 & A4 & A5). cbn.
    pose proof (decode_bounds flags a A3) as Hdb. rewrite A1 in Hdb. split; [exact Hdb|]. split; [exact A4|lia].
  - unfold nvpair_unpack_string. apply safe_guard. intros H. apply negb_true_iff, orb_false_iff in H as [H1%Z.ltb_ge H2%Z.eqb_neq].
    eapply safe_bind; [apply strnlen_safe; [lia|exact Hb]|]. intros k [K1 K2]. apply safe_guard. intros K3%Z.eqb_eq.
    eapply safe_bind; [apply rd_safe; [lia|exact Hb]|]. intros [a b] (A1 & A2 & A3 & A4 & A5). cbn.
    split; [|split; [exact A4|lia]]. subst k l1. rewrite take_app_le in K2 by (unfold zlen in *; lia). exact K2.
  - unfold nvpair_unpack_nvlist. apply safe_guard. intros H. apply negb_true_iff, orb_false_iff in H as [H1%Z.ltb_ge H2%Z.eqb_neq].
    eapply safe_bind; [apply rd_safe; [lia|exact Hb]|]. intros [a b] (A1 & A2 & A3 & A4 & A5). cbv beta iota.
    eapply safe_bind; [apply Hnest; [exact A3|lia]|]. intros v Hv. cbn. split; [exact Hv|]. split; [exact A4|lia].
  - unfold nvpair_unpack_descriptor. apply safe_guard. intros _. apply safe_guard. intros H%Z.leb_le.
    eapply safe_bind; [apply rd_safe; [lia|exact Hb]|]. intros [a b] (A1 & A2 & A3 & A4 & A5). cbv beta iota zeta.
    apply safe_guard. intros _. destruct (fds !! _) as [fd|] eqn:E; cbn; [|reflexivity].
    split; [rewrite Forall_forall in Hfds; apply Hfds; eapply list_elem_of_lookup_2; exact E|]. split; [exact A4|lia].
  - unfold nvpair_unpack_binary. apply safe_guard. intros H. apply negb_true_iff, orb_false_iff in H as [H1%Z.ltb_ge H2%Z.eqb_neq].
    eapply safe_bind; [apply rd_safe; [lia|exact Hb]|]. intros [a b] (A1 & A2 & A3 & A4 & A5). cbn.
    split; [split; [intros ->; change (zlen []) with 0 in A1; lia|exact A3]|]. split; [exact A4|lia].
Qed.

Lemma unpack_pairs_safe fds nested room flags : forall fuel l nvl,
  Forall is_byte l -> Forall (fun fd => 0 <= fd) fds -> zlen l <= Z.of_nat fuel ->
  (forall l', Forall is_byte l' -> zlen l' < zlen l -> safe (nested l') (wf_list false room)) ->
  wf_list false (S room) nvl ->
  safe (unpack_pairs fds nested fuel flags l nvl) (wf_list false (S room)).
Proof.
  induction fuel as [|fuel IH]; intros l nvl Hl Hfds Hfuel Hnest Hw.
  { destruct l; [exact Hw|]. rewrite zlen_cons in Hfuel. pose proof (zlen_nonneg l). lia. }
  destruct l as [|c l0]; [exact Hw|]. set (l := c :: l0) in *. change (unpack_pairs fds nested (S fuel) flags l nvl) with
    ('(p, l) ← nvpair_unpack fds nested flags l; nvl ← nvlist_move_nvpair nvl p; unpack_pairs fds nested fuel flags l nvl).
  eapply safe_bind; [exact (unpack_pair_safe fds nested room flags l Hl Hfds Hnest)|].
  intros [p rest] (P1 & P2 & P3 & P4). cbv beta iota.
  assert (safe (nvlist_move_nvpair nvl p) (wf_list false (S room))) as Hm.
  { cbn [wf_list] in Hw. destruct Hw as (W1 & W2 & W3 & W4). destruct (Z.eq_dec (nvl_error nvl) 0) as [E|E].
    - rewrite move_nvpair_spec by exact E. destruct (find_pair _ _ _ _) eqn:Ef; cbn [safe wf_list nvl_error nvl_flags nvl_head].
      + split; [right; auto|]. auto.
      + split; [left; reflexivity|]. split; [exact W2|]. split.
        * apply distinct_snoc. split; [exact W3|]. apply find_pair_none_inv. exact Ef.
        * apply Forall_app. split; [exact W4|]. constructor; [split; assumption|constructor].
    - unfold nvlist_move_nvpair. apply Z.eqb_neq in E. rewrite E. cbn [negb safe wf_list]. auto. }
  eapply safe_bind; [exact Hm|]. intros nvl' Hw'. apply IH; auto; [lia|]. intros l' Hb Hlt. apply Hnest; [exact Hb|lia].
Qed.

Lemma unpack_list_header_safe l nfds : Forall is_byte l ->
  safe (nvlist_unpack_header l nfds) (fun '(pub, flags, rest) =>
    (pub = 0 \/ pub = 1) /\ Forall is_byte rest /\ zlen rest < zlen l).
Proof.
  intros Hl. unfold nvlist_unpack_header, nvlist_header_size. apply safe_guard. intros H%Z.leb_le.
  eapply safe_bind; [apply rd_safe; [lia|exact Hl]|]. intros [hdr rest] (A1 & A2 & A3 & A4 & A5). cbv beta iota.
  eapply safe_bind with (P := fun _ => True).
  { unfold nvlist_check_header. apply safe_guard. intros _. apply safe_guard. intros _. destruct (has_flag _ _); exact I. }
  intros h _. apply safe_guard. intros _. apply safe_guard. intros _. apply safe_guard. intros _. cbn.
  split; [|split; [exact A4|lia]]. unfold NV_FLAG_PUBLIC_MASK, NV_FLAG_IGNORE_CASE.
  assert (Z.land (nvlh_flags h) 1 = nvlh_flags h mod 2) as -> by (change 1 with (Z.ones 1); apply Z.land_ones; lia).
  pose proof (Z.mod_pos_bound (nvlh_flags h) 2). lia.
Qed.

Lemma xunpack_fuel_safe fds : forall fuel l,
  Forall is_byte l -> Forall (fun fd => 0 <= fd) fds -> (length l < fuel)%nat ->
  safe (nvlist_xunpack_fuel fuel fds l) (wf_list false fuel).
Proof.
  induction fuel as [|fuel IH]; intros l Hl Hfds Hf; [lia|]. cbn [nvlist_xunpack_fuel].
  eapply safe_bind with (P := fun nvl => nvl = mk_nvlist 0 0 []); [reflexivity|]. intros nvl ->.
  eapply safe_bind; [exact (unpack_list_header_safe l (zlen fds) Hl)|]. intros [[pub flags] rest] (P1 & P2 & P3). cbv beta iota.
  apply unpack_pairs_safe; auto; [unfold zlen; lia| |].
  - intros l' Hl' Hlt. apply IH; auto. unfold zlen in *. lia.
  - cbn [wf_list nvl_error nvl_flags nvl_head]. split; [left; reflexivity|]. split; [exact P1|]. split; constructor.
Qed.

(** C39: unpacking is safe.  Whatever bytes and descriptors arrive, nvlist_xunpack
    ends, never reads outside the buffer and never trips an assertion; if it
    returns a list, names are shorter than NV_NAME_MAX and free of NUL, no two
    names of a list are the same (ignoring case when the list says so), and
    every value is in the range of its type. *)
Theorem nvlist_xunpack_safe l fds :
  Forall is_byte l -> Forall (fun fd => 0 <= fd) fds ->
  safe (nvlist_xunpack l fds) (wf_list false (S (length l))).
Proof.
  intros Hl Hfds. unfold nvlist_xunpack. apply xunpack_fuel_safe; auto.
Qed.

(** ** A list as a dictionary *)

Lemma same_name_spec flags a b : same_name flags a b = true <->
  (if has_flag flags NV_FLAG_IGNORE_CASE then map tolower a = map tolower b else a = b).
Proof. unfold same_name. destruct (has_flag _ _); apply bool_decide_eq_true. Qed.

Lemma same_name_trans flags a b c : same_name flags a b = true -> same_name flags a c = same_name flags b c.
Proof.
  intros H. apply same_name_spec in H. unfold same_name. destruct (has_flag _ _); [rewrite H|subst]; reflexivity.
Qed.

Lemma same_name_sym flags a b : same_name flags a b = same_name flags b a.
Proof.
  unfold same_name. destruct (has_flag _ _); apply bool_decide_ext; split; congruence.
Qed.

Lemma find_pair_app flags ty n l1 l2 :
  find_pair flags ty n (l1 ++ l2) = match find_pair flags ty n l1 with Some p => Some p | None => find_pair flags ty n l2 end.
Proof. induction l1 as [|q l1 IH]; [reflexivity|]. cbn [app find_pair]. destruct (matches _ _ _ _); auto. Qed.

Lemma find_pair_untyped flags ty n l : find_pair flags NV_TYPE_NONE n l = None -> find_pair flags ty n l = None.
Proof.
  intros H%find_pair_none_inv. induction H as [|q l Hq Hl IH]; [reflexivity|]. cbn [find_pair]. unfold matches. rewrite Hq, andb_false_r. exact IH.
Qed.

Lemma find_pair_matches flags ty n l p : find_pair flags ty n l = Some p -> p ∈ l /\ matches flags ty n p = true.
Proof.
  induction l as [|q l IH]; cbn [find_pair]; [discriminate|]. destruct (matches flags ty n q) eqn:E; [intros [= <-]|]; set_solver.
Qed.

Lemma remove_pair_spec flags ty n l q : distinct flags l -> find_pair flags ty n l = Some q ->
  find_pair flags NV_TYPE_NONE n (remove_pair flags ty n l) = None /\
  distinct flags (remove_pair flags ty n l) /\
  (forall ty' n', same_name flags n n' = false -> find_pair flags ty' n' (remove_pair flags ty n l) = find_pair flags ty' n' l).
Proof.
  intros Hd. induction Hd as [|p l Hp Hd IH]; cbn [find_pair remove_pair]; [discriminate|].
  destruct (matches flags ty n p) eqn:E.
  - intros [= ->]. unfold matches in E. apply andb_true_iff in E as [_ E]. split; [|split; [exact Hd|]].
    + apply find_pair_none. eapply Forall_impl; [exact Hp|]. cbn. intros x Hx.
      rewrite same_name_sym, <- (same_name_trans _ _ _ _ E). exact Hx.
    + intros ty' n' Hn. unfold matches. rewrite (same_name_trans _ _ _ n' E), Hn, andb_false_r. reflexivity.
  - intros Hf. destruct (IH Hf) as (I1 & I2 & I3). cbn [find_pair].
    assert (matches flags NV_TYPE_NONE n p = false) as En.
    { destruct (find_pair_matches _ _ _ _ _ Hf) as [Hin Hm]. rewrite Forall_forall in Hp. specialize (Hp q Hin).
      unfold matches in *. apply andb_true_iff in Hm as [_ Hm]. cbn [Z.eqb NV_TYPE_NONE orb andb].
      rewrite same_name_sym, <- (same_name_trans _ _ _ _ Hm), same_name_sym. exact Hp. }
    rewrite En. split; [exact I1|]. split.
    + constructor; [|exact I2]. apply Forall_forall. intros x Hx. rewrite Forall_forall in Hp. apply Hp.
      clear - Hx. induction l as [|y l IH]; cbn [remove_pair] in Hx; [set_solver|]. destruct (matches flags ty n y); set_solver.
    + intros ty' n' Hn. rewrite (I3 ty' n' Hn). reflexivity.
Qed.

(** C40: a list is a dictionary.  Adding a pair with a new name makes it found
    under that name (ignoring case when the list does) and changes no other
    lookup; adding a known name leaves the contents alone and sets the error
    EEXIST, after which the list takes no more pairs; taking a value removes
    its name and changes no other lookup.  Names stay distinct. *)
Theorem nvlist_dictionary nvl p :
  nvl_error nvl = 0 -> distinct (nvl_flags nvl) (nvl_head nvl) ->
  let find nvl := find_pair (nvl_flags nvl) in
  match find_pair (nvl_flags nvl) NV_TYPE_NONE (nvp_name p) (nvl_head nvl) with
  | None => exists nvl', nvlist_addv nvl (Ok p) = Ok nvl' /\ nvl_error nvl' = 0 /\ nvl_flags nvl' = nvl_flags nvl /\
      distinct (nvl_flags nvl') (nvl_head nvl') /\
      forall ty n, find nvl' ty n (nvl_head nvl') =
        if matches (nvl_flags nvl) ty n p then Some p else find nvl ty n (nvl_head nvl)
  | Some _ => exists nvl', nvlist_addv nvl (Ok p) = Ok nvl' /\ nvl_error nvl' = EEXIST /\ nvl_head nvl' = nvl_head nvl /\
      forall r, nvlist_addv nvl' r = Ok nvl'
  end /\
  forall ty n q, find nvl ty n (nvl_head nvl) = Some q ->
    exists nvl', nvlist_takev nvl ty n = Ok (nvp_value q, nvl') /\ nvl_error nvl' = 0 /\ nvl_flags nvl' = nvl_flags nvl /\
      distinct (nvl_flags nvl') (nvl_head nvl') /\
      forall ty' n', find nvl' ty' n' (nvl_head nvl') =
        if same_name (nvl_flags nvl) n n' then None else find nvl ty' n' (nvl_head nvl).
Proof.
  intros He Hd. cbv zeta. split.
  - unfold nvlist_addv. rewrite He. cbn [Z.eqb negb]. rewrite move_nvpair_spec by exact He.
    destruct (find_pair (nvl_flags nvl) NV_TYPE_NONE (nvp_name p) (nvl_head nvl)) eqn:Ef; eexists; (split; [reflexivity|]); cbn [nvl_error nvl_flags nvl_head].
    + split; [reflexivity|]. split; [reflexivity|]. intros r. reflexivity.
    + split; [reflexivity|]. split; [reflexivity|]. split; [apply distinct_snoc; split; [exact Hd|apply find_pair_none_inv; exact Ef]|].
      intros ty n. rewrite find_pair_app. cbn [find_pair]. destruct (matches (nvl_flags nvl) ty n p) eqn:Em.
      * rewrite find_pair_untyped; [reflexivity|]. apply find_pair_none. apply find_pair_none_inv in Ef.
        eapply Forall_impl; [exact Ef|]. cbn. intros x Hx. unfold matches in Em. apply andb_true_iff in Em as [_ Em].
        rewrite same_name_sym, <- (same_name_trans _ _ _ _ Em), same_name_sym. exact Hx.
      * destruct (find_pair (nvl_flags nvl) ty n (nvl_head nvl)); reflexivity.
  - intros ty n q Hq. unfold nvlist_takev, nvlist_findv. rewrite He. cbn [Z.eqb passert mbind nvres_bind].
    change (list (nvpair_of nvvalue)) with (list nvpair) in *. rewrite Hq. eexists. split; [reflexivity|]. cbn [nvl_error nvl_flags nvl_head].
    destruct (remove_pair_spec _ _ _ _ _ Hd Hq) as (R1 & R2 & R3). split; [first [exact He|reflexivity]|]. split; [reflexivity|]. split; [exact R2|].
    intros ty' n'. destruct (same_name (nvl_flags nvl) n n') eqn:En; [|apply R3; exact En].
    apply find_pair_untyped. apply find_pair_none. apply find_pair_none_inv in R1. eapply Forall_impl; [exact R1|]. cbn. intros x Hx.
    rewrite same_name_sym, <- (same_name_trans _ _ _ _ En), same_name_sym. exact Hx.
Qed.

(** ** Concrete inputs *)

Definition sample_inner : nvlist := mk_nvlist 0 1 [mk_nvpair [102; 100] (NVDescriptor 7); mk_nvpair [66] (NVBinary [0; 255])].
Definition sample_nvl : nvlist := mk_nvlist 0 0
  [mk_nvpair [97] NVNull; mk_nvpair [98] (NVBool 1); mk_nvpair [99; 100] (NVNumber 65536);
   mk_nvpair [101] (NVString [104; 105]); mk_nvpair [102] (NVList sample_inner); mk_nvpair [103] (NVDescriptor 9)].

Lemma sample_nvl_wf : wf_list true 3 sample_nvl.
Proof.
  unfold sample_nvl, sample_inner.
  repeat (cbn [wf_list nvl_error nvl_flags nvl_head nvp_name nvp_value wf_value name_ok];
    match goal with
    | |- _ /\ _ => split
    | |- name_ok _ => split
    | |- Forall _ _ => constructor
    | |- distinct _ _ => unfold distinct
    | |- ForallOrdPairs _ _ => constructor
    end);
    solve [left; reflexivity | right; reflexivity | reflexivity | discriminate | unfold is_byte; lia | exact I].
Qed.

Lemma nvlist_send_recv_witness :
  exists data fds, nvlist_send sample_nvl = Ok (data, fds) /\ fds = [7; 9] /\ nvlist_recv (data ++ [1; 2; 3]) fds = Ok sample_nvl.
Proof.
  destruct (nvlist_send_recv sample_nvl [1; 2; 3] sample_nvl_wf) as (data & fds & H1 & _ & H2); [reflexivity|].
  exists data, fds. split; [exact H1|]. split; [|exact H2]. vm_compute in H1. injection H1 as _ <-. reflexivity.
Defined.

Lemma nvlist_xunpack_safe_witness :
  safe (nvlist_xunpack [108; 0; 0; 0; 0; 0; 0; 0; 0; 0; 0; 3; 0; 0; 0; 0; 0; 0; 0; 9; 9; 9] [4])
    (wf_list false 23).
Proof.
  apply (nvlist_xunpack_safe [108; 0; 0; 0; 0; 0; 0; 0; 0; 0; 0; 3; 0; 0; 0; 0; 0; 0; 0; 9; 9; 9] [4]);
    repeat constructor; unfold is_byte; lia.
Defined.

Lemma nvlist_dictionary_witness :
  exists nvl', nvlist_addv sample_nvl (Ok (mk_nvpair [104] (NVNumber 5))) = Ok nvl' /\
    find_pair 0 NV_TYPE_NUMBER [104] (nvl_head nvl') = Some (mk_nvpair [104] (NVNumber 5)).
Proof.
  destruct (nvlist_dictionary sample_nvl (mk_nvpair [104] (NVNumber 5)) eq_refl) as [H _].
  - destruct sample_nvl_wf as (_ & _ & H & _). exact H.
  - cbv zeta in H.
    assert (find_pair (nvl_flags sample_nvl) NV_TYPE_NONE (nvp_name (mk_nvpair [104] (NVNumber 5))) (nvl_head sample_nvl) = None)
      as E by reflexivity.
    rewrite E in H. destruct H as (nvl' & H1 & _ & F & _ & H2).
    exists nvl'. split; [exact H1|]. specialize (H2 NV_TYPE_NUMBER [104]). rewrite F in H2. exact H2.
Defined.

(** ** Defects of nvlist_recv *)

(** A list with the one pair "a" (null) as a big-endian host packs it. *)
Definition big_endian_msg : list Z :=
  [108; 0; 128; 0; 0; 0; 0; 0; 0; 0; 0; 0; 0; 0; 0; 0; 0; 0; 13] ++
  [1; 0; 2; 0; 0; 0; 0; 0; 0; 0; 0; 97; 0].

(** Messages of big-endian peers are refused.  nvlist_check_header has already
    converted the header when nvlist_recv copies it in front of the data, and
    nvlist_xunpack converts it again: nvlist_unpack accepts the packed list,
    nvlist_recv of the same bytes fails. *)
Theorem nvlist_recv_refuses_big_endian :
  nvlist_unpack big_endian_msg = Ok (mk_nvlist 0 0 [mk_nvpair [97] NVNull]) /\
  nvlist_recv big_endian_msg [] = Err EINVAL.
Proof. split; vm_compute; reflexivity. Qed.

(** Nvlist_recv overflows its buffer.  A peer that announces a size within 19
    of 2^64 makes the size computation wrap around: the header of 19 bytes is
    copied into a smaller buffer. *)
Theorem nvlist_recv_header_overflow size more fds :
  2 ^ 64 - 19 <= size < 2 ^ 64 ->
  nvlist_recv (header_bytes (mk_header NVLIST_HEADER_MAGIC NVLIST_HEADER_VERSION 0 0 size) ++ more) fds = Abort.
Proof.
  intros Hs. unfold nvlist_recv. set (h := mk_header _ _ _ _ size). rewrite zlen_app, zlen_header.
  unfold nvlist_header_size. pose proof (zlen_nonneg more). zguard. rewrite rd_app by apply zlen_header. cbn [mbind nvres_bind].
  rewrite header_roundtrip by (cbn; lia).
  change (nvlist_check_header h) with (@Ok nvlist_header h). cbn [mbind nvres_bind]. change (nvlh_size h) with size.
  assert (u64 (19 + size) = 19 + size - 2 ^ 64) as ->.
  { unfold u64. symmetry. apply Z.mod_unique_pos with 1; lia. }
  destruct (Z.leb_spec 19 (19 + size - 2 ^ 64)); [lia|]. reflexivity.
Qed.

Lemma nvlist_recv_header_overflow_witness :
  nvlist_recv (header_bytes (mk_header NVLIST_HEADER_MAGIC NVLIST_HEADER_VERSION 0 0 (2 ^ 64 - 10)) ++ []) [] = Abort.
Proof. apply (nvlist_recv_header_overflow (2 ^ 64 - 10) [] []). lia. Defined.
End Nv.
